(* ===== verification/_CoqProject ===== *)
-Q . S2P
Prelude.v
Order.v
Collections.v
Text.v
Identity.v
StaticTypes.v
Normalize.v
Facts.v
Diagnostics.v
DiagnosticsProps.v
Validation.v
Canonical.v
Inheritance.v
ValidationProps.v
FactsProps.v
Json.v
Artifact.v
ArtifactProps.v
Deployment.v
DeploymentProps.v
Ids.v
IdsProps.v
Cfg.v
CfgProps.v
Names.v
Instr.v
InstrProps.v
ValueFacts.v
FactInference.v
ValueFactsProps.v
FactInferenceProps.v
PySemantics.v
FactSoundness.v
FactStoreProps.v
Layout.v
LayoutProps.v
ClassBindings.v
Scope.v
ScopeProps.v
ModuleCheck.v
ModuleCheckProps.v
BbShape.v
Resolved.v
ResolvedSem.v
Roles.v
Flow.v
OperandCleanup.v
LiveAgree.v
OperandCleanupProps.v
OperandRelease.v
Split.v
Transport.v
TransportProps.v
TransportLifetime.v
TransportLifetimeProps.v
TransportTotal.v
Pending.v
PendingProps.v
PendingRefine.v
PendingRelease.v
ExceptionPass.v
Escape.v
EscapeProps.v
Region.v
RegionProps.v
Specialize.v
SpecializeProps.v
RegionMatch.v
RegionMatchProps.v
Plan.v
Emit.v
Alternatives.v
PlanBuild.v
PlanBuildProps.v
PlanAccepted.v
RegionRun.v
RegionCode.v
RegionRunProps.v
RegionLaws.v
RegionRefine.v
