(* ===== verification/Prelude.v ===== *)
(** * SOAC verification library

    SOAC compiles Python functions through a chain of intermediate representations to
    machine code and enforces type contracts that an offline analysis published as signed
    artifacts.  This library models the parts of the Rust workspace under src/crates that
    carry its own logic and proves what makes them correct.  All definitions are executable;
    each mirrors one function or type of the source and keeps its name where possible.

    ** Parts of the program and the files that model them

    soac_contracts decides which facts the compiler may trust.
    - [Order], [Collections], [Text]: derived orders, sorting, B-tree sets and maps, bytes
      and UTF-8 strings as the Rust standard library has them.
    - [Json]: canonical JSON values (artifact.rs: sort_objects, canonical_bytes).
    - [Identity]: identity.rs and error.rs, hex codec, legacy hash, ranges and site ids.
    - [StaticTypes], [Normalize], [Facts], [FactsProps]: facts.rs and policy.rs, the static
      types, their normal form, class ownership and the required fields.
    - [Diagnostics], [DiagnosticsProps]: diagnostics.rs, demotion of suppressed regions.
    - [Validation], [ValidationProps], [Inheritance], [Canonical]: validation.rs.
    - [Artifact], [ArtifactProps]: artifact.rs, shards, manifests, signatures, generations.
    - [Deployment], [DeploymentProps]: deployment.rs, analysis inputs and dependencies.

    soac_core, soac_ir_blockpy and soac_lowering hold the BlockPy representation.
    - [Ids], [IdsProps]: name_gen.rs, packed ids and the shared name generators; the atomic
      counters are cells of an explicit store, so clones that share a counter are modelled.
    - [Cfg], [CfgProps]: blocks, terminators and edges (soac_core/src/block_py/mod.rs) and
      the graph utilities of soac_lowering (block_py/cfg.rs, block_py/validate.rs, the end of
      build_core_blockpy_callable_def_from_runtime_input).  The state of a running function
      is a parameter, [Machine], that says what instructions, branches and calls do.
    - [Names]: the runtime-name table, physical locations and resolved names.
    - [Instr], [InstrProps]: InstrBlockPy as a tree, the walkers of visit.rs, consuming
      reads, instruction ids (soac_ir_blockpy/src/instr_id.rs).
    - [Layout], [LayoutProps]: StorageLayout and the generator resume ABI of scope.rs,
      operand checks of instr.rs and call_arguments.rs, temporaries of soac_opt/passes/mod.rs.
    - [ClassBindings]: class_bindings.rs, native class metadata and capture creation sites.
    - [Scope], [ScopeProps]: CallableScopeInfo of scope.rs, the class projection check and
      the closure layout of soac_lowering/src/block_py/scope_impls.rs.
    - [ModuleCheck], [ModuleCheckProps]: functions with their layouts and the module
      validator of soac_lowering/src/block_py/validate.rs.
    - [BbShape]: soac_lowering/src/passes/ruff_to_blockpy/bb_shape.rs, block parameters and
      exception-edge arguments.
    - [Roles]: soac_lowering/src/passes/block_parameter_roles.rs, control roles of slots.

    The exception lowering (soac_lowering/src/passes/blockpy_to_bb/exception_pass) makes
    explicit what has to be released when control leaves an expression, a handler or a
    finally block.
    - [Resolved], [ResolvedSem]: instructions with resolved storage (InstrResolved), and the
      specification the passes are judged by: a class [ResolvedRuntime] for what operations
      do, the evaluation of expressions over a frame of slots, edges that bind parameters,
      and executions of blocks.
    - [Flow]: the backward fixpoint that two passes share, monotone and bounded.
    - [LiveAgree]: executions of two frames that agree on the live slots.
    - [OperandCleanup], [OperandCleanupProps], [OperandRelease]: operand_cleanup.rs.
    - [Split]: split_exception_blocks_for_expr_checks of mod.rs.
    - [Transport], [TransportProps]: transport_storage.rs, which slots own an exception.
    - [TransportLifetime], [TransportLifetimeProps], [TransportTotal]: transport_lifetime.rs.
    - [Pending], [PendingProps], [PendingRefine], [PendingRelease]: pending_cleanup.rs.
    - [ExceptionPass]: the passes one after the other, mod.rs.

    soac_ir_typed and soac_opt use facts about values.
    - [ValueFacts], [ValueFactsProps]: soac_ir_typed/src/value_facts.rs.
    - [FactInference], [FactInferenceProps]: soac_opt/src/passes/value_facts.rs.
    - [PySemantics]: not code of the repository but the specification the inference is
      judged by: a class [PyRuntime] of values with the laws the language documents, and the
      evaluation of expressions and blocks.
    - [FactSoundness], [FactStoreProps]: the inferred facts hold on every execution.
    - [Region], [RegionProps]: soac_opt/src/region_v3.rs, expressions as numbered values,
      against evaluations that may change the world and raise.
    - [Specialize], [SpecializeProps]: plans for single instructions (plan_v3.rs of
      soac_ir_typed and planner_v3.rs of soac_opt).
    - [RegionMatch], [RegionMatchProps]: evidence_v3.rs, operator_specialization.rs and the
      recognition of regions in planner_v3.rs.
    - [Plan]: region plans and their validation (plan_v3.rs); [Emit]: the steps of the code
      generator and what it supports (emit_v3.rs, region_emission_v3.rs); [Alternatives]: the
      catalog of lowering alternatives (alternatives_v3.rs); [PlanBuild], [PlanBuildProps],
      [PlanAccepted]: the construction of region plans (planner_v3.rs).
    - [RegionRun]: what the code generated for region plans does (soac_jit/src/jit/mod.rs,
      intrinsics.rs and operation_specializations.rs, and soac_jit_runtime), as runs that go
      on, fall back or raise and that record every reference taken and released: loads of
      locals with the test for one that is not bound, the guards on small integers, indexed
      globals and fields kept in the instance, and the comparison of strings.  [JitRuntime] has
      the functions of the interpreter it calls and the layout of objects it reads.  [RegionCode] writes the steps of every shape out, [RegionRunProps]
      has the rules to run them, [RegionLaws] is the interface of the interpreter functions
      (class [RegionLaws]), and [RegionRefine] relates the code to the expression.
    - [Escape], [EscapeProps]: soac_opt/src/passes/escape_analysis.rs and inline_plan.rs,
      constructors that only store fields, against executions that record attribute stores.

    ** What the theorems show

    - Artifacts: what is published can be loaded, and whatever is loaded was signed, pinned
      and matches the source, policy and dependencies at hand; canonicalisation is
      idempotent and independent of the producer's order; the start-up snapshot refines
      fresh verification.
    - Facts: validated facts resolve, are acyclic and demoted; nothing that mentions a
      suppressed region is trusted; normalisation keeps meaning.
    - Control flow: folding, pruning and relabelling preserve every execution; a validated
      module never runs into an undefined block; dense relabelling fails exactly on dangling
      labels; lowered exception edges pass what their handlers expect.
    - Ids, layouts and scopes: generated names and instruction ids are unique; operands of a
      checked call are moved once; temporaries do not collide with owners; class cells have
      owners of their own; layouts do not depend on hash order; name resolution is coherent;
      control roles reach exactly the slots the marked copies reach.
    - Exception lowering: splitting keeps executions exactly; the unwinding of operands and of
      finally payloads and the retirement of transports only add releases: every execution of
      the result is one of the given function up to slots nobody reads, where the release of
      an operand has whatever effect it has on the world; operands nobody reads are released
      before a handler runs, payloads that are left behind are
      released on every path; the retirement always ends; the passes in sequence keep labels
      distinct and leave none of the marks they consume.  Two examples show code that loses a
      value: an edge that exchanges transports, and an edge with fewer arguments than
      parameters out of a finally block.
    - Value facts: the lattice operations are greatest lower bounds, inference ends, and its
      result is sound for the executions described in [PySemantics]; an inline plan lists
      exactly the field stores its constructor performs; an extracted region performs the
      operations of its expression in the same order, and what the planner recognises in it is
      what the expression and the profile of its own instruction say; the plans made of it have
      distinct numbers, pass their validation and are supported by the code generator.
    - Generated code: every run of the code of a recognised region is an execution of its
      expression with the same exit, through the guarded or the general path, and releases what
      it took; or an integer object could not be made, and that failure is what it raises.  On
      such a failure a reference is lost when a global is compared with a constant.

    What is asked of the interpreter is stated in classes and named in the theorems that use
    them: a quiet delete of a frame slot does not raise ([QuietRelease], with any effect on the
    world); a store into a frame slot does not raise and dropping the value that was there is not
    observed ([TransportRuntime], for payloads and transports); the functions generated code calls
    perform the operations of the language, except that making an integer may fail ([RegionLaws]).

    ** Modelling choices, bounds and fuel

    Machine integers are [Z] with wrap-around or overflow written out: u32 and u64 counters
    wrap ([Ids]), checked additions return [None] ([Instr]).  Panics are [None] and errors
    [Err].  A [HashMap] is a [gmap]; where the code iterates one, the order is a parameter
    with the law that every entry is visited once ([Scope.HashOrder]).  Loops that are not
    structural take fuel: the depth-first search of [Validation] one unit per edge and node,
    the dependency loop of [Diagnostics] one per definition, the reachability loop of [Cfg]
    one per label ([prune_fuel]), the data-flow loop of [FactInference] one per fact that can
    still be lost ([flow_fuel]), the role loop of [Roles] one per binding that can be added
    ([role_fuel]), the loops of the exception lowering one per slot that can become live
    ([settle_fuel]), acquired ([acquire_fuel]) or owned ([copy_fuel], [owned_fuel]) and per
    handler that can be lost ([scope_fuel]), the search for a free id in [Instr] one per used id.  For
    each the fuel is proved to be enough, so "out of fuel" is never a result.

    SHA-256, Ed25519, serde_json printing and parsing, the file system and the functions of the
    interpreter are parameters with the documented laws as hypotheses; witnesses instantiate
    them.

    ** Not modelled

    The rewriting of the ruff AST (its types are not part of the repository), the typed IR
    with its planning and ownership passes, name binding, source directives, instrumentation,
    the driver, code generation other than that of region plans, run time and bindings,
    inspection tools and macros. *)

From stdpp Require Export base decidable sets list strings.
From Stdlib Require Export ZArith Lia.

#[global] Set Default Goal Selector "!".

(** ** Results

    Rust's [Result<T, E>].  [let?] is the [?] operator with a binding and [do?]
    is the [?] operator on a [Result<(), E>] statement. *)

Inductive result (E A : Type) : Type :=
| Ok (a : A)
| Err (e : E).
Arguments Ok {E A} a.
Arguments Err {E A} e.

Declare Scope rust_scope.
Delimit Scope rust_scope with rust.
Open Scope rust_scope.

Definition rbind {E A B} (r : result E A) (k : A -> result E B) : result E B :=
  match r with
  | Ok a => k a
  | Err e => Err e
  end.

Notation "'let?' x ':=' r 'in' k" := (rbind r (fun x => k))
  (at level 10, x pattern, r at level 100, k at level 200) : rust_scope.
Notation "'do?' r ';' k" := (rbind r (fun _ => k))
  (at level 10, r at level 100, k at level 200) : rust_scope.

Definition is_ok {E A} (r : result E A) : bool :=
  match r with Ok _ => true | Err _ => false end.

(** [Option::ok_or_else]. *)
Definition ok_or {E A} (e : E) (o : option A) : result E A :=
  match o with Some a => Ok a | None => Err e end.

(** [if c { return Err(e) }]. *)
Definition ensure {E} (c : bool) (e : E) : result E unit :=
  if c then Ok tt else Err e.

(** [for x in l { f(x)? }]. *)
Fixpoint for_each {E A} (f : A -> result E unit) (l : list A) : result E unit :=
  match l with
  | [] => Ok tt
  | x :: l => do? f x; for_each f l
  end.

(** [for x in l { s = f(s, x)? }]. *)
Fixpoint for_fold {E A S} (f : S -> A -> result E S) (s : S) (l : list A) : result E S :=
  match l with
  | [] => Ok s
  | x :: l => let? s' := f s x in for_fold f s' l
  end.

(** [l.iter().map(f).collect::<Result<_, _>>()?]. *)
Fixpoint map_result {E A B} (f : A -> result E B) (l : list A) : result E (list B) :=
  match l with
  | [] => Ok []
  | x :: l => let? y := f x in let? ys := map_result f l in Ok (y :: ys)
  end.

(** [o.map(f).transpose()?] and [if let Some(x) = o { f(x)? }]. *)
Definition opt_result {E A B} (f : A -> result E B) (o : option A) : result E (option B) :=
  match o with
  | None => Ok None
  | Some x => let? y := f x in Ok (Some y)
  end.
Definition if_some {E A} (f : A -> result E unit) (o : option A) : result E unit :=
  match o with Some x => f x | None => Ok tt end.

(** [o.is_some_and(f)]. *)
Definition is_some_and {A} (f : A -> bool) (o : option A) : bool :=
  match o with Some x => f x | None => false end.
Definition is_some {A} (o : option A) : bool :=
  match o with Some _ => true | None => false end.

(** [Iterator::find]. *)
Definition find_first {A} (f : A -> bool) (l : list A) : option A := List.find f l.

(** ** Tactics and hint databases

    [ordered] closes the side conditions on sorted vectors and tree sets, and the
    rewrite database [members] reduces membership in a collection to membership in
    the lists it was built from; Collections.v fills both. *)

Create HintDb ordered.
Create HintDb members.
#[export] Hint Constructors Forall : ordered.

(** Split a successful [result] computation into its steps. *)
Ltac ok_step :=
  match goal with
  | H : Ok _ = Ok _ |- _ => injection H as H; try subst
  | H : Err _ = Ok _ |- _ => discriminate H
  | H : Ok _ = Err _ |- _ => discriminate H
  | H : rbind ?r _ = Ok _ |- _ =>
      let E := fresh "E" in destruct r eqn:E; cbn [rbind] in H
  | H : ensure ?c _ = Ok _ |- _ =>
      let E := fresh "E" in unfold ensure in H; destruct c eqn:E
  | u : unit |- _ => destruct u
  end.
Ltac ok_inv := repeat (ok_step; try discriminate).

(** Turn boolean tests in hypotheses into propositions. *)
Ltac bool_inv :=
  repeat match goal with
  | H : _ && _ = true |- _ => apply andb_true_iff in H as [? ?]
  | H : _ || _ = false |- _ => apply orb_false_iff in H as [? ?]
  | H : negb _ = true |- _ => apply negb_true_iff in H
  | H : negb _ = false |- _ => apply negb_false_iff in H
  | H : bool_decide _ = true |- _ => apply bool_decide_eq_true in H
  | H : bool_decide _ = false |- _ => apply bool_decide_eq_false in H
  | H : (_ =? _)%Z = true |- _ => apply Z.eqb_eq in H
  | H : (_ =? _)%Z = false |- _ => apply Z.eqb_neq in H
  | H : (_ <=? _)%Z = true |- _ => apply Z.leb_le in H
  | H : (_ <=? _)%Z = false |- _ => apply Z.leb_gt in H
  | H : (_ <? _)%Z = true |- _ => apply Z.ltb_lt in H
  | H : (_ <? _)%Z = false |- _ => apply Z.ltb_ge in H
  end.

(** ** Lemmas on results *)

Lemma rbind_ok {E A B} (r : result E A) (k : A -> result E B) b :
  rbind r k = Ok b <-> exists a, r = Ok a /\ k a = Ok b.
Proof. destruct r; cbn; naive_solver. Qed.

Lemma for_each_ok {E A} (f : A -> result E unit) l :
  for_each f l = Ok tt <-> Forall (fun x => f x = Ok tt) l.
Proof.
  induction l as [|x l IH]; cbn; [naive_solver|].
  rewrite Forall_cons, <- IH. split.
  - intros H. by ok_inv.
  - intros [-> ?]. done.
Qed.

Lemma for_each_elem {E A} (f : A -> result E unit) l x :
  for_each f l = Ok tt -> x ∈ l -> f x = Ok tt.
Proof. intros H Hx. apply for_each_ok in H. rewrite Forall_forall in H. auto. Qed.

Lemma if_some_ok {E A} (f : A -> result E unit) o :
  if_some f o = Ok tt <-> forall x, o = Some x -> f x = Ok tt.
Proof. destruct o; cbn; naive_solver. Qed.

Lemma map_result_ok {E A B} (f : A -> result E B) l l' :
  map_result f l = Ok l' <-> Forall2 (fun x y => f x = Ok y) l l'.
Proof.
  revert l'. induction l as [|x l IH]; intros l'; cbn.
  - split; [intros [= <-]; constructor | intros H; inversion H; reflexivity].
  - split.
    + intros H. ok_inv. constructor; [done|]. by apply IH.
    + intros H; inversion H as [|? y ? ys Hy Hys]; subst.
      apply IH in Hys. by rewrite Hy, Hys.
Qed.

Lemma map_result_id {E A} (f : A -> result E A) l :
  Forall (fun x => f x = Ok x) l -> map_result f l = Ok l.
Proof. intros H. apply map_result_ok. induction H; constructor; auto. Qed.

Lemma map_result_map_proj {E A B} (f : A -> result E A) (p : A -> B) l l' :
  (forall x y, f x = Ok y -> p y = p x) ->
  map_result f l = Ok l' -> map p l' = map p l.
Proof.
  intros Hp H. apply map_result_ok in H.
  induction H; cbn; f_equal; eauto.
Qed.

Lemma opt_result_ok {E A B} (f : A -> result E B) o o' :
  opt_result f o = Ok o' <-> option_Forall2 (fun x y => f x = Ok y) o o'.
Proof.
  destruct o as [x|]; cbn.
  - split.
    + intros H. ok_inv. by constructor.
    + intros H; inversion H as [? ? Hy|]; subst. by rewrite Hy.
  - split; [intros [= <-]; constructor | intros H; inversion H; reflexivity].
Qed.

(** ** Lemmas on lists *)

Lemma existsb_map {A B} (f : A -> B) (p : B -> bool) l :
  existsb p (map f l) = existsb (fun x => p (f x)) l.
Proof. induction l; cbn; congruence. Qed.

Lemma existsb_ext_Forall {A} (p q : A -> bool) l :
  Forall (fun x => p x = q x) l -> existsb p l = existsb q l.
Proof. induction 1; cbn; congruence. Qed.

Lemma forallb_ext_Forall {A} (p q : A -> bool) l :
  Forall (fun x => p x = q x) l -> forallb p l = forallb q l.
Proof. induction 1; cbn; congruence. Qed.

Lemma existsb_elem {A} (p : A -> bool) l :
  existsb p l = true <-> exists x, x ∈ l /\ p x = true.
Proof. rewrite existsb_exists. setoid_rewrite list_elem_of_In. done. Qed.

Lemma existsb_false_elem {A} (p : A -> bool) l :
  existsb p l = false <-> forall x, x ∈ l -> p x = false.
Proof.
  rewrite <- not_true_iff_false, existsb_elem. split.
  - intros H x Hx. destruct (p x) eqn:E; [exfalso; eauto|done].
  - intros H (x & Hx & Hp). rewrite H in Hp; done.
Qed.

Lemma filter_length_mono {A} (f g : A -> bool) l :
  (forall x, f x = true -> g x = true) -> (length (List.filter f l) <= length (List.filter g l))%nat.
Proof.
  intros H. induction l as [|x l IH]; cbn; [done|].
  destruct (f x) eqn:E; [rewrite (H x E); cbn; lia|destruct (g x); cbn; lia].
Qed.

Lemma filter_length_strict {A} (f g : A -> bool) l x :
  (forall x, f x = true -> g x = true) -> x ∈ l -> f x = false -> g x = true ->
  (length (List.filter f l) < length (List.filter g l))%nat.
Proof.
  intros H Hx Hf Hg. induction l as [|y l IH]; cbn; [set_solver|].
  pose proof (filter_length_mono f g l H). apply elem_of_cons in Hx as [<-|Hx].
  - rewrite Hf, Hg. cbn. lia.
  - specialize (IH Hx). destruct (f y) eqn:E; [rewrite (H y E); cbn; lia|destruct (g y); cbn; lia].
Qed.

Lemma forallb_elem {A} (p : A -> bool) l :
  forallb p l = true <-> forall x, x ∈ l -> p x = true.
Proof. rewrite forallb_forall. setoid_rewrite list_elem_of_In. done. Qed.

Lemma find_first_some {A} (p : A -> bool) l x :
  find_first p l = Some x -> x ∈ l /\ p x = true.
Proof. intros H. apply List.find_some in H. by rewrite list_elem_of_In. Qed.

Lemma find_first_none {A} (p : A -> bool) l :
  find_first p l = None <-> forall x, x ∈ l -> p x = false.
Proof.
  split.
  - intros H x Hx. eapply List.find_none; [exact H|]. by apply list_elem_of_In.
  - intros H. destruct (find_first p l) eqn:E; [|done].
    apply find_first_some in E as [? ?]. rewrite H in *; done.
Qed.

Lemma map_id_Forall {A} (f : A -> A) l :
  Forall (fun x => f x = x) l -> map f l = l.
Proof. induction 1; cbn; congruence. Qed.

Lemma map_fixed_elem {A} (f : A -> A) l :
  map f l = l <-> forall x, x ∈ l -> f x = x.
Proof.
  split.
  - induction l as [|y l IH]; cbn; intros E x Hx; [by apply not_elem_of_nil in Hx|].
    injection E as E1 E2. apply elem_of_cons in Hx as [->|Hx]; auto.
  - intros H. apply map_id_Forall, Forall_forall, H.
Qed.

Lemma elem_of_concat_map {A B} (f : A -> list B) l x :
  x ∈ concat (map f l) <-> exists y, y ∈ l /\ x ∈ f y.
Proof.
  induction l as [|z l IH]; cbn.
  - split; [by intros ?%not_elem_of_nil|]. intros (y & Hy & _). by apply not_elem_of_nil in Hy.
  - rewrite elem_of_app, IH. setoid_rewrite elem_of_cons. naive_solver.
Qed.

Lemma elem_of_rev_iff {A} (x : A) l : x ∈ rev l <-> x ∈ l.
Proof. by rewrite !list_elem_of_In, <- in_rev. Qed.

(** ** Machine integers *)

Definition u32_max : Z := 2 ^ 32 - 1.
Definition wrap64 (z : Z) : Z := z mod 2 ^ 64.

Lemma wrap64_bounds z : (0 <= wrap64 z < 2 ^ 64)%Z.
Proof. apply Z.mod_pos_bound. lia. Qed.
