(* ===== verification/Order.v ===== *)
(** * Rust's derived orders and the ordered collections of [std]

    [#[derive(PartialOrd, Ord)]] compares enum discriminants, then fields in
    declaration order, and [Vec], [String], [BTreeSet] and [BTreeMap]
    lexicographically.  A value is therefore ordered like the tree of its
    discriminants and fields: [key] builds that tree and [key_cmp] is the
    lexicographic comparison.  The laws are proved once, for trees; a type
    joins by an injective [key] (class [RustOrd]), which also decides [==].

    The stable [slice::sort_by], [Vec::dedup], [BTreeSet] (a strictly
    increasing list) and [BTreeMap] (a list with strictly increasing keys)
    are modelled over these orders. *)

From Stdlib Require Import Sorting.Permutation.
From S2P Require Import Prelude.

(** ** Comparison trees *)

Inductive Key : Type :=
| KInt (z : Z)
| KNode (ks : list Key).

Section key_ind.
Context (P : Key -> Prop).
Hypothesis HInt : forall z, P (KInt z).
Hypothesis HNode : forall ks, Forall P ks -> P (KNode ks).

Fixpoint key_ind' (k : Key) : P k :=
  match k with
  | KInt z => HInt z
  | KNode ks =>
      HNode ks ((fix go (ks : list Key) : Forall P ks :=
        match ks with
        | [] => Forall_nil_2 P
        | k :: ks => Forall_cons_2 P k ks (key_ind' k) (go ks)
        end) ks)
  end.
End key_ind.

(** Lexicographic comparison of lists, a proper prefix being smaller. *)
Section lex.
Context {A : Type} (cmp : A -> A -> comparison).
Fixpoint lex_cmp (xs ys : list A) : comparison :=
  match xs, ys with
  | x :: xs', y :: ys' => match cmp x y with Eq => lex_cmp xs' ys' | c => c end
  | [], _ => match ys with [] => Eq | _ => Lt end
  | _, [] => Gt
  end.
End lex.

Fixpoint key_cmp (a b : Key) : comparison :=
  match a, b with
  | KInt x, KInt y => Z.compare x y
  | KInt _, KNode _ => Lt
  | KNode _, KInt _ => Gt
  | KNode xs, KNode ys => lex_cmp key_cmp xs ys
  end.

Lemma key_cmp_eq a b : key_cmp a b = Eq <-> a = b.
Proof.
  revert b. induction a as [z|xs IH] using key_ind'; intros [y|ys]; cbn;
    try (split; congruence).
  - rewrite Z.compare_eq_iff. naive_solver.
  - transitivity (xs = ys); [|naive_solver].
    revert ys. induction IH as [|x xs Hx _ IH]; intros [|y ys]; cbn;
      try (split; congruence).
    destruct (key_cmp x y) eqn:E.
    + apply Hx in E as ->. rewrite IH. naive_solver.
    + split; [done|]. intros [= -> ->]. by rewrite (proj2 (Hx y) eq_refl) in E.
    + split; [done|]. intros [= -> ->]. by rewrite (proj2 (Hx y) eq_refl) in E.
Qed.

Lemma key_cmp_refl a : key_cmp a a = Eq.
Proof. by apply key_cmp_eq. Qed.

Lemma key_cmp_sym a b : key_cmp b a = CompOpp (key_cmp a b).
Proof.
  revert b. induction a as [z|xs IH] using key_ind'; intros [y|ys]; cbn; try done.
  - apply Z.compare_antisym.
  - revert ys. induction IH as [|x xs Hx _ IH]; intros [|y ys]; cbn; try done.
    rewrite Hx. destruct (key_cmp x y); cbn; auto.
Qed.

Lemma key_cmp_trans a b c : key_cmp a b = Lt -> key_cmp b c = Lt -> key_cmp a c = Lt.
Proof.
  revert b c. induction a as [z|xs IH] using key_ind'; intros [y|ys] [w|zs]; cbn; try done.
  - rewrite !Z.compare_lt_iff. lia.
  - revert ys zs. induction IH as [|x xs Hx _ IH]; intros [|y ys] [|z zs]; cbn; try done.
    destruct (key_cmp x y) eqn:Exy; try done; destruct (key_cmp y z) eqn:Eyz; try done; intros H1 H2.
    + apply key_cmp_eq in Exy as ->. rewrite Eyz. eauto.
    + apply key_cmp_eq in Exy as ->. by rewrite Eyz.
    + apply key_cmp_eq in Eyz as ->. by rewrite Exy.
    + by rewrite (Hx _ _ Exy Eyz).
Qed.

Definition key_le (a b : Key) : bool :=
  match key_cmp a b with Gt => false | _ => true end.
Definition key_lt (a b : Key) : bool :=
  match key_cmp a b with Lt => true | _ => false end.

Lemma key_le_refl a : key_le a a = true.
Proof. unfold key_le. by rewrite key_cmp_refl. Qed.

Lemma key_le_total a b : key_le a b = false -> key_lt b a = true.
Proof. unfold key_le, key_lt. rewrite (key_cmp_sym a b). by destruct (key_cmp a b). Qed.

Lemma key_lt_le a b : key_lt a b = true -> key_le a b = true.
Proof. unfold key_le, key_lt. by destruct (key_cmp a b). Qed.

Lemma key_lt_irrefl a : key_lt a a = false.
Proof. unfold key_lt. by rewrite key_cmp_refl. Qed.

Lemma key_lt_not_le a b : key_lt a b = true -> key_le b a = false.
Proof. unfold key_le, key_lt. rewrite (key_cmp_sym a b). by destruct (key_cmp a b). Qed.

Lemma key_le_trans a b c : key_le a b = true -> key_le b c = true -> key_le a c = true.
Proof.
  unfold key_le. destruct (key_cmp a b) eqn:E1; try done; destruct (key_cmp b c) eqn:E2; try done; intros _ _.
  - apply key_cmp_eq in E1 as ->. by rewrite E2.
  - apply key_cmp_eq in E1 as ->. by rewrite E2.
  - apply key_cmp_eq in E2 as ->. by rewrite E1.
  - by rewrite (key_cmp_trans _ _ _ E1 E2).
Qed.

Lemma key_lt_trans a b c : key_lt a b = true -> key_lt b c = true -> key_lt a c = true.
Proof.
  unfold key_lt. destruct (key_cmp a b) eqn:E1; try done; destruct (key_cmp b c) eqn:E2; try done.
  by rewrite (key_cmp_trans _ _ _ E1 E2).
Qed.

Lemma key_le_antisym a b : key_le a b = true -> key_le b a = true -> a = b.
Proof.
  intros H1 H2. apply key_cmp_eq. unfold key_le in *. rewrite (key_cmp_sym a b) in H2.
  by destruct (key_cmp a b).
Qed.

Lemma key_lt_total a b : key_lt a b = false -> key_lt b a = false -> a = b.
Proof.
  intros H1 H2. apply key_cmp_eq. unfold key_lt in *. rewrite (key_cmp_sym a b) in H2.
  by destruct (key_cmp a b).
Qed.

Lemma key_cmp_lt a b : key_cmp a b = Lt <-> key_lt a b = true.
Proof. unfold key_lt. by destruct (key_cmp a b). Qed.
Lemma key_cmp_gt a b : key_cmp a b = Gt <-> key_lt b a = true.
Proof. unfold key_lt. rewrite (key_cmp_sym a b). by destruct (key_cmp a b). Qed.

Lemma key_le_lt_trans a b c : key_le a b = true -> key_lt b c = true -> key_lt a c = true.
Proof.
  unfold key_le, key_lt. destruct (key_cmp a b) eqn:E1; try done; destruct (key_cmp b c) eqn:E2; try done.
  - apply key_cmp_eq in E1 as ->. by rewrite E2.
  - by rewrite (key_cmp_trans _ _ _ E1 E2).
Qed.
Lemma key_lt_le_trans a b c : key_lt a b = true -> key_le b c = true -> key_lt a c = true.
Proof.
  unfold key_le, key_lt. destruct (key_cmp a b) eqn:E1; try done; destruct (key_cmp b c) eqn:E2; try done.
  - apply key_cmp_eq in E2 as <-. by rewrite E1.
  - by rewrite (key_cmp_trans _ _ _ E1 E2).
Qed.

(** ** Types with a derived [Ord] *)

Class RustOrd (A : Type) : Type := {
  key : A -> Key;
  key_inj : Inj (=) (=) key;
}.
#[global] Existing Instance key_inj.

Definition ord_cmp `{RustOrd A} (a b : A) : comparison := key_cmp (key a) (key b).
Definition ord_lt `{RustOrd A} (a b : A) : bool := key_lt (key a) (key b).

Lemma ord_cmp_eq `{RustOrd A} (a b : A) : ord_cmp a b = Eq <-> a = b.
Proof. unfold ord_cmp. rewrite key_cmp_eq. split; [apply (inj key)|congruence]. Qed.

(** The [PartialEq] that agrees with the derived order. *)
Lemma ord_cmp_neq `{RustOrd A} (a b : A) c : ord_cmp a b = c -> c <> Eq -> a <> b.
Proof. intros Hc Hne E. apply ord_cmp_eq in E. congruence. Qed.

Definition ord_eq_dec `{RustOrd A} : EqDecision A := fun a b =>
  match ord_cmp a b as c return ord_cmp a b = c -> {a = b} + {a <> b} with
  | Eq => fun H => left (proj1 (ord_cmp_eq a b) H)
  | Lt => fun H => right (ord_cmp_neq a b Lt H ltac:(done))
  | Gt => fun H => right (ord_cmp_neq a b Gt H ltac:(done))
  end eq_refl.

(** Standard types. *)
#[global] Program Instance Z_ord : RustOrd Z := {| key := KInt |}.
Next Obligation. intros ?? [=]; done. Qed.

#[global] Program Instance bool_ord : RustOrd bool :=
  {| key := fun b => KInt (if b then 1 else 0) |}.
Next Obligation. by intros [] []. Qed.

Lemma map_key_inj_Forall {A} (f : A -> Key) xs :
  Forall (fun x => forall y, f x = f y -> x = y) xs ->
  forall ys, map f xs = map f ys -> xs = ys.
Proof.
  induction 1 as [|x xs Hx _ IH]; intros [|y ys]; cbn; try done.
  intros [= E1 E2]. f_equal; auto.
Qed.

#[global] Program Instance list_ord `{RustOrd A} : RustOrd (list A) :=
  {| key := fun l => KNode (map key l) |}.
Next Obligation.
  intros A ? xs ys [= E]. eapply map_key_inj_Forall; [|done].
  apply Forall_forall. intros x _ y. apply (inj key).
Qed.

#[global] Program Instance option_ord `{RustOrd A} : RustOrd (option A) :=
  {| key := fun o => match o with None => KNode [] | Some a => KNode [key a] end |}.
Next Obligation. intros A ? [] [] [=]; try done. f_equal. by apply (inj key). Qed.

#[global] Program Instance prod_ord `{RustOrd A, RustOrd B} : RustOrd (A * B) :=
  {| key := fun p => KNode [key p.1; key p.2] |}.
Next Obligation. intros A ? B ? [] [] [=]. f_equal; by apply (inj key). Qed.

(** [str] is ordered by its bytes. *)
Definition string_key (s : string) : Key :=
  KNode (map (fun a => KInt (Z.of_N (Ascii.N_of_ascii a))) (String.list_ascii_of_string s)).

Lemma N_of_ascii_inj a b : Ascii.N_of_ascii a = Ascii.N_of_ascii b -> a = b.
Proof.
  intros E. rewrite <- (Ascii.ascii_N_embedding a), <- (Ascii.ascii_N_embedding b).
  by rewrite E.
Qed.

#[global] Program Instance string_ord : RustOrd string := {| key := string_key |}.
Next Obligation.
  intros s t [= E].
  rewrite <- (String.string_of_list_ascii_of_string s),
          <- (String.string_of_list_ascii_of_string t). f_equal.
  eapply map_key_inj_Forall; [|exact E].
  apply Forall_forall. intros x _ y [= E']. apply N2Z.inj in E'. by apply N_of_ascii_inj.
Qed.

(** Close the injectivity obligation of a struct or of an enum without
    recursive fields: peel the nodes and use the injectivity of the fields. *)
Lemma KNode_cons_inj k l k' l' :
  KNode (k :: l) = KNode (k' :: l') -> k = k' /\ KNode l = KNode l'.
Proof. by intros [= -> ->]. Qed.

Ltac peel_keys :=
  repeat match goal with
  | H : KNode (_ :: _) = KNode (_ :: _) |- _ =>
      let H1 := fresh "K" in apply KNode_cons_inj in H as [H1 H]
  | H : KNode [] = KNode [] |- _ => clear H
  | H : KNode [] = KNode (_ :: _) |- _ => discriminate H
  | H : KNode (_ :: _) = KNode [] |- _ => discriminate H
  | H : KInt _ = KInt _ |- _ => first [discriminate H | clear H]
  | H : key _ = key _ |- _ => apply (inj key) in H; try subst
  end.
Ltac solve_key_inj := intros [] []; cbn -[key]; intros; peel_keys; try done.
