(* ===== verification/Collections.v ===== *)
(** * Sorting, [BTreeSet] and [BTreeMap]

    [slice::sort_by] is stable; insertion sort computes the one stable result.
    A [BTreeSet] is the strictly increasing list of its elements and a
    [BTreeMap] the list of its entries with strictly increasing keys, which is
    how both iterate, compare and serialise. *)

From Stdlib Require Import Sorting.Permutation Sorting.Sorted.
From stdpp Require Import sorting.
From S2P Require Import Prelude Order.

(** ** Sorting *)

Section sorting.
Context {A : Type} (f : A -> Key).

Fixpoint sort_insert (x : A) (l : list A) : list A :=
  match l with
  | [] => [x]
  | y :: l' => if key_le (f x) (f y) then x :: l else y :: sort_insert x l'
  end.

(** [slice::sort_by(|l, r| f(l).cmp(&f(r)))]. *)
Fixpoint sort_by (l : list A) : list A :=
  match l with
  | [] => []
  | x :: l => sort_insert x (sort_by l)
  end.

Definition SortedBy : list A -> Prop :=
  StronglySorted (fun x y => key_le (f x) (f y) = true).
Definition StrictBy : list A -> Prop :=
  StronglySorted (fun x y => key_lt (f x) (f y) = true).

Lemma sort_insert_perm x l : sort_insert x l ≡ₚ x :: l.
Proof.
  induction l as [|y l IH]; cbn; [done|].
  destruct (key_le (f x) (f y)); [done|]. rewrite IH. apply perm_swap.
Qed.

Lemma sort_by_perm l : sort_by l ≡ₚ l.
Proof. induction l as [|x l IH]; cbn; [done|]. by rewrite sort_insert_perm, IH. Qed.

Lemma elem_of_sort_by x l : x ∈ sort_by l <-> x ∈ l.
Proof. by rewrite sort_by_perm. Qed.

Lemma sort_insert_sorted x l : SortedBy l -> SortedBy (sort_insert x l).
Proof.
  induction 1 as [|y l Hl IH Hy]; cbn; [repeat constructor|].
  destruct (key_le (f x) (f y)) eqn:E.
  - constructor; [by constructor|]. constructor; [done|].
    eapply List.Forall_impl; [|exact Hy]. intros z Hz. by eapply key_le_trans.
  - constructor; [done|]. rewrite sort_insert_perm. constructor; [|done].
    by apply key_lt_le, key_le_total.
Qed.

Lemma sort_by_sorted l : SortedBy (sort_by l).
Proof. induction l; cbn; [constructor|by apply sort_insert_sorted]. Qed.

Lemma sort_by_id l : SortedBy l -> sort_by l = l.
Proof.
  induction 1 as [|x l _ IH Hx]; cbn; [done|]. rewrite IH.
  destruct l as [|y l]; cbn; [done|]. inversion Hx as [|? ? Hxy]; subst. by rewrite Hxy.
Qed.

Lemma StrictBy_SortedBy l : StrictBy l -> SortedBy l.
Proof.
  induction 1 as [|x l _ IH Hx]; constructor; [done|].
  eapply List.Forall_impl; [|exact Hx]. intros y. apply key_lt_le.
Qed.

(** Sortedness only depends on the sequence of keys. *)
Lemma SortedBy_keys l : SortedBy l <-> StronglySorted (fun a b => key_le a b = true) (map f l).
Proof.
  induction l as [|x l IH]; cbn; [by split; constructor|]. split; inversion 1; subst.
  - constructor; [by apply IH|]. by apply Forall_map.
  - constructor; [by apply IH|]. 
    match goal with Hf : Forall _ (map f l) |- _ => by apply Forall_map in Hf end.
Qed.

Lemma SortedBy_same_keys l l' : map f l' = map f l -> SortedBy l -> SortedBy l'.
Proof. intros E. by rewrite !SortedBy_keys, E. Qed.

Lemma SortedBy_lookup l i j x y :
  SortedBy l -> i < j -> l !! i = Some x -> l !! j = Some y -> key_le (f x) (f y) = true.
Proof.
  intros Hs. revert i j. induction Hs as [|z l Hs IH Hz]; intros i j Hij Hx Hy; [done|].
  destruct j as [|j]; [lia|]. cbn in Hy. destruct i as [|i]; cbn in Hx.
  - injection Hx as ->. rewrite Forall_lookup in Hz. eauto.
  - eapply IH; [|done|done]. lia.
Qed.

Lemma SortedBy_filter (p : A -> bool) l : SortedBy l -> SortedBy (List.filter p l).
Proof.
  induction 1 as [|x l _ IH Hx]; cbn; [constructor|].
  destruct (p x); [|done]. constructor; [done|].
  rewrite List.Forall_forall in *. intros y Hy. apply Hx. by apply List.filter_In in Hy as [? ?].
Qed.
End sorting.
#[export] Hint Resolve sort_by_sorted StrictBy_SortedBy SortedBy_filter : ordered.
#[export] Hint Rewrite @elem_of_sort_by : members.

(** Mapping a function that keeps the sort key commutes with sorting. *)
Lemma sort_by_map {A} (f : A -> Key) (g : A -> A) l :
  (forall x, f (g x) = f x) -> sort_by f (map g l) = map g (sort_by f l).
Proof.
  intros Hg. induction l as [|x l IH]; cbn; [done|]. rewrite IH. clear IH.
  induction (sort_by f l) as [|y l' IH]; cbn; [done|].
  rewrite !Hg. destruct (key_le (f x) (f y)); cbn; congruence.
Qed.

(** ** [sort], [dedup] and [BTreeSet] over the derived order *)

Section bset.
Context `{RustOrd A}.
Implicit Types (x y : A) (l s : list A).

Definition sort : list A -> list A := sort_by key.

(** [Vec::dedup]. *)
Fixpoint dedup (l : list A) : list A :=
  match l with
  | [] => []
  | x :: l' =>
      match l' with
      | [] => [x]
      | y :: _ => match ord_cmp x y with Eq => dedup l' | _ => x :: dedup l' end
      end
  end.

(** [BTreeSet::insert]. *)
Fixpoint bset_insert (x : A) (s : list A) : list A :=
  match s with
  | [] => [x]
  | y :: s' =>
      match ord_cmp x y with
      | Lt => x :: s
      | Eq => s
      | Gt => y :: bset_insert x s'
      end
  end.

(** [BTreeSet::extend] and [BTreeSet::from]. *)
Definition bset_extend (s l : list A) : list A := fold_left (fun s x => bset_insert x s) l s.
Definition bset_of_list (l : list A) : list A := bset_extend [] l.

(** [BTreeSet::contains]. *)
Definition bset_contains (x : A) (s : list A) : bool :=
  existsb (fun y => match ord_cmp x y with Eq => true | _ => false end) s.

(** [BTreeSet::is_subset]. *)
Definition bset_is_subset (s t : list A) : bool := forallb (fun x => bset_contains x t) s.

Definition Strict : list A -> Prop := StrictBy key.

Lemma bset_contains_elem x s : bset_contains x s = true <-> x ∈ s.
Proof.
  unfold bset_contains. rewrite existsb_elem. split.
  - intros (y & Hy & E). destruct (ord_cmp x y) eqn:C; try done.
    apply ord_cmp_eq in C. by subst.
  - intros Hx. exists x. split; [done|]. by rewrite (proj2 (ord_cmp_eq x x) eq_refl).
Qed.

Lemma elem_of_bset_insert x y s : y ∈ bset_insert x s <-> y = x \/ y ∈ s.
Proof.
  induction s as [|z s IH]; cbn; [set_solver|].
  destruct (ord_cmp x z) eqn:C; [|set_solver..].
  apply ord_cmp_eq in C as ->. set_solver.
Qed.

Lemma bset_insert_strict x s : Strict s -> Strict (bset_insert x s).
Proof.
  induction 1 as [|z s Hs IH Hz]; cbn; [repeat constructor|].
  destruct (ord_cmp x z) eqn:C.
  - by constructor.
  - assert (key_lt (key x) (key z) = true) as L.
    { unfold key_lt, ord_cmp in *. by rewrite C. }
    constructor; [by constructor|]. constructor; [done|].
    eapply List.Forall_impl; [|exact Hz]. intros y Hy. by eapply key_lt_trans.
  - assert (key_lt (key z) (key x) = true) as L.
    { unfold key_lt, ord_cmp in *. by rewrite key_cmp_sym, C. }
    constructor; [done|]. rewrite Forall_forall in *.
    intros y Hy. apply elem_of_bset_insert in Hy as [->|Hy]; auto.
Qed.

Lemma bset_extend_strict s l : Strict s -> Strict (bset_extend s l).
Proof.
  unfold bset_extend. revert s. induction l; cbn; [done|].
  intros s Hs. by apply IHl, bset_insert_strict.
Qed.

Lemma elem_of_bset_extend y s l : y ∈ bset_extend s l <-> y ∈ s \/ y ∈ l.
Proof.
  unfold bset_extend. revert s. induction l as [|x l IH]; intros s; cbn; [set_solver|].
  rewrite IH, elem_of_bset_insert. set_solver.
Qed.

Lemma bset_of_list_strict l : Strict (bset_of_list l).
Proof. apply bset_extend_strict. constructor. Qed.

Lemma elem_of_bset_of_list y l : y ∈ bset_of_list l <-> y ∈ l.
Proof. unfold bset_of_list. rewrite elem_of_bset_extend. set_solver. Qed.

(** Two strictly increasing lists with the same elements are equal. *)
Lemma Strict_unique s t : Strict s -> Strict t -> (forall x, x ∈ s <-> x ∈ t) -> s = t.
Proof.
  intros Hs. revert t. induction Hs as [|x s Hs IH Hx]; intros t Ht E.
  { destruct t as [|y t]; [done|]. specialize (E y). set_solver. }
  destruct Ht as [|y t Ht Hy].
  { specialize (E x). set_solver. }
  rewrite Forall_forall in Hx, Hy.
  assert (x = y) as <-.
  { pose proof (proj1 (E x) (list_elem_of_here x s)) as [->|Hx']%elem_of_cons; [done|].
    pose proof (proj2 (E y) (list_elem_of_here y t)) as [->|Hy']%elem_of_cons; [done|].
    pose proof (Hx _ Hy') as L1. pose proof (Hy _ Hx') as L2.
    pose proof (key_lt_trans _ _ _ L1 L2) as L3. by rewrite key_lt_irrefl in L3. }
  f_equal. apply IH; [done|]. intros z. specialize (E z). rewrite !elem_of_cons in E.
  split; intros Hz.
  - destruct (proj1 E (or_intror Hz)) as [->|]; [|done].
    pose proof (Hx _ Hz) as L. by rewrite key_lt_irrefl in L.
  - destruct (proj2 E (or_intror Hz)) as [->|]; [|done].
    pose proof (Hy _ Hz) as L. by rewrite key_lt_irrefl in L.
Qed.

Lemma bset_insert_in x s : Strict s -> x ∈ s -> bset_insert x s = s.
Proof.
  intros Hs Hx. apply Strict_unique; [by apply bset_insert_strict|done|].
  intros y. rewrite elem_of_bset_insert. naive_solver.
Qed.

Lemma bset_insert_idem x s : Strict s -> bset_insert x (bset_insert x s) = bset_insert x s.
Proof.
  intros Hs. apply bset_insert_in; [by apply bset_insert_strict|].
  apply elem_of_bset_insert. by left.
Qed.

Lemma bset_extend_ext s l s' l' :
  Strict s -> Strict s' ->
  (forall x, x ∈ s \/ x ∈ l <-> x ∈ s' \/ x ∈ l') -> bset_extend s l = bset_extend s' l'.
Proof.
  intros Hs Hs' E. apply Strict_unique; [by apply bset_extend_strict..|].
  intros x. by rewrite !elem_of_bset_extend.
Qed.

Lemma bset_of_list_ext l l' :
  (forall x, x ∈ l <-> x ∈ l') -> bset_of_list l = bset_of_list l'.
Proof. intros E. apply bset_extend_ext; [constructor..|]. set_solver. Qed.

Lemma bset_of_list_id s : Strict s -> bset_of_list s = s.
Proof.
  intros Hs. apply Strict_unique; [apply bset_of_list_strict|done|].
  intros x. apply elem_of_bset_of_list.
Qed.

Lemma elem_of_dedup x l : x ∈ dedup l <-> x ∈ l.
Proof.
  induction l as [|y l IH]; [done|]. cbn [dedup]. destruct l as [|z l]; [done|].
  destruct (ord_cmp y z) eqn:C.
  - apply ord_cmp_eq in C as ->. rewrite IH. set_solver.
  - rewrite elem_of_cons, IH. set_solver.
  - rewrite elem_of_cons, IH. set_solver.
Qed.

Lemma dedup_sorted_strict l : SortedBy key l -> Strict (dedup l).
Proof.
  induction 1 as [|y l Hl IH Hy]; [constructor|]. cbn [dedup].
  destruct l as [|z l]; [repeat constructor|].
  assert (ord_cmp y z <> Eq -> Strict (y :: dedup (z :: l))) as K.
  { intros C. constructor; [done|]. rewrite Forall_forall. intros w Hw.
    rewrite elem_of_dedup in Hw. rewrite Forall_forall in Hy.
    pose proof (Hy z ltac:(set_solver)) as Lyz.
    assert (key_lt (key y) (key z) = true) as S.
    { unfold key_lt, key_le, ord_cmp in *. by destruct (key_cmp (key y) (key z)). }
    apply elem_of_cons in Hw as [->|Hw]; [done|].
    inversion Hl as [|? ? _ Hz]; subst. rewrite Forall_forall in Hz.
    pose proof (Hz w Hw) as Lzw. unfold key_lt, key_le in S, Lzw |- *.
    destruct (key_cmp (key y) (key z)) eqn:E1; try done.
    destruct (key_cmp (key z) (key w)) eqn:E2; try done.
    - apply key_cmp_eq in E2. by rewrite <- E2, E1.
    - by rewrite (key_cmp_trans _ _ _ E1 E2). }
  destruct (ord_cmp y z) eqn:C; [done|by apply K..].
Qed.

Lemma sort_dedup_strict l : Strict (dedup (sort l)).
Proof. apply dedup_sorted_strict, sort_by_sorted. Qed.

Lemma elem_of_sort_dedup x l : x ∈ dedup (sort l) <-> x ∈ l.
Proof. rewrite elem_of_dedup. apply elem_of_sort_by. Qed.

Lemma sort_dedup_id s : Strict s -> dedup (sort s) = s.
Proof.
  intros Hs. apply Strict_unique; [apply sort_dedup_strict|done|].
  intros x. apply elem_of_sort_dedup.
Qed.

Lemma sort_dedup_of_list l : dedup (sort l) = bset_of_list l.
Proof.
  apply Strict_unique; [apply sort_dedup_strict|apply bset_of_list_strict|].
  intros x. by rewrite elem_of_sort_dedup, elem_of_bset_of_list.
Qed.
End bset.

Lemma Strict_NoDup `{RustOrd A} (s : list A) : Strict s -> NoDup s.
Proof.
  induction 1 as [|x s _ IH Hx]; constructor; [|done]. intros Hin.
  rewrite Forall_forall in Hx. specialize (Hx x Hin). by rewrite key_lt_irrefl in Hx.
Qed.
#[export] Hint Resolve bset_insert_strict bset_extend_strict bset_of_list_strict
  sort_dedup_strict dedup_sorted_strict : ordered.
#[export] Hint Rewrite @elem_of_bset_insert @elem_of_bset_extend @elem_of_bset_of_list
  @elem_of_sort_dedup @elem_of_dedup : members.

(** ** [BTreeMap] *)

Section bmap.
Context `{RustOrd K} {V : Type}.
Implicit Types (k : K) (v : V) (m : list (K * V)).

(** [BTreeMap::insert]: the new map; the old value is [bmap_get] before. *)
Fixpoint bmap_insert (k : K) (v : V) (m : list (K * V)) : list (K * V) :=
  match m with
  | [] => [(k, v)]
  | (k', v') :: m' =>
      match ord_cmp k k' with
      | Lt => (k, v) :: m
      | Eq => (k', v) :: m'
      | Gt => (k', v') :: bmap_insert k v m'
      end
  end.

Fixpoint bmap_get (k : K) (m : list (K * V)) : option V :=
  match m with
  | [] => None
  | (k', v') :: m' => match ord_cmp k k' with Eq => Some v' | _ => bmap_get k m' end
  end.

Lemma ord_cmp_refl k : ord_cmp k k = Eq.
Proof. by apply ord_cmp_eq. Qed.

Lemma ord_cmp_ne k k' : k <> k' -> ord_cmp k k' <> Eq.
Proof. intros Hne E. by apply ord_cmp_eq in E. Qed.

Lemma bmap_get_insert_eq k v m : bmap_get k (bmap_insert k v m) = Some v.
Proof.
  induction m as [|[k' v'] m IH]; cbn; [by rewrite ord_cmp_refl|].
  destruct (ord_cmp k k') eqn:C; cbn; rewrite ?C, ?ord_cmp_refl; done.
Qed.

Lemma bmap_get_insert_ne k k' v m : k <> k' -> bmap_get k' (bmap_insert k v m) = bmap_get k' m.
Proof.
  intros Hne. assert (ord_cmp k' k <> Eq) as C' by (apply ord_cmp_ne; congruence).
  induction m as [|[k'' v''] m IH]; cbn.
  - by destruct (ord_cmp k' k).
  - destruct (ord_cmp k k'') eqn:C; cbn.
    + apply ord_cmp_eq in C as <-. by destruct (ord_cmp k' k).
    + by destruct (ord_cmp k' k).
    + by rewrite IH.
Qed.

Lemma bmap_get_elem k v m : bmap_get k m = Some v -> (k, v) ∈ m.
Proof.
  induction m as [|[k' v'] m IH]; cbn; [done|].
  destruct (ord_cmp k k') eqn:C; [|set_solver..].
  apply ord_cmp_eq in C as ->. intros [= ->]. set_solver.
Qed.

Lemma bmap_get_some_key k m : is_Some (bmap_get k m) <-> k ∈ m.*1.
Proof.
  induction m as [|[k' v'] m IH]; cbn.
  { split; [intros [? [=]]|set_solver]. }
  rewrite elem_of_cons. destruct (ord_cmp k k') eqn:C.
  - apply ord_cmp_eq in C. naive_solver.
  - rewrite IH. split; [naive_solver|]. intros [->|]; [|done].
    by rewrite ord_cmp_refl in C.
  - rewrite IH. split; [naive_solver|]. intros [->|]; [|done].
    by rewrite ord_cmp_refl in C.
Qed.

Lemma bmap_insert_key k k' v m : k' ∈ (bmap_insert k v m).*1 <-> k' = k \/ k' ∈ m.*1.
Proof.
  rewrite <- !bmap_get_some_key. destruct (ord_eq_dec k k') as [->|Hne].
  - rewrite bmap_get_insert_eq. naive_solver.
  - rewrite bmap_get_insert_ne by done. naive_solver.
Qed.
End bmap.

(** ** Sorting forgets the input order *)

Lemma sort_by_perm_eq {A} (f : A -> Key) l l' :
  (forall x y, x ∈ l -> y ∈ l -> f x = f y -> x = y) -> l ≡ₚ l' -> sort_by f l = sort_by f l'.
Proof.
  intros Hinj Hp.
  apply (StronglySorted_unique_strong (fun x y => key_le (f x) (f y) = true)).
  - intros x y Hx Hy H1 H2. apply elem_of_sort_by in Hx, Hy. rewrite <- Hp in Hy.
    apply Hinj; [done..|]. by apply key_le_antisym.
  - apply sort_by_sorted.
  - apply sort_by_sorted.
  - by rewrite !sort_by_perm.
Qed.

Lemma sort_perm_eq `{RustOrd A} (l l' : list A) : l ≡ₚ l' -> sort l = sort l'.
Proof. apply sort_by_perm_eq. intros x y _ _ E. by apply (inj key) in E. Qed.

(** Two listings of a catalogue keyed by [k]. *)
Definition reordered {A K} (k : A -> K) (l l' : list A) : Prop := l ≡ₚ l' /\ NoDup (map k l).

Lemma reordered_sort `{RustOrd K} {A} (k : A -> K) (l l' : list A) :
  reordered k l l' -> sort_by (fun x => key (k x)) l = sort_by (fun x => key (k x)) l'.
Proof.
  intros [Hp Hn]. apply sort_by_perm_eq; [|done]. intros x y Hx Hy E. apply (inj key) in E.
  apply list_elem_of_lookup in Hx as [i Hi], Hy as [j Hj].
  assert (i = j) as <-; [|congruence].
  eapply NoDup_lookup; [exact Hn| |]; rewrite list_lookup_fmap; [by rewrite Hi|by rewrite Hj, E].
Qed.

(** ** Sorted catalogues of fixed points *)

Section sorted_fixed.
Context {E A : Type} (f : A -> Key) (g : A -> result E A).
Hypothesis Hkey : forall x y, g x = Ok y -> f y = f x.
Hypothesis Htwice : forall x y, g x = Ok y -> g y = Ok y.

(** [l] is sorted and [g] leaves each element unchanged. *)
Definition sorted_fixed (l : list A) : Prop :=
  SortedBy f l /\ Forall (fun x => g x = Ok x) l.

Lemma sort_map_result_fixed l l' :
  map_result g (sort_by f l) = Ok l' -> sorted_fixed l'.
Proof using Hkey Htwice.
  intros H. split.
  - eapply SortedBy_same_keys; [|apply sort_by_sorted]. by eapply map_result_map_proj.
  - apply map_result_ok in H. induction H; constructor; eauto.
Qed.

Lemma sort_map_result_id l : sorted_fixed l -> map_result g (sort_by f l) = Ok l.
Proof using. intros [Hs Hf]. rewrite sort_by_id by done. by apply map_result_id. Qed.

Lemma sorted_fixed_map (h : A -> A) l :
  (forall x, f (h x) = f x) -> (forall x, g x = Ok x -> g (h x) = Ok (h x)) ->
  sorted_fixed l -> sorted_fixed (map h l).
Proof using.
  intros Hf Hg [Hs Hfix]. split.
  - eapply SortedBy_same_keys; [|exact Hs]. rewrite map_map. by apply map_ext.
  - clear Hs. induction Hfix; cbn; constructor; auto.
Qed.
End sorted_fixed.

(** ** Loops that reject duplicates *)

Section unique.
Context {E A K : Type} `{!RustOrd K}.
Variable (pre : A -> result E unit) (k : A -> K) (dup : A -> E) (post : A -> result E unit).

(** [for x in l { pre(x)?; if !seen.insert(k(x)) { return Err(dup(x)) } post(x)? }]. *)
Fixpoint for_unique_from (seen : list K) (l : list A) : result E unit :=
  match l with
  | [] => Ok tt
  | x :: l =>
      do? pre x;
      do? ensure (negb (bset_contains (k x) seen)) (dup x);
      do? post x;
      for_unique_from (bset_insert (k x) seen) l
  end.
Definition for_unique (l : list A) : result E unit := for_unique_from [] l.

Lemma for_unique_from_ok seen l :
  for_unique_from seen l = Ok tt <->
  NoDup (map k l) /\ (forall x, x ∈ l -> k x ∉ seen) /\
  Forall (fun x => pre x = Ok tt /\ post x = Ok tt) l.
Proof.
  revert seen. induction l as [|x l IH]; intros seen; cbn.
  { split; [|done]. intros _. split; [constructor|]. split; [set_solver|constructor]. }
  rewrite NoDup_cons, Forall_cons. setoid_rewrite elem_of_cons. split.
  - intros H. ok_inv. apply IH in H as (Hn & Hs & Hf).
    setoid_rewrite elem_of_bset_insert in Hs.
    assert (k x ∉ seen) as Hx.
    { intros Hx%bset_contains_elem. by rewrite Hx in *. }
    repeat split; auto.
    + intros (y & Hy & E')%list_elem_of_fmap. specialize (Hs y E'). naive_solver.
    + naive_solver.
  - intros ([Hx Hn] & Hs & [-> ->] & Hf). cbn.
    assert (bset_contains (k x) seen = false) as ->.
    { apply not_true_iff_false. rewrite bset_contains_elem. naive_solver. }
    cbn. apply IH. split; [done|]. split; [|done]. intros y Hy.
    rewrite elem_of_bset_insert. intros [E'|Hy']; [|naive_solver].
    apply Hx. rewrite <- E'. by apply list_elem_of_fmap_2.
Qed.

Lemma for_unique_ok l :
  for_unique l = Ok tt <->
  NoDup (map k l) /\ Forall (fun x => pre x = Ok tt /\ post x = Ok tt) l.
Proof. unfold for_unique. rewrite for_unique_from_ok. set_solver. Qed.
End unique.

(** A function that is injective on the elements of a list. *)
Lemma NoDup_map_elem {A B} (f : A -> B) l x y :
  NoDup (map f l) -> x ∈ l -> y ∈ l -> f x = f y -> x = y.
Proof.
  intros Hn (i & Hi)%list_elem_of_lookup (j & Hj)%list_elem_of_lookup E.
  assert (i = j) as ->; [|congruence].
  apply (NoDup_lookup (f <$> l) i j (f x)); [done|by rewrite list_lookup_fmap, Hi|].
  by rewrite list_lookup_fmap, Hj, E.
Qed.
