(* ===== verification/Text.v ===== *)
(** * Bytes, [str] and UTF-8

    A Rust [String] is its UTF-8 bytes; it is modelled by a [string] of
    [ascii] (8-bit) characters, its byte sequence.  [u8] is [byte].  The
    operations of [str] the sources use are modelled here: [from_utf8],
    [chars], [is_char_boundary], slicing, [split], [strip_prefix],
    [starts_with], [ends_with] and [contains]. *)

From Stdlib Require Export Strings.Byte Strings.Ascii.
From Stdlib Require Strings.String.
From stdpp Require Import pretty.
From S2P Require Import Prelude Order.

(** ** Bytes *)

Definition b2z (b : byte) : Z := Z.of_N (Byte.to_N b).
Definition z2b (z : Z) : byte := default Byte.x00 (Byte.of_N (Z.to_N z)).

Lemma b2z_bounds b : (0 <= b2z b < 256)%Z.
Proof. unfold b2z. pose proof (Byte.to_N_bounded b). lia. Qed.

Lemma z2b_b2z b : z2b (b2z b) = b.
Proof. unfold z2b, b2z. rewrite N2Z.id, Byte.of_to_N. done. Qed.

Lemma b2z_inj a b : b2z a = b2z b -> a = b.
Proof. intros E. by rewrite <- (z2b_b2z a), E, z2b_b2z. Qed.

Lemma b2z_z2b z : (0 <= z < 256)%Z -> b2z (z2b z) = z.
Proof.
  intros Hz. unfold z2b, b2z.
  destruct (Byte.of_N (Z.to_N z)) eqn:E; cbn.
  - apply Byte.to_of_N in E. rewrite E. lia.
  - apply Byte.of_N_None_iff in E. lia.
Qed.

#[global] Program Instance byte_ord : RustOrd byte := {| key := fun b => KInt (b2z b) |}.
Next Obligation. intros a b [= E]. by apply b2z_inj. Qed.
#[global] Instance byte_eq_dec : EqDecision byte := ord_eq_dec.

(** [str::as_bytes] and [str::len]. *)
Definition bytes_of (s : string) : list byte := String.list_byte_of_string s.
Definition string_of_bytes (l : list byte) : string := String.string_of_list_byte l.
Definition str_len (s : string) : Z := Z.of_nat (length (bytes_of s)).

Lemma string_of_bytes_of s : string_of_bytes (bytes_of s) = s.
Proof. apply String.string_of_list_byte_of_string. Qed.
Lemma bytes_of_string_of_bytes l : bytes_of (string_of_bytes l) = l.
Proof. apply String.list_byte_of_string_of_list_byte. Qed.

(** ** UTF-8 *)

Definition in_range (lo hi : Z) (b : byte) : bool := ((lo <=? b2z b) && (b2z b <=? hi))%Z.
Definition is_cont (b : byte) : bool := in_range 128 191 b.

(** One scalar value off the front: the well-formed byte sequences of the
    Unicode standard (Table 3-7), which is what [str::from_utf8] accepts. *)
Definition utf8_next (l : list byte) : option (Z * list byte) :=
  match l with
  | [] => None
  | b0 :: r0 =>
      let c0 := b2z b0 in
      if (c0 <? 128)%Z then Some (c0, r0) else
      match r0 with
      | [] => None
      | b1 :: r1 =>
          let c1 := (b2z b1 - 128)%Z in
          if in_range 194 223 b0 then
            if is_cont b1 then Some (((c0 - 192) * 64 + c1)%Z, r1) else None
          else
          match r1 with
          | [] => None
          | b2 :: r2 =>
              let c2 := (b2z b2 - 128)%Z in
              if in_range 224 239 b0 then
                if (in_range (if (c0 =? 224)%Z then 160 else 128)
                             (if (c0 =? 237)%Z then 159 else 191) b1 && is_cont b2)
                then Some (((c0 - 224) * 4096 + c1 * 64 + c2)%Z, r2) else None
              else
              match r2 with
              | [] => None
              | b3 :: r3 =>
                  let c3 := (b2z b3 - 128)%Z in
                  if (in_range 240 244 b0
                      && in_range (if (c0 =? 240)%Z then 144 else 128)
                                  (if (c0 =? 244)%Z then 143 else 191) b1
                      && is_cont b2 && is_cont b3)
                  then Some (((c0 - 240) * 262144 + c1 * 4096 + c2 * 64 + c3)%Z, r3)
                  else None
              end
          end
      end
  end.

Fixpoint utf8_decode_fuel (fuel : nat) (l : list byte) : option (list Z) :=
  match fuel with
  | O => match l with [] => Some [] | _ => None end
  | S fuel =>
      match l with
      | [] => Some []
      | _ => match utf8_next l with
             | None => None
             | Some (c, r) => option_map (cons c) (utf8_decode_fuel fuel r)
             end
      end
  end.

(** Every character takes at least one byte, so the length is enough fuel. *)
Definition utf8_decode (l : list byte) : option (list Z) := utf8_decode_fuel (length l) l.

(** [std::str::from_utf8(..).is_ok()]. *)
Definition utf8_valid (l : list byte) : bool := is_some (utf8_decode l).

(** [str::chars]; a Rust [str] always decodes. *)
Definition chars (s : string) : list Z := default [] (utf8_decode (bytes_of s)).

(** [char::is_control]: the general category Cc. *)
Definition is_control (c : Z) : bool := ((c <? 32) || ((127 <=? c) && (c <? 160)))%Z.

(** [str::is_char_boundary]. *)
Definition is_char_boundary (l : list byte) (i : Z) : bool :=
  if (i =? 0)%Z then true
  else match l !! Z.to_nat i with
       | Some b => (b2z b <? 128)%Z || (192 <=? b2z b)%Z
       | None => (i =? Z.of_nat (length l))%Z
       end.

(** [&s[a..b]], as bytes. *)
Definition slice (l : list byte) (a b : Z) : list byte :=
  take (Z.to_nat b - Z.to_nat a) (drop (Z.to_nat a) l).

(** ** String operations *)

Section str.
Local Open Scope string_scope.

(** [s.split(c)] for an ASCII character: at least one, possibly empty part. *)
Fixpoint str_split (c : ascii) (s : string) : list string :=
  match s with
  | EmptyString => [EmptyString]
  | String a s' =>
      if Ascii.eqb a c then EmptyString :: str_split c s'
      else match str_split c s' with
           | [] => [String a EmptyString]
           | p :: ps => String a p :: ps
           end
  end.

Fixpoint strip_prefix (p s : string) : option string :=
  match p, s with
  | EmptyString, _ => Some s
  | String a p', String b s' => if Ascii.eqb a b then strip_prefix p' s' else None
  | String _ _, EmptyString => None
  end.

Definition starts_with (p s : string) : bool := is_some (strip_prefix p s).
Fixpoint ends_with (p s : string) : bool :=
  String.eqb p s || match s with EmptyString => false | String _ s' => ends_with p s' end.

(** [s.contains(c)] for a set of ASCII characters. *)
Definition str_contains (cs : list ascii) (s : string) : bool :=
  existsb (fun a => existsb (Ascii.eqb a) cs) (String.list_ascii_of_string s).

(** [{}] of an unsigned integer. *)
Definition show_u32 (n : Z) : string := pretty (Z.to_N n).
End str.

(** ** UTF-8 facts *)

Lemma utf8_next_length l c r : utf8_next l = Some (c, r) -> length r < length l.
Proof.
  unfold utf8_next. intros H.
  repeat (case_match; simplify_eq/=; try lia).
Qed.

(** The bytes of one character: a lead byte and continuation bytes. *)
Lemma utf8_next_split l c r :
  utf8_next l = Some (c, r) ->
  exists b bs, l = b :: bs ++ r /\ is_cont b = false /\ Forall (fun b => is_cont b = true) bs.
Proof.
  unfold utf8_next, is_cont, in_range. intros H.
  destruct l as [|b0 r0]; [done|].
  destruct (b2z b0 <? 128)%Z eqn:E0.
  { injection H as <- <-. exists b0, []. split; [done|]. split; [|constructor].
    bool_inv. apply andb_false_iff. left. lia. }
  destruct r0 as [|b1 r1]; [done|].
  destruct ((194 <=? b2z b0) && (b2z b0 <=? 223))%Z eqn:E1.
  { case_match eqn:E2; [|done]. injection H as <- <-. exists b0, [b1].
    split; [done|]. split; [|by repeat constructor].
    bool_inv. apply andb_false_iff. right. lia. }
  destruct r1 as [|b2 r2]; [done|].
  destruct ((224 <=? b2z b0) && (b2z b0 <=? 239))%Z eqn:E2.
  { case_match eqn:E3; [|done]. injection H as <- <-. exists b0, [b1; b2].
    bool_inv. split; [done|]. split; [apply andb_false_iff; lia|].
    repeat constructor; apply andb_true_iff; split; try lia; repeat case_match; lia. }
  destruct r2 as [|b3 r3]; [done|].
  case_match eqn:E3; [|done]. injection H as <- <-. exists b0, [b1; b2; b3].
  bool_inv. split; [done|]. split; [apply andb_false_iff; lia|].
  repeat constructor; apply andb_true_iff; split; try lia; repeat case_match; lia.
Qed.

(** The rest of the input does not influence the first character. *)
Lemma utf8_next_app l c r :
  utf8_next l = Some (c, r) ->
  exists front, l = front ++ r /\ forall r', utf8_next (front ++ r') = Some (c, r').
Proof.
  unfold utf8_next. intros H.
  destruct l as [|b0 r0]; [done|]. cbv zeta in *.
  destruct (b2z b0 <? 128)%Z eqn:E0.
  { injection H as <- <-. exists [b0]. split; [done|]. intros r'. cbn. by rewrite E0. }
  destruct r0 as [|b1 r1]; [done|].
  destruct (in_range 194 223 b0) eqn:E1.
  { case_match eqn:E2; [|done]. injection H as <- <-. exists [b0; b1].
    split; [done|]. intros r'. cbn [app]. by rewrite E0, E1, E2. }
  destruct r1 as [|b2 r2]; [done|].
  destruct (in_range 224 239 b0) eqn:E2.
  { case_match eqn:E3; [|done]. injection H as <- <-. exists [b0; b1; b2].
    split; [done|]. intros r'. cbn [app]. by rewrite E0, E1, E2, E3. }
  destruct r2 as [|b3 r3]; [done|].
  case_match eqn:E3; [|done]. injection H as <- <-. exists [b0; b1; b2; b3].
  split; [done|]. intros r'. cbn [app]. by rewrite E0, E1, E2, E3.
Qed.

(** Well-formed UTF-8, character by character. *)
Inductive Utf8 : list byte -> Prop :=
| Utf8_nil : Utf8 []
| Utf8_next l c r : utf8_next l = Some (c, r) -> Utf8 r -> Utf8 l.

Lemma Utf8_next_iff l c r : utf8_next l = Some (c, r) -> Utf8 r <-> Utf8 l.
Proof.
  intros E. split; [by apply Utf8_next with c|]. intros H. inversion H; subst; [done|]. congruence.
Qed.

Lemma utf8_decode_fuel_Utf8 fuel l :
  length l <= fuel -> is_some (utf8_decode_fuel fuel l) = true <-> Utf8 l.
Proof.
  revert l. induction fuel as [|fuel IH]; intros [|b l] Hl; cbn in Hl; try lia; cbn [utf8_decode_fuel].
  - split; [constructor|done].
  - split; [constructor|done].
  - destruct (utf8_next (b :: l)) as [[c r]|] eqn:E.
    + pose proof (utf8_next_length _ _ _ E) as Hr. cbn in Hr.
      rewrite <- (Utf8_next_iff _ _ _ E), <- IH by lia. by destruct (utf8_decode_fuel fuel r).
    + split; [done|]. intros H. inversion H. congruence.
Qed.

Lemma utf8_valid_Utf8 l : utf8_valid l = true <-> Utf8 l.
Proof. by apply utf8_decode_fuel_Utf8. Qed.

Lemma is_char_boundary_app front r i :
  (0 <= i)%Z -> is_char_boundary (front ++ r) (Z.of_nat (length front) + i) = true ->
  is_char_boundary r i = true.
Proof.
  unfold is_char_boundary. intros Hi. destruct (i =? 0)%Z eqn:E0; [done|]. bool_inv.
  destruct (Z.of_nat (length front) + i =? 0)%Z eqn:E1; bool_inv; [lia|].
  rewrite lookup_app_r by lia.
  replace (Z.to_nat (Z.of_nat (length front) + i) - length front)%nat with (Z.to_nat i) by lia.
  case_match; [done|]. rewrite length_app. intros H'. bool_inv. apply Z.eqb_eq. lia.
Qed.

(** A continuation byte is not a boundary. *)
Lemma is_char_boundary_cont b bs r i :
  Forall (fun b => is_cont b = true) bs -> (0 < i <= Z.of_nat (length bs))%Z ->
  is_char_boundary (b :: bs ++ r) i = false.
Proof.
  intros Hbs Hi. unfold is_char_boundary. destruct (i =? 0)%Z eqn:E0; bool_inv; [lia|].
  destruct (Z.to_nat i) as [|n] eqn:En; [lia|].
  assert (n < length bs) as Hn by lia. apply lookup_lt_is_Some in Hn as [x Hx].
  change ((b :: bs ++ r) !! S n) with ((bs ++ r) !! n).
  rewrite (lookup_app_l_Some _ _ _ _ Hx).
  rewrite Forall_lookup in Hbs. specialize (Hbs n x Hx). unfold is_cont, in_range in Hbs. bool_inv.
  apply orb_false_iff. split; [apply Z.ltb_ge|apply Z.leb_gt]; lia.
Qed.

(** Cutting well-formed UTF-8 at a character boundary leaves two well-formed parts. *)
Lemma Utf8_cut l i :
  Utf8 l -> (0 <= i <= Z.of_nat (length l))%Z -> is_char_boundary l i = true ->
  Utf8 (take (Z.to_nat i) l) /\ Utf8 (drop (Z.to_nat i) l).
Proof.
  intros H. revert i. induction H as [|l c r E Hr IH]; intros i Hi Hb.
  { rewrite take_nil, drop_nil. split; constructor. }
  destruct (decide (i = 0%Z)) as [->|Hi0].
  { cbn. split; [constructor|]. by eapply Utf8_next. }
  destruct (utf8_next_split _ _ _ E) as (b & bs & El & _ & Hbs).
  destruct (utf8_next_app _ _ _ E) as (front & El' & Hfront).
  assert (front = b :: bs) as -> by (eapply (app_inv_tail r); by rewrite <- El').
  destruct (decide (i <= Z.of_nat (length bs))%Z) as [Hle|Hgt].
  { rewrite El, is_char_boundary_cont in Hb by (done || lia). done. }
  set (j := (i - Z.of_nat (length (b :: bs)))%Z). cbn [length] in j.
  assert (Z.to_nat i = length (b :: bs) + Z.to_nat j) as Ei by (cbn [length]; subst j; lia).
  rewrite El' in Hi. rewrite length_app in Hi. cbn [length] in Hi.
  assert (is_char_boundary r j = true) as Hbj.
  { apply (is_char_boundary_app (b :: bs)); [subst j; lia|]. rewrite <- El'.
    replace (Z.of_nat (length (b :: bs)) + j)%Z with i by (cbn [length]; subst j; lia). done. }
  destruct (IH j) as [IH1 IH2]; [subst j; lia|done|].
  rewrite El', Ei, take_app_add, drop_app_add. split; [|done].
  eapply Utf8_next; [apply Hfront|done].
Qed.

Lemma Utf8_slice l a b :
  Utf8 l -> (0 <= a <= b)%Z -> (b <= Z.of_nat (length l))%Z ->
  is_char_boundary l a = true -> is_char_boundary l b = true -> Utf8 (slice l a b).
Proof.
  intros Hl Hab Hb Ba Bb. destruct (Utf8_cut l a Hl) as [_ Hd]; [lia|done|].
  assert (is_char_boundary (drop (Z.to_nat a) l) (b - a) = true) as B.
  { apply (is_char_boundary_app (take (Z.to_nat a) l)); [lia|]. rewrite take_drop, length_take.
    replace (Z.of_nat (Z.to_nat a `min` length l) + (b - a))%Z with b by lia. done. }
  unfold slice. destruct (Utf8_cut _ (b - a) Hd) as [Ht _]; [rewrite length_drop; lia|done|].
  by replace (Z.to_nat b - Z.to_nat a) with (Z.to_nat (b - a)) by lia.
Qed.
