(* ===== verification/Identity.v ===== *)
(** * Source identities ([soac_contracts/src/error.rs], [identity.rs])

    [ContractError], content fingerprints with their lower-case hexadecimal
    codec, the historical FNV-1a source hash, and the source identities all
    facts refer to.  Enum constructors carry a prefix of their type
    ([DK_Class] is [DefinitionKind::Class]), struct fields too ([si_module] is
    [SourceIdentity::module]).  [u32] and [u64] values are [Z]. *)

From S2P Require Import Prelude Order Text.

(** ** [ContractError] *)

Inductive ContractError : Type :=
| Encoding (message : string)
| SizeLimit (kind : string) (limit : Z)
| NonCanonicalEncoding
| VersionMismatch (kind : string) (expected found : Z)
| UntrustedSignature
| GenerationMismatch
| EnvironmentMismatch (field : string)
| InvalidPolicy (message : string)
| InvalidStructure (message : string)
| InvalidSourceIdentity (message : string)
| InvalidType (message : string)
| BlockingDiagnostic (message : string)
| MissingModule (name : string)
| MissingShard (name : string)
| SourceMismatch (name : string)
| PolicyMismatch (name : string)
| DependencyMismatch (name : string)
| ShardMismatch (name : string).

Abbreviation Result A := (result ContractError A).

(** ** [ModuleContentId] *)

Record ModuleContentId : Type := mkModuleContentId {
  mci_module_name : string;
  mci_source_hash : Z;
}.

#[global] Program Instance ModuleContentId_ord : RustOrd ModuleContentId :=
  {| key := fun m => KNode [key (mci_module_name m); key (mci_source_hash m)] |}.
Next Obligation. solve_key_inj. Qed.
#[global] Instance ModuleContentId_eq_dec : EqDecision ModuleContentId := ord_eq_dec.

(** ** Fingerprints *)

(** [Fingerprint([u8; 32])]; [fingerprint_wf] is the array length. *)
Record Fingerprint : Type := mkFingerprint { fp_bytes : list byte }.

Definition fingerprint_wf (f : Fingerprint) : Prop := length (fp_bytes f) = 32.

#[global] Program Instance Fingerprint_ord : RustOrd Fingerprint :=
  {| key := fun f => key (fp_bytes f) |}.
Next Obligation. intros [a] [b]; cbn -[key]. intros E. f_equal. by apply (inj key). Qed.
#[global] Instance Fingerprint_eq_dec : EqDecision Fingerprint := ord_eq_dec.

(** [HEX[usize::from(n)]] for a nibble. *)
Definition hex_digit (n : Z) : ascii :=
  default "0"%char (String.list_ascii_of_string "0123456789abcdef" !! Z.to_nat n).

Fixpoint encode_hex (bytes : list byte) : string :=
  match bytes with
  | [] => EmptyString
  | b :: bytes =>
      String (hex_digit (Z.shiftr (b2z b) 4))
        (String (hex_digit (Z.land (b2z b) 15)) (encode_hex bytes))
  end.

(** The nested [fn digit] of [decode_hex]. *)
Definition hex_value (b : byte) : option Z :=
  if in_range 48 57 b then Some (b2z b - 48)%Z
  else if in_range 97 102 b then Some (b2z b - 97 + 10)%Z
  else None.

Fixpoint decode_hex_pairs (bytes : list byte) : Result (list byte) :=
  match bytes with
  | a :: b :: rest =>
      match hex_value a, hex_value b with
      | Some high, Some low =>
          let? out := decode_hex_pairs rest in
          Ok (z2b (Z.lor (Z.shiftl high 4) low) :: out)
      | _, _ =>
          Err (Encoding "fingerprints and signatures require lower-case hexadecimal")
      end
  | _ => Ok []
  end.

Definition decode_hex (n : nat) (value : string) : Result (list byte) :=
  if bool_decide (str_len value = Z.of_nat (n * 2))
  then decode_hex_pairs (bytes_of value)
  else Err (Encoding ("expected " +:+ show_u32 (Z.of_nat (n * 2))
                      +:+ " lower-case hexadecimal digits")).

Definition from_hex (value : string) : Result Fingerprint :=
  let? bytes := decode_hex 32 value in Ok (mkFingerprint bytes).
Definition to_hex (f : Fingerprint) : string := encode_hex (fp_bytes f).

(** [ArtifactGenerationId(Fingerprint)]. *)
Record ArtifactGenerationId : Type := mkArtifactGenerationId { agi_fingerprint : Fingerprint }.
#[global] Program Instance ArtifactGenerationId_ord : RustOrd ArtifactGenerationId :=
  {| key := fun g => key (agi_fingerprint g) |}.
Next Obligation. intros [a] [b]; cbn -[key]. intros E. f_equal. by apply (inj key). Qed.
#[global] Instance ArtifactGenerationId_eq_dec : EqDecision ArtifactGenerationId := ord_eq_dec.

(** ** Ranges and definitions *)

Record SourceRange : Type := mkSourceRange { sr_start : Z; sr_end : Z }.
#[global] Program Instance SourceRange_ord : RustOrd SourceRange :=
  {| key := fun r => KNode [key (sr_start r); key (sr_end r)] |}.
Next Obligation. solve_key_inj. Qed.
#[global] Instance SourceRange_eq_dec : EqDecision SourceRange := ord_eq_dec.

Definition range_contains (self other : SourceRange) : bool :=
  ((sr_start self <=? sr_start other) && (sr_end other <=? sr_end self))%Z.

Inductive DefinitionKind : Type :=
| DK_Module | DK_Class | DK_Function | DK_Lambda | DK_Assignment | DK_Parameter | DK_TypeAlias.

#[global] Program Instance DefinitionKind_ord : RustOrd DefinitionKind :=
  {| key := fun k => KInt (match k with
       | DK_Module => 0 | DK_Class => 1 | DK_Function => 2 | DK_Lambda => 3
       | DK_Assignment => 4 | DK_Parameter => 5 | DK_TypeAlias => 6 end) |}.
Next Obligation. by intros [] []. Qed.
#[global] Instance DefinitionKind_eq_dec : EqDecision DefinitionKind := ord_eq_dec.

Record SourceIdentity : Type := mkSourceIdentity {
  si_module : ModuleContentId;
  si_lexical_qualname : string;
  si_source_range : SourceRange;
  si_definition_kind : DefinitionKind;
}.
#[global] Program Instance SourceIdentity_ord : RustOrd SourceIdentity :=
  {| key := fun s => KNode [key (si_module s); key (si_lexical_qualname s);
                            key (si_source_range s); key (si_definition_kind s)] |}.
Next Obligation. solve_key_inj. Qed.
#[global] Instance SourceIdentity_eq_dec : EqDecision SourceIdentity := ord_eq_dec.

Definition module_body (module : ModuleContentId) (source_size : Z) : SourceIdentity :=
  mkSourceIdentity module "<module>" (mkSourceRange 0 source_size) DK_Module.

Record ClassReference : Type := mkClassReference {
  cr_definition : SourceIdentity;
  cr_source_digest : Fingerprint;
}.
#[global] Program Instance ClassReference_ord : RustOrd ClassReference :=
  {| key := fun c => KNode [key (cr_definition c); key (cr_source_digest c)] |}.
Next Obligation. solve_key_inj. Qed.
#[global] Instance ClassReference_eq_dec : EqDecision ClassReference := ord_eq_dec.

Inductive CallExpressionKind : Type := CEK_Call | CEK_AttributeCall | CEK_SuperCall.
#[global] Program Instance CallExpressionKind_ord : RustOrd CallExpressionKind :=
  {| key := fun k => KInt (match k with
       | CEK_Call => 0 | CEK_AttributeCall => 1 | CEK_SuperCall => 2 end) |}.
Next Obligation. by intros [] []. Qed.
#[global] Instance CallExpressionKind_eq_dec : EqDecision CallExpressionKind := ord_eq_dec.

Record CallSiteIdentity : Type := mkCallSiteIdentity {
  csi_module : ModuleContentId;
  csi_source_digest : Fingerprint;
  csi_enclosing_function : SourceIdentity;
  csi_expression_range : SourceRange;
  csi_expression_kind : CallExpressionKind;
}.
#[global] Program Instance CallSiteIdentity_ord : RustOrd CallSiteIdentity :=
  {| key := fun c => KNode [key (csi_module c); key (csi_source_digest c);
       key (csi_enclosing_function c); key (csi_expression_range c);
       key (csi_expression_kind c)] |}.
Next Obligation. solve_key_inj. Qed.
#[global] Instance CallSiteIdentity_eq_dec : EqDecision CallSiteIdentity := ord_eq_dec.

Record AttributeSiteIdentity : Type := mkAttributeSiteIdentity {
  asi_module : ModuleContentId;
  asi_source_digest : Fingerprint;
  asi_enclosing_function : SourceIdentity;
  asi_expression_range : SourceRange;
}.
#[global] Program Instance AttributeSiteIdentity_ord : RustOrd AttributeSiteIdentity :=
  {| key := fun c => KNode [key (asi_module c); key (asi_source_digest c);
       key (asi_enclosing_function c); key (asi_expression_range c)] |}.
Next Obligation. solve_key_inj. Qed.
#[global] Instance AttributeSiteIdentity_eq_dec : EqDecision AttributeSiteIdentity := ord_eq_dec.

(** ** The FNV-1a source hash *)

Definition legacy_source_hash (source : list byte) : Z :=
  fold_left (fun hash b => wrap64 (Z.lxor hash (b2z b) * 0x00000100000001b3))
    source 0xcbf29ce484222325%Z.

(** ** Hexadecimal codec *)

Lemma hex_digit_value n :
  (0 <= n < 16)%Z -> hex_value (byte_of_ascii (hex_digit n)) = Some n.
Proof.
  intros Hn. assert (exists m : nat, (m < 16)%nat /\ n = Z.of_nat m) as (m & Hm & ->).
  { exists (Z.to_nat n). lia. }
  do 16 (destruct m as [|m]; [reflexivity|]). lia.
Qed.

Lemma hex_value_digit b n :
  hex_value b = Some n -> (0 <= n < 16)%Z /\ byte_of_ascii (hex_digit n) = b.
Proof. destruct b; cbn; intros [= <-]; split; try reflexivity; lia. Qed.

Lemma nibbles_split b :
  let v := b2z b in
  (0 <= Z.shiftr v 4 < 16)%Z /\ (0 <= Z.land v 15 < 16)%Z /\
  Z.lor (Z.shiftl (Z.shiftr v 4) 4) (Z.land v 15) = v.
Proof. destruct b; vm_compute; repeat split; congruence. Qed.

Lemma nibbles_join h l :
  (0 <= h < 16)%Z -> (0 <= l < 16)%Z ->
  let v := Z.lor (Z.shiftl h 4) l in
  (0 <= v < 256)%Z /\ Z.shiftr v 4 = h /\ Z.land v 15 = l.
Proof.
  intros Hh Hl.
  assert (exists m : nat, (m < 16)%nat /\ h = Z.of_nat m) as (m & Hm & ->) by (exists (Z.to_nat h); lia).
  assert (exists k : nat, (k < 16)%nat /\ l = Z.of_nat k) as (k & Hk & ->) by (exists (Z.to_nat l); lia).
  do 16 (destruct m as [|m];
    [do 16 (destruct k as [|k]; [vm_compute; repeat split; congruence|]); lia|]). lia.
Qed.

Lemma bytes_of_cons a s : bytes_of (String a s) = byte_of_ascii a :: bytes_of s.
Proof. reflexivity. Qed.

Lemma length_encode_hex bs : str_len (encode_hex bs) = Z.of_nat (length bs * 2).
Proof.
  unfold str_len. f_equal. induction bs as [|b bs IH]; cbn [encode_hex]; [done|].
  rewrite !bytes_of_cons. cbn [length]. rewrite IH. lia.
Qed.

Lemma decode_encode_pairs bs : decode_hex_pairs (bytes_of (encode_hex bs)) = Ok bs.
Proof.
  induction bs as [|b bs IH]; [done|]. cbn [encode_hex]. rewrite !bytes_of_cons.
  cbn [decode_hex_pairs]. destruct (nibbles_split b) as (Hh & Hl & E).
  rewrite !hex_digit_value by done. rewrite IH. cbn [rbind]. by rewrite E, z2b_b2z.
Qed.

Lemma decode_pairs_encode l bs :
  Nat.even (length l) = true -> decode_hex_pairs l = Ok bs ->
  bytes_of (encode_hex bs) = l /\ length l = length bs * 2.
Proof.
  revert l. induction bs as [|b bs IH]; intros [|x [|y l]] Hev; cbn [decode_hex_pairs]; try done;
    destruct (hex_value x) as [h|] eqn:Ex; try done; destruct (hex_value y) as [w|] eqn:Ey; try done;
    intros H; ok_inv.
  apply hex_value_digit in Ex as [Hh <-]. apply hex_value_digit in Ey as [Hl <-].
  destruct (nibbles_join h w Hh Hl) as (Hv & Eh & El).
  destruct (IH l Hev) as [IH1 IH2]; [congruence|].
  cbn [encode_hex]. rewrite !bytes_of_cons. rewrite b2z_z2b by done. rewrite Eh, El, IH1.
  cbn [length]. split; [done|lia].
Qed.

Lemma decode_hex_spec n s bs :
  decode_hex n s = Ok bs <-> length bs = n /\ encode_hex bs = s.
Proof.
  unfold decode_hex. split.
  - case_bool_decide as Hlen; [|done]. intros H.
    assert (Nat.even (length (bytes_of s)) = true) as Hev.
    { unfold str_len in Hlen. apply Nat2Z.inj in Hlen. rewrite Hlen, Nat.even_mul. by rewrite orb_true_r. }
    destruct (decode_pairs_encode _ _ Hev H) as [E L].
    unfold str_len in Hlen. split; [lia|].
    by rewrite <- (string_of_bytes_of s), <- E, string_of_bytes_of.
  - intros [<- <-]. rewrite bool_decide_true by apply length_encode_hex.
    apply decode_encode_pairs.
Qed.

(** the lower-case hexadecimal codec of fingerprints and signatures is a
    bijection between [N]-byte arrays and the strings [decode_hex::<N>] accepts. *)
Theorem decode_hex_iff n s bs :
  decode_hex n s = Ok bs <-> length bs = n /\ encode_hex bs = s.
Proof. apply decode_hex_spec. Qed.

(** ** The source hash *)

Definition fnv_step (hash : Z) (b : byte) : Z :=
  wrap64 (Z.lxor hash (b2z b) * 0x00000100000001b3).

Lemma legacy_source_hash_fold source :
  legacy_source_hash source = fold_left fnv_step source 0xcbf29ce484222325%Z.
Proof. reflexivity. Qed.

Lemma lxor_u64 h b : (0 <= h < 2 ^ 64)%Z -> (0 <= Z.lxor h (b2z b) < 2 ^ 64)%Z.
Proof.
  intros [H0 H1]. pose proof (b2z_bounds b) as [B0 B1]. split.
  - apply Z.lxor_nonneg. lia.
  - destruct (Z.eq_dec (Z.lxor h (b2z b)) 0) as [->|Hne]; [lia|].
    apply Z.log2_lt_pow2; [pose proof (proj2 (Z.lxor_nonneg h (b2z b))); lia|].
    eapply Z.le_lt_trans; [apply Z.log2_lxor; lia|].
    apply Z.max_lub_lt.
    + destruct (Z.eq_dec h 0) as [->|]; [cbn; lia|]. apply Z.log2_lt_pow2; lia.
    + destruct (Z.eq_dec (b2z b) 0) as [->|]; [cbn; lia|]. apply Z.log2_lt_pow2; lia.
Qed.

(** The FNV prime is odd, hence invertible modulo 2^64. *)
Lemma fnv_mul_inj x y :
  (0 <= x < 2 ^ 64)%Z -> (0 <= y < 2 ^ 64)%Z ->
  wrap64 (x * 0x00000100000001b3) = wrap64 (y * 0x00000100000001b3) -> x = y.
Proof.
  intros Hx Hy E. unfold wrap64 in E.
  assert (forall z, (0 <= z < 2 ^ 64)%Z ->
    (z * 0x00000100000001b3 mod 2 ^ 64 * 14886173955864302971) mod 2 ^ 64 = z)%Z as Hinv.
  { intros z Hz. rewrite Z.mul_mod_idemp_l by lia. rewrite <- Z.mul_assoc.
    rewrite <- Z.mul_mod_idemp_r by lia.
    change ((0x00000100000001b3 * 14886173955864302971) mod 2 ^ 64)%Z with 1%Z.
    rewrite Z.mul_1_r. by apply Z.mod_small. }
  rewrite <- (Hinv x Hx), <- (Hinv y Hy). by rewrite E.
Qed.

Lemma fnv_step_bounds h b : (0 <= fnv_step h b < 2 ^ 64)%Z.
Proof. apply wrap64_bounds. Qed.

Lemma fold_fnv_bounds l h :
  (0 <= h < 2 ^ 64)%Z -> (0 <= fold_left fnv_step l h < 2 ^ 64)%Z.
Proof. revert h. induction l; cbn; intros h Hh; [done|]. apply IHl, fnv_step_bounds. Qed.

Lemma fold_fnv_inj l h1 h2 :
  (0 <= h1 < 2 ^ 64)%Z -> (0 <= h2 < 2 ^ 64)%Z ->
  fold_left fnv_step l h1 = fold_left fnv_step l h2 -> h1 = h2.
Proof.
  revert h1 h2. induction l as [|b l IH]; cbn; intros h1 h2 H1 H2 E; [done|].
  apply IH in E; [|apply fnv_step_bounds..].
  apply fnv_mul_inj in E; [|by apply lxor_u64..].
  apply (f_equal (fun z => Z.lxor z (b2z b))) in E.
  by rewrite !Z.lxor_assoc, !Z.lxor_nilpotent, !Z.lxor_0_r in E.
Qed.

(** the FNV-1a source identity is a [u64], and it changes whenever exactly
    one byte of the source changes. *)
Theorem legacy_source_hash_byte_change l a b r :
  a <> b ->
  (0 <= legacy_source_hash (l ++ a :: r) < 2 ^ 64)%Z /\
  legacy_source_hash (l ++ a :: r) <> legacy_source_hash (l ++ b :: r).
Proof.
  intros Hab. rewrite !legacy_source_hash_fold, !fold_left_app. cbn [fold_left].
  set (h := fold_left fnv_step l _).
  assert (0 <= h < 2 ^ 64)%Z as Hh by (apply fold_fnv_bounds; lia).
  split; [apply fold_fnv_bounds, fnv_step_bounds|]. intros E.
  apply fold_fnv_inj in E; [|apply fnv_step_bounds..].
  apply fnv_mul_inj in E; [|by apply lxor_u64..].
  apply (f_equal (Z.lxor h)) in E. rewrite <- !Z.lxor_assoc, !Z.lxor_nilpotent, !Z.lxor_0_l in E.
  by apply b2z_inj in E.
Qed.

Lemma legacy_source_hash_byte_change_witness :
  legacy_source_hash (bytes_of "x = 1") <> legacy_source_hash (bytes_of "x = 2").
Proof.
  exact (proj2 (legacy_source_hash_byte_change (bytes_of "x = ") "1"%byte "2"%byte []
    (fun H => ltac:(discriminate H)))).
Defined.
