(* ===== verification/StaticTypes.v ===== *)
(** * Static types ([soac_contracts/src/facts.rs], types and signatures)

    [StaticType] and the four types it is mutually recursive with
    ([CallableSignature], [ParameterTypeFact], [DefaultFact],
    [TypeVariableFact]), the predicates on them, and normalisation.  A
    [BTreeSet] is its strictly increasing list of elements. *)

From S2P Require Import Prelude Order Collections Text Identity.

(** ** Leaf data *)

Inductive BuiltinType : Type :=
| BT_Object | BT_Bool | BT_Int | BT_Float | BT_Complex | BT_Str | BT_Bytes | BT_ByteArray
| BT_Tuple | BT_List | BT_Dict | BT_Set | BT_FrozenSet | BT_Type.
#[global] Program Instance BuiltinType_ord : RustOrd BuiltinType :=
  {| key := fun k => KInt (match k with
       | BT_Object => 0 | BT_Bool => 1 | BT_Int => 2 | BT_Float => 3 | BT_Complex => 4
       | BT_Str => 5 | BT_Bytes => 6 | BT_ByteArray => 7 | BT_Tuple => 8 | BT_List => 9
       | BT_Dict => 10 | BT_Set => 11 | BT_FrozenSet => 12 | BT_Type => 13 end) |}.
Next Obligation. by intros [] []. Qed.
#[global] Instance BuiltinType_eq_dec : EqDecision BuiltinType := ord_eq_dec.

Inductive LiteralValue : Type :=
| LV_None
| LV_Bool (b : bool)
| LV_Int (digits : string)
| LV_FloatBits (bits : Z)
| LV_Str (s : string)
| LV_Bytes (bytes : list byte).
#[global] Program Instance LiteralValue_ord : RustOrd LiteralValue :=
  {| key := fun v => KNode (match v with
       | LV_None => [KInt 0] | LV_Bool b => [KInt 1; key b] | LV_Int s => [KInt 2; key s]
       | LV_FloatBits z => [KInt 3; key z] | LV_Str s => [KInt 4; key s]
       | LV_Bytes b => [KInt 5; key b] end) |}.
Next Obligation. solve_key_inj. Qed.
#[global] Instance LiteralValue_eq_dec : EqDecision LiteralValue := ord_eq_dec.

Inductive UnsupportedTypeKind : Type :=
| UTK_MutableGeneric | UTK_GenericAlias | UTK_Intersection | UTK_TypeGuard | UTK_TypeIs
| UTK_TypedDict | UTK_NewType | UTK_RecursiveType | UTK_CustomInstanceCheck | UTK_Other.
#[global] Program Instance UnsupportedTypeKind_ord : RustOrd UnsupportedTypeKind :=
  {| key := fun k => KInt (match k with
       | UTK_MutableGeneric => 0 | UTK_GenericAlias => 1 | UTK_Intersection => 2
       | UTK_TypeGuard => 3 | UTK_TypeIs => 4 | UTK_TypedDict => 5 | UTK_NewType => 6
       | UTK_RecursiveType => 7 | UTK_CustomInstanceCheck => 8 | UTK_Other => 9 end) |}.
Next Obligation. by intros [] []. Qed.
#[global] Instance UnsupportedTypeKind_eq_dec : EqDecision UnsupportedTypeKind := ord_eq_dec.

Inductive UnsupportedReasonCode : Type :=
| URC_NoRuntimeEnforcement | URC_AliasedMutableContents | URC_UnresolvedTypeArguments
| URC_CheckerNotImplemented | URC_UnsafeNarrowing | URC_UserCodeRequired
| URC_UnknownProvenance.
#[global] Program Instance UnsupportedReasonCode_ord : RustOrd UnsupportedReasonCode :=
  {| key := fun k => KInt (match k with
       | URC_NoRuntimeEnforcement => 0 | URC_AliasedMutableContents => 1
       | URC_UnresolvedTypeArguments => 2 | URC_CheckerNotImplemented => 3
       | URC_UnsafeNarrowing => 4 | URC_UserCodeRequired => 5
       | URC_UnknownProvenance => 6 end) |}.
Next Obligation. by intros [] []. Qed.
#[global] Instance UnsupportedReasonCode_eq_dec : EqDecision UnsupportedReasonCode := ord_eq_dec.

Inductive UncertaintyReason : Type :=
| UR_Any | UR_Unknown | UR_CheckerTodo | UR_IgnoredDiagnostic | UR_UnresolvedImport
| UR_DynamicDecorator | UR_DynamicMetaclass | UR_DynamicDescriptor | UR_UnsafeNarrowing
| UR_UnsupportedType | UR_OpenWorld | UR_PartialInitialization.
#[global] Program Instance UncertaintyReason_ord : RustOrd UncertaintyReason :=
  {| key := fun k => KInt (match k with
       | UR_Any => 0 | UR_Unknown => 1 | UR_CheckerTodo => 2 | UR_IgnoredDiagnostic => 3
       | UR_UnresolvedImport => 4 | UR_DynamicDecorator => 5 | UR_DynamicMetaclass => 6
       | UR_DynamicDescriptor => 7 | UR_UnsafeNarrowing => 8 | UR_UnsupportedType => 9
       | UR_OpenWorld => 10 | UR_PartialInitialization => 11 end) |}.
Next Obligation. by intros [] []. Qed.
#[global] Instance UncertaintyReason_eq_dec : EqDecision UncertaintyReason := ord_eq_dec.

Inductive AnnotationOrigin : Type :=
| AO_Explicit | AO_Inferred | AO_Absent | AO_Unresolved.
#[global] Program Instance AnnotationOrigin_ord : RustOrd AnnotationOrigin :=
  {| key := fun k => KInt (match k with
       | AO_Explicit => 0 | AO_Inferred => 1 | AO_Absent => 2 | AO_Unresolved => 3 end) |}.
Next Obligation. by intros [] []. Qed.
#[global] Instance AnnotationOrigin_eq_dec : EqDecision AnnotationOrigin := ord_eq_dec.

Inductive ParameterKind : Type :=
| PK_PositionalOnly | PK_PositionalOrKeyword | PK_VarArgs | PK_KeywordOnly
| PK_VarKeywords.
#[global] Program Instance ParameterKind_ord : RustOrd ParameterKind :=
  {| key := fun k => KInt (match k with
       | PK_PositionalOnly => 0 | PK_PositionalOrKeyword => 1 | PK_VarArgs => 2
       | PK_KeywordOnly => 3 | PK_VarKeywords => 4 end) |}.
Next Obligation. by intros [] []. Qed.
#[global] Instance ParameterKind_eq_dec : EqDecision ParameterKind := ord_eq_dec.

Record ProtocolFact : Type := mkProtocolFact {
  pf_definition : option ClassReference;
  pf_runtime_checkable : bool;
}.
#[global] Program Instance ProtocolFact_ord : RustOrd ProtocolFact :=
  {| key := fun x => KNode [key (pf_definition x); key (pf_runtime_checkable x)] |}.
Next Obligation. solve_key_inj. Qed.
#[global] Instance ProtocolFact_eq_dec : EqDecision ProtocolFact := ord_eq_dec.

(** ** The mutually recursive types *)

Inductive StaticType : Type :=
| ST_None
| ST_ExactBuiltin (builtin : BuiltinType)
| ST_NominalBuiltin (builtin : BuiltinType) (allow_subclasses : bool)
| ST_NumericWidening (target : BuiltinType) (accepted : list BuiltinType)
| ST_NominalClass (class : ClassReference)
| ST_ExactClass (class : ClassReference)
| ST_Union (elements : list StaticType)
| ST_Optional (element : StaticType)
| ST_Callable (signature : CallableSignature)
| ST_Literal (literal : LiteralValue)
| ST_TypeVariable (variable : TypeVariableFact)
| ST_StructuralProtocol (protocol : ProtocolFact)
| ST_Any
| ST_Unknown
| ST_Todo
| ST_Divergent
| ST_Unsupported (kind : UnsupportedTypeKind) (reason : UnsupportedReasonCode)
with CallableSignature : Type :=
| mkCallableSignature (parameters : list ParameterTypeFact) (return_type : StaticType)
    (return_annotation_origin : AnnotationOrigin) (uncertainty : list UncertaintyReason)
with ParameterTypeFact : Type :=
| mkParameterTypeFact (name : string) (kind : ParameterKind) (value_type : StaticType)
    (annotation_origin : AnnotationOrigin) (default : DefaultFact)
with DefaultFact : Type :=
| DF_Missing
| DF_Value (value_type : StaticType) (literal : option LiteralValue)
| DF_Factory (implementation : option SourceIdentity) (return_type : StaticType)
| DF_Unknown
with TypeVariableFact : Type :=
| mkTypeVariableFact (identity : SourceIdentity) (upper_bound : option StaticType)
    (constraints : list StaticType).

(** Fields of the three structs. *)
Definition sig_parameters (s : CallableSignature) := let 'mkCallableSignature p _ _ _ := s in p.
Definition sig_return_type (s : CallableSignature) := let 'mkCallableSignature _ r _ _ := s in r.
Definition sig_return_annotation_origin (s : CallableSignature) :=
  let 'mkCallableSignature _ _ o _ := s in o.
Definition sig_uncertainty (s : CallableSignature) := let 'mkCallableSignature _ _ _ u := s in u.
Definition par_name (p : ParameterTypeFact) := let 'mkParameterTypeFact n _ _ _ _ := p in n.
Definition par_kind (p : ParameterTypeFact) := let 'mkParameterTypeFact _ k _ _ _ := p in k.
Definition par_value_type (p : ParameterTypeFact) := let 'mkParameterTypeFact _ _ t _ _ := p in t.
Definition par_annotation_origin (p : ParameterTypeFact) :=
  let 'mkParameterTypeFact _ _ _ o _ := p in o.
Definition par_default (p : ParameterTypeFact) := let 'mkParameterTypeFact _ _ _ _ d := p in d.
Definition tv_identity (v : TypeVariableFact) := let 'mkTypeVariableFact i _ _ := v in i.
Definition tv_upper_bound (v : TypeVariableFact) := let 'mkTypeVariableFact _ b _ := v in b.
Definition tv_constraints (v : TypeVariableFact) := let 'mkTypeVariableFact _ _ c := v in c.

(** ** Induction

    [default_all P], [parameter_all P], [signature_all P] and [variable_all P]
    say that [P] holds of every type one level inside. *)

Definition default_all (P : StaticType -> Prop) (d : DefaultFact) : Prop :=
  match d with
  | DF_Value t _ | DF_Factory _ t => P t
  | DF_Missing | DF_Unknown => True
  end.
Definition parameter_all (P : StaticType -> Prop) (p : ParameterTypeFact) : Prop :=
  P (par_value_type p) /\ default_all P (par_default p).
Definition signature_all (P : StaticType -> Prop) (s : CallableSignature) : Prop :=
  Forall (parameter_all P) (sig_parameters s) /\ P (sig_return_type s).
Definition variable_all (P : StaticType -> Prop) (v : TypeVariableFact) : Prop :=
  match tv_upper_bound v with Some t => P t | None => True end /\ Forall P (tv_constraints v).

(** The types without a type inside. *)
Definition st_leaf (t : StaticType) : bool :=
  match t with
  | ST_Union _ | ST_Optional _ | ST_Callable _ | ST_TypeVariable _ => false
  | _ => true
  end.

Section static_type_ind.
Context (P : StaticType -> Prop).
Hypothesis HLeaf : forall t, st_leaf t = true -> P t.
Hypothesis HUnion : forall ts, Forall P ts -> P (ST_Union ts).
Hypothesis HOptional : forall t, P t -> P (ST_Optional t).
Hypothesis HCallable : forall s, signature_all P s -> P (ST_Callable s).
Hypothesis HVariable : forall v, variable_all P v -> P (ST_TypeVariable v).

Fixpoint static_type_ind' (t : StaticType) : P t :=
  match t with
  | ST_Union ts =>
      HUnion ts ((fix go (ts : list StaticType) : Forall P ts :=
        match ts with
        | [] => Forall_nil_2 P
        | t :: ts => Forall_cons_2 P t ts (static_type_ind' t) (go ts)
        end) ts)
  | ST_Optional t => HOptional t (static_type_ind' t)
  | ST_Callable s => HCallable s (signature_ind' s)
  | ST_TypeVariable v => HVariable v (variable_ind' v)
  | t => HLeaf t eq_refl
  end
with signature_ind' (s : CallableSignature) : signature_all P s :=
  match s with
  | mkCallableSignature ps r _ _ =>
      conj ((fix go (ps : list ParameterTypeFact) : Forall (parameter_all P) ps :=
        match ps with
        | [] => Forall_nil_2 _
        | p :: ps => Forall_cons_2 _ p ps (parameter_ind' p) (go ps)
        end) ps) (static_type_ind' r)
  end
with parameter_ind' (p : ParameterTypeFact) : parameter_all P p :=
  match p with
  | mkParameterTypeFact _ _ t _ d => conj (static_type_ind' t) (default_ind' d)
  end
with default_ind' (d : DefaultFact) : default_all P d :=
  match d with
  | DF_Missing => I
  | DF_Value t _ => static_type_ind' t
  | DF_Factory _ t => static_type_ind' t
  | DF_Unknown => I
  end
with variable_ind' (v : TypeVariableFact) : variable_all P v :=
  match v with
  | mkTypeVariableFact _ b cs =>
      conj (match b return match b with Some t => P t | None => True end with
            | Some t => static_type_ind' t | None => I end)
        ((fix go (ts : list StaticType) : Forall P ts :=
          match ts with
          | [] => Forall_nil_2 P
          | t :: ts => Forall_cons_2 P t ts (static_type_ind' t) (go ts)
          end) cs)
  end.
End static_type_ind.

(** ** Derived order *)

Fixpoint static_type_key (t : StaticType) : Key :=
  KNode match t with
  | ST_None => [KInt 0]
  | ST_ExactBuiltin b => [KInt 1; key b]
  | ST_NominalBuiltin b s => [KInt 2; key b; key s]
  | ST_NumericWidening b a => [KInt 3; key b; key a]
  | ST_NominalClass c => [KInt 4; key c]
  | ST_ExactClass c => [KInt 5; key c]
  | ST_Union ts => [KInt 6; KNode (map static_type_key ts)]
  | ST_Optional t => [KInt 7; static_type_key t]
  | ST_Callable s => [KInt 8; signature_key s]
  | ST_Literal l => [KInt 9; key l]
  | ST_TypeVariable v => [KInt 10; variable_key v]
  | ST_StructuralProtocol p => [KInt 11; key p]
  | ST_Any => [KInt 12]
  | ST_Unknown => [KInt 13]
  | ST_Todo => [KInt 14]
  | ST_Divergent => [KInt 15]
  | ST_Unsupported k r => [KInt 16; key k; key r]
  end
with signature_key (s : CallableSignature) : Key :=
  match s with
  | mkCallableSignature ps r o u =>
      KNode [KNode (map parameter_key ps); static_type_key r; key o; key u]
  end
with parameter_key (p : ParameterTypeFact) : Key :=
  match p with
  | mkParameterTypeFact n k t o d =>
      KNode [key n; key k; static_type_key t; key o; default_key d]
  end
with default_key (d : DefaultFact) : Key :=
  KNode match d with
  | DF_Missing => [KInt 0]
  | DF_Value t l => [KInt 1; static_type_key t; key l]
  | DF_Factory i t => [KInt 2; key i; static_type_key t]
  | DF_Unknown => [KInt 3]
  end
with variable_key (v : TypeVariableFact) : Key :=
  match v with
  | mkTypeVariableFact i b cs =>
      KNode [key i; KNode (match b with None => [] | Some t => [static_type_key t] end);
             KNode (map static_type_key cs)]
  end.

Section key_injectivity.
Local Definition KI (t : StaticType) : Prop :=
  forall u, static_type_key t = static_type_key u -> t = u.

Local Ltac use_ki :=
  repeat match goal with
  | H : KI ?t, E : static_type_key ?t = static_type_key _ |- _ => apply H in E; subst
  end.
Local Ltac peel := cbn -[key]; intros; peel_keys; use_ki.

Local Lemma map_ki ts us :
  Forall KI ts -> KNode (map static_type_key ts) = KNode (map static_type_key us) -> ts = us.
Proof. intros H [= E]. by eapply map_key_inj_Forall. Qed.

Local Lemma default_ki d e : default_all KI d -> default_key d = default_key e -> d = e.
Proof. destruct d, e; peel; done. Qed.

Local Lemma parameter_ki p q : parameter_all KI p -> parameter_key p = parameter_key q -> p = q.
Proof.
  destruct p as [n k t o d], q as [n' k' t' o' d']. intros [Ht Hd]; cbn in Ht, Hd. peel.
  match goal with E : default_key _ = default_key _ |- _ => apply default_ki in E; [|done] end.
  by subst.
Qed.

Local Lemma signature_ki s r : signature_all KI s -> signature_key s = signature_key r -> s = r.
Proof.
  destruct s as [ps t o u], r as [ps' t' o' u']. intros [Hps Ht]; cbn in Hps, Ht.
  cbn -[key]. intros [Eps E]%KNode_cons_inj. peel.
  injection Eps as Eps. apply map_key_inj_Forall in Eps; [by subst|].
  eapply List.Forall_impl; [|exact Hps]. intros p Hp q. by apply parameter_ki.
Qed.

Local Lemma variable_ki v w : variable_all KI v -> variable_key v = variable_key w -> v = w.
Proof.
  destruct v as [i b cs], w as [i' b' cs']. intros [Hb Hcs]; cbn in Hb, Hcs. cbn -[key].
  intros [Ei E]%KNode_cons_inj. apply KNode_cons_inj in E as [Eb E].
  apply KNode_cons_inj in E as [Ecs _]. apply map_ki in Ecs; [|done].
  destruct b, b'; peel; done.
Qed.

Lemma static_type_key_inj t u : static_type_key t = static_type_key u -> t = u.
Proof.
  revert u. change (KI t).
  induction t as [t Ht|ts IH|t IH|s IH|v IH] using static_type_ind'; intros u.
  - destruct t; try discriminate Ht; destruct u; peel; try done.
  - destruct u; try discriminate. cbn. intros [_ E]%KNode_cons_inj.
    apply KNode_cons_inj in E as [E _]. f_equal. by apply map_ki.
  - destruct u; try discriminate. peel. done.
  - destruct u; try discriminate. cbn. intros [_ E]%KNode_cons_inj.
    apply KNode_cons_inj in E as [E _]. f_equal. by apply signature_ki.
  - destruct u; try discriminate. cbn. intros [_ E]%KNode_cons_inj.
    apply KNode_cons_inj in E as [E _]. f_equal. by apply variable_ki.
Qed.

Lemma all_ki : forall t, KI t.
Proof. intros t u. apply static_type_key_inj. Qed.

Lemma default_all_ki d : default_all KI d.
Proof. destruct d; cbn; auto using all_ki. Qed.
Lemma parameter_all_ki p : parameter_all KI p.
Proof. split; [apply all_ki|apply default_all_ki]. Qed.
Lemma signature_all_ki s : signature_all KI s.
Proof. split; [|apply all_ki]. apply Forall_forall. intros p _. apply parameter_all_ki. Qed.
Lemma variable_all_ki v : variable_all KI v.
Proof.
  split; [destruct (tv_upper_bound v); auto using all_ki|].
  apply Forall_forall. intros t _. apply all_ki.
Qed.

#[global] Instance StaticType_ord : RustOrd StaticType :=
  {| key := static_type_key; key_inj := static_type_key_inj |}.
#[global] Instance DefaultFact_ord : RustOrd DefaultFact :=
  {| key := default_key; key_inj := fun d e => default_ki d e (default_all_ki d) |}.
#[global] Instance ParameterTypeFact_ord : RustOrd ParameterTypeFact :=
  {| key := parameter_key; key_inj := fun d e => parameter_ki d e (parameter_all_ki d) |}.
#[global] Instance CallableSignature_ord : RustOrd CallableSignature :=
  {| key := signature_key; key_inj := fun d e => signature_ki d e (signature_all_ki d) |}.
#[global] Instance TypeVariableFact_ord : RustOrd TypeVariableFact :=
  {| key := variable_key; key_inj := fun d e => variable_ki d e (variable_all_ki d) |}.
End key_injectivity.

#[global] Instance StaticType_eq_dec : EqDecision StaticType := ord_eq_dec.
#[global] Instance DefaultFact_eq_dec : EqDecision DefaultFact := ord_eq_dec.
#[global] Instance ParameterTypeFact_eq_dec : EqDecision ParameterTypeFact := ord_eq_dec.
#[global] Instance CallableSignature_eq_dec : EqDecision CallableSignature := ord_eq_dec.
#[global] Instance TypeVariableFact_eq_dec : EqDecision TypeVariableFact := ord_eq_dec.
