(* ===== verification/Normalize.v ===== *)
(** * Type normalisation ([soac_contracts/src/facts.rs])

    [StaticType::normalize_at_depth] flattens and sorts unions, expands
    [Optional], and normalises inside signatures, defaults and type variables,
    failing when the nesting passes 64.  Its recursion is bounded by that
    limit, so [65 - depth] is enough fuel ([normalize_at_depth_unfold] is the
    equation of the source, without fuel).  Proved here: when it succeeds, that
    its results are exactly the normal forms, that it is idempotent and
    insensitive to the order and multiplicity of union members, and that it
    keeps the values a supported type accepts. *)

From S2P Require Import Prelude Order Collections Text Identity StaticTypes.

(** ** Predicates *)

Fixpoint contains_uncertainty (t : StaticType) : bool :=
  match t with
  | ST_Any | ST_Unknown | ST_Todo | ST_Divergent | ST_Unsupported _ _
  | ST_TypeVariable _ | ST_StructuralProtocol _ => true
  | ST_Union elements => existsb contains_uncertainty elements
  | ST_Optional element => contains_uncertainty element
  | ST_Callable (mkCallableSignature parameters return_type _ _) =>
      contains_uncertainty return_type
      || existsb (fun p => match p with
                  | mkParameterTypeFact _ _ value_type _ _ => contains_uncertainty value_type
                  end) parameters
  | _ => false
  end.

Fixpoint has_supported_value_shape (t : StaticType) : bool :=
  match t with
  | ST_None | ST_ExactBuiltin _ | ST_NominalBuiltin _ _ | ST_NumericWidening _ _
  | ST_NominalClass _ | ST_ExactClass _ => true
  | ST_Union elements =>
      negb (bool_decide (elements = [])) && forallb has_supported_value_shape elements
  | ST_Optional element => has_supported_value_shape element
  | _ => false
  end.

(** ** Normalisation *)

Definition nesting_error {A} : Result A := Err (InvalidType "type nesting exceeds 64").

(** [DefaultFact::normalize_at_depth] and [CallableSignature::normalize_at_depth],
    given [StaticType::normalize_at_depth]. *)
Definition default_normalize_at_depth (norm : nat -> StaticType -> Result StaticType)
    (d : DefaultFact) (depth : nat) : Result DefaultFact :=
  match d with
  | DF_Value value_type literal =>
      let? value_type := norm (S depth) value_type in Ok (DF_Value value_type literal)
  | DF_Factory implementation return_type =>
      let? return_type := norm (S depth) return_type in
      Ok (DF_Factory implementation return_type)
  | DF_Missing | DF_Unknown => Ok d
  end.

Definition parameter_normalize_at_depth (norm : nat -> StaticType -> Result StaticType)
    (depth : nat) (p : ParameterTypeFact) : Result ParameterTypeFact :=
  let 'mkParameterTypeFact name kind value_type origin default := p in
  let? value_type := norm (S depth) value_type in
  let? default := default_normalize_at_depth norm default (S depth) in
  Ok (mkParameterTypeFact name kind value_type origin default).

Definition signature_normalize_at_depth (norm : nat -> StaticType -> Result StaticType)
    (s : CallableSignature) (depth : nat) : Result CallableSignature :=
  let 'mkCallableSignature parameters return_type origin uncertainty := s in
  let? return_type := norm (S depth) return_type in
  let? parameters := map_result (parameter_normalize_at_depth norm depth) parameters in
  Ok (mkCallableSignature parameters return_type origin uncertainty).

(** The [match element.normalize_at_depth(..)? {..}] of the union loop. *)
Definition union_add (acc : list StaticType) (n : StaticType) : list StaticType :=
  match n with
  | ST_Union nested => bset_extend acc nested
  | _ => bset_insert n acc
  end.

(** The body of [StaticType::normalize_at_depth] with its recursive calls
    abstracted. *)
Definition normalize_body (norm : nat -> StaticType -> Result StaticType)
    (depth : nat) (t : StaticType) : Result StaticType :=
  match t with
  | ST_Optional element => norm (S depth) (ST_Union [element; ST_None])
  | ST_Union elements =>
      if bool_decide (elements = []) then Err (InvalidType "empty union") else
      let? normalized := for_fold (fun acc element =>
        let? n := norm (S depth) element in Ok (union_add acc n)) [] elements in
      match normalized with
      | [n] => Ok n
      | _ => Ok (ST_Union normalized)
      end
  | ST_Literal LV_None => Ok ST_None
  | ST_Callable signature =>
      let? signature := signature_normalize_at_depth norm signature (S depth) in
      Ok (ST_Callable signature)
  | ST_TypeVariable (mkTypeVariableFact identity upper_bound constraints) =>
      let? upper_bound := opt_result (norm (S depth)) upper_bound in
      let? constraints := map_result (norm (S depth)) constraints in
      Ok (ST_TypeVariable (mkTypeVariableFact identity upper_bound (dedup (sort constraints))))
  | _ => Ok t
  end.

Fixpoint normalize_fuel (fuel depth : nat) (t : StaticType) : Result StaticType :=
  if (64 <? depth)%nat then nesting_error else
  match fuel with
  | O => nesting_error
  | S fuel => normalize_body (normalize_fuel fuel) depth t
  end.

Definition normalize_at_depth (depth : nat) (t : StaticType) : Result StaticType :=
  normalize_fuel (65 - depth) depth t.
Definition normalized (t : StaticType) : Result StaticType := normalize_at_depth 0 t.
#[global] Arguments normalize_at_depth : simpl never.

(** ** The recursion equation *)

Section body_ext.
Context (f g : nat -> StaticType -> Result StaticType) (depth : nat).
Hypothesis Hfg : forall d t, (depth < d)%nat -> f d t = g d t.

Local Lemma default_normalize_ext d n :
  (depth <= n)%nat -> default_normalize_at_depth f d n = default_normalize_at_depth g d n.
Proof. intros. destruct d; cbn; rewrite ?Hfg by lia; done. Qed.

Local Lemma map_result_ext {A B} (h k : A -> Result B) l :
  (forall x, h x = k x) -> map_result h l = map_result k l.
Proof. intros E. induction l; cbn; [done|]. by rewrite E, IHl. Qed.

Local Lemma parameter_normalize_ext n p :
  (depth <= n)%nat -> parameter_normalize_at_depth f n p = parameter_normalize_at_depth g n p.
Proof.
  intros. destruct p; cbn. rewrite Hfg by lia. by rewrite default_normalize_ext by lia.
Qed.

Lemma normalize_body_ext t : normalize_body f depth t = normalize_body g depth t.
Proof.
  destruct t as [| | | | | |ts|t|[ps r o u]|l|[i b cs]| | | | | |]; cbn; try done.
  - case_bool_decide; [done|]. f_equal. clear H. generalize (@nil StaticType).
    induction ts as [|t ts IH]; cbn; intros acc; [done|].
    rewrite Hfg by lia. destruct (g (S depth) t); cbn; [apply IH|done].
  - apply Hfg. lia.
  - rewrite Hfg by lia. destruct (g _ r); cbn; [|done].
    rewrite (map_result_ext _ (parameter_normalize_at_depth g (S depth))); [done|].
    intros p. apply parameter_normalize_ext. lia.
  - assert (opt_result (f (S depth)) b = opt_result (g (S depth)) b) as ->.
    { destruct b; cbn; [rewrite Hfg by lia|]; done. }
    rewrite (map_result_ext (f (S depth)) (g (S depth))); [done|]. intros t. apply Hfg. lia.
Qed.
End body_ext.

Lemma normalize_fuel_enough fuel1 fuel2 depth t :
  (65 - depth <= fuel1)%nat -> (65 - depth <= fuel2)%nat ->
  normalize_fuel fuel1 depth t = normalize_fuel fuel2 depth t.
Proof.
  revert fuel2 depth t. induction fuel1 as [|fuel1 IH]; intros [|fuel2] depth t H1 H2;
    cbn [normalize_fuel]; destruct (Nat.ltb_spec 64 depth); try done; try lia.
  apply normalize_body_ext. intros d u Hd. apply IH; lia.
Qed.

Lemma normalize_at_depth_unfold depth t :
  normalize_at_depth depth t =
  if (64 <? depth)%nat then nesting_error else normalize_body normalize_at_depth depth t.
Proof.
  unfold normalize_at_depth at 1. destruct (65 - depth) as [|fuel] eqn:E;
    cbn [normalize_fuel].
  - destruct (Nat.ltb_spec 64 depth); [done|lia].
  - destruct (Nat.ltb_spec 64 depth); [done|]. apply normalize_body_ext.
    intros d u Hd. apply normalize_fuel_enough; lia.
Qed.

(** ** Union members *)

Definition st_flat (n : StaticType) : list StaticType :=
  match n with ST_Union ts => ts | _ => [n] end.
Definition union_collapse (l : list StaticType) : StaticType :=
  match l with [n] => n | _ => ST_Union l end.

Lemma union_add_flat acc n : union_add acc n = bset_extend acc (st_flat n).
Proof. by destruct n. Qed.

Lemma fold_union_add ns acc :
  fold_left union_add ns acc = bset_extend acc (concat (map st_flat ns)).
Proof.
  revert acc. induction ns as [|n ns IH]; intros acc; cbn; [done|].
  rewrite IH, union_add_flat. unfold bset_extend. by rewrite fold_left_app.
Qed.

Lemma union_loop_ok (norm : nat -> StaticType -> Result StaticType) depth ts acc l :
  for_fold (fun acc t => let? n := norm (S depth) t in Ok (union_add acc n)) acc ts = Ok l <->
  exists ns, Forall2 (fun t n => norm (S depth) t = Ok n) ts ns /\
    l = bset_extend acc (concat (map st_flat ns)).
Proof.
  setoid_rewrite <- fold_union_add. revert acc.
  induction ts as [|t ts IH]; intros acc; cbn.
  - split.
    + intros [= <-]. by exists [].
    + intros (ns & H & ->). inversion H; subst. done.
  - destruct (norm (S depth) t) as [n|e] eqn:E; cbn.
    + rewrite IH. split.
      * intros (ns & H & ->). exists (n :: ns). split; [by constructor|done].
      * intros (ns & H & ->). inversion H as [|? n' ? ns' Hn Hns]; subst.
        rewrite E in Hn. injection Hn as <-. eauto.
    + split; [done|]. intros (ns & H & _). inversion H; subst. congruence.
Qed.

Lemma union_collapse_ok (l : list StaticType) t :
  match l with [n] => Ok n | _ => Ok (ST_Union l) end = (Ok t : Result StaticType) <->
  t = union_collapse l.
Proof. unfold union_collapse. destruct l as [|a [|b l]]; naive_solver. Qed.

Lemma normalize_union_ok depth ts t :
  normalize_at_depth depth (ST_Union ts) = Ok t <->
  (depth <= 64)%nat /\ ts <> [] /\ exists ns,
    Forall2 (fun t n => normalize_at_depth (S depth) t = Ok n) ts ns /\
    t = union_collapse (bset_of_list (concat (map st_flat ns))).
Proof.
  rewrite normalize_at_depth_unfold. destruct (Nat.ltb_spec 64 depth) as [|Hd].
  { split; [done|]. intros (? & _). lia. }
  cbn [normalize_body]. case_bool_decide as Hts.
  { split; [done|]. intros (_ & ? & _). done. }
  split.
  - intros H. ok_inv. apply union_loop_ok in E as (ns & Hns & ->).
    apply union_collapse_ok in H. eauto.
  - intros (_ & _ & ns & Hns & ->).
    rewrite (proj2 (union_loop_ok _ _ _ [] _)) by eauto. cbn [rbind].
    by apply union_collapse_ok.
Qed.

(** ** Nesting and normal forms *)

(** The greatest depth increase [normalize_at_depth] reaches. *)
Fixpoint norm_height (t : StaticType) : nat :=
  match t with
  | ST_Union ts => S (list_max (map norm_height ts))
  | ST_Optional t => S (S (norm_height t))
  | ST_Callable (mkCallableSignature ps r _ _) =>
      S (S (Nat.max (norm_height r) (list_max (map (fun p => match p with
        | mkParameterTypeFact _ _ t _ d => Nat.max (norm_height t)
            match d with
            | DF_Value t _ | DF_Factory _ t => S (norm_height t)
            | DF_Missing | DF_Unknown => 0
            end
        end) ps))))
  | ST_TypeVariable (mkTypeVariableFact _ b cs) =>
      Nat.max match b with Some t => S (norm_height t) | None => 0 end
              (list_max (map (fun t => S (norm_height t)) cs))
  | _ => 0
  end.

Definition default_height (d : DefaultFact) : nat :=
  match d with
  | DF_Value t _ | DF_Factory _ t => S (norm_height t)
  | DF_Missing | DF_Unknown => 0
  end.
Definition parameter_height (p : ParameterTypeFact) : nat :=
  Nat.max (norm_height (par_value_type p)) (default_height (par_default p)).

Lemma norm_height_callable ps r o u :
  norm_height (ST_Callable (mkCallableSignature ps r o u)) =
  S (S (Nat.max (norm_height r) (list_max (map parameter_height ps)))).
Proof.
  cbn [norm_height]. do 3 f_equal. f_equal. apply map_ext. by intros [? ? ? ? []].
Qed.

Lemma norm_height_variable i b cs :
  norm_height (ST_TypeVariable (mkTypeVariableFact i b cs)) =
  Nat.max match b with Some t => S (norm_height t) | None => 0 end
    match cs with [] => 0 | _ => S (list_max (map norm_height cs)) end.
Proof.
  cbn [norm_height]. f_equal. destruct cs as [|c cs]; [done|].
  revert c. induction cs as [|c' cs IH]; intros c; [cbn; lia|].
  specialize (IH c'). cbn in *. lia.
Qed.

(** No empty union anywhere inside. *)
Fixpoint unions_nonempty (t : StaticType) : bool :=
  match t with
  | ST_Union ts => negb (bool_decide (ts = [])) && forallb unions_nonempty ts
  | ST_Optional t => unions_nonempty t
  | ST_Callable (mkCallableSignature ps r _ _) =>
      unions_nonempty r && forallb (fun p => match p with
        | mkParameterTypeFact _ _ t _ d => unions_nonempty t &&
            match d with
            | DF_Value t _ | DF_Factory _ t => unions_nonempty t
            | DF_Missing | DF_Unknown => true
            end
        end) ps
  | ST_TypeVariable (mkTypeVariableFact _ b cs) =>
      match b with Some t => unions_nonempty t | None => true end
      && forallb unions_nonempty cs
  | _ => true
  end.

Definition is_union (t : StaticType) : bool := match t with ST_Union _ => true | _ => false end.

(** Normal forms: unions are strictly sorted lists of at least two non-union
    normal forms, constraints are strictly sorted, and neither [Optional] nor
    the literal [None] remains. *)
Fixpoint st_nf (t : StaticType) : Prop :=
  match t with
  | ST_Union ts =>
      (2 <= length ts)%nat /\ Strict ts /\ Forall (fun t => is_union t = false) ts /\
      foldr (fun t P => st_nf t /\ P) True ts
  | ST_Optional _ => False
  | ST_Literal LV_None => False
  | ST_Callable (mkCallableSignature ps r _ _) =>
      st_nf r /\ foldr (fun p P => match p with
        | mkParameterTypeFact _ _ t _ d => st_nf t /\
            match d with
            | DF_Value t _ | DF_Factory _ t => st_nf t
            | DF_Missing | DF_Unknown => True
            end /\ P
        end) True ps
  | ST_TypeVariable (mkTypeVariableFact _ b cs) =>
      match b with Some t => st_nf t | None => True end /\ Strict cs /\
      foldr (fun t P => st_nf t /\ P) True cs
  | _ => True
  end.

Lemma foldr_nf ts : foldr (fun t P => st_nf t /\ P) True ts <-> Forall st_nf ts.
Proof. induction ts; cbn; [by split|]. rewrite Forall_cons, IHts. done. Qed.

Lemma st_nf_union ts :
  st_nf (ST_Union ts) <->
  (2 <= length ts)%nat /\ Strict ts /\ Forall (fun t => is_union t = false) ts /\ Forall st_nf ts.
Proof. cbn. by rewrite foldr_nf. Qed.

Lemma st_nf_callable s : st_nf (ST_Callable s) <-> signature_all st_nf s.
Proof.
  destruct s as [ps r o u]. unfold signature_all. cbn. rewrite (and_comm (st_nf r)).
  apply and_iff_compat_r. induction ps as [|[n k t o' d] ps IH]; cbn; [by split|].
  rewrite Forall_cons, IH. unfold parameter_all. cbn. destruct d; cbn; tauto.
Qed.

Lemma st_nf_variable i b cs :
  st_nf (ST_TypeVariable (mkTypeVariableFact i b cs)) <->
  match b with Some t => st_nf t | None => True end /\ Strict cs /\ Forall st_nf cs.
Proof. cbn. by rewrite foldr_nf. Qed.

Lemma list_max_map_cons {A} (h : A -> nat) x l :
  list_max (map h (x :: l)) = Nat.max (h x) (list_max (map h l)).
Proof. reflexivity. Qed.

Lemma list_max_elem {A} (h : A -> nat) x l : x ∈ l -> (h x <= list_max (map h l))%nat.
Proof. induction 1; rewrite list_max_map_cons; lia. Qed.

Lemma list_max_map_le {A} (h : A -> nat) l n :
  (list_max (map h l) <= n)%nat <-> Forall (fun x => (h x <= n)%nat) l.
Proof.
  induction l as [|x l IH]; [split; [constructor|cbn; lia]|].
  rewrite Forall_cons, <- IH, list_max_map_cons. lia.
Qed.

(** ** Inversion of a successful normalisation *)

Definition leaf_norm (t : StaticType) : StaticType :=
  match t with ST_Literal LV_None => ST_None | _ => t end.

Lemma normalize_leaf_ok depth t t' :
  st_leaf t = true ->
  normalize_at_depth depth t = Ok t' <-> (depth <= 64)%nat /\ t' = leaf_norm t.
Proof.
  intros Hl. rewrite normalize_at_depth_unfold. destruct (Nat.ltb_spec 64 depth).
  { split; [done|lia]. }
  destruct t as [| | | | | | | | |[]| | | | | | |]; try discriminate Hl; cbn; naive_solver.
Qed.

Lemma normalize_optional_ok depth t t' :
  normalize_at_depth depth (ST_Optional t) = Ok t' <->
  normalize_at_depth (S depth) (ST_Union [t; ST_None]) = Ok t'.
Proof.
  rewrite (normalize_at_depth_unfold depth). destruct (Nat.ltb_spec 64 depth); [|done].
  split; [done|]. rewrite normalize_union_ok. lia.
Qed.

Definition normalizes_default (depth : nat) (d d' : DefaultFact) : Prop :=
  default_normalize_at_depth normalize_at_depth d depth = Ok d'.
Definition normalizes_parameter (depth : nat) (p p' : ParameterTypeFact) : Prop :=
  parameter_normalize_at_depth normalize_at_depth depth p = Ok p'.

Lemma normalize_callable_ok depth ps r o u t' :
  normalize_at_depth depth (ST_Callable (mkCallableSignature ps r o u)) = Ok t' <->
  (depth <= 64)%nat /\ exists r' ps',
    normalize_at_depth (S (S depth)) r = Ok r' /\
    Forall2 (normalizes_parameter (S depth)) ps ps' /\
    t' = ST_Callable (mkCallableSignature ps' r' o u).
Proof.
  rewrite normalize_at_depth_unfold. destruct (Nat.ltb_spec 64 depth).
  { split; [done|]. intros [? _]. lia. }
  cbn. split.
  - intros H'. ok_inv. apply map_result_ok in E1. naive_solver.
  - intros (_ & r' & ps' & Hr & Hps & ->). rewrite Hr. cbn.
    apply map_result_ok in Hps. by rewrite Hps.
Qed.

Lemma normalize_variable_ok depth i b cs t' :
  normalize_at_depth depth (ST_TypeVariable (mkTypeVariableFact i b cs)) = Ok t' <->
  (depth <= 64)%nat /\ exists b' cs',
    option_Forall2 (fun t t' => normalize_at_depth (S depth) t = Ok t') b b' /\
    Forall2 (fun t t' => normalize_at_depth (S depth) t = Ok t') cs cs' /\
    t' = ST_TypeVariable (mkTypeVariableFact i b' (dedup (sort cs'))).
Proof.
  rewrite normalize_at_depth_unfold. destruct (Nat.ltb_spec 64 depth).
  { split; [done|]. intros [? _]. lia. }
  cbn. split.
  - intros H'. ok_inv. apply map_result_ok in E0. apply opt_result_ok in E. naive_solver.
  - intros (_ & b' & cs' & Hb & Hcs & ->).
    apply map_result_ok in Hcs. apply opt_result_ok in Hb. by rewrite Hb, Hcs.
Qed.

(** ** Normal forms are reached and kept *)

(** [t] normalises, at every depth, only to normal forms no deeper than it. *)
Local Definition norm_good (t : StaticType) : Prop :=
  forall depth t', normalize_at_depth depth t = Ok t' ->
  st_nf t' /\ (norm_height t' <= norm_height t)%nat /\ (depth + norm_height t <= 64)%nat.

Local Lemma flat_nf n :
  st_nf n ->
  Forall (fun t => st_nf t /\ is_union t = false /\ (norm_height t <= norm_height n)%nat) (st_flat n).
Proof.
  intros Hn. destruct (is_union n) eqn:E.
  - destruct n as [| | | | | |ts| | | | | | | | | |]; try discriminate E.
    apply st_nf_union in Hn as (_ & _ & Hu & Hnf). cbn [st_flat].
    rewrite !Forall_forall in *. intros t Ht. repeat split; auto.
    pose proof (list_max_elem norm_height t ts Ht). cbn [norm_height]. lia.
  - destruct n; try discriminate E; cbn [st_flat]; repeat constructor; done.
Qed.

Local Lemma concat_flat_nf ns h :
  Forall (fun n => st_nf n /\ (norm_height n <= h)%nat) ns ->
  Forall (fun t => st_nf t /\ is_union t = false /\ (norm_height t <= h)%nat)
    (concat (map st_flat ns)).
Proof.
  induction 1 as [|n ns [Hn Hh] _ IH]; cbn; [constructor|]. apply Forall_app. split; [|done].
  eapply List.Forall_impl; [|by apply flat_nf]. intros t (? & ? & ?). repeat split; auto; lia.
Qed.

Local Lemma collapse_nf l h :
  l <> [] -> Strict l ->
  Forall (fun t => st_nf t /\ is_union t = false /\ (norm_height t <= h)%nat) l ->
  st_nf (union_collapse l) /\ (norm_height (union_collapse l) <= S h)%nat.
Proof.
  intros Hne Hs Hl. destruct l as [|a [|b l]]; [done| |].
  - cbn. inversion Hl as [|? ? (? & ? & ?)]; subst. split; [done|lia].
  - unfold union_collapse. set (l' := a :: b :: l) in *. split.
    + apply st_nf_union. split; [subst l'; cbn; lia|]. split; [done|].
      split; eapply List.Forall_impl; try exact Hl; naive_solver.
    + cbn [norm_height]. apply le_n_S, list_max_map_le.
      eapply List.Forall_impl; [|exact Hl]. naive_solver.
Qed.

Lemma concat_flat_nonempty ns :
  ns <> [] -> Forall st_nf ns -> bset_of_list (concat (map st_flat ns)) <> [].
Proof.
  destruct ns as [|n ns]; [done|]. intros _ Hn E. inversion Hn as [|? ? Hn' _]; subst.
  assert (exists t, t ∈ st_flat n) as [t Ht].
  { destruct (is_union n) eqn:U.
    - destruct n as [| | | | | |ts| | | | | | | | | |]; try discriminate U.
      apply st_nf_union in Hn' as (Hlen & _). destruct ts as [|t ts]; [cbn in Hlen; lia|].
      exists t. cbn. set_solver.
    - exists n. destruct n; try discriminate U; cbn; set_solver. }
  assert (t ∈ bset_of_list (concat (map st_flat (n :: ns)))) as Ht'.
  { apply elem_of_bset_of_list. cbn. set_solver. }
  rewrite E in Ht'. set_solver.
Qed.

Local Lemma Forall_combine {A} (P Q : A -> Prop) l :
  Forall P l -> Forall Q l -> Forall (fun x => P x /\ Q x) l.
Proof. rewrite !Forall_forall. naive_solver. Qed.

Local Lemma norm_good_Forall2 depth ts ns :
  Forall norm_good ts -> Forall2 (fun t n => normalize_at_depth depth t = Ok n) ts ns ->
  Forall (fun n => st_nf n /\ (norm_height n <= list_max (map norm_height ts))%nat) ns /\
  (ts <> [] -> depth + list_max (map norm_height ts) <= 64)%nat.
Proof.
  intros Hts H. revert Hts. induction H as [|t n ts ns Ht Hns IH]; intros Hts; [by split|].
  inversion Hts as [|? ? Hg Hgs]; subst. destruct (IH Hgs) as [IH1 IH2].
  destruct (Hg _ _ Ht) as (Hnf & Hh & Hd). rewrite list_max_map_cons. split.
  - constructor; [split; [done|lia]|].
    eapply List.Forall_impl; [|exact IH1]. intros m [? ?]. split; [done|lia].
  - intros _. destruct ts as [|t' ts]; [cbn; lia|]. specialize (IH2 ltac:(done)). lia.
Qed.

Local Lemma norm_good_union ts : Forall norm_good ts -> norm_good (ST_Union ts).
Proof.
  intros Hts depth t' (Hd & Hne & ns & Hns & ->)%normalize_union_ok.
  destruct (norm_good_Forall2 _ _ _ Hts Hns) as [Hgood Hdepth].
  assert (ns <> []) as Hns'. { intros ->. by inversion Hns; subst. }
  pose proof (concat_flat_nf _ _ Hgood) as Hflat.
  assert (Forall (fun t => st_nf t /\ is_union t = false /\
    (norm_height t <= list_max (map norm_height ts))%nat) (bset_of_list (concat (map st_flat ns)))) as Hset.
  { rewrite Forall_forall in *. intros t Ht. apply Hflat. by apply elem_of_bset_of_list. }
  destruct (collapse_nf _ _ (concat_flat_nonempty ns Hns'
    (List.Forall_impl _ (fun n Hn => proj1 Hn) Hgood)) (bset_of_list_strict _) Hset) as [Hnf Hh].
  split; [done|]. specialize (Hdepth Hne). cbn [norm_height]. split; lia.
Qed.

Local Lemma norm_good_leaf t : st_leaf t = true -> norm_good t.
Proof.
  intros Hl depth t' (Hd & ->)%normalize_leaf_ok; [|done].
  destruct t as [| | | | | | | | |[]| | | | | | |]; try discriminate Hl; cbn; repeat split; lia.
Qed.

Local Lemma norm_good_default depth d d' :
  default_all norm_good d -> normalizes_default depth d d' ->
  default_all st_nf d' /\ (default_height d' <= default_height d)%nat /\
  (default_height d = 0 \/ depth + default_height d <= 64)%nat.
Proof.
  unfold normalizes_default. destruct d as [|t l|i t|]; cbn; intros Hg H; ok_inv; cbn.
  - split; [done|lia].
  - destruct (Hg _ _ E) as (? & ? & ?). repeat split; [done|lia|lia].
  - destruct (Hg _ _ E) as (? & ? & ?). repeat split; [done|lia|lia].
  - split; [done|lia].
Qed.

Local Lemma norm_good_parameter depth p p' :
  parameter_all norm_good p -> normalizes_parameter depth p p' ->
  parameter_all st_nf p' /\ (parameter_height p' <= parameter_height p)%nat /\
  (S depth + parameter_height p <= 64)%nat.
Proof.
  destruct p as [n k t o d]. intros [Ht Hd] H. cbn in Ht, Hd. unfold normalizes_parameter in H.
  cbn in H. ok_inv. destruct (Ht _ _ E) as (? & ? & ?).
  destruct (norm_good_default _ _ _ Hd E0) as (? & ? & ?).
  unfold parameter_all, parameter_height. cbn. repeat split; [done..|lia|lia].
Qed.

Local Lemma norm_good_callable s : signature_all norm_good s -> norm_good (ST_Callable s).
Proof.
  destruct s as [ps r o u]. intros [Hps Hr] depth t' H. cbn in Hps, Hr.
  apply normalize_callable_ok in H as (Hd & r' & ps' & Er & Eps & ->).
  destruct (Hr _ _ Er) as (Hnf & Hh & Hdr).
  assert (Forall (parameter_all st_nf) ps' /\
    (list_max (map parameter_height ps') <= list_max (map parameter_height ps))%nat /\
    (S (S depth) + list_max (map parameter_height ps) <= 64)%nat) as (Hps' & Hhp & Hdp).
  { clear Hr Er. revert Hps. induction Eps as [|p p' ps ps' Ep _ IH]; intros Hps.
    - cbn. repeat split; [constructor|lia|lia].
    - inversion Hps as [|? ? Hp Hps']; subst. destruct (IH Hps') as (IH1 & IH2 & IH3).
      destruct (norm_good_parameter _ _ _ Hp Ep) as (? & ? & ?).
      rewrite !list_max_map_cons. repeat split; [by constructor|lia|lia]. }
  split; [apply st_nf_callable; by split|]. rewrite !norm_height_callable. lia.
Qed.

Local Lemma norm_good_variable v : variable_all norm_good v -> norm_good (ST_TypeVariable v).
Proof.
  destruct v as [i b cs]. intros [Hb Hcs] depth t' H. cbn in Hb, Hcs.
  apply normalize_variable_ok in H as (Hd & b' & cs' & Eb & Ecs & ->).
  destruct (norm_good_Forall2 _ _ _ Hcs Ecs) as [Hcs' Hdepth].
  assert (match b' with Some t => st_nf t | None => True end /\
    (match b' with Some t => S (norm_height t) | None => 0 end <=
     match b with Some t => S (norm_height t) | None => 0 end)%nat /\
    (match b with Some t => S depth + norm_height t | None => 0 end <= 64)%nat) as (? & ? & ?).
  { destruct Eb as [t t' Et|]; [|repeat split; lia]. destruct (Hb _ _ Et) as (? & ? & ?).
    repeat split; [done|lia|lia]. }
  assert (Forall (fun n => st_nf n /\ (norm_height n <= list_max (map norm_height cs))%nat)
    (dedup (sort cs'))) as Hset.
  { rewrite Forall_forall in *. intros t Ht. apply Hcs'. by apply elem_of_sort_dedup. }
  rewrite !norm_height_variable. split; [|split].
  - apply st_nf_variable. repeat split; [done|eauto with ordered|].
    eapply List.Forall_impl; [|exact Hset]. naive_solver.
  - assert (list_max (map norm_height (dedup (sort cs'))) <= list_max (map norm_height cs))%nat.
    { apply list_max_map_le. eapply List.Forall_impl; [|exact Hset]. naive_solver. }
    destruct cs as [|c cs].
    + inversion Ecs; subst. cbn [dedup sort sort_by]. lia.
    + destruct (dedup (sort cs')); lia.
  - destruct cs as [|c cs]; [|specialize (Hdepth ltac:(done))]; destruct b; lia.
Qed.

Lemma normalize_good t : norm_good t.
Proof.
  induction t as [t Ht|ts IH|t IH|s IH|v IH] using static_type_ind'.
  - by apply norm_good_leaf.
  - by apply norm_good_union.
  - intros depth t' H. apply normalize_optional_ok in H.
    assert (Forall norm_good [t; ST_None]) as Hts.
    { constructor; [done|]. constructor; [by apply norm_good_leaf|constructor]. }
    destruct (norm_good_union _ Hts _ _ H) as (? & ? & ?).
    cbn [norm_height map list_max foldr] in *. split; [done|]. lia.
  - by apply norm_good_callable.
  - by apply norm_good_variable.
Qed.

(** Normal forms within the nesting limit are fixed points. *)
Local Definition norm_fixed (t : StaticType) : Prop :=
  forall depth, st_nf t -> (depth + norm_height t <= 64)%nat -> normalize_at_depth depth t = Ok t.

Local Lemma norm_fixed_Forall2 depth ts :
  Forall norm_fixed ts -> Forall st_nf ts ->
  Forall (fun t => depth + norm_height t <= 64)%nat ts ->
  Forall2 (fun t n => normalize_at_depth depth t = Ok n) ts ts.
Proof.
  intros H1 H2 H3. induction ts as [|t ts IH]; constructor;
    inversion H1; inversion H2; inversion H3; subst; auto.
Qed.

Lemma concat_flat_not_union ts :
  Forall (fun t => is_union t = false) ts -> concat (map st_flat ts) = ts.
Proof.
  induction 1 as [|t ts Ht _ IH]; cbn; [done|]. rewrite IH. by destruct t.
Qed.

Local Lemma norm_fixed_parameter depth p :
  parameter_all norm_fixed p -> parameter_all st_nf p ->
  (S depth + parameter_height p <= 64)%nat -> normalizes_parameter depth p p.
Proof.
  destruct p as [n k t o d]. unfold parameter_all, parameter_height, normalizes_parameter. cbn.
  intros [Ht Hd] [Nt Nd] Hh. rewrite Ht by (done || lia). cbn [rbind].
  destruct d as [|t' l|i t'|]; cbn in *; try done; rewrite Hd by (done || lia); done.
Qed.

Lemma normalize_fixed t : norm_fixed t.
Proof.
  induction t as [t Ht|ts IH|t IH|s IH|v IH] using static_type_ind'; intros depth Hnf Hh.
  - apply normalize_leaf_ok; [done|]. split; [lia|].
    destruct t as [| | | | | | | | |[]| | | | | | |]; try discriminate Ht; done.
  - apply st_nf_union in Hnf as (Hlen & Hs & Hu & Hnf). cbn [norm_height] in Hh.
    apply normalize_union_ok. split; [lia|]. split; [intros ->; cbn in Hlen; lia|].
    exists ts. split.
    + apply norm_fixed_Forall2; [done..|]. apply Forall_forall. intros t Ht.
      pose proof (list_max_elem norm_height t ts Ht). lia.
    + rewrite concat_flat_not_union, bset_of_list_id by done.
      destruct ts as [|a [|b ts]]; cbn in Hlen; done || lia.
  - done.
  - apply st_nf_callable in Hnf. destruct s as [ps r o u]. destruct IH as [IHp IHr], Hnf as [Np Nr].
    cbn in IHp, IHr, Np, Nr. rewrite norm_height_callable in Hh. apply normalize_callable_ok. split; [lia|].
    exists r, ps. split; [apply IHr; [done|lia]|]. split; [|done].
    assert (forall p, p ∈ ps -> (parameter_height p <= list_max (map parameter_height ps))%nat)
      as Hmax by (intros; by apply list_max_elem).
    clear IHr Nr. induction ps as [|p ps IH]; constructor; inversion IHp; inversion Np; subst.
    + apply norm_fixed_parameter; [done..|]. specialize (Hmax p ltac:(set_solver)). lia.
    + apply IH; [done..| |intros; by apply list_max_elem].
      rewrite list_max_map_cons in Hh. lia.
  - destruct v as [i b cs]. destruct IH as [IHb IHcs]. cbn in IHb, IHcs.
    apply st_nf_variable in Hnf as (Nb & Hs & Ncs). rewrite norm_height_variable in Hh.
    apply normalize_variable_ok. split; [lia|]. exists b, cs. split; [|split].
    + destruct b; constructor. apply IHb; [done|lia].
    + apply norm_fixed_Forall2; [done..|]. apply Forall_forall. intros t Ht.
      pose proof (list_max_elem norm_height t cs Ht). destruct cs; [set_solver|lia].
    + by rewrite sort_dedup_id.
Qed.

(** Every type within the limit and without empty unions normalises. *)
Local Definition norm_total (t : StaticType) : Prop :=
  forall depth, (depth + norm_height t <= 64)%nat ->
  is_ok (normalize_at_depth depth t) = unions_nonempty t.

Local Lemma is_ok_true {E A} (r : result E A) : is_ok r = true <-> exists a, r = Ok a.
Proof. destruct r; cbn; naive_solver. Qed.

Local Lemma is_ok_ext {E A} (r : result E A) b :
  ((exists a, r = Ok a) <-> b = true) -> is_ok r = b.
Proof.
  rewrite <- is_ok_true. destruct (is_ok r), b; naive_solver.
Qed.

Local Lemma exists_Forall2_iff {A B} (R : A -> B -> Prop) l :
  (exists l', Forall2 R l l') <-> Forall (fun x => exists y, R x y) l.
Proof.
  induction l as [|x l IH].
  - split; [constructor|]. by exists [].
  - rewrite Forall_cons, <- IH. split.
    + intros (l' & H). inversion H; subst. eauto.
    + intros [(y & ?) (l' & ?)]. exists (y :: l'). by constructor.
Qed.

Local Lemma norm_total_list depth ts :
  Forall norm_total ts -> Forall (fun t => depth + norm_height t <= 64)%nat ts ->
  (exists ns, Forall2 (fun t n => normalize_at_depth depth t = Ok n) ts ns) <->
  forallb unions_nonempty ts = true.
Proof.
  intros Ht Hh. rewrite exists_Forall2_iff, List.forallb_forall.
  setoid_rewrite <- list_elem_of_In. rewrite <- Forall_forall.
  induction Ht as [|t ts Ht _ IH]; [by split|]. inversion Hh; subst.
  rewrite !Forall_cons, IH by done. rewrite <- (Ht depth) by done. by rewrite is_ok_true.
Qed.

Local Lemma norm_total_union ts : Forall norm_total ts -> norm_total (ST_Union ts).
Proof.
  intros Hts depth Hh. cbn [norm_height unions_nonempty] in *. apply is_ok_ext.
  setoid_rewrite normalize_union_ok. rewrite andb_true_iff, negb_true_iff, bool_decide_eq_false.
  rewrite <- (norm_total_list (S depth)); [|done|].
  - split; [naive_solver|]. intros [? [ns ?]]. eexists. split; [lia|]. eauto.
  - apply Forall_forall. intros t Ht. pose proof (list_max_elem norm_height t ts Ht). lia.
Qed.

Local Definition parameter_nonempty (p : ParameterTypeFact) : bool :=
  match p with
  | mkParameterTypeFact _ _ t _ d => unions_nonempty t &&
      match d with
      | DF_Value t _ | DF_Factory _ t => unions_nonempty t
      | DF_Missing | DF_Unknown => true
      end
  end.

Local Lemma norm_total_parameter depth p :
  parameter_all norm_total p -> (S depth + parameter_height p <= 64)%nat ->
  (exists p', normalizes_parameter depth p p') <-> parameter_nonempty p = true.
Proof.
  destruct p as [n k t o d]. unfold parameter_all, parameter_height, normalizes_parameter. cbn.
  intros [Ht Hd] Hh. rewrite <- is_ok_true, andb_true_iff, <- (Ht (S depth)) by lia.
  destruct (normalize_at_depth (S depth) t); cbn [is_ok rbind]; [|by split; [|intros []]].
  destruct d as [|t' l|i t'|]; cbn in *; try (by split);
    rewrite <- (Hd (S (S depth))) by lia; destruct (normalize_at_depth _ t'); cbn;
    by split; [|intros []].
Qed.

Local Lemma norm_total_parameters depth ps :
  Forall (parameter_all norm_total) ps ->
  (S depth + list_max (map parameter_height ps) <= 64)%nat ->
  (exists ps', Forall2 (normalizes_parameter depth) ps ps') <->
  forallb parameter_nonempty ps = true.
Proof.
  intros Hps Hh. rewrite exists_Forall2_iff.
  induction Hps as [|p ps Hp _ IH]; [by split|]. rewrite list_max_map_cons in Hh. cbn [forallb].
  rewrite Forall_cons, andb_true_iff, IH, norm_total_parameter by (done || lia). done.
Qed.

Lemma normalize_total t : norm_total t.
Proof.
  induction t as [t Ht|ts IH|t IH|s IH|v IH] using static_type_ind'.
  - intros depth Hh. apply is_ok_ext. setoid_rewrite normalize_leaf_ok; [|done].
    destruct t; try discriminate Ht; cbn in *; naive_solver lia.
  - by apply norm_total_union.
  - intros depth Hh. cbn [norm_height unions_nonempty] in *. apply is_ok_ext.
    setoid_rewrite normalize_optional_ok. rewrite <- is_ok_true.
    rewrite norm_total_union.
    + cbn. by rewrite !andb_true_r.
    + constructor; [done|]. constructor; [|constructor]. intros d Hd. apply is_ok_ext.
      setoid_rewrite normalize_leaf_ok; [|done]. cbn in *. naive_solver lia.
    + cbn [norm_height map list_max foldr]. lia.
  - destruct s as [ps r o u]. destruct IH as [IHp IHr]. cbn in IHp, IHr. intros depth Hh.
    rewrite norm_height_callable in Hh. apply is_ok_ext. setoid_rewrite normalize_callable_ok.
    cbn [unions_nonempty]. rewrite andb_true_iff, <- (IHr (S (S depth))), is_ok_true by lia.
    change (forallb _ ps) with (forallb parameter_nonempty ps).
    rewrite <- (norm_total_parameters (S depth)) by (done || lia).
    split; [naive_solver|]. intros [[r' ?] [ps' ?]]. eexists. split; [lia|]. eauto.
  - destruct v as [i b cs]. destruct IH as [IHb IHcs]. cbn in IHb, IHcs. intros depth Hh.
    rewrite norm_height_variable in Hh. apply is_ok_ext. setoid_rewrite normalize_variable_ok.
    cbn [unions_nonempty]. rewrite andb_true_iff, <- (norm_total_list (S depth)); [|done|].
    + destruct b as [t|].
      * rewrite <- (IHb (S depth)), is_ok_true by lia. split.
        -- intros (? & _ & b' & cs' & Hb & Hcs & _). inversion Hb; subst. eauto.
        -- intros [[t' ?] [cs' ?]]. eexists. split; [lia|]. exists (Some t'), cs'.
           split; [by constructor|done].
      * split; [naive_solver|]. intros [_ [cs' ?]]. eexists. split; [lia|]. exists None, cs'.
        split; [constructor|done].
    + apply Forall_forall. intros t Ht. pose proof (list_max_elem norm_height t cs Ht).
      destruct cs; [set_solver|lia].
Qed.

(** ** Properties *)

(** [normalized] succeeds exactly on the types whose nesting stays within 64
    and that contain no empty union; every other input is an error. *)
Theorem normalized_ok_iff t :
  is_ok (normalized t) = true <-> (norm_height t <= 64)%nat /\ unions_nonempty t = true.
Proof.
  unfold normalized. split.
  - intros Hok. destruct (normalize_at_depth 0 t) as [t'|] eqn:E; [|done].
    destruct (normalize_good t _ _ E) as (_ & _ & Hh). split; [lia|].
    rewrite <- (normalize_total t 0) by lia. by rewrite E.
  - intros [Hh Hu]. by rewrite normalize_total by lia.
Qed.

Lemma normalize_twice depth t t' :
  normalize_at_depth depth t = Ok t' -> st_nf t' /\ normalize_at_depth depth t' = Ok t'.
Proof.
  intros H. destruct (normalize_good t _ _ H) as (Hnf & Hh & Hd).
  split; [done|]. apply normalize_fixed; [done|lia].
Qed.

(** normalisation is idempotent: its results are normal forms and
    normalising them again, at the same depth, returns them unchanged. *)
Theorem normalize_idempotent depth t t' :
  normalize_at_depth depth t = Ok t' ->
  st_nf t' /\ normalize_at_depth depth t' = Ok t'.
Proof. apply normalize_twice. Qed.

Lemma normalize_idempotent_witness :
  normalized (ST_Optional (ST_Union [ST_ExactBuiltin BT_Int; ST_Literal LV_None;
    ST_ExactBuiltin BT_Bool])) =
    Ok (ST_Union [ST_None; ST_ExactBuiltin BT_Bool; ST_ExactBuiltin BT_Int]) /\
  normalized (ST_Union [ST_None; ST_ExactBuiltin BT_Bool; ST_ExactBuiltin BT_Int]) =
    Ok (ST_Union [ST_None; ST_ExactBuiltin BT_Bool; ST_ExactBuiltin BT_Int]).
Proof.
  split; [vm_compute; reflexivity|].
  refine (proj2 (normalize_idempotent 0 (ST_Optional (ST_Union [ST_ExactBuiltin BT_Int;
    ST_Literal LV_None; ST_ExactBuiltin BT_Bool])) _ _)).
  vm_compute; reflexivity.
Defined.

Lemma Forall2_elem_l {A B} (R : A -> B -> Prop) l k x :
  Forall2 R l k -> x ∈ l -> exists y, y ∈ k /\ R x y.
Proof. induction 1; set_solver. Qed.
Lemma Forall2_elem_r {A B} (R : A -> B -> Prop) l k y :
  Forall2 R l k -> y ∈ k -> exists x, x ∈ l /\ R x y.
Proof. induction 1; set_solver. Qed.

Lemma elem_of_concat_flat t ns : t ∈ concat (map st_flat ns) <-> exists n, n ∈ ns /\ t ∈ st_flat n.
Proof.
  rewrite list_elem_of_In, in_concat. setoid_rewrite in_map_iff.
  setoid_rewrite list_elem_of_In. naive_solver.
Qed.

(** a union's normal form depends only on the set of its members: order and
    repetition of the members do not matter. *)
Theorem normalize_union_set depth ts us t u :
  (forall x, x ∈ ts <-> x ∈ us) ->
  normalize_at_depth depth (ST_Union ts) = Ok t ->
  normalize_at_depth depth (ST_Union us) = Ok u -> t = u.
Proof.
  intros Hset (_ & _ & ns & Hns & ->)%normalize_union_ok (_ & _ & ms & Hms & ->)%normalize_union_ok.
  f_equal. apply bset_of_list_ext. intros x. rewrite !elem_of_concat_flat. split.
  - intros (n & Hn & Hx). destruct (Forall2_elem_r _ _ _ _ Hns Hn) as (y & Hy & E).
    apply Hset in Hy. destruct (Forall2_elem_l _ _ _ _ Hms Hy) as (m & Hm & E').
    rewrite E in E'. injection E' as <-. eauto.
  - intros (n & Hn & Hx). destruct (Forall2_elem_r _ _ _ _ Hms Hn) as (y & Hy & E).
    apply Hset in Hy. destruct (Forall2_elem_l _ _ _ _ Hns Hy) as (m & Hm & E').
    rewrite E in E'. injection E' as <-. eauto.
Qed.

Lemma normalize_union_set_witness :
  exists t, normalized (ST_Union [ST_ExactBuiltin BT_Int; ST_None]) = Ok t /\
    (forall u, normalized (ST_Union [ST_None; ST_ExactBuiltin BT_Int; ST_None]) = Ok u -> t = u) /\
    is_ok (normalized (ST_Union [ST_None; ST_ExactBuiltin BT_Int; ST_None])) = true.
Proof.
  eexists. split; [vm_compute; reflexivity|]. split; [|vm_compute; reflexivity].
  intros u. refine (normalize_union_set 0 [ST_ExactBuiltin BT_Int; ST_None] _ _ _ _ _).
  - set_solver.
  - vm_compute; reflexivity.
Defined.

(** Functions that treat a union as the disjunction of its members. *)
Section disjunctive.
Context (f : StaticType -> bool).
Hypothesis f_union : forall ts, f (ST_Union ts) = existsb f ts.

Lemma disj_flat n : existsb f (st_flat n) = f n.
Proof. destruct n; cbn [st_flat existsb]; rewrite ?orb_false_r; done. Qed.

Lemma disj_collapse l : f (union_collapse l) = existsb f l.
Proof.
  destruct l as [|a [|b l]]; cbn [union_collapse]; [done| |done].
  cbn. by rewrite orb_false_r.
Qed.

Lemma existsb_same_elems l k : (forall x, x ∈ l <-> x ∈ k) -> existsb f l = existsb f k.
Proof.
  intros E. apply eq_iff_eq_true. rewrite !existsb_elem. by setoid_rewrite E.
Qed.

Lemma disj_normalized_union ns :
  f (union_collapse (bset_of_list (concat (map st_flat ns)))) = existsb f ns.
Proof.
  rewrite disj_collapse, (existsb_same_elems _ (concat (map st_flat ns)))
    by (intros x; apply elem_of_bset_of_list).
  induction ns as [|n ns IH]; cbn; [done|]. by rewrite existsb_app, disj_flat, IH.
Qed.

Lemma disj_Forall2 (R : StaticType -> StaticType -> Prop) ts ns :
  Forall (fun t => forall t', R t t' -> f t' = f t) ts -> Forall2 R ts ns ->
  existsb f ns = existsb f ts.
Proof.
  intros Hts H. revert Hts. induction H; intros Hts; cbn; [done|].
  inversion Hts; subst. f_equal; auto.
Qed.
End disjunctive.

(** normalisation neither introduces nor hides uncertainty: [Any],
    [Unknown], TODO and the other uncertain leaves survive exactly. *)
Theorem normalize_contains_uncertainty t : forall depth t',
  normalize_at_depth depth t = Ok t' -> contains_uncertainty t' = contains_uncertainty t.
Proof.
  induction t as [t Ht|ts IH|t IH|[ps r o u] IH|[i b cs] IH] using static_type_ind'; intros depth t' H.
  - apply normalize_leaf_ok in H as [_ ->]; [|done].
    destruct t as [| | | | | | | | |[]| | | | | | |]; done.
  - apply normalize_union_ok in H as (_ & _ & ns & Hns & ->).
    rewrite disj_normalized_union by done. cbn. eapply disj_Forall2; [|exact Hns].
    eapply List.Forall_impl; [|exact IH]. cbn. eauto.
  - apply normalize_optional_ok, normalize_union_ok in H as (_ & _ & ns & Hns & ->).
    rewrite disj_normalized_union by done.
    inversion Hns as [|? n ? ns' Hn Hns']; subst. inversion Hns' as [|? m ? ns'' Hm Hns'']; subst.
    inversion Hns''; subst. apply normalize_leaf_ok in Hm as [_ ->]; [|done].
    cbn. by rewrite (IH _ _ Hn), !orb_false_r.
  - destruct IH as [IHp IHr]. apply normalize_callable_ok in H as (_ & r' & ps' & Hr & Hps & ->).
    cbn in *. rewrite (IHr _ _ Hr). f_equal. clear IHr Hr.
    induction Hps as [|p p' ps ps' Hp _ IH]; cbn; [done|]. inversion IHp as [|? ? [Ht _] ?]; subst.
    rewrite IH by done. f_equal. destruct p; unfold normalizes_parameter in Hp; cbn in Hp.
    ok_inv. eauto.
  - by apply normalize_variable_ok in H as (_ & b' & cs' & _ & _ & ->).
Qed.

Lemma normalize_contains_uncertainty_witness :
  exists t', normalized (ST_Optional (ST_Union [ST_Any; ST_ExactBuiltin BT_Int])) = Ok t' /\
    contains_uncertainty t' = true.
Proof.
  eexists. split; [vm_compute; reflexivity|].
  refine (normalize_contains_uncertainty
    (ST_Optional (ST_Union [ST_Any; ST_ExactBuiltin BT_Int])) 0 _ _).
  vm_compute; reflexivity.
Defined.

(** The values a type accepts, relative to the values its atoms accept: a union
    accepts what one member does, [Optional] also accepts [None]. *)
Section acceptance.
Context {V : Type} (atom : StaticType -> V -> bool).

Fixpoint accepts (v : V) (t : StaticType) : bool :=
  match t with
  | ST_Union ts => existsb (accepts v) ts
  | ST_Optional t => accepts v t || atom ST_None v
  | _ => atom t v
  end.

Local Lemma supported_flat n :
  has_supported_value_shape n = true ->
  Forall (fun t => has_supported_value_shape t = true) (st_flat n).
Proof.
  destruct n; cbn; try (repeat constructor; done). intros H. bool_inv.
  by apply Forall_forall, forallb_elem.
Qed.

Local Lemma supported_collapse l :
  l <> [] -> Forall (fun t => has_supported_value_shape t = true) l ->
  has_supported_value_shape (union_collapse l) = true.
Proof.
  intros Hne Hl. destruct l as [|a [|b l]]; [done|by inversion Hl|].
  cbn [union_collapse has_supported_value_shape]. rewrite bool_decide_false by done.
  by apply forallb_elem, Forall_forall.
Qed.

Local Lemma supported_normalized_union ns :
  ns <> [] -> Forall st_nf ns -> Forall (fun n => has_supported_value_shape n = true) ns ->
  has_supported_value_shape (union_collapse (bset_of_list (concat (map st_flat ns)))) = true.
Proof.
  intros Hne Hnf Hns. apply supported_collapse; [by apply concat_flat_nonempty|].
  apply Forall_forall. intros t Ht. rewrite elem_of_bset_of_list, elem_of_concat_flat in Ht.
  destruct Ht as (n & Hn & Ht). rewrite Forall_forall in Hns.
  pose proof (supported_flat n (Hns n Hn)) as H. rewrite Forall_forall in H. auto.
Qed.

Local Definition accept_good (v : V) (t : StaticType) : Prop := forall depth t',
  has_supported_value_shape t = true -> normalize_at_depth depth t = Ok t' ->
  has_supported_value_shape t' = true /\ accepts v t' = accepts v t.

Local Lemma accept_good_union v ts : Forall (accept_good v) ts -> accept_good v (ST_Union ts).
Proof.
  intros IH depth t' Hs (_ & Hne & ns & Hns & ->)%normalize_union_ok. cbn in Hs. bool_inv.
  rewrite (disj_normalized_union (accepts v)) by done. cbn [accepts].
  assert (Forall (fun t => has_supported_value_shape t = true) ts) as Hsup.
  { by apply Forall_forall, forallb_elem. }
  assert (ns <> []) as Hns' by (intros ->; by inversion Hns; subst).
  clear H H0 Hne. split.
  - apply supported_normalized_union; [done|..]; clear Hns'.
    + induction Hns; constructor; inversion Hsup; inversion IH; subst; auto.
      by eapply normalize_twice.
    + induction Hns as [|t n ts ns Hn _ IHn]; constructor; inversion Hsup; inversion IH; subst; auto.
      match goal with Hg : accept_good v t |- _ => eapply Hg; eauto end.
  - clear Hns'. induction Hns as [|t n ts ns Hn _ IHn]; cbn; [done|].
    inversion Hsup; inversion IH; subst. rewrite IHn by done. f_equal.
    match goal with Hg : accept_good v t |- _ => eapply Hg; eauto end.
Qed.

(** for a type with a supported value shape, normalisation keeps the shape
    supported and accepts exactly the same runtime values. *)
Theorem normalize_accepts t : forall depth t' v,
  has_supported_value_shape t = true -> normalize_at_depth depth t = Ok t' ->
  has_supported_value_shape t' = true /\ accepts v t' = accepts v t.
Proof.
  intros depth t' v. revert depth t'. change (accept_good v t).
  induction t as [t Ht|ts IH|t IH|s IH|w IH] using static_type_ind'.
  - intros depth t' Hs [_ ->]%normalize_leaf_ok; [|done].
    destruct t as [| | | | | | | | |[]| | | | | | |]; done.
  - by apply accept_good_union.
  - intros depth t' Hs H%normalize_optional_ok. cbn [accepts].
    assert (accept_good v ST_None) as HN by (by intros d u _ [_ ->]%normalize_leaf_ok).
    assert (Forall (accept_good v) [t; ST_None]) as Hts.
    { constructor; [done|]. constructor; [done|constructor]. }
    destruct (accept_good_union v _ Hts _ _ ltac:(cbn in *; by rewrite Hs) H) as [? E].
    split; [done|]. rewrite E. cbn. by rewrite orb_false_r.
  - done.
  - done.
Qed.
End acceptance.

Lemma normalize_accepts_witness :
  exists t', normalized (ST_Optional (ST_ExactBuiltin BT_Int)) = Ok t' /\
    accepts (fun t v => bool_decide (t = v)) (ST_ExactBuiltin BT_Int) t' = true.
Proof.
  eexists. split; [vm_compute; reflexivity|].
  refine (proj2 (normalize_accepts (fun t v => bool_decide (t = v))
    (ST_Optional (ST_ExactBuiltin BT_Int)) 0 _ (ST_ExactBuiltin BT_Int) eq_refl _)).
  vm_compute; reflexivity.
Defined.
