(* ===== verification/Facts.v ===== *)
(** * Policies and module facts ([soac_contracts/src/policy.rs], [facts.rs])

    The authenticated policy rules and every record of [ModuleTypeFacts], with
    the queries on them: which fields a policy selects for write checks, and
    the lexical class owner of a function.  [DependencyFingerprint] is from
    [artifact.rs].  A [BTreeSet] or [BTreeMap] is its ordered list of
    elements or entries. *)

From S2P Require Import Prelude Order Collections Text Identity StaticTypes Normalize.

(** ** Policies *)

Inductive CheckedFieldPolicy : Type :=
| CFP_Disabled | CFP_SupportedAnnotations.
#[global] Program Instance CheckedFieldPolicy_ord : RustOrd CheckedFieldPolicy :=
  {| key := fun k => KInt (match k with
       | CFP_Disabled => 0 | CFP_SupportedAnnotations => 1 end) |}.
Next Obligation. by intros [] []. Qed.
#[global] Instance CheckedFieldPolicy_eq_dec : EqDecision CheckedFieldPolicy := ord_eq_dec.

Definition required_type (self : CheckedFieldPolicy) (origin : AnnotationOrigin)
    (value_type : StaticType) : option StaticType :=
  if bool_decide (self = CFP_SupportedAnnotations) && bool_decide (origin = AO_Explicit)
     && has_supported_value_shape value_type
  then Some value_type else None.

Record ClassPolicyOverride : Type := mkClassPolicyOverride {
  cpo_class_range : SourceRange;
  cpo_checked_attr : bool;
}.
#[global] Program Instance ClassPolicyOverride_ord : RustOrd ClassPolicyOverride :=
  {| key := fun x => KNode [key (cpo_class_range x); key (cpo_checked_attr x)] |}.
Next Obligation. solve_key_inj. Qed.
#[global] Instance ClassPolicyOverride_eq_dec : EqDecision ClassPolicyOverride := ord_eq_dec.

Record ResolvedStrictPolicy : Type := mkResolvedStrictPolicy {
  rsp_strict_assign : bool;
  rsp_checked_attr : bool;
  rsp_class_overrides : list ClassPolicyOverride;
}.
#[global] Program Instance ResolvedStrictPolicy_ord : RustOrd ResolvedStrictPolicy :=
  {| key := fun x => KNode [key (rsp_strict_assign x); key (rsp_checked_attr x);
       key (rsp_class_overrides x)] |}.
Next Obligation. solve_key_inj. Qed.
#[global] Instance ResolvedStrictPolicy_eq_dec : EqDecision ResolvedStrictPolicy := ord_eq_dec.

Definition is_selected (self : ResolvedStrictPolicy) : bool :=
  rsp_strict_assign self || rsp_checked_attr self
  || existsb cpo_checked_attr (rsp_class_overrides self).

Definition checked_attributes (self : ResolvedStrictPolicy) (class_range : SourceRange) : bool :=
  match find_first (fun rule => bool_decide (cpo_class_range rule = class_range))
          (rsp_class_overrides self) with
  | Some rule => cpo_checked_attr rule
  | None => rsp_checked_attr self
  end.

Definition checked_fields (self : ResolvedStrictPolicy) (class_range : SourceRange) :
    CheckedFieldPolicy :=
  if checked_attributes self class_range then CFP_SupportedAnnotations else CFP_Disabled.

(** ** Dependencies *)

Record DependencyFingerprint : Type := mkDependencyFingerprint {
  dep_module : ModuleContentId;
  dep_source_digest : Fingerprint;
  dep_source_size : Z;
  dep_import_resolution : Fingerprint;
  dep_effective_configuration : Fingerprint;
  dep_strict_policy : option Fingerprint;
  dep_type_contract : option Fingerprint;
}.
#[global] Program Instance DependencyFingerprint_ord : RustOrd DependencyFingerprint :=
  {| key := fun x => KNode [key (dep_module x); key (dep_source_digest x);
       key (dep_source_size x); key (dep_import_resolution x);
       key (dep_effective_configuration x); key (dep_strict_policy x);
       key (dep_type_contract x)] |}.
Next Obligation. solve_key_inj. Qed.
#[global] Instance DependencyFingerprint_eq_dec : EqDecision DependencyFingerprint := ord_eq_dec.

(** ** Facts *)

Inductive SourceDialect : Type :=
| SD_OrdinaryPython | SD_SoacStrict.
#[global] Program Instance SourceDialect_ord : RustOrd SourceDialect :=
  {| key := fun k => KInt (match k with
       | SD_OrdinaryPython => 0 | SD_SoacStrict => 1 end) |}.
Next Obligation. by intros [] []. Qed.
#[global] Instance SourceDialect_eq_dec : EqDecision SourceDialect := ord_eq_dec.

Inductive GlobalMutability : Type :=
| GM_FinalAfterSeal | GM_ExplicitlyMutable | GM_LateAppendOnly | GM_Unknown.
#[global] Program Instance GlobalMutability_ord : RustOrd GlobalMutability :=
  {| key := fun k => KInt (match k with
       | GM_FinalAfterSeal => 0 | GM_ExplicitlyMutable => 1 | GM_LateAppendOnly => 2
       | GM_Unknown => 3 end) |}.
Next Obligation. by intros [] []. Qed.
#[global] Instance GlobalMutability_eq_dec : EqDecision GlobalMutability := ord_eq_dec.

Record GlobalBindingFact : Type := mkGlobalBindingFact {
  gb_name : string;
  gb_mutability : GlobalMutability;
  gb_value_type : StaticType;
  gb_definition : option SourceIdentity;
  gb_uncertainty : list UncertaintyReason;
}.
#[global] Program Instance GlobalBindingFact_ord : RustOrd GlobalBindingFact :=
  {| key := fun x => KNode [key (gb_name x); key (gb_mutability x); key (gb_value_type x);
       key (gb_definition x); key (gb_uncertainty x)] |}.
Next Obligation. solve_key_inj. Qed.
#[global] Instance GlobalBindingFact_eq_dec : EqDecision GlobalBindingFact := ord_eq_dec.

Inductive FunctionKind : Type :=
| FK_Synchronous | FK_Coroutine | FK_Generator | FK_AsyncGenerator.
#[global] Program Instance FunctionKind_ord : RustOrd FunctionKind :=
  {| key := fun k => KInt (match k with
       | FK_Synchronous => 0 | FK_Coroutine => 1 | FK_Generator => 2
       | FK_AsyncGenerator => 3 end) |}.
Next Obligation. by intros [] []. Qed.
#[global] Instance FunctionKind_eq_dec : EqDecision FunctionKind := ord_eq_dec.

Inductive DecoratorKind : Type :=
| DecK_StdlibDataclass | DecK_TypingFinal | DecK_StaticMethod | DecK_ClassMethod
| DecK_Property | DecK_StdlibCachedProperty | DecK_DataclassTransform | DecK_Other
| DecK_Unknown.
#[global] Program Instance DecoratorKind_ord : RustOrd DecoratorKind :=
  {| key := fun k => KInt (match k with
       | DecK_StdlibDataclass => 0 | DecK_TypingFinal => 1 | DecK_StaticMethod => 2
       | DecK_ClassMethod => 3 | DecK_Property => 4 | DecK_StdlibCachedProperty => 5
       | DecK_DataclassTransform => 6 | DecK_Other => 7 | DecK_Unknown => 8 end) |}.
Next Obligation. by intros [] []. Qed.
#[global] Instance DecoratorKind_eq_dec : EqDecision DecoratorKind := ord_eq_dec.

Record DecoratorFact : Type := mkDecoratorFact {
  dec_kind : DecoratorKind;
  dec_expression_range : SourceRange;
  dec_definition : option SourceIdentity;
  dec_source_digest : option Fingerprint;
  dec_arguments : list (string * LiteralValue);
  dec_uncertainty : list UncertaintyReason;
}.
#[global] Program Instance DecoratorFact_ord : RustOrd DecoratorFact :=
  {| key := fun x => KNode [key (dec_kind x); key (dec_expression_range x);
       key (dec_definition x); key (dec_source_digest x);
       key (dec_arguments x); key (dec_uncertainty x)] |}.
Next Obligation. solve_key_inj. Qed.
#[global] Instance DecoratorFact_eq_dec : EqDecision DecoratorFact := ord_eq_dec.

Record FunctionTypeFact : Type := mkFunctionTypeFact {
  fn_identity : SourceIdentity;
  fn_function_kind : FunctionKind;
  fn_signature : CallableSignature;
  fn_decorators : list DecoratorFact;
  fn_uncertainty : list UncertaintyReason;
}.
#[global] Program Instance FunctionTypeFact_ord : RustOrd FunctionTypeFact :=
  {| key := fun x => KNode [key (fn_identity x); key (fn_function_kind x); key (fn_signature x);
       key (fn_decorators x); key (fn_uncertainty x)] |}.
Next Obligation. solve_key_inj. Qed.
#[global] Instance FunctionTypeFact_eq_dec : EqDecision FunctionTypeFact := ord_eq_dec.

Inductive AnnotationTarget : Type :=
| AT_Parameter (index : Z)
| AT_Return.
#[global] Program Instance AnnotationTarget_ord : RustOrd AnnotationTarget :=
  {| key := fun x => KNode (match x with
       | AT_Parameter i => [KInt 0; key i] | AT_Return => [KInt 1] end) |}.
Next Obligation. solve_key_inj. Qed.
#[global] Instance AnnotationTarget_eq_dec : EqDecision AnnotationTarget := ord_eq_dec.

Record FieldReference : Type := mkFieldReference {
  fr_declaring_class : ClassReference;
  fr_annotation_definition : SourceIdentity;
  fr_name : string;
}.
#[global] Program Instance FieldReference_ord : RustOrd FieldReference :=
  {| key := fun x => KNode [key (fr_declaring_class x); key (fr_annotation_definition x);
       key (fr_name x)] |}.
Next Obligation. solve_key_inj. Qed.
#[global] Instance FieldReference_eq_dec : EqDecision FieldReference := ord_eq_dec.

Inductive NominalBindingOwner : Type :=
| NBO_Function (function : SourceIdentity) (annotation : AnnotationTarget)
| NBO_Field (field : FieldReference).
#[global] Program Instance NominalBindingOwner_ord : RustOrd NominalBindingOwner :=
  {| key := fun x => KNode (match x with
       | NBO_Function f a => [KInt 0; key f; key a] | NBO_Field f => [KInt 1; key f] end) |}.
Next Obligation. solve_key_inj. Qed.
#[global] Instance NominalBindingOwner_eq_dec : EqDecision NominalBindingOwner := ord_eq_dec.

Definition as_function (self : NominalBindingOwner) : option (SourceIdentity * AnnotationTarget) :=
  match self with
  | NBO_Function function annotation => Some (function, annotation)
  | NBO_Field _ => None
  end.

Record NominalBindingFact : Type := mkNominalBindingFact {
  nb_owner : NominalBindingOwner;
  nb_expression_range : SourceRange;
  nb_name : string;
  nb_class : ClassReference;
  nb_binding : SourceIdentity;
  nb_binding_scope : SourceIdentity;
}.
#[global] Program Instance NominalBindingFact_ord : RustOrd NominalBindingFact :=
  {| key := fun x => KNode [key (nb_owner x); key (nb_expression_range x); key (nb_name x);
       key (nb_class x); key (nb_binding x); key (nb_binding_scope x)] |}.
Next Obligation. solve_key_inj. Qed.
#[global] Instance NominalBindingFact_eq_dec : EqDecision NominalBindingFact := ord_eq_dec.

Inductive DynamicClassReason : Type :=
| DCR_PolicyOptOut | DCR_NonParticipatingMetaclass | DCR_UnknownDecorator
| DCR_FrameworkManaged | DCR_UnknownBase | DCR_MutableBase | DCR_UnsupportedDescriptor
| DCR_CustomAttributeHooks | DCR_ConflictingLayout | DCR_IgnoredDiagnostic
| DCR_UnresolvedAnalysis.
#[global] Program Instance DynamicClassReason_ord : RustOrd DynamicClassReason :=
  {| key := fun k => KInt (match k with
       | DCR_PolicyOptOut => 0 | DCR_NonParticipatingMetaclass => 1
       | DCR_UnknownDecorator => 2 | DCR_FrameworkManaged => 3 | DCR_UnknownBase => 4
       | DCR_MutableBase => 5 | DCR_UnsupportedDescriptor => 6
       | DCR_CustomAttributeHooks => 7 | DCR_ConflictingLayout => 8
       | DCR_IgnoredDiagnostic => 9 | DCR_UnresolvedAnalysis => 10 end) |}.
Next Obligation. by intros [] []. Qed.
#[global] Instance DynamicClassReason_eq_dec : EqDecision DynamicClassReason := ord_eq_dec.

Inductive ParticipationProposal : Type :=
| PP_Candidate
| PP_Dynamic (reasons : list DynamicClassReason).
#[global] Program Instance ParticipationProposal_ord : RustOrd ParticipationProposal :=
  {| key := fun x => KNode (match x with
       | PP_Candidate => [KInt 0]
       | PP_Dynamic r0 => [KInt 1; key r0] end) |}.
Next Obligation. solve_key_inj. Qed.
#[global] Instance ParticipationProposal_eq_dec : EqDecision ParticipationProposal := ord_eq_dec.

Inductive ClassDictionarySemantics : Type :=
| CDS_DictionaryBearing | CDS_ExplicitSlots | CDS_Unknown.
#[global] Program Instance ClassDictionarySemantics_ord : RustOrd ClassDictionarySemantics :=
  {| key := fun k => KInt (match k with
       | CDS_DictionaryBearing => 0 | CDS_ExplicitSlots => 1 | CDS_Unknown => 2 end) |}.
Next Obligation. by intros [] []. Qed.
#[global] Instance ClassDictionarySemantics_eq_dec : EqDecision ClassDictionarySemantics := ord_eq_dec.

Inductive ClassOpenness : Type :=
| CO_OpenSubclassFamily | CO_DeclaredFinal | CO_Unknown.
#[global] Program Instance ClassOpenness_ord : RustOrd ClassOpenness :=
  {| key := fun k => KInt (match k with
       | CO_OpenSubclassFamily => 0 | CO_DeclaredFinal => 1 | CO_Unknown => 2 end) |}.
Next Obligation. by intros [] []. Qed.
#[global] Instance ClassOpenness_eq_dec : EqDecision ClassOpenness := ord_eq_dec.

Inductive MetaclassFact : Type :=
| MF_BuiltinType
| MF_Class (class : ClassReference)
| MF_Dynamic.
#[global] Program Instance MetaclassFact_ord : RustOrd MetaclassFact :=
  {| key := fun x => KNode (match x with
       | MF_BuiltinType => [KInt 0]
       | MF_Class c0 => [KInt 1; key c0]
       | MF_Dynamic => [KInt 2] end) |}.
Next Obligation. solve_key_inj. Qed.
#[global] Instance MetaclassFact_eq_dec : EqDecision MetaclassFact := ord_eq_dec.

Inductive BaseReference : Type :=
| BR_Class (class : ClassReference)
| BR_Builtin (builtin : BuiltinType).
#[global] Program Instance BaseReference_ord : RustOrd BaseReference :=
  {| key := fun x => KNode (match x with
       | BR_Class c0 => [KInt 0; key c0]
       | BR_Builtin b0 => [KInt 1; key b0] end) |}.
Next Obligation. solve_key_inj. Qed.
#[global] Instance BaseReference_eq_dec : EqDecision BaseReference := ord_eq_dec.

Definition as_class (self : BaseReference) : option ClassReference :=
  match self with BR_Class class => Some class | BR_Builtin _ => None end.

Record InheritanceFact : Type := mkInheritanceFact {
  inh_linearized_bases : list BaseReference;
  inh_complete : bool;
}.
#[global] Program Instance InheritanceFact_ord : RustOrd InheritanceFact :=
  {| key := fun x => KNode [key (inh_linearized_bases x); key (inh_complete x)] |}.
Next Obligation. solve_key_inj. Qed.
#[global] Instance InheritanceFact_eq_dec : EqDecision InheritanceFact := ord_eq_dec.

Inductive FieldKind : Type :=
| FldK_InstanceField | FldK_CallableInstanceField | FldK_ShadowableClassDefault
| FldK_CachedDescriptorField | FldK_ClassVariable | FldK_InitOnly | FldK_FrameworkPrivate
| FldK_Dynamic.
#[global] Program Instance FieldKind_ord : RustOrd FieldKind :=
  {| key := fun k => KInt (match k with
       | FldK_InstanceField => 0 | FldK_CallableInstanceField => 1
       | FldK_ShadowableClassDefault => 2 | FldK_CachedDescriptorField => 3
       | FldK_ClassVariable => 4 | FldK_InitOnly => 5 | FldK_FrameworkPrivate => 6
       | FldK_Dynamic => 7 end) |}.
Next Obligation. by intros [] []. Qed.
#[global] Instance FieldKind_eq_dec : EqDecision FieldKind := ord_eq_dec.

Inductive FieldReadPolicy : Type :=
| FRP_PythonAttribute | FRP_InstanceThenClassDefault | FRP_DescriptorFirst
| FRP_CachedDescriptor.
#[global] Program Instance FieldReadPolicy_ord : RustOrd FieldReadPolicy :=
  {| key := fun k => KInt (match k with
       | FRP_PythonAttribute => 0 | FRP_InstanceThenClassDefault => 1
       | FRP_DescriptorFirst => 2 | FRP_CachedDescriptor => 3 end) |}.
Next Obligation. by intros [] []. Qed.
#[global] Instance FieldReadPolicy_eq_dec : EqDecision FieldReadPolicy := ord_eq_dec.

Inductive FieldWritePolicy : Type :=
| FWP_PythonAttribute | FWP_DeclaredField | FWP_Descriptor | FWP_ClassVariableRejected
| FWP_InitOnly | FWP_Dynamic.
#[global] Program Instance FieldWritePolicy_ord : RustOrd FieldWritePolicy :=
  {| key := fun k => KInt (match k with
       | FWP_PythonAttribute => 0 | FWP_DeclaredField => 1 | FWP_Descriptor => 2
       | FWP_ClassVariableRejected => 3 | FWP_InitOnly => 4 | FWP_Dynamic => 5 end) |}.
Next Obligation. by intros [] []. Qed.
#[global] Instance FieldWritePolicy_eq_dec : EqDecision FieldWritePolicy := ord_eq_dec.

Inductive InitializationPolicy : Type :=
| IP_MayBeAbsent | IP_InitializedByConstructor | IP_DescriptorManaged | IP_Unknown.
#[global] Program Instance InitializationPolicy_ord : RustOrd InitializationPolicy :=
  {| key := fun k => KInt (match k with
       | IP_MayBeAbsent => 0 | IP_InitializedByConstructor => 1
       | IP_DescriptorManaged => 2 | IP_Unknown => 3 end) |}.
Next Obligation. by intros [] []. Qed.
#[global] Instance InitializationPolicy_eq_dec : EqDecision InitializationPolicy := ord_eq_dec.

Inductive DescriptorKind : Type :=
| DescK_None | DescK_Property | DescK_NonData | DescK_Data | DescK_StdlibCachedProperty
| DescK_Unknown.
#[global] Program Instance DescriptorKind_ord : RustOrd DescriptorKind :=
  {| key := fun k => KInt (match k with
       | DescK_None => 0 | DescK_Property => 1 | DescK_NonData => 2 | DescK_Data => 3
       | DescK_StdlibCachedProperty => 4 | DescK_Unknown => 5 end) |}.
Next Obligation. by intros [] []. Qed.
#[global] Instance DescriptorKind_eq_dec : EqDecision DescriptorKind := ord_eq_dec.

Record DescriptorFact : Type := mkDescriptorFact {
  df_kind : DescriptorKind;
  df_descriptor_type : option StaticType;
  df_getter : option SourceIdentity;
  df_setter : option SourceIdentity;
  df_deleter : option SourceIdentity;
}.
#[global] Program Instance DescriptorFact_ord : RustOrd DescriptorFact :=
  {| key := fun x => KNode [key (df_kind x); key (df_descriptor_type x); key (df_getter x);
       key (df_setter x); key (df_deleter x)] |}.
Next Obligation. solve_key_inj. Qed.
#[global] Instance DescriptorFact_eq_dec : EqDecision DescriptorFact := ord_eq_dec.

Definition descriptor_default : DescriptorFact := mkDescriptorFact DescK_None None None None None.

Record FieldTypeFact : Type := mkFieldTypeFact {
  ft_name : string;
  ft_declaring_class : ClassReference;
  ft_value_type : StaticType;
  ft_annotation_origin : AnnotationOrigin;
  ft_annotation_definition : option SourceIdentity;
  ft_field_kind : FieldKind;
  ft_read_policy : FieldReadPolicy;
  ft_write_policy : FieldWritePolicy;
  ft_initialization : InitializationPolicy;
  ft_default : DefaultFact;
  ft_descriptor : DescriptorFact;
  ft_uncertainty : list UncertaintyReason;
}.
#[global] Program Instance FieldTypeFact_ord : RustOrd FieldTypeFact :=
  {| key := fun x => KNode [key (ft_name x); key (ft_declaring_class x); key (ft_value_type x);
       key (ft_annotation_origin x); key (ft_annotation_definition x);
       key (ft_field_kind x); key (ft_read_policy x);
       key (ft_write_policy x); key (ft_initialization x);
       key (ft_default x); key (ft_descriptor x); key (ft_uncertainty x)] |}.
Next Obligation. solve_key_inj. Qed.
#[global] Instance FieldTypeFact_eq_dec : EqDecision FieldTypeFact := ord_eq_dec.

Definition required_write_type (self : FieldTypeFact) (policy : CheckedFieldPolicy) :
    option StaticType :=
  if negb (bool_decide (df_kind (ft_descriptor self) = DescK_None))
     || negb match ft_field_kind self with
             | FldK_InstanceField | FldK_CallableInstanceField | FldK_ShadowableClassDefault => true
             | _ => false
             end
  then None
  else required_type policy (ft_annotation_origin self) (ft_value_type self).

Definition annotation_reference (self : FieldTypeFact) : option FieldReference :=
  match ft_annotation_definition self with
  | Some definition => Some (mkFieldReference (ft_declaring_class self) definition (ft_name self))
  | None => None
  end.

Inductive MethodBinding : Type :=
| MB_Instance | MB_Class | MB_Static | MB_PropertyGetter | MB_Descriptor.
#[global] Program Instance MethodBinding_ord : RustOrd MethodBinding :=
  {| key := fun k => KInt (match k with
       | MB_Instance => 0 | MB_Class => 1 | MB_Static => 2 | MB_PropertyGetter => 3
       | MB_Descriptor => 4 end) |}.
Next Obligation. by intros [] []. Qed.
#[global] Instance MethodBinding_eq_dec : EqDecision MethodBinding := ord_eq_dec.

Inductive OverridePolicy : Type :=
| OP_CompatibleSignatureRequired | OP_DeclaredFinal | OP_Dynamic.
#[global] Program Instance OverridePolicy_ord : RustOrd OverridePolicy :=
  {| key := fun k => KInt (match k with
       | OP_CompatibleSignatureRequired => 0 | OP_DeclaredFinal => 1 | OP_Dynamic => 2 end) |}.
Next Obligation. by intros [] []. Qed.
#[global] Instance OverridePolicy_eq_dec : EqDecision OverridePolicy := ord_eq_dec.

Inductive TransformKind : Type :=
| TK_StdlibDataclass | TK_DataclassTransform | TK_UnsupportedFramework.
#[global] Program Instance TransformKind_ord : RustOrd TransformKind :=
  {| key := fun k => KInt (match k with
       | TK_StdlibDataclass => 0 | TK_DataclassTransform => 1
       | TK_UnsupportedFramework => 2 end) |}.
Next Obligation. by intros [] []. Qed.
#[global] Instance TransformKind_eq_dec : EqDecision TransformKind := ord_eq_dec.

Record GeneratedFunctionFact : Type := mkGeneratedFunctionFact {
  gf_class : ClassReference;
  gf_transform : TransformKind;
  gf_name : string;
}.
#[global] Program Instance GeneratedFunctionFact_ord : RustOrd GeneratedFunctionFact :=
  {| key := fun x => KNode [key (gf_class x); key (gf_transform x); key (gf_name x)] |}.
Next Obligation. solve_key_inj. Qed.
#[global] Instance GeneratedFunctionFact_eq_dec : EqDecision GeneratedFunctionFact := ord_eq_dec.

Record MethodTypeFact : Type := mkMethodTypeFact {
  mt_name : string;
  mt_declaring_class : ClassReference;
  mt_binding : MethodBinding;
  mt_signature : CallableSignature;
  mt_declared_final : bool;
  mt_override_policy : OverridePolicy;
  mt_implementation : option SourceIdentity;
  mt_generated : option GeneratedFunctionFact;
  mt_uncertainty : list UncertaintyReason;
}.
#[global] Program Instance MethodTypeFact_ord : RustOrd MethodTypeFact :=
  {| key := fun x => KNode [key (mt_name x); key (mt_declaring_class x); key (mt_binding x);
       key (mt_signature x); key (mt_declared_final x);
       key (mt_override_policy x); key (mt_implementation x);
       key (mt_generated x); key (mt_uncertainty x)] |}.
Next Obligation. solve_key_inj. Qed.
#[global] Instance MethodTypeFact_eq_dec : EqDecision MethodTypeFact := ord_eq_dec.

Inductive ClassMemberKind : Type :=
| CMK_ClassVariable | CMK_ShadowableDefault | CMK_NestedClass | CMK_Descriptor
| CMK_Dynamic.
#[global] Program Instance ClassMemberKind_ord : RustOrd ClassMemberKind :=
  {| key := fun k => KInt (match k with
       | CMK_ClassVariable => 0 | CMK_ShadowableDefault => 1 | CMK_NestedClass => 2
       | CMK_Descriptor => 3 | CMK_Dynamic => 4 end) |}.
Next Obligation. by intros [] []. Qed.
#[global] Instance ClassMemberKind_eq_dec : EqDecision ClassMemberKind := ord_eq_dec.

Record ClassMemberFact : Type := mkClassMemberFact {
  cm_name : string;
  cm_kind : ClassMemberKind;
  cm_value_type : StaticType;
  cm_definition : option SourceIdentity;
  cm_descriptor : DescriptorFact;
  cm_uncertainty : list UncertaintyReason;
}.
#[global] Program Instance ClassMemberFact_ord : RustOrd ClassMemberFact :=
  {| key := fun x => KNode [key (cm_name x); key (cm_kind x); key (cm_value_type x);
       key (cm_definition x); key (cm_descriptor x); key (cm_uncertainty x)] |}.
Next Obligation. solve_key_inj. Qed.
#[global] Instance ClassMemberFact_eq_dec : EqDecision ClassMemberFact := ord_eq_dec.

Record DataclassOptions : Type := mkDataclassOptions {
  dopt_init : bool;
  dopt_repr : bool;
  dopt_eq : bool;
  dopt_order : bool;
  dopt_unsafe_hash : bool;
  dopt_frozen : bool;
  dopt_match_args : bool;
  dopt_kw_only : bool;
  dopt_slots : bool;
  dopt_weakref_slot : bool;
}.
#[global] Program Instance DataclassOptions_ord : RustOrd DataclassOptions :=
  {| key := fun x => KNode [key (dopt_init x); key (dopt_repr x); key (dopt_eq x);
       key (dopt_order x); key (dopt_unsafe_hash x); key (dopt_frozen x);
       key (dopt_match_args x); key (dopt_kw_only x); key (dopt_slots x);
       key (dopt_weakref_slot x)] |}.
Next Obligation. solve_key_inj. Qed.
#[global] Instance DataclassOptions_eq_dec : EqDecision DataclassOptions := ord_eq_dec.

Definition dataclass_options_default : DataclassOptions :=
  mkDataclassOptions true true true false false false true false false false.

Record ClassTransformFact : Type := mkClassTransformFact {
  ctr_kind : TransformKind;
  ctr_provenance : option SourceIdentity;
  ctr_dataclass_options : option DataclassOptions;
  ctr_generated_methods : list string;
}.
#[global] Program Instance ClassTransformFact_ord : RustOrd ClassTransformFact :=
  {| key := fun x => KNode [key (ctr_kind x); key (ctr_provenance x);
       key (ctr_dataclass_options x); key (ctr_generated_methods x)] |}.
Next Obligation. solve_key_inj. Qed.
#[global] Instance ClassTransformFact_eq_dec : EqDecision ClassTransformFact := ord_eq_dec.

Record ClassTypeFact : Type := mkClassTypeFact {
  ct_identity : SourceIdentity;
  ct_bases : list BaseReference;
  ct_metaclass : MetaclassFact;
  ct_decorators : list DecoratorFact;
  ct_participation : ParticipationProposal;
  ct_dictionary : ClassDictionarySemantics;
  ct_instance_fields : list FieldTypeFact;
  ct_methods : list MethodTypeFact;
  ct_class_members : list ClassMemberFact;
  ct_inheritance : InheritanceFact;
  ct_openness : ClassOpenness;
  ct_transform : option ClassTransformFact;
  ct_uncertainty : list UncertaintyReason;
}.
#[global] Program Instance ClassTypeFact_ord : RustOrd ClassTypeFact :=
  {| key := fun x => KNode [key (ct_identity x); key (ct_bases x); key (ct_metaclass x);
       key (ct_decorators x); key (ct_participation x);
       key (ct_dictionary x); key (ct_instance_fields x);
       key (ct_methods x); key (ct_class_members x); key (ct_inheritance x);
       key (ct_openness x); key (ct_transform x); key (ct_uncertainty x)] |}.
Next Obligation. solve_key_inj. Qed.
#[global] Instance ClassTypeFact_eq_dec : EqDecision ClassTypeFact := ord_eq_dec.

Definition required_field_bindings (self : ClassTypeFact) (policy : ResolvedStrictPolicy) :
    list FieldTypeFact :=
  List.filter (fun field =>
      is_some (required_write_type field
        (checked_fields policy (si_source_range (ct_identity self)))))
    (List.filter (fun field =>
        bool_decide (cr_definition (ft_declaring_class field) = ct_identity self))
      (ct_instance_fields self)).

Record ReceiverTypeFact : Type := mkReceiverTypeFact {
  rt_value_type : StaticType;
  rt_uncertainty : list UncertaintyReason;
}.
#[global] Program Instance ReceiverTypeFact_ord : RustOrd ReceiverTypeFact :=
  {| key := fun x => KNode [key (rt_value_type x); key (rt_uncertainty x)] |}.
Next Obligation. solve_key_inj. Qed.
#[global] Instance ReceiverTypeFact_eq_dec : EqDecision ReceiverTypeFact := ord_eq_dec.

Inductive CallBindingFact : Type :=
| CBF_UnboundFunction | CBF_BoundInstanceMethod | CBF_BoundClassMethod | CBF_StaticMethod
| CBF_CallableInstanceField | CBF_Descriptor | CBF_Dynamic.
#[global] Program Instance CallBindingFact_ord : RustOrd CallBindingFact :=
  {| key := fun k => KInt (match k with
       | CBF_UnboundFunction => 0 | CBF_BoundInstanceMethod => 1
       | CBF_BoundClassMethod => 2 | CBF_StaticMethod => 3
       | CBF_CallableInstanceField => 4 | CBF_Descriptor => 5 | CBF_Dynamic => 6 end) |}.
Next Obligation. by intros [] []. Qed.
#[global] Instance CallBindingFact_eq_dec : EqDecision CallBindingFact := ord_eq_dec.

Inductive CallableTargetFact : Type :=
| CTF_SourceFunction (identity : SourceIdentity)
| CTF_Method (class : ClassReference) (name : string) (implementation : option SourceIdentity)
| CTF_Generated (generated : GeneratedFunctionFact)
| CTF_Dynamic.
#[global] Program Instance CallableTargetFact_ord : RustOrd CallableTargetFact :=
  {| key := fun x => KNode (match x with
       | CTF_SourceFunction i0 => [KInt 0; key i0]
       | CTF_Method c0 n1 i2 => [KInt 1; key c0; key n1; key i2]
       | CTF_Generated g0 => [KInt 2; key g0]
       | CTF_Dynamic => [KInt 3] end) |}.
Next Obligation. solve_key_inj. Qed.
#[global] Instance CallableTargetFact_eq_dec : EqDecision CallableTargetFact := ord_eq_dec.

Inductive CallUncertainty : Type :=
| CU_ExactStaticTarget | CU_OpenSubclassFamily | CU_FiniteUnion
| CU_CallableInstanceField | CU_CustomDescriptor | CU_StructuralProtocol | CU_Dynamic.
#[global] Program Instance CallUncertainty_ord : RustOrd CallUncertainty :=
  {| key := fun k => KInt (match k with
       | CU_ExactStaticTarget => 0 | CU_OpenSubclassFamily => 1 | CU_FiniteUnion => 2
       | CU_CallableInstanceField => 3 | CU_CustomDescriptor => 4
       | CU_StructuralProtocol => 5 | CU_Dynamic => 6 end) |}.
Next Obligation. by intros [] []. Qed.
#[global] Instance CallUncertainty_eq_dec : EqDecision CallUncertainty := ord_eq_dec.

Record CallSiteFact : Type := mkCallSiteFact {
  cs_identity : CallSiteIdentity;
  cs_receiver : option ReceiverTypeFact;
  cs_attribute_name : option string;
  cs_candidate_targets : list CallableTargetFact;
  cs_binding : CallBindingFact;
  cs_signature : CallableSignature;
  cs_result_type : StaticType;
  cs_uncertainty : CallUncertainty;
}.
#[global] Program Instance CallSiteFact_ord : RustOrd CallSiteFact :=
  {| key := fun x => KNode [key (cs_identity x); key (cs_receiver x); key (cs_attribute_name x);
       key (cs_candidate_targets x); key (cs_binding x);
       key (cs_signature x); key (cs_result_type x); key (cs_uncertainty x)] |}.
Next Obligation. solve_key_inj. Qed.
#[global] Instance CallSiteFact_eq_dec : EqDecision CallSiteFact := ord_eq_dec.

Inductive AttributeAccess : Type :=
| AA_Read | AA_Write | AA_Delete.
#[global] Program Instance AttributeAccess_ord : RustOrd AttributeAccess :=
  {| key := fun k => KInt (match k with
       | AA_Read => 0 | AA_Write => 1 | AA_Delete => 2 end) |}.
Next Obligation. by intros [] []. Qed.
#[global] Instance AttributeAccess_eq_dec : EqDecision AttributeAccess := ord_eq_dec.

Record AttributeSiteFact : Type := mkAttributeSiteFact {
  asf_identity : AttributeSiteIdentity;
  asf_name : string;
  asf_access : AttributeAccess;
  asf_receiver_type : StaticType;
  asf_value_type : option StaticType;
  asf_declaring_class : option ClassReference;
  asf_uncertainty : list UncertaintyReason;
}.
#[global] Program Instance AttributeSiteFact_ord : RustOrd AttributeSiteFact :=
  {| key := fun x => KNode [key (asf_identity x); key (asf_name x); key (asf_access x);
       key (asf_receiver_type x); key (asf_value_type x);
       key (asf_declaring_class x); key (asf_uncertainty x)] |}.
Next Obligation. solve_key_inj. Qed.
#[global] Instance AttributeSiteFact_eq_dec : EqDecision AttributeSiteFact := ord_eq_dec.

Inductive DiagnosticCode : Type :=
| DC_StrictFinalGlobalRebind | DC_StrictFinalGlobalDelete | DC_StrictClassMutation
| DC_StrictFinalClassSubclass | DC_StrictFinalMethodOverride
| DC_StrictInstanceMethodShadow | DC_StrictClassvarInstanceWrite
| DC_StrictUndeclaredField | DC_StrictIncompatibleFieldWrite
| DC_StrictIncompatibleOverride | DC_StrictDictReplacement
| DC_StrictUnsupportedMetaclass | DC_StrictUnsupportedDecorator
| DC_StrictUnsupportedDescriptor | DC_StrictLayoutInheritanceConflict
| DC_StrictUncheckedDynamicType | DC_StrictConstructionContractMismatch | DC_CheckerError.
#[global] Program Instance DiagnosticCode_ord : RustOrd DiagnosticCode :=
  {| key := fun k => KInt (match k with
       | DC_StrictFinalGlobalRebind => 0 | DC_StrictFinalGlobalDelete => 1
       | DC_StrictClassMutation => 2 | DC_StrictFinalClassSubclass => 3
       | DC_StrictFinalMethodOverride => 4 | DC_StrictInstanceMethodShadow => 5
       | DC_StrictClassvarInstanceWrite => 6 | DC_StrictUndeclaredField => 7
       | DC_StrictIncompatibleFieldWrite => 8 | DC_StrictIncompatibleOverride => 9
       | DC_StrictDictReplacement => 10 | DC_StrictUnsupportedMetaclass => 11
       | DC_StrictUnsupportedDecorator => 12 | DC_StrictUnsupportedDescriptor => 13
       | DC_StrictLayoutInheritanceConflict => 14 | DC_StrictUncheckedDynamicType => 15
       | DC_StrictConstructionContractMismatch => 16 | DC_CheckerError => 17 end) |}.
Next Obligation. by intros [] []. Qed.
#[global] Instance DiagnosticCode_eq_dec : EqDecision DiagnosticCode := ord_eq_dec.

Inductive DiagnosticSeverity : Type :=
| DS_Information | DS_Warning | DS_Error.
#[global] Program Instance DiagnosticSeverity_ord : RustOrd DiagnosticSeverity :=
  {| key := fun k => KInt (match k with
       | DS_Information => 0 | DS_Warning => 1 | DS_Error => 2 end) |}.
Next Obligation. by intros [] []. Qed.
#[global] Instance DiagnosticSeverity_eq_dec : EqDecision DiagnosticSeverity := ord_eq_dec.

Inductive DiagnosticScope : Type :=
| DSc_Module
| DSc_Definition (identity : SourceIdentity)
| DSc_Site (range : SourceRange).
#[global] Program Instance DiagnosticScope_ord : RustOrd DiagnosticScope :=
  {| key := fun x => KNode (match x with
       | DSc_Module => [KInt 0]
       | DSc_Definition i0 => [KInt 1; key i0]
       | DSc_Site r0 => [KInt 2; key r0] end) |}.
Next Obligation. solve_key_inj. Qed.
#[global] Instance DiagnosticScope_eq_dec : EqDecision DiagnosticScope := ord_eq_dec.

Record StrictDiagnostic : Type := mkStrictDiagnostic {
  sd_code : DiagnosticCode;
  sd_severity : DiagnosticSeverity;
  sd_source_range : SourceRange;
  sd_scope : DiagnosticScope;
  sd_related_definitions : list SourceIdentity;
  sd_suppressed : bool;
  sd_message : string;
}.
#[global] Program Instance StrictDiagnostic_ord : RustOrd StrictDiagnostic :=
  {| key := fun x => KNode [key (sd_code x); key (sd_severity x); key (sd_source_range x);
       key (sd_scope x); key (sd_related_definitions x);
       key (sd_suppressed x); key (sd_message x)] |}.
Next Obligation. solve_key_inj. Qed.
#[global] Instance StrictDiagnostic_eq_dec : EqDecision StrictDiagnostic := ord_eq_dec.

Record ModuleTypeFacts : Type := mkModuleTypeFacts {
  mtf_schema_version : Z;
  mtf_module : ModuleContentId;
  mtf_source_digest : Fingerprint;
  mtf_source_size : Z;
  mtf_source_dialect : SourceDialect;
  mtf_language_policy : ResolvedStrictPolicy;
  mtf_consumed_dependencies : list DependencyFingerprint;
  mtf_global_bindings : list GlobalBindingFact;
  mtf_classes : list ClassTypeFact;
  mtf_functions : list FunctionTypeFact;
  mtf_nominal_bindings : list NominalBindingFact;
  mtf_attribute_sites : list AttributeSiteFact;
  mtf_call_sites : list CallSiteFact;
  mtf_diagnostics : list StrictDiagnostic;
}.
#[global] Instance ModuleTypeFacts_eq_dec : EqDecision ModuleTypeFacts.
Proof. solve_decision. Defined.

Definition ARTIFACT_SCHEMA_VERSION : Z := 7.

(** [ModuleTypeFacts::new]; [digest] is [Fingerprint::digest] (SHA-256). *)
Definition module_type_facts_new (digest : list byte -> Fingerprint) (module_name : string)
    (source : list byte) (source_dialect : SourceDialect)
    (language_policy : ResolvedStrictPolicy) : Result ModuleTypeFacts :=
  let source_size := Z.of_nat (length source) in
  if (source_size <=? u32_max)%Z then
    Ok {| mtf_schema_version := ARTIFACT_SCHEMA_VERSION;
          mtf_module := mkModuleContentId module_name (legacy_source_hash source);
          mtf_source_digest := digest source;
          mtf_source_size := source_size;
          mtf_source_dialect := source_dialect;
          mtf_language_policy := language_policy;
          mtf_consumed_dependencies := [];
          mtf_global_bindings := [];
          mtf_classes := [];
          mtf_functions := [];
          mtf_nominal_bindings := [];
          mtf_attribute_sites := [];
          mtf_call_sites := [];
          mtf_diagnostics := [] |}
  else Err (InvalidSourceIdentity "source exceeds the parser's byte range").

Definition module_body_identity (self : ModuleTypeFacts) : SourceIdentity :=
  module_body (mtf_module self) (mtf_source_size self).

(** ** Lexical class owners *)

Definition is_function_kind (k : DefinitionKind) : bool :=
  match k with DK_Function | DK_Lambda => true | _ => false end.

(** The closure [intervening_scope] of [source_class_owner]. *)
Definition intervening_scope (class source scope : SourceIdentity) : bool :=
  bool_decide (si_module scope = si_module source)
  && negb (bool_decide (si_source_range scope = si_source_range class))
  && negb (bool_decide (si_source_range scope = si_source_range source))
  && range_contains (si_source_range class) (si_source_range scope)
  && range_contains (si_source_range scope) (si_source_range source).

Definition source_class_owner (self : ModuleTypeFacts) (source : SourceIdentity) :
    option ClassTypeFact :=
  if negb (bool_decide (si_module source = mtf_module self))
     || negb (is_function_kind (si_definition_kind source))
     || negb (existsb (fun f => bool_decide (fn_identity f = source)) (mtf_functions self))
  then None
  else
    find_first (fun class =>
      if negb (bool_decide (si_module (ct_identity class) = si_module source))
         || negb (bool_decide (si_definition_kind (ct_identity class) = DK_Class))
         || bool_decide (si_source_range (ct_identity class) = si_source_range source)
         || negb (range_contains (si_source_range (ct_identity class)) (si_source_range source))
      then false
      else negb (existsb (fun nested => intervening_scope (ct_identity class) source
                                          (ct_identity nested)) (mtf_classes self)
                 || existsb (fun nested => intervening_scope (ct_identity class) source
                                          (fn_identity nested)) (mtf_functions self)))
      (mtf_classes self).

Definition function_has_statically_dynamic_class_owner (self : ModuleTypeFacts)
    (source : SourceIdentity) : bool :=
  is_some_and (fun class => match ct_participation class with PP_Dynamic _ => true | _ => false end)
    (source_class_owner self source).
