(* ===== verification/Diagnostics.v ===== *)
(** * Suppressed regions ([soac_contracts/src/diagnostics.rs])

    A suppressed checker diagnostic costs the definitions it touches, and
    everything that depends on them, their precise proposals.
    [demote_suppressed_regions] first computes the ignored definitions by a
    fixpoint over the class and function catalogues, then lowers every record
    that mentions one.  A [&mut] argument with a returned flag is a pair of the
    new value and the flag. *)

From S2P Require Import Prelude Order Collections Text Identity StaticTypes Normalize.
From S2P Require Import Facts.

Definition overlaps (left right : SourceRange) : bool :=
  (if sr_start left =? sr_end left then
     (sr_start right <=? sr_start left) && (sr_start left <? sr_end right)
   else if sr_start right =? sr_end right then
     (sr_start left <=? sr_start right) && (sr_start right <? sr_end left)
   else (sr_start left <? sr_end right) && (sr_start right <? sr_end left))%Z.

(** ** [IgnoredDefinitions] *)

Record IgnoredDefinitions : Type := mkIgnoredDefinitions {
  ig_module : ModuleContentId;
  ig_whole_module : bool;
  ig_definitions : list SourceIdentity;
}.

Definition ig_identity (self : IgnoredDefinitions) (identity : SourceIdentity) : bool :=
  (ig_whole_module self && bool_decide (si_module identity = ig_module self))
  || bset_contains identity (ig_definitions self)
  || existsb (fun ignored =>
       bool_decide (si_module ignored = si_module identity)
       && overlaps (si_source_range ignored) (si_source_range identity)
       && negb (bool_decide (si_definition_kind identity = DK_Module)))
       (ig_definitions self).

Section references.
Context (self : IgnoredDefinitions).

Fixpoint value_references (value : StaticType) : bool :=
  match value with
  | ST_NominalClass class | ST_ExactClass class => ig_identity self (cr_definition class)
  | ST_Union elements => existsb value_references elements
  | ST_Optional value => value_references value
  | ST_Callable signature => signature_references signature
  | ST_TypeVariable variable => variable_references variable
  | ST_StructuralProtocol protocol =>
      is_some_and (fun class => ig_identity self (cr_definition class)) (pf_definition protocol)
  | _ => false
  end
with signature_references (signature : CallableSignature) : bool :=
  match signature with
  | mkCallableSignature parameters return_type _ _ =>
      value_references return_type || existsb parameter_references parameters
  end
with parameter_references (parameter : ParameterTypeFact) : bool :=
  match parameter with
  | mkParameterTypeFact _ _ value_type _ default =>
      value_references value_type || default_references default
  end
with default_references (default : DefaultFact) : bool :=
  match default with
  | DF_Value value_type _ => value_references value_type
  | DF_Factory implementation return_type =>
      is_some_and (ig_identity self) implementation || value_references return_type
  | DF_Missing | DF_Unknown => false
  end
with variable_references (variable : TypeVariableFact) : bool :=
  match variable with
  | mkTypeVariableFact identity upper_bound constraints =>
      ig_identity self identity
      || match upper_bound with Some value => value_references value | None => false end
      || existsb value_references constraints
  end.

Definition target_references (target : CallableTargetFact) : bool :=
  match target with
  | CTF_SourceFunction identity => ig_identity self identity
  | CTF_Method class _ implementation =>
      ig_identity self (cr_definition class) || is_some_and (ig_identity self) implementation
  | CTF_Generated generated => ig_identity self (cr_definition (gf_class generated))
  | CTF_Dynamic => false
  end.

Definition ig_value (value : StaticType) (full : bool) : StaticType * bool :=
  if full || value_references value then (ST_Unknown, true) else (value, false).

Definition ig_default (default : DefaultFact) (full : bool) : DefaultFact * bool :=
  if (full && negb (bool_decide (default = DF_Missing))) || default_references default
  then (DF_Unknown, true) else (default, false).

Definition ig_parameter (parameter : ParameterTypeFact) (full : bool) : ParameterTypeFact * bool :=
  let 'mkParameterTypeFact name kind value_type origin default := parameter in
  let value_type := ig_value value_type full in
  let default := ig_default default full in
  (mkParameterTypeFact name kind value_type.1 origin default.1, value_type.2 || default.2).

Definition add_ignored (uncertainty : list UncertaintyReason) (affected : bool) :
    list UncertaintyReason :=
  if affected then bset_insert UR_IgnoredDiagnostic uncertainty else uncertainty.

Definition ig_signature (signature : CallableSignature) (full : bool) : CallableSignature * bool :=
  let 'mkCallableSignature parameters return_type origin uncertainty := signature in
  let return_type := ig_value return_type full in
  let parameters := map (fun parameter => ig_parameter parameter full) parameters in
  let affected := return_type.2 || existsb snd parameters in
  (mkCallableSignature (map fst parameters) return_type.1 origin
     (add_ignored uncertainty affected), affected).

Definition descriptor_accessors (descriptor : DescriptorFact) : list SourceIdentity :=
  omap id [df_getter descriptor; df_setter descriptor; df_deleter descriptor].

Definition ig_descriptor (descriptor : DescriptorFact) (full : bool) : DescriptorFact * bool :=
  if full || is_some_and value_references (df_descriptor_type descriptor)
     || existsb (ig_identity self) (descriptor_accessors descriptor)
  then (mkDescriptorFact DescK_Unknown None None None None, true)
  else (descriptor, false).
End references.

(** ** The ignored definitions *)

(** One suppressed diagnostic of the first loop. *)
Definition ignore_diagnostic (facts : ModuleTypeFacts) (ignored : IgnoredDefinitions)
    (diagnostic : StrictDiagnostic) : IgnoredDefinitions :=
  let definitions := ig_definitions ignored in
  let region range :=
    let touched identity (decorators : list DecoratorFact) :=
      overlaps (si_source_range identity) range
      || existsb (fun decorator => overlaps (dec_expression_range decorator) range) decorators in
    let owners :=
      List.filter (fun owner : SourceIdentity * list DecoratorFact => touched owner.1 owner.2)
        (map (fun class => (ct_identity class, ct_decorators class)) (mtf_classes facts)
         ++ map (fun function => (fn_identity function, fn_decorators function))
              (mtf_functions facts)) in
    mkIgnoredDefinitions (ig_module ignored)
      (ig_whole_module ignored || bool_decide (owners = []))
      (bset_extend (bset_extend definitions (map fst owners)) (sd_related_definitions diagnostic)) in
  match sd_scope diagnostic with
  | DSc_Module => mkIgnoredDefinitions (ig_module ignored) true definitions
  | DSc_Definition identity => region (si_source_range identity)
  | DSc_Site range => region range
  end.

Definition ignore_seed (facts : ModuleTypeFacts) : IgnoredDefinitions :=
  fold_left (ignore_diagnostic facts) (List.filter sd_suppressed (mtf_diagnostics facts))
    (mkIgnoredDefinitions (mtf_module facts) false []).

(** The dependents of an ignored definition, one round of the [loop]. *)
Definition class_affected (ignored : IgnoredDefinitions) (class : ClassTypeFact) : bool :=
  ig_identity ignored (ct_identity class)
  || existsb (fun base => is_some_and (fun c => ig_identity ignored (cr_definition c)) (as_class base))
       (ct_bases class ++ inh_linearized_bases (ct_inheritance class))
  || match ct_metaclass class with
     | MF_Class metaclass => ig_identity ignored (cr_definition metaclass)
     | _ => false
     end
  || existsb (fun decorator => is_some_and (ig_identity ignored) (dec_definition decorator))
       (ct_decorators class)
  || existsb (fun method => is_some_and (ig_identity ignored) (mt_implementation method))
       (ct_methods class).

Definition function_affected (ignored : IgnoredDefinitions) (function : FunctionTypeFact) : bool :=
  ig_identity ignored (fn_identity function)
  || existsb (fun decorator => is_some_and (ig_identity ignored) (dec_definition decorator))
       (fn_decorators function).

Definition ignore_added (facts : ModuleTypeFacts) (ignored : IgnoredDefinitions) :
    list SourceIdentity :=
  bset_of_list (map ct_identity (List.filter (class_affected ignored) (mtf_classes facts))
                ++ map fn_identity (List.filter (function_affected ignored) (mtf_functions facts))).

Definition ignore_step (facts : ModuleTypeFacts) (ignored : IgnoredDefinitions) : IgnoredDefinitions :=
  mkIgnoredDefinitions (ig_module ignored) (ig_whole_module ignored)
    (bset_extend (ig_definitions ignored) (ignore_added facts ignored)).

Fixpoint ignore_loop (fuel : nat) (facts : ModuleTypeFacts) (ignored : IgnoredDefinitions) :
    IgnoredDefinitions :=
  match fuel with
  | O => ignored
  | S fuel =>
      let next := ignore_step facts ignored in
      if bool_decide (length (ig_definitions ignored) = length (ig_definitions next)) then next
      else ignore_loop fuel facts next
  end.

(** Every round but the last adds a class or function of the catalogues. *)
Definition ignored_definitions (facts : ModuleTypeFacts) : IgnoredDefinitions :=
  ignore_loop (S (length (mtf_classes facts) + length (mtf_functions facts))) facts
    (ignore_seed facts).

(** ** Lowering the records *)

Section lowering.
Context (ignored : IgnoredDefinitions).
Let ig := ig_identity ignored.

Definition demote_global (binding : GlobalBindingFact) : GlobalBindingFact :=
  let full := ig_whole_module ignored || is_some_and ig (gb_definition binding) in
  let value_type := ig_value ignored (gb_value_type binding) full in
  mkGlobalBindingFact (gb_name binding) (gb_mutability binding) value_type.1
    (gb_definition binding) (add_ignored (gb_uncertainty binding) value_type.2).

Definition demote_field (full : bool) (field : FieldTypeFact) : FieldTypeFact :=
  let field_full :=
    full || ig (cr_definition (ft_declaring_class field))
    || is_some_and ig (ft_annotation_definition field) in
  let value_type := ig_value ignored (ft_value_type field) field_full in
  let default := ig_default ignored (ft_default field) field_full in
  let descriptor := ig_descriptor ignored (ft_descriptor field) field_full in
  mkFieldTypeFact (ft_name field) (ft_declaring_class field) value_type.1
    (ft_annotation_origin field) (ft_annotation_definition field)
    (if field_full then FldK_Dynamic else ft_field_kind field)
    (if field_full then FRP_PythonAttribute else ft_read_policy field)
    (if field_full then FWP_Dynamic else ft_write_policy field)
    (if field_full then IP_Unknown else ft_initialization field)
    default.1 descriptor.1
    (add_ignored (ft_uncertainty field) (value_type.2 || default.2 || descriptor.2)).

Definition demote_method (full : bool) (method : MethodTypeFact) : MethodTypeFact :=
  let signature := ig_signature ignored (mt_signature method) full in
  mkMethodTypeFact (mt_name method) (mt_declaring_class method) (mt_binding method) signature.1
    (mt_declared_final method) (if full then OP_Dynamic else mt_override_policy method)
    (mt_implementation method) (mt_generated method)
    (add_ignored (mt_uncertainty method) signature.2).

Definition demote_member (full : bool) (member : ClassMemberFact) : ClassMemberFact :=
  let value_type := ig_value ignored (cm_value_type member) full in
  let descriptor := ig_descriptor ignored (cm_descriptor member) full in
  mkClassMemberFact (cm_name member) (if full then CMK_Dynamic else cm_kind member) value_type.1
    (cm_definition member) descriptor.1
    (add_ignored (cm_uncertainty member) (value_type.2 || descriptor.2)).

Definition demote_participation (participation : ParticipationProposal) : ParticipationProposal :=
  match participation with
  | PP_Candidate => PP_Dynamic [DCR_IgnoredDiagnostic]
  | PP_Dynamic reasons => PP_Dynamic (bset_insert DCR_IgnoredDiagnostic reasons)
  end.

Definition demote_class (class : ClassTypeFact) : ClassTypeFact :=
  let full := ig (ct_identity class) in
  mkClassTypeFact (ct_identity class) (ct_bases class) (ct_metaclass class) (ct_decorators class)
    (if full then demote_participation (ct_participation class) else ct_participation class)
    (if full then CDS_Unknown else ct_dictionary class)
    (map (demote_field full) (ct_instance_fields class))
    (map (demote_method full) (ct_methods class))
    (map (demote_member full) (ct_class_members class))
    (if full then mkInheritanceFact (inh_linearized_bases (ct_inheritance class)) false
     else ct_inheritance class)
    (if full then CO_Unknown else ct_openness class)
    (ct_transform class)
    (add_ignored (ct_uncertainty class) full).

Definition demote_function (function : FunctionTypeFact) : FunctionTypeFact :=
  let signature :=
    ig_signature ignored (fn_signature function) (ig (fn_identity function)) in
  mkFunctionTypeFact (fn_identity function) (fn_function_kind function) signature.1
    (fn_decorators function) (add_ignored (fn_uncertainty function) signature.2).

(** The [retain] predicate on nominal bindings. *)
Definition keep_nominal (binding : NominalBindingFact) : bool :=
  let owner_ignored :=
    match nb_owner binding with
    | NBO_Function function _ => ig function
    | NBO_Field field =>
        ig (cr_definition (fr_declaring_class field)) || ig (fr_annotation_definition field)
    end in
  negb owner_ignored
  && negb (ig (cr_definition (nb_class binding)))
  && negb (ig (nb_binding binding))
  && negb (ig (nb_binding_scope binding)).

(** The [if] conditions on attribute and call sites. *)
Definition attribute_site_affected (site : AttributeSiteFact) : bool :=
  ig (asi_enclosing_function (asf_identity site))
  || value_references ignored (asf_receiver_type site)
  || is_some_and (value_references ignored) (asf_value_type site)
  || is_some_and (fun class => ig (cr_definition class)) (asf_declaring_class site).

Definition call_site_affected (site : CallSiteFact) : bool :=
  ig (csi_enclosing_function (cs_identity site))
  || is_some_and (fun receiver => value_references ignored (rt_value_type receiver))
       (cs_receiver site)
  || existsb (target_references ignored) (cs_candidate_targets site)
  || signature_references ignored (cs_signature site)
  || value_references ignored (cs_result_type site).

Definition demote_attribute_site (site : AttributeSiteFact) : AttributeSiteFact :=
  if attribute_site_affected site
  then mkAttributeSiteFact (asf_identity site) (asf_name site) (asf_access site) ST_Unknown
         (match asf_value_type site with Some _ => Some ST_Unknown | None => None end) None
         (bset_insert UR_IgnoredDiagnostic (asf_uncertainty site))
  else site.

Definition demote_receiver (receiver : ReceiverTypeFact) : ReceiverTypeFact :=
  mkReceiverTypeFact ST_Unknown (bset_insert UR_IgnoredDiagnostic (rt_uncertainty receiver)).

Definition demote_call_site (site : CallSiteFact) : CallSiteFact :=
  if call_site_affected site
  then mkCallSiteFact (cs_identity site) (option_map demote_receiver (cs_receiver site))
         (cs_attribute_name site) [CTF_Dynamic] CBF_Dynamic
         (fst (ig_signature ignored (cs_signature site) true)) ST_Unknown CU_Dynamic
  else site.

Definition demote_records (facts : ModuleTypeFacts) : ModuleTypeFacts :=
  {| mtf_schema_version := mtf_schema_version facts;
     mtf_module := mtf_module facts;
     mtf_source_digest := mtf_source_digest facts;
     mtf_source_size := mtf_source_size facts;
     mtf_source_dialect := mtf_source_dialect facts;
     mtf_language_policy := mtf_language_policy facts;
     mtf_consumed_dependencies := mtf_consumed_dependencies facts;
     mtf_global_bindings := map demote_global (mtf_global_bindings facts);
     mtf_classes := map demote_class (mtf_classes facts);
     mtf_functions := map demote_function (mtf_functions facts);
     mtf_nominal_bindings := List.filter keep_nominal (mtf_nominal_bindings facts);
     mtf_attribute_sites := map demote_attribute_site (mtf_attribute_sites facts);
     mtf_call_sites := map demote_call_site (mtf_call_sites facts);
     mtf_diagnostics := mtf_diagnostics facts |}.
End lowering.

Definition demote_suppressed_regions (facts : ModuleTypeFacts) : ModuleTypeFacts :=
  if existsb sd_suppressed (mtf_diagnostics facts)
  then demote_records (ignored_definitions facts) facts
  else facts.
