(* ===== verification/DiagnosticsProps.v ===== *)
(** * Correctness of suppressed-region demotion

    The ignored definitions are the least set that contains the suppressed
    regions and is closed under dependence; the loop always reaches it.
    Demotion is idempotent, leaves no reference to an ignored definition in a
    precise proposal, and leaves unrelated records alone. *)

From S2P Require Import Prelude Order Collections Text Identity StaticTypes Normalize.
From S2P Require Import Facts Diagnostics.

(** ** Ranges *)

(** The offsets of a range; an empty range stands for its insertion point. *)
Definition covers (r : SourceRange) (i : Z) : Prop :=
  if (sr_start r =? sr_end r)%Z then i = sr_start r else (sr_start r <= i < sr_end r)%Z.

(** [overlaps] is symmetric, and it holds exactly when some offset lies in
    both ranges, an empty range counting as its insertion point unless both are
    empty. *)
Theorem overlaps_iff left right :
  (sr_start left <= sr_end left)%Z -> (sr_start right <= sr_end right)%Z ->
  (overlaps left right = true <->
   (sr_start left < sr_end left \/ sr_start right < sr_end right)%Z /\
   exists i, covers left i /\ covers right i) /\
  overlaps left right = overlaps right left.
Proof.
  intros Hl Hr. unfold overlaps, covers.
  destruct (Z.eqb_spec (sr_start left) (sr_end left)) as [El|El],
    (Z.eqb_spec (sr_start right) (sr_end right)) as [Er|Er].
  - split; [|apply eq_iff_eq_true; rewrite !andb_true_iff, !Z.leb_le, !Z.ltb_lt; lia].
    rewrite andb_true_iff, Z.leb_le, Z.ltb_lt. lia.
  - split; [|done]. rewrite andb_true_iff, Z.leb_le, Z.ltb_lt. split.
    + intros ?. split; [lia|]. eexists. split; [done|]. lia.
    + intros (_ & i & -> & ?). lia.
  - split; [|done]. rewrite andb_true_iff, Z.leb_le, Z.ltb_lt. split.
    + intros ?. split; [lia|]. exists (sr_start right). split; [lia|done].
    + intros (_ & i & ? & ->). lia.
  - split; [|by rewrite andb_comm]. rewrite andb_true_iff, !Z.ltb_lt. split.
    + intros ?. split; [lia|]. exists (Z.max (sr_start left) (sr_start right)). lia.
    + intros (_ & i & ? & ?). lia.
Qed.

Lemma overlaps_iff_witness :
  overlaps (mkSourceRange 0 4) (mkSourceRange 3 9) = true.
Proof.
  refine (proj2 (proj1 (overlaps_iff (mkSourceRange 0 4) (mkSourceRange 3 9) _ _)) _);
    [cbn; lia..|]. split; [cbn; lia|]. exists 3%Z. vm_compute. repeat split; congruence.
Defined.

(** ** Monotonicity *)

(** The ignored set [a] is included in [b]. *)
Definition ig_le (a b : IgnoredDefinitions) : Prop :=
  ig_module a = ig_module b /\
  (ig_whole_module a = true -> ig_whole_module b = true) /\
  forall x, x ∈ ig_definitions a -> x ∈ ig_definitions b.

#[global] Instance ig_le_preorder : PreOrder ig_le.
Proof.
  split.
  - intros a. by repeat split.
  - intros a b c (? & ? & ?) (? & ? & ?). split; [congruence|]. split; auto.
Qed.

Lemma ig_identity_mono a b i : ig_le a b -> ig_identity a i = true -> ig_identity b i = true.
Proof.
  intros (Hm & Hw & Hd). unfold ig_identity.
  rewrite !orb_true_iff, !andb_true_iff, !existsb_elem, !bset_contains_elem, <- Hm.
  intros [[[H1 H2]|H]|(x & Hx & H)]; auto. right. eauto.
Qed.

Lemma is_some_and_mono {A} (f g : A -> bool) o :
  (forall x, f x = true -> g x = true) -> is_some_and f o = true -> is_some_and g o = true.
Proof. intros H. destruct o; cbn; auto. Qed.

Lemma existsb_mono {A} (f g : A -> bool) l :
  (forall x, f x = true -> g x = true) -> existsb f l = true -> existsb g l = true.
Proof. intros H. rewrite !existsb_elem. naive_solver. Qed.

Lemma class_affected_mono a b c : ig_le a b -> class_affected a c = true -> class_affected b c = true.
Proof.
  intros Hab. unfold class_affected. rewrite !orb_true_iff.
  pose proof (fun i => ig_identity_mono a b i Hab) as Hi.
  intros [[[[H|H]|H]|H]|H].
  - do 4 left. auto.
  - do 3 left. right. revert H. apply existsb_mono. intros base. apply is_some_and_mono. auto.
  - do 2 left. right. destruct (ct_metaclass c); auto.
  - left. right. revert H. apply existsb_mono. intros d. by apply is_some_and_mono.
  - right. revert H. apply existsb_mono. intros d. by apply is_some_and_mono.
Qed.

Lemma function_affected_mono a b f :
  ig_le a b -> function_affected a f = true -> function_affected b f = true.
Proof.
  intros Hab. unfold function_affected. rewrite !orb_true_iff.
  pose proof (fun i => ig_identity_mono a b i Hab) as Hi.
  intros [H|H]; [auto|]. right. revert H. apply existsb_mono. intros d. by apply is_some_and_mono.
Qed.

Lemma elem_of_map {A B} (f : A -> B) l y : y ∈ map f l <-> exists x, y = f x /\ x ∈ l.
Proof.
  rewrite list_elem_of_In, in_map_iff. setoid_rewrite <- list_elem_of_In. naive_solver.
Qed.

Lemma elem_of_filter_bool {A} (f : A -> bool) l x : x ∈ List.filter f l <-> x ∈ l /\ f x = true.
Proof. by rewrite !list_elem_of_In, filter_In. Qed.

Lemma elem_of_ignore_added facts ig x :
  x ∈ ignore_added facts ig <->
  (exists c, c ∈ mtf_classes facts /\ class_affected ig c = true /\ x = ct_identity c) \/
  (exists f, f ∈ mtf_functions facts /\ function_affected ig f = true /\ x = fn_identity f).
Proof.
  unfold ignore_added. autorewrite with members. rewrite elem_of_app, !elem_of_map.
  setoid_rewrite elem_of_filter_bool. naive_solver.
Qed.

Lemma ignore_added_mono facts a b x :
  ig_le a b -> x ∈ ignore_added facts a -> x ∈ ignore_added facts b.
Proof.
  intros Hab. rewrite !elem_of_ignore_added.
  intros [(c & ? & ? & ?)|(f & ? & ? & ?)]; [left|right];
    eauto 6 using class_affected_mono, function_affected_mono.
Qed.

(** ** The loop reaches its fixpoint *)

Definition catalog (facts : ModuleTypeFacts) : list SourceIdentity :=
  map ct_identity (mtf_classes facts) ++ map fn_identity (mtf_functions facts).

Lemma ignore_added_catalog facts ig x : x ∈ ignore_added facts ig -> x ∈ catalog facts.
Proof.
  rewrite elem_of_ignore_added. unfold catalog. rewrite elem_of_app, !elem_of_map. naive_solver.
Qed.

(** A set that did not grow did not change. *)
Lemma bset_extend_same_length `{RustOrd A} (s l : list A) :
  Strict s -> length s = length (bset_extend s l) -> bset_extend s l = s.
Proof.
  intros Hs Hlen. symmetry. apply Strict_unique; [done|eauto with ordered|].
  assert (s ⊆+ bset_extend s l) as Hsub.
  { apply NoDup_submseteq; [by apply Strict_NoDup|]. intros x Hx. apply elem_of_bset_extend. by left. }
  pose proof (submseteq_length_Permutation _ _ Hsub ltac:(lia)) as Hp.
  intros x. generalize dependent (bset_extend s l). intros k _ _ Hp. by rewrite Hp.
Qed.

(** Catalogue entries not yet ignored. *)
Definition remaining (facts : ModuleTypeFacts) (defs : list SourceIdentity) : nat :=
  length (List.filter (fun x => negb (bset_contains x defs)) (catalog facts)).

Lemma not_included_ex `{RustOrd A} (l s : list A) :
  bset_extend s l <> s -> Strict s -> exists x, x ∈ l /\ bset_contains x s = false.
Proof.
  intros Hne Hs. destruct (forallb (fun x => bset_contains x s) l) eqn:E.
  - exfalso. apply Hne. apply Strict_unique; [eauto with ordered|done|].
    intros x. autorewrite with members. rewrite forallb_elem in E.
    split; [|auto]. intros [?|Hx]; [done|]. by apply bset_contains_elem, E.
  - apply not_true_iff_false in E. rewrite forallb_elem in E.
    destruct (existsb (fun x => negb (bset_contains x s)) l) eqn:E'.
    + apply existsb_elem in E' as (x & Hx & Hn). exists x. split; [done|]. by apply negb_true_iff.
    + exfalso. apply E. intros x Hx. rewrite existsb_false_elem in E'.
      by apply negb_false_iff, E'.
Qed.

Lemma remaining_step facts ig :
  Strict (ig_definitions ig) ->
  length (ig_definitions ig) <> length (ig_definitions (ignore_step facts ig)) ->
  remaining facts (ig_definitions (ignore_step facts ig)) < remaining facts (ig_definitions ig).
Proof.
  intros Hs Hlen. cbn in *.
  destruct (not_included_ex (ignore_added facts ig) (ig_definitions ig)) as (x & Hx & Hn);
    [congruence|done|].
  unfold remaining. apply (filter_length_strict _ _ _ x).
  - intros y. rewrite !negb_true_iff, <- !not_true_iff_false, !bset_contains_elem.
    autorewrite with members. tauto.
  - by eapply ignore_added_catalog.
  - apply negb_false_iff, bset_contains_elem, elem_of_bset_extend. by right.
  - by rewrite Hn.
Qed.

Lemma ignore_step_strict facts ig :
  Strict (ig_definitions ig) -> Strict (ig_definitions (ignore_step facts ig)).
Proof. apply bset_extend_strict. Qed.

Lemma ignore_loop_closed fuel facts ig :
  Strict (ig_definitions ig) -> remaining facts (ig_definitions ig) < fuel ->
  let r := ignore_loop fuel facts ig in
  Strict (ig_definitions r) /\ ignore_step facts r = r.
Proof.
  revert ig. induction fuel as [|fuel IH]; intros ig Hs Hfuel; [lia|].
  cbn [ignore_loop]. case_bool_decide as Hlen.
  - split; [by apply ignore_step_strict|].
    assert (ignore_step facts ig = ig) as ->; [|].
    { unfold ignore_step in *. cbn in Hlen. apply bset_extend_same_length in Hlen; [|done].
      rewrite Hlen. by destruct ig. }
    unfold ignore_step in *. cbn in Hlen. apply bset_extend_same_length in Hlen; [|done].
    rewrite Hlen. by destruct ig.
  - apply IH; [by apply ignore_step_strict|].
    pose proof (remaining_step facts ig Hs Hlen). lia.
Qed.

Lemma ignore_diagnostic_strict facts ig d :
  Strict (ig_definitions ig) -> Strict (ig_definitions (ignore_diagnostic facts ig d)).
Proof.
  intros Hs. unfold ignore_diagnostic. destruct (sd_scope d); cbn; [done|..];
    eauto with ordered.
Qed.

Lemma ignore_seed_strict facts : Strict (ig_definitions (ignore_seed facts)).
Proof.
  unfold ignore_seed.
  assert (forall l ig, Strict (ig_definitions ig) ->
    Strict (ig_definitions (fold_left (ignore_diagnostic facts) l ig))) as H.
  { induction l; cbn; [done|]. intros ig Hig. apply IHl, ignore_diagnostic_strict, Hig. }
  apply H. constructor.
Qed.

Lemma ignored_definitions_closed facts :
  let ig := ignored_definitions facts in
  Strict (ig_definitions ig) /\ ignore_step facts ig = ig.
Proof.
  apply ignore_loop_closed; [apply ignore_seed_strict|].
  unfold remaining. eapply Nat.le_lt_trans; [apply List.filter_length_le|].
  unfold catalog. rewrite length_app, !length_map. lia.
Qed.

Lemma ignore_loop_least fuel facts ig b :
  ig_le ig b -> ig_le (ignore_step facts b) b -> ig_le (ignore_loop fuel facts ig) b.
Proof.
  revert ig. induction fuel as [|fuel IH]; intros ig Hle Hb; cbn [ignore_loop]; [done|].
  assert (ig_le (ignore_step facts ig) b) as Hstep.
  { destruct Hle as (Hm & Hw & Hd). split; [done|]. split; [done|]. cbn. intros x.
    autorewrite with members. intros [?|Hx]; [auto|]. apply Hb. cbn.
    apply elem_of_bset_extend. right. eapply ignore_added_mono; [|exact Hx]. done. }
  case_bool_decide; auto.
Qed.

Lemma ignore_loop_seed fuel facts ig : ig_le ig (ignore_loop fuel facts ig).
Proof.
  revert ig. induction fuel as [|fuel IH]; intros ig; cbn [ignore_loop]; [done|].
  assert (ig_le ig (ignore_step facts ig)) as Hstep.
  { split; [done|]. split; [done|]. cbn. intros x ?. apply elem_of_bset_extend. by left. }
  case_bool_decide; [done|]. by transitivity (ignore_step facts ig).
Qed.

(** C20: the dependency loop terminates within its bound at the least set of
    ignored definitions that contains the suppressed regions and is closed under
    dependence (bases, metaclasses, decorators, method implementations). *)
Theorem ignored_definitions_least facts :
  let ig := ignored_definitions facts in
  ig_le (ignore_seed facts) ig /\ ignore_step facts ig = ig /\
  forall b, ig_le (ignore_seed facts) b -> ig_le (ignore_step facts b) b -> ig_le ig b.
Proof.
  intros ig. split; [apply ignore_loop_seed|]. split; [apply ignored_definitions_closed|].
  intros b. apply ignore_loop_least.
Qed.

(** ** Idempotence, record by record *)

Lemma bset_insert_twice `{RustOrd A} (x : A) s : bset_insert x (bset_insert x s) = bset_insert x s.
Proof.
  induction s as [|y s IH]; cbn; [by rewrite (proj2 (ord_cmp_eq x x) eq_refl)|].
  destruct (ord_cmp x y) eqn:C; cbn; rewrite ?C; [done| |by rewrite IH].
  by rewrite (proj2 (ord_cmp_eq x x) eq_refl).
Qed.

Lemma elem_of_add_ignored u b : b = true -> UR_IgnoredDiagnostic ∈ add_ignored u b.
Proof. intros ->. apply elem_of_bset_insert. by left. Qed.

(** A second insertion that happens only where the first did is a no-op. *)
Lemma add_ignored_twice u a b :
  (b = true -> a = true) -> add_ignored (add_ignored u a) b = add_ignored u a.
Proof. destruct a, b; cbn; intros H; try done; [apply bset_insert_twice|by specialize (H eq_refl)]. Qed.

Section lowering_twice.
Context (ig : IgnoredDefinitions).

(** Lowering again changes nothing and reports nothing new. *)
Definition settles {A} (f : A -> bool -> A * bool) : Prop :=
  forall x full, (f (f x full).1 full).1 = (f x full).1 /\
    ((f (f x full).1 full).2 = true -> (f x full).2 = true).

Lemma ig_value_settles : settles (ig_value ig).
Proof.
  intros x []; unfold ig_value; cbn; [done|].
  destruct (value_references ig x) eqn:E; cbn; [done|]. by rewrite E.
Qed.

Lemma ig_default_settles : settles (ig_default ig).
Proof.
  intros x full. unfold ig_default.
  destruct (full && negb (bool_decide (x = DF_Missing)) || default_references ig x) eqn:E; cbn.
  - destruct full; cbn; [|done]. by rewrite bool_decide_false.
  - by rewrite E.
Qed.

Lemma ig_descriptor_settles : settles (ig_descriptor ig).
Proof.
  intros x full. unfold ig_descriptor.
  destruct (full || is_some_and (value_references ig) (df_descriptor_type x)
     || existsb (ig_identity ig) (descriptor_accessors x)) eqn:E; cbn [fst snd].
  - by destruct full.
  - by rewrite E.
Qed.

Lemma ig_parameter_settles : settles (ig_parameter ig).
Proof.
  intros [n k t o d] full. cbn.
  destruct (ig_value_settles t full) as [-> V2], (ig_default_settles d full) as [-> D2].
  split; [done|]. rewrite !orb_true_iff. tauto.
Qed.

Lemma ig_parameters_settle ps full :
  let out := map (fun p => ig_parameter ig p full) ps in
  let out2 := map (fun p => ig_parameter ig p full) (map fst out) in
  map fst out2 = map fst out /\ (existsb snd out2 = true -> existsb snd out = true).
Proof.
  induction ps as [|p ps [IH1 IH2]]; cbn [map existsb]; [done|].
  destruct (ig_parameter_settles p full) as [P1 P2]. split; [by rewrite P1, IH1|].
  rewrite !orb_true_iff. tauto.
Qed.

Lemma ig_signature_settles : settles (ig_signature ig).
Proof.
  intros [ps r o u] full. cbn.
  destruct (ig_value_settles r full) as [-> V2], (ig_parameters_settle ps full) as [-> P2].
  split; [f_equal; apply add_ignored_twice|]; rewrite !orb_true_iff; tauto.
Qed.

Lemma if_twice {A} (b : bool) (x y : A) : (if b then x else if b then x else y) = if b then x else y.
Proof. by destruct b. Qed.

Lemma demote_global_twice b : demote_global ig (demote_global ig b) = demote_global ig b.
Proof.
  unfold demote_global. destruct b as [n m t d u]; cbn.
  set (full := ig_whole_module ig || _). destruct (ig_value_settles t full) as [-> V2].
  f_equal. by apply add_ignored_twice.
Qed.

Lemma demote_field_twice full f :
  demote_field ig full (demote_field ig full f) = demote_field ig full f.
Proof.
  unfold demote_field. destruct f; cbn. set (ff := full || _ || _).
  destruct (ig_value_settles ft_value_type ff) as [-> V2].
  destruct (ig_default_settles ft_default ff) as [-> D2].
  destruct (ig_descriptor_settles ft_descriptor ff) as [-> C2].
  rewrite !if_twice. f_equal. apply add_ignored_twice. rewrite !orb_true_iff. tauto.
Qed.

Lemma demote_method_twice full m :
  demote_method ig full (demote_method ig full m) = demote_method ig full m.
Proof.
  unfold demote_method. destruct m; cbn.
  destruct (ig_signature_settles mt_signature full) as [-> V2].
  rewrite if_twice. f_equal. by apply add_ignored_twice.
Qed.

Lemma demote_member_twice full m :
  demote_member ig full (demote_member ig full m) = demote_member ig full m.
Proof.
  unfold demote_member. destruct m; cbn.
  destruct (ig_value_settles cm_value_type full) as [-> V2].
  destruct (ig_descriptor_settles cm_descriptor full) as [-> C2].
  rewrite if_twice. f_equal. apply add_ignored_twice. rewrite !orb_true_iff. tauto.
Qed.

Lemma demote_function_twice f : demote_function ig (demote_function ig f) = demote_function ig f.
Proof.
  unfold demote_function. destruct f; cbn.
  destruct (ig_signature_settles fn_signature (ig_identity ig fn_identity)) as [-> V2].
  f_equal. by apply add_ignored_twice.
Qed.

Lemma map_twice {A} (f : A -> A) l : (forall x, f (f x) = f x) -> map f (map f l) = map f l.
Proof. intros H. rewrite map_map. by apply map_ext. Qed.

Lemma demote_class_twice c : demote_class ig (demote_class ig c) = demote_class ig c.
Proof.
  unfold demote_class. destruct c; cbn.
  rewrite !map_twice by auto using demote_field_twice, demote_method_twice, demote_member_twice.
  destruct (ig_identity ig ct_identity); [|done]. cbn. f_equal; [|apply bset_insert_twice].
  destruct ct_participation; cbn; [done|]. f_equal. apply bset_insert_twice.
Qed.

Lemma demote_attribute_site_twice s :
  demote_attribute_site ig (demote_attribute_site ig s) = demote_attribute_site ig s.
Proof.
  unfold demote_attribute_site at 2 3. destruct (attribute_site_affected ig s) eqn:E.
  - unfold demote_attribute_site.
    match goal with |- (if ?b then _ else _) = _ => destruct b; [|done] end.
    cbn. rewrite bset_insert_twice. by destruct (asf_value_type s).
  - unfold demote_attribute_site. by rewrite E.
Qed.

(** A fully lowered signature references no ignored definition. *)
Lemma ig_value_no_ref t full : value_references ig (ig_value ig t full).1 = false.
Proof. unfold ig_value. destruct (full || value_references ig t) eqn:E; cbn; [done|]. by bool_inv. Qed.

Lemma ig_default_no_ref d full : default_references ig (ig_default ig d full).1 = false.
Proof.
  unfold ig_default. destruct (_ || default_references ig d) eqn:E; cbn; [done|]. by bool_inv.
Qed.

Lemma ig_signature_no_ref s full : signature_references ig (ig_signature ig s full).1 = false.
Proof.
  destruct s as [ps r o u]. cbn. rewrite ig_value_no_ref. cbn.
  induction ps as [|[n k t o' d] ps IH]; cbn; [done|].
  by rewrite ig_value_no_ref, ig_default_no_ref, IH.
Qed.

Lemma ig_descriptor_no_ref d full :
  let d' := (ig_descriptor ig d full).1 in
  is_some_and (value_references ig) (df_descriptor_type d') = false /\
  existsb (ig_identity ig) (descriptor_accessors d') = false.
Proof.
  unfold ig_descriptor.
  destruct (full || _ || existsb (ig_identity ig) (descriptor_accessors d)) eqn:E; cbn [fst]; [done|].
  by bool_inv.
Qed.

Lemma demote_call_site_twice s :
  demote_call_site ig (demote_call_site ig s) = demote_call_site ig s.
Proof.
  unfold demote_call_site at 2 3. destruct (call_site_affected ig s) eqn:E.
  - unfold demote_call_site.
    match goal with |- (if ?b then _ else _) = _ => destruct b; [|done] end.
    cbn -[ig_signature]. destruct (ig_signature_settles (cs_signature s) true) as [-> _].
    f_equal. destruct (cs_receiver s) as [[t u]|]; cbn; [|done].
    unfold demote_receiver. cbn. by rewrite bset_insert_twice.
  - unfold demote_call_site. by rewrite E.
Qed.
End lowering_twice.

(** ** Demotion as a whole *)

(** Demotion does not touch what the ignored set is computed from. *)
Lemma class_affected_demote ig ig' c : class_affected ig' (demote_class ig c) = class_affected ig' c.
Proof.
  unfold class_affected, demote_class. cbn. rewrite existsb_map. cbn.
  by destruct (ig_identity ig (ct_identity c)).
Qed.

Lemma function_affected_demote ig ig' f :
  function_affected ig' (demote_function ig f) = function_affected ig' f.
Proof. reflexivity. Qed.

Lemma map_filter_map {A B} (p : A -> B) (q : A -> bool) (g : A -> A) l :
  (forall x, p (g x) = p x) -> (forall x, q (g x) = q x) ->
  map p (List.filter q (map g l)) = map p (List.filter q l).
Proof.
  intros Hp Hq. induction l as [|x l IH]; cbn; [done|]. rewrite Hq.
  destruct (q x); cbn; [by rewrite Hp, IH|done].
Qed.

Lemma ignore_step_demote ig facts ig' :
  ignore_step (demote_records ig facts) ig' = ignore_step facts ig'.
Proof.
  unfold ignore_step, ignore_added. cbn. rewrite !map_filter_map; try done.
  intros c. apply class_affected_demote.
Qed.

Lemma ignore_diagnostic_demote ig facts ig' d :
  ignore_diagnostic (demote_records ig facts) ig' d = ignore_diagnostic facts ig' d.
Proof. unfold ignore_diagnostic. cbn. rewrite !map_map. done. Qed.

Lemma fold_left_ext {A B} (f g : A -> B -> A) l a :
  (forall a b, f a b = g a b) -> fold_left f l a = fold_left g l a.
Proof. intros H. revert a. induction l; intros a'; cbn; [done|]. by rewrite H. Qed.

Lemma ignored_definitions_demote ig facts :
  ignored_definitions (demote_records ig facts) = ignored_definitions facts.
Proof.
  unfold ignored_definitions, ignore_seed. cbn [mtf_classes mtf_functions demote_records].
  rewrite !length_map. cbn [mtf_diagnostics mtf_module demote_records].
  rewrite (fold_left_ext _ (ignore_diagnostic facts)) by (intros; apply ignore_diagnostic_demote).
  generalize (fold_left (ignore_diagnostic facts)
    (List.filter sd_suppressed (mtf_diagnostics facts))
    (mkIgnoredDefinitions (mtf_module facts) false [])).
  generalize (S (length (mtf_classes facts) + length (mtf_functions facts))).
  induction n as [|n IH]; intros seed; cbn [ignore_loop]; [done|].
  by rewrite ignore_step_demote, IH.
Qed.

Lemma filter_twice {A} (p : A -> bool) l : List.filter p (List.filter p l) = List.filter p l.
Proof. induction l as [|x l IH]; cbn; [done|]. destruct (p x) eqn:E; cbn; rewrite ?E, IH; done. Qed.

Lemma demote_records_twice ig facts :
  demote_records ig (demote_records ig facts) = demote_records ig facts.
Proof.
  unfold demote_records. cbn. f_equal.
  - apply map_twice, demote_global_twice.
  - apply map_twice, demote_class_twice.
  - apply map_twice, demote_function_twice.
  - apply filter_twice.
  - apply map_twice, demote_attribute_site_twice.
  - apply map_twice, demote_call_site_twice.
Qed.

Lemma demote_twice facts :
  demote_suppressed_regions (demote_suppressed_regions facts) = demote_suppressed_regions facts.
Proof.
  unfold demote_suppressed_regions at 2 3.
  destruct (existsb sd_suppressed (mtf_diagnostics facts)) eqn:E;
    unfold demote_suppressed_regions; cbn [mtf_diagnostics demote_records]; rewrite E; [|done].
  by rewrite ignored_definitions_demote, demote_records_twice.
Qed.

(** demoting suppressed regions is idempotent, so the encoder's result passes
    the verifier's check that no suppressed region keeps a precise proposal. *)
Theorem demote_suppressed_regions_idempotent facts :
  demote_suppressed_regions (demote_suppressed_regions facts) = demote_suppressed_regions facts.
Proof. apply demote_twice. Qed.

(** ** No precise proposal mentions an ignored definition *)

(** What the demoted records of a module may still say.  No type, default, signature, accessor,
    call target or nominal binding in them mentions an ignored definition, and what belongs to an
    ignored definition is unknown altogether. *)
Definition descriptor_lowered (ig : IgnoredDefinitions) (d : DescriptorFact) : Prop :=
  is_some_and (value_references ig) (df_descriptor_type d) = false /\
  Forall (fun accessor => ig_identity ig accessor = false) (descriptor_accessors d).
Definition signature_unknown (s : CallableSignature) : Prop :=
  sig_return_type s = ST_Unknown /\ Forall (fun p => par_value_type p = ST_Unknown) (sig_parameters s).

Definition field_lowered (ig : IgnoredDefinitions) (full : bool) (f : FieldTypeFact) : Prop :=
  value_references ig (ft_value_type f) = false /\ default_references ig (ft_default f) = false /\
  descriptor_lowered ig (ft_descriptor f) /\
  (full || ig_identity ig (cr_definition (ft_declaring_class f))
     || is_some_and (ig_identity ig) (ft_annotation_definition f) = true ->
   ft_value_type f = ST_Unknown /\ ft_field_kind f = FldK_Dynamic /\ ft_read_policy f = FRP_PythonAttribute /\
   ft_write_policy f = FWP_Dynamic /\ ft_initialization f = IP_Unknown /\ UR_IgnoredDiagnostic ∈ ft_uncertainty f).
Definition method_lowered (ig : IgnoredDefinitions) (full : bool) (m : MethodTypeFact) : Prop :=
  signature_references ig (mt_signature m) = false /\
  (full = true -> signature_unknown (mt_signature m) /\ mt_override_policy m = OP_Dynamic).
Definition member_lowered (ig : IgnoredDefinitions) (full : bool) (m : ClassMemberFact) : Prop :=
  value_references ig (cm_value_type m) = false /\ descriptor_lowered ig (cm_descriptor m) /\
  (full = true -> cm_value_type m = ST_Unknown /\ cm_kind m = CMK_Dynamic).

Definition class_lowered (ig : IgnoredDefinitions) (c : ClassTypeFact) : Prop :=
  let full := ig_identity ig (ct_identity c) in
  (full = true ->
    (exists reasons, ct_participation c = PP_Dynamic reasons /\ DCR_IgnoredDiagnostic ∈ reasons) /\
    ct_dictionary c = CDS_Unknown /\ inh_complete (ct_inheritance c) = false /\
    ct_openness c = CO_Unknown /\ UR_IgnoredDiagnostic ∈ ct_uncertainty c) /\
  Forall (field_lowered ig full) (ct_instance_fields c) /\
  Forall (method_lowered ig full) (ct_methods c) /\
  Forall (member_lowered ig full) (ct_class_members c).

Definition call_site_lowered (ig : IgnoredDefinitions) (s : CallSiteFact) : Prop :=
  is_some_and (fun r => value_references ig (rt_value_type r)) (cs_receiver s) = false /\
  existsb (target_references ig) (cs_candidate_targets s) = false /\
  signature_references ig (cs_signature s) = false /\
  value_references ig (cs_result_type s) = false /\
  (ig_identity ig (csi_enclosing_function (cs_identity s)) = true ->
    cs_candidate_targets s = [CTF_Dynamic] /\ cs_binding s = CBF_Dynamic /\ cs_result_type s = ST_Unknown /\
    signature_unknown (cs_signature s) /\ cs_uncertainty s = CU_Dynamic).

Definition attribute_site_lowered (ig : IgnoredDefinitions) (s : AttributeSiteFact) : Prop :=
  value_references ig (asf_receiver_type s) = false /\
  is_some_and (value_references ig) (asf_value_type s) = false /\
  is_some_and (fun c => ig_identity ig (cr_definition c)) (asf_declaring_class s) = false /\
  (ig_identity ig (asi_enclosing_function (asf_identity s)) = true ->
    asf_receiver_type s = ST_Unknown /\ (forall t, asf_value_type s = Some t -> t = ST_Unknown) /\
    asf_declaring_class s = None /\ UR_IgnoredDiagnostic ∈ asf_uncertainty s).

Definition owner_lowered (ig : IgnoredDefinitions) (o : NominalBindingOwner) : Prop :=
  match o with
  | NBO_Function function _ => ig_identity ig function = false
  | NBO_Field field =>
      ig_identity ig (cr_definition (fr_declaring_class field)) = false /\
      ig_identity ig (fr_annotation_definition field) = false
  end.
Definition nominal_lowered (ig : IgnoredDefinitions) (b : NominalBindingFact) : Prop :=
  owner_lowered ig (nb_owner b) /\ ig_identity ig (cr_definition (nb_class b)) = false /\
  ig_identity ig (nb_binding b) = false /\ ig_identity ig (nb_binding_scope b) = false.

Definition facts_lowered (ig : IgnoredDefinitions) (facts : ModuleTypeFacts) : Prop :=
  Forall (fun b => value_references ig (gb_value_type b) = false /\
    (ig_whole_module ig || is_some_and (ig_identity ig) (gb_definition b) = true ->
     gb_value_type b = ST_Unknown /\ UR_IgnoredDiagnostic ∈ gb_uncertainty b)) (mtf_global_bindings facts) /\
  Forall (class_lowered ig) (mtf_classes facts) /\
  Forall (fun f => signature_references ig (fn_signature f) = false /\
    (ig_identity ig (fn_identity f) = true -> signature_unknown (fn_signature f))) (mtf_functions facts) /\
  Forall (nominal_lowered ig) (mtf_nominal_bindings facts) /\
  Forall (attribute_site_lowered ig) (mtf_attribute_sites facts) /\
  Forall (call_site_lowered ig) (mtf_call_sites facts).

Lemma Forall_map_all {A B} (f : A -> B) (P : B -> Prop) l : (forall x, P (f x)) -> Forall P (map f l).
Proof. intros H. induction l; constructor; auto. Qed.

Lemma ig_signature_full ig s : signature_unknown (ig_signature ig s true).1.
Proof.
  destruct s as [ps r o u]. split; [done|]. cbn. rewrite map_map. apply Forall_map_all. by intros [n k t o' d].
Qed.
Lemma ig_descriptor_lowered ig d full : descriptor_lowered ig (ig_descriptor ig d full).1.
Proof.
  destruct (ig_descriptor_no_ref ig d full) as [H1 H2]. split; [done|]. apply Forall_forall. intros x Hx.
  rewrite existsb_false_elem in H2. by apply H2.
Qed.
Lemma ignored_added u : UR_IgnoredDiagnostic ∈ add_ignored u true.
Proof. apply elem_of_bset_insert. by left. Qed.
Lemma demote_field_lowered ig full f : field_lowered ig full (demote_field ig full f).
Proof.
  unfold field_lowered, demote_field. cbn. split_and!; [apply ig_value_no_ref|apply ig_default_no_ref|apply ig_descriptor_lowered|].
  intros ->. split_and!; try done. apply ignored_added.
Qed.
Lemma demote_class_lowered ig c : class_lowered ig (demote_class ig c).
Proof.
  unfold class_lowered, demote_class. cbn. split_and!.
  - intros ->. split; [|repeat split; by apply elem_of_bset_insert; left].
    destruct (ct_participation c); eexists; (split; [reflexivity|]); [set_solver|].
    apply elem_of_bset_insert. by left.
  - apply Forall_map_all, demote_field_lowered.
  - apply Forall_map_all. intros m. split; [apply ig_signature_no_ref|]. cbn. intros ->. split; [apply ig_signature_full|done].
  - apply Forall_map_all. intros m. split_and!; [apply ig_value_no_ref|apply ig_descriptor_lowered|]. cbn. by intros ->.
Qed.

Lemma demote_call_site_lowered ig s : call_site_lowered ig (demote_call_site ig s).
Proof.
  unfold demote_call_site. destruct (call_site_affected ig s) eqn:E.
  - unfold call_site_lowered. cbn -[ig_signature]. rewrite ig_signature_no_ref.
    split_and!; try done; [by destruct (cs_receiver s)|]. intros _. split_and!; try done; apply ig_signature_full.
  - unfold call_site_affected in E. bool_inv. unfold call_site_lowered. split_and!; try done; intros; exfalso; congruence.
Qed.

Lemma demote_attribute_site_lowered ig s : attribute_site_lowered ig (demote_attribute_site ig s).
Proof.
  unfold demote_attribute_site. destruct (attribute_site_affected ig s) eqn:E.
  - unfold attribute_site_lowered. cbn. split_and!; [done|by destruct (asf_value_type s)|done|]. intros _. split_and!; try done.
    + intros t. destruct (asf_value_type s); congruence.
    + apply elem_of_bset_insert. by left.
  - unfold attribute_site_affected in E. bool_inv. unfold attribute_site_lowered. split_and!; try done; intros; exfalso; congruence.
Qed.

Lemma keep_nominal_lowered ig b : keep_nominal ig b = true -> nominal_lowered ig b.
Proof.
  unfold keep_nominal, nominal_lowered, owner_lowered. intros H. bool_inv. split_and!; try done.
  destruct (nb_owner b); by bool_inv.
Qed.

(** C11: once a suppressed diagnostic exists, the demoted facts contain no value type, default,
    signature, descriptor type or accessor, receiver, call target or nominal binding (its owner
    included) that mentions an ignored definition; ignored classes are dynamic with unknown members,
    ignored functions have unknown signatures, and the sites inside ignored definitions are dynamic. *)
Theorem demote_suppressed_regions_lowered facts :
  existsb sd_suppressed (mtf_diagnostics facts) = true ->
  facts_lowered (ignored_definitions facts) (demote_suppressed_regions facts).
Proof.
  intros E. unfold demote_suppressed_regions. rewrite E.
  set (ig := ignored_definitions facts). unfold facts_lowered, demote_records. cbn. split_and!.
  - apply Forall_map_all. intros b. split; [apply ig_value_no_ref|]. cbn. intros ->. split; [done|apply ignored_added].
  - apply Forall_map_all, demote_class_lowered.
  - apply Forall_map_all. intros f. split; [apply ig_signature_no_ref|]. cbn. intros ->. apply ig_signature_full.
  - apply Forall_forall. intros b Hb. apply elem_of_filter_bool in Hb as [_ Hb].
    by apply keep_nominal_lowered.
  - apply Forall_map_all, demote_attribute_site_lowered.
  - apply Forall_map_all, demote_call_site_lowered.
Qed.

(** ** What demotion keeps *)

Lemma ig_value_id ig t : value_references ig t = false -> ig_value ig t false = (t, false).
Proof. unfold ig_value. by intros ->. Qed.
Lemma ig_default_id ig d : default_references ig d = false -> ig_default ig d false = (d, false).
Proof. unfold ig_default. by intros ->. Qed.
Lemma ig_descriptor_id ig d :
  is_some_and (value_references ig) (df_descriptor_type d) = false ->
  existsb (ig_identity ig) (descriptor_accessors d) = false ->
  ig_descriptor ig d false = (d, false).
Proof. unfold ig_descriptor. by intros -> ->. Qed.

Lemma ig_signature_id ig s : signature_references ig s = false -> ig_signature ig s false = (s, false).
Proof.
  destruct s as [ps r o u]. cbn. intros [Hr Hps]%orb_false_iff. rewrite ig_value_id by done.
  assert (map (fun p => ig_parameter ig p false) ps = map (fun p => (p, false)) ps) as ->.
  { apply map_ext_in. intros p Hp. rewrite existsb_false_elem in Hps.
    specialize (Hps p ltac:(by apply list_elem_of_In)). destruct p as [n k t o' d].
    cbn in *. bool_inv. by rewrite ig_value_id, ig_default_id. }
  rewrite map_map, map_id, existsb_map. cbn.
  assert (existsb (fun _ : ParameterTypeFact => false) ps = false) as ->
    by (by apply existsb_false_elem).
  done.
Qed.

(** A class none of whose own facts mention an ignored definition. *)
Definition class_unaffected (ig : IgnoredDefinitions) (c : ClassTypeFact) : Prop :=
  ig_identity ig (ct_identity c) = false /\
  Forall (fun f => ig_identity ig (cr_definition (ft_declaring_class f)) = false /\
    is_some_and (ig_identity ig) (ft_annotation_definition f) = false /\
    value_references ig (ft_value_type f) = false /\
    default_references ig (ft_default f) = false /\
    is_some_and (value_references ig) (df_descriptor_type (ft_descriptor f)) = false /\
    existsb (ig_identity ig) (descriptor_accessors (ft_descriptor f)) = false)
    (ct_instance_fields c) /\
  Forall (fun m => signature_references ig (mt_signature m) = false) (ct_methods c) /\
  Forall (fun m => value_references ig (cm_value_type m) = false /\
    is_some_and (value_references ig) (df_descriptor_type (cm_descriptor m)) = false /\
    existsb (ig_identity ig) (descriptor_accessors (cm_descriptor m)) = false)
    (ct_class_members c).

Lemma demote_class_unaffected ig c : class_unaffected ig c -> demote_class ig c = c.
Proof.
  intros (Hi & Hf & Hm & Hc). unfold demote_class. rewrite Hi.
  rewrite (map_id_Forall (demote_field ig false)), (map_id_Forall (demote_method ig false)),
    (map_id_Forall (demote_member ig false)); [by destruct c|..].
  - eapply List.Forall_impl; [|exact Hc]. intros m (H1 & H2 & H3).
    unfold demote_member. rewrite ig_value_id, ig_descriptor_id by done. by destruct m.
  - eapply List.Forall_impl; [|exact Hm]. intros m H1.
    unfold demote_method. rewrite ig_signature_id by done. by destruct m.
  - eapply List.Forall_impl; [|exact Hf]. intros f (H1 & H2 & H3 & H4 & H5 & H6).
    unfold demote_field. rewrite H1, H2. cbn [orb].
    rewrite ig_value_id, ig_default_id, ig_descriptor_id by done. by destruct f.
Qed.

(** demotion keeps every source identity, the policy, the dependencies and
    the diagnostics, and a class that mentions no ignored definition keeps all
    of its facts: unrelated classes do not lose their eligibility. *)
Theorem demote_suppressed_regions_preserves facts c :
  c ∈ mtf_classes facts -> class_unaffected (ignored_definitions facts) c ->
  let facts' := demote_suppressed_regions facts in
  c ∈ mtf_classes facts' /\
  map ct_identity (mtf_classes facts') = map ct_identity (mtf_classes facts) /\
  map fn_identity (mtf_functions facts') = map fn_identity (mtf_functions facts) /\
  map gb_name (mtf_global_bindings facts') = map gb_name (mtf_global_bindings facts) /\
  mtf_module facts' = mtf_module facts /\ mtf_language_policy facts' = mtf_language_policy facts /\
  mtf_consumed_dependencies facts' = mtf_consumed_dependencies facts /\
  mtf_diagnostics facts' = mtf_diagnostics facts.
Proof.
  intros Hc Hu. cbn zeta. unfold demote_suppressed_regions.
  destruct (existsb sd_suppressed (mtf_diagnostics facts)); [|by repeat split].
  cbn. rewrite !map_map. repeat split.
  apply elem_of_map. exists c. split; [|done]. symmetry. by apply demote_class_unaffected.
Qed.

(** ** A module with a suppressed region

    Two classes, [A] in bytes 0..20 and [B] in bytes 30..50; a suppressed
    diagnostic inside [A]. *)
Module Sample.
Definition content : ModuleContentId := mkModuleContentId "pkg.mod" 5.
Definition digest : Fingerprint := mkFingerprint (repeat Byte.x00 32).
Definition class_at (name : string) (first last : Z) : SourceIdentity :=
  mkSourceIdentity content name (mkSourceRange first last) DK_Class.
Definition class_fact (identity : SourceIdentity) : ClassTypeFact :=
  mkClassTypeFact identity [] MF_BuiltinType [] PP_Candidate CDS_DictionaryBearing [] [] []
    (mkInheritanceFact [] true) CO_OpenSubclassFamily None [].
Definition class_a : ClassTypeFact := class_fact (class_at "A" 0 20).
Definition class_b : ClassTypeFact := class_fact (class_at "B" 30 50).
Definition ignored_in_a : StrictDiagnostic :=
  mkStrictDiagnostic DC_CheckerError DS_Error (mkSourceRange 5 9) (DSc_Site (mkSourceRange 5 9))
    [] true "ignored".
Definition global_a : GlobalBindingFact :=
  mkGlobalBindingFact "a" GM_FinalAfterSeal
    (ST_NominalClass (mkClassReference (ct_identity class_a) digest)) None [].
Definition facts : ModuleTypeFacts :=
  mkModuleTypeFacts ARTIFACT_SCHEMA_VERSION content digest 60 SD_SoacStrict
    (mkResolvedStrictPolicy true true []) [] [global_a] [class_a; class_b] [] [] [] []
    [ignored_in_a].
End Sample.

Lemma demote_suppressed_regions_lowered_witness :
  existsb sd_suppressed (mtf_diagnostics Sample.facts) = true /\
  facts_lowered (ignored_definitions Sample.facts) (demote_suppressed_regions Sample.facts).
Proof.
  split; [reflexivity|]. apply demote_suppressed_regions_lowered. reflexivity.
Defined.

Lemma demote_suppressed_regions_preserves_witness :
  Sample.class_b ∈ mtf_classes (demote_suppressed_regions Sample.facts) /\
  map gb_value_type (mtf_global_bindings (demote_suppressed_regions Sample.facts)) = [ST_Unknown].
Proof.
  split; [|vm_compute; reflexivity].
  apply (demote_suppressed_regions_preserves Sample.facts Sample.class_b).
  - apply list_elem_of_In. right. left. reflexivity.
  - split; [vm_compute; reflexivity|]. repeat split; constructor.
Defined.
