(* ===== verification/Validation.v ===== *)
(** * Validation of module facts ([soac_contracts/src/validation.rs])

    The lexical checks on names, ranges and literals, the [Context] of
    [validate_module_facts] with one definition per method ([ctx_site] is
    [Context::site]), and [validate_module_facts] itself.  [Fingerprint::digest]
    (SHA-256, outside the repository) is the parameter [digest].  A Rust
    [return structure(m)] guarded by [c] is [reject c m]. *)

From S2P Require Import Prelude Order Collections Text Identity StaticTypes Normalize.
From S2P Require Import Facts Diagnostics.

Definition structure {A} (message : string) : Result A := Err (InvalidStructure message).

(** [if c { return structure(m) }]. *)
Definition reject (c : bool) (message : string) : Result unit :=
  ensure (negb c) (InvalidStructure message).

(** ** Lexical checks *)

Definition validate_name (name : string) : Result unit :=
  reject (bool_decide (name = EmptyString) || (4096 <? str_len name)%Z
          || existsb (fun c => is_control c || (c =? 47) || (c =? 92) || (c =? 46))%Z (chars name))
    "invalid member or parameter name".

Definition validate_module_name (name : string) : Result unit :=
  ensure (negb ((4096 <? str_len name)%Z
                || existsb (fun component => negb (is_ok (validate_name component)))
                     (str_split "."%char name)))
    (InvalidSourceIdentity "invalid canonical module name").

Definition validate_qualname (name : string) : Result unit :=
  ensure (negb (bool_decide (name = EmptyString) || (16384 <? str_len name)%Z
                || existsb is_control (chars name)))
    (InvalidSourceIdentity "invalid lexical qualified name").

Definition validate_range (range : SourceRange) (source_size : Z) : Result unit :=
  ensure (negb ((sr_end range <? sr_start range)%Z || (source_size <? sr_end range)%Z))
    (InvalidSourceIdentity "byte range is outside its source").

Definition range_is_empty (range : SourceRange) : bool := (sr_start range =? sr_end range)%Z.

Definition validate_definition_range (identity : SourceIdentity) : Result unit :=
  ensure (negb (negb (bool_decide (si_definition_kind identity = DK_Module))
                && range_is_empty (si_source_range identity)))
    (InvalidSourceIdentity "source definition has an empty range").

Definition is_ascii_digit (b : byte) : bool := in_range 48 57 b.

Definition validate_literal (literal : LiteralValue) : Result unit :=
  match literal with
  | LV_Int value =>
      let digits := default value (strip_prefix "-" value) in
      ensure (negb (bool_decide (digits = EmptyString)
                    || negb (forallb is_ascii_digit (bytes_of digits))
                    || ((1 <? str_len digits)%Z && starts_with "0" digits)
                    || bool_decide (value = "-0"%string)))
        (InvalidType "integer literal is not canonical decimal")
  | _ => Ok tt
  end.

Fixpoint contains_nominal_class (value_type : StaticType) (class : ClassReference) : bool :=
  match value_type with
  | ST_NominalClass reference | ST_ExactClass reference => bool_decide (reference = class)
  | ST_Union elements => existsb (fun element => contains_nominal_class element class) elements
  | ST_Optional element => contains_nominal_class element class
  | _ => false
  end.

(** ** Dependencies ([artifact.rs]) *)

Definition dependency_name (dependency : DependencyFingerprint) : string :=
  mci_module_name (dep_module dependency).

Definition canonicalize_dependencies (dependencies : list DependencyFingerprint) :
    list DependencyFingerprint :=
  sort_by (fun dependency => key (dependency_name dependency)) dependencies.

Definition validate_dependencies (dependencies : list DependencyFingerprint) (owner : string) :
    Result unit :=
  for_unique
    (fun dependency =>
       do? validate_module_name (dependency_name dependency);
       reject (bool_decide (dependency_name dependency = owner))
         "a shard must not list itself as an external dependency")
    dependency_name
    (fun dependency => DependencyMismatch (dependency_name dependency))
    (fun _ => Ok tt)
    dependencies.

(** ** [Context] *)

Record ValidationContext : Type := mkContext {
  ctx_facts : ModuleTypeFacts;
  ctx_source : option (list byte);
  ctx_definitions : list SourceIdentity;
  ctx_classes : list (SourceIdentity * ClassTypeFact);
  ctx_functions : list SourceIdentity;
  ctx_dependencies : list (string * DependencyFingerprint);
}.

Section context.
Context (self : ValidationContext).
Local Abbreviation facts := (ctx_facts self).

Definition ctx_local_range (range : SourceRange) : Result unit :=
  do? validate_range range (mtf_source_size facts);
  if_some (fun source =>
    ensure (negb (negb (is_char_boundary source (sr_start range))
                  || negb (is_char_boundary source (sr_end range))))
      (InvalidSourceIdentity "source range splits a UTF-8 code point"))
    (ctx_source self).

Definition ctx_local_definition (identity : SourceIdentity) : Result unit :=
  do? ensure (bool_decide (si_module identity = mtf_module facts))
    (InvalidSourceIdentity "source definition belongs to a different module");
  do? validate_qualname (si_lexical_qualname identity);
  do? ctx_local_range (si_source_range identity);
  validate_definition_range identity.

Definition ctx_reference (identity : SourceIdentity) : Result unit :=
  do? validate_qualname (si_lexical_qualname identity);
  do? validate_definition_range identity;
  if bool_decide (si_module identity = mtf_module facts) then
    do? ctx_local_range (si_source_range identity);
    ensure (bset_contains identity (ctx_definitions self))
      (InvalidSourceIdentity ("unresolved local definition " +:+ si_lexical_qualname identity))
  else
    let name := mci_module_name (si_module identity) in
    let? dependency := ok_or (DependencyMismatch name) (bmap_get name (ctx_dependencies self)) in
    do? ensure (bool_decide (si_module identity = dep_module dependency))
      (DependencyMismatch name);
    validate_range (si_source_range identity) (dep_source_size dependency).

Definition ctx_source_digest (module : ModuleContentId) (digest : Fingerprint) : Result unit :=
  let? expected :=
    (if bool_decide (module = mtf_module facts) then Ok (mtf_source_digest facts)
     else
       match bmap_get (mci_module_name module) (ctx_dependencies self) with
       | Some dependency =>
           if bool_decide (dep_module dependency = module)
           then Ok (dep_source_digest dependency)
           else Err (DependencyMismatch (mci_module_name module))
       | None => Err (DependencyMismatch (mci_module_name module))
       end) in
  ensure (bool_decide (expected = digest)) (SourceMismatch (mci_module_name module)).

Definition ctx_class_reference (class : ClassReference) : Result unit :=
  do? reject (negb (bool_decide (si_definition_kind (cr_definition class) = DK_Class)))
    "class reference must identify a class definition";
  do? ctx_reference (cr_definition class);
  ctx_source_digest (si_module (cr_definition class)) (cr_source_digest class).

Definition ctx_function_reference (identity : SourceIdentity) : Result unit :=
  do? reject (negb (is_function_kind (si_definition_kind identity)))
    "callable implementation must identify a source function";
  do? ctx_reference identity;
  reject (bool_decide (si_module identity = mtf_module facts)
          && negb (bset_contains identity (ctx_functions self)))
    "function reference has no function facts".

Definition ctx_site (module : ModuleContentId) (source_digest : Fingerprint)
    (enclosing : SourceIdentity) (range : SourceRange) : Result unit :=
  do? reject (negb (bool_decide (module = mtf_module facts))
              || negb (bool_decide (si_module enclosing = mtf_module facts)))
    "site and enclosing definition must belong to their shard";
  do? ctx_source_digest module source_digest;
  do? ctx_reference enclosing;
  do? reject (negb (match si_definition_kind enclosing with
                    | DK_Module | DK_Class | DK_Function | DK_Lambda => true
                    | _ => false
                    end))
    "site must have a source execution owner";
  do? ctx_local_range range;
  reject (range_is_empty range || negb (range_contains (si_source_range enclosing) range))
    "expression range is not inside its enclosing definition".

(** The [NumericWidening] arm of [static_type]. *)
Definition ctx_numeric_widening (target : BuiltinType) (accepted : list BuiltinType) :
    Result unit :=
  let? expected :=
    (match target with
     | BT_Float => Ok (bset_of_list [BT_Int; BT_Float])
     | BT_Complex => Ok (bset_of_list [BT_Int; BT_Float; BT_Complex])
     | _ => Err (InvalidType "unsupported numeric widening target")
     end) in
  ensure (bool_decide (accepted = expected))
    (InvalidType "numeric widening must preserve typing's acceptance set").

(** The [TypeVariable] arm of [static_type], before its bound and constraints. *)
Definition ctx_type_variable_binder (identity : SourceIdentity) : Result unit :=
  do? (if bool_decide (si_module identity = mtf_module facts)
       then ctx_local_definition identity
       else ctx_reference identity);
  reject (negb (match si_definition_kind identity with
                | DK_Parameter | DK_TypeAlias | DK_Assignment => true
                | _ => false
                end))
    "type variable requires a binder definition".

(** The loop variables of [signature]. *)
Record SignatureScan : Type := mkSignatureScan {
  scan_names : list string;
  scan_previous_kind : ParameterKind;
  scan_has_varargs : bool;
  scan_has_varkw : bool;
  scan_positional_default : bool;
}.
Definition signature_scan_start : SignatureScan :=
  mkSignatureScan [] PK_PositionalOnly false false false.

(** One iteration of [signature]'s loop up to the recursive checks. *)
Definition signature_scan_step (scan : SignatureScan) (name : string) (kind : ParameterKind)
    (has_default : bool) : Result SignatureScan :=
  do? validate_name name;
  do? reject (bset_contains name (scan_names scan)) "duplicate signature parameter";
  do? reject (ord_lt kind (scan_previous_kind scan))
    "signature parameters are not in Python binding order";
  let scan := mkSignatureScan (bset_insert name (scan_names scan)) kind (scan_has_varargs scan)
                (scan_has_varkw scan) (scan_positional_default scan) in
  match kind with
  | PK_VarArgs =>
      do? reject (scan_has_varargs scan || has_default) "invalid variadic positional parameter";
      Ok (mkSignatureScan (scan_names scan) kind true (scan_has_varkw scan)
            (scan_positional_default scan))
  | PK_VarKeywords =>
      do? reject (scan_has_varkw scan || has_default) "invalid variadic keyword parameter";
      Ok (mkSignatureScan (scan_names scan) kind (scan_has_varargs scan) true
            (scan_positional_default scan))
  | PK_PositionalOnly | PK_PositionalOrKeyword =>
      do? reject (scan_positional_default scan && negb has_default)
        "required positional parameter follows a default";
      Ok (mkSignatureScan (scan_names scan) kind (scan_has_varargs scan) (scan_has_varkw scan)
            (scan_positional_default scan || has_default))
  | PK_KeywordOnly => Ok scan
  end.

Definition default_is_missing (default : DefaultFact) : bool :=
  match default with DF_Missing => true | _ => false end.

Fixpoint ctx_static_type (value : StaticType) (depth : nat) : Result unit :=
  if 64 <? depth then Err (InvalidType "type nesting exceeds 64")
  else
    match value with
    | ST_NominalClass class | ST_ExactClass class => ctx_class_reference class
    | ST_Union elements =>
        if bool_decide (elements = []) then Err (InvalidType "empty union")
        else for_each (fun element => ctx_static_type element (S depth)) elements
    | ST_Optional element => ctx_static_type element (S depth)
    | ST_Callable signature => ctx_signature signature (S depth)
    | ST_Literal literal => validate_literal literal
    | ST_TypeVariable variable => ctx_type_variable variable depth
    | ST_StructuralProtocol protocol => if_some ctx_class_reference (pf_definition protocol)
    | ST_NumericWidening target accepted => ctx_numeric_widening target accepted
    | ST_None | ST_ExactBuiltin _ | ST_NominalBuiltin _ _ | ST_Any | ST_Unknown | ST_Todo
    | ST_Divergent | ST_Unsupported _ _ => Ok tt
    end
with ctx_type_variable (variable : TypeVariableFact) (depth : nat) : Result unit :=
  match variable with
  | mkTypeVariableFact identity upper_bound constraints =>
      do? ctx_type_variable_binder identity;
      do? match upper_bound with
          | Some bound => ctx_static_type bound (S depth)
          | None => Ok tt
          end;
      for_each (fun constraint => ctx_static_type constraint (S depth)) constraints
  end
with ctx_signature (signature : CallableSignature) (depth : nat) : Result unit :=
  match signature with
  | mkCallableSignature parameters return_type _ _ =>
      if 64 <? depth then Err (InvalidType "signature nesting exceeds 64")
      else
        do? for_fold (fun scan parameter => ctx_parameter scan parameter depth)
              signature_scan_start parameters;
        ctx_static_type return_type (S depth)
  end
with ctx_parameter (scan : SignatureScan) (parameter : ParameterTypeFact) (depth : nat) :
    Result SignatureScan :=
  match parameter with
  | mkParameterTypeFact name kind value_type _ default =>
      let? scan := signature_scan_step scan name kind (negb (default_is_missing default)) in
      do? ctx_static_type value_type (S depth);
      do? ctx_default default (S depth);
      Ok scan
  end
with ctx_default (default : DefaultFact) (depth : nat) : Result unit :=
  match default with
  | DF_Value value_type literal =>
      do? ctx_static_type value_type (S depth);
      if_some validate_literal literal
  | DF_Factory implementation return_type =>
      do? if_some ctx_function_reference implementation;
      ctx_static_type return_type (S depth)
  | DF_Missing | DF_Unknown => Ok tt
  end.

Definition ctx_descriptor (descriptor : DescriptorFact) : Result unit :=
  do? if_some (fun value_type => ctx_static_type value_type 0) (df_descriptor_type descriptor);
  do? for_each ctx_function_reference (descriptor_accessors descriptor);
  do? reject (bool_decide (df_kind descriptor = DescK_None)
              && (is_some (df_getter descriptor) || is_some (df_setter descriptor)
                  || is_some (df_deleter descriptor)))
    "non-descriptor cannot name descriptor accessors";
  reject ((match df_kind descriptor with
           | DescK_NonData | DescK_StdlibCachedProperty => true
           | _ => false
           end) && (is_some (df_setter descriptor) || is_some (df_deleter descriptor)))
    "non-data descriptor cannot claim setter/deleter slots".

Definition ctx_decorator (decorator : DecoratorFact) : Result unit :=
  do? ctx_local_range (dec_expression_range decorator);
  do? match dec_definition decorator, dec_source_digest decorator with
      | Some identity, Some digest =>
          do? ctx_reference identity;
          ctx_source_digest (si_module identity) digest
      | None, None => Ok tt
      | _, _ => structure "decorator definition and source digest must be paired"
      end;
  for_each (fun argument : string * LiteralValue =>
    do? validate_name argument.1;
    validate_literal argument.2) (dec_arguments decorator).

Definition ctx_generated_function (generated : GeneratedFunctionFact) : Result unit :=
  do? ctx_class_reference (gf_class generated);
  do? validate_name (gf_name generated);
  if_some (fun class =>
    reject (match ct_transform class with
            | None => true
            | Some transform =>
                negb (bool_decide (ctr_kind transform = gf_transform generated))
                || negb (bset_contains (gf_name generated) (ctr_generated_methods transform))
            end)
      "generated function is absent from its class transform")
    (bmap_get (cr_definition (gf_class generated)) (ctx_classes self)).

(** ** [Context::class] *)

(** The base and MRO checks that open [class]. *)
Definition class_bases (class : ClassTypeFact) : Result unit :=
  let inheritance := ct_inheritance class in
  let linearized := inh_linearized_bases inheritance in
  do? for_unique (fun _ => Ok tt) id
        (fun _ => InvalidStructure "duplicate direct base or MRO entry") (fun _ => Ok tt)
        (ct_bases class);
  do? for_unique (fun _ => Ok tt) id
        (fun _ => InvalidStructure "duplicate direct base or MRO entry") (fun _ => Ok tt)
        linearized;
  do? reject (inh_complete inheritance
              && negb (bset_is_subset (bset_of_list (ct_bases class)) (bset_of_list linearized)))
    "complete logical MRO omits a direct base";
  do? reject (inh_complete inheritance
              && is_some_and (fun found : nat * BaseReference =>
                   negb (S found.1 =? length linearized))
                   (list_find (fun base => base = BR_Builtin BT_Object) linearized))
    "builtin object must terminate a complete logical MRO";
  for_each (fun base =>
    do? ctx_class_reference base;
    reject (bool_decide (cr_definition base = ct_identity class))
      "class must not appear in its own base list or MRO")
    (omap as_class (ct_bases class ++ linearized)).

Definition class_participation (class : ClassTypeFact) : Result unit :=
  match ct_participation class with
  | PP_Candidate =>
      do? ensure (checked_attributes (mtf_language_policy facts)
                    (si_source_range (ct_identity class)))
        (InvalidPolicy "a class opted out of checked_attr cannot propose participation");
      do? reject (negb (bool_decide (mtf_source_dialect facts = SD_SoacStrict))
                  || negb (bool_decide (ct_metaclass class = MF_BuiltinType))
                  || negb (inh_complete (ct_inheritance class)))
        "candidate participation requires selected checked_attr, builtin type, and resolved inheritance";
      do? reject (existsb (fun decorator =>
                    (match dec_kind decorator with
                     | DecK_Other | DecK_Unknown | DecK_DataclassTransform => true
                     | _ => false
                     end)
                    || negb (bool_decide (dec_uncertainty decorator = []))
                    || (bool_decide (dec_kind decorator = DecK_StdlibDataclass)
                        && negb (is_some (dec_definition decorator))))
                    (ct_decorators class))
        "unmodeled decorators must retain dynamic classification";
      do? reject (existsb (fun reason =>
                    match reason with
                    | UR_IgnoredDiagnostic | UR_DynamicDecorator | UR_DynamicMetaclass
                    | UR_UnsafeNarrowing => true
                    | _ => false
                    end) (ct_uncertainty class))
        "uncertain class provenance cannot propose participation";
      reject (is_some_and (fun transform =>
                negb (bool_decide (ctr_kind transform = TK_StdlibDataclass))) (ct_transform class))
        "unadapted framework transforms must remain dynamic"
  | PP_Dynamic reasons =>
      reject (bool_decide (reasons = [])) "dynamic classification must retain its reason"
  end.

Definition ctx_declaring_class (owner : ClassTypeFact) (declaring : ClassReference) :
    Result unit :=
  do? ctx_class_reference declaring;
  reject (negb (bool_decide (cr_definition declaring = ct_identity owner))
          && negb (existsb (fun base => bool_decide (as_class base = Some declaring))
                     (ct_bases owner ++ inh_linearized_bases (ct_inheritance owner))))
    "member's declaring class is outside its logical inheritance".

Definition ctx_field_annotation_definition (field : FieldTypeFact) : Result unit :=
  match ft_annotation_definition field with
  | None => Ok tt
  | Some definition =>
      let declaring := cr_definition (ft_declaring_class field) in
      do? ctx_reference definition;
      do? reject (negb (bool_decide (si_definition_kind definition = DK_Assignment))
                  || negb (bool_decide (si_module definition = si_module declaring))
                  || bool_decide (si_source_range definition = si_source_range declaring)
                  || negb (range_contains (si_source_range declaring)
                             (si_source_range definition)))
        "field annotation must identify an assignment in its declaring class";
      reject (bool_decide (si_module definition = mtf_module facts)
              && existsb (fun class =>
                   negb (bool_decide (ct_identity class = declaring))
                   && range_contains (si_source_range declaring)
                        (si_source_range (ct_identity class))
                   && range_contains (si_source_range (ct_identity class))
                        (si_source_range definition)) (mtf_classes facts))
        "field annotation skips its actual declaring class"
  end.

Definition class_fields (class : ClassTypeFact) : Result unit :=
  for_unique (fun field => validate_name (ft_name field)) ft_name
    (fun _ => InvalidStructure "duplicate logical class field")
    (fun field =>
       do? ctx_declaring_class class (ft_declaring_class field);
       do? ctx_field_annotation_definition field;
       do? ctx_static_type (ft_value_type field) 0;
       do? ctx_default (ft_default field) 0;
       do? ctx_descriptor (ft_descriptor field);
       reject (bool_decide (ft_field_kind field = FldK_InitOnly)
               && negb (bool_decide (ft_write_policy field = FWP_InitOnly)))
         "InitVar must retain its init-only field policy")
    (ct_instance_fields class).

(** The [match (&method.implementation, &method.generated)]. *)
Definition method_origin (method : MethodTypeFact) : Result unit :=
  match mt_implementation method, mt_generated method with
  | Some implementation, None => ctx_function_reference implementation
  | None, Some generated =>
      do? ctx_generated_function generated;
      reject (negb (bool_decide (gf_class generated = mt_declaring_class method))
              || negb (bool_decide (gf_name generated = mt_name method)))
        "generated method does not match its declaring class and name"
  | None, None =>
      reject (bool_decide (mt_uncertainty method = []))
        "method requires one implementation origin or explicit uncertainty"
  | Some _, Some _ =>
      structure "method requires one implementation origin or explicit uncertainty"
  end.

Definition class_methods (class : ClassTypeFact) : Result unit :=
  for_unique (fun method => validate_name (mt_name method)) mt_name
    (fun _ => InvalidStructure "duplicate logical method")
    (fun method =>
       do? ctx_declaring_class class (mt_declaring_class method);
       do? ctx_signature (mt_signature method) 0;
       do? reject (bool_decide (mt_override_policy method = OP_DeclaredFinal)
                   && negb (mt_declared_final method))
         "final override policy requires a declared-final method";
       method_origin method)
    (ct_methods class).

Definition class_members (class : ClassTypeFact) : Result unit :=
  for_unique (fun member => validate_name (cm_name member)) cm_name
    (fun _ => InvalidStructure "duplicate class member")
    (fun member =>
       do? if_some ctx_reference (cm_definition member);
       do? ctx_static_type (cm_value_type member) 0;
       ctx_descriptor (cm_descriptor member))
    (ct_class_members class).

Definition class_transform (transform : ClassTransformFact) : Result unit :=
  do? if_some ctx_reference (ctr_provenance transform);
  do? reject (bool_decide (ctr_kind transform = TK_StdlibDataclass)
              && negb (is_some (ctr_dataclass_options transform)))
    "stdlib dataclass transform requires resolved options";
  do? if_some (fun options =>
        reject ((dopt_weakref_slot options && negb (dopt_slots options))
                || (dopt_order options && negb (dopt_eq options)))
          "invalid stdlib dataclass options") (ctr_dataclass_options transform);
  for_each validate_name (ctr_generated_methods transform).

Definition ctx_class (class : ClassTypeFact) : Result unit :=
  do? ctx_local_definition (ct_identity class);
  do? reject (negb (bool_decide (si_definition_kind (ct_identity class) = DK_Class)))
    "class facts must identify a source class";
  do? class_bases class;
  do? match ct_metaclass class with
      | MF_Class metaclass => ctx_class_reference metaclass
      | _ => Ok tt
      end;
  do? for_each ctx_decorator (ct_decorators class);
  do? class_participation class;
  do? class_fields class;
  do? class_methods class;
  do? class_members class;
  if_some class_transform (ct_transform class).

(** ** Nominal annotation leaves *)

Definition ctx_field_reference (reference : FieldReference) : Result FieldTypeFact :=
  do? ctx_class_reference (fr_declaring_class reference);
  do? ctx_reference (fr_annotation_definition reference);
  do? validate_name (fr_name reference);
  let? class := ok_or (InvalidStructure "nominal field owner is not a local declaring class")
    (bmap_get (cr_definition (fr_declaring_class reference)) (ctx_classes self)) in
  let? field := ok_or
    (InvalidStructure "nominal field owner does not match its exact declaration catalog")
    (find_first (fun field =>
       bool_decide (ft_name field = fr_name reference)
       && bool_decide (ft_declaring_class field = fr_declaring_class reference)
       && bool_decide (ft_annotation_definition field = Some (fr_annotation_definition reference)))
       (ct_instance_fields class)) in
  do? ctx_field_annotation_definition field;
  Ok field.

(** The [match &binding.owner]: the annotated definition, its type and origin. *)
Definition nominal_annotation (owner : NominalBindingOwner) :
    Result (SourceIdentity * StaticType * AnnotationOrigin) :=
  match owner with
  | NBO_Function function annotation =>
      do? ctx_function_reference function;
      let? fact := ok_or (InvalidStructure "nominal function owner is not local")
        (find_first (fun fact => bool_decide (fn_identity fact = function))
           (mtf_functions facts)) in
      match annotation with
      | AT_Parameter index =>
          match sig_parameters (fn_signature fact) !! Z.to_nat index with
          | Some parameter =>
              Ok (function, par_value_type parameter, par_annotation_origin parameter)
          | None => structure "nominal annotation parameter index is invalid"
          end
      | AT_Return =>
          Ok (function, sig_return_type (fn_signature fact),
              sig_return_annotation_origin (fn_signature fact))
      end
  | NBO_Field field =>
      let? fact := ctx_field_reference field in
      Ok (fr_annotation_definition field, ft_value_type fact, ft_annotation_origin fact)
  end.

(** The leaf itself: its range, its name, its bytes and its references. *)
Definition nominal_leaf (binding : NominalBindingFact) (annotation : SourceIdentity) :
    Result unit :=
  let range := nb_expression_range binding in
  do? reject (negb (bool_decide (si_module annotation = mtf_module facts)))
    "nominal annotation belongs to another module";
  do? ctx_local_range range;
  do? reject (range_is_empty range || negb (range_contains (si_source_range annotation) range))
    "nominal annotation leaf is outside its source definition";
  do? validate_name (nb_name binding);
  do? reject (is_some_and (fun source =>
                negb (bool_decide (slice source (sr_start range) (sr_end range)
                                   = bytes_of (nb_name binding)))) (ctx_source self))
    "nominal annotation name does not match its source bytes";
  do? ctx_class_reference (nb_class binding);
  do? ctx_reference (nb_binding binding);
  ctx_reference (nb_binding_scope binding).

(** The kind and containment conditions on the binding and its scope. *)
Definition nominal_scope_invalid (binding : NominalBindingFact) (annotation : SourceIdentity) :
    bool :=
  let bound := nb_binding binding in
  let scope := nb_binding_scope binding in
  negb (bool_decide (si_module bound = mtf_module facts))
  || negb (bool_decide (si_module scope = mtf_module facts))
  || negb (match si_definition_kind bound with DK_Class | DK_Assignment => true | _ => false end)
  || negb (match si_definition_kind scope with
           | DK_Module | DK_Class | DK_Function => true
           | _ => false
           end)
  || bool_decide (scope = bound)
  || negb (range_contains (si_source_range scope) (si_source_range bound))
  || negb (range_contains (si_source_range scope) (si_source_range annotation))
  || bool_decide (scope = annotation).

(** Some scope strictly between the claimed scope and the binding. *)
Definition nominal_scope_skips (binding : NominalBindingFact) : bool :=
  let bound := nb_binding binding in
  let claimed := nb_binding_scope binding in
  existsb (fun scope =>
    negb (bool_decide (scope = claimed))
    && negb (bool_decide (scope = bound))
    && negb (bool_decide (si_source_range scope = si_source_range claimed))
    && range_contains (si_source_range claimed) (si_source_range scope)
    && range_contains (si_source_range scope) (si_source_range bound))
    (map ct_identity (mtf_classes facts) ++ map fn_identity (mtf_functions facts)).

Definition nominal_global_mismatch (binding : NominalBindingFact) : bool :=
  bool_decide (si_definition_kind (nb_binding_scope binding) = DK_Module)
  && negb (existsb (fun global =>
       bool_decide (gb_name global = nb_name binding)
       && bool_decide (gb_definition global = Some (nb_binding binding)))
       (mtf_global_bindings facts)).

Definition nominal_captures_class_alias (binding : NominalBindingFact)
    (annotation : SourceIdentity) : bool :=
  (match nb_owner binding with NBO_Field _ => true | _ => false end)
  && bool_decide (si_definition_kind (nb_binding_scope binding) = DK_Class)
  && existsb (fun function =>
       range_contains (si_source_range (nb_binding_scope binding))
         (si_source_range (fn_identity function))
       && range_contains (si_source_range (fn_identity function)) (si_source_range annotation))
       (mtf_functions facts).

Definition ctx_nominal_binding (binding : NominalBindingFact) : Result unit :=
  let? (annotation, value_type, origin) := nominal_annotation (nb_owner binding) in
  do? nominal_leaf binding annotation;
  do? reject (nominal_scope_invalid binding annotation)
    "nominal annotation has an invalid lexical binding scope";
  do? reject (nominal_scope_skips binding)
    "nominal binding scope skips its actual lexical owner";
  do? reject (nominal_global_mismatch binding)
    "nominal global binding does not match the module catalog";
  do? reject (nominal_captures_class_alias binding annotation)
    "a method-local field annotation cannot capture a class namespace alias";
  reject (negb (bool_decide (origin = AO_Explicit))
          || negb (has_supported_value_shape value_type)
          || negb (contains_nominal_class value_type (nb_class binding)))
    "nominal annotation leaf does not match an explicit supported contract".

(** ** [Context::inheritance_graph]

    [state] maps a class to [1] (entered) or [2] (left); the top of the
    [pending] stack is the head of the list.  [fuel] bounds the pops. *)

Definition graph_bases (identity : SourceIdentity) : list SourceIdentity :=
  match bmap_get identity (ctx_classes self) with
  | Some class =>
      List.filter (fun base => is_some (bmap_get base (ctx_classes self)))
        (map cr_definition (omap as_class (rev (ct_bases class))))
  | None => []
  end.

Fixpoint inheritance_visit (fuel : nat) (state : list (SourceIdentity * Z))
    (pending : list (SourceIdentity * bool)) : Result (list (SourceIdentity * Z)) :=
  match fuel, pending with
  | _, [] => Ok state
  | O, _ => Err (Encoding "out of fuel")
  | S fuel, (identity, exiting) :: pending =>
      if exiting then inheritance_visit fuel (bmap_insert identity 2%Z state) pending
      else
        match bmap_get identity state with
        | Some 2%Z => inheritance_visit fuel state pending
        | Some 1%Z => structure "cyclic logical class inheritance"
        | _ =>
            inheritance_visit fuel (bmap_insert identity 1%Z state)
              (fold_left (fun pending base => (base, false) :: pending) (graph_bases identity)
                 ((identity, true) :: pending))
        end
  end.

(** Every class is entered once and pushes itself and its bases. *)
Definition inheritance_fuel : nat :=
  2 + list_sum (map (fun entry => S (length (graph_bases entry.1))) (ctx_classes self)).

Definition ctx_inheritance_graph : Result unit :=
  let? _ := for_fold (fun state (entry : SourceIdentity * ClassTypeFact) =>
    if bool_decide (bmap_get entry.1 state = Some 2%Z) then Ok state
    else inheritance_visit inheritance_fuel state [(entry.1, false)]) [] (ctx_classes self) in
  Ok tt.

(** ** Call targets *)

Definition binding_compatible (binding : CallBindingFact) (method : MethodBinding) : bool :=
  match binding with
  | CBF_UnboundFunction => match method with MB_Instance | MB_Static => true | _ => false end
  | CBF_BoundInstanceMethod => bool_decide (method = MB_Instance)
  | CBF_BoundClassMethod => bool_decide (method = MB_Class)
  | CBF_StaticMethod => bool_decide (method = MB_Static)
  | CBF_CallableInstanceField => false
  | CBF_Descriptor => match method with MB_PropertyGetter | MB_Descriptor => true | _ => false end
  | CBF_Dynamic => true
  end.

Definition ctx_call_target (target : CallableTargetFact) (binding : CallBindingFact) :
    Result unit :=
  match target with
  | CTF_SourceFunction identity => ctx_function_reference identity
  | CTF_Method class name implementation =>
      do? ctx_class_reference class;
      do? validate_name name;
      do? if_some ctx_function_reference implementation;
      if_some (fun class_fact =>
        let? method := ok_or (InvalidStructure "call target names an absent logical method")
          (find_first (fun method => bool_decide (mt_name method = name))
             (ct_methods class_fact)) in
        do? reject (is_some implementation
                    && negb (bool_decide (implementation = mt_implementation method)))
          "call target implementation disagrees with its method facts";
        reject (negb (binding_compatible binding (mt_binding method)))
          "call binding disagrees with its logical method binding")
        (bmap_get (cr_definition class) (ctx_classes self))
  | CTF_Generated generated => ctx_generated_function generated
  | CTF_Dynamic => Ok tt
  end.
End context.

(** ** [validate_module_facts] *)

Section module.
Context (digest : list byte -> Fingerprint).

(** The schema, name, dependency and dialect guards. *)
Definition validate_header (facts : ModuleTypeFacts) : Result unit :=
  do? ensure (bool_decide (mtf_schema_version facts = ARTIFACT_SCHEMA_VERSION))
    (VersionMismatch "module shard schema" ARTIFACT_SCHEMA_VERSION (mtf_schema_version facts));
  do? validate_module_name (mci_module_name (mtf_module facts));
  do? validate_dependencies (mtf_consumed_dependencies facts) (mci_module_name (mtf_module facts));
  ensure (bool_decide (bool_decide (mtf_source_dialect facts = SD_SoacStrict)
                       = is_selected (mtf_language_policy facts)))
    (InvalidPolicy "source admission must match the resolved comment rules").

(** The [source.map(..).transpose()?]. *)
Definition validate_source (facts : ModuleTypeFacts) (source : option (list byte)) :
    Result (option (list byte)) :=
  opt_result (fun source =>
    do? ensure (negb (negb (bool_decide (mtf_source_size facts = Z.of_nat (length source)))
                      || negb (bool_decide (digest source = mtf_source_digest facts))
                      || negb (bool_decide (legacy_source_hash source
                                            = mci_source_hash (mtf_module facts)))))
      (SourceMismatch (mci_module_name (mtf_module facts)));
    do? ensure (utf8_valid source) (InvalidSourceIdentity "SOAC source must be valid UTF-8");
    Ok source) source.

(** The first loop: the class catalog and the definitions it introduces. *)
Definition catalog_classes (facts : ModuleTypeFacts) :
    Result (list (SourceIdentity * ClassTypeFact) * list SourceIdentity) :=
  for_fold (fun '(classes, definitions) class =>
    do? reject (is_some (bmap_get (ct_identity class) classes)) "duplicate class source identity";
    Ok (bmap_insert (ct_identity class) class classes, bset_insert (ct_identity class) definitions))
    ([], [module_body_identity facts]) (mtf_classes facts).

Definition validate_class_rules (facts : ModuleTypeFacts) : Result unit :=
  let error := InvalidPolicy "class rules must uniquely identify an actual source class" in
  for_unique (fun _ => Ok tt) cpo_class_range (fun _ => error)
    (fun rule =>
       ensure (existsb (fun class =>
                 bool_decide (si_source_range (ct_identity class) = cpo_class_range rule))
                 (mtf_classes facts)) error)
    (rsp_class_overrides (mtf_language_policy facts)).

Definition catalog_functions (facts : ModuleTypeFacts) (definitions : list SourceIdentity) :
    Result (list SourceIdentity * list SourceIdentity) :=
  for_fold (fun '(functions, definitions) function =>
    do? reject (bset_contains (fn_identity function) functions)
      "duplicate function source identity";
    Ok (bset_insert (fn_identity function) functions,
        bset_insert (fn_identity function) definitions))
    ([], definitions) (mtf_functions facts).

(** The records that introduce lexical non-callable definitions. *)
Definition lexical_definitions (facts : ModuleTypeFacts) : list SourceIdentity :=
  omap gb_definition (mtf_global_bindings facts)
  ++ concat (map (fun class => omap cm_definition (ct_class_members class)) (mtf_classes facts))
  ++ concat (map (fun class => omap ft_annotation_definition (ct_instance_fields class))
               (mtf_classes facts))
  ++ map nb_binding (mtf_nominal_bindings facts).

Definition introduces_definition (facts : ModuleTypeFacts) (identity : SourceIdentity) : bool :=
  bool_decide (si_module identity = mtf_module facts)
  && negb (match si_definition_kind identity with
           | DK_Class | DK_Function | DK_Lambda => true
           | _ => false
           end).

Definition make_context (facts : ModuleTypeFacts) (source : option (list byte)) :
    Result ValidationContext :=
  let? (classes, definitions) := catalog_classes facts in
  do? validate_class_rules facts;
  let? (functions, definitions) := catalog_functions facts definitions in
  Ok {| ctx_facts := facts;
        ctx_source := source;
        ctx_definitions :=
          bset_extend definitions
            (List.filter (introduces_definition facts) (lexical_definitions facts));
        ctx_classes := classes;
        ctx_functions := functions;
        ctx_dependencies :=
          fold_left (fun m dependency => bmap_insert (dependency_name dependency) dependency m)
            (mtf_consumed_dependencies facts) [] |}.

Definition validate_globals (self : ValidationContext) : Result unit :=
  let facts := ctx_facts self in
  for_unique (fun binding => validate_name (gb_name binding)) gb_name
    (fun _ => InvalidStructure "duplicate global binding")
    (fun binding =>
       do? if_some (ctx_reference self) (gb_definition binding);
       do? ctx_static_type self (gb_value_type binding) 0;
       reject (negb (rsp_strict_assign (mtf_language_policy facts))
               && negb (bool_decide (gb_mutability binding = GM_Unknown)))
         "strict global restrictions require strict_assign")
    (mtf_global_bindings facts).

Definition validate_functions (self : ValidationContext) : Result unit :=
  for_each (fun function =>
    do? ctx_local_definition self (fn_identity function);
    do? reject (negb (is_function_kind (si_definition_kind (fn_identity function))))
      "function facts must identify a source function or lambda";
    do? ctx_signature self (fn_signature function) 0;
    for_each (ctx_decorator self) (fn_decorators function))
    (mtf_functions (ctx_facts self)).

Definition validate_nominal_bindings (self : ValidationContext) : Result unit :=
  for_unique (fun _ => Ok tt) (fun binding => (nb_owner binding, nb_expression_range binding))
    (fun _ => InvalidStructure "duplicate nominal annotation leaf")
    (ctx_nominal_binding self) (mtf_nominal_bindings (ctx_facts self)).

Definition validate_attribute_sites (self : ValidationContext) : Result unit :=
  for_unique (fun _ => Ok tt) asf_identity
    (fun _ => InvalidStructure "duplicate attribute site identity")
    (fun site =>
       let identity := asf_identity site in
       do? ctx_site self (asi_module identity) (asi_source_digest identity)
             (asi_enclosing_function identity) (asi_expression_range identity);
       do? validate_name (asf_name site);
       do? ctx_static_type self (asf_receiver_type site) 0;
       do? if_some (fun value_type => ctx_static_type self value_type 0) (asf_value_type site);
       if_some (ctx_class_reference self) (asf_declaring_class site))
    (mtf_attribute_sites (ctx_facts self)).

(** The conditions that refuse an exact logical call target. *)
Definition exact_target_invalid (site : CallSiteFact) : bool :=
  negb (length (cs_candidate_targets site) =? 1)
  || bool_decide (head (cs_candidate_targets site) = Some CTF_Dynamic)
  || (match cs_binding site with CBF_Dynamic | CBF_Descriptor => true | _ => false end)
  || is_some_and (fun receiver =>
       contains_uncertainty (rt_value_type receiver)
       || negb (bool_decide (rt_uncertainty receiver = []))) (cs_receiver site).

Definition validate_call_site (self : ValidationContext) (site : CallSiteFact) : Result unit :=
  let identity := cs_identity site in
  do? ctx_site self (csi_module identity) (csi_source_digest identity)
        (csi_enclosing_function identity) (csi_expression_range identity);
  do? if_some (fun receiver => ctx_static_type self (rt_value_type receiver) 0) (cs_receiver site);
  do? if_some validate_name (cs_attribute_name site);
  do? for_each (fun target => ctx_call_target self target (cs_binding site))
        (cs_candidate_targets site);
  do? reject (bool_decide (cs_uncertainty site = CU_ExactStaticTarget)
              && exact_target_invalid site)
    "an exact logical call target requires one non-dynamic target";
  do? reject ((match cs_binding site with
               | CBF_BoundInstanceMethod | CBF_BoundClassMethod | CBF_CallableInstanceField => true
               | _ => false
               end) && (negb (is_some (cs_receiver site))
                        || negb (is_some (cs_attribute_name site))))
    "a bound attribute call requires a receiver and member name";
  do? reject (bool_decide (cs_uncertainty site = CU_CallableInstanceField)
              && negb (bool_decide (cs_binding site = CBF_CallableInstanceField)))
    "callable instance fields must not acquire method receiver binding";
  do? ctx_signature self (cs_signature site) 0;
  ctx_static_type self (cs_result_type site) 0.

Definition validate_call_sites (self : ValidationContext) : Result unit :=
  for_unique (fun _ => Ok tt) cs_identity
    (fun _ => InvalidStructure "duplicate call site identity")
    (validate_call_site self) (mtf_call_sites (ctx_facts self)).

(** [{:?}] of a [DiagnosticCode]. *)
Definition diagnostic_code_debug (code : DiagnosticCode) : string :=
  match code with
  | DC_StrictFinalGlobalRebind => "StrictFinalGlobalRebind"
  | DC_StrictFinalGlobalDelete => "StrictFinalGlobalDelete"
  | DC_StrictClassMutation => "StrictClassMutation"
  | DC_StrictFinalClassSubclass => "StrictFinalClassSubclass"
  | DC_StrictFinalMethodOverride => "StrictFinalMethodOverride"
  | DC_StrictInstanceMethodShadow => "StrictInstanceMethodShadow"
  | DC_StrictClassvarInstanceWrite => "StrictClassvarInstanceWrite"
  | DC_StrictUndeclaredField => "StrictUndeclaredField"
  | DC_StrictIncompatibleFieldWrite => "StrictIncompatibleFieldWrite"
  | DC_StrictIncompatibleOverride => "StrictIncompatibleOverride"
  | DC_StrictDictReplacement => "StrictDictReplacement"
  | DC_StrictUnsupportedMetaclass => "StrictUnsupportedMetaclass"
  | DC_StrictUnsupportedDecorator => "StrictUnsupportedDecorator"
  | DC_StrictUnsupportedDescriptor => "StrictUnsupportedDescriptor"
  | DC_StrictLayoutInheritanceConflict => "StrictLayoutInheritanceConflict"
  | DC_StrictUncheckedDynamicType => "StrictUncheckedDynamicType"
  | DC_StrictConstructionContractMismatch => "StrictConstructionContractMismatch"
  | DC_CheckerError => "CheckerError"
  end.

Definition blocking_message (diagnostic : StrictDiagnostic) : string :=
  diagnostic_code_debug (sd_code diagnostic) +:+ " at "
  +:+ show_u32 (sr_start (sd_source_range diagnostic)) +:+ ".."
  +:+ show_u32 (sr_end (sd_source_range diagnostic)) +:+ " (suppressed="
  +:+ (if sd_suppressed diagnostic then "true" else "false") +:+ ")".

Definition validate_diagnostic (self : ValidationContext) (diagnostic : StrictDiagnostic) :
    Result unit :=
  do? ctx_local_range self (sd_source_range diagnostic);
  do? match sd_scope diagnostic with
      | DSc_Module => Ok tt
      | DSc_Definition identity =>
          do? ctx_local_definition self identity;
          do? ctx_reference self identity;
          ensure (range_contains (si_source_range identity) (sd_source_range diagnostic))
            (InvalidSourceIdentity "diagnostic is outside its definition scope")
      | DSc_Site range =>
          do? ctx_local_range self range;
          ensure (range_contains range (sd_source_range diagnostic))
            (InvalidSourceIdentity "diagnostic is outside its site scope")
      end;
  do? for_each (ctx_reference self) (sd_related_definitions diagnostic);
  ensure (negb (bool_decide (sd_severity diagnostic = DS_Error) && negb (sd_suppressed diagnostic)))
    (BlockingDiagnostic (blocking_message diagnostic)).

Definition validate_demoted (facts : ModuleTypeFacts) : Result unit :=
  if existsb sd_suppressed (mtf_diagnostics facts) then
    ensure (bool_decide (demote_suppressed_regions facts = facts))
      (BlockingDiagnostic "suppressed regions retain precise class, value, or call proposals")
  else Ok tt.

Definition validate_module_facts (facts : ModuleTypeFacts) (source : option (list byte)) :
    Result unit :=
  do? validate_header facts;
  let? source := validate_source facts source in
  let? context := make_context facts source in
  do? validate_globals context;
  do? for_each (ctx_class context) (mtf_classes facts);
  do? ctx_inheritance_graph context;
  do? validate_functions context;
  do? validate_nominal_bindings context;
  do? validate_attribute_sites context;
  do? validate_call_sites context;
  do? for_each (validate_diagnostic context) (mtf_diagnostics facts);
  validate_demoted facts.
End module.
