(* ===== verification/Canonical.v ===== *)
(** * Canonical module facts ([soac_contracts/src/validation.rs])

    [canonicalize_module] sorts the unordered catalogues, normalises every type
    and demotes suppressed regions.  It mutates its argument in place; a failing
    call leaves a partly rewritten value that its only caller discards, so the
    model returns the new value or the error. *)

From S2P Require Import Prelude Order Collections Text Identity StaticTypes Normalize.
From S2P Require Import Facts Diagnostics DiagnosticsProps Validation.

Abbreviation default_normalize d := (default_normalize_at_depth normalize_at_depth d 0).
Abbreviation signature_normalize s := (signature_normalize_at_depth normalize_at_depth s 0).

Definition normalize_descriptor (d : DescriptorFact) : Result DescriptorFact :=
  let? value_type := opt_result normalized (df_descriptor_type d) in
  Ok (mkDescriptorFact (df_kind d) value_type (df_getter d) (df_setter d) (df_deleter d)).

Definition canonicalize_global (b : GlobalBindingFact) : Result GlobalBindingFact :=
  let? value_type := normalized (gb_value_type b) in
  Ok (mkGlobalBindingFact (gb_name b) (gb_mutability b) value_type (gb_definition b)
        (gb_uncertainty b)).

Definition canonicalize_field (f : FieldTypeFact) : Result FieldTypeFact :=
  let? value_type := normalized (ft_value_type f) in
  let? default := default_normalize (ft_default f) in
  let? descriptor := normalize_descriptor (ft_descriptor f) in
  Ok (mkFieldTypeFact (ft_name f) (ft_declaring_class f) value_type (ft_annotation_origin f)
        (ft_annotation_definition f) (ft_field_kind f) (ft_read_policy f) (ft_write_policy f)
        (ft_initialization f) default descriptor (ft_uncertainty f)).

Definition canonicalize_method (m : MethodTypeFact) : Result MethodTypeFact :=
  let? signature := signature_normalize (mt_signature m) in
  Ok (mkMethodTypeFact (mt_name m) (mt_declaring_class m) (mt_binding m) signature
        (mt_declared_final m) (mt_override_policy m) (mt_implementation m) (mt_generated m)
        (mt_uncertainty m)).

Definition canonicalize_member (m : ClassMemberFact) : Result ClassMemberFact :=
  let? value_type := normalized (cm_value_type m) in
  let? descriptor := normalize_descriptor (cm_descriptor m) in
  Ok (mkClassMemberFact (cm_name m) (cm_kind m) value_type (cm_definition m) descriptor
        (cm_uncertainty m)).

(** The order of fields, bases, MRO entries, decorators and parameters is kept. *)
Definition canonicalize_class (c : ClassTypeFact) : Result ClassTypeFact :=
  let? fields := map_result canonicalize_field (ct_instance_fields c) in
  let? methods := map_result canonicalize_method
    (sort_by (fun m => key (mt_name m)) (ct_methods c)) in
  let? members := map_result canonicalize_member
    (sort_by (fun m => key (cm_name m)) (ct_class_members c)) in
  Ok (mkClassTypeFact (ct_identity c) (ct_bases c) (ct_metaclass c) (ct_decorators c)
        (ct_participation c) (ct_dictionary c) fields methods members (ct_inheritance c)
        (ct_openness c) (ct_transform c) (ct_uncertainty c)).

Definition canonicalize_function (f : FunctionTypeFact) : Result FunctionTypeFact :=
  let? signature := signature_normalize (fn_signature f) in
  Ok (mkFunctionTypeFact (fn_identity f) (fn_function_kind f) signature (fn_decorators f)
        (fn_uncertainty f)).

Definition canonicalize_attribute_site (s : AttributeSiteFact) : Result AttributeSiteFact :=
  let? receiver_type := normalized (asf_receiver_type s) in
  let? value_type := opt_result normalized (asf_value_type s) in
  Ok (mkAttributeSiteFact (asf_identity s) (asf_name s) (asf_access s) receiver_type value_type
        (asf_declaring_class s) (asf_uncertainty s)).

Definition canonicalize_receiver (r : ReceiverTypeFact) : Result ReceiverTypeFact :=
  let? value_type := normalized (rt_value_type r) in
  Ok (mkReceiverTypeFact value_type (rt_uncertainty r)).

Definition canonicalize_call_site (s : CallSiteFact) : Result CallSiteFact :=
  let? receiver := opt_result canonicalize_receiver (cs_receiver s) in
  let targets := dedup (sort (cs_candidate_targets s)) in
  let? signature := signature_normalize (cs_signature s) in
  let? result_type := normalized (cs_result_type s) in
  Ok (mkCallSiteFact (cs_identity s) receiver (cs_attribute_name s) targets (cs_binding s)
        signature result_type (cs_uncertainty s)).

Definition canonicalize_diagnostic (d : StrictDiagnostic) : StrictDiagnostic :=
  mkStrictDiagnostic (sd_code d) (sd_severity d) (sd_source_range d) (sd_scope d)
    (dedup (sort (sd_related_definitions d))) (sd_suppressed d) (sd_message d).

(** Everything before the final demotion. *)
Definition canonicalize_catalogs (facts : ModuleTypeFacts) : Result ModuleTypeFacts :=
  let policy := mtf_language_policy facts in
  let policy := mkResolvedStrictPolicy (rsp_strict_assign policy) (rsp_checked_attr policy)
                  (sort (rsp_class_overrides policy)) in
  let dependencies := canonicalize_dependencies (mtf_consumed_dependencies facts) in
  let? globals := map_result canonicalize_global
    (sort_by (fun b => key (gb_name b)) (mtf_global_bindings facts)) in
  let? classes := map_result canonicalize_class
    (sort_by (fun c => key (ct_identity c)) (mtf_classes facts)) in
  let? functions := map_result canonicalize_function
    (sort_by (fun f => key (fn_identity f)) (mtf_functions facts)) in
  let? attribute_sites := map_result canonicalize_attribute_site
    (sort_by (fun s => key (asf_identity s)) (mtf_attribute_sites facts)) in
  let? call_sites := map_result canonicalize_call_site
    (sort_by (fun s => key (cs_identity s)) (mtf_call_sites facts)) in
  Ok {| mtf_schema_version := mtf_schema_version facts;
        mtf_module := mtf_module facts;
        mtf_source_digest := mtf_source_digest facts;
        mtf_source_size := mtf_source_size facts;
        mtf_source_dialect := mtf_source_dialect facts;
        mtf_language_policy := policy;
        mtf_consumed_dependencies := dependencies;
        mtf_global_bindings := globals;
        mtf_classes := classes;
        mtf_functions := functions;
        mtf_nominal_bindings := sort (mtf_nominal_bindings facts);
        mtf_attribute_sites := attribute_sites;
        mtf_call_sites := call_sites;
        mtf_diagnostics := sort (map canonicalize_diagnostic (mtf_diagnostics facts)) |}.

Definition canonicalize_module (facts : ModuleTypeFacts) : Result ModuleTypeFacts :=
  let? facts := canonicalize_catalogs facts in Ok (demote_suppressed_regions facts).

(** ** Canonicalising twice *)

Lemma default_normalize_twice depth d d' :
  default_normalize_at_depth normalize_at_depth d depth = Ok d' ->
  default_normalize_at_depth normalize_at_depth d' depth = Ok d'.
Proof.
  destruct d; cbn; intros H; ok_inv; cbn; try done;
    by rewrite (proj2 (normalize_twice _ _ _ E)).
Qed.

Lemma parameter_normalize_twice depth p p' :
  parameter_normalize_at_depth normalize_at_depth depth p = Ok p' ->
  parameter_normalize_at_depth normalize_at_depth depth p' = Ok p'.
Proof.
  destruct p; cbn; intros H; ok_inv; cbn.
  rewrite (proj2 (normalize_twice _ _ _ E)). cbn. by rewrite (default_normalize_twice _ _ _ E0).
Qed.

Lemma signature_normalize_twice depth s s' :
  signature_normalize_at_depth normalize_at_depth s depth = Ok s' ->
  signature_normalize_at_depth normalize_at_depth s' depth = Ok s'.
Proof.
  destruct s; cbn; intros H; ok_inv; cbn. rewrite (proj2 (normalize_twice _ _ _ E)). cbn.
  rewrite map_result_id; [done|]. apply map_result_ok in E0.
  induction E0; constructor; eauto using parameter_normalize_twice.
Qed.

Lemma normalized_twice t t' : normalized t = Ok t' -> normalized t' = Ok t'.
Proof. apply normalize_twice. Qed.

Lemma opt_result_twice {E A} (f : A -> result E A) o o' :
  (forall x y, f x = Ok y -> f y = Ok y) -> opt_result f o = Ok o' -> opt_result f o' = Ok o'.
Proof. intros Hf. destruct o; cbn; intros H; ok_inv; cbn; [by erewrite Hf|done]. Qed.

Lemma normalize_descriptor_twice d d' :
  normalize_descriptor d = Ok d' -> normalize_descriptor d' = Ok d'.
Proof.
  unfold normalize_descriptor. intros H. ok_inv. cbn.
  by rewrite (opt_result_twice _ _ _ normalized_twice E).
Qed.

(** Rewrite with the second normalisation after every successful first one. *)
Ltac normalise_again :=
  repeat (match goal with
  | E : normalized _ = Ok _ |- _ => rewrite (normalized_twice _ _ E); clear E
  | E : default_normalize _ = Ok _ |- _ => rewrite (default_normalize_twice _ _ _ E); clear E
  | E : signature_normalize _ = Ok _ |- _ => rewrite (signature_normalize_twice _ _ _ E); clear E
  | E : normalize_descriptor _ = Ok _ |- _ => rewrite (normalize_descriptor_twice _ _ E); clear E
  | E : opt_result normalized _ = Ok _ |- _ =>
      rewrite (opt_result_twice _ _ _ normalized_twice E); clear E
  end; cbn [rbind]).

(** [canonicalize_x] keeps its key and is a fixed point on its results. *)
Ltac solve_twice f := unfold f; intros H; ok_inv; cbn; by normalise_again.
Ltac solve_key f := unfold f; intros H; ok_inv; done.

Lemma canonicalize_global_twice b b' :
  canonicalize_global b = Ok b' -> canonicalize_global b' = Ok b'.
Proof. solve_twice canonicalize_global. Qed.
Lemma canonicalize_field_twice b b' :
  canonicalize_field b = Ok b' -> canonicalize_field b' = Ok b'.
Proof. solve_twice canonicalize_field. Qed.
Lemma canonicalize_method_twice b b' :
  canonicalize_method b = Ok b' -> canonicalize_method b' = Ok b'.
Proof. solve_twice canonicalize_method. Qed.
Lemma canonicalize_member_twice b b' :
  canonicalize_member b = Ok b' -> canonicalize_member b' = Ok b'.
Proof. solve_twice canonicalize_member. Qed.
Lemma canonicalize_function_twice b b' :
  canonicalize_function b = Ok b' -> canonicalize_function b' = Ok b'.
Proof. solve_twice canonicalize_function. Qed.
Lemma canonicalize_attribute_site_twice b b' :
  canonicalize_attribute_site b = Ok b' -> canonicalize_attribute_site b' = Ok b'.
Proof. solve_twice canonicalize_attribute_site. Qed.
Lemma canonicalize_receiver_twice b b' :
  canonicalize_receiver b = Ok b' -> canonicalize_receiver b' = Ok b'.
Proof. solve_twice canonicalize_receiver. Qed.

Lemma canonicalize_call_site_twice s s' :
  canonicalize_call_site s = Ok s' -> canonicalize_call_site s' = Ok s'.
Proof.
  unfold canonicalize_call_site. intros H. ok_inv. cbn.
  rewrite (opt_result_twice _ _ _ canonicalize_receiver_twice E). cbn. normalise_again.
  by rewrite (sort_dedup_id (dedup _)) by eauto with ordered.
Qed.

Lemma canonicalize_diagnostic_twice d :
  canonicalize_diagnostic (canonicalize_diagnostic d) = canonicalize_diagnostic d.
Proof.
  unfold canonicalize_diagnostic. cbn. by rewrite (sort_dedup_id (dedup _)) by eauto with ordered.
Qed.

Lemma canonicalize_global_key b b' : canonicalize_global b = Ok b' -> gb_name b' = gb_name b.
Proof. solve_key canonicalize_global. Qed.
Lemma canonicalize_method_key m m' : canonicalize_method m = Ok m' -> mt_name m' = mt_name m.
Proof. solve_key canonicalize_method. Qed.
Lemma canonicalize_member_key m m' : canonicalize_member m = Ok m' -> cm_name m' = cm_name m.
Proof. solve_key canonicalize_member. Qed.
Lemma canonicalize_class_key c c' : canonicalize_class c = Ok c' -> ct_identity c' = ct_identity c.
Proof. solve_key canonicalize_class. Qed.
Lemma canonicalize_function_key f f' :
  canonicalize_function f = Ok f' -> fn_identity f' = fn_identity f.
Proof. solve_key canonicalize_function. Qed.
Lemma canonicalize_attribute_site_key s s' :
  canonicalize_attribute_site s = Ok s' -> asf_identity s' = asf_identity s.
Proof. solve_key canonicalize_attribute_site. Qed.
Lemma canonicalize_call_site_key s s' :
  canonicalize_call_site s = Ok s' -> cs_identity s' = cs_identity s.
Proof. solve_key canonicalize_call_site. Qed.

(** ** The canonical form *)

Definition class_canonical (c : ClassTypeFact) : Prop :=
  Forall (fun f => canonicalize_field f = Ok f) (ct_instance_fields c) /\
  sorted_fixed (fun m => key (mt_name m)) canonicalize_method (ct_methods c) /\
  sorted_fixed (fun m => key (cm_name m)) canonicalize_member (ct_class_members c).

Lemma canonicalize_class_canonical c c' : canonicalize_class c = Ok c' -> class_canonical c'.
Proof.
  unfold canonicalize_class. intros H. ok_inv. split; [|split]; cbn.
  - apply map_result_ok in E. induction E; constructor; eauto using canonicalize_field_twice.
  - eapply sort_map_result_fixed; [| |exact E0];
      [intros ? ? ->%canonicalize_method_key; done|apply canonicalize_method_twice].
  - eapply sort_map_result_fixed; [| |exact E1];
      [intros ? ? ->%canonicalize_member_key; done|apply canonicalize_member_twice].
Qed.

Lemma class_canonical_fixed c : canonicalize_class c = Ok c <-> class_canonical c.
Proof.
  split; [apply canonicalize_class_canonical|]. intros (Hf & Hm & Hc). unfold canonicalize_class.
  rewrite (map_result_id _ _ Hf). cbn [rbind]. rewrite (sort_map_result_id _ _ _ Hm). cbn [rbind].
  rewrite (sort_map_result_id _ _ _ Hc). by destruct c.
Qed.

Lemma canonicalize_class_twice c c' : canonicalize_class c = Ok c' -> canonicalize_class c' = Ok c'.
Proof. intros H%canonicalize_class_canonical. by apply class_canonical_fixed. Qed.

(** The catalogues of a canonical module before demotion. *)
Definition catalogs_canonical (facts : ModuleTypeFacts) : Prop :=
  SortedBy key (rsp_class_overrides (mtf_language_policy facts)) /\
  SortedBy (fun d => key (dependency_name d)) (mtf_consumed_dependencies facts) /\
  sorted_fixed (fun b => key (gb_name b)) canonicalize_global (mtf_global_bindings facts) /\
  sorted_fixed (fun c => key (ct_identity c)) canonicalize_class (mtf_classes facts) /\
  sorted_fixed (fun f => key (fn_identity f)) canonicalize_function (mtf_functions facts) /\
  SortedBy key (mtf_nominal_bindings facts) /\
  sorted_fixed (fun s => key (asf_identity s)) canonicalize_attribute_site
    (mtf_attribute_sites facts) /\
  sorted_fixed (fun s => key (cs_identity s)) canonicalize_call_site (mtf_call_sites facts) /\
  SortedBy key (mtf_diagnostics facts) /\
  Forall (fun d => canonicalize_diagnostic d = d) (mtf_diagnostics facts).

Lemma canonicalize_catalogs_canonical facts facts' :
  canonicalize_catalogs facts = Ok facts' -> catalogs_canonical facts'.
Proof.
  unfold canonicalize_catalogs. intros H. ok_inv. unfold catalogs_canonical. cbn -[key].
  split; [eauto with ordered|]. split; [eauto with ordered|].
  split; [eapply sort_map_result_fixed; [| |exact E]; [|apply canonicalize_global_twice];
          intros ? ? ->%canonicalize_global_key; done|].
  split; [eapply sort_map_result_fixed; [| |exact E0]; [|apply canonicalize_class_twice];
          intros ? ? ->%canonicalize_class_key; done|].
  split; [eapply sort_map_result_fixed; [| |exact E1]; [|apply canonicalize_function_twice];
          intros ? ? ->%canonicalize_function_key; done|].
  split; [eauto with ordered|].
  split; [eapply sort_map_result_fixed; [| |exact E2]; [|apply canonicalize_attribute_site_twice];
          intros ? ? ->%canonicalize_attribute_site_key; done|].
  split; [eapply sort_map_result_fixed; [| |exact E3]; [|apply canonicalize_call_site_twice];
          intros ? ? ->%canonicalize_call_site_key; done|].
  split; [eauto with ordered|]. apply Forall_forall. intros d Hd.
  apply elem_of_sort_by, list_elem_of_fmap in Hd as (d' & -> & _).
  apply canonicalize_diagnostic_twice.
Qed.

Lemma catalogs_canonical_fixed facts :
  catalogs_canonical facts -> canonicalize_catalogs facts = Ok facts.
Proof.
  intros (Ho & Hd & Hg & Hc & Hf & Hn & Ha & Hs & Hds & Hdc). unfold canonicalize_catalogs.
  rewrite (sort_map_result_id _ _ _ Hg). cbn [rbind]. rewrite (sort_map_result_id _ _ _ Hc).
  cbn [rbind]. rewrite (sort_map_result_id _ _ _ Hf). cbn [rbind].
  rewrite (sort_map_result_id _ _ _ Ha). cbn [rbind]. rewrite (sort_map_result_id _ _ _ Hs).
  cbn [rbind]. unfold sort, canonicalize_dependencies.
  rewrite (sort_by_id _ _ Ho), (sort_by_id _ _ Hd), (sort_by_id _ _ Hn).
  rewrite (map_id_Forall _ _ Hdc), (sort_by_id _ _ Hds).
  by destruct facts as [? ? ? ? ? []].
Qed.

(** ** Demotion keeps the canonical form *)

Lemma normalized_unknown : normalized ST_Unknown = Ok ST_Unknown.
Proof. reflexivity. Qed.

Lemma ig_value_fixed ig t full depth :
  (depth <= 64)%nat -> normalize_at_depth depth t = Ok t ->
  normalize_at_depth depth (ig_value ig t full).1 = Ok (ig_value ig t full).1.
Proof.
  intros Hd Ht. unfold ig_value. case_match; [|done]. cbn [fst].
  rewrite normalize_at_depth_unfold. destruct (Nat.ltb_spec 64 depth); [lia|done].
Qed.

Lemma ig_default_fixed ig d full depth :
  default_normalize_at_depth normalize_at_depth d depth = Ok d ->
  default_normalize_at_depth normalize_at_depth (ig_default ig d full).1 depth
    = Ok (ig_default ig d full).1.
Proof. intros Hd. unfold ig_default. by case_match. Qed.

Lemma ig_descriptor_fixed ig d full :
  normalize_descriptor d = Ok d ->
  normalize_descriptor (ig_descriptor ig d full).1 = Ok (ig_descriptor ig d full).1.
Proof. intros Hd. unfold ig_descriptor. by case_match. Qed.

Lemma map_result_fixed_Forall {E A} (f : A -> result E A) l :
  map_result f l = Ok l -> Forall (fun x => f x = Ok x) l.
Proof. intros H%map_result_ok. induction l; inversion H; subst; constructor; auto. Qed.

Lemma ig_parameter_fixed ig p full :
  parameter_normalize_at_depth normalize_at_depth 0 p = Ok p ->
  parameter_normalize_at_depth normalize_at_depth 0 (ig_parameter ig p full).1
    = Ok (ig_parameter ig p full).1.
Proof.
  destruct p as [n k t o d]. cbn. intros H. ok_inv.
  rewrite ig_value_fixed by (done || lia). cbn [rbind]. by rewrite ig_default_fixed.
Qed.

Lemma ig_signature_fixed ig s full :
  signature_normalize s = Ok s ->
  signature_normalize (ig_signature ig s full).1 = Ok (ig_signature ig s full).1.
Proof.
  destruct s as [ps r o u]. cbn. intros H. ok_inv.
  rewrite ig_value_fixed by (done || lia). cbn [rbind]. rewrite map_map. rewrite map_result_id; [done|].
  apply map_result_fixed_Forall in E0. induction E0; cbn; constructor; auto using ig_parameter_fixed.
Qed.

Lemma demote_global_fixed ig b :
  canonicalize_global b = Ok b -> canonicalize_global (demote_global ig b) = Ok (demote_global ig b).
Proof.
  destruct b. unfold canonicalize_global. cbn. intros H. ok_inv.
  unfold normalized in *. by rewrite ig_value_fixed by (done || lia).
Qed.

Lemma demote_field_fixed ig full f :
  canonicalize_field f = Ok f ->
  canonicalize_field (demote_field ig full f) = Ok (demote_field ig full f).
Proof.
  destruct f. unfold canonicalize_field. cbn. intros H. ok_inv. unfold normalized in *.
  rewrite ig_value_fixed by (done || lia). cbn [rbind]. rewrite ig_default_fixed by done.
  cbn [rbind]. by rewrite ig_descriptor_fixed.
Qed.

Lemma demote_method_fixed ig full m :
  canonicalize_method m = Ok m ->
  canonicalize_method (demote_method ig full m) = Ok (demote_method ig full m).
Proof.
  destruct m. unfold canonicalize_method. cbn. intros H. ok_inv. by rewrite ig_signature_fixed.
Qed.

Lemma demote_member_fixed ig full m :
  canonicalize_member m = Ok m ->
  canonicalize_member (demote_member ig full m) = Ok (demote_member ig full m).
Proof.
  destruct m. unfold canonicalize_member. cbn. intros H. ok_inv. unfold normalized in *.
  rewrite ig_value_fixed by (done || lia). cbn [rbind]. by rewrite ig_descriptor_fixed.
Qed.

Lemma demote_class_fixed ig c :
  canonicalize_class c = Ok c -> canonicalize_class (demote_class ig c) = Ok (demote_class ig c).
Proof.
  rewrite !class_canonical_fixed. intros (Hf & Hm & Hc). split; [|split]; cbn.
  - induction Hf; cbn; constructor; auto using demote_field_fixed.
  - apply sorted_fixed_map; auto using demote_method_fixed.
  - apply sorted_fixed_map; auto using demote_member_fixed.
Qed.

Lemma demote_function_fixed ig f :
  canonicalize_function f = Ok f ->
  canonicalize_function (demote_function ig f) = Ok (demote_function ig f).
Proof.
  destruct f. unfold canonicalize_function. cbn. intros H. ok_inv. by rewrite ig_signature_fixed.
Qed.

Lemma demote_attribute_site_fixed ig s :
  canonicalize_attribute_site s = Ok s ->
  canonicalize_attribute_site (demote_attribute_site ig s) = Ok (demote_attribute_site ig s).
Proof.
  intros H. unfold demote_attribute_site. case_match; [|done]. by destruct s as [? ? ? ? []].
Qed.

Lemma demote_call_site_fixed ig s :
  canonicalize_call_site s = Ok s ->
  canonicalize_call_site (demote_call_site ig s) = Ok (demote_call_site ig s).
Proof.
  intros H. unfold demote_call_site. case_match; [|done]. destruct s as [? r ? ? ? ? ? ?].
  unfold canonicalize_call_site in *. cbn -[sort dedup ig_signature]. cbn in H. ok_inv.
  assert (opt_result canonicalize_receiver (option_map demote_receiver r)
          = Ok (option_map demote_receiver r)) as -> by (by destruct r).
  cbn [rbind]. by rewrite ig_signature_fixed.
Qed.

Lemma demote_catalogs_canonical facts :
  catalogs_canonical facts -> catalogs_canonical (demote_suppressed_regions facts).
Proof.
  intros H. unfold demote_suppressed_regions. case_match; [|done].
  destruct H as (Ho & Hd & Hg & Hc & Hf & Hn & Ha & Hs & Hds & Hdc).
  unfold catalogs_canonical, demote_records. cbn -[key]. split_and!; try done.
  - apply sorted_fixed_map; auto using demote_global_fixed.
  - apply sorted_fixed_map; auto using demote_class_fixed.
  - apply sorted_fixed_map; auto using demote_function_fixed.
  - by apply SortedBy_filter.
  - apply sorted_fixed_map; auto using demote_attribute_site_fixed.
    intros s. unfold demote_attribute_site. by case_match.
  - apply sorted_fixed_map; auto using demote_call_site_fixed.
    intros s. unfold demote_call_site. by case_match.
Qed.

Lemma canonicalize_module_canonical facts facts' :
  canonicalize_module facts = Ok facts' ->
  catalogs_canonical facts' /\ demote_suppressed_regions facts' = facts'.
Proof.
  unfold canonicalize_module. intros H. ok_inv. apply canonicalize_catalogs_canonical in E.
  split; [by apply demote_catalogs_canonical|apply demote_twice].
Qed.

Lemma canonicalize_module_fixed facts :
  catalogs_canonical facts -> demote_suppressed_regions facts = facts ->
  canonicalize_module facts = Ok facts.
Proof.
  intros H E. unfold canonicalize_module. rewrite catalogs_canonical_fixed by done. cbn. by rewrite E.
Qed.

(** C38: canonicalisation is idempotent: the canonical facts of a module are sorted,
    normalised and demoted, and encoding them again changes nothing. *)
Theorem canonicalize_module_idempotent facts facts' :
  canonicalize_module facts = Ok facts' ->
  canonicalize_module facts' = Ok facts' /\ catalogs_canonical facts' /\
  validate_demoted facts' = Ok tt.
Proof.
  intros H%canonicalize_module_canonical. destruct H as [Hc Hd].
  split; [by apply canonicalize_module_fixed|]. split; [done|].
  unfold validate_demoted. rewrite Hd, bool_decide_true by done. by case_match.
Qed.

Lemma canonicalize_module_idempotent_witness :
  let facts := Sample.facts in
  let reversed := mkModuleTypeFacts 7 Sample.content Sample.digest 60 SD_SoacStrict
    (mkResolvedStrictPolicy true true []) [] [Sample.global_a] [Sample.class_b; Sample.class_a]
    [] [] [] [] [Sample.ignored_in_a] in
  canonicalize_module reversed = Ok (demote_suppressed_regions facts) /\
  canonicalize_module (demote_suppressed_regions facts) = Ok (demote_suppressed_regions facts).
Proof.
  split; [vm_compute; reflexivity|].
  refine (proj1 (canonicalize_module_idempotent Sample.facts _ _)). vm_compute. reflexivity.
Defined.

(** ** The order in which facts are emitted *)

(** The same facts with every unordered catalogue listed in another order; the
    keyed catalogues list a key once, which [validate_module_facts] requires. *)
Definition same_catalogs (a b : ModuleTypeFacts) : Prop :=
  mtf_schema_version a = mtf_schema_version b /\ mtf_module a = mtf_module b /\
  mtf_source_digest a = mtf_source_digest b /\ mtf_source_size a = mtf_source_size b /\
  mtf_source_dialect a = mtf_source_dialect b /\
  rsp_strict_assign (mtf_language_policy a) = rsp_strict_assign (mtf_language_policy b) /\
  rsp_checked_attr (mtf_language_policy a) = rsp_checked_attr (mtf_language_policy b) /\
  rsp_class_overrides (mtf_language_policy a) ≡ₚ rsp_class_overrides (mtf_language_policy b) /\
  reordered dependency_name (mtf_consumed_dependencies a) (mtf_consumed_dependencies b) /\
  reordered gb_name (mtf_global_bindings a) (mtf_global_bindings b) /\
  reordered ct_identity (mtf_classes a) (mtf_classes b) /\
  reordered fn_identity (mtf_functions a) (mtf_functions b) /\
  mtf_nominal_bindings a ≡ₚ mtf_nominal_bindings b /\
  reordered asf_identity (mtf_attribute_sites a) (mtf_attribute_sites b) /\
  reordered cs_identity (mtf_call_sites a) (mtf_call_sites b) /\
  mtf_diagnostics a ≡ₚ mtf_diagnostics b.

(** canonicalisation does not depend on the order in which the producer
    listed the facts: reordered catalogues give the same canonical module, or the
    same error. *)
Theorem canonicalize_module_order a b :
  same_catalogs a b -> canonicalize_module a = canonicalize_module b.
Proof.
  intros (E1 & E2 & E3 & E4 & E5 & E6 & E7 & Ho & Hd & Hg & Hc & Hf & Hn & Ha & Hs & Hds).
  unfold canonicalize_module, canonicalize_catalogs, canonicalize_dependencies.
  rewrite (reordered_sort _ _ _ Hd), (reordered_sort _ _ _ Hg), (reordered_sort _ _ _ Hc),
    (reordered_sort _ _ _ Hf), (reordered_sort _ _ _ Ha), (reordered_sort _ _ _ Hs).
  rewrite (sort_perm_eq _ _ Ho), (sort_perm_eq _ _ Hn).
  rewrite (sort_perm_eq (map canonicalize_diagnostic (mtf_diagnostics a))
             (map canonicalize_diagnostic (mtf_diagnostics b))) by (by rewrite Hds).
  by rewrite E1, E2, E3, E4, E5, E6, E7.
Qed.

Lemma canonicalize_module_order_witness :
  let facts classes := mkModuleTypeFacts 7 Sample.content Sample.digest 60 SD_SoacStrict
    (mkResolvedStrictPolicy true true []) [] [Sample.global_a] classes [] [] [] []
    [Sample.ignored_in_a] in
  canonicalize_module (facts [Sample.class_b; Sample.class_a]) =
  canonicalize_module (facts [Sample.class_a; Sample.class_b]).
Proof.
  cbv zeta. apply canonicalize_module_order.
  split_and!; try reflexivity; try (split; [reflexivity|]; repeat constructor; set_solver).
  split; [apply perm_swap|]. apply (bool_decide_unpack _). vm_compute. exact I.
Defined.
