(* ===== verification/Inheritance.v ===== *)
(** * The inheritance check ([Context::inheritance_graph])

    The explicit-stack depth-first search accepts exactly the class catalogues
    whose local inheritance relation is acyclic, and [inheritance_fuel] pops are
    always enough. *)

From stdpp Require Import relations.
From Stdlib Require Import Sorting.Sorted.
From S2P Require Import Prelude Order Collections Identity StaticTypes Facts.
From S2P Require Import Diagnostics Validation.

Section graph.
Context (self : ValidationContext).
Implicit Types (x y : SourceIdentity) (state : list (SourceIdentity * Z)).
Implicit Types (stack : list (SourceIdentity * bool)).

(** [y] is a local class named as a direct base of the local class [x]. *)
Definition inherits x y : Prop :=
  exists class base, bmap_get x (ctx_classes self) = Some class /\
    BR_Class base ∈ ct_bases class /\ cr_definition base = y /\
    is_Some (bmap_get y (ctx_classes self)).

Lemma elem_of_graph_bases x y : y ∈ graph_bases self x <-> inherits x y.
Proof.
  unfold graph_bases, inherits. destruct (bmap_get x (ctx_classes self)) as [class|] eqn:E.
  2: { split; [set_solver|]. intros (? & ? & [=] & _). }
  rewrite list_elem_of_In, List.filter_In, <- list_elem_of_In, list_elem_of_fmap. split.
  - intros [(base & -> & Hb) Hs]. apply list_elem_of_omap in Hb as (br & Hbr & Hc).
    rewrite elem_of_rev_iff in Hbr. destruct br; cbn in Hc; [|done]. injection Hc as ->.
    exists class, base. repeat split; [done|].
    by destruct (bmap_get (cr_definition base) (ctx_classes self)).
  - intros (c & base & [= <-] & Hb & <- & [v Hv]). split; [|by rewrite Hv].
    exists base. split; [done|]. apply list_elem_of_omap. exists (BR_Class base).
    split; [|done]. by apply elem_of_rev_iff.
Qed.

(** ** The search invariant *)

Definition black state y : Prop := bmap_get y state = Some 2%Z.

(** The classes whose exit is still on the stack. *)
Definition exits stack : list SourceIdentity :=
  omap (fun e : SourceIdentity * bool => if e.2 then Some e.1 else None) stack.

(** Every base of a class whose exit is pending is covered by [P] or by an
    entry above that exit. *)
Fixpoint exits_ok (P : SourceIdentity -> Prop) stack : Prop :=
  match stack with
  | [] => True
  | (x, b) :: stack =>
      (b = true -> forall y, inherits x y -> P y) /\ exits_ok (fun y => P y \/ y = x) stack
  end.

(** An entry above an exit was reached from the exiting class. *)
Definition below_reaches (upper lower : SourceIdentity * bool) : Prop :=
  lower.2 = true -> tc inherits lower.1 upper.1.

Record search_inv (targets : SourceIdentity -> Prop) state stack : Prop := {
  inv_values : forall x v, bmap_get x state = Some v -> v = 1%Z \/ v = 2%Z;
  inv_known : Forall (fun e => is_Some (bmap_get e.1 (ctx_classes self))) stack;
  inv_closed : forall x y, black state x -> inherits x y -> black state y;
  inv_acyclic : forall x, black state x -> ~ tc inherits x x;
  inv_gray : forall x, bmap_get x state = Some 1%Z <-> x ∈ exits stack;
  inv_exits : NoDup (exits stack);
  inv_bases : exits_ok (black state) stack;
  inv_reach : StronglySorted below_reaches stack;
  inv_targets : forall x, targets x -> black state x \/ x ∈ stack.*1;
}.

Lemma exits_ok_mono (P Q : SourceIdentity -> Prop) stack :
  (forall y, P y -> Q y) -> exits_ok P stack -> exits_ok Q stack.
Proof.
  revert P Q. induction stack as [|[x b] stack IH]; cbn; [done|]. intros P Q HPQ [H1 H2].
  split; [eauto|]. eapply IH; [|exact H2]. naive_solver.
Qed.

Lemma exits_ok_pushed P bases stack :
  exits_ok (fun y => P y \/ y ∈ bases) stack ->
  exits_ok P (map (fun base => (base, false)) bases ++ stack).
Proof.
  revert P. induction bases as [|x bases IH]; cbn; intros P H.
  - eapply exits_ok_mono; [|exact H]. set_solver.
  - split; [done|]. apply IH. eapply exits_ok_mono; [|exact H]. set_solver.
Qed.

(** Black classes stay closed, so reaching a gray class from a black one is
    impossible. *)
Lemma black_reaches state x y :
  (forall x y, black state x -> inherits x y -> black state y) ->
  tc inherits x y -> black state x -> black state y.
Proof. intros Hc. induction 1; eauto. Qed.

Lemma inv_exit targets state x stack :
  search_inv targets state ((x, true) :: stack) ->
  search_inv targets (bmap_insert x 2%Z state) stack.
Proof.
  intros [Hv Hk Hc Ha Hg Hn Hb Hr Ht]. cbn in Hb, Hn. destruct Hb as [Hx Hb].
  apply NoDup_cons in Hn as [Hnx Hn]. specialize (Hx eq_refl).
  assert (forall y, black (bmap_insert x 2%Z state) y <-> black state y \/ y = x) as Hblack.
  { intros y. unfold black. destruct (decide (x = y)) as [->|Hne].
    - rewrite bmap_get_insert_eq. naive_solver.
    - rewrite bmap_get_insert_ne by done. naive_solver. }
  assert (bmap_get x state = Some 1%Z) as Hgx by (apply Hg; cbn; set_solver).
  split.
  - intros y v. destruct (decide (x = y)) as [->|Hne].
    + rewrite bmap_get_insert_eq. naive_solver.
    + rewrite bmap_get_insert_ne by done. apply Hv.
  - by inversion Hk.
  - intros y z. rewrite !Hblack. intros [Hy| ->] Hyz; left; eauto.
  - intros y. rewrite Hblack. intros [Hy| ->]; [by apply Ha|]. intros Hcyc.
    assert (black state x) as Hbx; [|unfold black in Hbx; congruence].
    inversion Hcyc as [? ? H1|? z ? H1 H2]; subst; [eauto|].
    eapply black_reaches; [exact Hc|exact H2|]. eauto.
  - intros y. destruct (decide (x = y)) as [->|Hne].
    + rewrite bmap_get_insert_eq. split; [done|]. intros Hy. by destruct Hnx.
    + rewrite bmap_get_insert_ne by done. rewrite Hg. cbn. set_solver.
  - done.
  - eapply exits_ok_mono; [|exact Hb]. intros y. by rewrite Hblack.
  - by inversion Hr.
  - intros y Hy. rewrite Hblack. apply Ht in Hy. cbn in Hy. set_solver.
Qed.

Lemma inv_skip targets state x stack :
  black state x -> search_inv targets state ((x, false) :: stack) ->
  search_inv targets state stack.
Proof.
  intros Hx [Hv Hk Hc Ha Hg Hn Hb Hr Ht]. split; try done.
  - by inversion Hk.
  - destruct Hb as [_ Hb]. eapply exits_ok_mono; [|exact Hb]. naive_solver.
  - by inversion Hr.
  - intros y Hy. apply Ht in Hy. cbn in Hy. set_solver.
Qed.

(** Meeting a class whose exit is pending closes a cycle. *)
Lemma inv_cycle targets state x stack :
  bmap_get x state = Some 1%Z -> search_inv targets state ((x, false) :: stack) ->
  tc inherits x x.
Proof.
  intros Hx H. apply (inv_gray _ _ _ H) in Hx. cbn in Hx.
  apply list_elem_of_omap in Hx as ([y []] & Hy & [= ->]).
  pose proof (inv_reach _ _ _ H) as Hr. inversion Hr as [|? ? _ Hall]; subst.
  rewrite Forall_forall in Hall. exact (Hall _ Hy eq_refl).
Qed.

Lemma fold_push bases stack :
  fold_left (fun stack base => (base, false) :: stack) bases stack
  = map (fun base => (base, false)) (rev bases) ++ stack.
Proof.
  revert stack. induction bases as [|x bases IH]; intros stack; cbn; [done|].
  rewrite IH, map_app, <- app_assoc. done.
Qed.

Lemma exits_pushed bases stack :
  exits (map (fun base => (base, false)) bases ++ stack) = exits stack.
Proof. unfold exits. induction bases; cbn; done. Qed.

Lemma StronglySorted_pushed (R : SourceIdentity * bool -> SourceIdentity * bool -> Prop) bases stack :
  (forall u l, l.2 = false -> R u l) ->
  Forall (fun base => Forall (R (base, false)) stack) bases -> StronglySorted R stack ->
  StronglySorted R (map (fun base => (base, false)) bases ++ stack).
Proof.
  intros HR Hb Hs. induction Hb as [|x bases Hx Hb IH]; cbn; [done|]. constructor; [done|].
  apply Forall_app. split; [|done]. clear -HR. induction bases; cbn; constructor; auto.
Qed.

Lemma inv_push targets state x stack :
  bmap_get x state = None -> search_inv targets state ((x, false) :: stack) ->
  search_inv targets (bmap_insert x 1%Z state)
    (map (fun base => (base, false)) (rev (graph_bases self x)) ++ (x, true) :: stack).
Proof.
  intros Hx [Hv Hk Hc Ha Hg Hn Hb Hr Ht]. set (bases := rev (graph_bases self x)).
  assert (forall y, y ∈ bases <-> inherits x y) as Hbases.
  { intros y. subst bases. by rewrite elem_of_rev_iff, elem_of_graph_bases. }
  assert (forall y, black (bmap_insert x 1%Z state) y <-> black state y) as Hblack.
  { intros y. unfold black. destruct (decide (x = y)) as [->|Hne].
    - rewrite bmap_get_insert_eq. naive_solver.
    - by rewrite bmap_get_insert_ne by done. }
  assert (x ∉ exits stack) as Hnx.
  { intros H. assert (bmap_get x state = Some 1%Z) by (by apply Hg). congruence. }
  inversion Hk as [|? ? Hkx Hk']; subst. inversion Hr as [|? ? Hr' Hrx]; subst.
  assert (Forall (below_reaches (x, true)) stack) as Hrx' by done.
  assert (Forall (fun base => Forall (below_reaches (base, false)) ((x, true) :: stack)) bases)
    as Hrb.
  { apply Forall_forall. intros y Hy%Hbases. constructor.
    - intros _. by apply tc_once.
    - eapply List.Forall_impl; [|exact Hrx]. intros e He Hl. eapply tc_r; [by apply He|done]. }
  split.
  - intros y v. destruct (decide (x = y)) as [->|Hne].
    + rewrite bmap_get_insert_eq. naive_solver.
    + rewrite bmap_get_insert_ne by done. apply Hv.
  - apply Forall_app. split; [|by constructor]. apply Forall_forall.
    intros e (y & -> & Hy)%list_elem_of_fmap. by apply Hbases in Hy as (? & ? & _ & _ & _ & ?).
  - intros y z. rewrite !Hblack. apply Hc.
  - intros y. rewrite Hblack. apply Ha.
  - intros y. rewrite exits_pushed. cbn. destruct (decide (x = y)) as [->|Hne].
    + rewrite bmap_get_insert_eq. set_solver.
    + rewrite bmap_get_insert_ne, Hg by done. cbn. set_solver.
  - rewrite exits_pushed. by constructor.
  - apply exits_ok_pushed. cbn. split; [intros _ y Hy; right; by apply Hbases|].
    destruct Hb as [_ Hb]. eapply exits_ok_mono; [|exact Hb]. intros y. rewrite Hblack. naive_solver.
  - apply StronglySorted_pushed; [intros u l Hl Hl'; congruence|done|by constructor].
  - intros y Hy. rewrite Hblack. apply Ht in Hy. rewrite fmap_app. cbn in *. set_solver.
Qed.

(** ** Termination *)

(** The pushes still to come: a class that was not entered yet pushes its exit
    and its bases. *)
Definition white_pushes state (classes : list (SourceIdentity * ClassTypeFact)) : nat :=
  list_sum (map (fun entry =>
    match bmap_get entry.1 state with
    | None => S (length (graph_bases self entry.1))
    | Some _ => 0
    end) classes).

Lemma white_pushes_insert_le x v state classes :
  white_pushes (bmap_insert x v state) classes <= white_pushes state classes.
Proof.
  unfold white_pushes, list_sum. induction classes as [|[y c] l IH]; cbn in *; [lia|].
  destruct (decide (x = y)) as [->|Hne].
  - rewrite bmap_get_insert_eq. case_match; lia.
  - rewrite bmap_get_insert_ne by done. case_match; lia.
Qed.

Lemma white_pushes_insert x v state classes :
  bmap_get x state = None -> x ∈ classes.*1 ->
  white_pushes (bmap_insert x v state) classes + S (length (graph_bases self x))
  <= white_pushes state classes.
Proof.
  intros Hx. induction classes as [|[y c] l IH]; cbn; [set_solver|].
  rewrite elem_of_cons. pose proof (white_pushes_insert_le x v state l) as Hl.
  unfold white_pushes, list_sum in *. cbn in *. intros [->|Hin].
  - rewrite bmap_get_insert_eq, Hx. lia.
  - specialize (IH Hin). destruct (decide (x = y)) as [->|Hne].
    + rewrite bmap_get_insert_eq. case_match; lia.
    + rewrite bmap_get_insert_ne by done. case_match; lia.
Qed.

Lemma white_pushes_start state classes :
  white_pushes state classes
  <= list_sum (map (fun entry => S (length (graph_bases self entry.1))) classes).
Proof. unfold white_pushes, list_sum. induction classes; cbn in *; [lia|]. case_match; lia. Qed.

(** ** The search is correct *)

Definition cyclic_error {A} : Result A := structure "cyclic logical class inheritance".

Lemma inheritance_visit_spec targets fuel state stack :
  search_inv targets state stack ->
  length stack + white_pushes state (ctx_classes self) <= fuel ->
  (exists state', inheritance_visit self fuel state stack = Ok state' /\
                  search_inv targets state' []) \/
  (inheritance_visit self fuel state stack = cyclic_error /\ exists x, tc inherits x x).
Proof.
  revert state stack. induction fuel as [|fuel IH]; intros state [|[x exiting] stack] Hinv Hf.
  - left. by exists state.
  - cbn in Hf. lia.
  - left. by exists state.
  - cbn [inheritance_visit]. cbn [length] in Hf. destruct exiting.
    { apply IH; [by apply inv_exit|]. pose proof (white_pushes_insert_le x 2%Z state (ctx_classes self)).
      lia. }
    destruct (bmap_get x state) as [v|] eqn:Hx.
    { destruct (inv_values _ _ _ Hinv _ _ Hx) as [-> | ->].
      - right. split; [done|]. exists x. by eapply inv_cycle.
      - apply IH; [by eapply inv_skip|lia]. }
    rewrite fold_push. apply IH; [by apply inv_push|].
    pose proof (inv_known _ _ _ Hinv) as Hk. inversion Hk as [|? ? Hkx _]; subst.
    apply bmap_get_some_key in Hkx. cbn in Hkx.
    pose proof (white_pushes_insert x 1%Z state _ Hx Hkx).
    rewrite length_app, length_map, length_rev. cbn [length]. lia.
Qed.

(** Between two roots nothing is gray and every earlier root is black. *)
Lemma inv_next_root targets state x :
  search_inv targets state [] -> is_Some (bmap_get x (ctx_classes self)) ->
  search_inv (fun y => targets y \/ y = x) state [(x, false)].
Proof.
  intros [Hv Hk Hc Ha Hg Hn Hb Hr Ht] Hx. split; try done.
  - by constructor.
  - by repeat constructor.
  - intros y [Hy| ->]; [|cbn; set_solver]. left. apply Ht in Hy. cbn in Hy. set_solver.
Qed.

Definition visit_root state (entry : SourceIdentity * ClassTypeFact) :=
  if bool_decide (bmap_get entry.1 state = Some 2%Z) then Ok state
  else inheritance_visit self (inheritance_fuel self) state [(entry.1, false)].

Lemma visit_roots_spec targets roots state :
  search_inv targets state [] -> Forall (fun e => is_Some (bmap_get e.1 (ctx_classes self))) roots ->
  (exists state', for_fold visit_root state roots = Ok state' /\
     search_inv (fun y => targets y \/ y ∈ roots.*1) state' []) \/
  (for_fold visit_root state roots = cyclic_error /\ exists x, tc inherits x x).
Proof.
  intros Hinv Hroots. revert targets state Hinv.
  induction Hroots as [|[x c] roots Hx Hroots IH]; intros targets state Hinv; cbn [for_fold].
  { left. exists state. split; [done|]. destruct Hinv as [Hv Hk Hc Ha Hg Hn Hb Hr Ht].
    split; try done. set_solver. }
  assert ((exists state', visit_root state (x, c) = Ok state' /\
            search_inv (fun y => targets y \/ y = x) state' []) \/
          (visit_root state (x, c) = cyclic_error /\ exists x, tc inherits x x)) as H.
  { unfold visit_root. cbn [fst]. case_bool_decide as Hb.
    - left. exists state. split; [done|]. destruct Hinv as [Hv Hk Hc Ha Hg Hn Hbs Hr Ht].
      split; try done. intros y [Hy| ->]; [by apply Ht|by left].
    - apply inheritance_visit_spec; [by apply inv_next_root|].
      pose proof (white_pushes_start state (ctx_classes self)). unfold inheritance_fuel.
      cbn [length]. lia. }
  destruct H as [(state' & -> & Hinv')|[H Hcyc]].
  - cbn [rbind].
    destruct (IH _ _ Hinv') as [(s & -> & Hs)|[-> ?]]; [left|by right].
    exists s. split; [done|]. destruct Hs as [Hv Hk Hc Ha Hg Hn Hbs Hr Ht].
    split; try done. intros y Hy. apply Ht. cbn in Hy. set_solver.
  - right. rewrite H. cbn. by split.
Qed.

Lemma search_start : search_inv (fun _ => False) [] [].
Proof. split; cbn; try done; try constructor; set_solver. Qed.

Lemma inheritance_graph_cases :
  (ctx_inheritance_graph self = Ok tt /\ forall x, ~ tc inherits x x) \/
  (ctx_inheritance_graph self = cyclic_error /\ exists x, tc inherits x x).
Proof.
  assert (Forall (fun e => is_Some (bmap_get e.1 (ctx_classes self))) (ctx_classes self)) as Hall.
  { apply Forall_forall. intros [x c] Hx. apply bmap_get_some_key. cbn.
    by apply (list_elem_of_fmap_2 fst) in Hx. }
  unfold ctx_inheritance_graph.
  destruct (visit_roots_spec _ _ _ search_start Hall) as [(s & E & Hs)|[E Hcyc]];
    unfold visit_root in E; rewrite E; cbn [rbind]; [left|by right].
  split; [done|]. intros x Hx. assert (black s x) as Hb; [|by eapply inv_acyclic].
  assert (is_Some (bmap_get x (ctx_classes self))) as Hk%bmap_get_some_key.
  { inversion Hx as [? ? H1|? z ? H1 _]; subst; destruct H1 as (cl & _ & -> & _); by eexists. }
  destruct (inv_targets _ _ _ Hs x (or_intror Hk)) as [?|H]; [done|]. cbn in H. set_solver.
Qed.
End graph.

(** C19: [inheritance_graph] decides acyclicity of the local inheritance relation:
    it succeeds exactly when no class inherits from itself through local direct
    bases, and otherwise fails with the cyclic-inheritance error; the search never
    stops for lack of fuel. *)
Theorem inheritance_graph_acyclic self :
  (ctx_inheritance_graph self = Ok tt <-> forall x, ~ tc (inherits self) x x) /\
  (ctx_inheritance_graph self = cyclic_error <-> exists x, tc (inherits self) x x).
Proof.
  destruct (inheritance_graph_cases self) as [[E H]|[E H]]; rewrite E; naive_solver.
Qed.
