(* ===== verification/ValidationProps.v ===== *)
(** * What validation guarantees ([soac_contracts/src/validation.rs])

    The parameter discipline of signatures, the resolution of class references,
    the catalogue laws of validated facts, and the UTF-8 safety of the source
    slices the validator takes. *)

From stdpp Require Import relations.
From Stdlib Require Import Sorting.Sorted.
From S2P Require Import Prelude Order Collections Text Identity StaticTypes Normalize.
From S2P Require Import Facts Diagnostics DiagnosticsProps Validation Inheritance.

Lemma reject_ok c m : reject c m = Ok tt <-> c = false.
Proof. unfold reject, ensure. destruct c; cbn; naive_solver. Qed.
Lemma ensure_ok {E} c (e : E) : ensure c e = Ok tt <-> c = true.
Proof. unfold ensure. destruct c; naive_solver. Qed.
Lemma rbind_unit_ok {E A} (r : result E unit) (k : result E A) a :
  (do? r; k) = Ok a <-> r = Ok tt /\ k = Ok a.
Proof. destruct r as [[]|]; cbn; naive_solver. Qed.

(** ** Signatures *)

Definition has_default (p : ParameterTypeFact) : bool := negb (default_is_missing (par_default p)).
Definition is_positional (p : ParameterTypeFact) : bool :=
  match par_kind p with PK_PositionalOnly | PK_PositionalOrKeyword => true | _ => false end.
Definition is_varargs (p : ParameterTypeFact) : bool :=
  match par_kind p with PK_VarArgs => true | _ => false end.
Definition is_varkw (p : ParameterTypeFact) : bool :=
  match par_kind p with PK_VarKeywords => true | _ => false end.
(** Python's binding order of the parameter kinds. *)
Definition rank_of (k : ParameterKind) : Z :=
  match k with
  | PK_PositionalOnly => 0 | PK_PositionalOrKeyword => 1 | PK_VarArgs => 2
  | PK_KeywordOnly => 3 | PK_VarKeywords => 4
  end.
Definition kind_rank (p : ParameterTypeFact) : Z := rank_of (par_kind p).

(** A parameter Python accepts on its own. *)
Definition parameter_alone (p : ParameterTypeFact) : Prop :=
  validate_name (par_name p) = Ok tt /\
  (is_varargs p || is_varkw p = true -> has_default p = false).

(** [p] may precede [q]: Python's binding order. *)
Definition parameter_before (p q : ParameterTypeFact) : Prop :=
  par_name p <> par_name q /\ (kind_rank p <= kind_rank q)%Z /\
  ~ (is_varargs p = true /\ is_varargs q = true) /\
  ~ (is_varkw p = true /\ is_varkw q = true) /\
  (is_positional p && has_default p = true -> is_positional q = true -> has_default q = true).

Definition scan_parameter (scan : SignatureScan) (p : ParameterTypeFact) : Result SignatureScan :=
  signature_scan_step scan (par_name p) (par_kind p) (has_default p).

(** [scan] is the state of the loop after the parameters [seen]. *)
Record scanned (seen : list ParameterTypeFact) (scan : SignatureScan) : Prop := {
  scanned_names : forall n, n ∈ scan_names scan <-> exists p, p ∈ seen /\ par_name p = n;
  scanned_kinds : forall p, p ∈ seen -> (kind_rank p <= rank_of (scan_previous_kind scan))%Z;
  scanned_kind : rank_of (scan_previous_kind scan) = 0%Z \/
    exists p, p ∈ seen /\ kind_rank p = rank_of (scan_previous_kind scan);
  scanned_varargs : scan_has_varargs scan = true <-> exists p, p ∈ seen /\ is_varargs p = true;
  scanned_varkw : scan_has_varkw scan = true <-> exists p, p ∈ seen /\ is_varkw p = true;
  scanned_default : scan_positional_default scan = true <->
    exists p, p ∈ seen /\ is_positional p && has_default p = true;
}.

Lemma ord_lt_kind a b : ord_lt a b = false <-> (rank_of b <= rank_of a)%Z.
Proof. destruct a, b; vm_compute; naive_solver. Qed.

Lemma exists_cons {A} (P : A -> Prop) x l :
  (exists y, y ∈ x :: l /\ P y) <-> P x \/ exists y, y ∈ l /\ P y.
Proof. set_solver. Qed.

(** The test and the next state of one iteration. *)
Definition scan_guard (scan : SignatureScan) (p : ParameterTypeFact) : bool :=
  is_ok (validate_name (par_name p)) && negb (bset_contains (par_name p) (scan_names scan))
  && negb (ord_lt (par_kind p) (scan_previous_kind scan))
  && negb (is_varargs p && (scan_has_varargs scan || has_default p))
  && negb (is_varkw p && (scan_has_varkw scan || has_default p))
  && negb (is_positional p && scan_positional_default scan && negb (has_default p)).

Definition scan_next (scan : SignatureScan) (p : ParameterTypeFact) : SignatureScan :=
  mkSignatureScan (bset_insert (par_name p) (scan_names scan)) (par_kind p)
    (scan_has_varargs scan || is_varargs p) (scan_has_varkw scan || is_varkw p)
    (scan_positional_default scan || (is_positional p && has_default p)).

Lemma scan_parameter_ok scan scan' p :
  scan_parameter scan p = Ok scan' <-> scan_guard scan p = true /\ scan' = scan_next scan p.
Proof.
  destruct scan as [ns k a w d]. unfold scan_parameter, signature_scan_step, scan_guard, scan_next.
  unfold is_varargs, is_varkw, is_positional.
  cbn [scan_names scan_previous_kind scan_has_varargs scan_has_varkw scan_positional_default].
  assert (forall (e : ContractError) (q : SignatureScan),
    Err e = Ok scan' <-> false = true /\ scan' = q) as Hno by (split; [done|by intros [? _]]).
  assert (forall q : SignatureScan, @Ok ContractError _ q = Ok scan' <-> true = true /\ scan' = q) as Hyes.
  { intros q. split; [by intros [= <-]|by intros [_ ->]]. }
  destruct (validate_name (par_name p)) as [[]|]; [|apply Hno].
  destruct (bset_contains (par_name p) ns); [apply Hno|].
  destruct (ord_lt (par_kind p) k); [apply Hno|].
  destruct (par_kind p), a, w, d, (has_default p); (apply Hno || apply Hyes).
Qed.

Lemma scanned_next seen scan p :
  scanned seen scan -> scan_guard scan p = true -> scanned (p :: seen) (scan_next scan p).
Proof.
  intros [Hn Hk Hk0 Hva Hvk Hd] Hg. unfold scan_guard in Hg. bool_inv.
  split; unfold scan_next; cbn [scan_names scan_previous_kind scan_has_varargs scan_has_varkw
    scan_positional_default].
  - intros n. rewrite elem_of_bset_insert, exists_cons, Hn. naive_solver.
  - intros q [->|Hq]%elem_of_cons; [reflexivity|]. apply Hk in Hq.
    rewrite ord_lt_kind in *. lia.
  - right. exists p. split; [set_solver|done].
  - rewrite orb_true_iff, exists_cons, Hva. naive_solver.
  - rewrite orb_true_iff, exists_cons, Hvk. naive_solver.
  - rewrite orb_true_iff, exists_cons, Hd. naive_solver.
Qed.

(** The test is Python's rule for what may follow the parameters seen. *)
Lemma scan_guard_iff seen scan p :
  scanned seen scan ->
  scan_guard scan p = true <->
  parameter_alone p /\ forall q, q ∈ seen -> parameter_before q p.
Proof.
  intros [Hn Hk Hk0 Hva Hvk Hd].
  assert (bset_contains (par_name p) (scan_names scan) = false <->
          forall q, q ∈ seen -> par_name q <> par_name p) as Hname.
  { rewrite <- not_true_iff_false, bset_contains_elem, Hn. naive_solver. }
  assert (ord_lt (par_kind p) (scan_previous_kind scan) = false <->
          forall q, q ∈ seen -> (kind_rank q <= kind_rank p)%Z) as Hrank.
  { rewrite ord_lt_kind. change (kind_rank p) with (rank_of (par_kind p)). split.
    - intros H q Hq. specialize (Hk q Hq). lia.
    - intros H. destruct Hk0 as [->|(q & Hq & <-)]; [destruct (par_kind p); cbn; lia|auto]. }
  assert (validate_name (par_name p) = Ok tt <-> is_ok (validate_name (par_name p)) = true) as Hok.
  { destruct (validate_name (par_name p)) as [[]|]; cbn; naive_solver. }
  unfold scan_guard, parameter_alone, parameter_before.
  rewrite !andb_true_iff, !negb_true_iff, Hname, Hrank, <- Hok.
  assert (forall b c, b && c = false <-> (b = true -> c = false)) as Hand by (intros [] []; naive_solver).
  rewrite !Hand, !orb_false_iff, andb_true_iff, negb_false_iff.
  setoid_rewrite orb_true_iff. split.
  - intros [[[[[H1 H2] H3] H4] H5] H6]. split; [split; [done|naive_solver]|].
    intros q Hq. repeat split; try by auto.
    + intros [Hv1 Hv2]. destruct (H4 Hv2) as [Hf _].
      assert (scan_has_varargs scan = true) by naive_solver. congruence.
    + intros [Hv1 Hv2]. destruct (H5 Hv2) as [Hf _].
      assert (scan_has_varkw scan = true) by naive_solver. congruence.
    + intros Hq1 Hq2. apply H6. split; [done|]. apply Hd. eauto.
  - intros [[H1 H2] H3]. split_and!; try done.
    + intros q Hq. by apply H3.
    + intros q Hq. by apply H3.
    + intros Hv. split; [|auto]. apply not_true_iff_false. intros (q & Hq & Hqv)%Hva.
      destruct (H3 q Hq) as (_ & _ & Hn1 & _). by apply Hn1.
    + intros Hv. split; [|auto]. apply not_true_iff_false. intros (q & Hq & Hqv)%Hvk.
      destruct (H3 q Hq) as (_ & _ & _ & Hn1 & _). by apply Hn1.
    + intros [Hp1 (q & Hq & Hqd)%Hd]. destruct (H3 q Hq) as (_ & _ & _ & _ & Hn1). by apply Hn1.
Qed.

Lemma scan_all_ok seen scan ps :
  scanned seen scan ->
  (exists scan', for_fold scan_parameter scan ps = Ok scan') <->
  Forall parameter_alone ps /\ StronglySorted parameter_before ps /\
  forall q p, q ∈ seen -> p ∈ ps -> parameter_before q p.
Proof.
  revert seen scan. induction ps as [|p ps IH]; intros seen scan Hs; cbn [for_fold].
  { split; [|eauto]. intros _. split; [constructor|]. split; [constructor|set_solver]. }
  split.
  - intros [scan' H]. ok_inv. apply scan_parameter_ok in E as [Hg ->].
    destruct (proj1 (IH _ _ (scanned_next _ _ _ Hs Hg)) (ex_intro _ _ H)) as (H1 & H2 & H3).
    apply (scan_guard_iff _ _ _ Hs) in Hg as [Hg1 Hg2]. split; [by constructor|].
    split; [constructor; [done|]|]; [apply Forall_forall; set_solver|set_solver].
  - intros (H1 & H2 & H3). inversion H1; inversion H2; subst.
    assert (scan_guard scan p = true) as Hg.
    { apply (scan_guard_iff _ _ _ Hs). split; [done|set_solver]. }
    rewrite (proj2 (scan_parameter_ok scan (scan_next scan p) p)) by done. cbn [rbind].
    apply (IH _ _ (scanned_next _ _ _ Hs Hg)). split; [done|]. split; [done|].
    intros q r [->|Hq]%elem_of_cons Hr; [|set_solver]. by eapply Forall_forall.
Qed.

(** The types a parameter carries. *)
Definition parameter_types_ok (self : ValidationContext) (depth : nat) (p : ParameterTypeFact) : Prop :=
  ctx_static_type self (par_value_type p) (S depth) = Ok tt /\
  ctx_default self (par_default p) (S depth) = Ok tt.

Lemma ctx_parameter_ok self scan scan' p depth :
  ctx_parameter self scan p depth = Ok scan' <->
  scan_parameter scan p = Ok scan' /\ parameter_types_ok self depth p.
Proof.
  unfold parameter_types_ok. destruct p as [n k t o d]. cbn [ctx_parameter par_value_type par_default].
  change (signature_scan_step scan n k (negb (default_is_missing d)))
    with (scan_parameter scan (mkParameterTypeFact n k t o d)).
  destruct (scan_parameter scan _) as [s|]; cbn [rbind]; [|naive_solver].
  rewrite !rbind_unit_ok. naive_solver.
Qed.

Lemma ctx_parameters_ok self depth scan ps :
  (exists scan', for_fold (fun scan p => ctx_parameter self scan p depth) scan ps = Ok scan') <->
  (exists scan', for_fold scan_parameter scan ps = Ok scan') /\
  Forall (parameter_types_ok self depth) ps.
Proof.
  revert scan. induction ps as [|p ps IH]; intros scan; cbn [for_fold]; [naive_solver|].
  rewrite Forall_cons. split.
  - intros [s H]. ok_inv. apply ctx_parameter_ok in E as [-> Hp]. cbn [rbind].
    destruct (proj1 (IH _) (ex_intro _ _ H)) as [? ?]. done.
  - intros [[s H] [Hp Hps]]. ok_inv.
    rewrite (proj2 (ctx_parameter_ok _ _ _ _ _) (conj E Hp)). cbn [rbind]. apply IH. eauto.
Qed.

Lemma scanned_start : scanned [] signature_scan_start.
Proof. split; cbn; try set_solver; naive_solver. Qed.

(** [signature] accepts exactly the parameter lists Python accepts: distinct
    valid names in binding order, at most one variadic of each kind and without a
    default, no required positional after a defaulted one, together with the
    checks of every nested type. *)
Theorem ctx_signature_iff self ps r o u depth :
  ctx_signature self (mkCallableSignature ps r o u) depth = Ok tt <->
  depth <= 64 /\ Forall parameter_alone ps /\ StronglySorted parameter_before ps /\
  Forall (parameter_types_ok self depth) ps /\ ctx_static_type self r (S depth) = Ok tt.
Proof.
  cbn [ctx_signature]. destruct (Nat.ltb_spec 64 depth); [split; [done|lia]|].
  rewrite rbind_ok. pose proof (ctx_parameters_ok self depth signature_scan_start ps) as Hp.
  pose proof (scan_all_ok [] signature_scan_start ps scanned_start) as Hs.
  split.
  - intros (s & H1 & H2). destruct (proj1 Hp (ex_intro _ _ H1)) as [Hs' Hty].
    apply Hs in Hs' as (? & ? & _). done.
  - intros (_ & H1 & H2 & H3 & H4). destruct (proj2 Hp) as [s Hs'].
    { split; [|done]. apply Hs. split; [done|]. split; [done|]. set_solver. }
    eauto.
Qed.

(** ** Class references resolve *)

Fixpoint class_mentions (t : StaticType) : list ClassReference :=
  match t with
  | ST_NominalClass c | ST_ExactClass c => [c]
  | ST_Union ts => concat (map class_mentions ts)
  | ST_Optional t => class_mentions t
  | ST_Callable s => signature_mentions s
  | ST_TypeVariable (mkTypeVariableFact _ b cs) =>
      match b with Some t => class_mentions t | None => [] end ++ concat (map class_mentions cs)
  | ST_StructuralProtocol p => match pf_definition p with Some c => [c] | None => [] end
  | _ => []
  end
with signature_mentions (s : CallableSignature) : list ClassReference :=
  match s with
  | mkCallableSignature ps r _ _ => concat (map parameter_mentions ps) ++ class_mentions r
  end
with parameter_mentions (p : ParameterTypeFact) : list ClassReference :=
  match p with
  | mkParameterTypeFact _ _ t _ d => class_mentions t ++ default_mentions d
  end
with default_mentions (d : DefaultFact) : list ClassReference :=
  match d with
  | DF_Value t _ | DF_Factory _ t => class_mentions t
  | DF_Missing | DF_Unknown => []
  end.

Section mentions.
Context (self : ValidationContext).
Local Abbreviation resolved := (fun c => ctx_class_reference self c = Ok tt).

Definition mentions_resolved (t : StaticType) : Prop :=
  forall depth, ctx_static_type self t depth = Ok tt -> Forall resolved (class_mentions t).

Lemma Forall_concat_map {A B} (P : B -> Prop) (f : A -> list B) l :
  Forall (fun x => Forall P (f x)) l -> Forall P (concat (map f l)).
Proof. induction 1; cbn; [constructor|]. by apply Forall_app. Qed.

Lemma mentions_resolved_list depth ts :
  Forall mentions_resolved ts ->
  for_each (fun t => ctx_static_type self t depth) ts = Ok tt ->
  Forall resolved (concat (map class_mentions ts)).
Proof.
  intros Hts H%for_each_ok. apply Forall_concat_map.
  rewrite Forall_forall in *. intros t Ht. by eapply Hts, H.
Qed.

Lemma default_mentions_resolved depth d :
  default_all mentions_resolved d -> ctx_default self d depth = Ok tt ->
  Forall resolved (default_mentions d).
Proof.
  destruct d; cbn; intros Hd H; try constructor; rewrite rbind_unit_ok in H; by eapply Hd, H.
Qed.

Lemma signature_mentions_resolved depth s :
  signature_all mentions_resolved s -> ctx_signature self s depth = Ok tt ->
  Forall resolved (signature_mentions s).
Proof.
  destruct s as [ps r o u]. intros [Hps Hr] H. cbn in Hps, Hr.
  cbn [ctx_signature signature_mentions] in *. destruct (64 <? depth); [done|].
  apply rbind_ok in H as (scan & Hscan & Hret). apply Forall_app. split; [|by eapply Hr].
  destruct (proj1 (ctx_parameters_ok _ _ _ _) (ex_intro _ _ Hscan)) as [_ Hty].
  apply Forall_concat_map. rewrite Forall_forall in *. intros p Hp.
  specialize (Hps p Hp). specialize (Hty p Hp) as [Ht Hd]. destruct p as [n k t o' d].
  destruct Hps as [Hpt Hpd]. cbn in *. apply Forall_app. split; [by eapply Hpt|].
  by eapply default_mentions_resolved.
Qed.

Lemma static_type_mentions t : mentions_resolved t.
Proof.
  induction t as [t Ht|ts IH|t IH|s IH|v IH] using static_type_ind'; intros depth H.
  - destruct t as [| | | |c|c| | | | | |p| | | | |]; try discriminate Ht;
      cbn [ctx_static_type] in H; destruct (64 <? depth); try discriminate H; cbn;
      try constructor; try done; try constructor.
    destruct (pf_definition p); by repeat constructor.
  - cbn [ctx_static_type] in H. destruct (64 <? depth); [done|]. case_bool_decide; [done|].
    by eapply mentions_resolved_list.
  - cbn [ctx_static_type] in H. destruct (64 <? depth); [done|]. by eapply IH.
  - cbn [ctx_static_type] in H. destruct (64 <? depth); [done|].
    by eapply signature_mentions_resolved.
  - cbn [ctx_static_type] in H. destruct (64 <? depth); [done|].
    destruct v as [i b cs], IH as [IHb IHcs]. cbn in IHb, IHcs. cbn [ctx_type_variable] in H.
    rewrite !rbind_unit_ok in H. destruct H as (_ & Hb & Hcs). cbn. apply Forall_app. split.
    + destruct b; [by eapply IHb|constructor].
    + by eapply mentions_resolved_list.
Qed.
End mentions.

(** ** The validation context *)

Lemma catalog_classes_from classes definitions l classes' definitions' :
  for_fold (fun '(classes, definitions) class =>
      do? reject (is_some (bmap_get (ct_identity class) classes)) "duplicate class source identity";
      Ok (bmap_insert (ct_identity class) class classes, bset_insert (ct_identity class) definitions))
    (classes, definitions) l = Ok (classes', definitions') ->
  NoDup (map ct_identity l) /\
  (forall c, c ∈ l -> bmap_get (ct_identity c) classes = None) /\
  (forall i c, bmap_get i classes' = Some c <->
     bmap_get i classes = Some c \/ (c ∈ l /\ ct_identity c = i)) /\
  (forall i, i ∈ definitions' <-> i ∈ definitions \/ i ∈ map ct_identity l).
Proof.
  revert classes definitions. induction l as [|x l IH]; intros classes definitions; cbn [for_fold].
  { intros [= <- <-]. split; [constructor|]. set_solver. }
  destruct (bmap_get (ct_identity x) classes) eqn:Ex; [done|]. cbn.
  intros (Hn & Hnone & Hget & Hdef)%IH.
  assert (forall c, c ∈ l -> ct_identity c <> ct_identity x) as Hne.
  { intros c Hc E. specialize (Hnone c Hc). rewrite E, bmap_get_insert_eq in Hnone. done. }
  repeat split.
  - constructor; [|done]. intros (c & E & Hc)%list_elem_of_fmap. by eapply Hne.
  - intros c [->|Hc]%elem_of_cons; [done|]. specialize (Hnone c Hc).
    rewrite bmap_get_insert_ne in Hnone; [done|]. intros E. by eapply Hne.
  - intros H. apply Hget in H as [H|H]; [|set_solver].
    destruct (decide (ct_identity x = i)) as [<-|Hi].
    + rewrite bmap_get_insert_eq in H. injection H as <-. set_solver.
    + rewrite bmap_get_insert_ne in H by done. by left.
  - intros H. apply Hget. destruct (decide (ct_identity x = i)) as [<-|Hi].
    + left. rewrite bmap_get_insert_eq. destruct H as [H|[[->|Hc]%elem_of_cons E]]; [congruence|done|].
      exfalso. by eapply Hne.
    + rewrite bmap_get_insert_ne by done. set_solver.
  - rewrite Hdef. autorewrite with members. cbn. set_solver.
  - rewrite Hdef. autorewrite with members. cbn. set_solver.
Qed.

Lemma catalog_functions_from functions definitions l functions' definitions' :
  for_fold (fun '(functions, definitions) function =>
      do? reject (bset_contains (fn_identity function) functions)
        "duplicate function source identity";
      Ok (bset_insert (fn_identity function) functions,
          bset_insert (fn_identity function) definitions))
    (functions, definitions) l = Ok (functions', definitions') ->
  NoDup (map fn_identity l) /\
  (forall f, f ∈ l -> fn_identity f ∉ functions) /\
  (forall i, i ∈ functions' <-> i ∈ functions \/ i ∈ map fn_identity l) /\
  (forall i, i ∈ definitions' <-> i ∈ definitions \/ i ∈ map fn_identity l).
Proof.
  revert functions definitions. induction l as [|x l IH]; intros functions definitions; cbn [for_fold].
  { intros [= <- <-]. split; [constructor|]. set_solver. }
  destruct (bset_contains (fn_identity x) functions) eqn:Ex; [done|].
  assert (fn_identity x ∉ functions) as Hx.
  { rewrite <- bset_contains_elem, Ex. done. }
  intros (Hn & Hnone & Hget & Hdef)%IH. setoid_rewrite elem_of_bset_insert in Hnone.
  cbn. split; [|split; [|split]].
  - constructor; [|done]. intros (c & E & Hc)%list_elem_of_fmap. naive_solver.
  - intros f [->|Hf]%elem_of_cons; naive_solver.
  - intros i. rewrite Hget. autorewrite with members. set_solver.
  - intros i. rewrite Hdef. autorewrite with members. set_solver.
Qed.

Lemma dependency_map_get l m n d :
  bmap_get n (fold_left (fun m d => bmap_insert (dependency_name d) d m) l m) = Some d ->
  bmap_get n m = Some d \/ (d ∈ l /\ dependency_name d = n).
Proof.
  revert m. induction l as [|x l IH]; cbn; intros m; [by left|].
  intros [H|H]%IH; [|set_solver]. destruct (decide (dependency_name x = n)) as [<-|Hne].
  - rewrite bmap_get_insert_eq in H. injection H as <-. set_solver.
  - rewrite bmap_get_insert_ne in H by done. by left.
Qed.

(** The context's catalogues are exactly the facts' catalogues. *)
Record context_of (facts : ModuleTypeFacts) (source : option (list byte))
    (self : ValidationContext) : Prop := {
  co_facts : ctx_facts self = facts;
  co_source : ctx_source self = source;
  co_class_ids : NoDup (map ct_identity (mtf_classes facts));
  co_classes : forall i c, bmap_get i (ctx_classes self) = Some c <->
    c ∈ mtf_classes facts /\ ct_identity c = i;
  co_function_ids : NoDup (map fn_identity (mtf_functions facts));
  co_functions : forall i, i ∈ ctx_functions self <-> i ∈ map fn_identity (mtf_functions facts);
  co_definitions : forall i, i ∈ ctx_definitions self <->
    i = module_body_identity facts \/ i ∈ map ct_identity (mtf_classes facts) \/
    i ∈ map fn_identity (mtf_functions facts) \/
    (i ∈ lexical_definitions facts /\ introduces_definition facts i = true);
  co_dependencies : forall n d, bmap_get n (ctx_dependencies self) = Some d ->
    d ∈ mtf_consumed_dependencies facts /\ dependency_name d = n;
  co_rules : NoDup (map cpo_class_range (rsp_class_overrides (mtf_language_policy facts)));
}.

Lemma make_context_ok facts source self :
  make_context facts source = Ok self -> context_of facts source self.
Proof.
  unfold make_context. intros H. apply rbind_ok in H as ([classes ds] & Hc & H).
  apply rbind_unit_ok in H as [[Hr _]%for_unique_ok H].
  apply rbind_ok in H as ([functions ds'] & Hf & H).
  injection H as <-. apply catalog_classes_from in Hc as (Hn & _ & Hget & Hds).
  apply catalog_functions_from in Hf as (Hn' & _ & Hfun & Hds').
  split; cbn; try done.
  - intros i c. rewrite Hget. set_solver.
  - intros i. rewrite Hfun. set_solver.
  - intros i. rewrite elem_of_bset_extend, Hds', Hds.
    rewrite elem_of_filter_bool, list_elem_of_singleton. tauto.
  - intros n d [H|H]%dependency_map_get; [done|done].
Qed.

(** ** Validated facts *)

Section validated.
Context (digest : list byte -> Fingerprint).

(** The checks a successful validation went through. *)
Record validated_by (facts : ModuleTypeFacts) (source : option (list byte))
    (self : ValidationContext) : Prop := {
  vb_header : validate_header facts = Ok tt;
  vb_source : validate_source digest facts source = Ok source;
  vb_context : context_of facts source self;
  vb_globals : validate_globals self = Ok tt;
  vb_classes : Forall (fun c => ctx_class self c = Ok tt) (mtf_classes facts);
  vb_inheritance : ctx_inheritance_graph self = Ok tt;
  vb_functions : validate_functions self = Ok tt;
  vb_nominal : validate_nominal_bindings self = Ok tt;
  vb_attributes : validate_attribute_sites self = Ok tt;
  vb_calls : validate_call_sites self = Ok tt;
  vb_diagnostics : Forall (fun d => validate_diagnostic self d = Ok tt) (mtf_diagnostics facts);
  vb_demoted : validate_demoted facts = Ok tt;
}.

Lemma validate_source_id facts source source' :
  validate_source digest facts source = Ok source' -> source' = source.
Proof.
  unfold validate_source. destruct source; cbn; intros H; ok_inv; done.
Qed.

Lemma validate_module_facts_parts facts source :
  validate_module_facts digest facts source = Ok tt -> exists self, validated_by facts source self.
Proof.
  unfold validate_module_facts. intros H. apply rbind_unit_ok in H as [H1 H].
  apply rbind_ok in H as (source' & H2 & H). pose proof (validate_source_id _ _ _ H2) as ->.
  apply rbind_ok in H as (self & H3 & H). rewrite !rbind_unit_ok in H.
  destruct H as (H4 & H5 & H6 & H7 & H8 & H9 & H10 & H11 & H12).
  apply for_each_ok in H5, H11. exists self. split; try done. by apply make_context_ok.
Qed.

(** What a class reference of a validated module denotes: a class of the module's
    own catalogue at the module's source digest, or a class range inside a
    consumed dependency at that dependency's source digest. *)
Definition resolved_in (facts : ModuleTypeFacts) (c : ClassReference) : Prop :=
  let definition := cr_definition c in
  si_definition_kind definition = DK_Class /\
  ((si_module definition = mtf_module facts /\ cr_source_digest c = mtf_source_digest facts /\
    exists class, class ∈ mtf_classes facts /\ ct_identity class = definition) \/
   (si_module definition <> mtf_module facts /\
    exists dependency, dependency ∈ mtf_consumed_dependencies facts /\
      dep_module dependency = si_module definition /\
      dep_source_digest dependency = cr_source_digest c /\
      (sr_start (si_source_range definition) <= sr_end (si_source_range definition)
       <= dep_source_size dependency)%Z)).

Lemma validated_function_kind facts source self f :
  validated_by facts source self -> f ∈ mtf_functions facts ->
  is_function_kind (si_definition_kind (fn_identity f)) = true.
Proof.
  intros H Hf. pose proof (vb_functions _ _ _ H) as Hfs. unfold validate_functions in Hfs.
  rewrite (co_facts _ _ _ (vb_context _ _ _ H)) in Hfs. apply for_each_ok in Hfs.
  rewrite Forall_forall in Hfs. specialize (Hfs f Hf). rewrite !rbind_unit_ok, reject_ok in Hfs.
  destruct Hfs as (_ & Hk & _). by apply negb_false_iff in Hk.
Qed.

Lemma class_reference_resolved facts source self c :
  validated_by facts source self -> ctx_class_reference self c = Ok tt -> resolved_in facts c.
Proof.
  intros H Hc. pose proof (vb_context _ _ _ H) as Hctx. destruct Hctx as [Ef _ _ _ _ _ Hds Hdeps _].
  unfold ctx_class_reference in Hc. rewrite !rbind_unit_ok, reject_ok in Hc.
  destruct Hc as (Hk & Hr & Hd). bool_inv. split; [done|].
  unfold ctx_reference in Hr. rewrite !rbind_unit_ok in Hr. destruct Hr as (_ & _ & Hr).
  unfold ctx_source_digest in Hd. rewrite Ef in Hr, Hd.
  destruct (decide (si_module (cr_definition c) = mtf_module facts)) as [Em|Em].
  - left. rewrite bool_decide_true in Hr, Hd by done. cbn [rbind] in Hd.
    rewrite rbind_unit_ok, ensure_ok in Hr. destruct Hr as [_ Hr]. rewrite ensure_ok in Hd.
    bool_inv. split; [done|]. split; [done|]. apply bset_contains_elem, Hds in Hr.
    destruct Hr as [E|[Hr|[Hr|[_ Hr]]]].
    + by rewrite E in Hk.
    + apply list_elem_of_fmap in Hr as (class & E & Hin). by exists class.
    + apply list_elem_of_fmap in Hr as (f & E & Hin).
      pose proof (validated_function_kind _ _ _ _ H Hin) as Hfk. by rewrite <- E, Hk in Hfk.
    + unfold introduces_definition in Hr. rewrite Hk in Hr. by rewrite andb_false_r in Hr.
  - right. split; [done|]. rewrite bool_decide_false in Hr, Hd by done.
    destruct (bmap_get _ _) as [d|] eqn:Ed; [|done]. cbn [ok_or rbind] in Hr, Hd.
    apply Hdeps in Ed as [Hin _]. rewrite rbind_unit_ok, ensure_ok in Hr. destruct Hr as [Hr1 Hr2].
    bool_inv. rewrite bool_decide_true in Hd by done. cbn [rbind] in Hd. rewrite ensure_ok in Hd.
    unfold validate_range in Hr2. rewrite ensure_ok in Hr2. bool_inv.
    exists d. repeat split; try done; lia.
Qed.

(** ** Every class a validated module mentions *)

Definition descriptor_mentions (d : DescriptorFact) : list ClassReference :=
  match df_descriptor_type d with Some t => class_mentions t | None => [] end.
Definition field_mentions (f : FieldTypeFact) : list ClassReference :=
  ft_declaring_class f :: class_mentions (ft_value_type f) ++ default_mentions (ft_default f)
    ++ descriptor_mentions (ft_descriptor f).
Definition method_mentions (m : MethodTypeFact) : list ClassReference :=
  mt_declaring_class m :: signature_mentions (mt_signature m)
    ++ match mt_generated m with Some g => [gf_class g] | None => [] end.
Definition member_mentions (m : ClassMemberFact) : list ClassReference :=
  class_mentions (cm_value_type m) ++ descriptor_mentions (cm_descriptor m).
Definition class_fact_mentions (c : ClassTypeFact) : list ClassReference :=
  omap as_class (ct_bases c ++ inh_linearized_bases (ct_inheritance c))
    ++ match ct_metaclass c with MF_Class m => [m] | _ => [] end
    ++ concat (map field_mentions (ct_instance_fields c))
    ++ concat (map method_mentions (ct_methods c))
    ++ concat (map member_mentions (ct_class_members c)).
Definition attribute_site_mentions (s : AttributeSiteFact) : list ClassReference :=
  class_mentions (asf_receiver_type s)
    ++ match asf_value_type s with Some t => class_mentions t | None => [] end
    ++ match asf_declaring_class s with Some c => [c] | None => [] end.
Definition call_target_mentions (t : CallableTargetFact) : list ClassReference :=
  match t with
  | CTF_Method c _ _ => [c]
  | CTF_Generated g => [gf_class g]
  | CTF_SourceFunction _ | CTF_Dynamic => []
  end.
Definition call_site_mentions (s : CallSiteFact) : list ClassReference :=
  match cs_receiver s with Some r => class_mentions (rt_value_type r) | None => [] end
    ++ concat (map call_target_mentions (cs_candidate_targets s))
    ++ signature_mentions (cs_signature s) ++ class_mentions (cs_result_type s).
Definition nominal_mentions (b : NominalBindingFact) : list ClassReference :=
  nb_class b :: match nb_owner b with NBO_Field f => [fr_declaring_class f] | NBO_Function _ _ => [] end.
Definition facts_mentions (facts : ModuleTypeFacts) : list ClassReference :=
  concat (map (fun b => class_mentions (gb_value_type b)) (mtf_global_bindings facts))
    ++ concat (map class_fact_mentions (mtf_classes facts))
    ++ concat (map (fun f => signature_mentions (fn_signature f)) (mtf_functions facts))
    ++ concat (map nominal_mentions (mtf_nominal_bindings facts))
    ++ concat (map attribute_site_mentions (mtf_attribute_sites facts))
    ++ concat (map call_site_mentions (mtf_call_sites facts)).

Section resolve.
Context (self : ValidationContext).
Local Abbreviation resolved := (fun c => ctx_class_reference self c = Ok tt).

Lemma type_resolves t depth :
  ctx_static_type self t depth = Ok tt -> Forall resolved (class_mentions t).
Proof. apply static_type_mentions. Qed.
Lemma default_resolves d depth :
  ctx_default self d depth = Ok tt -> Forall resolved (default_mentions d).
Proof.
  apply default_mentions_resolved. destruct d; cbn; try done; apply static_type_mentions.
Qed.
Lemma signature_resolves s depth :
  ctx_signature self s depth = Ok tt -> Forall resolved (signature_mentions s).
Proof.
  apply signature_mentions_resolved. destruct s as [ps r o u].
  split; cbn; [|apply static_type_mentions]. apply Forall_forall. intros [n k t o' d] _.
  split; cbn; [apply static_type_mentions|]. destruct d; cbn; try done; apply static_type_mentions.
Qed.
Lemma descriptor_resolves d :
  ctx_descriptor self d = Ok tt -> Forall resolved (descriptor_mentions d).
Proof.
  unfold ctx_descriptor, descriptor_mentions. rewrite rbind_unit_ok. intros [H _].
  destruct (df_descriptor_type d); [by eapply type_resolves|constructor].
Qed.
Lemma declaring_class_resolves owner c :
  ctx_declaring_class self owner c = Ok tt -> ctx_class_reference self c = Ok tt.
Proof. unfold ctx_declaring_class. rewrite rbind_unit_ok. by intros [H _]. Qed.

Lemma generated_resolves g :
  ctx_generated_function self g = Ok tt -> ctx_class_reference self (gf_class g) = Ok tt.
Proof. unfold ctx_generated_function. rewrite rbind_unit_ok. by intros [H _]. Qed.
Lemma call_target_resolves t binding :
  ctx_call_target self t binding = Ok tt -> Forall resolved (call_target_mentions t).
Proof.
  destruct t; cbn; try done; intros H.
  - rewrite rbind_unit_ok in H. destruct H as [H _]. by repeat constructor.
  - apply generated_resolves in H. by repeat constructor.
Qed.

Lemma class_fields_resolve c :
  class_fields self c = Ok tt -> Forall resolved (concat (map field_mentions (ct_instance_fields c))).
Proof.
  unfold class_fields. intros [_ H]%for_unique_ok. apply Forall_concat_map.
  eapply List.Forall_impl; [|exact H]. cbn beta. intros f [_ Hf].
  rewrite !rbind_unit_ok in Hf. destruct Hf as (H1 & _ & H2 & H3 & H4 & _).
  unfold field_mentions. constructor; [by eapply declaring_class_resolves|].
  rewrite !Forall_app.
  split_and!; [by eapply type_resolves|by eapply default_resolves|by eapply descriptor_resolves].
Qed.
Lemma class_methods_resolve c :
  class_methods self c = Ok tt -> Forall resolved (concat (map method_mentions (ct_methods c))).
Proof.
  unfold class_methods. intros [_ H]%for_unique_ok. apply Forall_concat_map.
  eapply List.Forall_impl; [|exact H]. cbn beta. intros m [_ Hm].
  rewrite !rbind_unit_ok in Hm. destruct Hm as (H1 & H2 & _ & H3).
  unfold method_mentions. constructor; [by eapply declaring_class_resolves|].
  rewrite Forall_app. split; [by eapply signature_resolves|]. unfold method_origin in H3.
  destruct (mt_implementation m), (mt_generated m); try done.
  rewrite rbind_unit_ok in H3. destruct H3 as [H3%generated_resolves _]. by repeat constructor.
Qed.
Lemma class_members_resolve c :
  class_members self c = Ok tt ->
  Forall resolved (concat (map member_mentions (ct_class_members c))).
Proof.
  unfold class_members. intros [_ H]%for_unique_ok. apply Forall_concat_map.
  eapply List.Forall_impl; [|exact H]. cbn beta. intros m [_ Hm].
  rewrite !rbind_unit_ok in Hm. destruct Hm as (_ & H1 & H2).
  unfold member_mentions. rewrite Forall_app.
  split; [by eapply type_resolves|by eapply descriptor_resolves].
Qed.
Lemma class_fact_resolves c :
  ctx_class self c = Ok tt -> Forall resolved (class_fact_mentions c).
Proof.
  unfold ctx_class. rewrite !rbind_unit_ok. intros (_ & _ & Hb & Hmeta & _ & _ & Hf & Hm & Hc & _).
  unfold class_fact_mentions. rewrite !Forall_app. split; [|split];
    [|by destruct (ct_metaclass c); repeat constructor
     |by auto using class_fields_resolve, class_methods_resolve, class_members_resolve].
  unfold class_bases in Hb. rewrite !rbind_unit_ok in Hb. destruct Hb as (_ & _ & _ & _ & Hb).
  apply for_each_ok in Hb. eapply List.Forall_impl; [|exact Hb]. cbn beta. intros b H.
  rewrite rbind_unit_ok in H. by destruct H.
Qed.
Lemma attribute_site_resolves :
  validate_attribute_sites self = Ok tt ->
  Forall resolved (concat (map attribute_site_mentions (mtf_attribute_sites (ctx_facts self)))).
Proof.
  unfold validate_attribute_sites. intros [_ H]%for_unique_ok. apply Forall_concat_map.
  eapply List.Forall_impl; [|exact H]. cbn beta. intros s [_ Hs].
  rewrite !rbind_unit_ok in Hs. destruct Hs as (_ & _ & H1 & H2 & H3).
  unfold attribute_site_mentions. rewrite !Forall_app. split_and!.
  - by eapply type_resolves.
  - destruct (asf_value_type s); [by eapply type_resolves|constructor].
  - destruct (asf_declaring_class s); by repeat constructor.
Qed.
Lemma call_site_resolves :
  validate_call_sites self = Ok tt ->
  Forall resolved (concat (map call_site_mentions (mtf_call_sites (ctx_facts self)))).
Proof.
  unfold validate_call_sites. intros [_ H]%for_unique_ok. apply Forall_concat_map.
  eapply List.Forall_impl; [|exact H]. cbn beta. intros s [_ Hs].
  unfold validate_call_site in Hs. rewrite !rbind_unit_ok in Hs.
  destruct Hs as (_ & H1 & _ & H4 & _ & _ & _ & H2 & H3).
  unfold call_site_mentions. rewrite !Forall_app. split_and!.
  - destruct (cs_receiver s); [by eapply type_resolves|constructor].
  - apply for_each_ok in H4. apply Forall_concat_map. eapply List.Forall_impl; [|exact H4].
    cbn beta. intros t. apply call_target_resolves.
  - by eapply signature_resolves.
  - by eapply type_resolves.
Qed.
Lemma nominal_resolves :
  validate_nominal_bindings self = Ok tt ->
  Forall resolved (concat (map nominal_mentions (mtf_nominal_bindings (ctx_facts self)))).
Proof.
  unfold validate_nominal_bindings. intros [_ H]%for_unique_ok. apply Forall_concat_map.
  eapply List.Forall_impl; [|exact H]. cbn beta. intros b [_ Hb].
  unfold ctx_nominal_binding in Hb. apply rbind_ok in Hb as ([[a t] o] & Ho & Hb).
  rewrite rbind_unit_ok in Hb. destruct Hb as [Hb _]. unfold nominal_leaf in Hb.
  rewrite !rbind_unit_ok in Hb. destruct Hb as (_ & _ & _ & _ & _ & Hc & _).
  unfold nominal_mentions. constructor; [done|]. destruct (nb_owner b) as [f an|f]; [constructor|].
  apply rbind_ok in Ho as (fact & Ho & _). unfold ctx_field_reference in Ho.
  apply rbind_unit_ok in Ho as [Ho _]. by repeat constructor.
Qed.
End resolve.

Lemma facts_resolve facts source self :
  validated_by facts source self ->
  Forall (fun c => ctx_class_reference self c = Ok tt) (facts_mentions facts).
Proof.
  intros [_ _ Hctx Hg Hc _ Hf Hn Ha Hs _ _]. unfold facts_mentions.
  rewrite <- (co_facts _ _ _ Hctx) in *. rewrite !Forall_app. split_and!.
  - unfold validate_globals in Hg. apply for_unique_ok in Hg as [_ Hg]. apply Forall_concat_map.
    eapply List.Forall_impl; [|exact Hg]. cbn beta. intros b [_ Hb]. rewrite !rbind_unit_ok in Hb.
    destruct Hb as (_ & Hb & _). by eapply type_resolves.
  - apply Forall_concat_map. eapply List.Forall_impl; [|exact Hc]. apply class_fact_resolves.
  - unfold validate_functions in Hf. apply for_each_ok in Hf. apply Forall_concat_map.
    eapply List.Forall_impl; [|exact Hf]. cbn beta. intros f H. rewrite !rbind_unit_ok in H.
    destruct H as (_ & _ & H & _). by eapply signature_resolves.
  - by apply nominal_resolves.
  - by apply attribute_site_resolves.
  - by apply call_site_resolves.
Qed.
End validated.

Lemma validated_demoted digest facts source self :
  validated_by digest facts source self -> existsb sd_suppressed (mtf_diagnostics facts) = true ->
  demote_records (ignored_definitions facts) facts = facts.
Proof.
  intros [_ _ _ _ _ _ _ _ _ _ _ Hd] Hsup. unfold validate_demoted, demote_suppressed_regions in Hd.
  rewrite Hsup, ensure_ok in Hd. by bool_inv.
Qed.

Lemma validated_dialect digest facts source self :
  validated_by digest facts source self ->
  mtf_source_dialect facts = SD_SoacStrict <-> is_selected (mtf_language_policy facts) = true.
Proof.
  intros [Hh _ _ _ _ _ _ _ _ _ _ _]. unfold validate_header in Hh.
  rewrite !rbind_unit_ok, !ensure_ok in Hh. destruct Hh as (_ & _ & _ & Hpol). bool_inv.
  rewrite <- Hpol. by rewrite bool_decide_eq_true.
Qed.

(** C36: in validated facts every class reference of a global, class (bases, MRO,
    metaclass, fields, descriptors, methods, generated methods and members), function,
    annotation leaf and its field owner, attribute site or call site (receiver,
    candidate targets, signature and result) resolves: to a class of the module's own
    catalogue, or into a consumed dependency, always at the recorded source digest. *)
Theorem validate_module_facts_resolves digest facts source :
  validate_module_facts digest facts source = Ok tt ->
  Forall (resolved_in facts) (facts_mentions facts).
Proof.
  intros [self H]%validate_module_facts_parts. eapply List.Forall_impl; [|by eapply facts_resolve].
  intros c Hc. by eapply class_reference_resolved.
Qed.

(** The catalogue laws of a validated module. *)
Record catalog_laws (facts : ModuleTypeFacts) : Prop := {
  cl_classes : NoDup (map ct_identity (mtf_classes facts));
  cl_functions : NoDup (map fn_identity (mtf_functions facts));
  cl_globals : NoDup (map gb_name (mtf_global_bindings facts));
  cl_nominal : NoDup (map (fun b => (nb_owner b, nb_expression_range b)) (mtf_nominal_bindings facts));
  cl_attributes : NoDup (map asf_identity (mtf_attribute_sites facts));
  cl_calls : NoDup (map cs_identity (mtf_call_sites facts));
  cl_dependencies : NoDup (map dependency_name (mtf_consumed_dependencies facts));
  cl_no_self : mci_module_name (mtf_module facts) ∉ map dependency_name (mtf_consumed_dependencies facts);
  cl_members : Forall (fun c => NoDup (map ft_name (ct_instance_fields c)) /\
    NoDup (map mt_name (ct_methods c)) /\ NoDup (map cm_name (ct_class_members c)))
    (mtf_classes facts);
  cl_dialect : mtf_source_dialect facts = SD_SoacStrict <->
    is_selected (mtf_language_policy facts) = true;
}.

Lemma class_member_names self c :
  ctx_class self c = Ok tt ->
  NoDup (map ft_name (ct_instance_fields c)) /\ NoDup (map mt_name (ct_methods c)) /\
  NoDup (map cm_name (ct_class_members c)).
Proof.
  unfold ctx_class. rewrite !rbind_unit_ok. intros (_ & _ & _ & _ & _ & _ & Hf & Hm & Hc & _).
  apply for_unique_ok in Hf as [? _], Hm as [? _], Hc as [? _]. done.
Qed.

(** validated facts name every class, function, global, annotation leaf, site,
    dependency and class member once, never list the module as its own dependency,
    admit the strict dialect exactly when a policy rule selects it, and have an
    acyclic local inheritance relation. *)
Theorem validate_module_facts_catalogs digest facts source :
  validate_module_facts digest facts source = Ok tt ->
  catalog_laws facts /\
  exists self, make_context facts source = Ok self /\ forall x, ~ tc (inherits self) x x.
Proof.
  intros Hok. pose proof Hok as [self H]%validate_module_facts_parts.
  pose proof H as [Hh Hs Hctx Hg Hc Hi Hf Hn Ha Hcs Hd Hdm]. split.
  - pose proof (co_facts _ _ _ Hctx). subst facts.
    unfold validate_header in Hh. rewrite !rbind_unit_ok, !ensure_ok in Hh.
    destruct Hh as (_ & _ & Hdep & _). apply for_unique_ok in Hdep as [Hdep1 Hdep2].
    split.
    + apply (co_class_ids _ _ _ Hctx).
    + apply (co_function_ids _ _ _ Hctx).
    + by apply for_unique_ok in Hg as [? _].
    + by apply for_unique_ok in Hn as [? _].
    + by apply for_unique_ok in Ha as [? _].
    + by apply for_unique_ok in Hcs as [? _].
    + done.
    + intros (d & E & Hin)%list_elem_of_fmap. rewrite Forall_forall in Hdep2.
      specialize (Hdep2 d Hin) as [Hself _]. rewrite rbind_unit_ok, reject_ok in Hself.
      destruct Hself as [_ Hself]. bool_inv. done.
    + eapply List.Forall_impl; [|exact Hc]. apply class_member_names.
    + by eapply validated_dialect.
  - unfold validate_module_facts in Hok. apply rbind_unit_ok in Hok as [_ Hok].
    apply rbind_ok in Hok as (s' & Hs' & Hok). pose proof (validate_source_id _ _ _ _ Hs') as ->.
    apply rbind_ok in Hok as (self' & Hself & Hok). exists self'. split; [done|].
    rewrite !rbind_unit_ok in Hok. destruct Hok as (_ & _ & Hgraph & _).
    destruct (inheritance_graph_cases self') as [[_ ?]|[E _]]; [done|]. by rewrite Hgraph in E.
Qed.

(** C35: a class that still proposes participation in validated facts is selected by
    its module's policy, lives in a strict module with a resolved MRO and the
    builtin metaclass, carries no disqualifying uncertainty, and is untouched by
    every suppressed diagnostic. *)
Theorem validated_candidate_class digest facts source c :
  validate_module_facts digest facts source = Ok tt ->
  c ∈ mtf_classes facts -> ct_participation c = PP_Candidate ->
  checked_fields (mtf_language_policy facts) (si_source_range (ct_identity c))
    = CFP_SupportedAnnotations /\
  mtf_source_dialect facts = SD_SoacStrict /\ ct_metaclass c = MF_BuiltinType /\
  inh_complete (ct_inheritance c) = true /\ UR_IgnoredDiagnostic ∉ ct_uncertainty c /\
  (existsb sd_suppressed (mtf_diagnostics facts) = true ->
   ig_identity (ignored_definitions facts) (ct_identity c) = false).
Proof.
  intros [self H]%validate_module_facts_parts Hin Hp.
  pose proof (vb_context _ _ _ _ H) as Hctx. pose proof (vb_classes _ _ _ _ H) as Hcs.
  rewrite Forall_forall in Hcs. specialize (Hcs c Hin). unfold ctx_class in Hcs.
  rewrite !rbind_unit_ok in Hcs. destruct Hcs as (_ & _ & _ & _ & _ & Hpart & _).
  unfold class_participation in Hpart. rewrite Hp, (co_facts _ _ _ Hctx) in Hpart.
  rewrite !rbind_unit_ok, !reject_ok, ensure_ok in Hpart.
  destruct Hpart as (Hsel & H1 & _ & H2 & _). bool_inv. split_and!; try done.
  - unfold checked_fields. by rewrite Hsel.
  - intros Hu. rewrite existsb_false_elem in H2. by specialize (H2 _ Hu).
  - intros Hsup. pose proof (validated_demoted _ _ _ _ H Hsup) as Hd.
    apply not_true_iff_false. intros Hig.
    assert (demote_class (ignored_definitions facts) c = c) as E.
    { apply (f_equal mtf_classes) in Hd. exact (proj1 (map_fixed_elem _ _) Hd c Hin). }
    apply (f_equal ct_participation) in E. unfold demote_class in E. rewrite Hig, Hp in E. done.
Qed.

(** validated facts contain no unsuppressed error, and the facts are already
    demoted: no precise proposal survives in a suppressed region. *)
Theorem validate_module_facts_not_blocked digest facts source :
  validate_module_facts digest facts source = Ok tt ->
  Forall (fun d => sd_severity d = DS_Error -> sd_suppressed d = true) (mtf_diagnostics facts) /\
  demote_suppressed_regions facts = facts.
Proof.
  intros [self [_ _ _ _ _ _ _ _ _ _ Hds Hd]]%validate_module_facts_parts. split.
  - eapply List.Forall_impl; [|exact Hds]. cbn beta. intros d H Hs. unfold validate_diagnostic in H.
    rewrite !rbind_unit_ok, ensure_ok in H. destruct H as (_ & _ & _ & H).
    rewrite Hs, bool_decide_true in H by done. by destruct (sd_suppressed d).
  - unfold validate_demoted in Hd. destruct (existsb sd_suppressed (mtf_diagnostics facts)) eqn:E.
    + rewrite ensure_ok in Hd. by bool_inv.
    + unfold demote_suppressed_regions. by rewrite E.
Qed.

(** ** Source slices *)

(** C40: when the source bytes are validated too, every range the validator accepts
    is in bounds and cuts the source at character boundaries, so the slice
    [&source[start..end]] is well-formed UTF-8 (and cannot panic). *)
Theorem validated_range_slice digest facts source self range :
  validate_source digest facts (Some source) = Ok (Some source) ->
  make_context facts (Some source) = Ok self ->
  (0 <= sr_start range)%Z -> ctx_local_range self range = Ok tt ->
  (sr_start range <= sr_end range <= Z.of_nat (length source))%Z /\
  utf8_valid (slice source (sr_start range) (sr_end range)) = true.
Proof.
  intros Hs [Ef Es _ _ _ _ _ _]%make_context_ok H0 Hr. unfold ctx_local_range in Hr.
  rewrite Ef, Es, rbind_unit_ok in Hr. cbn [if_some] in Hr. unfold validate_range in Hr.
  rewrite !ensure_ok in Hr. destruct Hr as [H1 H2]. bool_inv.
  cbn in Hs. apply rbind_ok in Hs as (s & Hs & _). rewrite !rbind_unit_ok, !ensure_ok in Hs.
  destruct Hs as (Hm & Hu & _). bool_inv. split; [lia|].
  apply utf8_valid_Utf8, Utf8_slice; [by apply utf8_valid_Utf8|lia|lia|done|done].
Qed.

(** ** A valid module

    The source [class A: ..; class B(A): ..] of 60 bytes; [A] carries a suppressed
    error, [B] keeps its candidate proposal. *)
Module Valid.
Definition digest : list byte -> Fingerprint := fun _ => Sample.digest.
Definition reference_to (c : ClassTypeFact) : ClassReference :=
  mkClassReference (ct_identity c) Sample.digest.
Definition class_c : ClassTypeFact := Sample.class_fact (Sample.class_at "C" 52 58).
Definition class_b : ClassTypeFact :=
  mkClassTypeFact (Sample.class_at "B" 30 50) [BR_Class (reference_to class_c)] MF_BuiltinType []
    PP_Candidate CDS_DictionaryBearing [] [] []
    (mkInheritanceFact [BR_Class (reference_to class_c); BR_Builtin BT_Object] true)
    CO_OpenSubclassFamily None [].
Definition global_b : GlobalBindingFact :=
  mkGlobalBindingFact "b" GM_FinalAfterSeal (ST_NominalClass (reference_to class_b)) None [].
Definition facts : ModuleTypeFacts :=
  demote_suppressed_regions
    (mkModuleTypeFacts ARTIFACT_SCHEMA_VERSION Sample.content Sample.digest 60 SD_SoacStrict
      (mkResolvedStrictPolicy true true []) [] [Sample.global_a; global_b]
      [Sample.class_a; class_b; class_c] [] [] [] [] [Sample.ignored_in_a]).

(** A module with the source [x = <e acute>]. *)
Definition source : list byte := bytes_of "x = " ++ [Byte.xc3; Byte.xa9].
Definition source_facts : ModuleTypeFacts :=
  mkModuleTypeFacts ARTIFACT_SCHEMA_VERSION
    (mkModuleContentId "m" (legacy_source_hash source)) Sample.digest 6 SD_OrdinaryPython
    (mkResolvedStrictPolicy false false []) [] [] [] [] [] [] [] [].
Definition source_context : ValidationContext :=
  mkContext source_facts (Some source) [module_body_identity source_facts] [] [] [].
End Valid.

Lemma validate_module_facts_resolves_witness :
  validate_module_facts Valid.digest Valid.facts None = Ok tt /\
  facts_mentions Valid.facts <> [] /\ Forall (resolved_in Valid.facts) (facts_mentions Valid.facts).
Proof.
  split; [vm_compute; reflexivity|]. split; [vm_compute; discriminate|].
  apply (validate_module_facts_resolves Valid.digest Valid.facts None). vm_compute. reflexivity.
Defined.

Lemma validate_module_facts_catalogs_witness : catalog_laws Valid.facts.
Proof.
  apply (proj1 (validate_module_facts_catalogs Valid.digest Valid.facts None
    ltac:(vm_compute; reflexivity))).
Defined.

Lemma validated_candidate_class_witness :
  ig_identity (ignored_definitions Valid.facts) (ct_identity Valid.class_b) = false.
Proof.
  refine (proj2 (proj2 (proj2 (proj2 (proj2
    (validated_candidate_class Valid.digest Valid.facts None Valid.class_b _ _ _))))) _).
  - vm_compute. reflexivity.
  - apply list_elem_of_In. right. left. vm_compute. reflexivity.
  - reflexivity.
  - reflexivity.
Defined.

Lemma validate_module_facts_not_blocked_witness :
  demote_suppressed_regions Valid.facts = Valid.facts.
Proof.
  apply (proj2 (validate_module_facts_not_blocked Valid.digest Valid.facts None
    ltac:(vm_compute; reflexivity))).
Defined.

Lemma validated_range_slice_witness :
  utf8_valid (slice Valid.source 4 6) = true /\
  is_ok (ctx_local_range Valid.source_context (mkSourceRange 4 5)) = false.
Proof.
  split; [|vm_compute; reflexivity].
  refine (proj2 (validated_range_slice Valid.digest Valid.source_facts Valid.source
    Valid.source_context (mkSourceRange 4 6) _ _ _ _)).
  - vm_compute. reflexivity.
  - vm_compute. reflexivity.
  - vm_compute. discriminate.
  - vm_compute. reflexivity.
Defined.
