(* ===== verification/FactsProps.v ===== *)
(** * Ownership and policy ([soac_contracts/src/facts.rs], [policy.rs])

    The lexical class owner of a function, and the fields whose writes a policy
    checks. *)

From S2P Require Import Prelude Order Collections Text Identity StaticTypes Normalize.
From S2P Require Import Facts Diagnostics DiagnosticsProps Validation ValidationProps.

(** ** Lexical owners *)

(** [scope] strictly encloses [source] in the same module. *)
Definition encloses (scope source : SourceIdentity) : Prop :=
  si_module scope = si_module source /\ si_source_range scope <> si_source_range source /\
  range_contains (si_source_range scope) (si_source_range source) = true.

(** The classes and functions the facts record. *)
Definition recorded_scopes (facts : ModuleTypeFacts) : list SourceIdentity :=
  map ct_identity (mtf_classes facts) ++ map fn_identity (mtf_functions facts).

(** [class] is the innermost recorded scope around [source]. *)
Definition innermost (facts : ModuleTypeFacts) (class source : SourceIdentity) : Prop :=
  encloses class source /\
  forall scope, scope ∈ recorded_scopes facts -> encloses scope source ->
    range_contains (si_source_range class) (si_source_range scope) = true ->
    si_source_range scope = si_source_range class.

Definition is_class_owner (class source : SourceIdentity) (facts : ModuleTypeFacts) : bool :=
  if negb (bool_decide (si_module class = si_module source))
     || negb (bool_decide (si_definition_kind class = DK_Class))
     || bool_decide (si_source_range class = si_source_range source)
     || negb (range_contains (si_source_range class) (si_source_range source))
  then false
  else negb (existsb (fun nested => intervening_scope class source (ct_identity nested))
               (mtf_classes facts)
             || existsb (fun nested => intervening_scope class source (fn_identity nested))
                  (mtf_functions facts)).

Lemma intervening_scope_iff class source scope :
  intervening_scope class source scope = true <->
  encloses scope source /\ si_source_range scope <> si_source_range class /\
  range_contains (si_source_range class) (si_source_range scope) = true.
Proof.
  unfold intervening_scope, encloses. rewrite !andb_true_iff, !negb_true_iff.
  rewrite bool_decide_eq_true, !bool_decide_eq_false. naive_solver.
Qed.

Lemma is_class_owner_iff class source facts :
  is_class_owner class source facts = true <->
  si_definition_kind class = DK_Class /\ innermost facts class source.
Proof.
  unfold is_class_owner, innermost, encloses at 1.
  assert (existsb (fun nested => intervening_scope class source (ct_identity nested))
            (mtf_classes facts)
          || existsb (fun nested => intervening_scope class source (fn_identity nested))
               (mtf_functions facts)
          = existsb (intervening_scope class source) (recorded_scopes facts)) as ->.
  { unfold recorded_scopes. by rewrite existsb_app, !existsb_map. }
  case_match eqn:E.
  - split; [done|]. rewrite !orb_true_iff, !negb_true_iff in E.
    rewrite !bool_decide_eq_false, bool_decide_eq_true in E. intros (Hk & (? & ? & Hr) & _).
    destruct E as [[[?|?]|?]|E]; try done. by rewrite Hr in E.
  - bool_inv. rewrite negb_true_iff, existsb_false_elem. split.
    + intros Hnone. split_and!; try done. intros scope Hin He Hc.
      destruct (decide (si_source_range scope = si_source_range class)) as [|Hne]; [done|].
      specialize (Hnone scope Hin). by rewrite (proj2 (intervening_scope_iff _ _ _)) in Hnone.
    + intros (_ & _ & Hin) scope Hs. apply not_true_iff_false.
      intros (He & Hne & Hc)%intervening_scope_iff. by apply Hne, Hin.
Qed.

(** [source_class_owner] finds the lexical class owner: for a recorded function
    or lambda of this module it returns a recorded class that is the innermost
    recorded scope around it, it returns [None] only when no class is, and it never
    answers for other definitions. *)
Theorem source_class_owner_innermost facts source :
  let recorded := si_module source = mtf_module facts /\
    is_function_kind (si_definition_kind source) = true /\
    source ∈ map fn_identity (mtf_functions facts) in
  match source_class_owner facts source with
  | Some class => recorded /\ class ∈ mtf_classes facts /\
      si_definition_kind (ct_identity class) = DK_Class /\
      innermost facts (ct_identity class) source
  | None => ~ recorded \/
      forall class, class ∈ mtf_classes facts -> si_definition_kind (ct_identity class) = DK_Class ->
        ~ innermost facts (ct_identity class) source
  end.
Proof.
  cbn zeta. unfold source_class_owner.
  assert (existsb (fun f => bool_decide (fn_identity f = source)) (mtf_functions facts) = true <->
          source ∈ map fn_identity (mtf_functions facts)) as Hrec.
  { rewrite existsb_elem, list_elem_of_fmap. setoid_rewrite bool_decide_eq_true. naive_solver. }
  match goal with |- context [if ?b then None else _] => destruct b eqn:E end.
  - left. rewrite !orb_true_iff, !negb_true_iff, bool_decide_eq_false in E.
    intros (H1 & H2 & H3%Hrec). destruct E as [[?|E]|E]; congruence.
  - bool_inv.
    change (find_first _ (mtf_classes facts))
      with (find_first (fun class => is_class_owner (ct_identity class) source facts) (mtf_classes facts)).
    destruct (find_first _ (mtf_classes facts)) as [class|] eqn:F.
    + apply find_first_some in F as [Hin [Hk Ho]%is_class_owner_iff]. naive_solver.
    + right. intros class Hin Hk Ho. apply find_first_none with (x := class) in F; [|done].
      by rewrite (proj2 (is_class_owner_iff _ _ _) (conj Hk Ho)) in F.
Qed.

(** ** Required field writes *)

Lemma checked_fields_selected policy range :
  checked_fields policy range = CFP_SupportedAnnotations -> is_selected policy = true.
Proof.
  unfold checked_fields, checked_attributes, is_selected.
  destruct (find_first _ _) as [rule|] eqn:F.
  - apply find_first_some in F as [Hin _]. destruct (cpo_checked_attr rule) eqn:E; [|done]. intros _.
    rewrite (proj2 (existsb_elem _ _)) by eauto. apply orb_true_r.
  - destruct (rsp_checked_attr policy); [|done]. by rewrite orb_true_r.
Qed.

(** The policy selects a class for checked attributes: the rules that name the class
    decide, and the module's own setting where no rule does. *)
Record class_selected (policy : ResolvedStrictPolicy) (range : SourceRange) : Prop := {
  cs_rules : forall rule, rule ∈ rsp_class_overrides policy -> cpo_class_range rule = range ->
    cpo_checked_attr rule = true;
  cs_module : range ∉ map cpo_class_range (rsp_class_overrides policy) ->
    rsp_checked_attr policy = true;
}.

Lemma checked_fields_class policy range :
  NoDup (map cpo_class_range (rsp_class_overrides policy)) ->
  checked_fields policy range = CFP_SupportedAnnotations -> class_selected policy range.
Proof.
  unfold checked_fields, checked_attributes. intros Hn.
  destruct (find_first _ _) as [rule|] eqn:F.
  - apply find_first_some in F as [Hin E]. bool_inv. destruct (cpo_checked_attr rule) eqn:Er; [|done].
    intros _. split.
    + intros rule' Hin' E'. by rewrite (NoDup_map_elem _ _ rule' rule Hn) by congruence.
    + intros []. apply list_elem_of_fmap. by exists rule.
  - destruct (rsp_checked_attr policy) eqn:Er; [|done]. intros _. split; [|done].
    intros rule Hin E. apply find_first_none with (x := rule) in F; [|done]. by bool_inv.
Qed.

Lemma elem_of_required_field_bindings c policy f :
  f ∈ required_field_bindings c policy <->
  f ∈ ct_instance_fields c /\ cr_definition (ft_declaring_class f) = ct_identity c /\
  exists t, required_write_type f (checked_fields policy (si_source_range (ct_identity c))) = Some t.
Proof.
  unfold required_field_bindings. rewrite !elem_of_filter_bool, bool_decide_eq_true.
  destruct (required_write_type _ _); cbn; naive_solver.
Qed.

Lemma required_write_type_some f policy t :
  required_write_type f policy = Some t <->
  t = ft_value_type f /\ policy = CFP_SupportedAnnotations /\
  df_kind (ft_descriptor f) = DescK_None /\
  ft_field_kind f ∈ [FldK_InstanceField; FldK_CallableInstanceField; FldK_ShadowableClassDefault] /\
  ft_annotation_origin f = AO_Explicit /\ has_supported_value_shape (ft_value_type f) = true.
Proof.
  unfold required_write_type, required_type. rewrite !elem_of_cons.
  destruct (bool_decide (df_kind (ft_descriptor f) = DescK_None)) eqn:E1;
    destruct (bool_decide (policy = CFP_SupportedAnnotations)) eqn:E2;
    destruct (bool_decide (ft_annotation_origin f = AO_Explicit)) eqn:E3;
    destruct (has_supported_value_shape (ft_value_type f)) eqn:E4;
    destruct (ft_field_kind f); bool_inv; cbn; set_solver.
Qed.

(** C22: a checked field of validated facts is the class's own explicitly annotated
    storage field of a supported type; its class is selected by the policy (by the
    rules that name the class, else by the module) and its module is strict; neither
    its class nor any definition its type mentions lies in a suppressed region. *)
Theorem required_field_trusted digest facts source c f :
  validate_module_facts digest facts source = Ok tt -> c ∈ mtf_classes facts ->
  f ∈ required_field_bindings c (mtf_language_policy facts) ->
  mtf_source_dialect facts = SD_SoacStrict /\
  class_selected (mtf_language_policy facts) (si_source_range (ct_identity c)) /\
  cr_definition (ft_declaring_class f) = ct_identity c /\
  ft_annotation_origin f = AO_Explicit /\ has_supported_value_shape (ft_value_type f) = true /\
  (existsb sd_suppressed (mtf_diagnostics facts) = true ->
   ig_identity (ignored_definitions facts) (ct_identity c) = false /\
   value_references (ignored_definitions facts) (ft_value_type f) = false).
Proof.
  intros [self H]%validate_module_facts_parts Hc Hf.
  apply elem_of_required_field_bindings in Hf as (Hin & Hown & t & Ht).
  apply required_write_type_some in Ht as (-> & Hpol & Hdesc & Hkind & Horigin & Hshape).
  split_and!; try done.
  - apply checked_fields_selected in Hpol. by apply (validated_dialect _ _ _ _ H).
  - apply checked_fields_class; [|done]. exact (co_rules _ _ _ (vb_context _ _ _ _ H)).
  - intros Hsup. pose proof (validated_demoted _ _ _ _ H Hsup) as Hd.
    set (ig := ignored_definitions facts) in *.
    assert (demote_class ig c = c) as Ec.
    { apply (f_equal mtf_classes) in Hd. exact (proj1 (map_fixed_elem _ _) Hd c Hc). }
    assert (demote_field ig (ig_identity ig (ct_identity c)) f = f) as Ef.
    { apply (f_equal ct_instance_fields) in Ec. exact (proj1 (map_fixed_elem _ _) Ec f Hin). }
    split; apply not_true_iff_false; intros Hig.
    + apply (f_equal ft_field_kind) in Ef. unfold demote_field in Ef. rewrite Hig in Ef. cbn in Ef.
      rewrite <- Ef in Hkind. set_solver.
    + apply (f_equal ft_value_type) in Ef. unfold demote_field, ig_value in Ef.
      rewrite Hig, orb_true_r in Ef. cbn in Ef. by rewrite <- Ef in Hshape.
Qed.

(** ** A class with a checked field *)
Module Checked.
Definition identity : SourceIdentity := Sample.class_at "D" 30 50.
Definition field : FieldTypeFact :=
  mkFieldTypeFact "x" (mkClassReference identity Sample.digest)
    (ST_Union [ST_None; ST_ExactBuiltin BT_Int]) AO_Explicit None FldK_InstanceField
    FRP_PythonAttribute FWP_DeclaredField IP_Unknown DF_Missing descriptor_default [].
Definition class : ClassTypeFact :=
  mkClassTypeFact identity [] MF_BuiltinType [] PP_Candidate CDS_DictionaryBearing [field] [] []
    (mkInheritanceFact [BR_Builtin BT_Object] true) CO_OpenSubclassFamily None [].
Definition facts : ModuleTypeFacts :=
  demote_suppressed_regions
    (mkModuleTypeFacts ARTIFACT_SCHEMA_VERSION Sample.content Sample.digest 60 SD_SoacStrict
      (mkResolvedStrictPolicy true true []) [] [] [Sample.class_a; class] [] [] [] []
      [Sample.ignored_in_a]).
End Checked.

Lemma required_field_trusted_witness :
  validate_module_facts Valid.digest Checked.facts None = Ok tt /\
  ig_identity (ignored_definitions Checked.facts) Checked.identity = false.
Proof.
  split; [vm_compute; reflexivity|].
  refine (proj1 (proj2 (proj2 (proj2 (proj2 (proj2 (required_field_trusted Valid.digest Checked.facts None
    Checked.class Checked.field _ _ _))))) _)).
  - vm_compute. reflexivity.
  - apply list_elem_of_In. right. left. vm_compute. reflexivity.
  - apply list_elem_of_In. left. reflexivity.
  - reflexivity.
Defined.
