(* ===== verification/Json.v ===== *)
(** * Canonical JSON ([canonical_bytes], [decode_canonical] of [artifact.rs])

    A [serde_json::Value] with its objects as member lists (the map type keeps
    insertion order when the [preserve_order] feature is on).  The derived
    [Serialize] and [Deserialize] implementations and [serde_json]'s writer and
    reader are outside the repository: they are the classes [Serialize] and
    [Deserialize] and the parameter [to_vec].  Every number of the contract types
    is an integer. *)

From Stdlib Require Import Sorting.Sorted.
From S2P Require Import Prelude Order Collections Text Identity.

Inductive Value : Type :=
| VNull
| VBool (b : bool)
| VNumber (n : Z)
| VString (s : string)
| VArray (elements : list Value)
| VObject (members : list (string * Value)).

(** [object.sort_keys()]: by name; the names of an object are distinct. *)
Definition sort_members (members : list (string * Value)) : list (string * Value) :=
  sort_by (fun member => key member.1) members.

(** The source sorts an object before it descends into its members; names do not
    change on the way, so the two orders agree. *)
Fixpoint sort_objects (value : Value) : Value :=
  match value with
  | VObject object => VObject (sort_members (map (fun member => (member.1, sort_objects member.2)) object))
  | VArray array => VArray (map sort_objects array)
  | _ => value
  end.

(** [serde]'s derived implementations; an error is its message. *)
Class Serialize (A : Type) := to_value : A -> result string Value.
Class Deserialize (A : Type) := from_slice : list byte -> result string A.

Definition map_err {A} (r : result string A) : Result A :=
  match r with Ok a => Ok a | Err message => Err (Encoding message) end.

Section codec.
(** [serde_json::to_vec]. *)
Context (to_vec : Value -> result string (list byte)).

Definition canonical_bytes {A} `{Serialize A} (value : A) : Result (list byte) :=
  let? value := map_err (to_value value) in
  map_err (to_vec (sort_objects value)).

Definition decode_canonical {A} `{Serialize A, Deserialize A} (bytes : list byte) : Result A :=
  let? value := map_err (from_slice bytes) in
  let? canonical := canonical_bytes value in
  do? ensure (bool_decide (canonical = bytes)) NonCanonicalEncoding;
  Ok value.

(** Reading back what was written, with the members of objects in sorted order,
    gives the value: the contract of a derived codec pair, at one value. *)
Definition round_trips {A} `{Serialize A, Deserialize A} (value : A) : Prop :=
  forall bytes, canonical_bytes value = Ok bytes -> from_slice bytes = Ok value.

Lemma decode_canonical_encoded {A} `{Serialize A, Deserialize A} (value : A) bytes :
  round_trips value -> canonical_bytes value = Ok bytes -> decode_canonical bytes = Ok value.
Proof.
  intros Hrt Hb. unfold decode_canonical. rewrite (Hrt _ Hb). cbn. rewrite Hb. cbn.
  by rewrite bool_decide_true.
Qed.

Lemma decode_canonical_bytes {A} `{Serialize A, Deserialize A} (value : A) bytes :
  decode_canonical bytes = Ok value ->
  canonical_bytes value = Ok bytes /\ from_slice bytes = Ok value.
Proof.
  unfold decode_canonical, map_err. destruct (from_slice bytes); [|done]. cbn [rbind]. intros Hd.
  ok_inv. bool_inv. subst. done.
Qed.
End codec.

(** ** Member order *)

Section value_ind.
Context (P : Value -> Prop).
Hypothesis HNull : P VNull.
Hypothesis HBool : forall b, P (VBool b).
Hypothesis HNumber : forall n, P (VNumber n).
Hypothesis HString : forall s, P (VString s).
Hypothesis HArray : forall l, Forall P l -> P (VArray l).
Hypothesis HObject : forall l, Forall (fun m => P m.2) l -> P (VObject l).

Fixpoint value_ind' (v : Value) : P v :=
  match v with
  | VNull => HNull
  | VBool b => HBool b
  | VNumber n => HNumber n
  | VString s => HString s
  | VArray l => HArray l ((fix go (l : list Value) : Forall P l :=
      match l with
      | [] => Forall_nil_2 P
      | v :: l => Forall_cons_2 P v l (value_ind' v) (go l)
      end) l)
  | VObject l => HObject l ((fix go (l : list (string * Value)) : Forall (fun m => P m.2) l :=
      match l with
      | [] => Forall_nil_2 _
      | m :: l => Forall_cons_2 _ m l (value_ind' m.2) (go l)
      end) l)
  end.
End value_ind.

(** Two values that differ only in the order of members, at any depth; the names
    of an object are distinct. *)
Inductive same_members : Value -> Value -> Prop :=
| SM_leaf v : (match v with VArray _ | VObject _ => False | _ => True end) -> same_members v v
| SM_array l l' : Forall2 same_members l l' -> same_members (VArray l) (VArray l')
| SM_object l l' k : NoDup l.*1 ->
    Forall2 (fun m m' => m.1 = m'.1 /\ same_members m.2 m'.2) l k -> k ≡ₚ l' ->
    same_members (VObject l) (VObject l').

Lemma sort_members_keys l l' k :
  map fst l = map fst k -> NoDup l.*1 -> k ≡ₚ l' ->
  map (fun m : string * Value => (m.1, sort_objects m.2)) l = map (fun m => (m.1, sort_objects m.2)) k ->
  sort_members (map (fun m => (m.1, sort_objects m.2)) l)
  = sort_members (map (fun m => (m.1, sort_objects m.2)) l').
Proof.
  intros Hk Hn Hp E. unfold sort_members. rewrite E. apply (reordered_sort fst). split.
  - by rewrite Hp.
  - rewrite map_map. exact (eq_ind _ NoDup Hn _ Hk).
Qed.

Lemma map_eq_Forall2 {A B} (f : A -> B) (R : A -> A -> Prop) l l' :
  Forall (fun x => forall y, R x y -> f x = f y) l -> Forall2 R l l' -> map f l = map f l'.
Proof. intros Hl H. induction H; inversion Hl; subst; cbn; [done|]. f_equal; auto. Qed.

Lemma sort_objects_same v : forall w, same_members v w -> sort_objects v = sort_objects w.
Proof.
  induction v as [|b|n|s|l IH|l IH] using value_ind'; intros w H;
    inversion H as [? Hleaf|? l' F|? l' k Hn F Hp]; subst; try done; cbn; f_equal.
  - by eapply map_eq_Forall2.
  - apply (sort_members_keys _ _ k); [|done|done|].
    + eapply map_eq_Forall2; [|exact F]. apply Forall_forall. naive_solver.
    + eapply map_eq_Forall2; [|exact F]. eapply List.Forall_impl; [|exact IH]. cbn.
      intros m Hm m' [-> Hs]. f_equal. auto.
Qed.

Lemma sort_objects_twice v : sort_objects (sort_objects v) = sort_objects v.
Proof.
  induction v as [|b|n|s|l IH|l IH] using value_ind'; try done; cbn.
  - f_equal. rewrite map_map. apply map_ext_in. intros v Hv%list_elem_of_In.
    rewrite Forall_forall in IH. auto.
  - f_equal. set (l' := map _ l). unfold sort_members.
    assert (Forall (fun m : string * Value => (m.1, sort_objects m.2) = m)
      (sort_by (fun member : string * Value => key member.1) l')) as Hf.
    { apply Forall_forall. intros m Hm%elem_of_sort_by. subst l'.
      apply list_elem_of_fmap in Hm as (m' & -> & Hm'). cbn. f_equal.
      rewrite Forall_forall in IH. exact (IH _ Hm'). }
    rewrite (map_id_Forall _ _ Hf). apply sort_by_id; eauto with ordered.
Qed.

(** canonical bytes do not depend on the order in which the serialiser emits
    object members, at any depth, and sorting is stable under repetition. *)
Theorem canonical_bytes_member_order to_vec {A B} (a : A) (b : B)
    (SA : Serialize A) (SB : Serialize B) v w :
  to_value a = Ok v -> to_value b = Ok w -> same_members v w ->
  canonical_bytes to_vec a = canonical_bytes to_vec b /\
  sort_objects (sort_objects v) = sort_objects v.
Proof.
  intros Ha Hb Hs. split; [|apply sort_objects_twice]. unfold canonical_bytes.
  rewrite Ha, Hb. cbn. by rewrite (sort_objects_same _ _ Hs).
Qed.

(** A two-member object emitted in either order. *)
Lemma canonical_bytes_member_order_witness :
  let to_vec v := match v with
    | VObject m => Ok (concat (map (fun e : string * Value => bytes_of e.1) m))
    | _ => Err "unsupported"%string
    end in
  let a : Serialize bool := fun _ => Ok (VObject [("b", VNull); ("a", VBool true)]%string) in
  let b : Serialize Z := fun _ => Ok (VObject [("a", VBool true); ("b", VNull)]%string) in
  canonical_bytes to_vec (H := a) true = Ok (bytes_of "ab") /\
  canonical_bytes to_vec (H := a) true = canonical_bytes to_vec (H := b) 0%Z.
Proof.
  cbv zeta. split; [vm_compute; reflexivity|].
  refine (proj1 (canonical_bytes_member_order _ true 0%Z _ _ _ _ eq_refl eq_refl _)).
  eapply SM_object.
  - repeat constructor; set_solver.
  - repeat constructor.
  - apply perm_swap.
Defined.
