(* ===== verification/Artifact.v ===== *)
(** * Signed artifacts ([soac_contracts/src/artifact.rs])

    Module shards, the manifest that indexes them, its content-addressed
    generation, its signature, and the loader's verification.  SHA-256, Ed25519
    and serde's codecs are outside the repository: [digest], an [Ed25519] record
    of operations with its laws [Ed25519Laws], and the classes of [Json]. *)

From S2P Require Import Prelude Order Collections Text Identity StaticTypes Normalize.
From S2P Require Import Facts Diagnostics Validation Canonical Json.

Definition STRICT_CONTRACT_VERSION : Z := 3.
Definition DIALECT_VERSION : Z := 2.
Definition MAX_MANIFEST_BYTES : Z := 64 * 1024 * 1024.
Definition MAX_SHARD_BYTES : Z := 16 * 1024 * 1024.
Definition nul : list byte := [Byte.x00].
Definition SIGNATURE_DOMAIN : list byte :=
  bytes_of "SOAC-TYPE-CONTRACT-MANIFEST" ++ nul ++ bytes_of "v6" ++ nul.
Definition GENERATION_DOMAIN : list byte :=
  bytes_of "SOAC-TYPE-CONTRACT-GENERATION" ++ nul ++ bytes_of "v1" ++ nul.

(** ** Data *)

Record ArtifactVersions : Type := mkArtifactVersions {
  av_schema_version : Z;
  av_strict_contract_version : Z;
  av_dialect_version : Z;
}.
#[global] Instance ArtifactVersions_eq_dec : EqDecision ArtifactVersions.
Proof. solve_decision. Defined.
Definition artifact_versions_default : ArtifactVersions :=
  mkArtifactVersions ARTIFACT_SCHEMA_VERSION STRICT_CONTRACT_VERSION DIALECT_VERSION.

Record PythonVersion : Type := mkPythonVersion { pv_major : Z; pv_minor : Z }.
#[global] Instance PythonVersion_eq_dec : EqDecision PythonVersion.
Proof. solve_decision. Defined.

Record ConservativeAnalysis : Type := mkConservativeAnalysis {
  ca_strict_equality_semantics : bool;
  ca_strict_generic_narrowing : bool;
}.
#[global] Instance ConservativeAnalysis_eq_dec : EqDecision ConservativeAnalysis.
Proof. solve_decision. Defined.
Definition conservative_analysis_default : ConservativeAnalysis := mkConservativeAnalysis true true.

Record ArtifactEnvironment : Type := mkArtifactEnvironment {
  env_ty_revision : string;
  env_checker_source_fingerprint : Fingerprint;
  env_exporter_revision : string;
  env_python_version : PythonVersion;
  env_python_platform : string;
  env_cpython_abi_fingerprint : Fingerprint;
  env_normalized_project_policy : Fingerprint;
  env_resolved_typechecker_configuration : Fingerprint;
  env_import_search_path : Fingerprint;
  env_typeshed_fingerprint : Fingerprint;
  env_installed_stub_fingerprint : Fingerprint;
  env_installed_dependency_fingerprint : Fingerprint;
  env_analysis : ConservativeAnalysis;
}.
#[global] Instance ArtifactEnvironment_eq_dec : EqDecision ArtifactEnvironment.
Proof. solve_decision. Defined.

Record ModuleArtifactIndex : Type := mkModuleArtifactIndex {
  mai_module : ModuleContentId;
  mai_source_digest : Fingerprint;
  mai_source_size : Z;
  mai_effective_policy : Fingerprint;
  mai_shard_digest : Fingerprint;
  mai_consumed_dependencies : list DependencyFingerprint;
}.
#[global] Instance ModuleArtifactIndex_eq_dec : EqDecision ModuleArtifactIndex.
Proof. solve_decision. Defined.

Definition mai_name (index : ModuleArtifactIndex) : string := mci_module_name (mai_module index).

Record TypeArtifactManifest : Type := mkTypeArtifactManifest {
  tam_versions : ArtifactVersions;
  tam_generation : ArtifactGenerationId;
  tam_environment : ArtifactEnvironment;
  tam_modules : list ModuleArtifactIndex;
}.
#[global] Instance TypeArtifactManifest_eq_dec : EqDecision TypeArtifactManifest.
Proof. solve_decision. Defined.

Record ArtifactExpectations : Type := mkArtifactExpectations {
  ae_generation : ArtifactGenerationId;
  ae_environment : ArtifactEnvironment;
}.

Record SignedManifestEnvelope : Type := mkSignedManifestEnvelope {
  sme_manifest : TypeArtifactManifest;
  sme_signature : string;
}.

Record EncodedModuleShard : Type := mkEncodedModuleShard {
  ems_facts : ModuleTypeFacts;
  ems_bytes : list byte;
  ems_digest : Fingerprint;
}.

(** [file_name]; [Display] of a fingerprint is its hexadecimal form. *)
Definition shard_file_name (shard : EncodedModuleShard) : string :=
  to_hex (ems_digest shard) +:+ ".soac-types".

Record VerifiedTypeArtifactManifest : Type := mkVerifiedTypeArtifactManifest {
  vtm_manifest : TypeArtifactManifest;
  vtm_manifest_digest : Fingerprint;
}.

Record CompleteArtifactGeneration : Type := mkCompleteArtifactGeneration {
  cag_manifest : VerifiedTypeArtifactManifest;
}.

Record VerifiedModuleTypeFacts : Type := mkVerifiedModuleTypeFacts {
  vmf_facts : ModuleTypeFacts;
  vmf_generation : ArtifactGenerationId;
  vmf_shard_digest : Fingerprint;
  vmf_cache_identity : Fingerprint;
}.

(** ** Ed25519 *)

(** The operations of [ed25519_dalek] the code calls. *)
Record Ed25519 : Type := mkEd25519 {
  SigningKey : Type;
  VerifyingKey : Type;
  verifying_key : SigningKey -> VerifyingKey;
  sign : SigningKey -> list byte -> list byte;
  verify_strict : VerifyingKey -> list byte -> list byte -> bool;
}.
Arguments verifying_key {e} _.
Arguments sign {e} _ _.
Arguments verify_strict {e} _ _ _.

(** Signatures have 64 bytes and verify under the matching key. *)
Class Ed25519Laws (e : Ed25519) : Prop := {
  sign_length : forall (k : SigningKey e) m, length (sign k m) = 64;
  verify_sign : forall (k : SigningKey e) m, verify_strict (verifying_key k) m (sign k m) = true;
}.

(** ** Manifest checks without a digest *)

Definition enforce_size (bytes : list byte) (kind : string) (limit : Z) : Result unit :=
  if (limit <? Z.of_nat (length bytes))%Z then Err (SizeLimit kind limit) else Ok tt.

Definition canonicalize_index (index : ModuleArtifactIndex) : ModuleArtifactIndex :=
  mkModuleArtifactIndex (mai_module index) (mai_source_digest index) (mai_source_size index)
    (mai_effective_policy index) (mai_shard_digest index)
    (canonicalize_dependencies (mai_consumed_dependencies index)).

Definition canonicalize_manifest (manifest : TypeArtifactManifest) : TypeArtifactManifest :=
  mkTypeArtifactManifest (tam_versions manifest) (tam_generation manifest)
    (tam_environment manifest)
    (map canonicalize_index (sort_by (fun index => key (mai_name index)) (tam_modules manifest))).

Definition validate_environment (environment : ArtifactEnvironment) : Result unit :=
  do? for_each (fun entry : string * string =>
        let value := entry.2 in
        reject (bool_decide (value = EmptyString) || (256 <? str_len value)%Z
                || existsb is_control (chars value)) ("invalid " +:+ entry.1))
        [("ty revision", env_ty_revision environment);
         ("exporter revision", env_exporter_revision environment);
         ("Python platform", env_python_platform environment)]%string;
  do? reject (negb (pv_major (env_python_version environment) =? 3)%Z
              || (pv_minor (env_python_version environment) <? 7)%Z) "invalid Python version";
  ensure (negb (negb (ca_strict_equality_semantics (env_analysis environment))
                || negb (ca_strict_generic_narrowing (env_analysis environment))))
    (InvalidPolicy "type-fact production requires conservative equality and generic narrowing").

(** One line of [compare!]. *)
Definition compare_field {A} `{EqDecision A} (field : ArtifactEnvironment -> A) (name : string)
    (actual expected : ArtifactEnvironment) : Result unit :=
  ensure (bool_decide (field actual = field expected)) (EnvironmentMismatch name).

Definition compare_environment (actual expected : ArtifactEnvironment) : Result unit :=
  do? validate_environment expected;
  do? compare_field env_ty_revision "ty_revision" actual expected;
  do? compare_field env_checker_source_fingerprint "checker_source_fingerprint" actual expected;
  do? compare_field env_exporter_revision "exporter_revision" actual expected;
  do? compare_field env_python_version "python_version" actual expected;
  do? compare_field env_python_platform "python_platform" actual expected;
  do? compare_field env_cpython_abi_fingerprint "cpython_abi_fingerprint" actual expected;
  do? compare_field env_normalized_project_policy "normalized_project_policy" actual expected;
  do? compare_field env_resolved_typechecker_configuration "resolved_typechecker_configuration"
        actual expected;
  do? compare_field env_import_search_path "import_search_path" actual expected;
  do? compare_field env_typeshed_fingerprint "typeshed_fingerprint" actual expected;
  do? compare_field env_installed_stub_fingerprint "installed_stub_fingerprint" actual expected;
  do? compare_field env_installed_dependency_fingerprint "installed_dependency_fingerprint"
        actual expected;
  compare_field env_analysis "analysis" actual expected.

(** [left.zip(right).is_some_and(|(l, r)| l != r)]. *)
Definition conflicts (left right : option Fingerprint) : bool :=
  match left, right with
  | Some l, Some r => negb (bool_decide (l = r))
  | _, _ => false
  end.

(** [Option::or]. *)
Definition option_or {A} (left right : option A) : option A :=
  match left with Some _ => left | None => right end.

Definition dependency_conflict (previous dependency : DependencyFingerprint) : bool :=
  negb (bool_decide (dep_module previous = dep_module dependency))
  || negb (bool_decide (dep_source_digest previous = dep_source_digest dependency))
  || negb (bool_decide (dep_source_size previous = dep_source_size dependency))
  || negb (bool_decide (dep_import_resolution previous = dep_import_resolution dependency))
  || negb (bool_decide (dep_effective_configuration previous
                        = dep_effective_configuration dependency))
  || conflicts (dep_strict_policy previous) (dep_strict_policy dependency)
  || conflicts (dep_type_contract previous) (dep_type_contract dependency).

Definition merge_dependency (previous dependency : DependencyFingerprint) : DependencyFingerprint :=
  mkDependencyFingerprint (dep_module previous) (dep_source_digest previous)
    (dep_source_size previous) (dep_import_resolution previous)
    (dep_effective_configuration previous)
    (option_or (dep_strict_policy previous) (dep_strict_policy dependency))
    (option_or (dep_type_contract previous) (dep_type_contract dependency)).

Definition producer_conflict (producer : ModuleArtifactIndex) (dependency : DependencyFingerprint) :
    bool :=
  negb (bool_decide (mai_module producer = dep_module dependency))
  || negb (bool_decide (mai_source_digest producer = dep_source_digest dependency))
  || negb (bool_decide (mai_source_size producer = dep_source_size dependency))
  || is_some_and (fun digest => negb (bool_decide (digest = mai_shard_digest producer)))
       (dep_type_contract dependency)
  || is_some_and (fun policy => negb (bool_decide (policy = mai_effective_policy producer)))
       (dep_strict_policy dependency).

(** The body of the inner dependency loop. *)
Definition consume_dependency (modules : list (string * ModuleArtifactIndex))
    (consumed : list (string * DependencyFingerprint)) (dependency : DependencyFingerprint) :
    Result (list (string * DependencyFingerprint)) :=
  let name := dependency_name dependency in
  let? consumed :=
    (match bmap_get name consumed with
     | Some previous =>
         do? ensure (negb (dependency_conflict previous dependency)) (DependencyMismatch name);
         Ok (bmap_insert name (merge_dependency previous dependency) consumed)
     | None => Ok (bmap_insert name dependency consumed)
     end) in
  do? if_some (fun producer =>
        ensure (negb (producer_conflict producer dependency)) (DependencyMismatch name))
        (bmap_get name modules);
  Ok consumed.

Definition manifest_modules (manifest : TypeArtifactManifest) :
    Result (list (string * ModuleArtifactIndex)) :=
  for_fold (fun modules index =>
    do? validate_module_name (mai_name index);
    do? reject (is_some (bmap_get (mai_name index) modules))
      ("duplicate manifest module " +:+ mai_name index);
    do? validate_dependencies (mai_consumed_dependencies index) (mai_name index);
    Ok (bmap_insert (mai_name index) index modules)) [] (tam_modules manifest).

Definition manifest_dependencies (modules : list (string * ModuleArtifactIndex))
    (manifest : TypeArtifactManifest) : Result (list (string * DependencyFingerprint)) :=
  for_fold (fun consumed index =>
    for_fold (consume_dependency modules) consumed (mai_consumed_dependencies index))
    [] (tam_modules manifest).

Definition validate_versions (versions : ArtifactVersions) : Result unit :=
  for_each (fun entry : string * Z * Z =>
    let '(kind, found, expected) := entry in
    ensure (bool_decide (found = expected)) (VersionMismatch kind expected found))
    [("artifact schema", av_schema_version versions, ARTIFACT_SCHEMA_VERSION);
     ("strict contract", av_strict_contract_version versions, STRICT_CONTRACT_VERSION);
     ("strict dialect", av_dialect_version versions, DIALECT_VERSION)]%string.

(** ** [binary_search_by]

    The standard library's loop over a slice: [base] moves to [mid] unless the
    probe is greater, and the size shrinks by half until it is one. *)

Fixpoint binary_search_loop {A} (f : A -> comparison) (l : list A) (fuel base size : nat) : nat :=
  match fuel with
  | O => base
  | S fuel =>
      if size <=? 1 then base
      else
        let half := size / 2 in
        let mid := base + half in
        let base := match l !! mid with
                    | Some x => match f x with Gt => base | _ => mid end
                    | None => base
                    end in
        binary_search_loop f l fuel base (size - half)
  end.

Definition binary_search_by {A} (f : A -> comparison) (l : list A) : option nat :=
  match l with
  | [] => None
  | _ =>
      let base := binary_search_loop f l (length l) 0 (length l) in
      match l !! base with
      | Some x => match f x with Eq => Some base | _ => None end
      | None => None
      end
  end.

Definition module_index (self : VerifiedTypeArtifactManifest) (module_name : string) :
    Result ModuleArtifactIndex :=
  let modules := tam_modules (vtm_manifest self) in
  let? index := ok_or (MissingModule module_name)
    (binary_search_by (fun entry => ord_cmp (mai_name entry) module_name) modules) in
  ok_or (MissingModule module_name) (modules !! index).

(** ** Hashing, signing and verification *)

Section artifact.
Context (digest : list byte -> Fingerprint) (to_vec : Value -> result string (list byte)).
Context (ed : Ed25519).
Context `{!Serialize ResolvedStrictPolicy, !Serialize ArtifactEnvironment}.
Context `{!Serialize (ArtifactVersions * ArtifactEnvironment * list ModuleArtifactIndex)}.
Context `{!Serialize TypeArtifactManifest}.
Context `{!Serialize SignedManifestEnvelope, !Deserialize SignedManifestEnvelope}.
Context `{!Serialize ModuleTypeFacts, !Deserialize ModuleTypeFacts}.
Context `{!Serialize (Fingerprint * ArtifactGenerationId * Fingerprint * Fingerprint)}.

Local Abbreviation canonical_bytes := (canonical_bytes to_vec).
Local Abbreviation decode_canonical := (decode_canonical to_vec).
Local Abbreviation validate_module_facts := (validate_module_facts digest).

Definition policy_fingerprint (policy : ResolvedStrictPolicy) : Result Fingerprint :=
  let? bytes := canonical_bytes policy in Ok (digest bytes).
Definition environment_fingerprint (environment : ArtifactEnvironment) : Result Fingerprint :=
  let? bytes := canonical_bytes environment in Ok (digest bytes).

Definition content_generation (manifest : TypeArtifactManifest) : Result ArtifactGenerationId :=
  let? bytes := canonical_bytes (tam_versions manifest, tam_environment manifest,
                                 tam_modules manifest) in
  Ok (mkArtifactGenerationId (digest (GENERATION_DOMAIN ++ bytes))).

Definition validate_manifest (manifest : TypeArtifactManifest) : Result unit :=
  do? validate_versions (tam_versions manifest);
  do? validate_environment (tam_environment manifest);
  let? modules := manifest_modules manifest in
  do? manifest_dependencies modules manifest;
  let? generation := content_generation manifest in
  ensure (bool_decide (generation = tam_generation manifest)) GenerationMismatch.

Definition manifest_new (environment : ArtifactEnvironment) (modules : list ModuleArtifactIndex) :
    Result TypeArtifactManifest :=
  let manifest := canonicalize_manifest
    (mkTypeArtifactManifest artifact_versions_default (mkArtifactGenerationId (digest []))
       environment modules) in
  let? generation := content_generation manifest in
  let manifest := mkTypeArtifactManifest (tam_versions manifest) generation
                    (tam_environment manifest) (tam_modules manifest) in
  do? validate_manifest manifest;
  Ok manifest.

Definition encode_module_shard (facts : ModuleTypeFacts) : Result EncodedModuleShard :=
  let? facts := canonicalize_module facts in
  do? validate_module_facts facts None;
  let? bytes := canonical_bytes facts in
  do? enforce_size bytes "module shard" MAX_SHARD_BYTES;
  Ok (mkEncodedModuleShard facts bytes (digest bytes)).

Definition from_shard (shard : EncodedModuleShard) : Result ModuleArtifactIndex :=
  let facts := ems_facts shard in
  let? policy := policy_fingerprint (mtf_language_policy facts) in
  Ok (mkModuleArtifactIndex (mtf_module facts) (mtf_source_digest facts) (mtf_source_size facts)
        policy (ems_digest shard) (mtf_consumed_dependencies facts)).

Definition signature_payload (manifest : TypeArtifactManifest) : Result (list byte) :=
  let? bytes := canonical_bytes manifest in Ok (SIGNATURE_DOMAIN ++ bytes).

Definition sign_manifest (manifest : TypeArtifactManifest) (signing_key : SigningKey ed) :
    Result (list byte) :=
  let manifest := canonicalize_manifest manifest in
  do? validate_manifest manifest;
  let? payload := signature_payload manifest in
  let signature := sign signing_key payload in
  let? bytes := canonical_bytes (mkSignedManifestEnvelope manifest (encode_hex signature)) in
  do? enforce_size bytes "manifest" MAX_MANIFEST_BYTES;
  Ok bytes.

Definition verify_manifest (bytes : list byte) (trust_anchor : VerifyingKey ed)
    (expected : ArtifactExpectations) : Result VerifiedTypeArtifactManifest :=
  do? enforce_size bytes "manifest" MAX_MANIFEST_BYTES;
  let? envelope := decode_canonical bytes in
  let manifest := sme_manifest envelope in
  let? signature := decode_hex 64 (sme_signature envelope) in
  let? payload := signature_payload manifest in
  do? ensure (verify_strict trust_anchor payload signature) UntrustedSignature;
  do? validate_manifest manifest;
  do? ensure (bool_decide (canonicalize_manifest manifest = manifest)) NonCanonicalEncoding;
  do? ensure (bool_decide (tam_generation manifest = ae_generation expected)) GenerationMismatch;
  do? compare_environment (tam_environment manifest) (ae_environment expected);
  Ok (mkVerifiedTypeArtifactManifest manifest (digest bytes)).

Definition verify_shard (index : ModuleArtifactIndex) (shard_bytes : list byte) :
    Result ModuleTypeFacts :=
  let mismatch := ShardMismatch (mai_name index) in
  do? enforce_size shard_bytes "module shard" MAX_SHARD_BYTES;
  do? ensure (bool_decide (digest shard_bytes = mai_shard_digest index)) mismatch;
  let? facts := decode_canonical shard_bytes in
  do? validate_module_facts facts None;
  let? canonical := canonicalize_module facts in
  do? ensure (bool_decide (facts = canonical)) NonCanonicalEncoding;
  if negb (bool_decide (mtf_module facts = mai_module index))
     || negb (bool_decide (mtf_source_digest facts = mai_source_digest index))
     || negb (bool_decide (mtf_source_size facts = mai_source_size index))
  then Err mismatch
  else
    let? policy := policy_fingerprint (mtf_language_policy facts) in
    do? ensure (negb (negb (bool_decide (policy = mai_effective_policy index))
                      || negb (bool_decide (mtf_consumed_dependencies facts
                                            = mai_consumed_dependencies index)))) mismatch;
    Ok facts.

Definition verify_module (self : VerifiedTypeArtifactManifest) (module_name : string)
    (source : list byte) (expected_policy : ResolvedStrictPolicy)
    (current_dependencies : list DependencyFingerprint) (shard_bytes : list byte) :
    Result VerifiedModuleTypeFacts :=
  let? index := module_index self module_name in
  do? ensure (negb (negb (bool_decide (mai_source_digest index = digest source))
                    || negb (bool_decide (mci_source_hash (mai_module index)
                                          = legacy_source_hash source))
                    || negb (bool_decide (mai_source_size index = Z.of_nat (length source)))))
    (SourceMismatch module_name);
  let? policy := policy_fingerprint expected_policy in
  do? ensure (bool_decide (mai_effective_policy index = policy)) (PolicyMismatch module_name);
  let current_dependencies := canonicalize_dependencies current_dependencies in
  do? validate_dependencies current_dependencies module_name;
  do? ensure (bool_decide (mai_consumed_dependencies index = current_dependencies))
    (DependencyMismatch module_name);
  let? facts := verify_shard index shard_bytes in
  do? ensure (bool_decide (mtf_language_policy facts = expected_policy))
    (PolicyMismatch module_name);
  do? validate_module_facts facts (Some source);
  let? environment := environment_fingerprint (tam_environment (vtm_manifest self)) in
  let? identity := canonical_bytes (vtm_manifest_digest self, tam_generation (vtm_manifest self),
                                    mai_shard_digest index, environment) in
  Ok (mkVerifiedModuleTypeFacts facts (tam_generation (vtm_manifest self))
        (mai_shard_digest index) (digest identity)).

(** [read_shard] is an [FnMut]: it threads its own state [St]. *)
Definition verify_complete_generation {St} (manifest : VerifiedTypeArtifactManifest)
    (read_shard : St -> Fingerprint -> St * Result (list byte)) (st : St) :
    Result CompleteArtifactGeneration :=
  let? _ := for_fold (fun st index =>
    let (st, bytes) := read_shard st (mai_shard_digest index) in
    let? bytes := bytes in
    do? verify_shard index bytes;
    Ok st) st (tam_modules (vtm_manifest manifest)) in
  Ok (mkCompleteArtifactGeneration manifest).
End artifact.
