(* ===== verification/ArtifactProps.v ===== *)
(** * Publishing and loading artifacts ([soac_contracts/src/artifact.rs])

    Binary search on sorted manifests, the coherence of dependency records, the
    soundness of manifest and module verification, and the round trip from
    encoding and signing to loading. *)

From Stdlib Require Import Sorting.Sorted.
From S2P Require Import Prelude Order Collections Text Identity StaticTypes Normalize.
From S2P Require Import Facts Diagnostics Validation ValidationProps Canonical Json.
From S2P Require Import Artifact.

(** ** Binary search *)

Section search.
Context {A : Type} (f : A -> comparison) (l : list A).

(** The probe's answers increase along the slice. *)
Definition probe_sorted : Prop :=
  forall i j x y, i < j -> l !! i = Some x -> l !! j = Some y ->
    (f x = Gt -> f y = Gt) /\ (f y = Lt -> f x = Lt) /\ (f x = Eq -> f y <> Lt).

Definition match_in (base size : nat) : Prop :=
  exists i x, base <= i < base + size /\ l !! i = Some x /\ f x = Eq.

Lemma binary_search_step base size half :
  probe_sorted -> half = size / 2 -> 1 < size -> base + size <= length l -> match_in base size ->
  match_in (match l !! (base + half) with
            | Some x => match f x with Gt => base | _ => base + half end
            | None => base
            end) (size - half).
Proof.
  intros Hs Eh H1 Hlen (i & x & Hi & Hx & Hfx).
  assert (0 < half) by (subst; apply Nat.div_str_pos; lia).
  assert (half + half <= size) by (subst; pose proof (Nat.Div0.mul_div_le size 2); lia).
  destruct (l !! (base + half)) as [y|] eqn:Ey; [|apply lookup_ge_None in Ey; lia].
  destruct (decide (i < base + half)) as [Hlt|Hge].
  - destruct (Hs _ _ _ _ Hlt Hx Ey) as (_ & Hy & Hy'). destruct (f y) eqn:Ef.
    + exists (base + half), y. split; [lia|done].
    + naive_solver.
    + exists i, x. split; [lia|done].
  - destruct (decide (i = base + half)) as [->|Hne].
    + assert (x = y) as -> by congruence. rewrite Hfx. exists (base + half), y. split; [lia|done].
    + destruct (Hs (base + half) i y x ltac:(lia) Ey Hx) as (Hy & _ & _).
      destruct (f y) eqn:Ef; [| |rewrite Hy in Hfx; done]; exists i, x; split; try done; lia.
Qed.

Lemma binary_search_loop_spec fuel base size :
  probe_sorted -> 0 < size -> size <= S fuel -> base + size <= length l -> match_in base size ->
  exists x, l !! binary_search_loop f l fuel base size = Some x /\ f x = Eq.
Proof.
  intros Hs. revert base size. induction fuel as [|fuel IH]; intros base size H0 Hf Hlen Hm;
    cbn [binary_search_loop].
  - destruct Hm as (i & x & Hi & Hx & Hfx). assert (i = base) as -> by lia. eauto.
  - destruct (Nat.leb_spec size 1).
    + destruct Hm as (i & x & Hi & Hx & Hfx). assert (i = base) as -> by lia. eauto.
    + assert (0 < size / 2) by (apply Nat.div_str_pos; lia).
      assert (size / 2 < size) by (apply Nat.div_lt; lia).
      apply IH; [lia|lia| |by apply binary_search_step].
      destruct (l !! (base + size / 2)) as [y|]; [destruct (f y)|]; lia.
Qed.

Lemma binary_search_by_some i :
  binary_search_by f l = Some i -> exists x, l !! i = Some x /\ f x = Eq.
Proof.
  unfold binary_search_by. destruct l as [|a l']; [done|].
  destruct (_ !! binary_search_loop _ _ _ _ _) as [x|] eqn:E; [|done].
  destruct (f x) eqn:Ef; [|done..]. intros [= <-]. eauto.
Qed.

Lemma binary_search_by_complete i x :
  probe_sorted -> l !! i = Some x -> f x = Eq -> is_Some (binary_search_by f l).
Proof.
  intros Hs Hx Hfx. pose proof (lookup_lt_Some _ _ _ Hx) as Hi.
  destruct (binary_search_loop_spec (length l) 0 (length l) Hs) as (y & Hy & Hfy); try lia.
  { exists i, x. split; [lia|done]. }
  unfold binary_search_by. destruct l; [done|]. rewrite Hy, Hfy. eauto.
Qed.
End search.

(** ** Looking up a module *)

Lemma sorted_names_probe modules name :
  SortedBy (fun index => key (mai_name index)) modules ->
  probe_sorted (fun entry => ord_cmp (mai_name entry) name) modules.
Proof.
  intros Hs i j x y Hij Hx Hy.
  assert (key_le (key (mai_name x)) (key (mai_name y)) = true) as Hle.
  { exact (SortedBy_lookup _ _ _ _ _ _ Hs Hij Hx Hy). }
  unfold ord_cmp. set (a := key (mai_name x)) in *. set (b := key (mai_name y)) in *.
  set (k := key name). repeat split.
  - intros H. apply key_cmp_gt in H. apply key_cmp_gt. by eapply key_lt_le_trans.
  - intros H. apply key_cmp_lt in H. apply key_cmp_lt. by eapply key_le_lt_trans.
  - intros H H'. apply key_cmp_eq in H as <-. apply key_cmp_lt in H'.
    apply key_lt_not_le in H'. congruence.
Qed.

Lemma sorted_module_index manifest d name index :
  SortedBy (fun index => key (mai_name index)) (tam_modules manifest) ->
  NoDup (map mai_name (tam_modules manifest)) ->
  module_index (mkVerifiedTypeArtifactManifest manifest d) name = Ok index <->
  index ∈ tam_modules manifest /\ mai_name index = name.
Proof.
  intros Hs Hn. unfold module_index. cbn [vtm_manifest].
  set (f := fun entry => ord_cmp (mai_name entry) name). split.
  - destruct (binary_search_by f (tam_modules manifest)) as [i|] eqn:Ei; [|done].
    apply binary_search_by_some in Ei as (x & Hx & Hfx). cbn. rewrite Hx. intros [= <-].
    split; [by eapply list_elem_of_lookup_2|]. by apply ord_cmp_eq in Hfx.
  - intros [Hin <-]. apply list_elem_of_lookup in Hin as [i Hi].
    destruct (binary_search_by_complete f (tam_modules manifest) i index) as [j Hj];
      [by apply sorted_names_probe|done|by apply ord_cmp_eq|].
    rewrite Hj. apply binary_search_by_some in Hj as (x & Hx & Hfx). cbn. rewrite Hx. cbn. f_equal.
    apply ord_cmp_eq in Hfx.
    assert (i = j) as <-; [|congruence].
    eapply (NoDup_lookup _ _ _ (mai_name index) Hn);
      rewrite list_lookup_fmap; [by rewrite Hi|rewrite Hx; cbn; by rewrite Hfx].
Qed.

Lemma module_index_missing self name :
  module_index self name = Err (MissingModule name) \/ is_ok (module_index self name) = true.
Proof.
  unfold module_index. destruct (binary_search_by _ _) as [i|]; cbn; [|by left].
  destruct (_ !! i); cbn; [by right|by left].
Qed.

(** ** The environment *)

Lemma compare_field_ok {A} `{EqDecision A} (field : ArtifactEnvironment -> A) name a e :
  compare_field field name a e = Ok tt <-> field a = field e.
Proof. unfold compare_field. rewrite ensure_ok. by rewrite bool_decide_eq_true. Qed.

Lemma compare_environment_ok actual expected :
  compare_environment actual expected = Ok tt <->
  validate_environment expected = Ok tt /\ actual = expected.
Proof.
  unfold compare_environment. rewrite !rbind_unit_ok, !compare_field_ok.
  split; [|by intros [? ->]]. destruct actual, expected; cbn.
  intros (? & ? & ? & ? & ? & ? & ? & ? & ? & ? & ? & ? & ? & ?). split; [done|]. by subst.
Qed.

(** the loader accepts a manifest's environment exactly when its own expectation
    is well-formed and every field agrees: no field of the analysis environment is
    left out of the comparison. *)
Theorem compare_environment_iff actual expected :
  compare_environment actual expected = Ok tt <->
  validate_environment expected = Ok tt /\ actual = expected.
Proof. apply compare_environment_ok. Qed.

(** ** Dependency records agree *)

Lemma manifest_modules_from m l m' :
  for_fold (fun modules index =>
    do? validate_module_name (mai_name index);
    do? reject (is_some (bmap_get (mai_name index) modules))
      ("duplicate manifest module " +:+ mai_name index);
    do? validate_dependencies (mai_consumed_dependencies index) (mai_name index);
    Ok (bmap_insert (mai_name index) index modules)) m l = Ok m' ->
  NoDup (map mai_name l) /\ (forall x, x ∈ l -> bmap_get (mai_name x) m = None) /\
  (forall n x, bmap_get n m' = Some x <-> bmap_get n m = Some x \/ (x ∈ l /\ mai_name x = n)).
Proof.
  revert m. induction l as [|x l IH]; intros m; cbn [for_fold].
  { intros [= <-]. split; [constructor|]. set_solver. }
  intros H. apply rbind_ok in H as (m1 & Hx & H). rewrite !rbind_unit_ok, reject_ok in Hx.
  destruct Hx as (_ & Hnone & _ & [= <-]).
  destruct (bmap_get (mai_name x) m) eqn:Ex; [done|]. apply IH in H as (Hn & Hl & Hget).
  assert (forall y, y ∈ l -> mai_name y <> mai_name x) as Hne.
  { intros y Hy E. specialize (Hl y Hy). rewrite E, bmap_get_insert_eq in Hl. done. }
  split; [|split].
  - cbn. constructor; [|done]. intros (y & E & Hy)%list_elem_of_fmap. by eapply Hne.
  - intros y [->|Hy]%elem_of_cons; [done|]. specialize (Hl y Hy).
    rewrite bmap_get_insert_ne in Hl; [done|]. intros E. by eapply Hne.
  - intros n y. rewrite Hget. destruct (decide (mai_name x = n)) as [<-|Hnx].
    + rewrite bmap_get_insert_eq, Ex, elem_of_cons. split.
      * intros [[= <-]|H]; naive_solver.
      * intros [?|[[->|Hy] E]]; [done|by left|]. exfalso. by eapply Hne.
    + rewrite bmap_get_insert_ne, elem_of_cons by done. naive_solver.
Qed.

Lemma manifest_modules_ok manifest modules :
  manifest_modules manifest = Ok modules ->
  NoDup (map mai_name (tam_modules manifest)) /\
  forall n x, bmap_get n modules = Some x <-> x ∈ tam_modules manifest /\ mai_name x = n.
Proof.
  intros (Hn & _ & Hget)%manifest_modules_from. split; [done|]. intros n x. rewrite Hget. naive_solver.
Qed.

Lemma for_fold_concat {E A B S} (g : A -> list B) (f : S -> B -> result E S) s l :
  for_fold (fun s x => for_fold f s (g x)) s l = for_fold f s (concat (map g l)).
Proof.
  revert s. induction l as [|x l IH]; intros s; cbn; [done|].
  assert (forall xs ys s, for_fold f s (xs ++ ys) = let? s := for_fold f s xs in for_fold f s ys) as ->.
  { clear. induction xs as [|x xs IH]; intros ys s; cbn; [done|]. destruct (f s x); cbn; auto. }
  destruct (for_fold f s (g x)); cbn; auto.
Qed.

(** All dependency records of a manifest. *)
Definition manifest_records (manifest : TypeArtifactManifest) : list DependencyFingerprint :=
  concat (map mai_consumed_dependencies (tam_modules manifest)).

(** Two records of one dependency denote the same source under the same
    configuration, and their optional fingerprints do not contradict each other. *)
Definition records_agree (d e : DependencyFingerprint) : Prop :=
  dep_module d = dep_module e /\ dep_source_digest d = dep_source_digest e /\
  dep_source_size d = dep_source_size e /\ dep_import_resolution d = dep_import_resolution e /\
  dep_effective_configuration d = dep_effective_configuration e /\
  (forall p q, dep_strict_policy d = Some p -> dep_strict_policy e = Some q -> p = q) /\
  (forall p q, dep_type_contract d = Some p -> dep_type_contract e = Some q -> p = q).

(** [m] has merged the record [d]. *)
Definition covers (m d : DependencyFingerprint) : Prop :=
  dep_module m = dep_module d /\ dep_source_digest m = dep_source_digest d /\
  dep_source_size m = dep_source_size d /\ dep_import_resolution m = dep_import_resolution d /\
  dep_effective_configuration m = dep_effective_configuration d /\
  (forall p, dep_strict_policy d = Some p -> dep_strict_policy m = Some p) /\
  (forall p, dep_type_contract d = Some p -> dep_type_contract m = Some p).

Lemma covers_agree m d e : covers m d -> covers m e -> records_agree d e.
Proof.
  unfold covers, records_agree. intros (? & ? & ? & ? & ? & Hp & Hc) (? & ? & ? & ? & ? & Hp' & Hc').
  split_and!; try congruence.
  - intros p q Ed%Hp Ee%Hp'. congruence.
  - intros p q Ed%Hc Ee%Hc'. congruence.
Qed.

Lemma conflicts_false l r : conflicts l r = false <-> forall p q, l = Some p -> r = Some q -> p = q.
Proof.
  destruct l, r; cbn; try naive_solver. rewrite negb_false_iff, bool_decide_eq_true. naive_solver.
Qed.

Lemma merge_covers m d :
  dependency_conflict m d = false -> covers (merge_dependency m d) d /\
  forall e, covers m e -> covers (merge_dependency m d) e.
Proof.
  unfold dependency_conflict, covers, merge_dependency. intros H. bool_inv.
  rewrite conflicts_false in *. cbn. split.
  - split_and!; try done; intros p Hp.
    + destruct (dep_strict_policy m) as [q|] eqn:E; cbn; [|done]. f_equal. eauto.
    + destruct (dep_type_contract m) as [q|] eqn:E; cbn; [|done]. f_equal. eauto.
  - intros e (? & ? & ? & ? & ? & Hp & Hc). split_and!; try done.
    + intros p ->%Hp. done.
    + intros p ->%Hc. done.
Qed.

Lemma covers_refl d : covers d d.
Proof. by unfold covers. Qed.

Definition producer_agrees (producer : ModuleArtifactIndex) (d : DependencyFingerprint) : Prop :=
  mai_module producer = dep_module d /\ mai_source_digest producer = dep_source_digest d /\
  mai_source_size producer = dep_source_size d /\
  (forall c, dep_type_contract d = Some c -> c = mai_shard_digest producer) /\
  (forall p, dep_strict_policy d = Some p -> p = mai_effective_policy producer).

Lemma producer_conflict_false producer d :
  producer_conflict producer d = false <-> producer_agrees producer d.
Proof.
  unfold producer_conflict, producer_agrees. rewrite !orb_false_iff, !negb_false_iff.
  rewrite !bool_decide_eq_true.
  assert (forall (o : option Fingerprint) t,
    is_some_and (fun x => negb (bool_decide (x = t))) o = false <-> forall x, o = Some x -> x = t) as Ho.
  { intros [x|] t; cbn; [|naive_solver]. rewrite negb_false_iff, bool_decide_eq_true. naive_solver. }
  rewrite !Ho. naive_solver.
Qed.

Lemma consume_dependencies_from modules consumed l consumed' :
  for_fold (consume_dependency modules) consumed l = Ok consumed' ->
  (forall n m, bmap_get n consumed = Some m ->
     exists m', bmap_get n consumed' = Some m' /\ forall e, covers m e -> covers m' e) /\
  (forall d, d ∈ l -> exists m', bmap_get (dependency_name d) consumed' = Some m' /\ covers m' d) /\
  (forall d p, d ∈ l -> bmap_get (dependency_name d) modules = Some p -> producer_agrees p d).
Proof.
  revert consumed. induction l as [|d l IH]; intros consumed; cbn [for_fold].
  { intros [= <-]. split_and!; [eauto|set_solver|set_solver]. }
  intros H. apply rbind_ok in H as (c1 & Hd & H). apply IH in H as (Hkeep & Hcov & Hprod).
  unfold consume_dependency in Hd. apply rbind_ok in Hd as (c2 & Hc & Hd).
  rewrite rbind_unit_ok, if_some_ok in Hd. destruct Hd as [Hp [= ->]].
  assert (exists m1, bmap_get (dependency_name d) c1 = Some m1 /\ covers m1 d /\
    c1 = bmap_insert (dependency_name d) m1 consumed /\
    forall m, bmap_get (dependency_name d) consumed = Some m -> forall e, covers m e -> covers m1 e)
    as (m1 & Hm1 & Hcd & Hc1 & Hold).
  { destruct (bmap_get (dependency_name d) consumed) as [prev|].
    - rewrite rbind_unit_ok, ensure_ok in Hc. destruct Hc as [Hno [= <-]]. bool_inv.
      exists (merge_dependency prev d). rewrite bmap_get_insert_eq.
      destruct (merge_covers _ _ Hno) as [? ?]. split_and!; try done. naive_solver.
    - injection Hc as <-. exists d. rewrite bmap_get_insert_eq. by split_and!. }
  split_and!.
  - intros n m Hm. destruct (decide (dependency_name d = n)) as [<-|Hne].
    + destruct (Hkeep _ _ Hm1) as (m' & ? & Hm'). exists m'. split; [done|]. eauto.
    + apply Hkeep. by rewrite Hc1, bmap_get_insert_ne.
  - intros e [->|He]%elem_of_cons; [|by apply Hcov].
    destruct (Hkeep _ _ Hm1) as (m' & ? & Hm'). eauto.
  - intros e p [->|He]%elem_of_cons Hpe; [|by eapply Hprod].
    specialize (Hp p Hpe). rewrite ensure_ok in Hp. bool_inv. by apply producer_conflict_false.
Qed.

Lemma manifest_dependencies_ok modules manifest consumed :
  manifest_dependencies modules manifest = Ok consumed ->
  (forall d e, d ∈ manifest_records manifest -> e ∈ manifest_records manifest ->
     dependency_name d = dependency_name e -> records_agree d e) /\
  (forall d p, d ∈ manifest_records manifest ->
     bmap_get (dependency_name d) modules = Some p -> producer_agrees p d).
Proof.
  unfold manifest_dependencies. rewrite for_fold_concat.
  intros (_ & Hcov & Hprod)%consume_dependencies_from. split; [|done].
  intros d e Hd He E. destruct (Hcov d Hd) as (m & Hm & Hmd). destruct (Hcov e He) as (m' & Hm' & Hme).
  rewrite E in Hm. assert (m = m') as -> by congruence. by eapply covers_agree.
Qed.

(** ** Manifests *)

Lemma canonicalize_dependencies_twice l :
  canonicalize_dependencies (canonicalize_dependencies l) = canonicalize_dependencies l.
Proof. apply sort_by_id; eauto with ordered. Qed.

Lemma canonicalize_manifest_twice m :
  canonicalize_manifest (canonicalize_manifest m) = canonicalize_manifest m.
Proof.
  unfold canonicalize_manifest. cbn -[key]. f_equal. set (l := sort_by _ (tam_modules m)).
  assert (SortedBy (fun index => key (mai_name index)) (map canonicalize_index l)) as Hs.
  { eapply SortedBy_same_keys; [|eauto with ordered]. by rewrite map_map. }
  rewrite (sort_by_id _ _ Hs), map_map. apply map_ext. intros index. unfold canonicalize_index. cbn.
  by rewrite canonicalize_dependencies_twice.
Qed.

Lemma canonicalize_manifest_sorted m :
  canonicalize_manifest m = m -> SortedBy (fun index => key (mai_name index)) (tam_modules m).
Proof.
  intros <-. unfold canonicalize_manifest. cbn -[key].
  eapply SortedBy_same_keys; [|eauto with ordered]. by rewrite map_map.
Qed.

(** What a manifest with a valid structure promises. *)
Record manifest_coherent (m : TypeArtifactManifest) : Prop := {
  mc_versions : tam_versions m = artifact_versions_default;
  mc_environment : validate_environment (tam_environment m) = Ok tt;
  mc_names : NoDup (map mai_name (tam_modules m));
  mc_records : forall d e, d ∈ manifest_records m -> e ∈ manifest_records m ->
    dependency_name d = dependency_name e -> records_agree d e;
  mc_producers : forall d p, d ∈ manifest_records m -> p ∈ tam_modules m ->
    mai_name p = dependency_name d -> producer_agrees p d;
}.

Lemma validate_versions_ok v : validate_versions v = Ok tt <-> v = artifact_versions_default.
Proof.
  unfold validate_versions. rewrite for_each_ok, !Forall_cons, !ensure_ok, !bool_decide_eq_true.
  destruct v; cbn. unfold artifact_versions_default. split; [|by intros [= -> -> ->]].
  intros (-> & -> & -> & _). done.
Qed.

Section loading.
Context (digest : list byte -> Fingerprint) (to_vec : Value -> result string (list byte)).
Context (ed : Ed25519).
Context `{!Serialize ResolvedStrictPolicy, !Serialize ArtifactEnvironment}.
Context `{!Serialize (ArtifactVersions * ArtifactEnvironment * list ModuleArtifactIndex)}.
Context `{!Serialize TypeArtifactManifest}.
Context `{!Serialize SignedManifestEnvelope, !Deserialize SignedManifestEnvelope}.
Context `{!Serialize ModuleTypeFacts, !Deserialize ModuleTypeFacts}.
Context `{!Serialize (Fingerprint * ArtifactGenerationId * Fingerprint * Fingerprint)}.

Local Abbreviation validate_manifest := (validate_manifest digest to_vec).
Local Abbreviation content_generation := (content_generation digest to_vec).
Local Abbreviation verify_manifest := (verify_manifest digest to_vec ed).
Local Abbreviation sign_manifest := (sign_manifest digest to_vec ed).
Local Abbreviation verify_shard := (verify_shard digest to_vec).
Local Abbreviation verify_module := (verify_module digest to_vec).
Local Abbreviation encode_module_shard := (encode_module_shard digest to_vec).
Local Abbreviation from_shard := (from_shard digest to_vec).
Local Abbreviation policy_fingerprint := (policy_fingerprint digest to_vec).
Local Abbreviation validate_module_facts := (validate_module_facts digest).

Lemma validate_manifest_coherent m :
  validate_manifest m = Ok tt ->
  manifest_coherent m /\ content_generation m = Ok (tam_generation m).
Proof.
  unfold Artifact.validate_manifest. intros H. rewrite !rbind_unit_ok in H. destruct H as (Hv & He & H).
  apply rbind_ok in H as (modules & Hm & H). apply rbind_ok in H as (consumed & Hd & H).
  apply rbind_ok in H as (g & Hg & H). rewrite ensure_ok in H. bool_inv. subst g.
  apply manifest_modules_ok in Hm as [Hn Hget]. apply manifest_dependencies_ok in Hd as [Hr Hp].
  split; [|done]. split; try done.
  - by apply validate_versions_ok.
  - intros d p Hd Hp' E. apply Hp; [done|]. by apply Hget.
Qed.

Lemma enforce_size_ok bytes kind limit :
  enforce_size bytes kind limit = Ok tt <-> (Z.of_nat (length bytes) <= limit)%Z.
Proof.
  unfold enforce_size. destruct (limit <? _)%Z eqn:E; bool_inv; split; try done; lia.
Qed.

(** The parts of a verified manifest. *)
Lemma verify_manifest_parts bytes anchor expected vm :
  verify_manifest bytes anchor expected = Ok vm ->
  let m := vtm_manifest vm in
  vtm_manifest_digest vm = digest bytes /\
  (Z.of_nat (length bytes) <= MAX_MANIFEST_BYTES)%Z /\
  manifest_coherent m /\ content_generation m = Ok (tam_generation m) /\
  SortedBy (fun index => key (mai_name index)) (tam_modules m) /\
  tam_generation m = ae_generation expected /\ tam_environment m = ae_environment expected /\
  exists signature payload,
    length signature = 64 /\ signature_payload to_vec m = Ok payload /\
    verify_strict anchor payload signature = true /\
    canonical_bytes to_vec (mkSignedManifestEnvelope m (encode_hex signature)) = Ok bytes.
Proof.
  unfold Artifact.verify_manifest. intros H. apply rbind_unit_ok in H as [Hsize H].
  apply rbind_ok in H as ([m s] & Henv & H). cbn [sme_manifest sme_signature] in H.
  apply rbind_ok in H as (sig & Hsig & H). apply rbind_ok in H as (payload & Hpay & H).
  rewrite !rbind_unit_ok, !ensure_ok, compare_environment_ok in H.
  destruct H as (Hver & Hval & Hcan & Hgen & [_ Hcmp] & [= <-]). bool_inv.
  apply validate_manifest_coherent in Hval as [Hcoh Hgen']. apply enforce_size_ok in Hsize.
  apply decode_canonical_bytes in Henv as [Henv _].
  apply decode_hex_spec in Hsig as [Hlen <-].
  cbn zeta. cbn [vtm_manifest vtm_manifest_digest]. split_and!; try done.
  - by apply canonicalize_manifest_sorted.
  - by exists sig, payload.
Qed.

(** ** Signing, then verifying *)

Lemma sign_manifest_parts m k bytes :
  sign_manifest m k = Ok bytes ->
  let m' := canonicalize_manifest m in
  validate_manifest m' = Ok tt /\
  exists payload, signature_payload to_vec m' = Ok payload /\
    canonical_bytes to_vec (mkSignedManifestEnvelope m' (encode_hex (sign k payload))) = Ok bytes /\
    (Z.of_nat (length bytes) <= MAX_MANIFEST_BYTES)%Z.
Proof.
  unfold Artifact.sign_manifest. intros H. apply rbind_unit_ok in H as [Hv H].
  apply rbind_ok in H as (payload & Hp & H). apply rbind_ok in H as (b & Hb & H).
  apply rbind_unit_ok in H as [Hsize [= <-]]. apply enforce_size_ok in Hsize. split; [done|]. eauto.
Qed.

Lemma sign_then_verify `{!Ed25519Laws ed} m k bytes :
  sign_manifest m k = Ok bytes ->
  (forall signature, round_trips to_vec (mkSignedManifestEnvelope (canonicalize_manifest m) signature)) ->
  verify_manifest bytes (verifying_key k)
    (mkArtifactExpectations (tam_generation m) (tam_environment m))
  = Ok (mkVerifiedTypeArtifactManifest (canonicalize_manifest m) (digest bytes)).
Proof.
  intros (Hv & payload & Hp & Hb & Hsize)%sign_manifest_parts Hrt.
  unfold Artifact.verify_manifest. apply enforce_size_ok with (kind := "manifest"%string) in Hsize.
  rewrite Hsize. cbn [rbind]. rewrite (decode_canonical_encoded _ _ _ (Hrt _) Hb). cbn [rbind].
  cbn [sme_manifest sme_signature].
  rewrite (proj2 (decode_hex_spec 64 _ (sign k payload))) by (split; [apply sign_length|done]).
  cbn [rbind]. rewrite Hp. cbn [rbind]. rewrite verify_sign. cbn [ensure rbind]. rewrite Hv.
  cbn [rbind]. rewrite canonicalize_manifest_twice, !bool_decide_true by done. cbn [ensure rbind].
  assert (compare_environment (tam_environment (canonicalize_manifest m)) (tam_environment m) = Ok tt)
    as Hc.
  { apply compare_environment_ok. split; [|done]. apply validate_manifest_coherent in Hv as [Hv _].
    apply (mc_environment _ Hv). }
  cbn [ae_environment ae_generation]. rewrite Hc. done.
Qed.

(** ** Encoding, then verifying a shard *)

Lemma encode_module_shard_parts facts shard :
  encode_module_shard facts = Ok shard ->
  canonicalize_module facts = Ok (ems_facts shard) /\
  validate_module_facts (ems_facts shard) None = Ok tt /\
  canonical_bytes to_vec (ems_facts shard) = Ok (ems_bytes shard) /\
  (Z.of_nat (length (ems_bytes shard)) <= MAX_SHARD_BYTES)%Z /\
  ems_digest shard = digest (ems_bytes shard).
Proof.
  unfold Artifact.encode_module_shard. intros H. apply rbind_ok in H as (f & Hf & H).
  apply rbind_unit_ok in H as [Hv H]. apply rbind_ok in H as (b & Hb & H).
  apply rbind_unit_ok in H as [Hsize [= <-]]. apply enforce_size_ok in Hsize. cbn. done.
Qed.

Lemma encode_then_verify_shard facts shard index :
  encode_module_shard facts = Ok shard -> from_shard shard = Ok index ->
  round_trips to_vec (ems_facts shard) ->
  verify_shard index (ems_bytes shard) = Ok (ems_facts shard).
Proof.
  intros (Hc & Hv & Hb & Hsize & Hd)%encode_module_shard_parts Hi Hrt.
  unfold Artifact.from_shard in Hi. apply rbind_ok in Hi as (policy & Hp & [= <-]).
  unfold Artifact.verify_shard. apply enforce_size_ok with (kind := "module shard"%string) in Hsize.
  rewrite Hsize. cbn [rbind mai_shard_digest]. rewrite Hd, bool_decide_true by done.
  cbn [ensure rbind]. rewrite (decode_canonical_encoded _ _ _ Hrt Hb). cbn [rbind]. rewrite Hv.
  cbn [rbind]. apply canonicalize_module_canonical in Hc as [Hc1 Hc2].
  rewrite (canonicalize_module_fixed _ Hc1 Hc2). cbn [rbind]. rewrite bool_decide_true by done.
  cbn [ensure rbind mai_module mai_source_digest mai_source_size mai_effective_policy
    mai_consumed_dependencies]. rewrite !bool_decide_true by done. cbn [negb orb].
  rewrite Hp. cbn [rbind]. by rewrite bool_decide_true.
Qed.

(** ** What a verified shard and a verified module are *)

Lemma verify_shard_parts index bytes facts :
  verify_shard index bytes = Ok facts ->
  digest bytes = mai_shard_digest index /\ canonical_bytes to_vec facts = Ok bytes /\
  validate_module_facts facts None = Ok tt /\ canonicalize_module facts = Ok facts /\
  mtf_module facts = mai_module index /\ mtf_source_digest facts = mai_source_digest index /\
  mtf_source_size facts = mai_source_size index /\
  policy_fingerprint (mtf_language_policy facts) = Ok (mai_effective_policy index) /\
  mtf_consumed_dependencies facts = mai_consumed_dependencies index.
Proof.
  unfold Artifact.verify_shard. intros H. rewrite !rbind_unit_ok, ensure_ok in H.
  destruct H as (_ & Hd & H). apply rbind_ok in H as (f & Hf & H). apply decode_canonical_bytes in Hf as [Hf _].
  apply rbind_unit_ok in H as [Hv H]. apply rbind_ok in H as (c & Hc & H).
  apply rbind_unit_ok in H as [He H]. rewrite ensure_ok in He. bool_inv. subst c.
  case_match eqn:E; [done|]. bool_inv. apply rbind_ok in H as (p & Hp & H).
  apply rbind_unit_ok in H as [He H]. rewrite ensure_ok in He. injection H as <-. bool_inv. subst p.
  done.
Qed.

Lemma verify_module_parts self name source policy dependencies bytes v :
  verify_module self name source policy dependencies bytes = Ok v ->
  exists index, module_index self name = Ok index /\
    verify_shard index bytes = Ok (vmf_facts v) /\
    mai_source_digest index = digest source /\
    mtf_language_policy (vmf_facts v) = policy /\
    mai_consumed_dependencies index = canonicalize_dependencies dependencies /\
    validate_module_facts (vmf_facts v) (Some source) = Ok tt /\
    vmf_generation v = tam_generation (vtm_manifest self) /\
    vmf_shard_digest v = mai_shard_digest index.
Proof.
  unfold Artifact.verify_module. intros H. apply rbind_ok in H as (index & Hi & H).
  rewrite !rbind_unit_ok, ensure_ok in H. destruct H as (Hs & H).
  apply rbind_ok in H as (p & Hp & H). rewrite !rbind_unit_ok, !ensure_ok in H.
  destruct H as (Hpol & _ & Hdep & H). apply rbind_ok in H as (facts & Hf & H).
  rewrite !rbind_unit_ok, !ensure_ok in H. destruct H as (Hpol' & Hval & H).
  apply rbind_ok in H as (env & _ & H). apply rbind_ok in H as (identity & _ & [= <-]).
  bool_inv. exists index. cbn. split_and!; done.
Qed.
End loading.

(** ** Guarantees *)

Section guarantees.
Context (digest : list byte -> Fingerprint) (to_vec : Value -> result string (list byte)).
Context (ed : Ed25519).
Context `{!Serialize ResolvedStrictPolicy, !Serialize ArtifactEnvironment}.
Context `{!Serialize (ArtifactVersions * ArtifactEnvironment * list ModuleArtifactIndex)}.
Context `{!Serialize TypeArtifactManifest}.
Context `{!Serialize SignedManifestEnvelope, !Deserialize SignedManifestEnvelope}.
Context `{!Serialize ModuleTypeFacts, !Deserialize ModuleTypeFacts}.
Context `{!Serialize (Fingerprint * ArtifactGenerationId * Fingerprint * Fingerprint)}.

(** a signed manifest verifies under the matching key and the expectations taken
    from the manifest itself, and verification returns its canonical form. *)
Theorem sign_verify_roundtrip (laws : Ed25519Laws ed) m k bytes :
  sign_manifest digest to_vec ed m k = Ok bytes ->
  (forall signature, round_trips to_vec (mkSignedManifestEnvelope (canonicalize_manifest m) signature)) ->
  verify_manifest digest to_vec ed bytes (verifying_key k)
    (mkArtifactExpectations (tam_generation m) (tam_environment m))
  = Ok (mkVerifiedTypeArtifactManifest (canonicalize_manifest m) (digest bytes)).
Proof. intros Hs Hrt. exact (sign_then_verify _ _ _ _ _ _ Hs Hrt). Qed.

(** C21: a manifest that verifies carries a signature of its canonical payload under
    the trust anchor, is the pinned generation in the expected environment, has the
    content-addressed generation of its own contents, and is coherent with its
    modules sorted by name. *)
Theorem verify_manifest_sound bytes anchor expected vm :
  verify_manifest digest to_vec ed bytes anchor expected = Ok vm ->
  let m := vtm_manifest vm in
  manifest_coherent m /\
  SortedBy (fun index => key (mai_name index)) (tam_modules m) /\
  content_generation digest to_vec m = Ok (ae_generation expected) /\
  tam_environment m = ae_environment expected /\
  exists signature payload, signature_payload to_vec m = Ok payload /\
    verify_strict anchor payload signature = true /\
    canonical_bytes to_vec (mkSignedManifestEnvelope m (encode_hex signature)) = Ok bytes.
Proof.
  intros H%verify_manifest_parts. cbn zeta in *.
  destruct H as (_ & _ & Hc & Hg & Hs & Eg & Ee & sig & payload & _ & Hp & Hv & Hb).
  rewrite <- Eg. split_and!; try done. by exists sig, payload.
Qed.

(** in a verified manifest [module_index] returns exactly the entry of the named
    module, and reports a missing module otherwise: binary search finds every entry. *)
Theorem module_index_verified bytes anchor expected vm name :
  verify_manifest digest to_vec ed bytes anchor expected = Ok vm ->
  (forall index, module_index vm name = Ok index <->
     index ∈ tam_modules (vtm_manifest vm) /\ mai_name index = name) /\
  (module_index vm name = Err (MissingModule name) <->
     name ∉ map mai_name (tam_modules (vtm_manifest vm))).
Proof.
  intros H%verify_manifest_parts. destruct vm as [m d]. cbn in H.
  destruct H as (_ & _ & Hc & _ & Hs & _).
  pose proof (fun index => sorted_module_index m d name index Hs (mc_names _ Hc)) as Hi.
  split; [done|]. split.
  - intros E (x & -> & Hx)%list_elem_of_fmap. rewrite (proj2 (Hi x)) in E; done.
  - intros Hn. destruct (module_index_missing (mkVerifiedTypeArtifactManifest m d) name) as [|Hok]; [done|].
    destruct (module_index _ name) as [x|]; [|done]. destruct (proj1 (Hi x) eq_refl) as [Hx <-].
    destruct Hn. apply list_elem_of_fmap. by exists x.
Qed.

(** the encoder's shard is accepted by the verifier under the index built from
    it, and decodes to the canonical facts that were encoded. *)
Theorem encode_verify_shard_roundtrip facts shard index :
  encode_module_shard digest to_vec facts = Ok shard ->
  from_shard digest to_vec shard = Ok index ->
  round_trips to_vec (ems_facts shard) ->
  verify_shard digest to_vec index (ems_bytes shard) = Ok (ems_facts shard) /\
  canonicalize_module facts = Ok (ems_facts shard).
Proof.
  intros He Hi Hrt. split; [by eapply encode_then_verify_shard|].
  by apply encode_module_shard_parts in He as [? _].
Qed.

(** C5: a module that verifies is bound to everything the loader supplied: the named
    entry of the manifest, the actual source bytes (both hashes, the size and
    UTF-8), the loader's policy, the loader's dependencies and the signed shard
    digest; its facts are canonical and fully validated. *)
Theorem verify_module_sound vm name source policy dependencies bytes v :
  verify_module digest to_vec vm name source policy dependencies bytes = Ok v ->
  let facts := vmf_facts v in
  exists index, module_index vm name = Ok index /\
    digest bytes = mai_shard_digest index /\ vmf_shard_digest v = digest bytes /\
    canonical_bytes to_vec facts = Ok bytes /\ canonicalize_module facts = Ok facts /\
    validate_module_facts digest facts (Some source) = Ok tt /\
    mtf_module facts = mai_module index /\
    mtf_source_digest facts = digest source /\
    mci_source_hash (mtf_module facts) = legacy_source_hash source /\
    mtf_source_size facts = Z.of_nat (length source) /\ utf8_valid source = true /\
    mtf_language_policy facts = policy /\
    mtf_consumed_dependencies facts = canonicalize_dependencies dependencies /\
    vmf_generation v = tam_generation (vtm_manifest vm).
Proof.
  intros (index & Hi & Hs & Hd & Hp & Hdep & Hv & Hg & Hsd)%verify_module_parts. cbn zeta.
  apply verify_shard_parts in Hs as (H1 & H2 & _ & H3 & H4 & _ & _ & _ & H5).
  pose proof Hv as [self [_ Hsrc _ _ _ _ _ _ _ _ _ _]]%validate_module_facts_parts.
  cbn in Hsrc. apply rbind_ok in Hsrc as (s & Hsrc & _). rewrite !rbind_unit_ok, !ensure_ok in Hsrc.
  destruct Hsrc as (Hm & Hu & _). bool_inv. exists index. split_and!; congruence.
Qed.

(** dependency records of a valid manifest are coherent: all records of one
    dependency denote the same source under the same configuration without
    contradicting policies or type contracts, and records of a module the manifest
    itself publishes match the published index. *)
Theorem validate_manifest_dependencies m d e :
  validate_manifest digest to_vec m = Ok tt ->
  d ∈ manifest_records m -> e ∈ manifest_records m -> dependency_name d = dependency_name e ->
  records_agree d e /\
  forall p, p ∈ tam_modules m -> mai_name p = dependency_name d -> producer_agrees p d.
Proof.
  intros [Hc _]%validate_manifest_coherent Hd He E. split; [by eapply mc_records|].
  intros p Hp En. by eapply mc_producers.
Qed.

(** a complete generation was read and verified shard by shard: for every entry
    of the manifest the reader produced bytes that verify under that entry. *)
Theorem verify_complete_generation_all {St} vm (read_shard : St -> Fingerprint -> St * Result (list byte))
    st complete :
  verify_complete_generation digest to_vec vm read_shard st = Ok complete ->
  cag_manifest complete = vm /\
  Forall (fun index => exists st st' bytes facts,
    read_shard st (mai_shard_digest index) = (st', Ok bytes) /\
    verify_shard digest to_vec index bytes = Ok facts) (tam_modules (vtm_manifest vm)).
Proof.
  unfold verify_complete_generation. intros H. apply rbind_ok in H as (st' & H & [= <-]).
  split; [done|]. revert st H. induction (tam_modules (vtm_manifest vm)) as [|index l IH];
    intros st H; [constructor|]. cbn [for_fold] in H. apply rbind_ok in H as (st1 & Hs & H).
  constructor; [|by eapply IH]. destruct (read_shard st (mai_shard_digest index)) as [st2 r] eqn:Er.
  apply rbind_ok in Hs as (bytes & -> & Hs). apply rbind_ok in Hs as (facts & Hf & _).
  by exists st, st2, bytes, facts.
Qed.

(** C2: publishing then loading succeeds: a shard encoded from facts that match the
    source, indexed in a signed manifest, loads under the matching key, source,
    policy and (in any order) dependencies, and yields the canonical facts. *)
Theorem publish_then_load (laws : Ed25519Laws ed) facts shard index m k bytes source dependencies
    environment identity :
  encode_module_shard digest to_vec facts = Ok shard ->
  from_shard digest to_vec shard = Ok index ->
  round_trips to_vec (ems_facts shard) ->
  validate_module_facts digest (ems_facts shard) (Some source) = Ok tt ->
  index ∈ tam_modules m ->
  sign_manifest digest to_vec ed m k = Ok bytes ->
  (forall signature, round_trips to_vec (mkSignedManifestEnvelope (canonicalize_manifest m) signature)) ->
  reordered dependency_name (mtf_consumed_dependencies (ems_facts shard)) dependencies ->
  environment_fingerprint digest to_vec (tam_environment m) = Ok environment ->
  canonical_bytes to_vec (digest bytes, tam_generation m, ems_digest shard, environment) = Ok identity ->
  exists vm, verify_manifest digest to_vec ed bytes (verifying_key k)
      (mkArtifactExpectations (tam_generation m) (tam_environment m)) = Ok vm /\
    verify_module digest to_vec vm (mci_module_name (mtf_module (ems_facts shard))) source
      (mtf_language_policy (ems_facts shard)) dependencies (ems_bytes shard)
    = Ok (mkVerifiedModuleTypeFacts (ems_facts shard) (tam_generation m) (ems_digest shard)
            (digest identity)).
Proof.
  intros He Hi Hrt Hval Hin Hs Hrts Hdeps Henv Hid.
  pose proof (sign_then_verify _ _ _ _ _ _ Hs Hrts) as Hvm.
  eexists. split; [exact Hvm|].
  pose proof (verify_manifest_parts _ _ _ _ _ _ _ Hvm) as (_ & _ & Hcoh & _ & Hsort & _).
  pose proof (encode_then_verify_shard _ _ _ _ _ He Hi Hrt) as Hshard.
  pose proof (verify_shard_parts _ _ _ _ _ Hshard) as (Hd & _ & Hval0 & Hcan & Em & Es & Ez & Ep & Edep).
  apply canonicalize_module_canonical in Hcan as [Hcan _].
  assert (canonicalize_dependencies dependencies = mtf_consumed_dependencies (ems_facts shard)) as Ec.
  { unfold canonicalize_dependencies. rewrite <- (reordered_sort _ _ _ Hdeps).
    apply sort_by_id. by destruct Hcan as (_ & ? & _). }
  assert (canonicalize_index index = index) as Eidx.
  { unfold canonicalize_index. rewrite <- Edep. unfold canonicalize_dependencies.
    rewrite sort_by_id; [|by destruct Hcan as (_ & ? & _)]. rewrite Edep. by destruct index. }
  assert (index ∈ tam_modules (canonicalize_manifest m)) as Hin'.
  { cbn -[key]. rewrite <- Eidx. apply list_elem_of_fmap_2. by apply elem_of_sort_by. }
  assert (mai_name index = mci_module_name (mtf_module (ems_facts shard))) as Ename
    by (unfold mai_name; by rewrite Em).
  pose proof Hval as [self [Hh Hsrc _ _ _ _ _ _ _ _ _ _]]%validate_module_facts_parts.
  cbn in Hsrc. apply rbind_ok in Hsrc as (s' & Hsrc & _). rewrite !rbind_unit_ok, !ensure_ok in Hsrc.
  destruct Hsrc as (Hm & _ & _). bool_inv.
  unfold validate_header in Hh. rewrite !rbind_unit_ok in Hh. destruct Hh as (_ & _ & Hvd & _).
  unfold verify_module.
  rewrite (proj2 (sorted_module_index _ _ _ index Hsort (mc_names _ Hcoh)) (conj Hin' Ename)).
  cbn [rbind]. rewrite !bool_decide_true by congruence. cbn [negb orb ensure rbind].
  rewrite Ep. cbn [rbind]. rewrite ?bool_decide_true by done. cbn [ensure rbind].
  rewrite Ec, Hvd. cbn [rbind]. rewrite ?bool_decide_true by done. cbn [ensure rbind].
  rewrite Hshard. cbn [rbind]. rewrite ?bool_decide_true by done. cbn [ensure rbind].
  rewrite Hval. cbn [rbind]. cbn [vtm_manifest tam_environment canonicalize_manifest].
  rewrite Henv. cbn [rbind]. apply encode_module_shard_parts in He as (_ & _ & _ & _ & Edig).
  cbn [vtm_manifest vtm_manifest_digest tam_generation canonicalize_manifest].
  rewrite <- Hd, <- Edig, Hid. done.
Qed.
End guarantees.

(** ** A published module

    A checksum for the digest, strings for the encodings, a keyless signature
    scheme, and one module with the source [x = 1]. *)
Module Demo.
Definition checksum (bytes : list byte) : Fingerprint :=
  mkFingerprint (resize 32 Byte.x00
    (bytes_of (show_u32 (fold_left (fun h b => (h * 31 + b2z b) mod 65521)%Z bytes 7%Z)))).
Definition to_vec (v : Value) : result string (list byte) :=
  match v with VString s => Ok (bytes_of s) | _ => Err "unsupported"%string end.

Definition scheme : Ed25519 :=
  mkEd25519 unit unit id (fun _ m => resize 64 Byte.x00 (rev m))
    (fun _ m s => bool_decide (s = resize 64 Byte.x00 (rev m))).
#[global] Instance scheme_laws : Ed25519Laws scheme.
Proof.
  split.
  - intros k m. apply length_resize.
  - intros k m. by apply bool_decide_true.
Qed.

Definition source : list byte := bytes_of "x = 1".
Definition facts : ModuleTypeFacts :=
  mkModuleTypeFacts ARTIFACT_SCHEMA_VERSION
    (mkModuleContentId "pkg.mod" (legacy_source_hash source)) (checksum source) 5 SD_OrdinaryPython
    (mkResolvedStrictPolicy false false []) [] [] [] [] [] [] [] [].
Definition environment : ArtifactEnvironment :=
  mkArtifactEnvironment "rev" (checksum []) "exp" (mkPythonVersion 3 13) "linux" (checksum [])
    (checksum []) (checksum []) (checksum []) (checksum []) (checksum []) (checksum [])
    conservative_analysis_default.

#[export] Instance policy_value : Serialize ResolvedStrictPolicy := fun _ => Ok (VString "policy").
#[export] Instance environment_value : Serialize ArtifactEnvironment := fun _ => Ok (VString "env").
#[export] Instance contents_value :
  Serialize (ArtifactVersions * ArtifactEnvironment * list ModuleArtifactIndex) :=
  fun c => Ok (VString (String.concat EmptyString (map mai_name c.2))).
#[export] Instance manifest_value : Serialize TypeArtifactManifest :=
  fun m => Ok (VString (String.concat EmptyString (map mai_name (tam_modules m)))).
#[export] Instance identity_value :
  Serialize (Fingerprint * ArtifactGenerationId * Fingerprint * Fingerprint) :=
  fun _ => Ok (VString "identity").
#[export] Instance facts_value : Serialize ModuleTypeFacts := fun _ => Ok (VString "facts").
#[export] Instance facts_from : Deserialize ModuleTypeFacts :=
  fun bytes => if bool_decide (bytes = bytes_of "facts") then Ok facts else Err "facts"%string.
#[export] Instance envelope_value : Serialize SignedManifestEnvelope :=
  fun e => Ok (VString (sme_signature e)).

Definition shard : EncodedModuleShard :=
  mkEncodedModuleShard facts (bytes_of "facts") (checksum (bytes_of "facts")).
Definition index : ModuleArtifactIndex :=
  mkModuleArtifactIndex (mtf_module facts) (checksum source) 5 (checksum (bytes_of "policy"))
    (ems_digest shard) [].
Definition manifest : TypeArtifactManifest :=
  mkTypeArtifactManifest artifact_versions_default
    (mkArtifactGenerationId (checksum (GENERATION_DOMAIN ++ bytes_of "pkg.mod"))) environment [index].
#[export] Instance envelope_from : Deserialize SignedManifestEnvelope :=
  fun bytes => Ok (mkSignedManifestEnvelope manifest (string_of_bytes bytes)).
Definition signed : list byte :=
  bytes_of (encode_hex (sign (e := scheme) tt (SIGNATURE_DOMAIN ++ bytes_of "pkg.mod"))).

(** A reader that counts its reads. *)
Definition reader (reads : nat) (_ : Fingerprint) : nat * Result (list byte) :=
  (S reads, Ok (bytes_of "facts")).

Lemma facts_round_trip : round_trips to_vec (ems_facts shard).
Proof. intros bytes [= <-]. reflexivity. Qed.
Lemma envelope_round_trip signature :
  round_trips to_vec (mkSignedManifestEnvelope (canonicalize_manifest manifest) signature).
Proof.
  intros bytes [= <-]. unfold from_slice, envelope_from. by rewrite string_of_bytes_of.
Qed.
End Demo.

Section demo.
Import Demo.

Lemma sign_verify_roundtrip_witness :
  verify_manifest checksum to_vec scheme signed tt
    (mkArtifactExpectations (tam_generation manifest) environment)
  = Ok (mkVerifiedTypeArtifactManifest manifest (checksum signed)).
Proof.
  refine (sign_verify_roundtrip checksum to_vec scheme _ manifest tt signed _ _).
  - vm_compute. reflexivity.
  - apply envelope_round_trip.
Defined.

Lemma verify_manifest_sound_witness :
  manifest_coherent manifest.
Proof.
  refine (proj1 (verify_manifest_sound checksum to_vec scheme signed tt
    (mkArtifactExpectations (tam_generation manifest) environment)
    (mkVerifiedTypeArtifactManifest manifest (checksum signed)) _)).
  vm_compute. reflexivity.
Defined.

Lemma module_index_verified_witness :
  module_index (mkVerifiedTypeArtifactManifest manifest (checksum signed)) "pkg.mod" = Ok index.
Proof.
  refine (proj2 (proj1 (module_index_verified checksum to_vec scheme signed tt
    (mkArtifactExpectations (tam_generation manifest) environment)
    (mkVerifiedTypeArtifactManifest manifest (checksum signed)) "pkg.mod" _) index) _).
  - vm_compute. reflexivity.
  - split; [apply list_elem_of_In; left|]; reflexivity.
Defined.

Lemma encode_verify_shard_roundtrip_witness :
  verify_shard checksum to_vec index (ems_bytes shard) = Ok facts.
Proof.
  refine (proj1 (encode_verify_shard_roundtrip checksum to_vec facts shard index _ _ facts_round_trip)).
  - vm_compute. reflexivity.
  - vm_compute. reflexivity.
Defined.

Lemma publish_then_load_witness :
  exists vm, verify_manifest checksum to_vec scheme signed tt
      (mkArtifactExpectations (tam_generation manifest) environment) = Ok vm /\
    verify_module checksum to_vec vm "pkg.mod" source (mtf_language_policy facts) [] (bytes_of "facts")
    = Ok (mkVerifiedModuleTypeFacts facts (tam_generation manifest) (ems_digest shard)
            (checksum (bytes_of "identity"))).
Proof.
  refine (publish_then_load checksum to_vec scheme _ facts shard index manifest tt signed source []
    (checksum (bytes_of "env")) (bytes_of "identity") _ _ facts_round_trip _ _ _
    envelope_round_trip _ _ _).
  - vm_compute. reflexivity.
  - vm_compute. reflexivity.
  - vm_compute. reflexivity.
  - apply list_elem_of_In. left. reflexivity.
  - vm_compute. reflexivity.
  - split; [reflexivity|constructor].
  - vm_compute. reflexivity.
  - vm_compute. reflexivity.
Defined.

Lemma verify_module_sound_witness :
  let vm := mkVerifiedTypeArtifactManifest manifest (checksum signed) in
  let v := mkVerifiedModuleTypeFacts facts (tam_generation manifest) (ems_digest shard)
    (checksum (bytes_of "identity")) in
  verify_module checksum to_vec vm "pkg.mod" source (mtf_language_policy facts) []
    (bytes_of "facts") = Ok v /\
  exists index, module_index vm "pkg.mod" = Ok index /\
    checksum (bytes_of "facts") = mai_shard_digest index.
Proof.
  intros vm v.
  assert (verify_module checksum to_vec vm "pkg.mod" source (mtf_language_policy facts) []
    (bytes_of "facts") = Ok v) as H by (vm_compute; reflexivity).
  split; [exact H|].
  destruct (verify_module_sound _ _ _ _ _ _ _ _ _ H) as (i & Hi & Hd & _). exists i. split; [exact Hi|exact Hd].
Defined.

Lemma verify_complete_generation_all_witness :
  let vm := mkVerifiedTypeArtifactManifest manifest (checksum signed) in
  verify_complete_generation checksum to_vec vm reader 0 = Ok (mkCompleteArtifactGeneration vm) /\
  Forall (fun index => exists st st' bytes facts,
    reader st (mai_shard_digest index) = (st', Ok bytes) /\
    verify_shard checksum to_vec index bytes = Ok facts) (tam_modules (vtm_manifest vm)).
Proof.
  intros vm.
  assert (verify_complete_generation checksum to_vec vm reader 0
    = Ok (mkCompleteArtifactGeneration vm)) as H by (vm_compute; reflexivity).
  split; [exact H|]. exact (proj2 (verify_complete_generation_all _ _ _ _ _ _ H)).
Defined.

(** Two modules that record the same dependency; only one knows its policy. *)
Lemma validate_manifest_dependencies_witness :
  let d policy := mkDependencyFingerprint (mkModuleContentId "dep" 1) (checksum []) 1 (checksum [])
    (checksum []) policy None in
  let entry name records := mkModuleArtifactIndex (mkModuleContentId name 2) (checksum []) 1
    (checksum []) (checksum []) records in
  let m := mkTypeArtifactManifest artifact_versions_default
    (mkArtifactGenerationId (checksum (GENERATION_DOMAIN ++ bytes_of "ab"))) environment
    [entry "a"%string [d None]; entry "b"%string [d (Some (checksum []))]] in
  records_agree (d None) (d (Some (checksum []))).
Proof.
  intros d entry m.
  refine (proj1 (validate_manifest_dependencies checksum to_vec m (d None)
    (d (Some (checksum []))) _ _ _ eq_refl)).
  - vm_compute. reflexivity.
  - apply list_elem_of_In. left. reflexivity.
  - apply list_elem_of_In. right. left. reflexivity.
Defined.
End demo.
