(* ===== verification/Deployment.v ===== *)
(** * Deployment descriptors ([soac_contracts/src/deployment.rs])

    The loader's out-of-band descriptor, the fingerprints of its dependency
    records, and the revalidation of the analysis inputs on disk.  A [PathBuf] is
    its bytes; Rust compares paths component by component, so equality and order
    of paths go through [components].  The file system is the record
    [FileSystem] of the operations the code calls; opening a file, its metadata and
    its contents are separate answers, which may disagree when the file changes in
    between. *)

From S2P Require Import Prelude Order Collections Text Identity StaticTypes Normalize.
From S2P Require Import Facts Diagnostics Validation Json Artifact.

Definition DEPLOYMENT_SCHEMA_VERSION : Z := 3.

(** ** Paths *)

(** [Path::components] on Unix: the root, then the parts, without empty parts and
    without [.] except at the start of a relative path.  A component is coded by
    the rank of its kind and its text, in the order of the [Component] enum. *)
Definition component_of (part : string) : Z * string :=
  if bool_decide (part = ".."%string) then (3, EmptyString)%Z else (4, part)%Z.
Definition components (path : string) : list (Z * string) :=
  let parts := str_split "/"%char path in
  let keep := List.filter (fun part =>
    negb (bool_decide (part = EmptyString)) && negb (bool_decide (part = "."%string))) parts in
  if starts_with "/" path then (1, EmptyString)%Z :: map component_of keep
  else match parts with
       | part :: _ => if bool_decide (part = "."%string)
                      then (2, EmptyString)%Z :: map component_of keep
                      else map component_of keep
       | [] => map component_of keep
       end.

Definition path_eqb (p q : string) : bool := bool_decide (components p = components q).
Definition is_absolute (path : string) : bool := starts_with "/" path.
(** [path.display()]; the paths the code prints are UTF-8. *)
Definition display (path : string) : string := path.

Definition absolute (path : string) : Result unit :=
  reject (negb (is_absolute path) || negb (utf8_valid (bytes_of path)))
    "deployment paths must be absolute UTF-8 paths".

(** [l.windows(2).all(|pair| pair[0] < pair[1])]. *)
Fixpoint windows_increasing `{RustOrd A} (l : list A) : bool :=
  match l with
  | x :: ((y :: _) as rest) => ord_lt x y && windows_increasing rest
  | _ => true
  end.

(** ** Data *)

Inductive AnalysisDirectoryFilter : Type :=
| ADF_All
| ADF_Name (name : string)
| ADF_Prefix (prefix : string)
| ADF_Suffix (suffix : string)
| ADF_SourceSelection (excluded_names : list string).
#[global] Program Instance AnalysisDirectoryFilter_ord : RustOrd AnalysisDirectoryFilter :=
  {| key := fun x => KNode (match x with
       | ADF_All => [KInt 0] | ADF_Name n => [KInt 1; key n] | ADF_Prefix p => [KInt 2; key p]
       | ADF_Suffix s => [KInt 3; key s] | ADF_SourceSelection e => [KInt 4; key e] end) |}.
Next Obligation. solve_key_inj. Qed.
#[global] Instance AnalysisDirectoryFilter_eq_dec : EqDecision AnalysisDirectoryFilter := ord_eq_dec.

Definition includes (self : AnalysisDirectoryFilter) (name : string)
    (is_file is_directory is_symlink : bool) : bool :=
  match self with
  | ADF_All => true
  | ADF_Name selected => bool_decide (name = selected)
  | ADF_Prefix prefix => starts_with prefix name
  | ADF_Suffix suffix => ends_with suffix name
  | ADF_SourceSelection excluded_names =>
      negb (existsb (fun excluded => bool_decide (excluded = name)) excluded_names)
      && (is_directory || is_symlink || (is_file && ends_with ".py" name))
  end.

Record AnalysisDirectoryObservation : Type := mkAnalysisDirectoryObservation {
  ado_filter : AnalysisDirectoryFilter;
  ado_entries : Fingerprint;
}.
#[global] Instance AnalysisDirectoryObservation_eq_dec : EqDecision AnalysisDirectoryObservation.
Proof. solve_decision. Defined.

Inductive AnalysisInputState : Type :=
| AIS_Missing
| AIS_File (canonical_path : string) (digest : Fingerprint) (size : Z)
| AIS_Directory (canonical_path : string) (observations : list AnalysisDirectoryObservation).

(** The derived [PartialEq]. *)
Definition state_eqb (a b : AnalysisInputState) : bool :=
  match a, b with
  | AIS_Missing, AIS_Missing => true
  | AIS_File p d s, AIS_File p' d' s' => path_eqb p p' && bool_decide (d = d') && bool_decide (s = s')
  | AIS_Directory p o, AIS_Directory p' o' => path_eqb p p' && bool_decide (o = o')
  | _, _ => false
  end.

Record AnalysisInput : Type := mkAnalysisInput {
  ai_path : string;
  ai_state : AnalysisInputState;
}.
Record AnalysisEnvironmentVariable : Type := mkAnalysisEnvironmentVariable {
  aev_name : string;
  aev_value : option Fingerprint;
}.
Record DeployedModule : Type := mkDeployedModule {
  dm_module_name : string;
  dm_source_path : string;
  dm_policy : ResolvedStrictPolicy;
}.
Record AnalysisFileConfiguration : Type := mkAnalysisFileConfiguration {
  afc_python_version : PythonVersion;
  afc_python_platform : string;
  afc_analysis : ConservativeAnalysis;
  afc_respect_type_ignore_comments : bool;
  afc_import_search_paths : list string;
  afc_enabled_diagnostics : list (string * string);
}.
Inductive AnalysisDependencySource : Type :=
| ADS_System (path : string)
| ADS_Vendored (path : string).
Record AnalysisDependency : Type := mkAnalysisDependency {
  ad_importer_module : string;
  ad_module : ModuleContentId;
  ad_source : AnalysisDependencySource;
  ad_source_digest : Fingerprint;
  ad_source_size : Z;
  ad_configuration : AnalysisFileConfiguration;
}.
Record InterpreterIdentity : Type := mkInterpreterIdentity {
  ii_version : list Z;
  ii_platform : string;
  ii_prefix : string;
  ii_executable : string;
  ii_build_directory : string;
  ii_site_packages : list string;
  ii_real_stdlib : string;
  ii_abi_files : list string;
  ii_configuration_files : list string;
  ii_configuration : list (string * Value);
}.
Record StrictArtifactDeployment : Type := mkStrictArtifactDeployment {
  sad_schema_version : Z;
  sad_artifact_directory : string;
  sad_generation : ArtifactGenerationId;
  sad_environment : ArtifactEnvironment;
  sad_target_interpreter : InterpreterIdentity;
  sad_trust_anchor : list byte;
  sad_modules : list DeployedModule;
  sad_analysis_dependencies : list AnalysisDependency;
  sad_analysis_inputs : list AnalysisInput;
  sad_analysis_environment : list AnalysisEnvironmentVariable;
}.

(** [VerifiedAnalysisSnapshot] and its accessor. *)
Record VerifiedAnalysisSnapshot : Type := mkVerifiedAnalysisSnapshot {
  vas_dependencies : list (string * list DependencyFingerprint);
}.
Definition snapshot_dependencies (self : VerifiedAnalysisSnapshot) (importer : string) :
    Result (list DependencyFingerprint) :=
  ok_or (DependencyMismatch importer) (bmap_get importer (vas_dependencies self)).

Record ObservedDependencySource : Type := mkObservedDependencySource {
  ods_size : Z;
  ods_digest : Fingerprint;
  ods_source_hash : Z;
}.

(** [ObservedDependencySource::verify]. *)
Definition observed_verify (self : ObservedDependencySource) (dependency : AnalysisDependency) :
    Result unit :=
  ensure (negb (negb (bool_decide (ods_size self = ad_source_size dependency))
                || negb (bool_decide (ods_digest self = ad_source_digest dependency))
                || negb (bool_decide (ods_source_hash self
                                      = mci_source_hash (ad_module dependency)))))
    (DependencyMismatch (mci_module_name (ad_module dependency))).

(** ** The file system *)

Record Metadata : Type := mkMetadata { md_is_file : bool; md_is_dir : bool; md_len : Z }.
Record OpenFile : Type := mkOpenFile {
  of_metadata : result string Metadata;
  of_contents : result string (list byte);
}.
(** [file_type] answers (is_file, is_dir, is_symlink). *)
Record DirEntry : Type := mkDirEntry {
  de_file_type : result string (bool * bool * bool);
  de_file_name : string;
}.
Record IoError : Type := mkIoError { io_not_found : bool; io_message : string }.

Record FileSystem : Type := mkFileSystem {
  fs_open : string -> result string OpenFile;
  fs_metadata : string -> result IoError Metadata;
  fs_canonicalize : string -> result string string;
  fs_read : string -> result string (list byte);
  fs_read_dir : string -> result string (list (result string DirEntry));
}.

Definition io_error (path error : string) : ContractError :=
  InvalidStructure ("cannot read analysis input " +:+ display path +:+ ": " +:+ error).
Definition io_result {A} (path : string) (r : result string A) : Result A :=
  match r with Ok a => Ok a | Err e => Err (io_error path e) end.

Definition size_changed (path : string) : ContractError :=
  InvalidStructure ("offline analysis input size changed: " +:+ display path).

Definition u64_max : Z := 2 ^ 64 - 1.
Definition saturating_add_u64 (a b : Z) : Z := Z.min (a + b) u64_max.

Section deployment.
Context (digest : list byte -> Fingerprint) (to_vec : Value -> result string (list byte)).
(** [VerifyingKey::from_bytes(..).is_ok()]. *)
Context (anchor_valid : list byte -> bool).
Context (fs : FileSystem).
Context `{!Serialize ResolvedStrictPolicy}.
Context `{!Serialize (string * Fingerprint * AnalysisFileConfiguration)}.
Context `{!Serialize (string * string)}.
Context `{!Serialize (string * Fingerprint * Fingerprint * string * ModuleContentId * Fingerprint * Z)}.
Context `{!Serialize (InterpreterIdentity * list AnalysisInput)}.
Context `{!Serialize (list (string * bool * bool * bool))}.

Local Abbreviation canonical_bytes := (canonical_bytes to_vec).
Local Abbreviation policy_fingerprint := (policy_fingerprint digest to_vec).

Definition diagnostic_level_valid (level : string) : bool :=
  bool_decide (level ∈ ["info"; "warning"; "error"; "fatal"]%string).

(** [AnalysisFileConfiguration::fingerprint]. *)
Definition configuration_fingerprint (self : AnalysisFileConfiguration)
    (environment : ArtifactEnvironment) : Result Fingerprint :=
  do? reject (negb (bool_decide (afc_python_version self = env_python_version environment))
              || negb (bool_decide (afc_python_platform self = env_python_platform environment))
              || negb (bool_decide (afc_analysis self = conservative_analysis_default))
              || negb (bool_decide (afc_analysis self = env_analysis environment))
              || existsb (fun entry : string * string =>
                   bool_decide (entry.1 = EmptyString) || negb (diagnostic_level_valid entry.2))
                   (afc_enabled_diagnostics self))
    "dependency analysis policy does not match the authenticated environment";
  do? for_each absolute (afc_import_search_paths self);
  let? bytes := canonical_bytes ("SOAC-ANALYSIS-FILE-CONFIGURATION-v1"%string,
    env_resolved_typechecker_configuration environment, self) in
  Ok (digest bytes).

Definition find_input (path : string) (inputs : list AnalysisInput) : option AnalysisInput :=
  find_first (fun input => path_eqb (ai_path input) path) inputs.

(** The [System] arm of [AnalysisDependency::fingerprint]. *)
Definition system_fingerprint (self : AnalysisDependency) (path : string)
    (deployed : option DeployedModule) (inputs : list AnalysisInput) :
    Result (Fingerprint * option Fingerprint) :=
  let mismatch := DependencyMismatch (mci_module_name (ad_module self)) in
  do? absolute path;
  match option_map ai_state (find_input path inputs) with
  | Some (AIS_File canonical_path file_digest size) =>
      do? ensure (negb (negb (bool_decide (file_digest = ad_source_digest self))
                        || negb (bool_decide (size = ad_source_size self))
                        || is_some_and (fun module =>
                             negb (path_eqb (dm_source_path module) canonical_path)) deployed))
        mismatch;
      let? bytes := canonical_bytes ("SOAC-SYSTEM-DEPENDENCY-v1"%string, path) in
      let? policy := opt_result (fun module => policy_fingerprint (dm_policy module)) deployed in
      Ok (digest bytes, policy)
  | _ => Err mismatch
  end.

(** The [Vendored] arm. *)
Definition vendored_fingerprint (self : AnalysisDependency) (path : string)
    (deployed : option DeployedModule) (environment : ArtifactEnvironment) :
    Result (Fingerprint * option Fingerprint) :=
  do? ensure (negb (bool_decide (path = EmptyString)
                    || str_contains ["092"%char; "000"%char] path
                    || existsb (fun part => bool_decide (part = EmptyString)
                         || bool_decide (part = "."%string) || bool_decide (part = ".."%string))
                         (str_split "/"%char path)
                    || is_some deployed))
    (DependencyMismatch (mci_module_name (ad_module self)));
  let? bytes := canonical_bytes ("SOAC-VENDORED-DEPENDENCY-v1"%string,
    env_checker_source_fingerprint environment, env_typeshed_fingerprint environment, path,
    ad_module self, ad_source_digest self, ad_source_size self) in
  Ok (digest bytes, None).

(** [AnalysisDependency::fingerprint]. *)
Definition dependency_fingerprint (environment : ArtifactEnvironment)
    (modules : list DeployedModule) (inputs : list AnalysisInput) (self : AnalysisDependency) :
    Result DependencyFingerprint :=
  let name := mci_module_name (ad_module self) in
  do? validate_module_name (ad_importer_module self);
  do? validate_module_name name;
  do? ensure (negb (bool_decide (ad_importer_module self = name)
                    || negb (existsb (fun module =>
                         bool_decide (dm_module_name module = ad_importer_module self)) modules)))
    (DependencyMismatch (ad_importer_module self));
  let deployed := find_first (fun module => bool_decide (dm_module_name module = name)) modules in
  let? (import_resolution, strict_policy) :=
    (match ad_source self with
     | ADS_System path => system_fingerprint self path deployed inputs
     | ADS_Vendored path => vendored_fingerprint self path deployed environment
     end) in
  let? configuration := configuration_fingerprint (ad_configuration self) environment in
  Ok (mkDependencyFingerprint (ad_module self) (ad_source_digest self) (ad_source_size self)
        import_resolution configuration strict_policy None).

(** [InterpreterIdentity::abi_fingerprint]. *)
Definition abi_fingerprint (self : InterpreterIdentity) (inputs : list AnalysisInput) :
    Result Fingerprint :=
  do? for_each absolute
    ([ii_prefix self; ii_executable self; ii_build_directory self; ii_real_stdlib self]
     ++ ii_site_packages self ++ ii_abi_files self ++ ii_configuration_files self);
  do? reject (negb (windows_increasing (ii_abi_files self))
              || negb (bool_decide (ii_executable self ∈ ii_abi_files self)))
    "target ABI files must be sorted, unique, and include the executable";
  let? abi_inputs := map_result (fun path =>
    let? input := ok_or (InvalidStructure "target ABI file is absent from observed inputs")
      (find_input path inputs) in
    do? reject (negb (match ai_state input with AIS_File _ _ size => (0 <? size)%Z | _ => false end))
      "target ABI input must be a nonempty file";
    Ok input) (ii_abi_files self) in
  do? for_each (fun path => reject (negb (is_some (find_input path inputs)))
        "target interpreter configuration is not an observed input") (ii_configuration_files self);
  let? bytes := canonical_bytes (self, sort_by (fun input => key (components (ai_path input))) abi_inputs) in
  Ok (digest bytes).

Definition excluded_name_invalid (name : string) : bool :=
  bool_decide (name = EmptyString) || bool_decide (name = "."%string)
  || bool_decide (name = ".."%string) || str_contains ["/"%char; "092"%char; "000"%char] name.

(** The observations of one directory: sorted, unique, with sorted exclusions. *)
Definition validate_observations (observations : list AnalysisDirectoryObservation) : Result unit :=
  let? _ := for_fold (fun previous observation =>
    let filter := ado_filter observation in
    do? reject (is_some_and (fun previous => negb (ord_lt previous filter)) previous)
      "directory observations must be sorted and unique";
    do? match filter with
        | ADF_SourceSelection excluded_names =>
            reject (negb (windows_increasing excluded_names)
                    || existsb excluded_name_invalid excluded_names)
              "source-selection exclusions must be sorted directory entry names"
        | _ => Ok tt
        end;
    Ok (Some filter)) None observations in
  Ok tt.

Definition validate_input (input : AnalysisInput) : Result unit :=
  match ai_state input with
  | AIS_File canonical_path _ _ => absolute canonical_path
  | AIS_Directory canonical_path observations =>
      do? absolute canonical_path;
      validate_observations observations
  | AIS_Missing => Ok tt
  end.

(** [StrictArtifactDeployment::validate]. *)
Definition deployment_validate (self : StrictArtifactDeployment) : Result unit :=
  let environment := sad_environment self in
  do? reject (negb (bool_decide (sad_schema_version self = DEPLOYMENT_SCHEMA_VERSION)))
    "unsupported strict deployment schema";
  do? ensure (anchor_valid (sad_trust_anchor self)) UntrustedSignature;
  let mismatch := "deployment interpreter does not match its ABI environment"%string in
  do? reject (negb (bool_decide (ii_version (sad_target_interpreter self)
                                 = [pv_major (env_python_version environment);
                                    pv_minor (env_python_version environment)]))
              || negb (bool_decide (ii_platform (sad_target_interpreter self)
                                    = env_python_platform environment))) mismatch;
  let? abi := abi_fingerprint (sad_target_interpreter self) (sad_analysis_inputs self) in
  do? reject (negb (bool_decide (abi = env_cpython_abi_fingerprint environment))) mismatch;
  do? absolute (sad_artifact_directory self);
  do? for_unique (fun module => do? validate_module_name (dm_module_name module);
                                absolute (dm_source_path module)) dm_module_name
        (fun _ => InvalidStructure "duplicate deployment module identity") (fun _ => Ok tt)
        (sad_modules self);
  do? for_unique (fun input => absolute (ai_path input)) (fun input => components (ai_path input))
        (fun _ => InvalidStructure "duplicate deployment analysis input") validate_input
        (sad_analysis_inputs self);
  let invalid := InvalidStructure "invalid or duplicate analysis environment variable" in
  do? for_unique (fun variable => ensure (negb (bool_decide (aev_name variable = EmptyString)
          || str_contains ["000"%char; "="%char] (aev_name variable))) invalid) aev_name
        (fun _ => invalid) (fun _ => Ok tt) (sad_analysis_environment self);
  for_unique (fun _ => Ok tt)
    (fun dependency => (ad_importer_module dependency, mci_module_name (ad_module dependency)))
    (fun dependency => DependencyMismatch (mci_module_name (ad_module dependency)))
    (fun dependency =>
       do? dependency_fingerprint environment (sad_modules self) (sad_analysis_inputs self) dependency;
       Ok tt)
    (sad_analysis_dependencies self).

(** ** Observing the disk *)

Definition read_file_bounded (path : string) (size : Z) : Result (list byte) :=
  let? file := io_result path (fs_open fs path) in
  let? metadata := io_result path (of_metadata file) in
  do? ensure (negb (negb (md_is_file metadata) || negb (md_len metadata =? size)%Z))
    (size_changed path);
  let? contents := io_result path (of_contents file) in
  let bytes := take (Z.to_nat (saturating_add_u64 size 1)) contents in
  do? ensure (Z.of_nat (length bytes) =? size)%Z (size_changed path);
  Ok bytes.

(** [ObservedDependencySource::read]. *)
Definition observed_read (path : string) (size : Z) : Result ObservedDependencySource :=
  let? bytes := read_file_bounded path size in
  Ok (mkObservedDependencySource (Z.of_nat (length bytes)) (digest bytes)
        (legacy_source_hash bytes)).

(** The entries of a directory, sorted. *)
Definition directory_entries (path : string) : Result (list (string * bool * bool * bool)) :=
  let? listing := io_result path (fs_read_dir fs path) in
  let? entries := map_result (fun entry =>
    let? entry := io_result path entry in
    let? kind := io_result path (de_file_type entry) in
    do? reject (negb (utf8_valid (bytes_of (de_file_name entry))))
      "non-UTF-8 analysis directory entry";
    let '(file, directory, symlink) := kind in
    Ok (de_file_name entry, file, directory, symlink)) listing in
  Ok (sort entries).

Definition directory_observation (entries : list (string * bool * bool * bool))
    (filter : AnalysisDirectoryFilter) : Result AnalysisDirectoryObservation :=
  let selected := List.filter (fun entry : string * bool * bool * bool =>
    let '(name, file, directory, symlink) := entry in
    includes filter name file directory symlink) entries in
  let? bytes := canonical_bytes selected in
  Ok (mkAnalysisDirectoryObservation filter (digest bytes)).

Definition capture_analysis_input_bounded (path : string) (filters : list AnalysisDirectoryFilter)
    (expected_file_size : option Z) : Result AnalysisInputState :=
  do? absolute path;
  match fs_metadata fs path with
  | Err error =>
      if io_not_found error then Ok AIS_Missing else Err (io_error path (io_message error))
  | Ok metadata =>
      let? canonical_path := io_result path (fs_canonicalize fs path) in
      if md_is_file metadata then
        do? ensure (negb (is_some_and (fun size => negb (md_len metadata =? size)%Z)
                            expected_file_size)) (size_changed path);
        let? bytes := (match expected_file_size with
                       | Some size => read_file_bounded path size
                       | None => io_result path (fs_read fs path)
                       end) in
        Ok (AIS_File canonical_path (digest bytes) (Z.of_nat (length bytes)))
      else
        do? reject (negb (md_is_dir metadata))
          ("unsupported analysis input kind at " +:+ display path);
        let? observations :=
          (if bool_decide (filters = []) then Ok []
           else
             let? entries := directory_entries path in
             map_result (directory_observation entries) (dedup (sort filters))) in
        Ok (AIS_Directory canonical_path observations)
  end.

Definition capture_analysis_input_with_filters (path : string)
    (filters : list AnalysisDirectoryFilter) : Result AnalysisInputState :=
  capture_analysis_input_bounded path filters None.

Definition capture_analysis_input (path : string) (enumerate_directory : bool) :
    Result AnalysisInputState :=
  capture_analysis_input_with_filters path (if enumerate_directory then [ADF_All] else []).

Definition verify_analysis_input (input : AnalysisInput) : Result unit :=
  let filters := match ai_state input with
                 | AIS_Directory _ observations => map ado_filter observations
                 | _ => []
                 end in
  let expected_size := match ai_state input with AIS_File _ _ size => size | _ => 0%Z end in
  let? state := capture_analysis_input_bounded (ai_path input) filters (Some expected_size) in
  reject (negb (state_eqb state (ai_state input)))
    ("offline analysis input changed: " +:+ display (ai_path input)).

Definition verify_analysis_inputs (inputs : list AnalysisInput) : Result unit :=
  for_each verify_analysis_input inputs.

(** ** Dependency expectations *)

Definition fingerprint_of (self : StrictArtifactDeployment) (dependency : AnalysisDependency) :
    Result DependencyFingerprint :=
  dependency_fingerprint (sad_environment self) (sad_modules self) (sad_analysis_inputs self)
    dependency.

(** One dependency of [verified_analysis_dependencies]'s loop. *)
Definition fresh_dependency (self : StrictArtifactDeployment) (dependency : AnalysisDependency) :
    Result DependencyFingerprint :=
  do? match ad_source dependency with
      | ADS_System path =>
          let? bytes := read_file_bounded path (ad_source_size dependency) in
          ensure (negb (negb (bool_decide (digest bytes = ad_source_digest dependency))
                        || negb (bool_decide (legacy_source_hash bytes
                                              = mci_source_hash (ad_module dependency)))))
            (DependencyMismatch (mci_module_name (ad_module dependency)))
      | ADS_Vendored _ => Ok tt
      end;
  fingerprint_of self dependency.

Definition verified_analysis_dependencies (self : StrictArtifactDeployment) (importer : string) :
    Result (list DependencyFingerprint) :=
  do? deployment_validate self;
  do? ensure (existsb (fun module => bool_decide (dm_module_name module = importer))
                (sad_modules self)) (DependencyMismatch importer);
  do? verify_analysis_inputs (sad_analysis_inputs self);
  let? fingerprints := map_result (fresh_dependency self)
    (List.filter (fun dependency => bool_decide (ad_importer_module dependency = importer))
       (sad_analysis_dependencies self)) in
  Ok (canonicalize_dependencies fingerprints).

(** The snapshot's loop: the expectations collected so far and the files read so
    far, by path. *)
Record SnapshotState : Type := mkSnapshotState {
  ss_dependencies : list (string * list DependencyFingerprint);
  ss_sources : list (list (Z * string) * ObservedDependencySource);
}.

(** The [sources.entry(path)] of one dependency. *)
Definition observe_source (sources : list (list (Z * string) * ObservedDependencySource))
    (dependency : AnalysisDependency) :
    Result (list (list (Z * string) * ObservedDependencySource)) :=
  match ad_source dependency with
  | ADS_Vendored _ => Ok sources
  | ADS_System path =>
      match bmap_get (components path) sources with
      | Some observed =>
          do? observed_verify observed dependency;
          Ok sources
      | None =>
          let? observed := observed_read path (ad_source_size dependency) in
          do? observed_verify observed dependency;
          Ok (bmap_insert (components path) observed sources)
      end
  end.

Definition snapshot_step (self : StrictArtifactDeployment) (state : SnapshotState)
    (dependency : AnalysisDependency) : Result SnapshotState :=
  let importer := ad_importer_module dependency in
  let? sources := observe_source (ss_sources state) dependency in
  let? fingerprints := ok_or (DependencyMismatch importer)
    (bmap_get importer (ss_dependencies state)) in
  let? fingerprint := fingerprint_of self dependency in
  Ok (mkSnapshotState
        (bmap_insert importer (fingerprints ++ [fingerprint]) (ss_dependencies state)) sources).

Definition verified_analysis_snapshot (self : StrictArtifactDeployment) :
    Result VerifiedAnalysisSnapshot :=
  do? deployment_validate self;
  do? verify_analysis_inputs (sad_analysis_inputs self);
  let start := fold_left (fun m module => bmap_insert (dm_module_name module) [] m)
                 (sad_modules self) [] in
  let? state := for_fold (snapshot_step self) (mkSnapshotState start [])
    (sad_analysis_dependencies self) in
  Ok (mkVerifiedAnalysisSnapshot
        (map (fun entry => (entry.1, canonicalize_dependencies entry.2)) (ss_dependencies state))).
End deployment.
