(* ===== verification/DeploymentProps.v ===== *)
(** * Deployment guarantees ([soac_contracts/src/deployment.rs])

    The shared-read snapshot of all consumers agrees with the fresh verification of
    each, bounded reads return whole files, and captured inputs verify. *)

From S2P Require Import Prelude Order Collections Text Identity StaticTypes Normalize.
From S2P Require Import Facts Diagnostics DiagnosticsProps Validation ValidationProps.
From S2P Require Import Json Artifact ArtifactProps Deployment.

Lemma bmap_get_map `{RustOrd K} {V W} (f : V -> W) (m : list (K * V)) k :
  bmap_get k (map (fun e => (e.1, f e.2)) m) = option_map f (bmap_get k m).
Proof.
  induction m as [|[k' v] m IH]; cbn; [done|]. by destruct (ord_cmp k k').
Qed.

Lemma io_result_ok {A} path (r : result string A) a : io_result path r = Ok a <-> r = Ok a.
Proof. destruct r; cbn; split; congruence. Qed.

Section observed.
Context (digest : list byte -> Fingerprint) (to_vec : Value -> result string (list byte)).
Context (fs : FileSystem).
Context `{!Serialize ResolvedStrictPolicy}.
Context `{!Serialize (string * Fingerprint * AnalysisFileConfiguration)}.
Context `{!Serialize (string * string)}.
Context `{!Serialize (string * Fingerprint * Fingerprint * string * ModuleContentId * Fingerprint * Z)}.
Context `{!Serialize (InterpreterIdentity * list AnalysisInput)}.
Context `{!Serialize (list (string * bool * bool * bool))}.

Local Abbreviation read_file_bounded := (read_file_bounded fs).
Local Abbreviation observed_read := (observed_read digest fs).
Local Abbreviation observe_source := (observe_source digest fs).
Local Abbreviation fingerprint_of := (fingerprint_of digest to_vec).
Local Abbreviation fresh_dependency := (fresh_dependency digest to_vec fs).
Local Abbreviation snapshot_step := (snapshot_step digest to_vec fs).
Local Abbreviation verify_analysis_inputs := (verify_analysis_inputs digest to_vec fs).

(** ** Bounded reads *)

Lemma read_file_bounded_parts path size bytes :
  read_file_bounded path size = Ok bytes ->
  Z.of_nat (length bytes) = size /\
  exists file metadata contents, fs_open fs path = Ok file /\ of_metadata file = Ok metadata /\
    md_is_file metadata = true /\ md_len metadata = size /\ of_contents file = Ok contents /\
    bytes = take (Z.to_nat (saturating_add_u64 size 1)) contents.
Proof.
  unfold Deployment.read_file_bounded. intros H.
  apply rbind_ok in H as (file & Hf & H). apply rbind_ok in H as (md & Hm & H).
  apply rbind_unit_ok in H as [Hlen H]. apply rbind_ok in H as (contents & Hc & H).
  apply rbind_unit_ok in H as [Hsize [= <-]]. rewrite ensure_ok in Hlen, Hsize. bool_inv.
  apply io_result_ok in Hf, Hm, Hc. split; [done|]. by exists file, md, contents.
Qed.

(** The size of a file that was read is the one its metadata reported. *)
Lemma read_file_bounded_size path s1 s2 b1 b2 :
  read_file_bounded path s1 = Ok b1 -> read_file_bounded path s2 = Ok b2 -> s1 = s2.
Proof.
  intros (_ & f & m & c & Hf & Hm & _ & <- & _)%read_file_bounded_parts
    (_ & f' & m' & c' & Hf' & Hm' & _ & <- & _)%read_file_bounded_parts. congruence.
Qed.

(** ** The snapshot *)

Definition observed_of (bytes : list byte) : ObservedDependencySource :=
  mkObservedDependencySource (Z.of_nat (length bytes)) (digest bytes) (legacy_source_hash bytes).

Definition system_path (d : AnalysisDependency) : option string :=
  match ad_source d with ADS_System path => Some path | ADS_Vendored _ => None end.

(** Paths with the same components are spelled the same. *)
Definition spelled_once (paths : list string) : Prop :=
  forall p q, p ∈ paths -> q ∈ paths -> components p = components q -> p = q.

Section loop.
Context (self : StrictArtifactDeployment) (paths : list string).
Hypothesis Hpaths : spelled_once paths.

(** Every cached observation is of a whole file read at its own size. *)
Definition sources_ok (sources : list (list (Z * string) * ObservedDependencySource)) : Prop :=
  forall p observed, p ∈ paths -> bmap_get (components p) sources = Some observed ->
    exists bytes, read_file_bounded p (ods_size observed) = Ok bytes /\
                  observed = observed_of bytes.

Lemma observed_verify_ok bytes d :
  observed_verify (observed_of bytes) d = Ok tt <->
  Z.of_nat (length bytes) = ad_source_size d /\ digest bytes = ad_source_digest d /\
  legacy_source_hash bytes = mci_source_hash (ad_module d).
Proof.
  unfold observed_verify. rewrite ensure_ok. cbn.
  rewrite negb_true_iff, !orb_false_iff, !negb_false_iff, !bool_decide_eq_true. naive_solver.
Qed.

(** What one dependency's file must be for a fresh verification. *)
Definition source_fresh (d : AnalysisDependency) : Prop :=
  match ad_source d with
  | ADS_System path => exists bytes, read_file_bounded path (ad_source_size d) = Ok bytes /\
      digest bytes = ad_source_digest d /\
      legacy_source_hash bytes = mci_source_hash (ad_module d)
  | ADS_Vendored _ => True
  end.

Lemma fresh_dependency_ok d f :
  fresh_dependency self d = Ok f <-> source_fresh d /\ fingerprint_of self d = Ok f.
Proof.
  unfold Deployment.fresh_dependency, source_fresh. destruct (ad_source d) as [path|path].
  - rewrite rbind_unit_ok, rbind_ok. setoid_rewrite ensure_ok.
    setoid_rewrite negb_true_iff. setoid_rewrite orb_false_iff. setoid_rewrite negb_false_iff.
    setoid_rewrite bool_decide_eq_true. naive_solver.
  - cbn. naive_solver.
Qed.

Lemma observe_source_ok sources d sources' :
  (forall p, system_path d = Some p -> p ∈ paths) -> sources_ok sources ->
  observe_source sources d = Ok sources' -> source_fresh d /\ sources_ok sources'.
Proof.
  unfold Deployment.observe_source, source_fresh, system_path. intros Hp Hs.
  destruct (ad_source d) as [path|path]; [|intros [= <-]; done]. specialize (Hp _ eq_refl).
  destruct (bmap_get (components path) sources) as [observed|] eqn:E.
  - intros [Hv [= <-]]%rbind_unit_ok. split; [|done].
    destruct (Hs _ _ Hp E) as (bytes & Hr & ->). apply observed_verify_ok in Hv as (Hsize & ? & ?).
    exists bytes. cbn [ods_size observed_of] in Hr. by rewrite <- Hsize.
  - intros H. apply rbind_ok in H as (observed & Hr & H). apply rbind_unit_ok in H as [Hv [= <-]].
    unfold Deployment.observed_read in Hr. apply rbind_ok in Hr as (bytes & Hr & [= <-]).
    pose proof (proj1 (read_file_bounded_parts _ _ _ Hr)) as Hlen.
    apply observed_verify_ok in Hv as (? & ? & ?). split; [by exists bytes|].
    intros q o Hq. destruct (decide (components path = components q)) as [Ec|Hne].
    + rewrite <- Ec, bmap_get_insert_eq. intros [= <-]. apply Hpaths in Ec as ->; [|done..].
      exists bytes. cbn [ods_size]. split; [by rewrite Hlen|done].
    + rewrite bmap_get_insert_ne by done. by apply Hs.
Qed.

Lemma observe_source_fresh sources d :
  (forall p, system_path d = Some p -> p ∈ paths) -> sources_ok sources -> source_fresh d ->
  exists sources', observe_source sources d = Ok sources'.
Proof.
  unfold Deployment.observe_source, source_fresh, system_path. intros Hp Hs.
  destruct (ad_source d) as [path|path]; [|eauto]. specialize (Hp _ eq_refl).
  intros (bytes & Hr & Hd & Hh).
  pose proof (proj1 (read_file_bounded_parts _ _ _ Hr)) as Hlen.
  destruct (bmap_get (components path) sources) as [observed|] eqn:E.
  - destruct (Hs _ _ Hp E) as (bytes' & Hr' & ->).
    pose proof (read_file_bounded_size _ _ _ _ _ Hr Hr') as Es. cbn [ods_size observed_of] in Es, Hr'.
    rewrite <- Es in Hr'. assert (bytes' = bytes) as -> by congruence.
    rewrite (proj2 (observed_verify_ok bytes d)) by done. cbn. eauto.
  - unfold Deployment.observed_read. rewrite Hr. cbn [rbind]. fold (observed_of bytes).
    rewrite (proj2 (observed_verify_ok bytes d)) by done. cbn. eauto.
Qed.

Local Abbreviation of_importer n :=
  (List.filter (fun d => bool_decide (ad_importer_module d = n))).

(** The loop collects, for every consumer, the fresh fingerprints in order. *)
Lemma snapshot_loop_ok l state state' :
  (forall d p, d ∈ l -> system_path d = Some p -> p ∈ paths) -> sources_ok (ss_sources state) ->
  for_fold (snapshot_step self) state l = Ok state' ->
  forall n, match bmap_get n (ss_dependencies state) with
    | Some old => exists fresh, map_result (fresh_dependency self) (of_importer n l) = Ok fresh /\
        bmap_get n (ss_dependencies state') = Some (old ++ fresh)
    | None => bmap_get n (ss_dependencies state') = None
    end.
Proof.
  revert state. induction l as [|d l IH]; intros state Hl Hs; cbn [for_fold].
  { intros [= <-] n. destruct (bmap_get n (ss_dependencies state)) as [old|]; [|done].
    exists []. by rewrite app_nil_r. }
  intros H n. apply rbind_ok in H as (state1 & Hstep & H). unfold Deployment.snapshot_step in Hstep.
  apply rbind_ok in Hstep as (sources & Hsrc & Hstep).
  apply observe_source_ok in Hsrc as [Hfresh Hsrc]; [|intros p; apply Hl; set_solver|done].
  apply rbind_ok in Hstep as (old1 & Hold & Hstep). apply rbind_ok in Hstep as (f & Hf & [= <-]).
  destruct (bmap_get (ad_importer_module d) (ss_dependencies state)) as [o|] eqn:Eo; [|done].
  injection Hold as ->. 
  specialize (IH (mkSnapshotState _ sources) ltac:(set_solver) Hsrc H n). cbn [ss_dependencies] in IH.
  cbn [List.filter]. destruct (decide (ad_importer_module d = n)) as [<-|Hne].
  - rewrite bmap_get_insert_eq in IH. rewrite Eo, bool_decide_true by done.
    destruct IH as (fresh & Hm & Hget). exists (f :: fresh). cbn [map_result].
    rewrite (proj2 (fresh_dependency_ok d f) (conj Hfresh Hf)). cbn [rbind]. rewrite Hm.
    split; [done|]. by rewrite Hget, <- app_assoc.
  - rewrite bmap_get_insert_ne in IH by done. by rewrite bool_decide_false.
Qed.

Lemma snapshot_loop_total l state :
  (forall d p, d ∈ l -> system_path d = Some p -> p ∈ paths) -> sources_ok (ss_sources state) ->
  (forall d, d ∈ l -> is_Some (bmap_get (ad_importer_module d) (ss_dependencies state)) /\
                      exists f, fresh_dependency self d = Ok f) ->
  exists state', for_fold (snapshot_step self) state l = Ok state'.
Proof.
  revert state. induction l as [|d l IH]; intros state Hl Hs Hf; cbn [for_fold]; [eauto|].
  destruct (Hf d ltac:(set_solver)) as [[old Hold] (f & [Hfresh Hfp]%fresh_dependency_ok)].
  assert (forall p, system_path d = Some p -> p ∈ paths) as Hd by (intros p; apply Hl; set_solver).
  destruct (observe_source_fresh _ _ Hd Hs Hfresh) as [sources Hsrc].
  destruct (observe_source_ok _ _ _ Hd Hs Hsrc) as [_ Hsrc'].
  unfold Deployment.snapshot_step at 1. rewrite Hsrc. cbn [rbind]. rewrite Hold. cbn [ok_or rbind].
  rewrite Hfp. cbn [rbind]. apply IH; [set_solver|done|]. intros e He. cbn [ss_dependencies].
  destruct (Hf e ltac:(set_solver)) as [[o Ho] ?]. split; [|done].
  destruct (decide (ad_importer_module d = ad_importer_module e)) as [E|Hne].
  - rewrite E, bmap_get_insert_eq. eauto.
  - rewrite bmap_get_insert_ne by done. eauto.
Qed.
End loop.

Context (anchor_valid : list byte -> bool).
Local Abbreviation deployment_validate := (deployment_validate digest to_vec anchor_valid).
Local Abbreviation verified_analysis_snapshot := (verified_analysis_snapshot digest to_vec anchor_valid fs).
Local Abbreviation verified_analysis_dependencies :=
  (verified_analysis_dependencies digest to_vec anchor_valid fs).

Lemma start_map_get (modules : list DeployedModule) (m : list (string * list DependencyFingerprint)) n :
  bmap_get n (fold_left (fun m module => bmap_insert (dm_module_name module) [] m) modules m)
  = if existsb (fun module => bool_decide (dm_module_name module = n)) modules
    then Some [] else bmap_get n m.
Proof.
  revert m. induction modules as [|x modules IH]; cbn; intros m; [done|]. rewrite IH.
  case_bool_decide as E; cbn.
  - subst n. rewrite bmap_get_insert_eq. by case_match.
  - by rewrite bmap_get_insert_ne.
Qed.

Definition system_paths (self : StrictArtifactDeployment) : list string :=
  omap system_path (sad_analysis_dependencies self).

Lemma elem_of_system_paths self d p :
  d ∈ sad_analysis_dependencies self -> system_path d = Some p -> p ∈ system_paths self.
Proof. intros Hd Hp. apply list_elem_of_omap. eauto. Qed.

Lemma snapshot_agrees self snapshot importer :
  spelled_once (system_paths self) -> verified_analysis_snapshot self = Ok snapshot ->
  verified_analysis_dependencies self importer = snapshot_dependencies snapshot importer.
Proof.
  intros Hp H. unfold Deployment.verified_analysis_snapshot in H.
  apply rbind_unit_ok in H as [Hval H]. apply rbind_unit_ok in H as [Hin H].
  apply rbind_ok in H as (state & Hloop & [= <-]).
  unfold Deployment.verified_analysis_dependencies, snapshot_dependencies.
  rewrite Hval. cbn [rbind vas_dependencies]. rewrite bmap_get_map.
  eapply (snapshot_loop_ok self _ Hp) with (n := importer) in Hloop;
    [|intros; by eapply elem_of_system_paths|done].
  cbn [ss_dependencies] in Hloop. rewrite start_map_get in Hloop.
  destruct (existsb _ (sad_modules self)).
  - destruct Hloop as (fresh & Hm & ->). rewrite Hin. cbn [ensure rbind option_map ok_or].
    rewrite Hm. done.
  - cbn in Hloop. rewrite Hloop. done.
Qed.

Lemma validated_importer self d :
  deployment_validate self = Ok tt -> d ∈ sad_analysis_dependencies self ->
  existsb (fun module => bool_decide (dm_module_name module = ad_importer_module d))
    (sad_modules self) = true.
Proof.
  unfold Deployment.deployment_validate. intros H Hd. rewrite !rbind_unit_ok in H.
  destruct H as (_ & _ & _ & H). apply rbind_ok in H as (abi & _ & H). rewrite !rbind_unit_ok in H.
  destruct H as (_ & _ & _ & _ & _ & H). apply for_unique_ok in H as [_ H].
  rewrite Forall_forall in H. specialize (H d Hd) as [_ H]. apply rbind_ok in H as (f & H & _).
  unfold dependency_fingerprint in H. rewrite !rbind_unit_ok, ensure_ok in H.
  destruct H as (_ & _ & H & _). by bool_inv.
Qed.

Lemma snapshot_total self :
  spelled_once (system_paths self) -> sad_modules self <> [] ->
  (forall module, module ∈ sad_modules self ->
     exists deps, verified_analysis_dependencies self (dm_module_name module) = Ok deps) ->
  exists snapshot, verified_analysis_snapshot self = Ok snapshot.
Proof.
  intros Hp Hne Hall. destruct (sad_modules self) as [|m0 ms] eqn:Em; [done|]. rewrite <- Em in *.
  destruct (Hall m0) as [deps0 H0]; [rewrite Em; set_solver|].
  unfold Deployment.verified_analysis_dependencies in H0. rewrite !rbind_unit_ok in H0.
  destruct H0 as (Hval & _ & Hin & _).
  unfold Deployment.verified_analysis_snapshot. rewrite Hval, Hin. cbn [rbind].
  destruct (snapshot_loop_total self _ Hp (sad_analysis_dependencies self)
    (mkSnapshotState (fold_left (fun m module => bmap_insert (dm_module_name module) [] m)
                 (sad_modules self) []) [])) as [state ->]; [| |intros d Hd|cbn; eauto].
  - intros; by eapply elem_of_system_paths.
  - done.
  - cbn [ss_dependencies]. rewrite start_map_get, (validated_importer _ _ Hval Hd). split; [eauto|].
    pose proof (validated_importer _ _ Hval Hd) as (m & Hm & Hname)%existsb_elem. bool_inv.
    destruct (Hall m Hm) as [deps H]. unfold Deployment.verified_analysis_dependencies in H.
    rewrite !rbind_unit_ok in H. destruct H as (_ & _ & _ & H). apply rbind_ok in H as (fs' & H & _).
    apply map_result_ok in H. rewrite Hname in H.
    destruct (Forall2_elem_l _ _ _ d H) as (f & _ & Hf); [|eauto].
    apply elem_of_filter_bool. by rewrite bool_decide_true.
Qed.

(** ** Captured inputs *)

(** Between capture and verification the file at [path] does not change: opening
    it, reading it and its metadata agree. *)
Definition quiescent (path : string) : Prop :=
  forall metadata, fs_metadata fs path = Ok metadata -> md_is_file metadata = true ->
    (md_len metadata < u64_max)%Z /\
    exists bytes, fs_open fs path = Ok (mkOpenFile (Ok metadata) (Ok bytes)) /\
      fs_read fs path = Ok bytes /\ Z.of_nat (length bytes) = md_len metadata.

Lemma state_eqb_refl state : state_eqb state state = true.
Proof.
  destruct state; cbn; [done|..]; unfold path_eqb; rewrite !bool_decide_true by done; done.
Qed.

Lemma read_file_bounded_quiescent path metadata bytes :
  fs_open fs path = Ok (mkOpenFile (Ok metadata) (Ok bytes)) -> md_is_file metadata = true ->
  Z.of_nat (length bytes) = md_len metadata -> (md_len metadata < u64_max)%Z ->
  read_file_bounded path (md_len metadata) = Ok bytes.
Proof.
  intros Ho Hf Hl Hb. unfold Deployment.read_file_bounded. rewrite Ho. cbn. rewrite Hf, Z.eqb_refl.
  cbn. unfold saturating_add_u64. rewrite take_ge by lia. by rewrite Hl, Z.eqb_refl.
Qed.

Lemma directory_observation_filter entries filter o :
  directory_observation digest to_vec entries filter = Ok o -> ado_filter o = filter.
Proof. unfold directory_observation. intros H. apply rbind_ok in H as (b & _ & [= <-]). done. Qed.

Lemma captured_directory_filters entries filters os :
  map_result (directory_observation digest to_vec entries) filters = Ok os ->
  map ado_filter os = filters.
Proof.
  intros H%map_result_ok. induction H; cbn; [done|]. f_equal; eauto using directory_observation_filter.
Qed.

Lemma sort_dedup_nonempty `{RustOrd A} (l : list A) : l <> [] -> dedup (sort l) <> [].
Proof.
  destruct l as [|x l]; [done|]. intros _ E.
  assert (x ∈ dedup (sort (x :: l))) as Hx by (apply elem_of_sort_dedup; set_solver).
  rewrite E in Hx. set_solver.
Qed.

Lemma capture_verifies path filters state :
  quiescent path ->
  capture_analysis_input_with_filters digest to_vec fs path filters = Ok state ->
  verify_analysis_input digest to_vec fs (mkAnalysisInput path state) = Ok tt.
Proof.
  intros Hq H. unfold verify_analysis_input. cbn [ai_path ai_state].
  match goal with |- (let? s := ?r in _) = _ => assert (r = Ok state) as -> end;
    [|cbn [rbind]; by rewrite state_eqb_refl].
  unfold capture_analysis_input_with_filters, capture_analysis_input_bounded in *.
  apply rbind_unit_ok in H as [-> H]. cbn [rbind].
  destruct (fs_metadata fs path) as [md|err] eqn:Em; [|by destruct (io_not_found err); simplify_eq].
  apply rbind_ok in H as (cp & -> & H). cbn [rbind]. destruct (md_is_file md) eqn:Ef.
  - destruct (Hq md Em Ef) as (Hb & bytes & Ho & Hr & Hl). cbn in H. rewrite Hr in H. cbn in H.
    injection H as <-. rewrite Hl. cbn [is_some_and]. rewrite Z.eqb_refl. cbn [negb ensure rbind].
    rewrite (read_file_bounded_quiescent _ _ _ Ho Ef Hl Hb). cbn. by rewrite Hl.
  - apply rbind_unit_ok in H as [-> H]. cbn [rbind]. apply rbind_ok in H as (os & Hos & [= <-]).
    destruct (decide (filters = [])) as [->|Hne].
    + rewrite bool_decide_true in Hos by done. injection Hos as <-. done.
    + rewrite bool_decide_false in Hos by done. apply rbind_ok in Hos as (entries & He & Hos).
      rewrite (captured_directory_filters _ _ _ Hos).
      rewrite bool_decide_false by (by apply sort_dedup_nonempty). rewrite He. cbn [rbind].
      rewrite (sort_dedup_id (dedup (sort filters))) by eauto with ordered. by rewrite Hos.
Qed.

Lemma verify_file_input path canonical d size :
  verify_analysis_input digest to_vec fs (mkAnalysisInput path (AIS_File canonical d size)) = Ok tt ->
  exists bytes current, read_file_bounded path size = Ok bytes /\ digest bytes = d /\
    Z.of_nat (length bytes) = size /\ fs_canonicalize fs path = Ok current /\
    components current = components canonical.
Proof.
  unfold verify_analysis_input. cbn [ai_path ai_state]. intros H.
  apply rbind_ok in H as (state & Hc & H). rewrite reject_ok in H. apply negb_false_iff in H.
  unfold capture_analysis_input_bounded in Hc. apply rbind_unit_ok in Hc as [_ Hc].
  destruct (fs_metadata fs path) as [md|err].
  2: { destruct (io_not_found err); by simplify_eq. }
  apply rbind_ok in Hc as (cp & Hcp & Hc). apply io_result_ok in Hcp. destruct (md_is_file md).
  - apply rbind_unit_ok in Hc as [_ Hc]. apply rbind_ok in Hc as (bytes & Hr & [= <-]).
    cbn in H. unfold path_eqb in H. bool_inv. by exists bytes, cp.
  - apply rbind_unit_ok in Hc as [_ Hc]. apply rbind_ok in Hc as (os & _ & [= <-]). done.
Qed.
End observed.

(** ** Guarantees *)

Section guarantees.
Context (digest : list byte -> Fingerprint) (to_vec : Value -> result string (list byte)).
Context (anchor_valid : list byte -> bool) (fs : FileSystem).
Context `{!Serialize ResolvedStrictPolicy}.
Context `{!Serialize (string * Fingerprint * AnalysisFileConfiguration)}.
Context `{!Serialize (string * string)}.
Context `{!Serialize (string * Fingerprint * Fingerprint * string * ModuleContentId * Fingerprint * Z)}.
Context `{!Serialize (InterpreterIdentity * list AnalysisInput)}.
Context `{!Serialize (list (string * bool * bool * bool))}.

(** C39: when every source path of the deployment is spelled in one way, the startup
    snapshot, which reads every shared source file once, gives each consumer exactly the
    result of its own fresh verification (and the same error for an unknown consumer);
    and for a deployment with at least one module it succeeds whenever every consumer's
    verification does. *)
Theorem snapshot_refines_dependencies self :
  spelled_once (system_paths self) ->
  (forall snapshot importer,
     verified_analysis_snapshot digest to_vec anchor_valid fs self = Ok snapshot ->
     snapshot_dependencies snapshot importer
     = verified_analysis_dependencies digest to_vec anchor_valid fs self importer) /\
  (sad_modules self <> [] ->
   (forall module, module ∈ sad_modules self -> exists deps,
      verified_analysis_dependencies digest to_vec anchor_valid fs self (dm_module_name module) = Ok deps) ->
   exists snapshot, verified_analysis_snapshot digest to_vec anchor_valid fs self = Ok snapshot).
Proof.
  intros Hp. split.
  - intros snapshot importer H. symmetry. by apply snapshot_agrees.
  - intros Hne Hall. by apply snapshot_total.
Qed.

(** an input captured from disk verifies as long as the file does not change,
    whatever directory filters were requested and in whatever order. *)
Theorem capture_then_verify path filters state :
  quiescent fs path ->
  capture_analysis_input_with_filters digest to_vec fs path filters = Ok state ->
  verify_analysis_inputs digest to_vec fs [mkAnalysisInput path state] = Ok tt.
Proof.
  intros Hq H. unfold verify_analysis_inputs. cbn [for_each]. by rewrite (capture_verifies _ _ _ _ _ _ Hq H).
Qed.

(** a verified file input is the recorded one: its whole current contents have the
    recorded digest and size and its path still resolves to the recorded target. *)
Theorem verify_analysis_inputs_sound inputs path canonical d size :
  verify_analysis_inputs digest to_vec fs inputs = Ok tt ->
  mkAnalysisInput path (AIS_File canonical d size) ∈ inputs ->
  exists file metadata contents current,
    fs_open fs path = Ok file /\ of_metadata file = Ok metadata /\ of_contents file = Ok contents /\
    md_is_file metadata = true /\ md_len metadata = size /\
    (size < u64_max -> digest contents = d /\ Z.of_nat (length contents) = size)%Z /\
    fs_canonicalize fs path = Ok current /\ components current = components canonical.
Proof.
  intros H Hin. unfold verify_analysis_inputs in H.
  apply (for_each_elem _ _ _ H) in Hin.
  apply verify_file_input in Hin as (bytes & current & Hr & Hd & Hl & Hc & He).
  apply read_file_bounded_parts in Hr as (_ & file & md & contents & Ho & Hm & Hf & Hlen & Hcon & Eb).
  exists file, md, contents, current. split_and!; try done. intros Hmax.
  assert (bytes = contents) as <-; [|done]. rewrite Eb in Hl. rewrite Eb. apply take_ge.
  unfold saturating_add_u64 in *. rewrite length_take in Hl. lia.
Qed.
End guarantees.

(** ** A deployment on a small disk *)
Module Disk.
Import Demo.
Definition text : list byte := bytes_of "x = 1".
Definition file : Metadata := mkMetadata true false 5.
Definition disk : FileSystem :=
  mkFileSystem (fun _ => Ok (mkOpenFile (Ok file) (Ok text))) (fun _ => Ok file)
    (fun path => Ok path) (fun _ => Ok text) (fun _ => Err "not a directory"%string).

#[export] Instance configuration_value : Serialize (string * Fingerprint * AnalysisFileConfiguration) :=
  fun _ => Ok (VString "configuration").
#[export] Instance system_value : Serialize (string * string) := fun p => Ok (VString p.2).
#[export] Instance vendored_value :
  Serialize (string * Fingerprint * Fingerprint * string * ModuleContentId * Fingerprint * Z) :=
  fun _ => Ok (VString "vendored").
#[export] Instance interpreter_value : Serialize (InterpreterIdentity * list AnalysisInput) :=
  fun _ => Ok (VString "interpreter").
#[export] Instance entries_value : Serialize (list (string * bool * bool * bool)) :=
  fun _ => Ok (VString "entries").

Definition environment : ArtifactEnvironment :=
  mkArtifactEnvironment "rev" (checksum []) "exp" (mkPythonVersion 3 13) "linux"
    (checksum (bytes_of "interpreter")) (checksum []) (checksum []) (checksum []) (checksum [])
    (checksum []) (checksum []) conservative_analysis_default.
Definition configuration : AnalysisFileConfiguration :=
  mkAnalysisFileConfiguration (mkPythonVersion 3 13) "linux" conservative_analysis_default false
    ["/src"%string] [("rule", "error")]%string.
Definition imports (importer : string) : AnalysisDependency :=
  mkAnalysisDependency importer (mkModuleContentId "lib" (legacy_source_hash text))
    (ADS_System "/src/lib.py") (checksum text) 5 configuration.
Definition module (name path : string) : DeployedModule :=
  mkDeployedModule name path (mkResolvedStrictPolicy true true []).
Definition input (path : string) : AnalysisInput :=
  mkAnalysisInput path (AIS_File path (checksum text) 5).
Definition interpreter : InterpreterIdentity :=
  mkInterpreterIdentity [3; 13]%Z "linux" "/usr" "/usr/bin/python" "/build" [] "/usr/lib"
    ["/usr/bin/python"%string] [] [].
Definition deployment : StrictArtifactDeployment :=
  mkStrictArtifactDeployment DEPLOYMENT_SCHEMA_VERSION "/artifacts" (mkArtifactGenerationId (checksum []))
    environment interpreter [] [module "app" "/src/app.py"; module "tool" "/src/tool.py"]
    [imports "app"; imports "tool"] [input "/src/lib.py"; input "/usr/bin/python"] [].
End Disk.

Section disk.
Import Demo Disk.

Lemma snapshot_refines_dependencies_witness :
  exists snapshot deps,
    verified_analysis_snapshot checksum to_vec (fun _ => true) disk deployment = Ok snapshot /\
    snapshot_dependencies snapshot "tool" = Ok deps /\ length deps = 1.
Proof.
  assert (spelled_once (system_paths deployment)) as Hp.
  { intros p q Hp Hq _. cbn in Hp, Hq. set_solver. }
  pose proof (snapshot_refines_dependencies checksum to_vec (fun _ => true) disk deployment Hp) as [H _].
  destruct (verified_analysis_snapshot checksum to_vec (fun _ => true) disk deployment) as [s|] eqn:E;
    [|vm_compute in E; discriminate E].
  specialize (H s "tool"%string eq_refl).
  destruct (verified_analysis_dependencies checksum to_vec (fun _ => true) disk deployment "tool")
    as [deps|] eqn:D; [|vm_compute in D; discriminate D].
  exists s, deps. split; [reflexivity|]. split; [exact H|]. vm_compute in D. injection D as <-. reflexivity.
Defined.

Lemma capture_then_verify_witness :
  verify_analysis_inputs checksum to_vec disk
    [mkAnalysisInput "/src/lib.py" (AIS_File "/src/lib.py" (checksum text) 5)] = Ok tt.
Proof.
  refine (capture_then_verify checksum to_vec disk "/src/lib.py" [ADF_All] _ _ _).
  - intros metadata [= <-] _. split; [vm_compute; reflexivity|]. exists text. repeat split.
  - vm_compute. reflexivity.
Defined.

Lemma verify_analysis_inputs_sound_witness :
  exists contents, of_contents (mkOpenFile (Ok file) (Ok text)) = @Ok string _ contents /\
    checksum contents = checksum text.
Proof.
  assert (verify_analysis_inputs checksum to_vec disk [input "/src/lib.py"] = Ok tt) as H
    by (vm_compute; reflexivity).
  destruct (verify_analysis_inputs_sound checksum to_vec disk _ "/src/lib.py" "/src/lib.py"
    (checksum text) 5 H) as (f & m & c & p & Hf & Hm & Hc & _ & _ & Hd & _).
  - apply list_elem_of_In. left. reflexivity.
  - exists c. injection Hf as <-. split; [exact Hc|]. apply Hd. vm_compute. reflexivity.
Defined.
End disk.
