(* ===== verification/Ids.v ===== *)
(** * Function identities and name generators

    crates/soac_core/src/block_py/name_gen.rs: packed function ids, the serialized
    identity tables, block labels, and the generators of functions, block labels and
    temporary names.  Generators share their counters through [Arc]: a handle is a
    location of a store, cloning copies the location, and every allocation is one
    atomic step on the store. *)

From stdpp Require Import gmap.
From Stdlib Require Import DecimalString DecimalN.
From S2P Require Import Prelude Order Collections Text Identity.

(** ** Identities *)

Record LocalFunctionId : Type := mkLocalFunctionId { lf_value : Z }.
Record RuntimeModuleId : Type := mkRuntimeModuleId { rm_value : Z }.
Record SerializedModuleId : Type := mkSerializedModuleId { sm_value : Z }.
Record RuntimeFunctionId : Type := mkRuntimeFunctionId { rf_packed : Z }.
Record SerializedFunctionId : Type := mkSerializedFunctionId { sf_packed : Z }.

#[global] Instance LocalFunctionId_eq_dec : EqDecision LocalFunctionId.
Proof. solve_decision. Defined.
#[global] Instance RuntimeModuleId_eq_dec : EqDecision RuntimeModuleId.
Proof. solve_decision. Defined.
#[global] Instance RuntimeFunctionId_eq_dec : EqDecision RuntimeFunctionId.
Proof. solve_decision. Defined.
#[global] Instance SerializedFunctionId_eq_dec : EqDecision SerializedFunctionId.
Proof. solve_decision. Defined.

(** [(high as u64) << 32 | low as u64], [(x >> 32) as u32] and [x as u32]. *)
Definition pack_ids (high low : Z) : Z := Z.lor (Z.shiftl high 32) low.
Definition high_id (packed : Z) : Z := Z.shiftr packed 32 mod 2 ^ 32.
Definition low_id (packed : Z) : Z := packed mod 2 ^ 32.

Definition runtime_function_id_new (m : RuntimeModuleId) (f : LocalFunctionId) : RuntimeFunctionId :=
  mkRuntimeFunctionId (pack_ids (rm_value m) (lf_value f)).
Definition from_raw_parts (module_id function_id : Z) : RuntimeFunctionId :=
  runtime_function_id_new (mkRuntimeModuleId module_id) (mkLocalFunctionId function_id).
Definition runtime_module_id (f : RuntimeFunctionId) : RuntimeModuleId :=
  mkRuntimeModuleId (high_id (rf_packed f)).
Definition runtime_local_function_id (f : RuntimeFunctionId) : LocalFunctionId :=
  mkLocalFunctionId (low_id (rf_packed f)).
Definition GLOBAL : RuntimeFunctionId := mkRuntimeFunctionId (2 ^ 64 - 1).

Definition serialized_function_id_new (m : SerializedModuleId) (f : LocalFunctionId) :
    SerializedFunctionId :=
  mkSerializedFunctionId (pack_ids (sm_value m) (lf_value f)).
Definition serialized_module_id (f : SerializedFunctionId) : SerializedModuleId :=
  mkSerializedModuleId (high_id (sf_packed f)).
Definition serialized_local_function_id (f : SerializedFunctionId) : LocalFunctionId :=
  mkLocalFunctionId (low_id (sf_packed f)).

Record PersistentFunctionId : Type := mkPersistentFunctionId {
  pf_module : ModuleContentId; pf_local : LocalFunctionId }.
Record SerializedModuleIdentity : Type := mkSerializedModuleIdentity {
  smi_module_name : string; smi_source_hash : Z; smi_cache_identity : option string }.
Record SerializedFunctionDebugName : Type := mkSerializedFunctionDebugName {
  sdn_function : SerializedFunctionId; sdn_qualname : string }.
Record SerializedIdentityTables : Type := mkSerializedIdentityTables {
  sit_modules : list SerializedModuleIdentity;
  sit_debug_names : list SerializedFunctionDebugName }.

(** The error carries the module id its message prints. *)
Definition tables_module (self : SerializedIdentityTables) (module_id : SerializedModuleId) :
    result SerializedModuleId SerializedModuleIdentity :=
  ok_or module_id (sit_modules self !! Z.to_nat (sm_value module_id)).
Definition persistent_function_id (self : SerializedIdentityTables)
    (function : SerializedFunctionId) : result SerializedModuleId PersistentFunctionId :=
  let? module := tables_module self (serialized_module_id function) in
  Ok (mkPersistentFunctionId
        (mkModuleContentId (smi_module_name module) (smi_source_hash module))
        (serialized_local_function_id function)).
Definition debug_name_for_function (self : SerializedIdentityTables)
    (function : SerializedFunctionId) : option string :=
  option_map sdn_qualname
    (find_first (fun d => bool_decide (sdn_function d = function)) (sit_debug_names self)).

(** ** Labels *)

Record BlockLabel : Type := mkBlockLabel { bl_index : Z }.

#[global] Instance BlockLabel_eq_dec : EqDecision BlockLabel.
Proof. solve_decision. Defined.
#[global] Program Instance BlockLabel_countable : Countable BlockLabel :=
  inj_countable' bl_index mkBlockLabel _.
Next Obligation. by intros []. Qed.

(** [u32::try_from(value).expect(..)]. *)
Definition label_from_index (value : nat) : option BlockLabel :=
  if bool_decide (Z.of_nat value <= u32_max)%Z then Some (mkBlockLabel (Z.of_nat value)) else None.
Definition FALLTHROUGH_INDEX : Z := u32_max.
Definition fallthrough : BlockLabel := mkBlockLabel FALLTHROUGH_INDEX.
Definition is_fallthrough (l : BlockLabel) : bool := bool_decide (bl_index l = FALLTHROUGH_INDEX).

(** ** Generators *)

(** [usize] counters are 64 bits wide, the function counter of a module 32. *)
Definition fetch_add_u32 (z : Z) : Z := (z + 1) mod 2 ^ 32.
Definition fetch_add_usize (z : Z) : Z := wrap64 (z + 1).

Record FunctionNameGenState : Type := mkFunctionNameGenState {
  fs_function_id : RuntimeFunctionId; fs_next_block_id : Z; fs_next_tmp_id : Z }.

(** What the [Arc]s point to. *)
Record Store : Type := mkStore {
  st_functions : gmap nat FunctionNameGenState; st_modules : gmap nat Z }.

(** Handles: a location, and for a module generator its (copied) id. *)
Record FunctionNameGen : Type := mkFunctionNameGen { fg_state : nat }.
Record ModuleNameGen : Type := mkModuleNameGen { mg_module_id : RuntimeModuleId; mg_state : nat }.

Definition function_gen_recovered (s : Store) (function_id : RuntimeFunctionId)
    (next_block_id next_tmp_id : Z) : Store * FunctionNameGen :=
  let l := fresh (dom (st_functions s)) in
  (mkStore (<[l := mkFunctionNameGenState function_id next_block_id next_tmp_id]> (st_functions s))
     (st_modules s), mkFunctionNameGen l).
Definition function_gen_new (s : Store) (function_id : RuntimeFunctionId) :
    Store * FunctionNameGen :=
  function_gen_recovered s function_id 0 0.
Definition share (g : FunctionNameGen) : FunctionNameGen := mkFunctionNameGen (fg_state g).

Definition module_gen_recovered (s : Store) (module_id next_function_id : Z) :
    Store * ModuleNameGen :=
  let l := fresh (dom (st_modules s)) in
  (mkStore (st_functions s) (<[l := next_function_id]> (st_modules s)),
   mkModuleNameGen (mkRuntimeModuleId module_id) l).
Definition module_gen_new (s : Store) (module_id : Z) : Store * ModuleNameGen :=
  module_gen_recovered s module_id 1.
Definition module_gen_clone (g : ModuleNameGen) : ModuleNameGen :=
  mkModuleNameGen (mg_module_id g) (mg_state g).

(** Allocations.  [None] is a dangling handle, which safe Rust excludes. *)
Definition next_function_name_gen (s : Store) (g : ModuleNameGen) :
    option (Store * FunctionNameGen) :=
  current ← st_modules s !! mg_state g;
  Some (function_gen_new
          (mkStore (st_functions s) (<[mg_state g := fetch_add_u32 current]> (st_modules s)))
          (runtime_function_id_new (mg_module_id g) (mkLocalFunctionId current))).

Definition set_function (s : Store) (l : nat) (f : FunctionNameGenState) : Store :=
  mkStore (<[l := f]> (st_functions s)) (st_modules s).

(** [next_block_id.fetch_add(1)] and [next_tmp_id.fetch_add(1)]: the old value. *)
Definition fetch_block (s : Store) (g : FunctionNameGen) : option (Store * Z) :=
  f ← st_functions s !! fg_state g;
  Some (set_function s (fg_state g) (mkFunctionNameGenState (fs_function_id f)
          (fetch_add_usize (fs_next_block_id f)) (fs_next_tmp_id f)), fs_next_block_id f).
Definition fetch_tmp (s : Store) (g : FunctionNameGen) :
    option (Store * (RuntimeFunctionId * Z)) :=
  f ← st_functions s !! fg_state g;
  Some (set_function s (fg_state g) (mkFunctionNameGenState (fs_function_id f)
          (fs_next_block_id f) (fetch_add_usize (fs_next_tmp_id f))),
        (fs_function_id f, fs_next_tmp_id f)).

(** The label is [None] where [from_index] panics. *)
Definition next_block_name (s : Store) (g : FunctionNameGen) :
    option (Store * option BlockLabel) :=
  '(s, current) ← fetch_block s g;
  Some (s, label_from_index (Z.to_nat current)).

(** Decimal [Display] of an unsigned integer. *)
Definition decimal (z : Z) : string := NilEmpty.string_of_uint (N.to_uint (Z.to_N z)).
Definition tmp_name (prefix : string) (f : RuntimeFunctionId) (current : Z) : string :=
  "_dp_" +:+ prefix +:+ "_" +:+ decimal (rm_value (runtime_module_id f))
  +:+ "_" +:+ decimal (lf_value (runtime_local_function_id f)) +:+ "_" +:+ decimal current.

Definition next_tmp_name (s : Store) (g : FunctionNameGen) (prefix : string) :
    option (Store * string) :=
  '(s, (f, current)) ← fetch_tmp s g;
  Some (s, tmp_name prefix f current).
Definition next_temporary_sequence (s : Store) (g : FunctionNameGen) : option (Store * Z) :=
  '(s, (_, current)) ← fetch_tmp s g;
  Some (s, current).
