(* ===== verification/IdsProps.v ===== *)
(** * Uniqueness of identities and generated names *)

From stdpp Require Import gmap.
From Stdlib Require Import DecimalString DecimalN.
From S2P Require Import Prelude Order Collections Text Identity Ids.

(** ** Packing *)

Definition is_u32 (z : Z) : Prop := (0 <= z < 2 ^ 32)%Z.

Lemma pack_ids_add high low : is_u32 low -> pack_ids high low = (high * 2 ^ 32 + low)%Z.
Proof.
  intros Hl. unfold pack_ids. rewrite Z.shiftl_mul_pow2 by lia.
  symmetry. apply Z.add_nocarry_lor. apply Z.bits_inj'. intros n Hn.
  rewrite Z.land_spec, Z.bits_0. destruct (Z.lt_ge_cases n 32) as [H|H].
  - by rewrite Z.mul_pow2_bits_low by lia.
  - replace (Z.testbit low n) with false; [by rewrite andb_false_r|].
    symmetry. apply Z.bits_above_log2; [unfold is_u32 in Hl; lia|].
    destruct (Z.eq_dec low 0) as [->|]; [cbn; lia|].
    apply Z.log2_lt_pow2; [unfold is_u32 in Hl; lia|].
    apply Z.lt_le_trans with (2 ^ 32)%Z; [apply Hl|]. apply Z.pow_le_mono_r; lia.
Qed.

Lemma high_pack high low : is_u32 high -> is_u32 low -> high_id (pack_ids high low) = high.
Proof.
  intros Hh Hl. unfold high_id. rewrite pack_ids_add, Z.shiftr_div_pow2 by (done || lia).
  rewrite Z.div_add_l, (Z.div_small low), Z.add_0_r by (done || lia). by apply Z.mod_small.
Qed.

Lemma low_pack high low : is_u32 low -> low_id (pack_ids high low) = low.
Proof.
  intros Hl. unfold low_id. rewrite pack_ids_add by done.
  rewrite Z.add_comm, Z.mod_add by lia. by apply Z.mod_small.
Qed.

Lemma high_is_u32 z : is_u32 (high_id z).
Proof. apply Z.mod_pos_bound. lia. Qed.
Lemma low_is_u32 z : is_u32 (low_id z).
Proof. apply Z.mod_pos_bound. lia. Qed.

Lemma pack_high_low z : (0 <= z < 2 ^ 64)%Z -> pack_ids (high_id z) (low_id z) = z.
Proof.
  intros Hz. rewrite pack_ids_add by apply low_is_u32. unfold high_id, low_id.
  rewrite Z.shiftr_div_pow2 by lia.
  rewrite (Z.mod_small (z / 2 ^ 32)) by
    (split; [apply Z.div_pos; lia|apply Z.div_lt_upper_bound; lia]).
  rewrite Z.mul_comm. symmetry. apply Z.div_mod. lia.
Qed.

(** packing a module id and a function id into a [u64] loses nothing, in both
    directions, for runtime and for serialized ids, and only the pair of maximal ids is
    the reserved global id. *)
Theorem function_id_roundtrip m f p :
  is_u32 m -> is_u32 f -> (0 <= p < 2 ^ 64)%Z ->
  runtime_module_id (from_raw_parts m f) = mkRuntimeModuleId m /\
  runtime_local_function_id (from_raw_parts m f) = mkLocalFunctionId f /\
  runtime_function_id_new (runtime_module_id (mkRuntimeFunctionId p))
    (runtime_local_function_id (mkRuntimeFunctionId p)) = mkRuntimeFunctionId p /\
  serialized_function_id_new (serialized_module_id (mkSerializedFunctionId p))
    (serialized_local_function_id (mkSerializedFunctionId p)) = mkSerializedFunctionId p /\
  (from_raw_parts m f = GLOBAL <-> m = u32_max /\ f = u32_max).
Proof.
  intros Hm Hf Hp. unfold from_raw_parts, runtime_function_id_new, serialized_function_id_new,
    runtime_module_id, runtime_local_function_id, serialized_module_id,
    serialized_local_function_id, GLOBAL; cbn.
  rewrite high_pack, low_pack, pack_high_low by done. split_and!; try done.
  rewrite pack_ids_add by done. unfold is_u32, u32_max in *. split; [intros [= E]|intros [-> ->]];
    [lia|f_equal].
Qed.

Lemma function_id_roundtrip_witness :
  runtime_module_id (from_raw_parts 17 42) = mkRuntimeModuleId 17.
Proof. apply (function_id_roundtrip 17 42 0); unfold is_u32; lia. Defined.

(** ** Printed names *)

Definition chars (s : string) : list Ascii.ascii := String.list_ascii_of_string s.

Lemma chars_inj s t : chars s = chars t -> s = t.
Proof.
  intros E. rewrite <- (String.string_of_list_ascii_of_string s),
    <- (String.string_of_list_ascii_of_string t). by apply (f_equal String.string_of_list_ascii).
Qed.
Lemma chars_app s t : chars (s +:+ t) = chars s ++ chars t.
Proof. 
  induction s as [|c s IH]; [done|].
  change (c :: chars (s +:+ t) = c :: (chars s ++ chars t)). by rewrite IH.
Qed.

Lemma uint_no_underscore d : "_"%char ∉ chars (NilEmpty.string_of_uint d).
Proof. induction d; cbn; try set_solver. Qed.
Lemma decimal_no_underscore z : "_"%char ∉ chars (decimal z).
Proof. apply uint_no_underscore. Qed.

Lemma decimal_inj x y : (0 <= x)%Z -> (0 <= y)%Z -> decimal x = decimal y -> x = y.
Proof.
  intros Hx Hy E%(f_equal NilEmpty.uint_of_string). unfold decimal in E.
  rewrite !NilEmpty.usu in E. injection E as E%(f_equal N.of_uint).
  rewrite !DecimalN.Unsigned.of_to in E. lia.
Qed.

(** The text after the last underscore is determined. *)
Lemma last_underscore l l' d d' :
  "_"%char ∉ d -> "_"%char ∉ d' -> l ++ "_"%char :: d = l' ++ "_"%char :: d' -> l = l' /\ d = d'.
Proof.
  revert l'. induction l as [|c l IH]; intros [|c' l'] Hd Hd' E; cbn in E; simplify_eq; try done.
  - exfalso. apply Hd. set_solver.
  - exfalso. apply Hd'. set_solver.
  - destruct (IH l') as [-> ->]; done.
Qed.

Lemma chars_tmp_name p f c : chars (tmp_name p f c) =
  (((chars "_dp_" ++ chars p) ++ "_"%char :: chars (decimal (rm_value (runtime_module_id f))))
   ++ "_"%char :: chars (decimal (lf_value (runtime_local_function_id f))))
  ++ "_"%char :: chars (decimal c).
Proof.
  unfold tmp_name. rewrite !chars_app. change (chars "_") with ["_"%char].
  rewrite <- !app_assoc. done.
Qed.

Lemma tmp_name_inj p f c p' f' c' :
  (0 <= rf_packed f < 2 ^ 64)%Z -> (0 <= rf_packed f' < 2 ^ 64)%Z -> (0 <= c)%Z -> (0 <= c')%Z ->
  tmp_name p f c = tmp_name p' f' c' -> p = p' /\ f = f' /\ c = c'.
Proof.
  intros Hf Hf' Hc Hc' E%(f_equal chars). rewrite !chars_tmp_name in E.
  apply last_underscore in E as [E Ec]; [|apply decimal_no_underscore..].
  apply last_underscore in E as [E El]; [|apply decimal_no_underscore..].
  apply last_underscore in E as [E Em]; [|apply decimal_no_underscore..].
  apply app_inv_head, chars_inj in E. apply chars_inj, decimal_inj in Ec; [|done..].
  apply chars_inj, decimal_inj in El; [|apply low_is_u32..].
  apply chars_inj, decimal_inj in Em; [|apply high_is_u32..].
  split_and!; [done| |done]. destruct f as [f], f' as [f']. cbn in *. f_equal.
  rewrite <- (pack_high_low f), <- (pack_high_low f') by done. by f_equal.
Qed.

(** ** Interleaved allocation

    A sequence of allocations through any handles, shared or cloned, in any order. *)

Inductive Allocation : Type :=
| Alloc_Tmp (g : FunctionNameGen) (prefix : string)
| Alloc_Sequence (g : FunctionNameGen)
| Alloc_Block (g : FunctionNameGen)
| Alloc_Function (g : ModuleNameGen).

Inductive Allocated : Type :=
| Got_Name (name : string)
| Got_Sequence (value : Z)
| Got_Block (label : option BlockLabel)
| Got_Function (id : RuntimeFunctionId).

Definition allocate (s : Store) (a : Allocation) : option (Store * Allocated) :=
  match a with
  | Alloc_Tmp g prefix => '(s, name) ← next_tmp_name s g prefix; Some (s, Got_Name name)
  | Alloc_Sequence g => '(s, value) ← next_temporary_sequence s g; Some (s, Got_Sequence value)
  | Alloc_Block g => '(s, label) ← next_block_name s g; Some (s, Got_Block label)
  | Alloc_Function g =>
      '(s, fg) ← next_function_name_gen s g;
      f ← st_functions s !! fg_state fg;
      Some (s, Got_Function (fs_function_id f))
  end.

Fixpoint allocate_all (s : Store) (l : list Allocation) : option (Store * list Allocated) :=
  match l with
  | [] => Some (s, [])
  | a :: l =>
      '(s, got) ← allocate s a;
      '(s, rest) ← allocate_all s l;
      Some (s, got :: rest)
  end.

(** The module ids of live counters are distinct, so are the ids of live functions, and
    a module's functions lie below its counter. *)
Record store_ok (owner : nat -> Z) (s : Store) : Prop := {
  ok_owner : forall l l', l ∈ dom (st_modules s) -> l' ∈ dom (st_modules s) ->
    owner l = owner l' -> l = l';
  ok_owner_u32 : forall l, is_u32 (owner l);
  ok_counter : forall l c, st_modules s !! l = Some c -> is_u32 c;
  ok_ids : forall l l' f f', st_functions s !! l = Some f -> st_functions s !! l' = Some f' ->
    fs_function_id f = fs_function_id f' -> l = l';
  ok_function : forall l f, st_functions s !! l = Some f ->
    (0 <= rf_packed (fs_function_id f) < 2 ^ 64)%Z /\ (0 <= fs_next_tmp_id f)%Z;
  ok_below : forall l c k f, st_modules s !! l = Some c -> st_functions s !! k = Some f ->
    high_id (rf_packed (fs_function_id f)) = owner l -> (low_id (rf_packed (fs_function_id f)) < c)%Z
}.

(** [n] more allocations overflow no counter. *)
Definition room (n : nat) (s : Store) : Prop :=
  (forall l c, st_modules s !! l = Some c -> (c + Z.of_nat n < 2 ^ 32)%Z) /\
  (forall l f, st_functions s !! l = Some f -> (fs_next_tmp_id f + Z.of_nat n < 2 ^ 64)%Z) /\
  (Z.of_nat n < 2 ^ 64)%Z.

Definition owned (owner : nat -> Z) (a : Allocation) : Prop :=
  match a with
  | Alloc_Function g => owner (mg_state g) = rm_value (mg_module_id g)
  | _ => True
  end.

(** What later allocations from [s] return is new with respect to [s]. *)
Definition later (s : Store) (got : Allocated) : Prop :=
  match got with
  | Got_Name name => exists p f c, name = tmp_name p f c /\ (0 <= rf_packed f < 2 ^ 64)%Z /\
      (0 <= c)%Z /\ forall l fs, st_functions s !! l = Some fs -> fs_function_id fs = f ->
        (fs_next_tmp_id fs <= c)%Z
  | Got_Function f => forall l fs, st_functions s !! l = Some fs -> fs_function_id fs <> f
  | _ => True
  end.

(** One store only adds functions to another and moves its counters forward. *)
Definition extends (s s' : Store) : Prop := forall l f, st_functions s !! l = Some f ->
  exists f', st_functions s' !! l = Some f' /\ fs_function_id f' = fs_function_id f /\
    (fs_next_tmp_id f <= fs_next_tmp_id f')%Z.

Lemma later_extends s s' got : extends s s' -> later s' got -> later s got.
Proof.
  intros He. destruct got as [name| | |f]; cbn; [|done..|].
  - intros (p & f & c & -> & Hf & Hc & H). exists p, f, c.
    do 3 (split; [done|]). intros l fs Hl Hid. destruct (He _ _ Hl) as (fs' & Hl' & Hid' & Hle).
    specialize (H l fs' Hl' ltac:(congruence)). lia.
  - intros H l fs Hl Hid. destruct (He _ _ Hl) as (fs' & Hl' & Hid' & _). eapply H; [exact Hl'|].
    congruence.
Qed.

Lemma fetch_add_usize_small c : (0 <= c)%Z -> (c + 1 < 2 ^ 64)%Z -> fetch_add_usize c = (c + 1)%Z.
Proof. intros. unfold fetch_add_usize, wrap64. apply Z.mod_small. lia. Qed.

(** Replacing a function's counters keeps the invariant. *)
Lemma set_function_ok owner s l f f' : store_ok owner s -> st_functions s !! l = Some f ->
  fs_function_id f' = fs_function_id f -> (fs_next_tmp_id f <= fs_next_tmp_id f')%Z ->
  store_ok owner (set_function s l f') /\ extends s (set_function s l f').
Proof.
  intros Hok Hl Hid Hle.
  assert (forall k g, st_functions (set_function s l f') !! k = Some g ->
    exists g0, st_functions s !! k = Some g0 /\ fs_function_id g = fs_function_id g0 /\
      (fs_next_tmp_id g0 <= fs_next_tmp_id g)%Z) as Hback.
  { cbn. intros k g [[<- <-]|[_ Hk]]%lookup_insert_Some; eauto. exists g. by split_and!. }
  destruct Hok as [Ho Hou Hc Hi Hf Hb]. split; [split; cbn -[set_function]; try done|].
  - intros k k' g g' (g0 & Hk & E & _)%Hback (g0' & Hk' & E' & _)%Hback Eid.
    apply (Hi k k' g0 g0' Hk Hk'). congruence.
  - intros k g (g0 & Hk & -> & ?)%Hback. destruct (Hf _ _ Hk). split; [done|lia].
  - intros k c k' g Hk (g0 & Hk' & -> & _)%Hback. eauto.
  - intros k g Hk. cbn. destruct (decide (k = l)) as [->|].
    + rewrite lookup_insert_eq. simplify_eq. eauto.
    + rewrite lookup_insert_ne by done. exists g. by split_and!.
Qed.

Definition distinct (a b : Allocated) : Prop :=
  match a, b with
  | Got_Name x, Got_Name y => x <> y
  | Got_Function x, Got_Function y => x <> y
  | _, _ => True
  end.

(** What one allocation establishes. *)
Definition step_ok (owner : nat -> Z) (n : nat) (s s' : Store) (got : Allocated) : Prop :=
  store_ok owner s' /\ room n s' /\ extends s s' /\ later s got /\
  forall r, later s' r -> distinct got r.

Lemma room_set_function n s l f f' : room (S n) s -> st_functions s !! l = Some f ->
  (fs_next_tmp_id f' <= fs_next_tmp_id f + 1)%Z -> room n (set_function s l f').
Proof.
  intros (Hm & Hf & Hn) Hl Hle. split_and!; cbn; [|intros k g|lia].
  - intros k c Hk. specialize (Hm _ _ Hk). lia.
  - intros [[<- <-]|[_ Hk]]%lookup_insert_Some; [specialize (Hf _ _ Hl)|specialize (Hf _ _ Hk)]; lia.
Qed.

Lemma fetch_tmp_step owner n s g s' f c : store_ok owner s -> room (S n) s ->
  fetch_tmp s g = Some (s', (f, c)) ->
  store_ok owner s' /\ room n s' /\ extends s s' /\
  (forall p, later s (Got_Name (tmp_name p f c))) /\
  (forall p r, later s' r -> distinct (Got_Name (tmp_name p f c)) r).
Proof.
  intros Hok Hroom ([f0 b0 c0] & Hg & H)%bind_Some. cbn in H. injection H as <- <- <-.
  destruct (ok_function _ _ Hok _ _ Hg) as [Hid Hc]. cbn in Hid, Hc.
  assert (fetch_add_usize c0 = c0 + 1)%Z as Eadd.
  { apply fetch_add_usize_small; [done|]. destruct Hroom as (_ & Hr & _).
    specialize (Hr _ _ Hg). cbn in Hr. lia. }
  rewrite Eadd.
  destruct (set_function_ok owner s (fg_state g) _ (mkFunctionNameGenState f0 b0 (c0 + 1)) Hok Hg)
    as [Hok' Hext]; [done|cbn; lia|].
  split; [done|]. split; [by apply (room_set_function _ _ _ _ _ Hroom Hg)|]. split; [done|]. split.
  - intros p. cbn. exists p, f0, c0. do 3 (split; [done|]). intros l fs Hl E.
    assert (l = fg_state g) as -> by (eapply (ok_ids _ _ Hok); eauto).
    rewrite Hl in Hg. injection Hg as ->. done.
  - intros p [name| | |] Hl; cbn; try done. destruct Hl as (p' & f' & c' & -> & Hf' & Hc' & Hle).
    intros (_ & <- & <-)%tmp_name_inj; try done.
    specialize (Hle (fg_state g) (mkFunctionNameGenState f0 b0 (c0 + 1))). cbn in Hle.
    rewrite lookup_insert_eq in Hle. specialize (Hle eq_refl eq_refl). lia.
Qed.

Lemma fetch_block_step owner n s g s' c : store_ok owner s -> room (S n) s ->
  fetch_block s g = Some (s', c) -> store_ok owner s' /\ room n s' /\ extends s s'.
Proof.
  intros Hok Hroom ([f0 b0 c0] & Hg & H)%bind_Some. cbn in H. injection H as <- <-.
  destruct (set_function_ok owner s (fg_state g) _
    (mkFunctionNameGenState f0 (fetch_add_usize b0) c0) Hok Hg) as [Hok' Hext]; [done|cbn; lia|].
  split; [done|]. split; [|done]. apply (room_set_function _ _ _ _ _ Hroom Hg). cbn. lia.
Qed.

(** A new function of module counter [l] is unlike every live function. *)
Lemma new_function_id owner s l c k f : store_ok owner s -> st_modules s !! l = Some c ->
  st_functions s !! k = Some f ->
  fs_function_id f <> runtime_function_id_new (mkRuntimeModuleId (owner l)) (mkLocalFunctionId c).
Proof.
  intros Hok Hl Hk E. pose proof (ok_below _ _ Hok _ _ _ _ Hl Hk) as Hb. rewrite E in Hb. cbn in Hb.
  rewrite high_pack, low_pack in Hb by (apply (ok_owner_u32 _ _ Hok) || apply (ok_counter _ _ Hok _ _ Hl)).
  specialize (Hb eq_refl). lia.
Qed.

Lemma function_step owner n s g s' f : store_ok owner s -> room (S n) s ->
  owner (mg_state g) = rm_value (mg_module_id g) ->
  allocate s (Alloc_Function g) = Some (s', Got_Function f) ->
  step_ok owner n s s' (Got_Function f).
Proof.
  intros Hok Hroom Hown H. cbn in H.
  apply bind_Some in H as ([s1 fg] & Hg & (fs & Hfs & [= <- <-])%bind_Some).
  apply bind_Some in Hg as (c & Hc & [= <- <-]).
  set (l := fresh (dom (st_functions s))) in *. cbn in Hfs. rewrite lookup_insert_eq in Hfs.
  injection Hfs as <-.
  assert (st_functions s !! l = None) as Hl by (apply not_elem_of_dom, is_fresh).
  assert (is_u32 c) as Hcu by apply (ok_counter _ _ Hok _ _ Hc).
  destruct Hroom as (Hm & Hf & Hn). pose proof (Hm _ _ Hc) as Hmc.
  assert (fetch_add_u32 c = c + 1)%Z as Eadd by (apply Z.mod_small; unfold is_u32 in Hcu; lia).
  rewrite Eadd.
  assert (mg_module_id g = mkRuntimeModuleId (owner (mg_state g))) as Emid
    by (rewrite Hown; by destruct (mg_module_id g)).
  rewrite Emid. clear Emid Hown. set (id := runtime_function_id_new _ _).
  assert (forall k fs, st_functions s !! k = Some fs -> fs_function_id fs <> id) as Hnew
    by (intros k fs Hk; by eapply new_function_id).
  assert (high_id (rf_packed id) = owner (mg_state g) /\ low_id (rf_packed id) = c) as [Ehigh Elow].
  { cbn. rewrite high_pack, low_pack by (apply (ok_owner_u32 _ _ Hok) || done). done. }
  assert (0 <= rf_packed id < 2 ^ 64)%Z as Hid.
  { cbn. rewrite pack_ids_add by done. pose proof (ok_owner_u32 _ _ Hok (mg_state g)).
    unfold is_u32 in *. lia. }
  split; [|split; [|split; [|split]]].
  - split; cbn.
    + intros k k' Hk Hk'. rewrite !dom_insert in Hk, Hk'. apply (ok_owner _ _ Hok);
        apply elem_of_dom_2 in Hc; set_solver.
    + apply (ok_owner_u32 _ _ Hok).
    + intros k c' [[<- <-]|[_ Hk]]%lookup_insert_Some; [unfold is_u32 in *; lia|].
      by apply (ok_counter _ _ Hok _ _ Hk).
    + intros k k' fs fs' [[<- <-]|[? Hk]]%lookup_insert_Some [[<- <-]|[? Hk']]%lookup_insert_Some E;
        cbn in E; try done; [by destruct (Hnew _ _ Hk')|by destruct (Hnew _ _ Hk)|].
      by eapply (ok_ids _ _ Hok).
    + intros k fs [[<- <-]|[_ Hk]]%lookup_insert_Some; [by cbn|]. by apply (ok_function _ _ Hok _ _ Hk).
    + intros k c' k' fs [[<- <-]|[Hne Hk]]%lookup_insert_Some [[<- <-]|[_ Hk']]%lookup_insert_Some;
        cbn [fs_function_id]; intros E.
      * rewrite Elow. lia.
      * pose proof (ok_below _ _ Hok _ _ _ _ Hc Hk' E). lia.
      * exfalso. apply Hne. apply (ok_owner _ _ Hok); [by eapply elem_of_dom_2..|]. congruence.
      * by eapply (ok_below _ _ Hok).
  - split_and!; cbn; [| |lia].
    + intros k c' [[<- <-]|[_ Hk]]%lookup_insert_Some; [lia|]. specialize (Hm _ _ Hk). lia.
    + intros k fs [[<- <-]|[_ Hk]]%lookup_insert_Some; [cbn; lia|]. specialize (Hf _ _ Hk). lia.
  - intros k fs Hk. exists fs. cbn. rewrite lookup_insert_ne by congruence. done.
  - exact Hnew.
  - intros [| | |f']; cbn; try done. intros H E. apply (H l _ (lookup_insert_eq _ _ _)). exact E.
Qed.

Lemma allocate_step owner n s a s' got : store_ok owner s -> room (S n) s -> owned owner a ->
  allocate s a = Some (s', got) -> step_ok owner n s s' got.
Proof.
  intros Hok Hroom Hown H. destruct a as [g prefix|g|g|g]; [| | |].
  - apply bind_Some in H as ([s1 name] & Hn & [= <- <-]).
    apply bind_Some in Hn as ([s2 [f c]] & Hf & [= <- <-]).
    destruct (fetch_tmp_step _ _ _ _ _ _ _ Hok Hroom Hf) as (? & ? & ? & Hl & Hd).
    by split_and!; try apply Hl; try apply Hd.
  - apply bind_Some in H as ([s1 v] & Hn & [= <- <-]).
    apply bind_Some in Hn as ([s2 [f c]] & Hf & [= <- <-]).
    destruct (fetch_tmp_step _ _ _ _ _ _ _ Hok Hroom Hf) as (? & ? & ? & _). by split_and!.
  - apply bind_Some in H as ([s1 v] & Hn & [= <- <-]).
    apply bind_Some in Hn as ([s2 c] & Hf & [= <- <-]).
    destruct (fetch_block_step _ _ _ _ _ _ Hok Hroom Hf) as (? & ? & ?). by split_and!.
  - pose proof H as H'. cbn in H. apply bind_Some in H as ([s1 fg] & Hg & (f & Hf & [= <- <-])%bind_Some).
    by apply (function_step owner n s g).
Qed.

Lemma allocate_all_later owner : forall l s s' outs, store_ok owner s -> room (length l) s ->
  Forall (owned owner) l -> allocate_all s l = Some (s', outs) ->
  Forall (later s) outs /\ ForallOrdPairs distinct outs.
Proof.
  induction l as [|a l IH]; intros s s' outs Hok Hroom Hown H; cbn in H.
  { injection H as <- <-. split; constructor. }
  apply Forall_cons in Hown as [Ha Hown].
  apply bind_Some in H as ([s1 got] & Hs & ([s2 rest] & Hr & [= <- <-])%bind_Some).
  destruct (allocate_step owner (length l) s a s1 got Hok Hroom Ha Hs) as (Hok1 & Hroom1 & He & Hl & Hd).
  destruct (IH _ _ _ Hok1 Hroom1 Hown Hr) as [Hlater Hpairs]. split; [constructor; [done|]|constructor].
  - eapply Forall_impl; [exact Hlater|]. intros r. by apply later_extends.
  - rewrite List.Forall_forall in *. intros r Hin. apply Hd. by apply Hlater.
  - done.
Qed.

(** names and function ids never repeat: in any interleaving of allocations through
    shared or cloned generators, two temporary names (whatever their prefixes and
    functions) and two function ids are different, as long as no counter overflows. *)
Theorem generated_names_unique owner s l s' outs i j a b :
  store_ok owner s -> room (length l) s -> Forall (owned owner) l ->
  allocate_all s l = Some (s', outs) -> i <> j -> outs !! i = Some a -> outs !! j = Some b ->
  distinct a b.
Proof.
  intros Hok Hroom Hown H Hij Ha Hb.
  destruct (allocate_all_later owner l s s' outs Hok Hroom Hown H) as [_ Hp].
  assert (forall i j a b, i < j -> outs !! i = Some a -> outs !! j = Some b -> distinct a b) as Hlt.
  { clear - Hp. induction Hp as [|x outs Hx _ IH]; intros i j a b Hij Ha Hb; [done|].
    destruct j as [|j]; [lia|]. destruct i as [|i]; cbn in Ha, Hb.
    - simplify_eq. rewrite List.Forall_forall in Hx. apply Hx, list_elem_of_In.
      by eapply list_elem_of_lookup_2.
    - apply (IH i j); [lia|done|done]. }
  destruct (Nat.lt_total i j) as [Hlt'|[|Hlt']]; [by eapply Hlt|done|].
  specialize (Hlt j i b a Hlt' Hb Ha). destruct a, b; cbn in *; congruence.
Qed.

Lemma generated_names_unique_witness :
  exists outs : list Allocated, outs !! 1 = Some (Got_Name "_dp_iter_7_1_0") /\
    outs !! 3 = Some (Got_Name "_dp_iter_7_1_1") /\
    distinct (Got_Name "_dp_iter_7_1_0") (Got_Name "_dp_iter_7_1_1").
Proof.
  set (s := (module_gen_new (mkStore ∅ ∅) 7).1).
  set (g := mkModuleNameGen (mkRuntimeModuleId 7) 0).
  set (l := [Alloc_Function g; Alloc_Tmp (mkFunctionNameGen 0) "iter";
             Alloc_Function (module_gen_clone g); Alloc_Tmp (share (mkFunctionNameGen 0)) "iter"]).
  assert (exists s' outs, allocate_all s l = Some (s', outs) /\
    outs !! 1 = Some (Got_Name "_dp_iter_7_1_0") /\ outs !! 3 = Some (Got_Name "_dp_iter_7_1_1"))
    as (s' & outs & H & H1 & H3).
  { eexists _, _. split; [vm_compute; reflexivity|]. split; reflexivity. }
  exists outs. split; [exact H1|]. split; [exact H3|].
  refine (generated_names_unique (fun _ => 7%Z) s l s' outs 1 3 _ _ _ _ _ H _ H1 H3).
  - assert (forall k c, st_modules s !! k = Some c -> k = 0 /\ c = 1%Z) as Hm.
    { intros k c Hk. change (<[0 := 1%Z]> (∅ : gmap nat Z) !! k = Some c) in Hk.
      apply lookup_insert_Some in Hk as [[<- <-]|[_ Hk]]; [done|]. by rewrite lookup_empty in Hk. }
    split; try (intros *; cbn; rewrite lookup_empty; done); unfold is_u32.
    + intros k k' [c Hk]%elem_of_dom [c' Hk']%elem_of_dom _.
      apply Hm in Hk as [-> _]. apply Hm in Hk' as [-> _]. done.
    + lia.
    + intros k c [_ ->]%Hm. lia.
  - split_and!; [|intros k f Hk; cbn in Hk; by rewrite lookup_empty in Hk|cbn; lia].
    intros k c Hk. change (<[0 := 1%Z]> (∅ : gmap nat Z) !! k = Some c) in Hk.
    apply lookup_insert_Some in Hk as [[<- <-]|[_ Hk]]; [cbn; lia|]. by rewrite lookup_empty in Hk.
  - repeat constructor.
  - done.
Defined.
