(* ===== verification/Cfg.v ===== *)
(** * BlockPy control-flow graphs

    The block data of crates/soac_core (block_py/mod.rs, name_gen.rs) and the
    control-flow passes of crates/soac_lowering: the end of
    [build_core_blockpy_callable_def_from_runtime_input], jump folding, pruning,
    the checks of suspension edges and of block edges, and dense relabelling.

    Instructions are the type parameter [I] of the Rust code.  A Rust panic is
    [None]; an error message is an [EdgeError] with the values the message prints. *)

From stdpp Require Import gmap.
From S2P Require Import Prelude Ids.

(** ** Blocks *)

Inductive GeneratorResumeParamRole : Type :=
| GR_SelfValue | GR_StateValue | GR_SendValue | GR_ResumeExc | GR_TransportSent.
Inductive AbruptKind : Type :=
| AK_Fallthrough | AK_Return | AK_Exception | AK_Break | AK_Continue.
Inductive BlockParamRole : Type :=
| BPR_Value
| BPR_GeneratorResume (role : GeneratorResumeParamRole)
| BPR_EnclosingException
| BPR_Exception
| BPR_AbruptKind
| BPR_AbruptPayload
| BPR_EnclosingAbruptPayload.
Record BlockParam : Type := mkBlockParam { bp_name : string; bp_role : BlockParamRole }.
Inductive BlockArg : Type :=
| BA_Name (name : string)
| BA_None
| BA_CurrentException
| BA_AbruptKind (kind : AbruptKind).
Record BlockEdge : Type := mkBlockEdge { be_target : BlockLabel; be_args : list BlockArg }.
Inductive HandledExceptionContext : Type :=
| HE_Regions | HE_Preserve | HE_Unwind | HE_Terminal.
Record BlockContext : Type := mkBlockContext {
  bc_handled_exception : HandledExceptionContext;
  bc_suspension_resume : option BlockLabel
}.
Inductive FunctionKind : Type :=
| FK_Function | FK_Coroutine | FK_Generator | FK_AsyncGenerator.
Inductive RaiseDisposition : Type :=
| RD_Source | RD_PropagateNormalized | RD_SourceNormalized.

#[global] Instance AbruptKind_eq_dec : EqDecision AbruptKind.
Proof. solve_decision. Defined.
#[global] Instance GeneratorResumeParamRole_eq_dec : EqDecision GeneratorResumeParamRole.
Proof. solve_decision. Defined.
#[global] Instance BlockParamRole_eq_dec : EqDecision BlockParamRole.
Proof. solve_decision. Defined.
#[global] Instance HandledExceptionContext_eq_dec : EqDecision HandledExceptionContext.
Proof. solve_decision. Defined.
#[global] Instance FunctionKind_eq_dec : EqDecision FunctionKind.
Proof. solve_decision. Defined.

Definition block_context_default : BlockContext := mkBlockContext HE_Regions None.
Definition edge_new (target : BlockLabel) : BlockEdge := mkBlockEdge target [].
Definition is_normalized (d : RaiseDisposition) : bool :=
  match d with RD_Source => false | _ => true end.

(** Parameter roles of a block, all on its [params]. *)
Definition has_param (params : list BlockParam) (name : string) : bool :=
  existsb (fun param => bool_decide (bp_name param = name)) params.
Definition ensure_param (params : list BlockParam) (name : string) (role : BlockParamRole) :
    list BlockParam :=
  if has_param params name then params else params ++ [mkBlockParam name role].

(** [iter_mut().find(..)] with the role assigned in place. *)
Fixpoint set_role (params : list BlockParam) (name : string) (role : BlockParamRole) :
    list BlockParam :=
  match params with
  | [] => []
  | param :: params' =>
      if bool_decide (bp_name param = name) then mkBlockParam name role :: params'
      else param :: set_role params' name role
  end.
Definition set_exception_param (params : list BlockParam) (name : string) : list BlockParam :=
  let params := List.filter (fun param =>
    negb (bool_decide (bp_role param = BPR_Exception)) || bool_decide (bp_name param = name))
    params in
  if has_param params name then set_role params name BPR_Exception
  else params ++ [mkBlockParam name BPR_Exception].
Definition exception_param (params : list BlockParam) : option string :=
  option_map bp_name (find_first (fun param => bool_decide (bp_role param = BPR_Exception)) params).
Definition handled_exception_params (params : list BlockParam) (extra : BlockContext) :
    list BlockParam :=
  let with_role role := List.filter (fun param => bool_decide (bp_role param = role)) in
  if bool_decide (bc_handled_exception extra = HE_Terminal) then []
  else with_role BPR_EnclosingException (rev params) ++ with_role BPR_Exception params.

Section blocks.
Context {I : Type}.

Record TermIf : Type := mkTermIf {
  ti_test : I; ti_then_label : BlockLabel; ti_else_label : BlockLabel }.
Record TermBranchTable : Type := mkTermBranchTable {
  tb_index : I; tb_targets : list BlockLabel; tb_default_label : BlockLabel }.
Record TermRaise : Type := mkTermRaise {
  tr_exc : option I; tr_disposition : RaiseDisposition }.

Inductive BlockTerm : Type :=
| BT_Jump (edge : BlockEdge)
| BT_If (if_term : TermIf)
| BT_BranchTable (branch : TermBranchTable)
| BT_Raise (raise : TermRaise)
| BT_Return (value : I)
| BT_GeneratorReturn (value : I).

Record Block : Type := mkBlock {
  blk_label : BlockLabel;
  blk_body : list I;
  blk_term : BlockTerm;
  blk_params : list BlockParam;
  blk_exc_edge : option BlockEdge;
  blk_extra : BlockContext
}.

Definition with_term (b : Block) (t : BlockTerm) : Block :=
  mkBlock (blk_label b) (blk_body b) t (blk_params b) (blk_exc_edge b) (blk_extra b).

(** [BlockTerm::replace_target]: the new term and whether anything was replaced. *)
Definition replace_target (t : BlockTerm) (from to : BlockLabel) : BlockTerm * bool :=
  let swap l := if bool_decide (l = from) then to else l in
  let hit l := bool_decide (l = from) in
  match t with
  | BT_Jump edge =>
      (BT_Jump (mkBlockEdge (swap (be_target edge)) (be_args edge)), hit (be_target edge))
  | BT_If i =>
      (BT_If (mkTermIf (ti_test i) (swap (ti_then_label i)) (swap (ti_else_label i))),
       hit (ti_then_label i) || hit (ti_else_label i))
  | BT_BranchTable b =>
      (BT_BranchTable (mkTermBranchTable (tb_index b) (map swap (tb_targets b))
                         (swap (tb_default_label b))),
       existsb hit (tb_targets b) || hit (tb_default_label b))
  | BT_Raise _ | BT_Return _ | BT_GeneratorReturn _ => (t, false)
  end.

Definition validate_exception_operand (raise : TermRaise) : bool :=
  negb (is_normalized (tr_disposition raise) && negb (is_some (tr_exc raise))).

(** ** cfg.rs *)

(** [iter().collect::<HashMap>()]: a later entry of a key replaces an earlier one. *)
Definition collect_map {V} (entries : list (BlockLabel * V)) : gmap BlockLabel V :=
  fold_left (fun m entry => <[entry.1 := entry.2]> m) entries ∅.

Definition blockpy_successors (block : Block) : list BlockLabel :=
  match blk_term block with
  | BT_Jump target => [be_target target]
  | BT_If if_term => [ti_then_label if_term; ti_else_label if_term]
  | BT_BranchTable branch => tb_targets branch ++ [tb_default_label branch]
  | BT_Raise _ | BT_Return _ | BT_GeneratorReturn _ => []
  end.

Definition is_trivial_return (block : Block) : bool :=
  bool_decide (length (blk_body block) = 0) && bool_decide (length (blk_params block) = 0)
  && negb (is_some (blk_exc_edge block))
  && match blk_term block with BT_Return _ => true | _ => false end.

Definition jump_target (block : Block) : option BlockLabel :=
  match blk_term block with
  | BT_Jump target =>
      if bool_decide (length (be_args target) = 0) && negb (is_some (blk_exc_edge block))
      then Some (be_target target) else None
  | _ => None
  end.

Definition fold_jump (terms : gmap BlockLabel BlockTerm) (block : Block) : Block :=
  match jump_target block with
  | Some target =>
      match terms !! target with Some term => with_term block term | None => block end
  | None => block
  end.

Definition fold_jumps_to_trivial_return_blockpy (blocks : list Block) : list Block :=
  let trivial_ret_none_terms :=
    collect_map (map (fun block => (blk_label block, blk_term block))
                   (List.filter is_trivial_return blocks)) in
  map (fold_jump trivial_ret_none_terms) blocks.

(** The worklist loop of [prune_unreachable_blockpy_blocks]; [worklist.pop()] takes
    the head of the list. *)
Fixpoint reachable_loop (fuel : nat) (index_by_label : gmap BlockLabel Block)
    (worklist : list BlockLabel) (reachable : gset BlockLabel) : option (gset BlockLabel) :=
  match worklist with
  | [] => Some reachable
  | label :: worklist =>
      match fuel with
      | O => None
      | S fuel =>
          if bool_decide (label ∈ reachable)
          then reachable_loop fuel index_by_label worklist reachable
          else
            let reachable := {[label]} ∪ reachable in
            match index_by_label !! label with
            | None => reachable_loop fuel index_by_label worklist reachable
            | Some block =>
                reachable_loop fuel index_by_label
                  (rev (blockpy_successors block) ++ worklist) reachable
            end
      end
  end.

Definition prune_fuel (roots : list BlockLabel) (blocks : list Block) : nat :=
  length roots + length (concat (map blockpy_successors blocks)).

Definition prune_unreachable_blockpy_blocks (entry_label : BlockLabel)
    (extra_roots : list BlockLabel) (blocks : list Block) : option (list Block) :=
  let index_by_label := collect_map (map (fun block => (blk_label block, block)) blocks) in
  let roots := entry_label :: extra_roots in
  reachable ← reachable_loop (prune_fuel roots blocks) index_by_label (rev roots) ∅;
  Some (List.filter (fun block => bool_decide (blk_label block ∈ reachable)) blocks).
End blocks.

Arguments TermIf : clear implicits.
Arguments TermBranchTable : clear implicits.
Arguments TermRaise : clear implicits.
Arguments BlockTerm : clear implicits.
Arguments Block : clear implicits.

(** The fields of [BlockPyFunction] the passes below read. *)
Record BlockPyFunction (I : Type) : Type := mkBlockPyFunction {
  bf_function_id : RuntimeFunctionId; bf_qualname : string; bf_kind : FunctionKind;
  bf_blocks : list (Block I) }.
Arguments mkBlockPyFunction {I} _ _ _ _.
Arguments bf_function_id {I} _.
Arguments bf_qualname {I} _.
Arguments bf_kind {I} _.
Arguments bf_blocks {I} _.

Inductive EdgeError : Type :=
| SuspensionNonYielding (qualname : string) (block : BlockLabel)
| SuspensionMissingTarget (qualname : string) (block target : BlockLabel)
| SuspensionNotWrapper (qualname : string) (block target : BlockLabel)
| NonDenseLabel (qualname : string) (label : BlockLabel) (index : nat)
| MissingExceptionOperand (qualname : string) (block : BlockLabel)
| UnexpectedGeneratorCompletion (qualname : string) (block : BlockLabel)
| UnknownTarget (kind : string) (qualname : string) (block target : BlockLabel)
| ExceptionArity (qualname : string) (block target : BlockLabel) (args params : nat)
| AbruptKindArg (kind : string) (qualname : string) (block : BlockLabel) (param : string)
| CurrentExceptionArg (kind : string) (qualname : string) (block target : BlockLabel) (param : string)
| TooManyArgs (kind : string) (qualname : string) (block target : BlockLabel) (args params : nat)
| ImplicitForwarding (kind : string) (qualname : string) (block target : BlockLabel)
    (param : string) (role : BlockParamRole) (source : string).

Section passes.
Context {I : Type}.
Implicit Types (b block : Block I) (function : BlockPyFunction I).

Definition is_return (t : BlockTerm I) : bool :=
  match t with BT_Return _ => true | _ => false end.
Definition is_jump (t : BlockTerm I) : bool :=
  match t with BT_Jump _ => true | _ => false end.

Definition validate_suspension_resume (blocks : gmap BlockLabel (Block I)) function block :
    result EdgeError unit :=
  let context := blk_extra block in
  match bc_suspension_resume context with
  | None => Ok tt
  | Some target_label =>
      do? ensure (negb (bool_decide (bf_kind function = FK_Function)
                        || negb (is_return (blk_term block))
                        || bool_decide (bc_handled_exception context = HE_Terminal)))
        (SuspensionNonYielding (bf_qualname function) (blk_label block));
      let? target := ok_or (SuspensionMissingTarget (bf_qualname function) (blk_label block)
                              target_label) (blocks !! target_label) in
      ensure (negb (negb (bool_decide (length (blk_params target) = 0))
                    || negb (is_jump (blk_term target))
                    || negb (bool_decide (bc_handled_exception (blk_extra target) = HE_Preserve))))
        (SuspensionNotWrapper (bf_qualname function) (blk_label block) target_label)
  end.

Definition validate_suspension_resumes function : result EdgeError unit :=
  let blocks := collect_map (map (fun block => (blk_label block, block)) (bf_blocks function)) in
  for_each (validate_suspension_resume blocks function) (bf_blocks function).

(** [HashMap::get(..).expect(..)] on every target of a term. *)
Definition relabel_targets (relabel : gmap BlockLabel BlockLabel) (t : BlockTerm I) :
    option (BlockTerm I) :=
  match t with
  | BT_Jump edge =>
      target ← relabel !! be_target edge;
      Some (BT_Jump (mkBlockEdge target (be_args edge)))
  | BT_If if_term =>
      then_label ← relabel !! ti_then_label if_term;
      else_label ← relabel !! ti_else_label if_term;
      Some (BT_If (mkTermIf (ti_test if_term) then_label else_label))
  | BT_BranchTable branch =>
      targets ← mapM (fun target => relabel !! target) (tb_targets branch);
      default_label ← relabel !! tb_default_label branch;
      Some (BT_BranchTable (mkTermBranchTable (tb_index branch) targets default_label))
  | BT_Raise _ | BT_Return _ | BT_GeneratorReturn _ => Some t
  end.

(** [if let Some(x) = x { .. expect(..) .. }]. *)
Definition relabel_option {A} (f : A -> option A) (o : option A) : option (option A) :=
  match o with Some a => Some <$> f a | None => Some None end.

Definition relabel_block (relabel : gmap BlockLabel BlockLabel) block : option (Block I) :=
  label ← relabel !! blk_label block;
  term ← relabel_targets relabel (blk_term block);
  resume ← relabel_option (fun target => relabel !! target)
             (bc_suspension_resume (blk_extra block));
  exc_edge ← relabel_option
    (fun edge => target ← relabel !! be_target edge; Some (mkBlockEdge target (be_args edge)))
    (blk_exc_edge block);
  Some (mkBlock label (blk_body block) term (blk_params block) exc_edge
          (mkBlockContext (bc_handled_exception (blk_extra block)) resume)).

Definition dense_labels (blocks : list (Block I)) : option (list (BlockLabel * BlockLabel)) :=
  mapM (fun entry => label ← label_from_index entry.1; Some (blk_label entry.2, label))
    (zip (seq 0 (length blocks)) blocks).

Definition relabel_blockpy_blocks_dense (blocks : list (Block I)) : option (list (Block I)) :=
  entries ← dense_labels blocks;
  mapM (relabel_block (collect_map entries)) blocks.

Definition relabel_dense_bb_module (callable_defs : list (BlockPyFunction I)) :
    option (list (BlockPyFunction I)) :=
  mapM (fun callable =>
    blocks ← relabel_blockpy_blocks_dense (bf_blocks callable);
    Some (mkBlockPyFunction (bf_function_id callable) (bf_qualname callable) (bf_kind callable)
            blocks)) callable_defs.

(** ** The end of the callable builder *)

Definition move_entry_block_to_front (blocks : list (Block I)) (entry_label : BlockLabel) :
    list (Block I) :=
  match list_find (fun block => blk_label block = entry_label) blocks with
  | Some (0, _) | None => blocks
  | Some (entry_index, entry_block) => entry_block :: delete entry_index blocks
  end.

Definition term_references_label (t : BlockTerm I) (label : BlockLabel) : bool :=
  match t with
  | BT_Jump target => bool_decide (be_target target = label)
  | BT_If if_term =>
      bool_decide (ti_then_label if_term = label) || bool_decide (ti_else_label if_term = label)
  | BT_BranchTable branch =>
      bool_decide (tb_default_label branch = label)
      || existsb (fun target => bool_decide (target = label)) (tb_targets branch)
  | BT_Raise _ | BT_Return _ | BT_GeneratorReturn _ => false
  end.
Definition block_references_label block (label : BlockLabel) : bool :=
  is_some_and (fun edge => bool_decide (be_target edge = label)) (blk_exc_edge block)
  || term_references_label (blk_term block) label.

(** [constant_none] is [InstrWithConstantNone::constant_none] of the instruction type. *)
Definition push_end_block (constant_none : I) (entry_label end_label : BlockLabel)
    (blocks : list (Block I)) : list (Block I) :=
  if bool_decide (entry_label = end_label)
     || existsb (fun block => block_references_label block end_label) blocks
  then blocks ++ [mkBlock end_label [] (BT_Return constant_none) [] None block_context_default]
  else blocks.

Definition exception_targets (blocks : list (Block I)) : list BlockLabel :=
  omap (fun block => option_map be_target (blk_exc_edge block)) blocks.

(** From [move_entry_block_to_front] to [prune_unreachable_blockpy_blocks]. *)
Definition finish_blocks (constant_none : I) (entry_label end_label : BlockLabel)
    (blocks : list (Block I)) : option (list (Block I)) :=
  let blocks := move_entry_block_to_front blocks entry_label in
  let blocks := push_end_block constant_none entry_label end_label blocks in
  let blocks := fold_jumps_to_trivial_return_blockpy blocks in
  prune_unreachable_blockpy_blocks entry_label (exception_targets blocks) blocks.
End passes.

(** ** validate.rs: labels and edges of a function *)

Section validate.
Context {I : Type}.
Implicit Types (block source_block target_block : Block I) (function : BlockPyFunction I).

Definition lookup_known_block function (label : BlockLabel) (block_label : BlockLabel)
    (label_kind : string) : result EdgeError (Block I) :=
  let unknown := UnknownTarget label_kind (bf_qualname function) block_label label in
  let? target_block := ok_or unknown (bf_blocks function !! Z.to_nat (bl_index label)) in
  if bool_decide (blk_label target_block = label) then Ok target_block else Err unknown.

Definition validate_explicit_edge_arg function source_block target_block
    (target_param : BlockParam) (source_arg : BlockArg) (label_kind : string) :
    result EdgeError unit :=
  match bp_role target_param, source_arg with
  | _, BA_Name _ | _, BA_None => Ok tt
  | BPR_Exception, BA_CurrentException => Ok tt
  | BPR_AbruptKind, BA_AbruptKind _ => Ok tt
  | _, BA_AbruptKind _ =>
      Err (AbruptKindArg label_kind (bf_qualname function) (blk_label source_block)
             (bp_name target_param))
  | _, BA_CurrentException =>
      Err (CurrentExceptionArg label_kind (bf_qualname function) (blk_label source_block)
             (blk_label target_block) (bp_name target_param))
  end.

(** One parameter of the target that no explicit argument covers. *)
Definition validate_implicit_param function source_block target_block (label_kind : string)
    (target_param : BlockParam) : result EdgeError unit :=
  if has_param (blk_params source_block) (bp_name target_param) then Ok tt
  else
    match find_first (fun source_param => bool_decide (bp_role source_param = bp_role target_param))
            (blk_params source_block) with
    | None => Ok tt
    | Some source_same_role =>
        ensure (bool_decide (bp_name source_same_role = bp_name target_param))
          (ImplicitForwarding label_kind (bf_qualname function) (blk_label source_block)
             (blk_label target_block) (bp_name target_param) (bp_role target_param)
             (bp_name source_same_role))
    end.

Definition validate_edge_param_forwarding function source_block target_block
    (explicit_args : list BlockArg) (label_kind : string) : result EdgeError unit :=
  let params := blk_params target_block in
  do? ensure (bool_decide (length explicit_args <= length params))
    (TooManyArgs label_kind (bf_qualname function) (blk_label source_block)
       (blk_label target_block) (length explicit_args) (length params));
  let explicit_start := length params - length explicit_args in
  do? for_each (validate_implicit_param function source_block target_block label_kind)
    (take explicit_start params);
  for_each (fun '(target_param, source_arg) =>
      validate_explicit_edge_arg function source_block target_block target_param source_arg
        label_kind)
    (zip (drop explicit_start params) explicit_args).

Definition validate_non_exception_edge function source_block (edge : BlockEdge)
    (label_kind : string) : result EdgeError unit :=
  let? target_block := lookup_known_block function (be_target edge) (blk_label source_block)
                         label_kind in
  validate_edge_param_forwarding function source_block target_block (be_args edge) label_kind.

Definition validate_exception_edge function block (exc_edge : BlockEdge) : result EdgeError unit :=
  let? target_block := lookup_known_block function (be_target exc_edge) (blk_label block)
                         "exception target" in
  do? ensure (bool_decide (length (be_args exc_edge) = length (blk_params target_block)))
    (ExceptionArity (bf_qualname function) (blk_label block) (blk_label target_block)
       (length (be_args exc_edge)) (length (blk_params target_block)));
  for_each (fun '(target_param, source) =>
      match source with
      | BA_AbruptKind _ =>
          Err (AbruptKindArg "exception dispatch" (bf_qualname function) (blk_label block)
                 (bp_name target_param))
      | _ => Ok tt
      end) (zip (blk_params target_block) (be_args exc_edge)).

Definition validate_term_edges function block : result EdgeError unit :=
  let edge kind target := validate_non_exception_edge function block (edge_new target) kind in
  match blk_term block with
  | BT_Jump target => validate_non_exception_edge function block target "jump target"
  | BT_If if_term =>
      do? edge "then target" (ti_then_label if_term);
      edge "else target" (ti_else_label if_term)
  | BT_BranchTable branch =>
      do? for_each (edge "br_table target") (tb_targets branch);
      edge "br_table default target" (tb_default_label branch)
  | BT_Raise _ | BT_Return _ | BT_GeneratorReturn _ => Ok tt
  end.

Definition validate_block function block : result EdgeError unit :=
  do? match blk_term block with
      | BT_Raise raise =>
          ensure (validate_exception_operand raise)
            (MissingExceptionOperand (bf_qualname function) (blk_label block))
      | _ => Ok tt
      end;
  do? ensure (negb (match blk_term block with BT_GeneratorReturn _ => true | _ => false end
                    && bool_decide (bf_kind function = FK_Function)))
    (UnexpectedGeneratorCompletion (bf_qualname function) (blk_label block));
  do? if_some (validate_exception_edge function block) (blk_exc_edge block);
  validate_term_edges function block.

(** [validate_function] after the check of the storage layout. *)
Definition validate_blocks function : result EdgeError unit :=
  do? for_each (fun '(index, block) =>
      ensure (bool_decide (bl_index (blk_label block) = Z.of_nat index))
        (NonDenseLabel (bf_qualname function) (blk_label block) index))
    (zip (seq 0 (length (bf_blocks function))) (bf_blocks function));
  for_each (validate_block function) (bf_blocks function).
End validate.
