(* ===== verification/CfgProps.v ===== *)
(** * Executions of BlockPy control-flow graphs

    A block-level machine, abstract in the instructions, and the theorems that
    jump folding, pruning and dense relabelling keep its executions, that relabelling
    panics exactly on dangling references, and that a validated function never leaves
    its blocks. *)

From stdpp Require Import gmap.
From S2P Require Import Prelude Ids Cfg.

(** ** The machine *)

Section machine.
Context {I St : Type}.
Implicit Types (b c : Block I) (blocks : list (Block I)).

(** What a block makes visible to its instructions: its parameters (which include
    the handled exceptions) and its handled-exception context. *)
Definition BlockScope : Type := list BlockParam * HandledExceptionContext.
Definition scope_of b : BlockScope := (blk_params b, bc_handled_exception (blk_extra b)).

(** The meaning of instructions and of argument passing.  A raised exception is part
    of the state; [true] and [None] say that the instruction raised. *)
Record Machine : Type := mkMachine {
  m_pass : list BlockParam -> list BlockParam -> list BlockArg -> St -> St;
  m_body : BlockScope -> list I -> St -> St * bool;
  m_test : BlockScope -> I -> St -> St * option bool;
  m_index : BlockScope -> I -> St -> St * option nat;
  m_raise : BlockScope -> TermRaise I -> St -> St;
  m_return : BlockScope -> I -> St -> St * bool;
  m_complete : BlockScope -> I -> St -> St * bool
}.

Class MachineLaws (m : Machine) : Prop := {
  pass_nothing : forall st, m_pass m [] [] [] st = st;
  body_nothing : forall scope st, m_body m scope [] st = (st, false)
}.

Inductive Exit : Type := Returned | Completed | Raised | Undefined.

Definition Next : Type := (BlockEdge * St) + (Exit * St).

Definition raise_from b (st : St) : Next :=
  match blk_exc_edge b with Some edge => inl (edge, st) | None => inr (Raised, st) end.

Definition leave (m : Machine) b (st : St) : Next :=
  match blk_term b with
  | BT_Jump edge => inl (edge, st)
  | BT_If i =>
      match m_test m (scope_of b) (ti_test i) st with
      | (st, Some taken) =>
          inl (edge_new (if taken then ti_then_label i else ti_else_label i), st)
      | (st, None) => raise_from b st
      end
  | BT_BranchTable t =>
      match m_index m (scope_of b) (tb_index t) st with
      | (st, Some n) => inl (edge_new (nth n (tb_targets t) (tb_default_label t)), st)
      | (st, None) => raise_from b st
      end
  | BT_Raise r => raise_from b (m_raise m (scope_of b) r st)
  | BT_Return v =>
      match m_return m (scope_of b) v st with
      | (st, false) => inr (Returned, st)
      | (st, true) => raise_from b st
      end
  | BT_GeneratorReturn v =>
      match m_complete m (scope_of b) v st with
      | (st, false) => inr (Completed, st)
      | (st, true) => raise_from b st
      end
  end.

Definition block_step (m : Machine) b (st : St) : Next :=
  match m_body m (scope_of b) (blk_body b) st with
  | (st, false) => leave m b st
  | (st, true) => raise_from b st
  end.

Definition find_block (label : BlockLabel) blocks : option (Block I) :=
  find_first (fun b => bool_decide (blk_label b = label)) blocks.

Fixpoint run (fuel : nat) (m : Machine) blocks (source : list BlockParam) (edge : BlockEdge)
    (st : St) : option (Exit * St) :=
  match fuel with
  | O => None
  | S fuel =>
      match find_block (be_target edge) blocks with
      | None => Some (Undefined, st)
      | Some b =>
          match block_step m b (m_pass m source (blk_params b) (be_args edge) st) with
          | inl (edge, st) => run fuel m blocks (blk_params b) edge st
          | inr exit => Some exit
          end
      end
  end.

Definition behaves (m : Machine) blocks (entry : BlockLabel) (st : St) (exit : Exit * St) : Prop :=
  exists fuel, run fuel m blocks [] (edge_new entry) st = Some exit.

Definition labels blocks : list BlockLabel := map blk_label blocks.

(** Every label a block mentions. *)
Definition targets b : list BlockLabel :=
  blockpy_successors b ++ option_list (option_map be_target (blk_exc_edge b)).
Definition references b : list BlockLabel :=
  targets b ++ option_list (bc_suspension_resume (blk_extra b)).

(** ** Lookup of blocks *)

Lemma find_block_some l blocks b : find_block l blocks = Some b -> b ∈ blocks /\ blk_label b = l.
Proof.
  unfold find_block. intros H. apply find_first_some in H as [Hb H]. cbn in H. by bool_inv.
Qed.

Lemma find_block_elem blocks b :
  NoDup (labels blocks) -> b ∈ blocks -> find_block (blk_label b) blocks = Some b.
Proof.
  unfold find_block, find_first. induction blocks as [|c blocks IH]; intros Hnd Hb; [set_solver|].
  cbn. unfold labels in Hnd. cbn in Hnd. apply NoDup_cons in Hnd as [Hc Hnd].
  apply elem_of_cons in Hb as [->|Hb]; [by rewrite bool_decide_eq_true_2|].
  rewrite bool_decide_eq_false_2; [by apply IH|]. intros E. apply Hc. rewrite E.
  by apply list_elem_of_In, in_map, list_elem_of_In.
Qed.

Lemma find_block_none l blocks : find_block l blocks = None <-> l ∉ labels blocks.
Proof.
  unfold find_block. rewrite find_first_none. unfold labels.
  setoid_rewrite bool_decide_eq_false. setoid_rewrite list_elem_of_In. rewrite in_map_iff.
  naive_solver.
Qed.

Lemma find_block_iff l blocks b :
  NoDup (labels blocks) -> find_block l blocks = Some b <-> b ∈ blocks /\ blk_label b = l.
Proof.
  intros Hnd. split; [apply find_block_some|]. intros [Hb <-]. by apply find_block_elem.
Qed.

Lemma find_block_map (f : Block I -> Block I) l blocks :
  (forall b, blk_label (f b) = blk_label b) ->
  find_block l (map f blocks) = f <$> find_block l blocks.
Proof.
  intros Hf. unfold find_block, find_first. induction blocks as [|c blocks IH]; cbn; [done|].
  rewrite Hf. by case_bool_decide.
Qed.

Lemma collect_map_app {V} (l k : list (BlockLabel * V)) :
  collect_map (l ++ k) = fold_left (fun m entry => <[entry.1 := entry.2]> m) k (collect_map l).
Proof. unfold collect_map. by rewrite fold_left_app. Qed.

Lemma collect_map_elem {V} (l : list (BlockLabel * V)) k v :
  collect_map l !! k = Some v -> (k, v) ∈ l.
Proof.
  induction l as [|[k' v'] l IH] using rev_ind; [done|].
  rewrite collect_map_app. cbn. intros [[-> ->]|[_ H]]%lookup_insert_Some; set_solver.
Qed.

Lemma collect_map_dom {V} (l : list (BlockLabel * V)) k :
  is_Some (collect_map l !! k) <-> k ∈ map fst l.
Proof.
  induction l as [|[k' v'] l IH] using rev_ind.
  { cbn. rewrite lookup_empty. split; [by intros []|set_solver]. }
  rewrite collect_map_app, map_app, elem_of_app. cbn.
  rewrite lookup_insert_is_Some', IH, list_elem_of_singleton. naive_solver.
Qed.

Lemma collect_map_unique {V} (l : list (BlockLabel * V)) k v :
  NoDup (map fst l) -> collect_map l !! k = Some v <-> (k, v) ∈ l.
Proof.
  intros Hnd. split; [apply collect_map_elem|]. intros Hkv.
  destruct (collect_map l !! k) as [w|] eqn:E.
  - apply collect_map_elem in E. f_equal.
    apply list_elem_of_lookup in Hkv as [i Hi]. apply list_elem_of_lookup in E as [j Hj].
    assert (i = j) as -> by (eapply NoDup_lookup; [exact Hnd|..];
      rewrite list_lookup_fmap; [by rewrite Hi|by rewrite Hj]).
    congruence.
  - assert (is_Some (collect_map l !! k)) as [? ?]; [|congruence].
    apply collect_map_dom. apply list_elem_of_In in Hkv. apply list_elem_of_In, in_map_iff.
    by exists (k, v).
Qed.
(** ** Jump folding *)

Lemma run_mono m blocks fuel : forall fuel' source edge st exit,
  run fuel m blocks source edge st = Some exit -> fuel <= fuel' ->
  run fuel' m blocks source edge st = Some exit.
Proof.
  induction fuel as [|fuel IH]; intros [|fuel'] source edge st exit H Hle; try done; [lia|].
  cbn in *. destruct (find_block _ _) as [b|]; [|done].
  destruct (block_step _ _ _) as [[edge' st']|]; [|done]. apply IH; [done|lia].
Qed.

(** A jump is folded only between blocks that show their instructions the same
    scope: the jumping block has no parameters, as the returning block, and both have
    the same handled-exception context. *)
Definition folds_in_scope blocks : Prop := forall b c,
  b ∈ blocks -> c ∈ blocks -> jump_target b = Some (blk_label c) -> is_trivial_return c = true ->
  scope_of b = scope_of c.

Lemma trivial_return_inv c : is_trivial_return c = true ->
  blk_body c = [] /\ blk_params c = [] /\ blk_exc_edge c = None /\
  exists v, blk_term c = BT_Return v.
Proof.
  unfold is_trivial_return. destruct c as [l body t ps [e|] x]; cbn; intros H; bool_inv; try done.
  destruct body, ps, t; naive_solver.
Qed.

Lemma jump_target_inv b l : jump_target b = Some l ->
  blk_term b = BT_Jump (edge_new l) /\ blk_exc_edge b = None.
Proof.
  unfold jump_target, edge_new. destruct b as [l' body [[t args]| | | | |] ps [e|] x]; cbn;
    try done; case_bool_decide; try done; destruct args; naive_solver.
Qed.

Definition trivial_terms blocks : gmap BlockLabel (BlockTerm I) :=
  collect_map (map (fun block => (blk_label block, blk_term block))
                 (List.filter is_trivial_return blocks)).

Lemma trivial_terms_some blocks l t : trivial_terms blocks !! l = Some t ->
  exists c, c ∈ blocks /\ is_trivial_return c = true /\ blk_label c = l /\ blk_term c = t.
Proof.
  intros H%collect_map_elem%list_elem_of_In%in_map_iff.
  destruct H as (c & [= <- <-] & [Hc Ht]%filter_In). exists c. by rewrite list_elem_of_In.
Qed.

Lemma fold_jump_label terms b : blk_label (fold_jump terms b) = blk_label b.
Proof. unfold fold_jump. repeat case_match; done. Qed.
Lemma fold_jump_params terms b : blk_params (fold_jump terms b) = blk_params b.
Proof. unfold fold_jump. repeat case_match; done. Qed.

(** A folded block steps as before, or it exits the way the block it jumped to would. *)
Lemma fold_jump_step m `{!MachineLaws m} blocks b st :
  NoDup (labels blocks) -> folds_in_scope blocks -> b ∈ blocks ->
  let b' := fold_jump (trivial_terms blocks) b in
  block_step m b' st = block_step m b st \/
  exists edge st' exit, block_step m b st = inl (edge, st') /\ block_step m b' st = inr exit /\
    forall fuel, run (S fuel) m blocks (blk_params b) edge st' = Some exit.
Proof.
  intros Hnd Hscope Hb. cbn zeta. unfold fold_jump.
  destruct (jump_target b) as [l|] eqn:Ej; [|by left].
  destruct (trivial_terms blocks !! l) as [t|] eqn:Et; [|by left].
  apply trivial_terms_some in Et as (c & Hc & Htriv & <- & <-).
  pose proof (Hscope b c Hb Hc Ej Htriv) as Es.
  apply jump_target_inv in Ej as [Ej Exc].
  apply trivial_return_inv in Htriv as (Ebody & Eps & Eexc & v & Ev).
  unfold block_step. replace (scope_of (with_term b (blk_term c))) with (scope_of b) by done.
  cbn [with_term blk_body].
  destruct (m_body m (scope_of b) (blk_body b) st) as [st' []].
  { left. unfold raise_from. by destruct b. }
  right. unfold leave at 1. rewrite Ej. do 2 eexists.
  unfold leave. cbn [with_term blk_term]. rewrite Ev.
  replace (scope_of (with_term b (BT_Return v))) with (scope_of b) by done.
  assert (blk_params b = []) as Epb by (unfold scope_of in Es; congruence).
  assert (forall fuel, run (S fuel) m blocks (blk_params b) (edge_new (blk_label c)) st'
    = match block_step m c st' with
      | inl (edge, st) => run fuel m blocks [] edge st
      | inr exit => Some exit end) as Hrun.
  { intros fuel. cbn [run be_target edge_new be_args]. rewrite find_block_elem by done.
    by rewrite Eps, Epb, pass_nothing. }
  unfold block_step in Hrun. rewrite Ebody, body_nothing in Hrun. unfold leave in Hrun.
  rewrite Ev, <- Es in Hrun.
  destruct (m_return m (scope_of b) v st') as [st'' []]; unfold raise_from in *; cbn in *.
  - rewrite Eexc in Hrun. rewrite Exc. eauto.
  - eauto.
Qed.

Lemma fold_run m `{!MachineLaws m} blocks fuel : NoDup (labels blocks) -> folds_in_scope blocks ->
  forall source edge st exit, run fuel m blocks source edge st = Some exit ->
  run fuel m (fold_jumps_to_trivial_return_blockpy blocks) source edge st = Some exit.
Proof.
  intros Hnd Hs. induction fuel as [|fuel IH]; intros source edge st exit H; [done|].
  unfold fold_jumps_to_trivial_return_blockpy in *. cbn [run] in *.
  rewrite find_block_map by (intros; apply fold_jump_label).
  destruct (find_block (be_target edge) blocks) as [b|] eqn:Ef; [|done]. cbn [fmap option_fmap option_map].
  apply find_block_some in Ef as [Hb _]. rewrite fold_jump_params.
  destruct (fold_jump_step m blocks b (m_pass m source (blk_params b) (be_args edge) st) Hnd Hs Hb)
    as [E|(edge' & st' & exit' & E & E' & Hr)]; fold (trivial_terms blocks).
  - rewrite E. destruct (block_step _ _ _) as [[edge' st']|]; [|done]. by apply IH.
  - rewrite E' . rewrite E in H. destruct fuel; [done|]. by rewrite Hr in H.
Qed.

Lemma fold_run_back m `{!MachineLaws m} blocks fuel :
  NoDup (labels blocks) -> folds_in_scope blocks -> forall source edge st exit,
  run fuel m (fold_jumps_to_trivial_return_blockpy blocks) source edge st = Some exit ->
  exists fuel', run fuel' m blocks source edge st = Some exit.
Proof.
  intros Hnd Hs. induction fuel as [|fuel IH]; intros source edge st exit H; [done|].
  unfold fold_jumps_to_trivial_return_blockpy in *. cbn [run] in H.
  rewrite find_block_map in H by (intros; apply fold_jump_label).
  destruct (find_block (be_target edge) blocks) as [b|] eqn:Ef; cbn [fmap option_fmap option_map] in H.
  2: { exists 1. cbn. by rewrite Ef. }
  pose proof (find_block_some _ _ _ Ef) as [Hb _]. rewrite fold_jump_params in H.
  fold (trivial_terms blocks) in H.
  destruct (fold_jump_step m blocks b (m_pass m source (blk_params b) (be_args edge) st) Hnd Hs Hb)
    as [E|(edge' & st' & exit' & E & E' & Hr)].
  - rewrite E in H. destruct (block_step _ _ _) as [[edge' st']|] eqn:Eb.
    + apply IH in H as [fuel' H]. exists (S fuel'). cbn. by rewrite Ef, Eb.
    + exists 1. cbn. by rewrite Ef, Eb.
  - rewrite E' in H. exists 2. cbn [run]. rewrite Ef, E. cbn [run] in Hr. rewrite <- H. apply (Hr 0).
Qed.
(** ** Pruning *)

Definition flows_to blocks (l l' : BlockLabel) : Prop :=
  exists b, b ∈ blocks /\ blk_label b = l /\ l' ∈ blockpy_successors b.

Definition index_flow (index : gmap BlockLabel (Block I)) (l l' : BlockLabel) : Prop :=
  exists b, index !! l = Some b /\ l' ∈ blockpy_successors b.

(** The successors that unvisited blocks may still push. *)
Definition unvisited blocks (reachable : gset BlockLabel) : nat :=
  length (concat (map blockpy_successors
    (List.filter (fun b => bool_decide (blk_label b ∉ reachable)) blocks))).

Lemma unvisited_le blocks l R : unvisited blocks ({[l]} ∪ R) <= unvisited blocks R.
Proof.
  unfold unvisited. induction blocks as [|c blocks IH]; cbn; [done|].
  repeat case_bool_decide; cbn; rewrite ?length_app; try lia. set_solver.
Qed.

Lemma unvisited_visit blocks b R : b ∈ blocks -> blk_label b ∉ R ->
  unvisited blocks ({[blk_label b]} ∪ R) + length (blockpy_successors b) <= unvisited blocks R.
Proof.
  intros Hb Hl. induction blocks as [|c blocks IH]; [set_solver|].
  pose proof (unvisited_le blocks (blk_label b) R) as Hle. unfold unvisited in *. cbn.
  apply elem_of_cons in Hb as [<-|Hb].
  - rewrite bool_decide_eq_false_2 by set_solver. rewrite bool_decide_eq_true_2 by done. cbn.
    rewrite length_app. lia.
  - specialize (IH Hb). repeat case_bool_decide; cbn; rewrite ?length_app; try lia. set_solver.
Qed.

Lemma reachable_loop_total blocks index fuel : forall worklist R,
  (forall l b, index !! l = Some b -> b ∈ blocks /\ blk_label b = l) ->
  length worklist + unvisited blocks R <= fuel ->
  is_Some (reachable_loop fuel index worklist R).
Proof.
  induction fuel as [|fuel IH]; intros [|l worklist] R Hi Hf; cbn in *;
    [by eexists|lia|by eexists|].
  case_bool_decide as Hl; [apply IH; [done|lia]|].
  destruct (index !! l) as [b|] eqn:Eb.
  - destruct (Hi _ _ Eb) as [Hb <-]. apply IH; [done|].
    rewrite length_app, length_rev. pose proof (unvisited_visit blocks b R Hb Hl). lia.
  - apply IH; [done|]. pose proof (unvisited_le blocks l R). lia.
Qed.

Lemma reachable_loop_spec index fuel : forall worklist R R',
  reachable_loop fuel index worklist R = Some R' ->
  R ⊆ R' /\ (forall l, l ∈ worklist -> l ∈ R') /\
  (forall l l', l ∈ R' -> l ∉ R -> index_flow index l l' -> l' ∈ R') /\
  (forall l, l ∈ R' -> l ∈ R \/ exists w, w ∈ worklist /\ rtc (index_flow index) w l).
Proof.
  induction fuel as [|fuel IH]; intros [|l worklist] R R' H; cbn in H; simplify_eq;
    try (split_and!; [done|set_solver|set_solver|intros; by left]).
  case_bool_decide as Hl.
  { destruct (IH _ _ _ H) as (Hsub & Hw & Hc & Hs). split_and!; try done.
    - intros x [->|Hx]%elem_of_cons; auto.
    - intros x Hx. destruct (Hs x Hx) as [?|(w & ? & ?)]; [by left|right]. exists w. set_solver. }
  destruct (index !! l) as [b|] eqn:Eb; destruct (IH _ _ _ H) as (Hsub & Hw & Hc & Hs).
  - split_and!; [set_solver| | |].
    + intros x [->|Hx]%elem_of_cons; set_solver.
    + intros x y Hx HxR Hf. destruct (decide (x = l)) as [->|]; [|apply (Hc x); set_solver].
      destruct Hf as (b' & Eb' & Hy). simplify_eq. apply Hw, elem_of_app. left.
      by apply elem_of_rev_iff.
    + intros x Hx. destruct (Hs x Hx) as [HxR|(w & Hw' & Hr)].
      * destruct (decide (x = l)) as [->|]; [right; exists l; split; [set_solver|done]|left; set_solver].
      * right. apply elem_of_app in Hw' as [Hw'|Hw']; [|exists w; set_solver].
        exists l. split; [set_solver|]. eapply rtc_l; [|exact Hr]. exists b. split; [done|].
        by apply elem_of_rev_iff.
  - split_and!; [set_solver| | |].
    + intros x [->|Hx]%elem_of_cons; set_solver.
    + intros x y Hx HxR Hf. destruct (decide (x = l)) as [->|]; [|apply (Hc x); set_solver].
      destruct Hf as (b' & Eb' & _). congruence.
    + intros x Hx. destruct (Hs x Hx) as [HxR|(w & ? & ?)].
      * destruct (decide (x = l)) as [->|]; [right; exists l; split; [set_solver|done]|left; set_solver].
      * right. exists w. set_solver.
Qed.

Lemma block_index_some blocks l b :
  collect_map (map (fun block => (blk_label block, block)) blocks) !! l = Some b ->
  b ∈ blocks /\ blk_label b = l.
Proof.
  intros H%collect_map_elem%list_elem_of_In%in_map_iff.
  destruct H as (c & [= <- <-] & Hc). by rewrite list_elem_of_In.
Qed.

Lemma index_flow_iff blocks l l' : NoDup (labels blocks) ->
  index_flow (collect_map (map (fun block => (blk_label block, block)) blocks)) l l' <->
  flows_to blocks l l'.
Proof.
  intros Hnd. unfold index_flow, flows_to. split.
  - intros (b & [Hb <-]%block_index_some & Hl). eauto.
  - intros (b & Hb & <- & Hl). exists b. split; [|done].
    apply collect_map_unique; [by rewrite map_map|].
    apply list_elem_of_In, in_map_iff. exists b. by rewrite <- list_elem_of_In.
Qed.
Lemma prune_spec entry roots blocks : NoDup (labels blocks) ->
  exists R : gset BlockLabel,
    prune_unreachable_blockpy_blocks entry roots blocks
      = Some (List.filter (fun b => bool_decide (blk_label b ∈ R)) blocks) /\
    (forall l, l ∈ R <-> exists r, r ∈ entry :: roots /\ rtc (flows_to blocks) r l).
Proof.
  intros Hnd. unfold prune_unreachable_blockpy_blocks.
  set (index := collect_map _).
  assert (Hi : forall l b, index !! l = Some b -> b ∈ blocks /\ blk_label b = l)
    by apply block_index_some.
  destruct (reachable_loop_total blocks index (prune_fuel (entry :: roots) blocks)
    (rev (entry :: roots)) ∅ Hi) as [R HR].
  { rewrite length_rev. unfold prune_fuel, unvisited. apply Nat.add_le_mono_l, Nat.eq_le_incl.
    f_equal. f_equal. f_equal. clear. induction blocks as [|b blocks IH]; cbn; [done|].
    rewrite bool_decide_eq_true_2 by set_solver. by rewrite IH. }
  rewrite HR. cbn. exists R. split; [done|].
  destruct (reachable_loop_spec _ _ _ _ _ HR) as (_ & Hw & Hc & Hs). intros l. split.
  - intros Hl. destruct (Hs l Hl) as [?|(w & Hw' & Hr)]; [set_solver|].
    exists w. split; [by apply elem_of_rev_iff|]. clear - Hr Hnd.
    induction Hr as [|x y z Hxy _ IH]; [done|]. eapply rtc_l; [|done]. by apply index_flow_iff.
  - intros (r & Hr & Hrtc). apply elem_of_rev_iff, Hw in Hr. clear - Hr Hrtc Hc Hnd.
    induction Hrtc as [|x y z Hxy _ IH]; [done|]. apply IH, (Hc x); [done|set_solver|].
    by apply index_flow_iff.
Qed.

Lemma find_block_filter (p : Block I -> bool) l blocks b :
  NoDup (labels blocks) -> find_block l blocks = Some b -> p b = true ->
  find_block l (List.filter p blocks) = Some b.
Proof.
  unfold find_block, find_first, labels.
  induction blocks as [|c blocks IH]; cbn; intros Hnd Hf Hp; [done|].
  apply NoDup_cons in Hnd as [Hc Hnd]. case_bool_decide as El.
  - simplify_eq. rewrite Hp. cbn. by rewrite bool_decide_eq_true_2.
  - destruct (p c); cbn; [rewrite bool_decide_eq_false_2 by done|]; by apply IH.
Qed.

Lemma block_step_target m b st edge st' :
  block_step m b st = inl (edge, st') -> be_target edge ∈ targets b.
Proof.
  unfold block_step, leave, raise_from, targets, blockpy_successors. intros H.
  assert (forall n (ts : list BlockLabel) d, nth n ts d ∈ ts ++ [d]) as Hnth.
  { intros n ts d. apply elem_of_app. destruct (nth_in_or_default n ts d) as [?| ->];
      [left; by apply list_elem_of_In|right; set_solver]. }
  repeat case_match; simplify_eq; cbn; try set_solver.
  all: rewrite ?elem_of_app; left; rewrite <- elem_of_app; apply Hnth.
Qed.

(** Execution of a part of the blocks that is closed under control flow. *)
Lemma run_closed m blocks (p : Block I -> bool) fuel :
  NoDup (labels blocks) ->
  (forall b l c, b ∈ blocks -> p b = true -> l ∈ targets b -> find_block l blocks = Some c ->
    p c = true) ->
  forall source edge st,
  (forall c, find_block (be_target edge) blocks = Some c -> p c = true) ->
  run fuel m (List.filter p blocks) source edge st = run fuel m blocks source edge st.
Proof.
  intros Hnd Hclosed. induction fuel as [|fuel IH]; intros source edge st Hedge; [done|]. cbn.
  destruct (find_block (be_target edge) blocks) as [b|] eqn:Ef.
  - rewrite (find_block_filter _ _ _ b) by auto.
    destruct (block_step _ _ _) as [[edge' st']|] eqn:Es; [|done].
    apply IH. intros c. apply (Hclosed b); [by apply find_block_some in Ef as [? _]|auto|].
    by eapply block_step_target.
  - replace (find_block (be_target edge) (List.filter p blocks)) with (@None (Block I)); [done|].
    symmetry. apply find_block_none. apply find_block_none in Ef. intros H. apply Ef.
    unfold labels in *. rewrite list_elem_of_In, in_map_iff in *.
    destruct H as (c & <- & [Hc _]%filter_In). eauto.
Qed.

Lemma exception_targets_elem blocks b edge :
  b ∈ blocks -> blk_exc_edge b = Some edge -> be_target edge ∈ exception_targets blocks.
Proof.
  intros Hb He. unfold exception_targets. apply list_elem_of_omap. exists b. by rewrite He.
Qed.

Lemma prune_run m entry blocks blocks' fuel source args st : NoDup (labels blocks) ->
  prune_unreachable_blockpy_blocks entry (exception_targets blocks) blocks = Some blocks' ->
  run fuel m blocks' source (mkBlockEdge entry args) st
  = run fuel m blocks source (mkBlockEdge entry args) st.
Proof.
  intros Hnd H. destruct (prune_spec entry (exception_targets blocks) blocks Hnd) as (R & E & HR).
  rewrite H in E. injection E as ->.
  assert (forall l b, l ∈ R -> find_block l blocks = Some b -> bool_decide (blk_label b ∈ R) = true)
    as Hin by (intros l b Hl [_ <-]%find_block_some; by apply bool_decide_eq_true_2).
  apply run_closed; [done| |].
  - intros b l c Hb HbR Hl. apply Hin. bool_inv. unfold targets in Hl.
    apply elem_of_app in Hl as [Hl|Hl].
    + apply HR in HbR as (r & Hr & Hrtc). apply HR. exists r. split; [done|].
      eapply rtc_r; [done|]. by exists b.
    + apply HR. exists l. split; [|done]. apply elem_of_cons. right.
      destruct (blk_exc_edge b) as [e|] eqn:Ee; cbn in Hl; [|set_solver].
      apply list_elem_of_singleton in Hl as ->. by eapply exception_targets_elem.
  - intros c. apply Hin, HR. exists entry. split; [set_solver|done].
Qed.
(** ** The end of the callable builder *)

Lemma run_perm m blocks blocks' fuel : NoDup (labels blocks) -> blocks ≡ₚ blocks' ->
  forall source edge st, run fuel m blocks' source edge st = run fuel m blocks source edge st.
Proof.
  intros Hnd Hp. assert (NoDup (labels blocks')) as Hnd'.
  { unfold labels in *. by rewrite <- Hp. }
  assert (forall l, find_block l blocks' = find_block l blocks) as Hf.
  { intros l. apply option_eq. intros b. rewrite !find_block_iff by done. by rewrite Hp. }
  induction fuel as [|fuel IH]; intros source edge st; cbn; [done|]. rewrite Hf.
  destruct (find_block _ _); [|done]. by destruct (block_step _ _ _) as [[]|].
Qed.

Lemma move_entry_perm blocks entry : move_entry_block_to_front blocks entry ≡ₚ blocks.
Proof.
  unfold move_entry_block_to_front.
  destruct (list_find _ blocks) as [[[|i] b]|] eqn:E; try done.
  apply list_find_Some in E as (Hi & _). symmetry. by apply delete_Permutation.
Qed.

Lemma existsb_perm {A} (p : A -> bool) l l' : l ≡ₚ l' -> existsb p l = existsb p l'.
Proof. induction 1; cbn; try congruence. destruct (p x), (p y); done. Qed.

Lemma push_end_perm none entry end_label blocks blocks' : blocks ≡ₚ blocks' ->
  push_end_block none entry end_label blocks ≡ₚ push_end_block none entry end_label blocks'.
Proof.
  intros Hp. unfold push_end_block. rewrite (existsb_perm _ _ _ Hp).
  destruct (_ || _); [by rewrite Hp|done].
Qed.

Lemma push_end_labels none entry end_label blocks :
  NoDup (labels blocks) -> end_label ∉ labels blocks ->
  NoDup (labels (push_end_block none entry end_label blocks)).
Proof.
  intros Hnd He. unfold push_end_block. destruct (_ || _); [|done].
  unfold labels in *. rewrite map_app. cbn. apply NoDup_app. split_and!; [done|set_solver|].
  apply NoDup_singleton.
Qed.

Lemma fold_jumps_labels blocks :
  labels (fold_jumps_to_trivial_return_blockpy blocks) = labels blocks.
Proof.
  unfold labels, fold_jumps_to_trivial_return_blockpy. rewrite map_map.
  apply map_ext. intros. apply fold_jump_label.
Qed.

Lemma folds_in_scope_perm blocks blocks' : blocks ≡ₚ blocks' ->
  folds_in_scope blocks -> folds_in_scope blocks'.
Proof. intros Hp H b c. rewrite <- Hp. apply H. Qed.
End machine.

Section builder.
Context {I St : Type} (m : @Machine I St) `{!MachineLaws m}.

(** C3: the end of the callable builder keeps every execution: moving the entry block,
    folding jumps to trivial returns and pruning unreachable blocks give a graph that,
    from the entry, ends in the same way and state exactly when the lowered blocks (with
    their end block) do.  Labels must be distinct, and blocks not folded across
    handled-exception scopes. *)
Theorem finish_blocks_preserves (none : I) entry end_label blocks :
  NoDup (labels blocks) -> end_label ∉ labels blocks ->
  folds_in_scope (push_end_block none entry end_label blocks) ->
  exists blocks', finish_blocks none entry end_label blocks = Some blocks' /\
    forall st exit, behaves m blocks' entry st exit <->
      behaves m (push_end_block none entry end_label blocks) entry st exit.
Proof.
  intros Hnd He Hs. unfold finish_blocks.
  pose proof (move_entry_perm blocks entry) as Hmove.
  pose proof (push_end_perm none entry end_label _ _ Hmove) as Hp. symmetry in Hp.
  set (full := push_end_block none entry end_label (move_entry_block_to_front blocks entry)) in *.
  pose proof (push_end_labels none entry end_label blocks Hnd He) as Hnd1.
  assert (NoDup (labels full)) as Hnd2 by (unfold labels in *; by rewrite <- Hp).
  pose proof (folds_in_scope_perm _ _ Hp Hs) as Hs2.
  assert (NoDup (labels (fold_jumps_to_trivial_return_blockpy full))) as Hnd3
    by (by rewrite fold_jumps_labels).
  destruct (prune_spec entry (exception_targets (fold_jumps_to_trivial_return_blockpy full)) _ Hnd3)
    as (R & E & _). rewrite E. eexists. split; [done|]. intros st exit. unfold behaves, edge_new.
  setoid_rewrite (prune_run m _ _ _ _ _ _ _ Hnd3 E).
  setoid_rewrite <- (run_perm m _ _ _ Hnd1 Hp). split.
  - intros [fuel H]. by eapply fold_run_back.
  - intros [fuel H]. exists fuel. by apply fold_run.
Qed.
End builder.

(** pruning keeps exactly the blocks that control flow reaches from the entry or an
    extra root, in their order, and its worklist loop always ends. *)
Theorem prune_unreachable_exact {I} entry roots (blocks : list (Block I)) :
  NoDup (labels blocks) ->
  exists blocks', prune_unreachable_blockpy_blocks entry roots blocks = Some blocks' /\
    sublist blocks' blocks /\
    forall b, b ∈ blocks' <-> b ∈ blocks /\
      exists root, root ∈ entry :: roots /\ rtc (flows_to blocks) root (blk_label b).
Proof.
  intros Hnd. destruct (prune_spec entry roots blocks Hnd) as (R & E & HR).
  eexists. split; [exact E|]. split.
  - clear. induction blocks as [|b blocks IH]; cbn; [done|].
    case_bool_decide; by constructor.
  - intros b. rewrite list_elem_of_In, filter_In, <- list_elem_of_In, bool_decide_eq_true.
    by rewrite HR.
Qed.

(** ** Dense relabelling *)

Section relabel.
Context {I : Type}.
Implicit Types (b : Block I) (blocks : list (Block I)) (sigma : gmap BlockLabel BlockLabel).

Definition dense_label (i : nat) : BlockLabel := mkBlockLabel (Z.of_nat i).

Fixpoint dense_from (k : nat) blocks : list (BlockLabel * BlockLabel) :=
  match blocks with
  | [] => []
  | b :: blocks => (blk_label b, dense_label k) :: dense_from (S k) blocks
  end.

Lemma dense_labels_from k blocks : (blocks <> [] -> (Z.of_nat (k + length blocks) <= 2 ^ 32)%Z) ->
  mapM (fun entry => label ← label_from_index entry.1; Some (blk_label entry.2, label))
    (zip (seq k (length blocks)) blocks) = Some (dense_from k blocks).
Proof.
  revert k. induction blocks as [|b blocks IH]; intros k Hk; cbn; [done|].
  unfold label_from_index. specialize (Hk ltac:(done)). cbn [length] in Hk.
  rewrite bool_decide_eq_true_2 by (unfold u32_max; lia). cbn.
  rewrite IH by (intros; lia). done.
Qed.

Lemma dense_labels_bound k blocks e :
  mapM (fun entry => label ← label_from_index entry.1; Some (blk_label entry.2, label))
    (zip (seq k (length blocks)) blocks) = Some e ->
  blocks <> [] -> (Z.of_nat (k + length blocks) <= 2 ^ 32)%Z.
Proof.
  revert k e. induction blocks as [|b blocks IH]; intros k e H Hne; [done|].
  cbn in H. unfold label_from_index in H. case_bool_decide as Hk; cbn in H; [|done].
  apply bind_Some in H as (e' & H & _). cbn [length].
  destruct blocks as [|b' blocks]; [cbn; unfold u32_max in Hk; lia|].
  specialize (IH _ _ H ltac:(done)). cbn [length] in *. lia.
Qed.

Lemma dense_labels_some blocks : (Z.of_nat (length blocks) <= 2 ^ 32)%Z ->
  dense_labels blocks = Some (dense_from 0 blocks).
Proof. intros H. by apply dense_labels_from. Qed.

Lemma dense_from_fst k blocks : map fst (dense_from k blocks) = labels blocks.
Proof. revert k. induction blocks as [|b blocks IH]; intros k; cbn; [done|]. by rewrite IH. Qed.

Lemma elem_of_dense_from k blocks l l' :
  (l, l') ∈ dense_from k blocks <->
  exists i b, blocks !! i = Some b /\ blk_label b = l /\ l' = dense_label (k + i).
Proof.
  revert k. induction blocks as [|b blocks IH]; intros k; cbn; [set_solver|].
  rewrite elem_of_cons, IH. split.
  - intros [[= -> ->]|(i & c & Hi & Hl & ->)].
    + exists 0, b. by rewrite Nat.add_0_r.
    + exists (S i), c. by rewrite Nat.add_succ_r.
  - intros ([|i] & c & Hi & Hl & ->); cbn in Hi.
    + left. simplify_eq. by rewrite Nat.add_0_r.
    + right. exists i, c. by rewrite Nat.add_succ_r.
Qed.

Lemma sigma_dom blocks l :
  is_Some (collect_map (dense_from 0 blocks) !! l) <-> l ∈ labels blocks.
Proof. by rewrite collect_map_dom, dense_from_fst. Qed.

Lemma sigma_some blocks l l' : NoDup (labels blocks) ->
  collect_map (dense_from 0 blocks) !! l = Some l' <->
  exists i b, blocks !! i = Some b /\ blk_label b = l /\ l' = dense_label i.
Proof.
  intros Hnd. rewrite collect_map_unique by (by rewrite dense_from_fst).
  by rewrite elem_of_dense_from.
Qed.

Lemma relabel_option_some {A} (f : A -> option A) o :
  is_Some (relabel_option f o) <-> forall a, o = Some a -> is_Some (f a).
Proof.
  destruct o as [a|]; cbn; [|naive_solver]. rewrite fmap_is_Some. naive_solver.
Qed.

Lemma relabel_targets_some sigma b :
  is_Some (relabel_targets sigma (blk_term b)) <->
  forall l, l ∈ blockpy_successors b -> is_Some (sigma !! l).
Proof.
  unfold relabel_targets, blockpy_successors.
  destruct (blk_term b) as [e|i|br| | |]; try (split; [set_solver|by eexists]).
  - setoid_rewrite list_elem_of_singleton. unfold is_Some. setoid_rewrite bind_Some. naive_solver.
  - assert (forall l, l ∈ [ti_then_label i; ti_else_label i] <->
      l = ti_then_label i \/ l = ti_else_label i) as E by set_solver. setoid_rewrite E. clear E. split.
    + intros (t & (l1 & H1 & (l2 & H2 & _)%bind_Some)%bind_Some) l [-> | ->]; by eexists.
    + intros H. destruct (H (ti_then_label i)) as [l1 H1]; [by left|].
      destruct (H (ti_else_label i)) as [l2 H2]; [by right|]. rewrite H1. cbn. rewrite H2.
      by eexists.
  - setoid_rewrite elem_of_app. setoid_rewrite list_elem_of_singleton. split.
    + intros (t & (ts & Hts & (d & Hd & _)%bind_Some)%bind_Some) l [Hl| ->]; [|by eexists].
      apply mapM_Some in Hts. apply list_elem_of_lookup in Hl as [i Hi].
      destruct (Forall2_lookup_l _ _ _ _ _ Hts Hi) as (l' & _ & ?). by eexists.
    + intros H. destruct (H (tb_default_label br)) as [d Hd]; [by right|].
      assert (is_Some (mapM (fun target => sigma !! target) (tb_targets br))) as [ts Hts].
      { apply mapM_is_Some, Forall_forall. intros l Hl. apply H. by left. }
      rewrite Hts. cbn. rewrite Hd. by eexists.
Qed.

Lemma relabel_edge_some sigma e :
  is_Some (target ← sigma !! be_target e; Some (mkBlockEdge target (be_args e))) <->
  is_Some (sigma !! be_target e).
Proof.
  destruct (sigma !! be_target e); cbn; split; intros [? H]; first [discriminate H|by eexists].
Qed.

Lemma relabel_block_parts sigma b :
  is_Some (relabel_block sigma b) <->
  is_Some (sigma !! blk_label b) /\ is_Some (relabel_targets sigma (blk_term b)) /\
  is_Some (relabel_option (fun target => sigma !! target) (bc_suspension_resume (blk_extra b))) /\
  is_Some (relabel_option (fun edge => target ← sigma !! be_target edge;
     Some (mkBlockEdge target (be_args edge))) (blk_exc_edge b)).
Proof.
  unfold relabel_block. split.
  - intros (b' & (l & -> & (t & -> & (r & -> & (x & -> & _)%bind_Some)%bind_Some)
      %bind_Some)%bind_Some). split_and!; by eexists.
  - intros ([l ->] & [t ->] & [r ->] & [x ->]). by eexists.
Qed.

Lemma relabel_block_some sigma b :
  is_Some (relabel_block sigma b) <->
  is_Some (sigma !! blk_label b) /\ forall l, l ∈ references b -> is_Some (sigma !! l).
Proof.
  rewrite relabel_block_parts, relabel_targets_some, !relabel_option_some.
  setoid_rewrite relabel_edge_some. unfold references, targets.
  setoid_rewrite elem_of_app. setoid_rewrite elem_of_app. split.
  - intros (Hl & Ht & Hr & Hx). split; [done|]. intros l [[H|H]|H]; [auto| |].
    + destruct (blk_exc_edge b); cbn in H; set_solver.
    + destruct (bc_suspension_resume _); cbn in H; set_solver.
  - intros (Hl & H). split_and!; [done|auto| |].
    + intros l E. apply H. right. rewrite E. set_solver.
    + intros e E. apply H. left. right. rewrite E. set_solver.
Qed.

(** dense relabelling panics exactly when there are more than 2^32 blocks or some
    block mentions a label (as a jump, exception or suspension target) that no block has. *)
Theorem relabel_dense_total_iff blocks :
  is_Some (relabel_blockpy_blocks_dense blocks) <->
  (Z.of_nat (length blocks) <= 2 ^ 32)%Z /\
  forall b l, b ∈ blocks -> l ∈ references b -> l ∈ labels blocks.
Proof.
  unfold relabel_blockpy_blocks_dense, dense_labels. split.
  - intros (blocks' & (e & He & Hm)%bind_Some).
    assert (Z.of_nat (length blocks) <= 2 ^ 32)%Z as Hlen.
    { destruct blocks as [|b blocks]; [done|]. by apply (dense_labels_bound 0 _ _ He). }
    split; [done|]. intros b l Hb Hl. pose proof (dense_labels_some blocks Hlen) as He'.
    unfold dense_labels in He'. simplify_eq. apply sigma_dom.
    apply mapM_Some in Hm. apply list_elem_of_lookup in Hb as [i Hi].
    destruct (Forall2_lookup_l _ _ _ _ _ Hm Hi) as (b' & _ & Hb').
    assert (is_Some (relabel_block (collect_map (dense_from 0 blocks)) b)) as H by (by eexists).
    apply relabel_block_some in H as [_ H]. auto.
  - intros [Hlen Href]. pose proof (dense_labels_some blocks Hlen) as He.
    unfold dense_labels in He. rewrite He. cbn. apply mapM_is_Some, Forall_forall.
    intros b Hb. apply relabel_block_some. split.
    + apply sigma_dom. by apply list_elem_of_In, in_map, list_elem_of_In.
    + intros l Hl. apply sigma_dom. eauto.
Qed.
(** What [relabel_block] returns, field by field. *)
Lemma relabel_block_inv sigma b b' : relabel_block sigma b = Some b' ->
  sigma !! blk_label b = Some (blk_label b') /\ blk_body b' = blk_body b /\
  blk_params b' = blk_params b /\ scope_of b' = scope_of b /\
  relabel_targets sigma (blk_term b) = Some (blk_term b') /\
  relabel_option (fun edge => target ← sigma !! be_target edge;
     Some (mkBlockEdge target (be_args edge))) (blk_exc_edge b) = Some (blk_exc_edge b') /\
  relabel_option (fun target => sigma !! target) (bc_suspension_resume (blk_extra b))
    = Some (bc_suspension_resume (blk_extra b')).
Proof.
  unfold relabel_block. intros (l & Hl & (t & Ht & (r & Hr & (x & Hx & H)%bind_Some)%bind_Some)
    %bind_Some)%bind_Some. by simplify_eq.
Qed.

Definition relabelled {St} sigma (next next' : @Next St) : Prop :=
  match next with
  | inl (edge, st) => exists l, sigma !! be_target edge = Some l /\
      next' = inl (mkBlockEdge l (be_args edge), st)
  | inr exit => next' = inr exit
  end.

Lemma relabel_nth sigma n : forall ts ts' d d',
  mapM (fun target => sigma !! target) ts = Some ts' -> sigma !! d = Some d' ->
  sigma !! nth n ts d = Some (nth n ts' d').
Proof.
  induction n as [|n IH]; intros [|x ts] ts' d d' Hts Hd; cbn in Hts;
    try (injection Hts as <-; done);
    apply bind_Some in Hts as (x' & Hx & (ts'' & Hts & [= <-])%bind_Some); cbn; auto.
Qed.

Lemma relabel_raise {St} sigma b b' (st : St) : relabel_block sigma b = Some b' ->
  relabelled sigma (raise_from b st) (raise_from b' st).
Proof.
  intros (_ & _ & _ & _ & _ & Hx & _)%relabel_block_inv. unfold raise_from.
  destruct (blk_exc_edge b) as [e|]; cbn in Hx; [|by simplify_eq; rewrite <- Hx].
  apply fmap_Some in Hx as (e' & He & ->). apply bind_Some in He as (l & Hl & [= <-]).
  by exists l.
Qed.

Lemma relabel_step {St} (m : @Machine I St) sigma b b' st : relabel_block sigma b = Some b' ->
  relabelled sigma (block_step m b st) (block_step m b' st).
Proof.
  intros H. pose proof (fun st : St => relabel_raise sigma b b' st H) as Hraise.
  apply relabel_block_inv in H as (_ & Eb & _ & Es & Ht & _ & _).
  unfold block_step. rewrite Eb, Es. destruct (m_body m _ _ st) as [st' []]; [apply Hraise|].
  unfold leave. rewrite Es. destruct (blk_term b) as [e|i|t| | |]; cbn in Ht.
  - apply bind_Some in Ht as (l & Hl & [= <-]). by exists l.
  - apply bind_Some in Ht as (l1 & H1 & (l2 & H2 & [= <-])%bind_Some). cbn.
    destruct (m_test m _ _ st') as [st'' [[]|]]; [by exists l1|by exists l2|apply Hraise].
  - apply bind_Some in Ht as (ts & Hts & (d & Hd & [= <-])%bind_Some). cbn.
    destruct (m_index m _ _ st') as [st'' [n|]]; [|apply Hraise].
    exists (nth n ts d). split; [|done]. by apply relabel_nth.
  - simplify_eq. rewrite <- Ht. apply Hraise.
  - simplify_eq. rewrite <- Ht. destruct (m_return m _ _ st') as [st'' []]; [apply Hraise|done].
  - simplify_eq. rewrite <- Ht. destruct (m_complete m _ _ st') as [st'' []]; [apply Hraise|done].
Qed.

(** The relabelled blocks, position by position. *)
Lemma relabel_dense_blocks blocks blocks' : relabel_blockpy_blocks_dense blocks = Some blocks' ->
  Forall2 (fun b b' => relabel_block (collect_map (dense_from 0 blocks)) b = Some b') blocks blocks'.
Proof.
  intros H. assert (Z.of_nat (length blocks) <= 2 ^ 32)%Z as Hlen.
  { unfold relabel_blockpy_blocks_dense, dense_labels in H. apply bind_Some in H as (e & He & _).
    destruct blocks as [|b blocks]; [done|]. by apply (dense_labels_bound 0 _ _ He). }
  unfold relabel_blockpy_blocks_dense in H. rewrite dense_labels_some in H by done.
  cbn in H. by apply mapM_Some in H.
Qed.

Lemma relabel_dense_lookup blocks blocks' i b : NoDup (labels blocks) ->
  relabel_blockpy_blocks_dense blocks = Some blocks' -> blocks !! i = Some b ->
  exists b', blocks' !! i = Some b' /\ blk_label b' = dense_label i /\
    relabel_block (collect_map (dense_from 0 blocks)) b = Some b'.
Proof.
  intros Hnd H%relabel_dense_blocks Hi.
  destruct (Forall2_lookup_l _ _ _ _ _ H Hi) as (b' & Hi' & Hb). exists b'. split_and!; try done.
  apply relabel_block_inv in Hb as (Hl & _). apply sigma_some in Hl as (j & c & Hj & Hc & ->); [|done].
  f_equal. f_equal. eapply NoDup_lookup; [exact Hnd|..]; unfold labels;
    rewrite list_lookup_fmap; [rewrite Hj; cbn; by rewrite Hc|by rewrite Hi].
Qed.

Lemma relabel_dense_labels blocks blocks' : NoDup (labels blocks) ->
  relabel_blockpy_blocks_dense blocks = Some blocks' ->
  labels blocks' = map dense_label (seq 0 (length blocks)).
Proof.
  intros Hnd H. apply list_eq. intros i. unfold labels. rewrite !list_lookup_fmap.
  pose proof (Forall2_length _ _ _ (relabel_dense_blocks _ _ H)) as Hlen.
  destruct (decide (i < length blocks)) as [Hi|Hi].
  - destruct (lookup_lt_is_Some_2 _ _ Hi) as [b Hb].
    destruct (relabel_dense_lookup _ _ _ _ Hnd H Hb) as (b' & -> & El & _).
    rewrite lookup_seq_lt by done. cbn. by rewrite El.
  - rewrite !lookup_ge_None_2; [done|rewrite length_seq; lia|lia].
Qed.

Lemma relabel_run {St} (m : @Machine I St) blocks blocks' fuel : NoDup (labels blocks) ->
  relabel_blockpy_blocks_dense blocks = Some blocks' -> forall source edge l' st,
  collect_map (dense_from 0 blocks) !! be_target edge = Some l' ->
  run fuel m blocks' source (mkBlockEdge l' (be_args edge)) st = run fuel m blocks source edge st.
Proof.
  intros Hnd H. induction fuel as [|fuel IH]; intros source edge l' st Hl; [done|]. cbn.
  apply sigma_some in Hl as (i & b & Hi & Hb & ->); [|done].
  destruct (relabel_dense_lookup _ _ _ _ Hnd H Hi) as (b' & Hi' & El & Hr).
  assert (NoDup (labels blocks')) as Hnd'.
  { rewrite (relabel_dense_labels _ _ Hnd H). apply NoDup_fmap; [|apply NoDup_seq].
    intros x y [= E]. lia. }
  assert (find_block (dense_label i) blocks' = Some b') as ->
    by (apply find_block_iff; [done|]; split; [by eapply list_elem_of_lookup_2|done]).
  assert (find_block (be_target edge) blocks = Some b) as ->
    by (apply find_block_iff; [done|]; split; [by eapply list_elem_of_lookup_2|done]).
  pose proof (relabel_step m _ _ _ (m_pass m source (blk_params b) (be_args edge) st) Hr) as Hs.
  apply relabel_block_inv in Hr as (_ & _ & -> & _).
  destruct (block_step m b _) as [[edge' st']|exit]; cbn in Hs.
  - destruct Hs as (l & Hl & ->). by apply IH.
  - by rewrite Hs.
Qed.

Lemma relabel_references sigma b b' l : relabel_block sigma b = Some b' -> l ∈ references b' ->
  exists l0, sigma !! l0 = Some l.
Proof.
  intros (_ & _ & _ & _ & Ht & Hx & Hr)%relabel_block_inv.
  unfold references, targets, blockpy_successors. rewrite !elem_of_app. intros [[H|H]|H].
  - destruct (blk_term b) as [e|i|t| | |]; cbn in Ht.
    + apply bind_Some in Ht as (k & Hk & [= E]). rewrite <- E in H. set_solver.
    + apply bind_Some in Ht as (l1 & H1 & (l2 & H2 & [= E])%bind_Some). rewrite <- E in H. set_solver.
    + apply bind_Some in Ht as (ts & Hts & (d & Hd & [= E])%bind_Some). rewrite <- E in H.
      cbn in H. apply elem_of_app in H as [H|H]; [|set_solver].
      apply mapM_Some in Hts. apply list_elem_of_lookup in H as [j Hj].
      destruct (Forall2_lookup_r _ _ _ _ _ Hts Hj) as (l0 & _ & ?). by exists l0.
    + simplify_eq. rewrite <- Ht in H. set_solver.
    + simplify_eq. rewrite <- Ht in H. set_solver.
    + simplify_eq. rewrite <- Ht in H. set_solver.
  - destruct (blk_exc_edge b) as [e|]; cbn in Hx; [|simplify_eq; rewrite <- Hx in H; set_solver].
    apply fmap_Some in Hx as (e' & He & E). rewrite E in H.
    apply bind_Some in He as (k & Hk & [= <-]). set_solver.
  - destruct (bc_suspension_resume (blk_extra b)); cbn in Hr;
      [|simplify_eq; rewrite <- Hr in H; set_solver].
    apply fmap_Some in Hr as (k & Hk & E). rewrite E in H. set_solver.
Qed.
Lemma lookup_known_block_ok (function : BlockPyFunction I) l source kind c :
  lookup_known_block function l source kind = Ok c <->
  bf_blocks function !! Z.to_nat (bl_index l) = Some c /\ blk_label c = l.
Proof.
  unfold lookup_known_block. destruct (bf_blocks function !! Z.to_nat (bl_index l)) as [c'|];
    cbn; [|naive_solver]. case_bool_decide; naive_solver.
Qed.

(** C23: dense relabelling numbers the blocks by position, makes every jump, exception
    and suspension target a known block in the sense of the validator, and keeps every
    execution from every block. *)
Theorem relabel_dense_preserves {St} (m : @Machine I St) id qualname kind blocks blocks' :
  NoDup (labels blocks) -> relabel_blockpy_blocks_dense blocks = Some blocks' ->
  labels blocks' = map dense_label (seq 0 (length blocks)) /\
  (forall b l label_kind, b ∈ blocks' -> l ∈ references b -> exists c,
     lookup_known_block (mkBlockPyFunction id qualname kind blocks') l (blk_label b) label_kind
       = Ok c) /\
  forall i b st exit, blocks !! i = Some b ->
    behaves m blocks' (dense_label i) st exit <-> behaves m blocks (blk_label b) st exit.
Proof.
  intros Hnd H. split; [by apply relabel_dense_labels|]. split.
  - intros b' l label_kind Hb' Hl. apply list_elem_of_lookup in Hb' as [i Hi'].
    destruct (Forall2_lookup_r _ _ _ _ _ (relabel_dense_blocks _ _ H) Hi') as (b & Hi & Hb).
    destruct (relabel_references _ _ _ _ Hb Hl) as (l0 & Hl0).
    apply sigma_some in Hl0 as (j & c & Hj & _ & ->); [|done].
    destruct (relabel_dense_lookup _ _ _ _ Hnd H Hj) as (c' & Hj' & Ec & _).
    exists c'. apply lookup_known_block_ok. cbn. by rewrite Nat2Z.id.
  - intros i b st exit Hi. unfold behaves, edge_new.
    assert (collect_map (dense_from 0 blocks) !! blk_label b = Some (dense_label i)) as Hl
      by (apply sigma_some; [done|]; by exists i, b).
    split; intros [fuel Hr]; exists fuel; rewrite <- Hr;
      [symmetry|]; by apply (relabel_run m _ _ fuel Hnd H [] (mkBlockEdge (blk_label b) [])).
Qed.

(** ** Validated functions *)

Lemma validate_blocks_dense (function : BlockPyFunction I) : validate_blocks function = Ok tt ->
  (forall i b, bf_blocks function !! i = Some b -> bl_index (blk_label b) = Z.of_nat i) /\
  (forall b, b ∈ bf_blocks function -> validate_block function b = Ok tt).
Proof.
  unfold validate_blocks. intros H. apply rbind_ok in H as ([] & Hd & Hv).
  apply for_each_ok in Hd. apply for_each_ok in Hv. rewrite Forall_forall in Hv. split; [|done].
  intros i b Hi. rewrite Forall_lookup in Hd. specialize (Hd i (i, b)). cbn in Hd.
  unfold ensure in Hd. case_bool_decide as E; [done|]. exfalso.
  enough (zip (seq 0 (length (bf_blocks function))) (bf_blocks function) !! i = Some (i, b)) as Hz
    by (by specialize (Hd Hz)).
  apply lookup_zip_with_Some. exists i, b. split_and!; [done| |done].
  apply lookup_seq. split; [done|]. by apply lookup_lt_Some in Hi.
Qed.

Lemma validate_block_targets function b l : validate_block function b = Ok tt ->
  l ∈ targets b -> exists c : Block I, c ∈ bf_blocks function /\ blk_label c = l.
Proof.
  assert (forall kind c, lookup_known_block function l (blk_label b) kind = Ok c ->
    exists c : Block I, c ∈ bf_blocks function /\ blk_label c = l) as Hk.
  { intros kind c [Hc <-]%lookup_known_block_ok. exists c. split; [|done].
    by eapply list_elem_of_lookup_2. }
  assert (forall kind args, validate_non_exception_edge function b (mkBlockEdge l args) kind = Ok tt ->
    exists c : Block I, c ∈ bf_blocks function /\ blk_label c = l) as He.
  { intros kind args (c & Hc & _)%rbind_ok. cbn in Hc. eauto. }
  unfold validate_block. intros (? & _ & (? & _ & (? & Hx & Ht)%rbind_ok)%rbind_ok)%rbind_ok.
  unfold targets. intros [H|H]%elem_of_app.
  - unfold validate_term_edges in Ht. unfold blockpy_successors in H.
    destruct (blk_term b) as [[tl args]|i|t| | |]; [| | |set_solver|set_solver|set_solver].
    + apply list_elem_of_singleton in H. cbn in H. subst tl. eauto.
    + apply rbind_ok in Ht as ([] & H1 & H2).
      assert (l = ti_then_label i \/ l = ti_else_label i) as [-> | ->] by set_solver; eauto.
    + apply rbind_ok in Ht as ([] & H1 & H2). apply elem_of_app in H as [H|H].
      * eapply for_each_elem in H1; [|exact H]. eauto.
      * apply list_elem_of_singleton in H as ->. eauto.
  - destruct (blk_exc_edge b) as [e|] eqn:Ee; cbn in H; [|set_solver].
    apply list_elem_of_singleton in H as ->. cbn in Hx. apply rbind_ok in Hx as (c & Hc & _). eauto.
Qed.

(** control flow of a validated function never reaches an undefined block: from the
    label of any of its blocks, whatever the instructions do, an execution only ends by
    returning, completing or raising. *)
Theorem validated_blocks_defined {St} (m : @Machine I St) function entry st exit :
  validate_blocks function = Ok tt -> entry ∈ bf_blocks function ->
  behaves m (bf_blocks function) (blk_label entry) st exit -> exit.1 <> Undefined.
Proof.
  intros Hv Hentry [fuel H]. apply validate_blocks_dense in Hv as [_ Hv].
  assert (exists c, c ∈ bf_blocks function /\ blk_label c = be_target (edge_new (blk_label entry)))
    as Hdef by (by exists entry).
  revert H Hdef. generalize (edge_new (blk_label entry)) ([] : list BlockParam). revert st.
  induction fuel as [|fuel IH]; intros st edge source H (c & Hc & El); [done|]. cbn in H.
  destruct (find_block (be_target edge) (bf_blocks function)) as [b|] eqn:Ef.
  - destruct (block_step _ _ _) as [[edge' st']|exit'] eqn:Es.
    + apply (IH st' edge' _ H). apply (validate_block_targets function b).
      * apply Hv. by apply find_block_some in Ef as [? _].
      * by eapply block_step_target.
    + simplify_eq. clear - Es. unfold block_step, leave, raise_from in Es.
      repeat case_match; simplify_eq; done.
  - apply find_block_none in Ef. exfalso. apply Ef. rewrite <- El. unfold labels.
    by apply list_elem_of_In, in_map, list_elem_of_In.
Qed.
End relabel.

Arguments Machine : clear implicits.

(** ** A concrete graph

    Instructions are numbers; the state is the trace of what ran, with the number of
    exception scopes visible to a returned operand. *)

Module Graph.
Definition trace : Machine nat (list nat) := {|
  m_pass := fun _ _ _ st => st;
  m_body := fun _ body st => (st ++ body, false);
  m_test := fun _ test st => (st ++ [test], Some (Nat.even test));
  m_index := fun _ index st => (st, Some index);
  m_raise := fun _ _ st => st;
  m_return := fun scope value st => (st ++ [length scope.1; value], false);
  m_complete := fun _ value st => (st ++ [value], false)
|}.

#[global] Instance trace_laws : MachineLaws trace.
Proof. split; [done|]. intros scope st. cbn. by rewrite app_nil_r. Qed.

Definition at_label (n : Z) (body : list nat) (term : BlockTerm nat) (params : list BlockParam) :
    Block nat :=
  mkBlock (mkBlockLabel n) body term params None block_context_default.

(** [if 3: 1 else: 2] before a shared [return 9], and a block nothing reaches. *)
Definition diamond : list (Block nat) := [
  at_label 4 [1] (BT_Jump (edge_new (mkBlockLabel 6))) [];
  at_label 3 [] (BT_If (mkTermIf 3 (mkBlockLabel 4) (mkBlockLabel 5))) [];
  at_label 5 [2] (BT_Jump (edge_new (mkBlockLabel 6))) [];
  at_label 6 [] (BT_Return 9) [];
  at_label 7 [8] (BT_Jump (edge_new (mkBlockLabel 4))) [] ].

(** A handler body that leaves its loop by a jump to the [return 9] after it. *)
Definition handler : list (Block nat) := [
  at_label 0 [1] (BT_Jump (edge_new (mkBlockLabel 1))) [mkBlockParam "exc" BPR_Exception];
  at_label 1 [] (BT_Return 9) [] ].
End Graph.

Lemma finish_blocks_preserves_witness :
  exists blocks', finish_blocks 0 (mkBlockLabel 3) (mkBlockLabel 9) Graph.diamond = Some blocks' /\
    behaves Graph.trace blocks' (mkBlockLabel 3) [] (Returned, [3; 2; 0; 9]).
Proof.
  destruct (finish_blocks_preserves Graph.trace 0 (mkBlockLabel 3) (mkBlockLabel 9) Graph.diamond)
    as (blocks' & E & H).
  - apply (bool_decide_unpack _). vm_compute. exact Logic.I.
  - apply (bool_decide_unpack _). vm_compute. exact Logic.I.
  - intros b c Hb Hc. vm_compute in Hb, Hc.
    repeat (apply elem_of_cons in Hb as [->|Hb]); [..|by apply elem_of_nil in Hb];
      intros; unfold scope_of; cbn in *;
      repeat (apply elem_of_cons in Hc as [->|Hc]); try (by apply elem_of_nil in Hc); done.
  - exists blocks'. split; [exact E|]. apply H. exists 3. vm_compute. reflexivity.
Defined.

Lemma prune_unreachable_exact_witness :
  exists blocks', prune_unreachable_blockpy_blocks (mkBlockLabel 3) [] Graph.diamond = Some blocks' /\
    sublist blocks' Graph.diamond /\ length blocks' = 4.
Proof.
  destruct (prune_unreachable_exact (mkBlockLabel 3) [] Graph.diamond) as (blocks' & E & Hs & _).
  { apply (bool_decide_unpack _). vm_compute. exact Logic.I. }
  exists blocks'. split; [exact E|]. split; [exact Hs|].
  vm_compute in E. injection E as <-. reflexivity.
Defined.

Lemma relabel_dense_preserves_witness :
  exists blocks', relabel_blockpy_blocks_dense Graph.diamond = Some blocks' /\
    behaves Graph.trace blocks' (dense_label 1) [] (Returned, [3; 2; 0; 9]).
Proof.
  eexists. split; [vm_compute; reflexivity|].
  refine (proj2 (proj2 (proj2 (relabel_dense_preserves Graph.trace GLOBAL "f" FK_Function
    Graph.diamond _
    _ _)) 1 _ _ _ eq_refl) _).
  - apply (bool_decide_unpack _). vm_compute. exact Logic.I.
  - vm_compute. reflexivity.
  - exists 3. vm_compute. reflexivity.
Defined.

Lemma validated_blocks_defined_witness :
  Returned <> Undefined /\
  validate_blocks (mkBlockPyFunction GLOBAL "f" FK_Function Graph.handler) = Ok tt.
Proof.
  split; [|vm_compute; reflexivity].
  refine (validated_blocks_defined Graph.trace (mkBlockPyFunction GLOBAL "f" FK_Function Graph.handler)
    (Graph.at_label 1 [] (BT_Return 9) []) [] (Returned, [0; 9]) _ _ _).
  - vm_compute. reflexivity.
  - apply elem_of_cons. right. apply elem_of_cons. left. reflexivity.
  - exists 1. vm_compute. reflexivity.
Defined.

(** The hypothesis on scopes is needed: folding the handler's jump evaluates the
    returned operand with the handled exception still in scope. *)
Lemma fold_across_handler :
  behaves Graph.trace Graph.handler (mkBlockLabel 0) [] (Returned, [1; 0; 9]) /\
  behaves Graph.trace (fold_jumps_to_trivial_return_blockpy Graph.handler) (mkBlockLabel 0) []
    (Returned, [1; 1; 9]).
Proof. split; exists 2; vm_compute; reflexivity. Qed.
