(* ===== verification/Names.v ===== *)
(** * Names and storage locations

    crates/soac_core/src/block_py/mod.rs: the table of runtime names with the
    operations its macro defines, the storage locations a name resolves to, and the
    names of the lowered instructions. *)

From stdpp Require Import gmap.
From S2P Require Import Prelude Text.

Local Open Scope Z_scope.

(** ** Runtime names *)

Inductive RuntimeName : Type :=
| RN_GeneratorResumeDelivery | RN_InjectGeneratorResumeException | RN_AsyncGenWrapYield
| RN_Pep479Exception | RN_SoacFilterIterator | RN_SoacMapIterator | RN_NoDefault
| RN_Ellipsis | RN_True | RN_False | RN_None | RN_EmptyTuple | RN_ArithmeticError
| RN_AssertionError | RN_AttributeError | RN_BaseException | RN_BaseExceptionGroup
| RN_BlockingIOError | RN_BrokenPipeError | RN_BufferError | RN_BytesWarning
| RN_ChildProcessError | RN_ConnectionAbortedError | RN_ConnectionError
| RN_ConnectionRefusedError | RN_ConnectionResetError | RN_DeprecationWarning
| RN_EOFError | RN_EncodingWarning | RN_EnvironmentError | RN_Exception
| RN_ExceptionGroup | RN_FileExistsError | RN_FileNotFoundError | RN_FloatingPointError
| RN_FutureWarning | RN_GeneratorExit | RN_IOError | RN_ImportError | RN_ImportWarning
| RN_IndentationError | RN_IndexError | RN_InterruptedError | RN_IsADirectoryError
| RN_KeyError | RN_KeyboardInterrupt | RN_LookupError | RN_MemoryError
| RN_ModuleNotFoundError | RN_NameError | RN_NotADirectoryError | RN_NotImplemented
| RN_NotImplementedError | RN_OSError | RN_OverflowError | RN_PendingDeprecationWarning
| RN_PermissionError | RN_ProcessLookupError | RN_RecursionError | RN_ReferenceError
| RN_ResourceWarning | RN_RuntimeError | RN_RuntimeWarning | RN_StopAsyncIteration
| RN_StopIteration | RN_SyntaxError | RN_SyntaxWarning | RN_SystemError | RN_SystemExit
| RN_TabError | RN_TimeoutError | RN_TypeError | RN_UnboundLocalError
| RN_UnicodeDecodeError | RN_UnicodeEncodeError | RN_UnicodeError
| RN_UnicodeTranslateError | RN_UnicodeWarning | RN_UserWarning | RN_ValueError
| RN_Warning | RN_ZeroDivisionError | RN_BuildClass | RN_Import | RN_Abs | RN_Aiter
| RN_All | RN_Anext | RN_Any | RN_Ascii | RN_Bin | RN_Bool | RN_Breakpoint
| RN_Builtins | RN_Bytearray | RN_Bytes | RN_Callable | RN_Chr | RN_Classmethod
| RN_Compile | RN_Complex | RN_Copyright | RN_Credits | RN_Delattr | RN_Dict | RN_Dir
| RN_Divmod | RN_Enumerate | RN_Eval | RN_Exec | RN_Exit | RN_Filter | RN_Float
| RN_Format | RN_Frozenset | RN_Getattr | RN_Globals | RN_Hasattr | RN_Hash | RN_Help
| RN_Hex | RN_Id | RN_Input | RN_Int | RN_Isinstance | RN_Issubclass | RN_Iter | RN_Len
| RN_License | RN_List | RN_Locals | RN_Map | RN_Max | RN_Memoryview | RN_Min | RN_Next
| RN_Object | RN_Oct | RN_Open | RN_Ord | RN_Pow | RN_Print | RN_Property | RN_Quit
| RN_Range | RN_Repr | RN_Reversed | RN_Round | RN_Set | RN_Setattr | RN_Slice
| RN_Sorted | RN_Staticmethod | RN_Str | RN_Sum | RN_Tuple | RN_Type | RN_Vars | RN_Zip
| RN_ImportUnderscore | RN_ImportAttr | RN_Index | RN_UnsupportedFrameBuiltin
| RN_TupleFromIter | RN_ConstructorCall | RN_Deepcopy | RN_TypingGeneric
| RN_TypingTypeVar | RN_TypingTypeVarTuple | RN_TypingParamSpec
| RN_TypingTypeAliasType | RN_TypingUnpack | RN_TemplatelibTemplate
| RN_TemplatelibInterpolation | RN_BbTraceEnter | RN_CurrentYieldfrom
| RN_IsCancelledError | RN_IsGeneratorClosed | RN_ReraiseControlFlow
| RN_ResumeGenerator | RN_ResumeAsyncGenerator | RN_MakePreservedState
| RN_LoadPreservedState | RN_NormalizeThrowExc | RN_CurrentThrowContext
| RN_ComplexFromParts | RN_ClassLookupCell | RN_ClassLookupGlobal
| RN_ValidateExceptionType | RN_ExceptionMatches | RN_ExceptiongroupSplit | RN_Unpack
| RN_CallSuper | RN_CallSuperNoargs | RN_MatchClassValidateArity
| RN_MatchClassAttrExists | RN_MatchClassAttrValue | RN_CodeTemplateGen
| RN_CodeTemplateAsyncGen | RN_AnnotationForwardrefValue | RN_CurrentException
| RN_CreateClass | RN_ExcInfo | RN_ExcInfoFromException | RN_GetAwaitableIter
| RN_AwaitIter | RN_RaiseFrom | RN_CallExceptionClass | RN_ImportStar | RN_StoreGlobal
| RN_CellRef | RN_DelQuietly | RN_MakeFunction | RN_LookupSpecialMethod
| RN_HasSpecialMethod | RN_MissingContextProtocolMessage | RN_ContextmanagerEnter
| RN_ContextmanagerGetExit | RN_ContextmanagerExit | RN_EnsureAwaitable
| RN_AsynccontextmanagerAenter | RN_AsynccontextmanagerGetAexit
| RN_AsynccontextmanagerExit | RN_IterRange | RN_ClosureGenerator | RN_Coroutine
| RN_ClosureAsyncGenerator | RN_AsyncGenSend | RN_AwaitIterWrapper | RN_DynamicCallee
| RN_MakeGeneratorInstance | RN_UnpackFixed.

Definition ALL : list RuntimeName :=
  [RN_GeneratorResumeDelivery; RN_InjectGeneratorResumeException; RN_AsyncGenWrapYield;
  RN_Pep479Exception; RN_SoacFilterIterator; RN_SoacMapIterator; RN_NoDefault;
  RN_Ellipsis; RN_True; RN_False; RN_None; RN_EmptyTuple; RN_ArithmeticError;
  RN_AssertionError; RN_AttributeError; RN_BaseException; RN_BaseExceptionGroup;
  RN_BlockingIOError; RN_BrokenPipeError; RN_BufferError; RN_BytesWarning;
  RN_ChildProcessError; RN_ConnectionAbortedError; RN_ConnectionError;
  RN_ConnectionRefusedError; RN_ConnectionResetError; RN_DeprecationWarning;
  RN_EOFError; RN_EncodingWarning; RN_EnvironmentError; RN_Exception;
  RN_ExceptionGroup; RN_FileExistsError; RN_FileNotFoundError; RN_FloatingPointError;
  RN_FutureWarning; RN_GeneratorExit; RN_IOError; RN_ImportError; RN_ImportWarning;
  RN_IndentationError; RN_IndexError; RN_InterruptedError; RN_IsADirectoryError;
  RN_KeyError; RN_KeyboardInterrupt; RN_LookupError; RN_MemoryError;
  RN_ModuleNotFoundError; RN_NameError; RN_NotADirectoryError; RN_NotImplemented;
  RN_NotImplementedError; RN_OSError; RN_OverflowError; RN_PendingDeprecationWarning;
  RN_PermissionError; RN_ProcessLookupError; RN_RecursionError; RN_ReferenceError;
  RN_ResourceWarning; RN_RuntimeError; RN_RuntimeWarning; RN_StopAsyncIteration;
  RN_StopIteration; RN_SyntaxError; RN_SyntaxWarning; RN_SystemError; RN_SystemExit;
  RN_TabError; RN_TimeoutError; RN_TypeError; RN_UnboundLocalError;
  RN_UnicodeDecodeError; RN_UnicodeEncodeError; RN_UnicodeError;
  RN_UnicodeTranslateError; RN_UnicodeWarning; RN_UserWarning; RN_ValueError;
  RN_Warning; RN_ZeroDivisionError; RN_BuildClass; RN_Import; RN_Abs; RN_Aiter; RN_All;
  RN_Anext; RN_Any; RN_Ascii; RN_Bin; RN_Bool; RN_Breakpoint; RN_Builtins;
  RN_Bytearray; RN_Bytes; RN_Callable; RN_Chr; RN_Classmethod; RN_Compile; RN_Complex;
  RN_Copyright; RN_Credits; RN_Delattr; RN_Dict; RN_Dir; RN_Divmod; RN_Enumerate;
  RN_Eval; RN_Exec; RN_Exit; RN_Filter; RN_Float; RN_Format; RN_Frozenset; RN_Getattr;
  RN_Globals; RN_Hasattr; RN_Hash; RN_Help; RN_Hex; RN_Id; RN_Input; RN_Int;
  RN_Isinstance; RN_Issubclass; RN_Iter; RN_Len; RN_License; RN_List; RN_Locals;
  RN_Map; RN_Max; RN_Memoryview; RN_Min; RN_Next; RN_Object; RN_Oct; RN_Open; RN_Ord;
  RN_Pow; RN_Print; RN_Property; RN_Quit; RN_Range; RN_Repr; RN_Reversed; RN_Round;
  RN_Set; RN_Setattr; RN_Slice; RN_Sorted; RN_Staticmethod; RN_Str; RN_Sum; RN_Tuple;
  RN_Type; RN_Vars; RN_Zip; RN_ImportUnderscore; RN_ImportAttr; RN_Index;
  RN_UnsupportedFrameBuiltin; RN_TupleFromIter; RN_ConstructorCall; RN_Deepcopy;
  RN_TypingGeneric; RN_TypingTypeVar; RN_TypingTypeVarTuple; RN_TypingParamSpec;
  RN_TypingTypeAliasType; RN_TypingUnpack; RN_TemplatelibTemplate;
  RN_TemplatelibInterpolation; RN_BbTraceEnter; RN_CurrentYieldfrom;
  RN_IsCancelledError; RN_IsGeneratorClosed; RN_ReraiseControlFlow; RN_ResumeGenerator;
  RN_ResumeAsyncGenerator; RN_MakePreservedState; RN_LoadPreservedState;
  RN_NormalizeThrowExc; RN_CurrentThrowContext; RN_ComplexFromParts;
  RN_ClassLookupCell; RN_ClassLookupGlobal; RN_ValidateExceptionType;
  RN_ExceptionMatches; RN_ExceptiongroupSplit; RN_Unpack; RN_CallSuper;
  RN_CallSuperNoargs; RN_MatchClassValidateArity; RN_MatchClassAttrExists;
  RN_MatchClassAttrValue; RN_CodeTemplateGen; RN_CodeTemplateAsyncGen;
  RN_AnnotationForwardrefValue; RN_CurrentException; RN_CreateClass; RN_ExcInfo;
  RN_ExcInfoFromException; RN_GetAwaitableIter; RN_AwaitIter; RN_RaiseFrom;
  RN_CallExceptionClass; RN_ImportStar; RN_StoreGlobal; RN_CellRef; RN_DelQuietly;
  RN_MakeFunction; RN_LookupSpecialMethod; RN_HasSpecialMethod;
  RN_MissingContextProtocolMessage; RN_ContextmanagerEnter; RN_ContextmanagerGetExit;
  RN_ContextmanagerExit; RN_EnsureAwaitable; RN_AsynccontextmanagerAenter;
  RN_AsynccontextmanagerGetAexit; RN_AsynccontextmanagerExit; RN_IterRange;
  RN_ClosureGenerator; RN_Coroutine; RN_ClosureAsyncGenerator; RN_AsyncGenSend;
  RN_AwaitIterWrapper; RN_DynamicCallee; RN_MakeGeneratorInstance; RN_UnpackFixed].

Definition runtime_name_name (r : RuntimeName) : string :=
  match r with
  | RN_GeneratorResumeDelivery => "generator_resume_delivery"
  | RN_InjectGeneratorResumeException => "inject_generator_resume_exception"
  | RN_AsyncGenWrapYield => "async_gen_wrap_yield"
  | RN_Pep479Exception => "pep_479_exception"
  | RN_SoacFilterIterator => "__soac_filter_iterator"
  | RN_SoacMapIterator => "__soac_map_iterator"
  | RN_NoDefault => "NO_DEFAULT"
  | RN_Ellipsis => "ELLIPSIS"
  | RN_True => "TRUE"
  | RN_False => "FALSE"
  | RN_None => "NONE"
  | RN_EmptyTuple => "EMPTY_TUPLE"
  | RN_ArithmeticError => "ArithmeticError"
  | RN_AssertionError => "AssertionError"
  | RN_AttributeError => "AttributeError"
  | RN_BaseException => "BaseException"
  | RN_BaseExceptionGroup => "BaseExceptionGroup"
  | RN_BlockingIOError => "BlockingIOError"
  | RN_BrokenPipeError => "BrokenPipeError"
  | RN_BufferError => "BufferError"
  | RN_BytesWarning => "BytesWarning"
  | RN_ChildProcessError => "ChildProcessError"
  | RN_ConnectionAbortedError => "ConnectionAbortedError"
  | RN_ConnectionError => "ConnectionError"
  | RN_ConnectionRefusedError => "ConnectionRefusedError"
  | RN_ConnectionResetError => "ConnectionResetError"
  | RN_DeprecationWarning => "DeprecationWarning"
  | RN_EOFError => "EOFError"
  | RN_EncodingWarning => "EncodingWarning"
  | RN_EnvironmentError => "EnvironmentError"
  | RN_Exception => "Exception"
  | RN_ExceptionGroup => "ExceptionGroup"
  | RN_FileExistsError => "FileExistsError"
  | RN_FileNotFoundError => "FileNotFoundError"
  | RN_FloatingPointError => "FloatingPointError"
  | RN_FutureWarning => "FutureWarning"
  | RN_GeneratorExit => "GeneratorExit"
  | RN_IOError => "IOError"
  | RN_ImportError => "ImportError"
  | RN_ImportWarning => "ImportWarning"
  | RN_IndentationError => "IndentationError"
  | RN_IndexError => "IndexError"
  | RN_InterruptedError => "InterruptedError"
  | RN_IsADirectoryError => "IsADirectoryError"
  | RN_KeyError => "KeyError"
  | RN_KeyboardInterrupt => "KeyboardInterrupt"
  | RN_LookupError => "LookupError"
  | RN_MemoryError => "MemoryError"
  | RN_ModuleNotFoundError => "ModuleNotFoundError"
  | RN_NameError => "NameError"
  | RN_NotADirectoryError => "NotADirectoryError"
  | RN_NotImplemented => "NotImplemented"
  | RN_NotImplementedError => "NotImplementedError"
  | RN_OSError => "OSError"
  | RN_OverflowError => "OverflowError"
  | RN_PendingDeprecationWarning => "PendingDeprecationWarning"
  | RN_PermissionError => "PermissionError"
  | RN_ProcessLookupError => "ProcessLookupError"
  | RN_RecursionError => "RecursionError"
  | RN_ReferenceError => "ReferenceError"
  | RN_ResourceWarning => "ResourceWarning"
  | RN_RuntimeError => "RuntimeError"
  | RN_RuntimeWarning => "RuntimeWarning"
  | RN_StopAsyncIteration => "StopAsyncIteration"
  | RN_StopIteration => "StopIteration"
  | RN_SyntaxError => "SyntaxError"
  | RN_SyntaxWarning => "SyntaxWarning"
  | RN_SystemError => "SystemError"
  | RN_SystemExit => "SystemExit"
  | RN_TabError => "TabError"
  | RN_TimeoutError => "TimeoutError"
  | RN_TypeError => "TypeError"
  | RN_UnboundLocalError => "UnboundLocalError"
  | RN_UnicodeDecodeError => "UnicodeDecodeError"
  | RN_UnicodeEncodeError => "UnicodeEncodeError"
  | RN_UnicodeError => "UnicodeError"
  | RN_UnicodeTranslateError => "UnicodeTranslateError"
  | RN_UnicodeWarning => "UnicodeWarning"
  | RN_UserWarning => "UserWarning"
  | RN_ValueError => "ValueError"
  | RN_Warning => "Warning"
  | RN_ZeroDivisionError => "ZeroDivisionError"
  | RN_BuildClass => "__build_class__"
  | RN_Import => "__import__"
  | RN_Abs => "abs"
  | RN_Aiter => "aiter"
  | RN_All => "all"
  | RN_Anext => "anext"
  | RN_Any => "any"
  | RN_Ascii => "ascii"
  | RN_Bin => "bin"
  | RN_Bool => "bool"
  | RN_Breakpoint => "breakpoint"
  | RN_Builtins => "builtins"
  | RN_Bytearray => "bytearray"
  | RN_Bytes => "bytes"
  | RN_Callable => "callable"
  | RN_Chr => "chr"
  | RN_Classmethod => "classmethod"
  | RN_Compile => "compile"
  | RN_Complex => "complex"
  | RN_Copyright => "copyright"
  | RN_Credits => "credits"
  | RN_Delattr => "delattr"
  | RN_Dict => "dict"
  | RN_Dir => "dir"
  | RN_Divmod => "divmod"
  | RN_Enumerate => "enumerate"
  | RN_Eval => "eval"
  | RN_Exec => "exec"
  | RN_Exit => "exit"
  | RN_Filter => "filter"
  | RN_Float => "float"
  | RN_Format => "format"
  | RN_Frozenset => "frozenset"
  | RN_Getattr => "getattr"
  | RN_Globals => "globals"
  | RN_Hasattr => "hasattr"
  | RN_Hash => "hash"
  | RN_Help => "help"
  | RN_Hex => "hex"
  | RN_Id => "id"
  | RN_Input => "input"
  | RN_Int => "int"
  | RN_Isinstance => "isinstance"
  | RN_Issubclass => "issubclass"
  | RN_Iter => "iter"
  | RN_Len => "len"
  | RN_License => "license"
  | RN_List => "list"
  | RN_Locals => "locals"
  | RN_Map => "map"
  | RN_Max => "max"
  | RN_Memoryview => "memoryview"
  | RN_Min => "min"
  | RN_Next => "next"
  | RN_Object => "object"
  | RN_Oct => "oct"
  | RN_Open => "open"
  | RN_Ord => "ord"
  | RN_Pow => "pow"
  | RN_Print => "print"
  | RN_Property => "property"
  | RN_Quit => "quit"
  | RN_Range => "range"
  | RN_Repr => "repr"
  | RN_Reversed => "reversed"
  | RN_Round => "round"
  | RN_Set => "set"
  | RN_Setattr => "setattr"
  | RN_Slice => "slice"
  | RN_Sorted => "sorted"
  | RN_Staticmethod => "staticmethod"
  | RN_Str => "str"
  | RN_Sum => "sum"
  | RN_Tuple => "tuple"
  | RN_Type => "type"
  | RN_Vars => "vars"
  | RN_Zip => "zip"
  | RN_ImportUnderscore => "import_"
  | RN_ImportAttr => "import_attr"
  | RN_Index => "_index"
  | RN_UnsupportedFrameBuiltin => "_unsupported_frame_builtin"
  | RN_TupleFromIter => "tuple_from_iter"
  | RN_ConstructorCall => "constructor_call"
  | RN_Deepcopy => "__deepcopy__"
  | RN_TypingGeneric => "typing_Generic"
  | RN_TypingTypeVar => "typing_TypeVar"
  | RN_TypingTypeVarTuple => "typing_TypeVarTuple"
  | RN_TypingParamSpec => "typing_ParamSpec"
  | RN_TypingTypeAliasType => "typing_TypeAliasType"
  | RN_TypingUnpack => "typing_Unpack"
  | RN_TemplatelibTemplate => "templatelib_Template"
  | RN_TemplatelibInterpolation => "templatelib_Interpolation"
  | RN_BbTraceEnter => "bb_trace_enter"
  | RN_CurrentYieldfrom => "_current_yieldfrom"
  | RN_IsCancelledError => "_is_cancelled_error"
  | RN_IsGeneratorClosed => "_is_generator_closed"
  | RN_ReraiseControlFlow => "_reraise_control_flow"
  | RN_ResumeGenerator => "resume_generator"
  | RN_ResumeAsyncGenerator => "resume_async_generator"
  | RN_MakePreservedState => "make_preserved_state"
  | RN_LoadPreservedState => "load_preserved_state"
  | RN_NormalizeThrowExc => "_normalize_throw_exc"
  | RN_CurrentThrowContext => "_current_throw_context"
  | RN_ComplexFromParts => "complex_from_parts"
  | RN_ClassLookupCell => "class_lookup_cell"
  | RN_ClassLookupGlobal => "class_lookup_global"
  | RN_ValidateExceptionType => "_validate_exception_type"
  | RN_ExceptionMatches => "exception_matches"
  | RN_ExceptiongroupSplit => "exceptiongroup_split"
  | RN_Unpack => "unpack"
  | RN_CallSuper => "call_super"
  | RN_CallSuperNoargs => "call_super_noargs"
  | RN_MatchClassValidateArity => "_match_class_validate_arity"
  | RN_MatchClassAttrExists => "match_class_attr_exists"
  | RN_MatchClassAttrValue => "match_class_attr_value"
  | RN_CodeTemplateGen => "code_template_gen"
  | RN_CodeTemplateAsyncGen => "code_template_async_gen"
  | RN_AnnotationForwardrefValue => "annotation_forwardref_value"
  | RN_CurrentException => "current_exception"
  | RN_CreateClass => "create_class"
  | RN_ExcInfo => "exc_info"
  | RN_ExcInfoFromException => "exc_info_from_exception"
  | RN_GetAwaitableIter => "_get_awaitable_iter"
  | RN_AwaitIter => "await_iter"
  | RN_RaiseFrom => "raise_from"
  | RN_CallExceptionClass => "_call_exception_class"
  | RN_ImportStar => "import_star"
  | RN_StoreGlobal => "store_global"
  | RN_CellRef => "cell_ref"
  | RN_DelQuietly => "del_quietly"
  | RN_MakeFunction => "make_function"
  | RN_LookupSpecialMethod => "_lookup_special_method"
  | RN_HasSpecialMethod => "_has_special_method"
  | RN_MissingContextProtocolMessage => "_missing_context_protocol_message"
  | RN_ContextmanagerEnter => "contextmanager_enter"
  | RN_ContextmanagerGetExit => "contextmanager_get_exit"
  | RN_ContextmanagerExit => "contextmanager_exit"
  | RN_EnsureAwaitable => "_ensure_awaitable"
  | RN_AsynccontextmanagerAenter => "asynccontextmanager_aenter"
  | RN_AsynccontextmanagerGetAexit => "asynccontextmanager_get_aexit"
  | RN_AsynccontextmanagerExit => "asynccontextmanager_exit"
  | RN_IterRange => "IterRange"
  | RN_ClosureGenerator => "ClosureGenerator"
  | RN_Coroutine => "Coroutine"
  | RN_ClosureAsyncGenerator => "ClosureAsyncGenerator"
  | RN_AsyncGenSend => "AsyncGenSend"
  | RN_AwaitIterWrapper => "_AwaitIterWrapper"
  | RN_DynamicCallee => "__dp_dynamic_callee"
  | RN_MakeGeneratorInstance => "make_generator_instance"
  | RN_UnpackFixed => "unpack_fixed"
  end.

Definition runtime_name_id (r : RuntimeName) : Z :=
  match r with
  | RN_GeneratorResumeDelivery => 0 | RN_InjectGeneratorResumeException => 1
  | RN_AsyncGenWrapYield => 2 | RN_Pep479Exception => 3 | RN_SoacFilterIterator => 4
  | RN_SoacMapIterator => 5 | RN_NoDefault => 6 | RN_Ellipsis => 7 | RN_True => 8
  | RN_False => 9 | RN_None => 10 | RN_EmptyTuple => 11 | RN_ArithmeticError => 12
  | RN_AssertionError => 13 | RN_AttributeError => 14 | RN_BaseException => 15
  | RN_BaseExceptionGroup => 16 | RN_BlockingIOError => 17 | RN_BrokenPipeError => 18
  | RN_BufferError => 19 | RN_BytesWarning => 20 | RN_ChildProcessError => 21
  | RN_ConnectionAbortedError => 22 | RN_ConnectionError => 23
  | RN_ConnectionRefusedError => 24 | RN_ConnectionResetError => 25
  | RN_DeprecationWarning => 26 | RN_EOFError => 27 | RN_EncodingWarning => 28
  | RN_EnvironmentError => 29 | RN_Exception => 30 | RN_ExceptionGroup => 31
  | RN_FileExistsError => 32 | RN_FileNotFoundError => 33 | RN_FloatingPointError => 34
  | RN_FutureWarning => 35 | RN_GeneratorExit => 36 | RN_IOError => 37
  | RN_ImportError => 38 | RN_ImportWarning => 39 | RN_IndentationError => 40
  | RN_IndexError => 41 | RN_InterruptedError => 42 | RN_IsADirectoryError => 43
  | RN_KeyError => 44 | RN_KeyboardInterrupt => 45 | RN_LookupError => 46
  | RN_MemoryError => 47 | RN_ModuleNotFoundError => 48 | RN_NameError => 49
  | RN_NotADirectoryError => 50 | RN_NotImplemented => 51
  | RN_NotImplementedError => 52 | RN_OSError => 53 | RN_OverflowError => 54
  | RN_PendingDeprecationWarning => 55 | RN_PermissionError => 56
  | RN_ProcessLookupError => 57 | RN_RecursionError => 58 | RN_ReferenceError => 59
  | RN_ResourceWarning => 60 | RN_RuntimeError => 61 | RN_RuntimeWarning => 62
  | RN_StopAsyncIteration => 63 | RN_StopIteration => 64 | RN_SyntaxError => 65
  | RN_SyntaxWarning => 66 | RN_SystemError => 67 | RN_SystemExit => 68
  | RN_TabError => 69 | RN_TimeoutError => 70 | RN_TypeError => 71
  | RN_UnboundLocalError => 72 | RN_UnicodeDecodeError => 73
  | RN_UnicodeEncodeError => 74 | RN_UnicodeError => 75
  | RN_UnicodeTranslateError => 76 | RN_UnicodeWarning => 77 | RN_UserWarning => 78
  | RN_ValueError => 79 | RN_Warning => 80 | RN_ZeroDivisionError => 81
  | RN_BuildClass => 82 | RN_Import => 83 | RN_Abs => 84 | RN_Aiter => 85
  | RN_All => 86 | RN_Anext => 87 | RN_Any => 88 | RN_Ascii => 89 | RN_Bin => 90
  | RN_Bool => 91 | RN_Breakpoint => 92 | RN_Builtins => 93 | RN_Bytearray => 94
  | RN_Bytes => 95 | RN_Callable => 96 | RN_Chr => 97 | RN_Classmethod => 98
  | RN_Compile => 99 | RN_Complex => 100 | RN_Copyright => 101 | RN_Credits => 102
  | RN_Delattr => 103 | RN_Dict => 104 | RN_Dir => 105 | RN_Divmod => 106
  | RN_Enumerate => 107 | RN_Eval => 108 | RN_Exec => 109 | RN_Exit => 110
  | RN_Filter => 111 | RN_Float => 112 | RN_Format => 113 | RN_Frozenset => 114
  | RN_Getattr => 115 | RN_Globals => 116 | RN_Hasattr => 117 | RN_Hash => 118
  | RN_Help => 119 | RN_Hex => 120 | RN_Id => 121 | RN_Input => 122 | RN_Int => 123
  | RN_Isinstance => 124 | RN_Issubclass => 125 | RN_Iter => 126 | RN_Len => 127
  | RN_License => 128 | RN_List => 129 | RN_Locals => 130 | RN_Map => 131
  | RN_Max => 132 | RN_Memoryview => 133 | RN_Min => 134 | RN_Next => 135
  | RN_Object => 136 | RN_Oct => 137 | RN_Open => 138 | RN_Ord => 139 | RN_Pow => 140
  | RN_Print => 141 | RN_Property => 142 | RN_Quit => 143 | RN_Range => 144
  | RN_Repr => 145 | RN_Reversed => 146 | RN_Round => 147 | RN_Set => 148
  | RN_Setattr => 149 | RN_Slice => 150 | RN_Sorted => 151 | RN_Staticmethod => 152
  | RN_Str => 153 | RN_Sum => 154 | RN_Tuple => 155 | RN_Type => 156 | RN_Vars => 157
  | RN_Zip => 158 | RN_ImportUnderscore => 159 | RN_ImportAttr => 160 | RN_Index => 161
  | RN_UnsupportedFrameBuiltin => 162 | RN_TupleFromIter => 163
  | RN_ConstructorCall => 164 | RN_Deepcopy => 165 | RN_TypingGeneric => 166
  | RN_TypingTypeVar => 167 | RN_TypingTypeVarTuple => 168 | RN_TypingParamSpec => 169
  | RN_TypingTypeAliasType => 170 | RN_TypingUnpack => 171
  | RN_TemplatelibTemplate => 172 | RN_TemplatelibInterpolation => 173
  | RN_BbTraceEnter => 174 | RN_CurrentYieldfrom => 175 | RN_IsCancelledError => 176
  | RN_IsGeneratorClosed => 177 | RN_ReraiseControlFlow => 178
  | RN_ResumeGenerator => 179 | RN_ResumeAsyncGenerator => 180
  | RN_MakePreservedState => 181 | RN_LoadPreservedState => 182
  | RN_NormalizeThrowExc => 183 | RN_CurrentThrowContext => 184
  | RN_ComplexFromParts => 185 | RN_ClassLookupCell => 186
  | RN_ClassLookupGlobal => 187 | RN_ValidateExceptionType => 188
  | RN_ExceptionMatches => 189 | RN_ExceptiongroupSplit => 190 | RN_Unpack => 191
  | RN_CallSuper => 192 | RN_CallSuperNoargs => 193 | RN_MatchClassValidateArity => 194
  | RN_MatchClassAttrExists => 195 | RN_MatchClassAttrValue => 196
  | RN_CodeTemplateGen => 197 | RN_CodeTemplateAsyncGen => 198
  | RN_AnnotationForwardrefValue => 199 | RN_CurrentException => 200
  | RN_CreateClass => 201 | RN_ExcInfo => 202 | RN_ExcInfoFromException => 203
  | RN_GetAwaitableIter => 204 | RN_AwaitIter => 205 | RN_RaiseFrom => 206
  | RN_CallExceptionClass => 207 | RN_ImportStar => 208 | RN_StoreGlobal => 209
  | RN_CellRef => 210 | RN_DelQuietly => 211 | RN_MakeFunction => 212
  | RN_LookupSpecialMethod => 213 | RN_HasSpecialMethod => 214
  | RN_MissingContextProtocolMessage => 215 | RN_ContextmanagerEnter => 216
  | RN_ContextmanagerGetExit => 217 | RN_ContextmanagerExit => 218
  | RN_EnsureAwaitable => 219 | RN_AsynccontextmanagerAenter => 220
  | RN_AsynccontextmanagerGetAexit => 221 | RN_AsynccontextmanagerExit => 222
  | RN_IterRange => 223 | RN_ClosureGenerator => 224 | RN_Coroutine => 225
  | RN_ClosureAsyncGenerator => 226 | RN_AsyncGenSend => 227
  | RN_AwaitIterWrapper => 228 | RN_DynamicCallee => 229
  | RN_MakeGeneratorInstance => 230 | RN_UnpackFixed => 231
  end.

(** The macro compares with the table's entries in order. *)
Definition runtime_name_from_name (name : string) : option RuntimeName :=
  find_first (fun r => bool_decide (runtime_name_name r = name)) ALL.
Definition runtime_name_from_id (id : Z) : option RuntimeName :=
  find_first (fun r => id =? runtime_name_id r) ALL.
Definition is_language_intrinsic (r : RuntimeName) : bool :=
  match r with RN_Globals | RN_UnpackFixed => true | _ => false end.
Definition is_internal_symbol (name : string) : bool :=
  String.prefix "_dp_" name || bool_decide (name = "__soac__").

Lemma runtime_name_from_id_id r : runtime_name_from_id (runtime_name_id r) = Some r.
Proof. by destruct r. Qed.

#[global] Instance runtime_name_id_inj : Inj (=) (=) runtime_name_id.
Proof.
  intros r1 r2 Heq.
  assert (Some r1 = Some r2) as Hs by (by rewrite <- !runtime_name_from_id_id, Heq).
  by injection Hs.
Qed.

#[global] Instance RuntimeName_eq_dec : EqDecision RuntimeName.
Proof.
  refine (fun r1 r2 => cast_if (decide (runtime_name_id r1 = runtime_name_id r2)));
    [by apply (inj runtime_name_id) | congruence].
Defined.

(** ** Locations *)

Record LocalLocation : Type := mkLocalLocation { local_slot : Z }.
Record PreservedLocation : Type := mkPreservedLocation { preserved_location_slot : Z }.
Record GlobalSlot : Type := mkGlobalSlot { global_slot : Z }.
Inductive CellLocation : Type :=
| CL_Owned (slot : Z)
| CL_Preserved (slot : Z)
| CL_Closure (slot : Z)
| CL_CapturedSource (slot : Z)
| CL_Private (slot : Z).
Inductive NameLocation : Type :=
| NL_Local (location : LocalLocation)
| NL_Preserved (location : PreservedLocation)
| NL_GlobalName
| NL_Global (slot : GlobalSlot)
| NL_RuntimeName (name : RuntimeName)
| NL_Cell (location : CellLocation)
| NL_Constant (index : Z).

#[global] Instance LocalLocation_eq_dec : EqDecision LocalLocation.
Proof. solve_decision. Defined.
#[global] Program Instance LocalLocation_countable : Countable LocalLocation :=
  inj_countable' local_slot mkLocalLocation _.
Next Obligation. by intros []. Qed.
#[global] Instance PreservedLocation_eq_dec : EqDecision PreservedLocation.
Proof. solve_decision. Defined.
#[global] Instance GlobalSlot_eq_dec : EqDecision GlobalSlot.
Proof. solve_decision. Defined.
#[global] Instance CellLocation_eq_dec : EqDecision CellLocation.
Proof. solve_decision. Defined.
#[global] Instance NameLocation_eq_dec : EqDecision NameLocation.
Proof. solve_decision. Defined.

Definition cell_slot (c : CellLocation) : Z :=
  match c with
  | CL_Owned slot | CL_Preserved slot | CL_Closure slot | CL_CapturedSource slot
  | CL_Private slot => slot
  end.
Definition as_local (l : NameLocation) : option LocalLocation :=
  match l with NL_Local location => Some location | _ => None end.
Definition as_preserved (l : NameLocation) : option PreservedLocation :=
  match l with NL_Preserved location => Some location | _ => None end.
Definition as_cell (l : NameLocation) : option CellLocation :=
  match l with NL_Cell location => Some location | _ => None end.
Definition as_constant (l : NameLocation) : option Z :=
  match l with NL_Constant index => Some index | _ => None end.
Definition as_global (l : NameLocation) : option GlobalSlot :=
  match l with NL_Global slot => Some slot | _ => None end.
Definition location_runtime_name (l : NameLocation) : option RuntimeName :=
  match l with NL_RuntimeName name => Some name | _ => None end.

(** ** Names *)

Record ResolvedName : Type := mkResolvedName { rn_id : string; rn_location : NameLocation }.

#[global] Instance ResolvedName_eq_dec : EqDecision ResolvedName.
Proof. solve_decision. Defined.

Definition local_location (n : ResolvedName) : option LocalLocation := as_local (rn_location n).
Definition resolved_runtime_name_id (n : ResolvedName) : option RuntimeName :=
  location_runtime_name (rn_location n).
Definition is_runtime_name (n : ResolvedName) : bool := is_some (resolved_runtime_name_id n).

(** [id_str]: a runtime name is spelled by the table, not by its id. *)
Definition id_str (n : ResolvedName) : string :=
  match resolved_runtime_name_id n with
  | Some r => runtime_name_name r
  | None => rn_id n
  end.

(** [is_runtime_symbol] compares two options, so a name outside the table is equal to
    every name that is not a runtime name. *)
Definition is_runtime_symbol (n : ResolvedName) (name : string) : bool :=
  bool_decide (resolved_runtime_name_id n = runtime_name_from_name name).

(** [ResolvedName::runtime_name], which panics outside the table. *)
Definition resolved_runtime_name (name : string) : option ResolvedName :=
  r ← runtime_name_from_name name;
  Some (mkResolvedName (runtime_name_name r) (NL_RuntimeName r)).

(** [OperandLocation] (scope.rs): the storage a compiler operand can own. *)
Inductive OperandLocation : Type :=
| OL_Local (location : LocalLocation)
| OL_Preserved (location : PreservedLocation).
#[global] Instance OperandLocation_eq_dec : EqDecision OperandLocation.
Proof. solve_decision. Defined.
Definition from_name_location (l : NameLocation) : option OperandLocation :=
  match l with
  | NL_Local location => Some (OL_Local location)
  | NL_Preserved location => Some (OL_Preserved location)
  | _ => None
  end.
Definition name_location (o : OperandLocation) : NameLocation :=
  match o with
  | OL_Local location => NL_Local location
  | OL_Preserved location => NL_Preserved location
  end.

(** ** The table is a bijection *)

Lemma runtime_name_from_name_name r : runtime_name_from_name (runtime_name_name r) = Some r.
Proof. by destruct r. Qed.

Lemma runtime_name_from_name_some name r :
  runtime_name_from_name name = Some r -> runtime_name_name r = name.
Proof. intros H. apply find_first_some in H as [_ H]. by apply bool_decide_eq_true in H. Qed.

(** Every runtime name survives both round trips, through its spelling and through
    its id; and a resolved name built from a spelling of the table answers
    [is_runtime_symbol] for that spelling and for no other spelling of the table. *)
Theorem runtime_name_roundtrip (r r' : RuntimeName) :
  runtime_name_from_name (runtime_name_name r) = Some r
  /\ runtime_name_from_id (runtime_name_id r) = Some r
  /\ (forall id, runtime_name_from_id id = Some r <-> runtime_name_id r = id)
  /\ (forall name, runtime_name_from_name name = Some r <-> runtime_name_name r = name)
  /\ exists n, resolved_runtime_name (runtime_name_name r) = Some n
       /\ id_str n = runtime_name_name r
       /\ (is_runtime_symbol n (runtime_name_name r') = true <-> r = r').
Proof.
  split_and!.
  - apply runtime_name_from_name_name.
  - apply runtime_name_from_id_id.
  - intros id; split; [|by intros <-; apply runtime_name_from_id_id].
    intros [_ H]%find_first_some. by apply Z.eqb_eq in H.
  - intros name; split; [apply runtime_name_from_name_some|].
    intros <-. apply runtime_name_from_name_name.
  - exists (mkResolvedName (runtime_name_name r) (NL_RuntimeName r)).
    unfold resolved_runtime_name, is_runtime_symbol.
    rewrite !runtime_name_from_name_name. split_and!; [done..|].
    rewrite bool_decide_eq_true. cbn. split; congruence.
Qed.
