(* ===== verification/Instr.v ===== *)
(** * Lowered BlockPy instructions

    [InstrBlockPy] of crates/soac_ir_blockpy (lib.rs) over the instruction structs of
    crates/soac_core/src/block_py (instr.rs, call_arguments.rs, literal.rs,
    constant_expr.rs, meta.rs), the visitors every pass uses (visit.rs), and the
    assignment and validation of instruction ids (instr_id.rs).

    An instruction is its id, its operation with the fields that are not instructions,
    and its child instructions in the order [visit_children] visits them. *)

From Stdlib Require Import Ascii.
From stdpp Require Import gmap.
From S2P Require Import Prelude Ids Cfg Names.

Local Open Scope Z_scope.

(** ** Operations *)

Inductive BinOpKind : Type :=
| Add | Sub | Mul | MatMul | TrueDiv | FloorDiv | Mod | Pow | LShift | RShift | Or | Xor | And
| Eq | Ne | Lt | Le | Gt | Ge | Contains | Is
| InplaceAdd | InplaceSub | InplaceMul | InplaceMatMul | InplaceTrueDiv | InplaceFloorDiv
| InplaceMod | InplacePow | InplaceLShift | InplaceRShift | InplaceOr | InplaceXor | InplaceAnd.
Inductive UnaryOpKind : Type := Pos | Neg | Invert | Not | Truth.
Inductive ComprehensionInsertKind : Type := ListAppend | SetAdd | DictSetItem.
Inductive CallArgumentOpKind : Type :=
| ExtendPositional | MergeKeywords | FinishPositionalList | NormalizeSingletonStar.

#[global] Instance BinOpKind_eq_dec : EqDecision BinOpKind.
Proof. solve_decision. Defined.
#[global] Instance UnaryOpKind_eq_dec : EqDecision UnaryOpKind.
Proof. solve_decision. Defined.
#[global] Instance ComprehensionInsertKind_eq_dec : EqDecision ComprehensionInsertKind.
Proof. solve_decision. Defined.

Definition has_value (k : CallArgumentOpKind) : bool :=
  match k with ExtendPositional | MergeKeywords => true | _ => false end.
Definition replaces_buffer (k : CallArgumentOpKind) : bool :=
  match k with FinishPositionalList | NormalizeSingletonStar => true | _ => false end.
Definition consumes_buffer_before_helper (k : CallArgumentOpKind) : bool :=
  match k with FinishPositionalList => true | _ => false end.

(** The shape of a call's arguments; the argument instructions are children. *)
Inductive CallArgPositional : Type := CA_Positional | CA_Starred.
Inductive CallArgKeyword : Type := CK_Named (arg : string) | CK_Starred.
Inductive FrameNamespace : Type := FN_ModuleGlobals | FN_Mapping.

Inductive BuildCollectionKind : Type := BC_List | BC_Set | BC_Dict.
(** The binding of a resolved cell-value load. *)
Inductive CellBindingKind : Type := CB_Owner | CB_Capture.
Record CellLoadBinding : Type := mkCellLoadBinding {
  clb_logical_name : string; clb_kind : CellBindingKind }.

(** The owning lifetime of a stored value, and why its producer stored it. *)
Inductive StoreLifetime : Type := SL_Frame | SL_Operand (unwind_order : Z).
Inductive StorePurpose : Type := SP_Binding | SP_BlockParameterTransport.

Record InstrId : Type := mkInstrId { instr_index : Z }.
Record InstrKey : Type := mkInstrKey { ik_function_id : RuntimeFunctionId; ik_instr_id : InstrId }.

#[global] Instance InstrId_eq_dec : EqDecision InstrId.
Proof. solve_decision. Defined.
#[global] Program Instance InstrId_countable : Countable InstrId :=
  inj_countable' instr_index mkInstrId _.
Next Obligation. by intros []. Qed.
#[global] Program Instance RuntimeFunctionId_countable : Countable RuntimeFunctionId :=
  inj_countable' rf_packed mkRuntimeFunctionId _.
Next Obligation. by intros []. Qed.
#[global] Instance InstrKey_eq_dec : EqDecision InstrKey.
Proof. solve_decision. Defined.
#[global] Program Instance InstrKey_countable : Countable InstrKey :=
  inj_countable' (fun k => (ik_function_id k, ik_instr_id k)) (fun p => mkInstrKey p.1 p.2) _.
Next Obligation. by intros []. Qed.

Inductive InstrOp : Type :=
| Op_BinOp (kind : BinOpKind)
| Op_UnaryOp (kind : UnaryOpKind)
| Op_Tuple
| Op_Call (args : list CallArgPositional) (keywords : list CallArgKeyword)
    (frame_namespace : option FrameNamespace)
| Op_GetAttr | Op_SetAttr | Op_GetItem | Op_SetItem | Op_DelItem
| Op_Load (name : ResolvedName) (cell_binding : option CellLoadBinding)
| Op_Store (name : ResolvedName) (lifetime : StoreLifetime) (purpose : StorePurpose)
| Op_Del (name : ResolvedName) (quietly : bool)
| Op_TakeOperand (name : ResolvedName)
| Op_ComprehensionInsert (kind : ComprehensionInsertKind) (container : ResolvedName)
| Op_BuildCollection (kind : BuildCollectionKind)
| Op_CallArgumentOp (kind : CallArgumentOpKind) (callable buffer : ResolvedName)
| Op_PreparedCall (has_keywords : bool) (frame_namespace : option FrameNamespace)
| Op_IteratorStep (name : ResolvedName)
| Op_MakeCell | Op_NewAnnotationSet | Op_SetupAnnotations | Op_ConstructTypeParameterScope
| Op_SubscriptGeneric | Op_SetFunctionTypeParameters | Op_CreateTypeAlias
| Op_CreateTypeParameter | Op_SetTypeParameterDefault | Op_CheckAnnotationFormat
| Op_RecordAnnotation (index : Z)
| Op_IncrementCounter
| Op_CellRef (location : CellLocation)
| Op_MakeFunctionWithClosure (function_id : RuntimeFunctionId) (kind : FunctionKind)
| Op_CompleteFunctionDefinition | Op_ApplyFunctionDescriptor | Op_PrepareClassDecorator
| Op_ApplyClassDecorator | Op_DiscardClassDecorator | Op_DiscardClassConstructionCaptures
| Op_ConstructClass.

Inductive InstrBlockPy : Type :=
| mkInstr (instr_id : option InstrId) (op : InstrOp) (children : list InstrBlockPy).

Definition try_semantic_instr_id (i : InstrBlockPy) : option InstrId :=
  match i with mkInstr instr_id _ _ => instr_id end.
Definition instr_op (i : InstrBlockPy) : InstrOp := match i with mkInstr _ op _ => op end.
Definition instr_children (i : InstrBlockPy) : list InstrBlockPy :=
  match i with mkInstr _ _ children => children end.

Definition as_take_operand (i : InstrBlockPy) : option ResolvedName :=
  match instr_op i with Op_TakeOperand name => Some name | _ => None end.

Section induction.
Variable P : InstrBlockPy -> Prop.
Hypothesis step : forall instr_id op children,
  Forall P children -> P (mkInstr instr_id op children).

(** Induction with the hypothesis for every child. *)
Fixpoint InstrBlockPy_tree_ind (i : InstrBlockPy) : P i :=
  match i with
  | mkInstr instr_id op children =>
      step instr_id op children
        ((fix go (l : list InstrBlockPy) : Forall P l :=
            match l with
            | [] => @List.Forall_nil _ P
            | c :: l => @List.Forall_cons _ P c l (InstrBlockPy_tree_ind c) (go l)
            end) children)
  end.
End induction.

(** ** Constants *)

(** An [f64] is its bit pattern. *)
Inductive NumberLiteralValue : Type := Num_Int (decimal : string) | Num_Float (bits : Z).
Inductive Literal : Type :=
| Lit_String (value : string)
| Lit_Bytes (value : list Z)
| Lit_Number (value : NumberLiteralValue).
Inductive ConstantExpr : Type :=
| Const_Literal (value : Literal)
| Const_RuntimeName (name : RuntimeName).

(** [str::parse::<i64>()]: an optional sign and at least one decimal digit, in range. *)
Definition digit_value (c : Ascii.ascii) : option Z :=
  let n := Z.of_N (Ascii.N_of_ascii c) - 48 in
  if (0 <=? n) && (n <=? 9) then Some n else None.
Fixpoint parse_digits (acc : Z) (s : string) : option Z :=
  match s with
  | EmptyString => Some acc
  | String c s => d ← digit_value c; parse_digits (10 * acc + d) s
  end.
Definition parse_magnitude (s : string) : option Z :=
  match s with EmptyString => None | _ => parse_digits 0 s end.
Definition parse_signed (s : string) : option Z :=
  match s with
  | EmptyString => None
  | String c rest =>
      if Ascii.eqb c "+" then parse_magnitude rest
      else if Ascii.eqb c "-" then Z.opp <$> parse_magnitude rest
      else parse_magnitude s
  end.
Definition as_i64 (decimal : string) : option Z :=
  value ← parse_signed decimal;
  if (- 2 ^ 63 <=? value) && (value <? 2 ^ 63) then Some value else None.
(** [*value != 0.0]: only the two zeros are equal to zero. *)
Definition f64_nonzero (bits : Z) : bool := negb ((bits =? 0) || (bits =? 2 ^ 63)).

(** ** Visitors *)

(** [visit_instr] before its children, and after them. *)
Fixpoint instrs_pre (i : InstrBlockPy) : list InstrBlockPy :=
  match i with mkInstr _ _ children => i :: concat (map instrs_pre children) end.
Fixpoint instrs_post (i : InstrBlockPy) : list InstrBlockPy :=
  match i with mkInstr _ _ children => concat (map instrs_post children) ++ [i] end.

Definition term_instrs (t : BlockTerm InstrBlockPy) : list InstrBlockPy :=
  match t with
  | BT_Jump _ => []
  | BT_If if_term => [ti_test if_term]
  | BT_BranchTable branch => [tb_index branch]
  | BT_Raise raise => option_list (tr_exc raise)
  | BT_Return value | BT_GeneratorReturn value => [value]
  end.
Definition block_instrs (b : Block InstrBlockPy) : list InstrBlockPy :=
  blk_body b ++ term_instrs (blk_term b).
Definition function_instrs (f : BlockPyFunction InstrBlockPy) : list InstrBlockPy :=
  concat (map block_instrs (bf_blocks f)).
Definition visit_fn (f : BlockPyFunction InstrBlockPy) : list InstrBlockPy :=
  concat (map instrs_pre (function_instrs f)).

Definition instr_any (p : InstrBlockPy -> bool) (i : InstrBlockPy) : bool :=
  existsb p (instrs_pre i).

Definition take_location (i : InstrBlockPy) : option OperandLocation :=
  name ← as_take_operand i; from_name_location (rn_location name).
Definition visit_operand_takes (i : InstrBlockPy) : list OperandLocation :=
  omap take_location (instrs_post i).
Definition visit_term_operand_takes (t : BlockTerm InstrBlockPy) : list OperandLocation :=
  concat (map visit_operand_takes (term_instrs t)).

(** [CallArgumentOp::written_names]. *)
Definition written_names (kind : CallArgumentOpKind) (buffer : ResolvedName) : list ResolvedName :=
  if replaces_buffer kind then [buffer] else [].

(** ** Assigning ids *)

(** [visit_instr_mut] of an assigner with state [S]: the node is given its id before
    its children are visited.  A panic is [None]. *)
Section assign.
Context {S : Type} (assign : S -> option InstrId -> option (S * option InstrId)).

Fixpoint visit_instr_mut (s : S) (i : InstrBlockPy) : option (S * InstrBlockPy) :=
  match i with
  | mkInstr instr_id op children =>
      '(s, instr_id) ← assign s instr_id;
      '(s, children) ←
        (fix go (s : S) (l : list InstrBlockPy) : option (S * list InstrBlockPy) :=
           match l with
           | [] => Some (s, [])
           | c :: l => '(s, c) ← visit_instr_mut s c; '(s, l) ← go s l; Some (s, c :: l)
           end) s children;
      Some (s, mkInstr instr_id op children)
  end.

Fixpoint visit_instrs_mut (s : S) (l : list InstrBlockPy) : option (S * list InstrBlockPy) :=
  match l with
  | [] => Some (s, [])
  | c :: l => '(s, c) ← visit_instr_mut s c; '(s, l) ← visit_instrs_mut s l; Some (s, c :: l)
  end.

Definition visit_term_mut (s : S) (t : BlockTerm InstrBlockPy) :
    option (S * BlockTerm InstrBlockPy) :=
  match t with
  | BT_Jump _ => Some (s, t)
  | BT_If i =>
      '(s, test) ← visit_instr_mut s (ti_test i);
      Some (s, BT_If (mkTermIf test (ti_then_label i) (ti_else_label i)))
  | BT_BranchTable b =>
      '(s, index) ← visit_instr_mut s (tb_index b);
      Some (s, BT_BranchTable (mkTermBranchTable index (tb_targets b) (tb_default_label b)))
  | BT_Raise r =>
      match tr_exc r with
      | None => Some (s, t)
      | Some exc =>
          '(s, exc) ← visit_instr_mut s exc;
          Some (s, BT_Raise (mkTermRaise (Some exc) (tr_disposition r)))
      end
  | BT_Return value =>
      '(s, value) ← visit_instr_mut s value; Some (s, BT_Return value)
  | BT_GeneratorReturn value =>
      '(s, value) ← visit_instr_mut s value; Some (s, BT_GeneratorReturn value)
  end.

Definition visit_block_mut (s : S) (b : Block InstrBlockPy) : option (S * Block InstrBlockPy) :=
  '(s, body) ← visit_instrs_mut s (blk_body b);
  '(s, term) ← visit_term_mut s (blk_term b);
  Some (s, mkBlock (blk_label b) body term (blk_params b) (blk_exc_edge b) (blk_extra b)).

Fixpoint visit_blocks_mut (s : S) (l : list (Block InstrBlockPy)) :
    option (S * list (Block InstrBlockPy)) :=
  match l with
  | [] => Some (s, [])
  | b :: l => '(s, b) ← visit_block_mut s b; '(s, l) ← visit_blocks_mut s l; Some (s, b :: l)
  end.
End assign.

Definition with_blocks (f : BlockPyFunction InstrBlockPy) (blocks : list (Block InstrBlockPy)) :
    BlockPyFunction InstrBlockPy :=
  mkBlockPyFunction (bf_function_id f) (bf_qualname f) (bf_kind f) blocks.

(** [checked_add(1).expect(..)] on [u32]. *)
Definition next_index (index : Z) : option Z :=
  if index + 1 <? 2 ^ 32 then Some (index + 1) else None.

Definition assign_id (index : Z) (_ : option InstrId) : option (Z * option InstrId) :=
  next ← next_index index; Some (next, Some (mkInstrId index)).
Definition reassign_blockpy_function_instr_ids (f : BlockPyFunction InstrBlockPy) :
    option (BlockPyFunction InstrBlockPy) :=
  '(_, blocks) ← visit_blocks_mut assign_id 0 (bf_blocks f); Some (with_blocks f blocks).
Definition assign_blockpy_module_instr_ids (callable_defs : list (BlockPyFunction InstrBlockPy)) :
    option (list (BlockPyFunction InstrBlockPy)) :=
  mapM reassign_blockpy_function_instr_ids callable_defs.

(** [MaxIdCollector]: the ids in use and the first index above all of them. *)
Definition collect_id (state : Z * gset InstrId) (i : InstrBlockPy) : option (Z * gset InstrId) :=
  match try_semantic_instr_id i with
  | None => Some state
  | Some instr_id =>
      above ← next_index (instr_index instr_id);
      Some (Z.max state.1 above, {[instr_id]} ∪ state.2)
  end.
Fixpoint collect_ids (state : Z * gset InstrId) (l : list InstrBlockPy) :
    option (Z * gset InstrId) :=
  match l with
  | [] => Some state
  | i :: l => state ← collect_id state i; collect_ids state l
  end.

(** [while used.contains(next) { next += 1 }]: [fuel] bounds the number of used ids. *)
Fixpoint skip_used (fuel : nat) (used : gset InstrId) (index : Z) : option Z :=
  if bool_decide (mkInstrId index ∈ used) then
    match fuel with
    | O => None
    | S fuel => index ← next_index index; skip_used fuel used index
    end
  else Some index.
Definition assign_missing_id (state : Z * gset InstrId) (instr_id : option InstrId) :
    option ((Z * gset InstrId) * option InstrId) :=
  match instr_id with
  | Some _ => Some (state, instr_id)
  | None =>
      index ← skip_used (size state.2) state.2 state.1;
      next ← next_index index;
      Some ((next, {[mkInstrId index]} ∪ state.2), Some (mkInstrId index))
  end.
Definition assign_missing_blockpy_function_instr_ids (f : BlockPyFunction InstrBlockPy) :
    option (BlockPyFunction InstrBlockPy) :=
  state ← collect_ids (0, ∅) (visit_fn f);
  '(_, blocks) ← visit_blocks_mut assign_missing_id state (bf_blocks f);
  Some (with_blocks f blocks).

(** ** Validating ids *)

Inductive InstrIdError : Type :=
| MissingInstrId (qualname : string) (function_id : RuntimeFunctionId)
| DuplicateInstrId (key : InstrKey) (qualname : string).

Definition is_increment_counter (i : InstrBlockPy) : bool :=
  match instr_op i with Op_IncrementCounter => true | _ => false end.

Definition validate_instr_id (f : BlockPyFunction InstrBlockPy)
    (state : gset InstrKey * list InstrIdError) (i : InstrBlockPy) :
    gset InstrKey * list InstrIdError :=
  let (seen, errors) := state in
  match try_semantic_instr_id i with
  | None =>
      if is_increment_counter i then state
      else (seen, errors ++ [MissingInstrId (bf_qualname f) (bf_function_id f)])
  | Some instr_id =>
      let key := mkInstrKey (bf_function_id f) instr_id in
      if bool_decide (key ∈ seen) then (seen, errors ++ [DuplicateInstrId key (bf_qualname f)])
      else ({[key]} ∪ seen, errors)
  end.
Definition validate_function_instr_ids (f : BlockPyFunction InstrBlockPy) : list InstrIdError :=
  (fold_left (validate_instr_id f) (visit_fn f) (∅, [])).2.
Definition validate_blockpy_instr_ids (callable_defs : list (BlockPyFunction InstrBlockPy)) :
    result (list InstrIdError) unit :=
  let errors := concat (map validate_function_instr_ids callable_defs) in
  ensure (bool_decide (length errors = 0%nat)) errors.
