(* ===== verification/InstrProps.v ===== *)
(** * Instruction ids: theorems

    A traversal that assigns ids is a sequential assignment over the preorder list of
    ids, which leaves everything else of the function as it was. *)

From stdpp Require Import gmap.
From S2P Require Import Prelude Ids Cfg Names Instr.

Local Open Scope Z_scope.

Definition ids (l : list InstrBlockPy) : list (option InstrId) :=
  map try_semantic_instr_id (concat (map instrs_pre l)).
Arguments ids : simpl never.
Arguments visit_fn : simpl never.

(** The function without its ids: what an assigner must not touch. *)
Fixpoint erase_ids (i : InstrBlockPy) : InstrBlockPy :=
  match i with mkInstr _ op children => mkInstr None op (map erase_ids children) end.
Definition erase_term (t : BlockTerm InstrBlockPy) : BlockTerm InstrBlockPy :=
  match t with
  | BT_Jump _ => t
  | BT_If i => BT_If (mkTermIf (erase_ids (ti_test i)) (ti_then_label i) (ti_else_label i))
  | BT_BranchTable b =>
      BT_BranchTable (mkTermBranchTable (erase_ids (tb_index b)) (tb_targets b) (tb_default_label b))
  | BT_Raise r => BT_Raise (mkTermRaise (erase_ids <$> tr_exc r) (tr_disposition r))
  | BT_Return value => BT_Return (erase_ids value)
  | BT_GeneratorReturn value => BT_GeneratorReturn (erase_ids value)
  end.
Definition erase_block (b : Block InstrBlockPy) : Block InstrBlockPy :=
  mkBlock (blk_label b) (map erase_ids (blk_body b)) (erase_term (blk_term b)) (blk_params b)
    (blk_exc_edge b) (blk_extra b).
Definition erase_function (f : BlockPyFunction InstrBlockPy) : BlockPyFunction InstrBlockPy :=
  with_blocks f (map erase_block (bf_blocks f)).

Definition blocks_instrs (l : list (Block InstrBlockPy)) : list InstrBlockPy :=
  concat (map block_instrs l).
Arguments blocks_instrs : simpl never.

Lemma ids_app l k : ids (l ++ k) = ids l ++ ids k.
Proof. unfold ids. by rewrite map_app, concat_app, map_app. Qed.
Lemma ids_single i : ids [i] = try_semantic_instr_id i :: ids (instr_children i).
Proof. destruct i. unfold ids. cbn. by rewrite app_nil_r. Qed.
Lemma ids_cons i l : ids (i :: l) = ids [i] ++ ids l.
Proof. apply (ids_app [i]). Qed.
Lemma ids_blocks_cons b l : ids (blocks_instrs (b :: l)) = ids (block_instrs b) ++ ids (blocks_instrs l).
Proof. apply ids_app. Qed.

Section traversal.
Context {S : Type} (assign : S -> option InstrId -> option (S * option InstrId)).

(** The reference: one assignment after the other over a list of ids. *)
Fixpoint assign_all (s : S) (l : list (option InstrId)) : option (S * list (option InstrId)) :=
  match l with
  | [] => Some (s, [])
  | x :: l => '(s, x) ← assign s x; '(s, l) ← assign_all s l; Some (s, x :: l)
  end.

Lemma assign_all_app l k s :
  assign_all s (l ++ k) =
  '(s, l) ← assign_all s l; '(s, k) ← assign_all s k; Some (s, l ++ k).
Proof.
  revert s. induction l as [|x l IH]; intros s; cbn.
  - by destruct (assign_all s k) as [[]|].
  - destruct (assign s x) as [[s1 y]|]; cbn; [|done]. rewrite IH.
    destruct (assign_all s1 l) as [[s2 l2]|]; cbn; [|done].
    by destruct (assign_all s2 k) as [[]|].
Qed.

(** What a traversal of the list [l] that returns [r] must have done. *)
Definition follows (s : S) (l : list InstrBlockPy) (r : option (S * list InstrBlockPy)) : Prop :=
  assign_all s (ids l) = (fun p => (p.1, ids p.2)) <$> r /\
  (forall p, r = Some p -> map erase_ids p.2 = map erase_ids l).

Lemma visit_instr_mut_eq s i :
  visit_instr_mut assign s i =
  '(s, instr_id) ← assign s (try_semantic_instr_id i);
  '(s, children) ← visit_instrs_mut assign s (instr_children i);
  Some (s, mkInstr instr_id (instr_op i) children).
Proof. by destruct i. Qed.

Lemma follows_cons s i l :
  (forall s, follows s [i] ((fun p => (p.1, [p.2])) <$> visit_instr_mut assign s i)) ->
  (forall s, follows s l (visit_instrs_mut assign s l)) ->
  follows s (i :: l) (visit_instrs_mut assign s (i :: l)).
Proof.
  intros Hi Hl. destruct (Hi s) as [Hi1 Hi2]. unfold follows.
  rewrite ids_cons, assign_all_app, Hi1. cbn.
  destruct (visit_instr_mut assign s i) as [[s1 i1]|]; cbn; [|naive_solver].
  destruct (Hl s1) as [Hl1 Hl2]. rewrite Hl1.
  destruct (visit_instrs_mut assign s1 l) as [[s2 l2]|]; cbn; [|naive_solver].
  rewrite (ids_cons i1 l2). split; [done|]. intros p [= <-]. cbn.
  specialize (Hi2 _ eq_refl). specialize (Hl2 _ eq_refl). cbn in *. congruence.
Qed.

Lemma follows_instr i s : follows s [i] ((fun p => (p.1, [p.2])) <$> visit_instr_mut assign s i).
Proof.
  revert s. induction i as [instr_id op children IH] using InstrBlockPy_tree_ind. intros s.
  assert (forall s, follows s children (visit_instrs_mut assign s children)) as Hc.
  { clear s. induction IH as [|c l Hc _ IHl]; intros s; [by split; [|intros p [= <-]]|].
    by apply follows_cons. }
  unfold follows. rewrite ids_single, visit_instr_mut_eq. cbn.
  destruct (assign s instr_id) as [[s1 y]|]; cbn; [|naive_solver].
  destruct (Hc s1) as [Hc1 Hc2]. rewrite Hc1.
  destruct (visit_instrs_mut assign s1 children) as [[s2 l2]|]; cbn; [|naive_solver].
  split; [by rewrite ids_single|]. intros p [= <-]. specialize (Hc2 _ eq_refl).
  cbn in *. congruence.
Qed.

Lemma follows_instrs l s : follows s l (visit_instrs_mut assign s l).
Proof.
  revert s. induction l as [|i l IH]; intros s; [by split; [|intros p [= <-]]|].
  apply follows_cons; [apply follows_instr|done].
Qed.

(** One child instruction of a term, and the terms without one. *)
Lemma visit_term_mut_spec s t :
  assign_all s (ids (term_instrs t)) =
    (fun p => (p.1, ids (term_instrs p.2))) <$> visit_term_mut assign s t /\
  (forall p, visit_term_mut assign s t = Some p -> erase_term p.2 = erase_term t).
Proof.
  assert (forall i s, assign_all s (ids [i]) =
            (fun p => (p.1, ids [p.2])) <$> visit_instr_mut assign s i /\
          (forall p, visit_instr_mut assign s i = Some p -> erase_ids p.2 = erase_ids i)) as Hone.
  { clear s. intros i s. destruct (follows_instr i s) as [H1 H2].
    destruct (visit_instr_mut assign s i) as [[s1 i1]|]; [|naive_solver]. split; [done|].
    intros p [= <-]. specialize (H2 _ eq_refl). cbn in *. congruence. }
  destruct t as [edge|[i tl el]|[i ts d]|[[i|] d]|i|i]; cbn; [naive_solver|..];
    try (destruct (Hone i s) as [H1 H2]; cbn in *; rewrite H1;
         destruct (visit_instr_mut assign s i) as [[s1 i1]|]; cbn; [|naive_solver];
         split; [done|]; intros p [= <-]; specialize (H2 _ eq_refl); cbn in *; congruence).
  naive_solver.
Qed.

Lemma visit_block_mut_spec s b :
  assign_all s (ids (block_instrs b)) =
    (fun p => (p.1, ids (block_instrs p.2))) <$> visit_block_mut assign s b /\
  (forall p, visit_block_mut assign s b = Some p -> erase_block p.2 = erase_block b).
Proof.
  unfold visit_block_mut, block_instrs. rewrite ids_app, assign_all_app.
  destruct (follows_instrs (blk_body b) s) as [H1 H2]. rewrite H1.
  destruct (visit_instrs_mut assign s (blk_body b)) as [[s1 l1]|]; cbn; [|naive_solver].
  destruct (visit_term_mut_spec s1 (blk_term b)) as [H3 H4]. rewrite H3.
  destruct (visit_term_mut assign s1 (blk_term b)) as [[s2 t2]|]; cbn; [|naive_solver].
  rewrite ids_app. split; [done|]. intros p [= <-]. specialize (H2 _ eq_refl).
  specialize (H4 _ eq_refl). unfold erase_block. cbn in *. congruence.
Qed.

Lemma visit_blocks_mut_spec s l :
  assign_all s (ids (blocks_instrs l)) =
    (fun p => (p.1, ids (blocks_instrs p.2))) <$> visit_blocks_mut assign s l /\
  (forall p, visit_blocks_mut assign s l = Some p -> map erase_block p.2 = map erase_block l).
Proof.
  revert s. induction l as [|b l IH]; intros s; [naive_solver|]. cbn.
  rewrite ids_blocks_cons, assign_all_app.
  destruct (visit_block_mut_spec s b) as [H1 H2]. rewrite H1.
  destruct (visit_block_mut assign s b) as [[s1 b1]|]; cbn; [|naive_solver].
  destruct (IH s1) as [H3 H4]. rewrite H3.
  destruct (visit_blocks_mut assign s1 l) as [[s2 l2]|]; cbn; [|naive_solver].
  rewrite ids_blocks_cons. split; [done|]. intros p [= <-]. specialize (H2 _ eq_refl).
  specialize (H4 _ eq_refl). cbn in *. congruence.
Qed.
End traversal.

(** ** Validation *)

(** What the validator means: every instruction but a counter has an id, and no two
    instructions have the same. *)
Definition ids_valid (l : list InstrBlockPy) : Prop :=
  (forall i, i ∈ l -> try_semantic_instr_id i = None -> is_increment_counter i = true) /\
  NoDup (omap try_semantic_instr_id l).

Lemma validate_fold f l seen errors :
  (fold_left (validate_instr_id f) l (seen, errors)).2 = [] <->
  errors = [] /\ ids_valid l /\
  (forall x, x ∈ omap try_semantic_instr_id l -> mkInstrKey (bf_function_id f) x ∉ seen).
Proof.
  revert seen errors. induction l as [|i l IH]; intros seen errors; cbn.
  - unfold ids_valid. cbn. split; [|naive_solver]. intros ->. split_and!; [done| | |].
    + intros i Hi. by apply not_elem_of_nil in Hi.
    + apply NoDup_nil_2.
    + intros x Hx. by apply not_elem_of_nil in Hx.
  - unfold ids_valid. setoid_rewrite elem_of_cons. cbn.
    destruct (try_semantic_instr_id i) as [x|] eqn:Hx.
    + case_bool_decide as Hseen; rewrite IH; unfold ids_valid.
      * split; [intros [[? [=]]%app_eq_nil _]|]. intros (_ & _ & Hs).
        by destruct (Hs x (list_elem_of_here _ _)).
      * rewrite NoDup_cons. setoid_rewrite elem_of_cons. split.
        2:{ intros (-> & [Hn [Hx' Hd]] & Hs). split_and!; [done|by auto|done|].
            intros y Hy [[= ->]%elem_of_singleton|Hy']%elem_of_union; [done|].
            by apply (Hs y); [right|]. }
        intros (-> & [Hn Hd] & Hs). split_and!; [done|naive_solver| |done|].
        { intros Hin. by apply (Hs x Hin), elem_of_union_l, elem_of_singleton. }
        intros y [->|Hy]; [done|]. intros Hy'. by apply (Hs y Hy), elem_of_union_r.
    + destruct (is_increment_counter i) eqn:Hc; rewrite IH; unfold ids_valid.
      * split; intros (-> & [Hn Hd] & Hs); split_and!; try done; [|by auto].
        intros j [->|Hj] Hj'; [done|by apply Hn].
      * split; [intros [[? [=]]%app_eq_nil _]|]. intros (_ & [Hn _] & _).
        rewrite (Hn i (or_introl eq_refl) Hx) in Hc. discriminate.
Qed.

Lemma validate_function_ok f :
  validate_function_instr_ids f = [] <-> ids_valid (visit_fn f).
Proof. unfold validate_function_instr_ids. rewrite validate_fold.
  split; [naive_solver|]. intros H. split_and!; [done..|]. intros x _. apply not_elem_of_empty.
Qed.

Lemma validate_module_ok defs :
  validate_blockpy_instr_ids defs = Ok tt <-> Forall (fun f => ids_valid (visit_fn f)) defs.
Proof.
  unfold validate_blockpy_instr_ids, ensure.
  assert (length (concat (map validate_function_instr_ids defs)) = 0%nat <->
          Forall (fun f => ids_valid (visit_fn f)) defs) as <-.
  { induction defs as [|f defs IH]; cbn; [by split|].
    rewrite length_app, Forall_cons, <- IH, <- validate_function_ok.
    destruct (validate_function_instr_ids f); cbn; split; try lia; naive_solver lia. }
  case_bool_decide; naive_solver.
Qed.

(** The ids of a function decide [ids_valid] when every instruction has one. *)
Lemma omap_ids (l : list InstrBlockPy) :
  omap try_semantic_instr_id l = omap id (map try_semantic_instr_id l).
Proof. induction l as [|i l IH]; cbn; [done|]. destruct (try_semantic_instr_id i); by rewrite IH. Qed.

Lemma ids_valid_all l :
  (forall x, x ∈ map try_semantic_instr_id l -> is_Some x) ->
  ids_valid l <-> NoDup (omap id (map try_semantic_instr_id l)).
Proof.
  intros Hall. unfold ids_valid. rewrite omap_ids. split; [naive_solver|]. intros Hnd.
  split; [|done]. intros i Hi Hnone. destruct (Hall None) as [? [=]].
  rewrite <- Hnone. by apply list_elem_of_fmap_2.
Qed.

(** ** Fresh numbering *)

Definition numbered (start : Z) (n : nat) : list (option InstrId) :=
  map (fun k => Some (mkInstrId (start + Z.of_nat k))) (seq 0 n).

Lemma numbered_S start n : numbered start (S n) = Some (mkInstrId start) :: numbered (start + 1) n.
Proof.
  unfold numbered. cbn. rewrite Z.add_0_r. f_equal. rewrite <- seq_shift, map_map.
  apply map_ext. intros k. do 2 f_equal. lia.
Qed.

Lemma numbered_some start n x : x ∈ numbered start n -> is_Some x.
Proof. intros (k & -> & _)%list_elem_of_fmap_1. done. Qed.

Lemma numbered_nodup start n : NoDup (omap id (numbered start n)).
Proof.
  revert start. induction n as [|n IH]; intros start; [apply NoDup_nil_2|].
  rewrite numbered_S. cbn. apply NoDup_cons. split; [|done].
  intros (y & Hy & Heq)%list_elem_of_omap. apply list_elem_of_fmap_1 in Hy as (k & -> & _).
  injection Heq. lia.
Qed.

Lemma assign_all_numbered l n :
  0 <= n < 2 ^ 32 ->
  assign_all assign_id n l =
  if n + Z.of_nat (length l) <? 2 ^ 32 then Some (n + Z.of_nat (length l), numbered n (length l))
  else None.
Proof.
  revert n. induction l as [|x l IH]; intros n Hn; cbn [length assign_all].
  - rewrite Z.add_0_r. by replace (n <? 2 ^ 32) with true by (symmetry; apply Z.ltb_lt; lia).
  - assert (assign_id n x = if n + 1 <? 2 ^ 32 then Some (n + 1, Some (mkInstrId n)) else None)
      as -> by (unfold assign_id, next_index; by destruct (_ <? _)).
    destruct (n + 1 <? 2 ^ 32) eqn:E; cbn [mbind option_bind].
    + apply Z.ltb_lt in E. rewrite IH by lia. rewrite numbered_S.
      replace (n + 1 + Z.of_nat (length l)) with (n + Z.of_nat (S (length l))) by lia.
      by destruct (_ <? _).
    + apply Z.ltb_ge in E.
      by replace (_ <? _) with false by (symmetry; apply Z.ltb_ge; lia).
Qed.

Lemma visit_fn_ids f : map try_semantic_instr_id (visit_fn f) = ids (blocks_instrs (bf_blocks f)).
Proof. done. Qed.

Lemma length_ids f : length (ids (blocks_instrs (bf_blocks f))) = length (visit_fn f).
Proof. by rewrite <- visit_fn_ids, length_map. Qed.

(** Renumbering one function. *)
Lemma reassign_function_spec f :
  match reassign_blockpy_function_instr_ids f with
  | Some f' =>
      erase_function f' = erase_function f /\
      map try_semantic_instr_id (visit_fn f') = numbered 0 (length (visit_fn f))
  | None => 2 ^ 32 <= Z.of_nat (length (visit_fn f))
  end.
Proof.
  unfold reassign_blockpy_function_instr_ids.
  destruct (visit_blocks_mut_spec assign_id 0 (bf_blocks f)) as [H1 H2].
  rewrite assign_all_numbered, length_ids in H1 by lia.
  destruct (visit_blocks_mut assign_id 0 (bf_blocks f)) as [[s blocks]|]; cbn in *.
  - specialize (H2 _ eq_refl). destruct (_ <? _); [|done]. injection H1 as _ H1.
    rewrite visit_fn_ids. cbn. split; [|done]. unfold erase_function, with_blocks. cbn in *. congruence.
  - destruct (_ <? _) eqn:E; [done|]. by apply Z.ltb_ge in E.
Qed.

(** renumbering a module gives the instructions of every function the ids 0, 1, 2, ...
    in visit order, changes nothing but the ids, and its result always passes the id
    validator; it fails exactly when a function has too many instructions for [u32]. *)
Theorem reassigned_ids_validate (defs : list (BlockPyFunction InstrBlockPy)) :
  match assign_blockpy_module_instr_ids defs with
  | Some defs' =>
      map erase_function defs' = map erase_function defs /\
      map (fun f => map try_semantic_instr_id (visit_fn f)) defs' =
        map (fun f => numbered 0 (length (visit_fn f))) defs /\
      validate_blockpy_instr_ids defs' = Ok tt
  | None => exists f, f ∈ defs /\ 2 ^ 32 <= Z.of_nat (length (visit_fn f))
  end.
Proof.
  unfold assign_blockpy_module_instr_ids.
  induction defs as [|f defs IH]; [done|]. cbn [mapM]. pose proof (reassign_function_spec f) as Hf.
  destruct (reassign_blockpy_function_instr_ids f) as [f'|].
  2:{ exists f. split; [apply list_elem_of_here|done]. }
  cbn [mbind option_bind]. destruct (mapM _ defs) as [defs'|].
  2:{ destruct IH as (g & Hg & Hlen). exists g. split; [by apply list_elem_of_further|done]. }
  destruct IH as (He & Hi & Hv), Hf as [Hef Hif]. cbn. split_and!; [congruence..|].
  apply validate_module_ok, Forall_cons. split; [|by apply validate_module_ok].
  apply ids_valid_all; rewrite Hif; [apply numbered_some|apply numbered_nodup].
Qed.

(** ** Missing ids *)

(** The first index above every id of the list. *)
Fixpoint first_unused (l : list (option InstrId)) : Z :=
  match l with
  | [] => 0
  | Some x :: l => Z.max (instr_index x + 1) (first_unused l)
  | None :: l => first_unused l
  end.
Fixpoint missing (l : list (option InstrId)) : Z :=
  match l with
  | [] => 0
  | Some _ :: l => missing l
  | None :: l => 1 + missing l
  end.
(** The reference: missing ids are numbered from [next], the others kept. *)
Fixpoint fill (next : Z) (l : list (option InstrId)) : list (option InstrId) :=
  match l with
  | [] => []
  | Some x :: l => Some x :: fill next l
  | None :: l => Some (mkInstrId next) :: fill (next + 1) l
  end.

Lemma missing_nonneg l : 0 <= missing l.
Proof. induction l as [|[]]; cbn; lia. Qed.
Lemma first_unused_nonneg l : 0 <= first_unused l.
Proof. induction l as [|[]]; cbn; lia. Qed.
Lemma first_unused_above l x : Some x ∈ l -> instr_index x < first_unused l.
Proof.
  induction l as [|y l IH]; [by intros ?%not_elem_of_nil|].
  intros [<-|H]%elem_of_cons; cbn; [lia|]. destruct y; specialize (IH H); lia.
Qed.

Lemma collect_ids_spec l next used :
  0 <= next ->
  match collect_ids (next, used) l with
  | Some (next', used') =>
      next' = Z.max next (first_unused (map try_semantic_instr_id l)) /\
      (first_unused (map try_semantic_instr_id l) < 2 ^ 32) /\
      (forall x, x ∈ used' <-> x ∈ used \/ Some x ∈ map try_semantic_instr_id l)
  | None => 2 ^ 32 <= first_unused (map try_semantic_instr_id l)
  end.
Proof.
  revert next used. induction l as [|i l IH]; intros next used Hnext; cbn [collect_ids].
  - change (first_unused (map try_semantic_instr_id [])) with 0. split_and!; [lia..|]. set_solver.
  - unfold collect_id, next_index. cbn [map first_unused]. destruct (try_semantic_instr_id i) as [x|].
    + destruct (_ <? _) eqn:E; cbn [mbind option_bind fst snd].
      * apply Z.ltb_lt in E. specialize (IH (Z.max next (instr_index x + 1)) ({[x]} ∪ used)
                                                   ltac:(lia)).
        destruct (collect_ids _ l) as [[next' used']|]; [|lia].
        destruct IH as (-> & ? & Hu). split_and!; [lia..|]. intros y. rewrite Hu. set_solver.
      * apply Z.ltb_ge in E. lia.
    + cbn [mbind option_bind]. specialize (IH next used Hnext).
      destruct (collect_ids _ l) as [[]|]; [|done]. set_solver.
Qed.

Lemma assign_missing_fill l next used :
  0 <= next < 2 ^ 32 -> (forall x, x ∈ used -> instr_index x < next) ->
  snd <$> assign_all assign_missing_id (next, used) l =
  if next + missing l <? 2 ^ 32 then Some (fill next l) else None.
Proof.
  revert next used. induction l as [|[x|] l IH]; intros next used Hn Hused; cbn [assign_all missing fill].
  - rewrite Z.add_0_r. by replace (next <? 2 ^ 32) with true by (symmetry; apply Z.ltb_lt; lia).
  - cbn [assign_missing_id mbind option_bind]. specialize (IH next used Hn Hused).
    destruct (_ <? _), (assign_all _ _ l) as [[]|]; cbn in *; congruence.
  - pose proof (missing_nonneg l).
    assert (assign_missing_id (next, used) None =
            if next + 1 <? 2 ^ 32 then
              Some ((next + 1, {[mkInstrId next]} ∪ used), Some (mkInstrId next)) else None) as ->.
    { assert (mkInstrId next ∉ used) by (intros Hin; specialize (Hused _ Hin); cbn in Hused; lia).
      cbn. destruct (size used); cbn; rewrite bool_decide_false by done; cbn; unfold next_index;
        by destruct (_ <? _). }
    destruct (next + 1 <? 2 ^ 32) eqn:E; cbn [mbind option_bind].
    + apply Z.ltb_lt in E. specialize (IH (next + 1) ({[mkInstrId next]} ∪ used) ltac:(lia)).
      replace (next + (1 + missing l)) with (next + 1 + missing l) by lia.
      specialize (IH ltac:(intros y [->%elem_of_singleton|Hy]%elem_of_union;
                           [cbn; lia|specialize (Hused _ Hy); lia])).
      destruct (_ <? _), (assign_all _ _ l) as [[]|]; cbn in *; congruence.
    + apply Z.ltb_ge in E. cbn. by replace (_ <? _) with false by (symmetry; apply Z.ltb_ge; lia).
Qed.

Lemma fill_some next l x : x ∈ fill next l -> is_Some x.
Proof.
  revert next. induction l as [|[y|] l IH]; intros next; cbn; [by intros ?%not_elem_of_nil|..];
    intros [->|H]%elem_of_cons; [done|by eapply IH|done|by eapply IH].
Qed.

Lemma fill_elem next l x :
  x ∈ omap id (fill next l) -> x ∈ omap id l \/ next <= instr_index x.
Proof.
  revert next. induction l as [|[y|] l IH]; intros next; cbn; [by left|..];
    rewrite ?elem_of_cons.
  - intros [->|H]; [by do 2 left|]. destruct (IH _ H); auto.
  - intros [->|H]; [by right|]. destruct (IH _ H); [by left|right; lia].
Qed.

Lemma fill_keeps next l x : x ∈ omap id l -> x ∈ omap id (fill next l).
Proof.
  revert next. induction l as [|[y|] l IH]; intros next; cbn; rewrite ?elem_of_cons; [done|..];
    naive_solver.
Qed.

Lemma fill_nodup next l :
  first_unused l <= next -> NoDup (omap id (fill next l)) <-> NoDup (omap id l).
Proof.
  revert next. induction l as [|[y|] l IH]; intros next; cbn; [done|..]; intros Hnext.
  - rewrite !NoDup_cons, (IH next) by lia.
    enough (y ∈ omap id (fill next l) <-> y ∈ omap id l) as -> by done.
    split; [|apply fill_keeps]. intros [Hy|Hy]%fill_elem; [done|lia].
  - rewrite NoDup_cons, (IH (next + 1)) by lia. split; [naive_solver|]. intros Hnd.
    split; [|done]. intros [Hy|Hy]%fill_elem; [|cbn in Hy; lia].
    apply list_elem_of_omap in Hy as (z & Hz & Heq). unfold id in Heq. subst z.
    apply first_unused_above in Hz. cbn in Hz. lia.
Qed.

(** C33: Completing ids keeps every id a function already has, numbers the others upwards
    from the first index above them, changes nothing else, and passes the validator
    exactly when the ids the function already had were distinct; it fails exactly when
    the numbering would leave [u32]. *)
Theorem missing_ids_completed (f : BlockPyFunction InstrBlockPy) :
  let before := map try_semantic_instr_id (visit_fn f) in
  match assign_missing_blockpy_function_instr_ids f with
  | Some f' =>
      first_unused before + missing before < 2 ^ 32 /\
      erase_function f' = erase_function f /\
      map try_semantic_instr_id (visit_fn f') = fill (first_unused before) before /\
      (validate_blockpy_instr_ids [f'] = Ok tt <-> NoDup (omap id before))
  | None => 2 ^ 32 <= first_unused before + missing before
  end.
Proof.
  intros before. unfold assign_missing_blockpy_function_instr_ids.
  pose proof (first_unused_nonneg before). pose proof (missing_nonneg before).
  pose proof (collect_ids_spec (visit_fn f) 0 ∅ ltac:(lia)) as Hc. fold before in Hc.
  destruct (collect_ids (0, ∅) (visit_fn f)) as [[next used]|]; cbn [mbind option_bind]; [|lia].
  destruct Hc as (-> & Hlt & Hused). rewrite Z.max_r in * by lia.
  destruct (visit_blocks_mut_spec assign_missing_id (first_unused before, used) (bf_blocks f))
    as [H1 H2]. rewrite <- visit_fn_ids in H1. fold before in H1.
  pose proof (assign_missing_fill before (first_unused before) used ltac:(lia)) as H3.
  rewrite H1 in H3. clear H1.
  assert (forall x, x ∈ used -> instr_index x < first_unused before) as Hu.
  { intros x [Hx|Hx]%Hused; [by apply not_elem_of_empty in Hx|by apply first_unused_above]. }
  specialize (H3 Hu).
  destruct (visit_blocks_mut _ _ (bf_blocks f)) as [[s blocks]|]; cbn [mbind option_bind].
  - destruct (_ <? _) eqn:E; [|done]. apply Z.ltb_lt in E. cbn in H3. injection H3 as H3. specialize (H2 _ eq_refl).
    assert (map try_semantic_instr_id (visit_fn (with_blocks f blocks)) =
            fill (first_unused before) before) as Hids by done.
    split; [done|]. split; [unfold erase_function, with_blocks; cbn in *; congruence|]. split; [done|].
    rewrite validate_module_ok, Forall_singleton, ids_valid_all, Hids by (rewrite Hids; apply fill_some).
    by apply fill_nodup.
  - destruct (_ <? _) eqn:E; [done|]. by apply Z.ltb_ge in E.
Qed.
