(* ===== verification/ValueFacts.v ===== *)
(** * Value facts

    crates/soac_ir_typed/src/value_facts.rs: what is known of a Python value, the
    environments of facts on local slots with their intersection, and the store of
    facts by instruction and by block. *)

From stdpp Require Import gmap.
From S2P Require Import Prelude Ids Cfg Names Instr.

Local Open Scope Z_scope.

(** ** Facts *)

Inductive TruthinessFact : Type := Truth_Unknown | AlwaysTrue | AlwaysFalse.
Inductive PyExactType : Type := PT_NoneType | PT_Bool | PT_Str | PT_Bytes | PT_Int | PT_Float.
Inductive TypeFact : Type := Type_Unknown | Type_Exact (t : PyExactType).
Inductive RuntimeSingleton : Type := RS_None | RS_True | RS_False.
Inductive NoneFact : Type := None_Unknown | IsNone | IsNotNone.
Inductive PyObjectNullabilityFact : Type := Null_Unknown | NonNull.
Inductive BoolSingletonFact : Type := Bool_Unknown | IsTrue | IsFalse.
Inductive RefcountFact : Type := Refcount_Unknown | Immortal.
Inductive ProvenanceFact : Type :=
| Prov_Unknown | Prov_RuntimeSingleton (s : RuntimeSingleton) | Prov_ModuleConstant (index : Z).
Inductive RuntimeHelperId : Type :=
| H_Globals | H_Index | H_Str | H_CellRef | H_TupleFromIter | H_MakeFunction | H_CreateClass
| H_Import | H_ImportAttr | H_ClassLookupGlobal | H_ClassLookupCell.
Inductive ThrowSpec : Type :=
| Throw_Never | ThrowsOnNullPyObj | ThrowsOnI32Sentinel (value : Z)
| ThrowsOnI64Sentinel (value : Z) | ThrowsOnNonZeroI32.
Inductive CallableFact : Type := Callable_Unknown | Callable_RuntimeHelper (h : RuntimeHelperId).

#[global] Instance TruthinessFact_eq_dec : EqDecision TruthinessFact.
Proof. solve_decision. Defined.
#[global] Instance PyExactType_eq_dec : EqDecision PyExactType.
Proof. solve_decision. Defined.
#[global] Instance TypeFact_eq_dec : EqDecision TypeFact.
Proof. solve_decision. Defined.
#[global] Instance RuntimeSingleton_eq_dec : EqDecision RuntimeSingleton.
Proof. solve_decision. Defined.
#[global] Instance NoneFact_eq_dec : EqDecision NoneFact.
Proof. solve_decision. Defined.
#[global] Instance PyObjectNullabilityFact_eq_dec : EqDecision PyObjectNullabilityFact.
Proof. solve_decision. Defined.
#[global] Instance BoolSingletonFact_eq_dec : EqDecision BoolSingletonFact.
Proof. solve_decision. Defined.
#[global] Instance RefcountFact_eq_dec : EqDecision RefcountFact.
Proof. solve_decision. Defined.
#[global] Instance ProvenanceFact_eq_dec : EqDecision ProvenanceFact.
Proof. solve_decision. Defined.
#[global] Instance RuntimeHelperId_eq_dec : EqDecision RuntimeHelperId.
Proof. solve_decision. Defined.
#[global] Instance CallableFact_eq_dec : EqDecision CallableFact.
Proof. solve_decision. Defined.

Record PyObjFacts : Type := mkPyObjFacts {
  f_ty : TypeFact;
  f_truthiness : TruthinessFact;
  f_none : NoneFact;
  f_nullability : PyObjectNullabilityFact;
  f_bool_singleton : BoolSingletonFact;
  f_refcount : RefcountFact;
  f_provenance : ProvenanceFact;
  f_callable : CallableFact
}.
#[global] Instance PyObjFacts_eq_dec : EqDecision PyObjFacts.
Proof. solve_decision. Defined.

Inductive ValueFacts : Type :=
| VF_PyObj (facts : PyObjFacts)
| VF_I32 (sentinel : option Z)
| VF_I64 (sentinel : option Z)
| VF_Bool.

Record RuntimeHelperSignature : Type := mkRuntimeHelperSignature {
  sig_helper : RuntimeHelperId; sig_result : ValueFacts; sig_throws : ThrowSpec }.

(** ** Constructors *)

Definition facts_unknown : PyObjFacts :=
  mkPyObjFacts Type_Unknown Truth_Unknown None_Unknown Null_Unknown Bool_Unknown
    Refcount_Unknown Prov_Unknown Callable_Unknown.
Definition none_singleton : PyObjFacts :=
  mkPyObjFacts (Type_Exact PT_NoneType) AlwaysFalse IsNone NonNull Bool_Unknown Immortal
    (Prov_RuntimeSingleton RS_None) Callable_Unknown.
Definition bool_singleton (value : bool) : PyObjFacts :=
  mkPyObjFacts (Type_Exact PT_Bool) (if value then AlwaysTrue else AlwaysFalse) IsNotNone
    NonNull (if value then IsTrue else IsFalse) Immortal
    (Prov_RuntimeSingleton (if value then RS_True else RS_False)) Callable_Unknown.
Definition bool_object : PyObjFacts :=
  mkPyObjFacts (Type_Exact PT_Bool) Truth_Unknown IsNotNone NonNull Bool_Unknown Immortal
    Prov_Unknown Callable_Unknown.
Definition none_fact_for_exact_type (t : PyExactType) : NoneFact :=
  match t with
  | PT_NoneType => IsNone
  | PT_Bool | PT_Str | PT_Bytes | PT_Int | PT_Float => IsNotNone
  end.
Definition exact_type_with_truthiness (t : PyExactType) (truthiness : TruthinessFact) : PyObjFacts :=
  mkPyObjFacts (Type_Exact t) truthiness (none_fact_for_exact_type t) NonNull Bool_Unknown
    Refcount_Unknown Prov_Unknown Callable_Unknown.
Definition exact_type (t : PyExactType) : PyObjFacts :=
  exact_type_with_truthiness t Truth_Unknown.
Definition module_constant (index : Z) : PyObjFacts :=
  mkPyObjFacts Type_Unknown Truth_Unknown None_Unknown Null_Unknown Bool_Unknown
    Refcount_Unknown (Prov_ModuleConstant index) Callable_Unknown.
Definition with_module_constant (f : PyObjFacts) (index : Z) : PyObjFacts :=
  mkPyObjFacts (f_ty f) (f_truthiness f) (f_none f) (f_nullability f) (f_bool_singleton f)
    (f_refcount f) (Prov_ModuleConstant index) (f_callable f).
Definition with_immortal_refcount (f : PyObjFacts) : PyObjFacts :=
  mkPyObjFacts (f_ty f) (f_truthiness f) (f_none f) (f_nullability f) (f_bool_singleton f)
    Immortal (f_provenance f) (f_callable f).
Definition facts_runtime_helper (helper : RuntimeHelperId) : PyObjFacts :=
  mkPyObjFacts Type_Unknown AlwaysTrue IsNotNone NonNull Bool_Unknown Refcount_Unknown
    Prov_Unknown (Callable_RuntimeHelper helper).
Definition known_not_none : PyObjFacts :=
  mkPyObjFacts Type_Unknown Truth_Unknown IsNotNone NonNull Bool_Unknown Refcount_Unknown
    Prov_Unknown Callable_Unknown.
Definition with_nullability (f : PyObjFacts) (n : PyObjectNullabilityFact) : PyObjFacts :=
  mkPyObjFacts (f_ty f) (f_truthiness f) (f_none f) n (f_bool_singleton f) (f_refcount f)
    (f_provenance f) (f_callable f).
Definition with_non_null_ref (f : PyObjFacts) : PyObjFacts := with_nullability f NonNull.
Definition without_non_null_ref (f : PyObjFacts) : PyObjFacts := with_nullability f Null_Unknown.

(** ** Queries *)

Definition is_none (f : PyObjFacts) : bool := bool_decide (f_none f = IsNone).
Definition is_known_not_none (f : PyObjFacts) : bool := bool_decide (f_none f = IsNotNone).
Definition is_non_null_ref (f : PyObjFacts) : bool := bool_decide (f_nullability f = NonNull).
Definition is_truthy (f : PyObjFacts) : option bool :=
  match f_truthiness f with
  | AlwaysTrue => Some true | AlwaysFalse => Some false | Truth_Unknown => None
  end.
Definition is_immortal (f : PyObjFacts) : bool := bool_decide (f_refcount f = Immortal).
Definition is_exact_type (f : PyObjFacts) (expected : PyExactType) : bool :=
  match f_ty f with
  | Type_Exact actual => bool_decide (actual = expected)
  | Type_Unknown => false
  end.
Definition is_true_singleton (f : PyObjFacts) : bool := bool_decide (f_bool_singleton f = IsTrue).
Definition is_false_singleton (f : PyObjFacts) : bool := bool_decide (f_bool_singleton f = IsFalse).

(** The provenance alone is not informative. *)
Definition is_uninformative_for_local_env (f : PyObjFacts) : bool :=
  bool_decide (f_ty f = Type_Unknown) && bool_decide (f_truthiness f = Truth_Unknown)
  && bool_decide (f_none f = None_Unknown) && bool_decide (f_nullability f = Null_Unknown)
  && bool_decide (f_bool_singleton f = Bool_Unknown)
  && bool_decide (f_refcount f = Refcount_Unknown) && bool_decide (f_callable f = Callable_Unknown).

(** [intersect_type_fact] and the seven functions of the same body: a component kept
    when both sides agree. *)
Definition intersect_fact {A} `{EqDecision A} (unknown left right : A) : A :=
  if bool_decide (left = right) then left else unknown.
Definition intersect (f g : PyObjFacts) : PyObjFacts :=
  mkPyObjFacts (intersect_fact Type_Unknown (f_ty f) (f_ty g))
    (intersect_fact Truth_Unknown (f_truthiness f) (f_truthiness g))
    (intersect_fact None_Unknown (f_none f) (f_none g))
    (intersect_fact Null_Unknown (f_nullability f) (f_nullability g))
    (intersect_fact Bool_Unknown (f_bool_singleton f) (f_bool_singleton g))
    (intersect_fact Refcount_Unknown (f_refcount f) (f_refcount g))
    (intersect_fact Prov_Unknown (f_provenance f) (f_provenance g))
    (intersect_fact Callable_Unknown (f_callable f) (f_callable g)).

Definition unknown_pyobj : ValueFacts := VF_PyObj facts_unknown.
Definition as_pyobj (v : ValueFacts) : option PyObjFacts :=
  match v with VF_PyObj facts => Some facts | VF_I32 _ | VF_I64 _ | VF_Bool => None end.
Definition value_runtime_helper (v : ValueFacts) : option RuntimeHelperId :=
  match v with
  | VF_PyObj facts =>
      match f_callable facts with
      | Callable_RuntimeHelper helper => Some helper
      | Callable_Unknown => None
      end
  | VF_I32 _ | VF_I64 _ | VF_Bool => None
  end.

(** ** Runtime helpers *)

Definition helper_symbols : list (string * RuntimeHelperId) :=
  [("globals", H_Globals); ("_index", H_Index); ("str", H_Str); ("cell_ref", H_CellRef);
   ("tuple_from_iter", H_TupleFromIter); ("make_function", H_MakeFunction);
   ("create_class", H_CreateClass); ("import_", H_Import); ("import_attr", H_ImportAttr);
   ("class_lookup_global", H_ClassLookupGlobal); ("class_lookup_cell", H_ClassLookupCell)].
Definition from_runtime_symbol (name : string) : option RuntimeHelperId :=
  snd <$> find_first (fun entry => bool_decide (entry.1 = name)) helper_symbols.

Definition runtime_helper_result (helper : RuntimeHelperId) : ValueFacts :=
  match helper with
  | H_Index => VF_PyObj (exact_type PT_Int)
  | H_Str => VF_PyObj (exact_type PT_Str)
  | H_Globals | H_CellRef | H_TupleFromIter | H_MakeFunction | H_CreateClass | H_Import
  | H_ImportAttr | H_ClassLookupGlobal | H_ClassLookupCell => VF_PyObj known_not_none
  end.
Definition runtime_helper_throw_spec (helper : RuntimeHelperId) : ThrowSpec :=
  match helper with
  | H_Globals | H_CellRef => Throw_Never
  | H_Index | H_Str | H_TupleFromIter | H_MakeFunction | H_CreateClass | H_Import
  | H_ImportAttr | H_ClassLookupGlobal | H_ClassLookupCell => ThrowsOnNullPyObj
  end.
Definition signature (helper : RuntimeHelperId) : RuntimeHelperSignature :=
  mkRuntimeHelperSignature helper (runtime_helper_result helper) (runtime_helper_throw_spec helper).

(** ** Environments *)

Notation EnvFacts := (gmap LocalLocation PyObjFacts).

Definition local_pyobj_fact (env : EnvFacts) (location : LocalLocation) : option PyObjFacts :=
  env !! location.
Definition set_local_pyobj_fact (env : EnvFacts) (location : LocalLocation) (facts : PyObjFacts) :
    EnvFacts :=
  if is_uninformative_for_local_env facts then delete location env else <[location := facts]> env.
Definition remove_local_pyobj_fact (env : EnvFacts) (location : LocalLocation) : EnvFacts :=
  delete location env.

(** The closure of [retain]. *)
Definition retain_fact (other : EnvFacts) (location : LocalLocation) (facts : PyObjFacts) :
    option PyObjFacts :=
  match local_pyobj_fact other location with
  | None => None
  | Some other_facts =>
      let facts := intersect facts other_facts in
      if is_uninformative_for_local_env facts then None else Some facts
  end.
Definition intersect_with (env other : EnvFacts) : EnvFacts := map_imap (retain_fact other) env.

(** ** The store *)

Record FactStore : Type := mkFactStore {
  expr_facts : gmap InstrKey ValueFacts;
  block_entry_facts : gmap (RuntimeFunctionId * BlockLabel) EnvFacts
}.
Definition empty_store : FactStore := mkFactStore ∅ ∅.
Definition fact_for (s : FactStore) (key : InstrKey) : option ValueFacts := expr_facts s !! key.
Definition block_entry_fact (s : FactStore) (f : RuntimeFunctionId) (l : BlockLabel) :
    option EnvFacts := block_entry_facts s !! (f, l).
Definition insert_expr_fact (s : FactStore) (key : InstrKey) (facts : ValueFacts) : FactStore :=
  mkFactStore (<[key := facts]> (expr_facts s)) (block_entry_facts s).
Definition insert_block_entry_fact (s : FactStore) (f : RuntimeFunctionId) (l : BlockLabel)
    (facts : EnvFacts) : FactStore :=
  mkFactStore (expr_facts s) (<[(f, l) := facts]> (block_entry_facts s)).
(** [HashMap::extend] with the entries of another map. *)
Definition extend_expr_facts (s : FactStore) (facts : gmap InstrKey ValueFacts) : FactStore :=
  mkFactStore (facts ∪ expr_facts s) (block_entry_facts s).
Definition extend_block_entry_facts (s : FactStore)
    (facts : gmap (RuntimeFunctionId * BlockLabel) EnvFacts) : FactStore :=
  mkFactStore (expr_facts s) (facts ∪ block_entry_facts s).
(** [remap_function_ids]: both maps are rebuilt from their entries.  [HashMap] fixes no
    order of the entries, which matters only when two keys are remapped to one. *)
Definition collect_entries {K V} `{Countable K} (entries : list (K * V)) : gmap K V :=
  fold_left (fun m entry => <[entry.1 := entry.2]> m) entries ∅.
Definition remap_function_ids (s : FactStore) (remap : RuntimeFunctionId -> RuntimeFunctionId) :
    FactStore :=
  mkFactStore
    (collect_entries (map (fun entry : InstrKey * ValueFacts =>
         (mkInstrKey (remap (ik_function_id entry.1)) (ik_instr_id entry.1), entry.2))
       (map_to_list (expr_facts s))))
    (collect_entries (map (fun entry : (RuntimeFunctionId * BlockLabel) * EnvFacts =>
         ((remap entry.1.1, entry.1.2), entry.2))
       (map_to_list (block_entry_facts s)))).
