(* ===== verification/FactInference.v ===== *)
(** * Inferring value facts

    crates/soac_opt/src/passes/value_facts.rs: the facts of every instruction, and the
    facts on local slots at the entry of every block, as the greatest solution of a
    forward data-flow problem over the jumps of the function. *)

From stdpp Require Import gmap.
From S2P Require Import Prelude Ids Cfg Names Instr ValueFacts.

Local Open Scope Z_scope.

(** ** Constants and operators *)

Definition truthiness (is_truthy : bool) : TruthinessFact :=
  if is_truthy then AlwaysTrue else AlwaysFalse.

Definition infer_literal_facts (l : Literal) : ValueFacts :=
  VF_PyObj
    match l with
    | Lit_String value =>
        exact_type_with_truthiness PT_Str (truthiness (negb (bool_decide (value = EmptyString))))
    | Lit_Bytes value =>
        exact_type_with_truthiness PT_Bytes (truthiness (negb (bool_decide (value = []))))
    | Lit_Number (Num_Int decimal) =>
        exact_type_with_truthiness PT_Int (truthiness
          match as_i64 decimal with None => true | Some value => negb (value =? 0) end)
    | Lit_Number (Num_Float bits) =>
        exact_type_with_truthiness PT_Float (truthiness (f64_nonzero bits))
    end.

Definition infer_runtime_name_facts (name : RuntimeName) : option ValueFacts :=
  match name with
  | RN_None => Some (VF_PyObj none_singleton)
  | RN_True => Some (VF_PyObj (bool_singleton true))
  | RN_False => Some (VF_PyObj (bool_singleton false))
  | _ =>
      helper ← from_runtime_symbol (runtime_name_name name);
      Some (VF_PyObj (facts_runtime_helper helper))
  end.

Definition infer_module_constant_facts (c : ConstantExpr) : ValueFacts :=
  match c with
  | Const_RuntimeName name => default unknown_pyobj (infer_runtime_name_facts name)
  | Const_Literal literal => infer_literal_facts literal
  end.

Definition module_constant_load_fact (index : Z) (module_constant_facts : list ValueFacts) :
    ValueFacts :=
  match module_constant_facts !! Z.to_nat index with
  | Some (VF_PyObj py_facts) =>
      VF_PyObj (with_immortal_refcount (with_module_constant py_facts index))
  | Some facts => facts
  | None => VF_PyObj (with_immortal_refcount (module_constant index))
  end.

Definition infer_runtime_name_load_facts (name : ResolvedName) : option ValueFacts :=
  if is_runtime_symbol name "NONE" then Some (VF_PyObj none_singleton)
  else if is_runtime_symbol name "TRUE" then Some (VF_PyObj (bool_singleton true))
  else if is_runtime_symbol name "FALSE" then Some (VF_PyObj (bool_singleton false))
  else if is_runtime_name name then
    helper ← from_runtime_symbol (id_str name);
    Some (VF_PyObj (facts_runtime_helper helper))
  else None.

Definition is_exact_int_fact (facts : ValueFacts) : bool :=
  is_some_and (fun py_facts => is_exact_type py_facts PT_Int) (as_pyobj facts).

Definition infer_binop_result_facts (kind : BinOpKind) (left right : ValueFacts) :
    option ValueFacts :=
  if negb (is_exact_int_fact left && is_exact_int_fact right) then None
  else
    match kind with
    | Eq | Ne | Lt | Le | Gt | Ge => Some (VF_PyObj bool_object)
    | Add | Sub | Mul | FloorDiv | Mod | LShift | RShift | Or | Xor | And
    | InplaceAdd | InplaceSub | InplaceMul | InplaceFloorDiv | InplaceMod | InplaceLShift
    | InplaceRShift | InplaceOr | InplaceXor | InplaceAnd => Some (VF_PyObj (exact_type PT_Int))
    | TrueDiv | InplaceTrueDiv => Some (VF_PyObj (exact_type PT_Float))
    | Pow | InplacePow | MatMul | InplaceMatMul | Contains | Is => None
    end.

Definition infer_unary_result_facts (kind : UnaryOpKind) (operand : ValueFacts) :
    option ValueFacts :=
  if negb (is_exact_int_fact operand) then None
  else
    match kind with
    | Pos | Neg | Invert => Some (VF_PyObj (exact_type PT_Int))
    | Not | Truth => Some (VF_PyObj bool_object)
    end.

(** The facts at the entry of the blocks reached so far. *)
Notation Entries := (gmap BlockLabel EnvFacts).

Section inferer.
Variable module_constant_facts : list ValueFacts.

(** ** Expressions *)

Definition infer_load_facts (name : ResolvedName) : ValueFacts :=
  match infer_runtime_name_load_facts name with
  | Some facts => facts
  | None =>
      match as_constant (rn_location name) with
      | Some index => module_constant_load_fact index module_constant_facts
      | None => unknown_pyobj
      end
  end.

Definition is_positional (arg : CallArgPositional) : bool :=
  match arg with CA_Positional => true | CA_Starred => false end.

Definition infer_call_facts (args : list CallArgPositional) (keywords : list CallArgKeyword)
    (func_facts : ValueFacts) : ValueFacts :=
  if bool_decide (length keywords = 0%nat) && forallb is_positional args then
    match value_runtime_helper func_facts with
    | Some helper => sig_result (signature helper)
    | None => unknown_pyobj
    end
  else unknown_pyobj.

Fixpoint infer_expr_facts (expr : InstrBlockPy) : ValueFacts :=
  match expr with
  | mkInstr _ (Op_Load name _) _ => infer_load_facts name
  | mkInstr _ (Op_Call args keywords _) (func :: _) =>
      infer_call_facts args keywords (infer_expr_facts func)
  | mkInstr _ (Op_BinOp kind) [lhs; rhs] =>
      default unknown_pyobj
        (infer_binop_result_facts kind (infer_expr_facts lhs) (infer_expr_facts rhs))
  | mkInstr _ (Op_UnaryOp kind) [operand] =>
      default unknown_pyobj (infer_unary_result_facts kind (infer_expr_facts operand))
  | mkInstr _ Op_SetAttr _ | mkInstr _ Op_SetItem _ | mkInstr _ Op_DelItem _
  | mkInstr _ (Op_Del _ _) _ => VF_PyObj none_singleton
  | mkInstr _ Op_Tuple _ => VF_PyObj known_not_none
  | _ => unknown_pyobj
  end.

Fixpoint infer_expr_facts_in_env (env : EnvFacts) (expr : InstrBlockPy) : ValueFacts :=
  match expr with
  | mkInstr _ (Op_Load name _) _ =>
      match location ← local_location name; local_pyobj_fact env location with
      | Some facts => VF_PyObj facts
      | None => infer_expr_facts expr
      end
  | mkInstr _ (Op_BinOp kind) [lhs; rhs] =>
      default unknown_pyobj
        (infer_binop_result_facts kind (infer_expr_facts_in_env env lhs)
           (infer_expr_facts_in_env env rhs))
  | mkInstr _ (Op_UnaryOp kind) [operand] =>
      default unknown_pyobj
        (infer_unary_result_facts kind (infer_expr_facts_in_env env operand))
  | _ => infer_expr_facts expr
  end.

(** ** The transfer function *)

(** The closure given to [visit_operand_takes]. *)
Definition remove_take (env : EnvFacts) (location : OperandLocation) : EnvFacts :=
  match location with
  | OL_Local location => remove_local_pyobj_fact env location
  | OL_Preserved _ => env
  end.
Definition remove_name (env : EnvFacts) (name : ResolvedName) : EnvFacts :=
  match local_location name with
  | Some location => remove_local_pyobj_fact env location
  | None => env
  end.

Definition transfer_instr_env (env : EnvFacts) (instr : InstrBlockPy) : EnvFacts :=
  let env := fold_left remove_take (visit_operand_takes instr) env in
  match instr with
  | mkInstr _ (Op_Store name _ _) [value] =>
      match local_location name with
      | None => env
      | Some location =>
          match as_pyobj (infer_expr_facts_in_env env value) with
          | Some py_facts => set_local_pyobj_fact env location py_facts
          | None => remove_local_pyobj_fact env location
          end
      end
  | mkInstr _ (Op_Del name _) _ => remove_name env name
  | mkInstr _ (Op_CallArgumentOp kind _ buffer) _ =>
      fold_left remove_name (written_names kind buffer) env
  | _ => env
  end.

Definition transfer_block_env (block : Block InstrBlockPy) (entry : EnvFacts) : EnvFacts :=
  let env := fold_left transfer_instr_env (blk_body block) entry in
  fold_left remove_take (visit_term_operand_takes (blk_term block)) env.

(** ** Branches *)

Definition local_load_location (expr : InstrBlockPy) : option LocalLocation :=
  match instr_op expr with Op_Load name _ => local_location name | _ => None end.

Definition expr_singleton_branch_facts (expr : InstrBlockPy) :
    option (option PyObjFacts * option PyObjFacts) :=
  match infer_expr_facts expr with
  | VF_PyObj py_facts =>
      if is_none py_facts then Some (Some none_singleton, Some known_not_none)
      else if is_true_singleton py_facts then Some (Some (bool_singleton true), None)
      else if is_false_singleton py_facts then Some (Some (bool_singleton false), None)
      else None
  | VF_I32 _ | VF_I64 _ | VF_Bool => None
  end.

Definition BranchFact : Type := LocalLocation * option PyObjFacts * option PyObjFacts.

Definition infer_local_is_singleton_comparison (left right : InstrBlockPy) : option BranchFact :=
  match expr_singleton_branch_facts right with
  | Some (then_fact, else_fact) =>
      location ← local_load_location left; Some (location, then_fact, else_fact)
  | None =>
      match expr_singleton_branch_facts left with
      | Some (then_fact, else_fact) =>
          location ← local_load_location right; Some (location, then_fact, else_fact)
      | None => None
      end
  end.

Fixpoint infer_branch_local_fact (test : InstrBlockPy) : option BranchFact :=
  match test with
  | mkInstr _ (Op_BinOp Is) [lhs; rhs] => infer_local_is_singleton_comparison lhs rhs
  | mkInstr _ (Op_UnaryOp Not) [operand] =>
      '(location, then_fact, else_fact) ← infer_branch_local_fact operand;
      Some (location, else_fact, then_fact)
  | _ => None
  end.

Definition narrow (env : EnvFacts) (location : LocalLocation) (fact : option PyObjFacts) : EnvFacts :=
  match fact with Some fact => set_local_pyobj_fact env location fact | None => env end.

Definition infer_if_edge_facts (if_term : TermIf InstrBlockPy) (exit : EnvFacts) :
    EnvFacts * EnvFacts :=
  match infer_branch_local_fact (ti_test if_term) with
  | None => (exit, exit)
  | Some (location, then_fact, else_fact) =>
      (narrow exit location then_fact, narrow exit location else_fact)
  end.

Definition successor_envs (block : Block InstrBlockPy) (exit : EnvFacts) :
    list (BlockLabel * EnvFacts) :=
  match blk_term block with
  | BT_Jump edge => [(be_target edge, exit)]
  | BT_If if_term =>
      let (then_facts, else_facts) := infer_if_edge_facts if_term exit in
      [(ti_then_label if_term, then_facts); (ti_else_label if_term, else_facts)]
  | BT_BranchTable branch =>
      map (fun target => (target, exit)) (tb_targets branch) ++ [(tb_default_label branch, exit)]
  | BT_Raise _ | BT_Return _ | BT_GeneratorReturn _ => []
  end.

(** ** The data-flow loop *)

(** One incoming environment; the flag is [changed]. *)
Definition flow_edge (state : Entries * bool) (edge : BlockLabel * EnvFacts) : Entries * bool :=
  let '(entries, changed) := state in
  let '(target, incoming) := edge in
  match entries !! target with
  | Some existing =>
      let after := intersect_with existing incoming in
      (<[target := after]> entries, changed || negb (bool_decide (after = existing)))
  | None => (<[target := incoming]> entries, true)
  end.
Definition flow_block (state : Entries * bool) (block : Block InstrBlockPy) : Entries * bool :=
  match state.1 !! blk_label block with
  | None => state
  | Some entry => fold_left flow_edge (successor_envs block (transfer_block_env block entry)) state
  end.
Definition flow_round (blocks : list (Block InstrBlockPy)) (entries : Entries) : Entries * bool :=
  fold_left flow_block blocks (entries, false).

(** [while changed { .. }]: [None] when [fuel] rounds were not enough. *)
Fixpoint flow_loop (fuel : nat) (blocks : list (Block InstrBlockPy)) (entries : Entries) :
    option Entries :=
  match fuel with
  | O => None
  | S fuel =>
      let (entries, changed) := flow_round blocks entries in
      if changed then flow_loop fuel blocks entries else Some entries
  end.

(** Enough rounds: every round but the last adds a label or drops a component of a
    fact, of which a slot has at most nine, and only slots a [Store] or a branch names
    have facts. *)
Definition stored_location (i : InstrBlockPy) : option LocalLocation :=
  match instr_op i with Op_Store name _ _ => local_location name | _ => None end.
Definition narrowed_location (t : BlockTerm InstrBlockPy) : option LocalLocation :=
  match t with
  | BT_If if_term => (fun fact : BranchFact => fact.1.1) <$> infer_branch_local_fact (ti_test if_term)
  | _ => None
  end.
Definition tracked_locations (blocks : list (Block InstrBlockPy)) : list LocalLocation :=
  concat (map (fun b => omap stored_location (blk_body b) ++ option_list (narrowed_location (blk_term b)))
            blocks).
Definition flow_labels (blocks : list (Block InstrBlockPy)) : list BlockLabel :=
  concat (map (fun b => blk_label b :: blockpy_successors b) blocks).
Definition flow_fuel (blocks : list (Block InstrBlockPy)) : nat :=
  S (length (flow_labels blocks) * S (9 * length (tracked_locations blocks))).

Definition infer_block_entry_facts (blocks : list (Block InstrBlockPy)) : option Entries :=
  match blocks with
  | [] => Some ∅
  | entry_block :: _ => flow_loop (flow_fuel blocks) blocks {[blk_label entry_block := ∅]}
  end.

(** ** Functions and modules *)

(** [visit_instr]: instructions without an id are instrumentation. *)
Definition insert_instr_fact (function_id : RuntimeFunctionId) (store : FactStore)
    (expr : InstrBlockPy) : FactStore :=
  match try_semantic_instr_id expr with
  | Some instr_id => insert_expr_fact store (mkInstrKey function_id instr_id) (infer_expr_facts expr)
  | None => store
  end.

Definition infer_function_value_facts (function : BlockPyFunction InstrBlockPy) : option FactStore :=
  let function_id := bf_function_id function in
  let store := fold_left (insert_instr_fact function_id) (visit_fn function) empty_store in
  entries ← infer_block_entry_facts (bf_blocks function);
  Some (fold_left (fun store block =>
          insert_block_entry_fact store function_id (blk_label block)
            (default ∅ (entries !! blk_label block)))
        (bf_blocks function) store).
End inferer.

Fixpoint infer_functions (module_constant_facts : list ValueFacts) (store : FactStore)
    (callable_defs : list (BlockPyFunction InstrBlockPy)) : option FactStore :=
  match callable_defs with
  | [] => Some store
  | function :: callable_defs =>
      function_store ← infer_function_value_facts module_constant_facts function;
      let store := extend_expr_facts store (expr_facts function_store) in
      let store := extend_block_entry_facts store (block_entry_facts function_store) in
      infer_functions module_constant_facts store callable_defs
  end.

Definition infer_module_value_facts (callable_defs : list (BlockPyFunction InstrBlockPy))
    (module_constants : list ConstantExpr) : option FactStore :=
  infer_functions (map infer_module_constant_facts module_constants) empty_store callable_defs.
