(* ===== verification/ValueFactsProps.v ===== *)
(** * Value facts: the information order

    Environments of facts are ordered by how much they say; [intersect_with] is the
    meet of the environments that hold informative facts only, and a meet that is
    not its left argument says strictly less. *)

From stdpp Require Import gmap.
From S2P Require Import Prelude Ids Cfg Names Instr ValueFacts.

(** [a] says nothing, or what [b] says. *)
Definition fact_below {A} (unknown a b : A) : Prop := a = unknown \/ a = b.

Definition facts_below (f g : PyObjFacts) : Prop :=
  fact_below Type_Unknown (f_ty f) (f_ty g) /\
  fact_below Truth_Unknown (f_truthiness f) (f_truthiness g) /\
  fact_below None_Unknown (f_none f) (f_none g) /\
  fact_below Null_Unknown (f_nullability f) (f_nullability g) /\
  fact_below Bool_Unknown (f_bool_singleton f) (f_bool_singleton g) /\
  fact_below Refcount_Unknown (f_refcount f) (f_refcount g) /\
  fact_below Prov_Unknown (f_provenance f) (f_provenance g) /\
  fact_below Callable_Unknown (f_callable f) (f_callable g).

Definition env_below (e1 e2 : EnvFacts) : Prop :=
  forall l f, e1 !! l = Some f -> exists g, e2 !! l = Some g /\ facts_below f g.

(** No entry of the environment is uninformative. *)
Definition informative (e : EnvFacts) : Prop :=
  map_Forall (fun _ f => is_uninformative_for_local_env f = false) e.

Section component.
Context {A} `{EqDecision A} (unknown : A).

Lemma intersect_fact_below c a b :
  fact_below unknown c (intersect_fact unknown a b) <->
  fact_below unknown c a /\ fact_below unknown c b.
Proof. unfold fact_below, intersect_fact. case_bool_decide; naive_solver. Qed.

#[local] Instance fact_below_preorder : PreOrder (fact_below unknown).
Proof. split; unfold fact_below; [intros a; by right|]. intros a b c [->| ->] [->| ->]; auto. Qed.
Lemma fact_below_unknown a b : fact_below unknown a b -> b = unknown -> a = unknown.
Proof. intros [->| ->]; done. Qed.

(** How many components a fact has, and that a meet drops one or is the fact itself. *)
Definition known (a : A) : nat := if bool_decide (a = unknown) then 0 else 1.
Lemma intersect_fact_known a b :
  known (intersect_fact unknown a b) <= known a /\
  (known a <= known (intersect_fact unknown a b) -> intersect_fact unknown a b = a).
Proof. unfold known, intersect_fact. repeat case_bool_decide; subst; try done; split; lia || done. Qed.
End component.

Lemma facts_below_intersect c f g :
  facts_below c (intersect f g) <-> facts_below c f /\ facts_below c g.
Proof. unfold facts_below. cbn. rewrite !intersect_fact_below. tauto. Qed.

#[export] Instance facts_below_preorder : PreOrder facts_below.
Proof.
  split.
  - intros f. unfold facts_below. split_and!; apply fact_below_preorder.
  - intros f g h Hfg Hgh. unfold facts_below in *. destruct_and!.
    split_and!; (eapply (fact_below_preorder _).(PreOrder_Transitive); eassumption).
Qed.

(** Uninformative means below the fact that only has a provenance. *)
Lemma uninformative_below f g :
  facts_below f g -> is_uninformative_for_local_env g = true ->
  is_uninformative_for_local_env f = true.
Proof.
  unfold facts_below, is_uninformative_for_local_env.
  rewrite !andb_true_iff, !bool_decide_eq_true. intros. destruct_and!.
  split_and!; (eapply fact_below_unknown; eassumption).
Qed.

Lemma lookup_intersect_with a b l :
  intersect_with a b !! l = f ← a !! l; retain_fact b l f.
Proof. apply map_lookup_imap. Qed.

Lemma intersect_with_some a b l h :
  intersect_with a b !! l = Some h <->
  exists f g, a !! l = Some f /\ b !! l = Some g /\ h = intersect f g /\
    is_uninformative_for_local_env h = false.
Proof.
  rewrite lookup_intersect_with. unfold retain_fact, local_pyobj_fact.
  destruct (a !! l) as [f|], (b !! l) as [g|]; cbn; try naive_solver.
  destruct (is_uninformative_for_local_env (intersect f g)) eqn:E; naive_solver congruence.
Qed.

Lemma intersect_with_informative a b : informative (intersect_with a b).
Proof. intros l h (f & g & _ & _ & _ & H)%intersect_with_some. done. Qed.
Lemma set_local_informative e l f : informative e -> informative (set_local_pyobj_fact e l f).
Proof.
  intros He. unfold set_local_pyobj_fact. destruct (is_uninformative_for_local_env f) eqn:E.
  - by apply map_Forall_delete.
  - by apply map_Forall_insert_2.
Qed.

Lemma env_below_intersect_l a b : env_below (intersect_with a b) a.
Proof.
  intros l h (f & g & Hf & _ & -> & _)%intersect_with_some. exists f. split; [done|].
  by apply (facts_below_intersect _ f g).
Qed.
Lemma env_below_intersect_r a b : env_below (intersect_with a b) b.
Proof.
  intros l h (f & g & _ & Hg & -> & _)%intersect_with_some. exists g. split; [done|].
  by apply (facts_below_intersect _ f g).
Qed.

#[export] Instance env_below_preorder : PreOrder env_below.
Proof.
  split.
  - intros e l f Hf. exists f. by split.
  - intros a b c Hab Hbc l f Hf. destruct (Hab _ _ Hf) as (g & Hg & Hfg).
    destruct (Hbc _ _ Hg) as (h & Hh & Hgh). exists h. split; [done|]. by etrans.
Qed.

Lemma env_below_intersect c a b :
  informative c -> env_below c a -> env_below c b -> env_below c (intersect_with a b).
Proof.
  intros Hc Ha Hb l f Hf. destruct (Ha _ _ Hf) as (g & Hg & Hfg), (Hb _ _ Hf) as (h & Hh & Hfh).
  exists (intersect g h). assert (facts_below f (intersect g h)) as Hbelow
    by by apply facts_below_intersect.
  split; [|done]. apply intersect_with_some. exists g, h. split_and!; [done..|].
  destruct (is_uninformative_for_local_env (intersect g h)) eqn:E; [|done].
  specialize (Hc _ _ Hf). cbn in Hc. by rewrite (uninformative_below _ _ Hbelow E) in Hc.
Qed.

(** ** A meet that changes the environment loses weight *)

Definition fact_weight (f : PyObjFacts) : nat :=
  1 + known Type_Unknown (f_ty f) + known Truth_Unknown (f_truthiness f)
  + known None_Unknown (f_none f) + known Null_Unknown (f_nullability f)
  + known Bool_Unknown (f_bool_singleton f) + known Refcount_Unknown (f_refcount f)
  + known Prov_Unknown (f_provenance f) + known Callable_Unknown (f_callable f).
Definition env_weight (e : EnvFacts) : nat := map_fold (fun _ f n => fact_weight f + n) 0 e.

Lemma fact_weight_bound f : fact_weight f <= 9.
Proof. unfold fact_weight, known. repeat case_bool_decide; lia. Qed.

Lemma fact_weight_intersect f g :
  fact_weight (intersect f g) <= fact_weight f /\
  (fact_weight f <= fact_weight (intersect f g) -> intersect f g = f).
Proof.
  unfold fact_weight. cbn.
  pose proof (intersect_fact_known Type_Unknown (f_ty f) (f_ty g)).
  pose proof (intersect_fact_known Truth_Unknown (f_truthiness f) (f_truthiness g)).
  pose proof (intersect_fact_known None_Unknown (f_none f) (f_none g)).
  pose proof (intersect_fact_known Null_Unknown (f_nullability f) (f_nullability g)).
  pose proof (intersect_fact_known Bool_Unknown (f_bool_singleton f) (f_bool_singleton g)).
  pose proof (intersect_fact_known Refcount_Unknown (f_refcount f) (f_refcount g)).
  pose proof (intersect_fact_known Prov_Unknown (f_provenance f) (f_provenance g)).
  pose proof (intersect_fact_known Callable_Unknown (f_callable f) (f_callable g)).
  destruct_and!. split; [lia|]. intros Hle. destruct f. unfold intersect. cbn in *.
  f_equal; auto with lia.
Qed.

Lemma env_weight_insert e l f : e !! l = None -> env_weight (<[l := f]> e) = fact_weight f + env_weight e.
Proof. intros H. unfold env_weight.
  apply (map_fold_insert_L (fun _ f n => fact_weight f + n) 0); [|done]. intros; lia.
Qed.

Lemma env_weight_intersect a b :
  env_weight (intersect_with a b) <= env_weight a /\
  (env_weight a <= env_weight (intersect_with a b) -> intersect_with a b = a).
Proof.
  induction a as [|l f a Hl [IHle IHeq]] using map_ind.
  { unfold intersect_with. by rewrite map_imap_empty. }
  rewrite env_weight_insert by done.
  assert (intersect_with a b !! l = None) as Hi
    by (rewrite lookup_intersect_with; by rewrite Hl).
  pose proof (fact_weight_intersect f) as Hw.
  assert (0 < fact_weight f) by (unfold fact_weight; lia).
  unfold intersect_with in *. destruct (retain_fact b l f) as [h|] eqn:Hr.
  - rewrite map_imap_insert_Some with (y := h) by done. rewrite env_weight_insert by done.
    unfold retain_fact in Hr. destruct (local_pyobj_fact b l) as [g|]; [|done].
    destruct (is_uninformative_for_local_env (intersect f g)); [done|]. injection Hr as <-.
    destruct (Hw g). split; [lia|]. intros. by rewrite IHeq, H1 by lia.
  - rewrite map_imap_insert_None by done. rewrite delete_id by done. split; lia.
Qed.

Lemma env_weight_bound e (locations : list LocalLocation) :
  (forall l, is_Some (e !! l) -> l ∈ locations) -> env_weight e <= 9 * length locations.
Proof.
  revert locations. induction e as [|l f e Hl IH] using map_ind; intros locations Hdom.
  { change (env_weight ∅) with 0. lia. }
  rewrite env_weight_insert by done.
  assert (l ∈ locations) as Hin by (apply Hdom; rewrite lookup_insert_eq; done).
  apply list_elem_of_split in Hin as (l1 & l2 & ->).
  specialize (IH (l1 ++ l2)). pose proof (fact_weight_bound f).
  rewrite !length_app in *. cbn [length]. enough (env_weight e <= 9 * (length l1 + length l2)) by lia.
  apply IH. intros l' Hl'. assert (l <> l') by (intros ->; rewrite Hl in Hl'; by destruct Hl').
  specialize (Hdom l'). rewrite lookup_insert_ne in Hdom by done. set_solver.
Qed.

(** [intersect_with] keeps only informative facts and is the greatest lower bound: an
    environment of informative facts says at most what the intersection says exactly
    when it says at most what each of the two sides says. *)
Theorem env_intersect_glb (a b c : EnvFacts) :
  informative c ->
  informative (intersect_with a b) /\
  (env_below c (intersect_with a b) <-> env_below c a /\ env_below c b).
Proof.
  intros Hc. split; [apply intersect_with_informative|]. split.
  - intros H. split; [rewrite <- (env_below_intersect_l a b)|rewrite <- (env_below_intersect_r a b)];
      done.
  - intros [Ha Hb]. by apply env_below_intersect.
Qed.

(** The joined environments of the source's own test: an exact int and a value that is
    not [None] meet in a value that is not [None]. *)
Lemma env_intersect_glb_witness :
  let x := mkLocalLocation 0 in
  let both := intersect_with {[x := exact_type PT_Int]} {[x := known_not_none]} in
  both !! x = Some known_not_none /\
  (env_below both both <->
   env_below both {[x := exact_type PT_Int]} /\ env_below both {[x := known_not_none]}).
Proof.
  intros x both. split; [vm_compute; reflexivity|].
  exact (proj2 (env_intersect_glb _ _ both (intersect_with_informative _ _))).
Defined.
