(* ===== verification/FactInferenceProps.v ===== *)
(** * Inferring value facts: the data-flow loop

    The loop ends within [flow_fuel] rounds, and its result is a solution: the facts at
    the entry of a block are below the facts every jump to it brings. *)

From stdpp Require Import gmap.
From S2P Require Import Prelude Ids Cfg Names Instr ValueFacts ValueFactsProps FactInference.

Section loop.
Variable consts : list ValueFacts.
Implicit Types (e : Entries) (s : Entries * bool) (block : Block InstrBlockPy).

(** ** Only tracked slots have facts *)

Definition tracked (T : list LocalLocation) (env : EnvFacts) : Prop :=
  forall l, is_Some (env !! l) -> l ∈ T.

Lemma tracked_delete T env l : tracked T env -> tracked T (delete l env).
Proof. intros H l' [f (_ & Hf)%lookup_delete_Some]. apply H. by exists f. Qed.
Lemma tracked_set T env l f : l ∈ T -> tracked T env -> tracked T (set_local_pyobj_fact env l f).
Proof.
  intros Hl H. unfold set_local_pyobj_fact. destruct (is_uninformative_for_local_env f).
  - by apply tracked_delete.
  - intros l' [g [[-> _]|[_ Hg]]%lookup_insert_Some]; [done|]. apply H. by exists g.
Qed.
Lemma tracked_takes T takes env : tracked T env -> tracked T (fold_left remove_take takes env).
Proof.
  revert env. induction takes as [|[l|l] takes IH]; intros env H; cbn; [done|..]; apply IH; [|done].
  by apply tracked_delete.
Qed.
Lemma tracked_remove_name T env name : tracked T env -> tracked T (remove_name env name).
Proof. unfold remove_name. destruct (local_location name); [apply tracked_delete|done]. Qed.
Lemma tracked_intersect T a b : tracked T a -> tracked T (intersect_with a b).
Proof. intros H l [h (f & _ & Hf & _)%intersect_with_some]. apply H. by exists f. Qed.

Lemma tracked_transfer_instr T env i :
  (forall l, stored_location i = Some l -> l ∈ T) -> tracked T env ->
  tracked T (transfer_instr_env consts env i).
Proof.
  intros Hi Henv. unfold transfer_instr_env.
  pose proof (tracked_takes T (visit_operand_takes i) env Henv) as Ht.
  destruct i as [id [] children]; try done.
  - destruct children as [|value []]; [done| |done]. cbn in Hi.
    destruct (local_location name) as [l|]; [|done].
    destruct (as_pyobj _); [by apply tracked_set; [apply Hi|]|by apply tracked_delete].
  - by apply tracked_remove_name.
  - unfold written_names. destruct (replaces_buffer kind); [by apply tracked_remove_name|done].
Qed.

Lemma tracked_body T body env :
  (forall l, l ∈ omap stored_location body -> l ∈ T) -> tracked T env ->
  tracked T (fold_left (transfer_instr_env consts) body env).
Proof.
  revert env. induction body as [|i body IH]; intros env Hb Henv; cbn; [done|]. apply IH.
  - intros l Hl. apply Hb. cbn. destruct (stored_location i); [by apply list_elem_of_further|done].
  - apply tracked_transfer_instr; [|done]. intros l Hl. apply Hb. cbn. rewrite Hl.
    apply list_elem_of_here.
Qed.
Lemma tracked_transfer_block T block env :
  (forall l, l ∈ omap stored_location (blk_body block) -> l ∈ T) -> tracked T env ->
  tracked T (transfer_block_env consts block env).
Proof. intros Hb Henv. unfold transfer_block_env. apply tracked_takes. by apply tracked_body. Qed.

Lemma tracked_narrow T env l fact : l ∈ T -> tracked T env -> tracked T (narrow env l fact).
Proof. destruct fact; [apply tracked_set|done]. Qed.

Lemma tracked_successors T block exit target env :
  (forall l, narrowed_location consts (blk_term block) = Some l -> l ∈ T) -> tracked T exit ->
  (target, env) ∈ successor_envs consts block exit ->
  target ∈ blockpy_successors block /\ tracked T env.
Proof.
  unfold successor_envs, blockpy_successors. intros HT He Hin.
  destruct (blk_term block) as [edge|i|branch| | |].
  - apply list_elem_of_singleton in Hin as [= -> ->]. split; [apply list_elem_of_here|done].
  - cbn in HT. unfold infer_if_edge_facts in Hin.
    destruct (infer_branch_local_fact consts (ti_test i)) as [[[l tf] ef]|] eqn:E; cbn in *;
      apply elem_of_cons in Hin as [[= -> ->]|[= -> ->]%list_elem_of_singleton];
      (split; [rewrite !elem_of_cons; by auto|]); try done; by apply tracked_narrow; auto.
  - apply elem_of_app in Hin as [(t & [= -> ->] & Ht)%list_elem_of_fmap|
      [= -> ->]%list_elem_of_singleton]; (split; [apply elem_of_app|done]); [by left|right].
    apply list_elem_of_here.
  - by apply not_elem_of_nil in Hin.
  - by apply not_elem_of_nil in Hin.
  - by apply not_elem_of_nil in Hin.
Qed.

(** ** Termination *)

Variables (T : list LocalLocation) (L : list BlockLabel).

Definition all_tracked e : Prop := map_Forall (fun _ env => tracked T env) e.
Definition cost e (l : BlockLabel) : nat :=
  match e !! l with Some env => env_weight env | None => S (9 * length T) end.
Definition measure e : nat := sum_list (map (cost e) L).

Lemma sum_list_strict (f g : BlockLabel -> nat) l :
  (forall x, f x <= g x) -> (exists x, x ∈ l /\ f x < g x) -> sum_list (map f l) < sum_list (map g l).
Proof.
  intros Hle (x & Hx & Hlt).
  assert (forall k, sum_list (map f k) <= sum_list (map g k)) as Hall.
  { intros k. induction k as [|y k IH]; cbn; [lia|]. specialize (Hle y). lia. }
  apply list_elem_of_split in Hx as (l1 & l2 & ->). rewrite !map_app, !sum_list_with_app.
  pose proof (Hall l1). pose proof (Hall l2). cbn. lia.
Qed.

(** Replacing the facts of one label by facts of smaller cost. *)
Lemma measure_insert e l env :
  l ∈ L -> env_weight env < cost e l -> measure (<[l := env]> e) < measure e.
Proof.
  intros Hl Hlt. apply sum_list_strict.
  - intros x. unfold cost. destruct (decide (x = l)) as [->|Hne].
    + rewrite lookup_insert_eq. unfold cost in Hlt. lia.
    + by rewrite lookup_insert_ne.
  - exists l. split; [done|]. unfold cost at 1. by rewrite lookup_insert_eq.
Qed.

(** A state of the loop that started from [e0]. *)
Definition progress (e0 : Entries) s : Prop :=
  all_tracked s.1 /\ (s.2 = false -> s.1 = e0) /\ measure s.1 + (if s.2 then 1 else 0) <= measure e0.

Lemma progress_edge e0 s target incoming :
  target ∈ L -> tracked T incoming -> progress e0 s ->
  progress e0 (flow_edge s (target, incoming)).
Proof.
  destruct s as [e changed]. intros Ht Hinc (Htr & Hsame & Hm). cbn in *.
  destruct (e !! target) as [existing|] eqn:E.
  - destruct (env_weight_intersect existing incoming) as [Hle Heq].
    case_bool_decide as Hfix.
    + rewrite Hfix, insert_id, orb_false_r by done. done.
    + rewrite orb_true_r. split; [|split; [done|]].
      * cbn. apply map_Forall_insert_2; [|done]. apply tracked_intersect. by apply (Htr target).
      * cbn. enough (measure (<[target := intersect_with existing incoming]> e) < measure e) by (destruct changed; lia).
        apply measure_insert; [done|]. unfold cost. rewrite E.
        destruct (decide (env_weight existing <= env_weight (intersect_with existing incoming)));
          [by destruct Hfix; apply Heq|lia].
  - split; [|split; [done|]].
    + cbn. by apply map_Forall_insert_2.
    + cbn. enough (measure (<[target := incoming]> e) < measure e) by (destruct changed; lia).
      apply measure_insert; [done|]. unfold cost. rewrite E.
      pose proof (env_weight_bound incoming T Hinc). lia.
Qed.

Lemma progress_edges e0 s edges :
  (forall target env, (target, env) ∈ edges -> target ∈ L /\ tracked T env) ->
  progress e0 s -> progress e0 (fold_left flow_edge edges s).
Proof.
  revert s. induction edges as [|[t env] edges IH]; intros s Hed Hs; [done|]. cbn [fold_left].
  apply IH; [intros; apply Hed; by apply list_elem_of_further|].
  destruct (Hed t env (list_elem_of_here _ _)). by apply progress_edge.
Qed.

(** The blocks only store to, narrow and jump to what [T] and [L] list. *)
Definition covered (blocks : list (Block InstrBlockPy)) : Prop :=
  forall b, b ∈ blocks ->
    (forall l, l ∈ omap stored_location (blk_body b) -> l ∈ T) /\
    (forall l, narrowed_location consts (blk_term b) = Some l -> l ∈ T) /\
    (forall l, l ∈ blockpy_successors b -> l ∈ L).

Lemma progress_blocks e0 s blocks :
  covered blocks -> progress e0 s -> progress e0 (fold_left (flow_block consts) blocks s).
Proof.
  revert s. induction blocks as [|b blocks IH]; intros s Hc Hs; [done|]. cbn [fold_left].
  apply IH; [intros b' Hb'; apply Hc; by apply list_elem_of_further|].
  unfold flow_block. destruct (s.1 !! blk_label b) as [entry|] eqn:E; [|done].
  destruct (Hc b (list_elem_of_here _ _)) as (Hstore & Hnarrow & Hsucc).
  apply progress_edges; [|done]. intros target env Hin.
  apply tracked_successors with (T := T) in Hin as [? ?]; [by auto|done|].
  apply tracked_transfer_block; [done|]. destruct Hs as [Htr _]. by apply (Htr _ _ E).
Qed.

Lemma flow_loop_total fuel blocks e :
  covered blocks -> all_tracked e -> measure e < fuel -> is_Some (flow_loop consts fuel blocks e).
Proof.
  intros Hc. revert e. induction fuel as [|fuel IH]; intros e He Hlt; [lia|]. cbn [flow_loop].
  assert (progress e (flow_round consts blocks e)) as (Htr & _ & Hm).
  { apply progress_blocks; [done|]. split; [done|]. split; [done|]. cbn. lia. }
  destruct (flow_round consts blocks e) as [e' []]; [|done]. cbn in *. apply IH; [done|lia].
Qed.

Lemma flow_loop_tracked fuel blocks e e' :
  covered blocks -> all_tracked e -> flow_loop consts fuel blocks e = Some e' -> all_tracked e'.
Proof.
  intros Hc. revert e. induction fuel as [|fuel IH]; intros e He; [done|]. cbn [flow_loop].
  assert (progress e (flow_round consts blocks e)) as (Htr & _).
  { apply progress_blocks; [done|]. split; [done|]. split; [done|]. cbn. lia. }
  destruct (flow_round consts blocks e) as [e1 []]; cbn in *; [by apply IH|by intros [= <-]].
Qed.
End loop.

Lemma covered_blocks consts blocks :
  covered consts (tracked_locations consts blocks) (flow_labels blocks) blocks.
Proof.
  intros b Hb. split_and!; intros l Hl; apply elem_of_concat_map; exists b; (split; [done|]).
  - apply elem_of_app. by left.
  - apply elem_of_app. right. rewrite Hl. apply list_elem_of_here.
  - by apply list_elem_of_further.
Qed.
Lemma start_tracked T (l : BlockLabel) : all_tracked T {[l := ∅]}.
Proof. apply map_Forall_singleton. intros l' [f Hf]. by rewrite lookup_empty in Hf. Qed.

Lemma infer_block_entry_facts_total consts blocks : is_Some (infer_block_entry_facts consts blocks).
Proof.
  destruct blocks as [|b blocks']; [done|]. cbn [infer_block_entry_facts].
  set (blocks := b :: blocks').
  set (T := tracked_locations consts blocks). set (L := flow_labels blocks).
  apply (flow_loop_total consts T L); [apply covered_blocks|apply start_tracked|].
  unfold flow_fuel, measure. fold T L. apply Nat.lt_succ_r.
  induction L as [|l L' IH]; cbn [map sum_list_with length]; [lia|]. unfold id at 1.
  enough (cost T {[blk_label b := ∅]} l <= S (9 * length T)) by lia.
  unfold cost. destruct (decide (l = blk_label b)) as [->|]; [rewrite lookup_singleton_eq|
    rewrite lookup_singleton_ne by done]; [change (env_weight ∅) with 0|]; lia.
Qed.

Lemma infer_block_entry_facts_tracked consts blocks e :
  infer_block_entry_facts consts blocks = Some e -> all_tracked (tracked_locations consts blocks) e.
Proof.
  destruct blocks as [|b blocks]; [by intros [= <-]|].
  apply (flow_loop_tracked consts _ _ _ _ _ _ (covered_blocks consts (b :: blocks))), start_tracked.
Qed.

(** ** The result is a solution *)

Section solution.
Variable consts : list ValueFacts.
Implicit Types (e : Entries) (s : Entries * bool) (block : Block InstrBlockPy).

(** An edge that brings nothing new. *)
Definition edge_stable e (edge : BlockLabel * EnvFacts) : Prop :=
  exists existing, e !! edge.1 = Some existing /\ intersect_with existing edge.2 = existing.

Definition solution (blocks : list (Block InstrBlockPy)) e : Prop :=
  forall b entry edge, b ∈ blocks -> e !! blk_label b = Some entry ->
    edge ∈ successor_envs consts b (transfer_block_env consts b entry) -> edge_stable e edge.

Lemma flow_edge_flag s edge : s.2 = true -> (flow_edge s edge).2 = true.
Proof.
  destruct s as [e changed], edge as [target incoming]. cbn. intros ->. by destruct (e !! target).
Qed.
Lemma flow_edges_flag s edges : s.2 = true -> (fold_left flow_edge edges s).2 = true.
Proof.
  revert s. induction edges as [|edge edges IH]; intros s Hs; [done|].
  apply IH. by apply flow_edge_flag.
Qed.
Lemma flow_blocks_flag s blocks : s.2 = true -> (fold_left (flow_block consts) blocks s).2 = true.
Proof.
  revert s. induction blocks as [|b blocks IH]; intros s Hs; [done|]. apply IH.
  unfold flow_block. destruct (_ !! _); [by apply flow_edges_flag|done].
Qed.

Lemma flow_edge_same e edge e' : flow_edge (e, false) edge = (e', false) -> e' = e /\ edge_stable e edge.
Proof.
  destruct edge as [target incoming]. cbn. destruct (e !! target) as [existing|] eqn:E; [|done].
  case_bool_decide as Hfix; [|done]. intros [= <-]. rewrite Hfix. split; [by apply insert_id|].
  by exists existing.
Qed.
Lemma flow_edges_same e edges e' :
  fold_left flow_edge edges (e, false) = (e', false) ->
  e' = e /\ forall edge, edge ∈ edges -> edge_stable e edge.
Proof.
  revert e. induction edges as [|edge edges IH]; intros e; cbn [fold_left].
  { intros [= <-]. split; [done|]. by intros ? ?%not_elem_of_nil. }
  intros H. destruct (flow_edge (e, false) edge) as [e1 []] eqn:E.
  { pose proof (flow_edges_flag (e1, true) edges eq_refl) as Hf. by rewrite H in Hf. }
  apply flow_edge_same in E as [-> Hed]. apply IH in H as [-> Hall].
  split; [done|]. intros ed [->|Hin]%elem_of_cons; auto.
Qed.

Lemma flow_blocks_same e blocks e' :
  fold_left (flow_block consts) blocks (e, false) = (e', false) -> e' = e /\ solution blocks e.
Proof.
  revert e. induction blocks as [|b blocks IH]; intros e; cbn [fold_left].
  { intros [= <-]. split; [done|]. by intros b entry edge ?%not_elem_of_nil. }
  intros H. destruct (flow_block consts (e, false) b) as [e1 []] eqn:E.
  { pose proof (flow_blocks_flag (e1, true) blocks eq_refl) as Hf. by rewrite H in Hf. }
  assert (e1 = e /\ solution [b] e) as [-> Hb].
  { unfold flow_block in E. cbn [fst] in E. destruct (e !! blk_label b) as [entry|] eqn:Hentry.
    - apply flow_edges_same in E as [-> Hall]. split; [done|].
      intros b' entry' edge ->%list_elem_of_singleton He. rewrite Hentry in He.
      injection He as <-. apply Hall.
    - injection E as <-. split; [done|].
      intros b' entry' edge ->%list_elem_of_singleton He. by rewrite Hentry in He. }
  apply IH in H as [-> Hall]. split; [done|].
  intros b' entry edge [->|Hin]%elem_of_cons; [apply Hb, list_elem_of_here|by apply Hall].
Qed.

(** The entry block starts without facts, and keeps none. *)
Definition starts_empty (l : BlockLabel) e : Prop := e !! l = Some ∅.

Lemma starts_empty_edge l s edge : starts_empty l s.1 -> starts_empty l (flow_edge s edge).1.
Proof.
  destruct s as [e changed], edge as [target incoming]. unfold starts_empty. cbn. intros Hl.
  destruct (decide (target = l)) as [->|Hne].
  - rewrite Hl. cbn. by rewrite lookup_insert_eq.
  - destruct (e !! target); cbn; by rewrite lookup_insert_ne.
Qed.
Lemma starts_empty_blocks l s blocks :
  starts_empty l s.1 -> starts_empty l (fold_left (flow_block consts) blocks s).1.
Proof.
  revert s. induction blocks as [|b blocks IH]; intros s Hs; [done|]. apply IH. unfold flow_block.
  destruct (s.1 !! blk_label b) as [entry|]; [|done]. generalize (successor_envs consts b (transfer_block_env consts b entry)).
  intros edges. revert s Hs. induction edges as [|edge edges IHe]; intros s Hs; [done|].
  apply IHe. by apply starts_empty_edge.
Qed.

Lemma flow_loop_solution fuel blocks e e' l :
  flow_loop consts fuel blocks e = Some e' -> starts_empty l e ->
  solution blocks e' /\ starts_empty l e'.
Proof.
  revert e. induction fuel as [|fuel IH]; intros e; [done|]. cbn [flow_loop]. intros H Hl.
  pose proof (starts_empty_blocks l (e, false) blocks Hl) as Hl'.
  unfold flow_round in H. destruct (fold_left _ blocks (e, false)) as [e1 []] eqn:E.
  - by apply (IH e1).
  - injection H as <-. apply flow_blocks_same in E as [-> Hs]. done.
Qed.

Lemma infer_block_entry_facts_solution b blocks e :
  infer_block_entry_facts consts (b :: blocks) = Some e ->
  solution (b :: blocks) e /\ starts_empty (blk_label b) e.
Proof.
  intros H. eapply flow_loop_solution; [exact H|]. apply lookup_singleton_eq.
Qed.
End solution.

(** C31: fact inference always ends: for every module and every table of constants, the
    data-flow loop of every function stops within the rounds it is given, so the pass
    returns a store of facts. *)
Theorem facts_inference_total (callable_defs : list (BlockPyFunction InstrBlockPy))
    (module_constants : list ConstantExpr) :
  exists store, infer_module_value_facts callable_defs module_constants = Some store.
Proof.
  unfold infer_module_value_facts. generalize (map infer_module_constant_facts module_constants).
  intros consts. generalize empty_store. induction callable_defs as [|f defs IH]; intros store.
  - by exists store.
  - cbn [infer_functions]. unfold infer_function_value_facts.
    destruct (infer_block_entry_facts_total consts (bf_blocks f)) as [entries ->]. cbn. apply IH.
Qed.
