(* ===== verification/PySemantics.v ===== *)
(** * Executions of lowered instructions

    What the theorems on value facts are about: Python objects behind an interface
    with the promises of the language and of the runtime the pass relies on, the
    successful evaluation of an instruction tree over the local slots, and the normal
    steps from block to block.

    The operations whose results the pass says nothing about may return any object;
    the arguments of a jump may rebind the parameters of its target to any objects. *)

From stdpp Require Import gmap.
From S2P Require Import Prelude Ids Cfg Names Instr ValueFacts FactInference.

(** ** Objects *)

Class PyRuntime (Value : Type) : Type := {
  exact_type_of : Value -> option PyExactType;
  (** the answer of [bool(v)] when it is always the same *)
  truth_of : Value -> option bool;
  immortal : Value -> Prop;
  singleton : RuntimeSingleton -> Value;
  constant : Z -> Value;
  runtime_value : RuntimeName -> Value;
  helper_object : RuntimeHelperId -> Value -> Prop;
  binop : BinOpKind -> Value -> Value -> Value -> Prop;
  unop : UnaryOpKind -> Value -> Value -> Prop;
  call : Value -> list CallArgPositional -> list CallArgKeyword -> list Value -> Value -> Prop
}.

Definition literal_type (l : Literal) : PyExactType :=
  match l with
  | Lit_String _ => PT_Str
  | Lit_Bytes _ => PT_Bytes
  | Lit_Number (Num_Int _) => PT_Int
  | Lit_Number (Num_Float _) => PT_Float
  end.
(** The truth of the object, with the integer read at full width; a spelling that is
    not a decimal number denotes no object. *)
Definition literal_truth (l : Literal) : option bool :=
  match l with
  | Lit_String value => Some (negb (bool_decide (value = EmptyString)))
  | Lit_Bytes value => Some (negb (bool_decide (value = [])))
  | Lit_Number (Num_Int decimal) => (fun n => negb (n =? 0)%Z) <$> parse_magnitude decimal
  | Lit_Number (Num_Float bits) => Some (f64_nonzero bits)
  end.

Section runtime.
Context {Value : Type} `{!PyRuntime Value}.
Implicit Types v w : Value.

Definition constant_is (c : ConstantExpr) v : Prop :=
  match c with
  | Const_RuntimeName name => v = runtime_value name
  | Const_Literal l =>
      exact_type_of v = Some (literal_type l) /\ is_Some (literal_truth l) /\
      truth_of v = literal_truth l
  end.

(** What the facts say of an object. *)
Record describes v (f : PyObjFacts) : Prop := mkDescribes {
  describes_type t : f_ty f = Type_Exact t -> exact_type_of v = Some t;
  describes_truth b : is_truthy f = Some b -> truth_of v = Some b;
  describes_none : f_none f = IsNone -> v = singleton RS_None;
  describes_not_none : f_none f = IsNotNone -> v <> singleton RS_None;
  describes_true : f_bool_singleton f = IsTrue -> v = singleton RS_True;
  describes_false : f_bool_singleton f = IsFalse -> v = singleton RS_False;
  describes_immortal : f_refcount f = Immortal -> immortal v;
  describes_singleton s : f_provenance f = Prov_RuntimeSingleton s -> v = singleton s;
  describes_constant i : f_provenance f = Prov_ModuleConstant i -> v = constant i;
  describes_callable h : f_callable f = Callable_RuntimeHelper h -> helper_object h v
}.
Definition describes_value v (f : ValueFacts) : Prop :=
  match f with VF_PyObj f => describes v f | VF_I32 _ | VF_I64 _ | VF_Bool => False end.

(** The result type of an operator on two objects of type [int]. *)
Definition int_binop_type (kind : BinOpKind) : option PyExactType :=
  match kind with
  | Eq | Ne | Lt | Le | Gt | Ge => Some PT_Bool
  | Add | Sub | Mul | FloorDiv | Mod | LShift | RShift | Or | Xor | And
  | InplaceAdd | InplaceSub | InplaceMul | InplaceFloorDiv | InplaceMod | InplaceLShift
  | InplaceRShift | InplaceOr | InplaceXor | InplaceAnd => Some PT_Int
  | TrueDiv | InplaceTrueDiv => Some PT_Float
  | Pow | InplacePow | MatMul | InplaceMatMul | Contains | Is => None
  end.
Definition int_unop_type (kind : UnaryOpKind) : PyExactType :=
  match kind with Pos | Neg | Invert => PT_Int | Not | Truth => PT_Bool end.

Definition singleton_bool (b : bool) : RuntimeSingleton := if b then RS_True else RS_False.

(** The promises of the language and the runtime.  [conforming] lists the helpers
    whose results are what their signature says. *)
Class PyRuntimeLaws (module_constants : list ConstantExpr) (conforming : RuntimeHelperId -> bool) :
    Prop := {
  none_type : exact_type_of (singleton RS_None) = Some PT_NoneType;
  none_truth : truth_of (singleton RS_None) = Some false;
  bool_type b : exact_type_of (singleton (singleton_bool b)) = Some PT_Bool;
  bool_truth b : truth_of (singleton (singleton_bool b)) = Some b;
  singleton_immortal s : immortal (singleton s);
  bool_immortal v : exact_type_of v = Some PT_Bool -> immortal v;
  constant_immortal i : immortal (constant i);
  constant_realised i c :
    module_constants !! Z.to_nat i = Some c -> constant_is c (constant i);
  runtime_none : runtime_value RN_None = singleton RS_None;
  runtime_true : runtime_value RN_True = singleton RS_True;
  runtime_false : runtime_value RN_False = singleton RS_False;
  runtime_helper_object r h :
    from_runtime_symbol (runtime_name_name r) = Some h -> helper_object h (runtime_value r);
  helper_truth h v : helper_object h v -> truth_of v = Some true;
  int_binop kind t v1 v2 r :
    exact_type_of v1 = Some PT_Int -> exact_type_of v2 = Some PT_Int ->
    binop kind v1 v2 r -> int_binop_type kind = Some t -> exact_type_of r = Some t;
  int_unop kind v r :
    exact_type_of v = Some PT_Int -> unop kind v r -> exact_type_of r = Some (int_unop_type kind);
  is_identity v1 v2 r :
    binop Is v1 v2 r ->
    (v1 = v2 /\ r = singleton RS_True) \/ (v1 <> v2 /\ r = singleton RS_False);
  not_bool b r : unop Not (singleton (singleton_bool b)) r -> r = singleton (singleton_bool (negb b));
  call_helper h f args vs r :
    conforming h = true -> helper_object h f -> forallb is_positional args = true ->
    call f args [] vs r -> describes_value r (sig_result (signature h))
}.

(** ** Evaluation *)

Notation Locals := (gmap LocalLocation Value).
Implicit Types σ : Locals.

(** The operations that only compute a result from their operands. *)
Definition is_pure_op (op : InstrOp) : bool :=
  match op with
  | Op_Load _ _ | Op_Store _ _ _ | Op_Del _ _ | Op_TakeOperand _ | Op_CallArgumentOp _ _ _
  | Op_BinOp _ | Op_UnaryOp _ | Op_Call _ _ _ => false
  | _ => true
  end.

(** One operation, on the values of its children, with the slots before and after. *)
Inductive perform : Locals -> InstrOp -> list Value -> Locals -> Value -> Prop :=
| P_LoadLocal σ name cell l v :
    local_location name = Some l -> σ !! l = Some v -> perform σ (Op_Load name cell) [] σ v
| P_LoadConstant σ name cell i :
    rn_location name = NL_Constant i -> perform σ (Op_Load name cell) [] σ (constant i)
| P_LoadRuntime σ name cell r :
    rn_location name = NL_RuntimeName r -> perform σ (Op_Load name cell) [] σ (runtime_value r)
| P_LoadOther σ name cell v :
    local_location name = None -> as_constant (rn_location name) = None ->
    resolved_runtime_name_id name = None -> perform σ (Op_Load name cell) [] σ v
| P_StoreLocal σ name lifetime purpose l v w :
    local_location name = Some l -> perform σ (Op_Store name lifetime purpose) [v] (<[l := v]> σ) w
| P_StoreOther σ name lifetime purpose v w :
    local_location name = None -> perform σ (Op_Store name lifetime purpose) [v] σ w
| P_DelLocal σ name quietly l :
    local_location name = Some l ->
    perform σ (Op_Del name quietly) [] (delete l σ) (singleton RS_None)
| P_DelOther σ name quietly :
    local_location name = None -> perform σ (Op_Del name quietly) [] σ (singleton RS_None)
| P_TakeLocal σ name l v :
    local_location name = Some l -> σ !! l = Some v ->
    perform σ (Op_TakeOperand name) [] (delete l σ) v
| P_TakeOther σ name v :
    local_location name = None -> perform σ (Op_TakeOperand name) [] σ v
| P_CallArgumentReplace σ kind callable buffer l vs v w :
    replaces_buffer kind = true -> local_location buffer = Some l ->
    perform σ (Op_CallArgumentOp kind callable buffer) vs (<[l := v]> σ) w
| P_CallArgumentKeep σ kind callable buffer vs w :
    replaces_buffer kind = false \/ local_location buffer = None ->
    perform σ (Op_CallArgumentOp kind callable buffer) vs σ w
| P_BinOp σ kind v1 v2 r : binop kind v1 v2 r -> perform σ (Op_BinOp kind) [v1; v2] σ r
| P_UnaryOp σ kind v r : unop kind v r -> perform σ (Op_UnaryOp kind) [v] σ r
| P_Call σ args keywords namespace f vs r :
    call f args keywords vs r -> perform σ (Op_Call args keywords namespace) (f :: vs) σ r
| P_Pure σ op vs r :
    is_pure_op op = true ->
    (op = Op_SetAttr \/ op = Op_SetItem \/ op = Op_DelItem -> r = singleton RS_None) ->
    (op = Op_Tuple -> r <> singleton RS_None) -> perform σ op vs σ r.

(** Children are evaluated in order, then the operation. *)
Inductive eval : Locals -> InstrBlockPy -> Locals -> Value -> Prop :=
| E_Node σ σ1 σ2 id op children vs v :
    eval_all σ children σ1 vs -> perform σ1 op vs σ2 v -> eval σ (mkInstr id op children) σ2 v
with eval_all : Locals -> list InstrBlockPy -> Locals -> list Value -> Prop :=
| E_Nil σ : eval_all σ [] σ []
| E_Cons σ σ1 σ2 i rest v vs :
    eval σ i σ1 v -> eval_all σ1 rest σ2 vs -> eval_all σ (i :: rest) σ2 (v :: vs).

(** ** Blocks *)

Variable param_location : string -> option LocalLocation.

Definition target_params (blocks : list (Block InstrBlockPy)) (edge : BlockEdge) : list LocalLocation :=
  concat (map (fun b =>
    if bool_decide (blk_label b = be_target edge)
    then omap (fun param => param_location (bp_name param)) (blk_params b) else []) blocks).

Inductive exec_term (blocks : list (Block InstrBlockPy)) :
    Locals -> BlockTerm InstrBlockPy -> BlockLabel -> Locals -> Prop :=
| T_Jump σ σ' edge :
    (forall l, be_args edge = [] \/ l ∉ target_params blocks edge -> σ' !! l = σ !! l) ->
    exec_term blocks σ (BT_Jump edge) (be_target edge) σ'
| T_Then σ σ' i v :
    eval σ (ti_test i) σ' v -> truth_of v <> Some false ->
    exec_term blocks σ (BT_If i) (ti_then_label i) σ'
| T_Else σ σ' i v :
    eval σ (ti_test i) σ' v -> truth_of v <> Some true ->
    exec_term blocks σ (BT_If i) (ti_else_label i) σ'
| T_Branch σ σ' b v target :
    eval σ (tb_index b) σ' v -> target ∈ tb_targets b ++ [tb_default_label b] ->
    exec_term blocks σ (BT_BranchTable b) target σ'.

(** A normal step: no instruction of the block raises. *)
Inductive step (blocks : list (Block InstrBlockPy)) :
    BlockLabel * Locals -> BlockLabel * Locals -> Prop :=
| Step b σ σ1 vs target σ2 :
    b ∈ blocks -> eval_all σ (blk_body b) σ1 vs -> exec_term blocks σ1 (blk_term b) target σ2 ->
    step blocks (blk_label b, σ) (target, σ2).

(** A step into the handler of a block whose body raises after a prefix of it. *)
Inductive exception_step (blocks : list (Block InstrBlockPy)) :
    BlockLabel * Locals -> BlockLabel * Locals -> Prop :=
| ExceptionStep b prefix rest edge σ σ1 vs :
    b ∈ blocks -> blk_body b = prefix ++ rest -> blk_exc_edge b = Some edge ->
    eval_all σ prefix σ1 vs -> exception_step blocks (blk_label b, σ) (be_target edge, σ1).
End runtime.
