(* ===== verification/FactSoundness.v ===== *)
(** * Inferring value facts: soundness

    The facts of an expression describe every object it evaluates to, and the facts at
    the entry of a block describe the slots of every execution that reached the block by
    normal steps.  Runs through exception handlers are outside the second theorem:
    [handler_facts_unsound] shows that the facts of a block after a handler ignore it. *)

From Stdlib Require Import Ascii.
From stdpp Require Import gmap.
From S2P Require Import Prelude Ids Cfg Names Instr InstrProps ValueFacts ValueFactsProps.
From S2P Require Import FactInference FactInferenceProps PySemantics.

Section soundness.
Context {Value : Type} `{!PyRuntime Value}.
Variables (module_constants : list ConstantExpr) (conforming : RuntimeHelperId -> bool).
Context `{!PyRuntimeLaws module_constants conforming}.
Notation Locals := (gmap LocalLocation Value).
Notation consts := (map infer_module_constant_facts module_constants).
Implicit Types (v w : Value) (σ : Locals).

(** ** Describing objects *)

Lemma describes_unknown v : describes v facts_unknown.
Proof. by split. Qed.

Lemma describes_below v f g : facts_below f g -> describes v g -> describes v f.
Proof.
  unfold facts_below, fact_below, is_truthy. intros Hb [D1 D2 D3 D4 D5 D6 D7 D8 D9 D10].
  unfold is_truthy in D2. destruct Hb as (B1 & B2 & B3 & B4 & B5 & B6 & B7 & B8).
  split; unfold is_truthy; intros *; intros E.
  - destruct B1 as [B|B]; rewrite B in E; [done|by apply D1].
  - destruct B2 as [B|B]; rewrite B in E; [done|by apply D2].
  - destruct B3 as [B|B]; rewrite B in E; [done|by apply D3].
  - destruct B3 as [B|B]; rewrite B in E; [done|by apply D4].
  - destruct B5 as [B|B]; rewrite B in E; [done|by apply D5].
  - destruct B5 as [B|B]; rewrite B in E; [done|by apply D6].
  - destruct B6 as [B|B]; rewrite B in E; [done|by apply D7].
  - destruct B7 as [B|B]; rewrite B in E; [done|by apply D8].
  - destruct B7 as [B|B]; rewrite B in E; [done|by apply D9].
  - destruct B8 as [B|B]; rewrite B in E; [done|by apply D10].
Qed.

Lemma not_none_of_type v t : exact_type_of v = Some t -> t <> PT_NoneType -> v <> singleton RS_None.
Proof. intros Ht Hne ->. pose proof none_type. congruence. Qed.

Lemma describes_exact v t :
  exact_type_of v = Some t -> t <> PT_NoneType -> describes v (exact_type t).
Proof.
  intros Ht Hne. pose proof (not_none_of_type _ _ Ht Hne).
  split; cbn; try done; [congruence|]. by destruct t.
Qed.
Lemma describes_bool_object v : exact_type_of v = Some PT_Bool -> describes v bool_object.
Proof.
  intros Ht. pose proof (not_none_of_type _ _ Ht ltac:(done)).
  split; cbn; try done; [congruence|]. intros _. by apply bool_immortal.
Qed.
Lemma describes_none_singleton : describes (singleton RS_None) none_singleton.
Proof.
  split; cbn; try done; intros; simplify_eq; eauto using none_type, none_truth, singleton_immortal.
Qed.
Lemma describes_bool_singleton b : describes (singleton (singleton_bool b)) (bool_singleton b).
Proof.
  pose proof (not_none_of_type _ _ (bool_type b) ltac:(done)).
  split; cbn; intros; destruct b; cbn in *; simplify_eq;
    eauto using singleton_immortal; first [apply (bool_type true)|apply (bool_type false)|
      apply (bool_truth true)|apply (bool_truth false)].
Qed.
Lemma describes_not_none_object v : v <> singleton RS_None -> describes v known_not_none.
Proof. by split. Qed.
Lemma describes_helper h v : helper_object h v -> describes v (facts_runtime_helper h).
Proof.
  intros Hh. pose proof (helper_truth _ _ Hh) as Ht.
  split; cbn; try done; intros; simplify_eq; try done.
  intros ->. pose proof none_truth. congruence.
Qed.

(** ** Constants *)

Lemma parse_digits_nonneg acc s n : (0 <= acc)%Z -> parse_digits acc s = Some n -> (acc <= n)%Z.
Proof.
  revert acc. induction s as [|c s IH]; intros acc Hacc; cbn; [by intros [= <-]|].
  unfold digit_value. destruct (_ && _) eqn:E; cbn; [|done]. intros H.
  apply andb_true_iff in E as [E1%Z.leb_le E2%Z.leb_le]. apply IH in H; lia.
Qed.

(** Parsing at 64 bits and at full width agree on whether an integer is zero. *)
Lemma int_literal_truth decimal n :
  parse_magnitude decimal = Some n ->
  match as_i64 decimal with None => true | Some value => negb (value =? 0)%Z end = negb (n =? 0)%Z.
Proof.
  intros Hn. assert (as_i64 decimal = if (n <? 2 ^ 63)%Z then Some n else None) as ->.
  { assert (0 <= n)%Z by (destruct decimal; [done|]; by apply parse_digits_nonneg in Hn).
    unfold as_i64. destruct decimal as [|c s]; [done|].
    assert (parse_signed (String c s) = Some n) as ->.
    { unfold parse_signed. destruct (Ascii.eqb c "+") eqn:Ep.
      { apply Ascii.eqb_eq in Ep as ->. done. }
      destruct (Ascii.eqb c "-") eqn:Em; [|done]. by apply Ascii.eqb_eq in Em as ->. }
    cbn [mbind option_bind].
    by replace (- 2 ^ 63 <=? n)%Z with true by (symmetry; apply Z.leb_le; lia). }
  destruct (n <? 2 ^ 63)%Z eqn:E; [done|]. apply Z.ltb_ge in E.
  by replace (n =? 0)%Z with false by (symmetry; apply Z.eqb_neq; lia).
Qed.

Lemma runtime_name_facts_sound r f :
  infer_runtime_name_facts r = Some f -> describes_value (runtime_value r) f.
Proof.
  intros H.
  assert (forall h, from_runtime_symbol (runtime_name_name r) = Some h ->
            describes (runtime_value r) (facts_runtime_helper h)) as Hhelper.
  { intros h Hh. apply describes_helper. by apply runtime_helper_object. }
  assert ((r = RN_None /\ f = VF_PyObj none_singleton) \/
          (r = RN_True /\ f = VF_PyObj (bool_singleton true)) \/
          (r = RN_False /\ f = VF_PyObj (bool_singleton false)) \/
          exists h, from_runtime_symbol (runtime_name_name r) = Some h /\
                    f = VF_PyObj (facts_runtime_helper h)) as Hcases.
  { destruct r; cbn in H; try discriminate H; injection H as <-; eauto 6. }
  destruct Hcases as [[-> ->]|[[-> ->]|[[-> ->]|(h & Hh & ->)]]]; cbn; [..|by apply Hhelper].
  - rewrite runtime_none. apply describes_none_singleton.
  - rewrite runtime_true. apply (describes_bool_singleton true).
  - rewrite runtime_false. apply (describes_bool_singleton false).
Qed.

Lemma literal_facts_sound l v :
  exact_type_of v = Some (literal_type l) -> is_Some (literal_truth l) ->
  truth_of v = literal_truth l -> describes_value v (infer_literal_facts l).
Proof.
  intros Ht [b Hb] Hv. rewrite Hb in Hv.
  assert (literal_type l <> PT_NoneType) as Hnn by by destruct l as [| |[]].
  assert (infer_literal_facts l =
          VF_PyObj (exact_type_with_truthiness (literal_type l) (truthiness b))) as ->.
  { destruct l as [| |[decimal|]]; cbn [literal_truth] in Hb; try (by injection Hb as <-).
    destruct (parse_magnitude decimal) as [n|] eqn:En; cbn in Hb; [|done]. injection Hb as <-.
    unfold infer_literal_facts. by rewrite (int_literal_truth _ _ En). }
  pose proof (not_none_of_type _ _ Ht Hnn).
  split; cbn; try done; [congruence| |by destruct (literal_type l)].
  intros b'. unfold is_truthy. cbn. destruct b; cbn; congruence.
Qed.

Lemma constant_facts_sound c v : constant_is c v -> describes_value v (infer_module_constant_facts c).
Proof.
  destruct c as [l|r]; cbn.
  - intros (Ht & Hs & Hv). by apply literal_facts_sound.
  - intros ->. destruct (infer_runtime_name_facts r) as [f|] eqn:E; cbn;
      [by apply runtime_name_facts_sound|apply describes_unknown].
Qed.

Lemma module_constant_load_sound i :
  describes_value (constant i) (module_constant_load_fact i consts).
Proof.
  unfold module_constant_load_fact. rewrite list_lookup_fmap.
  destruct (module_constants !! Z.to_nat i) as [c|] eqn:E; cbn.
  - pose proof (constant_facts_sound c _ (constant_realised _ _ E)) as Hc.
    destruct (infer_module_constant_facts c) as [f| | |]; cbn in *; try done.
    destruct Hc. split; cbn; try done; intros; simplify_eq; try done. apply constant_immortal.
  - split; cbn; try done; intros; simplify_eq; try done. apply constant_immortal.
Qed.

Lemma is_runtime_symbol_eq name r :
  is_runtime_symbol name (runtime_name_name r) = bool_decide (resolved_runtime_name_id name = Some r).
Proof. unfold is_runtime_symbol. by rewrite runtime_name_from_name_name. Qed.

(** A load: the slots are unchanged, and the facts describe the object. *)
Lemma perform_load σ σ' name cell_binding vs v :
  perform σ (Op_Load name cell_binding) vs σ' v ->
  vs = [] /\ σ' = σ /\
  match rn_location name with
  | NL_Local l => σ !! l = Some v
  | NL_Constant i => v = constant i
  | NL_RuntimeName r => v = runtime_value r
  | _ => True
  end.
Proof.
  unfold local_location, resolved_runtime_name_id. intros H; inversion H; subst; try discriminate;
    unfold local_location, resolved_runtime_name_id in *; split_and!; try done;
    destruct (rn_location name); cbn in *; simplify_eq; done.
Qed.

(** Loading a runtime name gives the facts of the name. *)
Lemma infer_runtime_load name r :
  rn_location name = NL_RuntimeName r ->
  infer_runtime_name_load_facts name = infer_runtime_name_facts r.
Proof.
  intros Hr. unfold infer_runtime_name_load_facts.
  change "NONE"%string with (runtime_name_name RN_None).
  change "TRUE"%string with (runtime_name_name RN_True).
  change "FALSE"%string with (runtime_name_name RN_False).
  rewrite !is_runtime_symbol_eq. unfold is_runtime_name, id_str, resolved_runtime_name_id.
  rewrite Hr. by destruct r.
Qed.
Lemma infer_other_load name :
  location_runtime_name (rn_location name) = None -> infer_runtime_name_load_facts name = None.
Proof.
  intros Hr. unfold infer_runtime_name_load_facts.
  change "NONE"%string with (runtime_name_name RN_None).
  change "TRUE"%string with (runtime_name_name RN_True).
  change "FALSE"%string with (runtime_name_name RN_False).
  rewrite !is_runtime_symbol_eq. unfold is_runtime_name, resolved_runtime_name_id. by rewrite Hr.
Qed.

Lemma load_sound σ σ' name cell_binding vs v :
  perform σ (Op_Load name cell_binding) vs σ' v -> describes_value v (infer_load_facts consts name).
Proof.
  intros (_ & _ & Hv)%perform_load. unfold infer_load_facts.
  destruct (rn_location name) as [| | | |r| |i] eqn:E;
    try (rewrite infer_other_load by (by rewrite E); apply describes_unknown).
  - subst v. rewrite (infer_runtime_load _ _ E). pose proof (runtime_name_facts_sound r) as Hr.
    destruct (infer_runtime_name_facts r); [by apply Hr|apply describes_unknown].
  - subst v. rewrite infer_other_load by (by rewrite E). apply module_constant_load_sound.
Qed.

(** ** Expressions *)

Lemma binop_facts_sound kind f1 f2 f v1 v2 r :
  infer_binop_result_facts kind f1 f2 = Some f ->
  describes_value v1 f1 -> describes_value v2 f2 -> binop kind v1 v2 r -> describes_value r f.
Proof.
  unfold infer_binop_result_facts, is_exact_int_fact. intros H H1 H2 Hr.
  assert (forall g v, describes_value v g ->
            is_some_and (fun p => is_exact_type p PT_Int) (as_pyobj g) = true ->
            exact_type_of v = Some PT_Int) as Hint.
  { intros [g| | |] v Hv; cbn; try done. unfold is_exact_type. destruct Hv as [Hty _ _ _ _ _ _ _ _ _].
    destruct (f_ty g); [done|]. intros ->%bool_decide_eq_true. by apply Hty. }
  destruct (is_some_and _ (as_pyobj f1)) eqn:E1, (is_some_and _ (as_pyobj f2)) eqn:E2; try done.
  cbn in H. pose proof (fun t => int_binop kind t v1 v2 r (Hint _ _ H1 E1) (Hint _ _ H2 E2) Hr) as Ht.
  destruct kind; cbn in Ht; try discriminate; injection H as <-; cbn;
    first [by apply describes_bool_object, Ht|by apply describes_exact; [apply Ht|]].
Qed.

Lemma unary_facts_sound kind f0 f v r :
  infer_unary_result_facts kind f0 = Some f ->
  describes_value v f0 -> unop kind v r -> describes_value r f.
Proof.
  unfold infer_unary_result_facts, is_exact_int_fact. intros H Hv Hr.
  destruct f0 as [g| | |]; cbn in *; try done. unfold is_exact_type in H.
  destruct (f_ty g) as [|t] eqn:Eg; [done|]. case_bool_decide; [subst|done].
  pose proof (int_unop kind v r (describes_type _ _ Hv _ Eg) Hr) as Ht.
  destruct kind; cbn in *; injection H as <-; cbn;
    first [by apply describes_bool_object, Ht|by apply describes_exact; [apply Ht|]].
Qed.

(** Every call of a helper the pass knows is a call of a conforming one. *)
Definition call_conforms (i : InstrBlockPy) : bool :=
  match i with
  | mkInstr _ (Op_Call _ _ _) (func :: _) =>
      match value_runtime_helper (infer_expr_facts consts func) with
      | Some h => conforming h
      | None => true
      end
  | _ => true
  end.
Definition calls_conform (i : InstrBlockPy) : bool := forallb call_conforms (instrs_pre i).

Lemma calls_conform_node id op children :
  calls_conform (mkInstr id op children) =
  call_conforms (mkInstr id op children) && forallb calls_conform children.
Proof.
  unfold calls_conform. cbn [instrs_pre forallb]. f_equal.
  induction children as [|c l IH]; cbn; [done|]. by rewrite forallb_app, IH.
Qed.

Lemma call_facts_sound h f args keywords vs r g :
  describes_value f g -> value_runtime_helper g = Some h -> conforming h = true ->
  bool_decide (length keywords = 0) && forallb is_positional args = true ->
  call f args keywords vs r -> describes_value r (sig_result (signature h)).
Proof.
  intros Hf Hg Hc [Hk Ha]%andb_true_iff Hcall. apply bool_decide_eq_true in Hk.
  destruct keywords; [|done]. destruct g as [g| | |]; cbn in *; try done.
  destruct (f_callable g) eqn:Eg; [done|]. injection Hg as ->.
  eapply call_helper; [exact Hc| |exact Ha|exact Hcall]. by apply Hf.
Qed.

(** The facts of the children of a node describe their values. *)
Lemma children_facts_sound children σ σ' vs :
  Forall (fun i => forall σ σ' v, calls_conform i = true -> eval σ i σ' v ->
            describes_value v (infer_expr_facts consts i)) children ->
  forallb calls_conform children = true -> eval_all σ children σ' vs ->
  Forall2 (fun i v => describes_value v (infer_expr_facts consts i)) children vs.
Proof.
  intros HF. revert σ vs. induction HF as [|i l Hi HF IH]; intros σ vs Hc He;
    inversion He; subst; constructor; apply andb_true_iff in Hc as [Hc1 Hc2]; eauto.
Qed.

Lemma expr_facts_sound_tree i σ σ' v :
  calls_conform i = true -> eval σ i σ' v -> describes_value v (infer_expr_facts consts i).
Proof.
  revert σ σ' v. induction i as [id op children IH] using InstrBlockPy_tree_ind. intros σ σ' v.
  rewrite calls_conform_node. intros [Hcall Hchildren]%andb_true_iff Heval.
  inversion Heval as [? σ1 ? ? ? ? vs ? Hall Hperf]; subst.
  pose proof (children_facts_sound _ _ _ _ IH Hchildren Hall) as Hvs. clear IH Hall Hchildren Heval.
  destruct op; try apply describes_unknown.
  - inversion Hperf; subst; [|discriminate].
    inversion Hvs as [|i1 ? l1 ? D1 Hvs1]; subst. inversion Hvs1 as [|i2 ? l2 ? D2 Hvs2]; subst.
    inversion Hvs2; subst. cbn [infer_expr_facts].
    destruct (infer_binop_result_facts _ _ _) as [f|] eqn:E; [|apply describes_unknown].
    by eapply binop_facts_sound.
  - inversion Hperf; subst; [|discriminate].
    inversion Hvs as [|i1 ? l1 ? D1 Hvs1]; subst. inversion Hvs1; subst. cbn [infer_expr_facts].
    destruct (infer_unary_result_facts _ _) as [f|] eqn:E; [|apply describes_unknown].
    by eapply unary_facts_sound.
  - inversion Hperf; subst. apply describes_not_none_object. by auto.
  - inversion Hperf; subst; [|discriminate].
    inversion Hvs as [|i1 ? l1 ? D1 Hvs1]; subst. cbn [infer_expr_facts call_conforms] in *.
    unfold infer_call_facts. destruct (_ && _) eqn:Epos; [|apply describes_unknown].
    destruct (value_runtime_helper (infer_expr_facts consts i1)) as [h|] eqn:E;
      [|apply describes_unknown]. by eapply call_facts_sound.
  - inversion Hperf; subst. rewrite H0 by auto. apply describes_none_singleton.
  - inversion Hperf; subst. rewrite H0 by auto. apply describes_none_singleton.
  - inversion Hperf; subst. rewrite H0 by auto. apply describes_none_singleton.
  - by eapply load_sound.
  - inversion Hperf; subst; try apply describes_none_singleton. discriminate.
Qed.

(** ** Slots *)

Definition env_describes σ (env : EnvFacts) : Prop :=
  forall l f, env !! l = Some f -> exists v, σ !! l = Some v /\ describes v f.

Lemma env_describes_below σ e1 e2 : env_below e1 e2 -> env_describes σ e2 -> env_describes σ e1.
Proof.
  intros Hb Hd l f Hf. destruct (Hb _ _ Hf) as (g & Hg & Hfg), (Hd _ _ Hg) as (v & Hv & Hvg).
  exists v. split; [done|]. by eapply describes_below.
Qed.

(** Expressions of a block body write no slot: only the statement itself does. *)
Definition writes_slot (op : InstrOp) : bool :=
  match op with Op_Store _ _ _ | Op_Del _ _ | Op_CallArgumentOp _ _ _ => true | _ => false end.
Definition flat (i : InstrBlockPy) : bool :=
  forallb (fun n => negb (writes_slot (instr_op n))) (instrs_pre i).

Lemma flat_node id op children :
  flat (mkInstr id op children) = negb (writes_slot op) && forallb flat children.
Proof.
  unfold flat. cbn [instrs_pre forallb]. f_equal.
  induction children as [|c l IH]; cbn; [done|]. by rewrite forallb_app, IH.
Qed.

Definition takes (l : list InstrBlockPy) : list OperandLocation := concat (map visit_operand_takes l).
Lemma takes_node id op children :
  visit_operand_takes (mkInstr id op children) =
  takes children ++ omap take_location [mkInstr id op children].
Proof.
  unfold visit_operand_takes at 1. cbn [instrs_post]. rewrite omap_app. f_equal.
  unfold takes. induction children as [|c l IH]; cbn; [done|]. by rewrite omap_app, IH.
Qed.

(** Evaluating a flat expression changes no slot but those it takes. *)
Lemma perform_frame σ op vs σ' v l id children :
  writes_slot op = false -> perform σ op vs σ' v ->
  OL_Local l ∉ omap take_location [mkInstr id op children] -> σ' !! l = σ !! l.
Proof.
  intros Hw Hp Hl. destruct Hp; try done. cbn in Hl. unfold take_location in Hl. cbn in Hl.
  apply lookup_delete_ne. intros ->. apply Hl. unfold local_location in *.
  destruct (rn_location name); cbn in *; simplify_eq. apply list_elem_of_here.
Qed.

Lemma eval_all_frame_of children σ σ' vs l :
  Forall (fun i => forall σ σ' v, flat i = true -> eval σ i σ' v ->
            forall l, OL_Local l ∉ visit_operand_takes i -> σ' !! l = σ !! l) children ->
  forallb flat children = true -> eval_all σ children σ' vs ->
  OL_Local l ∉ takes children -> σ' !! l = σ !! l.
Proof.
  intros HF. revert σ vs. induction HF as [|i rest Hi HF IH]; intros σ vs Hf He Hl; inversion He; subst;
    [done|]. apply andb_true_iff in Hf as [Hf1 Hf2]. unfold takes in Hl. cbn in Hl.
  rewrite elem_of_app in Hl. transitivity (σ1 !! l); [eapply IH; eauto|eapply Hi; eauto].
Qed.

Lemma eval_frame i σ σ' v l :
  flat i = true -> eval σ i σ' v -> OL_Local l ∉ visit_operand_takes i -> σ' !! l = σ !! l.
Proof.
  intros Hf He Hl. revert σ σ' v Hf He l Hl.
  induction i as [id op children IH] using InstrBlockPy_tree_ind. intros σ σ' v.
  rewrite flat_node. intros [Hw Hf]%andb_true_iff He l. rewrite takes_node, elem_of_app. intros Hl.
  inversion He; subst. apply negb_true_iff in Hw.
  transitivity (σ1 !! l); [eapply perform_frame; eauto|eapply eval_all_frame_of; eauto].
Qed.

Lemma eval_all_frame children σ σ' vs l :
  forallb flat children = true -> eval_all σ children σ' vs -> OL_Local l ∉ takes children ->
  σ' !! l = σ !! l.
Proof.
  intros. eapply eval_all_frame_of; [|eassumption..].
  apply Forall_forall. intros i _ ?????? . by eapply eval_frame.
Qed.

(** The environment has no facts on the slots taken. *)
Definition avoids (env : EnvFacts) (t : list OperandLocation) : Prop :=
  forall l, OL_Local l ∈ t -> env !! l = None.

Lemma env_describes_frame env σ σ' t :
  (forall l, OL_Local l ∉ t -> σ' !! l = σ !! l) -> avoids env t ->
  env_describes σ env -> env_describes σ' env.
Proof.
  intros Hframe Hav Hd l f Hf. rewrite Hframe; [by apply Hd|]. intros Hin.
  by rewrite (Hav _ Hin) in Hf.
Qed.

Lemma avoids_remove env t : avoids (fold_left remove_take t env) t /\ env_below (fold_left remove_take t env) env.
Proof.
  assert (forall t env l, env !! l = None -> fold_left remove_take t env !! l = None) as Hkeep.
  { clear. induction t as [|[l'|] t IH]; intros env l Hl; cbn; [done|..]; apply IH; [|done].
    apply lookup_delete_None. by right. }
  revert env. induction t as [|[l'|l'] t IH]; intros env; cbn.
  - split; [by intros l ?%not_elem_of_nil|done].
  - destruct (IH (delete l' env)) as [IH1 IH2]. split.
    + intros l [[= ->]|Hin]%elem_of_cons; [|by apply IH1]. apply Hkeep, lookup_delete_eq.
    + rewrite IH2. intros l f (_ & Hf)%lookup_delete_Some. by exists f.
  - destruct (IH env) as [IH1 IH2]. split; [|done].
    intros l [[=]|Hin]%elem_of_cons. by apply IH1.
Qed.

Lemma avoids_app env t1 t2 : avoids env (t1 ++ t2) <-> avoids env t1 /\ avoids env t2.
Proof. unfold avoids. setoid_rewrite elem_of_app. naive_solver. Qed.
Lemma avoids_children env id op children :
  avoids env (visit_operand_takes (mkInstr id op children)) -> avoids env (takes children).
Proof. rewrite takes_node, avoids_app. by intros [? _]. Qed.
Lemma avoids_cons env i l : avoids env (takes (i :: l)) <-> avoids env (visit_operand_takes i) /\ avoids env (takes l).
Proof. apply avoids_app. Qed.

Lemma flat_env_describes i env σ σ' v :
  flat i = true -> eval σ i σ' v -> avoids env (visit_operand_takes i) ->
  env_describes σ env -> env_describes σ' env.
Proof. intros Hf He Hav. eapply env_describes_frame; [|done]. intros l. by eapply eval_frame. Qed.

(** Facts of an expression that also use the facts on the slots it loads. *)
Lemma in_env_sound i env σ σ' v :
  flat i = true -> calls_conform i = true -> avoids env (visit_operand_takes i) ->
  env_describes σ env -> eval σ i σ' v -> describes_value v (infer_expr_facts_in_env consts env i).
Proof.
  revert σ σ' v. induction i as [id op children IH] using InstrBlockPy_tree_ind. intros σ σ' v Hf Hc Hav Hd He.
  pose proof (expr_facts_sound_tree _ _ _ _ Hc He) as Hplain.
  rewrite flat_node in Hf. apply andb_true_iff in Hf as [_ Hf].
  rewrite calls_conform_node in Hc. apply andb_true_iff in Hc as [_ Hc]. apply avoids_children in Hav.
  destruct op; try exact Hplain; inversion He as [? σ1 ? ? ? ? vs ? Hall Hperf]; subst.
  - inversion Hperf; subst; [|discriminate].
    inversion Hall as [|? ? ? i1 ? ? ? E1 Hall1]; subst.
    inversion Hall1 as [|? ? ? i2 ? ? ? E2 Hall2]; subst. inversion Hall2; subst.
    apply Forall_cons in IH as [IH1 [IH2 _]%Forall_cons].
    cbn in Hf, Hc. apply andb_true_iff in Hf as [F1 [F2 _]%andb_true_iff].
    apply andb_true_iff in Hc as [C1 [C2 _]%andb_true_iff].
    rewrite !avoids_cons in Hav. destruct Hav as (A1 & A2 & _). cbn [infer_expr_facts_in_env].
    pose proof (flat_env_describes _ _ _ _ _ F1 E1 A1 Hd) as Hd1.
    destruct (infer_binop_result_facts _ _ _) as [f|] eqn:E; [|apply describes_unknown].
    eapply binop_facts_sound; eauto.
  - inversion Hperf; subst; [|discriminate].
    inversion Hall as [|? ? ? i1 ? ? ? E1 Hall1]; subst. inversion Hall1; subst.
    apply Forall_cons in IH as [IH1 _]. cbn in Hf, Hc. apply andb_true_iff in Hf as [F1 _].
    apply andb_true_iff in Hc as [C1 _]. apply avoids_cons in Hav as [A1 _].
    cbn [infer_expr_facts_in_env].
    destruct (infer_unary_result_facts _ _) as [f|] eqn:E; [|apply describes_unknown].
    eapply unary_facts_sound; eauto.
  - cbn [infer_expr_facts_in_env]. unfold local_location.
    apply perform_load in Hperf as (-> & -> & Hv). inversion Hall; subst.
    destruct (rn_location name) as [l| | | | | |]; try exact Hplain. cbn.
    unfold local_pyobj_fact. destruct (env !! l) as [f|] eqn:E; [|exact Hplain].
    destruct (Hd _ _ E) as (v' & Hv' & Hdesc). cbn. by simplify_eq.
Qed.

(** ** Statements *)

Definition stmt_ok (i : InstrBlockPy) : bool := forallb flat (instr_children i) && calls_conform i.

Lemma env_describes_delete σ env l : env_describes σ env -> env_describes (delete l σ) (delete l env).
Proof.
  intros H l' f (Hne & Hf)%lookup_delete_Some. destruct (H _ _ Hf) as (v & Hv & Hd).
  exists v. by rewrite lookup_delete_ne.
Qed.
Lemma env_describes_delete_env σ env l : env_describes σ env -> env_describes σ (delete l env).
Proof. intros H. eapply env_describes_below; [|done]. intros l' f (_ & Hf)%lookup_delete_Some. by exists f. Qed.
Lemma env_describes_write σ env l v : env_describes σ env -> env_describes (<[l := v]> σ) (delete l env).
Proof.
  intros H l' f (Hne & Hf)%lookup_delete_Some. destruct (H _ _ Hf) as (w & Hw & Hd).
  exists w. by rewrite lookup_insert_ne.
Qed.
Lemma env_describes_set σ env l f v :
  σ !! l = Some v -> describes v f -> env_describes σ (delete l env) ->
  env_describes σ (set_local_pyobj_fact env l f).
Proof.
  intros Hv Hd H. unfold set_local_pyobj_fact. destruct (is_uninformative_for_local_env f); [done|].
  intros l' g [[-> ->]|[Hne Hg]]%lookup_insert_Some; [by exists v|].
  apply H. by rewrite lookup_delete_ne.
Qed.

(** A statement: the environment after it describes the slots after it. *)
Lemma transfer_instr_sound i env σ σ' v :
  stmt_ok i = true -> env_describes σ env -> eval σ i σ' v ->
  env_describes σ' (transfer_instr_env consts env i).
Proof.
  unfold stmt_ok. intros [Hf Hc]%andb_true_iff Hd He. destruct i as [id op children].
  pose proof (expr_facts_sound_tree _ _ _ _ Hc He) as Hplain. cbn [instr_children] in Hf.
  unfold transfer_instr_env.
  destruct (avoids_remove env (visit_operand_takes (mkInstr id op children))) as [Hav Hb].
  set (env1 := fold_left remove_take _ env) in *. clearbody env1.
  apply (env_describes_below _ _ _ Hb) in Hd. clear Hb env.
  assert (calls_conform (mkInstr id op children) = true) as Hc' by done.
  rewrite calls_conform_node in Hc'. apply andb_true_iff in Hc' as [_ Hcc].
  inversion He as [? σ1 ? ? ? ? vs ? Hall Hperf]; subst.
  assert (env_describes σ1 env1) as Hd1.
  { eapply env_describes_frame; [|by eapply avoids_children|exact Hd].
    intros l. by eapply eval_all_frame. }
  destruct (writes_slot op) eqn:Hw.
  - destruct op; try discriminate.
    + inversion Hperf as [| | | |? ? ? ? l w ? Hl|? ? ? ? w ? Hl| | | | | | | | | |? ? ? ? Hp]; subst;
        [..|discriminate]; rewrite Hl; [|by inversion Hall as [|? ? ? ? ? ? ? ? Hall1]; subst; inversion Hall1].
      inversion Hall as [|? ? ? value ? ? ? E1 Hall1]; subst. inversion Hall1; subst.
      cbn in Hf, Hcc. apply andb_true_iff in Hf as [F1 _].
      apply andb_true_iff in Hcc as [C1 _]. apply avoids_children, avoids_cons in Hav as [A1 _].
      pose proof (in_env_sound value env1 _ _ _ F1 C1 A1 Hd E1) as Hval.
      destruct (infer_expr_facts_in_env consts env1 value) as [f| | |]; cbn in Hval |- *; try done.
      eapply env_describes_set; [apply lookup_insert_eq|done|]. by apply env_describes_write.
    + inversion Hperf; subst; try discriminate; unfold remove_name;
        match goal with Hl : local_location _ = _ |- _ => rewrite Hl end;
        [by apply env_describes_delete|done].
    + unfold written_names, remove_name. inversion Hperf; subst; try discriminate.
      * match goal with Hk : replaces_buffer _ = _, Hl : local_location _ = _ |- _ =>
          rewrite Hk; cbn; rewrite Hl end. by apply env_describes_write.
      * match goal with Hk : _ \/ _ |- _ => destruct Hk as [->|Hl]; [done|] end.
        destruct (replaces_buffer kind); cbn; by rewrite ?Hl.
  - assert (env_describes σ' env1) as Hd2.
    { rewrite takes_node, avoids_app in Hav.
      eapply env_describes_frame; [|apply Hav|exact Hd1]. intros l. by eapply perform_frame. }
    destruct op; done.
Qed.

Lemma transfer_body_sound body env σ σ' vs :
  forallb stmt_ok body = true -> env_describes σ env -> eval_all σ body σ' vs ->
  env_describes σ' (fold_left (transfer_instr_env consts) body env).
Proof.
  revert env σ vs. induction body as [|i body IH]; intros env σ vs Hok Hd He;
    inversion He; subst; cbn; [done|]. apply andb_true_iff in Hok as [Hi Hok].
  eapply IH; [done| |done]. by eapply transfer_instr_sound.
Qed.

(** ** Branches *)

Lemma singleton_branch_sound i σ σ' v tf ef :
  calls_conform i = true -> eval σ i σ' v ->
  expr_singleton_branch_facts consts i = Some (tf, ef) ->
  (forall f, tf = Some f -> describes v f) /\
  (forall w f, w <> v -> ef = Some f -> describes w f).
Proof.
  intros Hc He. pose proof (expr_facts_sound_tree _ _ _ _ Hc He) as Hv.
  unfold expr_singleton_branch_facts. destruct (infer_expr_facts consts i) as [f| | |]; try done.
  cbn in Hv. unfold is_none, is_true_singleton, is_false_singleton.
  repeat case_bool_decide; try done; intros [= <- <-]; split; try done; intros; simplify_eq.
  - rewrite (describes_none _ _ Hv) by done. apply describes_none_singleton.
  - apply describes_not_none_object. rewrite (describes_none _ _ Hv) in * by done. done.
  - rewrite (describes_true _ _ Hv) by done. apply (describes_bool_singleton true).
  - rewrite (describes_false _ _ Hv) by done. apply (describes_bool_singleton false).
Qed.

(** What a test that narrows the slot [l] tells of it. *)
Definition narrowing σ v (l : LocalLocation) (tf ef : option PyObjFacts) : Prop :=
  exists b w, v = singleton (singleton_bool b) /\ σ !! l = Some w /\
    forall f, (if b then tf else ef) = Some f -> describes w f.

Lemma load_location_value i l σ σ' v :
  local_load_location i = Some l -> eval σ i σ' v -> σ' = σ /\ σ !! l = Some v.
Proof.
  unfold local_load_location. intros Hl He. inversion He as [? ? ? ? op ? ? ? Hall Hperf]; subst.
  cbn in Hl. destruct op; try done. apply perform_load in Hperf as (-> & -> & Hv).
  inversion Hall; subst. unfold local_location in Hl. destruct (rn_location name); try done.
  cbn in Hl. by simplify_eq.
Qed.

Lemma is_comparison_sound i1 i2 l tf ef σ σ1 σ2 v1 v2 v :
  infer_local_is_singleton_comparison consts i1 i2 = Some (l, tf, ef) ->
  calls_conform i1 = true -> calls_conform i2 = true -> flat i2 = true ->
  OL_Local l ∉ visit_operand_takes i2 ->
  eval σ i1 σ1 v1 -> eval σ1 i2 σ2 v2 -> binop Is v1 v2 v -> narrowing σ2 v l tf ef.
Proof.
  intros Hi C1 C2 F2 Hl E1 E2 Hv. unfold infer_local_is_singleton_comparison in Hi.
  destruct (expr_singleton_branch_facts consts i2) as [[tf' ef']|] eqn:B2.
  - destruct (local_load_location i1) as [l'|] eqn:L1; cbn in Hi; simplify_eq.
    destruct (load_location_value _ _ _ _ _ L1 E1) as [-> Hw].
    destruct (singleton_branch_sound _ _ _ _ _ _ C2 E2 B2) as [Ht Hf].
    rewrite <- (eval_frame _ _ _ _ _ F2 E2 Hl) in Hw.
    destruct (is_identity _ _ _ Hv) as [[-> ->]|[Hne ->]].
    + exists true, v2. eauto.
    + exists false, v1. eauto.
  - destruct (expr_singleton_branch_facts consts i1) as [[tf' ef']|] eqn:B1; [|done].
    destruct (local_load_location i2) as [l'|] eqn:L2; cbn in Hi; simplify_eq.
    destruct (load_location_value _ _ _ _ _ L2 E2) as [-> Hw].
    destruct (singleton_branch_sound _ _ _ _ _ _ C1 E1 B1) as [Ht Hf].
    destruct (is_identity _ _ _ Hv) as [[-> ->]|[Hne ->]].
    + exists true, v2. eauto.
    + exists false, v2. eauto.
Qed.

Lemma branch_fact_sound test l tf ef σ σ' v :
  infer_branch_local_fact consts test = Some (l, tf, ef) -> flat test = true ->
  calls_conform test = true -> OL_Local l ∉ visit_operand_takes test ->
  eval σ test σ' v -> narrowing σ' v l tf ef.
Proof.
  revert l tf ef σ σ' v. induction test as [id op children IH] using InstrBlockPy_tree_ind.
  intros l tf ef σ σ' v Hi Hf Hc Hl He.
  rewrite flat_node in Hf. apply andb_true_iff in Hf as [_ Hf].
  rewrite calls_conform_node in Hc. apply andb_true_iff in Hc as [_ Hc].
  rewrite takes_node, not_elem_of_app in Hl. destruct Hl as [Hl _]. unfold takes in Hl.
  inversion He as [? σ1 ? ? ? ? vs ? Hall Hperf]; subst. destruct op; try done.
  - destruct kind, children as [|i1 [|i2 []]]; try done. cbn in Hf, Hc, Hl.
    apply andb_true_iff in Hf as [_ [F2 _]%andb_true_iff].
    apply andb_true_iff in Hc as [C1 [C2 _]%andb_true_iff].
    rewrite app_nil_r, not_elem_of_app in Hl. destruct Hl as [_ Hl].
    inversion Hall as [|? ? ? ? ? ? ? E1 Hall1]; subst.
    inversion Hall1 as [|? ? ? ? ? ? ? E2 Hall2]; subst. inversion Hall2; subst.
    inversion Hperf; subst; [|discriminate]. by eapply is_comparison_sound.
  - destruct kind, children as [|i1 []]; try done. cbn in Hf, Hc, Hl, Hi.
    apply andb_true_iff in Hf as [F1 _]. apply andb_true_iff in Hc as [C1 _].
    rewrite app_nil_r in Hl. apply Forall_cons in IH as [IH _].
    inversion Hall as [|? ? ? ? ? ? ? E1 Hall1]; subst. inversion Hall1; subst.
    inversion Hperf; subst; [|discriminate].
    destruct (infer_branch_local_fact consts i1) as [[[l0 tf0] ef0]|]; cbn in Hi; [|done]. simplify_eq.
    destruct (IH _ _ _ _ _ _ eq_refl F1 C1 Hl E1) as (b & w & -> & Hw & Hd).
    exists (negb b), w. split; [by apply not_bool|]. split; [done|]. by destruct b.
Qed.

(** ** Blocks and runs *)

Variable param_location : string -> option LocalLocation.

(** The checks on a function the facts of its blocks rely on: expressions write no
    slot, helpers called by name conform, a test takes no slot it narrows, and the
    parameters a jump binds are slots without facts. *)
Definition term_ok (blocks : list (Block InstrBlockPy)) (t : BlockTerm InstrBlockPy) : bool :=
  forallb (fun i => flat i && calls_conform i) (term_instrs t) &&
  match narrowed_location consts t with
  | Some l => negb (bool_decide (OL_Local l ∈ visit_term_operand_takes t))
  | None => true
  end &&
  match t with
  | BT_Jump edge =>
      bool_decide (length (be_args edge) = 0) ||
      forallb (fun l => negb (bool_decide (l ∈ tracked_locations consts blocks)))
        (target_params param_location blocks edge)
  | _ => true
  end.
Definition blocks_ok (blocks : list (Block InstrBlockPy)) : bool :=
  forallb (fun b => forallb stmt_ok (blk_body b) && term_ok blocks (blk_term b)) blocks.

(** The slots after a terminator are described by the environment it sends. *)
Lemma eval_term_describes i env σ σ' v :
  flat i = true -> env_describes σ env -> eval σ i σ' v ->
  env_describes σ' (fold_left remove_take (visit_operand_takes i) env).
Proof.
  intros Hf Hd He. destruct (avoids_remove env (visit_operand_takes i)) as [Hav Hb].
  eapply flat_env_describes; [done..|]. by eapply env_describes_below.
Qed.

Lemma narrow_sound σ v l tf ef env b :
  narrowing σ v l tf ef -> truth_of v <> Some (negb b) -> env_describes σ env ->
  env_describes σ (narrow env l (if b then tf else ef)).
Proof.
  intros (b' & w & -> & Hw & Hd) Ht Henv. rewrite bool_truth in Ht.
  assert (b' = b) as -> by (destruct b', b; done).
  destruct (if b then tf else ef) as [f|] eqn:E; cbn; [|done].
  eapply env_describes_set; eauto. by apply env_describes_delete_env.
Qed.

Lemma if_edge_sound i env σ σ' v (b : bool) :
  flat (ti_test i) && calls_conform (ti_test i) = true ->
  (forall l, narrowed_location consts (BT_If i) = Some l ->
     OL_Local l ∉ visit_operand_takes (ti_test i)) ->
  env_describes σ env -> eval σ (ti_test i) σ' v -> truth_of v <> Some (negb b) ->
  let edges := infer_if_edge_facts consts i
    (fold_left remove_take (visit_operand_takes (ti_test i)) env) in
  env_describes σ' (if b then edges.1 else edges.2).
Proof.
  intros [Hf Hc]%andb_true_iff Hn Hd He Ht. pose proof (eval_term_describes _ _ _ _ _ Hf Hd He) as Hd'.
  unfold infer_if_edge_facts. cbn in Hn.
  destruct (infer_branch_local_fact consts (ti_test i)) as [[[l tf] ef]|] eqn:E; cbn;
    [|by destruct b].
  pose proof (branch_fact_sound _ _ _ _ _ _ _ E Hf Hc (Hn _ eq_refl) He) as Hnar.
  pose proof (narrow_sound _ _ _ _ _ _ b Hnar Ht Hd'). by destruct b.
Qed.

Lemma exec_term_sound blocks b env σ target σ' :
  term_ok blocks (blk_term b) = true -> tracked (tracked_locations consts blocks) env ->
  env_describes σ env -> exec_term param_location blocks σ (blk_term b) target σ' ->
  exists incoming, (target, incoming) ∈ successor_envs consts b
      (fold_left remove_take (visit_term_operand_takes (blk_term b)) env) /\
    env_describes σ' incoming.
Proof.
  unfold term_ok, successor_envs, visit_term_operand_takes.
  intros [[Hi Hn]%andb_true_iff Hj]%andb_true_iff Htr Hd Hex.
  destruct Hex as [σ σ' edge Hframe|σ σ' i v He Ht|σ σ' i v He Ht|σ σ' br v target He Htarget];
    cbn [term_instrs forallb map concat] in Hi |- *; rewrite ?app_nil_r in *.
  - eexists. split; [apply list_elem_of_here|]. cbn. intros l f Hf.
    rewrite Hframe; [by apply Hd|]. apply orb_true_iff in Hj as [Hj|Hj].
    + left. apply bool_decide_eq_true in Hj. by apply nil_length_inv.
    + right. intros Hin. eapply forallb_elem in Hj; [|exact Hin].
      apply negb_true_iff, bool_decide_eq_false in Hj. apply Hj, Htr. by exists f.
  - rewrite andb_true_r in Hi. pose proof (if_edge_sound i env σ σ' v true Hi) as Hif.
    destruct (infer_if_edge_facts _ _ _) as [tf ef]. exists tf. split; [apply list_elem_of_here|].
    apply Hif; try done. intros l Hl. rewrite Hl in Hn.
    apply negb_true_iff, bool_decide_eq_false in Hn. cbn in Hn. by rewrite app_nil_r in Hn.
  - rewrite andb_true_r in Hi. pose proof (if_edge_sound i env σ σ' v false Hi) as Hif.
    destruct (infer_if_edge_facts _ _ _) as [tf ef]. exists ef.
    split; [apply list_elem_of_further, list_elem_of_here|].
    apply Hif; try done. intros l Hl. rewrite Hl in Hn.
    apply negb_true_iff, bool_decide_eq_false in Hn. cbn in Hn. by rewrite app_nil_r in Hn.
  - apply andb_true_iff in Hi as [[Hf _]%andb_true_iff _]. eexists.
    split; [|by eapply eval_term_describes].
    apply elem_of_app. apply elem_of_app in Htarget as [Ht| ->%list_elem_of_singleton];
      [left|right; apply list_elem_of_here]. apply list_elem_of_fmap. by eexists.
Qed.

(** Every block a normal run reaches has facts, and they describe the slots. *)
Lemma run_sound b0 blocks entries start last :
  blocks_ok (b0 :: blocks) = true ->
  infer_block_entry_facts consts (b0 :: blocks) = Some entries ->
  start.1 = blk_label b0 -> rtc (step param_location (b0 :: blocks)) start last ->
  exists env, entries !! last.1 = Some env /\ env_describes last.2 env.
Proof.
  intros Hok Hinf Hstart Hrun. unfold blocks_ok in Hok. rewrite forallb_elem in Hok.
  pose proof (infer_block_entry_facts_tracked _ _ _ Hinf) as Htr.
  apply infer_block_entry_facts_solution in Hinf as [Hsol Hempty].
  assert (exists env, entries !! start.1 = Some env /\ env_describes start.2 env) as Hbase.
  { exists ∅. rewrite Hstart. split; [exact Hempty|]. intros l f Hf. by rewrite lookup_empty in Hf. }
  clear Hstart. revert Hbase. induction Hrun as [|x y z Hstep _ IH]; [done|].
  intros (env & Henv & Hd). apply IH.
  destruct Hstep as [b σ σ1 vs target σ2 Hb Hbody Hterm]. cbn [fst snd] in *.
  specialize (Hok _ Hb).
  apply andb_true_iff in Hok as [Hbok Htok].
  pose proof (transfer_body_sound _ _ _ _ _ Hbok Hd Hbody) as Hd1.
  destruct (covered_blocks consts _ _ Hb) as (Hst & _ & _).
  pose proof (tracked_body consts _ _ _ Hst (Htr _ _ Henv)) as Htr1.
  destruct (exec_term_sound _ _ _ _ _ _ Htok Htr1 Hd1 Hterm) as (inc & Hin & Hinc).
  destruct (Hsol b env (target, inc) Hb Henv Hin) as (existing & Hex & Hmeet). cbn [fst snd] in *.
  exists existing. split; [done|]. eapply env_describes_below; [|exact Hinc].
  rewrite <- Hmeet. apply env_below_intersect_r.
Qed.
End soundness.
