(* ===== verification/FactStoreProps.v ===== *)
(** * The store of value facts: theorems

    What [infer_module_value_facts] stores for a function is what the pass inferred for
    it, so the facts a client looks up describe the objects and slots of the execution. *)

From stdpp Require Import gmap.
From S2P Require Import Prelude Ids Cfg Names Instr InstrProps ValueFacts ValueFactsProps.
From S2P Require Import FactInference FactInferenceProps PySemantics FactSoundness.

Section store.
Variable consts : list ValueFacts.
Implicit Types (f : BlockPyFunction InstrBlockPy) (s : FactStore).

Lemma insert_facts_other fid l s key :
  (forall i x, i ∈ l -> try_semantic_instr_id i = Some x -> key <> mkInstrKey fid x) ->
  expr_facts (fold_left (insert_instr_fact consts fid) l s) !! key = expr_facts s !! key.
Proof.
  revert s. induction l as [|i l IH]; intros s Hkey; [done|]. cbn [fold_left].
  rewrite IH by (intros j x Hj; apply Hkey; by apply list_elem_of_further).
  unfold insert_instr_fact. destruct (try_semantic_instr_id i) as [x|] eqn:E; [|done]. cbn.
  rewrite lookup_insert_ne; [done|]. symmetry. apply (Hkey i x); [apply list_elem_of_here|done].
Qed.

Lemma insert_facts_lookup fid l s i x :
  NoDup (omap try_semantic_instr_id l) -> i ∈ l -> try_semantic_instr_id i = Some x ->
  expr_facts (fold_left (insert_instr_fact consts fid) l s) !! mkInstrKey fid x =
  Some (infer_expr_facts consts i).
Proof.
  revert s. induction l as [|j l IH]; intros s Hnd Hi Hx; [by apply not_elem_of_nil in Hi|].
  cbn [fold_left]. cbn in Hnd. apply elem_of_cons in Hi as [->|Hi].
  - rewrite Hx in Hnd. apply NoDup_cons in Hnd as [Hnew _]. rewrite insert_facts_other.
    + unfold insert_instr_fact. rewrite Hx. cbn. apply lookup_insert_eq.
    + intros k y Hk Hy [= ->]. apply Hnew, list_elem_of_omap. by exists k.
  - apply IH; [|done..]. destruct (try_semantic_instr_id j); [by apply NoDup_cons in Hnd as [_ ?]|done].
Qed.

Definition insert_entries (entries : Entries) fid (blocks : list (Block InstrBlockPy)) s : FactStore :=
  fold_left (fun store block => insert_block_entry_fact store fid (blk_label block)
               (default ∅ (entries !! blk_label block))) blocks s.

Lemma insert_entries_lookup entries fid blocks s :
  expr_facts (insert_entries entries fid blocks s) = expr_facts s /\
  forall key, block_entry_facts (insert_entries entries fid blocks s) !! key =
    if bool_decide (key.1 = fid /\ key.2 ∈ map blk_label blocks)
    then Some (default ∅ (entries !! key.2)) else block_entry_facts s !! key.
Proof.
  unfold insert_entries. revert s. induction blocks as [|b blocks IH]; intros s; cbn [fold_left].
  { split; [done|]. intros key. rewrite bool_decide_false; [done|].
    intros [_ H]. by apply not_elem_of_nil in H. }
  destruct (IH (insert_block_entry_fact s fid (blk_label b) (default ∅ (entries !! blk_label b))))
    as [IH1 IH2]. split; [by rewrite IH1|]. intros [fid' l]. rewrite IH2. cbn [fst snd map].
  case_bool_decide as H1; [rewrite bool_decide_true; [done|set_solver]|]. cbn.
  destruct (decide ((fid, blk_label b) = (fid', l))) as [[= <- <-]|Hne].
  - rewrite lookup_insert_eq, bool_decide_true; [done|]. split; [done|apply list_elem_of_here].
  - rewrite lookup_insert_ne by done. rewrite bool_decide_false; [done|].
    intros [-> [->|H]%elem_of_cons]; [done|]. by apply H1.
Qed.

(** The store of one function only has keys of that function. *)
Lemma function_store_spec f s :
  infer_function_value_facts consts f = Some s ->
  (forall key facts, expr_facts s !! key = Some facts -> ik_function_id key = bf_function_id f) /\
  (forall key env, block_entry_facts s !! key = Some env -> key.1 = bf_function_id f) /\
  (ids_valid (visit_fn f) -> forall i x, i ∈ visit_fn f -> try_semantic_instr_id i = Some x ->
     fact_for s (mkInstrKey (bf_function_id f) x) = Some (infer_expr_facts consts i)) /\
  (forall l env, block_entry_fact s (bf_function_id f) l = Some env ->
     exists entries, infer_block_entry_facts consts (bf_blocks f) = Some entries /\
       env = default ∅ (entries !! l)).
Proof.
  unfold infer_function_value_facts.
  destruct (infer_block_entry_facts consts (bf_blocks f)) as [entries|]; cbn; [|done]. intros [= <-].
  set (base := fold_left (insert_instr_fact consts (bf_function_id f)) (visit_fn f) empty_store).
  assert (block_entry_facts base = ∅) as Hb.
  { subst base. generalize (visit_fn f). intros l. change (∅ : gmap _ _) with (block_entry_facts empty_store).
    generalize empty_store. induction l as [|i l IH]; intros s; [done|]. cbn. rewrite IH.
    unfold insert_instr_fact. by destruct (try_semantic_instr_id i). }
  destruct (insert_entries_lookup entries (bf_function_id f) (bf_blocks f) base) as [H1 H2].
  unfold insert_entries in H1, H2. unfold fact_for, block_entry_fact. split_and!.
  - intros key facts. rewrite H1. intros Hkey.
    destruct (decide (ik_function_id key = bf_function_id f)) as [|Hne]; [done|].
    subst base. rewrite insert_facts_other in Hkey; [by cbn in Hkey; rewrite lookup_empty in Hkey|].
    intros i x _ _ ->. by apply Hne.
  - intros key env. rewrite H2. case_bool_decide as Hk; [by destruct Hk|].
    by rewrite Hb, lookup_empty.
  - intros [_ Hnd] i x Hi Hx. rewrite H1. by apply insert_facts_lookup.
  - intros l env. rewrite H2. case_bool_decide as Hk; [|by rewrite Hb, lookup_empty].
    intros [= <-]. by exists entries.
Qed.

(** In a module, a function finds its own facts. *)
Lemma module_store_spec defs s0 s f :
  infer_functions consts s0 defs = Some s -> NoDup (map bf_function_id defs) -> f ∈ defs ->
  exists fs, infer_function_value_facts consts f = Some fs /\
    (forall x facts, fact_for fs (mkInstrKey (bf_function_id f) x) = Some facts ->
       fact_for s (mkInstrKey (bf_function_id f) x) = Some facts) /\
    (forall l env, block_entry_fact s (bf_function_id f) l = Some env ->
       block_entry_fact s0 (bf_function_id f) l = Some env \/
       block_entry_fact fs (bf_function_id f) l = Some env).
Proof.
  unfold fact_for, block_entry_fact.
  assert (forall defs s0 s fid, infer_functions consts s0 defs = Some s -> fid ∉ map bf_function_id defs ->
    (forall x, expr_facts s !! mkInstrKey fid x = expr_facts s0 !! mkInstrKey fid x) /\
    (forall l, block_entry_facts s !! (fid, l) = block_entry_facts s0 !! (fid, l))) as Hother.
  { clear. induction defs as [|g defs IH]; intros s0 s fid H Hfid; [by injection H as <-|]. cbn in H.
    destruct (infer_function_value_facts consts g) as [gs|] eqn:Eg; [|done]. cbn in H.
    cbn in Hfid. apply not_elem_of_cons in Hfid as [Hne Hfid].
    destruct (function_store_spec _ _ Eg) as (K1 & K2 & _). destruct (IH _ _ _ H Hfid) as [IH1 IH2].
    split; [intros x; rewrite IH1|intros l; rewrite IH2]; cbn; apply lookup_union_r.
    - destruct (expr_facts gs !! _) eqn:E; [|done]. by apply K1 in E.
    - destruct (block_entry_facts gs !! _) eqn:E; [|done]. by apply K2 in E. }
  revert s0. induction defs as [|g defs IH]; intros s0 H Hnd Hf; [by apply not_elem_of_nil in Hf|].
  cbn in H, Hnd. destruct (infer_function_value_facts consts g) as [gs|] eqn:Eg; [|done]. cbn in H.
  apply NoDup_cons in Hnd as [Hg Hnd]. apply elem_of_cons in Hf as [->|Hf].
  - exists gs. split; [done|]. destruct (Hother _ _ _ _ H Hg) as [O1 O2].
    split; [intros x facts Hx; rewrite O1|intros l env; rewrite O2]; cbn.
    + by apply lookup_union_Some_l.
    + rewrite lookup_union_Some_raw. naive_solver.
  - destruct (IH _ H Hnd Hf) as (fs & Hfs & F1 & F2). exists fs. split; [done|]. split; [done|].
    intros l env Hl. destruct (F2 _ _ Hl) as [Hl'|Hl']; [|by right]. left. cbn in Hl'.
    rewrite lookup_union_r in Hl'; [done|]. destruct (function_store_spec _ _ Eg) as (_ & K2 & _).
    destruct (block_entry_facts gs !! _) eqn:E; [|done]. apply K2 in E. cbn in E.
    destruct Hg. rewrite <- E. by apply list_elem_of_fmap_2.
Qed.
End store.

(** ** A small runtime *)

Module Demo.

Inductive Obj : Type := ONone | OBool (b : bool) | OInt (n : Z) | ORuntime (r : RuntimeName) | OOther.

Definition obj_of_name (r : RuntimeName) : Obj :=
  match r with RN_None => ONone | RN_True => OBool true | RN_False => OBool false | _ => ORuntime r end.

#[global] Instance runtime : PyRuntime Obj := {
  exact_type_of v :=
    match v with
    | ONone => Some PT_NoneType | OBool _ => Some PT_Bool | OInt _ => Some PT_Int
    | ORuntime _ | OOther => None
    end;
  truth_of v :=
    match v with
    | ONone => Some false | OBool b => Some b | OInt n => Some (negb (n =? 0)%Z)
    | ORuntime _ => Some true | OOther => None
    end;
  immortal v := v <> OOther;
  singleton s := match s with RS_None => ONone | RS_True => OBool true | RS_False => OBool false end;
  constant i := match Z.to_nat i with O => ONone | S _ => OInt 1 end;
  runtime_value := obj_of_name;
  helper_object h v :=
    exists r, v = obj_of_name r /\ from_runtime_symbol (runtime_name_name r) = Some h;
  binop kind v1 v2 r :=
    match kind with
    | Is => (v1 = v2 /\ r = OBool true) \/ (v1 <> v2 /\ r = OBool false)
    | Add => exists a b, v1 = OInt a /\ v2 = OInt b /\ r = OInt (a + b)
    | _ => False
    end;
  unop kind v r := match kind with Not => exists b, v = OBool b /\ r = OBool (negb b) | _ => False end;
  call f _ _ _ r := f = ORuntime RN_ImportAttr /\ r = ONone
}.

(** The table of constants [None, 1]. *)
Definition table : list ConstantExpr :=
  [Const_RuntimeName RN_None; Const_Literal (Lit_Number (Num_Int "1"))].

(** Every helper conforms but [import_attr], which returned [None]. *)
Definition conforming (h : RuntimeHelperId) : bool := negb (bool_decide (h = H_ImportAttr)).

Lemma from_runtime_symbol_none r h :
  from_runtime_symbol (runtime_name_name r) = Some h -> r <> RN_None /\ r <> RN_True /\ r <> RN_False.
Proof. intros H. split_and!; intros ->; vm_compute in H; discriminate. Qed.

#[global] Instance laws : PyRuntimeLaws table conforming.
Proof.
  split; cbn; try done.
  - by intros [].
  - by intros [].
  - by intros [].
  - by intros [].
  - intros i. by destruct (Z.to_nat i).
  - intros i c. destruct (Z.to_nat i) as [|[|]]; cbn; [by intros [= <-]| |done].
    intros [= <-]. cbn. by repeat split; exists true.
  - intros r h Hr. by exists r.
  - intros h v (r & -> & Hr). apply from_runtime_symbol_none in Hr as (? & ? & ?). by destruct r.
  - intros kind t v1 v2 r H1 H2 Hb. destruct kind; try done; cbn; intros [= <-].
    by destruct Hb as (a & b & -> & -> & ->).
  - intros kind v r H1 Hu. destruct kind; try done. by destruct Hu as (b & -> & ->).
  - intros b r (b' & Hb & ->). by destruct b, b'.
  - intros h f args vs r Hc (r' & -> & Hr) _ [Hcall ->].
    assert (r' = RN_ImportAttr) as -> by (destruct r'; cbn in Hcall; congruence).
    vm_compute in Hr. injection Hr as <-. vm_compute in Hc. discriminate.
Qed.

Definition x : LocalLocation := mkLocalLocation 0.
Definition load_x : InstrBlockPy := mkInstr (Some (mkInstrId 0)) (Op_Load (mkResolvedName "x" (NL_Local x)) None) [].
Definition load_constant (id i : Z) : InstrBlockPy :=
  mkInstr (Some (mkInstrId id)) (Op_Load (mkResolvedName "c" (NL_Constant i)) None) [].
Definition load_global (id : Z) : InstrBlockPy :=
  mkInstr (Some (mkInstrId id)) (Op_Load (mkResolvedName "g" NL_GlobalName) None) [].
Definition store_x (id : Z) (value : InstrBlockPy) : InstrBlockPy :=
  mkInstr (Some (mkInstrId id)) (Op_Store (mkResolvedName "x" (NL_Local x)) SL_Frame SP_Binding) [value].
Definition block (label : Z) body term exc : Block InstrBlockPy :=
  mkBlock (mkBlockLabel label) body term [] (option_map (fun l => edge_new (mkBlockLabel l)) exc)
    block_context_default.
Definition jump (label : Z) : BlockTerm InstrBlockPy := BT_Jump (edge_new (mkBlockLabel label)).

(** [x = g; if x is None: ... else: ...] *)
Definition test : InstrBlockPy :=
  mkInstr (Some (mkInstrId 3)) (Op_BinOp Is) [load_x; load_constant 4 0].
Definition branching : BlockPyFunction InstrBlockPy :=
  mkBlockPyFunction (from_raw_parts 0 1) "f" FK_Function
    [block 0 [store_x 1 (load_global 2)]
       (BT_If (mkTermIf test (mkBlockLabel 1) (mkBlockLabel 2))) None;
     block 1 [] (BT_Return (load_constant 5 1)) None;
     block 2 [] (BT_Return (load_constant 6 1)) None].

(** [x = 1; try: g; except: x = g; return 1] *)
Definition handling : BlockPyFunction InstrBlockPy :=
  mkBlockPyFunction (from_raw_parts 0 2) "h" FK_Function
    [block 0 [store_x 1 (load_constant 2 1); load_global 3] (jump 2) (Some 1%Z);
     block 1 [store_x 4 (load_global 5)] (jump 2) None;
     block 2 [] (BT_Return (load_constant 6 1)) None].
End Demo.

(** ** Theorems *)

(** C1: the facts stored for the entry of a block describe the local slots of every
    execution that reaches the block by normal steps from the entry of the function:
    each slot with facts is bound to an object with the type, truth, identity, lifetime
    and provenance the facts state.  The function must pass [blocks_ok]: expressions
    write no slot, helpers called by name return what their signature says, a test
    takes no slot it narrows, and jumps rebind only slots without facts. *)
Theorem block_facts_sound {Value} `{!PyRuntime Value} defs module_constants conforming
    param_location store f b0 blocks (σ0 σ : gmap LocalLocation Value) l env :
  PyRuntimeLaws module_constants conforming ->
  infer_module_value_facts defs module_constants = Some store ->
  NoDup (map bf_function_id defs) -> f ∈ defs -> bf_blocks f = b0 :: blocks ->
  blocks_ok module_constants conforming param_location (bf_blocks f) = true ->
  rtc (step param_location (bf_blocks f)) (blk_label b0, σ0) (l, σ) ->
  block_entry_fact store (bf_function_id f) l = Some env ->
  env_describes σ env.
Proof.
  intros Hlaws Hinf Hnd Hf Hblocks Hok Hrun Henv. unfold infer_module_value_facts in Hinf.
  destruct (module_store_spec _ _ _ _ _ Hinf Hnd Hf) as (fs & Hfs & _ & Hentry).
  destruct (Hentry _ _ Henv) as [He|He]; [discriminate He|].
  destruct (function_store_spec _ _ _ Hfs) as (_ & _ & _ & Hspec).
  destruct (Hspec _ _ He) as (entries & Hent & ->). rewrite Hblocks in *.
  destruct (run_sound _ _ _ _ _ _ (blk_label b0, σ0) _ Hok Hent eq_refl Hrun)
    as (env & Hlook & Hd).
  cbn in Hlook, Hd. by rewrite Hlook.
Qed.

(** C6: the fact stored for an instruction describes every object the instruction
    evaluates to, in any state of the slots, once the ids of the function passed the id
    validator and the helpers it calls by name return what their signature says. *)
Theorem expr_facts_sound {Value} `{!PyRuntime Value} defs module_constants conforming
    store f i x (σ σ' : gmap LocalLocation Value) v :
  PyRuntimeLaws module_constants conforming ->
  infer_module_value_facts defs module_constants = Some store ->
  NoDup (map bf_function_id defs) -> validate_blockpy_instr_ids defs = Ok tt ->
  f ∈ defs -> i ∈ visit_fn f -> try_semantic_instr_id i = Some x ->
  calls_conform module_constants conforming i = true -> eval σ i σ' v ->
  exists facts, fact_for store (mkInstrKey (bf_function_id f) x) = Some facts /\
    describes_value v facts.
Proof.
  intros Hlaws Hinf Hnd Hval Hf Hi Hx Hc He. unfold infer_module_value_facts in Hinf.
  apply validate_module_ok in Hval. rewrite Forall_forall in Hval. specialize (Hval _ Hf).
  destruct (module_store_spec _ _ _ _ _ Hinf Hnd Hf) as (fs & Hfs & Hexpr & _).
  destruct (function_store_spec _ _ _ Hfs) as (_ & _ & Hspec & _).
  eexists. split; [by apply Hexpr, Hspec|]. by eapply expr_facts_sound_tree.
Qed.

(** A run of [branching] where the global is not [None] reaches the second branch, and the facts
    there say that [x] is bound to an object that is not [None]. *)
Lemma branching_run :
  rtc (step (fun _ => None) (bf_blocks Demo.branching))
    (mkBlockLabel 0, ∅ : gmap LocalLocation Demo.Obj)
    (mkBlockLabel 2, {[Demo.x := Demo.OOther]}).
Proof.
  eapply rtc_once, (Step _ _ (Demo.block 0 _ _ _)).
  - apply list_elem_of_here.
  - eapply E_Cons; [|apply E_Nil].
    eapply E_Node; [eapply E_Cons; [|apply E_Nil]; eapply E_Node; [apply E_Nil|]|];
      [by apply (P_LoadOther _ _ _ Demo.OOther)|by eapply (P_StoreLocal _ _ _ _ Demo.x _ Demo.ONone)].
  - eapply (T_Else _ _ _ _ (mkTermIf Demo.test _ _) (Demo.OBool false)); [|done].
    eapply E_Node; [eapply E_Cons; [|eapply E_Cons; [|apply E_Nil]]|].
    + eapply E_Node; [apply E_Nil|]. by eapply (P_LoadLocal _ _ _ Demo.x Demo.OOther).
    + eapply E_Node; [apply E_Nil|]. by apply (P_LoadConstant _ _ _ 0).
    + apply P_BinOp. right. split; [discriminate|done].
Qed.

Lemma block_facts_sound_witness :
  exists store, infer_module_value_facts [Demo.branching] Demo.table = Some store /\
    block_entry_fact store (from_raw_parts 0 1) (mkBlockLabel 2) = Some {[Demo.x := known_not_none]} /\
    env_describes ({[Demo.x := Demo.OOther]} : gmap LocalLocation Demo.Obj)
      {[Demo.x := known_not_none]}.
Proof.
  eexists. split; [vm_compute; reflexivity|]. split; [vm_compute; reflexivity|].
  eapply (block_facts_sound [Demo.branching] Demo.table Demo.conforming (fun _ => None) _
            Demo.branching _ _ ∅ _ (mkBlockLabel 2)).
  - exact Demo.laws.
  - vm_compute. reflexivity.
  - apply NoDup_singleton.
  - apply list_elem_of_here.
  - reflexivity.
  - vm_compute. reflexivity.
  - exact branching_run.
  - vm_compute. reflexivity.
Defined.

Lemma expr_facts_sound_witness :
  exists store facts, infer_module_value_facts [Demo.branching] Demo.table = Some store /\
    fact_for store (mkInstrKey (from_raw_parts 0 1) (mkInstrId 5)) = Some facts /\
    describes_value (Demo.OInt 1) facts.
Proof.
  exists (default empty_store (infer_module_value_facts [Demo.branching] Demo.table)).
  destruct (expr_facts_sound [Demo.branching] Demo.table Demo.conforming
               (default empty_store (infer_module_value_facts [Demo.branching] Demo.table)) Demo.branching
               (Demo.load_constant 5 1) (mkInstrId 5) ∅ ∅ (Demo.OInt 1)) as (facts & Hf & Hd).
  - exact Demo.laws.
  - vm_compute. reflexivity.
  - apply NoDup_singleton.
  - vm_compute. reflexivity.
  - apply list_elem_of_here.
  - apply (list_elem_of_lookup_2 _ 5). reflexivity.
  - reflexivity.
  - vm_compute. reflexivity.
  - change (Demo.OInt 1) with (constant 1 : Demo.Obj).
    eapply E_Node; [apply E_Nil|]. by apply (P_LoadConstant _ _ _ 1).
  - exists facts. split; [vm_compute; reflexivity|]. split; [exact Hf|exact Hd].
Defined.

(** The normal steps matter: [handling] passes every check, but a run through its
    handler reaches the last block with [x] bound to a mortal object of an unknown
    type, where the facts promise an immortal [int]. *)
Lemma handler_facts_unsound :
  exists store env (σ : gmap LocalLocation Demo.Obj),
    infer_module_value_facts [Demo.handling] Demo.table = Some store /\
    blocks_ok Demo.table Demo.conforming (fun _ => None) (bf_blocks Demo.handling) = true /\
    block_entry_fact store (bf_function_id Demo.handling) (mkBlockLabel 2) = Some env /\
    rtc (fun c c' => step (fun _ => None) (bf_blocks Demo.handling) c c' \/
                     exception_step (bf_blocks Demo.handling) c c')
      (mkBlockLabel 0, ∅) (mkBlockLabel 2, σ) /\
    ~ env_describes σ env.
Proof.
  eexists _, _, {[Demo.x := Demo.OOther]}. split; [vm_compute; reflexivity|].
  split; [vm_compute; reflexivity|]. split; [vm_compute; reflexivity|]. split.
  - eapply (rtc_l _ _ (mkBlockLabel 1, {[Demo.x := Demo.OInt 1]})); [right|eapply rtc_once; left].
    + eapply (ExceptionStep _ (Demo.block 0 _ _ (Some 1%Z)) [_] [_] (edge_new (mkBlockLabel 1)));
        [apply list_elem_of_here|done..|].
      eapply E_Cons; [|apply E_Nil].
      eapply E_Node; [eapply E_Cons; [|apply E_Nil]; eapply E_Node; [apply E_Nil|]|];
        [by apply (P_LoadConstant _ _ _ 1)|by eapply (P_StoreLocal _ _ _ _ Demo.x _ Demo.ONone)].
    + eapply (Step _ _ (Demo.block 1 _ _ None)).
      * apply list_elem_of_further, list_elem_of_here.
      * eapply E_Cons; [|apply E_Nil].
        eapply E_Node; [eapply E_Cons; [|apply E_Nil]; eapply E_Node; [apply E_Nil|]|];
          [by apply (P_LoadOther _ _ _ Demo.OOther)|by eapply (P_StoreLocal _ _ _ _ Demo.x _ Demo.ONone)].
      * apply (T_Jump _ _ _ _ (edge_new (mkBlockLabel 2))). by intros.
  - intros Hd. destruct (Hd Demo.x _ eq_refl) as (v & Hv & Hdesc). vm_compute in Hv. simplify_eq.
    by pose proof (describes_type _ _ Hdesc _ eq_refl).
Qed.

(** The result of [import_attr] may be [None], which its signature excludes. *)
Lemma import_attr_facts_unsound :
  exists (σ : gmap LocalLocation Demo.Obj) v, eval σ (mkInstr None (Op_Call [] [] None)
      [mkInstr None (Op_Load (mkResolvedName "import_attr" (NL_RuntimeName RN_ImportAttr)) None) []]) σ v /\
    ~ describes_value v (infer_expr_facts [] (mkInstr None (Op_Call [] [] None)
      [mkInstr None (Op_Load (mkResolvedName "import_attr" (NL_RuntimeName RN_ImportAttr)) None) []])).
Proof.
  exists (∅ : gmap LocalLocation Demo.Obj), Demo.ONone. split.
  - eapply E_Node; [eapply E_Cons; [eapply E_Node; [apply E_Nil|]|apply E_Nil]|].
    + by apply (P_LoadRuntime _ _ _ RN_ImportAttr).
    + by apply P_Call.
  - intros Hd. by apply (describes_not_none _ _ Hd eq_refl).
Qed.
