(* ===== verification/Layout.v ===== *)
(** * Storage layouts and compiler operands

    crates/soac_core/src/block_py/scope.rs (storage layouts, the generator resume ABI
    and the roles of control slots), the physical rows of class_bindings.rs, and the
    operand checks of instr.rs and call_arguments.rs.  Error values are the messages of
    the source; a failed assertion is [None]. *)

From stdpp Require Import gmap.
From S2P Require Import Prelude Ids Cfg Names Instr.

Local Open Scope Z_scope.

(** ** Slots *)

Inductive GeneratorControlRole : Type := GC_ProgramCounter | GC_IsClosed | GC_Delegate.
Inductive ClosureInit : Type :=
| CI_InheritedCapture | CI_Parameter | CI_EmptyCell | CI_RuntimePcUnstarted
| CI_RuntimeAbruptKindFallthrough | CI_RuntimeZero | CI_RuntimeNone | CI_Deferred.
Inductive PreservedSlotStorage : Type := PS_PyObjectOrNull | PS_PyCellObject | PS_I64.
Record ClosureSlot : Type := mkClosureSlot {
  cs_logical_name : string; cs_storage_name : string; cs_init : ClosureInit }.
Record PreservedSlot : Type := mkPreservedSlot {
  ps_generator_control : option GeneratorControlRole;
  ps_logical_name : string;
  ps_storage_name : string;
  ps_init : ClosureInit;
  ps_storage : PreservedSlotStorage
}.
Record GeneratorResumeParamBinding : Type := mkResumeBinding {
  grb_role : GeneratorResumeParamRole; grb_name : string }.
Record GeneratorResumeAbi : Type := mkResumeAbi { abi_params : list GeneratorResumeParamBinding }.
Record ResolvedBlockParameterRole : Type := mkResolvedRole {
  rr_location : NameLocation; rr_role : BlockParamRole }.

Record NativeCodeId : Type := mkNativeCodeId { native_code : Z }.
Record ClassBindingSlotId : Type := mkClassSlotId { csi_class_code : NativeCodeId; csi_index : Z }.
Inductive ClassBindingStorage : Type := CBS_Cell (location : CellLocation).
Record ClassBindingSlotProjection : Type := mkSlotProjection {
  csp_slot : ClassBindingSlotId; csp_storage : ClassBindingStorage }.
Record ClassBindingProjection : Type := mkClassProjection {
  cbp_class_code : NativeCodeId;
  cbp_namespace : LocalLocation;
  cbp_slots : list ClassBindingSlotProjection
}.

Record StorageLayout : Type := mkStorageLayout {
  sl_class_bindings : option ClassBindingProjection;
  sl_block_parameter_roles : list ResolvedBlockParameterRole;
  sl_generator_resume_abi : option GeneratorResumeAbi;
  sl_freevars : list ClosureSlot;
  sl_cellvars : list ClosureSlot;
  sl_preserved_slots : list PreservedSlot;
  sl_stack_slots : list string;
  sl_expression_temporaries : list OperandLocation
}.

#[global] Instance GeneratorControlRole_eq_dec : EqDecision GeneratorControlRole.
Proof. solve_decision. Defined.
#[global] Instance ClosureInit_eq_dec : EqDecision ClosureInit.
Proof. solve_decision. Defined.
#[global] Instance PreservedSlotStorage_eq_dec : EqDecision PreservedSlotStorage.
Proof. solve_decision. Defined.
#[global] Instance ResolvedBlockParameterRole_eq_dec : EqDecision ResolvedBlockParameterRole.
Proof. solve_decision. Defined.
#[global] Instance NativeCodeId_eq_dec : EqDecision NativeCodeId.
Proof. solve_decision. Defined.
#[global] Instance ClassBindingSlotId_eq_dec : EqDecision ClassBindingSlotId.
Proof. solve_decision. Defined.

Definition control_roles : list GeneratorControlRole := [GC_ProgramCounter; GC_IsClosed; GC_Delegate].
Definition initial_value (r : GeneratorControlRole) : ClosureInit :=
  match r with
  | GC_ProgramCounter => CI_RuntimePcUnstarted
  | GC_IsClosed => CI_RuntimeZero
  | GC_Delegate => CI_RuntimeNone
  end.
Definition control_storage (r : GeneratorControlRole) : PreservedSlotStorage :=
  match r with GC_ProgramCounter | GC_IsClosed => PS_I64 | GC_Delegate => PS_PyObjectOrNull end.

Definition for_kind (kind : FunctionKind) : list GeneratorResumeParamRole :=
  match kind with
  | FK_Function => []
  | FK_Generator | FK_Coroutine => [GR_SelfValue; GR_StateValue; GR_SendValue; GR_ResumeExc]
  | FK_AsyncGenerator =>
      [GR_SelfValue; GR_StateValue; GR_SendValue; GR_ResumeExc; GR_TransportSent]
  end.
Definition is_preserved_owner (r : GeneratorResumeParamRole) : bool :=
  match r with GR_SelfValue | GR_StateValue => true | _ => false end.

(** ** Parameters (param_specs.rs) *)

Inductive ParamKind : Type := PK_Any | PK_PosOnly | PK_VarArg | PK_KwOnly | PK_KwArg.
Record Param : Type := mkParam { p_name : string; p_kind : ParamKind; p_has_default : bool }.
Inductive ParamDefaultSource : Type := DS_Positional (index : nat) | DS_KeywordOnly (name : string).
#[global] Instance ParamKind_eq_dec : EqDecision ParamKind.
Proof. solve_decision. Defined.

(** The closure's counter [next_positional_default] is the argument. *)
Fixpoint iter_with_default_sources (next : nat) (params : list Param) :
    list (Param * option ParamDefaultSource) :=
  match params with
  | [] => []
  | param :: params =>
      if p_has_default param then
        match p_kind param with
        | PK_PosOnly | PK_Any =>
            (param, Some (DS_Positional next)) :: iter_with_default_sources (S next) params
        | PK_KwOnly =>
            (param, Some (DS_KeywordOnly (p_name param))) :: iter_with_default_sources next params
        | PK_VarArg | PK_KwArg => (param, None) :: iter_with_default_sources next params
        end
      else (param, None) :: iter_with_default_sources next params
  end.
Definition default_count (params : list Param) : nat := length (List.filter p_has_default params).
Definition positional_param_indices (params : list Param) : list nat :=
  map fst (List.filter (fun entry : nat * Param =>
      match p_kind entry.2 with PK_PosOnly | PK_Any => true | _ => false end)
    (zip (seq 0 (length params)) params)).

(** ** Unique matches *)

(** [let x = matches.next()?; matches.next().is_none().then_some(x)]. *)
Definition unique_match {A} (matches : list A) : option A :=
  match matches with [x] => Some x | _ => None end.
(** [iter().enumerate().filter(..)]. *)
Definition matching_indices {A} (p : A -> bool) (l : list A) : list nat :=
  map fst (List.filter (fun entry : nat * A => p entry.2) (zip (seq 0 (length l)) l)).
(** [u32::try_from(index).ok()]. *)
Definition index_u32 (index : nat) : option Z :=
  if Z.of_nat index <? 2 ^ 32 then Some (Z.of_nat index) else None.
Definition unique_index {A} (p : A -> bool) (l : list A) : option Z :=
  index ← unique_match (matching_indices p l); index_u32 index.

(** ** The resume ABI *)

Definition abi_parameter (abi : GeneratorResumeAbi) (role : GeneratorResumeParamRole) : option string :=
  grb_name <$> unique_match (List.filter (fun p => bool_decide (grb_role p = role)) (abi_params abi)).
Definition role_for_name (abi : GeneratorResumeAbi) (name : string) : option GeneratorResumeParamRole :=
  grb_role <$> unique_match (List.filter (fun p => bool_decide (grb_name p = name)) (abi_params abi)).

Fixpoint validate_abi_params (names : list string) (params : list GeneratorResumeParamBinding)
    (body : list Param) (roles : list GeneratorResumeParamRole) : result string unit :=
  match params, body, roles with
  | binding :: params, parameter :: body, expected_role :: roles =>
      do? ensure (negb (negb (bool_decide (grb_role binding = expected_role))
                        || negb (bool_decide (grb_name binding = p_name parameter))
                        || negb (bool_decide (p_kind parameter = PK_PosOnly))
                        || p_has_default parameter
                        || bool_decide (grb_name binding ∈ names)))
        "generator resume ABI has duplicate, redirected, or reordered parameters";
      validate_abi_params (grb_name binding :: names) params body roles
  | _, _, _ => Ok tt
  end.
Definition validate_abi (abi : GeneratorResumeAbi) (kind : FunctionKind) (body_params : list Param) :
    result string unit :=
  let roles := for_kind kind in
  do? ensure (negb (bool_decide (length roles = 0%nat)
                    || negb (bool_decide (length (abi_params abi) = length roles))
                    || negb (bool_decide (length body_params = length roles))))
    "generator resume ABI disagrees with executable function kind/arity";
  validate_abi_params [] (abi_params abi) body_params roles.

(** ** Layout queries *)

Definition generator_control_slot (l : StorageLayout) (role : GeneratorControlRole) :
    option PreservedLocation :=
  mkPreservedLocation <$>
    unique_index (fun slot => bool_decide (ps_generator_control slot = Some role)) (sl_preserved_slots l).
Definition generator_resume_parameter (l : StorageLayout) (role : GeneratorResumeParamRole) :
    option string :=
  abi ← sl_generator_resume_abi l; abi_parameter abi role.
Definition stack_slot_named (l : StorageLayout) (name : string) : option LocalLocation :=
  mkLocalLocation <$> unique_index (fun slot => bool_decide (slot = name)) (sl_stack_slots l).
Definition generator_resume_local (l : StorageLayout) (role : GeneratorResumeParamRole) :
    option LocalLocation :=
  name ← generator_resume_parameter l role; stack_slot_named l name.
Definition block_parameter_roles_at (l : StorageLayout) (location : NameLocation) :
    list BlockParamRole :=
  map rr_role (List.filter (fun b => bool_decide (rr_location b = location))
                 (sl_block_parameter_roles l)).
Definition freevar_slot (l : StorageLayout) (slot : Z) : option ClosureSlot :=
  sl_freevars l !! Z.to_nat slot.
Definition owned_slot (l : StorageLayout) (slot : Z) : option ClosureSlot :=
  sl_cellvars l !! Z.to_nat slot.
Definition preserved_slot (l : StorageLayout) (slot : Z) : option PreservedSlot :=
  sl_preserved_slots l !! Z.to_nat slot.
Definition has_storage_name (l : StorageLayout) (name : string) : bool :=
  existsb (fun slot => bool_decide (cs_storage_name slot = name)) (sl_freevars l)
  || existsb (fun slot => bool_decide (cs_storage_name slot = name)) (sl_cellvars l)
  || existsb (fun slot => bool_decide (ps_storage_name slot = name)) (sl_preserved_slots l).
Definition is_expression_temporary (l : StorageLayout) (location : OperandLocation) : bool :=
  bool_decide (location ∈ sl_expression_temporaries l).

(** [ClassBindingStorage::raw_local]: the one stack slot that carries an owned cell. *)
Definition raw_local (storage : ClassBindingStorage) (l : StorageLayout) : option LocalLocation :=
  match storage with
  | CBS_Cell (CL_Owned index) =>
      cell ← owned_slot l index; stack_slot_named l (cs_storage_name cell)
  | CBS_Cell _ => None
  end.

(** [(bool, u32)] in the order of the derived [Ord]: temporaries first, newest first. *)
Definition local_cleanup_order_key (l : StorageLayout) (location : LocalLocation) : bool * Z :=
  match list_find (fun slot => slot = OL_Local location) (sl_expression_temporaries l) with
  | Some (rank, _) => (false, u32_max - Z.of_nat rank)
  | None => (true, local_slot location)
  end.

(** ** Layout updates *)

Definition with_roles (l : StorageLayout) roles : StorageLayout :=
  mkStorageLayout (sl_class_bindings l) roles (sl_generator_resume_abi l) (sl_freevars l)
    (sl_cellvars l) (sl_preserved_slots l) (sl_stack_slots l) (sl_expression_temporaries l).
Definition with_temporaries (l : StorageLayout) temporaries : StorageLayout :=
  mkStorageLayout (sl_class_bindings l) (sl_block_parameter_roles l) (sl_generator_resume_abi l)
    (sl_freevars l) (sl_cellvars l) (sl_preserved_slots l) (sl_stack_slots l) temporaries.

Definition record_block_parameter_role (l : StorageLayout) (location : NameLocation)
    (role : BlockParamRole) : StorageLayout :=
  let binding := mkResolvedRole location role in
  if bool_decide (binding ∈ sl_block_parameter_roles l) then l
  else with_roles l (sl_block_parameter_roles l ++ [binding]).
Definition is_preserved_operand (o : OperandLocation) : bool :=
  match o with OL_Preserved _ => true | OL_Local _ => false end.
Definition set_stack_slots (l : StorageLayout) (stack_slots : list string) : StorageLayout :=
  mkStorageLayout None [] (sl_generator_resume_abi l) (sl_freevars l) (sl_cellvars l)
    (sl_preserved_slots l) stack_slots
    (List.filter is_preserved_operand (sl_expression_temporaries l)).
Definition ensure_stack_slot (l : StorageLayout) (name : string) : StorageLayout :=
  if existsb (fun existing => bool_decide (existing = name)) (sl_stack_slots l) then l
  else mkStorageLayout (sl_class_bindings l) (sl_block_parameter_roles l)
         (sl_generator_resume_abi l) (sl_freevars l) (sl_cellvars l) (sl_preserved_slots l)
         (sl_stack_slots l ++ [name]) (sl_expression_temporaries l).
Definition operand_allocated (l : StorageLayout) (location : OperandLocation) : bool :=
  match location with
  | OL_Local location => local_slot location <? Z.of_nat (length (sl_stack_slots l))
  | OL_Preserved location =>
      preserved_location_slot location <? Z.of_nat (length (sl_preserved_slots l))
  end.
Definition mark_expression_temporary (l : StorageLayout) (location : OperandLocation) :
    option StorageLayout :=
  if operand_allocated l location then
    Some (if is_expression_temporary l location then l
          else with_temporaries l (sl_expression_temporaries l ++ [location]))
  else None.

(** ** Role validation *)

(** The first loop of [validate_generator_roles]; the result is [controls]. *)
Fixpoint validate_controls (controls : list GeneratorControlRole) (slots : list PreservedSlot) :
    result string (list GeneratorControlRole) :=
  match slots with
  | [] => Ok controls
  | slot :: slots =>
      match ps_generator_control slot with
      | None => validate_controls controls slots
      | Some role =>
          do? ensure (negb (bool_decide (role ∈ controls)))
            "duplicate generator preserved-control role";
          do? ensure (negb (negb (bool_decide (ps_storage slot = control_storage role))
                            || negb (bool_decide (ps_init slot = initial_value role))))
            "generator preserved-control role has an incompatible representation/init";
          validate_controls (role :: controls) slots
      end
  end.
Fixpoint validate_resume_bindings (l : StorageLayout) (roles : list GeneratorResumeParamRole)
    (names : list string) (params : list GeneratorResumeParamBinding) : result string unit :=
  match params with
  | [] => Ok tt
  | binding :: params =>
      do? ensure (negb (bool_decide (grb_role binding ∈ roles)
                        || bool_decide (grb_name binding ∈ names)))
        "duplicate generator resume parameter role/name";
      do? ensure (negb (existsb (fun slot =>
                    bool_decide (ps_logical_name slot = grb_name binding)
                    || bool_decide (ps_storage_name slot = grb_name binding)) (sl_preserved_slots l)))
        "generator resume ABI aliases preserved state";
      do? ensure (is_some (generator_resume_local l (grb_role binding)))
        "generator resume parameter has no unique local storage";
      validate_resume_bindings l (grb_role binding :: roles) (grb_name binding :: names) params
  end.
Definition validate_generator_roles (l : StorageLayout) : result string unit :=
  let? controls := validate_controls [] (sl_preserved_slots l) in
  do? ensure (negb ((negb (bool_decide (length controls = 0%nat))
                     || is_some (sl_generator_resume_abi l))
                    && negb (bool_decide (length controls = length control_roles))))
    "generator layout does not define all preserved-control roles";
  if_some (fun abi => validate_resume_bindings l [] [] (abi_params abi)) (sl_generator_resume_abi l).

(** [compatible]. *)
Definition compatible (left right : BlockParamRole) : bool :=
  bool_decide (left = right) ||
  match left, right with
  | BPR_Exception, BPR_EnclosingException | BPR_EnclosingException, BPR_Exception
  | BPR_AbruptPayload, BPR_EnclosingAbruptPayload | BPR_EnclosingAbruptPayload, BPR_AbruptPayload =>
      true
  | _, _ => false
  end.

Definition validate_declaration (l : StorageLayout) (parameter : BlockParam) : result string unit :=
  if bool_decide (bp_role parameter = BPR_Value) then Ok tt
  else
    match matching_indices (fun name => bool_decide (name = bp_name parameter)) (sl_stack_slots l) with
    | [] => Err "control parameter has no resolved local"
    | [slot] =>
        let? slot := ok_or "local index overflow" (index_u32 slot) in
        ensure (existsb (fun role => compatible role (bp_role parameter))
                  (block_parameter_roles_at l (NL_Local (mkLocalLocation slot))))
          "control parameter lost its resolved physical role"
    | _ => Err "control parameter has ambiguous resolved local storage"
    end.
Definition validate_block_parameter_declarations (l : StorageLayout) (parameters : list BlockParam) :
    result string unit := for_each (validate_declaration l) parameters.

Definition valid_representation (role : BlockParamRole) (slot : PreservedSlot) : bool :=
  match role with
  | BPR_AbruptKind =>
      bool_decide (ps_storage slot = PS_I64)
      && bool_decide (ps_init slot = CI_RuntimeAbruptKindFallthrough)
  | BPR_Exception | BPR_EnclosingException | BPR_AbruptPayload | BPR_EnclosingAbruptPayload =>
      bool_decide (ps_storage slot = PS_PyObjectOrNull)
  | BPR_Value | BPR_GeneratorResume _ => false
  end.
Definition validate_role_location (l : StorageLayout) (binding : ResolvedBlockParameterRole) :
    result string unit :=
  match rr_location binding with
  | NL_Local location =>
      ensure (local_slot location <? Z.of_nat (length (sl_stack_slots l)))
        "block-parameter role requires an allocated local or preserved slot"
  | NL_Preserved location =>
      let? slot := ok_or "block-parameter role has an absent preserved slot"
                     (preserved_slot l (preserved_location_slot location)) in
      ensure (negb (negb (valid_representation (rr_role binding) slot)
                    || is_some (ps_generator_control slot)))
        "block-parameter role has an incompatible preserved representation"
  | _ => Err "block-parameter role requires an allocated local or preserved slot"
  end.
Definition aliases_class_owner (l : StorageLayout) (class : ClassBindingProjection)
    (location : NameLocation) : bool :=
  bool_decide (location = NL_Local (cbp_namespace class))
  || existsb (fun slot => is_some_and (fun local => bool_decide (location = NL_Local local))
                            (raw_local (csp_storage slot) l)) (cbp_slots class).
Definition aliases_lexical_cell (l : StorageLayout) (location : NameLocation) : bool :=
  match location with
  | NL_Local location =>
      match sl_stack_slots l !! Z.to_nat (local_slot location) with
      | Some storage =>
          existsb (fun cell => bool_decide (cs_storage_name cell = storage))
            (sl_cellvars l ++ sl_freevars l)
      | None => false
      end
  | _ => false
  end.
Definition validate_role (l : StorageLayout) (seen : list ResolvedBlockParameterRole)
    (binding : ResolvedBlockParameterRole) : result string unit :=
  do? ensure (negb (bool_decide (rr_role binding = BPR_Value) || bool_decide (binding ∈ seen)))
    "duplicate or non-control resolved block-parameter role";
  do? validate_role_location l binding;
  do? ensure (negb (existsb (fun other =>
                bool_decide (rr_location other = rr_location binding)
                && negb (compatible (rr_role binding) (rr_role other))) (sl_block_parameter_roles l)))
    "incompatible control roles share a physical slot";
  do? ensure (negb (is_some_and (fun class => aliases_class_owner l class (rr_location binding))
                      (sl_class_bindings l)))
    "block-parameter transport aliases a native class owner";
  ensure (negb (aliases_lexical_cell l (rr_location binding)))
    "block-parameter transport aliases a lexical cell owner".
Fixpoint validate_roles (l : StorageLayout) (seen bindings : list ResolvedBlockParameterRole) :
    result string unit :=
  match bindings with
  | [] => Ok tt
  | binding :: bindings =>
      do? validate_role l seen binding; validate_roles l (binding :: seen) bindings
  end.
Definition validate_block_parameter_roles (l : StorageLayout) : result string unit :=
  validate_roles l [] (sl_block_parameter_roles l).

(** ** Operands (instr.rs, call_arguments.rs) *)

Definition class_slot_check (l : StorageLayout) (location : LocalLocation)
    (slot : ClassBindingSlotProjection) : result string unit :=
  let? owner := ok_or "compiler operand encountered an unresolved class slot"
                  (raw_local (csp_storage slot) l) in
  ensure (negb (bool_decide (owner = location))) "compiler operand cannot consume a class lexical cell".
Definition class_check (l : StorageLayout) (location : LocalLocation) (class : ClassBindingProjection) :
    result string unit :=
  do? ensure (negb (bool_decide (cbp_namespace class = location)))
    "compiler operand cannot consume class namespace";
  for_each (class_slot_check l location) (cbp_slots class).
Definition owned_cell_check (l : StorageLayout) (location : LocalLocation) (index : nat) :
    result string unit :=
  let? index := ok_or "too many owned cells" (index_u32 index) in
  let? owner := ok_or "compiler operand encountered an unresolved owned cell"
                  (raw_local (CBS_Cell (CL_Owned index)) l) in
  ensure (negb (bool_decide (owner = location))) "compiler operand cannot consume an owned lexical cell".
Definition is_control_slot (l : StorageLayout) (location : LocalLocation) : bool :=
  existsb (fun role => bool_decide (rr_location role = NL_Local location)) (sl_block_parameter_roles l)
  || is_some_and (fun abi =>
       existsb (fun parameter =>
         bool_decide (generator_resume_local l (grb_role parameter) = Some location)) (abi_params abi))
     (sl_generator_resume_abi l).

Definition validated_compiler_operand_location (name : ResolvedName) (l : StorageLayout) :
    result string OperandLocation :=
  match rn_location name with
  | NL_Preserved location =>
      let? slot := ok_or "compiler operand has no preserved payload slot"
                     (preserved_slot l (preserved_location_slot location)) in
      do? ensure (negb (negb (is_expression_temporary l (OL_Preserved location))
                        || negb (bool_decide (ps_storage slot = PS_PyObjectOrNull))
                        || negb (bool_decide (ps_init slot = CI_Deferred))
                        || is_some (ps_generator_control slot)
                        || negb (is_some (sl_generator_resume_abi l))
                        || existsb (fun role => bool_decide (rr_location role = rn_location name))
                             (sl_block_parameter_roles l)))
        "compiler operand requires an explicit suspended object Operand, not cell, source, control or ABI storage";
      Ok (OL_Preserved location)
  | NL_Local location =>
      do? ensure (negb (negb (is_some (sl_stack_slots l !! Z.to_nat (local_slot location)))
                        || negb (is_expression_temporary l (OL_Local location))))
        "compiler operand requires an allocated expression operand";
      do? if_some (class_check l location) (sl_class_bindings l);
      do? for_each (owned_cell_check l location) (seq 0 (length (sl_cellvars l)));
      do? ensure (negb (is_control_slot l location))
        "compiler operand cannot consume an executable control or ABI slot";
      Ok (OL_Local location)
  | _ => Err "compiler operand requires exact local or preserved owning storage"
  end.

Definition takes_location (location : NameLocation) (i : InstrBlockPy) : bool :=
  is_some_and (fun name => bool_decide (rn_location name = location)) (as_take_operand i).

(** [ComprehensionInsert::validate_resolved] on the key and the value. *)
Definition validate_comprehension_insert (kind : ComprehensionInsertKind) (container : ResolvedName)
    (key : option InstrBlockPy) (value : InstrBlockPy) (l : StorageLayout) :
    result string OperandLocation :=
  do? ensure (Bool.eqb (bool_decide (kind = DictSetItem)) (is_some key))
    "comprehension insertion requires a key exactly for dict insertion";
  let? owner := validated_compiler_operand_location container l in
  do? ensure (negb (instr_any (takes_location (name_location owner)) value
                    || is_some_and (instr_any (takes_location (name_location owner))) key))
    "comprehension insertion cannot consume its borrowed container";
  Ok owner.

(** [CallArgumentOp::validate_resolved]. *)
Definition validate_call_argument_op (kind : CallArgumentOpKind) (callable buffer : ResolvedName)
    (value : option InstrBlockPy) (l : StorageLayout) : result string (OperandLocation * OperandLocation) :=
  do? ensure (Bool.eqb (has_value kind) (is_some value))
    "call-argument phase has an invalid update shape";
  let? callable := validated_compiler_operand_location callable l in
  let? buffer := validated_compiler_operand_location buffer l in
  do? ensure (negb (bool_decide (name_location callable = name_location buffer)))
    "call-argument phase aliases its callable and buffer owners";
  do? ensure (negb (is_some_and (instr_any (fun i =>
                takes_location (name_location callable) i || takes_location (name_location buffer) i))
              value))
    "call-argument update consumes a borrowed phase owner";
  Ok (callable, buffer).

(** The inputs of [PreparedCall::validate_resolved]: [owners] are those already moved. *)
Fixpoint validate_moves (l : StorageLayout) (owners : list NameLocation) (inputs : list InstrBlockPy) :
    result string (list NameLocation) :=
  match inputs with
  | [] => Ok owners
  | input :: inputs =>
      let? take := ok_or "prepared call requires an exact Operand move for each input"
                     (as_take_operand input) in
      let? owner := validated_compiler_operand_location take l in
      do? ensure (negb (bool_decide (name_location owner ∈ owners)))
        "prepared call consumes one physical Operand more than once";
      validate_moves l (owners ++ [name_location owner]) inputs
  end.
Definition validate_prepared_call (func arguments : InstrBlockPy) (keywords namespace : option InstrBlockPy)
    (l : StorageLayout) : result string unit :=
  do? validate_moves l [] (func :: arguments :: option_list keywords);
  ensure (negb (is_some_and (instr_any (fun i => is_some (as_take_operand i))) namespace))
    "prepared call namespace cannot consume an Operand".

(** [call_has_owned_operand_inputs]; an argument is its shape and its instruction. *)
Section owned_inputs.
Variable is_fresh_call_result : InstrBlockPy -> bool.

Fixpoint owned_arguments (l : StorageLayout) (moved : list OperandLocation)
    (args : list (CallArgPositional * InstrBlockPy)) : result string bool :=
  match args with
  | [] => Ok true
  | (CA_Starred, _) :: _ => Ok false
  | (CA_Positional, arg) :: args =>
      match as_take_operand arg with
      | Some take =>
          let? owner := validated_compiler_operand_location take l in
          do? ensure (negb (bool_decide (owner ∈ moved)))
            "outgoing call consumes one physical Operand more than once";
          owned_arguments l (moved ++ [owner]) args
      | None => if is_fresh_call_result arg then owned_arguments l moved args else Ok false
      end
  end.
Definition call_has_owned_operand_inputs (callable : InstrBlockPy)
    (args : list (CallArgPositional * InstrBlockPy)) (has_keywords has_namespace : bool)
    (l : StorageLayout) : result string bool :=
  if has_keywords || has_namespace then Ok false
  else
    match as_take_operand callable with
    | None => Ok false
    | Some take =>
        let? owner := validated_compiler_operand_location take l in
        owned_arguments l [owner] args
    end.
End owned_inputs.

(** ** Temporaries of the code generator (crates/soac_opt/src/passes/mod.rs) *)

Record CodegenTempLocal : Type := mkCodegenTempLocal {
  ctl_name : string; ctl_location : LocalLocation }.
Definition ctl_resolved_name (t : CodegenTempLocal) : ResolvedName :=
  mkResolvedName (ctl_name t) (NL_Local (ctl_location t)).

Inductive CodegenTempAllocationError : Type := MissingStorageLayout.

(** The name is drawn before the layout is looked at.  The outer [None] is a panic: a
    dangling generator or a slot index outside [u32]. *)
Definition try_allocate_codegen_stack_temp (s : Store) (name_gen : FunctionNameGen)
    (storage_layout : option StorageLayout) (prefix : string) :
    option (Store * option StorageLayout * result CodegenTempAllocationError CodegenTempLocal) :=
  '(s, name) ← next_tmp_name s name_gen prefix;
  match storage_layout with
  | None => Some (s, None, Err MissingStorageLayout)
  | Some layout =>
      slot ← index_u32 (length (sl_stack_slots layout));
      Some (s, Some (ensure_stack_slot layout name),
            Ok (mkCodegenTempLocal name (mkLocalLocation slot)))
  end.
