(* ===== verification/LayoutProps.v ===== *)
(** * Storage layouts and compiler operands: theorems *)

From stdpp Require Import gmap.
From S2P Require Import Prelude Ids Cfg Names Instr Layout.

Local Open Scope Z_scope.

(** ** Unique matches *)

Lemma matching_indices_app {A} (p : A -> bool) l x :
  matching_indices p (l ++ [x]) = matching_indices p l ++ (if p x then [length l] else []).
Proof.
  unfold matching_indices. rewrite length_app. cbn [length].
  rewrite seq_app, zip_with_app by (by rewrite length_seq). cbn.
  rewrite List.filter_app, map_app. cbn. by destruct (p x).
Qed.

Lemma elem_of_matching_indices {A} (p : A -> bool) l i :
  i ∈ matching_indices p l <-> exists x, l !! i = Some x /\ p x = true.
Proof.
  induction l as [|y l IH] using rev_ind; [cbn; split; [by intros ?%not_elem_of_nil|naive_solver]|].
  rewrite matching_indices_app, elem_of_app, IH. split.
  - intros [(x & Hx & Hp)|Hi].
    + exists x. split; [|done]. rewrite lookup_app_l; [done|]. by eapply lookup_lt_Some.
    + destruct (p y) eqn:E; [|by apply not_elem_of_nil in Hi].
      apply list_elem_of_singleton in Hi as ->. exists y. by rewrite lookup_app_r, Nat.sub_diag.
  - intros (x & [Hx|[Hlen Hx]]%lookup_app_Some & Hp); [left; by exists x|right].
    apply list_lookup_singleton_Some in Hx as [Hi ->]. rewrite Hp.
    apply list_elem_of_singleton. lia.
Qed.

Lemma unique_match_elem {A} (l : list A) x : unique_match l = Some x -> x ∈ l.
Proof. destruct l as [|y []]; cbn; try done. intros [= ->]. apply list_elem_of_here. Qed.

Lemma unique_index_some {A} (p : A -> bool) l i :
  unique_index p l = Some i -> 0 <= i /\ exists x, l !! Z.to_nat i = Some x /\ p x = true.
Proof.
  unfold unique_index, index_u32. destruct (unique_match (matching_indices p l)) as [n|] eqn:E; cbn; [|done].
  destruct (_ <? _); [|done]. intros [= <-]. split; [lia|]. rewrite Nat2Z.id.
  by apply elem_of_matching_indices, unique_match_elem.
Qed.

Lemma unique_index_app {A} (p : A -> bool) l x :
  p x = false -> unique_index p (l ++ [x]) = unique_index p l.
Proof. intros Hx. unfold unique_index. by rewrite matching_indices_app, Hx, app_nil_r. Qed.

(** ** Fresh stack slots keep the operands *)

Definition fresh_slot (l : StorageLayout) (name : string) : Prop := name ∉ sl_stack_slots l.

Lemma ensure_fresh l name :
  fresh_slot l name ->
  ensure_stack_slot l name =
  mkStorageLayout (sl_class_bindings l) (sl_block_parameter_roles l) (sl_generator_resume_abi l)
    (sl_freevars l) (sl_cellvars l) (sl_preserved_slots l) (sl_stack_slots l ++ [name])
    (sl_expression_temporaries l).
Proof.
  unfold fresh_slot, ensure_stack_slot. intros Hf. destruct (existsb _ _) eqn:E; [|done].
  apply existsb_elem in E as (x & Hx & ->%bool_decide_eq_true). done.
Qed.

Lemma stack_slot_named_some l name loc :
  stack_slot_named l name = Some loc -> sl_stack_slots l !! Z.to_nat (local_slot loc) = Some name.
Proof.
  unfold stack_slot_named. destruct (unique_index _ _) as [i|] eqn:E; cbn; [|done]. intros [= <-].
  apply unique_index_some in E as (_ & x & Hx & ->%bool_decide_eq_true). done.
Qed.

Lemma stack_slot_named_ensure l new name :
  fresh_slot l new -> name <> new -> stack_slot_named (ensure_stack_slot l new) name = stack_slot_named l name.
Proof.
  intros Hf Hne. rewrite ensure_fresh by done. unfold stack_slot_named. cbn.
  by rewrite unique_index_app by (apply bool_decide_eq_false; congruence).
Qed.

(** A stack slot that is found is found again, and nothing else moves to it. *)
Lemma stack_slot_named_keeps l new name loc :
  fresh_slot l new -> stack_slot_named l name = Some loc ->
  stack_slot_named (ensure_stack_slot l new) name = Some loc.
Proof.
  intros Hf Hs. rewrite stack_slot_named_ensure; [done|done|]. intros ->.
  apply stack_slot_named_some in Hs. by apply Hf, (list_elem_of_lookup_2 _ _ _ Hs).
Qed.
Lemma stack_slot_named_old l new name loc :
  fresh_slot l new -> is_Some (sl_stack_slots l !! Z.to_nat (local_slot loc)) ->
  stack_slot_named (ensure_stack_slot l new) name = Some loc <-> stack_slot_named l name = Some loc.
Proof.
  intros Hf [s Hs]. destruct (decide (name = new)) as [->|Hne]; [|by rewrite stack_slot_named_ensure].
  split; intros H%stack_slot_named_some.
  - exfalso. rewrite ensure_fresh in H by done. cbn in H. rewrite lookup_app_l in H
      by (by eapply lookup_lt_Some). by apply Hf, (list_elem_of_lookup_2 _ _ _ H).
  - exfalso. by apply Hf, (list_elem_of_lookup_2 _ _ _ H).
Qed.

Lemma raw_local_keeps l new storage owner :
  fresh_slot l new -> raw_local storage l = Some owner ->
  raw_local storage (ensure_stack_slot l new) = Some owner.
Proof.
  intros Hf. destruct storage as [[index| | | |]]; cbn; try done.
  unfold owned_slot. rewrite ensure_fresh by done. cbn. rewrite <- ensure_fresh by done.
  destruct (sl_cellvars l !! Z.to_nat index) as [cell|]; cbn; [|done]. by apply stack_slot_named_keeps.
Qed.

Lemma is_control_slot_ensure l new location :
  fresh_slot l new -> is_Some (sl_stack_slots l !! Z.to_nat (local_slot location)) ->
  is_control_slot (ensure_stack_slot l new) location = is_control_slot l location.
Proof.
  intros Hf Hin. unfold is_control_slot.
  assert (forall role, bool_decide (generator_resume_local (ensure_stack_slot l new) role = Some location)
                     = bool_decide (generator_resume_local l role = Some location)) as Hrole.
  { intros role. apply bool_decide_ext. unfold generator_resume_local, generator_resume_parameter.
    replace (sl_generator_resume_abi (ensure_stack_slot l new)) with (sl_generator_resume_abi l)
      by (by rewrite ensure_fresh).
    destruct (sl_generator_resume_abi l) as [abi|]; cbn; [|done].
    destruct (abi_parameter abi role) as [name|]; cbn; [|done]. by apply stack_slot_named_old. }
  replace (sl_generator_resume_abi (ensure_stack_slot l new)) with (sl_generator_resume_abi l)
    by (by rewrite ensure_fresh).
  replace (sl_block_parameter_roles (ensure_stack_slot l new)) with (sl_block_parameter_roles l)
    by (by rewrite ensure_fresh).
  f_equal. destruct (sl_generator_resume_abi l) as [abi|]; cbn; [|done].
  induction (abi_params abi) as [|p params IH]; cbn; [done|]. by rewrite Hrole, IH.
Qed.

(** ** What a validated operand is *)

Definition owned_elsewhere (l : StorageLayout) (location : LocalLocation) (storage : ClassBindingStorage) :
    Prop := exists owner, raw_local storage l = Some owner /\ owner <> location.

Record local_operand_ok (l : StorageLayout) (location : LocalLocation) : Prop := {
  lo_allocated : is_Some (sl_stack_slots l !! Z.to_nat (local_slot location));
  lo_temporary : OL_Local location ∈ sl_expression_temporaries l;
  lo_class class : sl_class_bindings l = Some class ->
    cbp_namespace class <> location /\
    forall slot, slot ∈ cbp_slots class -> owned_elsewhere l location (csp_storage slot);
  lo_cells i : (i < length (sl_cellvars l))%nat ->
    exists index, index_u32 i = Some index /\ owned_elsewhere l location (CBS_Cell (CL_Owned index));
  lo_control : is_control_slot l location = false
}.

Lemma ensure_ok_iff {E} (c : bool) (e : E) : ensure c e = Ok tt <-> c = true.
Proof. by destruct c. Qed.

Lemma owner_check_iff l location storage (e1 e2 : string) :
  (let? owner := ok_or e1 (raw_local storage l) in ensure (negb (bool_decide (owner = location))) e2) = Ok tt
  <-> owned_elsewhere l location storage.
Proof.
  unfold owned_elsewhere. destruct (raw_local storage l) as [owner|]; cbn; [|naive_solver].
  rewrite ensure_ok_iff, negb_true_iff, bool_decide_eq_false. naive_solver.
Qed.

Lemma class_check_iff l location class :
  class_check l location class = Ok tt <->
  cbp_namespace class <> location /\
  forall slot, slot ∈ cbp_slots class -> owned_elsewhere l location (csp_storage slot).
Proof.
  unfold class_check. destruct (bool_decide (cbp_namespace class = location)) eqn:E; cbn.
  - apply bool_decide_eq_true in E. naive_solver.
  - apply bool_decide_eq_false in E. rewrite for_each_ok, Forall_forall. unfold class_slot_check.
    setoid_rewrite owner_check_iff. naive_solver.
Qed.

Lemma owned_cell_check_iff l location i :
  owned_cell_check l location i = Ok tt <->
  exists index, index_u32 i = Some index /\ owned_elsewhere l location (CBS_Cell (CL_Owned index)).
Proof.
  unfold owned_cell_check. destruct (index_u32 i) as [index|]; cbn [ok_or rbind]; [|naive_solver].
  rewrite owner_check_iff. naive_solver.
Qed.

Lemma is_some_iff {A} (o : option A) : is_some o = true <-> is_Some o.
Proof. destruct o; cbn; [by split; [eexists|]|]. split; [done|by intros []]. Qed.

(** The check of a local operand decides [local_operand_ok]. *)
Lemma validated_local_iff name l location o :
  rn_location name = NL_Local location ->
  validated_compiler_operand_location name l = Ok o <->
  o = OL_Local location /\ local_operand_ok l location.
Proof.
  intros Hname. unfold validated_compiler_operand_location. rewrite Hname. split.
  - intros H. ok_inv. bool_inv. split; [done|]. unfold is_expression_temporary in *. bool_inv.
    split; [by apply is_some_iff|done| | |done].
    + intros class Hclass. apply class_check_iff. by apply (if_some_ok _ (sl_class_bindings l)).
    + intros i Hi. apply owned_cell_check_iff. eapply for_each_elem; [eassumption|].
      apply elem_of_seq. lia.
  - intros [-> [Ha Ht Hc Ho Hk]].
    assert (is_some (sl_stack_slots l !! Z.to_nat (local_slot location)) = true) as ->
      by by apply is_some_iff.
    assert (is_expression_temporary l (OL_Local location) = true) as -> by by apply bool_decide_eq_true.
    cbn [negb orb ensure rbind].
    assert (if_some (class_check l location) (sl_class_bindings l) = Ok tt) as ->.
    { apply if_some_ok. intros class Hclass. apply class_check_iff. by apply Hc. }
    assert (for_each (owned_cell_check l location) (seq 0 (length (sl_cellvars l))) = Ok tt) as ->.
    { apply for_each_ok, Forall_forall. intros i Hi%elem_of_seq. apply owned_cell_check_iff, Ho. lia. }
    by rewrite Hk.
Qed.

Lemma owned_elsewhere_keeps l new location storage :
  fresh_slot l new -> owned_elsewhere l location storage ->
  owned_elsewhere (ensure_stack_slot l new) location storage.
Proof. intros Hf (owner & Ho & Hne). exists owner. split; [by apply raw_local_keeps|done]. Qed.

(** Adding a fresh stack slot keeps every validated operand. *)
Lemma operand_kept l new name o :
  fresh_slot l new -> validated_compiler_operand_location name l = Ok o ->
  validated_compiler_operand_location name (ensure_stack_slot l new) = Ok o.
Proof.
  intros Hf H. destruct (rn_location name) as [location|location| | | | |] eqn:Hname;
    try (unfold validated_compiler_operand_location in H; rewrite Hname in H; discriminate).
  - destruct (proj1 (validated_local_iff name l location o Hname) H) as [-> [Ha Ht Hc Ho Hk]].
    apply (validated_local_iff name _ location _ Hname). split; [done|].
    split; [| | | |by rewrite is_control_slot_ensure]; rewrite ?ensure_fresh by done; cbn.
    + destruct Ha as [s Hs]. exists s. rewrite lookup_app_l; [done|]. by eapply lookup_lt_Some.
    + done.
    + rewrite <- ensure_fresh by done. intros class Hclass. destruct (Hc class Hclass) as [Hn Hslots].
      split; [done|]. intros slot Hslot. apply owned_elsewhere_keeps; auto.
    + rewrite <- ensure_fresh by done. intros i Hi. destruct (Ho i Hi) as (index & Hindex & Howned).
      exists index. split; [done|]. by apply owned_elsewhere_keeps.
  - revert H. unfold validated_compiler_operand_location. rewrite Hname.
    unfold preserved_slot, is_expression_temporary. by rewrite ensure_fresh.
Qed.

(** ** New temporaries *)

(** Every cell a class slot or an owned cell names has its one stack slot. *)
Definition owners_resolved (l : StorageLayout) : Prop :=
  (forall class slot, sl_class_bindings l = Some class -> slot ∈ cbp_slots class ->
     is_Some (raw_local (csp_storage slot) l)) /\
  (forall class, sl_class_bindings l = Some class ->
     is_Some (sl_stack_slots l !! Z.to_nat (local_slot (cbp_namespace class)))) /\
  (forall i, (i < length (sl_cellvars l))%nat ->
     exists index, index_u32 i = Some index /\ is_Some (raw_local (CBS_Cell (CL_Owned index)) l)).

(** The name is no resume parameter, and control roles sit on allocated slots. *)
Definition name_unclaimed (l : StorageLayout) (name : string) : Prop :=
  fresh_slot l name /\
  (forall abi binding, sl_generator_resume_abi l = Some abi -> binding ∈ abi_params abi ->
     grb_name binding <> name) /\
  (forall role location, role ∈ sl_block_parameter_roles l -> rr_location role = NL_Local location ->
     is_Some (sl_stack_slots l !! Z.to_nat (local_slot location))).

Lemma raw_local_allocated l storage owner :
  raw_local storage l = Some owner -> is_Some (sl_stack_slots l !! Z.to_nat (local_slot owner)).
Proof.
  destruct storage as [[index| | | |]]; cbn; try done.
  destruct (owned_slot l index) as [cell|]; cbn; [|done].
  intros H%stack_slot_named_some. by eexists.
Qed.

Lemma owned_elsewhere_new l new storage slot :
  fresh_slot l new -> slot = Z.of_nat (length (sl_stack_slots l)) ->
  is_Some (raw_local storage l) -> owned_elsewhere (ensure_stack_slot l new) (mkLocalLocation slot) storage.
Proof.
  intros Hf -> [owner Ho]. exists owner. split; [by apply raw_local_keeps|].
  intros ->. apply raw_local_allocated in Ho. cbn in Ho. rewrite Nat2Z.id in Ho.
  apply lookup_lt_is_Some in Ho. lia.
Qed.

(** Marking a temporary only adds to the temporaries. *)
Lemma raw_local_temporaries l ts storage : raw_local storage (with_temporaries l ts) = raw_local storage l.
Proof. done. Qed.
Lemma local_operand_ok_temporaries l ts location :
  local_operand_ok l location -> OL_Local location ∈ ts -> local_operand_ok (with_temporaries l ts) location.
Proof. intros [Ha Ht Hc Ho Hk] Hts. by split. Qed.

Lemma operand_kept_temporaries l ts name o :
  sl_expression_temporaries l ⊆ ts -> validated_compiler_operand_location name l = Ok o ->
  validated_compiler_operand_location name (with_temporaries l ts) = Ok o.
Proof.
  intros Hsub H. destruct (rn_location name) as [location|location| | | | |] eqn:Hname;
    try (unfold validated_compiler_operand_location in H; rewrite Hname in H; discriminate).
  - destruct (proj1 (validated_local_iff name l location o Hname) H) as [-> Hok].
    apply (validated_local_iff name _ location _ Hname). split; [done|].
    apply local_operand_ok_temporaries; [done|]. by apply Hsub, lo_temporary.
  - revert H. unfold validated_compiler_operand_location. rewrite Hname. cbn.
    destruct (preserved_slot l (preserved_location_slot location)) as [slot|] eqn:Es; [|done].
    change (preserved_slot (with_temporaries l ts)) with (preserved_slot l). rewrite Es. cbn.
    unfold is_expression_temporary. cbn. intros H. ok_inv. bool_inv.
    assert (bool_decide (OL_Preserved location ∈ ts) = true) as ->
      by (apply bool_decide_eq_true, Hsub; done).
    repeat match goal with E : ?x = _ |- context [?x] => rewrite E end.
    rewrite !bool_decide_true by done. done.
Qed.

Lemma mark_temporaries l location l' :
  mark_expression_temporary l location = Some l' ->
  exists ts, l' = with_temporaries l ts /\ sl_expression_temporaries l ⊆ ts /\ location ∈ ts.
Proof.
  unfold mark_expression_temporary. destruct (operand_allocated l location); [|done].
  unfold is_expression_temporary. intros [= <-]. case_bool_decide as Hin.
  - exists (sl_expression_temporaries l). split; [by destruct l|done].
  - eexists. split; [done|]. split; [set_solver|]. apply elem_of_app. right. apply list_elem_of_here.
Qed.

Lemma new_operand_ok l new slot :
  owners_resolved l -> name_unclaimed l new -> index_u32 (length (sl_stack_slots l)) = Some slot ->
  forall ts, OL_Local (mkLocalLocation slot) ∈ ts ->
  local_operand_ok (with_temporaries (ensure_stack_slot l new) ts) (mkLocalLocation slot).
Proof.
  intros (Hclass & Hns & Hcells) (Hf & Habi & Hroles) Hslot ts Hts.
  assert (slot = Z.of_nat (length (sl_stack_slots l))) as Heq.
  { unfold index_u32 in Hslot. destruct (_ <? _); [|done]. congruence. }
  assert (forall location, is_Some (sl_stack_slots l !! Z.to_nat (local_slot location)) ->
            location <> mkLocalLocation slot) as Hold.
  { intros location Hl ->. cbn in Hl. rewrite Heq, Nat2Z.id in Hl. apply lookup_lt_is_Some in Hl. lia. }
  split.
  - cbn [sl_stack_slots with_temporaries local_slot]. rewrite ensure_fresh, Heq, Nat2Z.id by done. cbn.
    by rewrite lookup_app_r, Nat.sub_diag.
  - done.
  - cbn. intros class Hc. rewrite ensure_fresh in Hc by done. cbn in Hc.
    split; [by apply Hold, Hns|]. intros cslot Hin.
    apply (owned_elsewhere_new l new _ _ Hf Heq). by apply (Hclass class).
  - cbn. intros i Hi. rewrite ensure_fresh in Hi by done. cbn in Hi.
    destruct (Hcells i Hi) as (index & Hindex & Hraw). exists index. split; [done|].
    exact (owned_elsewhere_new l new (CBS_Cell (CL_Owned index)) slot Hf Heq Hraw).
  - change (is_control_slot (with_temporaries (ensure_stack_slot l new) ts))
      with (is_control_slot (ensure_stack_slot l new)).
    unfold is_control_slot. rewrite !ensure_fresh by done. cbn [sl_block_parameter_roles sl_generator_resume_abi].
    rewrite <- ensure_fresh by done. apply orb_false_iff. split.
    + apply existsb_false_elem. intros role Hin. apply bool_decide_eq_false. intros Hl.
      by apply (Hold _ (Hroles _ _ Hin Hl)).
    + destruct (sl_generator_resume_abi l) as [abi|] eqn:Eabi; cbn; [|done].
      apply existsb_false_elem. intros p Hp. apply bool_decide_eq_false.
      unfold generator_resume_local, generator_resume_parameter.
      rewrite ensure_fresh, Eabi by done. cbn. rewrite <- Eabi, <- ensure_fresh by done.
      destruct (abi_parameter abi (grb_role p)) as [name|] eqn:Ename; cbn; [|done].
      assert (name <> new) as Hne.
      { unfold abi_parameter in Ename. destruct (unique_match _) as [b|] eqn:Eb; [|done].
        apply unique_match_elem in Eb. injection Ename as <-. apply list_elem_of_In in Eb.
        apply List.filter_In in Eb as [Eb _]. apply list_elem_of_In in Eb. by eapply Habi. }
      rewrite stack_slot_named_ensure by done. intros Hs%stack_slot_named_some.
      by apply (Hold (mkLocalLocation slot)); [eexists|].
Qed.

(** a temporary the code generator allocates under an unclaimed name gets a slot of
    its own and, once marked, is accepted as a compiler operand; every operand accepted
    before is still accepted, at the same location, and is a different one. *)
Theorem codegen_temp_is_operand s name_gen l prefix s' l' t :
  owners_resolved l ->
  try_allocate_codegen_stack_temp s name_gen (Some l) prefix = Some (s', Some l', Ok t) ->
  name_unclaimed l (ctl_name t) ->
  exists marked,
    mark_expression_temporary l' (OL_Local (ctl_location t)) = Some marked /\
    sl_stack_slots marked !! Z.to_nat (local_slot (ctl_location t)) = Some (ctl_name t) /\
    validated_compiler_operand_location (ctl_resolved_name t) marked = Ok (OL_Local (ctl_location t)) /\
    forall name o, validated_compiler_operand_location name l = Ok o ->
      o <> OL_Local (ctl_location t) /\ validated_compiler_operand_location name marked = Ok o.
Proof.
  intros Hres H Hname. unfold try_allocate_codegen_stack_temp in H.
  destruct (next_tmp_name s name_gen prefix) as [[s1 new]|]; cbn in H; [|done].
  destruct (index_u32 (length (sl_stack_slots l))) as [slot|] eqn:Hslot; cbn in H; [|done].
  injection H as <- <- <-. cbn [ctl_name ctl_location] in *. pose proof Hname as (Hf & _ & _).
  assert (slot = Z.of_nat (length (sl_stack_slots l))) as Heq.
  { unfold index_u32 in Hslot. destruct (_ <? _); [|done]. congruence. }
  assert (exists m, mark_expression_temporary (ensure_stack_slot l new) (OL_Local (mkLocalLocation slot)) = Some m)
    as [m Hm].
  { unfold mark_expression_temporary. replace (operand_allocated _ _) with true; [by eexists|].
    symmetry. apply Z.ltb_lt. rewrite ensure_fresh by done. cbn. rewrite length_app. cbn. lia. }
  exists m. split; [done|]. apply mark_temporaries in Hm as (ts & -> & Hsub & Hin). split_and!.
  - rewrite ensure_fresh by done. cbn. rewrite Heq, Nat2Z.id. by rewrite lookup_app_r, Nat.sub_diag.
  - apply (validated_local_iff _ _ (mkLocalLocation slot)); [done|]. split; [done|].
    by apply new_operand_ok.
  - intros name o Ho. split.
    + intros ->. destruct (rn_location name) as [location|location| | | | |] eqn:Hn;
        try (unfold validated_compiler_operand_location in Ho; rewrite Hn in Ho; ok_inv; done).
      destruct (proj1 (validated_local_iff name l location _ Hn) Ho) as [[= <-] Hok].
      destruct (lo_allocated _ _ Hok) as [x Hx]. cbn in Hx. rewrite Heq, Nat2Z.id in Hx.
      apply lookup_lt_Some in Hx. lia.
    + apply operand_kept_temporaries; [done|]. by apply operand_kept.
Qed.

(** ** Cleanup order *)

(** The derived order of [(bool, u32)]. *)
Definition cleanup_before (x y : bool * Z) : Prop :=
  (x.1 = false /\ y.1 = true) \/ (x.1 = y.1 /\ x.2 < y.2).

Lemma find_app_old {A} `{EqDecision A} (l : list A) x y :
  x <> y -> list_find (fun z => z = x) (l ++ [y]) = list_find (fun z => z = x) l.
Proof.
  intros Hne. destruct (list_find (fun z => z = x) l) as [[i z]|] eqn:E.
  - by apply list_find_app_l.
  - rewrite list_find_app_r by done. cbn. by rewrite decide_False by congruence.
Qed.

(** a newly marked local temporary is released before every other local, and the
    release order of the others does not change. *)
Theorem newest_temporary_first l t l' :
  mark_expression_temporary l (OL_Local t) = Some l' ->
  is_expression_temporary l (OL_Local t) = false ->
  Z.of_nat (length (sl_expression_temporaries l)) < 2 ^ 32 ->
  forall a, a <> t ->
    local_cleanup_order_key l' a = local_cleanup_order_key l a /\
    cleanup_before (local_cleanup_order_key l' t) (local_cleanup_order_key l' a).
Proof.
  unfold mark_expression_temporary. destruct (operand_allocated l (OL_Local t)); [|done].
  intros H Hnew Hlen a Hne. rewrite Hnew in H. injection H as <-.
  unfold is_expression_temporary in Hnew. apply bool_decide_eq_false in Hnew.
  unfold local_cleanup_order_key. cbn [with_temporaries sl_expression_temporaries].
  rewrite (find_app_old _ (OL_Local a)) by congruence.
  split; [done|]. set (ts := sl_expression_temporaries l) in *.
  assert (list_find (fun slot => slot = OL_Local t) (ts ++ [OL_Local t]) = Some (length ts, OL_Local t)) as ->.
  { rewrite list_find_app_r.
    - cbn. by rewrite decide_True.
    - apply list_find_None, Forall_forall. by intros x Hx ->. }
  unfold cleanup_before. destruct (list_find _ ts) as [[i x]|] eqn:E; cbn; [|by left].
  right. split; [done|]. apply list_find_Some in E as (E & _). apply lookup_lt_Some in E. lia.
Qed.

(** ** Prepared calls *)

(** A [TakeOperand] visits no children. *)
Definition take_leaf (i : InstrBlockPy) : Prop := is_Some (as_take_operand i) -> instr_children i = [].

Lemma take_leaf_takes i name :
  as_take_operand i = Some name -> take_leaf i ->
  visit_operand_takes i = option_list (from_name_location (rn_location name)).
Proof.
  intros Hn Hl. destruct i as [id op children]. unfold take_leaf in Hl. rewrite Hn in Hl.
  cbn in Hl. rewrite Hl by done. unfold visit_operand_takes. cbn.
  unfold take_location, as_take_operand in *. cbn in *. rewrite Hn. cbn.
  by destruct (from_name_location _).
Qed.

Lemma validated_location name l o :
  validated_compiler_operand_location name l = Ok o -> from_name_location (rn_location name) = Some o.
Proof.
  unfold validated_compiler_operand_location. destruct (rn_location name); try done; intros H; by ok_inv.
Qed.

Lemma validate_moves_spec l inputs owners owners' :
  Forall take_leaf inputs -> validate_moves l owners inputs = Ok owners' -> NoDup owners ->
  exists moved, concat (map visit_operand_takes inputs) = moved /\ length moved = length inputs /\
    owners' = owners ++ map name_location moved /\ NoDup owners' /\
    Forall (fun o => exists name, validated_compiler_operand_location name l = Ok o) moved.
Proof.
  revert owners. induction inputs as [|i inputs IH]; intros owners Hleaf H Hnd; cbn in *.
  { injection H as <-. exists []. by rewrite app_nil_r. }
  apply Forall_cons in Hleaf as [Hi Hleaf].
  destruct (as_take_operand i) as [name|] eqn:En; cbn in H; [|done]. ok_inv. bool_inv.
  destruct (IH _ Hleaf H) as (moved & Hmoved & Hlen & -> & Hnd' & Hall).
  { apply NoDup_app. split_and!; [done| |apply NoDup_singleton].
    intros x Hx ->%list_elem_of_singleton. done. }
  exists (a :: moved). split_and!.
  - rewrite (take_leaf_takes _ _ En Hi), (validated_location _ _ _ E), Hmoved. done.
  - cbn. by rewrite Hlen.
  - cbn. by rewrite <- app_assoc.
  - done.
  - constructor; [by exists name|done].
Qed.

Lemma no_takes i : instr_any (fun i => is_some (as_take_operand i)) i = false -> visit_operand_takes i = [].
Proof.
  unfold instr_any, visit_operand_takes. rewrite existsb_false_elem. intros H.
  assert (forall j, j ∈ instrs_post i -> j ∈ instrs_pre i) as Hsame.
  { clear H. induction i as [id op children IH] using InstrBlockPy_tree_ind. cbn. intros j.
    rewrite Forall_forall in IH. intros [(c & Hc & Hj)%elem_of_concat_map| ->%list_elem_of_singleton]%elem_of_app;
      [|apply list_elem_of_here]. apply list_elem_of_further, elem_of_concat_map. eauto. }
  assert (forall j, j ∈ instrs_post i -> take_location j = None) as Hnone.
  { intros j Hj. specialize (H j (Hsame j Hj)). unfold take_location. by destruct (as_take_operand j). }
  induction (instrs_post i) as [|j l IH]; cbn; [done|].
  rewrite Hnone by apply list_elem_of_here. apply IH.
  - intros k Hk. apply Hsame. by apply list_elem_of_further.
  - intros k Hk. apply Hnone. by apply list_elem_of_further.
Qed.

(** C30: a prepared call that passes its check moves every operand at most once: the
    operands taken while its inputs and its namespace are evaluated are pairwise
    different, one per input, and each is a validated compiler operand. *)
Theorem prepared_call_moves_once id func arguments keywords namespace has_keywords frame_namespace l :
  Forall take_leaf (func :: arguments :: option_list keywords) ->
  validate_prepared_call func arguments keywords namespace l = Ok tt ->
  let i := mkInstr id (Op_PreparedCall has_keywords frame_namespace)
             (func :: arguments :: option_list keywords ++ option_list namespace) in
  NoDup (visit_operand_takes i) /\
  length (visit_operand_takes i) = length (func :: arguments :: option_list keywords) /\
  Forall (fun o => exists name, validated_compiler_operand_location name l = Ok o) (visit_operand_takes i).
Proof.
  intros Hleaf H. unfold validate_prepared_call in H. ok_inv. bool_inv.
  match goal with H : validate_moves _ _ _ = Ok _ |- _ => rename H into Hm end.
  destruct (validate_moves_spec _ _ _ _ Hleaf Hm ltac:(apply NoDup_nil_2))
    as (moved & Hmoved & Hlen & -> & Hnd & Hall).
  assert (forall inputs, visit_operand_takes (mkInstr id (Op_PreparedCall has_keywords frame_namespace)
            (inputs ++ option_list namespace)) = concat (map visit_operand_takes inputs)) as Htakes.
  { intros inputs. unfold visit_operand_takes at 1. cbn [instrs_post]. rewrite omap_app. cbn.
    rewrite app_nil_r, map_app, concat_app, omap_app.
    assert (omap take_location (concat (map instrs_post (option_list namespace))) = []) as ->.
    { destruct namespace as [n|]; [|done]. cbn. rewrite app_nil_r. by apply no_takes. }
    rewrite app_nil_r. induction inputs as [|i inputs IH]; cbn; [done|]. by rewrite omap_app, IH. }
  pose proof (Htakes (func :: arguments :: option_list keywords)) as Hi. cbn [app] in Hi. cbn zeta.
  rewrite Hi, Hmoved. split_and!.
  - eapply NoDup_fmap_1. exact Hnd.
  - done.
  - done.
Qed.

(** ** The resume ABI *)

Lemma validate_abi_params_spec names params body roles :
  length params = length roles -> length body = length roles ->
  validate_abi_params names params body roles = Ok tt ->
  map grb_role params = roles /\ map grb_name params = map p_name body /\
  NoDup (map grb_name params) /\ (forall n, n ∈ map grb_name params -> n ∉ names).
Proof.
  revert names body roles. induction params as [|b params IH]; intros names body roles Hp Hb H.
  - destruct roles, body; try done. split_and!; [done..|apply NoDup_nil_2|].
    by intros n ?%not_elem_of_nil.
  - destruct roles as [|r roles], body as [|p body]; try done. cbn in H. ok_inv. bool_inv.
    destruct (IH (grb_name b :: names) body roles) as (Hr & Hn & Hd & Hout); [cbn in *; lia..|done|]. cbn.
    split_and!; [congruence..| |].
    + apply NoDup_cons. split; [|done]. intros Hin. apply (Hout _ Hin), list_elem_of_here.
    + intros n [->|Hin]%elem_of_cons; [done|]. intros Hin'. by apply (Hout _ Hin), list_elem_of_further.
Qed.

Lemma validate_abi_names abi kind body_params :
  validate_abi abi kind body_params = Ok tt -> map grb_name (abi_params abi) = map p_name body_params.
Proof.
  intros H. unfold validate_abi in H. ok_inv. bool_inv.
  match goal with H : validate_abi_params _ _ _ _ = Ok _ |- _ =>
    by apply validate_abi_params_spec in H as (_ & ? & _); [|done..] end.
Qed.

Lemma for_kind_nodup kind : NoDup (for_kind kind).
Proof. apply (bool_decide_unpack _). by destruct kind. Qed.

(** With distinct keys, the unique match is the binding itself. *)
Lemma unique_match_filter {A B} `{EqDecision B} (f : A -> B) l x :
  NoDup (map f l) ->
  unique_match (List.filter (fun y => bool_decide (f y = f x)) l) = Some x <-> x ∈ l.
Proof.
  intros Hnd. split.
  - intros H%unique_match_elem. apply list_elem_of_In, List.filter_In in H as [H _].
    by apply list_elem_of_In.
  - intros Hx. assert (List.filter (fun y => bool_decide (f y = f x)) l = [x]) as ->; [|done].
    induction l as [|y l IH]; [by apply not_elem_of_nil in Hx|]. cbn in Hnd |- *.
    apply NoDup_cons in Hnd as [Hy Hnd]. apply elem_of_cons in Hx as [->|Hx].
    + rewrite bool_decide_true by done. f_equal.
      clear IH Hnd. induction l as [|z l IH]; cbn; [done|].
      rewrite bool_decide_false; [apply IH|]; intros ?; apply Hy; cbn; rewrite elem_of_cons; auto.
    + rewrite bool_decide_false; [by apply IH|]. intros E. apply Hy. rewrite E.
      by apply list_elem_of_fmap_2.
Qed.

Lemma unique_match_key {A B} `{EqDecision B} (f : A -> B) l k x :
  unique_match (List.filter (fun y => bool_decide (f y = k)) l) = Some x -> f x = k.
Proof.
  intros H%unique_match_elem. apply list_elem_of_In, List.filter_In in H as [_ H].
  by apply bool_decide_eq_true in H.
Qed.

(** in a validated resume ABI, parameters and roles determine each other: looking up
    the parameter of a role and the role of a name are inverse, every role of the
    function kind has its parameter and no other role has one, and the names are those
    of the executable body, in order. *)
Theorem resume_abi_inverse abi kind body_params :
  validate_abi abi kind body_params = Ok tt ->
  (forall role name, abi_parameter abi role = Some name <-> role_for_name abi name = Some role) /\
  (forall role, is_Some (abi_parameter abi role) <-> role ∈ for_kind kind) /\
  map grb_name (abi_params abi) = map p_name body_params /\
  (exists role, role ∈ for_kind kind).
Proof.
  intros H. unfold validate_abi in H. ok_inv. bool_inv.
  match goal with H : validate_abi_params _ _ _ _ = Ok _ |- _ => rename H into Hp end.
  apply validate_abi_params_spec in Hp as (Hroles & Hnames & Hnd & _); [|done..].
  assert (NoDup (map grb_role (abi_params abi))) as Hrd by (rewrite Hroles; apply for_kind_nodup).
  assert (forall role name, abi_parameter abi role = Some name <->
            mkResumeBinding role name ∈ abi_params abi) as Hpar.
  { intros role name. unfold abi_parameter. split.
    - destruct (unique_match _) as [[r n]|] eqn:Em; [|done]. intros [= <-].
      pose proof (unique_match_key _ _ _ _ Em) as <-. by apply (unique_match_filter grb_role).
    - intros Hin. by rewrite (proj2 (unique_match_filter grb_role _ _ Hrd) Hin). }
  assert (forall role name, role_for_name abi name = Some role <->
            mkResumeBinding role name ∈ abi_params abi) as Hrole.
  { intros role name. unfold role_for_name. split.
    - destruct (unique_match _) as [[r n]|] eqn:Em; [|done]. intros [= <-].
      pose proof (unique_match_key _ _ _ _ Em) as <-. by apply (unique_match_filter grb_name).
    - intros Hin. by rewrite (proj2 (unique_match_filter grb_name _ _ Hnd) Hin). }
  split_and!; [intros role name; by rewrite Hpar, Hrole| |done|].
  - intros role. rewrite <- Hroles. split.
    + intros [name Hn]. apply Hpar in Hn. by apply (list_elem_of_fmap_2 grb_role) in Hn.
    + intros ([r n] & -> & Hin)%list_elem_of_fmap. exists n. by apply Hpar.
  - destruct (for_kind kind) as [|role roles]; [done|]. exists role. apply list_elem_of_here.
Qed.

(** ** Examples *)

Module Fixture.
(** Three operand temporaries and a source local. *)
Definition layout : StorageLayout :=
  mkStorageLayout None [] None [] [] [] ["callee"; "args"; "kwargs"; "source"]
    (map (fun slot => OL_Local (mkLocalLocation slot)) [0; 1; 2]).
Definition take (slot : Z) : InstrBlockPy :=
  mkInstr None (Op_TakeOperand (mkResolvedName "alias" (NL_Local (mkLocalLocation slot)))) [].
Definition abi : GeneratorResumeAbi :=
  mkResumeAbi [mkResumeBinding GR_SelfValue "g"; mkResumeBinding GR_StateValue "st";
               mkResumeBinding GR_SendValue "v"; mkResumeBinding GR_ResumeExc "exc"].
Definition body : list Param := map (fun n => mkParam n PK_PosOnly false) ["g"; "st"; "v"; "exc"].
Definition names : Store * FunctionNameGen := function_gen_new (mkStore ∅ ∅) (from_raw_parts 0 1).
End Fixture.

Lemma codegen_temp_is_operand_witness :
  exists s' l' t marked,
    try_allocate_codegen_stack_temp Fixture.names.1 Fixture.names.2 (Some Fixture.layout) "tmp" =
      Some (s', Some l', Ok t) /\
    mark_expression_temporary l' (OL_Local (ctl_location t)) = Some marked /\
    validated_compiler_operand_location (ctl_resolved_name t) marked = Ok (OL_Local (ctl_location t)).
Proof.
  epose proof (codegen_temp_is_operand Fixture.names.1 Fixture.names.2 Fixture.layout "tmp" _ _
                 (mkCodegenTempLocal "_dp_tmp_0_1_0" (mkLocalLocation 4))) as H.
  eexists _, _, _. edestruct H as (marked & Hm & _ & Hv & _).
  - split_and!; try done. cbn. lia.
  - vm_compute. reflexivity.
  - split_and!; try done; [apply (bool_decide_unpack _); vm_compute; exact I|].
    intros role location Hin. by apply not_elem_of_nil in Hin.
  - exists marked. split; [vm_compute; reflexivity|]. split; [exact Hm|exact Hv].
Defined.

Lemma newest_temporary_first_witness :
  local_cleanup_order_key (with_temporaries Fixture.layout
    (sl_expression_temporaries Fixture.layout ++ [OL_Local (mkLocalLocation 3)])) (mkLocalLocation 0)
  = local_cleanup_order_key Fixture.layout (mkLocalLocation 0).
Proof.
  refine (proj1 (newest_temporary_first Fixture.layout (mkLocalLocation 3) _ _ _ _ (mkLocalLocation 0) _)).
  - vm_compute. reflexivity.
  - vm_compute. reflexivity.
  - vm_compute. reflexivity.
  - discriminate.
Defined.

Lemma prepared_call_moves_once_witness :
  validate_prepared_call (Fixture.take 0) (Fixture.take 1) (Some (Fixture.take 2)) None Fixture.layout = Ok tt /\
  validate_prepared_call (Fixture.take 0) (Fixture.take 1) (Some (Fixture.take 0)) None Fixture.layout <> Ok tt /\
  NoDup (visit_operand_takes (mkInstr None (Op_PreparedCall true None)
    [Fixture.take 0; Fixture.take 1; Fixture.take 2])).
Proof.
  split; [vm_compute; reflexivity|]. split; [vm_compute; discriminate|].
  refine (proj1 (prepared_call_moves_once None (Fixture.take 0) (Fixture.take 1)
            (Some (Fixture.take 2)) None true None Fixture.layout _ _)).
  - repeat constructor.
  - vm_compute. reflexivity.
Defined.

Lemma resume_abi_inverse_witness :
  validate_abi Fixture.abi FK_Generator Fixture.body = Ok tt /\
  (abi_parameter Fixture.abi GR_SendValue = Some "v" <-> role_for_name Fixture.abi "v" = Some GR_SendValue).
Proof.
  split; [vm_compute; reflexivity|].
  apply (proj1 (resume_abi_inverse Fixture.abi FK_Generator Fixture.body ltac:(vm_compute; reflexivity))).
Defined.
