(* ===== verification/ClassBindings.v ===== *)
(** * Class bindings

    crates/soac_core/src/block_py/class_bindings.rs: the native metadata of a class body
    with its wire codes, the creation site of a captured cell, and the check of the
    physical projection of the class cells onto the storage layout. *)

From stdpp Require Import gmap.
From S2P Require Import Prelude Order Collections Text Identity Ids Cfg Names Instr Layout.

Local Open Scope Z_scope.

(** ** Native kinds and their wire codes *)

Definition CLASS_BINDINGS_SCHEMA_VERSION : Z := 7.

Record NativeLocalsPlusKind : Type := mkLocalsPlusKind { lpk_bits : Z }.
Definition LPK_LOCAL : Z := 32.
Definition LPK_CELL : Z := 64.
Definition LPK_FREE : Z := 128.
Definition lpk_is_cell (k : NativeLocalsPlusKind) : bool :=
  negb (Z.land (lpk_bits k) (Z.lor LPK_CELL LPK_FREE) =? 0).
Definition lpk_is_local (k : NativeLocalsPlusKind) : bool :=
  negb (Z.land (lpk_bits k) LPK_LOCAL =? 0).
Definition lpk_is_free (k : NativeLocalsPlusKind) : bool :=
  negb (Z.land (lpk_bits k) LPK_FREE =? 0).
Definition is_valid_class_slot (k : NativeLocalsPlusKind) : bool :=
  existsb (Z.eqb (lpk_bits k)) [32; 48; 64; 96; 112; 128].

Inductive NativeCompileScopeKind : Type :=
| CSK_Module | CSK_Class | CSK_Function | CSK_AsyncFunction | CSK_Lambda | CSK_Comprehension
| CSK_Annotations.
Inductive NativeSymbolScopeKind : Type :=
| SSK_FunctionBlock | SSK_ClassBlock | SSK_ModuleBlock | SSK_AnnotationBlock | SSK_TypeAliasBlock
| SSK_TypeParametersBlock | SSK_TypeVariableBlock.
Inductive ClassBindingPhase : Type := CBP_ClassEntry | CBP_ClassHeaderComplete.
Inductive ClassBindingExportKind : Type := EK_ClassCell | EK_ClassDictCell.
Inductive ClassBindingAccessContext : Type := AC_Load | AC_Store | AC_Delete.
Inductive ClassBindingAccessSelection : Type := AS_RawSlot | AS_CellValue | AS_NamespaceOrCell.

#[global] Instance NativeCompileScopeKind_eq_dec : EqDecision NativeCompileScopeKind.
Proof. solve_decision. Defined.
#[global] Instance NativeSymbolScopeKind_eq_dec : EqDecision NativeSymbolScopeKind.
Proof. solve_decision. Defined.
#[global] Instance ClassBindingPhase_eq_dec : EqDecision ClassBindingPhase.
Proof. solve_decision. Defined.

Definition compile_scope_from_wire (value : Z) : option NativeCompileScopeKind :=
  match value with
  | 0 => Some CSK_Module | 1 => Some CSK_Class | 2 => Some CSK_Function
  | 3 => Some CSK_AsyncFunction | 4 => Some CSK_Lambda | 5 => Some CSK_Comprehension
  | 6 => Some CSK_Annotations | _ => None
  end.
Definition compile_scope_wire_value (k : NativeCompileScopeKind) : Z :=
  match k with
  | CSK_Module => 0 | CSK_Class => 1 | CSK_Function => 2 | CSK_AsyncFunction => 3
  | CSK_Lambda => 4 | CSK_Comprehension => 5 | CSK_Annotations => 6
  end.
Definition symbol_scope_from_wire (value : Z) : option NativeSymbolScopeKind :=
  match value with
  | 0 => Some SSK_FunctionBlock | 1 => Some SSK_ClassBlock | 2 => Some SSK_ModuleBlock
  | 3 => Some SSK_AnnotationBlock | 4 => Some SSK_TypeAliasBlock
  | 5 => Some SSK_TypeParametersBlock | 6 => Some SSK_TypeVariableBlock | _ => None
  end.
Definition symbol_scope_wire_value (k : NativeSymbolScopeKind) : Z :=
  match k with
  | SSK_FunctionBlock => 0 | SSK_ClassBlock => 1 | SSK_ModuleBlock => 2 | SSK_AnnotationBlock => 3
  | SSK_TypeAliasBlock => 4 | SSK_TypeParametersBlock => 5 | SSK_TypeVariableBlock => 6
  end.
Definition phase_from_wire (value : Z) : option ClassBindingPhase :=
  match value with 0 => Some CBP_ClassEntry | 1 => Some CBP_ClassHeaderComplete | _ => None end.
Definition phase_wire_value (p : ClassBindingPhase) : Z :=
  match p with CBP_ClassEntry => 0 | CBP_ClassHeaderComplete => 1 end.
Definition export_from_wire (value : Z) : option ClassBindingExportKind :=
  match value with 0 => Some EK_ClassCell | 1 => Some EK_ClassDictCell | _ => None end.
Definition export_wire_value (k : ClassBindingExportKind) : Z :=
  match k with EK_ClassCell => 0 | EK_ClassDictCell => 1 end.
Definition access_from_wire (value : Z) : option ClassBindingAccessContext :=
  match value with 0 => Some AC_Load | 1 => Some AC_Store | 2 => Some AC_Delete | _ => None end.
Definition access_wire_value (c : ClassBindingAccessContext) : Z :=
  match c with AC_Load => 0 | AC_Store => 1 | AC_Delete => 2 end.
Definition selection_from_wire (value : Z) : option ClassBindingAccessSelection :=
  match value with
  | 0 => Some AS_RawSlot | 1 => Some AS_CellValue | 2 => Some AS_NamespaceOrCell | _ => None
  end.
Definition selection_wire_value (s : ClassBindingAccessSelection) : Z :=
  match s with AS_RawSlot => 0 | AS_CellValue => 1 | AS_NamespaceOrCell => 2 end.

Inductive ClassBindingInitialValue : Type :=
| IV_EmptyCell | IV_IncomingFree (ordinal : Z) | IV_NamespaceStore | IV_ConditionalSetStore.
Definition initial_value_from_wire (role : Z) (operand : option Z) : option ClassBindingInitialValue :=
  match role, operand with
  | 1, None => Some IV_EmptyCell
  | 2, Some ordinal => Some (IV_IncomingFree ordinal)
  | 3, None => Some IV_NamespaceStore
  | 4, None => Some IV_ConditionalSetStore
  | _, _ => None
  end.

(** ** Code nodes *)

Record NativeLocalsPlusSlot : Type := mkLocalsPlusSlot {
  lps_name : string; lps_kind : NativeLocalsPlusKind }.
Record ClassBindingCodeNode : Type := mkCodeNode {
  cn_id : NativeCodeId;
  cn_parent : option NativeCodeId;
  cn_compile_scope : NativeCompileScopeKind;
  cn_symbol_scope : NativeSymbolScopeKind;
  cn_first_line : Z;
  cn_source_range : option SourceRange;
  cn_slots : list NativeLocalsPlusSlot;
  cn_freevar_count : Z
}.

(** The offsets at which the lines of the source start: 0 and after every newline. *)
Definition line_starts (source : list byte) : list nat :=
  0%nat :: map S (matching_indices (fun b => b2z b =? 10) source).
Definition first_line_marker (node : ClassBindingCodeNode) (source : string) : option SourceRange :=
  if 1 <=? cn_first_line node then
    offset ← line_starts (bytes_of source) !! Z.to_nat (cn_first_line node - 1);
    offset ← index_u32 offset;
    Some (mkSourceRange offset offset)
  else None.
Definition node_freevar_slot (node : ClassBindingCodeNode) (ordinal : Z) :
    option NativeLocalsPlusSlot :=
  if cn_freevar_count node <=? ordinal then None
  else if Z.of_nat (length (cn_slots node)) <? cn_freevar_count node then None
  else cn_slots node !! Z.to_nat (Z.of_nat (length (cn_slots node)) - cn_freevar_count node + ordinal).

(** ** Where a captured cell is created *)

Inductive ClassBindingCaptureCreation : Type :=
| CC_SourceRange (range : SourceRange)
| CC_ClassAnnotationBodyCompletion (marker : SourceRange)
| CC_Unavailable.
Definition creation_source_range (c : ClassBindingCaptureCreation) : option SourceRange :=
  match c with CC_SourceRange range => Some range | _ => None end.

Definition valid_range (source : string) (range : SourceRange) : bool :=
  (sr_start range <=? sr_end range) && (sr_end range <=? str_len source)
  && is_char_boundary (bytes_of source) (sr_start range)
  && is_char_boundary (bytes_of source) (sr_end range).
Definition completion_child (parent child : ClassBindingCodeNode) : bool :=
  bool_decide (cn_compile_scope parent = CSK_Class)
  && bool_decide (cn_symbol_scope parent = SSK_ClassBlock)
  && bool_decide (cn_compile_scope child = CSK_Annotations)
  && bool_decide (cn_symbol_scope child = SSK_AnnotationBlock)
  && (cn_first_line child =? cn_first_line parent).
Definition validate_creation (c : ClassBindingCaptureCreation) (source : string)
    (parent child : ClassBindingCodeNode) : result string unit :=
  let? class_range := ok_or "class capture parent has no source range" (cn_source_range parent) in
  do? ensure (bool_decide (cn_parent child = Some (cn_id parent)))
    "class capture must target its actual direct native child";
  match c with
  | CC_Unavailable =>
      ensure (negb (completion_child parent child))
        "class annotation provider has no native body-completion marker"
  | CC_SourceRange range =>
      do? ensure (negb (completion_child parent child))
        "class annotation body completion is not an original source creation site";
      ensure (negb (negb (valid_range source range) || negb (range_contains class_range range)))
        "capture creation lies outside its class or has an invalid range"
  | CC_ClassAnnotationBodyCompletion marker =>
      ensure (negb (negb (completion_child parent child)
                    || negb (bool_decide (first_line_marker parent source = Some marker))
                    || negb (is_some_and (fun range =>
                               valid_range source range && (sr_start range <? sr_end range)
                               && range_contains class_range range) (cn_source_range child))))
        "invalid native class annotation body-completion marker"
  end.
Definition from_native_marker (source : string) (parent child : ClassBindingCodeNode)
    (marker : option SourceRange) : result string ClassBindingCaptureCreation :=
  let creation :=
    match marker with
    | None => CC_Unavailable
    | Some marker =>
        if bool_decide (cn_compile_scope child = CSK_Annotations)
           && bool_decide (cn_symbol_scope child = SSK_AnnotationBlock)
           && ((sr_start marker =? sr_end marker) || (cn_first_line child =? cn_first_line parent))
        then CC_ClassAnnotationBodyCompletion marker
        else CC_SourceRange marker
    end in
  do? validate_creation creation source parent child;
  Ok creation.

(** ** The class scope and its projection *)

Record ClassBindingInitializer : Type := mkInitializer {
  cbi_phase : ClassBindingPhase; cbi_slot : ClassBindingSlotId; cbi_value : ClassBindingInitialValue }.
Record ClassBindingCapture : Type := mkCapture {
  cbc_child : NativeCodeId; cbc_creation : ClassBindingCaptureCreation;
  cbc_freevar_ordinal : Z; cbc_source : ClassBindingSlotId }.
Record ClassBindingExport : Type := mkExport {
  cbe_kind : ClassBindingExportKind; cbe_source : ClassBindingSlotId }.
Record ClassBindingAccess : Type := mkAccess {
  cba_source_range : SourceRange; cba_context : ClassBindingAccessContext;
  cba_selection : ClassBindingAccessSelection; cba_source : ClassBindingSlotId }.
Record ClassBindingRecipe : Type := mkRecipe {
  cbr_class_code : NativeCodeId;
  cbr_initializers : list ClassBindingInitializer;
  cbr_captures : list ClassBindingCapture;
  cbr_exports : list ClassBindingExport;
  cbr_accesses : list ClassBindingAccess
}.
Record ClassBindingSlotBinding : Type := mkSlotBinding {
  csb_slot : ClassBindingSlotId; csb_binding : string }.
Record ClassBindingScope : Type := mkClassScope {
  cbs_source : SourceIdentity;
  cbs_node : ClassBindingCodeNode;
  cbs_recipe : ClassBindingRecipe;
  cbs_namespace_binding : string;
  cbs_slots : list ClassBindingSlotBinding
}.
Inductive CallableSourceRole : Type :=
| CSR_ModuleBody | CSR_SourceFunction | CSR_ClassNamespace | CSR_ClassConstruction
| CSR_AnnotationProvider | CSR_TypeParameterScope.
Record CallableSourceOrigin : Type := mkSourceOrigin {
  cso_definition : SourceIdentity; cso_role : CallableSourceRole }.
#[global] Instance CallableSourceRole_eq_dec : EqDecision CallableSourceRole.
Proof. solve_decision. Defined.
#[global] Instance NativeLocalsPlusKind_eq_dec : EqDecision NativeLocalsPlusKind.
Proof. solve_decision. Defined.
#[global] Instance NativeLocalsPlusSlot_eq_dec : EqDecision NativeLocalsPlusSlot.
Proof. solve_decision. Defined.
#[global] Instance ClassBindingCodeNode_eq_dec : EqDecision ClassBindingCodeNode.
Proof. solve_decision. Defined.
#[global] Instance ClassBindingExportKind_eq_dec : EqDecision ClassBindingExportKind.
Proof. solve_decision. Defined.
#[global] Instance ClassBindingAccessContext_eq_dec : EqDecision ClassBindingAccessContext.
Proof. solve_decision. Defined.
#[global] Instance ClassBindingAccessSelection_eq_dec : EqDecision ClassBindingAccessSelection.
Proof. solve_decision. Defined.
#[global] Instance ClassBindingInitialValue_eq_dec : EqDecision ClassBindingInitialValue.
Proof. solve_decision. Defined.
#[global] Instance ClassBindingCaptureCreation_eq_dec : EqDecision ClassBindingCaptureCreation.
Proof. solve_decision. Defined.
#[global] Instance ClassBindingInitializer_eq_dec : EqDecision ClassBindingInitializer.
Proof. solve_decision. Defined.
#[global] Instance ClassBindingCapture_eq_dec : EqDecision ClassBindingCapture.
Proof. solve_decision. Defined.
#[global] Instance ClassBindingExport_eq_dec : EqDecision ClassBindingExport.
Proof. solve_decision. Defined.
#[global] Instance ClassBindingAccess_eq_dec : EqDecision ClassBindingAccess.
Proof. solve_decision. Defined.
#[global] Instance ClassBindingRecipe_eq_dec : EqDecision ClassBindingRecipe.
Proof. solve_decision. Defined.
#[global] Instance ClassBindingSlotBinding_eq_dec : EqDecision ClassBindingSlotBinding.
Proof. solve_decision. Defined.
#[global] Instance ClassBindingScope_eq_dec : EqDecision ClassBindingScope.
Proof. solve_decision. Defined.
#[global] Instance CallableSourceOrigin_eq_dec : EqDecision CallableSourceOrigin.
Proof. solve_decision. Defined.

#[global] Program Instance NativeCodeId_ord : RustOrd NativeCodeId :=
  {| key := fun c => key (native_code c) |}.
Next Obligation. intros [a] [b]; cbn. by intros [= ->]. Qed.
#[global] Program Instance ClassBindingSlotId_ord : RustOrd ClassBindingSlotId :=
  {| key := fun s => KNode [key (csi_class_code s); key (csi_index s)] |}.
Next Obligation. intros [[a] i] [[b] j]; cbn. by intros [= -> ->]. Qed.

Definition is_current_cell_binding (scope : ClassBindingScope) (name : string) : bool :=
  match List.filter (fun row => bool_decide (csb_binding row = name)) (cbs_slots scope) with
  | [row] =>
      bool_decide (csi_class_code (csb_slot row) = cn_id (cbs_node scope))
      && is_some_and (fun slot => lpk_is_cell (lps_kind slot))
           (cn_slots (cbs_node scope) !! Z.to_nat (csi_index (csb_slot row)))
  | _ => false
  end.
Definition slot_binding (scope : ClassBindingScope) (slot : ClassBindingSlotId) : option string :=
  csb_binding <$> unique_match (List.filter (fun row => bool_decide (csb_slot row = slot)) (cbs_slots scope)).

Definition projection_slot (p : ClassBindingProjection) (slot : ClassBindingSlotId) :
    option ClassBindingSlotProjection :=
  unique_match (List.filter (fun row => bool_decide (csp_slot row = slot)) (cbp_slots p)).
Definition source_name_at (p : ClassBindingProjection) (source : ClassBindingScope)
    (l : StorageLayout) (location : LocalLocation) : option string :=
  if negb (bool_decide (cbp_class_code p = cn_id (cbs_node source)))
     || negb (bool_decide (cbp_class_code p = cbr_class_code (cbs_recipe source))) then None
  else
    row ← unique_match (List.filter (fun row =>
            bool_decide (csi_class_code (csp_slot row) = cbp_class_code p)
            && bool_decide (raw_local (csp_storage row) l = Some location)) (cbp_slots p));
    lps_name <$> cn_slots (cbs_node source) !! Z.to_nat (csi_index (csp_slot row)).
