(* ===== verification/Scope.v ===== *)
(** * Callable scopes and the storage layout they determine

    crates/soac_core/src/block_py/scope.rs (bindings of a callable, effective bindings,
    cell names), crates/soac_core/src/block_py/class_bindings.rs (the check of a class
    projection) and crates/soac_lowering/src/block_py/scope_impls.rs (the capture list of a
    function object and the closure part of its storage layout).

    A [HashMap] or [HashSet] is a [gmap] or [gset].  The operations that iterate one take the
    iteration order from an instance of [HashOrder], of which only the documented behaviour is
    known: every entry is visited once. *)

From stdpp Require Import gmap.
From S2P Require Import Prelude Order Collections Text Identity Ids Cfg Names Instr Layout.
From S2P Require Import ClassBindings.

Local Open Scope Z_scope.

(** ** Data *)

Inductive BindingTarget : Type := BT_Local | BT_ModuleGlobal | BT_ClassNamespace.
Inductive BindingKind : Type := BK_Local | BK_Global | BK_Cell (kind : CellBindingKind).
Inductive CallableScopeKind : Type := SK_Function | SK_Class | SK_Module.
Inductive ClassBodyFallback : Type := CF_Global | CF_Cell.
Inductive EffectiveBinding : Type :=
| EB_Local | EB_Global | EB_Cell (kind : CellBindingKind) | EB_ClassBody (fallback : ClassBodyFallback).
Inductive BindingPurpose : Type := BP_Load | BP_Store.
Inductive CellCaptureProjection : Type := CP_CellReference | CP_CellObject.
Record CellCaptureBinding : Type := mkCaptureBinding {
  ccb_logical_name : string; ccb_source_name : string; ccb_projection : CellCaptureProjection }.

Inductive AnnotationProviderKind : Type :=
| AP_Dictionary | AP_TypeAliasValue | AP_TypeParameterBound | AP_TypeParameterConstraints
| AP_TypeParameterDefault.
Definition parameter_name (k : AnnotationProviderKind) : string :=
  match k with
  | AP_Dictionary => "format"
  | AP_TypeAliasValue | AP_TypeParameterBound | AP_TypeParameterConstraints
  | AP_TypeParameterDefault => ".format"
  end.
Record AnnotationProviderScope : Type := mkAnnotationProvider {
  aps_kind : AnnotationProviderKind;
  aps_native_first_line : Z;
  aps_native_range : option SourceRange;
  aps_body_format_parameter : string;
  aps_class_dictionary : option string;
  aps_class_dictionary_binding : option string;
  aps_conditional_annotations : option string
}.
Inductive TypeParameterScopeInputKind : Type := TP_PositionalDefaults | TP_KeywordDefaults.
Definition native_parameter_name (k : TypeParameterScopeInputKind) : string :=
  match k with TP_PositionalDefaults => ".defaults" | TP_KeywordDefaults => ".kwdefaults" end.
Record TypeParameterScopeInput : Type := mkTypeParameterInput {
  tpi_kind : TypeParameterScopeInputKind; tpi_body_parameter : string }.
Record TypeParameterScope : Type := mkTypeParameterScope {
  tps_native_qualname : string;
  tps_native_range : SourceRange;
  tps_native_header_range : SourceRange;
  tps_native_first_line : Z;
  tps_inputs : list TypeParameterScopeInput;
  tps_class_dictionary : option string;
  tps_class_dictionary_binding : option string
}.
Inductive FunctionDefaultsProjection : Type := FD_FlatValues | FD_NativeContainers.
Record LexicalCellBinding : Type := mkLexicalCell { lcb_scope : SourceIdentity; lcb_name : string }.
Record LexicalCellCapture : Type := mkLexicalCapture {
  lcc_binding : LexicalCellBinding; lcc_nominal_binding_indices : list Z }.
Record LexicalCaptureProjection : Type := mkCaptureProjection {
  lcp_cell : LexicalCellCapture; lcp_native_closure : option string }.
Record PrivateLexicalScope : Type := mkPrivateScope {
  pls_creator : CallableSourceOrigin; pls_captures : list LexicalCaptureProjection }.
Record ClassConstructionScope : Type := mkConstructionScope {
  ccs_producer : CallableSourceOrigin;
  ccs_namespace_function : RuntimeFunctionId;
  ccs_captures : list LexicalCellCapture
}.
Record GeneratorExpressionCode : Type := mkGeneratorCode {
  gec_expression_range : SourceRange; gec_iterable_range : SourceRange }.
Record FunctionName : Type := mkFunctionName {
  fn_bind_name : string; fn_fn_name : string; fn_display_name : string; fn_qualname : string }.

#[global] Instance LexicalCellBinding_eq_dec : EqDecision LexicalCellBinding.
Proof. solve_decision. Defined.
#[global] Instance CellBindingKind_eq_dec : EqDecision CellBindingKind.
Proof. solve_decision. Defined.
#[global] Instance BindingKind_eq_dec : EqDecision BindingKind.
Proof. solve_decision. Defined.
#[global] Instance CallableScopeKind_eq_dec : EqDecision CallableScopeKind.
Proof. solve_decision. Defined.

Definition private_captures (s : PrivateLexicalScope) : list LexicalCellCapture :=
  map lcp_cell (List.filter (fun c => negb (is_some (lcp_native_closure c))) (pls_captures s)).
(** The conversion of the position to u32 panics when it does not fit: [None] inside. *)
Definition private_cell_index (s : PrivateLexicalScope) (binding : LexicalCellBinding) :
    option (option Z) :=
  index_u32 <$> (fst <$> list_find (fun c => lcc_binding c = binding) (private_captures s)).

Record CallableScopeInfo : Type := mkScope {
  class_bindings : option ClassBindingScope;
  source_origin : option CallableSourceOrigin;
  generator_expression_code : option GeneratorExpressionCode;
  annotation_provider : option AnnotationProviderScope;
  type_parameter_scope : option TypeParameterScope;
  class_construction : option ClassConstructionScope;
  private_lexical : option PrivateLexicalScope;
  creation_defaults : FunctionDefaultsProjection;
  names : FunctionName;
  scope_kind : CallableScopeKind;
  bindings : gmap string BindingKind;
  local_defs : gset string;
  cell_storage_names : gmap string string;
  cell_capture_source_names : gmap string string;
  cell_capture_projections : gmap string CellCaptureProjection;
  cell_value_aliases : gmap string string;
  owned_cell_source_names : gset string;
  scope_internal_names : gset string;
  type_param_names : gset string;
  effective_load_bindings : gmap string EffectiveBinding;
  effective_store_bindings : gmap string EffectiveBinding
}.

(** [CallableScopeInfo::default()] with the given kind, the way the producers start one. *)
Definition scope_default (kind : CallableScopeKind) : CallableScopeInfo :=
  mkScope None None None None None None None FD_FlatValues
    (mkFunctionName EmptyString EmptyString EmptyString EmptyString)
    kind ∅ ∅ ∅ ∅ ∅ ∅ ∅ ∅ ∅ ∅ ∅.

Definition native_class_dictionary_binding (s : CallableScopeInfo) : option string :=
  match annotation_provider s ≫= aps_class_dictionary_binding with
  | Some name => Some name
  | None => type_parameter_scope s ≫= tps_class_dictionary_binding
  end.

(** ** Effective bindings *)

Definition derive_effective_binding_for_name (name : string) (binding : BindingKind)
    (kind : CallableScopeKind) (type_params : gset string) (purpose : BindingPurpose)
    (honor_internal_name : bool) : EffectiveBinding :=
  if is_internal_symbol name && negb honor_internal_name then EB_Local
  else
    match purpose with
    | BP_Load =>
        match kind, binding with
        | SK_Class, BK_Cell _ => EB_ClassBody CF_Cell
        | SK_Class, BK_Local | SK_Class, BK_Global => EB_ClassBody CF_Global
        | _, BK_Global => EB_Global
        | _, BK_Cell c => EB_Cell c
        | _, BK_Local => EB_Local
        end
    | BP_Store =>
        if bool_decide (kind = SK_Class) && bool_decide (name ∈ type_params) then
          match binding with
          | BK_Local => EB_Local
          | BK_Global => EB_Global
          | BK_Cell c => EB_Cell c
          end
        else
          match kind, binding with
          | SK_Class, BK_Local => EB_ClassBody CF_Global
          | _, BK_Global => EB_Global
          | _, BK_Cell c => EB_Cell c
          | _, BK_Local => EB_Local
          end
    end.

Definition CELL_PREFIX : string := "_dp_cell_".
Definition cell_name (name : string) : string := (CELL_PREFIX ++ name)%string.

Definition honors_internal_binding (s : CallableScopeInfo) (name : string) : bool :=
  negb (is_internal_symbol name) || bool_decide (name ∈ scope_internal_names s).
Definition binding_kind (s : CallableScopeInfo) (name : string) : option BindingKind :=
  bindings s !! name.
Definition has_local_def (s : CallableScopeInfo) (name : string) : bool :=
  bool_decide (name ∈ local_defs s).
Definition effective_binding (s : CallableScopeInfo) (name : string) (purpose : BindingPurpose) :
    option EffectiveBinding :=
  match purpose with
  | BP_Load => effective_load_bindings s !! name
  | BP_Store => effective_store_bindings s !! name
  end.

Definition insert_some {V} (name : string) (value : option V) (m : gmap string V) : gmap string V :=
  match value with Some v => <[name := v]> m | None => m end.
Definition insert_binding_with_cell_names (s : CallableScopeInfo) (name : string)
    (binding : BindingKind) (honor_internal_name : bool)
    (storage_name capture_source_name : option string) : CallableScopeInfo :=
  let derive purpose :=
    derive_effective_binding_for_name name binding (scope_kind s) (type_param_names s) purpose
      honor_internal_name in
  mkScope (class_bindings s) (source_origin s) (generator_expression_code s)
    (annotation_provider s) (type_parameter_scope s) (class_construction s) (private_lexical s)
    (creation_defaults s) (names s) (scope_kind s)
    (<[name := binding]> (bindings s))
    (local_defs s)
    (insert_some name storage_name (cell_storage_names s))
    (insert_some name capture_source_name (cell_capture_source_names s))
    (cell_capture_projections s) (cell_value_aliases s) (owned_cell_source_names s)
    (if honor_internal_name then {[name]} ∪ scope_internal_names s else scope_internal_names s)
    (type_param_names s)
    (<[name := derive BP_Load]> (effective_load_bindings s))
    (<[name := derive BP_Store]> (effective_store_bindings s)).
Definition insert_binding (s : CallableScopeInfo) (name : string) (binding : BindingKind)
    (honor_internal_name : bool) (storage_name : option string) : CallableScopeInfo :=
  insert_binding_with_cell_names s name binding honor_internal_name storage_name storage_name.

Definition resolved_load_binding_kind (s : CallableScopeInfo) (name : string) : BindingKind :=
  let fallback := if is_internal_symbol name then BK_Local else BK_Global in
  match binding_kind s name with
  | Some binding => if honors_internal_binding s name then binding else fallback
  | None => fallback
  end.
Definition is_cell_binding (s : CallableScopeInfo) (name : string) : bool :=
  match binding_kind s name with Some (BK_Cell _) => true | _ => false end.
Definition cell_storage_name (s : CallableScopeInfo) (name : string) : string :=
  default (cell_name name) (cell_storage_names s !! name).
Definition cell_capture_source_name (s : CallableScopeInfo) (name : string) : string :=
  default (cell_name name) (cell_capture_source_names s !! name).
Definition cell_capture_projection (s : CallableScopeInfo) (name : string) : CellCaptureProjection :=
  default CP_CellReference (cell_capture_projections s !! name).
Definition cell_ref_source_name (s : CallableScopeInfo) (name : string) : string :=
  if is_cell_binding s name then cell_storage_name s name else cell_capture_source_name s name.
Definition effective_target (b : EffectiveBinding) : BindingTarget :=
  match b with
  | EB_Global => BT_ModuleGlobal
  | EB_ClassBody _ => BT_ClassNamespace
  | EB_Local | EB_Cell _ => BT_Local
  end.
Definition binding_target_for_name (s : CallableScopeInfo) (name : string)
    (purpose : BindingPurpose) : BindingTarget :=
  match effective_binding s name purpose with
  | Some binding =>
      if honors_internal_binding s name then effective_target binding
      else if is_internal_symbol name then BT_Local
      else effective_target binding
  | None => BT_Local
  end.

(** ** Iteration over the hash tables *)

Class HashOrder : Type := {
  hash_entries : forall {V}, gmap string V -> list (string * V);
  hash_elements : gset string -> list string
}.
Class HashOrderLaws (order : HashOrder) : Prop := {
  hash_entries_perm : forall V (m : gmap string V), hash_entries m ≡ₚ map_to_list m;
  hash_elements_perm : forall s, hash_elements s ≡ₚ elements s
}.

Definition owned_cell_storage_names (s : CallableScopeInfo) : gset string :=
  list_to_set (omap (fun entry : string * BindingKind =>
    match entry.2 with BK_Cell CB_Owner => Some (cell_storage_name s entry.1) | _ => None end)
    (map_to_list (bindings s))) ∪ owned_cell_source_names s.
Definition local_cell_storage_names (s : CallableScopeInfo) : gset string :=
  match scope_kind s with SK_Function => owned_cell_storage_names s | _ => ∅ end.

Section iteration.
Context {order : HashOrder}.

Definition find_key {V} (p : V -> bool) (m : gmap string V) : option string :=
  fst <$> find_first (fun entry => p entry.2) (hash_entries m).

Definition logical_name_for_cell_storage (s : CallableScopeInfo) (storage_name : string) :
    option string :=
  if bool_decide (storage_name ∈ owned_cell_source_names s) then Some storage_name
  else
    match strip_prefix CELL_PREFIX storage_name with
    | Some logical_name => Some logical_name
    | None => find_key (fun current => bool_decide (current = storage_name)) (cell_storage_names s)
    end.
Definition logical_name_for_cell_capture_source (s : CallableScopeInfo) (storage_name : string) :
    option string :=
  match find_key (fun current => bool_decide (current = storage_name)) (cell_capture_source_names s) with
  | Some logical_name => Some logical_name
  | None => logical_name_for_cell_storage s storage_name
  end.
Definition captured_cell_logical_names (s : CallableScopeInfo) : list string :=
  sort (omap (fun entry : string * BindingKind =>
    match entry.2 with BK_Cell CB_Capture => Some entry.1 | _ => None end) (hash_entries (bindings s))).
Definition capture_binding (s : CallableScopeInfo) (logical_name : string) : CellCaptureBinding :=
  mkCaptureBinding logical_name (cell_capture_source_name s logical_name)
    (cell_capture_projection s logical_name).
Definition captured_cell_bindings (s : CallableScopeInfo) : list CellCaptureBinding :=
  map (capture_binding s) (captured_cell_logical_names s).

(** ** The captures of a function object and the closure slots

    [cell_refs] is the set of logical names the body takes cell references to, which the
    collector gathers from the instructions. *)

Definition normalize_capture_name (s : CallableScopeInfo) (name : string) : string :=
  match logical_name_for_cell_capture_source s name with
  | Some logical_name => logical_name
  | None => default name (logical_name_for_cell_storage s name)
  end.
Definition captures_cell_ref (s : CallableScopeInfo) (param_names : list string)
    (logical_name : string) : bool :=
  let owned := owned_cell_storage_names s in
  let source_name := cell_capture_source_name s logical_name in
  negb (bool_decide (logical_name ∈ param_names))
  && negb (bool_decide ("_dp_classcell" ∈ owned)
           && (bool_decide (logical_name = "__class__") || bool_decide (source_name = "_dp_classcell")))
  && negb (bool_decide (source_name ∈ owned)).
Definition capture_key (b : CellCaptureBinding) : Key :=
  KNode [key (ccb_logical_name b); key (ccb_source_name b)].
(** [Vec::dedup_by] keeps the first of a run. *)
Fixpoint dedup_logical (l : list CellCaptureBinding) : list CellCaptureBinding :=
  match l with
  | [] => []
  | x :: l' =>
      match dedup_logical l' with
      | y :: rest =>
          if bool_decide (ccb_logical_name y = ccb_logical_name x) then x :: rest else x :: y :: rest
      | [] => [x]
      end
  end.
Definition compute_make_function_capture_bindings_from_scope (s : CallableScopeInfo)
    (param_names : list string) (cell_refs : gset string) : list CellCaptureBinding :=
  let declared :=
    map (fun binding => capture_binding s (normalize_capture_name s (ccb_logical_name binding)))
      (captured_cell_bindings s) in
  let referenced :=
    map (capture_binding s)
      (List.filter (captures_cell_ref s param_names)
        (map (normalize_capture_name s) (hash_elements cell_refs))) in
  dedup_logical (sort_by capture_key (declared ++ referenced)).

Definition cellvar_init (s : CallableScopeInfo) (param_names : list string)
    (storage_name logical_name : string) : ClosureInit :=
  if is_some_and (fun class => is_current_cell_binding class storage_name) (class_bindings s)
  then CI_Deferred
  else if bool_decide (logical_name ∈ param_names) then CI_Parameter
  else CI_EmptyCell.
Definition build_storage_layout_from_capture_names (s : CallableScopeInfo)
    (capture_names : list string) (param_names : list string) (local_cell_slots : list string) :
    option StorageLayout :=
  let capture_names := dedup (sort capture_names) in
  match capture_names, local_cell_slots with
  | [], [] => None
  | _, _ =>
      Some (mkStorageLayout None [] None
        (map (fun name => mkClosureSlot name (cell_storage_name s name) CI_InheritedCapture)
           capture_names)
        (map (fun storage_name =>
           let logical_name := default storage_name (logical_name_for_cell_storage s storage_name) in
           mkClosureSlot logical_name storage_name
             (cellvar_init s param_names storage_name logical_name)) local_cell_slots)
        [] [] [])
  end.
Definition compute_storage_layout_from_scope (s : CallableScopeInfo)
    (param_names body_param_names : list string) (cell_refs : gset string) : option StorageLayout :=
  let local_cell_slots := sort (hash_elements (owned_cell_storage_names s)) in
  let capture_names :=
    map ccb_logical_name (compute_make_function_capture_bindings_from_scope s param_names cell_refs) in
  build_storage_layout_from_capture_names s capture_names body_param_names local_cell_slots.
End iteration.

(** ** The check of a class projection *)

Definition cell_index (storage : ClassBindingStorage) : option Z :=
  match storage with CBS_Cell (CL_Owned index) => Some index | _ => None end.
Definition deferred_cell (declared : string) (callable : CallableScopeInfo) (l : StorageLayout)
    (cell : ClosureSlot) : bool :=
  bool_decide (declared ∈ owned_cell_source_names callable)
  && (length (List.filter (fun row => bool_decide (cs_storage_name row = declared)) (sl_cellvars l))
      =? 1)%nat
  && bool_decide (cs_storage_name cell = declared)
  && bool_decide (cs_logical_name cell = declared)
  && bool_decide (cs_init cell = CI_Deferred).
(** One iteration of the loop: the used locations and binding names are threaded. *)
Definition validate_projection_row (p : ClassBindingProjection) (source : ClassBindingScope)
    (l : StorageLayout) (callable : CallableScopeInfo)
    (used : list LocalLocation * list string)
    (row : ClassBindingSlotProjection * ClassBindingSlotBinding) :
    result string (list LocalLocation * list string) :=
  let '(used_locations, binding_names) := used in
  let '(actual, declared) := row in
  do? ensure (bool_decide (csp_slot actual = csb_slot declared)
              && bool_decide (csi_class_code (csp_slot actual) = cbp_class_code p)
              && negb (bool_decide (csb_binding declared ∈ binding_names)))
    "class cell projection is ambiguous or reordered";
  let? native := ok_or "class cell projection refers to absent lexical storage"
    (cn_slots (cbs_node source) !! Z.to_nat (csi_index (csp_slot actual))) in
  let? index := ok_or "class cell requires its actual owned carrier"
    (cell_index (csp_storage actual)) in
  do? ensure (lpk_is_cell (lps_kind native))
    "class binding selected a native iteration local instead of a cell";
  let? local := ok_or "class cell lacks one owned raw local carrier"
    (raw_local (csp_storage actual) l) in
  do? ensure (negb (bool_decide (local ∈ used_locations))
              && negb (is_expression_temporary l (OL_Local local))
              && bool_decide (sl_stack_slots l !! Z.to_nat (local_slot local)
                              = Some (csb_binding declared)))
    "class cell owner overlaps another owner or operand temporary";
  (* [raw_local] found the cell, so the index is in range *)
  let? cell := ok_or "class cell lacks one owned raw local carrier"
    (sl_cellvars l !! Z.to_nat index) in
  do? ensure (deferred_cell (csb_binding declared) callable l cell)
    "class cell does not use its explicit non-allocating owned-cell source";
  Ok (local :: used_locations, csb_binding declared :: binding_names).

Definition required_slots (source : ClassBindingScope) : list ClassBindingSlotId :=
  bset_of_list (map cbi_slot
    (List.filter (fun init => bool_decide (cbi_phase init = CBP_ClassEntry))
      (cbr_initializers (cbs_recipe source)))).
Definition validate_projection (p : ClassBindingProjection) (source : ClassBindingScope)
    (l : StorageLayout) (callable : CallableScopeInfo) : result string unit :=
  do? ensure (bool_decide (cbp_class_code p = cn_id (cbs_node source))
              && bool_decide (cbp_class_code p = cbr_class_code (cbs_recipe source))
              && bool_decide (si_definition_kind (cbs_source source) = DK_Class)
              && bool_decide (cn_compile_scope (cbs_node source) = CSK_Class)
              && bool_decide (cn_symbol_scope (cbs_node source) = SSK_ClassBlock)
              && bool_decide (class_bindings callable = Some source))
    "class binding projection changed its original class identity";
  let? native_range := ok_or "class binding source range is absent"
    (cn_source_range (cbs_node source)) in
  do? ensure (negb (sr_start native_range <? sr_start (si_source_range (cbs_source source)))
              && (sr_end native_range =? sr_end (si_source_range (cbs_source source)))
              && (sr_start native_range <? sr_end native_range))
    "class binding node lies outside its original declaration";
  let? origin := ok_or "class binding projection requires its producer origin"
    (source_origin callable) in
  do? ensure (bool_decide (cso_role origin = CSR_ClassNamespace)
              && bool_decide (cso_definition origin = cbs_source source))
    "class binding projection differs from its executable class producer";
  do? ensure (bool_decide (sl_stack_slots l !! Z.to_nat (local_slot (cbp_namespace p))
                           = Some (cbs_namespace_binding source))
              && negb (is_expression_temporary l (OL_Local (cbp_namespace p))))
    "class namespace projection does not select its actual mapping owner";
  let required := required_slots source in
  do? ensure ((length (cbp_slots p) =? length (cbs_slots source))%nat
              && (length (cbp_slots p) =? length required)%nat
              && bool_decide (map csb_slot (cbs_slots source) = required))
    "class binding projection changed its selected lexical cells";
  let? _ := for_fold (validate_projection_row p source l callable)
              ([cbp_namespace p], [cbs_namespace_binding source])
              (zip (cbp_slots p) (cbs_slots source)) in
  Ok tt.
