(* ===== verification/ScopeProps.v ===== *)
(** * Scopes: resolution, determinism, and the owners of a class projection *)

From stdpp Require Import gmap.
From S2P Require Import Prelude Order Collections Text Identity Ids Cfg Names Instr Layout.
From S2P Require Import ClassBindings Scope.

Local Open Scope Z_scope.

(** ** Bindings inserted one after another *)

Record Insertion : Type := mkInsertion {
  ins_name : string; ins_binding : BindingKind; ins_honor : bool; ins_storage : option string }.
Definition insert_all (s : CallableScopeInfo) (l : list Insertion) : CallableScopeInfo :=
  fold_left (fun s i => insert_binding s (ins_name i) (ins_binding i) (ins_honor i) (ins_storage i)) l s.

(** Whether a name was inserted as an honoured internal one does not change. *)
Definition stable_honor (l : list Insertion) : Prop :=
  Forall (fun i => Forall (fun j => ins_name j = ins_name i -> ins_honor j = ins_honor i) l) l.

(** The derived tables agree with the bindings, and the honoured names with [honor]. *)
Record coherent (honor : string -> bool) (s : CallableScopeInfo) : Prop := {
  coherent_effective : forall name purpose,
    effective_binding s name purpose =
    (fun b => derive_effective_binding_for_name name b (scope_kind s) (type_param_names s) purpose
                (honor name)) <$> bindings s !! name;
  coherent_internal : forall name b,
    bindings s !! name = Some b -> bool_decide (name ∈ scope_internal_names s) = honor name
}.

Lemma coherent_default honor kind : coherent honor (scope_default kind).
Proof.
  split.
  - intros name []; cbn; by rewrite !lookup_empty.
  - intros name b. cbn. by rewrite lookup_empty.
Qed.

Lemma coherent_insert honor s name b storage :
  (name ∈ scope_internal_names s -> honor name = true) ->
  coherent honor s -> coherent honor (insert_binding s name b (honor name) storage).
Proof.
  intros Hname [He Hi]. split.
  - intros n purpose. specialize (He n purpose). unfold effective_binding, insert_binding in *.
    destruct purpose; cbn in *;
      (destruct (decide (n = name)) as [->|Hne];
       [by rewrite !lookup_insert_eq | by rewrite !lookup_insert_ne]).
  - intros n b' Hb. unfold insert_binding in *. cbn in *.
    destruct (decide (n = name)) as [->|Hne].
    + destruct (honor name) eqn:E; [apply bool_decide_eq_true; set_solver|].
      apply bool_decide_eq_false. intros Hin. by specialize (Hname Hin).
    + rewrite lookup_insert_ne in Hb by done. rewrite <- (Hi n b' Hb).
      destruct (honor name); [|done]. apply bool_decide_ext. set_solver.
Qed.

Lemma insert_all_coherent honor l s :
  (forall i, i ∈ l -> ins_honor i = honor (ins_name i)) ->
  (forall name, name ∈ scope_internal_names s -> honor name = true) ->
  coherent honor s -> coherent honor (insert_all s l).
Proof.
  revert s. induction l as [|i l IH]; intros s Hl Hs Hc; [done|].
  unfold insert_all. cbn. apply IH.
  - intros j Hj. apply Hl. set_solver.
  - intros name. cbn. rewrite (Hl i ltac:(set_solver)).
    destruct (honor (ins_name i)) eqn:E; [|apply Hs]. set_solver.
  - rewrite (Hl i ltac:(set_solver)). apply coherent_insert; [apply Hs|done].
Qed.

Lemma insert_all_kind l s :
  scope_kind (insert_all s l) = scope_kind s /\ type_param_names (insert_all s l) = type_param_names s.
Proof.
  revert s. induction l as [|i l IH]; intros s; [done|].
  exact (IH (insert_binding s (ins_name i) (ins_binding i) (ins_honor i) (ins_storage i))).
Qed.

(** The honour flag a list of insertions gives a name. *)
Definition honor_of (l : list Insertion) (name : string) : bool :=
  existsb (fun i => bool_decide (ins_name i = name) && ins_honor i) l.

Lemma honor_of_stable l i : stable_honor l -> i ∈ l -> ins_honor i = honor_of l (ins_name i).
Proof.
  intros Hl Hi. unfold stable_honor in Hl. rewrite Forall_forall in Hl. specialize (Hl i Hi).
  rewrite Forall_forall in Hl. unfold honor_of. destruct (ins_honor i) eqn:E.
  - symmetry. apply existsb_elem. exists i. split; [done|]. by rewrite bool_decide_true, E.
  - symmetry. apply existsb_false_elem. intros j Hj. apply andb_false_iff.
    destruct (decide (ins_name j = ins_name i)) as [Hn|Hn].
    + right. by rewrite (Hl j Hj Hn).
    + left. by apply bool_decide_eq_false.
Qed.

(** The target that [resolved_load_binding_kind] implies for a bound name. *)
Definition target_of_kind (kind : CallableScopeKind) (honored : bool) (b : BindingKind) : BindingTarget :=
  if honored then
    match kind, b with
    | SK_Class, _ => BT_ClassNamespace
    | _, BK_Global => BT_ModuleGlobal
    | _, _ => BT_Local
    end
  else BT_Local.

Lemma coherent_resolves honor s name b :
  coherent honor s -> bindings s !! name = Some b ->
  binding_target_for_name s name BP_Load
    = target_of_kind (scope_kind s) (honors_internal_binding s name) (resolved_load_binding_kind s name).
Proof.
  intros [He Hi] Hb. unfold binding_target_for_name, resolved_load_binding_kind, binding_kind.
  rewrite He, Hb. cbn. unfold honors_internal_binding. rewrite (Hi _ _ Hb).
  unfold derive_effective_binding_for_name.
  destruct (is_internal_symbol name), (honor name), (scope_kind s), b as [| |[]]; done.
Qed.

(** Insert any bindings into a fresh scope, an internal name being honoured by all of its
    insertions or by none.  Then for every bound name the two resolvers agree: a load of the
    name goes to the class namespace, the module globals or a local exactly as the binding kind
    [resolved_load_binding_kind] gives says, and a name that is internal and not honoured is a
    local in both. *)
Theorem scope_bindings_resolve kind l name b :
  stable_honor l ->
  bindings (insert_all (scope_default kind) l) !! name = Some b ->
  let s := insert_all (scope_default kind) l in
  binding_target_for_name s name BP_Load
    = target_of_kind kind (honors_internal_binding s name) (resolved_load_binding_kind s name)
  /\ (honors_internal_binding s name = false -> resolved_load_binding_kind s name = BK_Local).
Proof.
  intros Hl Hb s. split.
  - rewrite (coherent_resolves (honor_of l) s name b); [|apply insert_all_coherent|done].
    + subst s. by rewrite (proj1 (insert_all_kind l (scope_default kind))).
    + intros i Hi. by apply honor_of_stable.
    + cbn. set_solver.
    + apply coherent_default.
  - unfold resolved_load_binding_kind, honors_internal_binding. intros Hh.
    destruct (binding_kind s name); rewrite ?Hh; by destruct (is_internal_symbol name).
Qed.

Lemma scope_bindings_resolve_witness :
  let s := insert_all (scope_default SK_Function)
             [mkInsertion "_dp_x" (BK_Cell CB_Owner) true None; mkInsertion "y" BK_Global false None] in
  binding_target_for_name s "y" BP_Load
    = target_of_kind SK_Function (honors_internal_binding s "y") (resolved_load_binding_kind s "y")
  /\ (honors_internal_binding s "y" = false -> resolved_load_binding_kind s "y" = BK_Local).
Proof.
  apply (scope_bindings_resolve SK_Function _ "y" BK_Global).
  - by repeat constructor.
  - vm_compute. reflexivity.
Defined.

(** ** Independence of the hash order *)

Lemma filter_perm {A} (p : A -> bool) l l' : l ≡ₚ l' -> List.filter p l ≡ₚ List.filter p l'.
Proof.
  induction 1 as [|x l l' _ IH|x y l|l l' l'' _ IH1 _ IH2]; cbn; [done|..].
  - by destruct (p x); rewrite IH.
  - destruct (p x), (p y); done || apply perm_swap.
  - by rewrite IH1.
Qed.

Section order.
Context {order : HashOrder} {laws : HashOrderLaws order}.

Lemma find_key_some {V} (p : V -> bool) m k :
  find_key p m = Some k -> exists v, m !! k = Some v /\ p v = true.
Proof.
  unfold find_key. destruct (find_first _ _) as [[k' v]|] eqn:E; [|done]. intros [= <-].
  apply find_first_some in E as [Hin Hp]. exists v. split; [|done].
  apply elem_of_map_to_list. by rewrite hash_entries_perm in Hin.
Qed.

Lemma find_key_none {V} (p : V -> bool) m :
  find_key p m = None <-> forall k v, m !! k = Some v -> p v = false.
Proof.
  unfold find_key. destruct (find_first _ _) as [[k v]|] eqn:E; cbn.
  - split; [done|]. intros H. apply find_first_some in E as [Hin Hp].
    rewrite hash_entries_perm in Hin. apply elem_of_map_to_list in Hin.
    apply H in Hin. cbn in Hp. congruence.
  - split; [|done]. intros _ k v Hk. apply elem_of_map_to_list in Hk.
    rewrite <- hash_entries_perm in Hk. by apply (proj1 (find_first_none _ _) E) in Hk.
Qed.
End order.

(** No two logical names have the same entry. *)
Definition injective_names (m : gmap string string) : Prop :=
  forall k k' v, m !! k = Some v -> m !! k' = Some v -> k = k'.

Lemma capture_binding_fixed {A} s (f : A -> string) l l' b :
  b ∈ map (fun x => capture_binding s (f x)) l ++ map (capture_binding s) l' ->
  b = capture_binding s (ccb_logical_name b).
Proof. rewrite elem_of_app, !list_elem_of_fmap. by intros [(? & -> & _)|(? & -> & _)]. Qed.

Section two_orders.
Context {o1 o2 : HashOrder} {l1 : HashOrderLaws o1} {l2 : HashOrderLaws o2}.

Lemma find_key_order m name :
  injective_names m ->
  @find_key o1 _ (fun v => bool_decide (v = name)) m = @find_key o2 _ (fun v => bool_decide (v = name)) m.
Proof.
  intros Hm. destruct (@find_key o1 _ _ _) as [k|] eqn:E1, (@find_key o2 _ _ _) as [k'|] eqn:E2; try done.
  - apply find_key_some in E1 as (v & Hk & Hv), E2 as (v' & Hk' & Hv'). bool_inv. subst.
    f_equal. by eapply Hm.
  - apply find_key_some in E1 as (v & Hk & Hv). eapply find_key_none in E2; [|done]. congruence.
  - apply find_key_some in E2 as (v & Hk & Hv). eapply find_key_none in E1; [|done]. congruence.
Qed.

Lemma logical_storage_order s name :
  injective_names (cell_storage_names s) ->
  @logical_name_for_cell_storage o1 s name = @logical_name_for_cell_storage o2 s name.
Proof. intros H. unfold logical_name_for_cell_storage. by rewrite (find_key_order _ _ H). Qed.

Lemma normalize_order s name :
  injective_names (cell_storage_names s) -> injective_names (cell_capture_source_names s) ->
  @normalize_capture_name o1 s name = @normalize_capture_name o2 s name.
Proof.
  intros H1 H2. unfold normalize_capture_name, logical_name_for_cell_capture_source.
  by rewrite (find_key_order _ _ H2), (logical_storage_order _ _ H1).
Qed.

Lemma captured_names_order s :
  @captured_cell_logical_names o1 s = @captured_cell_logical_names o2 s.
Proof. apply sort_perm_eq. by rewrite !hash_entries_perm. Qed.

Lemma capture_bindings_order s params refs :
  injective_names (cell_storage_names s) -> injective_names (cell_capture_source_names s) ->
  @compute_make_function_capture_bindings_from_scope o1 s params refs
  = @compute_make_function_capture_bindings_from_scope o2 s params refs.
Proof.
  intros H1 H2. unfold compute_make_function_capture_bindings_from_scope, captured_cell_bindings.
  rewrite captured_names_order. f_equal. apply sort_by_perm_eq.
  - intros x y Hx%capture_binding_fixed Hy%capture_binding_fixed E.
    rewrite Hx, Hy. f_equal. apply (inj key). unfold capture_key in E. congruence.
  - f_equiv.
    + erewrite map_ext; [done|]. intros b. by rewrite (normalize_order _ _ H1 H2).
    + apply Permutation_map. rewrite !(map_ext _ _ (fun n => normalize_order s n H1 H2)).
      apply filter_perm. by rewrite !hash_elements_perm.
Qed.
End two_orders.

(** The closure layout of a function is a function of its scope: when no two logical names
    share a cell storage name or a capture source name, the layout (and the capture list it is
    computed from) is the same whatever order the hash tables of the scope are iterated in. *)
Theorem storage_layout_deterministic (o1 o2 : HashOrder) s params body_params refs :
  HashOrderLaws o1 -> HashOrderLaws o2 ->
  injective_names (cell_storage_names s) -> injective_names (cell_capture_source_names s) ->
  @compute_make_function_capture_bindings_from_scope o1 s params refs
    = @compute_make_function_capture_bindings_from_scope o2 s params refs
  /\ @compute_storage_layout_from_scope o1 s params body_params refs
    = @compute_storage_layout_from_scope o2 s params body_params refs.
Proof.
  intros L1 L2 H1 H2. pose proof (@capture_bindings_order o1 o2 L1 L2 s params refs H1 H2) as Hc. split; [done|].
  unfold compute_storage_layout_from_scope, build_storage_layout_from_capture_names.
  rewrite Hc, (sort_perm_eq (@hash_elements o1 _) (@hash_elements o2 (owned_cell_storage_names s)))
    by (by rewrite !hash_elements_perm).
  rewrite !(map_ext _ _ (fun n => f_equal (fun o =>
    mkClosureSlot (default n o) n (cellvar_init s body_params n (default n o)))
    (@logical_storage_order o1 o2 L1 L2 s n H1))). done.
Qed.

(** Two concrete iteration orders, and a scope with two owned cells and a capture. *)
Module OrderDemo.
Definition forward : HashOrder := {| hash_entries := fun V => map_to_list; hash_elements := elements |}.
Definition backward : HashOrder :=
  {| hash_entries := fun V m => rev (map_to_list m); hash_elements := fun s => rev (elements s) |}.
#[global] Instance forward_laws : HashOrderLaws forward.
Proof. by split. Qed.
#[global] Instance backward_laws : HashOrderLaws backward.
Proof. split; cbn; intros; by rewrite <- Permutation_rev. Qed.

Definition scope : CallableScopeInfo :=
  insert_all (scope_default SK_Function)
    [mkInsertion "a" (BK_Cell CB_Owner) false (Some "slot_a"); mkInsertion "b" (BK_Cell CB_Owner) false None;
     mkInsertion "c" (BK_Cell CB_Capture) false (Some "slot_c")].
(** Two logical names over one storage name. *)
Definition shared_scope : CallableScopeInfo :=
  insert_all (scope_default SK_Function)
    [mkInsertion "a" (BK_Cell CB_Owner) false (Some "slot"); mkInsertion "b" (BK_Cell CB_Owner) false (Some "slot")].
End OrderDemo.

Lemma injective_names_check m :
  forallb (fun e : string * string => forallb (fun e' : string * string =>
    negb (bool_decide (e.2 = e'.2)) || bool_decide (e.1 = e'.1)) (map_to_list m)) (map_to_list m) = true ->
  injective_names m.
Proof.
  intros H k k' v Hk%elem_of_map_to_list Hk'%elem_of_map_to_list.
  rewrite forallb_elem in H. apply H in Hk. rewrite forallb_elem in Hk. apply Hk in Hk'. cbn in Hk'.
  apply orb_true_iff in Hk' as [?|?]; bool_inv; done.
Qed.

Lemma storage_layout_deterministic_witness :
  @compute_make_function_capture_bindings_from_scope OrderDemo.forward OrderDemo.scope [] {["a"; "d"]}
    = @compute_make_function_capture_bindings_from_scope OrderDemo.backward OrderDemo.scope [] {["a"; "d"]}
  /\ @compute_storage_layout_from_scope OrderDemo.forward OrderDemo.scope [] [] {["a"; "d"]}
    = @compute_storage_layout_from_scope OrderDemo.backward OrderDemo.scope [] [] {["a"; "d"]}.
Proof.
  apply (storage_layout_deterministic OrderDemo.forward OrderDemo.backward).
  - apply OrderDemo.forward_laws.
  - apply OrderDemo.backward_laws.
  - apply injective_names_check. vm_compute. reflexivity.
  - apply injective_names_check. vm_compute. reflexivity.
Defined.

(** The hypothesis is needed: over one storage name the logical name of the slot is whichever
    entry the table yields first. *)
Lemma shared_storage_order_dependent :
  @compute_storage_layout_from_scope OrderDemo.forward OrderDemo.shared_scope [] ["a"] ∅
  <> @compute_storage_layout_from_scope OrderDemo.backward OrderDemo.shared_scope [] ["a"] ∅.
Proof. vm_compute. intros H. discriminate H. Qed.

(** ** Validated class projections *)

(** What one accepted row gives: its slot, its native cell and its raw local owner. *)
Record row_owner (p : ClassBindingProjection) (source : ClassBindingScope) (l : StorageLayout)
    (row : ClassBindingSlotProjection * ClassBindingSlotBinding) (local : LocalLocation) : Prop := {
  ro_slot : csp_slot row.1 = csb_slot row.2;
  ro_class : csi_class_code (csp_slot row.1) = cbp_class_code p;
  ro_native : exists native,
    cn_slots (cbs_node source) !! Z.to_nat (csi_index (csp_slot row.1)) = Some native
    /\ lpk_is_cell (lps_kind native) = true;
  ro_local : raw_local (csp_storage row.1) l = Some local;
  ro_temporary : is_expression_temporary l (OL_Local local) = false
}.

Lemma ok_or_ok {E A} (e : E) (o : option A) a : ok_or e o = Ok a -> o = Some a.
Proof. destruct o; cbn; congruence. Qed.

Lemma validate_row_inv p source l callable used names row st :
  validate_projection_row p source l callable (used, names) row = Ok st ->
  exists local, row_owner p source l row local /\ local ∉ used
    /\ st = (local :: used, csb_binding row.2 :: names).
Proof.
  destruct row as [actual declared]. unfold validate_projection_row. intros H. ok_inv.
  repeat match goal with E : ok_or _ _ = Ok _ |- _ => apply ok_or_ok in E end. bool_inv.
  eexists. split; [split; cbn; eauto|]. by split.
Qed.

Lemma validate_rows_inv p source l callable rows used names st :
  for_fold (validate_projection_row p source l callable) (used, names) rows = Ok st ->
  exists locals, Forall2 (row_owner p source l) rows locals /\ NoDup locals
    /\ forall local, local ∈ locals -> local ∉ used.
Proof.
  revert used names. induction rows as [|row rows IH]; intros used names H; cbn in H.
  - exists []. split_and!; [constructor|constructor|]. by intros ? ?%not_elem_of_nil.
  - ok_inv. apply validate_row_inv in E as (local & Hrow & Hnew & ->).
    apply IH in H as (locals & Hrows & Hnd & Hdis). exists (local :: locals). split_and!.
    + by constructor.
    + constructor; [|done]. intros Hin%Hdis. set_solver.
    + intros x [->|Hx]%elem_of_cons; [done|]. apply Hdis in Hx. set_solver.
Qed.

Lemma filter_unique {A} (q : A -> bool) l x :
  x ∈ l -> q x = true -> NoDup l -> (forall y, y ∈ l -> q y = true -> y = x) -> List.filter q l = [x].
Proof.
  intros Hx Hq Hnd Hu. induction Hnd as [|y l Hy _ IH]; [by apply not_elem_of_nil in Hx|]. cbn.
  apply elem_of_cons in Hx as [<-|Hx].
  - rewrite Hq. f_equal. clear IH. induction l as [|z l IH]; [done|]. cbn.
    destruct (q z) eqn:E; [exfalso; apply Hy; rewrite (Hu z ltac:(set_solver) E); set_solver|].
    apply IH; set_solver.
  - destruct (q y) eqn:E; [exfalso; rewrite (Hu y ltac:(set_solver) E) in Hy; done|].
    apply IH; [done|]. intros z Hz. apply Hu. set_solver.
Qed.

(** The owner of a projected slot, without its declared binding. *)
Record slot_owner (p : ClassBindingProjection) (source : ClassBindingScope) (l : StorageLayout)
    (row : ClassBindingSlotProjection) (local : LocalLocation) : Prop := {
  so_class : csi_class_code (csp_slot row) = cbp_class_code p;
  so_native : exists native,
    cn_slots (cbs_node source) !! Z.to_nat (csi_index (csp_slot row)) = Some native
    /\ lpk_is_cell (lps_kind native) = true;
  so_local : raw_local (csp_storage row) l = Some local;
  so_temporary : is_expression_temporary l (OL_Local local) = false
}.

Lemma zip_rows p source l slots declared locals :
  length slots = length declared -> Forall2 (row_owner p source l) (zip slots declared) locals ->
  map csp_slot slots = map csb_slot declared /\ Forall2 (slot_owner p source l) slots locals.
Proof.
  revert declared locals. induction slots as [|a slots IH]; intros [|d declared] locals Hlen H; try done.
  - inversion H; subst. split; [done|constructor].
  - inversion H as [|? local ? locals' Hrow Hrows]; subst.
    apply IH in Hrows as [E Hrows]; [|cbn in Hlen; lia]. destruct Hrow; cbn in *. split.
    + by f_equal.
    + constructor; [|done]. by split.
Qed.

Lemma validate_projection_inv p source l callable :
  validate_projection p source l callable = Ok tt ->
  cbp_class_code p = cn_id (cbs_node source) /\ cbp_class_code p = cbr_class_code (cbs_recipe source)
  /\ is_expression_temporary l (OL_Local (cbp_namespace p)) = false
  /\ map csp_slot (cbp_slots p) = required_slots source
  /\ exists locals, Forall2 (slot_owner p source l) (cbp_slots p) locals
       /\ NoDup (cbp_namespace p :: locals).
Proof.
  unfold validate_projection. intros H. ok_inv. bool_inv.
  match goal with E : for_fold _ _ _ = Ok _ |- _ => apply validate_rows_inv in E as (locals & Hr & Hn & Hd) end.
  apply zip_rows in Hr as [Hs Ho]; [|by apply Nat.eqb_eq].
  split_and!; [done..|congruence|]. exists locals. split; [done|].
  constructor; [|done]. intros Hin%Hd. set_solver.
Qed.

Lemma owner_lookup {A} (R : A -> LocalLocation -> Prop) rows locals row :
  Forall2 R rows locals -> row ∈ rows -> exists local, local ∈ locals /\ R row local.
Proof.
  intros H (i & Hi)%list_elem_of_lookup. destruct (Forall2_lookup_l _ _ _ _ _ H Hi) as (local & Hl & HR).
  exists local. split; [|done]. by eapply list_elem_of_lookup_2.
Qed.

(** Two rows with the same raw local are the same row. *)
Lemma owner_inj p source l rows locals row row' local :
  Forall2 (slot_owner p source l) rows locals -> NoDup locals ->
  row ∈ rows -> row' ∈ rows ->
  raw_local (csp_storage row) l = Some local -> raw_local (csp_storage row') l = Some local -> row = row'.
Proof.
  intros H Hn (i & Hi)%list_elem_of_lookup (j & Hj)%list_elem_of_lookup E E'.
  destruct (Forall2_lookup_l _ _ _ _ _ H Hi) as (x & Hx & [_ _ Ex _]).
  destruct (Forall2_lookup_l _ _ _ _ _ H Hj) as (y & Hy & [_ _ Ey _]).
  assert (i = j) as -> by (eapply (NoDup_lookup _ _ _ _ Hn Hx); congruence). congruence.
Qed.

(** C37: An accepted class projection selects exactly the cells that the class-entry
    initialisers declare, in order, and gives the namespace and every cell a raw local of its
    own that is no operand temporary; looking a slot up finds its row, and the local of a row
    maps back to the source name of the native cell. *)
Theorem validated_projection_owners p source l callable :
  validate_projection p source l callable = Ok tt ->
  map csp_slot (cbp_slots p) = required_slots source
  /\ (exists locals, map (fun row => raw_local (csp_storage row) l) (cbp_slots p) = map Some locals
       /\ NoDup (cbp_namespace p :: locals)
       /\ forall local, local ∈ cbp_namespace p :: locals ->
            is_expression_temporary l (OL_Local local) = false)
  /\ forall row, row ∈ cbp_slots p ->
       projection_slot p (csp_slot row) = Some row
       /\ exists local native,
            raw_local (csp_storage row) l = Some local
            /\ cn_slots (cbs_node source) !! Z.to_nat (csi_index (csp_slot row)) = Some native
            /\ lpk_is_cell (lps_kind native) = true
            /\ source_name_at p source l local = Some (lps_name native).
Proof.
  intros (Hid & Hrec & Hns & Hslots & locals & Ho & Hn)%validate_projection_inv.
  pose proof (Strict_NoDup _ (bset_of_list_strict _) : NoDup (required_slots source)) as Hreq.
  rewrite <- Hslots in Hreq. pose proof (NoDup_fmap_1 csp_slot _ Hreq) as Hnd.
  inversion Hn as [|? ? _ Hnl]; subst.
  split_and!; [done| |].
  - exists locals. split_and!; [|done|].
    + clear -Ho. induction Ho as [|row local rows locals [_ _ E _] _ IH]; cbn; [done|]. by rewrite E, IH.
    + intros local [->|(i & Hi)%list_elem_of_lookup]%elem_of_cons; [done|].
      by destruct (Forall2_lookup_r _ _ _ _ _ Ho Hi) as (row & _ & [_ _ _ ?]).
  - intros row Hrow. destruct (owner_lookup _ _ _ _ Ho Hrow) as (local & _ & [Hc (native & En & Ec) El _]).
    split.
    + unfold projection_slot. rewrite (filter_unique _ _ row); [done|done|by apply bool_decide_eq_true|done|].
      intros y Hy E. bool_inv. by eapply (NoDup_map_elem csp_slot).
    + exists local, native. split_and!; [done..|]. unfold source_name_at.
      rewrite <- Hid, <- Hrec, !bool_decide_true by done. cbn.
      rewrite (filter_unique _ _ row); [by cbn; rewrite En|done| |done|].
      * by rewrite !bool_decide_true.
      * intros y Hy E. bool_inv. symmetry. by eapply (owner_inj _ _ _ _ _ row y).
Qed.

(** The fixture of the crate's own test. *)
Module ProjectionDemo.
Definition code : NativeCodeId := mkNativeCodeId 2.
Definition slot (index : Z) : ClassBindingSlotId := mkClassSlotId code index.
Definition source : SourceIdentity :=
  mkSourceIdentity (mkModuleContentId "class_projection_fixture" 0) "outer.<locals>.Box"
    (mkSourceRange 0 80) DK_Class.
Definition scope : ClassBindingScope :=
  mkClassScope source
    (mkCodeNode code (Some (mkNativeCodeId 1)) CSK_Class SSK_ClassBlock 1 (Some (mkSourceRange 0 80))
       [mkLocalsPlusSlot "iteration_target" (mkLocalsPlusKind 48);
        mkLocalsPlusSlot "same" (mkLocalsPlusKind LPK_CELL);
        mkLocalsPlusSlot "same" (mkLocalsPlusKind LPK_FREE)] 1)
    (mkRecipe code [mkInitializer CBP_ClassEntry (slot 1) IV_EmptyCell;
                    mkInitializer CBP_ClassEntry (slot 2) (IV_IncomingFree 0)]
       [] [mkExport EK_ClassCell (slot 1)] [])
    "namespace" [mkSlotBinding (slot 1) "raw1"; mkSlotBinding (slot 2) "raw2"].
Definition layout : StorageLayout :=
  mkStorageLayout None [] None []
    [mkClosureSlot "raw1" "raw1" CI_Deferred; mkClosureSlot "raw2" "raw2" CI_Deferred]
    [] ["namespace"; "raw1"; "raw2"] [].
Definition callable : CallableScopeInfo :=
  mkScope (Some scope) (Some (mkSourceOrigin source CSR_ClassNamespace)) None None None None None
    FD_FlatValues (mkFunctionName EmptyString EmptyString EmptyString EmptyString)
    SK_Function ∅ ∅ ∅ ∅ ∅ ∅ {["raw1"; "raw2"]} ∅ ∅ ∅ ∅.
Definition projection : ClassBindingProjection :=
  mkClassProjection code (mkLocalLocation 0)
    [mkSlotProjection (slot 1) (CBS_Cell (CL_Owned 0)); mkSlotProjection (slot 2) (CBS_Cell (CL_Owned 1))].
End ProjectionDemo.

Lemma validated_projection_owners_witness :
  validate_projection ProjectionDemo.projection ProjectionDemo.scope ProjectionDemo.layout
    ProjectionDemo.callable = Ok tt
  /\ map csp_slot (cbp_slots ProjectionDemo.projection) = required_slots ProjectionDemo.scope.
Proof.
  assert (validate_projection ProjectionDemo.projection ProjectionDemo.scope ProjectionDemo.layout
    ProjectionDemo.callable = Ok tt) as H by (vm_compute; reflexivity).
  split; [exact H|]. exact (proj1 (validated_projection_owners _ _ _ _ H)).
Defined.

(** ** Wire codes *)

(** Every decoder inverts its encoder and refuses every other code. *)
Lemma wire_codes_exact :
  (forall k, compile_scope_from_wire (compile_scope_wire_value k) = Some k)
  /\ (forall k, symbol_scope_from_wire (symbol_scope_wire_value k) = Some k)
  /\ (forall k, phase_from_wire (phase_wire_value k) = Some k)
  /\ (forall k, export_from_wire (export_wire_value k) = Some k)
  /\ (forall k, access_from_wire (access_wire_value k) = Some k)
  /\ (forall k, selection_from_wire (selection_wire_value k) = Some k)
  /\ (forall z k, compile_scope_from_wire z = Some k -> z = compile_scope_wire_value k)
  /\ (forall z k, symbol_scope_from_wire z = Some k -> z = symbol_scope_wire_value k).
Proof.
  split_and!; try by intros [].
  all: intros z k; unfold compile_scope_from_wire, symbol_scope_from_wire; destruct z as [|q|q]; try done;
    [by intros [= <-]|]; destruct q as [[[]|[]|]|[[]|[]|]|]; try done; by intros [= <-].
Qed.

(** ** Where a captured cell is created *)

(** A marker that was accepted is a creation site inside its class, and an annotation provider
    of a class body is exactly the child whose marker is a body completion. *)
Lemma native_marker_inside source parent child marker creation class_range :
  from_native_marker source parent child marker = Ok creation ->
  cn_source_range parent = Some class_range ->
  (completion_child parent child = true <->
     exists m, creation = CC_ClassAnnotationBodyCompletion m)
  /\ (forall range, creation_source_range creation = Some range ->
        valid_range source range = true /\ range_contains class_range range = true).
Proof.
  unfold from_native_marker. intros H Hr. ok_inv. rename E into Hv.
  unfold validate_creation in Hv. rewrite Hr in Hv. cbn in Hv. ok_inv.
  destruct marker as [m|]; [destruct (_ && _ && _)|]; cbn in *; ok_inv; bool_inv.
  - split; [split; eauto|done].
  - split; [|by intros ? [= <-]]. split; [congruence|]. by intros [? ?].
  - split; [|done]. split; [congruence|]. by intros [? ?].
Qed.
