(* ===== verification/ModuleCheck.v ===== *)
(** * Functions with their layouts, and the validation of a module

    The part of [BlockPyFunction] and [BlockPyModule] (crates/soac_core/src/block_py/mod.rs)
    that the validator of crates/soac_lowering/src/block_py/validate.rs looks at, and the
    validator itself: compiler operands, class projections, generator roles, block-parameter
    roles, resume ABI, completion values, the closure layout and the blocks. *)

From stdpp Require Import gmap.
From S2P Require Import Prelude Order Collections Text Identity Ids Cfg Names Instr Layout.
From S2P Require Import ClassBindings Scope.

Local Open Scope Z_scope.

(** ** Functions and modules *)

(** The blocks, the kind, the id and the qualified name are in [fd_function]. *)
Record FunctionDef : Type := mkFunctionDef {
  fd_function : BlockPyFunction InstrBlockPy;
  fd_params : list Param;
  fd_body_params : option (list Param);
  fd_public_scope : option CallableScopeInfo;
  fd_public_storage_layout : option StorageLayout;
  fd_storage_layout : option StorageLayout;
  fd_scope : CallableScopeInfo
}.
Record BlockPyModule : Type := mkBlockPyModule {
  bm_global_names : list string;
  bm_callable_defs : list FunctionDef;
  bm_module_constants : list ConstantExpr
}.

Definition body_params (f : FunctionDef) : list Param := default (fd_params f) (fd_body_params f).
Definition public_scope (f : FunctionDef) : CallableScopeInfo := default (fd_scope f) (fd_public_scope f).
Definition public_storage_layout (f : FunctionDef) : option StorageLayout :=
  match fd_public_storage_layout f with Some layout => Some layout | None => fd_storage_layout f end.
Definition fd_blocks (f : FunctionDef) : list (Block InstrBlockPy) := bf_blocks (fd_function f).
Definition fd_qualname (f : FunctionDef) : string := bf_qualname (fd_function f).
Definition fd_kind (f : FunctionDef) : FunctionKind := bf_kind (fd_function f).

Inductive ModuleError : Type :=
| Message (error : string)
| OperandError (qualname error : string)
| ClassBindingsError (qualname error : string)
| ClassBindingsLost (qualname : string)
| ResumeAbiLost (qualname : string)
| CompletionValue (qualname : string) (label : BlockLabel)
| UnconsumedSuspension (qualname : string) (label : BlockLabel)
| LayoutMissing (qualname : string)
| OwnerCellMissing (qualname cell : string)
| OwnerCellStorage (qualname cell actual expected : string)
| FreevarMissing (qualname freevar : string)
| Edges (error : EdgeError).

(** [Result::map_err]. *)
Definition map_error {E E' A} (f : E -> E') (r : result E A) : result E' A :=
  match r with Ok a => Ok a | Err e => Err (f e) end.

(** ** Compiler operands *)

(** [BuildCollection::validate_shape] on the number of values. *)
Definition validate_build_collection (kind : BuildCollectionKind) (values : list InstrBlockPy) :
    result string unit :=
  match kind with
  | BC_Dict =>
      ensure (Nat.even (length values)) "dict construction requires interleaved key/value pairs"
  | _ => Ok tt
  end.

(** The optional parts of an operation are told apart by the number of its children, which the
    fields of the source fix; other numbers do not occur. *)
Definition check_operand_op (l : StorageLayout) (i : InstrBlockPy) : result string unit :=
  match instr_op i, instr_children i with
  | Op_TakeOperand name, _ | Op_IteratorStep name, _ =>
      do? validated_compiler_operand_location name l; Ok tt
  | Op_ComprehensionInsert kind container, [value] =>
      do? validate_comprehension_insert kind container None value l; Ok tt
  | Op_ComprehensionInsert kind container, [key; value] =>
      do? validate_comprehension_insert kind container (Some key) value l; Ok tt
  | Op_CallArgumentOp kind callable buffer, children =>
      do? validate_call_argument_op kind callable buffer (head children) l; Ok tt
  | Op_PreparedCall has_keywords namespace, func :: arguments :: rest =>
      let keywords := if has_keywords then head rest else None in
      let rest := if has_keywords then tail rest else rest in
      let mapping := match namespace with Some FN_Mapping => head rest | _ => None end in
      validate_prepared_call func arguments keywords mapping l
  | _, _ => Ok tt
  end.
Definition needs_layout (i : InstrBlockPy) : option string :=
  match instr_op i with
  | Op_TakeOperand _ => Some "operand take has no resolved layout"
  | Op_ComprehensionInsert _ _ => Some "comprehension insertion has no resolved layout"
  | Op_CallArgumentOp _ _ _ => Some "CallArgumentOp has no resolved layout"
  | Op_PreparedCall _ _ => Some "PreparedCall has no resolved layout"
  | Op_IteratorStep _ => Some "IteratorStep has no resolved layout"
  | _ => None
  end.
Definition validate_operand_instr (layout : option StorageLayout) (i : InstrBlockPy) :
    result string unit :=
  match instr_op i, needs_layout i with
  | Op_BuildCollection kind, _ => validate_build_collection kind (instr_children i)
  | _, None => Ok tt
  | _, Some missing => let? l := ok_or missing layout in check_operand_op l i
  end.
(** The visitor checks a node after its children and stops at the first error. *)
Definition validate_compiler_operand_operations (f : FunctionDef) : result ModuleError unit :=
  map_error (OperandError (fd_qualname f))
    (for_each (validate_operand_instr (fd_storage_layout f))
      (concat (map instrs_post (function_instrs (fd_function f))))).

(** ** The closure layout *)

(** The collector of referenced cells, on this stage of the program. *)
Fixpoint root_name_id (i : InstrBlockPy) : option string :=
  match i with
  | mkInstr _ (Op_Call _ _ _) (func :: _) => root_name_id func
  | mkInstr _ (Op_Load name _) _ => Some (id_str name)
  | _ => None
  end.
(** String literals are module constants by now, never roots of an expression. *)
Definition root_string_literal_value (i : InstrBlockPy) : option string := None.
Definition call_root_cell_ref_logical_name (i : InstrBlockPy) : option string :=
  match i with
  | mkInstr _ (Op_Call (CA_Positional :: _) _ _) (func :: arg :: _) =>
      helper_name ← root_name_id func;
      if bool_decide (helper_name = "cell_ref") then root_string_literal_value arg else None
  | _ => None
  end.
Definition cell_ref_logical_names (f : BlockPyFunction InstrBlockPy) : gset string :=
  list_to_set (omap call_root_cell_ref_logical_name (visit_fn f)).

Section validate.
Context {order : HashOrder}.

Definition expected_layout (f : FunctionDef) : option StorageLayout :=
  compute_storage_layout_from_scope (fd_scope f) (map p_name (fd_params f))
    (map p_name (body_params f)) (cell_ref_logical_names (fd_function f)).
Definition preserves_cell (layout : StorageLayout) (expected : ClosureSlot) : bool :=
  existsb (fun slot => bool_decide (ps_storage slot = PS_PyCellObject)
                       && bool_decide (ps_logical_name slot = cs_logical_name expected)
                       && bool_decide (ps_storage_name slot = cs_storage_name expected))
    (sl_preserved_slots layout).
Definition validate_owner_cell (qualname : string) (layout : StorageLayout) (expected : ClosureSlot) :
    result ModuleError unit :=
  if preserves_cell layout expected then Ok tt
  else
    let? actual := ok_or (OwnerCellMissing qualname (cs_logical_name expected))
      (find_first (fun slot => bool_decide (cs_logical_name slot = cs_logical_name expected))
         (sl_cellvars layout)) in
    ensure (bool_decide (cs_storage_name actual = cs_storage_name expected))
      (OwnerCellStorage qualname (cs_logical_name expected) (cs_storage_name actual)
         (cs_storage_name expected)).
Definition validate_freevar (qualname : string) (layout : StorageLayout) (expected : ClosureSlot) :
    result ModuleError unit :=
  ensure (existsb (fun slot => bool_decide (cs_logical_name slot = cs_logical_name expected))
            (sl_freevars layout))
    (FreevarMissing qualname (cs_logical_name expected)).
Definition validate_storage_layout_scoping (f : FunctionDef) : result ModuleError unit :=
  match fd_storage_layout f, expected_layout f with
  | None, None => Ok tt
  | None, Some _ => Err (LayoutMissing (fd_qualname f))
  | Some _, None => Ok tt
  | Some layout, Some expected =>
      do? for_each (validate_owner_cell (fd_qualname f) layout) (sl_cellvars expected);
      for_each (validate_freevar (fd_qualname f) layout) (sl_freevars expected)
  end.

(** ** The module *)

Definition validate_function (f : FunctionDef) : result ModuleError unit :=
  do? validate_storage_layout_scoping f;
  map_error Edges (validate_blocks (fd_function f)).
Definition validate_module (m : BlockPyModule) : result ModuleError unit :=
  for_each validate_function (bm_callable_defs m).

Definition validate_class_bindings (f : FunctionDef) : result ModuleError unit :=
  match class_bindings (fd_scope f), fd_storage_layout f ≫= sl_class_bindings with
  | Some source, Some projection =>
      let? layout := ok_or (ClassBindingsLost (fd_qualname f)) (fd_storage_layout f) in
      map_error (ClassBindingsError (fd_qualname f))
        (validate_projection projection source layout (fd_scope f))
  | None, None => Ok tt
  | _, _ => Err (ClassBindingsLost (fd_qualname f))
  end.
Definition validate_layout (f : FunctionDef) (layout : StorageLayout) : result ModuleError unit :=
  do? map_error Message (validate_generator_roles layout);
  do? map_error Message (validate_block_parameter_roles layout);
  do? map_error Message (validate_block_parameter_declarations layout (concat (map blk_params (fd_blocks f))));
  match sl_generator_resume_abi layout with
  | Some abi => map_error Message (validate_abi abi (fd_kind f) (body_params f))
  | None => ensure (bool_decide (fd_kind f = FK_Function)) (ResumeAbiLost (fd_qualname f))
  end.
Definition validate_public_layout (layout : StorageLayout) : result ModuleError unit :=
  do? map_error Message (validate_generator_roles layout);
  map_error Message (validate_block_parameter_roles layout).
Definition is_none_constant (constants : list ConstantExpr) (index : Z) : bool :=
  match constants !! Z.to_nat index with
  | Some (Const_RuntimeName RN_None) => true
  | _ => false
  end.
Definition is_none_operand (constants : list ConstantExpr) (value : InstrBlockPy) : bool :=
  match instr_op value with
  | Op_Load name None =>
      match rn_location name with
      | NL_RuntimeName RN_None => true
      | NL_Constant index => is_none_constant constants index
      | _ => false
      end
  | _ => false
  end.
Definition validate_completion (constants : list ConstantExpr) (f : FunctionDef)
    (block : Block InstrBlockPy) : result ModuleError unit :=
  match blk_term block with
  | BT_GeneratorReturn value =>
      ensure (is_none_operand constants value) (CompletionValue (fd_qualname f) (blk_label block))
  | _ => Ok tt
  end.
Definition validate_blockpy_function (constants : list ConstantExpr) (f : FunctionDef) :
    result ModuleError unit :=
  do? validate_compiler_operand_operations f;
  do? validate_class_bindings f;
  do? if_some (validate_layout f) (fd_storage_layout f);
  do? if_some validate_public_layout (fd_public_storage_layout f);
  do? (if bool_decide (fd_kind f = FK_AsyncGenerator)
       then for_each (validate_completion constants f) (fd_blocks f) else Ok tt);
  match find_first (fun block => is_some (bc_suspension_resume (blk_extra block))) (fd_blocks f) with
  | Some block => Err (UnconsumedSuspension (fd_qualname f) (blk_label block))
  | None => Ok tt
  end.
Definition validate_blockpy_module (m : BlockPyModule) : result ModuleError unit :=
  do? for_each (validate_blockpy_function (bm_module_constants m)) (bm_callable_defs m);
  validate_module m.
End validate.
