(* ===== verification/ModuleCheckProps.v ===== *)
(** * What the validator of a module guarantees *)

From stdpp Require Import gmap.
From S2P Require Import Prelude Order Collections Text Identity Ids Cfg CfgProps Names Instr.
From S2P Require Import Layout LayoutProps ClassBindings Scope ScopeProps ModuleCheck.

Local Open Scope Z_scope.

Lemma map_err_ok {E E' A} (f : E -> E') (r : result E A) a : map_error f r = Ok a <-> r = Ok a.
Proof. destruct r; cbn; split; congruence. Qed.

Lemma instrs_pre_post i j : j ∈ instrs_pre i -> j ∈ instrs_post i.
Proof.
  induction i as [id op children IH] using InstrBlockPy_tree_ind. rewrite Forall_forall in IH. cbn.
  rewrite elem_of_app, list_elem_of_singleton.
  intros [->|(c & Hc & Hj)%elem_of_concat_map]%elem_of_cons; [by right|].
  left. apply elem_of_concat_map. eauto.
Qed.

Lemma visit_fn_post f i : i ∈ visit_fn f -> i ∈ concat (map instrs_post (function_instrs f)).
Proof.
  unfold visit_fn. rewrite !elem_of_concat_map. intros (j & Hj & Hi). eauto using instrs_pre_post.
Qed.

Lemma lookup_allocated {A} (l : list A) (slot : Z) :
  is_some (l !! Z.to_nat slot) = true -> (slot <? Z.of_nat (length l)) = true.
Proof.
  destruct (l !! Z.to_nat slot) eqn:E; [intros _|done]. apply lookup_lt_Some in E.
  apply Z.ltb_lt. lia.
Qed.

(** An accepted operand is an allocated temporary of the layout. *)
Lemma operand_owned name l o :
  validated_compiler_operand_location name l = Ok o ->
  from_name_location (rn_location name) = Some o
  /\ o ∈ sl_expression_temporaries l /\ operand_allocated l o = true.
Proof.
  unfold validated_compiler_operand_location. destruct (rn_location name) eqn:E; try discriminate.
  all: intros H; ok_inv; bool_inv; unfold is_expression_temporary in *; bool_inv.
  all: split_and!; try done; apply lookup_allocated; try done.
  match goal with H : ok_or _ ?o = Ok _ |- _ => unfold preserved_slot in H; by destruct (_ !! _) end.
Qed.

(** A name denotes an allocated temporary of the layout. *)
Definition owns (l : StorageLayout) (name : ResolvedName) : Prop :=
  exists o, from_name_location (rn_location name) = Some o
    /\ o ∈ sl_expression_temporaries l /\ operand_allocated l o = true.
(** Evaluating the instruction takes no operand out of the slot. *)
Definition leaves (location : NameLocation) (i : InstrBlockPy) : Prop :=
  forall j name, j ∈ instrs_pre i -> as_take_operand j = Some name -> rn_location name <> location.

(** What each instruction that works on compiler operands may do with them. *)
Definition operands_ok (l : StorageLayout) (i : InstrBlockPy) : Prop :=
  match instr_op i, instr_children i with
  | Op_TakeOperand name, _ | Op_IteratorStep name, _ => owns l name
  | Op_ComprehensionInsert kind container, [value] =>
      kind <> DictSetItem /\ owns l container /\ leaves (rn_location container) value
  | Op_ComprehensionInsert kind container, [key; value] =>
      kind = DictSetItem /\ owns l container
      /\ leaves (rn_location container) key /\ leaves (rn_location container) value
  | Op_CallArgumentOp kind callable buffer, children =>
      owns l callable /\ owns l buffer /\ rn_location callable <> rn_location buffer
      /\ (has_value kind = true <-> children <> [])
      /\ forall value, head children = Some value ->
           leaves (rn_location callable) value /\ leaves (rn_location buffer) value
  | Op_PreparedCall has_keywords namespace, func :: arguments :: rest =>
      exists names : list ResolvedName,
        map as_take_operand (func :: arguments
          :: option_list (if has_keywords then head rest else None)) = map Some names
        /\ Forall (owns l) names /\ NoDup (map rn_location names)
        /\ (namespace = Some FN_Mapping ->
            forall mapping j, head (if has_keywords then tail rest else rest) = Some mapping ->
              j ∈ instrs_pre mapping -> as_take_operand j = None)
  | _, _ => True
  end.
(** Whether an instruction is one of those that need the layout. *)
Definition works_on_operands (i : InstrBlockPy) : bool := is_some (needs_layout i).

Lemma operand_owns name l o :
  validated_compiler_operand_location name l = Ok o -> owns l name /\ name_location o = rn_location name.
Proof.
  intros H. pose proof (operand_owned _ _ _ H) as (E & Hin & Ha). split; [by exists o|].
  by destruct (rn_location name); simplify_eq/=.
Qed.

Lemma leaves_of location i : instr_any (takes_location location) i = false -> leaves location i.
Proof.
  unfold instr_any, leaves. rewrite existsb_false_elem. intros H j name Hj E El.
  specialize (H j Hj). unfold takes_location in H. rewrite E in H. cbn in H. by bool_inv.
Qed.
Lemma leaves_of_or a b i :
  instr_any (fun j => takes_location a j || takes_location b j) i = false -> leaves a i /\ leaves b i.
Proof.
  unfold instr_any. rewrite existsb_false_elem. intros H.
  split; apply leaves_of; apply existsb_false_elem; intros j Hj; specialize (H j Hj); by bool_inv.
Qed.

Lemma validate_moves_names l inputs owners owners' :
  validate_moves l owners inputs = Ok owners' -> NoDup owners ->
  exists names, map as_take_operand inputs = map Some names /\ Forall (owns l) names
    /\ owners' = owners ++ map rn_location names /\ NoDup owners'.
Proof.
  revert owners. induction inputs as [|i inputs IH]; intros owners H Hnd; cbn in H.
  { injection H as <-. exists []. by rewrite app_nil_r. }
  destruct (as_take_operand i) as [name|] eqn:En; cbn in H; [|done]. ok_inv. bool_inv.
  destruct (operand_owns _ _ _ E) as [Ho El]. rewrite El in *.
  destruct (IH _ H) as (names & Em & Hall & -> & Hnd').
  { apply NoDup_app. split_and!; [done| |apply NoDup_singleton].
    intros x Hx ->%list_elem_of_singleton. done. }
  exists (name :: names). cbn. rewrite En, Em, <- app_assoc in *. split_and!; try done. by constructor.
Qed.

Ltac operand_facts :=
  repeat match goal with
  | E : validated_compiler_operand_location _ _ = Ok _ |- _ =>
      apply operand_owns in E as [? ?]
  | E : name_location _ = _ |- _ => rewrite E in *; clear E
  end.

Lemma comprehension_insert_ok kind container key value l o :
  validate_comprehension_insert kind container key value l = Ok o ->
  (kind = DictSetItem <-> is_some key = true) /\ owns l container
  /\ leaves (rn_location container) value
  /\ forall k, key = Some k -> leaves (rn_location container) k.
Proof.
  unfold validate_comprehension_insert. intros H. ok_inv. bool_inv. operand_facts.
  split_and!; [|done|by apply leaves_of|].
  - match goal with E : Bool.eqb _ _ = true |- _ => apply eqb_prop in E; rewrite <- E end.
    by rewrite bool_decide_eq_true.
  - intros k ->. by apply leaves_of.
Qed.

Lemma call_argument_ok kind callable buffer value l r :
  validate_call_argument_op kind callable buffer value l = Ok r ->
  has_value kind = is_some value /\ owns l callable /\ owns l buffer
  /\ rn_location callable <> rn_location buffer
  /\ forall v, value = Some v -> leaves (rn_location callable) v /\ leaves (rn_location buffer) v.
Proof.
  unfold validate_call_argument_op. intros H. ok_inv. bool_inv. operand_facts.
  split_and!; [by apply eqb_prop|done..|]. intros v ->. by apply leaves_of_or.
Qed.

Lemma prepared_call_ok func arguments keywords namespace l :
  validate_prepared_call func arguments keywords namespace l = Ok tt ->
  exists names, map as_take_operand (func :: arguments :: option_list keywords) = map Some names
    /\ Forall (owns l) names /\ NoDup (map rn_location names)
    /\ forall mapping j, namespace = Some mapping -> j ∈ instrs_pre mapping -> as_take_operand j = None.
Proof.
  unfold validate_prepared_call. intros H. ok_inv. bool_inv.
  match goal with E : validate_moves _ _ _ = Ok _ |- _ =>
    apply validate_moves_names in E as (names & Em & Ho & -> & Hn); [|constructor] end.
  exists names. split_and!; try done. intros mapping j -> Hj. cbn in *. unfold instr_any in *.
  match goal with E : existsb _ _ = false |- _ => rewrite existsb_false_elem in E; specialize (E j Hj) end.
  by destruct (as_take_operand j).
Qed.

Lemma check_operand_ok l i : check_operand_op l i = Ok tt -> operands_ok l i.
Proof.
  unfold check_operand_op, operands_ok.
  destruct (instr_op i) eqn:E; try done; try (intros H; ok_inv; operand_facts; done).
  - destruct (instr_children i) as [|a [|b [|]]]; try done; intros H; ok_inv;
      match goal with E : validate_comprehension_insert _ _ _ _ _ = Ok _ |- _ =>
        apply comprehension_insert_ok in E as (Hk & Ho & Hv & Hkey) end; cbn in Hk.
    + split; [intros Hd%Hk; done|done].
    + split; [by apply Hk|]. auto.
  - intros H. ok_inv.
    match goal with E : validate_call_argument_op _ _ _ _ _ = Ok _ |- _ =>
      apply call_argument_ok in E as (Hv & Hc & Hb & Hne & Hl) end.
    split_and!; try done. rewrite Hv. by destruct (instr_children i).
  - destruct (instr_children i) as [|func [|arguments rest]]; try done.
    intros (names & Em & Ho & Hn & Hns)%prepared_call_ok. exists names. split_and!; try done.
    intros -> mapping j Hm. by apply Hns.
Qed.

Lemma validate_operand_ok layout i :
  validate_operand_instr layout i = Ok tt ->
  (works_on_operands i = true -> exists l, layout = Some l /\ operands_ok l i)
  /\ (instr_op i = Op_BuildCollection BC_Dict -> Nat.Even (length (instr_children i))).
Proof.
  unfold validate_operand_instr, works_on_operands. intros H. split.
  - destruct (needs_layout i) eqn:En; [|done]. intros _.
    assert (exists l, layout = Some l /\ check_operand_op l i = Ok tt) as (l & -> & Hc).
    { destruct (instr_op i) eqn:Ei; try (unfold needs_layout in En; rewrite Ei in En; discriminate).
      all: destruct layout as [l|]; [by exists l|done]. }
    exists l. split; [done|]. by apply check_operand_ok.
  - intros E. rewrite E in H. cbn in H. ok_inv. by apply Nat.even_spec.
Qed.

(** The closure slots that the scope of the function asks for. *)
Definition cell_provided (l : StorageLayout) (expected : ClosureSlot) : Prop :=
  (exists slot, slot ∈ sl_preserved_slots l /\ ps_storage slot = PS_PyCellObject
     /\ ps_logical_name slot = cs_logical_name expected /\ ps_storage_name slot = cs_storage_name expected)
  \/ exists slot, slot ∈ sl_cellvars l
     /\ cs_logical_name slot = cs_logical_name expected /\ cs_storage_name slot = cs_storage_name expected.

Lemma validate_owner_cell_provided qualname l expected :
  validate_owner_cell qualname l expected = Ok tt -> cell_provided l expected.
Proof.
  unfold validate_owner_cell. destruct (preserves_cell l expected) eqn:E.
  - intros _. left. apply existsb_elem in E as (slot & Hs & E). bool_inv. by exists slot.
  - intros H. ok_inv. destruct (find_first _ _) as [slot|] eqn:F; cbn in *; [|done]. simplify_eq.
    apply find_first_some in F as [Hs F]. bool_inv. right. eauto.
Qed.

Section validated.
Context {order : HashOrder}.

Lemma validate_scoping_provided f e :
  validate_storage_layout_scoping f = Ok tt -> expected_layout f = Some e ->
  exists l, fd_storage_layout f = Some l
    /\ Forall (cell_provided l) (sl_cellvars e)
    /\ forall slot, slot ∈ sl_freevars e -> cs_logical_name slot ∈ map cs_logical_name (sl_freevars l).
Proof.
  unfold validate_storage_layout_scoping. intros H He. rewrite He in H.
  destruct (fd_storage_layout f) as [l|]; [|done]. ok_inv. exists l. split_and!; [done| |].
  - apply Forall_forall. intros slot Hs. eapply validate_owner_cell_provided.
    eapply for_each_elem; [|exact Hs]. done.
  - intros slot Hs. eapply for_each_elem in H; [|exact Hs]. unfold validate_freevar in H. ok_inv.
    match goal with E : existsb _ _ = true |- _ => apply existsb_elem in E as (s' & Hs' & E) end.
    bool_inv. apply list_elem_of_fmap. eauto.
Qed.

(** The class projection of a function agrees with the class bindings of its scope. *)
Definition projection_agrees (f : FunctionDef) : Prop :=
  match class_bindings (fd_scope f) with
  | None => fd_storage_layout f ≫= sl_class_bindings = None
  | Some source => exists l p, fd_storage_layout f = Some l /\ sl_class_bindings l = Some p
      /\ cbp_class_code p = cn_id (cbs_node source)
      /\ map csp_slot (cbp_slots p) = required_slots source
      /\ is_expression_temporary l (OL_Local (cbp_namespace p)) = false
      /\ exists locals, Forall2 (slot_owner p source l) (cbp_slots p) locals
           /\ NoDup (cbp_namespace p :: locals)
  end.

Lemma validate_class_bindings_agrees f :
  validate_class_bindings f = Ok tt -> projection_agrees f.
Proof.
  unfold validate_class_bindings, projection_agrees.
  destruct (class_bindings (fd_scope f)) as [source|]; [|by destruct (_ ≫= _)].
  destruct (fd_storage_layout f) as [l|]; cbn; [|done].
  destruct (sl_class_bindings l) as [p|] eqn:Ep; cbn; [|done]. rewrite map_err_ok.
  intros (Hid & _ & Hns & Hslots & Howners)%validate_projection_inv. by exists l, p.
Qed.

(** C12: A module that the validator accepts is well formed where later stages rely on it.  In
    every function: an instruction that takes, borrows, fills or moves compiler operands has a
    layout, names only allocated temporaries of it, never consumes an operand it borrows, and a
    prepared call moves different operands; a dict is built from pairs; control flow never
    reaches an undefined block, whatever the instructions do; the layout has every cell and free
    variable that the scope declares; a generator-like function that has a layout has a resume
    ABI naming its body parameters in order; an async generator completes with [None]; no
    suspension edge is left; and the layout has a class projection exactly when the scope has
    class bindings, of the same class code, with exactly the cells of the class entry, each in a
    raw local of its own that is no temporary. *)
Theorem validated_module_sound m f :
  validate_blockpy_module m = Ok tt -> f ∈ bm_callable_defs m ->
  (forall i, i ∈ visit_fn (fd_function f) -> works_on_operands i = true ->
     exists l, fd_storage_layout f = Some l /\ operands_ok l i)
  /\ (forall i, i ∈ visit_fn (fd_function f) -> instr_op i = Op_BuildCollection BC_Dict ->
        Nat.Even (length (instr_children i)))
  /\ (forall St (machine : Machine InstrBlockPy St) entry st exit, entry ∈ fd_blocks f ->
        behaves machine (fd_blocks f) (blk_label entry) st exit -> exit.1 <> Undefined)
  /\ (forall e, expected_layout f = Some e -> exists l, fd_storage_layout f = Some l
        /\ Forall (cell_provided l) (sl_cellvars e)
        /\ forall slot, slot ∈ sl_freevars e -> cs_logical_name slot ∈ map cs_logical_name (sl_freevars l))
  /\ (forall l, fd_storage_layout f = Some l -> fd_kind f <> FK_Function ->
        exists abi, sl_generator_resume_abi l = Some abi
          /\ map grb_name (abi_params abi) = map p_name (body_params f))
  /\ (forall block value, fd_kind f = FK_AsyncGenerator -> block ∈ fd_blocks f ->
        blk_term block = BT_GeneratorReturn value -> is_none_operand (bm_module_constants m) value = true)
  /\ (forall block, block ∈ fd_blocks f -> bc_suspension_resume (blk_extra block) = None)
  /\ projection_agrees f.
Proof.
  intros H Hf. unfold validate_blockpy_module, validate_module in H. ok_inv.
  apply (for_each_elem _ _ f) in E; [|done]. apply (for_each_elem _ _ f) in H; [|done].
  unfold validate_function in H. unfold validate_blockpy_function in E. ok_inv.
  rewrite !map_err_ok in *.
  assert (forall i, i ∈ visit_fn (fd_function f) ->
            validate_operand_instr (fd_storage_layout f) i = Ok tt) as Hops.
  { intros i Hi. unfold validate_compiler_operand_operations in *. rewrite map_err_ok in *.
    eapply for_each_elem; [eassumption|]. by apply visit_fn_post. }
  split_and!.
  - intros i Hi. by apply validate_operand_ok, Hops.
  - intros i Hi. apply (validate_operand_ok (fd_storage_layout f)). by apply Hops.
  - intros St machine entry st exit. by apply validated_blocks_defined.
  - intros e He. by apply validate_scoping_provided.
  - intros l Hl Hk. rewrite Hl in *. cbn [if_some] in *. unfold validate_layout in *. ok_inv.
    destruct (sl_generator_resume_abi l) as [abi|].
    + exists abi. rewrite map_err_ok in *. split; [done|]. by eapply validate_abi_names.
    + ok_inv. bool_inv. done.
  - intros block value Hk Hb Ht. rewrite bool_decide_true in * by done.
    match goal with E : for_each (validate_completion _ _) _ = Ok _ |- _ =>
      apply (for_each_elem _ _ block) in E; [|done]; unfold validate_completion in E;
      rewrite Ht in E; by ok_inv end.
  - intros block Hb. destruct (find_first _ (fd_blocks f)) as [b|] eqn:F; [done|].
    rewrite find_first_none in F. specialize (F block Hb). by destruct (bc_suspension_resume _).
  - by apply validate_class_bindings_agrees.
Qed.
End validated.

(** A generator-like function that takes one operand and completes. *)
Module ModuleDemo.
Definition operand : ResolvedName := mkResolvedName "t" (NL_Local (mkLocalLocation 5)).
Definition take : InstrBlockPy := mkInstr None (Op_TakeOperand operand) [].
Definition none : InstrBlockPy := mkInstr None (Op_Load (mkResolvedName "NONE" (NL_RuntimeName RN_None)) None) [].
Definition block : Block InstrBlockPy :=
  mkBlock (mkBlockLabel 0) [take] (BT_GeneratorReturn none) [] None block_context_default.
Definition body : list Param :=
  map (fun name => mkParam name PK_PosOnly false) ["a"; "b"; "c"; "d"; "e"].
Definition abi : GeneratorResumeAbi :=
  mkResumeAbi (zip_with mkResumeBinding (for_kind FK_AsyncGenerator) (map p_name body)).
Definition control (role : GeneratorControlRole) (name : string) : PreservedSlot :=
  mkPreservedSlot (Some role) name name (initial_value role) (control_storage role).
Definition layout : StorageLayout :=
  mkStorageLayout None [] (Some abi)
    [mkClosureSlot "x" "_dp_cell_x" CI_InheritedCapture] []
    [control GC_ProgramCounter "pc"; control GC_IsClosed "closed"; control GC_Delegate "delegate"]
    ["a"; "b"; "c"; "d"; "e"; "t"] [OL_Local (mkLocalLocation 5)].
Definition scope : CallableScopeInfo :=
  insert_binding (scope_default SK_Function) "x" (BK_Cell CB_Capture) false None.
Definition function : FunctionDef :=
  mkFunctionDef (mkBlockPyFunction GLOBAL "f" FK_AsyncGenerator [block]) [] (Some body) None None
    (Some layout) scope.
Definition module : BlockPyModule := mkBlockPyModule [] [function] [].
End ModuleDemo.

Lemma validated_module_sound_witness :
  @validate_blockpy_module OrderDemo.forward ModuleDemo.module = Ok tt
  /\ exists l, fd_storage_layout ModuleDemo.function = Some l /\ owns l ModuleDemo.operand.
Proof.
  assert (@validate_blockpy_module OrderDemo.forward ModuleDemo.module = Ok tt) as H
    by (vm_compute; reflexivity).
  split; [exact H|].
  refine (proj1 (@validated_module_sound OrderDemo.forward _ ModuleDemo.function H _) ModuleDemo.take _ _).
  - apply list_elem_of_here.
  - vm_compute. apply list_elem_of_here.
  - reflexivity.
Defined.
