(* ===== verification/BbShape.v ===== *)
(** * Exception edges of lowered blocks

    crates/soac_lowering/src/passes/ruff_to_blockpy/bb_shape.rs: the order of block parameters
    and the arguments of exception edges; crates/soac_core/src/block_py/mod.rs: [bb_params]. *)

From stdpp Require Import gmap.
From S2P Require Import Prelude Text Ids Cfg CfgProps Layout.

Local Open Scope Z_scope.

(** ** The order of parameters *)

Definition bb_params (params : list BlockParam) : list BlockParam :=
  List.filter (fun param =>
    match bp_role param with BPR_Value | BPR_GeneratorResume _ => true | _ => false end) params
  ++ concat (map (fun role => List.filter (fun param => bool_decide (bp_role param = role)) params)
       [BPR_EnclosingException; BPR_Exception; BPR_EnclosingAbruptPayload; BPR_AbruptKind;
        BPR_AbruptPayload]).
Definition pending_abrupt_payload_params (params : list BlockParam) (extra : BlockContext) :
    list BlockParam :=
  let with_role role := List.filter (fun param => bool_decide (bp_role param = role)) in
  if bool_decide (bc_handled_exception extra = HE_Terminal) then []
  else with_role BPR_EnclosingAbruptPayload (rev params) ++ with_role BPR_AbruptPayload params.

(** ** Exception-edge arguments *)

Section lowering.
Context {I : Type}.
Implicit Types (b source target : Block I) (blocks : list (Block I)).

Definition param_name_vec (b : Block I) : list string := map bp_name (blk_params b).
Definition source_has_owner (b : Block I) : bool :=
  existsb (fun param =>
    match bp_role param with BPR_GeneratorResume role => is_preserved_owner role | _ => false end)
    (blk_params b).
Definition enclosing_exceptions (target : Block I) : list string :=
  map bp_name (List.filter (fun param => bool_decide (bp_role param = BPR_EnclosingException))
    (blk_params target)).
Definition current_exception_aliases (target : Block I) : list string :=
  match blk_term target with
  | BT_Jump edge =>
      omap (fun arg =>
        match arg with
        | BA_Name name => if is_some (strip_prefix "_dp_try_exc_" name) then Some name else None
        | _ => None
        end) (be_args edge)
  | _ => []
  end.
Definition exception_arg (source target : Block I) (target_param : string) : BlockArg :=
  if bool_decide (exception_param (blk_params target) = Some target_param) then BA_CurrentException
  else if bool_decide (target_param ∈ current_exception_aliases target)
          && negb (bool_decide (target_param ∈ enclosing_exceptions target)) then BA_CurrentException
  else if existsb (fun param => bool_decide (param = target_param)) (param_name_vec source)
          || source_has_owner source then BA_Name target_param
  else BA_None.
Definition with_exc_edge (b : Block I) (edge : BlockEdge) : Block I :=
  mkBlock (blk_label b) (blk_body b) (blk_term b) (blk_params b) (Some edge) (blk_extra b).

(** One iteration on the block at [index]; the loop updates the blocks in place. *)
Definition populate_block (label_to_index : gmap BlockLabel nat) (blocks : list (Block I)) (index : nat) :
    list (Block I) :=
  match blocks !! index with
  | Some source =>
      match blk_exc_edge source with
      | Some edge =>
          match label_to_index !! be_target edge ≫= (fun i => blocks !! i) with
          | Some target =>
              <[index := with_exc_edge source
                 (mkBlockEdge (be_target edge)
                    (map (exception_arg source target) (param_name_vec target)))]> blocks
          | None => blocks
          end
      | None => blocks
      end
  | None => blocks
  end.
Definition populate_exception_edge_args (blocks : list (Block I)) : list (Block I) :=
  let label_to_index := collect_map (zip (map blk_label blocks) (seq 0 (length blocks))) in
  fold_left (populate_block label_to_index) (seq 0 (length blocks)) blocks.

Definition bb_block (b : Block I) : Block I :=
  mkBlock (blk_label b) (blk_body b) (blk_term b) (bb_params (blk_params b)) (blk_exc_edge b) (blk_extra b).
Definition lower_structured_blocks_to_bb_blocks (blocks : list (Block I)) : list (Block I) :=
  populate_exception_edge_args (map bb_block blocks).
Definition lowered_exception_edges (blocks : list (Block I)) : gmap BlockLabel (option BlockLabel) :=
  collect_map (map (fun b => (blk_label b, option_map be_target (blk_exc_edge b))) blocks).

(** ** The loop is a map *)

(** What the loop leaves at a block: only its exception edge changes. *)
Definition populated (blocks : list (Block I)) (source : Block I) : Block I :=
  match blk_exc_edge source with
  | Some edge =>
      match find_block (be_target edge) blocks with
      | Some target =>
          with_exc_edge source (mkBlockEdge (be_target edge)
            (map (exception_arg source target) (param_name_vec target)))
      | None => source
      end
  | None => source
  end.

Lemma populated_shape blocks b :
  blk_label (populated blocks b) = blk_label b /\ blk_body (populated blocks b) = blk_body b
  /\ blk_term (populated blocks b) = blk_term b /\ blk_params (populated blocks b) = blk_params b
  /\ blk_extra (populated blocks b) = blk_extra b.
Proof. unfold populated. destruct (blk_exc_edge b) as [e|]; [|done]. by destruct (find_block _ _). Qed.

(** The arguments of an edge only depend on the parameters and the jump of the target. *)
Lemma exception_args_shape source target target' :
  blk_params target' = blk_params target -> blk_term target' = blk_term target ->
  map (exception_arg source target') (param_name_vec target')
  = map (exception_arg source target) (param_name_vec target).
Proof.
  intros Ep Et. unfold param_name_vec. rewrite Ep. apply map_ext. intros name.
  unfold exception_arg, current_exception_aliases, enclosing_exceptions. by rewrite Ep, Et.
Qed.

Lemma label_index blocks l :
  NoDup (labels blocks) ->
  collect_map (zip (map blk_label blocks) (seq 0 (length blocks))) !! l ≫= (fun i => blocks !! i)
  = find_block l blocks.
Proof.
  intros Hnd. assert (map fst (zip (map blk_label blocks) (seq 0 (length blocks))) = labels blocks) as Hfst.
  { unfold labels. apply fst_zip. by rewrite length_map, length_seq. }
  destruct (collect_map _ !! l) as [i|] eqn:E; cbn.
  - apply collect_map_elem in E. apply list_elem_of_lookup in E as [j Hj].
    apply lookup_zip_with_Some in Hj as (x & y & [= <- <-] & Hx & Hy).
    apply lookup_seq in Hy as [-> _]. cbn in *. rewrite list_lookup_fmap in Hx.
    destruct (blocks !! j) as [b|] eqn:Eb; cbn in Hx; [|done]. injection Hx as <-.
    symmetry. apply find_block_elem; [done|]. by eapply list_elem_of_lookup_2.
  - symmetry. apply find_block_none. intros Hl. rewrite <- Hfst in Hl.
    apply collect_map_dom in Hl as [v Hv]. congruence.
Qed.

(** After [k] iterations the first [k] blocks are done and the others untouched. *)
Lemma populate_prefix blocks k :
  NoDup (labels blocks) -> (k <= length blocks)%nat ->
  fold_left (populate_block (collect_map (zip (map blk_label blocks) (seq 0 (length blocks)))))
    (seq 0 k) blocks
  = map (populated blocks) (take k blocks) ++ drop k blocks.
Proof.
  intros Hnd. induction k as [|k IH]; intros Hk; [done|].
  rewrite seq_S, fold_left_app, IH by lia. cbn. clear IH.
  destruct (lookup_lt_is_Some_2 blocks k ltac:(lia)) as [source Hs].
  set (now := map (populated blocks) (take k blocks) ++ drop k blocks).
  assert (forall i, now !! i = (fun b => if decide (i < k)%nat then populated blocks b else b) <$> blocks !! i)
    as Hnow.
  { intros i. unfold now. destruct (decide (i < k)%nat) as [Hi|Hi].
    - rewrite lookup_app_l by (rewrite length_map, length_take; lia).
      by rewrite list_lookup_fmap, lookup_take_lt.
    - rewrite lookup_app_r by (rewrite length_map, length_take; lia).
      rewrite lookup_drop, length_map, length_take, option_fmap_id.
      f_equal. lia. }
  assert (now !! k = Some source) as Hk' by (rewrite Hnow, Hs; cbn; by rewrite decide_False by lia).
  assert (map (populated blocks) (take (S k) blocks) ++ drop (S k) blocks
          = <[k := populated blocks source]> now) as ->.
  { apply list_eq. intros i. destruct (decide (i = k)) as [->|Hne].
    - rewrite list_lookup_insert_eq by (by apply lookup_lt_Some in Hk').
      rewrite lookup_app_l by (rewrite length_map, length_take; lia).
      by rewrite list_lookup_fmap, lookup_take_lt, Hs by lia.
    - rewrite list_lookup_insert_ne by done. rewrite Hnow.
      destruct (decide (i < k)%nat) as [Hi|Hi].
      + rewrite lookup_app_l by (rewrite length_map, length_take; lia).
        by rewrite list_lookup_fmap, lookup_take_lt by lia.
      + rewrite lookup_app_r by (rewrite length_map, length_take; lia).
        rewrite lookup_drop, length_map, length_take, option_fmap_id. f_equal. lia. }
  unfold populate_block. rewrite Hk'. unfold populated.
  destruct (blk_exc_edge source) as [edge|] eqn:Ee; [|by rewrite list_insert_id].
  rewrite <- (label_index blocks (be_target edge) Hnd).
  destruct (collect_map _ !! be_target edge) as [i|]; cbn; [|by rewrite list_insert_id].
  rewrite Hnow. destruct (blocks !! i) as [target|]; cbn; [|by rewrite list_insert_id].
  do 3 f_equal. destruct (decide (i < k)%nat); [|done].
  apply exception_args_shape; by destruct (populated_shape blocks target) as (_ & _ & ? & ? & _).
Qed.

Lemma populate_map blocks :
  NoDup (labels blocks) -> populate_exception_edge_args blocks = map (populated blocks) blocks.
Proof.
  intros Hnd. unfold populate_exception_edge_args. rewrite populate_prefix by done.
  by rewrite firstn_all, drop_all, app_nil_r.
Qed.

Lemma bb_params_perm params : bb_params params ≡ₚ params.
Proof.
  unfold bb_params. induction params as [|[name role] params IH]; [done|].
  cbn in *. rewrite app_nil_r in *.
  destruct role; cbn; repeat case_bool_decide; try congruence;
    cbn [app]; rewrite <- ?Permutation_middle; by apply perm_skip.
Qed.

Lemma bb_block_labels blocks : labels (map bb_block blocks) = labels blocks.
Proof. unfold labels. by rewrite map_map. Qed.

Lemma lower_blocks_map blocks :
  NoDup (labels blocks) ->
  lower_structured_blocks_to_bb_blocks blocks
  = map (populated (map bb_block blocks)) (map bb_block blocks).
Proof. intros Hnd. apply populate_map. by rewrite bb_block_labels. Qed.

Lemma populated_labels blocks : labels (map (populated blocks) blocks) = labels blocks.
Proof.
  unfold labels. rewrite map_map. apply map_ext. intros b. by destruct (populated_shape blocks b).
Qed.

(** An argument the lowering chose never is an abrupt kind. *)
Lemma exception_arg_kind source target name kind : exception_arg source target name <> BA_AbruptKind kind.
Proof. unfold exception_arg. by repeat case_match. Qed.

(** The edge of a populated block carries one argument for every parameter of its target. *)
Lemma populated_edge blocks b e target :
  blk_exc_edge (populated blocks b) = Some e -> find_block (be_target e) blocks = Some target ->
  length (be_args e) = length (blk_params target)
  /\ forall arg kind, arg ∈ be_args e -> arg <> BA_AbruptKind kind.
Proof.
  unfold populated. destruct (blk_exc_edge b) as [edge|] eqn:Ee; [|by rewrite Ee].
  destruct (find_block (be_target edge) blocks) as [t|] eqn:Ef; cbn; [|rewrite Ee]; intros [= <-] Ht;
    [|congruence]. cbn in Ht. rewrite Ef in Ht. injection Ht as <-. split.
  - cbn. unfold param_name_vec. by rewrite !length_map.
  - intros arg kind. cbn. intros (name & -> & _)%list_elem_of_fmap. apply exception_arg_kind.
Qed.

Lemma validate_exception_args function b (e : BlockEdge) target :
  lookup_known_block function (be_target e) (blk_label b) "exception target" = Ok target ->
  length (be_args e) = length (blk_params target) ->
  (forall arg kind, arg ∈ be_args e -> arg <> BA_AbruptKind kind) ->
  validate_exception_edge function b e = Ok tt.
Proof.
  intros Hl Hlen Hk. unfold validate_exception_edge. rewrite Hl. cbn.
  rewrite bool_decide_eq_true_2 by done. cbn. apply for_each_ok, Forall_forall.
  intros [param arg] Hin. apply list_elem_of_lookup in Hin as [i Hi].
  apply lookup_zip_with_Some in Hi as (x & y & [= <- <-] & _ & Hy).
  destruct arg; try done. exfalso. by eapply Hk, eq_refl; eapply list_elem_of_lookup_2.
Qed.

(** C29: Lowering structured blocks to basic blocks and then numbering them densely produces
    exception edges that the validator accepts: the parameters of every block are only
    reordered, the control flow of every block is kept, and after the relabelling every
    exception edge passes one argument for each parameter of the handler it reaches and no
    abrupt kind. *)
Theorem lowered_exception_edges_valid blocks blocks' id qualname kind :
  NoDup (labels blocks) ->
  relabel_blockpy_blocks_dense (lower_structured_blocks_to_bb_blocks blocks) = Some blocks' ->
  Forall2 (fun b b' => blk_body b' = blk_body b /\ blk_params b' ≡ₚ blk_params b) blocks blocks'
  /\ forall b e, b ∈ blocks' -> blk_exc_edge b = Some e ->
       validate_exception_edge (mkBlockPyFunction id qualname kind blocks') b e = Ok tt.
Proof.
  intros Hnd H. rewrite lower_blocks_map in H by done.
  set (bb := map bb_block blocks) in *.
  assert (NoDup (labels bb)) as Hbb by (unfold bb; by rewrite bb_block_labels).
  assert (NoDup (labels (map (populated bb) bb))) as Hpop by (by rewrite populated_labels).
  pose proof (relabel_dense_blocks _ _ H) as Hr. split.
  - clear -Hr. subst bb. pose proof (proj1 (Forall2_fmap_l _ _ _ _) (proj1 (Forall2_fmap_l _ _ _ _) Hr)) as Hb.
    eapply Forall2_impl; [exact Hb|]. cbn. clear Hr Hb. intros b b' Hb.
    apply relabel_block_inv in Hb as (_ & Eb & Ep & _).
    destruct (populated_shape (map bb_block blocks) (bb_block b)) as (_ & Eb' & _ & Ep' & _).
    rewrite Eb, Ep, Eb', Ep'. split; [done|]. apply bb_params_perm.
  - intros b' e' Hb' He'. apply list_elem_of_lookup in Hb' as [i Hi].
    destruct (Forall2_lookup_r _ _ _ _ _ Hr Hi) as (b & Hb & Hrel).
    apply relabel_block_inv in Hrel as (_ & _ & _ & _ & _ & Hx & _).
    rewrite He' in Hx. destruct (blk_exc_edge b) as [e|] eqn:Ee; cbn in Hx; [|done].
    destruct (collect_map _ !! be_target e) as [t|] eqn:Et; cbn in Hx; [|done]. injection Hx as <-.
    apply sigma_some in Et as (j & target & Hj & El & ->); [|done].
    destruct (Forall2_lookup_l _ _ _ _ _ Hr Hj) as (target' & Hj' & Hrel').
    apply relabel_block_inv in Hrel' as (Hl' & _ & Ep & _).
    assert (blk_label target' = dense_label j) as Hdense.
    { apply sigma_some in Hl' as (j' & target'' & Hj'' & El' & ->); [|done]. f_equal.
      eapply (NoDup_lookup (labels (map (populated bb) bb))); [done|..];
        unfold labels; rewrite list_lookup_fmap; [by rewrite Hj''|by rewrite Hj, El']. }
    rewrite list_lookup_fmap in Hb, Hj.
    destruct (bb !! i) as [b0|] eqn:Eb0; cbn in Hb; [|done]. injection Hb as <-.
    destruct (bb !! j) as [t0|] eqn:Et0; cbn in Hj; [|done]. injection Hj as <-.
    destruct (populated_shape bb t0) as (Elt & _ & _ & Ept & _).
    destruct (populated_edge bb b0 e t0) as [Hlen Hkind]; [done| |].
    { rewrite <- El, Elt. apply find_block_elem; [done|]. by eapply list_elem_of_lookup_2. }
    eapply (validate_exception_args _ _ _ target').
    + apply lookup_known_block_ok. cbn. by rewrite Nat2Z.id.
    + cbn. by rewrite Hlen, Ep, Ept.
    + done.
Qed.
End lowering.

(** A body that raises into a handler with an exception and a value parameter. *)
Module EdgeDemo.
Definition body : Block nat :=
  mkBlock (mkBlockLabel 5) [1%nat] (BT_Return 2%nat) [mkBlockParam "x" BPR_Value]
    (Some (edge_new (mkBlockLabel 7))) block_context_default.
Definition handler : Block nat :=
  mkBlock (mkBlockLabel 7) [3%nat] (BT_Return 4%nat)
    [mkBlockParam "e" BPR_Exception; mkBlockParam "x" BPR_Value; mkBlockParam "y" BPR_Value]
    None block_context_default.
Definition lowered : option (list (Block nat)) :=
  relabel_blockpy_blocks_dense (lower_structured_blocks_to_bb_blocks [body; handler]).
(** The edge of the numbered body: the handler now takes [x], [y] and then the exception. *)
Definition edge : BlockEdge :=
  mkBlockEdge (mkBlockLabel 1) [BA_Name "x"; BA_None; BA_CurrentException].
End EdgeDemo.

Lemma lowered_exception_edges_valid_witness :
  exists b b', EdgeDemo.lowered = Some [b; b'] /\ blk_exc_edge b = Some EdgeDemo.edge /\
    validate_exception_edge (mkBlockPyFunction GLOBAL "f" FK_Function [b; b']) b EdgeDemo.edge = Ok tt.
Proof.
  do 2 eexists. split; [vm_compute; reflexivity|]. split; [reflexivity|].
  refine (proj2 (lowered_exception_edges_valid [EdgeDemo.body; EdgeDemo.handler] _ GLOBAL "f" FK_Function
    _ _) _ _ _ _).
  - apply (bool_decide_unpack _). vm_compute. exact Logic.I.
  - vm_compute. reflexivity.
  - apply list_elem_of_here.
  - reflexivity.
Defined.
