(* ===== verification/Resolved.v ===== *)
(** * Instructions of resolved storage

    [InstrResolved] of crates/soac_lowering/src/passes/mod.rs, the form the exception pass works
    on: a literal, or one of the operations shared with the lowered form.  Every name has a
    physical location; local and preserved locations are slots. *)

From stdpp Require Import gmap.
From S2P Require Import Prelude Ids Cfg Names Instr Layout.

Local Open Scope Z_scope.

Inductive InstrResolved : Type :=
| R_Literal (value : Literal)
| R_Node (op : InstrOp) (children : list InstrResolved).

Definition resolved_term_instrs (t : BlockTerm InstrResolved) : list InstrResolved :=
  match t with
  | BT_Jump _ => []
  | BT_If if_term => [ti_test if_term]
  | BT_BranchTable branch => [tb_index branch]
  | BT_Raise raise => option_list (tr_exc raise)
  | BT_Return value | BT_GeneratorReturn value => [value]
  end.

(** The instructions of a block in the order [visit_block] reaches them. *)
Definition resolved_block_instrs (b : Block InstrResolved) : list InstrResolved :=
  blk_body b ++ resolved_term_instrs (blk_term b).

Section induction.
Variable P : InstrResolved -> Prop.
Hypothesis literal : forall value, P (R_Literal value).
Hypothesis node : forall op children, Forall P children -> P (R_Node op children).

Fixpoint InstrResolved_tree_ind (i : InstrResolved) : P i :=
  match i with
  | R_Literal value => literal value
  | R_Node op children =>
      node op children
        ((fix go (l : list InstrResolved) : Forall P l :=
            match l with
            | [] => @List.Forall_nil _ P
            | c :: l => @List.Forall_cons _ P c l (InstrResolved_tree_ind c) (go l)
            end) children)
  end.
End induction.

(** Every node, parents first. *)
Fixpoint resolved_pre (i : InstrResolved) : list InstrResolved :=
  match i with
  | R_Literal _ => [i]
  | R_Node _ children => i :: concat (map resolved_pre children)
  end.

(** ** Locations as keys *)

Definition location_code (l : NameLocation) : nat * Z * Z :=
  match l with
  | NL_Local location => (0%nat, local_slot location, 0)
  | NL_Preserved location => (1%nat, preserved_location_slot location, 0)
  | NL_GlobalName => (2%nat, 0, 0)
  | NL_Global slot => (3%nat, global_slot slot, 0)
  | NL_RuntimeName name => (4%nat, runtime_name_id name, 0)
  | NL_Cell (CL_Owned slot) => (5%nat, slot, 0)
  | NL_Cell (CL_Preserved slot) => (5%nat, slot, 1)
  | NL_Cell (CL_Closure slot) => (5%nat, slot, 2)
  | NL_Cell (CL_CapturedSource slot) => (5%nat, slot, 3)
  | NL_Cell (CL_Private slot) => (5%nat, slot, 4)
  | NL_Constant index => (6%nat, index, 0)
  end.
Definition location_decode (c : nat * Z * Z) : option NameLocation :=
  match c with
  | (0%nat, slot, _) => Some (NL_Local (mkLocalLocation slot))
  | (1%nat, slot, _) => Some (NL_Preserved (mkPreservedLocation slot))
  | (2%nat, _, _) => Some NL_GlobalName
  | (3%nat, slot, _) => Some (NL_Global (mkGlobalSlot slot))
  | (4%nat, id, _) => NL_RuntimeName <$> runtime_name_from_id id
  | (5%nat, slot, 0) => Some (NL_Cell (CL_Owned slot))
  | (5%nat, slot, 1) => Some (NL_Cell (CL_Preserved slot))
  | (5%nat, slot, 2) => Some (NL_Cell (CL_Closure slot))
  | (5%nat, slot, 3) => Some (NL_Cell (CL_CapturedSource slot))
  | (5%nat, slot, _) => Some (NL_Cell (CL_Private slot))
  | (_, index, _) => Some (NL_Constant index)
  end.
#[global] Program Instance NameLocation_countable : Countable NameLocation :=
  inj_countable location_code location_decode _.
Next Obligation.
  intros [[]|[]| |[]|r|[]|]; try reflexivity.
  change (NL_RuntimeName <$> runtime_name_from_id (runtime_name_id r) = Some (NL_RuntimeName r)).
  by rewrite runtime_name_from_id_id.
Qed.

Definition is_slot (l : NameLocation) : bool :=
  match l with NL_Local _ | NL_Preserved _ => true | _ => false end.

(** ** Functions *)

(** What the exception pass uses of a [BlockPyFunction] of resolved storage. *)
Record ResolvedFunction : Type := mkResolvedFunction {
  rf_function_id : RuntimeFunctionId;
  rf_qualname : string;
  rf_kind : FunctionKind;
  rf_name_gen : FunctionNameGen;
  rf_storage_layout : option StorageLayout;
  rf_blocks : list (Block InstrResolved)
}.
Definition with_resolved_blocks (f : ResolvedFunction) (blocks : list (Block InstrResolved)) :
    ResolvedFunction :=
  mkResolvedFunction (rf_function_id f) (rf_qualname f) (rf_kind f) (rf_name_gen f) (rf_storage_layout f) blocks.
Definition with_resolved_layout (f : ResolvedFunction) (layout : option StorageLayout) :
    ResolvedFunction :=
  mkResolvedFunction (rf_function_id f) (rf_qualname f) (rf_kind f) (rf_name_gen f) layout (rf_blocks f).

(** [next_block_name], with its panic. *)
Definition fresh_label (s : Store) (g : FunctionNameGen) : option (Store * BlockLabel) :=
  '(s, label) ← next_block_name s g; label ← label; Some (s, label).
