(* ===== verification/ResolvedSem.v ===== *)
(** * Executions of resolved blocks

    The specification the exception pass is judged by.  The slots of a frame hold objects; a
    [world] stands for everything else.  What an operation computes is a relation, of which
    nothing is assumed; which slots it reads and changes is fixed here, from the documented
    meaning of the instructions.  An operation may raise instead of returning, and then control
    goes to the block's exception edge. *)

From stdpp Require Import gmap.
From S2P Require Import Prelude Ids Cfg CfgProps Names Instr Layout Resolved.

Class ResolvedRuntime (World Value : Type) : Type := {
  literal_value : Literal -> Value;
  (** world, contents of the slots read, values of the children; world after, result *)
  result_of : InstrOp -> World -> list (option Value) -> list Value -> World -> Value -> Prop;
  raises : InstrOp -> World -> list (option Value) -> list Value -> World -> Value -> Prop;
  (** the replaced argument buffer *)
  new_buffer : InstrOp -> World -> list (option Value) -> list Value -> Value -> Prop;
  truth : Value -> bool -> Prop;
  branch_index : Value -> nat -> Prop;
  current_exception : World -> option Value;
  none_value : Value;
  kind_value : AbruptKind -> Value
}.

(** The slots an operation reads itself, beside those its children read.  A quiet delete does
    not look at its slot. *)
Definition slots_read (op : InstrOp) : list NameLocation :=
  match op with
  | Op_Load name _ | Op_TakeOperand name | Op_IteratorStep name | Op_Del name false =>
      [rn_location name]
  | Op_CallArgumentOp _ callable buffer => [rn_location callable; rn_location buffer]
  | Op_ComprehensionInsert _ container => [rn_location container]
  | _ => []
  end.

Section semantics.
Context {World Value : Type} `{!ResolvedRuntime World Value}.
Notation Slots := (gmap NameLocation Value).
Implicit Types (w : World) (σ : Slots) (v e : Value).

Definition set_slot (l : NameLocation) (v : Value) (σ : Slots) : Slots :=
  if is_slot l then <[l := v]> σ else σ.

(** The slots after an operation that returned, with the new buffer when one is needed. *)
Inductive effect : InstrOp -> World -> Slots -> list Value -> Slots -> Prop :=
| Eff_Store name lifetime purpose w σ v :
    effect (Op_Store name lifetime purpose) w σ [v] (set_slot (rn_location name) v σ)
| Eff_Del name quietly w σ vs :
    effect (Op_Del name quietly) w σ vs (delete (rn_location name) σ)
| Eff_Take name w σ vs : effect (Op_TakeOperand name) w σ vs (delete (rn_location name) σ)
| Eff_Buffer kind callable buffer w σ vs v :
    replaces_buffer kind = true ->
    new_buffer (Op_CallArgumentOp kind callable buffer) w
      (map (σ !!.) (slots_read (Op_CallArgumentOp kind callable buffer))) vs v ->
    effect (Op_CallArgumentOp kind callable buffer) w σ vs (set_slot (rn_location buffer) v σ)
| Eff_None op w σ vs :
    match op with
    | Op_Store _ _ _ | Op_Del _ _ | Op_TakeOperand _ => false
    | Op_CallArgumentOp kind _ _ => negb (replaces_buffer kind)
    | _ => true
    end = true ->
    effect op w σ vs σ.
(** The slots after an operation that raised: finishing a positional list gives its buffer
    away before the helper runs. *)
Inductive raise_effect : InstrOp -> Slots -> Slots -> Prop :=
| Raise_Keep op σ : raise_effect op σ σ
| Raise_Consumed kind callable buffer σ :
    consumes_buffer_before_helper kind = true ->
    raise_effect (Op_CallArgumentOp kind callable buffer) σ (delete (rn_location buffer) σ).

Inductive Outcome (A : Type) : Type := Normal (a : A) | Raising (e : Value).
#[global] Arguments Normal {A} a.
#[global] Arguments Raising {A} e.

Inductive ev : World -> Slots -> InstrResolved -> World -> Slots -> Outcome Value -> Prop :=
| Ev_Literal w σ l : ev w σ (R_Literal l) w σ (Normal (literal_value l))
| Ev_Node w σ op children w1 σ1 vs w2 σ2 v :
    evs w σ children w1 σ1 (Normal vs) ->
    result_of op w1 (map (σ1 !!.) (slots_read op)) vs w2 v -> effect op w1 σ1 vs σ2 ->
    ev w σ (R_Node op children) w2 σ2 (Normal v)
| Ev_Raise w σ op children w1 σ1 vs w2 σ2 e :
    evs w σ children w1 σ1 (Normal vs) ->
    raises op w1 (map (σ1 !!.) (slots_read op)) vs w2 e -> raise_effect op σ1 σ2 ->
    ev w σ (R_Node op children) w2 σ2 (Raising e)
| Ev_Child w σ op children w1 σ1 e :
    evs w σ children w1 σ1 (Raising e) -> ev w σ (R_Node op children) w1 σ1 (Raising e)
with evs : World -> Slots -> list InstrResolved -> World -> Slots -> Outcome (list Value) -> Prop :=
| Evs_Nil w σ : evs w σ [] w σ (Normal [])
| Evs_Cons w σ i l w1 σ1 v w2 σ2 vs :
    ev w σ i w1 σ1 (Normal v) -> evs w1 σ1 l w2 σ2 (Normal vs) -> evs w σ (i :: l) w2 σ2 (Normal (v :: vs))
| Evs_Head w σ i l w1 σ1 e :
    ev w σ i w1 σ1 (Raising e) -> evs w σ (i :: l) w1 σ1 (Raising e)
| Evs_Tail w σ i l w1 σ1 v w2 σ2 e :
    ev w σ i w1 σ1 (Normal v) -> evs w1 σ1 l w2 σ2 (Raising e) -> evs w σ (i :: l) w2 σ2 (Raising e).

(** ** Edges *)

(** The slot of a block parameter or a named argument. *)
Context (slot_of : string -> option NameLocation).

Definition arg_value (current : option Value) (σ : Slots) (arg : BlockArg) : option Value :=
  match arg with
  | BA_Name name => slot_of name ≫= (σ !!.)
  | BA_None => Some none_value
  | BA_CurrentException => current
  | BA_AbruptKind kind => Some (kind_value kind)
  end.
(** The explicit arguments are for the last parameters; all are read before any is bound. *)
Definition edge_pairs (params : list BlockParam) (args : list BlockArg) : list (BlockParam * BlockArg) :=
  zip (drop (length params - length args) params) args.
Definition bind_pair (current : option Value) (σ0 : Slots) (σ : Slots) (pair : BlockParam * BlockArg) :
    Slots :=
  match slot_of (bp_name pair.1) with
  | Some l => partial_alter (fun _ => arg_value current σ0 pair.2) l σ
  | None => σ
  end.
Definition bind_params (current : option Value) (params : list BlockParam) (args : list BlockArg)
    (σ : Slots) : Slots :=
  fold_left (bind_pair current σ) (edge_pairs params args) σ.

(** ** Blocks *)

Inductive FrameExit : Type := FE_Returned (v : Value) | FE_Completed (v : Value) | FE_Escaped (e : Value).
Inductive Config : Type :=
| Running (label : BlockLabel) (w : World) (σ : Slots)
| Done (exit : FrameExit) (w : World) (σ : Slots).

Section blocks.
Context (blocks : list (Block InstrResolved)).

Definition params_at (label : BlockLabel) : list BlockParam :=
  from_option blk_params [] (find_block label blocks).
Definition follow (current : option Value) (edge : BlockEdge) (w : World) (σ : Slots) : Config :=
  Running (be_target edge) w (bind_params current (params_at (be_target edge)) (be_args edge) σ).

(** The terminator returns a configuration or raises. *)
Inductive term_step : BlockTerm InstrResolved -> World -> Slots -> Config -> Prop :=
| TS_Jump edge w σ : term_step (BT_Jump edge) w σ (follow (current_exception w) edge w σ)
| TS_If i w σ w1 σ1 v b :
    ev w σ (ti_test i) w1 σ1 (Normal v) -> truth v b ->
    term_step (BT_If i) w σ (Running (if b then ti_then_label i else ti_else_label i) w1 σ1)
| TS_Branch i w σ w1 σ1 v n :
    ev w σ (tb_index i) w1 σ1 (Normal v) -> branch_index v n ->
    term_step (BT_BranchTable i) w σ
      (Running (default (tb_default_label i) (tb_targets i !! n)) w1 σ1)
| TS_Return i w σ w1 σ1 v :
    ev w σ i w1 σ1 (Normal v) -> term_step (BT_Return i) w σ (Done (FE_Returned v) w1 σ1)
| TS_Complete i w σ w1 σ1 v :
    ev w σ i w1 σ1 (Normal v) -> term_step (BT_GeneratorReturn i) w σ (Done (FE_Completed v) w1 σ1).
Inductive term_raise : BlockTerm InstrResolved -> World -> Slots -> World -> Slots -> Value -> Prop :=
| TR_Instr t i w σ w1 σ1 e :
    i ∈ resolved_term_instrs t -> ev w σ i w1 σ1 (Raising e) -> term_raise t w σ w1 σ1 e
| TR_Raise r i w σ w1 σ1 e :
    tr_exc r = Some i -> ev w σ i w1 σ1 (Normal e) -> term_raise (BT_Raise r) w σ w1 σ1 e
| TR_Current r w σ e :
    tr_exc r = None -> current_exception w = Some e -> term_raise (BT_Raise r) w σ w σ e.

(** An exception leaves a block through its edge, or the function. *)
Definition throw (b : Block InstrResolved) (e : Value) (w : World) (σ : Slots) : Config :=
  match blk_exc_edge b with
  | Some edge => follow (Some e) edge w σ
  | None => Done (FE_Escaped e) w σ
  end.
Inductive block_step : Config -> Config -> Prop :=
| Step_Term label b w σ w1 σ1 vs c :
    find_block label blocks = Some b -> evs w σ (blk_body b) w1 σ1 (Normal vs) ->
    term_step (blk_term b) w1 σ1 c -> block_step (Running label w σ) c
| Step_Body label b w σ w1 σ1 e :
    find_block label blocks = Some b -> evs w σ (blk_body b) w1 σ1 (Raising e) ->
    block_step (Running label w σ) (throw b e w1 σ1)
| Step_Raise label b w σ w1 σ1 vs w2 σ2 e :
    find_block label blocks = Some b -> evs w σ (blk_body b) w1 σ1 (Normal vs) ->
    term_raise (blk_term b) w1 σ1 w2 σ2 e -> block_step (Running label w σ) (throw b e w2 σ2).
Definition runs : Config -> Config -> Prop := rtc block_step.
End blocks.
End semantics.

(** ** Frames that differ outside the slots that matter *)

Section agreement.
Context {World Value : Type} `{!ResolvedRuntime World Value}.
Notation Slots := (gmap NameLocation Value).

Definition agree_off (D : gset NameLocation) (σ1 σ2 : Slots) : Prop :=
  forall l, l ∉ D -> σ1 !! l = σ2 !! l.

Lemma agree_off_mono D D' σ1 σ2 : D ⊆ D' -> agree_off D σ1 σ2 -> agree_off D' σ1 σ2.
Proof. intros Hs H l Hl. apply H. set_solver. Qed.
Lemma agree_off_refl D σ : agree_off D σ σ.
Proof. done. Qed.
Lemma agree_off_set D l v σ1 σ2 :
  agree_off D σ1 σ2 -> agree_off D (set_slot l v σ1) (set_slot l v σ2)
  /\ (is_slot l = true -> agree_off (D ∖ {[l]}) (set_slot l v σ1) (set_slot l v σ2)).
Proof.
  unfold set_slot. intros H. destruct (is_slot l); [|done]. split; [|intros _]; intros l' Hl';
    (destruct (decide (l' = l)) as [->|]; [by rewrite !lookup_insert_eq|rewrite !lookup_insert_ne by done]);
    apply H; set_solver.
Qed.
Lemma agree_off_delete D l σ1 σ2 :
  agree_off D σ1 σ2 -> agree_off (D ∖ {[l]}) (delete l σ1) (delete l σ2).
Proof.
  intros H l' Hl'. destruct (decide (l' = l)) as [->|]; [by rewrite !lookup_delete_eq|].
  rewrite !lookup_delete_ne by done. apply H. set_solver.
Qed.
Lemma agree_off_reads D ls σ1 σ2 :
  agree_off D σ1 σ2 -> (forall l, l ∈ ls -> l ∉ D) -> map (σ1 !!.) ls = map (σ2 !!.) ls.
Proof.
  intros H. induction ls as [|l ls IH]; intros Hl; [done|]. cbn. rewrite IH by set_solver.
  rewrite (H l) by set_solver. done.
Qed.

(** Every slot the instruction may read. *)
Fixpoint tree_reads (i : InstrResolved) : list NameLocation :=
  match i with
  | R_Literal _ => []
  | R_Node op children => concat (map tree_reads children) ++ slots_read op
  end.
(** The slot an operation certainly changes when it returns. *)
Definition overwrites (op : InstrOp) : list NameLocation :=
  match op with
  | Op_Store name _ _ | Op_Del name _ | Op_TakeOperand name => [rn_location name]
  | Op_CallArgumentOp kind _ buffer => if replaces_buffer kind then [rn_location buffer] else []
  | _ => []
  end.
Definition tree_overwrites (i : InstrResolved) : list NameLocation :=
  match i with R_Literal _ => [] | R_Node op _ => overwrites op end.
Definition is_normal {A} (o : Outcome (Value := Value) A) : bool := match o with Normal _ => true | Raising _ => false end.

Lemma effect_agree op w σ1 σ2 vs σ1' D :
  effect op w σ1 vs σ1' -> agree_off D σ1 σ2 -> (forall l, l ∈ slots_read op -> l ∉ D) ->
  exists σ2', effect op w σ2 vs σ2' /\ agree_off D σ1' σ2'
    /\ ((forall l, l ∈ overwrites op -> is_slot l = true) ->
        agree_off (D ∖ list_to_set (overwrites op)) σ1' σ2').
Proof.
  intros He Ha Hr. inversion He; subst.
  - eexists. split; [constructor|]. cbn. rewrite union_empty_r_L.
    destruct (agree_off_set D (rn_location name) v _ _ Ha) as [? Hs]. split; [done|].
    intros Hl. apply Hs. set_solver.
  - eexists. split; [constructor|]. cbn. rewrite union_empty_r_L.
    pose proof (agree_off_delete D (rn_location name) _ _ Ha) as Hd. split; [|done].
    eapply agree_off_mono; [|exact Hd]. set_solver.
  - eexists. split; [constructor|]. cbn. rewrite union_empty_r_L.
    pose proof (agree_off_delete D (rn_location name) _ _ Ha) as Hd. split; [|done].
    eapply agree_off_mono; [|exact Hd]. set_solver.
  - eexists. split; [eapply Eff_Buffer; [done|]|].
    + rewrite <- (agree_off_reads D _ σ1 σ2); [eassumption|done|exact Hr].
    + cbn. rewrite H. cbn. rewrite union_empty_r_L.
      destruct (agree_off_set D (rn_location buffer) v _ _ Ha) as [? Hs]. split; [done|].
      intros Hl. apply Hs. set_solver.
  - exists σ2. split; [by constructor|]. split; [done|]. intros _.
    assert (overwrites op = []) as ->; [|cbn; by rewrite difference_empty_L].
    destruct op; cbn in *; try done. by destruct (replaces_buffer kind).
Qed.

Lemma raise_effect_agree op σ1 σ2 σ1' D :
  raise_effect op σ1 σ1' -> agree_off D σ1 σ2 -> exists σ2', raise_effect op σ2 σ2' /\ agree_off D σ1' σ2'.
Proof.
  intros He Ha. inversion He; subst.
  - eexists. split; [constructor|done].
  - eexists. split; [by apply Raise_Consumed|]. eapply agree_off_mono; [|by apply agree_off_delete]. set_solver.
Qed.

(** Reading only slots on which two frames agree, an instruction does the same in both. *)
Definition ev_agrees (i : InstrResolved) : Prop :=
  forall D w σ1 w' σ1' o σ2, ev w σ1 i w' σ1' o -> agree_off D σ1 σ2 ->
    (forall l, l ∈ tree_reads i -> l ∉ D) ->
    exists σ2', ev w σ2 i w' σ2' o /\ agree_off D σ1' σ2'
      /\ (is_normal o = true -> (forall l, l ∈ tree_overwrites i -> is_slot l = true) ->
          agree_off (D ∖ list_to_set (tree_overwrites i)) σ1' σ2').

Lemma evs_agree l :
  Forall ev_agrees l ->
  forall D w σ1 w' σ1' o σ2, evs w σ1 l w' σ1' o -> agree_off D σ1 σ2 ->
    (forall x, x ∈ concat (map tree_reads l) -> x ∉ D) ->
    exists σ2', evs w σ2 l w' σ2' o /\ agree_off D σ1' σ2'.
Proof.
  induction 1 as [|i l Hi _ IH]; intros D w σ1 w' σ1' o σ2 He Ha Hr.
  { inversion He; subst. exists σ2. split; [constructor|done]. }
  cbn in Hr. setoid_rewrite elem_of_app in Hr.
  inversion He; subst;
    match goal with H : ev _ _ i _ _ _ |- _ =>
      destruct (Hi D _ _ _ _ _ σ2 H Ha) as (σ3 & E3 & A3 & _); [auto|] end.
  - match goal with H : evs _ _ l _ _ _ |- _ =>
      destruct (IH D _ _ _ _ _ σ3 H A3) as (σ4 & E4 & A4); [auto|] end.
    exists σ4. split; [by econstructor|done].
  - exists σ3. split; [by apply Evs_Head|done].
  - match goal with H : evs _ _ l _ _ _ |- _ =>
      destruct (IH D _ _ _ _ _ σ3 H A3) as (σ4 & E4 & A4); [auto|] end.
    exists σ4. split; [by eapply Evs_Tail|done].
Qed.

Lemma ev_agree i : ev_agrees i.
Proof.
  induction i as [value|op children IH] using InstrResolved_tree_ind; intros D w σ1 w' σ1' o σ2 He Ha Hr.
  { inversion He; subst. exists σ2. split; [constructor|]. split; [done|]. intros _ _. cbn.
    by rewrite difference_empty_L. }
  cbn in Hr. setoid_rewrite elem_of_app in Hr.
  inversion He; subst;
    match goal with H : evs _ _ children _ _ _ |- _ =>
      destruct (evs_agree _ IH D _ _ _ _ _ σ2 H Ha) as (σ3 & E3 & A3); [auto|] end.
  - match goal with H : effect _ _ _ _ _ |- _ =>
      destruct (effect_agree _ _ _ _ _ _ _ H A3) as (σ4 & E4 & A4 & A5); [auto|] end.
    exists σ4. split; [|done]. eapply Ev_Node; [exact E3| |exact E4].
    erewrite <- agree_off_reads; [eassumption|exact A3|auto].
  - match goal with H : raise_effect _ _ _ |- _ =>
      destruct (raise_effect_agree _ _ _ _ _ H A3) as (σ4 & E4 & A4) end.
    exists σ4. split; [|done]. eapply Ev_Raise; [exact E3| |exact E4].
    erewrite <- agree_off_reads; [eassumption|exact A3|auto].
  - exists σ3. split; [by apply Ev_Child|done].
Qed.
End agreement.
