(* ===== verification/Roles.v ===== *)
(** * Control roles of resolved block parameters

    crates/soac_lowering/src/passes/block_parameter_roles.rs: the roles that producers declared
    for block parameters are recorded at the physical slots, and follow the marked raw copies
    between local and preserved slots until nothing changes. *)

From stdpp Require Import gmap.
From S2P Require Import Prelude Ids Cfg Names Instr Layout Resolved.

Local Open Scope Z_scope.

(** ** The marked copies *)

(** The copy of one marked store: at statement level, of a load that is not of a cell,
    between a local and a preserved slot; anything else panics. *)
Definition transport_copy (nested : bool) (destination : ResolvedName) (value : list InstrResolved) :
    option (ResolvedName * ResolvedName) :=
  match nested, value with
  | false, [R_Node (Op_Load source None) []] =>
      match rn_location source, rn_location destination with
      | NL_Local _, NL_Preserved _ | NL_Preserved _, NL_Local _ => Some (source, destination)
      | _, _ => None
      end
  | _, _ => None
  end.
Fixpoint visit_copies (nested : bool) (i : InstrResolved) : option (list (ResolvedName * ResolvedName)) :=
  match i with
  | R_Literal _ => Some []
  | R_Node op children =>
      own ← match op with
            | Op_Store name _ SP_BlockParameterTransport =>
                copy ← transport_copy nested name children; Some [copy]
            | _ => Some []
            end;
      below ← mapM (visit_copies true) children;
      Some (own ++ concat below)
  end.
Definition block_copies (b : Block InstrResolved) : option (list (ResolvedName * ResolvedName)) :=
  body ← mapM (visit_copies false) (blk_body b);
  term ← mapM (visit_copies true) (resolved_term_instrs (blk_term b));
  Some (concat body ++ concat term).
Definition block_parameter_transport_copies (blocks : list (Block InstrResolved)) :
    option (list (ResolvedName * ResolvedName)) :=
  copies ← mapM block_copies blocks; Some (concat copies).

(** ** Recording the roles *)

Definition Copy : Type := (NameLocation * NameLocation)%type.
Definition copy_locations (copy : ResolvedName * ResolvedName) : Copy :=
  (rn_location copy.1, rn_location copy.2).

(** The slots of one control parameter; a panic is [None]. *)
Definition declared_roles_of (layout : StorageLayout) (parameter : BlockParam) :
    option (list ResolvedBlockParameterRole) :=
  if bool_decide (bp_role parameter = BPR_Value) then Some []
  else
    '(local, _) ← list_find (fun name => name = bp_name parameter) (sl_stack_slots layout);
    slot ← index_u32 local;
    preserved ← mapM index_u32
      (matching_indices (fun slot =>
         negb (bool_decide (ps_storage slot = PS_PyCellObject))
         && (bool_decide (ps_logical_name slot = bp_name parameter)
             || bool_decide (ps_storage_name slot = bp_name parameter))) (sl_preserved_slots layout));
    Some (mkResolvedRole (NL_Local (mkLocalLocation slot)) (bp_role parameter)
          :: map (fun index => mkResolvedRole (NL_Preserved (mkPreservedLocation index)) (bp_role parameter))
               preserved).
Definition declared_roles (layout : StorageLayout) (parameters : list BlockParam) :
    option (list ResolvedBlockParameterRole) :=
  ls ← mapM (declared_roles_of layout) parameters; Some (concat ls).

Definition record_binding (l : StorageLayout) (b : ResolvedBlockParameterRole) : StorageLayout :=
  record_block_parameter_role l (rr_location b) (rr_role b).
Definition propagate_copy (l : StorageLayout) (copy : Copy) : StorageLayout :=
  fold_left (fun l role => record_block_parameter_role l copy.2 role)
    (block_parameter_roles_at l copy.1) l.
Definition propagate_round (copies : list Copy) (l : StorageLayout) : StorageLayout :=
  fold_left propagate_copy copies l.
Fixpoint propagate_loop (fuel : nat) (copies : list Copy) (l : StorageLayout) : option StorageLayout :=
  match fuel with
  | O => None
  | S fuel =>
      let after := propagate_round copies l in
      if bool_decide (length (sl_block_parameter_roles after) = length (sl_block_parameter_roles l))
      then Some after else propagate_loop fuel copies after
  end.

(** Every binding the loop can add: a destination of a copy with a role that is there. *)
Definition role_universe (copies : list Copy) (l : StorageLayout) : list ResolvedBlockParameterRole :=
  map (fun p => mkResolvedRole p.1 p.2)
    (list_prod (map snd copies) (map rr_role (sl_block_parameter_roles l))).
Definition role_fuel (copies : list Copy) (l : StorageLayout) : nat := S (length (role_universe copies l)).

(** [None] is a panic: a control parameter without a local slot, a slot outside [u32], a
    malformed copy, or roles that do not validate. *)
Definition record_resolved_block_parameter_roles (blocks : list (Block InstrResolved))
    (layout : option StorageLayout) : option (option StorageLayout) :=
  match layout with
  | None => Some None
  | Some layout =>
      let parameters := concat (map blk_params blocks) in
      declared ← declared_roles layout parameters;
      copies ← block_parameter_transport_copies blocks;
      let copies := map copy_locations copies in
      let layout := fold_left record_binding declared layout in
      layout ← propagate_loop (role_fuel copies layout) copies layout;
      if is_ok (validate_block_parameter_roles layout)
         && is_ok (validate_block_parameter_declarations layout parameters)
      then Some (Some layout) else None
  end.

(** ** Recording grows the list of roles *)

Notation roles := sl_block_parameter_roles.

Lemma roles_with_roles l rs : roles (with_roles l rs) = rs.
Proof. done. Qed.

(** The new bindings are distinct, new and in the universe; nothing else changes. *)
Definition extends (U : list ResolvedBlockParameterRole) (l l' : StorageLayout) : Prop :=
  exists added, l' = with_roles l (roles l ++ added) /\ NoDup added /\
    forall b, b ∈ added -> b ∉ roles l /\ b ∈ U.

Lemma extends_refl U l : extends U l l.
Proof.
  exists []. rewrite app_nil_r. split_and!; [by destruct l|constructor|].
  by intros b ?%not_elem_of_nil.
Qed.

Lemma extends_trans U l1 l2 l3 : extends U l1 l2 -> extends U l2 l3 -> extends U l1 l3.
Proof.
  intros (a & -> & Na & Ha) (b & -> & Nb & Hb). exists (a ++ b). rewrite roles_with_roles in *.
  split_and!; [by rewrite <- app_assoc| |].
  - apply NoDup_app. split_and!; [done| |done]. intros x Hx Hy. apply Hb in Hy as [Hy _].
    apply Hy. set_solver.
  - intros x [Hx|Hx]%elem_of_app; [by apply Ha|]. apply Hb in Hx as [Hn HU]. split; [|done]. set_solver.
Qed.

Lemma extends_mono U l l' b : extends U l l' -> b ∈ roles l -> b ∈ roles l'.
Proof. intros (a & -> & _). rewrite roles_with_roles. set_solver. Qed.

Lemma record_extends U l location role :
  mkResolvedRole location role ∈ U -> extends U l (record_block_parameter_role l location role).
Proof.
  intros HU. unfold record_block_parameter_role. case_bool_decide; [apply extends_refl|].
  exists [mkResolvedRole location role]. split_and!; [done|apply NoDup_singleton|].
  by intros b ->%list_elem_of_singleton.
Qed.

Lemma elem_of_record l location role b :
  b ∈ roles (record_block_parameter_role l location role)
  <-> b ∈ roles l \/ b = mkResolvedRole location role.
Proof.
  unfold record_block_parameter_role. case_bool_decide; [naive_solver|].
  rewrite roles_with_roles. set_solver.
Qed.

Lemma elem_of_roles_at l location role :
  role ∈ block_parameter_roles_at l location <-> mkResolvedRole location role ∈ roles l.
Proof.
  unfold block_parameter_roles_at. rewrite list_elem_of_fmap. split.
  - intros ([loc r] & -> & Hin). apply list_elem_of_In, List.filter_In in Hin as [Hin E].
    bool_inv. cbn in E. subst. by apply list_elem_of_In.
  - intros Hin. eexists. split; [|apply list_elem_of_In, List.filter_In; split;
      [by apply list_elem_of_In|by apply bool_decide_eq_true]]. done.
Qed.

Lemma elem_of_record_all l location rs b :
  b ∈ roles (fold_left (fun l role => record_block_parameter_role l location role) rs l)
  <-> b ∈ roles l \/ exists role, role ∈ rs /\ b = mkResolvedRole location role.
Proof.
  revert l. induction rs as [|r rs IH]; intros l; cbn.
  - split; [by left|]. intros [?|(? & ?%not_elem_of_nil & _)]; done.
  - rewrite IH, elem_of_record. setoid_rewrite elem_of_cons. naive_solver.
Qed.

Lemma elem_of_propagate_copy l copy b :
  b ∈ roles (propagate_copy l copy)
  <-> b ∈ roles l \/ rr_location b = copy.2 /\ mkResolvedRole copy.1 (rr_role b) ∈ roles l.
Proof.
  unfold propagate_copy. rewrite elem_of_record_all. setoid_rewrite elem_of_roles_at.
  split; intros [H|H]; [by left| |by left|].
  - destruct H as (role & Hin & ->). by right.
  - right. destruct b as [loc role]; cbn in *. destruct H as [-> H]. eauto.
Qed.

(** ** The loop reaches the least closed set of roles *)

Definition copy_step (copies : list Copy) (a b : NameLocation) : Prop := (a, b) ∈ copies.

Section propagation.
Context (copies : list Copy) (R : list BlockParamRole).

Definition roles_in (l : StorageLayout) : Prop := forall b, b ∈ roles l -> rr_role b ∈ R.
Definition bindings_over : list ResolvedBlockParameterRole :=
  map (fun p => mkResolvedRole p.1 p.2) (list_prod (map snd copies) R).

Lemma elem_of_bindings_over location role :
  location ∈ map snd copies -> role ∈ R -> mkResolvedRole location role ∈ bindings_over.
Proof.
  intros Hl Hr. apply list_elem_of_fmap. exists (location, role). split; [done|].
  apply list_elem_of_In, List.in_prod; by apply list_elem_of_In.
Qed.

Lemma record_all_extends l location rs :
  location ∈ map snd copies -> (forall r, r ∈ rs -> r ∈ R) ->
  extends bindings_over l (fold_left (fun l role => record_block_parameter_role l location role) rs l).
Proof.
  intros Hl. revert l. induction rs as [|r rs IH]; intros l HR; cbn; [apply extends_refl|].
  eapply extends_trans; [|apply IH; set_solver].
  apply record_extends, elem_of_bindings_over; [done|set_solver].
Qed.

Lemma propagate_copy_extends l copy :
  copy ∈ copies -> roles_in l -> extends bindings_over l (propagate_copy l copy).
Proof.
  intros Hc HR. apply record_all_extends; [by apply list_elem_of_fmap_2|].
  intros r Hr%elem_of_roles_at. by apply HR in Hr.
Qed.

Lemma roles_in_propagate_copy l copy : roles_in l -> roles_in (propagate_copy l copy).
Proof.
  intros HR b [Hb|[_ Hb]]%elem_of_propagate_copy; [by apply HR|]. by apply HR in Hb.
Qed.

(** A round extends, keeps the roles, and when it adds nothing every copy was closed. *)
Lemma propagate_round_extends cs l :
  cs ⊆ copies -> roles_in l ->
  extends bindings_over l (propagate_round cs l) /\ roles_in (propagate_round cs l).
Proof.
  revert l. induction cs as [|c cs IH]; intros l Hcs HR; cbn; [by split; [apply extends_refl|]|].
  destruct (IH (propagate_copy l c)) as [He Hr]; [set_solver|by apply roles_in_propagate_copy|].
  split; [|done]. eapply extends_trans; [|exact He]. apply propagate_copy_extends; [set_solver|done].
Qed.
End propagation.

Lemma extends_length U l l' : extends U l l' -> (length (roles l) <= length (roles l'))%nat.
Proof. intros (a & -> & _). rewrite roles_with_roles, length_app. lia. Qed.

Lemma extends_same_length U l l' :
  extends U l l' -> length (roles l') = length (roles l) -> l' = l.
Proof.
  intros ([|x a] & -> & _) H; rewrite roles_with_roles, length_app in H; cbn in H; [|lia].
  rewrite app_nil_r. by destruct l.
Qed.

Lemma extends_bound U l l' :
  extends U l l' -> (length (roles l') <= length (roles l) + length U)%nat.
Proof.
  intros (a & -> & HN & Ha). rewrite roles_with_roles, length_app.
  enough (length a <= length U)%nat by lia.
  apply submseteq_length, NoDup_submseteq; [done|]. intros x Hx. by apply Ha.
Qed.

Lemma propagate_round_closed copies R cs l :
  cs ⊆ copies -> roles_in R l -> length (roles (propagate_round cs l)) = length (roles l) ->
  forall c role, c ∈ cs -> mkResolvedRole c.1 role ∈ roles l -> mkResolvedRole c.2 role ∈ roles l.
Proof.
  revert l. induction cs as [|c cs IH]; intros l Hcs HR Hlen c' role Hc Hin; [set_solver|].
  cbn in Hlen.
  assert (extends (bindings_over copies R) l (propagate_copy l c)) as He
    by (apply propagate_copy_extends; [set_solver|done]).
  assert (extends (bindings_over copies R) (propagate_copy l c) (propagate_round cs (propagate_copy l c)))
    as He' by (apply propagate_round_extends; [set_solver|by apply roles_in_propagate_copy]).
  assert (propagate_copy l c = l) as E.
  { eapply extends_same_length; [exact He|].
    pose proof (extends_length _ _ _ He). pose proof (extends_length _ _ _ He').
    unfold propagate_round in *. lia. }
  rewrite E in Hlen. apply elem_of_cons in Hc as [->|Hc]; [|eapply IH; try done; set_solver].
  rewrite <- E. apply elem_of_propagate_copy. by right.
Qed.

(** Every role comes along copies from a slot that had it at the start. *)
Definition traced (copies : list Copy) (l0 : StorageLayout) (b : ResolvedBlockParameterRole) : Prop :=
  exists b0, b0 ∈ roles l0 /\ rr_role b0 = rr_role b
    /\ rtc (copy_step copies) (rr_location b0) (rr_location b).

Lemma propagate_round_traced copies cs l0 l :
  cs ⊆ copies -> (forall b, b ∈ roles l -> traced copies l0 b) ->
  forall b, b ∈ roles (propagate_round cs l) -> traced copies l0 b.
Proof.
  revert l. induction cs as [|c cs IH]; intros l Hcs Hl b Hb; [by apply Hl|].
  eapply (IH (propagate_copy l c)); [set_solver| |exact Hb].
  intros b' [Hb'|[E Hb']]%elem_of_propagate_copy; [by apply Hl|].
  destruct (Hl _ Hb') as (b0 & Hin & Hr & Hp). exists b0. split_and!; [done|done|].
  eapply rtc_r; [exact Hp|]. unfold copy_step. rewrite E. destruct c. set_solver.
Qed.

Lemma propagate_loop_spec copies R l0 fuel l :
  roles_in R l -> extends (bindings_over copies R) l0 l ->
  (forall b, b ∈ roles l -> traced copies l0 b) ->
  (length (roles l0) + length (bindings_over copies R) < length (roles l) + fuel)%nat ->
  exists l', propagate_loop fuel copies l = Some l' /\ extends (bindings_over copies R) l0 l'
    /\ (forall b, b ∈ roles l' -> traced copies l0 b)
    /\ (forall c role, c ∈ copies -> mkResolvedRole c.1 role ∈ roles l' -> mkResolvedRole c.2 role ∈ roles l').
Proof.
  revert l. induction fuel as [|fuel IH]; intros l HR He Ht Hfuel.
  { apply extends_bound in He. lia. }
  destruct (propagate_round_extends copies R copies l) as [He1 HR1]; [done|done|]. cbn.
  case_bool_decide as Hlen.
  - pose proof (extends_same_length _ _ _ He1 Hlen) as E. exists l. rewrite E. split_and!; try done.
    by eapply propagate_round_closed.
  - apply IH; [done|by eapply extends_trans|by apply propagate_round_traced|].
    apply extends_length in He1. lia.
Qed.

Lemma record_declared declared l :
  exists rs, fold_left record_binding declared l = with_roles l rs
    /\ (forall b, b ∈ rs <-> b ∈ roles l \/ b ∈ declared) /\ (NoDup (roles l) -> NoDup rs).
Proof.
  revert l. induction declared as [|d declared IH]; intros l.
  { exists (roles l). split_and!; [by destruct l| |done]. intros b. rewrite elem_of_nil. naive_solver. }
  destruct (IH (record_binding l d)) as (rs & E & Hrs & HN). exists rs. split_and!.
  - cbn. rewrite E. unfold record_binding, record_block_parameter_role. by case_bool_decide.
  - intros b. rewrite Hrs. unfold record_binding. rewrite elem_of_record, elem_of_cons. destruct d. naive_solver.
  - intros H. apply HN. unfold record_binding, record_block_parameter_role. case_bool_decide; [done|].
    rewrite roles_with_roles. apply NoDup_app. split_and!; [done|set_solver|apply NoDup_singleton].
Qed.

Lemma traced_closed copies l0 l' b :
  (forall b, b ∈ roles l0 -> b ∈ roles l') ->
  (forall c role, c ∈ copies -> mkResolvedRole c.1 role ∈ roles l' -> mkResolvedRole c.2 role ∈ roles l') ->
  traced copies l0 b -> b ∈ roles l'.
Proof.
  intros H0 Hc ([origin role] & Hin & Hr & Hp). destruct b as [location role']; cbn in *. subst role'.
  apply H0 in Hin. induction Hp as [|x y z Hxy _ IH]; [done|]. apply IH.
  by apply (Hc (x, y)).
Qed.

(** From a recorded layout the loop returns, within its fuel, the least closed set. *)
Lemma propagate_loop_least copies l :
  exists rs, propagate_loop (role_fuel copies l) copies l = Some (with_roles l rs)
    /\ (NoDup (roles l) -> NoDup rs) /\ forall b, b ∈ rs <-> traced copies l b.
Proof.
  destruct (propagate_loop_spec copies (map rr_role (roles l)) l (role_fuel copies l) l)
    as (l' & E & He & Ht & Hc).
  - intros b Hb. by apply list_elem_of_fmap_2.
  - apply extends_refl.
  - intros b Hb. exists b. split_and!; [done|done|apply rtc_refl].
  - unfold role_fuel, role_universe, bindings_over. lia.
  - destruct He as (added & -> & HN & Ha). exists (roles l ++ added). rewrite E. split_and!; [done| |].
    + intros HNl. apply NoDup_app. split_and!; [done| |done]. intros x Hx Hy. by apply Ha in Hy as [? _].
    + intros b. split; [apply Ht|]. eapply (traced_closed copies l (with_roles l (roles l ++ added)) b).
      * intros x Hx. rewrite roles_with_roles. set_solver.
      * done.
Qed.

(** C24: a block parameter's control role ends at exactly the slots that the marked copies
    reach from a slot where the role was recorded or declared: when the declarations and the
    copies are well formed, the propagation loop always finishes, changes nothing but the
    roles, adds no duplicate, and the pass then panics only when the roles do not validate. *)
Theorem resolved_roles_least blocks layout declared copies :
  declared_roles layout (concat (map blk_params blocks)) = Some declared ->
  block_parameter_transport_copies blocks = Some copies ->
  exists rs,
    record_resolved_block_parameter_roles blocks (Some layout)
    = (if is_ok (validate_block_parameter_roles (with_roles layout rs))
          && is_ok (validate_block_parameter_declarations (with_roles layout rs)
                      (concat (map blk_params blocks)))
       then Some (Some (with_roles layout rs)) else None)
    /\ (NoDup (sl_block_parameter_roles layout) -> NoDup rs)
    /\ forall location role, mkResolvedRole location role ∈ rs <->
         exists origin, (mkResolvedRole origin role ∈ sl_block_parameter_roles layout
                         \/ mkResolvedRole origin role ∈ declared)
           /\ rtc (copy_step (map copy_locations copies)) origin location.
Proof.
  intros Hd Hc. destruct (record_declared declared layout) as (rs0 & E0 & H0 & N0).
  destruct (propagate_loop_least (map copy_locations copies) (with_roles layout rs0)) as (rs & E & HN & Hrs).
  exists rs. split_and!.
  - unfold record_resolved_block_parameter_roles. rewrite Hd. cbn [mbind option_bind].
    rewrite Hc. cbn [mbind option_bind]. rewrite E0, E. done.
  - rewrite roles_with_roles in HN. auto.
  - intros location role. rewrite Hrs. unfold traced. rewrite roles_with_roles. setoid_rewrite H0. split.
    + intros ([origin r] & Hin & Hr & Hp). cbn in Hr. subst r. by exists origin.
    + intros (origin & Hin & Hp). by exists (mkResolvedRole origin role).
Qed.

Module RolesDemo.
Definition exc := mkBlockParam "exc" BPR_Exception.
Definition local (i : Z) (name : string) := mkResolvedName name (NL_Local (mkLocalLocation i)).
Definition saved := mkResolvedName "saved" (NL_Preserved (mkPreservedLocation 0)).
Definition transport (destination source : ResolvedName) : InstrResolved :=
  R_Node (Op_Store destination SL_Frame SP_BlockParameterTransport) [R_Node (Op_Load source None) []].
(** The exception is saved across a suspension and restored into another slot. *)
Definition body : Block InstrResolved :=
  mkBlock (mkBlockLabel 0) [transport (local 1 "back") saved; transport saved (local 0 "exc")]
    (BT_Return (R_Literal (Lit_Number (Num_Int "0")))) [exc] None block_context_default.
Definition layout : StorageLayout :=
  mkStorageLayout None [] None [] []
    [mkPreservedSlot None "saved" "saved" CI_RuntimePcUnstarted PS_PyObjectOrNull] ["exc"; "back"] [].
End RolesDemo.

Lemma resolved_roles_least_witness :
  exists rs, record_resolved_block_parameter_roles [RolesDemo.body] (Some RolesDemo.layout)
             = Some (Some (with_roles RolesDemo.layout rs))
    /\ mkResolvedRole (NL_Local (mkLocalLocation 1)) BPR_Exception ∈ rs.
Proof.
  destruct (resolved_roles_least [RolesDemo.body] RolesDemo.layout
    [mkResolvedRole (NL_Local (mkLocalLocation 0)) BPR_Exception]
    [(RolesDemo.saved, RolesDemo.local 1 "back"); (RolesDemo.local 0 "exc", RolesDemo.saved)])
    as (rs & E & _ & Hrs); [by vm_compute|by vm_compute|]. exists rs. split.
  - rewrite E. match goal with |- (if ?b then _ else _) = _ => destruct b end; [done|].
    exfalso. revert E. by vm_compute.
  - apply Hrs. exists (NL_Local (mkLocalLocation 0)). split; [right; by apply list_elem_of_singleton|].
    eapply (rtc_l _ _ (NL_Preserved (mkPreservedLocation 0))); [|eapply rtc_once];
      apply list_elem_of_In; cbn; auto.
Defined.
