(* ===== verification/Flow.v ===== *)
(** * Settling a set-valued analysis of blocks

    The loop that the liveness analyses of the exception pass share (operand_cleanup.rs and
    transport_lifetime.rs): the value of every block is recomputed from the others, last block
    first, until a whole round changes nothing. *)

From stdpp Require Import gmap.
From S2P Require Import Prelude Ids Cfg.

Section settle.
Context {B A : Type} `{Countable A} (label : B -> BlockLabel).
Notation Inputs := (gmap BlockLabel (gset A)).
Context (F : Inputs -> B -> gset A).

Definition settle_step (state : bool * Inputs) (b : B) : bool * Inputs :=
  let (changed, inputs) := state in
  let value := F inputs b in
  if bool_decide (inputs !! label b = Some value) then state
  else (true, <[label b := value]> inputs).
Fixpoint settle_loop (fuel : nat) (blocks : list B) (inputs : Inputs) : option Inputs :=
  match fuel with
  | O => None
  | S fuel =>
      let (changed, inputs) := fold_left settle_step (rev blocks) (false, inputs) in
      if changed then settle_loop fuel blocks inputs else Some inputs
  end.
(** Each round but the last gives a first value to a block or adds an element to one. *)
Definition settle_fuel (blocks : list B) (U : gset A) : nat := S (S (length blocks * S (size U))).

(** ** It settles *)

Definition input_at (inputs : Inputs) (l : BlockLabel) : gset A := default ∅ (inputs !! l).
Definition below (i j : Inputs) : Prop := forall l, input_at i l ⊆ input_at j l.

Context (bs : list B) (U : gset A).
Hypothesis distinct : NoDup (map label bs).
Hypothesis monotone : forall i j b, below i j -> F i b ⊆ F j b.
Hypothesis bounded : forall i b, (forall l, input_at i l ⊆ U) -> b ∈ bs -> F i b ⊆ U.

Record ascending (i : Inputs) : Prop := mkAscending {
  ascending_le b s : b ∈ bs -> i !! label b = Some s -> s ⊆ F i b;
  ascending_dom l s : i !! l = Some s -> l ∈ map label bs /\ s ⊆ U
}.

Lemma input_at_insert i l s l' : input_at (<[l := s]> i) l' = if decide (l = l') then s else input_at i l'.
Proof.
  unfold input_at. destruct (decide (l = l')) as [->|];
    [by rewrite lookup_insert_eq|by rewrite lookup_insert_ne by done].
Qed.

Lemma ascending_bounded i l : ascending i -> input_at i l ⊆ U.
Proof. intros Ha. unfold input_at. destruct (i !! l) eqn:E; [by eapply ascending_dom|set_solver]. Qed.

Lemma insert_below i b : ascending i -> b ∈ bs -> below i (<[label b := F i b]> i).
Proof.
  intros Ha Hb l. rewrite input_at_insert. destruct (decide (label b = l)) as [<-|]; [|done].
  unfold input_at. destruct (i !! label b) as [s|] eqn:E; [|set_solver]. by eapply ascending_le.
Qed.

Lemma label_inj b b' : b ∈ bs -> b' ∈ bs -> label b = label b' -> b = b'.
Proof.
  intros Hb Hb' E. apply list_elem_of_lookup in Hb as [i Hi], Hb' as [j Hj].
  enough (i = j) by congruence.
  eapply (NoDup_lookup _ _ _ _ distinct); apply list_lookup_fmap_Some; eauto.
Qed.

Lemma ascending_insert i b : ascending i -> b ∈ bs -> ascending (<[label b := F i b]> i).
Proof.
  intros Ha Hb. split.
  - intros b' s Hb' [[E <-]|[_ E]]%lookup_insert_Some.
    + rewrite <- (label_inj b b') by done. by apply monotone, insert_below.
    + etrans; [by eapply ascending_le|]. by apply monotone, insert_below.
  - intros l s [[<- <-]|[_ E]]%lookup_insert_Some; [|by eapply ascending_dom].
    split; [by apply list_elem_of_fmap_2|]. apply bounded; [|done]. intros l. by apply ascending_bounded.
Qed.

(** How much the inputs hold. *)
Definition holding (i : Inputs) (b : B) : nat :=
  match i !! label b with None => 0 | Some s => S (size s) end.
Definition weight (i : Inputs) : nat := sum_list (map (holding i) bs).

Lemma weight_bound i : ascending i -> weight i <= length bs * S (size U).
Proof.
  intros Ha. unfold weight. enough (forall l, sum_list (map (holding i) l) <= length l * S (size U)) by auto.
  induction l as [|b l IH]; cbn; [lia|]. enough (holding i b <= S (size U)) by lia.
  unfold holding. destruct (i !! label b) as [s|] eqn:E; [|lia].
  apply ascending_dom in E as [_ E]; [|done]. apply subseteq_size in E. lia.
Qed.

Lemma sum_list_lt (f g : B -> nat) l b :
  (forall x, f x <= g x) -> b ∈ l -> f b < g b -> sum_list (map f l) < sum_list (map g l).
Proof.
  intros Hle Hb Hlt.
  assert (forall l, sum_list (map f l) <= sum_list (map g l)) as Hs.
  { clear -Hle. induction l as [|x l IH]; cbn; [lia|]. specialize (Hle x). lia. }
  induction Hb as [|b x l Hb IH]; cbn.
  - specialize (Hs l). lia.
  - specialize (IH Hlt). specialize (Hle x). lia.
Qed.

Lemma insert_weight i b :
  ascending i -> b ∈ bs -> i !! label b <> Some (F i b) ->
  weight i < weight (<[label b := F i b]> i).
Proof.
  intros Ha Hb Hne.
  assert (holding i b < holding (<[label b := F i b]> i) b) as Hlt.
  { unfold holding. rewrite lookup_insert_eq. destruct (i !! label b) as [s|] eqn:E; [|lia].
    enough (s ⊂ F i b) as Hs%subset_size by lia.
    pose proof (ascending_le _ Ha _ _ Hb E). apply strict_spec_alt. split; [done|]. congruence. }
  eapply sum_list_lt; [|exact Hb|exact Hlt]. intros x. destruct (decide (label b = label x)) as [E|E].
  - unfold holding in *. rewrite <- E. lia.
  - unfold holding. by rewrite lookup_insert_ne.
Qed.

(** One round: it only grows, and without a change every block had its value. *)
Lemma settle_round_spec l i changed :
  l ⊆ bs -> ascending i ->
  let (changed', i') := fold_left settle_step l (changed, i) in
  ascending i' /\ below i i' /\ weight i <= weight i'
  /\ (changed' = false -> changed = false /\ i' = i /\ forall b, b ∈ l -> i !! label b = Some (F i b))
  /\ (changed = false -> changed' = true -> weight i < weight i').
Proof.
  revert i changed. induction l as [|b l IH]; intros i changed Hl Ha; cbn.
  { split_and!; [done|by intros ?|lia| |congruence]. intros ->. split_and!; [done|done|]. set_solver. }
  assert (b ∈ bs) as Hb by (apply Hl; by left). assert (l ⊆ bs) as Hl' by (intros x Hx; apply Hl; by right).
  case_bool_decide as E.
  - specialize (IH i changed Hl' Ha). destruct (fold_left _ l _) as [changed' i'].
    destruct IH as (? & ? & ? & IH & ?). split_and!; try done. intros H'. destruct (IH H') as (? & ? & Hall).
    split_and!; try done. intros b' [->|Hb']%elem_of_cons; auto.
  - pose proof (insert_weight i b Ha Hb E) as Hw.
    specialize (IH (<[label b := F i b]> i) true Hl' (ascending_insert i b Ha Hb)).
    destruct (fold_left _ l _) as [changed' i']. destruct IH as (? & Hbelow & ? & IH & ?). split_and!.
    + done.
    + intros x. etrans; [by apply insert_below|apply Hbelow].
    + lia.
    + intros H'. destruct (IH H') as (? & _). done.
    + intros _ _. lia.
Qed.

Lemma elem_of_rev (b : B) l : b ∈ rev l <-> b ∈ l.
Proof. rewrite !list_elem_of_In. symmetry. apply in_rev. Qed.

Lemma settle_loop_spec fuel i :
  ascending i -> length bs * S (size U) < weight i + fuel ->
  exists i', settle_loop fuel bs i = Some i' /\ ascending i'
    /\ forall b, b ∈ bs -> i' !! label b = Some (F i' b).
Proof.
  revert i. induction fuel as [|fuel IH]; intros i Ha Hf.
  { apply weight_bound in Ha. lia. }
  cbn. pose proof (settle_round_spec (rev bs) i false) as Hr.
  destruct (fold_left settle_step (rev bs) (false, i)) as [changed i'].
  destruct Hr as (Ha' & _ & _ & Hsame & Hgrow); [intros x Hx; by apply elem_of_rev|done|].
  destruct changed; [apply IH; [done|]; specialize (Hgrow eq_refl eq_refl); lia|].
  destruct (Hsame eq_refl) as (_ & -> & Hall). exists i. split_and!; [done|done|].
  intros b Hb. apply Hall. by apply elem_of_rev.
Qed.

(** Whatever the loop returns is a fixed point. *)
Lemma settle_round_same l i i' changed :
  fold_left settle_step l (changed, i) = (false, i') ->
  changed = false /\ i' = i /\ forall b, b ∈ l -> i !! label b = Some (F i b).
Proof.
  revert i changed. induction l as [|b l IH]; intros i changed Hr; cbn in Hr.
  { simplify_eq. split_and!; [done|done|]. by intros b ?%not_elem_of_nil. }
  case_bool_decide as E.
  - destruct (IH _ _ Hr) as (? & ? & Hall). split_and!; [done|done|]. intros b' [->|Hb']%elem_of_cons; auto.
  - by destruct (IH _ _ Hr) as (? & _).
Qed.
Lemma settle_loop_fixed fuel i i' :
  settle_loop fuel bs i = Some i' -> forall b, b ∈ bs -> i' !! label b = Some (F i' b).
Proof.
  revert i. induction fuel as [|fuel IH]; intros i Hs; [done|]. cbn in Hs.
  destruct (fold_left settle_step (rev bs) (false, i)) as [[] i1] eqn:E; [by eapply IH|]. simplify_eq.
  apply settle_round_same in E as (_ & -> & Hall). intros b Hb. apply Hall. by apply elem_of_rev.
Qed.

(** What is below a solution stays below it. *)
Lemma settle_loop_below fuel i i' j :
  (forall b, b ∈ bs -> F j b ⊆ input_at j (label b)) -> below i j ->
  settle_loop fuel bs i = Some i' -> below i' j.
Proof.
  intros Hj. revert i. induction fuel as [|fuel IH]; intros i Hij Hs; [done|]. cbn in Hs.
  assert (forall l (c : bool) i, l ⊆ bs -> below i j -> below (fold_left settle_step l (c, i)).2 j) as Hround.
  { clear -Hj monotone. induction l as [|b l IH]; intros c i Hl Hij; [done|]. cbn.
    assert (l ⊆ bs) as Hl' by (intros x Hx; apply Hl; by right).
    case_bool_decide; apply IH; [done|done|done|]. intros x. rewrite input_at_insert.
    destruct (decide (label b = x)) as [<-|]; [|done].
    etrans; [by apply monotone|]. apply Hj, Hl. by left. }
  specialize (Hround (rev bs) false i).
  destruct (fold_left settle_step (rev bs) (false, i)) as [changed i1].
  assert (below i1 j) by (apply Hround; [intros x Hx; by apply elem_of_rev|done]).
  destruct changed; [by eapply IH|by simplify_eq].
Qed.

(** The fuel suffices, and the result is the least fixed point, within the universe. *)
Lemma settle_total :
  exists i, settle_loop (settle_fuel bs U) bs ∅ = Some i
    /\ (forall l s, i !! l = Some s -> l ∈ map label bs /\ s ⊆ U)
    /\ (forall b, b ∈ bs -> i !! label b = Some (F i b))
    /\ forall j, (forall b, b ∈ bs -> F j b ⊆ input_at j (label b)) -> below i j.
Proof.
  destruct (settle_loop_spec (settle_fuel bs U) ∅) as (i & E & Ha & Hf).
  - split; intros; by rewrite lookup_empty in *.
  - unfold settle_fuel. lia.
  - exists i. split_and!; [done|by apply ascending_dom|done|]. intros j Hj.
    eapply settle_loop_below; [exact Hj| |exact E]. intros l. unfold input_at at 1. by rewrite lookup_empty.
Qed.
End settle.
