(* ===== verification/OperandCleanup.v ===== *)
(** * Unwinding of expression operands

    crates/soac_lowering/src/passes/blockpy_to_bb/exception_pass/operand_cleanup.rs: before a
    raised exception enters its handler, the operands that the interrupted expression had
    acquired and that the handler does not read are released, newest first, in a cleanup block
    put on the exception edge.

    A [HashSet] is a [gset] and a [HashMap] a [gmap].  The order in which the hash table of
    operands is listed before it is sorted is the argument [hash_order]. *)

From stdpp Require Import gmap.
From S2P Require Import Prelude Order Collections Ids Cfg Names Instr Layout Resolved Flow.

Local Open Scope Z_scope.

Record Operand : Type := mkOperand { operand_name : ResolvedName; unwind_order : Z }.
Notation LiveSet := (gset NameLocation).

Definition normal_targets (b : Block InstrResolved) : list BlockLabel :=
  match blk_term b with
  | BT_Jump edge => [be_target edge]
  | BT_If branch => [ti_then_label branch; ti_else_label branch]
  | BT_BranchTable branch => tb_targets branch ++ [tb_default_label branch]
  | BT_Return _ | BT_GeneratorReturn _ | BT_Raise _ => []
  end.

(** ** Collecting the operands *)

(** [None] is an assertion that fails. *)
Definition collect_operand (operands : gmap NameLocation Operand) (i : InstrResolved) :
    option (gmap NameLocation Operand) :=
  match i with
  | R_Node (Op_Store name (SL_Operand order) _) _ =>
      if is_slot (rn_location name)
         && from_option (fun previous => bool_decide (unwind_order previous = order)) true
              (operands !! rn_location name)
      then Some (<[rn_location name := mkOperand name order]> operands) else None
  | _ => Some operands
  end.
Fixpoint collect_operands (operands : gmap NameLocation Operand) (l : list InstrResolved) :
    option (gmap NameLocation Operand) :=
  match l with
  | [] => Some operands
  | i :: l => operands ← collect_operand operands i; collect_operands operands l
  end.
Definition collected (blocks : list (Block InstrResolved)) : option (gmap NameLocation Operand) :=
  collect_operands ∅ (concat (map resolved_pre (concat (map resolved_block_instrs blocks)))).

(** ** Liveness *)

Definition arg_operands (operands : list Operand) (arg : BlockArg) : list NameLocation :=
  match arg with
  | BA_Name name =>
      map (fun operand => rn_location (operand_name operand))
        (List.filter (fun operand => bool_decide (rn_id (operand_name operand) = name)) operands)
  | _ => []
  end.
Definition operand_edge_live (edge : BlockEdge) (live : gmap BlockLabel LiveSet)
    (operands : list Operand) : LiveSet :=
  default ∅ (live !! be_target edge) ∪ list_to_set (concat (map (arg_operands operands) (be_args edge))).

(** [if locations.contains(l) { live.insert(l) }]. *)
Definition insert_in (locations : LiveSet) (l : NameLocation) (live : LiveSet) : LiveSet :=
  if bool_decide (l ∈ locations) then {[l]} ∪ live else live.
(** The value of a call-argument operation is its only child; the value of an insertion is its
    last child and is visited before the key. *)
Fixpoint transfer_backwards (locations : LiveSet) (i : InstrResolved) (live : LiveSet) : LiveSet :=
  match i with
  | R_Literal _ => live
  | R_Node op children =>
      match op with
      | Op_Load name _ => insert_in locations (rn_location name) live
      | Op_Store name _ _ =>
          fold_left (fun live c => transfer_backwards locations c live) children
            (live ∖ {[rn_location name]})
      | Op_Del name _ => live ∖ {[rn_location name]}
      | Op_TakeOperand name =>
          insert_in locations (rn_location name) (live ∖ {[rn_location name]})
      | Op_IteratorStep name => insert_in locations (rn_location name) live
      | Op_CallArgumentOp kind callable buffer =>
          let live := live ∖ list_to_set (map rn_location (written_names kind buffer)) in
          let live := fold_left (fun live c => transfer_backwards locations c live) children live in
          insert_in locations (rn_location buffer) (insert_in locations (rn_location callable) live)
      | Op_ComprehensionInsert _ container =>
          fold_right (fun c live => transfer_backwards locations c live)
            (insert_in locations (rn_location container) live) children
      | _ => fold_left (fun live c => transfer_backwards locations c live) children live
      end
  end.
Definition transfer_all (locations : LiveSet) (l : list InstrResolved) (live : LiveSet) : LiveSet :=
  fold_left (fun live c => transfer_backwards locations c live) l live.

Section analysis.
Context (blocks : list (Block InstrResolved)) (operands : list Operand) (locations : LiveSet).

Definition exceptional_live (inputs : gmap BlockLabel LiveSet) (b : Block InstrResolved) : LiveSet :=
  from_option (fun edge => operand_edge_live edge inputs operands) ∅ (blk_exc_edge b).
(** Live before the terminator. *)
Definition term_live (inputs : gmap BlockLabel LiveSet) (b : Block InstrResolved) : LiveSet :=
  let live := ⋃ (map (fun target => default ∅ (inputs !! target)) (normal_targets b)) in
  let live := match blk_term b with
              | BT_Jump edge => live ∪ operand_edge_live edge inputs operands
              | _ => live
              end in
  transfer_all locations (resolved_term_instrs (blk_term b)) live ∪ exceptional_live inputs b.
(** Live before the first instruction; every prefix may raise. *)
Definition block_live (inputs : gmap BlockLabel LiveSet) (b : Block InstrResolved) : LiveSet :=
  fold_right (fun i live => transfer_backwards locations i live ∪ exceptional_live inputs b)
    (term_live inputs b) (blk_body b).
Definition live_inputs : option (gmap BlockLabel LiveSet) :=
  settle_loop blk_label block_live (settle_fuel blocks locations) blocks ∅.

(** ** Acquired operands *)

(** [active] and [prefixes]; children come first. *)
Fixpoint acquire (i : InstrResolved) (state : LiveSet * LiveSet) : LiveSet * LiveSet :=
  match i with
  | R_Literal _ => state
  | R_Node op children =>
      let (active, prefixes) := fold_left (fun state c => acquire c state) children state in
      match op with
      | Op_Store name _ _ =>
          if bool_decide (rn_location name ∈ locations)
          then ({[rn_location name]} ∪ active, {[rn_location name]} ∪ prefixes)
          else (active, prefixes)
      | Op_Del name _ => (active ∖ {[rn_location name]}, prefixes)
      | Op_CallArgumentOp kind _ buffer =>
          (list_to_set (List.filter (fun l => bool_decide (l ∈ locations))
             (map rn_location (written_names kind buffer))) ∪ active, prefixes)
      | Op_TakeOperand name => (active ∖ {[rn_location name]}, prefixes)
      | _ => (active, prefixes)
      end
  end.
Definition acquire_block (active : LiveSet) (b : Block InstrResolved) : LiveSet * LiveSet :=
  fold_left (fun state i => acquire i state) (resolved_block_instrs b) (active, active).

(** [target.extend(..)], and whether the entry grew. *)
Definition extend_at (label : BlockLabel) (s : LiveSet) (state : bool * gmap BlockLabel LiveSet) :
    bool * gmap BlockLabel LiveSet :=
  let (changed, incoming) := state in
  let target := default ∅ (incoming !! label) in
  (changed || negb (bool_decide (size (s ∪ target) = size target)), <[label := s ∪ target]> incoming).
Definition acquire_step (state : bool * gmap BlockLabel LiveSet * gmap BlockLabel LiveSet)
    (b : Block InstrResolved) : bool * gmap BlockLabel LiveSet * gmap BlockLabel LiveSet :=
  let '(flow, failures) := state in
  let (active, prefixes) := acquire_block (default ∅ (flow.2 !! blk_label b)) b in
  let flow := fold_left (fun flow target => extend_at target active flow) (normal_targets b) flow in
  let flow := match blk_exc_edge b with
              | Some edge => extend_at (be_target edge) prefixes flow
              | None => flow
              end in
  (flow, <[blk_label b := prefixes]> failures).
Fixpoint acquire_loop (fuel : nat) (incoming failures : gmap BlockLabel LiveSet) :
    option (gmap BlockLabel LiveSet) :=
  match fuel with
  | O => None
  | S fuel =>
      let '(flow, failures) := fold_left acquire_step blocks ((false, incoming), failures) in
      if flow.1 then acquire_loop fuel flow.2 failures else Some failures
  end.
Definition is_preserved_location (l : NameLocation) : bool :=
  match l with NL_Preserved _ => true | _ => false end.
Definition entry_incoming : gmap BlockLabel LiveSet :=
  match blocks with
  | [] => ∅
  | entry :: _ => {[blk_label entry := filter (fun l => is_preserved_location l = true) locations]}
  end.
(** The targets of edges are at most two per block besides the branch tables. *)
Definition edge_targets (b : Block InstrResolved) : list BlockLabel :=
  normal_targets b ++ option_list (be_target <$> blk_exc_edge b).
Definition acquire_fuel : nat :=
  S (length (concat (map edge_targets blocks)) * size locations).
Definition acquired_prefixes : option (gmap BlockLabel LiveSet) :=
  acquire_loop acquire_fuel entry_incoming ∅.
End analysis.

(** ** The pass *)

(** [sort_by_key(|operand| Reverse(operand.unwind_order))], which is stable. *)
Definition newest_first : list Operand -> list Operand :=
  sort_by (fun operand => KInt (- unwind_order operand)).
Fixpoint mark_operands (layout : StorageLayout) (operands : list Operand) : option StorageLayout :=
  match operands with
  | [] => Some layout
  | operand :: operands =>
      location ← from_name_location (rn_location (operand_name operand));
      layout ← mark_expression_temporary layout location;
      mark_operands layout operands
  end.

Definition with_exc_target (b : Block InstrResolved) (edge : BlockEdge) : Block InstrResolved :=
  mkBlock (blk_label b) (blk_body b) (blk_term b) (blk_params b) (Some edge) (blk_extra b).
Definition cleanup_body (operands : list Operand) (available target_live : LiveSet) :
    list InstrResolved :=
  map (fun operand => R_Node (Op_Del (operand_name operand) true) [])
    (List.filter (fun operand =>
       bool_decide (rn_location (operand_name operand) ∈ available)
       && negb (bool_decide (rn_location (operand_name operand) ∈ target_live))) operands).
Definition cleanup_block (label : BlockLabel) (body : list InstrResolved) (edge : BlockEdge)
    (target_params : list BlockParam) : Block InstrResolved :=
  mkBlock label body
    (BT_Jump (mkBlockEdge (be_target edge) (map (fun param => BA_Name (bp_name param)) target_params)))
    target_params None (mkBlockContext HE_Preserve None).

Section unwinds.
Context (operands : list Operand) (live acquired : gmap BlockLabel LiveSet)
  (params : gmap BlockLabel (list BlockParam)) (g : FunctionNameGen).

(** The block with its exception edge redirected, and the cleanup block if one is needed. *)
Definition unwind_block (s : Store) (b : Block InstrResolved) :
    option (Store * Block InstrResolved * list (Block InstrResolved)) :=
  match blk_exc_edge b with
  | None => Some (s, b, [])
  | Some edge =>
      available ← acquired !! blk_label b;
      match cleanup_body operands available (operand_edge_live edge live operands) with
      | [] => Some (s, b, [])
      | body =>
          match params !! be_target edge with
          | None => Some (s, b, [])
          | Some target_params =>
              if bool_decide (length (be_args edge) = length target_params) then
                '(s, label) ← fresh_label s g;
                Some (s, with_exc_target b (mkBlockEdge label (be_args edge)),
                      [cleanup_block label body edge target_params])
              else None
          end
      end
  end.
Fixpoint unwind_blocks (s : Store) (blocks : list (Block InstrResolved)) :
    option (Store * list (Block InstrResolved) * list (Block InstrResolved)) :=
  match blocks with
  | [] => Some (s, [], [])
  | b :: blocks =>
      '(s, b, cleanup) ← unwind_block s b;
      '(s, blocks, cleanups) ← unwind_blocks s blocks;
      Some (s, b :: blocks, cleanup ++ cleanups)
  end.
End unwinds.

Section pass.
Context (hash_order : gmap NameLocation Operand -> list Operand).

(** [None] is a panic. *)
Definition materialize_operand_unwinds (s : Store) (f : ResolvedFunction) :
    option (Store * ResolvedFunction) :=
  table ← collected (rf_blocks f);
  if bool_decide (table = ∅) then Some (s, f)
  else
    let locations := dom table in
    let operands := newest_first (hash_order table) in
    layout ← rf_storage_layout f;
    layout ← mark_operands layout (rev operands);
    live ← live_inputs (rf_blocks f) operands locations;
    acquired ← acquired_prefixes (rf_blocks f) locations;
    let params := collect_map (map (fun b => (blk_label b, blk_params b)) (rf_blocks f)) in
    '(s, blocks, cleanups) ← unwind_blocks operands live acquired params (rf_name_gen f) s (rf_blocks f);
    Some (s, with_resolved_layout (with_resolved_blocks f (blocks ++ cleanups)) (Some layout)).
End pass.
