(* ===== verification/LiveAgree.v ===== *)
(** * Frames that agree on what is live

    The liveness of OperandCleanup.v, for any set of slots: if two frames agree on the slots that
    are live before an instruction, a terminator or an edge, it does the same in both, and they
    agree on what is live afterwards.  The unwinding of operands and of pending payloads rest
    on it. *)

From stdpp Require Import gmap.
From S2P Require Import Prelude Ids Cfg CfgProps Names Instr Layout.
From S2P Require Import Resolved ResolvedSem Flow OperandCleanup.

Local Open Scope Z_scope.

(** ** The transfer function *)

(** Below a statement only consuming reads change slots. *)
Definition keeps_slots (op : InstrOp) : bool :=
  match op with
  | Op_Store _ _ _ | Op_Del _ _ => false
  | Op_CallArgumentOp kind _ _ => negb (replaces_buffer kind)
  | _ => true
  end.
Fixpoint flat_tree (i : InstrResolved) : bool :=
  match i with
  | R_Literal _ => true
  | R_Node op children => keeps_slots op && forallb flat_tree children
  end.
(** A statement has flat children, and a delete of an operand is quiet. *)
Definition plain_delete (locations : LiveSet) (op : InstrOp) : bool :=
  match op with
  | Op_Del name quietly => quietly || negb (bool_decide (rn_location name ∈ locations))
  | _ => true
  end.
Definition no_children (op : InstrOp) (children : list InstrResolved) : bool :=
  match op with
  | Op_Load _ _ | Op_Del _ _ | Op_TakeOperand _ | Op_IteratorStep _ => bool_decide (length children = 0%nat)
  | _ => true
  end.
Fixpoint leaves_ok (i : InstrResolved) : bool :=
  match i with
  | R_Literal _ => true
  | R_Node op children => no_children op children && forallb leaves_ok children
  end.
Definition statement_ok (locations : LiveSet) (i : InstrResolved) : bool :=
  leaves_ok i &&
  match i with
  | R_Literal _ => true
  | R_Node op children => plain_delete locations op && forallb flat_tree children
  end.

Lemma elem_of_insert_in locations l live x :
  x ∈ insert_in locations l live <-> x ∈ live \/ (x = l /\ l ∈ locations).
Proof. unfold insert_in. case_bool_decide; set_solver. Qed.

Section transfer.
Context (locations : LiveSet).
Notation transfer := (transfer_backwards locations).

(** What a flat instruction adds: its reads, and it removes nothing. *)
Definition adds_reads (i : InstrResolved) : Prop :=
  forall live x, x ∈ locations -> x ∈ live \/ x ∈ tree_reads i -> x ∈ transfer i live.

Lemma transfer_fold_left l :
  Forall (fun i => flat_tree i = true -> leaves_ok i = true -> adds_reads i) l ->
  forallb flat_tree l = true -> forallb leaves_ok l = true ->
  forall live x, x ∈ locations -> x ∈ live \/ x ∈ concat (map tree_reads l) ->
    x ∈ fold_left (fun live c => transfer c live) l live.
Proof.
  induction 1 as [|i l Hi _ IH]; cbn; intros Hf Hl live x Hx H; [destruct H as [H|H]; [done|set_solver]|].
  apply andb_true_iff in Hf as [F1 F2], Hl as [L1 L2]. rewrite elem_of_app in H.
  apply IH; [done|done|done|]. destruct H as [H|[H|H]]; [left|left|by right]; apply Hi; auto.
Qed.
Lemma transfer_fold_right l :
  Forall (fun i => flat_tree i = true -> leaves_ok i = true -> adds_reads i) l ->
  forallb flat_tree l = true -> forallb leaves_ok l = true ->
  forall live x, x ∈ locations -> x ∈ live \/ x ∈ concat (map tree_reads l) ->
    x ∈ fold_right (fun c live => transfer c live) live l.
Proof.
  induction 1 as [|i l Hi _ IH]; cbn; intros Hf Hl live x Hx H; [destruct H as [H|H]; [done|set_solver]|].
  apply andb_true_iff in Hf as [F1 F2], Hl as [L1 L2]. rewrite elem_of_app in H.
  apply Hi; [done|done|done|]. destruct H as [H|[H|H]]; [left|by right|left]; apply IH; auto.
Qed.

(** The effect of one node on the live set, given that of its children. *)
Lemma transfer_node op children :
  Forall (fun i => flat_tree i = true -> leaves_ok i = true -> adds_reads i) children ->
  forallb flat_tree children = true -> leaves_ok (R_Node op children) = true ->
  plain_delete locations op = true ->
  forall live x, x ∈ locations ->
    (x ∈ live /\ (x ∉ overwrites op \/ keeps_slots op = true)) \/ x ∈ tree_reads (R_Node op children) ->
    x ∈ transfer (R_Node op children) live.
Proof.
  intros IH Hf Hl Hd live x Hx H. cbn in Hl. apply andb_true_iff in Hl as [Hn Hl].
  pose proof (transfer_fold_left _ IH Hf Hl) as HL. pose proof (transfer_fold_right _ IH Hf Hl) as HR.
  cbn [tree_reads] in H. rewrite elem_of_app in H.
  destruct op; cbn [transfer_backwards]; cbn [slots_read overwrites keeps_slots no_children plain_delete] in *;
    try (apply HL; [done|]; destruct H as [[? _]|[?|H]]; [by left|by right|by apply not_elem_of_nil in H]).
  - cbn in Hn. bool_inv. destruct children; [|done]. apply elem_of_insert_in. cbn in H. set_solver.
  - apply HL; [done|]. destruct H as [[? [?|?]]|[?|H]]; [left; set_solver|done|by right|by apply not_elem_of_nil in H].
  - cbn in Hn. bool_inv. destruct children; [|done]. destruct quietly; cbn in *; bool_inv; set_solver.
  - cbn in Hn. bool_inv. destruct children; [|done]. apply elem_of_insert_in. cbn in H.
    destruct (decide (x = rn_location name)); set_solver.
  - apply HR; [done|]. rewrite elem_of_insert_in. set_solver.
  - rewrite !elem_of_insert_in. unfold written_names.
    destruct (replaces_buffer kind); cbn in *.
    + destruct H as [[? [?|?]]|[?|?]]; [|done| |]; [left; left; apply HL; set_solver
        |left; left; apply HL; set_solver|set_solver].
    + destruct H as [[? ?]|[?|?]]; [left; left; apply HL; set_solver
        |left; left; apply HL; set_solver|set_solver].
  - cbn in Hn. bool_inv. destruct children; [|done]. apply elem_of_insert_in. cbn in H. set_solver.
Qed.

Lemma flat_adds_reads i : flat_tree i = true -> leaves_ok i = true -> adds_reads i.
Proof.
  induction i as [|op children IH] using InstrResolved_tree_ind; intros Hf Hl live x Hx H.
  { cbn in *. set_solver. }
  cbn [flat_tree] in Hf. apply andb_true_iff in Hf as [Hk Hf].
  apply transfer_node; try done; [by destruct op|]. destruct H; [left; auto|by right].
Qed.

(** The live set before a statement covers its reads and what it does not overwrite. *)
Lemma statement_transfer i live x :
  statement_ok locations i = true -> x ∈ locations ->
  (x ∈ live /\ x ∉ tree_overwrites i) \/ x ∈ tree_reads i -> x ∈ transfer i live.
Proof.
  unfold statement_ok. intros [Hl Hs]%andb_true_iff Hx H. destruct i as [|op children].
  { cbn in *. set_solver. }
  apply andb_true_iff in Hs as [Hd Hf]. apply transfer_node; try done.
  - apply Forall_forall. intros c _. apply flat_adds_reads.
  - cbn [tree_overwrites] in H. naive_solver.
Qed.

Lemma transfer_mono i live live' : live ⊆ live' -> transfer i live ⊆ transfer i live'.
Proof.
  revert live live'. induction i as [|op children IH] using InstrResolved_tree_ind; intros live live' Hs; [done|].
  assert (forall l l' : LiveSet, l ⊆ l' ->
    fold_left (fun live c => transfer c live) children l ⊆ fold_left (fun live c => transfer c live) children l') as HL.
  { clear -IH. induction IH as [|c cs Hc _ IH]; intros l l' Hl; [done|]. cbn. by apply IH, Hc. }
  assert (forall l l' : LiveSet, l ⊆ l' ->
    fold_right (fun c live => transfer c live) l children ⊆ fold_right (fun c live => transfer c live) l' children) as HR.
  { clear -IH. induction IH as [|c cs Hc _ IH]; intros l l' Hl; [done|]. cbn. by apply Hc, IH. }
  assert (forall x (l l' : LiveSet), l ⊆ l' -> insert_in locations x l ⊆ insert_in locations x l') as HI.
  { intros x l l' Hl y. rewrite !elem_of_insert_in. set_solver. }
  destruct op; cbn [transfer_backwards]; try (by apply HL); auto.
  - apply HL. set_solver.
  - set_solver.
  - apply HI. set_solver.
  - apply HI, HI, HL. set_solver.
Qed.
End transfer.

(** ** Agreement *)

(** What the analysis relies on: the analysed locations are slots, an argument that names one of
    them is known under that name, and subexpressions only consume. *)
Class LiveReady (slot_of : string -> option NameLocation) (blocks : list (Block InstrResolved))
    (operands : list Operand) (locations : LiveSet) : Prop := {
  live_slots l : l ∈ locations -> is_slot l = true;
  live_named name l : slot_of name = Some l -> l ∈ locations ->
    exists o, o ∈ operands /\ rn_id (operand_name o) = name /\ rn_location (operand_name o) = l;
  live_statements b i : b ∈ blocks -> i ∈ resolved_block_instrs b -> statement_ok locations i = true
}.

(** Live before the statements [l] at the end of a body, and after the instruction of a terminator. *)
Definition live_from (operands : list Operand) (locations : LiveSet) (live : gmap BlockLabel LiveSet)
    (b : Block InstrResolved) (l : list InstrResolved) : LiveSet :=
  fold_right (fun i s => transfer_backwards locations i s ∪ exceptional_live operands live b)
    (term_live operands locations live b) l.
Definition after_term (operands : list Operand) (live : gmap BlockLabel LiveSet) (b : Block InstrResolved) : LiveSet :=
  ⋃ (map (input_at live) (normal_targets b))
  ∪ match blk_term b with BT_Jump edge => operand_edge_live edge live operands | _ => ∅ end.

Lemma term_live_instrs operands locations live b :
  term_live operands locations live b
  = transfer_all locations (resolved_term_instrs (blk_term b)) (after_term operands live b)
    ∪ exceptional_live operands live b.
Proof. unfold term_live, after_term. destruct (blk_term b); by rewrite ?union_empty_r_L. Qed.

Section agreement.
Context {World Value : Type} `{!ResolvedRuntime World Value}.
Notation Slots := (gmap NameLocation Value).

Lemma bind_self slot_of cur params (σ : Slots) :
  bind_params slot_of cur params (map (fun p => BA_Name (bp_name p)) params) σ = σ.
Proof.
  unfold bind_params, edge_pairs. rewrite length_map, Nat.sub_diag, drop_0.
  generalize params as l. induction l as [|p l IH]; [done|]. cbn. unfold bind_pair at 2. cbn.
  destruct (slot_of (bp_name p)) as [x|]; [|done]. cbn. by rewrite partial_alter_self.
Qed.

Context {slot_of : string -> option NameLocation}.
Context {blocks : list (Block InstrResolved)} {operands : list Operand} {locations : LiveSet}.
Context {live : gmap BlockLabel LiveSet} `{LR : !LiveReady slot_of blocks operands locations}.
Notation dead s := (locations ∖ s).
Notation live_from := (live_from operands locations live).
Notation after_term := (after_term operands live).

(** One statement: agreeing on what is live before, then on what is live after.  [X] is what a
    handler needs. *)
Lemma statement_agree i live_after X w σ1 w' σ1' o (σ2 : Slots) :
  statement_ok locations i = true -> ev w σ1 i w' σ1' o ->
  agree_off (dead (transfer_backwards locations i live_after ∪ X)) σ1 σ2 ->
  exists σ2', ev w σ2 i w' σ2' o
    /\ agree_off (dead (transfer_backwards locations i live_after ∪ X)) σ1' σ2'
    /\ (is_normal o = true -> agree_off (dead (live_after ∪ X)) σ1' σ2').
Proof.
  intros Hok He Ha. set (D := dead _) in *.
  destruct (ev_agree i D _ _ _ _ _ _ He Ha) as (σ2' & E & A & An).
  { intros l Hl [Hloc Hn]%elem_of_difference. apply Hn, elem_of_union_l. apply statement_transfer; auto. }
  exists σ2'. split_and!; [done|done|]. intros Ho.
  assert (forall l, l ∈ D -> l ∉ tree_overwrites i -> l ∈ dead (live_after ∪ X)) as Hdead.
  { unfold D. intros l [Hl Hn]%elem_of_difference Hov. apply elem_of_difference. split; [done|].
    intros [Hlive|HX]%elem_of_union; apply Hn; [apply elem_of_union_l|by apply elem_of_union_r].
    apply statement_transfer; [done|done|]. by left. }
  destruct (Forall_dec (fun l => is_slot l = true) (tree_overwrites i)) as [Hs|Hs].
  - rewrite Forall_forall in Hs. eapply agree_off_mono; [|by apply An].
    intros l [Hl Hov]%elem_of_difference. apply Hdead; [done|]. by rewrite elem_of_list_to_set in Hov.
  - eapply agree_off_mono; [|exact A]. intros l Hl. apply Hdead; [done|]. intros Hov. apply Hs.
    apply Forall_forall. intros l' Hl'.
    assert (l' = l) as ->; [|apply live_slots; unfold D in Hl; set_solver].
    destruct i as [|op ?]; [by apply not_elem_of_nil in Hov|].
    clear -Hov Hl'. destruct op; cbn in *; repeat case_match; set_solver.
Qed.


Lemma exceptional_in_live_from b l : exceptional_live operands live b ⊆ live_from b l.
Proof. destruct l as [|i l]; cbn; [unfold term_live|]; set_solver. Qed.

Lemma body_agree b l w σ1 w' σ1' o (σ2 : Slots) :
  forallb (statement_ok locations) l = true -> evs w σ1 l w' σ1' o ->
  agree_off (dead (live_from b l)) σ1 σ2 ->
  exists σ2', evs w σ2 l w' σ2' o
    /\ match o with
       | Normal _ => agree_off (dead (term_live operands locations live b)) σ1' σ2'
       | Raising _ => agree_off (dead (exceptional_live operands live b)) σ1' σ2'
       end.
Proof.
  revert w σ1 o σ2. induction l as [|i l IH]; intros w σ1 o σ2 Hok He Ha.
  { inversion He; subst. exists σ2. split; [constructor|done]. }
  cbn in Hok. apply andb_true_iff in Hok as [Hi Hok]. change (live_from b (i :: l)) with
    (transfer_backwards locations i (live_from b l) ∪ exceptional_live operands live b) in Ha.
  pose proof (exceptional_in_live_from b l) as Hx.
  inversion He as [|? ? ? ? w1 σ3 v ? ? vs H1 H2|? ? ? ? ? ? e H1|? ? ? ? w1 σ3 v ? ? e H1 H2]; subst;
    destruct (statement_agree _ _ _ _ _ _ _ _ _ Hi H1 Ha) as (σ4 & E4 & A4 & N4).
  - destruct (IH _ _ _ σ4 Hok H2) as (σ5 & E5 & A5).
    { eapply agree_off_mono; [|by apply N4]. set_solver. }
    exists σ5. split; [by econstructor|done].
  - exists σ4. split; [by apply Evs_Head|]. eapply agree_off_mono; [|exact A4]. set_solver.
  - destruct (IH _ _ _ σ4 Hok H2) as (σ5 & E5 & A5).
    { eapply agree_off_mono; [|by apply N4]. set_solver. }
    exists σ5. split; [by eapply Evs_Tail|done].
Qed.

(** Following an edge with live arguments. *)
Lemma bind_agree cur params args D (σ1 σ2 : Slots) :
  agree_off D σ1 σ2 ->
  (forall a, a ∈ args -> arg_value slot_of cur σ1 a = arg_value slot_of cur σ2 a) ->
  agree_off D (bind_params slot_of cur params args σ1) (bind_params slot_of cur params args σ2).
Proof.
  intros Ha Hargs. unfold bind_params.
  assert (forall p, p ∈ edge_pairs params args -> arg_value slot_of cur σ1 p.2 = arg_value slot_of cur σ2 p.2) as Hp.
  { intros [p a] Hin. apply Hargs. apply list_elem_of_lookup in Hin as [i Hi].
    apply lookup_zip_with_Some in Hi as (x & y & [= <- <-] & _ & Hy). by eapply list_elem_of_lookup_2. }
  revert Hp. generalize (edge_pairs params args) as pairs. intros pairs.
  assert (agree_off D σ1 σ2) as Hacc by done. revert Hacc.
  generalize σ1 at 1 4 as τ1. generalize σ2 at 1 4 as τ2. intros τ2 τ1. revert τ1 τ2.
  induction pairs as [|p pairs IH]; intros τ1 τ2 Hacc Hp; [done|]. cbn. apply IH; [|set_solver].
  unfold bind_pair. destruct (slot_of (bp_name p.1)) as [l|]; [|done]. intros l' Hl'.
  destruct (decide (l = l')) as [<-|].
  - rewrite !lookup_partial_alter_eq. apply Hp. by left.
  - rewrite !lookup_partial_alter_ne by done. by apply Hacc.
Qed.

Lemma edge_agree cur edge params (σ1 σ2 : Slots) :
  agree_off (dead (operand_edge_live edge live operands)) σ1 σ2 ->
  agree_off (dead (input_at live (be_target edge))) (bind_params slot_of cur params (be_args edge) σ1)
    (bind_params slot_of cur params (be_args edge) σ2).
Proof.
  intros Ha. apply bind_agree.
  - eapply agree_off_mono; [|exact Ha]. unfold operand_edge_live, input_at. set_solver.
  - intros a Hin. destruct a as [name| | |]; try done. cbn. destruct (slot_of name) as [l|] eqn:El; [|done].
    cbn. apply Ha. intros [Hloc Hn]%elem_of_difference. apply Hn. destruct (live_named _ _ El Hloc) as (o & Ho & Hid & Hl).
    unfold operand_edge_live. apply elem_of_union_r, elem_of_list_to_set, list_elem_of_In, in_concat.
    exists (arg_operands operands (BA_Name name)). split; [by apply in_map, list_elem_of_In|].
    cbn. apply in_map_iff. exists o. split; [done|]. apply List.filter_In.
    split; [by apply list_elem_of_In|by apply bool_decide_eq_true].
Qed.

Lemma term_instr_agree b i w σ1 w' σ1' o (σ2 : Slots) :
  b ∈ blocks -> resolved_term_instrs (blk_term b) = [i] -> ev w σ1 i w' σ1' o ->
  agree_off (dead (term_live operands locations live b)) σ1 σ2 ->
  exists σ2', ev w σ2 i w' σ2' o
    /\ agree_off (dead (exceptional_live operands live b)) σ1' σ2'
    /\ (is_normal o = true -> agree_off (dead (after_term b)) σ1' σ2').
Proof.
  intros Hb Hi He Ha. rewrite term_live_instrs, Hi in Ha. cbn in Ha.
  assert (statement_ok locations i = true) as Hok.
  { apply (live_statements b); [done|]. unfold resolved_block_instrs. rewrite Hi. set_solver. }
  destruct (statement_agree _ _ _ _ _ _ _ _ _ Hok He Ha) as (σ3 & E3 & A3 & N3).
  exists σ3. split_and!; [done| |].
  - eapply agree_off_mono; [|exact A3]. set_solver.
  - intros Hn. eapply agree_off_mono; [|by apply N3]. set_solver.
Qed.

Lemma term_raise_agree b w σ1 w' σ1' e (σ2 : Slots) :
  b ∈ blocks -> term_raise (blk_term b) w σ1 w' σ1' e ->
  agree_off (dead (term_live operands locations live b)) σ1 σ2 ->
  exists σ2', term_raise (blk_term b) w σ2 w' σ2' e
    /\ agree_off (dead (exceptional_live operands live b)) σ1' σ2'.
Proof.
  intros Hb Hs Ha.
  assert (forall i o, i ∈ resolved_term_instrs (blk_term b) -> ev w σ1 i w' σ1' o ->
    exists σ2', ev w σ2 i w' σ2' o /\ agree_off (dead (exceptional_live operands live b)) σ1' σ2') as Hi.
  { intros i o Hi He. assert (resolved_term_instrs (blk_term b) = [i]) as Hi'.
    { clear -Hi. destruct (blk_term b) as [| | |r| |]; cbn in *; try set_solver.
      destruct (tr_exc r); cbn in *; set_solver. }
    destruct (term_instr_agree _ _ _ _ _ _ _ _ Hb Hi' He Ha) as (σ3 & E3 & A3 & _). eauto. }
  inversion Hs as [t i ? ? ? ? ? Hin He|r i ? ? ? ? ? Hr He Et|r ? ? ? Hr Hc Et]; subst.
  - destruct (Hi _ _ Hin He) as (σ3 & E3 & A3). exists σ3. split; [by eapply TR_Instr|done].
  - destruct (Hi i (Normal e)) as (σ3 & E3 & A3); [rewrite <- Et; cbn; rewrite Hr; by left|exact He|].
    exists σ3. split; [by eapply TR_Raise|done].
  - exists σ2. split; [by apply TR_Current|]. eapply agree_off_mono; [|exact Ha].
    rewrite term_live_instrs. set_solver.
Qed.

End agreement.
