(* ===== verification/OperandCleanupProps.v ===== *)
(** * Unwinding of operands is correct

    The liveness loop of OperandCleanup.v ends in a fixed point, and every execution of the
    transformed function is one of the given function in which operands that are not read any
    more are released on the way to a handler, whatever effect their release has. *)

From stdpp Require Import gmap.
From S2P Require Import Prelude Order Collections Ids IdsProps Cfg CfgProps Names Instr Layout.
From S2P Require Import Resolved ResolvedSem Flow OperandCleanup LiveAgree.

Local Open Scope Z_scope.

(** ** The fixed point *)

Section liveness.
Context (blocks : list (Block InstrResolved)) (operands : list Operand) (locations : LiveSet).
Hypothesis operand_locations : forall o, o ∈ operands -> rn_location (operand_name o) ∈ locations.
Notation transfer := (transfer_backwards locations).
Notation edge_live := (fun edge inputs => operand_edge_live edge inputs operands).

Lemma transfer_bounded i live : live ⊆ locations -> transfer i live ⊆ locations.
Proof.
  revert live. induction i as [|op children IH] using InstrResolved_tree_ind; intros live Hs; [done|].
  assert (forall l : LiveSet, l ⊆ locations ->
    fold_left (fun live c => transfer c live) children l ⊆ locations) as HL.
  { clear -IH. induction IH as [|c cs Hc _ IH]; intros l Hl; [done|]. cbn. by apply IH, Hc. }
  assert (forall l : LiveSet, l ⊆ locations ->
    fold_right (fun c live => transfer c live) l children ⊆ locations) as HR.
  { clear -IH. induction IH as [|c cs Hc _ IH]; intros l Hl; [done|]. cbn. by apply Hc, IH. }
  assert (forall x (l : LiveSet), l ⊆ locations -> insert_in locations x l ⊆ locations) as HI.
  { intros x l Hl y. rewrite !elem_of_insert_in. set_solver. }
  destruct op; cbn [transfer_backwards]; try (by apply HL); auto.
  - apply HL. set_solver.
  - set_solver.
  - apply HI. set_solver.
  - apply HI, HI, HL. set_solver.
Qed.

Lemma transfer_all_mono l live live' :
  live ⊆ live' -> transfer_all locations l live ⊆ transfer_all locations l live'.
Proof.
  revert live live'. induction l as [|i l IH]; intros live live' Hs; [done|]. by apply IH, transfer_mono.
Qed.
Lemma transfer_all_bounded l live : live ⊆ locations -> transfer_all locations l live ⊆ locations.
Proof. revert live. induction l as [|i l IH]; intros live Hs; [done|]. by apply IH, transfer_bounded. Qed.

Lemma arg_operands_bounded args : list_to_set (concat (map (arg_operands operands) args)) ⊆ locations.
Proof.
  intros x Hx. apply elem_of_list_to_set, list_elem_of_In, in_concat in Hx as (l & Hl & Hx).
  apply in_map_iff in Hl as (arg & <- & _). destruct arg; cbn in Hx; [|done..].
  apply in_map_iff in Hx as (o & <- & Ho). apply List.filter_In in Ho as [Ho _].
  by apply operand_locations, list_elem_of_In.
Qed.
Lemma operand_edge_live_mono edge i j : below i j -> edge_live edge i ⊆ edge_live edge j.
Proof. intros Hb. unfold operand_edge_live. specialize (Hb (be_target edge)). unfold input_at in Hb. set_solver. Qed.
Lemma operand_edge_live_bounded edge i :
  (forall l, input_at i l ⊆ locations) -> edge_live edge i ⊆ locations.
Proof.
  intros Hb. unfold operand_edge_live. pose proof (arg_operands_bounded (be_args edge)).
  specialize (Hb (be_target edge)). unfold input_at in Hb. set_solver.
Qed.

Lemma targets_mono targets (i j : gmap BlockLabel LiveSet) :
  below i j -> ⋃ (map (input_at i) targets) ⊆ ⋃ (map (input_at j) targets).
Proof.
  intros Hb. induction targets as [|t targets IH]; cbn; [done|]. specialize (Hb t). set_solver.
Qed.
Lemma targets_bounded targets (i : gmap BlockLabel LiveSet) :
  (forall l, input_at i l ⊆ locations) -> ⋃ (map (input_at i) targets) ⊆ locations.
Proof.
  intros Hb. induction targets as [|t targets IH]; cbn; [set_solver|]. specialize (Hb t). set_solver.
Qed.

Lemma exceptional_live_mono i j b :
  below i j -> exceptional_live operands i b ⊆ exceptional_live operands j b.
Proof.
  intros Hb. unfold exceptional_live. destruct (blk_exc_edge b); [|done]. by apply operand_edge_live_mono.
Qed.
Lemma exceptional_live_bounded i b :
  (forall l, input_at i l ⊆ locations) -> exceptional_live operands i b ⊆ locations.
Proof.
  intros Hb. unfold exceptional_live. destruct (blk_exc_edge b); [|set_solver].
  by apply operand_edge_live_bounded.
Qed.

Lemma block_live_mono i j b :
  below i j -> block_live operands locations i b ⊆ block_live operands locations j b.
Proof.
  intros Hb. pose proof (exceptional_live_mono i j b Hb) as He. unfold block_live.
  assert (term_live operands locations i b ⊆ term_live operands locations j b) as Ht.
  { unfold term_live. apply union_mono; [|done]. apply transfer_all_mono.
    pose proof (targets_mono (normal_targets b) i j Hb) as Hn. unfold input_at in Hn.
    destruct (blk_term b); try done. apply union_mono; [done|by apply operand_edge_live_mono]. }
  induction (blk_body b) as [|c l IH]; cbn; [done|]. apply union_mono; [by apply transfer_mono|done].
Qed.
Lemma block_live_bounded i b :
  (forall l, input_at i l ⊆ locations) -> block_live operands locations i b ⊆ locations.
Proof.
  intros Hb. pose proof (exceptional_live_bounded i b Hb) as He. unfold block_live.
  assert (term_live operands locations i b ⊆ locations) as Ht.
  { unfold term_live. apply union_subseteq. split; [|done]. apply transfer_all_bounded.
    pose proof (targets_bounded (normal_targets b) i Hb) as Hn. unfold input_at in Hn.
    destruct (blk_term b); try done. apply union_subseteq. split; [done|by apply operand_edge_live_bounded]. }
  induction (blk_body b) as [|c l IH]; cbn; [done|]. apply union_subseteq. split; [by apply transfer_bounded|done].
Qed.

(** The loop ends, in the least solution of the liveness equations. *)
Lemma live_inputs_total :
  NoDup (labels blocks) ->
  exists live, live_inputs blocks operands locations = Some live
    /\ (forall l, input_at live l ⊆ locations)
    /\ (forall b, b ∈ blocks -> input_at live (blk_label b) = block_live operands locations live b)
    /\ forall sol, (forall b, b ∈ blocks -> input_at sol (blk_label b) = block_live operands locations sol b) ->
        below live sol.
Proof.
  intros Hnd. destruct (settle_total blk_label (block_live operands locations) blocks locations)
    as (live & E & Hd & Hf & Hm); [done|apply block_live_mono|intros; by apply block_live_bounded|].
  exists live. split_and!; [done| | |].
  - intros l. unfold input_at. destruct (live !! l) eqn:El; [by apply Hd in El as [_ ?]|set_solver].
  - intros b Hb. unfold input_at. by rewrite (Hf b Hb).
  - intros sol Hs. apply Hm. intros b Hb. by rewrite (Hs b Hb).
Qed.
End liveness.

(** ** The blocks that come out *)

(** [b'] is [b], or its exception edge goes through a cleanup block. *)
Inductive redirected (blocks : list (Block InstrResolved)) (operands : list Operand)
    (live acquired : gmap BlockLabel LiveSet) (b : Block InstrResolved) :
    Block InstrResolved -> list (Block InstrResolved) -> Prop :=
| Redir_Same :
    (forall edge, blk_exc_edge b = Some edge -> be_target edge ∈ labels blocks ->
       cleanup_body operands (default ∅ (acquired !! blk_label b)) (operand_edge_live edge live operands) = []) ->
    redirected blocks operands live acquired b b []
| Redir_Cleanup edge label target :
    blk_exc_edge b = Some edge -> find_block (be_target edge) blocks = Some target ->
    redirected blocks operands live acquired b (with_exc_target b (mkBlockEdge label (be_args edge)))
      [cleanup_block label
         (cleanup_body operands (default ∅ (acquired !! blk_label b)) (operand_edge_live edge live operands))
         edge (blk_params target)].

Definition block_counter (s : Store) (g : FunctionNameGen) : option Z :=
  fs_next_block_id <$> st_functions s !! fg_state g.

Lemma fresh_label_counter s g s' l n :
  fresh_label s g = Some (s', l) -> block_counter s g = Some n -> 0 <= n ->
  bl_index l = n /\ block_counter s' g = Some (n + 1).
Proof.
  unfold fresh_label, next_block_name, fetch_block, block_counter. intros Hf Hc Hn.
  destruct (st_functions s !! fg_state g) as [st|] eqn:E; [|done]. cbn in *. injection Hc as <-.
  unfold label_from_index in Hf. case_bool_decide as Hle; [|done]. cbn in Hf. injection Hf as <- <-.
  cbn. rewrite lookup_insert_eq. cbn. unfold fetch_add_usize, wrap64, u32_max in *.
  rewrite Z2Nat.id in * by lia. rewrite Z.mod_small by lia. done.
Qed.

Lemma collect_params blocks l params :
  NoDup (labels blocks) ->
  collect_map (map (fun b : Block InstrResolved => (blk_label b, blk_params b)) blocks) !! l = Some params ->
  exists target, find_block l blocks = Some target /\ blk_params target = params.
Proof.
  intros Hnd H. apply collect_map_elem in H. apply list_elem_of_fmap in H as (b & [= -> ->] & Hb).
  exists b. split; [by apply find_block_elem|done].
Qed.

Section unwound.
Context (blocks : list (Block InstrResolved)) (operands : list Operand).
Context (live acquired : gmap BlockLabel LiveSet) (g : FunctionNameGen).
Hypothesis distinct : NoDup (labels blocks).
Notation params := (collect_map (map (fun b : Block InstrResolved => (blk_label b, blk_params b)) blocks)).
Notation redirected := (redirected blocks operands live acquired).

Lemma unwind_block_spec s b s' b' cs n :
  unwind_block operands live acquired params g s b = Some (s', b', cs) ->
  block_counter s g = Some n -> 0 <= n ->
  redirected b b' cs /\ exists n', block_counter s' g = Some n' /\ n <= n'
    /\ NoDup (labels cs) /\ forall c, c ∈ cs -> n <= bl_index (blk_label c) < n'.
Proof.
  intros H Hc Hn. unfold unwind_block in H.
  assert (forall s0, s0 = s -> exists n', block_counter s0 g = Some n' /\ n <= n' /\ NoDup (labels (@nil (Block InstrResolved)))
    /\ forall c, c ∈ @nil (Block InstrResolved) -> n <= bl_index (blk_label c) < n') as Hnil.
  { intros s0 ->. exists n. split_and!; [done|lia|constructor|]. by intros c ?%not_elem_of_nil. }
  destruct (blk_exc_edge b) as [edge|] eqn:Ee.
  2: { simplify_eq. split; [by constructor; congruence|by apply Hnil]. }
  destruct (acquired !! blk_label b) as [available|] eqn:Ea; [|done]. cbn [mbind option_bind] in H.
  destruct (cleanup_body operands available _) as [|i body] eqn:Ec.
  { simplify_eq. split; [|by apply Hnil]. constructor. rewrite Ea. intros e He _. rewrite Ee in He. by injection He as <-. }
  destruct (params !! be_target edge) as [target_params|] eqn:Ep.
  2: { simplify_eq. split; [|by apply Hnil]. constructor. intros e He Hin. rewrite Ee in He. injection He as <-. exfalso.
       assert (is_Some (params !! be_target edge)) as [? ?]; [|congruence].
       apply collect_map_dom. rewrite map_map. cbn. exact Hin. }
  case_bool_decide; [|done]. destruct (fresh_label s g) as [[s1 label]|] eqn:Ef; [|done]. cbn in H. simplify_eq.
  destruct (fresh_label_counter _ _ _ _ _ Ef Hc Hn) as [Hl Hc'].
  apply collect_params in Ep as (target & Ht & <-); [|done]. split.
  - rewrite <- Ec. replace available with (default ∅ (acquired !! blk_label b)) by (by rewrite Ea).
    by constructor.
  - exists (n + 1). split_and!; [done|lia|apply NoDup_singleton|].
    intros c ->%list_elem_of_singleton. cbn. lia.
Qed.

Lemma unwind_blocks_spec s l s' l' cs n :
  unwind_blocks operands live acquired params g s l = Some (s', l', cs) ->
  block_counter s g = Some n -> 0 <= n ->
  exists ps, Forall2 (fun b p => redirected b p.1 p.2) l ps /\ l' = map fst ps /\ cs = concat (map snd ps)
    /\ exists n', block_counter s' g = Some n' /\ n <= n' /\ NoDup (labels cs)
    /\ forall c, c ∈ cs -> n <= bl_index (blk_label c) < n'.
Proof.
  revert s l' cs n. induction l as [|b l IH]; intros s l' cs n H Hc Hn; cbn in H.
  { simplify_eq. exists []. split_and!; [constructor|done|done|]. exists n. split_and!; [done|lia|constructor|].
    by intros c ?%not_elem_of_nil. }
  destruct (unwind_block operands live acquired params g s b) as [[[s1 b'] cs1]|] eqn:E1; [|done]. cbn in H.
  destruct (unwind_blocks operands live acquired params g s1 l) as [[[s2 l2] cs2]|] eqn:E2; [|done]. cbn in H.
  simplify_eq. destruct (unwind_block_spec _ _ _ _ _ _ E1 Hc Hn) as (R1 & n1 & C1 & L1 & N1 & B1).
  destruct (IH _ _ _ _ E2 C1) as (ps & Hps & -> & -> & n2 & C2 & L2 & N2 & B2); [lia|].
  exists ((b', cs1) :: ps). split_and!; [by constructor|done|done|]. exists n2. split_and!; [done|lia| |].
  - cbn [map concat]. unfold labels in *. rewrite map_app. apply NoDup_app. split_and!; [done| |done].
    intros x Hx Hy. apply list_elem_of_fmap in Hx as (c & -> & Hx%B1), Hy as (c' & E & Hy%B2). rewrite E in *. lia.
  - intros c [Hx%B1|Hx%B2]%elem_of_app; lia.
Qed.
End unwound.

(** ** Executions *)

(** Releasing what a frame slot holds returns and raises nothing.  It may have any effect on
    the world: the last reference to an object may go, and its finaliser run. *)
Class QuietRelease (World Value : Type) `{!ResolvedRuntime World Value} : Prop := {
  release_returns name w : is_slot (rn_location name) = true ->
    exists w' v, result_of (Op_Del name true) w [] [] w' v;
  release_total name w rs vs w' e : is_slot (rn_location name) = true ->
    ~ raises (Op_Del name true) w rs vs w' e
}.

(** Configurations at the same place, with the same world, that may differ in the slots [D]. *)
Inductive differ_at {World Value : Type} (D : LiveSet) :
    Config (World := World) (Value := Value) -> Config -> Prop :=
| Differ_Running l w σ1 σ2 : agree_off D σ1 σ2 -> differ_at D (Running l w σ1) (Running l w σ2)
| Differ_Done exit w σ1 σ2 : agree_off D σ1 σ2 -> differ_at D (Done exit w σ1) (Done exit w σ2).

Section releases.
Context {World Value : Type} `{!ResolvedRuntime World Value}.
Context (slot_of : string -> option NameLocation) (blocks : list (Block InstrResolved)).
Context (operands : list Operand).
Notation operand_slots := (list_to_set (map (fun o => rn_location (operand_name o)) operands) : LiveSet).

(** From the start of block [l] on, it makes no difference what slot [x] holds. *)
Definition unread (x : NameLocation) (l : BlockLabel) : Prop :=
  forall (w : World) (σ1 σ2 : gmap NameLocation Value) c1,
    agree_off {[x]} σ1 σ2 -> runs slot_of blocks (Running l w σ1) c1 ->
    exists c2, runs slot_of blocks (Running l w σ2) c2 /\ differ_at operand_slots c1 c2.

(** An operand that is not read any more is released, with whatever effect that has. *)
Inductive release_step : Config (World := World) (Value := Value) -> Config -> Prop :=
| Release l w σ operand w' v :
    operand ∈ operands -> unread (rn_location (operand_name operand)) l ->
    result_of (Op_Del (operand_name operand) true) w [] [] w' v ->
    release_step (Running l w σ) (Running l w' (delete (rn_location (operand_name operand)) σ)).
(** An execution of the blocks in which the runtime may release such operands before a block. *)
Definition released_runs : Config (World := World) (Value := Value) -> Config -> Prop :=
  rtc (fun c d => block_step slot_of blocks c d \/ release_step c d).
End releases.

(** *** The given function does not depend on what is dead *)

Section alike.
Context {World Value : Type} `{!ResolvedRuntime World Value}.
Context (slot_of : string -> option NameLocation).
Context (blocks : list (Block InstrResolved)) (operands : list Operand) (locations : LiveSet).
Context (live : gmap BlockLabel LiveSet).
Notation Slots := (gmap NameLocation Value).
Notation dead s := (locations ∖ s).
Notation live_from := (live_from operands locations live).
Notation after_term := (after_term operands live).
Context `{LR : !LiveReady slot_of blocks operands locations}.
Hypothesis closed : forall b t, b ∈ blocks -> t ∈ edge_targets b -> t ∈ labels blocks.
Hypothesis solution : forall b, b ∈ blocks -> input_at live (blk_label b) = block_live operands locations live b.

Inductive alike : Config (World := World) (Value := Value) -> Config -> Prop :=
| Alike_Running l w σ1 σ2 : agree_off (dead (input_at live l)) σ1 σ2 -> alike (Running l w σ1) (Running l w σ2)
| Alike_Done exit w σ1 σ2 : agree_off locations σ1 σ2 -> alike (Done exit w σ1) (Done exit w σ2).

Lemma alike_differ c d : alike c d -> differ_at locations c d.
Proof. intros []; constructor; [|done]. eapply agree_off_mono; [|done]. set_solver. Qed.

Lemma throw_alike b e w (σ1 σ2 : Slots) :
  agree_off (dead (exceptional_live operands live b)) σ1 σ2 ->
  alike (throw slot_of blocks b e w σ1) (throw slot_of blocks b e w σ2).
Proof.
  intros Ha. unfold throw. unfold exceptional_live in Ha. destruct (blk_exc_edge b) as [edge|]; cbn in Ha.
  - apply Alike_Running. by apply edge_agree.
  - apply Alike_Done. eapply agree_off_mono; [|exact Ha]. set_solver.
Qed.

Lemma running_alike b t w σ1 σ2 :
  t ∈ normal_targets b -> agree_off (dead (after_term b)) σ1 σ2 ->
  alike (Running t w σ1) (Running t w σ2).
Proof.
  intros Ht Ha. apply Alike_Running. eapply agree_off_mono; [|exact Ha]. unfold LiveAgree.after_term.
  enough (input_at live t ⊆ ⋃ (map (input_at live) (normal_targets b))) by set_solver.
  intros x Hx. apply elem_of_union_list. exists (input_at live t). split; [by apply list_elem_of_fmap_2|done].
Qed.

Lemma term_step_alike b w σ1 c (σ2 : Slots) :
  b ∈ blocks -> term_step slot_of blocks (blk_term b) w σ1 c ->
  agree_off (dead (term_live operands locations live b)) σ1 σ2 ->
  exists c', term_step slot_of blocks (blk_term b) w σ2 c' /\ alike c c'.
Proof.
  intros Hb Hs Ha.
  assert (forall i w' σ1' v, resolved_term_instrs (blk_term b) = [i] -> ev w σ1 i w' σ1' (Normal v) ->
    exists σ2', ev w σ2 i w' σ2' (Normal v) /\ agree_off (dead (after_term b)) σ1' σ2') as Hi.
  { intros i w' σ1' v Hi He.
    destruct (term_instr_agree _ _ _ _ _ _ _ _ Hb Hi He Ha) as (σ3 & E3 & _ & A3). eauto. }
  assert (forall t, t ∈ normal_targets b -> t ∈ edge_targets b) as Ht by (unfold edge_targets; set_solver).
  pose proof (term_live_instrs operands locations live b) as El. unfold LiveAgree.after_term in El. specialize (fun t => running_alike b t).
  intros Hrun. unfold normal_targets in Ht, Hrun. destruct (blk_term b) as [edge|i|i|r|i|i]; inversion Hs; subst.
  - eexists. split; [constructor|]. unfold follow.
    apply Alike_Running. apply edge_agree.
    eapply agree_off_mono; [|exact Ha]. rewrite El. cbn. set_solver.
  - match goal with H : ev _ _ _ _ _ _ |- _ => destruct (Hi _ _ _ _ eq_refl H) as (σ3 & E3 & A3) end.
    eexists. split; [by econstructor|]. apply Hrun; [|done]. case_match; set_solver.
  - match goal with H : ev _ _ _ _ _ _ |- _ => destruct (Hi _ _ _ _ eq_refl H) as (σ3 & E3 & A3) end.
    eexists. split; [by econstructor|]. apply Hrun; [|done].
    destruct (tb_targets i !! n) as [x|] eqn:En; cbn; [apply list_elem_of_lookup_2 in En|]; set_solver.
  - match goal with H : ev _ _ _ _ _ _ |- _ => destruct (Hi _ _ _ _ eq_refl H) as (σ3 & E3 & A3) end.
    eexists. split; [by econstructor|]. apply Alike_Done. eapply agree_off_mono; [|exact A3]. set_solver.
  - match goal with H : ev _ _ _ _ _ _ |- _ => destruct (Hi _ _ _ _ eq_refl H) as (σ3 & E3 & A3) end.
    eexists. split; [by econstructor|]. apply Alike_Done. eapply agree_off_mono; [|exact A3]. set_solver.
Qed.

Lemma block_step_alike c1 c2 d1 :
  alike c1 d1 -> block_step slot_of blocks c1 c2 -> exists d2, block_step slot_of blocks d1 d2 /\ alike c2 d2.
Proof.
  intros Hrel Hs. destruct Hrel as [l w σ1 σ2 Ha|]; [|by inversion Hs].
  assert (forall b, find_block l blocks = Some b -> b ∈ blocks /\ agree_off (dead (live_from b (blk_body b))) σ1 σ2
    /\ forallb (statement_ok locations) (blk_body b) = true) as Hfind.
  { intros b [Hin El]%find_block_some. split_and!; [done| |].
    - unfold LiveAgree.live_from. fold (block_live operands locations live b). by rewrite <- (solution b Hin), El.
    - apply forallb_forall. intros i Hi. apply (live_statements b); [done|]. apply elem_of_app. left. by apply list_elem_of_In. }
  inversion Hs as [? b ? ? w1 σ3 vs ? Hb Hbody Hterm|? b ? ? w1 σ3 e Hb Hbody
    |? b ? ? w1 σ3 vs w2 σ4 e Hb Hbody Hterm]; subst;
    destruct (Hfind _ Hb) as (Hin & Ha' & Hok); destruct (body_agree b _ _ _ _ _ _ _ Hok Hbody Ha') as (τ & Eτ & Aτ).
  - destruct (term_step_alike _ _ _ _ _ Hin Hterm Aτ) as (d & Hd & Rd). exists d. split; [by eapply Step_Term|done].
  - eexists. split; [by eapply Step_Body|]. by apply throw_alike.
  - destruct (term_raise_agree _ _ _ _ _ _ _ Hin Hterm Aτ) as (τ' & Eτ' & Aτ').
    eexists. split; [by eapply Step_Raise|]. by apply throw_alike.
Qed.
Lemma runs_alike c d c0 :
  runs slot_of blocks c d -> alike c c0 -> exists d0, runs slot_of blocks c0 d0 /\ alike d d0.
Proof.
  intros Hcd. revert c0. induction Hcd as [c|c c1 d Hstep _ IH]; intros c0 Hr.
  { exists c0. split; [apply rtc_refl|done]. }
  destruct (block_step_alike _ _ _ Hr Hstep) as (c2 & H1 & Hr2).
  destruct (IH _ Hr2) as (d0 & H2 & Hd). exists d0. split; [by eapply rtc_l|done].
Qed.
(** What is not live at a block is not read from there on. *)
Lemma dead_unread x l :
  (forall y, y ∈ locations -> exists o, o ∈ operands /\ rn_location (operand_name o) = y) ->
  x ∈ locations -> x ∉ input_at live l -> unread (World := World) (Value := Value) slot_of blocks operands x l.
Proof.
  intros Hcov Hx Hl w σ1 σ2 c1 Ha Hrun.
  destruct (runs_alike _ _ (Running l w σ2) Hrun) as (c2 & H2 & Hc).
  { apply Alike_Running. eapply agree_off_mono; [|exact Ha]. set_solver. }
  exists c2. split; [done|]. apply alike_differ in Hc. destruct Hc; constructor; (eapply agree_off_mono; [|done]);
    intros y (o & Ho & <-)%Hcov; apply elem_of_list_to_set, list_elem_of_fmap; by exists o.
Qed.
End alike.

(** *** The transformed function *)

Section simulation.
Context {World Value : Type} `{!ResolvedRuntime World Value} `{!QuietRelease World Value}.
Context (slot_of : string -> option NameLocation).
Context (blocks : list (Block InstrResolved)) (operands : list Operand) (locations : LiveSet).
Context (live : gmap BlockLabel LiveSet).
Notation Slots := (gmap NameLocation Value).

Hypothesis distinct : NoDup (labels blocks).
Context `{LR : !LiveReady slot_of blocks operands locations}.
Hypothesis operand_locations : forall o, o ∈ operands -> rn_location (operand_name o) ∈ locations.
Hypothesis covered : forall x, x ∈ locations -> exists o, o ∈ operands /\ rn_location (operand_name o) = x.
Hypothesis solution : forall b, b ∈ blocks -> input_at live (blk_label b) = block_live operands locations live b.

(** The transformed blocks. *)
Context (acquired : gmap BlockLabel LiveSet).
Context (ps : list (Block InstrResolved * list (Block InstrResolved))).
Notation cleanups := (concat (map snd ps)).
Notation after := (map fst ps ++ cleanups).
Notation redirected := (redirected blocks operands live acquired).
Hypothesis outcome : Forall2 (fun b p => redirected b p.1 p.2) blocks ps.
Hypothesis fresh_cleanups : NoDup (labels cleanups) /\ forall c, c ∈ cleanups -> blk_label c ∉ labels blocks.
Hypothesis closed : forall b t, b ∈ blocks -> t ∈ edge_targets b -> t ∈ labels blocks.

Lemma redirected_shape b b' cs :
  redirected b b' cs -> blk_label b' = blk_label b /\ blk_body b' = blk_body b
    /\ blk_term b' = blk_term b /\ blk_params b' = blk_params b.
Proof. by intros []. Qed.

Lemma after_labels : labels (map fst ps) = labels blocks.
Proof.
  unfold labels. rewrite map_map. clear fresh_cleanups.
  assert (Forall2 (fun b p => blk_label p.1 = blk_label b) blocks ps) as Hf.
  { eapply Forall2_impl; [exact outcome|]. intros b p R. cbn in *. by destruct (redirected_shape _ _ _ R). }
  clear -Hf. induction Hf as [|b p bs ps' R _ IH]; [done|]. cbn. by rewrite IH, R.
Qed.
Lemma after_distinct : NoDup (labels after).
Proof.
  unfold labels. rewrite map_app. apply NoDup_app. fold (labels (map fst ps)). rewrite after_labels.
  destruct fresh_cleanups as [Hn Hf]. split_and!; [done| |done].
  intros l Hl (c & -> & Hc)%list_elem_of_fmap. by apply (Hf c).
Qed.

Lemma after_find l b' :
  find_block l after = Some b' -> l ∈ labels blocks ->
  exists b cs, find_block l blocks = Some b /\ redirected b b' cs /\ cs ⊆ after.
Proof.
  intros [Hb <-]%find_block_some Hl. apply elem_of_app in Hb as [Hb|Hb].
  2: { by destruct fresh_cleanups as [_ Hf], (Hf b'). }
  apply list_elem_of_fmap in Hb as (p & -> & Hp). apply list_elem_of_lookup in Hp as [i Hi].
  destruct (Forall2_lookup_r _ _ _ _ _ outcome Hi) as (b & Hb & R). exists b, p.2. split_and!; [|done|].
  - apply redirected_shape in R as (-> & _). apply find_block_elem; [done|]. by eapply list_elem_of_lookup_2.
  - intros c Hc. apply elem_of_app. right. apply list_elem_of_In, in_concat. exists p.2.
    split; [by apply in_map, list_elem_of_In, list_elem_of_lookup_2 with i|by apply list_elem_of_In].
Qed.

Lemma after_params t : t ∈ labels blocks -> params_at after t = params_at blocks t.
Proof.
  intros Ht. unfold params_at. destruct (find_block t after) as [b'|] eqn:E.
  - destruct (after_find _ _ E Ht) as (b & cs & Hb & R & _). rewrite Hb.
    by apply redirected_shape in R as (_ & _ & _ & E').
  - exfalso. apply find_block_none in E. apply E. unfold labels. rewrite map_app.
    apply elem_of_app. left. fold (labels (map fst ps)). by rewrite after_labels.
Qed.

(** A cleanup block in the transformed function for an edge of the original. *)
Definition cleans (c : BlockLabel) (t : BlockLabel) : Prop :=
  exists edge available target, t = be_target edge /\ find_block t blocks = Some target
    /\ find_block c after = Some (cleanup_block c
         (cleanup_body operands available (operand_edge_live edge live operands)) edge (blk_params target)).

Inductive related : Config (World := World) (Value := Value) -> Config -> Prop :=
| Rel_Same l w σ : l ∈ labels blocks -> related (Running l w σ) (Running l w σ)
| Rel_Cleanup c t w σ : cleans c t -> related (Running c w σ) (Running t w σ)
| Rel_Done exit w σ : related (Done exit w σ) (Done exit w σ).

(** Leaving a block by an exception. *)
Lemma throw_related b b' cs e w (σ : Slots) :
  b ∈ blocks -> redirected b b' cs -> cs ⊆ after ->
  related (throw slot_of after b' e w σ) (throw slot_of blocks b e w σ).
Proof.
  intros Hb R Hcs. unfold throw. inversion R as [Hsame|edge label target He Ht]; subst.
  - destruct (blk_exc_edge b') as [edge|] eqn:Ee; [|constructor].
    assert (be_target edge ∈ labels blocks) as Hin.
    { apply (closed b'); [done|]. unfold edge_targets. rewrite Ee. set_solver. }
    unfold follow. rewrite after_params by done. by apply Rel_Same.
  - rewrite He. cbn. unfold follow. cbn.
    assert (find_block label after = Some (cleanup_block label
      (cleanup_body operands (default ∅ (acquired !! blk_label b)) (operand_edge_live edge live operands)) edge
      (blk_params target))) as Hc.
    { apply (find_block_elem after (cleanup_block label _ edge (blk_params target))); [apply after_distinct|].
      apply Hcs. by left. }
    assert (params_at after label = blk_params target) as ->.
    { unfold params_at. by rewrite Hc. }
    assert (params_at blocks (be_target edge) = blk_params target) as ->.
    { unfold params_at. by rewrite Ht. }
    apply Rel_Cleanup. by exists edge, (default ∅ (acquired !! blk_label b)), target.
Qed.

(** The deletes of a cleanup block release operands that the handler does not read. *)
Lemma cleanup_body_releases t available target_live w (σ : Slots) w' σ' o :
  input_at live t ⊆ target_live -> evs w σ (cleanup_body operands available target_live) w' σ' o ->
  is_normal o = true /\ released_runs slot_of blocks operands (Running t w σ) (Running t w' σ').
Proof.
  intros HT. unfold cleanup_body.
  assert (forall x, x ∈ List.filter (fun operand => bool_decide (rn_location (operand_name operand) ∈ available)
      && negb (bool_decide (rn_location (operand_name operand) ∈ target_live))) operands ->
    x ∈ operands /\ rn_location (operand_name x) ∉ input_at live t) as Hf.
  { intros x Hx. apply list_elem_of_In, List.filter_In in Hx as [Hx Hp]. bool_inv.
    split; [by apply list_elem_of_In|]. set_solver. }
  revert Hf. generalize (List.filter (fun operand => bool_decide (rn_location (operand_name operand) ∈ available)
      && negb (bool_decide (rn_location (operand_name operand) ∈ target_live))) operands) as l.
  intros l. revert w σ o. induction l as [|x l IH]; intros w σ o Hf He.
  { inversion He; subst. split; [done|apply rtc_refl]. }
  destruct (Hf x) as [Hx Hdead]; [by left|].
  assert (is_slot (rn_location (operand_name x)) = true) as Hs by (by eapply live_slots, operand_locations).
  assert (forall w1 σ1 o1, ev w σ (R_Node (Op_Del (operand_name x) true) []) w1 σ1 o1 ->
    is_normal o1 = true /\ release_step slot_of blocks operands (Running t w σ) (Running t w1 σ1)) as Hdel.
  { intros w1 σ1 o1 Hev. inversion Hev as [|? ? ? ? w2 σ2 vs ? ? v Hc Hr Hfx|? ? ? ? w2 σ2 vs ? ? e Hc Hr|? ? ? ? ? ? e Hc];
      subst; inversion Hc; subst; [|by apply release_total in Hr].
    split; [done|]. inversion Hfx; subst; [|done]. econstructor; [done| |exact Hr].
    eapply dead_unread; eauto. }
  inversion He as [|? ? ? ? w1 σ1 v ? ? vs H1 H2|? ? ? ? ? ? e H1|? ? ? ? w1 σ1 v ? ? e H1 H2]; subst;
    destruct (Hdel _ _ _ H1) as [Hn Hstep]; [|done|];
    (destruct (IH _ _ _ ltac:(intros; apply Hf; by right) H2) as [Hn' Hrun]; split; [done|]);
    (eapply rtc_l; [right; exact Hstep|exact Hrun]).
Qed.

(** A jump or branch of the transformed function is one of the given function. *)
Lemma term_step_related b w (σ : Slots) c :
  b ∈ blocks -> term_step slot_of after (blk_term b) w σ c ->
  term_step slot_of blocks (blk_term b) w σ c /\ related c c.
Proof.
  intros Hb Hs. assert (forall t, t ∈ normal_targets b -> t ∈ labels blocks) as Ht
    by (intros t Ht; apply (closed b); [done|]; unfold edge_targets; set_solver).
  unfold normal_targets in Ht. destruct (blk_term b) as [edge|i|i|r|i|i]; inversion Hs; subst.
  - unfold follow. rewrite after_params by (apply Ht; by left). split; [constructor|].
    apply Rel_Same, Ht. by left.
  - split; [by econstructor|]. apply Rel_Same, Ht. case_match; set_solver.
  - split; [by econstructor|]. apply Rel_Same, Ht.
    destruct (tb_targets i !! n) as [x|] eqn:En; cbn; [apply list_elem_of_lookup_2 in En|]; set_solver.
  - split; [by econstructor|constructor].
  - split; [by econstructor|constructor].
Qed.

(** One step of the transformed function is one of the given function, or the releases of a
    cleanup block. *)
Lemma block_step_related c1 c2 d1 :
  related c1 d1 -> block_step slot_of after c1 c2 ->
  exists d2, released_runs slot_of blocks operands d1 d2 /\ related c2 d2.
Proof.
  intros Hrel Hs. destruct Hrel as [l w σ Hl|c t w σ (edge & available & target & -> & Ht & Hc)|].
  - assert (forall b', find_block l after = Some b' -> exists b cs, find_block l blocks = Some b /\ b ∈ blocks
      /\ redirected b b' cs /\ cs ⊆ after /\ blk_body b' = blk_body b /\ blk_term b' = blk_term b) as Hfind.
    { intros b' Hb'. destruct (after_find _ _ Hb' Hl) as (b & cs & Hb & R & Hcs). exists b, cs.
      destruct (find_block_some _ _ _ Hb) as [Hin El]. destruct (redirected_shape _ _ _ R) as (_ & ? & ? & _). done. }
    inversion Hs as [? b' ? ? w1 σ3 vs ? Hb' Hbody Hterm|? b' ? ? w1 σ3 e Hb' Hbody
      |? b' ? ? w1 σ3 vs w2 σ4 e Hb' Hbody Hterm]; subst;
      destruct (Hfind _ Hb') as (b & cs & Hb & Hin & R & Hcs & Eb & Et); rewrite Eb in Hbody; try rewrite Et in Hterm.
    + destruct (term_step_related _ _ _ _ Hin Hterm) as [Hd Rd].
      exists c2. split; [|done]. apply rtc_once. left. by eapply Step_Term.
    + eexists. split; [apply rtc_once; left; by eapply Step_Body|]. by eapply throw_related.
    + eexists. split; [apply rtc_once; left; by eapply Step_Raise|]. by eapply throw_related.
  - assert (be_target edge ∈ labels blocks) as Hl.
    { destruct (decide (be_target edge ∈ labels blocks)) as [|Hn]; [done|]. apply find_block_none in Hn. congruence. }
    assert (input_at live (be_target edge) ⊆ operand_edge_live edge live operands) as HT
      by (unfold operand_edge_live, input_at; set_solver).
    inversion Hs as [? b' ? ? w1 σ3 vs ? Hb' Hbody Hterm|? b' ? ? w1 σ3 e Hb' Hbody
      |? b' ? ? w1 σ3 vs w2 σ4 e Hb' Hbody Hterm]; subst; rewrite Hc in Hb'; injection Hb' as <-; cbn [blk_body cleanup_block] in Hbody;
      destruct (cleanup_body_releases _ _ _ _ _ _ _ _ HT Hbody) as [Hn Hrun].
    + cbn in Hterm. inversion Hterm; subst. unfold follow. cbn. rewrite after_params by done.
      assert (params_at blocks (be_target edge) = blk_params target) as -> by (unfold params_at; by rewrite Ht).
      rewrite bind_self. eexists. split; [exact Hrun|]. by apply Rel_Same.
    + done.
    + cbn in Hterm. inversion Hterm; set_solver.
  - inversion Hs.
Qed.

Lemma runs_related c d c0 :
  runs slot_of after c d -> related c c0 ->
  exists d0, released_runs slot_of blocks operands c0 d0 /\ related d d0.
Proof.
  intros Hcd. revert c0. induction Hcd as [c|c c1 d Hstep _ IH]; intros c0 Hr.
  { exists c0. split; [apply rtc_refl|done]. }
  destruct (block_step_related _ _ _ Hr Hstep) as (c2 & H1 & Hr2).
  destruct (IH _ Hr2) as (d0 & H2 & Hd). exists d0. split; [by etrans|done].
Qed.
End simulation.

(** ** The pass *)

(** The table of operands: each entry is a slot and is stored under its location. *)
Lemma collect_operands_keys l table table' :
  (forall k o, table !! k = Some o -> rn_location (operand_name o) = k /\ is_slot k = true) ->
  collect_operands table l = Some table' ->
  forall k o, table' !! k = Some o -> rn_location (operand_name o) = k /\ is_slot k = true.
Proof.
  revert table. induction l as [|i l IH]; intros table Ht H; cbn in H; [by simplify_eq|].
  destruct (collect_operand table i) as [t1|] eqn:E; [|done]. cbn in H. apply (IH t1); [|done].
  unfold collect_operand in E. repeat case_match; simplify_eq; try done.
  intros k o [[<- <-]|[_ Hk]]%lookup_insert_Some; [|by apply Ht]. by bool_inv.
Qed.
Lemma collected_keys blocks table k o :
  collected blocks = Some table -> table !! k = Some o ->
  rn_location (operand_name o) = k /\ is_slot k = true.
Proof.
  intros Hc. eapply collect_operands_keys; [|exact Hc]. intros ? ?. by rewrite lookup_empty.
Qed.

(** What the pass relies on: distinct labels below the label counter, defined targets,
    statements whose subexpressions only consume, and operand slots that block arguments name
    by the operand's own name. *)
Record unwind_ready (slot_of : string -> option NameLocation) (s : Store) (f : ResolvedFunction)
    (table : gmap NameLocation Operand) : Prop := mkUnwindReady {
  ready_table : collected (rf_blocks f) = Some table;
  ready_distinct : NoDup (labels (rf_blocks f));
  ready_closed b t : b ∈ rf_blocks f -> t ∈ edge_targets b -> t ∈ labels (rf_blocks f);
  ready_counter : exists n, block_counter s (rf_name_gen f) = Some n /\ 0 <= n
    /\ forall b, b ∈ rf_blocks f -> bl_index (blk_label b) < n;
  ready_statements b i : b ∈ rf_blocks f -> i ∈ resolved_block_instrs b ->
    statement_ok (dom table) i = true;
  ready_named name l o : slot_of name = Some l -> table !! l = Some o -> rn_id (operand_name o) = name
}.

(** The hash table is listed completely. *)
Definition lists_all (hash_order : gmap NameLocation Operand -> list Operand) : Prop :=
  forall m, hash_order m ≡ₚ map snd (map_to_list m).

Lemma elem_of_newest_first hash_order table o :
  lists_all hash_order -> o ∈ newest_first (hash_order table) <-> exists l, table !! l = Some o.
Proof.
  intros Hh. unfold newest_first. rewrite elem_of_sort_by, (Hh table). rewrite list_elem_of_fmap. split.
  - intros ([l o'] & -> & Hin). exists l. by apply elem_of_map_to_list in Hin.
  - intros [l Hl]. exists (l, o). split; [done|]. by apply elem_of_map_to_list.
Qed.

(** The pass in one piece: unchanged, or the blocks of [unwind_blocks] over settled analyses. *)
Lemma materialize_inv hash_order slot_of s f s' f' table :
  lists_all hash_order -> unwind_ready slot_of s f table ->
  materialize_operand_unwinds hash_order s f = Some (s', f') ->
  (table = ∅ /\ f' = f) \/ exists live acquired ps,
    let operands := newest_first (hash_order table) in
    live_inputs (rf_blocks f) operands (dom table) = Some live
    /\ acquired_prefixes (rf_blocks f) (dom table) = Some acquired
    /\ Forall2 (fun b p => redirected (rf_blocks f) operands live acquired b p.1 p.2) (rf_blocks f) ps
    /\ rf_blocks f' = map fst ps ++ concat (map snd ps)
    /\ NoDup (labels (concat (map snd ps)))
    /\ forall c, c ∈ concat (map snd ps) -> blk_label c ∉ labels (rf_blocks f).
Proof.
  intros Hh [Ht Hnd _ (n & Hc & Hn & Hlt) _ _] H. unfold materialize_operand_unwinds in H. rewrite Ht in H.
  cbn [mbind option_bind] in H. case_bool_decide as He; [by left; simplify_eq|]. right.
  destruct (rf_storage_layout f) as [layout|]; [|done]. cbn [mbind option_bind] in H.
  destruct (mark_operands layout _) as [layout'|]; [|done]. cbn [mbind option_bind] in H.
  destruct (live_inputs _ _ _) as [live|] eqn:El; [|done]. cbn [mbind option_bind] in H.
  destruct (acquired_prefixes _ _) as [acquired|] eqn:Ea; [|done]. cbn [mbind option_bind] in H.
  destruct (unwind_blocks _ _ _ _ _ _ _) as [[[s1 bs] cs]|] eqn:Eu; [|done]. cbn in H. simplify_eq.
  destruct (unwind_blocks_spec _ _ _ _ _ Hnd _ _ _ _ _ _ Eu Hc Hn) as (ps & Hps & -> & -> & n' & _ & _ & Hnc & Hb).
  exists live, acquired, ps. split_and!; try done.
  intros c Hcin (b & E & Hbin)%list_elem_of_fmap. apply Hb in Hcin. apply Hlt in Hbin. rewrite E in Hcin. lia.
Qed.

(** The order in which the operands are listed does not matter. *)
Lemma newest_released {World Value : Type} `{!ResolvedRuntime World Value} slot_of blocks l
    (c d : Config (World := World) (Value := Value)) :
  release_step slot_of blocks (newest_first l) c d -> release_step slot_of blocks l c d.
Proof.
  assert (forall o, o ∈ newest_first l <-> o ∈ l) as Hin by (intros; apply elem_of_sort_by).
  intros []. econstructor; [by apply Hin| |done]. intros w1 σ1 σ2 c1 Ha Hrun.
  match goal with H : unread _ _ _ _ _ |- _ => destruct (H w1 σ1 σ2 c1 Ha Hrun) as (c2 & H2 & Hc) end.
  exists c2. split; [done|]. destruct Hc; constructor; (eapply agree_off_mono; [|done]);
    intros x; rewrite !elem_of_list_to_set, !list_elem_of_fmap; setoid_rewrite Hin; done.
Qed.

(** C8: Operand unwinding refines the function it is given: every execution of the function with
    cleanup blocks, from any block and any frame, is an execution of the given function to the
    very same result or exception, world and frame, in which the runtime also releases operands,
    each by a quiet delete with whatever effect it has on the world, and only an operand whose
    content makes no difference to the given function from that block on.  Relied on: a quiet
    delete of a frame slot does not raise. *)
Theorem operand_unwinds_refine {World Value : Type} `{!ResolvedRuntime World Value}
    `{!QuietRelease World Value} slot_of hash_order s f s' f' table :
  lists_all hash_order -> unwind_ready slot_of s f table ->
  materialize_operand_unwinds hash_order s f = Some (s', f') ->
  forall l (w w' : World) (σ σ' : gmap NameLocation Value) exit,
    l ∈ labels (rf_blocks f) ->
    runs slot_of (rf_blocks f') (Running l w σ) (Done exit w' σ') ->
    released_runs slot_of (rf_blocks f) (hash_order table) (Running l w σ) (Done exit w' σ').
Proof.
  intros Hh Hready Hm l w w' σ σ' exit Hl Hrun. pose proof Hready as [Ht Hnd Hcl _ Hst Hnm].
  destruct (materialize_inv _ _ _ _ _ _ _ Hh Hready Hm) as [[-> ->]|
    (live & acquired & ps & El & _ & Hps & Eb & Hnc & Hfc)].
  { eapply rtc_subrel; [|exact Hrun]. by left. }
  assert (released_runs slot_of (rf_blocks f) (newest_first (hash_order table)) (Running l w σ) (Done exit w' σ'))
    as Hrel; [|eapply rtc_subrel; [|exact Hrel]; intros c d [?|?]; [by left|right; by apply newest_released]].
  set (operands := newest_first (hash_order table)) in *.
  assert (forall o, o ∈ operands -> rn_location (operand_name o) ∈ dom table) as Hol.
  { intros o (k & Hk)%elem_of_newest_first; [|done]. destruct (collected_keys _ _ _ _ Ht Hk) as [-> _].
    by apply elem_of_dom_2 in Hk. }
  assert (forall x, x ∈ dom table -> exists o, o ∈ operands /\ rn_location (operand_name o) = x) as Hcov.
  { intros x [o Ho]%elem_of_dom. exists o. split; [apply elem_of_newest_first; [done|by exists x]|].
    by apply (collected_keys _ _ _ _ Ht Ho). }
  destruct (live_inputs_total (rf_blocks f) operands (dom table) Hol Hnd) as (live' & El' & _ & Hsol & _).
  rewrite El in El'. injection El' as <-.
  rewrite Eb in Hrun.
  assert (LiveReady slot_of (rf_blocks f) operands (dom table)) as LR.
  { split; [| |exact Hst].
    - intros x [o Ho]%elem_of_dom. by apply (collected_keys _ _ _ _ Ht Ho).
    - intros name x Hx Hd. pose proof (Hcov x Hd) as (o & Ho & Eo). exists o. split_and!; [done| |done].
      apply elem_of_newest_first in Ho as [k Hk]; [|done]. destruct (collected_keys _ _ _ _ Ht Hk) as [Ek _].
      eapply Hnm; [exact Hx|]. congruence. }
  destruct (runs_related slot_of (rf_blocks f) operands (dom table) live Hnd Hol Hcov Hsol acquired ps Hps (conj Hnc Hfc) Hcl
    _ _ (Running l w σ) Hrun) as (d0 & H1 & H2); [by apply Rel_Same|].
  by inversion H2; subst.
Qed.

(** ** An example: the second of two operands is released on the way to a handler that reads
    the first *)

Module DemoUnwind.
Definition name_a : ResolvedName := mkResolvedName "a" (NL_Local (mkLocalLocation 0)).
Definition name_b : ResolvedName := mkResolvedName "b" (NL_Local (mkLocalLocation 1)).
Definition name_g : ResolvedName := mkResolvedName "g" NL_GlobalName.
Definition text : InstrResolved := R_Literal (Lit_String "v").
Definition work : Block InstrResolved :=
  mkBlock (mkBlockLabel 0)
    [R_Node (Op_Store name_a (SL_Operand 0) SP_Binding) [text];
     R_Node (Op_Store name_b (SL_Operand 1) SP_Binding) [text];
     R_Node (Op_Load name_g None) []]
    (BT_Return text) [] (Some (mkBlockEdge (mkBlockLabel 1) [])) block_context_default.
Definition handler : Block InstrResolved :=
  mkBlock (mkBlockLabel 1) [] (BT_Return (R_Node (Op_Load name_a None) [])) [] None block_context_default.
Definition names : Store * FunctionNameGen := function_gen_recovered (mkStore ∅ ∅) (from_raw_parts 0 1) 2 0.
Definition layout : StorageLayout := mkStorageLayout None [] None [] [] [] ["a"; "b"] [].
Definition demo : ResolvedFunction := mkResolvedFunction (from_raw_parts 0 1) "demo" FK_Function names.2 (Some layout) [work; handler].
Definition table : gmap NameLocation Operand :=
  <[rn_location name_b := mkOperand name_b 1]> (<[rn_location name_a := mkOperand name_a 0]> ∅).
Definition hash_order (m : gmap NameLocation Operand) : list Operand := map snd (map_to_list m).
Definition slot_of (name : string) : option NameLocation :=
  if bool_decide (name = "a") then Some (rn_location name_a)
  else if bool_decide (name = "b") then Some (rn_location name_b) else None.
Definition result : Store * ResolvedFunction := default (names.1, demo) (materialize_operand_unwinds hash_order names.1 demo).

(** Loads of a global raise; everything else returns. *)
#[global] Instance runtime : ResolvedRuntime unit Z := {|
  literal_value := fun _ => 0;
  result_of := fun op _ reads _ _ v =>
    v = 1 /\ match op with
             | Op_Load name _ => rn_location name <> NL_GlobalName
             | Op_CallArgumentOp _ _ _ => reads !! 1%nat <> Some None
             | _ => True
             end;
  raises := fun op _ _ _ _ v =>
    v = 2 /\ match op with Op_Load name _ => rn_location name = NL_GlobalName | _ => False end;
  new_buffer := fun _ _ _ _ v => v = 3;
  truth := fun v b => b = bool_decide (v <> 0);
  branch_index := fun v n => n = Z.to_nat v;
  current_exception := fun _ => None;
  none_value := 0;
  kind_value := fun _ => 0
|}.
#[global] Instance quiet : QuietRelease unit Z.
Proof. split; [intros; by exists tt, 1|by intros ? ? ? ? ? ? ? [_ ?]]. Qed.

Lemma listed : lists_all hash_order.
Proof. by intros m. Qed.
Lemma unwind_demo_ready : unwind_ready slot_of names.1 demo table.
Proof.
  split.
  - vm_compute. reflexivity.
  - apply (bool_decide_unpack _). vm_compute. exact I.
  - intros b t Hb. cbn [rf_blocks demo] in *. apply elem_of_cons in Hb as [->|Hb%list_elem_of_singleton]; [|subst b]; cbn; set_solver.
  - exists 2. split_and!; [by vm_compute|lia|]. intros b Hb. cbn in Hb.
    apply elem_of_cons in Hb as [->|Hb%list_elem_of_singleton]; [|subst b]; cbn; lia.
  - intros b i Hb Hi.
    assert (forallb (fun b => forallb (statement_ok (dom table)) (resolved_block_instrs b)) (rf_blocks demo) = true) as H
      by (vm_compute; reflexivity).
    rewrite forallb_forall in H. specialize (H b ltac:(by apply list_elem_of_In)).
    rewrite forallb_forall in H. apply H. by apply list_elem_of_In.
  - intros name l o Hn Ho. unfold slot_of in Hn. unfold table in Ho.
    repeat case_bool_decide; simplify_eq; vm_compute in Ho; by simplify_eq.
Qed.
(** The pass: block 0 now leaves through block 2, which releases [b]. *)
Lemma unwound : materialize_operand_unwinds hash_order names.1 demo = Some result
  /\ rf_blocks result.2
     = [with_exc_target work (mkBlockEdge (mkBlockLabel 2) []); handler;
        mkBlock (mkBlockLabel 2) [R_Node (Op_Del name_b true) []]
          (BT_Jump (mkBlockEdge (mkBlockLabel 1) [])) [] None (mkBlockContext HE_Preserve None)].
Proof. by vm_compute. Qed.

Notation full := (<[rn_location name_b := 0]> (<[rn_location name_a := 0]> (∅ : gmap NameLocation Z))).
Notation freed := (delete (rn_location name_b) full).
Lemma raised : evs tt (∅ : gmap NameLocation Z) (blk_body work) tt full (Raising 2).
Proof.
  assert (forall σ : gmap NameLocation Z, evs tt σ [text] tt σ (Normal [0])) as Ht.
  { intros σ. eapply Evs_Cons; [exact (Ev_Literal tt σ (Lit_String "v"))|constructor]. }
  eapply (Evs_Tail _ _ _ _ tt _ 1).
  { eapply Ev_Node; [apply Ht|by split|]. apply (Eff_Store name_a). }
  eapply (Evs_Tail _ _ _ _ tt _ 1).
  { eapply Ev_Node; [apply Ht|by split|]. apply (Eff_Store name_b). }
  apply Evs_Head. eapply Ev_Raise; [constructor|by split|constructor].
Qed.
Lemma unwind_demo_run :
  runs slot_of (rf_blocks result.2) (Running (mkBlockLabel 0) tt ∅)
    (Done (FE_Returned 1) tt (freed : gmap NameLocation Z)).
Proof.
  rewrite (proj2 unwound). eapply rtc_l.
  { eapply (Step_Body _ _ _ (with_exc_target work (mkBlockEdge (mkBlockLabel 2) []))); [reflexivity|apply raised]. }
  eapply rtc_l.
  { eapply (Step_Term _ _ (mkBlockLabel 2) _ tt full tt freed [1]); [reflexivity| |apply TS_Jump].
    eapply Evs_Cons; [|constructor]. eapply Ev_Node; [constructor|by split|constructor]. }
  apply rtc_once. eapply (Step_Term _ _ _ _ _ _ tt freed []); [reflexivity|constructor|]. apply TS_Return.
  eapply Ev_Node; [constructor|by split|by constructor].
Qed.
End DemoUnwind.

(** The same function where a release is observed: it is written to a log. *)
Module DemoFinaliser.
Import DemoUnwind.
#[local] Instance logging : ResolvedRuntime (list string) Z := {|
  literal_value := fun _ => 0;
  result_of := fun op w _ _ w' v =>
    v = 1 /\ match op with
             | Op_Load name _ => rn_location name <> NL_GlobalName /\ w' = w
             | Op_Del name _ => w' = w ++ [rn_id name]
             | _ => w' = w
             end;
  raises := fun op w _ _ w' v =>
    v = 2 /\ w' = w /\ match op with Op_Load name _ => rn_location name = NL_GlobalName | _ => False end;
  new_buffer := fun _ _ _ _ v => v = 3;
  truth := fun v b => b = bool_decide (v <> 0);
  branch_index := fun v n => n = Z.to_nat v;
  current_exception := fun _ => None;
  none_value := 0;
  kind_value := fun _ => 0
|}.
#[local] Instance observed : QuietRelease (list string) Z.
Proof. split; [intros; by eexists _, 1|by intros ? ? ? ? ? ? ? (_ & _ & ?)]. Qed.

Lemma logged_run :
  runs slot_of (rf_blocks result.2) (Running (mkBlockLabel 0) [] ∅)
    (Done (FE_Returned 1) ["b"] (freed : gmap NameLocation Z)).
Proof.
  assert (forall σ : gmap NameLocation Z, evs [] σ [text] [] σ (Normal [0])) as Ht.
  { intros σ. eapply Evs_Cons; [exact (Ev_Literal [] σ (Lit_String "v"))|constructor]. }
  rewrite (proj2 unwound). eapply rtc_l.
  { eapply (Step_Body _ _ _ (with_exc_target work (mkBlockEdge (mkBlockLabel 2) [])) _ _ [] full 2); [reflexivity|].
    eapply (Evs_Tail _ _ _ _ [] _ 1); [eapply Ev_Node; [apply Ht|by split|apply (Eff_Store name_a)]|].
    eapply (Evs_Tail _ _ _ _ [] _ 1); [eapply Ev_Node; [apply Ht|by split|apply (Eff_Store name_b)]|].
    apply Evs_Head. eapply Ev_Raise; [constructor|by split_and!|constructor]. }
  eapply rtc_l.
  { eapply (Step_Term _ _ (mkBlockLabel 2) _ _ full ["b"] freed [1]); [reflexivity| |apply TS_Jump].
    eapply Evs_Cons; [|constructor]. eapply Ev_Node; [constructor|by split|constructor]. }
  apply rtc_once. eapply (Step_Term _ _ _ _ _ _ ["b"] freed []); [reflexivity|constructor|]. apply TS_Return.
  eapply Ev_Node; [constructor|by split_and!|by constructor].
Qed.
End DemoFinaliser.

Lemma operand_unwinds_refine_witness :
  @released_runs (list string) Z DemoFinaliser.logging DemoUnwind.slot_of (rf_blocks DemoUnwind.demo)
    (DemoUnwind.hash_order DemoUnwind.table) (Running (mkBlockLabel 0) [] ∅)
    (Done (FE_Returned 1) ["b"] (delete (rn_location DemoUnwind.name_b)
      (<[rn_location DemoUnwind.name_b := 0]> (<[rn_location DemoUnwind.name_a := 0]> ∅)))).
Proof.
  apply (@operand_unwinds_refine (list string) Z DemoFinaliser.logging DemoFinaliser.observed
    DemoUnwind.slot_of DemoUnwind.hash_order DemoUnwind.names.1 DemoUnwind.demo
    _ _ DemoUnwind.table DemoUnwind.listed DemoUnwind.unwind_demo_ready
    (eq_trans (proj1 DemoUnwind.unwound) (f_equal Some (surjective_pairing _)))).
  - by left.
  - exact DemoFinaliser.logged_run.
Defined.
