(* ===== verification/OperandRelease.v ===== *)
(** * Operands are released before a handler is entered

    The second half of the correctness of OperandCleanup.v: the forward analysis of acquired
    operands ends and covers every operand that a frame can hold when an exception leaves a
    block, so the cleanup blocks leave no operand behind that the handler cannot read. *)

From stdpp Require Import gmap.
From S2P Require Import Prelude Order Collections Ids IdsProps Cfg CfgProps Names Instr Layout.
From S2P Require Import Resolved ResolvedSem Flow OperandCleanup LiveAgree OperandCleanupProps.

Local Open Scope Z_scope.

(** ** The loop *)

Section acquired.
Context (blocks : list (Block InstrResolved)) (locations : LiveSet).
Notation Inputs := (gmap BlockLabel LiveSet).

Lemma extend_at_spec t s changed (inc : Inputs) :
  let (changed', inc') := extend_at t s (changed, inc) in
  below inc inc' /\ s ⊆ input_at inc' t
  /\ (forall l, input_at inc' l = if decide (l = t) then s ∪ input_at inc t else input_at inc l)
  /\ (changed = true -> changed' = true)
  /\ (changed' = false -> s ⊆ input_at inc t)
  /\ (changed = false -> changed' = true -> ~ s ⊆ input_at inc t).
Proof.
  cbn. fold (input_at inc t).
  assert (forall l, input_at (<[t := s ∪ input_at inc t]> inc) l
    = if decide (l = t) then s ∪ input_at inc t else input_at inc l) as Hl.
  { intros l. rewrite input_at_insert. destruct (decide (t = l)), (decide (l = t)); congruence. }
  split_and!.
  - intros l. rewrite Hl. destruct (decide (l = t)) as [->|]; set_solver.
  - rewrite Hl, decide_True by done. set_solver.
  - exact Hl.
  - by intros ->.
  - intros [_ Hs%negb_false_iff]%orb_false_iff. bool_inv.
    assert (input_at inc t = s ∪ input_at inc t) as E by (apply set_subseteq_size_eq; [set_solver|lia]).
    set_solver.
  - intros ->. cbn. intros Hs%negb_true_iff Hsub. bool_inv. apply Hs.
    by rewrite (subseteq_union_1_L _ _ Hsub).
Qed.

(** What one step of the flow keeps: it only grows, at the targets of edges, and reports it. *)
Record grows (U : LiveSet) (targets : list BlockLabel) (from to : bool * Inputs) : Prop := mkGrows {
  grows_below : below from.2 to.2;
  grows_kept : from.1 = true -> to.1 = true;
  grows_same : to.1 = false -> forall l, input_at to.2 l = input_at from.2 l;
  grows_some : from.1 = false -> to.1 = true -> exists t, t ∈ targets /\ ~ input_at to.2 t ⊆ input_at from.2 t;
  grows_bound : (forall l, input_at from.2 l ⊆ U) -> forall l, input_at to.2 l ⊆ U
}.
Lemma grows_refl U targets st : grows U targets st st.
Proof. split; try done; [by intros l|congruence]. Qed.
Lemma grows_trans U targets st1 st2 st3 :
  grows U targets st1 st2 -> grows U targets st2 st3 -> grows U targets st1 st3.
Proof.
  intros [B1 K1 S1 G1 U1] [B2 K2 S2 G2 U2]. split.
  - intros l. etrans; [apply B1|apply B2].
  - auto.
  - intros Hf l. rewrite S2 by done. apply S1. destruct st2 as [[] ?]; [|done]. cbn in *. rewrite K2 in Hf; done.
  - intros Hf Ht. destruct (st2.1) eqn:E2.
    + destruct (G1 Hf eq_refl) as (t & Hin & Hn). exists t. split; [done|]. intros Hsub. apply Hn.
      etrans; [apply B2|done].
    + destruct (G2 eq_refl Ht) as (t & Hin & Hn). exists t. split; [done|]. intros Hsub. apply Hn.
      etrans; [exact Hsub|apply B1].
  - auto.
Qed.

Lemma extend_at_grows U targets t s st :
  t ∈ targets -> s ⊆ U -> grows U targets st (extend_at t s st).
Proof.
  intros Ht Hs. destruct st as [changed inc]. pose proof (extend_at_spec t s changed inc) as H.
  destruct (extend_at t s (changed, inc)) as [changed' inc']. destruct H as (B & S & L & K & Sm & G). split; cbn.
  - done.
  - done.
  - intros Hf l. rewrite L. destruct (decide (l = t)) as [->|]; [|done]. specialize (Sm Hf). set_solver.
  - intros Hf Hc. exists t. split; [done|]. intros Hsub. by apply (G Hf Hc); etrans.
  - intros Hb l. rewrite L. destruct (decide (l = t)) as [->|]; [|done]. specialize (Hb t). set_solver.
Qed.

Lemma extend_all_spec U targets ts s st :
  ts ⊆ targets -> s ⊆ U ->
  let st' := fold_left (fun flow t => extend_at t s flow) ts st in
  grows U targets st st' /\ forall t, t ∈ ts -> s ⊆ input_at st'.2 t.
Proof.
  revert st. induction ts as [|t ts IH]; intros st Hts Hs; cbn.
  { split; [apply grows_refl|]. by intros t ?%not_elem_of_nil. }
  destruct (IH (extend_at t s st)) as [G A]; [set_solver|done|].
  assert (grows U targets st (extend_at t s st)) as G0 by (apply extend_at_grows; [set_solver|done]).
  split; [by eapply grows_trans|]. intros t' [->|Ht']%elem_of_cons; [|by apply A].
  destruct st as [changed inc]. pose proof (extend_at_spec t s changed inc) as H.
  destruct (extend_at t s (changed, inc)) as [changed' inc'] eqn:E. destruct H as (_ & S & _).
  etrans; [exact S|apply G].
Qed.

Lemma acquire_bounded i st :
  st.1 ⊆ locations -> st.2 ⊆ locations ->
  (acquire locations i st).1 ⊆ locations /\ (acquire locations i st).2 ⊆ locations.
Proof.
  revert st. induction i as [|op children IH] using InstrResolved_tree_ind; intros st H1 H2; [done|].
  cbn [acquire].
  assert (forall st, st.1 ⊆ locations -> st.2 ⊆ locations ->
    (fold_left (fun st c => acquire locations c st) children st).1 ⊆ locations
    /\ (fold_left (fun st c => acquire locations c st) children st).2 ⊆ locations) as HF.
  { clear -IH. induction IH as [|c cs Hc _ IH]; intros st H1 H2; [done|]. cbn. apply IH; by apply Hc. }
  destruct (HF st H1 H2) as [H3 H4].
  destruct (fold_left _ children st) as [active prefixes]. cbn in H3, H4.
  assert (forall l : NameLocation, active ∖ {[l]} ⊆ locations) as Hd by (intros l x [Hx _]%elem_of_difference; auto).
  destruct op; try exact (conj H3 H4); try exact (conj (Hd _) H4).
  - case_bool_decide; [cbn; split; apply union_subseteq; split; set_solver|exact (conj H3 H4)].
  - split; [|exact H4]. apply union_subseteq. split; [|exact H3]. intros x Hx.
    apply elem_of_list_to_set, list_elem_of_In, List.filter_In in Hx as [_ Hx]. by bool_inv.
Qed.
Lemma acquire_list_bounded l st :
  st.1 ⊆ locations -> st.2 ⊆ locations ->
  (fold_left (fun st i => acquire locations i st) l st).1 ⊆ locations
  /\ (fold_left (fun st i => acquire locations i st) l st).2 ⊆ locations.
Proof.
  revert st. induction l as [|i l IH]; intros st H1 H2; [done|]. cbn.
  destruct (acquire_bounded i st H1 H2). by apply IH.
Qed.

(** The flow equations of one block. *)
Definition flows (inc : Inputs) (b : Block InstrResolved) : Prop :=
  let st := acquire_block locations (input_at inc (blk_label b)) b in
  (forall t, t ∈ normal_targets b -> st.1 ⊆ input_at inc t)
  /\ forall edge, blk_exc_edge b = Some edge -> st.2 ⊆ input_at inc (be_target edge).
Definition all_targets : list BlockLabel := concat (map edge_targets blocks).

Lemma elem_of_all_targets b t : b ∈ blocks -> t ∈ edge_targets b -> t ∈ all_targets.
Proof.
  intros Hb Ht. apply list_elem_of_In, in_concat. exists (edge_targets b).
  split; [by apply in_map, list_elem_of_In|by apply list_elem_of_In].
Qed.

Lemma acquire_step_spec flow failures b :
  b ∈ blocks -> (forall l, input_at flow.2 l ⊆ locations) ->
  let st := acquire_block locations (input_at flow.2 (blk_label b)) b in
  let '(flow', failures') := acquire_step locations (flow, failures) b in
  grows locations all_targets flow flow' /\ failures' = <[blk_label b := st.2]> failures
  /\ (forall t, t ∈ normal_targets b -> st.1 ⊆ input_at flow'.2 t)
  /\ forall edge, blk_exc_edge b = Some edge -> st.2 ⊆ input_at flow'.2 (be_target edge).
Proof.
  intros Hb Hbound. cbn zeta. unfold acquire_step. fold (input_at flow.2 (blk_label b)).
  pose proof (acquire_list_bounded (resolved_block_instrs b)
    (input_at flow.2 (blk_label b), input_at flow.2 (blk_label b)) (Hbound _) (Hbound _)) as [Ba Bp].
  fold (acquire_block locations (input_at flow.2 (blk_label b)) b) in Ba, Bp.
  destruct (acquire_block locations (input_at flow.2 (blk_label b)) b) as [active prefixes]. cbn in Ba, Bp |- *.
  assert (forall t, t ∈ edge_targets b -> t ∈ all_targets) as Hin by (intros; by eapply elem_of_all_targets).
  unfold edge_targets in Hin.
  destruct (extend_all_spec locations all_targets (normal_targets b) active flow) as [G1 A1]; [set_solver|done|].
  set (flow1 := fold_left (fun flow t => extend_at t active flow) (normal_targets b) flow) in *.
  destruct (blk_exc_edge b) as [edge|]; [|by split_and!].
  destruct (extend_all_spec locations all_targets [be_target edge] prefixes flow1) as [G2 A2]; [set_solver|done|].
  cbn in G2, A2. split_and!; [by eapply grows_trans|done| |].
  - intros t Ht. etrans; [by apply A1|apply G2].
  - intros e [= <-]. apply A2. by left.
Qed.

Lemma acquire_round_spec l flow failures :
  l ⊆ blocks -> NoDup (labels l) -> (forall x, input_at flow.2 x ⊆ locations) ->
  let '(flow', failures') := fold_left (acquire_step locations) l (flow, failures) in
  grows locations all_targets flow flow'
  /\ (forall x, x ∉ labels l -> failures' !! x = failures !! x)
  /\ (flow'.1 = false -> forall b, b ∈ l -> flows flow.2 b
      /\ failures' !! blk_label b = Some (acquire_block locations (input_at flow.2 (blk_label b)) b).2).
Proof.
  revert flow failures. induction l as [|b l IH]; intros flow failures Hl Hnd Hbound; cbn [fold_left].
  { split_and!; [apply grows_refl|done|]. by intros _ b ?%not_elem_of_nil. }
  apply NoDup_cons in Hnd as [Hb Hnd].
  pose proof (acquire_step_spec flow failures b ltac:(apply Hl; by left) Hbound) as Hs. cbn zeta in Hs.
  destruct (acquire_step locations (flow, failures) b) as [flow1 failures1]. destruct Hs as (G1 & E1 & A1 & P1).
  specialize (IH flow1 failures1 ltac:(intros x Hx; apply Hl; by right) Hnd (grows_bound _ _ _ _ G1 Hbound)).
  destruct (fold_left (acquire_step locations) l (flow1, failures1)) as [flow' failures'].
  destruct IH as (G2 & E2 & F2). split_and!; [by eapply grows_trans| |].
  - intros x [Hx1 Hx2]%not_elem_of_cons. rewrite E2 by done. rewrite E1. by rewrite lookup_insert_ne.
  - intros Hf. assert (flow1.1 = false) as Hf1.
    { destruct (flow1.1) eqn:E; [|done]. rewrite (grows_kept _ _ _ _ G2 E) in Hf. done. }
    pose proof (grows_same _ _ _ _ G1 Hf1) as Hsame. intros b' [->|Hb']%elem_of_cons.
    + split.
      * split; [intros t Ht; rewrite <- (Hsame t); by apply A1|intros e He; rewrite <- (Hsame (be_target e)); by apply P1].
      * rewrite E2 by done. rewrite E1. apply lookup_insert_eq.
    + destruct (F2 Hf b' Hb') as [[Fa Fp] Ff]. rewrite Hsame in Ff, Fa, Fp. split; [|done].
      split; cbn zeta; [intros t Ht; rewrite <- (Hsame t); by apply Fa|intros e He; rewrite <- (Hsame (be_target e)); by apply Fp].
Qed.

Definition flow_weight (inc : Inputs) : nat := sum_list (map (fun t => size (input_at inc t)) all_targets).

Lemma flow_weight_bound inc :
  (forall l, input_at inc l ⊆ locations) -> (flow_weight inc <= length all_targets * size locations)%nat.
Proof.
  intros Hb. unfold flow_weight. induction all_targets as [|t ts IH]; cbn; [lia|].
  specialize (Hb t). apply subseteq_size in Hb. lia.
Qed.

Lemma acquire_loop_spec fuel inc failures :
  NoDup (labels blocks) -> (forall l, input_at inc l ⊆ locations) ->
  (length all_targets * size locations < flow_weight inc + fuel)%nat ->
  exists inc' failures', acquire_loop blocks locations fuel inc failures = Some failures' /\ below inc inc'
    /\ forall b, b ∈ blocks -> flows inc' b
      /\ failures' !! blk_label b = Some (acquire_block locations (input_at inc' (blk_label b)) b).2.
Proof.
  intros Hnd. revert inc failures. induction fuel as [|fuel IH]; intros inc failures Hb Hf.
  { apply flow_weight_bound in Hb. lia. }
  cbn [acquire_loop].
  pose proof (acquire_round_spec blocks (false, inc) failures ltac:(done) Hnd Hb) as Hr.
  destruct (fold_left (acquire_step locations) blocks (false, inc, failures)) as [flow failures1].
  destruct Hr as (G & _ & F). destruct (flow.1) eqn:Ec.
  - destruct (grows_some _ _ _ _ G eq_refl Ec) as (t & Ht & Hn).
    destruct (IH flow.2 failures1) as (inc' & failures' & E & B & H); [by apply G| |].
    + enough (flow_weight inc < flow_weight flow.2)%nat by lia. unfold flow_weight.
      eapply sum_list_lt; [|exact Ht|].
      * intros x. apply subseteq_size, G.
      * apply subset_size. apply strict_spec_alt. pose proof (grows_below _ _ _ _ G t) as B. cbn in B.
        split; [done|]. intros E. apply Hn. cbn. by rewrite E.
    + exists inc', failures'. split_and!; [done| |done]. intros l. etrans; [apply G|apply B].
  - exists inc, failures1. split_and!; [done|by intros l|]. by apply F.
Qed.

Lemma acquired_prefixes_total :
  NoDup (labels blocks) ->
  exists inc acquired, acquired_prefixes blocks locations = Some acquired /\ below (entry_incoming blocks locations) inc
    /\ forall b, b ∈ blocks -> flows inc b
      /\ acquired !! blk_label b = Some (acquire_block locations (input_at inc (blk_label b)) b).2.
Proof.
  intros Hnd. unfold acquired_prefixes.
  destruct (acquire_loop_spec (acquire_fuel blocks locations) (entry_incoming blocks locations) ∅ Hnd)
    as (inc & acquired & E & B & H).
  - intros l. unfold entry_incoming, input_at. destruct blocks as [|b bs]; [by rewrite lookup_empty|].
    destruct (decide (blk_label b = l)) as [<-|];
      [rewrite lookup_singleton_eq; cbn; set_solver|by rewrite lookup_singleton_ne].
  - unfold acquire_fuel. fold all_targets. lia.
  - exists inc, acquired. by split_and!.
Qed.
End acquired.

(** ** Executions hold only acquired operands *)

(** Taking over or borrowing an argument buffer needs one. *)
Class BufferPresent (World Value : Type) `{!ResolvedRuntime World Value} : Prop := {
  buffer_present kind callable buffer w rs vs w' v :
    replaces_buffer kind = true ->
    result_of (Op_CallArgumentOp kind callable buffer) w rs vs w' v -> rs !! 1%nat <> Some None
}.

Section holding.
Context {World Value : Type} `{!ResolvedRuntime World Value} `{!BufferPresent World Value}.
Context (locations : LiveSet).
Notation Slots := (gmap NameLocation Value).

Definition holds (A : LiveSet) (σ : Slots) : Prop :=
  forall x, x ∈ locations -> is_Some (σ !! x) -> x ∈ A.

Lemma holds_mono A B σ : A ⊆ B -> holds A σ -> holds B σ.
Proof. intros Hs H x Hx Hv. by apply Hs, H. Qed.
Lemma holds_delete A l σ : holds A σ -> holds A (delete l σ) /\ holds (A ∖ {[l]}) (delete l σ).
Proof.
  intros H. assert (forall x, is_Some (delete l σ !! x) -> x <> l /\ is_Some (σ !! x)) as Hd.
  { intros x [v [Hne Hv]%lookup_delete_Some]. split; [congruence|by exists v]. }
  split; intros x Hx [Hne Hv]%Hd; [by apply H|]. apply elem_of_difference. split; [by apply H|set_solver].
Qed.
Lemma holds_set A l v σ : holds A σ -> (l ∈ locations -> l ∈ A) -> holds A (set_slot l v σ).
Proof.
  intros H Hl. unfold set_slot. destruct (is_slot l); [|done]. intros x Hx Hv.
  destruct (decide (x = l)) as [->|]; [by apply Hl|]. rewrite lookup_insert_ne in Hv by done. by apply H.
Qed.

Lemma acquire_prefixes_grow i st : st.2 ⊆ (acquire locations i st).2.
Proof.
  revert st. induction i as [|op children IH] using InstrResolved_tree_ind; intros st; [done|]. cbn [acquire].
  assert (forall st : LiveSet * LiveSet, st.2 ⊆ (fold_left (fun st c => acquire locations c st) children st).2) as HF.
  { clear -IH. induction IH as [|c cs Hc _ IH]; intros st; [done|]. cbn. etrans; [apply Hc|apply IH]. }
  specialize (HF st). destruct (fold_left _ children st) as [active prefixes]. cbn in HF.
  destruct op; try exact HF. case_bool_decide; [cbn; set_solver|exact HF].
Qed.
Lemma acquire_list_grow l st : st.2 ⊆ (fold_left (fun st i => acquire locations i st) l st).2.
Proof.
  revert st. induction l as [|i l IH]; intros st; [done|]. cbn. etrans; [apply acquire_prefixes_grow|apply IH].
Qed.

(** What is held during and after an instruction is what [acquire] says. *)
Definition held {A} (st : LiveSet * LiveSet) (o : Outcome (Value := Value) A) (σ : Slots) : Prop :=
  holds st.2 σ /\ (is_normal o = true -> holds st.1 σ).
Definition acquires (i : InstrResolved) : Prop :=
  forall st w σ w' σ' o, ev w σ i w' σ' o -> holds st.1 σ -> holds st.2 σ -> held (acquire locations i st) o σ'.

Lemma evs_acquires l st w σ w' σ' o :
  Forall acquires l -> evs w σ l w' σ' o -> holds st.1 σ -> holds st.2 σ ->
  held (fold_left (fun st i => acquire locations i st) l st) o σ'.
Proof.
  intros Hl. revert st w σ o. induction Hl as [|i l Hi _ IH]; intros st w σ o He H1 H2.
  { inversion He; subst. by split. }
  cbn. inversion He as [|? ? ? ? w1 σ1 v ? ? vs E1 E2|? ? ? ? ? ? e E1|? ? ? ? w1 σ1 v ? ? e E1 E2]; subst;
    destruct (Hi _ _ _ _ _ _ E1 H1 H2) as [P1 A1].
  - exact (IH _ _ _ _ E2 (A1 eq_refl) P1).
  - split; [|done]. eapply holds_mono; [apply acquire_list_grow|exact P1].
  - exact (IH _ _ _ _ E2 (A1 eq_refl) P1).
Qed.

Lemma effect_acquires op children w σ vs w' v σ' active prefixes :
  result_of op w (map (σ !!.) (slots_read op)) vs w' v -> effect op w σ vs σ' ->
  holds active σ -> holds prefixes σ ->
  fold_left (fun st i => acquire locations i st) children (active, prefixes) = (active, prefixes) ->
  held (acquire locations (R_Node op children) (active, prefixes)) (Normal v) σ'.
Proof.
  intros Hr He Ha Hp Hf. cbn [acquire]. rewrite Hf.
  inversion He as [name lifetime purpose ? ? v0|name quietly|name|kind callable buffer ? ? ? v0 Hk|? ? ? ? Hn]; subst.
  - unfold held. case_bool_decide as Hl; cbn; split; [|intros _| |intros _]; apply holds_set; try done.
    + eapply holds_mono; [|exact Hp]. set_solver.
    + set_solver.
    + eapply holds_mono; [|exact Ha]. set_solver.
    + set_solver.
  - split; [|intros _]; by apply holds_delete.
  - split; [|intros _]; by apply holds_delete.
  - assert (is_Some (σ !! rn_location buffer)) as Hb.
    { apply (buffer_present _ _ _ _ _ _ _ _ Hk) in Hr. cbn in Hr. destruct (σ !! rn_location buffer); [done|congruence]. }
    split; [|intros _]; cbn; apply holds_set.
    + done.
    + intros Hl. by apply Hp.
    + eapply holds_mono; [|exact Ha]. set_solver.
    + intros Hl. apply elem_of_union_r. by apply Ha.
  - assert (held (active, prefixes) (Normal v) σ') as H by (by split).
    destruct op; try exact H; try done.
    cbn in Hn. apply negb_true_iff in Hn. unfold written_names. rewrite Hn. cbn.
    by rewrite union_empty_l_L.
Qed.

Lemma ev_acquires i : acquires i.
Proof.
  induction i as [value|op children IH] using InstrResolved_tree_ind; intros st w σ w' σ' o He H1 H2.
  { inversion He; subst. by split. }
  assert (acquire locations (R_Node op children) st
    = acquire locations (R_Node op []) (fold_left (fun st i => acquire locations i st) children st)) as ->.
  { cbn. by destruct (fold_left _ children st). }
  inversion He as [|? ? ? ? w1 σ1 vs ? ? v Hc Hr Hf|? ? ? ? w1 σ1 vs ? ? e Hc Hr Hf|? ? ? ? ? ? e Hc]; subst;
    destruct (evs_acquires _ st _ _ _ _ _ IH Hc H1 H2) as [P1 A1];
    destruct (fold_left _ children st) as [active prefixes]; cbn in P1, A1.
  - by eapply effect_acquires; [exact Hr|exact Hf|apply A1| |].
  - split; [|done]. eapply holds_mono; [apply acquire_prefixes_grow|]. cbn.
    inversion Hf; subst; [done|by apply holds_delete].
  - split; [|done]. eapply holds_mono; [apply acquire_prefixes_grow|done].
Qed.
Lemma evs_held l st w σ w' σ' o :
  evs w σ l w' σ' o -> holds st.1 σ -> holds st.2 σ ->
  held (fold_left (fun st i => acquire locations i st) l st) o σ'.
Proof. apply evs_acquires. apply Forall_forall. intros i _. apply ev_acquires. Qed.
End holding.

(** ** Cleanup blocks *)

Definition delete_of (operand : Operand) : InstrResolved := R_Node (Op_Del (operand_name operand) true) [].
Definition clear_operands {Value} (l : list Operand) (σ : gmap NameLocation Value) : gmap NameLocation Value :=
  fold_left (fun σ operand => delete (rn_location (operand_name operand)) σ) l σ.

Lemma clear_operands_some {Value} l (σ : gmap NameLocation Value) x :
  is_Some (clear_operands l σ !! x) ->
  is_Some (σ !! x) /\ forall o, o ∈ l -> rn_location (operand_name o) <> x.
Proof.
  revert σ. induction l as [|o l IH]; intros σ H; cbn in *.
  { split; [done|]. by intros o ?%not_elem_of_nil. }
  destruct (IH _ H) as [[v [Hne Hv]%lookup_delete_Some] Hl]. split; [by exists v|].
  intros o' [->|Ho']%elem_of_cons; [done|by apply Hl].
Qed.

Section deletes.
Context {World Value : Type} `{!ResolvedRuntime World Value} `{!QuietRelease World Value}.
Implicit Types (w : World) (σ : gmap NameLocation Value).

Notation slot_operand o := (is_slot (rn_location (operand_name o)) = true).

Lemma delete_runs o w σ :
  slot_operand o -> exists w' v, ev w σ (delete_of o) w' (delete (rn_location (operand_name o)) σ) (Normal v).
Proof.
  intros Hs. destruct (release_returns (operand_name o) w Hs) as (w' & v & Hr). exists w', v.
  eapply Ev_Node; [constructor|exact Hr|constructor].
Qed.
Lemma delete_only o w σ w' σ' r :
  slot_operand o -> ev w σ (delete_of o) w' σ' r ->
  σ' = delete (rn_location (operand_name o)) σ /\ is_normal r = true.
Proof.
  intros Hs H. inversion H; subst; match goal with H : evs _ _ [] _ _ _ |- _ => inversion H; subst end.
  - match goal with H : effect _ _ _ _ _ |- _ => by inversion H; subst end.
  - exfalso. by eapply release_total.
Qed.

Lemma deletes_run l w σ :
  (forall o, o ∈ l -> slot_operand o) ->
  exists w' vs, evs w σ (map delete_of l) w' (clear_operands l σ) (Normal vs).
Proof.
  revert w σ. induction l as [|o l IH]; intros w σ Hl; cbn; [exists w, []; constructor|].
  destruct (delete_runs o w σ) as (w1 & v & Hv); [apply Hl; by left|].
  destruct (IH w1 (delete (rn_location (operand_name o)) σ)) as (w2 & vs & Hvs); [intros; apply Hl; by right|].
  exists w2, (v :: vs). by econstructor.
Qed.
Lemma deletes_only l w σ w' σ' r :
  (forall o, o ∈ l -> slot_operand o) ->
  evs w σ (map delete_of l) w' σ' r -> σ' = clear_operands l σ /\ is_normal r = true.
Proof.
  revert w σ r. induction l as [|o l IH]; intros w σ r Hl H; cbn in H; inversion H; subst; [done| | |];
    match goal with H : ev _ _ _ _ _ _ |- _ => apply delete_only in H as (-> & Hn); [|apply Hl; by left] end; [|done|];
    match goal with H : evs _ _ _ _ _ _ |- _ =>
      destruct (IH _ _ _ ltac:(intros; apply Hl; by right) H) as (-> & ?) end; done.
Qed.
End deletes.

(** ** Handlers *)

(** Control comes to block [t] with the frame [τ]: it is there, or there is a next step and every
    next step goes there. *)
Definition enters {World Value : Type} `{!ResolvedRuntime World Value} slot_of blocks
    (c : Config (World := World) (Value := Value)) (t : BlockLabel) (τ : gmap NameLocation Value) : Prop :=
  (exists w, c = Running t w τ)
  \/ ((exists d, block_step slot_of blocks c d)
      /\ forall d, block_step slot_of blocks c d -> exists w, d = Running t w τ).
(** The body or the terminator of a block raises. *)
Definition block_raises {World Value : Type} `{!ResolvedRuntime World Value} (b : Block InstrResolved)
    (w : World) (σ : gmap NameLocation Value) w' σ' e : Prop :=
  evs w σ (blk_body b) w' σ' (Raising e)
  \/ exists w1 σ1 vs, evs w σ (blk_body b) w1 σ1 (Normal vs) /\ term_raise (blk_term b) w1 σ1 w' σ' e.
(** A block parameter in the slot of an operand is passed that operand. *)
Definition self_passed (slot_of : string -> option NameLocation) (blocks : list (Block InstrResolved))
    (locations : LiveSet) : Prop :=
  forall b edge pair l, b ∈ blocks -> blk_term b = BT_Jump edge \/ blk_exc_edge b = Some edge ->
    pair ∈ edge_pairs (params_at blocks (be_target edge)) (be_args edge) ->
    slot_of (bp_name pair.1) = Some l -> l ∈ locations -> pair.2 = BA_Name (bp_name pair.1).

Section release.
Context {World Value : Type} `{!ResolvedRuntime World Value}.
Context `{!QuietRelease World Value} `{!BufferPresent World Value}.
Context (slot_of : string -> option NameLocation).
Context (blocks : list (Block InstrResolved)) (operands : list Operand) (locations : LiveSet).
Context (live acquired incoming : gmap BlockLabel LiveSet).
Context (ps : list (Block InstrResolved * list (Block InstrResolved))).
Notation Slots := (gmap NameLocation Value).
Notation cleanups := (concat (map snd ps)).
Notation after := (map fst ps ++ cleanups).
Notation redirected := (redirected blocks operands live acquired).
Notation entry_state b := (acquire_block locations (input_at incoming (blk_label b)) b).

Hypothesis distinct : NoDup (labels blocks).
Hypothesis covered : forall l, l ∈ locations -> exists o, o ∈ operands /\ rn_location (operand_name o) = l.
Hypothesis operand_slots : forall o, o ∈ operands -> is_slot (rn_location (operand_name o)) = true.
Hypothesis closed : forall b t, b ∈ blocks -> t ∈ edge_targets b -> t ∈ labels blocks.
Hypothesis outcome : Forall2 (fun b p => redirected b p.1 p.2) blocks ps.
Hypothesis fresh_cleanups : NoDup (labels cleanups) /\ forall c, c ∈ cleanups -> blk_label c ∉ labels blocks.
Hypothesis flowing : forall b, b ∈ blocks ->
  flows locations incoming b /\ acquired !! blk_label b = Some (entry_state b).2.
Hypothesis passed : self_passed slot_of blocks locations.

Lemma bind_holds A cur params args (σ : Slots) :
  (forall pair l, pair ∈ edge_pairs params args -> slot_of (bp_name pair.1) = Some l -> l ∈ locations ->
     pair.2 = BA_Name (bp_name pair.1)) ->
  holds locations A σ -> holds locations A (bind_params slot_of cur params args σ).
Proof.
  intros Hp H. unfold bind_params. revert Hp. generalize (edge_pairs params args) as pairs. intros pairs Hp.
  assert (holds locations A σ) as Hacc by done. revert Hacc. generalize σ at 1 3 as τ.
  induction pairs as [|pair pairs IH]; intros τ Hacc; [done|]. cbn. apply IH; [set_solver|].
  unfold bind_pair. destruct (slot_of (bp_name pair.1)) as [l|] eqn:El; [|done]. intros x Hx Hv.
  destruct (decide (x = l)) as [->|].
  - rewrite lookup_partial_alter_eq, (Hp pair l) in Hv by (done || by left). cbn in Hv. rewrite El in Hv. by apply H.
  - rewrite lookup_partial_alter_ne in Hv by done. by apply Hacc.
Qed.

Inductive frame_ok : Config (World := World) (Value := Value) -> Prop :=
| FO_Block l w σ :
    l ∈ labels blocks -> holds locations (input_at incoming l) σ -> frame_ok (Running l w σ)
| FO_Cleanup b edge target c w σ :
    b ∈ blocks -> blk_exc_edge b = Some edge -> find_block (be_target edge) blocks = Some target ->
    find_block c after = Some (cleanup_block c
      (cleanup_body operands (entry_state b).2 (operand_edge_live edge live operands)) edge (blk_params target)) ->
    holds locations (entry_state b).2 σ -> frame_ok (Running c w σ)
| FO_Done exit w σ : frame_ok (Done exit w σ).

(** Where an exception goes first. *)
Lemma throw_cases b b' cs e w (σ : Slots) edge :
  b ∈ blocks -> redirected b b' cs -> cs ⊆ after -> blk_exc_edge b = Some edge ->
  holds locations (entry_state b).2 σ ->
  exists target τ, find_block (be_target edge) blocks = Some target /\ holds locations (entry_state b).2 τ
    /\ ((throw slot_of after b' e w σ = Running (be_target edge) w τ
         /\ cleanup_body operands (entry_state b).2 (operand_edge_live edge live operands) = [])
        \/ exists c, throw slot_of after b' e w σ = Running c w τ
           /\ find_block c after = Some (cleanup_block c
             (cleanup_body operands (entry_state b).2 (operand_edge_live edge live operands)) edge (blk_params target))).
Proof.
  intros Hb R Hcs He Hh. pose proof (flowing b Hb) as [_ Hacq].
  assert (be_target edge ∈ labels blocks) as Hin.
  { apply (closed b); [done|]. unfold edge_targets. rewrite He. set_solver. }
  destruct (find_block (be_target edge) blocks) as [target|] eqn:Ht; [|by apply find_block_none in Ht].
  exists target, (bind_params slot_of (Some e) (blk_params target) (be_args edge) σ).
  assert (params_at blocks (be_target edge) = blk_params target) as Hparams by (unfold params_at; by rewrite Ht).
  split; [done|]. split.
  { apply bind_holds; [|done]. rewrite <- Hparams. intros pair l. apply (passed b); [done|by right]. }
  unfold throw. inversion R as [Hsame|edge' label target' He' Ht']; subst.
  - left. rewrite He. split; [|rewrite <- (Hsame edge He Hin); by rewrite Hacq]. unfold follow.
    by erewrite after_params, Hparams.
  - right. rewrite He in He'. injection He' as <-. rewrite Ht in Ht'. injection Ht' as <-. exists label.
    rewrite Hacq in Hcs. cbn [default] in Hcs.
    assert (find_block label after = Some (cleanup_block label
      (cleanup_body operands (entry_state b).2 (operand_edge_live edge live operands)) edge (blk_params target))) as Hc.
    { apply (find_block_elem after (cleanup_block label _ edge (blk_params target))); [by eapply after_distinct|].
      apply Hcs. by left. }
    split; [|done]. cbn. unfold follow, params_at. cbn. by rewrite Hc.
Qed.

Lemma throw_ok b b' cs e w (σ : Slots) :
  b ∈ blocks -> redirected b b' cs -> cs ⊆ after -> holds locations (entry_state b).2 σ ->
  frame_ok (throw slot_of after b' e w σ).
Proof.
  intros Hb R Hcs Hh. destruct (blk_exc_edge b) as [edge|] eqn:He.
  - destruct (throw_cases b b' cs e w σ edge) as (target & τ & Ht & Hτ & [[-> _]|(c & -> & Hc)]); try done.
    + apply FO_Block; [apply (closed b); [done|]; unfold edge_targets; rewrite He; set_solver|].
      eapply holds_mono; [|exact Hτ]. destruct (flowing b Hb) as [[_ Hf] _]. by apply Hf.
    + by eapply FO_Cleanup.
  - unfold throw. inversion R; subst; [rewrite He; constructor|congruence].
Qed.

(** The one step of a cleanup block. *)
Lemma cleanup_step c edge target available w (σ : Slots) :
  find_block (be_target edge) blocks = Some target ->
  find_block c after = Some (cleanup_block c
    (cleanup_body operands available (operand_edge_live edge live operands)) edge (blk_params target)) ->
  holds locations available σ ->
  exists τ, (exists d, block_step slot_of after (Running c w σ) d)
    /\ (forall d, block_step slot_of after (Running c w σ) d -> exists w', d = Running (be_target edge) w' τ)
    /\ holds locations (available ∩ operand_edge_live edge live operands) τ.
Proof.
  intros Ht Hc Hh. unfold cleanup_body in Hc.
  set (l := List.filter _ operands) in Hc. change (map _ l) with (map delete_of l) in Hc.
  assert (forall o, o ∈ l -> is_slot (rn_location (operand_name o)) = true) as Hslots.
  { intros o Ho. apply list_elem_of_In, List.filter_In in Ho as [Ho _]. by apply operand_slots, list_elem_of_In. }
  exists (clear_operands l σ).
  assert (be_target edge ∈ labels blocks) as Hin.
  { destruct (decide (be_target edge ∈ labels blocks)) as [|Hn]; [done|]. apply find_block_none in Hn. congruence. }
  assert (forall cur w', follow slot_of after cur
    (mkBlockEdge (be_target edge) (map (fun p => BA_Name (bp_name p)) (blk_params target))) w' (clear_operands l σ)
    = Running (be_target edge) w' (clear_operands l σ)) as Hfollow.
  { intros cur w'. unfold follow. cbn. erewrite after_params by done. unfold params_at. by rewrite Ht, bind_self. }
  split_and!.
  - destruct (deletes_run l w σ Hslots) as (w' & vs & Hvs).
    eexists. eapply Step_Term; [exact Hc|exact Hvs|]. cbn. constructor.
  - intros d Hd. inversion Hd as [? b' ? ? w1 σ3 vs ? Hb' Hbody Hterm|? b' ? ? w1 σ3 e Hb' Hbody
      |? b' ? ? w1 σ3 vs w2 σ4 e Hb' Hbody Hterm]; subst; rewrite Hc in Hb'; injection Hb' as <-;
      cbn in Hbody; apply deletes_only in Hbody as (-> & Hn); try exact Hslots.
    + cbn in Hterm. inversion Hterm; subst. rewrite Hfollow. by eexists.
    + done.
    + cbn in Hterm. inversion Hterm; set_solver.
  - intros x Hx [Hv Hl]%clear_operands_some. pose proof (Hh x Hx Hv) as Ha.
    destruct (covered x Hx) as (o & Ho & Eo). apply elem_of_intersection. split; [done|].
    destruct (decide (x ∈ operand_edge_live edge live operands)) as [|Hn]; [done|]. exfalso. apply (Hl o); [|done].
    apply list_elem_of_In, List.filter_In. split; [by apply list_elem_of_In|].
    rewrite Eo, bool_decide_true, bool_decide_false by done. done.
Qed.

(** What the body and the terminator leave behind. *)
Lemma block_held b w (σ : Slots) w1 σ1 vs :
  holds locations (input_at incoming (blk_label b)) σ -> evs w σ (blk_body b) w1 σ1 (Normal vs) ->
  exists st, holds locations st.1 σ1 /\ holds locations st.2 σ1
    /\ fold_left (fun st i => acquire locations i st) (resolved_term_instrs (blk_term b)) st = entry_state b.
Proof.
  intros Hh He. set (A := input_at incoming (blk_label b)) in *.
  destruct (evs_held locations _ (A, A) _ _ _ _ _ He Hh Hh) as [H2 H1].
  eexists. split_and!; [by apply H1|exact H2|]. unfold acquire_block, resolved_block_instrs. by rewrite fold_left_app.
Qed.
Lemma raises_held b w (σ : Slots) w' σ' e :
  holds locations (input_at incoming (blk_label b)) σ -> block_raises b w σ w' σ' e ->
  holds locations (entry_state b).2 σ'.
Proof.
  intros Hh [He|(w1 & σ1 & vs & He & Ht)].
  - set (A := input_at incoming (blk_label b)) in *.
    destruct (evs_held locations _ (A, A) _ _ _ _ _ He Hh Hh) as [H2 _].
    eapply holds_mono; [|exact H2]. unfold acquire_block, resolved_block_instrs. rewrite fold_left_app.
    apply acquire_list_grow.
  - destruct (block_held _ _ _ _ _ _ Hh He) as (st & H1 & H2 & <-).
    inversion Ht as [t i ? ? ? ? ? Hin Hi|r i ? ? ? ? ? Hr Hi Et|r ? ? ? Hr Hc Et]; subst.
    + assert (resolved_term_instrs (blk_term b) = [i]) as ->.
      { clear -Hin. destruct (blk_term b) as [| | |r| |]; cbn in *; try set_solver.
        destruct (tr_exc r); cbn in *; set_solver. }
      cbn. by apply (ev_acquires locations i st _ _ _ _ _ Hi).
    + cbn. rewrite Hr. cbn. by apply (ev_acquires locations i st _ _ _ _ _ Hi).
    + cbn. by rewrite Hr.
Qed.

Lemma term_step_ok b w (σ : Slots) w1 σ1 vs c :
  b ∈ blocks -> holds locations (input_at incoming (blk_label b)) σ -> evs w σ (blk_body b) w1 σ1 (Normal vs) ->
  term_step slot_of after (blk_term b) w1 σ1 c -> frame_ok c.
Proof.
  intros Hb Hh He Ht. destruct (block_held _ _ _ _ _ _ Hh He) as (st & H1 & H2 & Est).
  assert (forall t w τ, t ∈ normal_targets b -> holds locations (entry_state b).1 τ -> frame_ok (Running t w τ)) as Hgo.
  { intros t w' τ Hin Hτ. apply FO_Block; [apply (closed b); [done|]; unfold edge_targets; set_solver|].
    eapply holds_mono; [|exact Hτ]. destruct (flowing b Hb) as [[Hf _] _]. by apply Hf. }
  assert (forall i v w2 σ2, resolved_term_instrs (blk_term b) = [i] -> ev w1 σ1 i w2 σ2 (Normal v) ->
    holds locations (entry_state b).1 σ2) as Hi.
  { intros i v w2 σ2 Hi Hev. rewrite <- Est, Hi. cbn. by apply (ev_acquires locations i st _ _ _ _ _ Hev). }
  pose proof (passed b) as Hpass. unfold normal_targets in Hgo.
  destruct (blk_term b) as [edge|i|i|r|i|i] eqn:Et; inversion Ht; subst; [| | |by apply FO_Done..].
  - assert (be_target edge ∈ labels blocks) as Hin.
    { apply (closed b); [done|]. unfold edge_targets, normal_targets. rewrite Et. set_solver. }
    unfold follow. erewrite after_params by done. apply Hgo; [by left|]. apply bind_holds.
    + intros pair l. apply Hpass; [done|by left].
    + cbn in Est. by rewrite <- Est.
  - eapply Hgo; [|by eapply Hi]. case_match; set_solver.
  - eapply Hgo; [|by eapply Hi]. destruct (tb_targets i !! n) as [x|] eqn:En; cbn;
      [apply list_elem_of_lookup_2 in En|]; set_solver.
Qed.

Lemma block_step_ok c d : frame_ok c -> block_step slot_of after c d -> frame_ok d.
Proof.
  intros Hok Hs. destruct Hok as [l w σ Hl Hh|b edge target c w σ Hb He Ht Hc Hh|].
  - assert (forall b', find_block l after = Some b' -> exists b cs, b ∈ blocks /\ blk_label b = l
      /\ redirected b b' cs /\ cs ⊆ after /\ blk_body b' = blk_body b /\ blk_term b' = blk_term b) as Hfind.
    { intros b' Hb'. edestruct after_find as (b & cs & Hb & R & Hcs); try done. exists b, cs.
      destruct (find_block_some _ _ _ Hb) as [Hin El]. destruct (redirected_shape _ _ _ _ _ _ _ R) as (_ & ? & ? & _).
      by split_and!. }
    inversion Hs as [? b' ? ? w1 σ3 vs ? Hb' Hbody Hterm|? b' ? ? w1 σ3 e Hb' Hbody
      |? b' ? ? w1 σ3 vs w2 σ4 e Hb' Hbody Hterm]; subst;
      destruct (Hfind _ Hb') as (b & cs & Hb & <- & R & Hcs & Eb & Et); rewrite Eb in Hbody.
    + rewrite Et in Hterm. by eapply term_step_ok.
    + eapply throw_ok; [done|done|done|]. eapply raises_held; [exact Hh|by left].
    + rewrite Et in Hterm. eapply throw_ok; [done|done|done|]. eapply raises_held; [exact Hh|right; eauto 6].
  - destruct (cleanup_step c edge target _ w σ Ht Hc Hh) as (τ & _ & Hd & Hτ). destruct (Hd _ Hs) as [w' ->].
    apply FO_Block; [apply (closed b); [done|]; unfold edge_targets; rewrite He; set_solver|].
    eapply holds_mono; [|exact Hτ]. destruct (flowing b Hb) as [[_ Hf] _]. specialize (Hf _ He). set_solver.
  - inversion Hs.
Qed.
Lemma runs_ok c d : runs slot_of after c d -> frame_ok c -> frame_ok d.
Proof. induction 1; [done|]. intros. by eapply IHrtc, block_step_ok. Qed.

(** When an exception enters its handler, only what the handler may read is held. *)
Lemma throw_released l b b' edge w (σ : Slots) w1 σ1 e :
  frame_ok (Running l w σ) -> find_block l blocks = Some b -> blk_exc_edge b = Some edge ->
  find_block l after = Some b' -> block_raises b' w σ w1 σ1 e ->
  exists τ, enters slot_of after (throw slot_of after b' e w1 σ1) (be_target edge) τ
    /\ holds locations (operand_edge_live edge live operands) τ.
Proof.
  intros Hok Hb He Hb' Hr. destruct (find_block_some _ _ _ Hb) as [Hin El].
  assert (l ∈ labels blocks) as Hl by (rewrite <- El; by apply list_elem_of_fmap_2).
  assert (holds locations (input_at incoming l) σ) as Hh.
  { inversion Hok as [|b0 edge0 target c0 ? ? Hb0 He0 Ht0 Hc0|]; subst; [done|exfalso].
    rewrite Hc0 in Hb'. injection Hb' as <-.
    destruct (after_find blocks operands live distinct acquired ps outcome fresh_cleanups _ _ Hc0 Hl)
      as (b1 & cs & Hb1 & R & _). rewrite Hb in Hb1. injection Hb1 as <-.
    clear -He R. remember (cleanup_block _ _ _ _) as b' eqn:E. apply (f_equal blk_exc_edge) in E. cbn in E.
    destruct R; cbn in E; congruence. }
  destruct (after_find blocks operands live distinct acquired ps outcome fresh_cleanups _ _ Hb' Hl)
    as (b1 & cs & Hb1 & R & Hcs). rewrite Hb in Hb1. injection Hb1 as <-.
  destruct (redirected_shape _ _ _ _ _ _ _ R) as (_ & Eb & Et & _).
  assert (holds locations (entry_state b).2 σ1) as Hp.
  { eapply raises_held; [by rewrite El|]. unfold block_raises in *. by rewrite Eb, Et in Hr. }
  destruct (throw_cases b b' cs e w1 σ1 edge) as (target & τ & Ht & Hτ & [[-> Hnil]|(c & -> & Hc)]); try done.
  - exists τ. split; [left; by eexists|]. intros x Hx Hv. pose proof (Hτ x Hx Hv) as Ha.
    destruct (covered x Hx) as (o & Ho & Eo).
    destruct (decide (x ∈ operand_edge_live edge live operands)) as [|Hn]; [done|]. exfalso.
    unfold cleanup_body in Hnil. apply map_eq_nil in Hnil.
    enough (o ∈ @nil Operand) by set_solver. rewrite <- Hnil.
    apply list_elem_of_In, List.filter_In. split; [by apply list_elem_of_In|].
    rewrite Eo, bool_decide_true, bool_decide_false by done. done.
  - destruct (cleanup_step c edge target _ w1 τ Ht Hc Hτ) as (τ' & H1 & H2 & H3). exists τ'.
    split; [by right|]. eapply holds_mono; [|exact H3]. set_solver.
Qed.
End release.

(** ** The pass *)

(** C15: Operands are released before a handler runs: when the pass succeeds, then in any execution
    of the transformed function from its entry, where only suspended operands are held at the
    start, an exception that leaves a block goes to the block's handler, at once or through one
    cleanup step that does not fail, and the operands still held there are among those that every
    solution of the liveness equations has live on that edge.  Relied on: a quiet delete of a
    frame slot returns; an operation on an argument buffer that replaces it returns only when
    there is one; and a block parameter in the slot of an operand is passed that operand. *)
Theorem operand_unwinds_release {World Value : Type} `{!ResolvedRuntime World Value}
    `{!QuietRelease World Value} `{!BufferPresent World Value} slot_of hash_order s f s' f' table :
  lists_all hash_order -> unwind_ready slot_of s f table ->
  self_passed slot_of (rf_blocks f) (dom table) ->
  materialize_operand_unwinds hash_order s f = Some (s', f') ->
  forall entry rest l b b' edge (w0 w w1 : World) (σ0 σ σ1 : gmap NameLocation Value) e,
    rf_blocks f = entry :: rest ->
    (forall x, x ∈ dom table -> is_Some (σ0 !! x) -> is_preserved_location x = true) ->
    runs slot_of (rf_blocks f') (Running (blk_label entry) w0 σ0) (Running l w σ) ->
    find_block l (rf_blocks f) = Some b -> blk_exc_edge b = Some edge ->
    find_block l (rf_blocks f') = Some b' -> block_raises b' w σ w1 σ1 e ->
    exists τ, enters slot_of (rf_blocks f') (throw slot_of (rf_blocks f') b' e w1 σ1) (be_target edge) τ
      /\ forall x sol, x ∈ dom table -> is_Some (τ !! x) ->
           (forall b, b ∈ rf_blocks f ->
              input_at sol (blk_label b) = block_live (newest_first (hash_order table)) (dom table) sol b) ->
           x ∈ operand_edge_live edge sol (newest_first (hash_order table)).
Proof.
  intros Hh Hready Hpass Hm entry rest l b b' edge w0 w w1 σ0 σ σ1 e Hentry H0 Hrun Hb He Hb' Hr.
  pose proof Hready as [Ht Hnd Hcl _ _ _].
  destruct (materialize_inv _ _ _ _ _ _ _ Hh Hready Hm) as [[-> ->]|
    (live & acquired & ps & El & Ea & Hps & Eb & Hnc & Hfc)].
  { rewrite Hb in Hb'. injection Hb' as <-. unfold throw. rewrite He. eexists. split; [left; by eexists|].
    intros x sol Hx. rewrite dom_empty_L in Hx. set_solver. }
  set (operands := newest_first (hash_order table)) in *.
  assert (forall o, o ∈ operands <-> exists k, table !! k = Some o) as Hop by (intros; by apply elem_of_newest_first).
  assert (forall o, o ∈ operands -> rn_location (operand_name o) ∈ dom table) as Hol.
  { intros o (k & Hk)%Hop. destruct (collected_keys _ _ _ _ Ht Hk) as [-> _]. by apply elem_of_dom_2 in Hk. }
  destruct (live_inputs_total (rf_blocks f) operands (dom table)) as (live' & El' & _ & _ & Hleast); [exact Hol|done|].  rewrite El in El'. injection El' as <-.
  destruct (acquired_prefixes_total (rf_blocks f) (dom table) Hnd) as (inc & acquired' & Ea' & Hbelow & Hflow).
  rewrite Ea in Ea'. injection Ea' as <-. rewrite Eb in *.
  assert (forall x, x ∈ dom table -> exists o, o ∈ operands /\ rn_location (operand_name o) = x) as Hcov.
  { intros x [o Ho]%elem_of_dom. exists o. split; [apply Hop; by exists x|].
    by apply (collected_keys _ _ _ _ Ht Ho). }
  assert (frame_ok (rf_blocks f) operands (dom table) live inc ps (Running (blk_label entry) w0 σ0)) as Hok.
  { apply FO_Block; [rewrite Hentry; by left|]. intros x Hx Hv. apply Hbelow. unfold entry_incoming, input_at.
    rewrite Hentry, lookup_singleton_eq. cbn. apply elem_of_filter. split; [by apply H0|done]. }
  assert (forall o, o ∈ operands -> is_slot (rn_location (operand_name o)) = true) as Hos.
  { intros o (k & Hk)%Hop. by destruct (collected_keys _ _ _ _ Ht Hk) as [-> ?]. }
  edestruct (throw_released slot_of (rf_blocks f) operands (dom table) live acquired inc ps Hnd Hcov Hos Hcl Hps)
    as (τ & Henter & Hτ); [by split|done|done| |exact Hb|exact He|exact Hb'|exact Hr|].
  { eapply runs_ok; [exact Hnd|exact Hcov|exact Hos|exact Hcl|exact Hps|by split|exact Hflow|exact Hpass|exact Hrun|exact Hok]. }
  exists τ. split; [done|]. intros x sol Hx Hv Hsol. apply (operand_edge_live_mono operands (dom table) Hol edge live sol); [by apply Hleast|].
  by apply Hτ.
Qed.

#[global] Instance demo_buffers : BufferPresent unit Z.
Proof. split. intros kind callable buffer w rs vs w' v _ [_ H]. exact H. Qed.

Lemma demo_passed : self_passed DemoUnwind.slot_of (rf_blocks DemoUnwind.demo) (dom DemoUnwind.table).
Proof.
  intros b edge pair l Hb Hedge Hpair. exfalso. cbn [rf_blocks DemoUnwind.demo] in *.
  apply elem_of_cons in Hb as [->|Hb%list_elem_of_singleton]; [|subst b]; cbn in Hedge;
    destruct Hedge as [|E]; [done|injection E as <-; by apply not_elem_of_nil in Hpair|done|done].
Qed.

Lemma operand_unwinds_release_witness :
  exists τ, enters DemoUnwind.slot_of (rf_blocks DemoUnwind.result.2)
    (Running (mkBlockLabel 2) tt
       (<[rn_location DemoUnwind.name_b := 0]> (<[rn_location DemoUnwind.name_a := 0]> (∅ : gmap NameLocation Z))))
    (mkBlockLabel 1) τ.
Proof.
  destruct (operand_unwinds_release DemoUnwind.slot_of DemoUnwind.hash_order DemoUnwind.names.1 DemoUnwind.demo
    _ _ DemoUnwind.table DemoUnwind.listed DemoUnwind.unwind_demo_ready demo_passed
    (eq_trans (proj1 DemoUnwind.unwound) (f_equal Some (surjective_pairing _)))
    DemoUnwind.work [DemoUnwind.handler] (mkBlockLabel 0) DemoUnwind.work
    (with_exc_target DemoUnwind.work (mkBlockEdge (mkBlockLabel 2) [])) (mkBlockEdge (mkBlockLabel 1) [])
    tt tt tt (∅ : gmap NameLocation Z) ∅
    (<[rn_location DemoUnwind.name_b := 0]> (<[rn_location DemoUnwind.name_a := 0]> ∅)) 2) as (τ & H & _).
  - reflexivity.
  - intros x _ [v Hv]. done.
  - apply rtc_refl.
  - reflexivity.
  - reflexivity.
  - rewrite (proj2 DemoUnwind.unwound). reflexivity.
  - left. apply DemoUnwind.raised.
  - exists τ. rewrite (proj2 DemoUnwind.unwound) in *. exact H.
Defined.
