(* ===== verification/Split.v ===== *)
(** * Splitting blocks at exception-state updates

    crates/soac_lowering/src/passes/blockpy_to_bb/exception_pass/mod.rs:
    [split_exception_blocks_for_expr_checks] cuts every block with an exception edge after each
    operation that changes a binding, so that an exception always sees the bindings of a block
    boundary. *)

From stdpp Require Import gmap.
From S2P Require Import Prelude Ids IdsProps Cfg CfgProps Names Instr Layout BbShape.
From S2P Require Import Resolved ResolvedSem OperandCleanup LiveAgree OperandCleanupProps.

Local Open Scope Z_scope.

Definition op_updates_exception_state (op : InstrResolved) : bool :=
  match op with
  | R_Node (Op_Store _ _ _) _ | R_Node (Op_Del _ _) _ | R_Node (Op_TakeOperand _) _ => true
  | _ => false
  end.

Section splitting.
Context (g : FunctionNameGen) (b : Block InstrResolved).

Definition segment_params : list BlockParam := bb_params (blk_params b).
Definition prefix_context : BlockContext := mkBlockContext (bc_handled_exception (blk_extra b)) None.

(** The [while let] loop; an empty peek ends it. *)
Fixpoint split_ops (s : Store) (current : BlockLabel) (segment ops : list InstrResolved) :
    option (Store * list (Block InstrResolved)) :=
  match ops with
  | [] => Some (s, [])
  | op :: ops =>
      let segment := segment ++ [op] in
      match ops with
      | [] => Some (s, [mkBlock current segment (blk_term b) segment_params (blk_exc_edge b) (blk_extra b)])
      | _ =>
          if op_updates_exception_state op then
            '(s, next) ← fresh_label s g;
            '(s, out) ← split_ops s next [] ops;
            Some (s, mkBlock current segment (BT_Jump (edge_new next)) segment_params (blk_exc_edge b)
                       prefix_context :: out)
          else split_ops s current segment ops
      end
  end.
Definition split_block (s : Store) : option (Store * list (Block InstrResolved)) :=
  if negb (is_some (blk_exc_edge b)) || bool_decide (blk_body b = []) then Some (s, [b])
  else split_ops s (blk_label b) [] (blk_body b).
End splitting.

Fixpoint split_blocks (g : FunctionNameGen) (s : Store) (blocks : list (Block InstrResolved)) :
    option (Store * list (Block InstrResolved)) :=
  match blocks with
  | [] => Some (s, [])
  | b :: blocks =>
      '(s, out) ← split_block g b s; '(s, rest) ← split_blocks g s blocks; Some (s, out ++ rest)
  end.
Definition split_exception_blocks_for_expr_checks (s : Store) (f : ResolvedFunction) :
    option (Store * ResolvedFunction) :=
  '(s, blocks) ← split_blocks (rf_name_gen f) s (rf_blocks f); Some (s, with_resolved_blocks f blocks).

(** ** The pieces of a block *)

(** The blocks that [b] was cut into, from label [l] on, hold [ops]. *)
Inductive segments (b : Block InstrResolved) :
    list (Block InstrResolved) -> BlockLabel -> list InstrResolved -> Prop :=
| Seg_Last l ops extra :
    segments b [mkBlock l ops (blk_term b) (blk_params b) (blk_exc_edge b) extra] l ops
| Seg_More l segment extra next out ops :
    segments b out next ops ->
    segments b (mkBlock l segment (BT_Jump (edge_new next)) (blk_params b) (blk_exc_edge b) extra :: out)
      l (segment ++ ops).
(** Only the last operation updates bindings. *)
Fixpoint updates_last (ops : list InstrResolved) : bool :=
  match ops with
  | [] => true
  | op :: ops => (negb (op_updates_exception_state op) || bool_decide (ops = [])) && updates_last ops
  end.
Definition isolated (b : Block InstrResolved) : Prop :=
  is_Some (blk_exc_edge b) -> updates_last (blk_body b) = true.
(** The labels beyond the first are new. *)
Definition new_labels (n n' : Z) (ls : list BlockLabel) : Prop :=
  NoDup ls /\ forall l, l ∈ ls -> n <= bl_index l < n'.

Lemma new_labels_cons n m ls l :
  new_labels (n + 1) m ls -> bl_index l = n -> n < m -> new_labels n m (l :: ls).
Proof.
  intros [Hd Hb] El Hm. split.
  - apply NoDup_cons. split; [|done]. intros Hl. apply Hb in Hl. lia.
  - intros x [->|Hx]%elem_of_cons; [lia|]. apply Hb in Hx. lia.
Qed.
Lemma updates_last_snoc seg op :
  (forall x, x ∈ seg -> op_updates_exception_state x = false) -> updates_last (seg ++ [op]) = true.
Proof.
  induction seg as [|x seg IH]; intros H; cbn; [by rewrite orb_true_r|].
  rewrite (H x) by (by left). rewrite IH; [done|]. intros y Hy. apply H. by right.
Qed.

Section pieces.
Context (g : FunctionNameGen) (b : Block InstrResolved).
Hypothesis ordered : bb_params (blk_params b) = blk_params b.

Lemma split_ops_spec s cur seg ops s' out n :
  split_ops g b s cur seg ops = Some (s', out) -> ops <> [] ->
  (forall x, x ∈ seg -> op_updates_exception_state x = false) ->
  block_counter s g = Some n -> 0 <= n ->
  segments b out cur (seg ++ ops) /\ Forall isolated out
  /\ exists n' ls, block_counter s' g = Some n' /\ n <= n' /\ labels out = cur :: ls /\ new_labels n n' ls.
Proof.
  revert s cur seg out n. induction ops as [|op ops IH]; intros s cur seg out n H Hne Hseg Hc Hn; [done|].
  cbn in H. unfold segment_params in H. rewrite ordered in H. destruct ops as [|op' ops'].
  { simplify_eq. split_and!; [constructor| |].
    - constructor; [|constructor]. intros _. by apply updates_last_snoc.
    - exists n, []. split_and!; [done|lia|done|]. split; [constructor|]. by intros l ?%not_elem_of_nil. }
  set (ops := op' :: ops') in *. destruct (op_updates_exception_state op) eqn:Eo.
  - destruct (fresh_label s g) as [[s1 next]|] eqn:Ef; [|done]. cbn [mbind option_bind] in H.
    destruct (split_ops g b s1 next [] ops) as [[s2 out']|] eqn:Es; [|done]. cbn in H. simplify_eq.
    destruct (fresh_label_counter _ _ _ _ _ Ef Hc Hn) as [El Hc1].
    destruct (IH _ _ _ _ (n + 1) Es) as (S & F & n' & ls & C & L & E & N); [done|by intros x ?%not_elem_of_nil|done|lia|].
    replace (seg ++ op :: ops) with ((seg ++ [op]) ++ ops) by (by rewrite <- app_assoc).
    split_and!; [by constructor| |].
    + constructor; [|done]. intros _. by apply updates_last_snoc.
    + exists n', (next :: ls). split_and!; [done|lia|by cbn; rewrite <- E|]. apply new_labels_cons; [done|done|lia].
  - destruct (IH _ _ _ _ n H) as (S & F & R); [done| |done|done|].
    + intros x [Hx|Hx%list_elem_of_singleton]%elem_of_app; [by apply Hseg|by subst].
    + rewrite <- app_assoc in S. by split_and!.
Qed.

Lemma split_block_spec s s' out n :
  split_block g b s = Some (s', out) -> block_counter s g = Some n -> 0 <= n ->
  segments b out (blk_label b) (blk_body b) /\ Forall isolated out
  /\ exists n' ls, block_counter s' g = Some n' /\ n <= n' /\ labels out = blk_label b :: ls /\ new_labels n n' ls.
Proof.
  unfold split_block. intros H Hc Hn. destruct (_ || _) eqn:E.
  - simplify_eq. split_and!.
    + destruct b as [l body term params exc extra]. apply (Seg_Last (mkBlock l body term params exc extra)).
    + constructor; [|constructor]. intros [e He]. rewrite He in E. cbn in E. bool_inv. by rewrite E.
    + exists n, []. split_and!; [done|lia|done|]. split; [constructor|]. by intros l ?%not_elem_of_nil.
  - apply orb_false_iff in E as [_ E]. bool_inv.
    apply (split_ops_spec _ _ [] _ _ _ _ H); [done|by intros x ?%not_elem_of_nil|done|done].
Qed.
End pieces.

Lemma new_labels_app n m n' ls ls' :
  new_labels n m ls -> new_labels m n' ls' -> n <= m -> m <= n' -> new_labels n n' (ls ++ ls').
Proof.
  intros [D1 B1] [D2 B2] H1 H2. split.
  - apply NoDup_app. split_and!; [done| |done]. intros l Hl%B1 Hl'%B2. lia.
  - intros l [Hl%B1|Hl%B2]%elem_of_app; lia.
Qed.

Lemma split_blocks_spec g s blocks s' after n :
  (forall b, b ∈ blocks -> bb_params (blk_params b) = blk_params b) ->
  split_blocks g s blocks = Some (s', after) -> block_counter s g = Some n -> 0 <= n ->
  exists outs n' ls, Forall2 (fun b out => segments b out (blk_label b) (blk_body b)) blocks outs
    /\ after = concat outs /\ Forall isolated after
    /\ block_counter s' g = Some n' /\ n <= n' /\ labels after ≡ₚ labels blocks ++ ls /\ new_labels n n' ls.
Proof.
  revert s after n. induction blocks as [|b blocks IH]; intros s after n Hord H Hc Hn; cbn in H.
  { simplify_eq. exists [], n, []. split_and!; try done; try lia.
    split; [constructor|]. by intros ? ?%not_elem_of_nil. }
  destruct (split_block g b s) as [[s1 out]|] eqn:E1; [|done]. cbn in H.
  destruct (split_blocks g s1 blocks) as [[s2 rest]|] eqn:E2; [|done]. cbn in H. simplify_eq.
  assert (bb_params (blk_params b) = blk_params b) as Hb by (apply Hord; by left).
  destruct (split_block_spec g b Hb _ _ _ _ E1 Hc Hn) as (S & F & n1 & ls & C1 & L1 & El & N1).
  destruct (IH s1 rest n1) as (outs & n' & ls' & Hs & -> & Hi & C & L & P & N);
    [intros; apply Hord; by right|done|done|lia|].
  exists (out :: outs), n', (ls ++ ls'). split_and!; [by constructor|done|by apply Forall_app|done|lia| |by eapply new_labels_app].
  unfold labels in *. cbn [concat map]. rewrite map_app, El, P. cbn. constructor. solve_Permutation.
Qed.

(** ** Executions *)

Section sequences.
Context {World Value : Type} `{!ResolvedRuntime World Value}.
Implicit Types (w : World) (σ : gmap NameLocation Value).

Lemma evs_app w σ l1 w1 σ1 vs1 l2 w2 σ2 vs2 :
  evs w σ l1 w1 σ1 (Normal vs1) -> evs w1 σ1 l2 w2 σ2 (Normal vs2) -> evs w σ (l1 ++ l2) w2 σ2 (Normal (vs1 ++ vs2)).
Proof.
  revert w σ vs1. induction l1 as [|i l1 IH]; intros w σ vs1 H1 H2; inversion H1; subst; [done|].
  cbn. econstructor; [done|]. by apply IH.
Qed.
Lemma evs_app_raise w σ l1 w1 σ1 vs1 l2 w2 σ2 e :
  evs w σ l1 w1 σ1 (Normal vs1) -> evs w1 σ1 l2 w2 σ2 (Raising e) -> evs w σ (l1 ++ l2) w2 σ2 (Raising e).
Proof.
  revert w σ vs1. induction l1 as [|i l1 IH]; intros w σ vs1 H1 H2; inversion H1; subst; [done|].
  cbn. eapply Evs_Tail; [done|]. by eapply IH.
Qed.
Lemma evs_raise_app w σ l1 w1 σ1 l2 e :
  evs w σ l1 w1 σ1 (Raising e) -> evs w σ (l1 ++ l2) w1 σ1 (Raising e).
Proof.
  revert w σ. induction l1 as [|i l1 IH]; intros w σ H; inversion H; subst; cbn.
  - by apply Evs_Head.
  - eapply Evs_Tail; [done|]. by apply IH.
Qed.
Lemma evs_app_inv w σ l1 l2 w2 σ2 vs :
  evs w σ (l1 ++ l2) w2 σ2 (Normal vs) ->
  exists w1 σ1 vs1 vs2, evs w σ l1 w1 σ1 (Normal vs1) /\ evs w1 σ1 l2 w2 σ2 (Normal vs2).
Proof.
  revert w σ vs. induction l1 as [|i l1 IH]; intros w σ vs H; cbn in H; [by exists w, σ, [], vs; split; [constructor|]|].
  inversion H; subst. edestruct IH as (w3 & σ3 & vs1 & vs2 & H1 & H2); [done|].
  exists w3, σ3, (v :: vs1), vs2. split; [by econstructor|done].
Qed.
Lemma evs_app_raise_inv w σ l1 l2 w2 σ2 e :
  evs w σ (l1 ++ l2) w2 σ2 (Raising e) ->
  evs w σ l1 w2 σ2 (Raising e)
  \/ exists w1 σ1 vs1, evs w σ l1 w1 σ1 (Normal vs1) /\ evs w1 σ1 l2 w2 σ2 (Raising e).
Proof.
  revert w σ. induction l1 as [|i l1 IH]; intros w σ H; cbn in H; [right; by exists w, σ, []; split; [constructor|]|].
  inversion H; subst.
  - left. by apply Evs_Head.
  - edestruct IH as [H1|(w3 & σ3 & vs1 & H1 & H2)]; [done|left|right].
    + by eapply Evs_Tail.
    + exists w3, σ3, (v :: vs1). split; [by econstructor|done].
Qed.
End sequences.

Section split_runs.
Context {World Value : Type} `{!ResolvedRuntime World Value}.
Context (slot_of : string -> option NameLocation).
Context (blocks after : list (Block InstrResolved)) (outs : list (list (Block InstrResolved))).
Implicit Types (w : World) (σ : gmap NameLocation Value).
Hypothesis pieces : Forall2 (fun b out => segments b out (blk_label b) (blk_body b)) blocks outs.
Hypothesis after_outs : concat outs ⊆ after.
Hypothesis distinct : NoDup (labels blocks).
Hypothesis after_distinct : NoDup (labels after).
Hypothesis closed : forall b t, b ∈ blocks -> t ∈ edge_targets b -> t ∈ labels blocks.

(** Control is at a piece of [b], with [ops] still to do. *)
Inductive at_segment (b : Block InstrResolved) : BlockLabel -> list InstrResolved -> Prop :=
| AS_Last l c :
    find_block l after = Some c -> blk_params c = blk_params b -> blk_exc_edge c = blk_exc_edge b ->
    blk_term c = blk_term b -> at_segment b l (blk_body c)
| AS_More l c next ops :
    find_block l after = Some c -> blk_params c = blk_params b -> blk_exc_edge c = blk_exc_edge b ->
    blk_term c = BT_Jump (edge_new next) -> at_segment b next ops -> at_segment b l (blk_body c ++ ops).

Lemma segments_at b out l ops : segments b out l ops -> out ⊆ after -> at_segment b l ops.
Proof.
  induction 1 as [l ops extra|l segment extra next out ops _ IH]; intros Hout.
  - eapply (AS_Last b l (mkBlock l ops _ _ _ extra)); try done.
    apply (find_block_elem after (mkBlock l ops _ _ _ extra)); [done|]. apply Hout. by left.
  - eapply (AS_More b l (mkBlock l segment _ _ _ extra)); try done; [|apply IH; set_solver].
    apply (find_block_elem after (mkBlock l segment _ _ _ extra)); [done|]. apply Hout. by left.
Qed.
Lemma at_start b : b ∈ blocks -> at_segment b (blk_label b) (blk_body b).
Proof.
  intros Hb. apply list_elem_of_lookup in Hb as [i Hi].
  destruct (Forall2_lookup_l _ _ _ _ _ pieces Hi) as (out & Ho & S). eapply segments_at; [exact S|].
  intros c Hc. apply after_outs, list_elem_of_In, in_concat. exists out.
  split; apply list_elem_of_In; [by eapply list_elem_of_lookup_2|done].
Qed.
Lemma after_params_at t : t ∈ labels blocks -> params_at after t = params_at blocks t.
Proof.
  intros (b & -> & Hb)%list_elem_of_fmap. unfold params_at. rewrite (find_block_elem blocks b) by done.
  pose proof (at_start b Hb) as Hs. by inversion Hs as [? c Hf Hp|? c ? ? Hf Hp]; subst; rewrite Hf.
Qed.
Lemma follow_same cur edge w σ :
  be_target edge ∈ labels blocks -> follow slot_of after cur edge w σ = follow slot_of blocks cur edge w σ.
Proof. intros H. unfold follow. by rewrite after_params_at. Qed.
Lemma throw_same b c e w σ :
  b ∈ blocks -> blk_exc_edge c = blk_exc_edge b ->
  throw slot_of after c e w σ = throw slot_of blocks b e w σ.
Proof.
  intros Hb He. unfold throw. rewrite He. destruct (blk_exc_edge b) as [edge|] eqn:Ee; [|done].
  apply follow_same, (closed b); [done|]. unfold edge_targets. rewrite Ee. set_solver.
Qed.
Lemma term_step_same b w σ c :
  b ∈ blocks -> term_step slot_of after (blk_term b) w σ c <-> term_step slot_of blocks (blk_term b) w σ c.
Proof.
  intros Hb. assert (forall edge, blk_term b = BT_Jump edge -> forall cur w σ,
    follow slot_of after cur edge w σ = follow slot_of blocks cur edge w σ) as Hf.
  { intros edge Et cur w' σ'. apply follow_same, (closed b); [done|]. unfold edge_targets, normal_targets.
    rewrite Et. set_solver. }
  destruct (blk_term b) as [edge|i|i|r|i|i].
  { split; intros H; inversion H; subst; [rewrite (Hf edge) by done|rewrite <- (Hf edge) by done]; constructor. }
  all: split; intros H; inversion H; subst; econstructor; eassumption.
Qed.
Lemma term_step_target b w σ c l w' σ' :
  b ∈ blocks -> term_step slot_of blocks (blk_term b) w σ c -> c = Running l w' σ' -> l ∈ labels blocks.
Proof.
  intros Hb H ->. apply (closed b); [done|]. unfold edge_targets, normal_targets. apply elem_of_app. left.
  inversion H; subst; try set_solver.
  - case_match; set_solver.
  - destruct (tb_targets i !! n) as [x|] eqn:En; cbn; [apply list_elem_of_lookup_2 in En|]; set_solver.
Qed.
Lemma throw_target b e w σ l w' σ' :
  b ∈ blocks -> throw slot_of blocks b e w σ = Running l w' σ' -> l ∈ labels blocks.
Proof.
  intros Hb. unfold throw, follow. destruct (blk_exc_edge b) as [edge|] eqn:Ee; [|done]. intros [= <- _ _].
  apply (closed b); [done|]. unfold edge_targets. rewrite Ee. set_solver.
Qed.

(** A jump without arguments binds nothing. *)
Lemma follow_bare bs cur l w σ : follow slot_of bs cur (edge_new l) w σ = Running l w σ.
Proof. unfold follow, bind_params, edge_pairs. cbn. by destruct (drop _ _). Qed.
Lemma jump_bare bs l w σ : term_step slot_of bs (BT_Jump (edge_new l)) w σ (Running l w σ).
Proof. rewrite <- (follow_bare bs (current_exception w)). constructor. Qed.

(** The pieces do what the block did. *)
Lemma segment_term b l ops w σ w1 σ1 vs c :
  b ∈ blocks -> at_segment b l ops -> evs w σ ops w1 σ1 (Normal vs) ->
  term_step slot_of blocks (blk_term b) w1 σ1 c -> runs slot_of after (Running l w σ) c.
Proof.
  intros Hb Hs. revert w σ vs. induction Hs as [l d Hf Hp He Et|l d next ops Hf Hp He Et Hs IH]; intros w σ vs Hev Ht.
  - apply rtc_once. eapply Step_Term; [done|done|]. rewrite Et. by apply term_step_same.
  - apply evs_app_inv in Hev as (w3 & σ3 & vs1 & vs2 & H1 & H2). eapply rtc_l; [|by eapply IH].
    eapply Step_Term; [done|exact H1|]. rewrite Et. apply jump_bare.
Qed.
Lemma segment_raise b l ops w σ w1 σ1 e :
  b ∈ blocks -> at_segment b l ops ->
  evs w σ ops w1 σ1 (Raising e)
  \/ (exists w2 σ2 vs, evs w σ ops w2 σ2 (Normal vs) /\ term_raise (blk_term b) w2 σ2 w1 σ1 e) ->
  runs slot_of after (Running l w σ) (throw slot_of blocks b e w1 σ1).
Proof.
  intros Hb Hs. revert w σ. induction Hs as [l d Hf Hp He Et|l d next ops Hf Hp He Et Hs IH]; intros w σ Hev.
  - rewrite <- (throw_same b d) by done. apply rtc_once. destruct Hev as [Hev|(w2 & σ2 & vs & Hev & Ht)].
    + by eapply Step_Body.
    + eapply Step_Raise; [done|done|by rewrite Et].
  - assert (forall w3 σ3 vs1, evs w σ (blk_body d) w3 σ3 (Normal vs1) ->
      runs slot_of after (Running next w3 σ3) (throw slot_of blocks b e w1 σ1) ->
      runs slot_of after (Running l w σ) (throw slot_of blocks b e w1 σ1)) as Hgo.
    { intros w3 σ3 vs1 H1 H2. eapply rtc_l; [|exact H2]. eapply Step_Term; [done|exact H1|]. rewrite Et.
      apply jump_bare. }
    destruct Hev as [Hev|(w2 & σ2 & vs & Hev & Ht)].
    + apply evs_app_raise_inv in Hev as [Hev|(w3 & σ3 & vs1 & H1 & H2)].
      * rewrite <- (throw_same b d) by done. apply rtc_once. by eapply Step_Body.
      * eapply Hgo; [exact H1|]. apply IH. by left.
    + apply evs_app_inv in Hev as (w3 & σ3 & vs1 & vs2 & H1 & H2). eapply Hgo; [exact H1|]. apply IH. right. eauto 6.
Qed.

Lemma split_forwards c d : block_step slot_of blocks c d -> runs slot_of after c d.
Proof.
  intros H. inversion H as [l b w σ w1 σ1 vs ? Hf He Ht|l b w σ w1 σ1 e Hf He|l b w σ w1 σ1 vs w2 σ2 e Hf He Ht]; subst;
    apply find_block_some in Hf as [Hb <-]; pose proof (at_start b Hb) as Hs.
  - by eapply segment_term.
  - eapply segment_raise; [done|done|by left].
  - eapply segment_raise; [done|done|]. right. eauto 6.
Qed.

(** Back: a piece has done a prefix of its block. *)
Inductive behind : Config (World := World) (Value := Value) -> Config -> Prop :=
| Behind_Running b l pre ops w0 σ0 w σ vs :
    b ∈ blocks -> at_segment b l ops -> blk_body b = pre ++ ops -> evs w0 σ0 pre w σ (Normal vs) ->
    behind (Running l w σ) (Running (blk_label b) w0 σ0)
| Behind_Done exit w σ : behind (Done exit w σ) (Done exit w σ).

Lemma behind_start l w σ : l ∈ labels blocks -> behind (Running l w σ) (Running l w σ).
Proof.
  intros (b & -> & Hb)%list_elem_of_fmap. eapply (Behind_Running b _ [] (blk_body b)); [done|by apply at_start|done|constructor].
Qed.
Lemma behind_self c : (forall l w σ, c = Running l w σ -> l ∈ labels blocks) -> behind c c.
Proof. intros H. destruct c; [|constructor]. by eapply behind_start, H. Qed.

Lemma split_backwards c c0 d :
  behind c c0 -> block_step slot_of after c d -> exists d0, runs slot_of blocks c0 d0 /\ behind d d0.
Proof.
  intros Hc Hs. destruct Hc as [b l pre ops w0 σ0 w σ vs0 Hb Hl Ebody Hpre|]; [|inversion Hs].
  assert (find_block (blk_label b) blocks = Some b) as Hfb by (by apply find_block_elem).
  assert (forall p c, at_segment b l ops -> find_block l after = Some p -> blk_exc_edge p = blk_exc_edge b ->
    blk_body b = pre ++ c -> forall w1 σ1 e, evs w σ c w1 σ1 (Raising e) ->
    exists d0, runs slot_of blocks (Running (blk_label b) w0 σ0) d0 /\ behind (throw slot_of after p e w1 σ1) d0) as Hraise.
  { intros p c _ Hp He Eb w1 σ1 e Hev. exists (throw slot_of blocks b e w1 σ1). split.
    - apply rtc_once. eapply Step_Body; [done|]. rewrite Eb. by eapply evs_app_raise.
    - rewrite (throw_same b) by done. apply behind_self. intros. by eapply throw_target. }
  inversion Hl as [? p Hf Hp He Et|? p next ops' Hf Hp He Et Hn]; subst;
    inversion Hs as [? p' ? ? w1 σ1 vs ? Hf' Hbody Hterm|? p' ? ? w1 σ1 e Hf' Hbody
      |? p' ? ? w1 σ1 vs w2 σ2 e Hf' Hbody Hterm]; subst; rewrite Hf in Hf'; injection Hf' as <-.
  - rewrite Et in Hterm. apply term_step_same in Hterm; [|done]. exists d. split.
    + apply rtc_once. eapply Step_Term; [done| |done]. rewrite Ebody. by eapply evs_app.
    + apply behind_self. intros. by eapply term_step_target.
  - by eapply Hraise.
  - rewrite Et in Hterm. exists (throw slot_of blocks b e w2 σ2). split.
    + apply rtc_once. eapply Step_Raise; [done| |done]. rewrite Ebody. by eapply evs_app.
    + rewrite (throw_same b) by done. apply behind_self. intros. by eapply throw_target.
  - rewrite Et in Hterm. inversion Hterm; subst. rewrite follow_bare.
    exists (Running (blk_label b) w0 σ0). split; [apply rtc_refl|].
    eapply (Behind_Running b next (pre ++ blk_body p)); [done|exact Hn|by rewrite <- app_assoc|by eapply evs_app].
  - exists (throw slot_of blocks b e w1 σ1). split.
    + apply rtc_once. eapply Step_Body; [done|]. rewrite Ebody. eapply evs_app_raise; [done|]. by apply evs_raise_app.
    + rewrite (throw_same b) by done. apply behind_self. intros. by eapply throw_target.
  - rewrite Et in Hterm. inversion Hterm; set_solver.
Qed.
Lemma split_runs_back c c0 d :
  runs slot_of after c d -> behind c c0 -> exists d0, runs slot_of blocks c0 d0 /\ behind d d0.
Proof.
  intros H. revert c0. induction H as [c|c c1 d Hs _ IH]; intros c0 Hc; [by exists c0; split; [apply rtc_refl|]|].
  destruct (split_backwards _ _ _ Hc Hs) as (c2 & H1 & Hc2). destruct (IH _ Hc2) as (d0 & H2 & Hd).
  exists d0. split; [by etrans|done].
Qed.
End split_runs.

(** Distinct labels below the label counter, defined targets, and parameters in the order that
    lowering gives them. *)
Record split_ready (s : Store) (f : ResolvedFunction) : Prop := mkSplitReady {
  split_distinct : NoDup (labels (rf_blocks f));
  split_closed b t : b ∈ rf_blocks f -> t ∈ edge_targets b -> t ∈ labels (rf_blocks f);
  split_ordered b : b ∈ rf_blocks f -> bb_params (blk_params b) = blk_params b;
  split_counter : exists n, block_counter s (rf_name_gen f) = Some n /\ 0 <= n
    /\ forall b, b ∈ rf_blocks f -> bl_index (blk_label b) < n
}.

(** C18: Splitting is exact: after it, in every block with an exception edge only the last
    operation changes a binding, and from every block of the given function the split function
    has the same executions, with the same result or exception, effects and final frame. *)
Theorem split_preserves_executions s f s' f' :
  split_ready s f -> split_exception_blocks_for_expr_checks s f = Some (s', f') ->
  (forall b, b ∈ rf_blocks f' -> is_Some (blk_exc_edge b) -> updates_last (blk_body b) = true)
  /\ forall (World Value : Type) (R : ResolvedRuntime World Value) slot_of l (w w' : World)
       (σ σ' : gmap NameLocation Value) exit,
       l ∈ labels (rf_blocks f) ->
       (runs slot_of (rf_blocks f') (Running l w σ) (Done exit w' σ')
        <-> runs slot_of (rf_blocks f) (Running l w σ) (Done exit w' σ')).
Proof.
  intros [Hnd Hcl Hord (n & Hc & Hn & Hlt)] H. unfold split_exception_blocks_for_expr_checks in H.
  destruct (split_blocks _ _ _) as [[s1 after]|] eqn:E; [|done]. cbn in H. simplify_eq. cbn [rf_blocks with_resolved_blocks].
  destruct (split_blocks_spec _ _ _ _ _ _ Hord E Hc Hn) as (outs & n' & ls & Hp & Ea & Hi & _ & _ & P & [Hd Hb]).
  split; [intros b Hbin; by rewrite Forall_forall in Hi; apply Hi|].
  intros World Value R slot_of l w w' σ σ' exit Hl.
  assert (NoDup (labels after)) as Hda.
  { rewrite P. apply NoDup_app. split_and!; [done| |done].
    intros x (b & -> & Hbin)%list_elem_of_fmap Hx%Hb. apply Hlt in Hbin. lia. }
  split; intros Hrun.
  - destruct (split_runs_back slot_of (rf_blocks f) after outs Hp) with (5 := Hrun) (c0 := Running (Value := Value) l w σ)
      as (d0 & H1 & H2); [by rewrite Ea|done|done|done| |by inversion H2; subst].
    eapply behind_start; [exact Hp|by rewrite Ea|done..].
  - induction Hrun as [c|c1 c2 d Hs _ IH]; [apply rtc_refl|]. etrans; [|exact IH].
    eapply split_forwards; [exact Hp|by rewrite Ea|done..].
Qed.

Lemma split_preserves_executions_witness :
  exists s' f', split_exception_blocks_for_expr_checks DemoUnwind.names.1 DemoUnwind.demo = Some (s', f')
    /\ length (rf_blocks f') = 4%nat
    /\ (forall exit σ', runs DemoUnwind.slot_of (rf_blocks f') (Running (mkBlockLabel 0) tt ∅) (Done exit tt σ')
        <-> runs DemoUnwind.slot_of (rf_blocks DemoUnwind.demo) (Running (mkBlockLabel 0) tt (∅ : gmap NameLocation Z))
              (Done exit tt σ')).
Proof.
  destruct (split_exception_blocks_for_expr_checks DemoUnwind.names.1 DemoUnwind.demo) as [[s' f']|] eqn:E;
    [|by vm_compute in E].
  exists s', f'. split; [done|]. split; [vm_compute in E; by simplify_eq|].
  destruct (split_preserves_executions DemoUnwind.names.1 DemoUnwind.demo s' f') as [_ H]; [|exact E|].
  - pose proof DemoUnwind.unwind_demo_ready as [_ H1 H2 H3 _ _]. split; [exact H1|exact H2| |exact H3].
    intros b Hb. cbn [rf_blocks DemoUnwind.demo] in Hb.
    apply elem_of_cons in Hb as [->|Hb%list_elem_of_singleton]; [|subst b]; reflexivity.
  - intros exit σ'. apply H. by left.
Defined.
