(* ===== verification/Transport.v ===== *)
(** * Storage of exception and finally transports

    crates/soac_lowering/src/passes/blockpy_to_bb/exception_pass/transport_storage.rs: which
    local and preserved slots own the value of a declared exception or finally parameter.  The
    owners start at the slots of the parameter's name and follow the marked raw copies.

    A [BTreeSet] or [BTreeMap] whose order is not observed is a [gset] or a [gmap];
    [in_order] lists a set of locations the way the code iterates it. *)

From stdpp Require Import gmap.
From S2P Require Import Prelude Order Collections Ids Cfg Names Instr Layout Resolved Roles Flow.

Local Open Scope Z_scope.

Inductive TransportLocation : Type := TL_Local (slot : Z) | TL_Preserved (slot : Z).
#[global] Instance TransportLocation_eq_dec : EqDecision TransportLocation.
Proof. solve_decision. Defined.
Definition transport_code (l : TransportLocation) : bool * Z :=
  match l with TL_Local s => (false, s) | TL_Preserved s => (true, s) end.
Definition transport_decode (c : bool * Z) : option TransportLocation :=
  Some (if c.1 then TL_Preserved c.2 else TL_Local c.2).
Lemma transport_decode_code l : transport_decode (transport_code l) = Some l.
Proof. by destruct l. Qed.
#[global] Instance TransportLocation_countable : Countable TransportLocation :=
  inj_countable transport_code transport_decode transport_decode_code.
(** The derived order. *)
Definition transport_key (l : TransportLocation) : Key :=
  KNode (match l with TL_Local s => [KInt 0; KInt s] | TL_Preserved s => [KInt 1; KInt s] end).

Notation OwnerSet := (gset TransportLocation).
Definition in_order (s : OwnerSet) : list TransportLocation := sort_by transport_key (elements s).

Definition from_name (name : ResolvedName) : option TransportLocation :=
  match rn_location name with
  | NL_Local slot => Some (TL_Local (local_slot slot))
  | NL_Preserved slot => Some (TL_Preserved (preserved_location_slot slot))
  | _ => None
  end.
Definition is_preserved (l : TransportLocation) : bool :=
  match l with TL_Preserved _ => true | TL_Local _ => false end.

Record TransportStorage : Type := mkTransportStorage {
  ts_owners : gmap TransportLocation ResolvedName;
  ts_logical : gmap string OwnerSet;
  ts_locals : gmap string TransportLocation
}.
Definition transport_default : TransportStorage := mkTransportStorage ∅ ∅ ∅.

Section queries.
Context (st : TransportStorage).

Definition ts_is_empty : bool := bool_decide (ts_owners st = ∅).
Definition ts_key (name : ResolvedName) : option TransportLocation :=
  key ← from_name name; if bool_decide (is_Some (ts_owners st !! key)) then Some key else None.
Definition ts_parameter (name : string) : option TransportLocation := ts_locals st !! name.
Definition for_logical (name : string) : list TransportLocation :=
  in_order (default ∅ (ts_logical st !! name)).
Definition ts_preserved : OwnerSet :=
  filter (fun key => is_preserved key = true) (dom (ts_owners st)).
Definition ts_name (key : TransportLocation) : option ResolvedName := ts_owners st !! key.
(** The store's name, purpose and value. *)
Definition copy_source (name : ResolvedName) (purpose : StorePurpose) (value : list InstrResolved) :
    option TransportLocation :=
  match purpose with
  | SP_BlockParameterTransport =>
      if is_some (ts_key name) then
        match value with
        | [R_Node (Op_Load source _) _] => ts_key source
        | _ => None
        end
      else None
  | SP_Binding => None
  end.
End queries.

(** ** Construction *)

Definition is_transport_role (role : BlockParamRole) : bool :=
  match role with
  | BPR_Exception | BPR_EnclosingException | BPR_AbruptPayload | BPR_EnclosingAbruptPayload => true
  | _ => false
  end.
(** [logical.entry(..).or_default()]. *)
Definition declare_param (st : TransportStorage) (param : BlockParam) : TransportStorage :=
  if is_transport_role (bp_role param) then
    mkTransportStorage (ts_owners st)
      (<[bp_name param := default ∅ (ts_logical st !! bp_name param)]> (ts_logical st)) (ts_locals st)
  else st.
(** [logical.get_mut(name)] and [owners.insert(key)]. *)
Definition own_logical (name : string) (key : TransportLocation) (logical : gmap string OwnerSet) :
    gmap string OwnerSet := alter (fun owners => {[key]} ∪ owners) name logical.

Definition add_local (st : TransportStorage) (entry : nat * string) : option TransportStorage :=
  let (slot, name) := entry in
  match ts_logical st !! name with
  | None => Some st
  | Some _ =>
      slot ← index_u32 slot;
      let key := TL_Local slot in
      Some (mkTransportStorage
        (<[key := mkResolvedName name (NL_Local (mkLocalLocation slot))]> (ts_owners st))
        (own_logical name key (ts_logical st)) (<[name := key]> (ts_locals st)))
  end.
Definition add_preserved (st : TransportStorage) (entry : nat * PreservedSlot) : option TransportStorage :=
  let (slot, field) := entry in
  if negb (bool_decide (ps_storage field = PS_PyObjectOrNull)) then Some st
  else
    slot ← index_u32 slot;
    let key := TL_Preserved slot in
    let names := [ps_logical_name field; ps_storage_name field] in
    let declared := existsb (fun name => bool_decide (is_Some (ts_logical st !! name))) names in
    let logical := fold_left (fun logical name => own_logical name key logical) names (ts_logical st) in
    Some (mkTransportStorage
      (if declared
       then <[key := mkResolvedName (ps_storage_name field) (NL_Preserved (mkPreservedLocation slot))]>
              (ts_owners st)
       else ts_owners st) logical (ts_locals st)).
Fixpoint fold_opt {A S} (f : S -> A -> option S) (s : S) (l : list A) : option S :=
  match l with [] => Some s | a :: l => s ← f s a; fold_opt f s l end.
Definition enumerate {A} (l : list A) : list (nat * A) := zip (seq 0 (length l)) l.

(** Whether the destination of a copy may own a transport. *)
Definition admits (layout : StorageLayout) (key : TransportLocation) : option bool :=
  match key with
  | TL_Local _ => Some true
  | TL_Preserved slot =>
      field ← sl_preserved_slots layout !! Z.to_nat slot;
      Some (bool_decide (ps_storage field = PS_PyObjectOrNull))
  end.
Definition carry (source destination : TransportLocation) (owners : OwnerSet) : OwnerSet :=
  if bool_decide (source ∈ owners) then {[destination]} ∪ owners else owners.
Definition copy_step (layout : StorageLayout) (state : bool * TransportStorage)
    (copy : ResolvedName * ResolvedName) : option (bool * TransportStorage) :=
  let (changed, st) := state in
  match ts_key st copy.1 with
  | None => Some state
  | Some source =>
      destination ← from_name copy.2;
      admitted ← admits layout destination;
      if admitted : bool then
        let vacant := negb (bool_decide (is_Some (ts_owners st !! destination))) in
        let logical := carry source destination <$> ts_logical st in
        Some (changed || vacant || negb (bool_decide (logical = ts_logical st)),
              mkTransportStorage
                (if vacant then <[destination := copy.2]> (ts_owners st) else ts_owners st)
                logical
                (match destination with
                 | TL_Local _ => <[rn_id copy.2 := destination]> (ts_locals st)
                 | TL_Preserved _ => ts_locals st
                 end))
      else Some state
  end.
(** Outer [None]: a panic; inner [None]: the fuel is spent. *)
Fixpoint copy_loop (fuel : nat) (layout : StorageLayout) (copies : list (ResolvedName * ResolvedName))
    (st : TransportStorage) : option (option TransportStorage) :=
  match fuel with
  | O => Some None
  | S fuel =>
      '(changed, st) ← fold_opt (copy_step layout) (false, st) copies;
      if changed : bool then copy_loop fuel layout copies st else Some (Some st)
  end.
(** Every round but the last adds a destination to the owners or to one logical set. *)
Definition copy_fuel (copies : list (ResolvedName * ResolvedName)) (st : TransportStorage) : nat :=
  S (length copies * S (size (ts_logical st))).

(** The slots of the declared parameters' own names. *)
Definition declared_storage (layout : StorageLayout) (blocks : list (Block InstrResolved)) :
    option TransportStorage :=
  let st := fold_left declare_param (concat (map blk_params blocks)) transport_default in
  st ← fold_opt add_local st (enumerate (sl_stack_slots layout));
  fold_opt add_preserved st (enumerate (sl_preserved_slots layout)).
Definition transport_storage_new (f : ResolvedFunction) : option (option TransportStorage) :=
  match rf_storage_layout f with
  | None => Some (Some transport_default)
  | Some layout =>
      st ← declared_storage layout (rf_blocks f);
      copies ← block_parameter_transport_copies (rf_blocks f);
      copy_loop (copy_fuel copies st) layout copies st
  end.
