(* ===== verification/TransportProps.v ===== *)
(** * Transport owners are exactly the slots that copies reach

    The construction of Transport.v ends, and the slots it gives a declared parameter are those
    of its name and those that marked copies carry its value to. *)

From stdpp Require Import gmap.
From S2P Require Import Prelude Order Collections Ids Cfg Names Instr Layout Resolved Roles Flow Transport.

Local Open Scope Z_scope.

Lemma fold_opt_app {A S} (f : S -> A -> option S) s l1 l2 :
  fold_opt f s (l1 ++ l2) = (s ← fold_opt f s l1; fold_opt f s l2).
Proof. revert s. induction l1 as [|a l1 IH]; intros s; cbn; [done|]. destruct (f s a); [|done]. cbn. apply IH. Qed.
Lemma fold_opt_invariant {A S} (f : S -> A -> option S) (P : S -> Prop) s l s' :
  (forall s a s', a ∈ l -> P s -> f s a = Some s' -> P s') -> P s -> fold_opt f s l = Some s' -> P s'.
Proof.
  revert s. induction l as [|a l IH]; intros s Hf Hs H; cbn in H; [by simplify_eq|].
  destruct (f s a) as [s1|] eqn:E; [|done]. eapply IH; [|by eapply Hf; [left| |]|exact H].
  intros. eapply Hf; [by right|done|done].
Qed.
(** What processing [a] establishes and the rest keeps holds at the end. *)
Lemma fold_opt_reaches {A S} (f : S -> A -> option S) (I : S -> Prop) (Q : A -> S -> Prop) s l s' :
  (forall s a s', I s -> f s a = Some s' -> I s' /\ Q a s') ->
  (forall s a s' b, I s -> f s a = Some s' -> Q b s -> Q b s') ->
  I s -> fold_opt f s l = Some s' -> I s' /\ forall a, a ∈ l -> Q a s'.
Proof.
  intros H1 H2. revert s. induction l as [|a l IH]; intros s HI H; cbn in H.
  { simplify_eq. split; [done|]. by intros a ?%not_elem_of_nil. }
  destruct (f s a) as [s1|] eqn:E; [|done]. destruct (H1 _ _ _ HI E) as [HI1 HQ].
  destruct (IH s1 HI1 H) as [HI' HQ']. split; [done|]. intros b [->|Hb]%elem_of_cons; [|by apply HQ'].
  assert (I s1 /\ Q a s1) as Hk by done. eapply (fold_opt_invariant f (fun s => I s /\ Q a s)) in Hk as [_ ?]; [done| |exact H].
  intros s2 b s3 _ [HI2 HQ2] E2. split; [by eapply H1|by eapply H2].
Qed.
Lemma elem_of_enumerate {A} (l : list A) i x : (i, x) ∈ enumerate l <-> l !! i = Some x.
Proof.
  unfold enumerate. rewrite list_elem_of_lookup. split.
  - intros [j Hj]. apply lookup_zip_with_Some in Hj as (a & b & [= -> ->] & Ha & Hb).
    apply lookup_seq in Ha as [-> _]. by cbn in *.
  - intros Hi. exists i. apply lookup_zip_with_Some. exists i, x. split_and!; [done| |done].
    apply lookup_seq. split; [done|]. by eapply lookup_lt_Some.
Qed.

Section owners.
Context (layout : StorageLayout) (blocks : list (Block InstrResolved)).
Context (copies : list (ResolvedName * ResolvedName)).

(** The parameters with a transport. *)
Definition is_declared (name : string) : Prop :=
  exists b param, b ∈ blocks /\ param ∈ blk_params b /\ is_transport_role (bp_role param) = true
    /\ bp_name param = name.
(** The slots that hold the value of parameter [name]. *)
Inductive owns (name : string) : TransportLocation -> Prop :=
| Owns_Local i :
    sl_stack_slots layout !! i = Some name -> owns name (TL_Local (Z.of_nat i))
| Owns_Preserved i field :
    sl_preserved_slots layout !! i = Some field -> ps_storage field = PS_PyObjectOrNull ->
    ps_logical_name field = name \/ ps_storage_name field = name -> owns name (TL_Preserved (Z.of_nat i))
| Owns_Copy source destination k k' :
    (source, destination) ∈ copies -> from_name source = Some k -> owns name k ->
    from_name destination = Some k' -> admits layout k' = Some true -> owns name k'.

Definition in_logical (st : TransportStorage) (name : string) (k : TransportLocation) : Prop :=
  k ∈ default ∅ (ts_logical st !! name).

Record storage_ok (st : TransportStorage) : Prop := mkStorageOk {
  so_sound name k : in_logical st name k -> owns name k;
  so_owners k : is_Some (ts_owners st !! k) <-> exists name, in_logical st name k;
  so_names k n : ts_owners st !! k = Some n -> from_name n = Some k;
  so_locals name k : ts_locals st !! name = Some k -> is_Some (ts_owners st !! k)
}.

Lemma index_u32_some i slot : index_u32 i = Some slot -> slot = Z.of_nat i.
Proof. unfold index_u32. case_match; congruence. Qed.

Lemma in_logical_alter st name k name' k' owners locals :
  in_logical (mkTransportStorage owners (own_logical name k (ts_logical st)) locals) name' k'
  <-> in_logical st name' k' \/ (name' = name /\ k' = k /\ is_Some (ts_logical st !! name)).
Proof.
  unfold in_logical, own_logical. cbn. destruct (decide (name' = name)) as [->|].
  - rewrite lookup_alter_eq. destruct (ts_logical st !! name) as [S|]; cbn; [set_solver|].
    split; [set_solver|]. intros [?|(_ & _ & [? ?])]; done.
  - rewrite lookup_alter_ne by done. naive_solver.
Qed.

Lemma add_local_ok st i name st' :
  sl_stack_slots layout !! i = Some name -> storage_ok st -> add_local st (i, name) = Some st' -> storage_ok st'.
Proof.
  intros Hi Hok H. pose proof Hok as [So Ow Na Lo]. cbn in H.
  destruct (ts_logical st !! name) as [S|] eqn:E; [|by simplify_eq].
  destruct (index_u32 i) as [slot|] eqn:Es; [|done]. apply index_u32_some in Es as ->. cbn in H. simplify_eq.
  split.
  - intros name' k [Hk|(-> & -> & _)]%in_logical_alter; [by apply So|by constructor].
  - intros k. cbn [ts_owners]. setoid_rewrite in_logical_alter. rewrite lookup_insert_is_Some, Ow, E.
    split; [intros [<-|[_ [n Hn]]]; eauto 8|]. intros [n [Hn|(-> & -> & _)]]; [|by left].
    destruct (decide (TL_Local (Z.of_nat i) = k)); eauto.
  - intros k n. cbn [ts_owners]. intros [[<- <-]|[_ Hn]]%lookup_insert_Some; [done|by apply Na].
  - intros n k. cbn [ts_owners ts_locals]. rewrite lookup_insert_is_Some. intros [[<- <-]|[_ Hn%Lo]]%lookup_insert_Some; [by left|].
    destruct (decide (TL_Local (Z.of_nat i) = k)); auto.
Qed.

Lemma add_preserved_ok st i field st' :
  sl_preserved_slots layout !! i = Some field -> storage_ok st -> add_preserved st (i, field) = Some st' -> storage_ok st'.
Proof.
  intros Hi Hok H. pose proof Hok as [So Ow Na Lo]. cbn in H.
  case_bool_decide as Hs; [|cbn in H; by simplify_eq]. cbn in H.
  destruct (index_u32 i) as [slot|] eqn:Es; [|done]. apply index_u32_some in Es as ->. cbn [mbind option_bind] in H.
  set (k0 := TL_Preserved (Z.of_nat i)) in *. set (n1 := ps_logical_name field) in *. set (n2 := ps_storage_name field) in *.
  assert (forall owners locals name k,
    in_logical (mkTransportStorage owners (own_logical n2 k0 (own_logical n1 k0 (ts_logical st))) locals) name k
    <-> in_logical st name k \/ (k = k0 /\ (name = n1 \/ name = n2) /\ is_Some (ts_logical st !! name))) as Hin.
  { intros owners locals name k. unfold in_logical, own_logical. cbn.
    destruct (decide (name = n2)) as [->|].
    - rewrite lookup_alter_eq. destruct (decide (n1 = n2)) as [<-|].
      + rewrite lookup_alter_eq. destruct (ts_logical st !! n1) as [S|]; cbn; [set_solver|naive_solver].
      + rewrite lookup_alter_ne by done. destruct (ts_logical st !! n2) as [S|]; cbn; [set_solver|naive_solver].
    - rewrite lookup_alter_ne by done. destruct (decide (name = n1)) as [->|].
      + rewrite lookup_alter_eq. destruct (ts_logical st !! n1) as [S|]; cbn; [set_solver|naive_solver].
      + rewrite lookup_alter_ne by done. naive_solver. }
  change (Some (mkTransportStorage
    (if bool_decide (is_Some (ts_logical st !! n1)) || (bool_decide (is_Some (ts_logical st !! n2)) || false)
     then <[k0 := mkResolvedName n2 (NL_Preserved (mkPreservedLocation (Z.of_nat i)))]> (ts_owners st)
     else ts_owners st) (own_logical n2 k0 (own_logical n1 k0 (ts_logical st))) (ts_locals st)) = Some st') in H.
  injection H as <-. split.
  - intros name k [Hk|(-> & Hn & _)]%Hin; [by apply So|]. by eapply Owns_Preserved; [done|done|destruct Hn; auto].
  - intros k. cbn [ts_owners]. setoid_rewrite Hin. destruct (_ || _) eqn:E.
    + rewrite lookup_insert_is_Some, Ow. apply orb_true_iff in E. rewrite orb_false_r in E.
      split.
      * intros [<-|[_ [n Hn]]]; [|eauto]. destruct E as [E|E]; bool_inv; eauto 8.
      * intros [n [Hn|(-> & _)]]; [|by left]. destruct (decide (k0 = k)); eauto.
    + apply orb_false_iff in E as [E1 [E2 _]%orb_false_iff]. bool_inv. rewrite Ow. split; [naive_solver|].
      intros [n [Hn|(_ & [->| ->] & ?)]]; [eauto|done|done].
  - intros k n. cbn [ts_owners]. destruct (_ || _); [|apply Na].
    intros [[<- <-]|[_ Hn]]%lookup_insert_Some; [done|by apply Na].
  - intros n k. cbn [ts_owners ts_locals]. intros Hn%Lo. destruct (_ || _); [|done].
    rewrite lookup_insert_is_Some. destruct (decide (k0 = k)); auto.
Qed.

Lemma declare_params_logical params st :
  ts_owners (fold_left declare_param params st) = ts_owners st
  /\ ts_locals (fold_left declare_param params st) = ts_locals st
  /\ (forall name k, in_logical (fold_left declare_param params st) name k <-> in_logical st name k)
  /\ forall name, is_Some (ts_logical (fold_left declare_param params st) !! name)
     <-> is_Some (ts_logical st !! name)
         \/ exists param, param ∈ params /\ is_transport_role (bp_role param) = true /\ bp_name param = name.
Proof.
  revert st. induction params as [|p params IH]; intros st; cbn.
  { split_and!; [done|done|done|]. intros name. split; [auto|]. intros [?|(? & ?%not_elem_of_nil & _)]; done. }
  destruct (IH (declare_param st p)) as (E & EL & L & D). unfold declare_param in *.
  destruct (is_transport_role (bp_role p)) eqn:Er; cbn in *.
  - split_and!; [done|done| |].
    + intros name k. rewrite L. unfold in_logical. cbn. destruct (decide (bp_name p = name)) as [<-|].
      * by rewrite lookup_insert_eq.
      * by rewrite lookup_insert_ne.
    + intros name. rewrite D, lookup_insert_is_Some. setoid_rewrite elem_of_cons. split.
      * intros [[<-|[_ ?]]|(q & ? & ? & ?)]; [right; by exists p; auto|by left|right; exists q; auto].
      * intros [?|(q & [->|?] & ? & ?)]; [|left; by left|right; by exists q].
        left. destruct (decide (bp_name p = name)); auto.
  - split_and!; [done|done|done|]. intros name. rewrite D. setoid_rewrite elem_of_cons. split.
    + intros [?|(q & ? & ? & ?)]; [by left|right; exists q; auto].
    + intros [?|(q & [->|?] & ? & ?)]; [by left|congruence|right; by exists q].
Qed.

(** What the first phases keep: the declared names, and what was owned. *)
Definition extends (st st' : TransportStorage) : Prop :=
  (forall name, is_Some (ts_logical st' !! name) <-> is_Some (ts_logical st !! name))
  /\ forall name k, in_logical st name k -> in_logical st' name k.

Lemma add_local_extends st e st' :
  add_local st e = Some st' ->
  extends st st' /\ (is_Some (ts_logical st !! e.2) -> in_logical st' e.2 (TL_Local (Z.of_nat e.1))).
Proof.
  destruct e as [i name]. cbn. destruct (ts_logical st !! name) as [S|] eqn:E.
  2: { intros [= <-]. split; [done|]. by intros [? ?]. }
  destruct (index_u32 i) as [slot|] eqn:Es; [|done]. apply index_u32_some in Es as ->. intros [= <-]. split; [split|].
  - intros name'. cbn. unfold own_logical. by rewrite lookup_alter_is_Some.
  - intros name' k Hk. apply in_logical_alter. by left.
  - intros _. apply in_logical_alter. right. rewrite E. eauto.
Qed.
Lemma add_preserved_extends st e st' :
  add_preserved st e = Some st' ->
  extends st st' /\ forall name, ps_storage e.2 = PS_PyObjectOrNull ->
    ps_logical_name e.2 = name \/ ps_storage_name e.2 = name -> is_Some (ts_logical st !! name) ->
    in_logical st' name (TL_Preserved (Z.of_nat e.1)).
Proof.
  destruct e as [i field]. cbn. case_bool_decide as Hs; cbn; [|intros [= <-]; split; [done|congruence]].
  destruct (index_u32 i) as [slot|] eqn:Es; [|done]. apply index_u32_some in Es as ->. cbn. intros [= <-].
  assert (forall n k name k', k' ∈ default ∅ (ts_logical st !! name) \/ (k' = k /\ name = n /\ is_Some (ts_logical st !! name)) ->
    k' ∈ default ∅ (own_logical n k (ts_logical st) !! name)) as H1.
  { intros n k name k' H. unfold own_logical. destruct (decide (name = n)) as [->|].
    - rewrite lookup_alter_eq. destruct (ts_logical st !! n); cbn; [set_solver|].
      destruct H as [?|(_ & _ & [? ?])]; [set_solver|done].
    - rewrite lookup_alter_ne by done. naive_solver. }
  assert (forall n k name (m : gmap string OwnerSet) k', k' ∈ default ∅ (m !! name) ->
    k' ∈ default ∅ (own_logical n k m !! name)) as H2.
  { intros n k name m k' H. unfold own_logical. destruct (decide (name = n)) as [->|].
    - rewrite lookup_alter_eq. destruct (m !! n); cbn in *; set_solver.
    - by rewrite lookup_alter_ne. }
  split; [split|].
  - intros name. cbn. unfold own_logical. by rewrite !lookup_alter_is_Some.
  - intros name k Hk. unfold in_logical. cbn. by apply H2, H2.
  - intros name _ Hn Hd. unfold in_logical. cbn. destruct Hn as [<-|<-].
    + apply H2, H1. right. eauto.
    + unfold own_logical at 1. rewrite lookup_alter_eq.
      assert (is_Some (own_logical (ps_logical_name field) (TL_Preserved (Z.of_nat i)) (ts_logical st)
        !! ps_storage_name field)) as [S HS] by (unfold own_logical; by rewrite lookup_alter_is_Some).
      rewrite HS. cbn. set_solver.
Qed.
Lemma catalog_extends_trans st1 st2 st3 : extends st1 st2 -> extends st2 st3 -> extends st1 st3.
Proof. intros [A1 B1] [A2 B2]. split; [intros; by rewrite A2|auto]. Qed.

(** The first phases give every declared parameter the slots of its name. *)
Lemma declared_storage_spec st :
  declared_storage layout blocks = Some st ->
  storage_ok st
  /\ (forall name, is_Some (ts_logical st !! name) <-> is_declared name)
  /\ (forall name i, is_declared name -> sl_stack_slots layout !! i = Some name ->
        in_logical st name (TL_Local (Z.of_nat i)))
  /\ forall name i field, is_declared name -> sl_preserved_slots layout !! i = Some field ->
       ps_storage field = PS_PyObjectOrNull -> ps_logical_name field = name \/ ps_storage_name field = name ->
       in_logical st name (TL_Preserved (Z.of_nat i)).
Proof.
  unfold declared_storage. set (st0 := fold_left _ _ _).
  destruct (declare_params_logical (concat (map blk_params blocks)) transport_default) as (E0 & EL0 & L0 & D0).
  fold st0 in E0, EL0, L0, D0. cbn in E0, EL0. intros H.
  destruct (fold_opt add_local st0 _) as [st1|] eqn:H1; [|done]. cbn [mbind option_bind] in H.
  assert (storage_ok st0) as Hok0.
  { split.
    - intros name k Hk%L0. unfold in_logical in Hk. cbn in Hk. set_solver.
    - intros k. rewrite E0. split; [by rewrite lookup_empty; intros []|].
      intros [name Hk%L0]. unfold in_logical in Hk. cbn in Hk. set_solver.
    - intros k n. by rewrite E0.
    - intros n k. by rewrite EL0. }
  assert (forall name, is_Some (ts_logical st0 !! name) <-> is_declared name) as Hdecl.
  { intros name. rewrite D0. split.
    - intros [[? ?]|(p & Hp & Hr & Hn)]; [done|]. apply list_elem_of_In, in_concat in Hp as (l & Hl & Hp).
      apply in_map_iff in Hl as (b & <- & Hb). exists b, p. split_and!; try done; by apply list_elem_of_In.
    - intros (b & p & Hb & Hp & Hr & Hn). right. exists p. split; [|done]. apply list_elem_of_In, in_concat.
      exists (blk_params b). split; [by apply in_map, list_elem_of_In|by apply list_elem_of_In]. }
  assert (storage_ok st1) as Hok1.
  { eapply fold_opt_invariant; [|exact Hok0|exact H1]. intros s [i name] s' Hin Hs Hf.
    eapply add_local_ok; [by apply elem_of_enumerate|done|done]. }
  destruct (fold_opt_reaches add_local (extends st0)
    (fun e st => is_declared e.2 -> in_logical st e.2 (TL_Local (Z.of_nat e.1)))
    st0 (enumerate (sl_stack_slots layout)) st1) as [X1 A1].
  { intros s a s' Hx Hf. destruct (add_local_extends _ _ _ Hf) as [Hx' Ha]. split; [by eapply catalog_extends_trans|].
    intros Hd%Hdecl. apply Ha. by apply Hx. }
  { intros s a s' b _ Hf Hq Hd. destruct (add_local_extends _ _ _ Hf) as [[_ Hm] _]. auto. }
  { done. }
  { exact H1. }
  destruct (fold_opt_reaches add_preserved (extends st0)
    (fun e st => forall name, is_declared name -> ps_storage e.2 = PS_PyObjectOrNull ->
       ps_logical_name e.2 = name \/ ps_storage_name e.2 = name ->
       in_logical st name (TL_Preserved (Z.of_nat e.1)))
    st1 (enumerate (sl_preserved_slots layout)) st) as [X2 A2].
  { intros s a s' Hx Hf. destruct (add_preserved_extends _ _ _ Hf) as [Hx' Ha]. split; [by eapply catalog_extends_trans|].
    intros name Hd%Hdecl Hs Hn. apply Ha; [done|done|]. by apply Hx. }
  { intros s a s' b _ Hf Hq name Hd Hs Hn. destruct (add_preserved_extends _ _ _ Hf) as [[_ Hm] _]. auto. }
  { done. }
  { exact H. }
  assert (extends st1 st) as [_ X3].
  { eapply (fold_opt_invariant add_preserved (extends st1)); [|done|exact H]. intros s a s' _ Hx Hf.
    destruct (add_preserved_extends _ _ _ Hf) as [Hx' _]. by eapply catalog_extends_trans. }
  split_and!.
  - eapply fold_opt_invariant; [|exact Hok1|exact H]. intros s [i field] s' Hin Hs Hf.
    eapply add_preserved_ok; [by apply elem_of_enumerate|done|done].
  - intros name. destruct X2 as [X2 _]. by rewrite X2, Hdecl.
  - intros name i Hd Hi. apply X3. by apply (A1 (i, name)); [apply elem_of_enumerate|].
  - intros name i field Hd Hi Hs Hn. by apply (A2 (i, field)); [apply elem_of_enumerate|..].
Qed.

(** ** The copies *)

Definition closed_under (st : TransportStorage) (copy : ResolvedName * ResolvedName) : Prop :=
  forall name k k', from_name copy.1 = Some k -> in_logical st name k ->
    from_name copy.2 = Some k' -> admits layout k' = Some true -> in_logical st name k'.

Lemma ts_key_some st name k : ts_key st name = Some k <-> from_name name = Some k /\ is_Some (ts_owners st !! k).
Proof.
  unfold ts_key. destruct (from_name name) as [k'|]; cbn; [|naive_solver].
  case_bool_decide; naive_solver.
Qed.

Lemma in_logical_carry st source destination owners locals name k :
  in_logical (mkTransportStorage owners (carry source destination <$> ts_logical st) locals) name k
  <-> in_logical st name k \/ (k = destination /\ in_logical st name source).
Proof.
  unfold in_logical. cbn. rewrite lookup_fmap. destruct (ts_logical st !! name) as [S|]; cbn; [|set_solver].
  unfold carry. case_bool_decide; set_solver.
Qed.

Lemma copy_step_spec changed st copy changed' st' :
  copy ∈ copies -> storage_ok st -> copy_step layout (changed, st) copy = Some (changed', st') ->
  storage_ok st' /\ extends st st' /\ (dom (ts_owners st) ⊆ dom (ts_owners st'))
  /\ (changed = true -> changed' = true)
  /\ (changed' = false -> ts_owners st' = ts_owners st /\ ts_logical st' = ts_logical st /\ closed_under st copy)
  /\ (changed = false -> changed' = true -> exists k, from_name copy.2 = Some k
      /\ ((k ∉ dom (ts_owners st) /\ k ∈ dom (ts_owners st'))
          \/ exists name, ~ in_logical st name k /\ in_logical st' name k)).
Proof.
  intros Hc [So Ow Na Lo]. cbn. destruct (ts_key st copy.1) as [source|] eqn:Ek.
  2: { intros [= <- <-]. split_and!; try done; [|congruence]. intros ->. split_and!; [done|done|].
       intros name k k' Hk Hin _ _. assert (ts_key st copy.1 = Some k) by (apply ts_key_some; split; [done|apply Ow; eauto]).
       congruence. }
  apply ts_key_some in Ek as [Efrom Esrc].
  destruct (from_name copy.2) as [destination|] eqn:Ed; [|done]. cbn.
  destruct (admits layout destination) as [[]|] eqn:Ea; [| |done]; cbn.
  2: { intros [= <- <-]. split_and!; try done; [|congruence]. intros ->. split_and!; [done|done|].
       intros name k k' _ _ Hk' Ha. rewrite Ed in Hk'. injection Hk' as <-. congruence. }
  intros [= <- <-]. set (vacant := negb _). set (locals := match destination with TL_Local _ => _ | TL_Preserved _ => _ end).
  set (owners := if vacant then _ else _).
  pose proof (in_logical_carry st source destination owners locals) as Hin.
  assert (forall k, is_Some (owners !! k) <-> is_Some (ts_owners st !! k) \/ k = destination) as Hown.
  { intros k. unfold owners, vacant. case_bool_decide as Hv; cbn.
    - split; [auto|]. by intros [?| ->].
    - rewrite lookup_insert_is_Some. destruct (decide (destination = k)) as [->|]; naive_solver. }
  assert (exists name, in_logical st name source) as [name0 Hname0] by (by apply Ow).
  split_and!.
  - split.
    + intros name k [Hk|[-> Hk]]%Hin; [by apply So|]. destruct copy as [c1 c2].
      by eapply Owns_Copy; [exact Hc|exact Efrom|apply So|exact Ed|].
    + intros k. rewrite Hown, Ow. setoid_rewrite Hin. split; [|naive_solver].
      intros [[n Hn]| ->]; [eauto|]. exists name0. auto.
    + intros k n Hk. unfold owners in Hk. cbn in Hk. destruct vacant; [|by apply Na].
      apply lookup_insert_Some in Hk as [[<- <-]|[_ Hk]]; [done|by apply Na].
    + intros n k Hk. cbn [ts_owners ts_locals] in *. apply Hown. unfold locals in Hk.
      destruct destination; [|left; by eapply Lo].
      apply lookup_insert_Some in Hk as [[_ <-]|[_ Hk%Lo]]; [by right|by left].
  - split; [intros name; cbn; by rewrite lookup_fmap, fmap_is_Some|]. intros name k Hk. apply Hin. by left.
  - intros k. rewrite !elem_of_dom. cbn. rewrite Hown. auto.
  - by intros ->.
  - intros [[_ Hv]%orb_false_iff Hl]%orb_false_iff. apply negb_false_iff in Hl. bool_inv. split_and!.
    + unfold owners. by rewrite Hv.
    + done.
    + intros name k k' Hk Hkin Hk' _. rewrite Ed in Hk'. injection Hk' as <-.
      rewrite Efrom in Hk. injection Hk as <-.
      assert (in_logical (mkTransportStorage owners (carry source destination <$> ts_logical st) locals) name destination) as Hd
        by (apply Hin; auto).
      rewrite Hl in Hd. exact Hd.
  - intros -> [Hv|Hl]%orb_true_iff; exists destination; (split; [done|]).
    + left. cbn in Hv. rewrite !elem_of_dom. cbn. rewrite Hown. unfold vacant in Hv. bool_inv. auto.
    + right. bool_inv. assert (exists name, ~ in_logical st name destination /\ in_logical st name source) as (name & Hn & Hs).
      { destruct (decide (map_Exists (fun _ S => destination ∉ S /\ source ∈ S) (ts_logical st))) as [(name & S & Hs & H1 & H2)|Hno].
        - exists name. unfold in_logical. by rewrite Hs.
        - exfalso. apply Hl. apply map_eq. intros name. rewrite lookup_fmap. destruct (ts_logical st !! name) as [S|] eqn:ES; [|done].
          cbn. f_equal. unfold carry. case_bool_decide; [|done]. destruct (decide (destination ∈ S)); [set_solver|].
          exfalso. apply Hno. exists name, S. done. }
      exists name. split; [done|]. apply Hin. auto.
Qed.

(** ** The loop ends *)

Section loop.
Context (names : list string).
Definition destinations : OwnerSet := list_to_set (omap (fun copy => from_name copy.2) copies).
Definition logical_at (st : TransportStorage) (name : string) : OwnerSet := default ∅ (ts_logical st !! name).
Definition transport_weight (st : TransportStorage) : nat :=
  (size (destinations ∩ dom (ts_owners st))
   + sum_list (map (fun name => size (destinations ∩ logical_at st name)) names))%nat.
Definition named (st : TransportStorage) : Prop := forall name, is_Some (ts_logical st !! name) -> name ∈ names.

Lemma destinations_size : (size destinations <= length copies)%nat.
Proof.
  unfold destinations. generalize copies as l. induction l as [|c l IH]; cbn; [by rewrite size_empty|].
  destruct (from_name c.2) as [k|]; cbn; [|lia]. rewrite size_union_alt, size_singleton.
  set (X := list_to_set _ : OwnerSet) in *.
  assert (size (X ∖ {[k]}) <= size X)%nat; [|lia]. apply subseteq_size. set_solver.
Qed.
Lemma transport_weight_bound st : (transport_weight st <= length copies * S (length names))%nat.
Proof.
  pose proof destinations_size as Hd. unfold transport_weight.
  assert (forall X : OwnerSet, (size (destinations ∩ X) <= length copies)%nat) as Hs.
  { intros X. etrans; [|exact Hd]. apply subseteq_size. set_solver. }
  pose proof (Hs (dom (ts_owners st))).
  enough (sum_list (map (fun name => size (destinations ∩ logical_at st name)) names) <= length names * length copies)%nat by lia.
  generalize names as l. induction l as [|n l IH]; cbn; [lia|]. specialize (Hs (logical_at st n)). lia.
Qed.

Lemma transport_weight_mono st st' :
  extends st st' -> dom (ts_owners st) ⊆ dom (ts_owners st') -> (transport_weight st <= transport_weight st')%nat.
Proof.
  intros [_ He] Ho. unfold transport_weight.
  assert (size (destinations ∩ dom (ts_owners st)) <= size (destinations ∩ dom (ts_owners st')))%nat
    by (apply subseteq_size; set_solver).
  enough (forall l, sum_list (map (fun name => size (destinations ∩ logical_at st name)) l)
    <= sum_list (map (fun name => size (destinations ∩ logical_at st' name)) l))%nat as Hl by (specialize (Hl names); lia).
  induction l as [|n l IH]; cbn; [lia|].
  assert (size (destinations ∩ logical_at st n) <= size (destinations ∩ logical_at st' n))%nat; [|lia].
  apply subseteq_size. intros x [Hx Hn]%elem_of_intersection. apply elem_of_intersection. split; [done|]. by apply He.
Qed.

Lemma transport_weight_lt st st' copy k :
  named st -> extends st st' -> dom (ts_owners st) ⊆ dom (ts_owners st') -> copy ∈ copies -> from_name copy.2 = Some k ->
  (k ∉ dom (ts_owners st) /\ k ∈ dom (ts_owners st')) \/ (exists name, ~ in_logical st name k /\ in_logical st' name k) ->
  (transport_weight st < transport_weight st')%nat.
Proof.
  intros Hn He Ho Hc Hk H. assert (k ∈ destinations) as Hd.
  { apply elem_of_list_to_set, list_elem_of_omap. eauto. }
  destruct He as [Hdom He]. unfold transport_weight.
  assert (forall n, size (destinations ∩ logical_at st n) <= size (destinations ∩ logical_at st' n))%nat as Hle.
  { intros n. apply subseteq_size. intros x [Hx Hin]%elem_of_intersection. apply elem_of_intersection. split; [done|]. by apply He. }
  assert (size (destinations ∩ dom (ts_owners st)) <= size (destinations ∩ dom (ts_owners st')))%nat as Hle2
    by (apply subseteq_size; set_solver).
  destruct H as [[H1 H2]|(name & H1 & H2)].
  - assert (size (destinations ∩ dom (ts_owners st)) < size (destinations ∩ dom (ts_owners st')))%nat.
    { apply subset_size. set_solver. }
    enough (forall l, sum_list (map (fun name => size (destinations ∩ logical_at st name)) l)
      <= sum_list (map (fun name => size (destinations ∩ logical_at st' name)) l))%nat as Hl by (specialize (Hl names); lia).
    induction l as [|n l IH]; cbn; [lia|]. specialize (Hle n). lia.
  - enough (sum_list (map (fun name => size (destinations ∩ logical_at st name)) names)
      < sum_list (map (fun name => size (destinations ∩ logical_at st' name)) names))%nat by lia.
    apply (sum_list_lt _ _ names name); [done| |].
    + apply Hn. apply Hdom. unfold in_logical in H2. destruct (ts_logical st' !! name); [done|cbn in H2; set_solver].
    + apply subset_size. unfold in_logical in *. fold (logical_at st name) in H1. fold (logical_at st' name) in H2.
      assert (logical_at st name ⊆ logical_at st' name) by (intros x Hx; by apply He). set_solver.
Qed.

Lemma closed_under_same st st' copy :
  ts_logical st' = ts_logical st -> closed_under st' copy -> closed_under st copy.
Proof. intros E H name k k' H1 H2 H3 H4. unfold in_logical in *. rewrite <- E in *. by eapply H. Qed.

Lemma copy_round_spec l changed st changed' st' :
  l ⊆ copies -> storage_ok st -> named st -> fold_opt (copy_step layout) (changed, st) l = Some (changed', st') ->
  storage_ok st' /\ extends st st' /\ dom (ts_owners st) ⊆ dom (ts_owners st')
  /\ (changed = true -> changed' = true)
  /\ (changed' = false -> ts_logical st' = ts_logical st /\ forall c, c ∈ l -> closed_under st c)
  /\ (changed = false -> changed' = true -> (transport_weight st < transport_weight st')%nat).
Proof.
  revert changed st. induction l as [|c l IH]; intros changed st Hl Hok Hn H; cbn [fold_opt] in H.
  { simplify_eq. split_and!; try done; [|congruence]. intros _. split; [done|]. by intros c ?%not_elem_of_nil. }
  destruct (copy_step layout (changed, st) c) as [[ch1 st1]|] eqn:E; [|done]. cbn [mbind option_bind] in H.
  assert (c ∈ copies) as Hc by (apply Hl; by left).
  destruct (copy_step_spec _ _ _ _ _ Hc Hok E) as (O1 & X1 & D1 & K1 & S1 & G1).
  destruct (IH ch1 st1) as (O2 & X2 & D2 & K2 & S2 & G2); [set_solver|done| |done|].
  { intros name Hs. apply Hn. by apply X1. }
  split_and!; [done|by eapply catalog_extends_trans|set_solver|auto| |].
  - intros Hf. destruct (S2 Hf) as [E2 C2]. assert (ch1 = false) as H1 by (destruct ch1; [rewrite K2 in Hf; done|done]).
    destruct (S1 H1) as (_ & E1 & C1). split; [congruence|]. intros c' [->|Hc']%elem_of_cons; [done|].
    eapply closed_under_same; [exact E1|by apply C2].
  - intros -> ->. destruct ch1.
    + destruct (G1 eq_refl eq_refl) as (k & Hk & Hg). pose proof (transport_weight_lt _ _ _ _ Hn X1 D1 Hc Hk Hg).
      pose proof (transport_weight_mono _ _ X2 D2). lia.
    + specialize (G2 eq_refl eq_refl). pose proof (transport_weight_mono _ _ X1 D1). lia.
Qed.

Lemma copy_loop_spec fuel st r :
  storage_ok st -> named st -> (length copies * S (length names) < transport_weight st + fuel)%nat ->
  copy_loop fuel layout copies st = Some r ->
  exists st', r = Some st' /\ storage_ok st' /\ extends st st' /\ forall c, c ∈ copies -> closed_under st' c.
Proof.
  revert st. induction fuel as [|fuel IH]; intros st Hok Hn Hf H.
  { pose proof (transport_weight_bound st). lia. }
  cbn in H. destruct (fold_opt _ _ _) as [[changed st1]|] eqn:E; [|done]. cbn in H.
  destruct (copy_round_spec _ _ _ _ _ ltac:(done) Hok Hn E) as (O & X & D & _ & S & G). destruct changed.
  - destruct (IH st1) as (st' & -> & O' & X' & C); [done| | |done|].
    + intros name Hs. apply Hn. by apply X.
    + specialize (G eq_refl eq_refl). lia.
    + exists st'. split_and!; [done|done|by eapply catalog_extends_trans|done].
  - simplify_eq. exists st1. split_and!; [done|done|done|]. destruct (S eq_refl) as [El C]. intros c Hc.
    eapply closed_under_same; [symmetry; exact El|by apply C].
Qed.
End loop.
End owners.

Lemma transport_storage_spec f layout copies r :
  rf_storage_layout f = Some layout -> block_parameter_transport_copies (rf_blocks f) = Some copies ->
  transport_storage_new f = Some r ->
  exists st, r = Some st
    /\ (forall name, is_Some (ts_logical st !! name) <-> is_declared (rf_blocks f) name)
    /\ (forall name owners, ts_logical st !! name = Some owners ->
          forall k, k ∈ owners <-> owns layout copies name k)
    /\ (forall k, is_Some (ts_owners st !! k)
          <-> exists name, is_declared (rf_blocks f) name /\ owns layout copies name k)
    /\ (forall k n, ts_owners st !! k = Some n -> from_name n = Some k)
    /\ forall name k, ts_locals st !! name = Some k -> is_Some (ts_owners st !! k).
Proof.
  intros El Ec H. unfold transport_storage_new in H. rewrite El, Ec in H.
  destruct (declared_storage layout (rf_blocks f)) as [st0|] eqn:E0; [|done]. cbn [mbind option_bind] in H.
  destruct (declared_storage_spec layout (rf_blocks f) copies st0 E0) as (O0 & D0 & L0 & P0).
  destruct (copy_loop_spec layout copies (elements (dom (ts_logical st0))) (copy_fuel copies st0) st0 r O0)
    as (st & -> & O & X & C).
  { intros name [S HS]. by apply elem_of_elements, elem_of_dom. }
  { unfold copy_fuel. change (length (elements (dom (ts_logical st0)))) with (size (dom (ts_logical st0))).
    rewrite size_dom. lia. }
  { exact H. }
  exists st. split; [done|]. pose proof O as [So Ow Na Lo].
  assert (forall name, is_Some (ts_logical st !! name) <-> is_declared (rf_blocks f) name) as Hdecl.
  { intros name. destruct X as [X _]. by rewrite X, D0. }
  assert (forall name k, is_declared (rf_blocks f) name -> owns layout copies name k -> in_logical st name k) as Hown.
  { intros name k Hd. induction 1 as [i Hi|i field Hi Hs Hn|source destination k k' Hc Hk _ IH Hk' Ha].
    - by apply X, L0.
    - apply X. by eapply P0.
    - by eapply (C (source, destination)). }
  split_and!; [exact Hdecl| | |exact Na|exact Lo].
  - intros name owners Hn k. specialize (So name k). specialize (Hown name k). unfold in_logical in *. rewrite Hn in *. cbn in *.
    split; [done|]. apply Hown. apply Hdecl. by rewrite Hn.
  - intros k. rewrite Ow. split; intros [name Hk]; exists name.
    + split; [|by apply So]. apply Hdecl. unfold in_logical in Hk. destruct (ts_logical st !! name); [done|cbn in Hk; set_solver].
    + destruct Hk. by apply Hown.
Qed.

(** C25: The construction of the transport catalogue ends, and is exact: a parameter of an
    exception or finally role is declared in it, and the slots it lists for that parameter are
    the stack slots and preserved object slots of that name and those the marked raw copies
    reach from them; the owners are the slots of all declared parameters, each with a name at
    that slot. *)
Theorem transport_owners_exact f layout copies r :
  rf_storage_layout f = Some layout -> block_parameter_transport_copies (rf_blocks f) = Some copies ->
  transport_storage_new f = Some r ->
  exists st, r = Some st
    /\ (forall name, is_Some (ts_logical st !! name) <-> is_declared (rf_blocks f) name)
    /\ (forall name owners, ts_logical st !! name = Some owners ->
          forall k, k ∈ owners <-> owns layout copies name k)
    /\ (forall k, is_Some (ts_owners st !! k)
          <-> exists name, is_declared (rf_blocks f) name /\ owns layout copies name k)
    /\ forall k n, ts_owners st !! k = Some n -> from_name n = Some k.
Proof.
  intros El Ec H. destruct (transport_storage_spec f layout copies r El Ec H) as (st & ? & ? & ? & ? & ? & _).
  exists st. by split_and!.
Qed.

Definition transport_demo : ResolvedFunction :=
  mkResolvedFunction (from_raw_parts 0 1) "f" FK_Generator (mkFunctionNameGen 0) (Some RolesDemo.layout) [RolesDemo.body].
Lemma transport_owners_exact_witness :
  exists st owners, transport_storage_new transport_demo = Some (Some st) /\ ts_logical st !! "exc" = Some owners
    /\ TL_Local 1 ∈ owners.
Proof.
  destruct (transport_storage_new transport_demo) as [r|] eqn:E; [|by vm_compute in E].
  destruct (transport_owners_exact transport_demo RolesDemo.layout
    [(RolesDemo.saved, RolesDemo.local 1 "back"); (RolesDemo.local 0 "exc", RolesDemo.saved)] r)
    as (st & -> & Hd & Ho & _); [reflexivity|by vm_compute|exact E|].
  assert (is_Some (ts_logical st !! "exc")) as [owners Hown].
  { apply Hd. exists RolesDemo.body, RolesDemo.exc. split_and!; [by left|by left|done|done]. }
  exists st, owners. split_and!; [done|done|]. apply (Ho _ _ Hown).
  eapply (Owns_Copy _ _ _ RolesDemo.saved (RolesDemo.local 1 "back")); [by left|reflexivity| |reflexivity|reflexivity].
  eapply (Owns_Copy _ _ _ (RolesDemo.local 0 "exc") RolesDemo.saved); [right; by left|reflexivity| |reflexivity|reflexivity].
  by apply (Owns_Local _ _ _ 0).
Defined.
