(* ===== verification/TransportLifetime.v ===== *)
(** * Lifetimes of exception and finally transports

    crates/soac_lowering/src/passes/blockpy_to_bb/exception_pass/transport_lifetime.rs: a slot
    that owns a caught or pending object is reset to [None] where no later read or handler entry
    needs it.

    The hash tables [blocks], [states], [inputs] and [live] are [gmap]s.  The analysis looks up
    the target of every edge of every block and panics on one that is not there; the model
    checks the targets first ([known_targets]). *)

From stdpp Require Import gmap.
From S2P Require Import Prelude Order Collections Ids Cfg Names Instr Layout BbShape Resolved Roles Flow Transport.

Local Open Scope Z_scope.

Notation Blocks := (gmap BlockLabel (Block InstrResolved)).

(** [InstrResolved::constant_none()]. *)
Definition none_load : InstrResolved :=
  R_Node (Op_Load (mkResolvedName "NONE" (NL_RuntimeName RN_None)) None) [].
(** [Store::new(name, constant_none())]. *)
Definition reset (name : ResolvedName) : InstrResolved := R_Node (Op_Store name SL_Frame SP_Binding) [none_load].

Definition normal_edges (b : Block InstrResolved) : list BlockEdge :=
  match blk_term b with
  | BT_Jump edge => [edge]
  | BT_If branch => map edge_new [ti_then_label branch; ti_else_label branch]
  | BT_BranchTable branch => map edge_new (tb_targets branch ++ [tb_default_label branch])
  | BT_Return _ | BT_GeneratorReturn _ | BT_Raise _ => []
  end.

Definition is_region (b : Block InstrResolved) : bool :=
  bool_decide (bc_handled_exception (blk_extra b) = HE_Regions).
Definition block_handlers (b : Block InstrResolved) : list string :=
  map bp_name (handled_exception_params (blk_params b) (blk_extra b)).
Definition block_pending (b : Block InstrResolved) : list string :=
  map bp_name (pending_abrupt_payload_params (blk_params b) (blk_extra b)).

Section lifetime.
Context (resumes : gset BlockLabel).

(** The flag marks the edge of a suspension. *)
Definition lifetime_edges (b : Block InstrResolved) : list (BlockEdge * bool) :=
  map (fun edge => (edge, false))
    (List.filter (fun edge => negb (bool_decide (be_target edge ∈ resumes))) (normal_edges b))
  ++ option_list ((fun resume => (edge_new resume, true)) <$> bc_suspension_resume (blk_extra b)).

(** ** Active handlers *)

Record ScopeState : Type := mkScopeState { sc_active : list string; sc_pending : gset string }.
#[global] Instance ScopeState_eq_dec : EqDecision ScopeState.
Proof. solve_decision. Defined.
Notation States := (gmap BlockLabel ScopeState).
Notation Predecessors := (gmap BlockLabel (list (BlockLabel * bool))).

Definition add_predecessor (target source : BlockLabel) (exceptional : bool) (m : Predecessors) : Predecessors :=
  <[target := default [] (m !! target) ++ [(source, exceptional)]]> m.
Definition block_predecessors (m : Predecessors) (b : Block InstrResolved) : Predecessors :=
  let m := fold_left (fun m edge => add_predecessor (be_target edge.1) (blk_label b) false m)
             (lifetime_edges b) m in
  match blk_exc_edge b with
  | Some edge => add_predecessor (be_target edge) (blk_label b) true m
  | None => m
  end.
Definition all_handlers (blocks : list (Block InstrResolved)) : list string :=
  fold_left (fun s name => bset_insert name s) (concat (map block_handlers blocks)) [].
Definition initial_scope (all : list string) (b : Block InstrResolved) : ScopeState :=
  mkScopeState
    (match bc_handled_exception (blk_extra b) with
     | HE_Regions | HE_Unwind => block_handlers b
     | HE_Preserve => all
     | HE_Terminal => []
     end) ∅.

(** [zip(..).take_while(|(l, r)| l == r).count()] and [truncate]. *)
Fixpoint common_prefix (l1 l2 : list string) : list string :=
  match l1, l2 with
  | x :: l1, y :: l2 => if bool_decide (x = y) then x :: common_prefix l1 l2 else []
  | _, _ => []
  end.
Definition state_of (states : States) (l : BlockLabel) : ScopeState := default (mkScopeState [] ∅) (states !! l).
Definition next_scope (entry : BlockLabel) (predecessors : Predecessors) (states : States)
    (b : Block InstrResolved) : ScopeState :=
  let incoming := default [] (predecessors !! blk_label b) in
  let first := match incoming with (source, _) :: _ => sc_active (state_of states source) | [] => [] end in
  let active := if bool_decide (blk_label b = entry) || bool_decide (predecessors !! blk_label b = None)
                then [] else first in
  let active := fold_left (fun active p => common_prefix active (sc_active (state_of states p.1))) incoming active in
  let pending := fold_left (fun pending p =>
    if p.2 : bool then match last (block_handlers b) with Some name => {[name]} ∪ pending | None => pending end
    else pending ∪ sc_pending (state_of states p.1)) incoming (∅ : gset string) in
  mkScopeState (if bool_decide (bc_handled_exception (blk_extra b) = HE_Unwind) then block_handlers b else active)
    pending.
Definition inherits (b : Block InstrResolved) : bool :=
  match bc_handled_exception (blk_extra b) with HE_Preserve | HE_Unwind => true | _ => false end.
Definition scope_step (entry : BlockLabel) (predecessors : Predecessors) (state : bool * States)
    (b : Block InstrResolved) : bool * States :=
  let (changed, states) := state in
  if inherits b then
    let next := next_scope entry predecessors states b in
    if bool_decide (state_of states (blk_label b) = next) then state
    else (true, <[blk_label b := next]> states)
  else state.
Fixpoint scope_loop (fuel : nat) (entry : BlockLabel) (predecessors : Predecessors)
    (blocks : list (Block InstrResolved)) (states : States) : option States :=
  match fuel with
  | O => None
  | S fuel =>
      let (changed, states) := fold_left (scope_step entry predecessors) blocks (false, states) in
      if changed then scope_loop fuel entry predecessors blocks states else Some states
  end.
(** A round without a change ends the loop; see [scope_states_total]. *)
Definition scope_fuel (blocks : list (Block InstrResolved)) : nat :=
  S (S (length blocks) * S (length (all_handlers blocks)) + length blocks * S (length (all_handlers blocks)))%nat.
Definition scope_states (blocks : list (Block InstrResolved)) : option States :=
  entry ← head blocks;
  let predecessors := fold_left block_predecessors blocks ∅ in
  let all := all_handlers blocks in
  scope_loop (scope_fuel blocks) (blk_label entry) predecessors blocks
    (collect_map (map (fun b => (blk_label b, initial_scope all b)) blocks)).

(** ** Liveness *)

Context (catalog : TransportStorage) (blocks : Blocks) (scopes : States).
Notation Inputs := (gmap BlockLabel OwnerSet).

(** [extend] by an [Option]. *)
Definition extend_opt (o : option TransportLocation) (s : OwnerSet) : OwnerSet :=
  match o with Some k => {[k]} ∪ s | None => s end.
Definition remove_opt (o : option TransportLocation) (s : OwnerSet) : OwnerSet :=
  match o with Some k => s ∖ {[k]} | None => s end.

(** The loop over the handlers of a region: [common] and the owners entry requires. *)
Definition entry_requires (source : ScopeState) (handlers : list string) (required : OwnerSet) : OwnerSet :=
  snd (fold_left (fun state entry =>
    let '(common, required) := state in
    let '(index, name) := entry in
    let common := common && bool_decide (sc_active source !! index = Some name)
                  && negb (bool_decide (name ∈ sc_pending source)) in
    (common, if common then required else extend_opt (ts_parameter catalog name) required))
    (enumerate handlers) (true, required)).
Definition edge_params (target : Block InstrResolved) (edge : BlockEdge) : list (BlockParam * BlockArg) :=
  zip (drop (length (blk_params target) - length (be_args edge)) (blk_params target)) (be_args edge).
Definition transport_arg (required : OwnerSet) (result : OwnerSet) (pair : BlockParam * BlockArg) : OwnerSet :=
  let target_owner := ts_parameter catalog (bp_name pair.1) in
  let result := remove_opt target_owner result in
  match pair.2 with
  | BA_Name name =>
      if from_option (fun owner => bool_decide (owner ∈ required)) true target_owner
      then extend_opt (ts_parameter catalog name) result else result
  | _ => result
  end.
Definition transport_edge_live (edge : BlockEdge) (source : ScopeState) (inputs : Inputs) : OwnerSet :=
  match blocks !! be_target edge with
  | None => ∅
  | Some target =>
      let required := default ∅ (inputs !! be_target edge) in
      let required := if is_region target then entry_requires source (block_handlers target) required
                      else required in
      fold_left (transport_arg required) (edge_params target edge) required
  end.

Fixpoint transport_transfer (i : InstrResolved) (live : OwnerSet) : OwnerSet :=
  match i with
  | R_Literal _ => live
  | R_Node op children =>
      match op with
      | Op_Load name _ => extend_opt (ts_key catalog name) live
      | Op_Store name _ purpose =>
          match copy_source catalog name purpose children, ts_key catalog name with
          | Some source, Some destination =>
              if bool_decide (destination ∈ live) then {[source]} ∪ (live ∖ {[destination]}) else live
          | _, owner => fold_left (fun live c => transport_transfer c live) children (remove_opt owner live)
          end
      | Op_Del name _ => remove_opt (ts_key catalog name) live
      | _ => fold_left (fun live c => transport_transfer c live) children live
      end
  end.

Definition pending_live (b : Block InstrResolved) : OwnerSet :=
  list_to_set (concat (map (for_logical catalog) (block_pending b))).
Definition saved_owners (s : OwnerSet) : OwnerSet := filter (fun owner => is_preserved owner = true) s.
Definition lifetime_edge_live (b : Block InstrResolved) (inputs : Inputs) (edge : BlockEdge * bool) : OwnerSet :=
  if edge.2 then saved_owners (default ∅ (inputs !! be_target edge.1))
  else transport_edge_live edge.1 (state_of scopes (blk_label b)) inputs.
Definition transport_exceptional (inputs : Inputs) (b : Block InstrResolved) : OwnerSet :=
  from_option (fun edge => transport_edge_live edge (state_of scopes (blk_label b)) inputs) ∅ (blk_exc_edge b).
Definition transport_term_live (inputs : Inputs) (b : Block InstrResolved) : OwnerSet :=
  let live := pending_live b ∪ ⋃ (map (lifetime_edge_live b inputs) (lifetime_edges b)) in
  fold_left (fun live c => transport_transfer c live) (resolved_term_instrs (blk_term b)) live
  ∪ transport_exceptional inputs b.
(** The points of a block: before each instruction of [body], and before the terminator. *)
Fixpoint points_from (inputs : Inputs) (b : Block InstrResolved) (body : list InstrResolved) : list OwnerSet :=
  match body with
  | [] => [transport_term_live inputs b]
  | i :: body =>
      let points := points_from inputs b body in
      (transport_transfer i (default ∅ (head points)) ∪ transport_exceptional inputs b ∪ pending_live b) :: points
  end.
Definition block_liveness (inputs : Inputs) (b : Block InstrResolved) : list OwnerSet :=
  points_from inputs b (blk_body b).
Definition block_input (inputs : Inputs) (b : Block InstrResolved) : OwnerSet :=
  default ∅ (head (block_liveness inputs b)).
Definition live_points (l : list (Block InstrResolved)) : option (gmap BlockLabel (list OwnerSet)) :=
  inputs ← settle_loop blk_label block_input (settle_fuel l (dom (ts_owners catalog))) l ∅;
  Some (collect_map (map (fun b => (blk_label b, block_liveness inputs b)) l)).

(** ** Ownership *)

(** [owned] and [prefixes]; children come first. *)
Fixpoint transfer_owned (i : InstrResolved) (state : OwnerSet * OwnerSet) : OwnerSet * OwnerSet :=
  match i with
  | R_Literal _ => (state.1, state.2 ∪ state.1)
  | R_Node op children =>
      let (owned, prefixes) := fold_left (fun state c => transfer_owned c state) children state in
      let owned :=
        match op with
        | Op_Store name _ _ =>
            match ts_key catalog name with
            | Some destination =>
                let has_value :=
                  match children with
                  | [R_Node (Op_Load source _) _] =>
                      if is_runtime_symbol source "NONE" then false
                      else match ts_key catalog source with
                           | Some k => bool_decide (k ∈ owned)
                           | None => true
                           end
                  | _ => true
                  end in
                if has_value then {[destination]} ∪ (owned ∖ {[destination]}) else owned ∖ {[destination]}
            | None => owned
            end
        | Op_Del name _ => remove_opt (ts_key catalog name) owned
        | _ => owned
        end in
      (owned, prefixes ∪ owned)
  end.
Definition owned_arg (owned next : OwnerSet) (pair : BlockParam * BlockArg) : OwnerSet :=
  match ts_parameter catalog (bp_name pair.1) with
  | None => next
  | Some destination =>
      let has_value :=
        match pair.2 with
        | BA_Name name =>
            match ts_parameter catalog name with Some k => bool_decide (k ∈ owned) | None => true end
        | BA_CurrentException => true
        | BA_None | BA_AbruptKind _ => false
        end in
      if has_value then {[destination]} ∪ (next ∖ {[destination]}) else next ∖ {[destination]}
  end.
Definition edge_owned (edge : BlockEdge) (owned : OwnerSet) : OwnerSet :=
  match blocks !! be_target edge with
  | None => owned
  | Some target => fold_left (owned_arg owned) (edge_params target edge) owned
  end.

(** The owners to reset at a point, and those that remain. *)
Definition retire_at_point (b : Block InstrResolved) (owned live : OwnerSet) : OwnerSet * OwnerSet :=
  if is_region b then (owned ∖ live, owned ∩ live) else (∅, owned).

Definition propagate (edge : BlockEdge) (source : OwnerSet) (flow : Inputs * list BlockLabel) :
    Inputs * list BlockLabel :=
  let (inputs, work) := flow in
  let incoming := edge_owned edge source in
  match inputs !! be_target edge with
  | Some previous =>
      let next := previous ∪ incoming in
      (<[be_target edge := next]> inputs,
       if bool_decide (size next = size previous) then work else work ++ [be_target edge])
  | None => (<[be_target edge := incoming]> inputs, work ++ [be_target edge])
  end.
Definition propagate_opt (edge : option BlockEdge) (source : OwnerSet) (flow : Inputs * list BlockLabel) :
    Inputs * list BlockLabel :=
  match edge with Some edge => propagate edge source flow | None => flow end.

Section ownership.
Context (live : gmap BlockLabel (list OwnerSet)).

Definition point_at (l : BlockLabel) (index : nat) : OwnerSet :=
  default ∅ (default [] (live !! l) !! index).
Definition last_point (l : BlockLabel) : OwnerSet := default ∅ (last (default [] (live !! l))).

Definition owned_step (b : Block InstrResolved) (state : OwnerSet * (Inputs * list BlockLabel))
    (entry : nat * InstrResolved) : OwnerSet * (Inputs * list BlockLabel) :=
  let '(owned, flow) := state in
  let '(index, i) := entry in
  let owned := (retire_at_point b owned (point_at (blk_label b) index)).2 in
  let '(owned, prefixes) := transfer_owned i (owned, owned) in
  (owned, propagate_opt (blk_exc_edge b) prefixes flow).
Definition owned_block (b : Block InstrResolved) (owned : OwnerSet) (flow : Inputs * list BlockLabel) :
    Inputs * list BlockLabel :=
  let '(owned, flow) := fold_left (owned_step b) (enumerate (blk_body b)) (owned, flow) in
  let owned := (retire_at_point b owned (last_point (blk_label b))).2 in
  let '(owned, prefixes) :=
    fold_left (fun state i => transfer_owned i state) (resolved_term_instrs (blk_term b)) (owned, owned) in
  let flow := propagate_opt (blk_exc_edge b) prefixes flow in
  fold_left (fun flow edge =>
    propagate edge.1 (if edge.2 : bool then saved_owners owned else owned) flow) (lifetime_edges b) flow.
(** Outer [None]: a missing block; inner [None]: the fuel is spent. *)
Fixpoint owned_loop (fuel : nat) (flow : Inputs * list BlockLabel) : option (option Inputs) :=
  match fuel with
  | O => Some None
  | S fuel =>
      let (inputs, work) := flow in
      match work with
      | [] => Some (Some inputs)
      | label :: work =>
          b ← blocks !! label;
          owned ← inputs !! label;
          owned_loop fuel (owned_block b owned (inputs, work))
      end
  end.
(** A label enters the queue when its set is made or grows. *)
Definition owned_fuel : nat := S (S (size blocks * S (size (dom (ts_owners catalog))))).
Definition owned_inputs (entry : BlockLabel) : option (option Inputs) :=
  owned_loop owned_fuel ({[entry := ts_preserved catalog]}, [entry]).

(** ** Resetting dead owners *)

(** A marked copy to a destination that is dead afterwards copies [None]. *)
Definition kill_copy (l : BlockLabel) (entry : nat * InstrResolved) : InstrResolved :=
  let (index, i) := entry in
  match i with
  | R_Node (Op_Store name lifetime purpose) children =>
      match copy_source catalog name purpose children, ts_key catalog name with
      | Some _, Some destination =>
          if bool_decide (destination ∈ point_at l (S index)) then i
          else R_Node (Op_Store name lifetime purpose) [none_load]
      | _, _ => i
      end
  | _ => i
  end.
Definition with_body (b : Block InstrResolved) (body : list InstrResolved) : Block InstrResolved :=
  mkBlock (blk_label b) body (blk_term b) (blk_params b) (blk_exc_edge b) (blk_extra b).
Definition kill_copies (b : Block InstrResolved) : Block InstrResolved :=
  with_body b (map (kill_copy (blk_label b)) (enumerate (blk_body b))).
Definition without_resume (b : Block InstrResolved) : Block InstrResolved :=
  mkBlock (blk_label b) (blk_body b) (blk_term b) (blk_params b) (blk_exc_edge b)
    (mkBlockContext (bc_handled_exception (blk_extra b)) None).

Definition resets (dead : OwnerSet) : list InstrResolved :=
  map reset (omap (ts_name catalog) (in_order dead)).
Definition retire_step (b : Block InstrResolved) (state : OwnerSet * list InstrResolved)
    (entry : nat * InstrResolved) : OwnerSet * list InstrResolved :=
  let '(owned, body) := state in
  let '(index, i) := entry in
  let '(dead, owned) := retire_at_point b owned (point_at (blk_label b) index) in
  ((transfer_owned i (owned, ∅)).1, body ++ resets dead ++ [i]).
Definition retire_block (inputs : Inputs) (b : Block InstrResolved) : Block InstrResolved :=
  without_resume
    match inputs !! blk_label b with
    | None => b
    | Some owned =>
        let '(owned, body) := fold_left (retire_step b) (enumerate (blk_body b)) (owned, []) in
        let '(dead, _) := retire_at_point b owned (last_point (blk_label b)) in
        with_body b (body ++ resets dead)
    end.
End ownership.
End lifetime.

(** [consume_copy_purposes]. *)
Definition consume_purpose (op : InstrOp) : InstrOp :=
  match op with
  | Op_Store name lifetime SP_BlockParameterTransport => Op_Store name lifetime SP_Binding
  | _ => op
  end.
Fixpoint consume (i : InstrResolved) : InstrResolved :=
  match i with
  | R_Literal _ => i
  | R_Node op children => R_Node (consume_purpose op) (map consume children)
  end.
Definition consume_term (t : BlockTerm InstrResolved) : BlockTerm InstrResolved :=
  match t with
  | BT_Jump _ => t
  | BT_If i => BT_If (mkTermIf (consume (ti_test i)) (ti_then_label i) (ti_else_label i))
  | BT_BranchTable b =>
      BT_BranchTable (mkTermBranchTable (consume (tb_index b)) (tb_targets b) (tb_default_label b))
  | BT_Raise r => BT_Raise (mkTermRaise (consume <$> tr_exc r) (tr_disposition r))
  | BT_Return i => BT_Return (consume i)
  | BT_GeneratorReturn i => BT_GeneratorReturn (consume i)
  end.
Definition consume_block (b : Block InstrResolved) : Block InstrResolved :=
  mkBlock (blk_label b) (map consume (blk_body b)) (consume_term (blk_term b)) (blk_params b) (blk_exc_edge b)
    (blk_extra b).

(** ** The pass *)

Definition block_map (l : list (Block InstrResolved)) : Blocks := collect_map (map (fun b => (blk_label b, b)) l).
Definition resume_targets (l : list (Block InstrResolved)) : gset BlockLabel :=
  list_to_set (omap (fun b => bc_suspension_resume (blk_extra b)) l).
Definition known_targets (resumes : gset BlockLabel) (l : list (Block InstrResolved)) : bool :=
  forallb (fun b =>
    forallb (fun edge => bool_decide (is_Some (block_map l !! be_target edge)))
      (map fst (lifetime_edges resumes b) ++ option_list (blk_exc_edge b))) l.
Definition as_blockpy (f : ResolvedFunction) : BlockPyFunction InstrResolved :=
  mkBlockPyFunction (rf_function_id f) (rf_qualname f) (rf_kind f) (rf_blocks f).

(** [None] is a panic or a loop whose fuel is spent. *)
Definition retire_exception_transports (f : ResolvedFunction) : option ResolvedFunction :=
  if negb (is_ok (validate_suspension_resumes (as_blockpy f))) then None
  else
    catalog ← transport_storage_new f;
    catalog ← catalog;
    if ts_is_empty catalog then
      Some (with_resolved_blocks f (map consume_block (map without_resume (rf_blocks f))))
    else
      let resumes := resume_targets (rf_blocks f) in
      if known_targets resumes (rf_blocks f) then
        scopes ← scope_states resumes (rf_blocks f);
        live ← live_points resumes catalog (block_map (rf_blocks f)) scopes (rf_blocks f);
        let killed := map (kill_copies catalog live) (rf_blocks f) in
        entry ← head killed;
        inputs ← owned_inputs resumes catalog (block_map killed) live (blk_label entry);
        inputs ← inputs;
        Some (with_resolved_blocks f (map consume_block (map (retire_block catalog live inputs) killed)))
      else None.
