(* ===== verification/TransportLifetimeProps.v ===== *)
(** * Retiring transports is correct

    Every execution of the function with dead transports reset is one of the given function,
    also across suspensions.  A resumption is the edge from the yielding block to its resume
    wrapper: the preserved slots are kept, everything else of the frame is new. *)

From stdpp Require Import gmap.
From S2P Require Import Prelude Order Collections Ids IdsProps Cfg CfgProps Names Instr Layout BbShape.
From S2P Require Import Resolved ResolvedSem Roles Flow OperandCleanup LiveAgree OperandCleanupProps Transport TransportProps.
From S2P Require Import Split TransportLifetime.

Local Open Scope Z_scope.

(** ** Executions with suspensions *)

Section suspending.
Context {World Value : Type} `{!ResolvedRuntime World Value}.
Context (slot_of : string -> option NameLocation) (resume_of : BlockLabel -> option BlockLabel).
Context (blocks : list (Block InstrResolved)).
Notation Slots := (gmap NameLocation Value).

Definition enters_resume (c : Config (World := World) (Value := Value)) : Prop :=
  match c with Running l _ _ => exists source, resume_of source = Some l | Done _ _ _ => False end.
(** What was yielded, in which world, and the world at the resumption. *)
Definition Yield : Type := (Value * World * World)%type.

(** The dispatcher's jumps into the resume wrappers are the resumptions, so they are not steps
    of their own. *)
Inductive life_step : Config -> list Yield -> Config -> Prop :=
| LS_Term label b w σ w1 σ1 vs c :
    find_block label blocks = Some b -> evs w σ (blk_body b) w1 σ1 (Normal vs) ->
    term_step slot_of blocks (blk_term b) w1 σ1 c -> ~ enters_resume c -> life_step (Running label w σ) [] c
| LS_Body label b w σ w1 σ1 e :
    find_block label blocks = Some b -> evs w σ (blk_body b) w1 σ1 (Raising e) ->
    life_step (Running label w σ) [] (throw slot_of blocks b e w1 σ1)
| LS_Raise label b w σ w1 σ1 vs w2 σ2 e :
    find_block label blocks = Some b -> evs w σ (blk_body b) w1 σ1 (Normal vs) ->
    term_raise (blk_term b) w1 σ1 w2 σ2 e -> life_step (Running label w σ) [] (throw slot_of blocks b e w2 σ2)
| LS_Resume label b w σ w1 σ1 vs v w2 σ2 resume w3 τ :
    find_block label blocks = Some b -> evs w σ (blk_body b) w1 σ1 (Normal vs) ->
    term_step slot_of blocks (blk_term b) w1 σ1 (Done (FE_Returned v) w2 σ2) ->
    resume_of label = Some resume ->
    (forall l, is_preserved_location l = true -> τ !! l = σ2 !! l) ->
    life_step (Running label w σ) [(v, w2, w3)] (Running resume w3 τ).
Inductive life_runs : Config -> list Yield -> Config -> Prop :=
| LR_Refl c : life_runs c [] c
| LR_Step c1 c2 c3 y ys : life_step c1 y c2 -> life_runs c2 ys c3 -> life_runs c1 (y ++ ys) c3.
End suspending.

(** What is relied on: [None] and stores into slots are silent and do not raise, and the
    purpose of a store is for the analysis only. *)
Class TransportRuntime (World Value : Type) `{!ResolvedRuntime World Value} : Prop := {
  none_silent n w rs vs w' v : resolved_runtime_name_id n = Some RN_None -> result_of (Op_Load n None) w rs vs w' v -> w' = w;
  none_total n w rs vs w' e : resolved_runtime_name_id n = Some RN_None -> ~ raises (Op_Load n None) w rs vs w' e;
  store_silent n l p w rs vs w' v :
    is_slot (rn_location n) = true -> result_of (Op_Store n l p) w rs vs w' v -> w' = w;
  store_total n l p w rs vs w' e :
    is_slot (rn_location n) = true -> ~ raises (Op_Store n l p) w rs vs w' e;
  store_returns n l p w rs vs :
    is_slot (rn_location n) = true -> exists v, result_of (Op_Store n l p) w rs vs w v;
  purpose_result n l p p' w rs vs w' v : result_of (Op_Store n l p) w rs vs w' v -> result_of (Op_Store n l p') w rs vs w' v;
  purpose_raises n l p p' w rs vs w' e : raises (Op_Store n l p) w rs vs w' e -> raises (Op_Store n l p') w rs vs w' e
}.

(** ** Consumed purposes *)

Section consumed.
Context {World Value : Type} `{!ResolvedRuntime World Value} `{!TransportRuntime World Value}.
Implicit Types (w : World) (σ : gmap NameLocation Value).

Lemma consume_purpose_reads op : slots_read (consume_purpose op) = slots_read op.
Proof. destruct op; try done. by destruct purpose. Qed.
Lemma consume_result op w rs vs w' v : result_of (consume_purpose op) w rs vs w' v -> result_of op w rs vs w' v.
Proof. destruct op; try done. destruct purpose; [done|]. apply purpose_result. Qed.
Lemma consume_raises op w rs vs w' e : raises (consume_purpose op) w rs vs w' e -> raises op w rs vs w' e.
Proof. destruct op; try done. destruct purpose; [done|]. apply purpose_raises. Qed.
Lemma consume_effect op w σ vs σ' : effect (consume_purpose op) w σ vs σ' -> effect op w σ vs σ'.
Proof.
  destruct op; try done. destruct purpose; [done|]. cbn. intros H. inversion H; subst; [constructor|done].
Qed.
Lemma consume_raise_effect op σ σ' : raise_effect (consume_purpose op) σ σ' -> raise_effect op σ σ'.
Proof.
  destruct op; try done. destruct purpose; [done|]. cbn. intros H. inversion H; subst. constructor.
Qed.

Definition consumes (i : InstrResolved) : Prop :=
  forall w σ w' σ' o, ev w σ (consume i) w' σ' o -> ev w σ i w' σ' o.
Lemma evs_consume_all l w σ w' σ' o :
  Forall consumes l -> evs w σ (map consume l) w' σ' o -> evs w σ l w' σ' o.
Proof.
  intros Hl. revert w σ o. induction Hl as [|i l Hi _ IH]; intros w σ o H; cbn in H; inversion H; subst.
  - constructor.
  - eapply Evs_Cons; [by apply Hi|by apply IH].
  - apply Evs_Head. by apply Hi.
  - eapply Evs_Tail; [by apply Hi|by apply IH].
Qed.
Lemma ev_consume i : consumes i.
Proof.
  induction i as [value|op children IH] using InstrResolved_tree_ind; intros w σ w' σ' o H; cbn in H; [done|].
  inversion H; subst; rewrite ?consume_purpose_reads in *.
  - eapply Ev_Node; [by eapply evs_consume_all|by apply consume_result|by apply consume_effect].
  - eapply Ev_Raise; [by eapply evs_consume_all|by apply consume_raises|by apply consume_raise_effect].
  - eapply Ev_Child. by eapply evs_consume_all.
Qed.
Lemma evs_consume l w σ w' σ' o : evs w σ (map consume l) w' σ' o -> evs w σ l w' σ' o.
Proof. apply evs_consume_all. apply Forall_forall. intros i _. apply ev_consume. Qed.
Lemma consume_term_step slot_of blocks t w σ c :
  term_step slot_of blocks (consume_term t) w σ c -> term_step slot_of blocks t w σ c.
Proof.
  destruct t as [|i|i| | |]; cbn; intros H; inversion H; subst; cbn in *.
  - constructor.
  - by apply (TS_If slot_of blocks i _ _ _ _ v); [apply ev_consume|].
  - by apply (TS_Branch slot_of blocks i _ _ _ _ v); [apply ev_consume|].
  - apply TS_Return. by apply ev_consume.
  - apply TS_Complete. by apply ev_consume.
Qed.
Lemma consume_term_raise t w σ w' σ' e : term_raise (consume_term t) w σ w' σ' e -> term_raise t w σ w' σ' e.
Proof.
  intros H. inversion H as [t' i ? ? ? ? ? Hin He|r i ? ? ? ? ? Hr He Et|r ? ? ? Hr Hc Et]; subst.
  - destruct t as [| | |r| |]; cbn in Hin; try (apply list_elem_of_singleton in Hin as ->; eapply TR_Instr; [by left|by apply ev_consume]).
    + by apply not_elem_of_nil in Hin.
    + destruct (tr_exc r) as [x|] eqn:Ex; cbn in Hin; [|by apply not_elem_of_nil in Hin].
      apply list_elem_of_singleton in Hin as ->. eapply TR_Instr; [cbn; rewrite Ex; by left|by apply ev_consume].
  - destruct t as [| | |r0| |]; cbn in Et; try done. injection Et as ->. cbn in Hr.
    destruct (tr_exc r0) as [x|] eqn:Ex; [|done]. injection Hr as <-. eapply TR_Raise; [exact Ex|by apply ev_consume].
  - destruct t as [| | |r0| |]; cbn in Et; try done. injection Et as ->. cbn in Hr.
    destruct (tr_exc r0) eqn:Ex; [done|]. by apply TR_Current.
Qed.
End consumed.

(** ** Slots of the catalogue *)

Definition transport_slot (k : TransportLocation) : NameLocation :=
  match k with
  | TL_Local slot => NL_Local (mkLocalLocation slot)
  | TL_Preserved slot => NL_Preserved (mkPreservedLocation slot)
  end.
Lemma transport_slot_inj k k' : transport_slot k = transport_slot k' -> k = k'.
Proof. destruct k, k'; cbn; congruence. Qed.
Lemma from_name_slot name k : from_name name = Some k <-> rn_location name = transport_slot k.
Proof.
  unfold from_name. destruct (rn_location name) as [[slot]|[slot]| | | | |]; destruct k; cbn; split; congruence.
Qed.
Lemma transport_slot_is_slot k : is_slot (transport_slot k) = true.
Proof. by destruct k. Qed.
Lemma preserved_slot k : is_preserved_location (transport_slot k) = is_preserved k.
Proof. by destruct k. Qed.

Section catalog.
Context (catalog : TransportStorage).
Notation owners := (dom (ts_owners catalog)).
Notation transfer := (transport_transfer catalog).

(** The slots that do not matter when [live] is live. *)
Definition hidden (live : OwnerSet) : gset NameLocation := set_map transport_slot (owners ∖ live).
Lemma elem_of_hidden live x : x ∈ hidden live <-> exists k, x = transport_slot k /\ k ∈ owners /\ k ∉ live.
Proof. unfold hidden. rewrite elem_of_map. set_solver. Qed.
Lemma hidden_mono live live' : live ⊆ live' -> hidden live' ⊆ hidden live.
Proof. intros H x. rewrite !elem_of_hidden. set_solver. Qed.
Lemma key_slot name k : ts_key catalog name = Some k <-> rn_location name = transport_slot k /\ k ∈ owners.
Proof. by rewrite ts_key_some, from_name_slot, elem_of_dom. Qed.

Definition owner_slot (l : NameLocation) : bool :=
  match l with
  | NL_Local slot => bool_decide (TL_Local (local_slot slot) ∈ owners)
  | NL_Preserved slot => bool_decide (TL_Preserved (preserved_location_slot slot) ∈ owners)
  | _ => false
  end.
Lemma owner_slot_key k : k ∈ owners -> owner_slot (transport_slot k) = true.
Proof. destruct k; cbn; by intros; rewrite bool_decide_true. Qed.

(** Transports are read by loads only, and nothing below a statement changes slots. *)
Fixpoint plain_reads (i : InstrResolved) : bool :=
  match i with
  | R_Literal _ => true
  | R_Node op children =>
      match op with
      | Op_Load _ _ => true
      | _ => forallb (fun l => negb (owner_slot l)) (slots_read op)
      end && forallb plain_reads children
  end.
Definition transport_ok (i : InstrResolved) : bool :=
  leaves_ok i && plain_reads i
  && match i with R_Literal _ => true | R_Node _ children => forallb flat_tree children end.

Definition keeps_reads (i : InstrResolved) : Prop :=
  forall live k, k ∈ owners -> k ∈ live \/ transport_slot k ∈ tree_reads i -> k ∈ transfer i live.
Definition child_ok (i : InstrResolved) : bool := flat_tree i && leaves_ok i && plain_reads i.

Lemma fold_keeps_reads l :
  Forall keeps_reads l -> forall live k, k ∈ owners ->
    k ∈ live \/ transport_slot k ∈ concat (map tree_reads l) -> k ∈ fold_left (fun live c => transfer c live) l live.
Proof.
  induction 1 as [|i l Hi _ IH]; intros live k Hk H; cbn in *; [destruct H as [?|?]; [done|set_solver]|].
  rewrite elem_of_app in H. apply IH; [done|]. destruct H as [H|[H|H]]; [left; apply Hi; auto..|by right].
Qed.
Lemma plain_not_read op k :
  forallb (fun l => negb (owner_slot l)) (slots_read op) = true -> k ∈ owners -> transport_slot k ∉ slots_read op.
Proof.
  intros Hp Hk Hin. rewrite forallb_forall in Hp. apply list_elem_of_In in Hin. apply Hp in Hin.
  by rewrite owner_slot_key in Hin.
Qed.

Lemma child_keeps_reads i : child_ok i = true -> keeps_reads i.
Proof.
  induction i as [value|op children IH] using InstrResolved_tree_ind; intros Hok live k Hk H; cbn in *.
  { destruct H; [done|set_solver]. }
  unfold child_ok in Hok. cbn in Hok.
  apply andb_true_iff in Hok as [[[Hks Hf]%andb_true_iff [Hn Hl]%andb_true_iff]%andb_true_iff [Hr Hp]%andb_true_iff].
  assert (Forall keeps_reads children) as HC.
  { apply Forall_forall. intros c Hc. rewrite Forall_forall in IH. apply IH; [done|]. unfold child_ok.
    rewrite forallb_forall in Hf, Hl, Hp. apply list_elem_of_In in Hc. by rewrite Hf, Hl, Hp. }
  rewrite elem_of_app in H.
  destruct op; cbn [keeps_slots] in Hks; try discriminate Hks;
    try (apply (fold_keeps_reads _ HC); [done|]; destruct H as [?|[?|Hs]]; [auto..|by destruct (plain_not_read _ _ Hr Hk)]).
  cbn in Hn. bool_inv. destruct children; [|done]. unfold extend_opt. destruct (ts_key catalog name) as [k'|] eqn:E.
  - apply key_slot in E as [E _]. destruct H as [?|[?|Hs]]; [set_solver|set_solver|].
    cbn in Hs. apply list_elem_of_singleton in Hs. rewrite E in Hs. apply transport_slot_inj in Hs as ->. set_solver.
  - destruct H as [?|[?|Hs]]; [done|set_solver|]. cbn in Hs. apply list_elem_of_singleton in Hs.
    assert (ts_key catalog name = Some k) by (by apply key_slot). congruence.
Qed.

(** A marked copy whose destination is dead. *)
Definition dead_copy (i : InstrResolved) (live : OwnerSet) : Prop :=
  match i with
  | R_Node (Op_Store name _ purpose) children =>
      is_Some (copy_source catalog name purpose children) /\ forall k, ts_key catalog name = Some k -> k ∉ live
  | _ => False
  end.

Lemma copy_source_some name purpose value k :
  copy_source catalog name purpose value = Some k ->
  purpose = SP_BlockParameterTransport /\ (exists d, ts_key catalog name = Some d)
  /\ exists source c rest, value = [R_Node (Op_Load source c) rest] /\ ts_key catalog source = Some k.
Proof.
  unfold copy_source. destruct purpose; [done|]. destruct (ts_key catalog name) as [d|]; [|done]. cbn.
  intros H. repeat case_match; try done. eauto 8.
Qed.

Lemma statement_keeps i live k :
  transport_ok i = true -> ~ dead_copy i live -> k ∈ owners ->
  (k ∈ live /\ transport_slot k ∉ tree_overwrites i) \/ transport_slot k ∈ tree_reads i -> k ∈ transfer i live.
Proof.
  unfold transport_ok. intros [[Hl Hp]%andb_true_iff Hf]%andb_true_iff Hd Hk H.
  destruct i as [value|op children]; [cbn in *; set_solver|].
  cbn [leaves_ok plain_reads] in Hl, Hp. apply andb_true_iff in Hl as [Hn Hl], Hp as [Hr Hp].
  assert (Forall keeps_reads children) as HC.
  { apply Forall_forall. intros c Hc. apply child_keeps_reads. unfold child_ok.
    rewrite forallb_forall in Hf, Hl, Hp. apply list_elem_of_In in Hc. by rewrite Hf, Hl, Hp. }
  pose proof (fold_keeps_reads _ HC) as HF. cbn [tree_reads tree_overwrites] in H. rewrite elem_of_app in H.
  destruct op; cbn [transport_transfer];
    try (apply HF; [done|]; destruct H as [[? _]|[?|Hs]]; [auto..|by destruct (plain_not_read _ _ Hr Hk)]).
  - assert (transfer (R_Node (Op_Load name cell_binding) children) live = extend_opt (ts_key catalog name) live) as E by done.
    rewrite <- E. apply (child_keeps_reads (R_Node (Op_Load name cell_binding) children)); [|done|].
    + unfold child_ok. cbn. rewrite Hf, Hl, Hp. cbn in Hn. by rewrite Hn.
    + cbn [tree_reads]. rewrite elem_of_app. tauto.
  - assert (forall owner, ts_key catalog name = owner -> k ∈ remove_opt owner live
      \/ transport_slot k ∈ concat (map tree_reads children)) as Hrem.
    { intros owner <-. destruct H as [[Hlive Ho]|[?|Hs]]; [left|by right|by apply not_elem_of_nil in Hs].
      destruct (ts_key catalog name) as [d|] eqn:Ed; cbn; [|done]. apply elem_of_difference. split; [done|].
      intros ->%elem_of_singleton. apply key_slot in Ed as [Ed _]. cbn in Ho. set_solver. }
    destruct (copy_source catalog name purpose children) as [source|] eqn:Ec; [|by apply HF, Hrem].
    destruct (copy_source_some _ _ _ _ Ec) as (-> & [d Hkd] & src & cb & rest & -> & Es). rewrite Hkd.
    destruct (decide (d ∈ live)) as [Hin|Hin].
    + rewrite bool_decide_true by done. destruct (Hrem _ Hkd) as [?|Hs]; [set_solver|].
      cbn in Hl. destruct rest; [|by rewrite andb_false_r in Hl || by cbn in Hl]. cbn in Hs.
      apply key_slot in Es as [Es _]. apply list_elem_of_singleton in Hs. rewrite Es in Hs.
      apply transport_slot_inj in Hs as ->. set_solver.
    + exfalso. apply Hd. unfold dead_copy. rewrite Ec. split; [by eexists|]. intros k' Hk'. congruence.
  - destruct H as [[Hlive Ho]|[Hs|Hs]].
    + unfold remove_opt. destruct (ts_key catalog name) as [d|] eqn:Ed; [|done]. apply elem_of_difference. split; [done|].
      intros ->%elem_of_singleton. apply key_slot in Ed as [Ed _]. cbn in Ho. set_solver.
    + cbn in Hn. bool_inv. destruct children; [cbn in Hs; set_solver|done].
    + by destruct (plain_not_read _ _ Hr Hk).
Qed.
End catalog.

(** ** Statements *)

(** Frames agree at a slot that every binding of it agrees on. *)
Lemma bind_agree_at {World Value : Type} `{!ResolvedRuntime World Value} slot_of cur params args
    (σ1 σ2 : gmap NameLocation Value) x :
  σ1 !! x = σ2 !! x \/ (exists pair, pair ∈ edge_pairs params args /\ slot_of (bp_name pair.1) = Some x) ->
  (forall pair, pair ∈ edge_pairs params args -> slot_of (bp_name pair.1) = Some x ->
     arg_value slot_of cur σ1 pair.2 = arg_value slot_of cur σ2 pair.2) ->
  bind_params slot_of cur params args σ1 !! x = bind_params slot_of cur params args σ2 !! x.
Proof.
  unfold bind_params. generalize (edge_pairs params args) as pairs. intros pairs.
  generalize σ1 at 1 4 as τ1. generalize σ2 at 1 4 as τ2. intros τ2 τ1. revert τ1 τ2.
  induction pairs as [|pair pairs IH]; intros τ1 τ2 H Hp; cbn.
  { destruct H as [?|(? & ?%not_elem_of_nil & _)]; done. }
  apply IH; [|intros q Hq; apply Hp; by right]. unfold bind_pair at 1 2.
  destruct (slot_of (bp_name pair.1)) as [l|] eqn:El.
  - destruct (decide (l = x)) as [->|].
    + left. rewrite !lookup_partial_alter_eq. apply Hp; [by left|done].
    + rewrite !lookup_partial_alter_ne by done. destruct H as [?|(q & [->|Hq]%elem_of_cons & Hs)]; [by left|congruence|right; eauto].
  - destruct H as [?|(q & [->|Hq]%elem_of_cons & Hs)]; [by left|congruence|right; eauto].
Qed.

Definition killed (i : InstrResolved) : InstrResolved :=
  match i with R_Node op _ => R_Node op [none_load] | R_Literal _ => i end.

(** If the statement is a raw copy of a transport, then reading its source returns, and
    changes nothing: the source is bound. *)
Definition copy_returns {World Value : Type} `{!ResolvedRuntime World Value} (catalog : TransportStorage)
    (i : InstrResolved) (w : World) (σ : gmap NameLocation Value) : Prop :=
  forall name lifetime src cached k,
    i = R_Node (Op_Store name lifetime SP_BlockParameterTransport) [R_Node (Op_Load src cached) []] ->
    ts_key catalog src = Some k ->
    exists v, result_of (Op_Load src cached) w [σ !! rn_location src] [] w v.

Section statements.
Context {World Value : Type} `{!ResolvedRuntime World Value} `{!TransportRuntime World Value}.
Context (catalog : TransportStorage).
Notation Slots := (gmap NameLocation Value).
Notation owners := (dom (ts_owners catalog)).
Notation hidden := (hidden catalog).
Hypothesis names_ok : forall k n, ts_owners catalog !! k = Some n -> from_name n = Some k.

Lemma transport_statement_agree i after X w σ1 w' σ1' o (σ2 : Slots) :
  transport_ok catalog i = true -> ~ dead_copy catalog i after -> ev w σ1 i w' σ1' o ->
  agree_off (hidden (transport_transfer catalog i after ∪ X)) σ1 σ2 ->
  exists σ2', ev w σ2 i w' σ2' o
    /\ agree_off (hidden (transport_transfer catalog i after ∪ X)) σ1' σ2'
    /\ (is_normal o = true -> agree_off (hidden (after ∪ X)) σ1' σ2').
Proof.
  intros Hok Hnd He Ha. set (D := hidden _) in *.
  destruct (ev_agree i D _ _ _ _ _ _ He Ha) as (σ2' & E & A & An).
  { intros l Hl (k & -> & Hk & Hn)%elem_of_hidden. apply Hn, elem_of_union_l. apply statement_keeps; auto. }
  exists σ2'. split_and!; [done|done|]. intros Ho.
  assert (forall l, l ∈ D -> l ∉ tree_overwrites i -> l ∈ hidden (after ∪ X)) as Hdead.
  { unfold D. intros l (k & -> & Hk & Hn)%elem_of_hidden Hov. apply elem_of_hidden. exists k. split_and!; [done|done|].
    intros [Hlive|HX]%elem_of_union; apply Hn; [apply elem_of_union_l|by apply elem_of_union_r].
    apply statement_keeps; auto. }
  destruct (Forall_dec (fun l => is_slot l = true) (tree_overwrites i)) as [Hs|Hs].
  - rewrite Forall_forall in Hs. eapply agree_off_mono; [|by apply An].
    intros l [Hl Hov]%elem_of_difference. apply Hdead; [done|]. by rewrite elem_of_list_to_set in Hov.
  - eapply agree_off_mono; [|exact A]. intros l Hl. apply Hdead; [done|]. intros Hov. apply Hs.
    apply Forall_forall. intros l' Hl'. assert (l' = l) as ->.
    { destruct i as [|op ?]; [by apply not_elem_of_nil in Hov|].
      clear -Hov Hl'. destruct op; cbn in *; repeat case_match; set_solver. }
    unfold D in Hl. apply elem_of_hidden in Hl as (k & -> & _). apply transport_slot_is_slot.
Qed.

Lemma none_ev w (σ : Slots) w' σ' o : evs w σ [none_load] w' σ' o -> w' = w /\ σ' = σ /\ exists v, o = Normal [v].
Proof.
  intros H. assert (forall w1 σ1 o1, ev w σ none_load w1 σ1 o1 -> w1 = w /\ σ1 = σ /\ is_normal o1 = true) as Hn.
  { intros w1 σ1 o1 He. inversion He; subst; match goal with H : evs _ _ [] _ _ _ |- _ => inversion H; subst end.
    - match goal with H : result_of _ _ _ _ _ _ |- _ => apply none_silent in H as ->; [|done] end.
      match goal with H : effect _ _ _ _ _ |- _ => by inversion H; subst end.
    - match goal with H : raises _ _ _ _ _ _ |- _ => by apply none_total in H end. }
  inversion H; subst;
    match goal with H : ev _ _ _ _ _ _ |- _ => apply Hn in H as (-> & -> & ?) end; [|done|];
    match goal with H : evs _ _ [] _ _ _ |- _ => inversion H; subst end. eauto.
Qed.
(** A store of [None] into a slot. *)
Lemma store_none_ev name l p w (σ : Slots) w' σ' o :
  is_slot (rn_location name) = true -> ev w σ (R_Node (Op_Store name l p) [none_load]) w' σ' o ->
  w' = w /\ is_normal o = true /\ forall x, x <> rn_location name -> σ' !! x = σ !! x.
Proof.
  intros Hs H. inversion H; subst;
    match goal with H : evs _ _ _ _ _ _ |- _ => apply none_ev in H as (-> & -> & [v0 E]) end; [| |done].
  - injection E as ->. match goal with H : result_of _ _ _ _ _ _ |- _ => apply store_silent in H as ->; [|done] end.
    split_and!; [done|done|]. intros x Hx. match goal with H : effect _ _ _ _ _ |- _ => inversion H; subst end; [|done].
    unfold set_slot. rewrite Hs. by rewrite lookup_insert_ne.
  - match goal with H : raises _ _ _ _ _ _ |- _ => by apply store_total in H end.
Qed.

Lemma resets_ev dead w (σ : Slots) w' σ' o :
  evs w σ (resets catalog dead) w' σ' o ->
  w' = w /\ is_normal o = true /\ forall x, (forall k, k ∈ dead -> k ∈ owners -> x <> transport_slot k) -> σ' !! x = σ !! x.
Proof.
  unfold resets.
  assert (forall k, k ∈ in_order dead -> k ∈ dead) as Hd by (intros k; unfold in_order; rewrite elem_of_sort_by; set_solver).
  revert Hd. generalize (in_order dead) as ks. intros ks. revert w σ o.
  induction ks as [|k ks IH]; intros w σ o Hd H; cbn in H; [by inversion H; subst|].
  assert (forall k, k ∈ ks -> k ∈ dead) as Hd' by (intros; apply Hd; by right).
  destruct (ts_name catalog k) as [n|] eqn:En; [|by apply IH]. cbn in H.
  assert (k ∈ owners) as Hown by (apply elem_of_dom; eauto).
  apply names_ok, from_name_slot in En. assert (is_slot (rn_location n) = true) as Hs by (rewrite En; apply transport_slot_is_slot).
  inversion H as [|? ? ? ? w1 σ1 v ? ? vs H1 H2|? ? ? ? ? ? e H1|? ? ? ? w1 σ1 v ? ? e H1 H2]; subst;
    destruct (store_none_ev _ _ _ _ _ _ _ _ Hs H1) as (-> & Hn & Hx); [|done|];
    destruct (IH _ _ _ Hd' H2) as (-> & Hn' & Hx'); [|done].
  split_and!; [done|done|]. intros x Hk. rewrite Hx' by done. apply Hx. rewrite En. apply Hk; [|done]. apply Hd. by left.
Qed.

(** A killed copy: the original reads its source, which changes nothing that is live. *)
Lemma dead_copy_agree i after w σ1 w' σ1' o (σ2 : Slots) :
  leaves_ok i = true -> copy_returns catalog i w σ2 -> dead_copy catalog i after -> ev w σ1 (killed i) w' σ1' o -> agree_off (hidden after) σ1 σ2 ->
  w' = w /\ is_normal o = true /\ exists v σ2', ev w σ2 i w σ2' (Normal v) /\ agree_off (hidden after) σ1' σ2'.
Proof.
  intros Hl Hco Hd He Ha. destruct i as [|op children]; [done|]. destruct op; try done. destruct Hd as [[k Hc] Hdead].
  destruct (copy_source_some _ _ _ _ _ Hc) as (-> & [d Hkd] & src & cb & rest & -> & Es).
  pose proof (Hdead d Hkd) as Hnd. apply key_slot in Hkd as [Ed Hown].
  assert (is_slot (rn_location name) = true) as Hs by (rewrite Ed; apply transport_slot_is_slot).
  destruct (store_none_ev _ _ _ _ _ _ _ _ Hs He) as (-> & Hn & Hx). split_and!; [done|done|].
  assert (rest = []) as ->.
  { cbn in Hl. destruct rest; [done|]. by rewrite ?andb_false_r in Hl. }
  destruct (Hco _ _ _ _ _ eq_refl Es) as [v Hv].
  destruct (store_returns name lifetime SP_BlockParameterTransport w [] [v] Hs) as [v' Hv'].
  exists v', (set_slot (rn_location name) v σ2). split.
  - eapply Ev_Node; [|exact Hv'|constructor]. eapply Evs_Cons; [|constructor].
    eapply Ev_Node; [constructor|exact Hv|by constructor].
  - intros x Hnx. unfold set_slot. rewrite Hs. rewrite Ed in *.
    assert (x <> transport_slot d) as Hne by (intros ->; apply Hnx, elem_of_hidden; eauto).
    rewrite Hx by done. rewrite lookup_insert_ne by done. by apply Ha.
Qed.
End statements.

(** ** Bodies *)

(** [out] is [body] with owners reset that are dead at the points [pts], and dead copies killed. *)
Inductive retired (catalog : TransportStorage) :
    list OwnerSet -> list InstrResolved -> list InstrResolved -> Prop :=
| Ret_End p dead : dead ## p -> retired catalog [p] [] (resets catalog dead)
| Ret_Step p q pts dead i i' body out :
    dead ## p -> (i' = i /\ ~ dead_copy catalog i q) \/ (i' = killed i /\ dead_copy catalog i q) ->
    retired catalog (q :: pts) body out -> retired catalog (p :: q :: pts) (i :: body) (resets catalog dead ++ i' :: out).
Definition same_outcome {Value A B} (o : Outcome (Value := Value) A) (o' : Outcome (Value := Value) B) : Prop :=
  match o, o' with Normal _, Normal _ => True | Raising e, Raising e' => e = e' | _, _ => False end.

Section bodies.
Context {World Value : Type} `{!ResolvedRuntime World Value} `{!TransportRuntime World Value}.
Context (catalog : TransportStorage) (resumes : gset BlockLabel).
Context (blocks : gmap BlockLabel (Block InstrResolved)) (scopes : gmap BlockLabel ScopeState).
Context (inputs : gmap BlockLabel OwnerSet).
Notation Slots := (gmap NameLocation Value).
Notation hidden := (hidden catalog).
Notation points_from := (points_from resumes catalog blocks scopes inputs).
Notation term_live b := (transport_term_live resumes catalog blocks scopes inputs b).
Notation exceptional b := (transport_exceptional catalog blocks scopes inputs b).
Hypothesis names_ok : forall k n, ts_owners catalog !! k = Some n -> from_name n = Some k.

Lemma resets_agree dead p w (σ1 σ2 : Slots) w' σ1' o :
  dead ## p -> evs w σ1 (resets catalog dead) w' σ1' o -> agree_off (hidden p) σ1 σ2 ->
  w' = w /\ is_normal o = true /\ agree_off (hidden p) σ1' σ2.
Proof.
  intros Hd He Ha. eapply resets_ev in He as (-> & Hn & Hx); [|done..]. split_and!; [done|done|].
  intros x Hnx. rewrite Hx; [by apply Ha|]. intros k Hk Ho ->. apply Hnx, elem_of_hidden. set_solver.
Qed.

(** One statement of the new body is one of the old. *)
Lemma step_agree b i i' q w σ1 w' σ1' o (σ2 : Slots) X :
  transport_ok catalog i = true ->
  (i' = i /\ ~ dead_copy catalog i q) \/ (i' = killed i /\ dead_copy catalog i q) ->
  exceptional b ⊆ q -> copy_returns catalog i w σ2 -> ev w σ1 i' w' σ1' o ->
  agree_off (hidden (transport_transfer catalog i q ∪ exceptional b ∪ X)) σ1 σ2 ->
  exists o' σ2', ev w σ2 i w' σ2' o' /\ same_outcome o o' /\ agree_off (hidden (exceptional b)) σ1' σ2'
    /\ (is_normal o = true -> agree_off (hidden q) σ1' σ2').
Proof.
  intros Hok Hc Hx Hco He Ha. destruct Hc as [[-> Hnd]|[-> Hd]].
  - rewrite <- union_assoc_L in Ha.
    destruct (transport_statement_agree catalog _ _ _ _ _ _ _ _ _ Hok Hnd He Ha) as (σ2' & E & A & N).
    exists o, σ2'. split_and!; [done|by destruct o| |].
    + eapply agree_off_mono; [|exact A]. apply hidden_mono. set_solver.
    + intros Ho. eapply agree_off_mono; [|by apply N]. apply hidden_mono. set_solver.
  - assert (leaves_ok i = true) as Hl.
    { unfold transport_ok in Hok. by apply andb_true_iff in Hok as [[? _]%andb_true_iff _]. }
    assert (q ⊆ transport_transfer catalog i q) as Hq.
    { destruct i as [|op children]; [done|]. destruct op; try done. destruct Hd as [[k Hk] Hd].
      destruct (copy_source_some _ _ _ _ _ Hk) as (_ & [d Hkd] & _). cbn [transport_transfer]. rewrite Hk, Hkd.
      rewrite bool_decide_false; [done|]. by apply Hd. }
    destruct (dead_copy_agree catalog _ q _ _ _ _ _ σ2 Hl Hco Hd He) as (-> & Hn & v & σ2' & E & A).
    { eapply agree_off_mono; [|exact Ha]. apply hidden_mono. set_solver. }
    exists (Normal v), σ2'. split_and!; [done|by destruct o| |done].
    eapply agree_off_mono; [|exact A]. by apply hidden_mono.
Qed.

Lemma exceptional_in_points b body : exceptional b ⊆ default ∅ (head (points_from b body)).
Proof. destruct body; cbn; [unfold transport_term_live|]; set_solver. Qed.

Lemma body_retired_agree b body out w σ1 w' σ1' o (σ2 : Slots) :
  (forall pre i post w2 τ vs, body = pre ++ i :: post -> evs w σ2 pre w2 τ (Normal vs) ->
     copy_returns catalog i w2 τ) ->
  forallb (transport_ok catalog) body = true -> retired catalog (points_from b body) body out ->
  evs w σ1 out w' σ1' o -> agree_off (hidden (default ∅ (head (points_from b body)))) σ1 σ2 ->
  exists o' σ2', evs w σ2 body w' σ2' o' /\ same_outcome o o'
    /\ agree_off (hidden (if is_normal o then term_live b else exceptional b)) σ1' σ2'.
Proof.
  revert out w σ1 σ2 o. induction body as [|i body IH]; intros out w σ1 σ2 o Hco Hok Hr He Ha; inversion Hr; subst; cbn in Ha.
  { match goal with H : _ ## _ |- _ => destruct (resets_agree _ _ _ _ _ _ _ _ H He Ha) as (-> & Hn & A) end.
    exists (Normal []), σ2.
    split_and!; [constructor|by destruct o|]. by rewrite Hn. }
  cbn in Hok. apply andb_true_iff in Hok as [Hi Hok].
  match goal with H : _ :: _ = points_from b body |- _ => rename H into Epts end.
  match goal with H : dead ## _ |- _ => rename H into Hdead end.
  match goal with H : (_ /\ _) \/ _ |- _ => rename H into Hc end.
  match goal with H : retired _ _ body _ |- _ => rename H into Hrest end.
  pose proof (exceptional_in_points b body) as Hx. rewrite <- Epts in Ha, Hx. cbn in Ha, Hx.
  specialize (IH out0). rewrite <- ?Epts in IH. cbn in IH.
  assert (forall w2 τ1, w2 = w -> agree_off (hidden (transport_transfer catalog i q ∪ exceptional b ∪ pending_live catalog b)) τ1 σ2 ->
    forall o2, evs w2 τ1 (i' :: out0) w' σ1' o2 -> exists o' σ2', evs w σ2 (i :: body) w' σ2' o' /\ same_outcome o2 o'
    /\ agree_off (hidden (if is_normal o2 then term_live b else exceptional b)) σ1' σ2') as Hgo.
  { intros w2 τ1 -> Ht o2 H2.
    inversion H2 as [|? ? ? ? w1 σ3 v ? ? vs E1 E2|? ? ? ? ? ? e E1|? ? ? ? w1 σ3 v ? ? e E1 E2]; subst;
      destruct (step_agree _ _ _ _ _ _ _ _ _ _ _ Hi Hc Hx (Hco [] _ _ _ _ _ eq_refl (Evs_Nil _ _)) E1 Ht) as (o3 & σ4 & E4 & S4 & A4 & N4).
    - destruct o3 as [v3|]; [|done].
      destruct (IH _ _ _ _ (fun pre j post w3 τ us Eb Hp => Hco (i :: pre) j post w3 τ (v3 :: us)
        (f_equal (cons i) Eb) (Evs_Cons _ _ _ _ _ _ _ _ _ _ E4 Hp)) Hok Hrest E2 (N4 eq_refl)) as (o5 & σ5 & E5 & S5 & A5).
      destruct o5 as [vs5|]; [|done]. exists (Normal (v3 :: vs5)), σ5. split_and!; [by econstructor|done|done].
    - destruct o3 as [|e3]; [done|]. exists (Raising e3), σ4. split_and!; [by apply Evs_Head|done|done].
    - destruct o3 as [v3|]; [|done].
      destruct (IH _ _ _ _ (fun pre j post w3 τ us Eb Hp => Hco (i :: pre) j post w3 τ (v3 :: us)
        (f_equal (cons i) Eb) (Evs_Cons _ _ _ _ _ _ _ _ _ _ E4 Hp)) Hok Hrest E2 (N4 eq_refl)) as (o5 & σ5 & E5 & S5 & A5).
      destruct o5 as [|e5]; [done|]. exists (Raising e5), σ5. split_and!; [by eapply Evs_Tail|done|done]. }
  destruct o as [vs|e].
  - apply evs_app_inv in He as (w1 & τ & vs1 & vs2 & H1 & H2).
    destruct (resets_agree _ _ _ _ _ _ _ _ Hdead H1 Ha) as (-> & _ & A).
    destruct (Hgo _ _ eq_refl A _ H2) as (o' & σ2' & E & S & A'). exists o', σ2'. split_and!; [done|by destruct o'|done].
  - apply evs_app_raise_inv in He as [H1|(w1 & τ & vs1 & H1 & H2)].
    + by destruct (resets_agree _ _ _ _ _ _ _ _ Hdead H1 Ha) as (_ & ? & _).
    + destruct (resets_agree _ _ _ _ _ _ _ _ Hdead H1 Ha) as (-> & _ & A).
      by apply (Hgo _ _ eq_refl A).
Qed.
End bodies.

(** ** Edges *)

(** No argument names an owner that a later parameter of the edge rebinds. *)
Definition clobbers (catalog : TransportStorage) (arg : BlockArg) (pair : BlockParam * BlockArg) : bool :=
  match arg with
  | BA_Name name =>
      match ts_parameter catalog name, ts_parameter catalog (bp_name pair.1) with
      | Some k, Some k' => bool_decide (k = k')
      | _, _ => false
      end
  | _ => false
  end.
Fixpoint args_in_order (catalog : TransportStorage) (pairs : list (BlockParam * BlockArg)) : bool :=
  match pairs with
  | [] => true
  | entry :: pairs => forallb (fun q => negb (clobbers catalog entry.2 q)) pairs && args_in_order catalog pairs
  end.

Section edges.
Context {World Value : Type} `{!ResolvedRuntime World Value}.
Context (catalog : TransportStorage) (slot_of : string -> option NameLocation).
Context (blocks : gmap BlockLabel (Block InstrResolved)).
Notation Slots := (gmap NameLocation Value).
Notation hidden := (hidden catalog).
Notation owners := (dom (ts_owners catalog)).
Hypothesis parameter_slot : forall name k, ts_parameter catalog name = Some k -> slot_of name = Some (transport_slot k).
Hypothesis parameter_owned : forall name k, ts_parameter catalog name = Some k -> k ∈ owners.
Hypothesis parameter_owner : forall name k, slot_of name = Some (transport_slot k) -> k ∈ owners ->
  ts_parameter catalog name = Some k.

Lemma transport_args_keep required pairs acc k :
  (forall pair, pair ∈ pairs -> ts_parameter catalog (bp_name pair.1) <> Some k) ->
  k ∈ acc -> k ∈ fold_left (transport_arg catalog required) pairs acc.
Proof.
  revert acc. induction pairs as [|pair pairs IH]; intros acc Hp Hk; [done|]. cbn.
  apply IH; [intros; apply Hp; by right|]. specialize (Hp pair ltac:(by left)). unfold transport_arg.
  assert (k ∈ remove_opt (ts_parameter catalog (bp_name pair.1)) acc) as Hr.
  { destruct (ts_parameter catalog (bp_name pair.1)) as [k'|]; cbn; [|done]. apply elem_of_difference.
    split; [done|]. intros ->%elem_of_singleton. done. }
  unfold extend_opt. repeat case_match; set_solver.
Qed.
Lemma transport_args_read required pairs acc pair name k :
  args_in_order catalog pairs = true -> pair ∈ pairs -> pair.2 = BA_Name name -> ts_parameter catalog name = Some k ->
  (forall owner, ts_parameter catalog (bp_name pair.1) = Some owner -> owner ∈ required) ->
  k ∈ fold_left (transport_arg catalog required) pairs acc.
Proof.
  revert acc. induction pairs as [|q pairs IH]; intros acc Ho Hp Ea Hk Hr; [by apply not_elem_of_nil in Hp|].
  cbn in Ho. apply andb_true_iff in Ho as [Hc Ho]. cbn. apply elem_of_cons in Hp as [->|Hp]; [|by apply IH].
  apply transport_args_keep.
  - intros p Hpin Hpar. rewrite forallb_forall in Hc. apply list_elem_of_In in Hpin. apply Hc in Hpin.
    rewrite Ea in Hpin. cbn in Hpin. rewrite Hk, Hpar in Hpin. by rewrite bool_decide_true in Hpin.
  - unfold transport_arg. rewrite Ea, Hk. cbn [extend_opt].
    destruct (ts_parameter catalog (bp_name q.1)) as [owner|]; cbn; [|set_solver].
    rewrite bool_decide_true by auto. set_solver.
Qed.

Lemma entry_requires_grows source handlers required : required ⊆ entry_requires catalog source handlers required.
Proof.
  unfold entry_requires. generalize (enumerate handlers) as l. intros l.
  generalize true as common. revert required. induction l as [|[index name] l IH]; intros required common; cbn; [done|].
  etrans; [|apply IH]. case_match; [done|]. unfold extend_opt. case_match; set_solver.
Qed.

Lemma transport_edge_agree edge scope target inputs cur (σ1 σ2 : Slots) :
  blocks !! be_target edge = Some target -> args_in_order catalog (edge_params target edge) = true ->
  agree_off (hidden (transport_edge_live catalog blocks edge scope inputs)) σ1 σ2 ->
  agree_off (hidden (input_at inputs (be_target edge))) (bind_params slot_of cur (blk_params target) (be_args edge) σ1)
    (bind_params slot_of cur (blk_params target) (be_args edge) σ2).
Proof.
  intros Ht Ho Ha x Hx. unfold transport_edge_live in Ha. rewrite Ht in Ha.
  fold (input_at inputs (be_target edge)) in Ha.
  set (required := if is_region target then _ else _) in Ha.
  assert (input_at inputs (be_target edge) ⊆ required) as Hreq.
  { unfold required. destruct (is_region target); [apply entry_requires_grows|done]. }
  change (edge_pairs (blk_params target) (be_args edge)) with (edge_params target edge) in *.
  apply bind_agree_at.
  - change (edge_pairs (blk_params target) (be_args edge)) with (edge_params target edge).
    destruct (decide (Exists (fun pair : BlockParam * BlockArg => slot_of (bp_name pair.1) = Some x) (edge_params target edge))) as [He|He].
    + right. apply Exists_exists in He as (pair & ? & ?). eauto.
    + left. apply Ha. intros (k & -> & Hk & Hn)%elem_of_hidden. apply Hn.
      apply transport_args_keep.
      * intros pair Hp Hpar%parameter_slot. apply He, Exists_exists. eauto.
      * apply Hreq. destruct (decide (k ∈ input_at inputs (be_target edge))); [done|].
        exfalso. apply Hx, elem_of_hidden. eauto.
  - change (edge_pairs (blk_params target) (be_args edge)) with (edge_params target edge).
    intros pair Hp Hs. destruct pair as [param arg]. cbn in *. destruct arg as [name| | |]; try done. cbn.
    destruct (slot_of name) as [l|] eqn:El; [|done]. cbn. apply Ha. intros (k & -> & Hk & Hn)%elem_of_hidden.
    apply Hn. eapply transport_args_read; [done|exact Hp|done|by apply parameter_owner|].
    intros owner Hpar. cbn in Hpar. apply Hreq. destruct (decide (owner ∈ input_at inputs (be_target edge))) as [|Hno]; [done|].
    exfalso. pose proof (parameter_slot _ _ Hpar) as Hps. rewrite Hs in Hps. injection Hps as ->.
    apply Hx, elem_of_hidden. exists owner. split_and!; [done|by eapply parameter_owned|done].
Qed.
End edges.

(** ** Blocks *)

Section retiring.
Context {World Value : Type} `{!ResolvedRuntime World Value} `{!TransportRuntime World Value}.
Context (catalog : TransportStorage) (slot_of : string -> option NameLocation).
Context (bs : list (Block InstrResolved)) (scopes : gmap BlockLabel ScopeState) (inputs : gmap BlockLabel OwnerSet).
Context (T : Block InstrResolved -> Block InstrResolved).
Notation Slots := (gmap NameLocation Value).
Notation owners := (dom (ts_owners catalog)).
Notation hidden := (hidden catalog).
Notation resumes := (resume_targets bs).
Notation blocks := (block_map bs).
Notation after := (map T bs).
Notation points_from := (points_from resumes catalog blocks scopes inputs).
Notation term_live b := (transport_term_live resumes catalog blocks scopes inputs b).
Notation exceptional b := (transport_exceptional catalog blocks scopes inputs b).
Notation edge_live b edge := (transport_edge_live catalog blocks edge (state_of scopes (blk_label b)) inputs).
Definition resume_of (l : BlockLabel) : option BlockLabel :=
  find_block l bs ≫= (fun b => bc_suspension_resume (blk_extra b)).
(** Every raw copy that the function comes to, started in the configuration, reads a bound slot. *)
Definition copies_return (c : Config (World := World) (Value := Value)) : Prop :=
  forall ys l w σ b pre i post w1 σ1 vs,
    life_runs slot_of resume_of bs c ys (Running l w σ) -> find_block l bs = Some b ->
    blk_body b = pre ++ i :: post -> evs w σ pre w1 σ1 (Normal vs) -> copy_returns catalog i w1 σ1.

Hypothesis names_ok : forall k n, ts_owners catalog !! k = Some n -> from_name n = Some k.
Hypothesis parameter_slot : forall name k, ts_parameter catalog name = Some k -> slot_of name = Some (transport_slot k).
Hypothesis parameter_owned : forall name k, ts_parameter catalog name = Some k -> k ∈ owners.
Hypothesis parameter_owner : forall name k, slot_of name = Some (transport_slot k) -> k ∈ owners ->
  ts_parameter catalog name = Some k.
Hypothesis distinct : NoDup (labels bs).
Hypothesis closed : forall b t, b ∈ bs -> t ∈ edge_targets b -> t ∈ labels bs.
Hypothesis resumes_closed : forall l r, resume_of l = Some r -> r ∈ labels bs.
Hypothesis bodies : forall b, b ∈ bs -> forallb (transport_ok catalog) (blk_body b) = true.
Hypothesis terms : forall b i, b ∈ bs -> i ∈ resolved_term_instrs (blk_term b) -> child_ok catalog i = true.
Hypothesis in_order : forall b edge target, b ∈ bs -> blk_term b = BT_Jump edge \/ blk_exc_edge b = Some edge ->
  find_block (be_target edge) bs = Some target -> args_in_order catalog (edge_params target edge) = true.
Hypothesis solution : forall b, b ∈ bs ->
  input_at inputs (blk_label b) = default ∅ (head (points_from b (blk_body b))).
Hypothesis shape : forall b, b ∈ bs -> blk_label (T b) = blk_label b /\ blk_params (T b) = blk_params b
  /\ blk_exc_edge (T b) = blk_exc_edge b /\ blk_term (T b) = consume_term (blk_term b)
  /\ exists out, blk_body (T b) = map consume out /\ retired catalog (points_from b (blk_body b)) (blk_body b) out.

Lemma block_map_find l : blocks !! l = find_block l bs.
Proof.
  unfold block_map. destruct (find_block l bs) as [b|] eqn:E.
  - apply find_block_some in E as [Hb <-]. apply collect_map_unique; [by rewrite map_map|].
    apply list_elem_of_fmap. by exists b.
  - apply find_block_none in E. destruct (collect_map _ !! l) as [b|] eqn:Em; [|done].
    apply collect_map_elem, list_elem_of_fmap in Em as (b' & [= -> ->] & Hb'). exfalso. apply E. by apply list_elem_of_fmap_2.
Qed.
Lemma after_find_block l : find_block l after = T <$> find_block l bs.
Proof.
  assert (forall b, b ∈ bs -> blk_label (T b) = blk_label b) as Hl by (intros; by apply shape).
  clear -Hl. induction bs as [|b l' IH]; [done|]. cbn.
  rewrite (Hl b) by (by left). case_bool_decide; [done|]. apply IH. intros. apply Hl. by right.
Qed.
Lemma retired_params t : params_at after t = params_at bs t.
Proof.
  unfold params_at. rewrite after_find_block. destruct (find_block t bs) as [b|] eqn:E; [|done]. cbn.
  apply find_block_some in E as [Hb _]. by apply shape.
Qed.
Lemma retired_follow cur edge w (σ : Slots) : follow slot_of after cur edge w σ = follow slot_of bs cur edge w σ.
Proof. unfold follow. by rewrite retired_params. Qed.

Inductive lived : Config (World := World) (Value := Value) -> Config -> Prop :=
| Lived_Running l w σ1 σ2 :
    l ∈ labels bs -> agree_off (hidden (input_at inputs l)) σ1 σ2 -> lived (Running l w σ1) (Running l w σ2)
| Lived_Done exit w σ1 σ2 : agree_off (hidden ∅) σ1 σ2 -> lived (Done exit w σ1) (Done exit w σ2).

Lemma edge_lived b edge cur w (σ1 σ2 : Slots) :
  b ∈ bs -> be_target edge ∈ labels bs ->
  (forall target, find_block (be_target edge) bs = Some target -> args_in_order catalog (edge_params target edge) = true) ->
  agree_off (hidden (edge_live b edge)) σ1 σ2 ->
  lived (follow slot_of after cur edge w σ1) (follow slot_of bs cur edge w σ2).
Proof.
  intros Hb Ht Ho Ha. rewrite retired_follow. unfold follow. apply Lived_Running; [done|].
  destruct (find_block (be_target edge) bs) as [target|] eqn:E; [|by apply find_block_none in E].
  assert (params_at bs (be_target edge) = blk_params target) as -> by (unfold params_at; by rewrite E).
  eapply transport_edge_agree; [done|done|done|by rewrite block_map_find|by apply Ho|exact Ha].
Qed.

Lemma throw_lived b e w (σ1 σ2 : Slots) :
  b ∈ bs -> agree_off (hidden (exceptional b)) σ1 σ2 ->
  lived (throw slot_of after (T b) e w σ1) (throw slot_of bs b e w σ2).
Proof.
  intros Hb Ha. unfold throw. destruct (shape b Hb) as (_ & _ & -> & _). unfold transport_exceptional in Ha.
  destruct (blk_exc_edge b) as [edge|] eqn:E; cbn in Ha; [|by constructor].
  apply (edge_lived b); [done| | |done].
  - apply (closed b); [done|]. unfold edge_targets. rewrite E. set_solver.
  - intros target. apply (in_order b); [done|by right].
Qed.

(** The terminator's instruction. *)
Definition after_live (b : Block InstrResolved) : OwnerSet :=
  pending_live catalog b ∪ ⋃ (map (lifetime_edge_live catalog blocks scopes b inputs) (lifetime_edges resumes b)).
Lemma child_ok_statement i live : child_ok catalog i = true -> transport_ok catalog i = true /\ ~ dead_copy catalog i live.
Proof.
  unfold child_ok, transport_ok. intros [[Hf Hl]%andb_true_iff Hp]%andb_true_iff. rewrite Hl, Hp. cbn.
  destruct i as [|op children]; [split; [done|by intros []]|]. cbn in Hf. apply andb_true_iff in Hf as [Hk Hf].
  split; [done|]. destruct op; try discriminate Hk; by intros [].
Qed.
Lemma term_instr_lived b i w σ1 w' σ1' o (σ2 : Slots) :
  b ∈ bs -> resolved_term_instrs (blk_term b) = [i] -> ev w σ1 i w' σ1' o ->
  agree_off (hidden (term_live b)) σ1 σ2 ->
  exists σ2', ev w σ2 i w' σ2' o /\ agree_off (hidden (exceptional b)) σ1' σ2'
    /\ (is_normal o = true -> agree_off (hidden (after_live b)) σ1' σ2').
Proof.
  intros Hb Hi He Ha. unfold transport_term_live in Ha. rewrite Hi in Ha. cbn in Ha. fold (after_live b) in Ha.
  destruct (child_ok_statement i (after_live b)) as [Hok Hnd]; [apply (terms b); [done|]; rewrite Hi; by left|].
  destruct (transport_statement_agree catalog _ _ _ _ _ _ _ _ _ Hok Hnd He Ha) as (σ2' & E & A & N).
  exists σ2'. split_and!; [done| |].
  - eapply agree_off_mono; [|exact A]. apply hidden_mono. set_solver.
  - intros Ho. eapply agree_off_mono; [|by apply N]. apply hidden_mono. set_solver.
Qed.

Lemma lifetime_edge_in b edge flag :
  (edge, flag) ∈ lifetime_edges resumes b ->
  lifetime_edge_live catalog blocks scopes b inputs (edge, flag) ⊆ after_live b.
Proof.
  intros H x Hx. unfold after_live. apply elem_of_union_r, elem_of_union_list.
  eexists. split; [by apply list_elem_of_fmap_2|exact Hx].
Qed.
Lemma normal_edge_in b edge :
  edge ∈ normal_edges b -> be_target edge ∉ resumes -> edge_live b edge ⊆ after_live b.
Proof.
  intros He Hr. apply (lifetime_edge_in b edge false). unfold lifetime_edges. apply elem_of_app. left.
  apply list_elem_of_fmap. exists edge. split; [done|]. apply list_elem_of_In, List.filter_In.
  split; [by apply list_elem_of_In|]. by rewrite bool_decide_false.
Qed.
Lemma enters_resume_iff l (w : World) (σ : Slots) : enters_resume resume_of (Running l w σ) <-> l ∈ resumes.
Proof.
  cbn. unfold resume_targets, resume_of. rewrite elem_of_list_to_set, list_elem_of_omap. split.
  - intros (source & H). destruct (find_block source bs) as [b|] eqn:E; [|done].
    apply find_block_some in E as [Hb _]. eauto.
  - intros (b & Hb & H). exists (blk_label b). by rewrite (find_block_elem bs b).
Qed.

Lemma branch_lived b t w (σ1 σ2 : Slots) :
  b ∈ bs -> edge_new t ∈ normal_edges b -> t ∉ resumes -> agree_off (hidden (after_live b)) σ1 σ2 ->
  lived (Running t w σ1) (Running t w σ2).
Proof.
  intros Hb He Hr Ha. assert (t ∈ labels bs) as Ht.
  { apply (closed b); [done|]. unfold edge_targets, normal_targets, normal_edges in *. apply elem_of_app. left.
    destruct (blk_term b); cbn in *; try (apply list_elem_of_fmap in He as (x & [= ->] & Hx)); set_solver. }
  rewrite <- (follow_bare slot_of after None t w σ1), <- (follow_bare slot_of bs None t w σ2).
  apply (edge_lived b); [done|done| |].
  - intros target _. unfold edge_params. cbn. by destruct (drop _ _).
  - eapply agree_off_mono; [|exact Ha]. apply hidden_mono. by apply normal_edge_in.
Qed.

Lemma term_lived b w σ1 c (σ2 : Slots) :
  b ∈ bs -> term_step slot_of after (blk_term b) w σ1 c -> ~ enters_resume resume_of c ->
  agree_off (hidden (term_live b)) σ1 σ2 -> exists c', term_step slot_of bs (blk_term b) w σ2 c' /\ lived c c'.
Proof.
  intros Hb Hs Hr Ha.
  assert (forall i w' σ1' v, resolved_term_instrs (blk_term b) = [i] -> ev w σ1 i w' σ1' (Normal v) ->
    exists σ2', ev w σ2 i w' σ2' (Normal v) /\ agree_off (hidden (after_live b)) σ1' σ2') as Hi.
  { intros i w' σ1' v Hi He. destruct (term_instr_lived _ _ _ _ _ _ _ _ Hb Hi He Ha) as (σ3 & E3 & _ & A3). eauto. }
  pose proof (fun t w τ1 τ2 => branch_lived b t w τ1 τ2 Hb) as Hbranch. pose proof (in_order b) as Hord.
  assert (forall edge, blk_term b = BT_Jump edge -> be_target edge ∈ labels bs) as Hcl.
  { intros edge Et. apply (closed b); [done|]. unfold edge_targets, normal_targets. rewrite Et. set_solver. }
  assert (forall edge, blk_term b = BT_Jump edge -> edge ∈ normal_edges b) as Hne.
  { intros edge Et. unfold normal_edges. rewrite Et. set_solver. }
  unfold normal_edges in Hbranch. unfold transport_term_live in Ha. fold (after_live b) in Ha.
  destruct (blk_term b) as [edge|i|i|r|i|i] eqn:Et; inversion Hs; subst.
  - eexists. split; [constructor|]. assert (be_target edge ∉ resumes) as Hnr.
    { intros Hin. apply Hr. unfold follow. by apply enters_resume_iff. }
    apply (edge_lived b); [done|by apply Hcl|by intros target; apply Hord; [|left]|].
    eapply agree_off_mono; [|exact Ha]. apply hidden_mono. cbn.
    pose proof (normal_edge_in b edge (Hne _ eq_refl) Hnr). set_solver.
  - match goal with H : ev _ _ _ _ _ _ |- _ => destruct (Hi _ _ _ _ eq_refl H) as (σ3 & E3 & A3) end.
    eexists. split; [by econstructor|]. apply Hbranch; [|by intros Hin; apply Hr, enters_resume_iff|done].
    cbn. case_match; set_solver.
  - match goal with H : ev _ _ _ _ _ _ |- _ => destruct (Hi _ _ _ _ eq_refl H) as (σ3 & E3 & A3) end.
    eexists. split; [by econstructor|]. apply Hbranch; [|by intros Hin; apply Hr, enters_resume_iff|done].
    apply list_elem_of_fmap_2. destruct (tb_targets i !! n) as [x|] eqn:En; cbn; [apply list_elem_of_lookup_2 in En|]; set_solver.
  - match goal with H : ev _ _ _ _ _ _ |- _ => destruct (Hi _ _ _ _ eq_refl H) as (σ3 & E3 & A3) end.
    eexists. split; [by econstructor|]. apply Lived_Done. eapply agree_off_mono; [|exact A3]. apply hidden_mono. set_solver.
  - match goal with H : ev _ _ _ _ _ _ |- _ => destruct (Hi _ _ _ _ eq_refl H) as (σ3 & E3 & A3) end.
    eexists. split; [by econstructor|]. apply Lived_Done. eapply agree_off_mono; [|exact A3]. apply hidden_mono. set_solver.
Qed.

Lemma raise_lived b w σ1 w' σ1' e (σ2 : Slots) :
  b ∈ bs -> term_raise (blk_term b) w σ1 w' σ1' e -> agree_off (hidden (term_live b)) σ1 σ2 ->
  exists σ2', term_raise (blk_term b) w σ2 w' σ2' e /\ agree_off (hidden (exceptional b)) σ1' σ2'.
Proof.
  intros Hb Hs Ha.
  assert (forall i o, i ∈ resolved_term_instrs (blk_term b) -> ev w σ1 i w' σ1' o ->
    exists σ2', ev w σ2 i w' σ2' o /\ agree_off (hidden (exceptional b)) σ1' σ2') as Hi.
  { intros i o Hi He. assert (resolved_term_instrs (blk_term b) = [i]) as Hi'.
    { clear -Hi. destruct (blk_term b) as [| | |r| |]; cbn in *; try set_solver.
      destruct (tr_exc r); cbn in *; set_solver. }
    destruct (term_instr_lived _ _ _ _ _ _ _ _ Hb Hi' He Ha) as (σ3 & E3 & A3 & _). eauto. }
  inversion Hs as [t i ? ? ? ? ? Hin He|r i ? ? ? ? ? Hr He Et|r ? ? ? Hr Hc Et]; subst.
  - destruct (Hi _ _ Hin He) as (σ3 & E3 & A3). exists σ3. split; [by eapply TR_Instr|done].
  - destruct (Hi i (Normal e)) as (σ3 & E3 & A3); [rewrite <- Et; cbn; rewrite Hr; by left|exact He|].
    exists σ3. split; [by eapply TR_Raise|done].
  - exists σ2. split; [by apply TR_Current|]. eapply agree_off_mono; [|exact Ha]. apply hidden_mono.
    unfold transport_term_live. set_solver.
Qed.

(** The yielding return, and the frame it is resumed in. *)
Lemma resume_lived b resume w3 v w σ1 w2 σ1' (σ2 τ : Slots) :
  b ∈ bs -> term_step slot_of after (blk_term b) w σ1 (Done (FE_Returned v) w2 σ1') ->
  resume_of (blk_label b) = Some resume -> (forall l, is_preserved_location l = true -> τ !! l = σ1' !! l) ->
  agree_off (hidden (term_live b)) σ1 σ2 ->
  exists σ2' τ', term_step slot_of bs (blk_term b) w σ2 (Done (FE_Returned v) w2 σ2')
    /\ (forall l, is_preserved_location l = true -> τ' !! l = σ2' !! l)
    /\ lived (Running resume w3 τ) (Running resume w3 τ').
Proof.
  intros Hb Hs Hres Hτ Ha. inversion Hs as [| | |i ? ? ? ? ? He Et|]; subst.
  assert (resolved_term_instrs (blk_term b) = [i]) as Hi by (by rewrite <- Et).
  destruct (term_instr_lived _ _ _ _ _ _ _ _ Hb Hi He Ha) as (σ3 & E3 & _ & A3).
  specialize (A3 eq_refl).
  exists σ3, (filter (fun p => is_preserved_location p.1 = true) σ3 ∪ filter (fun p => is_preserved_location p.1 = false) τ).
  assert (forall l, is_preserved_location l = true ->
    (filter (fun p => is_preserved_location p.1 = true) σ3 ∪ filter (fun p => is_preserved_location p.1 = false) τ) !! l = σ3 !! l) as Hp.
  { intros l Hl. destruct (σ3 !! l) as [x|] eqn:El.
    - apply lookup_union_Some_l, map_lookup_filter_Some. done.
    - rewrite lookup_union_r; [|apply map_lookup_filter_None; by left].
      apply map_lookup_filter_None. right. intros x _. cbn. congruence. }
  split_and!; [by constructor|exact Hp|]. apply Lived_Running; [by eapply resumes_closed|].
  intros l Hl. destruct (is_preserved_location l) eqn:El.
  - rewrite Hp, Hτ by done. apply A3. intros (k & -> & Hk & Hn)%elem_of_hidden. apply Hl, elem_of_hidden.
    exists k. split_and!; [done|done|]. intros Hin. apply Hn.
    apply (lifetime_edge_in b (edge_new resume) true).
    + unfold lifetime_edges. apply elem_of_app. right. unfold resume_of in Hres. rewrite (find_block_elem bs b) in Hres by done.
      cbn in Hres. rewrite Hres. by left.
    + unfold lifetime_edge_live. cbn. unfold saved_owners. apply elem_of_filter. rewrite <- preserved_slot. done.
  - rewrite lookup_union_r; [|apply map_lookup_filter_None; right; intros x _; cbn; congruence].
    destruct (τ !! l) as [x|] eqn:Ex.
    + symmetry. by apply map_lookup_filter_Some.
    + symmetry. apply map_lookup_filter_None. by left.
Qed.

Lemma life_step_lived c ys d c0 :
  life_step slot_of resume_of after c ys d -> copies_return c0 -> lived c c0 ->
  exists d0, life_step slot_of resume_of bs c0 ys d0 /\ lived d d0.
Proof.
  intros Hs Hco Hc. destruct Hc as [l w σ1 σ2 Hl Ha|]; [|by inversion Hs].
  assert (forall b', find_block l after = Some b' -> exists b, find_block l bs = Some b /\ b ∈ bs /\ blk_label b = l /\ b' = T b
    /\ forall w' σ' o, evs w σ1 (blk_body b') w' σ' o -> exists o' σ2', evs w σ2 (blk_body b) w' σ2' o' /\ same_outcome o o'
      /\ agree_off (hidden (if is_normal o then term_live b else exceptional b)) σ' σ2') as Hfind.
  { intros b' Hb'. rewrite after_find_block in Hb'. destruct (find_block l bs) as [b|] eqn:E; [|done]. cbn in Hb'.
    injection Hb' as <-. destruct (find_block_some _ _ _ E) as [Hb El]. exists b. split_and!; try done.
    intros w' σ' o He. destruct (shape b Hb) as (_ & _ & _ & _ & out & Eo & Hret). rewrite Eo in He.
    apply evs_consume in He. eapply body_retired_agree; [done| |by apply bodies|exact Hret|exact He|].
    - intros pre i post w2 τ vs Eb Hp. by eapply (Hco []); [constructor|..].
    - rewrite <- solution by done. by rewrite El. }
  inversion Hs as [? b' ? ? w1 σ3 vs ? Hb' Hbody Hterm Hnr|? b' ? ? w1 σ3 e Hb' Hbody
    |? b' ? ? w1 σ3 vs w2 σ4 e Hb' Hbody Hterm|? b' ? ? w1 σ3 vs v w2 σ4 resume w3 τ Hb' Hbody Hterm Hres Hτ]; subst;
    destruct (Hfind _ Hb') as (b & Hf & Hb & El & -> & Hev); destruct (Hev _ _ _ Hbody) as (o' & σ5 & E5 & S5 & A5); cbn in A5;
    destruct (shape b Hb) as (_ & _ & _ & Et & _).
  - destruct o' as [vs'|]; [|done]. rewrite Et in Hterm. apply consume_term_step in Hterm.
    destruct (term_lived _ _ _ _ _ Hb Hterm Hnr A5) as (d0 & Hd & Hl0). exists d0. split; [|done].
    eapply LS_Term; [done|done|done|]. intros Hin. apply Hnr. by inversion Hl0; subst.
  - destruct o' as [|e']; [done|]. cbn in S5. subst e'. eexists. split; [by eapply LS_Body|]. by apply throw_lived.
  - destruct o' as [vs'|]; [|done]. rewrite Et in Hterm. apply consume_term_raise in Hterm.
    destruct (raise_lived _ _ _ _ _ _ _ Hb Hterm A5) as (σ6 & E6 & A6).
    eexists. split; [by eapply LS_Raise|]. by apply throw_lived.
  - destruct o' as [vs'|]; [|done]. rewrite Et in Hterm. apply consume_term_step in Hterm.
    rewrite <- El in Hres.
    destruct (resume_lived _ _ w3 _ _ _ _ _ _ _ Hb Hterm Hres Hτ A5) as (σ6 & τ' & E6 & Hτ' & Hl0). rewrite El in Hres.
    eexists. split; [|exact Hl0]. by eapply LS_Resume.
Qed.
Lemma life_runs_lived c ys d c0 :
  life_runs slot_of resume_of after c ys d -> copies_return c0 -> lived c c0 ->
  exists d0, life_runs slot_of resume_of bs c0 ys d0 /\ lived d d0.
Proof.
  intros H. revert c0. induction H as [c|c1 c2 c3 y ys Hs _ IH]; intros c0 Hco Hc;
    [exists c0; split; [constructor|done]|].
  destruct (life_step_lived _ _ _ _ Hs Hco Hc) as (d1 & H1 & Hd1).
  assert (copies_return d1) as Hco1.
  { intros zs l w σ b pre i post w1 σ1 vs Hr. eapply Hco. by econstructor. }
  destruct (IH _ Hco1 Hd1) as (d0 & H2 & Hd0).
  exists d0. split; [by econstructor|done].
Qed.
End retiring.

(** ** What the pass writes *)

Section written.
Context (resumes : gset BlockLabel) (catalog : TransportStorage) (blocks : gmap BlockLabel (Block InstrResolved)).
Context (scopes : gmap BlockLabel ScopeState) (inputs : gmap BlockLabel OwnerSet).
Context (live : gmap BlockLabel (list OwnerSet)) (b : Block InstrResolved).
Notation points_from := (points_from resumes catalog blocks scopes inputs b).
Notation point := (point_at live (blk_label b)).

Lemma kill_copy_spec k i :
  (kill_copy catalog live (blk_label b) (k, i) = i /\ ~ dead_copy catalog i (point (S k)))
  \/ (kill_copy catalog live (blk_label b) (k, i) = killed i /\ dead_copy catalog i (point (S k))).
Proof.
  destruct i as [|op children]; [left; split; [done|by intros []]|].
  destruct op; try (left; split; [done|by intros []]).
  unfold kill_copy. destruct (copy_source catalog name purpose children) as [src|] eqn:Ec.
  - destruct (copy_source_some _ _ _ _ _ Ec) as (_ & [d Hd] & _). rewrite Hd. case_bool_decide as Hin.
    + left. split; [done|]. intros [_ Hn]. by apply (Hn d).
    + right. split; [done|]. unfold dead_copy. rewrite Ec. split; [by eexists|]. intros k' Hk'. congruence.
  - left. split; [done|]. unfold dead_copy. rewrite Ec. by intros [[? ?] _].
Qed.
Lemma resets_empty : resets catalog ∅ = [].
Proof. unfold resets, in_order. by rewrite elements_empty. Qed.
Lemma retire_disjoint owned p : (retire_at_point b owned p).1 ## p.
Proof. unfold retire_at_point. destruct (is_region b); cbn; set_solver. Qed.

Lemma points_from_cons body : exists p rest, points_from body = p :: rest.
Proof. destruct body; cbn; eauto. Qed.

(** The suffix of a body from index [k] on. *)
Lemma retire_fold body : forall k owned acc,
  (forall j, point (k + j)%nat = default ∅ (points_from body !! j)) ->
  exists owned' out,
    fold_left (retire_step catalog live b)
      (zip (seq k (length body)) (map (kill_copy catalog live (blk_label b)) (zip (seq k (length body)) body))) (owned, acc)
    = (owned', acc ++ out)
    /\ forall dead, dead ## default ∅ (last (points_from body)) ->
         retired catalog (points_from body) body (out ++ resets catalog dead).
Proof.
  induction body as [|i body IH]; intros k owned acc Hp.
  { exists owned, []. cbn. rewrite app_nil_r. split; [done|]. intros dead Hd. by constructor. }
  destruct (points_from_cons body) as (q & rest & Eq).
  cbn [length seq zip zip_with map fold_left].
  assert (exists dead owned1, retire_step catalog live b (owned, acc) (k, kill_copy catalog live (blk_label b) (k, i))
    = (owned1, acc ++ resets catalog dead ++ [kill_copy catalog live (blk_label b) (k, i)]) /\ dead ## point k) as (dead & owned1 & Es & Hdis).
  { cbn. pose proof (retire_disjoint owned (point k)) as Hd. destruct (retire_at_point b owned (point k)) as [dead owned2]. eauto. }
  rewrite Es. destruct (IH (S k) owned1 (acc ++ resets catalog dead ++ [kill_copy catalog live (blk_label b) (k, i)]))
    as (owned' & out & E & Hr).
  { intros j. specialize (Hp (S j)). cbn in Hp. by rewrite Nat.add_succ_r in Hp. }
  exists owned', (resets catalog dead ++ kill_copy catalog live (blk_label b) (k, i) :: out). split.
  - rewrite E. f_equal. by rewrite <- !app_assoc.
  - intros dead' Hd'. rewrite <- app_assoc. cbn [app TransportLifetime.points_from] in Hd' |- *. specialize (Hr dead').
    pose proof (Hp 0%nat) as H0. rewrite Nat.add_0_r in H0. cbn in H0. pose proof (Hp 1%nat) as H1.
    cbn in H1. rewrite Eq in *. cbn in H0, H1. rewrite Nat.add_1_r in H1.
    apply Ret_Step; [rewrite H0 in Hdis; exact Hdis| |apply Hr; exact Hd']. rewrite <- H1. apply kill_copy_spec.
Qed.
Lemma kill_plain body : forall k,
  (forall j, point (k + j)%nat = default ∅ (points_from body !! j)) ->
  retired catalog (points_from body) body (map (kill_copy catalog live (blk_label b)) (zip (seq k (length body)) body)).
Proof.
  induction body as [|i body IH]; intros k Hp.
  { cbn. rewrite <- resets_empty. constructor. set_solver. }
  destruct (points_from_cons body) as (q & rest & Eq). cbn [length seq zip zip_with map].
  pose proof (Hp 1%nat) as H1. cbn in H1. rewrite Eq in H1. cbn in H1. rewrite Nat.add_1_r in H1.
  assert (retired catalog (points_from body) body (map (kill_copy catalog live (blk_label b)) (zip (seq (S k) (length body)) body))) as Hr.
  { apply IH. intros j. specialize (Hp (S j)). cbn in Hp. by rewrite Nat.add_succ_r in Hp. }
  cbn [TransportLifetime.points_from]. rewrite Eq in *.
  change (kill_copy catalog live (blk_label b) (k, i) :: ?l) with ([] ++ kill_copy catalog live (blk_label b) (k, i) :: l).
  rewrite <- resets_empty. apply Ret_Step; [set_solver| |exact Hr]. rewrite <- H1. apply kill_copy_spec.
Qed.

Lemma retire_block_spec owned_in :
  live !! blk_label b = Some (points_from (blk_body b)) ->
  let b' := consume_block (retire_block catalog live owned_in (kill_copies catalog live b)) in
  blk_label b' = blk_label b /\ blk_params b' = blk_params b /\ blk_exc_edge b' = blk_exc_edge b
  /\ blk_term b' = consume_term (blk_term b)
  /\ exists out, blk_body b' = map consume out /\ retired catalog (points_from (blk_body b)) (blk_body b) out.
Proof.
  intros Hl. cbn zeta.
  assert (forall j, point (0 + j)%nat = default ∅ (points_from (blk_body b) !! j)) as Hp.
  { intros j. unfold point_at. by rewrite Hl. }
  unfold retire_block. change (blk_label (kill_copies catalog live b)) with (blk_label b).
  destruct (owned_in !! blk_label b) as [owned|].
  - destruct (retire_fold (blk_body b) 0 owned [] Hp) as (owned' & out & E & Hr).
    change (retire_step catalog live (kill_copies catalog live b)) with (retire_step catalog live b).
    change (retire_at_point (kill_copies catalog live b)) with (retire_at_point b).
    assert (enumerate (blk_body (kill_copies catalog live b))
      = zip (seq 0 (length (blk_body b))) (map (kill_copy catalog live (blk_label b)) (zip (seq 0 (length (blk_body b))) (blk_body b)))) as ->.
    { unfold kill_copies, enumerate. cbn. by rewrite length_map, length_zip_with, length_seq, Nat.min_id. }
    rewrite E. cbn [app].
    pose proof (retire_disjoint owned' (last_point live (blk_label b))) as Hd.
    destruct (retire_at_point b owned' _) as [dead owned2]. cbn in Hd |- *. split_and!; try done.
    exists (out ++ resets catalog dead). split; [done|]. apply Hr. unfold last_point in Hd. by rewrite Hl in Hd.
  - cbn. split_and!; try done. eexists. split; [done|]. by apply kill_plain.
Qed.
End written.

(** ** The pass *)

Lemma catalog_facts f catalog :
  transport_storage_new f = Some (Some catalog) ->
  (forall k n, ts_owners catalog !! k = Some n -> from_name n = Some k)
  /\ forall name k, ts_parameter catalog name = Some k -> k ∈ dom (ts_owners catalog).
Proof.
  intros H. destruct (rf_storage_layout f) as [layout|] eqn:El.
  - destruct (block_parameter_transport_copies (rf_blocks f)) as [copies|] eqn:Ec.
    2: { unfold transport_storage_new in H. rewrite El, Ec in H. by destruct (declared_storage _ _). }
    destruct (transport_storage_spec f layout copies _ El Ec H) as (st & [= <-] & _ & _ & _ & Hn & Hl).
    split; [done|]. intros name k Hk. apply elem_of_dom. by eapply Hl.
  - unfold transport_storage_new in H. rewrite El in H. injection H as <-. split; [done|]. done.
Qed.

(** Only purposes are consumed. *)
Section plain.
Context {World Value : Type} `{!ResolvedRuntime World Value} `{!TransportRuntime World Value}.
Context (slot_of : string -> option NameLocation) (resume : BlockLabel -> option BlockLabel).
Context (bs : list (Block InstrResolved)).
Notation after := (map consume_block (map without_resume bs)).

Lemma consumed_find l : find_block l after = (fun b => consume_block (without_resume b)) <$> find_block l bs.
Proof. induction bs as [|b l' IH]; [done|]. cbn. case_bool_decide; [done|exact IH]. Qed.
Lemma consumed_params t : params_at after t = params_at bs t.
Proof. unfold params_at. rewrite consumed_find. by destruct (find_block t bs). Qed.
Lemma consumed_follow cur edge (w : World) (σ : gmap NameLocation Value) :
  follow slot_of after cur edge w σ = follow slot_of bs cur edge w σ.
Proof. unfold follow. by rewrite consumed_params. Qed.
Lemma consumed_term t (w : World) (σ : gmap NameLocation Value) c :
  term_step slot_of after (consume_term t) w σ c -> term_step slot_of bs t w σ c.
Proof.
  intros H%consume_term_step. inversion H; subst; rewrite ?consumed_follow; by econstructor.
Qed.
Lemma consumed_runs c ys d :
  life_runs (World := World) (Value := Value) slot_of resume after c ys d -> life_runs slot_of resume bs c ys d.
Proof.
  induction 1 as [c|c1 c2 c3 y ys Hs _ IH]; [constructor|]. eapply LR_Step; [|exact IH].
  assert (forall l b', find_block l after = Some b' -> exists b, find_block l bs = Some b /\ b' = consume_block (without_resume b)) as Hf.
  { intros l b' Hb'. rewrite consumed_find in Hb'. destruct (find_block l bs) as [b|]; [|done]. injection Hb' as <-. eauto. }
  assert (forall b e w (σ : gmap NameLocation Value), throw slot_of after (consume_block (without_resume b)) e w σ = throw slot_of bs b e w σ) as Ht.
  { intros b e w σ. unfold throw. cbn. destruct (blk_exc_edge b); [apply consumed_follow|done]. }
  inversion Hs as [? b' ? ? w1 σ3 vs ? Hb' Hbody Hterm Hnr|? b' ? ? w1 σ3 e Hb' Hbody
    |? b' ? ? w1 σ3 vs w2 σ4 e Hb' Hbody Hterm|? b' ? ? w1 σ3 vs v w2 σ4 r w3 τ Hb' Hbody Hterm Hres Hτ]; subst;
    destruct (Hf _ _ Hb') as (b & Hb & ->); cbn in Hbody; apply evs_consume in Hbody; rewrite ?Ht.
  - eapply LS_Term; [done|done|by apply consumed_term|done].
  - by eapply LS_Body.
  - eapply LS_Raise; [done|done|by apply consume_term_raise].
  - eapply LS_Resume; [done|done|by apply consumed_term|done|done].
Qed.
End plain.

(** What the pass relies on: the shape of resolved code, that block arguments address the slots
    of the catalogue, and that no argument names a transport that a later parameter of its edge rebinds. *)
Record retire_ready (slot_of : string -> option NameLocation) (f : ResolvedFunction) (catalog : TransportStorage) : Prop := mkRetireReady {
  retire_catalog : transport_storage_new f = Some (Some catalog);
  retire_distinct : NoDup (labels (rf_blocks f));
  retire_closed b t : b ∈ rf_blocks f -> t ∈ edge_targets b -> t ∈ labels (rf_blocks f);
  retire_resumes l r : resume_of (rf_blocks f) l = Some r -> r ∈ labels (rf_blocks f);
  retire_bodies b : b ∈ rf_blocks f -> forallb (transport_ok catalog) (blk_body b) = true;
  retire_terms b i : b ∈ rf_blocks f -> i ∈ resolved_term_instrs (blk_term b) -> child_ok catalog i = true;
  retire_args b edge target : b ∈ rf_blocks f -> blk_term b = BT_Jump edge \/ blk_exc_edge b = Some edge ->
    find_block (be_target edge) (rf_blocks f) = Some target -> args_in_order catalog (edge_params target edge) = true;
  retire_slot name k : ts_parameter catalog name = Some k -> slot_of name = Some (transport_slot k);
  retire_owner name k : slot_of name = Some (transport_slot k) -> k ∈ dom (ts_owners catalog) ->
    ts_parameter catalog name = Some k
}.


(** ** Examples *)

Module DemoRetire.
Definition name_e : ResolvedName := mkResolvedName "e" (NL_Local (mkLocalLocation 0)).
Definition text : InstrResolved := R_Literal (Lit_String "v").
Definition work : Block InstrResolved :=
  mkBlock (mkBlockLabel 0) [R_Node (Op_Load DemoUnwind.name_g None) []] (BT_Return text) []
    (Some (mkBlockEdge (mkBlockLabel 1) [BA_CurrentException])) block_context_default.
Definition handler : Block InstrResolved :=
  mkBlock (mkBlockLabel 1) [R_Node (Op_Load name_e None) []; text] (BT_Return text)
    [mkBlockParam "e" BPR_Exception] None block_context_default.
Definition layout : StorageLayout := mkStorageLayout None [] None [] [] [] ["e"] [].
Definition demo : ResolvedFunction :=
  mkResolvedFunction (from_raw_parts 0 1) "f" FK_Function (mkFunctionNameGen 0) (Some layout) [work; handler].
Definition catalog : TransportStorage :=
  mkTransportStorage {[TL_Local 0 := name_e]} {["e" := {[TL_Local 0]}]} {["e" := TL_Local 0]}.
Definition slot_of (name : string) : option NameLocation :=
  if bool_decide (name = "e") then Some (NL_Local (mkLocalLocation 0)) else None.
Definition result : ResolvedFunction := default demo (retire_exception_transports demo).
#[global] Instance transports : TransportRuntime unit Z.
Proof.
  split; try done.
  - by intros ? [] ? ? [].
  - intros n w rs vs w' e Hn [_ Hl]. unfold resolved_runtime_name_id in Hn. by rewrite Hl in Hn.
  - by intros ? ? ? [] ? ? [].
  - by intros ? ? ? ? ? ? ? ? ? [].
  - intros. by exists 1.
Qed.

(** The exception is reset once it has been read. *)
Lemma reset_after_read : retire_exception_transports demo = Some result
  /\ map blk_body (rf_blocks result) = [blk_body work; [R_Node (Op_Load name_e None) []; reset name_e; text]].
Proof. by vm_compute. Qed.

Lemma retire_demo_ready : retire_ready slot_of demo catalog.
Proof.
  assert (forall b, b ∈ rf_blocks demo -> b = work \/ b = handler) as Hb.
  { intros b Hb. cbn in Hb. set_solver. }
  split.
  - by vm_compute.
  - apply (bool_decide_unpack _). vm_compute. exact I.
  - intros b t [-> | ->]%Hb; cbn; set_solver.
  - intros l r H. unfold resume_of in H. cbn in H. by repeat case_bool_decide.
  - by intros b [-> | ->]%Hb; vm_compute.
  - intros b i [-> | ->]%Hb; cbn; by intros ->%list_elem_of_singleton.
  - intros b edge target [-> | ->]%Hb Hedge Ht; cbn in Hedge; destruct Hedge as [|[= <-]]; try done.
    vm_compute in Ht. injection Ht as <-. by vm_compute.
  - intros name k Hk. unfold ts_parameter in Hk. cbn in Hk. apply lookup_singleton_Some in Hk as [<- <-]. done.
  - intros name k Hs Hk. cbn in Hk. rewrite dom_singleton_L in Hk. apply elem_of_singleton in Hk as ->.
    unfold slot_of in Hs. by case_bool_decide; subst.
Qed.

Lemma demo_copies_return c :
  copies_return (World := unit) (Value := Z) catalog slot_of (rf_blocks demo) c.
Proof.
  intros ys l w σ b pre i post w1 σ1 vs _ _ _ _ name lifetime src cached k _ Hk.
  exists 1. split; [done|]. apply key_slot in Hk as [-> _]. by destruct k.
Qed.

Lemma retire_demo_run : exists σ' : gmap NameLocation Z,
  life_runs slot_of (resume_of (rf_blocks demo)) (rf_blocks result) (Running (mkBlockLabel 0) tt ∅) [] (Done (FE_Returned 0) tt σ').
Proof.
  assert (rf_blocks result = [work; with_body handler [R_Node (Op_Load name_e None) []; reset name_e; text]]) as ->
    by by vm_compute.
  eexists. eapply (LR_Step _ _ _ _ _ _ [] []).
  { eapply (LS_Body _ _ _ _ work _ _ tt ∅ 2); [reflexivity|]. apply Evs_Head.
    eapply Ev_Raise; [constructor|by split|constructor]. }
  eapply (LR_Step _ _ _ _ _ _ [] []); [|constructor].
  assert (forall σ : gmap NameLocation Z, ev tt σ text tt σ (Normal 0)) as Htext
    by (intros σ; exact (Ev_Literal tt σ (Lit_String "v"))).
  eapply LS_Term; [reflexivity| |apply TS_Return, Htext|by intros []].
  eapply (Evs_Cons _ _ _ _ tt _ 1); [eapply Ev_Node; [constructor|by split|by constructor]|].
  eapply (Evs_Cons _ _ _ _ tt _ 1); [eapply (Ev_Node _ _ _ _ tt _ [1]); [|by split|constructor]|].
  { eapply (Evs_Cons _ _ _ _ tt _ 1); [|constructor]. eapply Ev_Node; [constructor|by split|by constructor]. }
  eapply Evs_Cons; [apply Htext|constructor].
Qed.

(** Two handlers whose exceptions an edge exchanges. *)
Definition outer : BlockParam := mkBlockParam "outer" BPR_EnclosingException.
Definition inner : BlockParam := mkBlockParam "inner" BPR_Exception.
Definition name_outer : ResolvedName := mkResolvedName "outer" (NL_Local (mkLocalLocation 0)).
Definition name_inner : ResolvedName := mkResolvedName "inner" (NL_Local (mkLocalLocation 1)).
Definition exchange : BlockTerm InstrResolved :=
  BT_Jump (mkBlockEdge (mkBlockLabel 2) [BA_Name "inner"; BA_Name "outer"]).
Definition swap_blocks : list (Block InstrResolved) :=
  [mkBlock (mkBlockLabel 0) [] (BT_Return text) [] (Some (mkBlockEdge (mkBlockLabel 1) [BA_CurrentException; BA_CurrentException]))
     block_context_default;
   mkBlock (mkBlockLabel 1) [] exchange [outer; inner] None block_context_default;
   mkBlock (mkBlockLabel 2) [] (BT_Return (R_Node (Op_Load name_outer None) [])) [outer; inner] None block_context_default].
Definition swap : ResolvedFunction :=
  mkResolvedFunction (from_raw_parts 0 1) "f" FK_Function (mkFunctionNameGen 0)
    (Some (mkStorageLayout None [] None [] [] [] ["outer"; "inner"] [])) swap_blocks.
End DemoRetire.


(** A value is lost when an edge exchanges two transports: block 1 hands [inner] to the first
    parameter and [outer] to the second, and block 2 returns its first parameter; the liveness of
    the edge forgets [inner] when it comes to the parameter of that name, so both slots are reset
    before the jump that reads them. *)
Example exchanged_transport_lost :
  exists f', retire_exception_transports DemoRetire.swap = Some f'
    /\ find_block (mkBlockLabel 1) (rf_blocks f')
       = Some (mkBlock (mkBlockLabel 1) [reset DemoRetire.name_outer; reset DemoRetire.name_inner] DemoRetire.exchange
                 [DemoRetire.outer; DemoRetire.inner] None block_context_default)
    /\ find_block (mkBlockLabel 2) (rf_blocks f') = find_block (mkBlockLabel 2) (rf_blocks DemoRetire.swap).
Proof. eexists. split; [vm_compute; reflexivity|]. split; by vm_compute. Qed.
