(* ===== verification/TransportTotal.v ===== *)
(** * The analyses of transports end

    The three loops of TransportLifetime.v return.  The active handlers of a bridge start from
    the list of all handlers, which is not an upper bound of what its predecessors have, so they
    need not shrink at every round: bridges without a cycle of bridges before them settle one
    after the other, and the others hold prefixes of that list, which only get shorter. *)

From stdpp Require Import gmap.
From S2P Require Import Prelude Order Collections Ids IdsProps Cfg CfgProps Names Instr Layout BbShape.
From S2P Require Import Resolved ResolvedSem Roles Flow Transport TransportProps TransportLifetime TransportLifetimeProps.

Local Open Scope Z_scope.

(** ** Common prefixes *)

Lemma common_prefix_l l1 l2 : common_prefix l1 l2 `prefix_of` l1.
Proof.
  revert l2. induction l1 as [|x l1 IH]; intros [|y l2]; cbn; try apply prefix_nil.
  case_bool_decide; [|apply prefix_nil]. apply prefix_cons, IH.
Qed.
Lemma common_prefix_greatest l l1 l2 :
  l `prefix_of` common_prefix l1 l2 <-> l `prefix_of` l1 /\ l `prefix_of` l2.
Proof.
  revert l1 l2. induction l as [|x l IH]; intros l1 l2; [split; intros; [split|]; apply prefix_nil|].
  destruct l1 as [|y l1], l2 as [|z l2]; cbn.
  - split; [by intros ?%prefix_nil_not|by intros [?%prefix_nil_not _]].
  - split; [by intros ?%prefix_nil_not|by intros [?%prefix_nil_not _]].
  - split; [by intros ?%prefix_nil_not|by intros [_ ?%prefix_nil_not]].
  - case_bool_decide as E.
    + subst z. split.
      * intros H. pose proof (prefix_cons_inv_1 _ _ _ _ H) as ->. apply prefix_cons_inv_2, IH in H as [H1 H2].
        split; by apply prefix_cons.
      * intros [H1 H2]. pose proof (prefix_cons_inv_1 _ _ _ _ H1) as ->.
        apply prefix_cons_inv_2 in H1, H2. by apply prefix_cons, IH.
    + split; [by intros ?%prefix_nil_not|]. intros [H1%prefix_cons_inv_1 H2%prefix_cons_inv_1]. congruence.
Qed.
Lemma common_prefix_fold {A} (f : A -> list string) l ls l0 :
  l `prefix_of` fold_left (fun acc x => common_prefix acc (f x)) ls l0
  <-> l `prefix_of` l0 /\ forall x, x ∈ ls -> l `prefix_of` f x.
Proof.
  revert l0. induction ls as [|x ls IH]; intros l0; cbn.
  { split; [|by intros []]. intros. split; [done|]. by intros y ?%not_elem_of_nil. }
  rewrite IH, common_prefix_greatest. setoid_rewrite elem_of_cons. naive_solver.
Qed.
Lemma prefix_antisym_same (l1 l2 : list string) :
  (forall l, l `prefix_of` l1 <-> l `prefix_of` l2) -> l1 = l2.
Proof.
  intros H. pose proof (proj1 (H l1) ltac:(done)) as H1. pose proof (proj2 (H l2) ltac:(done)) as H2.
  destruct H1 as [k1 E1], H2 as [k2 E2]. rewrite E1 in E2. rewrite <- app_assoc in E2.
  assert (length (k1 ++ k2) = 0)%nat as Hn by (apply (f_equal length) in E2; rewrite !length_app in *; lia).
  destruct k1; [|done]. by rewrite app_nil_r in E1.
Qed.

(** ** Active handlers *)

Section scopes.
Context (bs : list (Block InstrResolved)) (entry : BlockLabel).
Context (preds : gmap BlockLabel (list (BlockLabel * bool))).
Notation States := (gmap BlockLabel ScopeState).
Notation all := (all_handlers bs).
Notation act states l := (sc_active (state_of states l)).
Notation pend states l := (sc_pending (state_of states l)).
Notation incoming l := (default [] (preds !! l)).
Notation next := (next_scope entry preds).
Hypothesis distinct : NoDup (labels bs).
Hypothesis sources : forall l p, p ∈ incoming l -> p.1 ∈ labels bs.

Definition is_preserve (b : Block InstrResolved) : bool := bool_decide (bc_handled_exception (blk_extra b) = HE_Preserve).
Definition preserve_at (l : BlockLabel) : bool :=
  existsb (fun b => bool_decide (blk_label b = l) && is_preserve b) bs.
Definition cleared (l : BlockLabel) : bool := bool_decide (l = entry) || bool_decide (preds !! l = None).

Lemma block_of_label l : l ∈ labels bs -> exists b, b ∈ bs /\ blk_label b = l.
Proof. intros (b & -> & Hb)%list_elem_of_fmap. eauto. Qed.
Lemma label_same b b' : b ∈ bs -> b' ∈ bs -> blk_label b = blk_label b' -> b = b'.
Proof. apply (label_inj blk_label bs distinct). Qed.
Lemma preserve_at_block b : b ∈ bs -> preserve_at (blk_label b) = is_preserve b.
Proof.
  intros Hb. unfold preserve_at. destruct (existsb _ bs) eqn:E.
  - apply existsb_exists in E as (b' & Hb' & [E1 E2]%andb_true_iff). bool_inv.
    by rewrite <- (label_same b' b) by (done || by apply list_elem_of_In).
  - destruct (is_preserve b) eqn:Ep; [|done]. exfalso. apply not_true_iff_false in E. apply E, existsb_exists. exists b.
    split; [by apply list_elem_of_In|]. by rewrite bool_decide_true, Ep.
Qed.

(** What a bridge takes from its predecessors. *)
Definition below_preds (states : States) (l : BlockLabel) (p : list string) : Prop :=
  p = [] \/ (cleared l = false /\ incoming l <> [] /\ forall s, s ∈ incoming l -> p `prefix_of` act states s.1).
Lemma next_active states b p :
  is_preserve b = true -> p `prefix_of` sc_active (next states b) <-> below_preds states (blk_label b) p.
Proof.
  unfold is_preserve. intros Hp. bool_inv. unfold next_scope, below_preds. cbn [sc_active]. rewrite Hp.
  rewrite bool_decide_false by done. fold (cleared (blk_label b)). rewrite common_prefix_fold.
  destruct (cleared (blk_label b)).
  - split; [intros [->%prefix_nil_inv _]; by left|]. intros [->|[? _]]; [|done].
    split; [done|]. intros. apply prefix_nil.
  - destruct (incoming (blk_label b)) as [|[source flag] rest].
    + split; [intros [->%prefix_nil_inv _]; by left|]. intros [->|(_ & ? & _)]; [|done].
      split; [done|]. by intros x ?%not_elem_of_nil.
    + split; [intros [_ H]; right; done|]. intros [->|(_ & _ & H)]; [split; intros; apply prefix_nil|].
      split; [|done]. apply (H (source, flag)). by left.
Qed.

(** One step, seen from outside. *)
Lemma scope_step_state c states b l :
  b ∈ bs -> state_of (scope_step entry preds (c, states) b).2 l
    = if decide (l = blk_label b) then (if inherits b then next states b else state_of states l) else state_of states l.
Proof.
  intros Hb. unfold scope_step. destruct (inherits b); [|by destruct (decide _)].
  case_bool_decide as E; cbn.
  - destruct (decide (l = blk_label b)) as [->|]; done.
  - unfold state_of. destruct (decide (l = blk_label b)) as [->|]; [by rewrite lookup_insert_eq|by rewrite lookup_insert_ne].
Qed.
Lemma scope_step_changed c states b :
  (scope_step entry preds (c, states) b).1 = c || (inherits b && negb (bool_decide (state_of states (blk_label b) = next states b))).
Proof. unfold scope_step. destruct (inherits b); [|by rewrite orb_false_r]. case_bool_decide; [by rewrite orb_false_r|by rewrite orb_true_r]. Qed.

(** *** Bridges that settle *)

(** After [t] rounds: not a bridge, or a bridge whose predecessors settled a round earlier. *)
Fixpoint settled (t : nat) (l : BlockLabel) : bool :=
  match t with
  | O => negb (preserve_at l)
  | S t => settled t l || forallb (fun p => settled t p.1) (incoming l)
  end.
Lemma settled_mono t l : settled t l = true -> settled (S t) l = true.
Proof. cbn. by intros ->. Qed.
Lemma settled_from t t' l : (t <= t')%nat -> settled t l = true -> settled t' l = true.
Proof. induction 1; [done|]. intros. by apply settled_mono, IHle. Qed.
Lemma settled_preds t l p : preserve_at l = true -> settled t l = true -> p ∈ incoming l -> settled t p.1 = true.
Proof.
  intros Hp. induction t as [|t IH]; cbn [settled]; intros Hs Hin; [by rewrite Hp in Hs|].
  apply orb_true_iff in Hs as [Hs|Hs].
  - apply orb_true_iff. left. by apply IH.
  - rewrite forallb_forall in Hs. apply list_elem_of_In in Hin. by rewrite (Hs p Hin).
Qed.
Definition closed_at (t : nat) : Prop := forall l, l ∈ labels bs -> settled (S t) l = true -> settled t l = true.

Lemma settled_closes : exists t, (t <= length bs)%nat /\ closed_at t.
Proof.
  assert (forall t, (forall t', (t' < t)%nat -> ~ closed_at t') ->
    (t <= length (List.filter (settled t) (labels bs)))%nat) as Hgrow.
  { induction t as [|t IH]; intros Hn; [lia|]. specialize (IH ltac:(intros; apply Hn; lia)).
    assert (length (List.filter (settled t) (labels bs)) < length (List.filter (settled (S t)) (labels bs)))%nat; [|lia].
    assert (exists l, l ∈ labels bs /\ settled (S t) l = true /\ settled t l = false) as (l & Hl & H1 & H2).
    { destruct (existsb (fun l => settled (S t) l && negb (settled t l)) (labels bs)) eqn:E.
      - apply existsb_exists in E as (l & Hl & [H1 H2%negb_true_iff]%andb_true_iff). exists l.
        split; [by apply list_elem_of_In|done].
      - exfalso. apply (Hn t); [lia|]. intros l Hl Hs. destruct (settled t l) eqn:Et; [done|].
        apply not_true_iff_false in E. exfalso. apply E, existsb_exists. exists l.
        split; [by apply list_elem_of_In|]. by rewrite Hs, Et. }
    apply (filter_length_strict _ _ _ l); [intros x; apply settled_mono|done..]. }
  destruct (decide (Exists (fun t => Forall (fun l => settled (S t) l = true -> settled t l = true) (labels bs)) (seq 0 (S (length bs))))) as [He|He].
  - apply Exists_exists in He as (t & Ht%elem_of_seq & Hf). exists t. split; [lia|]. intros l Hl. by rewrite Forall_forall in Hf; apply Hf.
  - exfalso. specialize (Hgrow (S (length bs))).
    assert (length (List.filter (settled (S (length bs))) (labels bs)) <= length (labels bs))%nat as Hle by apply filter_length_le.
    unfold labels in Hle. rewrite length_map in Hle.
    enough (forall t', (t' < S (length bs))%nat -> ~ closed_at t') as Hn by (specialize (Hgrow Hn); unfold labels in Hgrow; lia).
    intros t' Ht' Hc. apply He, Exists_exists. exists t'. split; [apply elem_of_seq; lia|]. apply Forall_forall. intros l Hl. by apply Hc.
Qed.

(** *** What every step keeps *)

Lemma next_pending states b x :
  x ∈ sc_pending (next states b) <->
  exists p, p ∈ incoming (blk_label b)
    /\ if p.2 : bool then last (block_handlers b) = Some x else x ∈ pend states p.1.
Proof.
  unfold next_scope. cbn [sc_pending]. generalize (incoming (blk_label b)) as ps. intros ps.
  enough (forall acc : gset string, x ∈ fold_left (fun pending p =>
    if p.2 : bool then match last (block_handlers b) with Some name => {[name]} ∪ pending | None => pending end
    else pending ∪ pend states p.1) ps acc <-> x ∈ acc \/ exists p, p ∈ ps
    /\ if p.2 : bool then last (block_handlers b) = Some x else x ∈ pend states p.1) as H by (rewrite H; set_solver).
  induction ps as [|q ps IH]; intros acc; cbn; [set_solver|]. rewrite IH. setoid_rewrite elem_of_cons.
  destruct q as [source []]; cbn.
  - destruct (last (block_handlers b)) as [n|] eqn:El; [|split; [naive_solver|]; intros [?|(p & [->|?] & ?)]; naive_solver].
    split.
    + intros [[->%elem_of_singleton|?]%elem_of_union|?]; [right; exists (source, true); split; [by left|done]|by left|naive_solver].
    + intros [?|(p & [->|?] & Hx)]; [set_solver| |naive_solver]. cbn in Hx. injection Hx as ->. set_solver.
  - split.
    + intros [[?|?]%elem_of_union|?]; [by left|right; exists (source, false); split; [by left|done]|naive_solver].
    + intros [?|(p & [->|?] & Hx)]; [set_solver|set_solver|naive_solver].
Qed.

Lemma below_preds_impl st1 st2 l p :
  (forall s, s ∈ incoming l -> p `prefix_of` act st1 s.1 -> p `prefix_of` act st2 s.1) ->
  below_preds st1 l p -> below_preds st2 l p.
Proof. intros H [->|(H1 & H2 & H3)]; [by left|right]. split_and!; auto. Qed.

Record scope_inv (states : States) : Prop := mkScopeInv {
  inv_unwind b : b ∈ bs -> inherits b = true -> is_preserve b = false -> act states (blk_label b) = block_handlers b;
  inv_shorter b p : b ∈ bs -> is_preserve b = true -> p `prefix_of` all -> below_preds states (blk_label b) p ->
    p `prefix_of` act states (blk_label b);
  inv_pending b x : b ∈ bs -> x ∈ pend states (blk_label b) -> inherits b = true -> x ∈ sc_pending (next states b);
  inv_named b x : b ∈ bs -> x ∈ pend states (blk_label b) -> x ∈ all
}.

Lemma next_unwind states b : is_preserve b = false -> inherits b = true -> sc_active (next states b) = block_handlers b.
Proof.
  unfold is_preserve, inherits, next_scope. cbn [sc_active]. intros Hp Hi. bool_inv.
  destruct (bc_handled_exception (blk_extra b)); try done.
Qed.
Lemma preserve_inherits b : is_preserve b = true -> inherits b = true.
Proof. unfold is_preserve, inherits. intros H. bool_inv. by rewrite H. Qed.

Lemma pending_grows states b :
  scope_inv states -> b ∈ bs -> inherits b = true -> pend states (blk_label b) ⊆ sc_pending (next states b).
Proof. intros [_ _ Hp _] Hb Hi x Hx. by apply Hp. Qed.
Lemma handler_named b x : b ∈ bs -> x ∈ block_handlers b -> x ∈ all.
Proof.
  intros Hb Hx. unfold all_handlers.
  assert (x ∈ concat (map block_handlers bs)) as Hin.
  { apply list_elem_of_In, in_concat. exists (block_handlers b). split; [by apply in_map, list_elem_of_In|by apply list_elem_of_In]. }
  clear -Hin. revert Hin. generalize (concat (map block_handlers bs)) as l. intros l.
  enough (forall acc, x ∈ acc \/ x ∈ l -> x ∈ fold_left (fun s name => bset_insert name s) l acc) by auto.
  induction l as [|n l IH]; intros acc H; cbn; [destruct H; [done|set_solver]|].
  apply IH. rewrite elem_of_bset_insert. set_solver.
Qed.

Lemma step_inv c states b : scope_inv states -> b ∈ bs -> scope_inv (scope_step entry preds (c, states) b).2.
Proof.
  intros Hinv Hb. pose proof Hinv as [Hu Hs Hp Hn]. pose proof (scope_step_state c states b) as Hst.
  set (states' := (scope_step entry preds (c, states) b).2) in *. specialize (fun l => Hst l Hb).
  destruct (inherits b) eqn:Hi.
  2: { assert (forall l, state_of states' l = state_of states l) as Hsame by (intros l; rewrite Hst; by destruct (decide _)).
       split.
       - intros b' ? ? ?. rewrite Hsame. auto.
       - intros b' p Hb' ? ? Hl. rewrite Hsame. apply Hs; [done..|]. eapply below_preds_impl; [|exact Hl]. intros s _. by rewrite Hsame.
       - intros b' x Hb' Hx ?. rewrite Hsame in Hx. apply Hp in Hx; [|done..]. apply next_pending in Hx as (q & Hq & Hx).
         apply next_pending. exists q. split; [done|]. destruct q.2; [done|]. by rewrite Hsame.
       - intros b' x Hb' Hx. rewrite Hsame in Hx. by eapply Hn. }
  assert (forall b' p, b' ∈ bs -> p `prefix_of` all -> below_preds states' (blk_label b') p -> below_preds states (blk_label b') p) as Hback.
  { intros b' p Hb' Hp' Hl. eapply below_preds_impl; [|exact Hl]. intros s _. rewrite Hst. destruct (decide (s.1 = blk_label b)) as [E|]; [|done].
    rewrite E. destruct (is_preserve b) eqn:Ep.
    - intros Hx%next_active; [|done]. by apply Hs.
    - rewrite next_unwind, Hu by done. done. }
  assert (forall b' x, x ∈ sc_pending (next states b') -> x ∈ sc_pending (next states' b')) as Hgrow.
  { intros b' x (q & Hq & Hx)%next_pending. apply next_pending. exists q. split; [done|]. destruct q.2; [done|].
    rewrite Hst. destruct (decide (q.1 = blk_label b)) as [E|]; [|done]. rewrite E in Hx. by apply pending_grows. }
  split.
  - intros b' Hb' Hi' Hp'. rewrite Hst. destruct (decide (blk_label b' = blk_label b)) as [E|]; [|by apply Hu].
    apply label_same in E as ->; [|done..]. by apply next_unwind.
  - intros b' p Hb' Hpr Hall Hl. apply Hback in Hl; [|done..]. rewrite Hst.
    destruct (decide (blk_label b' = blk_label b)) as [E|]; [|by apply Hs].
    apply label_same in E as ->; [|done..]. by apply next_active.
  - intros b' x Hb' Hx Hi'. apply Hgrow. rewrite Hst in Hx. destruct (decide (blk_label b' = blk_label b)) as [E|]; [|by apply Hp].
    apply label_same in E as ->; [done|done..].
  - intros b' x Hb' Hx. rewrite Hst in Hx. destruct (decide (blk_label b' = blk_label b)) as [E|]; [|by eapply Hn].
    apply next_pending in Hx as (q & Hq & Hx). destruct q.2.
    + apply (handler_named b); [done|]. by apply last_Some_elem_of in Hx.
    + destruct (block_of_label q.1) as (b1 & Hb1 & E1); [by eapply sources|]. rewrite <- E1 in Hx. by eapply Hn.
Qed.

(** *** Settling *)

(** The bridges settled at [t], and those of [past] that follow them, have their final value. *)
Definition steady (t : nat) (past : list (Block InstrResolved)) (states : States) : Prop :=
  forall b, b ∈ bs -> is_preserve b = true ->
    settled t (blk_label b) = true \/ (b ∈ past /\ forall p, p ∈ incoming (blk_label b) -> settled t p.1 = true) ->
    act states (blk_label b) = sc_active (next states b).

Lemma settled_block t b p :
  b ∈ bs -> is_preserve b = true -> settled t (blk_label b) = true -> p ∈ incoming (blk_label b) -> settled t p.1 = true.
Proof. intros Hb Hp. apply settled_preds. by rewrite preserve_at_block. Qed.

Lemma next_same states states' b :
  is_preserve b = true -> (forall p, p ∈ incoming (blk_label b) -> act states' p.1 = act states p.1) ->
  sc_active (next states' b) = sc_active (next states b).
Proof.
  intros Hp H. apply prefix_antisym_same. intros l. rewrite !next_active by done.
  split; apply below_preds_impl; intros s Hs; by rewrite H.
Qed.

Lemma step_steady t past c states b :
  scope_inv states -> steady t past states -> b ∈ bs -> steady t (b :: past) (scope_step entry preds (c, states) b).2.
Proof.
  intros Hinv Hst Hb. pose proof (scope_step_state c states b) as Hs. specialize (fun l => Hs l Hb).
  set (states' := (scope_step entry preds (c, states) b).2) in *.
  assert (forall l, l ∈ labels bs -> settled t l = true -> act states' l = act states l) as Hkeep.
  { intros l Hl Hset. rewrite Hs. destruct (decide (l = blk_label b)) as [->|]; [|done]. destruct (inherits b) eqn:Hi; [|done].
    destruct (is_preserve b) eqn:Hp; [symmetry; apply Hst; auto|]. rewrite next_unwind by done. symmetry. by apply inv_unwind. }
  intros b' Hb' Hp' Hcase.
  assert (forall p, p ∈ incoming (blk_label b') -> settled t p.1 = true) as Hpre.
  { destruct Hcase as [Hset|[_ H]]; [|done]. intros p. by apply settled_block. }
  rewrite (next_same states states' b') by (done || (intros p Hin; apply Hkeep; [by eapply sources|by apply Hpre])).
  rewrite Hs. destruct (decide (blk_label b' = blk_label b)) as [E|E].
  - apply label_same in E as ->; [|done..]. by rewrite (preserve_inherits b Hp').
  - apply Hst; [done|done|]. destruct Hcase as [?|[[->|?]%elem_of_cons ?]]; [by left|congruence|by right].
Qed.

Lemma round_steady t c states :
  scope_inv states -> steady t [] states ->
  let st := fold_left (scope_step entry preds) bs (c, states) in
  scope_inv st.2 /\ steady (S t) [] st.2.
Proof.
  intros Hinv Hst.
  enough (forall l past c states, l ⊆ bs -> scope_inv states -> steady t past states ->
    let st := fold_left (scope_step entry preds) l (c, states) in scope_inv st.2 /\ steady t (rev l ++ past) st.2) as H.
  { destruct (H bs [] c states ltac:(done) Hinv Hst) as [H1 H2]. split; [done|]. rewrite app_nil_r in H2.
    intros b Hb Hp [Hset|[Hin%not_elem_of_nil _]]; [|done]. apply H2; [done|done|].
    cbn in Hset. apply orb_true_iff in Hset as [?|Hf]; [by left|right]. split; [by apply elem_of_rev|].
    intros p Hp'. rewrite forallb_forall in Hf. apply Hf. by apply list_elem_of_In. }
  clear c states Hinv Hst. induction l as [|b l IH]; intros past c states Hl Hinv Hst; cbn [fold_left rev app]; [done|].
  assert (b ∈ bs) as Hb by (apply Hl; by left).
  pose proof (step_inv c states b Hinv Hb) as Hinv'. pose proof (step_steady t past c states b Hinv Hst Hb) as Hst'.
  destruct (scope_step entry preds (c, states) b) as [c' states'].
  destruct (IH (b :: past) c' states') as [H1 H2]; [set_solver|exact Hinv'|exact Hst'|].
  split; [exact H1|]. rewrite <- app_assoc. exact H2.
Qed.

(** *** Descent *)

Context (t : nat).
Hypothesis closes : closed_at t.

(** The bridges that never settle hold a prefix of all handlers. *)
Definition prefixed (states : States) : Prop :=
  forall b, b ∈ bs -> is_preserve b = true -> settled t (blk_label b) = false -> act states (blk_label b) `prefix_of` all.

Lemma unsettled_pred b :
  b ∈ bs -> is_preserve b = true -> settled t (blk_label b) = false ->
  exists p b', p ∈ incoming (blk_label b) /\ b' ∈ bs /\ p.1 = blk_label b' /\ is_preserve b' = true /\ settled t (blk_label b') = false.
Proof.
  intros Hb Hp Hn.
  assert (exists p, p ∈ incoming (blk_label b) /\ settled t p.1 = false) as (p & Hin & Hnp).
  { destruct (existsb (fun p => negb (settled t p.1)) (incoming (blk_label b))) eqn:E.
    - apply existsb_exists in E as (p & Hin & Hnp%negb_true_iff). exists p. split; [by apply list_elem_of_In|done].
    - exfalso. assert (settled (S t) (blk_label b) = true) as Hs.
      { cbn. rewrite Hn. cbn. apply forallb_forall. intros p Hin. destruct (settled t p.1) eqn:Ep; [done|].
        apply not_true_iff_false in E. exfalso. apply E, existsb_exists. exists p. by rewrite Ep. }
      apply closes in Hs; [congruence|]. by apply list_elem_of_fmap_2. }
  destruct (block_of_label p.1) as (b' & Hb' & E); [by eapply sources|]. exists p, b'. rewrite E. split_and!; try done.
  destruct (is_preserve b') eqn:Ep; [done|]. exfalso.
  assert (settled 0 p.1 = true) as H0 by (cbn; rewrite <- E, preserve_at_block by done; by rewrite Ep).
  apply (settled_from 0 t) in H0; [congruence|lia].
Qed.
Lemma next_prefixed states b :
  prefixed states -> b ∈ bs -> is_preserve b = true -> settled t (blk_label b) = false ->
  sc_active (next states b) `prefix_of` all.
Proof.
  intros Hpre Hb Hp Hn. destruct (unsettled_pred b Hb Hp Hn) as (p & b' & Hin & Hb' & E & Hp' & Hn').
  assert (below_preds states (blk_label b) (sc_active (next states b))) as Hl by (by apply next_active).
  destruct Hl as [->|(_ & _ & H)]; [apply prefix_nil|]. specialize (H p Hin). rewrite E in H. etrans; [exact H|by apply Hpre].
Qed.

Lemma step_prefixed c states b : prefixed states -> b ∈ bs -> prefixed (scope_step entry preds (c, states) b).2.
Proof.
  intros Hpre Hb b' Hb' Hp' Hn'. rewrite scope_step_state by done.
  destruct (decide (blk_label b' = blk_label b)) as [E|]; [|by apply Hpre].
  apply label_same in E as ->; [|done..]. rewrite preserve_inherits by done. by apply next_prefixed.
Qed.
Lemma round_prefixed l c states : l ⊆ bs -> prefixed states -> prefixed (fold_left (scope_step entry preds) l (c, states)).2.
Proof.
  revert c states. induction l as [|b l IH]; intros c states Hl Hpre; cbn [fold_left]; [done|].
  pose proof (step_prefixed c states b Hpre ltac:(apply Hl; by left)) as Hpre'.
  destruct (scope_step entry preds (c, states) b) as [c' states']. apply IH; [set_solver|exact Hpre'].
Qed.

(** What a block can still lose: the handlers of a bridge, and names that are not pending. *)
Definition burden_of (b : Block InstrResolved) (sc : ScopeState) : nat :=
  ((if is_preserve b && negb (settled t (blk_label b)) then length (sc_active sc) else 0)
   + (length all - size (sc_pending sc)))%nat.
Definition burden (states : States) (b : Block InstrResolved) : nat := burden_of b (state_of states (blk_label b)).
Definition total_burden (states : States) : nat := sum_list (map (burden states) bs).

Lemma total_burden_bound states : prefixed states -> (total_burden states <= length bs * (length all + length all))%nat.
Proof.
  intros Hpre. unfold total_burden.
  enough (forall l, l ⊆ bs -> sum_list (map (burden states) l) <= length l * (length all + length all))%nat by auto.
  induction l as [|b l IH]; intros Hl; cbn; [lia|]. specialize (IH ltac:(set_solver)).
  assert (burden states b <= length all + length all)%nat; [|lia]. unfold burden, burden_of.
  destruct (is_preserve b) eqn:Hp, (settled t (blk_label b)) eqn:Hn; cbn; try lia.
  assert (act states (blk_label b) `prefix_of` all) as Hle%prefix_length by (apply Hpre; [apply Hl; by left|done..]). lia.
Qed.

Lemma all_size : (size (list_to_set all : gset string) <= length all)%nat.
Proof.
  induction all as [|x l IH]; cbn; [by rewrite size_empty|]. rewrite size_union_alt, size_singleton.
  assert (size ((list_to_set l : gset string) ∖ {[x]}) <= size (list_to_set l : gset string))%nat
    by (apply subseteq_size; set_solver). lia.
Qed.
Lemma next_pending_size states b :
  scope_inv states -> b ∈ bs -> inherits b = true -> (size (sc_pending (next states b)) <= length all)%nat.
Proof.
  intros Hinv Hb Hi. etrans; [apply subseteq_size|exact all_size]. intros x Hx. apply elem_of_list_to_set.
  pose proof (step_inv true states b Hinv Hb) as [_ _ _ Hn]. apply (Hn b); [done|].
  rewrite scope_step_state, decide_True by done. by rewrite Hi.
Qed.

(** The next value of a block weighs less if it is another. *)
Lemma next_burden states b :
  scope_inv states -> steady t [] states -> prefixed states -> b ∈ bs -> inherits b = true ->
  (burden_of b (next states b) <= burden states b)%nat
  /\ (state_of states (blk_label b) <> next states b -> (burden_of b (next states b) < burden states b)%nat).
Proof.
  intros Hinv Hst Hpre Hb Hi.
  pose proof (pending_grows states b Hinv Hb Hi) as Hpg. pose proof (next_pending_size states b Hinv Hb Hi) as Hsz.
  pose proof (subseteq_size _ _ Hpg) as Hpg'.
  assert (is_preserve b = true -> settled t (blk_label b) = true -> act states (blk_label b) = sc_active (next states b)) as Hfix
    by (intros; apply Hst; auto).
  assert (is_preserve b = true -> settled t (blk_label b) = false -> sc_active (next states b) `prefix_of` act states (blk_label b)) as Hdesc.
  { intros Hp Hn. apply inv_shorter; [done|done|done|by apply next_prefixed|by apply next_active]. }
  unfold burden, burden_of. split.
  { destruct (is_preserve b), (settled t (blk_label b)); cbn [andb negb]; try lia.
    specialize (Hdesc eq_refl eq_refl). apply prefix_length in Hdesc. lia. }
  intros Hne. destruct (decide (pend states (blk_label b) = sc_pending (next states b))) as [Ep|Ep].
  - assert (act states (blk_label b) <> sc_active (next states b)) as Ha.
    { intros Ea. apply Hne. destruct (state_of states (blk_label b)), (next states b). cbn in *. congruence. }
    destruct (is_preserve b) eqn:Hp; [|exfalso; apply Ha; rewrite next_unwind by done; by apply inv_unwind].
    destruct (settled t (blk_label b)) eqn:Hn; [by destruct Ha; apply Hfix|]. cbn [andb negb]. rewrite Ep.
    specialize (Hdesc eq_refl eq_refl). destruct Hdesc as [k Ek].
    assert (length k <> 0)%nat by (intros E0%nil_length_inv; subst k; rewrite app_nil_r in Ek; done).
    rewrite Ek, length_app. lia.
  - assert (size (pend states (blk_label b)) < size (sc_pending (next states b)))%nat as Hps.
    { apply subset_size. by apply strict_spec_alt. }
    destruct (is_preserve b), (settled t (blk_label b)); cbn [andb negb]; try lia.
    specialize (Hdesc eq_refl eq_refl). apply prefix_length in Hdesc. lia.
Qed.

Lemma sum_list_le_on {A} (f g : A -> nat) l :
  (forall x, x ∈ l -> (f x <= g x)%nat) -> (sum_list (map f l) <= sum_list (map g l))%nat.
Proof.
  induction l as [|x l IH]; intros H; cbn; [lia|]. pose proof (H x ltac:(by left)).
  specialize (IH ltac:(intros; apply H; by right)). lia.
Qed.
Lemma sum_list_lt_on {A} (f g : A -> nat) l x :
  (forall x, x ∈ l -> (f x <= g x)%nat) -> x ∈ l -> (f x < g x)%nat -> (sum_list (map f l) < sum_list (map g l))%nat.
Proof.
  intros H Hx Hlt. induction Hx as [x l|x y l Hx IH]; cbn.
  - assert (sum_list (map f l) <= sum_list (map g l))%nat by (apply sum_list_le_on; intros; apply H; by right). lia.
  - pose proof (H y ltac:(by left)). specialize (IH ltac:(intros; apply H; by right) Hlt). lia.
Qed.

Lemma step_burden c states b :
  scope_inv states -> steady t [] states -> prefixed states -> b ∈ bs ->
  prefixed (scope_step entry preds (c, states) b).2
  /\ (total_burden (scope_step entry preds (c, states) b).2 <= total_burden states)%nat
  /\ ((scope_step entry preds (c, states) b).1 = c
      \/ (total_burden (scope_step entry preds (c, states) b).2 < total_burden states)%nat).
Proof.
  intros Hinv Hst Hpre Hb. pose proof (scope_step_state c states b) as Hs. specialize (fun l => Hs l Hb).
  rewrite scope_step_changed. set (states' := (scope_step entry preds (c, states) b).2) in *.
  assert (forall b', b' ∈ bs -> burden states' b' = if decide (blk_label b' = blk_label b) then
    (if inherits b then burden_of b (next states b) else burden states b') else burden states b') as Hbur.
  { intros b' Hb'. unfold burden at 1. rewrite Hs. destruct (decide (blk_label b' = blk_label b)) as [E|]; [|done].
    apply label_same in E as ->; [|done..]. by destruct (inherits b). }
  assert (forall b', b' ∈ bs -> (burden states' b' <= burden states b')%nat) as Hle.
  { intros b' Hb'. rewrite Hbur by done. destruct (decide (blk_label b' = blk_label b)) as [E|]; [|lia].
    apply label_same in E as ->; [|done..]. destruct (inherits b) eqn:Hi; [|lia]. by apply next_burden. }
  split_and!.
  - by apply step_prefixed.
  - by apply sum_list_le_on.
  - destruct (inherits b) eqn:Hi; [|left; by rewrite orb_false_r]. cbn.
    case_bool_decide as E; [left; by rewrite orb_false_r|right]. apply (sum_list_lt_on _ _ bs b); [done|done|].
    rewrite Hbur, decide_True by done. by apply next_burden.
Qed.

(** *** The loop *)

Lemma round_burden l c states :
  l ⊆ bs -> scope_inv states -> steady t [] states -> prefixed states ->
  (total_burden (fold_left (scope_step entry preds) l (c, states)).2 <= total_burden states)%nat
  /\ ((fold_left (scope_step entry preds) l (c, states)).1 = c
      \/ (total_burden (fold_left (scope_step entry preds) l (c, states)).2 < total_burden states)%nat).
Proof.
  revert c states. induction l as [|b l IH]; intros c states Hl Hinv Hst Hpre; cbn [fold_left]; [auto|].
  assert (b ∈ bs) as Hb by (apply Hl; by left).
  destruct (step_burden c states b Hinv Hst Hpre Hb) as (Hpre' & Hle & Hch).
  pose proof (step_inv c states b Hinv Hb) as Hinv'. pose proof (step_steady t [] c states b Hinv Hst Hb) as Hst'.
  destruct (scope_step entry preds (c, states) b) as [c' states']. cbn [fst snd] in *.
  destruct (IH c' states') as [Hle2 Hch2]; [set_solver|done| |done|].
  - intros b' Hb' Hp' [?|[?%not_elem_of_nil _]]; [|done]. apply Hst'; auto.
  - split; [lia|]. destruct Hch as [->|?]; [|right; lia]. destruct Hch2 as [?|?]; [by left|right; lia].
Qed.

Lemma scope_loop_descends fuel states :
  scope_inv states -> steady t [] states -> prefixed states -> (total_burden states < fuel)%nat ->
  is_Some (scope_loop fuel entry preds bs states).
Proof.
  revert states. induction fuel as [|fuel IH]; intros states Hinv Hst Hpre Hf; [lia|]. cbn [scope_loop].
  destruct (round_burden bs false states ltac:(done) Hinv Hst Hpre) as [Hle Hch].
  destruct (round_steady t false states Hinv Hst) as [Hinv' Hst'].
  pose proof (round_prefixed bs false states ltac:(done) Hpre) as Hpre'.
  destruct (fold_left (scope_step entry preds) bs (false, states)) as [changed states']. cbn [fst snd] in *.
  destruct changed; [|by eexists]. destruct Hch as [|Hch]; [done|]. apply IH; [done| |done|lia].
  intros b Hb Hp [Hs|[?%not_elem_of_nil _]]; [|done]. apply Hst'; [done|done|]. left. by apply settled_mono.
Qed.
Lemma scope_loop_settles k fuel states :
  (k <= t)%nat -> scope_inv states -> steady (t - k) [] states -> prefixed states ->
  (k + length bs * (length all + length all) < fuel)%nat -> is_Some (scope_loop fuel entry preds bs states).
Proof.
  revert fuel states. induction k as [|k IH]; intros fuel states Hk Hinv Hst Hpre Hf.
  { rewrite Nat.sub_0_r in Hst. pose proof (total_burden_bound states Hpre). apply scope_loop_descends; [done..|lia]. }
  destruct fuel as [|fuel]; [lia|]. cbn [scope_loop].
  destruct (round_steady (t - S k) false states Hinv Hst) as [Hinv' Hst'].
  pose proof (round_prefixed bs false states ltac:(done) Hpre) as Hpre'.
  destruct (fold_left (scope_step entry preds) bs (false, states)) as [changed states']. cbn [fst snd] in *.
  destruct changed; [|by eexists]. apply IH; [lia|done| |done|lia].
  by replace (t - k)%nat with (S (t - S k)) by lia.
Qed.
End scopes.

(** Predecessors are blocks. *)
Lemma add_predecessor_sources (P : BlockLabel -> Prop) target source flag m :
  P source -> (forall l p, p ∈ default [] (m !! l) -> P p.1) ->
  forall l p, p ∈ default [] (add_predecessor target source flag m !! l) -> P p.1.
Proof.
  intros Hs Hm l p. unfold add_predecessor. destruct (decide (target = l)) as [->|].
  - rewrite lookup_insert_eq. cbn. intros [Hp|Hp%list_elem_of_singleton]%elem_of_app; [by eapply Hm|by subst p].
  - rewrite lookup_insert_ne by done. apply Hm.
Qed.
Lemma predecessor_sources resumes bs l p :
  p ∈ default [] (fold_left (block_predecessors resumes) bs ∅ !! l) -> p.1 ∈ labels bs.
Proof.
  enough (forall bs', bs' ⊆ bs -> forall m, (forall l p, p ∈ default [] (m !! l) -> p.1 ∈ labels bs) ->
    forall l p, p ∈ default [] (fold_left (block_predecessors resumes) bs' m !! l) -> p.1 ∈ labels bs) as H.
  { apply (H bs); [done|]. intros l' p' Hp. rewrite lookup_empty in Hp. by apply not_elem_of_nil in Hp. }
  induction bs' as [|b bs' IH]; intros Hbs m Hm; [exact Hm|]. cbn [fold_left]. apply IH; [set_solver|].
  assert (blk_label b ∈ labels bs) as Hb by (apply list_elem_of_fmap_2, Hbs; by left).
  unfold block_predecessors. set (m' := fold_left _ _ m).
  assert (forall l p, p ∈ default [] (m' !! l) -> p.1 ∈ labels bs) as Hm'.
  { unfold m'. generalize (lifetime_edges resumes b) as es. intros es. clear m'. revert m Hm.
    induction es as [|e es IHes]; intros m Hm; [exact Hm|]. cbn. apply IHes. by apply (add_predecessor_sources (fun l => l ∈ labels bs)). }
  destruct (blk_exc_edge b); [|exact Hm']. by apply (add_predecessor_sources (fun l => l ∈ labels bs)).
Qed.

Lemma scope_states_total resumes bs :
  NoDup (labels bs) -> bs <> [] -> is_Some (scope_states resumes bs).
Proof.
  intros Hnd Hne. unfold scope_states. destruct bs as [|b0 rest] eqn:Ebs; [done|]. cbn [head mbind option_bind]. rewrite <- Ebs in *. clear Hne.
  set (preds := fold_left _ bs ∅). set (states := collect_map _).
  assert (forall b, b ∈ bs -> state_of states (blk_label b) = initial_scope (all_handlers bs) b) as Hinit.
  { intros b Hb. unfold state_of. replace (states !! blk_label b) with (Some (initial_scope (all_handlers bs) b)); [done|].
    symmetry. apply collect_map_unique; [by rewrite map_map|]. apply list_elem_of_fmap. by exists b. }
  pose proof (predecessor_sources resumes bs) as Hsrc. fold preds in Hsrc.
  destruct (settled_closes bs preds) as (t & Ht & Hc).
  apply (scope_loop_settles bs (blk_label b0) preds Hnd Hsrc t Hc t); [done| | | |unfold scope_fuel; lia].
  - split.
    + intros b Hb Hi Hp. rewrite Hinit by done. unfold is_preserve, inherits in *. cbn. bool_inv.
      by destruct (bc_handled_exception (blk_extra b)).
    + intros b p Hb Hp Hpre _. rewrite Hinit by done. unfold is_preserve in Hp. cbn. bool_inv. by rewrite Hp.
    + intros b x Hb Hx. rewrite Hinit in Hx by done. cbn in Hx. set_solver.
    + intros b x Hb Hx. rewrite Hinit in Hx by done. cbn in Hx. set_solver.
  - rewrite Nat.sub_diag. intros b Hb Hp [Hs|[?%not_elem_of_nil _]]; [|done]. cbn in Hs.
    rewrite preserve_at_block in Hs by done. by rewrite Hp in Hs.
  - intros b Hb Hp _. rewrite Hinit by done. unfold is_preserve in Hp. cbn. bool_inv. by rewrite Hp.
Qed.

(** ** Liveness *)

Section liveness.
Context (resumes : gset BlockLabel) (catalog : TransportStorage).
Context (blocks : gmap BlockLabel (Block InstrResolved)) (scopes : gmap BlockLabel ScopeState).
Notation U := (dom (ts_owners catalog)).
Notation Inputs := (gmap BlockLabel OwnerSet).

Lemma key_owned name k : ts_key catalog name = Some k -> k ∈ U.
Proof. intros [_ H]%ts_key_some. by apply elem_of_dom. Qed.
Lemma copy_source_owned name purpose value k : copy_source catalog name purpose value = Some k -> k ∈ U.
Proof.
  unfold copy_source. destruct purpose; try done. destruct (is_some _); [|done].
  destruct value as [|[|[] ] []]; try done. apply key_owned.
Qed.
Lemma extend_opt_mono o (s s' : OwnerSet) : s ⊆ s' -> extend_opt o s ⊆ extend_opt o s'.
Proof. destruct o; cbn; set_solver. Qed.
Lemma remove_opt_mono o (s s' : OwnerSet) : s ⊆ s' -> remove_opt o s ⊆ remove_opt o s'.
Proof. destruct o; cbn; set_solver. Qed.
Lemma extend_opt_bounded o (s : OwnerSet) : (forall k, o = Some k -> k ∈ U) -> s ⊆ U -> extend_opt o s ⊆ U.
Proof. destruct o as [k|]; cbn; [|done]. intros H. specialize (H k eq_refl). set_solver. Qed.
Lemma remove_opt_bounded o (s : OwnerSet) : s ⊆ U -> remove_opt o s ⊆ U.
Proof. destruct o; cbn; set_solver. Qed.

Hypothesis parameters_owned : forall name k, ts_parameter catalog name = Some k -> k ∈ U.
Hypothesis logical_owned : forall name k, k ∈ for_logical catalog name -> k ∈ U.

(** A transfer of sets that respects inclusion and the universe. *)
Definition sound_transfer (f : OwnerSet -> OwnerSet) : Prop :=
  (forall s s', s ⊆ s' -> f s ⊆ f s') /\ forall s, s ⊆ U -> f s ⊆ U.
Lemma transfers_sound l :
  Forall (fun i => sound_transfer (transport_transfer catalog i)) l ->
  sound_transfer (fun s => fold_left (fun s c => transport_transfer catalog c s) l s).
Proof.
  induction 1 as [|i l [Hm Hb] _ [IHm IHb]]; [by split|]. split; cbn; intros; [apply IHm|apply IHb]; auto.
Qed.
Lemma transport_transfer_sound i : sound_transfer (transport_transfer catalog i).
Proof.
  induction i as [value|op children IH] using InstrResolved_tree_ind; [by split|].
  apply transfers_sound in IH. destruct op; try exact IH.
  - split; cbn; intros; [by apply extend_opt_mono|]. apply extend_opt_bounded; [|done]. apply key_owned.
  - pose proof (copy_source_owned name purpose children) as Hsource. destruct IH as [IHm IHb]. split; cbn.
    + intros s s' Hs. destruct (copy_source _ _ _ _) as [k|], (ts_key catalog name) as [d|];
        try (apply IHm; set_solver). repeat case_bool_decide; set_solver.
    + intros s Hs. destruct (copy_source _ _ _ _) as [k|], (ts_key catalog name) as [d|];
        try (apply IHb; set_solver). specialize (Hsource k eq_refl). case_bool_decide; set_solver.
  - split; cbn; intros; [by apply remove_opt_mono|by apply remove_opt_bounded].
Qed.
Lemma all_transfers_sound l : sound_transfer (fun s => fold_left (fun s c => transport_transfer catalog c s) l s).
Proof. apply transfers_sound, Forall_forall. intros i _. apply transport_transfer_sound. Qed.

Lemma entry_requires_sound source handlers : sound_transfer (entry_requires catalog source handlers).
Proof.
  unfold entry_requires. generalize true as c. generalize (enumerate handlers) as l.
  induction l as [|[i name] l IH]; intros c; [by split|]. cbn [fold_left]. set (c' := _ && _ && _).
  specialize (IH c'). destruct c'; [done|]. destruct IH as [IHm IHb].
  split; intros; [apply IHm; by apply extend_opt_mono|]. apply IHb, extend_opt_bounded; [|done]. apply parameters_owned.
Qed.
Lemma transport_args_mono pairs (r r' s s' : OwnerSet) :
  r ⊆ r' -> s ⊆ s' -> fold_left (transport_arg catalog r) pairs s ⊆ fold_left (transport_arg catalog r') pairs s'.
Proof.
  intros Hr. revert s s'. induction pairs as [|[p a] pairs IH]; intros s s' Hs; [done|]. cbn. apply IH.
  unfold transport_arg. cbn. pose proof (remove_opt_mono (ts_parameter catalog (bp_name p)) s s' Hs) as Hrm.
  destruct a as [name| | |]; try exact Hrm. destruct (ts_parameter catalog (bp_name p)) as [k|]; cbn [from_option].
  - repeat case_bool_decide; [by apply extend_opt_mono|set_solver| |done].
    etrans; [exact Hrm|]. destruct (ts_parameter catalog name); cbn; set_solver.
  - by apply extend_opt_mono.
Qed.
Lemma transport_args_bounded pairs (r s : OwnerSet) : s ⊆ U -> fold_left (transport_arg catalog r) pairs s ⊆ U.
Proof.
  revert s. induction pairs as [|[p a] pairs IH]; intros s Hs; [done|]. cbn. apply IH. unfold transport_arg. cbn.
  assert (remove_opt (ts_parameter catalog (bp_name p)) s ⊆ U) by (by apply remove_opt_bounded).
  destruct a; try done. destruct (from_option _ _ _); [|done]. apply extend_opt_bounded; [|done]. apply parameters_owned.
Qed.

(** The same for what is computed from the inputs. *)
Definition sound_value (f : Inputs -> OwnerSet) : Prop :=
  (forall i j, below i j -> f i ⊆ f j) /\ forall i, (forall l, input_at i l ⊆ U) -> f i ⊆ U.
Lemma edge_live_sound edge source : sound_value (transport_edge_live catalog blocks edge source).
Proof.
  unfold transport_edge_live. destruct (blocks !! be_target edge) as [t|]; [|by split; set_solver].
  split.
  - intros i j Hij. specialize (Hij (be_target edge)). fold (input_at i (be_target edge)) (input_at j (be_target edge)).
    apply transport_args_mono; destruct (is_region t); try done; by apply entry_requires_sound.
  - intros i Hi. specialize (Hi (be_target edge)). fold (input_at i (be_target edge)).
    apply transport_args_bounded. destruct (is_region t); [|done]. by apply entry_requires_sound.
Qed.
Lemma exceptional_sound b : sound_value (fun i => transport_exceptional catalog blocks scopes i b).
Proof. unfold transport_exceptional. destruct (blk_exc_edge b); [apply edge_live_sound|by split; set_solver]. Qed.
Lemma pending_live_bounded b : pending_live catalog b ⊆ U.
Proof.
  intros k Hk. unfold pending_live in Hk. apply elem_of_list_to_set, list_elem_of_In, in_concat in Hk as (l & Hl & Hk).
  apply in_map_iff in Hl as (name & <- & _). apply list_elem_of_In in Hk. by eapply logical_owned.
Qed.
Lemma lifetime_edge_sound b edge : sound_value (fun i => lifetime_edge_live catalog blocks scopes b i edge).
Proof.
  unfold lifetime_edge_live. destruct (edge.2); [|apply edge_live_sound]. unfold saved_owners.
  split; [intros i j Hij; specialize (Hij (be_target edge.1))|intros i Hi; specialize (Hi (be_target edge.1))];
    unfold input_at in *; set_solver.
Qed.
Lemma term_live_sound b : sound_value (fun i => transport_term_live resumes catalog blocks scopes i b).
Proof.
  unfold transport_term_live. pose proof (all_transfers_sound (resolved_term_instrs (blk_term b))) as [Tm Tb].
  pose proof (exceptional_sound b) as [Em Eb]. pose proof (pending_live_bounded b) as Hp.
  split.
  - intros i j Hij. apply union_mono; [|by apply Em]. apply Tm, union_mono_l. intros k.
    rewrite !elem_of_union_list. intros (s & Hs & Hk). apply list_elem_of_fmap in Hs as (e & -> & He).
    eexists. split; [by apply list_elem_of_fmap_2|]. by eapply lifetime_edge_sound.
  - intros i Hi. apply union_least; [|by apply Eb]. apply Tb, union_least; [done|]. intros k.
    rewrite elem_of_union_list. intros (s & Hs & Hk). apply list_elem_of_fmap in Hs as (e & -> & He).
    by eapply (proj2 (lifetime_edge_sound b e)).
Qed.
Lemma points_sound b body : sound_value (fun i => default ∅ (head (points_from resumes catalog blocks scopes i b body))).
Proof.
  induction body as [|x body [IHm IHb]]; [apply term_live_sound|]. cbn.
  destruct (transport_transfer_sound x) as [Tm Tb]. pose proof (exceptional_sound b) as [Em Eb].
  pose proof (pending_live_bounded b) as Hp. split.
  - intros i j Hij. apply union_mono_r, union_mono; [apply Tm; auto|by apply Em].
  - intros i Hi. apply union_least; [|done]. apply union_least; [apply Tb; auto|by apply Eb].
Qed.

Lemma live_points_total bs : NoDup (labels bs) -> is_Some (live_points resumes catalog blocks scopes bs).
Proof.
  intros Hnd. unfold live_points.
  destruct (settle_total blk_label (block_input resumes catalog blocks scopes) bs U Hnd) as (i & -> & _).
  - intros i j b Hij. by apply (points_sound b (blk_body b)).
  - intros i b Hi _. by apply (points_sound b (blk_body b)).
  - by eexists.
Qed.
End liveness.

(** ** Ownership *)

Section ownership.
Context (resumes : gset BlockLabel) (catalog : TransportStorage).
Context (blocks : gmap BlockLabel (Block InstrResolved)) (live : gmap BlockLabel (list OwnerSet)).
Notation U := (dom (ts_owners catalog)).
Notation Inputs := (gmap BlockLabel OwnerSet).
Hypothesis parameters_owned : forall name k, ts_parameter catalog name = Some k -> k ∈ U.
Hypothesis edges_known : forall l b edge, blocks !! l = Some b ->
  edge ∈ map fst (lifetime_edges resumes b) ++ option_list (blk_exc_edge b) -> is_Some (blocks !! be_target edge).

Definition within (state : OwnerSet * OwnerSet) : Prop := state.1 ⊆ U /\ state.2 ⊆ U.
Lemma transfers_within l state :
  Forall (fun i => forall state, within state -> within (transfer_owned catalog i state)) l ->
  within state -> within (fold_left (fun state c => transfer_owned catalog c state) l state).
Proof. intros Hl. revert state. induction Hl; intros state Hs; [done|]. cbn. auto. Qed.
Lemma transfer_within i state : within state -> within (transfer_owned catalog i state).
Proof.
  revert state. induction i as [value|op children IH] using InstrResolved_tree_ind; intros state Hs.
  { destruct Hs. split; cbn; set_solver. }
  cbn [transfer_owned]. apply (transfers_within _ _ IH) in Hs. destruct (fold_left _ children state) as [owned prefixes].
  destruct Hs as [Ho Hp]. cbn [fst snd] in *. set (owned' := match op with Op_Store _ _ _ => _ | _ => _ end).
  enough (owned' ⊆ U) by (split; cbn; set_solver). unfold owned'.
  destruct op; try exact Ho; [|by apply remove_opt_bounded].
  destruct (ts_key catalog name) as [k|] eqn:Ek; [|done]. apply key_owned in Ek.
  match goal with |- context [if ?v then _ else _] => destruct v end; set_solver.
Qed.
Lemma all_transfers_within l state :
  within state -> within (fold_left (fun state c => transfer_owned catalog c state) l state).
Proof. apply transfers_within, Forall_forall. intros i _. apply transfer_within. Qed.
Lemma edge_owned_bounded edge owned : owned ⊆ U -> edge_owned catalog blocks edge owned ⊆ U.
Proof.
  intros Ho. unfold edge_owned. destruct (blocks !! _) as [t|]; [|done].
  enough (forall pairs next, next ⊆ U -> fold_left (owned_arg catalog owned) pairs next ⊆ U) by auto.
  induction pairs as [|[p a] pairs IH]; intros next Hn; [done|]. cbn. apply IH. unfold owned_arg. cbn.
  destruct (ts_parameter catalog (bp_name p)) as [k|] eqn:Ek; [|done]. apply parameters_owned in Ek.
  match goal with |- context [if ?v then _ else _] => destruct v end; set_solver.
Qed.
Lemma retired_bounded b owned p : owned ⊆ U -> (retire_at_point b owned p).2 ⊆ U.
Proof. unfold retire_at_point. destruct (is_region b); cbn; set_solver. Qed.

Definition holds (inputs : Inputs) (l : BlockLabel) : nat :=
  match inputs !! l with None => 0 | Some s => S (size s) end.
Definition held (inputs : Inputs) : nat := sum_list (map (holds inputs) (elements (dom blocks))).
Definition capacity : nat := (size blocks * S (size U))%nat.
(** The work left: what is queued, and what may still be queued. *)
Definition remaining (flow : Inputs * list BlockLabel) : nat := (length flow.2 + (capacity - held flow.1))%nat.

Record flow_ok (flow : Inputs * list BlockLabel) : Prop := mkFlowOk {
  flow_known l s : flow.1 !! l = Some s -> is_Some (blocks !! l) /\ s ⊆ U;
  flow_queued l : l ∈ flow.2 -> is_Some (flow.1 !! l)
}.

Lemma held_bounded inputs : (forall l s, inputs !! l = Some s -> s ⊆ U) -> (held inputs <= capacity)%nat.
Proof.
  intros H. unfold held, capacity. rewrite <- size_dom. change (size (dom blocks)) with (length (elements (dom blocks))).
  generalize (elements (dom blocks)) as ls. induction ls as [|l ls IH]; cbn; [lia|].
  enough (holds inputs l <= S (size U))%nat by lia. unfold holds. destruct (inputs !! l) as [s|] eqn:E; [|lia].
  apply H, subseteq_size in E. lia.
Qed.
Lemma held_insert inputs l s :
  is_Some (blocks !! l) -> (holds inputs l < S (size s))%nat -> (held inputs < held (<[l := s]> inputs))%nat.
Proof.
  intros Hl Hs. unfold held. apply (sum_list_lt_on _ _ _ l).
  - intros x _. unfold holds at 2. destruct (decide (l = x)) as [<-|]; [rewrite lookup_insert_eq; lia|].
    by rewrite lookup_insert_ne by done.
  - by apply elem_of_elements, elem_of_dom.
  - unfold holds at 2. by rewrite lookup_insert_eq.
Qed.

Lemma propagate_ok edge source flow :
  is_Some (blocks !! be_target edge) -> source ⊆ U -> flow_ok flow ->
  flow_ok (propagate catalog blocks edge source flow)
  /\ (remaining (propagate catalog blocks edge source flow) <= remaining flow)%nat.
Proof.
  intros Ht Hs Hok. pose proof Hok as [Hk Hq]. destruct flow as [inputs work]. cbn [fst snd] in *.
  pose proof (edge_owned_bounded edge source Hs) as Hi. unfold propagate. set (incoming := edge_owned _ _ _ _) in *.
  set (next := default ∅ (inputs !! be_target edge) ∪ incoming).
  assert (next ⊆ U) as Hn.
  { apply union_least; [|done]. destruct (inputs !! be_target edge) eqn:E; [by eapply Hk|set_solver]. }
  assert (forall w, (forall l, l ∈ w -> l = be_target edge \/ l ∈ work) ->
    flow_ok (<[be_target edge := next]> inputs, w)) as Hnew.
  { intros w Hw. split; cbn.
    - intros l s [[<- <-]|[_ E]]%lookup_insert_Some; [done|by apply Hk].
    - intros l Hl. apply lookup_insert_is_Some'. destruct (Hw l Hl) as [->|]; auto. }
  assert ((holds inputs (be_target edge) < S (size next))%nat ->
    remaining (<[be_target edge := next]> inputs, work ++ [be_target edge]) <= remaining (inputs, work))%nat as Hgrow.
  { intros Hlt. unfold remaining. cbn. rewrite length_app. cbn.
    pose proof (held_insert inputs _ next Ht Hlt). pose proof (held_bounded (<[be_target edge := next]> inputs)).
    enough (held (<[be_target edge := next]> inputs) <= capacity)%nat by lia. apply held_bounded.
    intros l s E. by apply (flow_known _ (Hnew work ltac:(auto)) l). }
  unfold holds in Hgrow. destruct (inputs !! be_target edge) as [previous|] eqn:E; cbn [default] in *.
  - assert (previous ⊆ next) as Hsub by (unfold next; set_solver). change (previous ∪ incoming) with next.
    clearbody next. case_bool_decide as Hsz.
    + split; [apply Hnew; auto|]. rewrite insert_id; [done|]. rewrite E. f_equal.
      apply set_subseteq_size_eq; [done|lia].
    + apply subseteq_size in Hsub. split; [|apply Hgrow; lia]. apply Hnew. intros l. rewrite elem_of_app. set_solver.
  - assert (next = incoming) as Hnext by (unfold next; set_solver). rewrite <- Hnext.
    split; [|apply Hgrow; lia]. apply Hnew. intros l. rewrite elem_of_app. set_solver.
Qed.

Definition shrinks (before after : Inputs * list BlockLabel) : Prop :=
  flow_ok before -> flow_ok after /\ (remaining after <= remaining before)%nat.
Lemma shrinks_trans f1 f2 f3 : shrinks f1 f2 -> shrinks f2 f3 -> shrinks f1 f3.
Proof. intros H1 H2 H. destruct (H1 H) as [Hok ?]. destruct (H2 Hok). split; [done|lia]. Qed.
Lemma propagates l b edge source flow :
  blocks !! l = Some b -> edge ∈ map fst (lifetime_edges resumes b) ++ option_list (blk_exc_edge b) -> source ⊆ U ->
  shrinks flow (propagate catalog blocks edge source flow).
Proof. intros Hb He Hs Hok. apply propagate_ok; [|done|done]. by eapply edges_known. Qed.
Lemma raises_propagate l b source flow :
  blocks !! l = Some b -> source ⊆ U -> shrinks flow (propagate_opt catalog blocks (blk_exc_edge b) source flow).
Proof.
  intros Hb Hs. unfold propagate_opt. destruct (blk_exc_edge b) as [edge|] eqn:E; [|by intros ?; split].
  eapply propagates; [done| |done]. rewrite E. apply elem_of_app. right. by left.
Qed.
Lemma owned_steps_ok l b entries state :
  blocks !! l = Some b -> state.1 ⊆ U ->
  (fold_left (owned_step catalog blocks live b) entries state).1 ⊆ U
  /\ shrinks state.2 (fold_left (owned_step catalog blocks live b) entries state).2.
Proof.
  intros Hb. revert state. induction entries as [|[index i] entries IH]; intros [owned flow] Ho; cbn [fold_left].
  { by split; [|intros ?; split]. }
  cbn [fst snd] in *. unfold owned_step at 2 4. set (owned1 := (retire_at_point b owned _).2).
  assert (owned1 ⊆ U) as Ho1 by (by apply retired_bounded).
  destruct (transfer_within i (owned1, owned1) ltac:(by split)) as [Ho2 Hp2].
  destruct (transfer_owned catalog i (owned1, owned1)) as [owned2 prefixes]. cbn [fst snd] in *.
  destruct (IH (owned2, propagate_opt catalog blocks (blk_exc_edge b) prefixes flow) Ho2) as [IH1 IH2].
  split; [done|]. eapply shrinks_trans; [|exact IH2]. by eapply raises_propagate.
Qed.
Lemma owned_block_ok l b owned flow :
  blocks !! l = Some b -> owned ⊆ U -> shrinks flow (owned_block resumes catalog blocks live b owned flow).
Proof.
  intros Hb Ho. unfold owned_block.
  destruct (owned_steps_ok l b (enumerate (blk_body b)) (owned, flow) Hb Ho) as [Ho1 Hf1].
  destruct (fold_left (owned_step _ _ _ b) _ _) as [owned1 flow1]. cbn [fst snd] in *.
  set (owned2 := (retire_at_point b owned1 _).2). assert (owned2 ⊆ U) as Ho2 by (by apply retired_bounded).
  destruct (all_transfers_within (resolved_term_instrs (blk_term b)) (owned2, owned2) ltac:(by split)) as [Ho3 Hp3].
  destruct (fold_left _ (resolved_term_instrs _) (owned2, owned2)) as [owned3 prefixes]. cbn [fst snd] in *.
  eapply shrinks_trans; [exact Hf1|]. eapply shrinks_trans; [by eapply raises_propagate|].
  generalize (propagate_opt catalog blocks (blk_exc_edge b) prefixes flow1) as flow2.
  enough (forall es flow2, es ⊆ lifetime_edges resumes b -> shrinks flow2 (fold_left (fun flow edge =>
    propagate catalog blocks edge.1 (if edge.2 : bool then saved_owners owned3 else owned3) flow) es flow2)) as H.
  { intros flow2. by apply H. }
  induction es as [|e es IH]; intros flow2 Hes; cbn [fold_left]; [by intros ?; split|].
  eapply shrinks_trans; [|apply IH; set_solver]. eapply propagates; [done| |].
  - apply elem_of_app. left. apply list_elem_of_fmap_2, Hes. by left.
  - unfold saved_owners. destruct (e.2); set_solver.
Qed.

Lemma owned_loop_total fuel flow :
  flow_ok flow -> (remaining flow < fuel)%nat -> exists inputs, owned_loop resumes catalog blocks live fuel flow = Some (Some inputs).
Proof.
  revert flow. induction fuel as [|fuel IH]; intros [inputs work] Hok Hf; [lia|]. cbn [owned_loop].
  destruct work as [|l work]; [by eexists|]. pose proof Hok as [Hk Hq]. cbn [fst snd] in *.
  destruct (Hq l ltac:(by left)) as [owned Eo]. destruct (Hk _ _ Eo) as [[b Eb] Ho]. rewrite Eb, Eo. cbn [mbind option_bind].
  destruct (owned_block_ok l b owned (inputs, work) Eb Ho) as [Hok' Hle].
  { split; [exact Hk|]. intros l' Hl'. apply Hq. by right. }
  apply IH; [done|]. unfold remaining in *. cbn [fst snd length] in *. lia.
Qed.
Lemma owned_inputs_total entry :
  is_Some (blocks !! entry) -> exists inputs, owned_inputs resumes catalog blocks live entry = Some (Some inputs).
Proof.
  intros He. apply owned_loop_total.
  - split; cbn.
    + intros l s [<- <-]%lookup_singleton_Some. split; [done|]. unfold ts_preserved. set_solver.
    + intros l ->%list_elem_of_singleton. rewrite lookup_singleton_eq. by eexists.
  - unfold remaining, owned_fuel, capacity. cbn [fst snd length]. lia.
Qed.
End ownership.

(** ** The pass *)

Lemma catalog_logical f catalog name k :
  transport_storage_new f = Some (Some catalog) -> k ∈ for_logical catalog name -> k ∈ dom (ts_owners catalog).
Proof.
  intros H Hk. unfold for_logical, in_order in Hk. rewrite elem_of_sort_by, elem_of_elements in Hk.
  destruct (rf_storage_layout f) as [layout|] eqn:El.
  - destruct (block_parameter_transport_copies (rf_blocks f)) as [copies|] eqn:Ec.
    2: { unfold transport_storage_new in H. rewrite El, Ec in H. by destruct (declared_storage _ _). }
    destruct (transport_storage_spec f layout copies _ El Ec H) as (st & [= <-] & Hd & Hl & Ho & _).
    destruct (ts_logical catalog !! name) as [owners|] eqn:En; [|cbn in Hk; set_solver].
    apply elem_of_dom, Ho. exists name. split; [apply Hd; by eexists|]. by eapply Hl.
  - unfold transport_storage_new in H. rewrite El in H. injection H as <-. cbn in Hk. set_solver.
Qed.
Lemma killed_lookup catalog live bs l :
  NoDup (labels bs) -> block_map (map (kill_copies catalog live) bs) !! l = kill_copies catalog live <$> block_map bs !! l.
Proof.
  intros Hnd. unfold block_map. rewrite map_map. cbn [kill_copies with_body blk_label].
  destruct (collect_map (map (fun b => (blk_label b, b)) bs) !! l) as [b|] eqn:E; cbn.
  - apply collect_map_elem, list_elem_of_fmap in E as (b' & [= -> ->] & Hb').
    apply collect_map_unique; [by rewrite map_map|]. apply list_elem_of_fmap. by exists b'.
  - apply eq_None_not_Some. rewrite collect_map_dom, map_map. cbn. intros Hl.
    apply eq_None_not_Some in E. apply E. apply collect_map_dom. by rewrite map_map.
Qed.

(** C16: Retiring exception transports always succeeds: for a function with distinct labels, whose
    edges lead to blocks, whose suspensions are valid and which has a catalogue, the analysis of
    active handlers, the liveness analysis and the ownership analysis end within their fuel, none
    of the lookups of a block fails, and the pass returns a function. *)
Theorem transport_retirement_total f catalog :
  NoDup (labels (rf_blocks f)) -> rf_blocks f <> [] ->
  is_ok (validate_suspension_resumes (as_blockpy f)) = true ->
  known_targets (resume_targets (rf_blocks f)) (rf_blocks f) = true ->
  transport_storage_new f = Some (Some catalog) ->
  exists f', retire_exception_transports f = Some f'.
Proof.
  intros Hnd Hne Hok Hknown Hc. unfold retire_exception_transports. rewrite Hok, Hc, Hknown. cbn [negb mbind option_bind].
  destruct (ts_is_empty catalog); [by eexists|].
  destruct (catalog_facts f catalog Hc) as [_ Hpar].
  destruct (scope_states_total (resume_targets (rf_blocks f)) _ Hnd Hne) as [scopes ->]. cbn [mbind option_bind].
  destruct (live_points_total (resume_targets (rf_blocks f)) catalog (block_map (rf_blocks f)) scopes Hpar
    (fun name k => catalog_logical f catalog name k Hc) _ Hnd) as [live ->]. cbn [mbind option_bind].
  destruct (rf_blocks f) as [|b0 rest] eqn:Eb; [done|]. rewrite <- Eb in *.
  replace (head (map (kill_copies catalog live) (rf_blocks f))) with (Some (kill_copies catalog live b0)) by (by rewrite Eb).
  cbn [mbind option_bind].
  destruct (owned_inputs_total (resume_targets (rf_blocks f)) catalog (block_map (map (kill_copies catalog live) (rf_blocks f)))
    live Hpar) with (entry := blk_label (kill_copies catalog live b0)) as [inputs ->]; [| |by eexists].
  - intros l b edge Hb He. rewrite killed_lookup in Hb by done. apply fmap_Some in Hb as (b' & Hb' & ->).
    rewrite killed_lookup by done. apply fmap_is_Some.
    apply collect_map_elem, list_elem_of_fmap in Hb' as (? & [= _ <-] & Hb').
    unfold known_targets in Hknown. rewrite forallb_forall in Hknown. apply list_elem_of_In, Hknown in Hb'.
    rewrite forallb_forall in Hb'. apply list_elem_of_In, Hb' in He. by apply bool_decide_eq_true in He.
  - rewrite killed_lookup by done. apply fmap_is_Some, collect_map_dom. rewrite map_map, Eb. by left.
Qed.

(** A loop of two bridges between a protected block and its handler. *)
Module DemoTotal.
Definition bridge (l t : Z) : Block InstrResolved :=
  mkBlock (mkBlockLabel l) [] (BT_Jump (edge_new (mkBlockLabel t))) [] None (mkBlockContext HE_Preserve None).
Definition demo : ResolvedFunction :=
  mkResolvedFunction (from_raw_parts 0 1) "f" FK_Function (mkFunctionNameGen 0) (Some DemoRetire.layout)
    [DemoRetire.work; DemoRetire.handler; bridge 2 3; bridge 3 2].
End DemoTotal.
Lemma transport_retirement_total_witness : exists f', retire_exception_transports DemoTotal.demo = Some f'.
Proof.
  apply (transport_retirement_total DemoTotal.demo DemoRetire.catalog).
  - apply (bool_decide_unpack _). vm_compute. exact I.
  - done.
  - by vm_compute.
  - by vm_compute.
  - by vm_compute.
Defined.
