(* ===== verification/Pending.v ===== *)
(** * Unwinding of pending finally payloads

    crates/soac_lowering/src/passes/blockpy_to_bb/exception_pass/pending_cleanup.rs: a finally
    block owns the value or exception it was entered with until control leaves it.  Every edge
    that leaves the block goes through a carrier block, which captures the arguments of the edge,
    and one block per payload left, innermost first, which trims the active handlers to those of
    the payload's own block and resets the payload.

    [HashMap]s are only looked up, so they are [gmap]s.  [None] is a panic. *)

From stdpp Require Import gmap.
From S2P Require Import Prelude Order Collections Ids Cfg Names Instr Layout BbShape.
From S2P Require Import Resolved Roles OperandCleanup Transport TransportLifetime.

Local Open Scope Z_scope.

Record PendingOwner : Type := mkPendingOwner {
  po_values : list ResolvedName; po_handlers : list BlockParam }.
Notation Owners := (gmap string PendingOwner).

#[global] Instance BlockParam_eq_dec : EqDecision BlockParam.
Proof. solve_decision. Defined.

(** ** Owners *)

Definition handlers_of (b : Block InstrResolved) : list BlockParam :=
  handled_exception_params (blk_params b) (blk_extra b).
Definition declares_payloads (b : Block InstrResolved) : bool :=
  is_region b && existsb (fun param => bool_decide (bp_role param = BPR_AbruptKind)) (blk_params b).
Definition add_owner (storage : TransportStorage) (b : Block InstrResolved) (owners : Owners)
    (param : BlockParam) : option Owners :=
  values ← mapM (ts_name storage) (for_logical storage (bp_name param));
  if bool_decide (values = []) then None
  else match owners !! bp_name param with
       | Some previous => if bool_decide (po_handlers previous = handlers_of b) then Some owners else None
       | None => Some (<[bp_name param := mkPendingOwner values (handlers_of b)]> owners)
       end.
Definition block_owners (storage : TransportStorage) (owners : Owners) (b : Block InstrResolved) : option Owners :=
  if declares_payloads b
  then fold_opt (add_owner storage b) owners
         (List.filter (fun param => bool_decide (bp_role param = BPR_AbruptPayload)) (blk_params b))
  else Some owners.
Definition pending_owners (f : ResolvedFunction) : option Owners :=
  storage ← transport_storage_new f;
  storage ← storage;
  fold_opt (block_owners storage) ∅ (rf_blocks f).

Definition pending_stack (owners : Owners) (b : Block InstrResolved) : list string :=
  List.filter (fun name => bool_decide (is_Some (owners !! name)))
    (map bp_name (pending_abrupt_payload_params (blk_params b) (blk_extra b))).

(** [Maximum]: the greatest order of an operand, and [checked_add(1)] on [u64]. *)
Definition next_order (order : Z) : option Z :=
  if bool_decide (order + 1 < 2 ^ 64) then Some (order + 1) else None.
Definition instr_order (i : InstrResolved) : Z :=
  match i with R_Node (Op_Store _ (SL_Operand order) _) _ => order | _ => 0 end.
Definition next_operand_order (f : ResolvedFunction) : option Z :=
  next_order (fold_left (fun maximum i => Z.max maximum (instr_order i))
    (concat (map resolved_pre (concat (map resolved_block_instrs (rf_blocks f))))) 0).

(** ** A chain of cleanup blocks *)

Definition keep_param (params : list BlockParam) (name : string) (role : BlockParamRole) : list BlockParam :=
  ensure_param params name role.
Definition by_name (params : list BlockParam) : list BlockArg := map (fun param => BA_Name (bp_name param)) params.
(** [owners[name]]. *)
Definition carrier_param (owners : Owners) (params : list BlockParam) (name : string) : option (list BlockParam) :=
  owner ← owners !! name;
  Some (fold_left (fun params handler => keep_param params (bp_name handler) BPR_Value) (po_handlers owner)
    (keep_param params name BPR_Value)).
Definition carrier_params (owners : Owners) (target_params : list BlockParam) (leaving : list string) :
    option (list BlockParam) :=
  fold_opt (carrier_param owners) target_params leaving.
Definition drop_params (params : list BlockParam) (owner : PendingOwner) : list BlockParam :=
  map (fun param => mkBlockParam (bp_name param) BPR_Value)
    (List.filter (fun param => negb (has_param (po_handlers owner) (bp_name param))) params)
  ++ rev (po_handlers owner).
Definition drop_block (label : BlockLabel) (owner : PendingOwner) (next : BlockEdge) (params : list BlockParam) :
    Block InstrResolved :=
  mkBlock label (map reset (po_values owner)) (BT_Jump next) params None (mkBlockContext HE_Unwind None).
Definition carrier_block (label : BlockLabel) (next : BlockEdge) (params : list BlockParam) : Block InstrResolved :=
  mkBlock label [] (BT_Jump next) params None (mkBlockContext HE_Preserve None).
(** [position] in the target's parameters, and the argument at that index. *)
Definition carrier_arg (target_params : list BlockParam) (args : list BlockArg) (param : BlockParam) : BlockArg :=
  default (BA_Name (bp_name param))
    (entry ← list_find (fun target => bp_name target = bp_name param) target_params; args !! entry.1).
(** [starts_with] on the names. *)
Definition within_handlers (source : Block InstrResolved) (owner : PendingOwner) : bool :=
  let names := map bp_name (po_handlers owner) in
  bool_decide (take (length names) (block_handlers source) = names).

Section chain.
Context (g : FunctionNameGen) (owners : Owners).

(** [for name in leaving.iter().rev()]. *)
Fixpoint drop_blocks (source : Block InstrResolved) (params : list BlockParam) (s : Store) (names : list string)
    (next : BlockEdge) (generated : list (Block InstrResolved)) :
    option (Store * BlockEdge * list (Block InstrResolved)) :=
  match names with
  | [] => Some (s, next, generated)
  | name :: names =>
      owner ← owners !! name;
      if within_handlers source owner then
        let params' := drop_params params owner in
        '(s, label) ← fresh_label s g;
        drop_blocks source params s names (mkBlockEdge label (by_name params'))
          (generated ++ [drop_block label owner next params'])
      else None
  end.
Definition cleanup_chain (source : Block InstrResolved) (target : BlockEdge) (target_params : list BlockParam)
    (leaving : list string) (s : Store) (generated : list (Block InstrResolved)) :
    option (Store * BlockEdge * list (Block InstrResolved)) :=
  params ← carrier_params owners target_params leaving;
  '(s, next, generated) ←
    drop_blocks source params s (rev leaving) (mkBlockEdge (be_target target) (by_name target_params)) generated;
  '(s, label) ← fresh_label s g;
  Some (s, mkBlockEdge label (map (carrier_arg target_params (be_args target)) params),
        generated ++ [carrier_block label next params]).
End chain.

(** ** The pass *)

(** The local variables of the loop, with the parts of the function it changes. *)
Record PendingState : Type := mkPendingState {
  ps_store : Store;
  ps_layout : option StorageLayout;
  ps_target_params : gmap BlockLabel (list BlockParam);
  ps_order : Z;
  ps_escaping : option BlockLabel;
  ps_generated : list (Block InstrResolved)
}.

Definition layout_default : StorageLayout := mkStorageLayout None [] None [] [] [] [] [].
Definition with_stack_slots (l : StorageLayout) (slots : list string) : StorageLayout :=
  mkStorageLayout (sl_class_bindings l) (sl_block_parameter_roles l) (sl_generator_resume_abi l) (sl_freevars l)
    (sl_cellvars l) (sl_preserved_slots l) slots (sl_expression_temporaries l).
Definition fresh_local (g : FunctionNameGen) (s : Store) (layout : option StorageLayout) (label : string)
    (operand : bool) : option (Store * StorageLayout * ResolvedName) :=
  '(s, name) ← next_tmp_name s g label;
  let layout := default layout_default layout in
  slot ← index_u32 (length (sl_stack_slots layout));
  let layout := with_stack_slots layout (sl_stack_slots layout ++ [name]) in
  layout ← (if operand then mark_expression_temporary layout (OL_Local (mkLocalLocation slot)) else Some layout);
  Some (s, layout, mkResolvedName name (NL_Local (mkLocalLocation slot))).

Section pass.
Context (g : FunctionNameGen) (kind : FunctionKind) (owners : Owners) (stacks : gmap BlockLabel (list string)).

(** The payloads an edge leaves, innermost first. *)
Definition leaving (pending : list string) (target : BlockLabel) : list string :=
  rev (drop (length (common_prefix pending (default [] (stacks !! target)))) pending).

Definition return_block (label : BlockLabel) (result : ResolvedName) : Block InstrResolved :=
  mkBlock label [] (BT_Return (R_Node (Op_Load result None) [])) [mkBlockParam (rn_id result) BPR_Value] None
    block_context_default.
Definition escaping_block (label : BlockLabel) (error : ResolvedName) : Block InstrResolved :=
  mkBlock label [] (BT_Raise (mkTermRaise (Some (R_Node (Op_Load error None) [])) RD_PropagateNormalized))
    [mkBlockParam (rn_id error) BPR_Exception] None
    (mkBlockContext (match kind with FK_Function => HE_Unwind | _ => HE_Terminal end) None).

(** A [return] of an ordinary function: the value is stored first. *)
Definition pending_return (st : PendingState) (b : Block InstrResolved) : option (PendingState * Block InstrResolved) :=
  match kind, blk_term b with
  | FK_Function, BT_Return value =>
      '(s, layout, result) ← fresh_local g (ps_store st) (ps_layout st) "pending_return_result" true;
      order ← next_order (ps_order st);
      '(s, label) ← fresh_label s g;
      Some (mkPendingState s (Some layout) (<[label := blk_params (return_block label result)]> (ps_target_params st)) order (ps_escaping st)
              (ps_generated st ++ [return_block label result]),
            mkBlock (blk_label b)
              (blk_body b ++ [R_Node (Op_Store result (SL_Operand (ps_order st)) SP_Binding) [value]])
              (BT_Jump (edge_new label)) (blk_params b) (blk_exc_edge b) (blk_extra b))
  | _, _ => Some (st, b)
  end.

Definition chain_for (st : PendingState) (b : Block InstrResolved) (edge : BlockEdge) (names : list string) :
    option (PendingState * BlockEdge) :=
  target_params ← ps_target_params st !! be_target edge;
  '(s, replacement, generated) ← cleanup_chain g owners b edge target_params names (ps_store st) (ps_generated st);
  Some (mkPendingState s (ps_layout st) (ps_target_params st) (ps_order st) (ps_escaping st) generated, replacement).

Definition redirect_term (t : BlockTerm InstrResolved) (target : BlockLabel) (replacement : BlockEdge) :
    BlockTerm InstrResolved :=
  match t with
  | BT_Jump _ => BT_Jump replacement
  | _ => (replace_target t target (be_target replacement)).1
  end.
Definition redirect_edge (pending : list string) (state : PendingState * Block InstrResolved) (edge : BlockEdge) :
    option (PendingState * Block InstrResolved) :=
  let '(st, b) := state in
  let names := leaving pending (be_target edge) in
  if bool_decide (names = []) then Some state
  else '(st, replacement) ← chain_for st b edge names;
       Some (st, with_term b (redirect_term (blk_term b) (be_target edge) replacement)).

(** [get_or_insert_with]: the one block that lets an exception escape. *)
Definition escaping_edge (st : PendingState) : option (PendingState * BlockEdge) :=
  '(st, label) ←
    match ps_escaping st with
    | Some label => Some (st, label)
    | None =>
        '(s, layout, error) ← fresh_local g (ps_store st) (ps_layout st) "pending_escaping_exception" false;
        '(s, label) ← fresh_label s g;
        Some (mkPendingState s (Some layout) (<[label := blk_params (escaping_block label error)]> (ps_target_params st))
                (ps_order st) (Some label) (ps_generated st ++ [escaping_block label error]), label)
    end;
  Some (st, mkBlockEdge label [BA_CurrentException]).
Definition redirect_exception (pending : list string) (st : PendingState) (b : Block InstrResolved) :
    option (PendingState * Block InstrResolved) :=
  '(st, edge) ← match blk_exc_edge b with Some edge => Some (st, edge) | None => escaping_edge st end;
  let names := leaving pending (be_target edge) in
  if bool_decide (names = []) then Some (st, b)
  else '(st, replacement) ← chain_for st b edge names; Some (st, with_exc_target b replacement).

Definition pending_block (st : PendingState) (b : Block InstrResolved) : option (PendingState * Block InstrResolved) :=
  let pending := pending_stack owners b in
  if bool_decide (pending = []) || negb (is_region b) then Some (st, b)
  else
    '(st, b) ← pending_return st b;
    '(st, b) ← fold_opt (redirect_edge pending) (st, b) (normal_edges b);
    redirect_exception pending st b.
Definition pending_blocks (st : PendingState) (blocks : list (Block InstrResolved)) :
    option (PendingState * list (Block InstrResolved)) :=
  fold_opt (fun state b =>
    let '(st, output) := state in
    '(st, b) ← pending_block st b; Some (st, output ++ [b])) (st, []) blocks.
End pass.

Definition materialize_pending_payload_unwinds (s : Store) (f : ResolvedFunction) :
    option (Store * ResolvedFunction) :=
  owners ← pending_owners f;
  if bool_decide (owners = ∅) then Some (s, f)
  else
    let target_params := collect_map (map (fun b => (blk_label b, blk_params b)) (rf_blocks f)) in
    let stacks := collect_map (map (fun b => (blk_label b, pending_stack owners b)) (rf_blocks f)) in
    order ← next_operand_order f;
    '(st, output) ← pending_blocks (rf_name_gen f) (rf_kind f) owners stacks
      (mkPendingState s (rf_storage_layout f) target_params order None []) (rf_blocks f);
    Some (ps_store st, with_resolved_blocks (with_resolved_layout f (ps_layout st)) (output ++ ps_generated st)).
