(* ===== verification/PendingProps.v ===== *)
(** * Pending payloads are dropped, and nothing else changes

    The blocks that Pending.v writes: every edge that leaves a finally block goes through a
    chain of blocks that resets the payloads left, innermost first, and then to its old target
    with its old arguments. *)

From stdpp Require Import gmap.
From S2P Require Import Prelude Order Collections Ids IdsProps Cfg CfgProps Names Instr Layout BbShape.
From S2P Require Import Resolved ResolvedSem Roles Flow OperandCleanup LiveAgree OperandCleanupProps.
From S2P Require Import Transport TransportProps TransportLifetime TransportLifetimeProps Pending.

Local Open Scope Z_scope.

Definition owner_slots (owner : PendingOwner) : list NameLocation := map rn_location (po_values owner).

(** ** Chains *)

Section chains.
Context (after : list (Block InstrResolved)) (owners : Owners).

(** From label [c] control comes to [t], resetting the slots [xs] on the way. *)
Inductive leads : BlockLabel -> BlockLabel -> list NameLocation -> Prop :=
| Leads_Here t : leads t t []
| Leads_Step c next t params extra names xs :
    find_block c after
      = Some (mkBlock c (map reset names) (BT_Jump (mkBlockEdge next (by_name (params_at after next)))) params None extra) ->
    Forall (fun n => is_slot (rn_location n) = true) names ->
    leads next t xs -> leads c t (map rn_location names ++ xs).

Definition drops (names : list string) : list NameLocation :=
  concat (map (fun name => from_option owner_slots [] (owners !! name)) names).

(** The replacement of an edge when [names] are left. *)
Inductive exits (names : list string) (edge edge' : BlockEdge) : Prop :=
| Exits_Stay : names = [] -> edge' = edge -> exits names edge edge'
| Exits_Chain params :
    names <> [] -> leads (be_target edge') (be_target edge) (drops names) ->
    carrier_params owners (params_at after (be_target edge)) names = Some params ->
    params_at after (be_target edge') = params ->
    be_args edge' = map (carrier_arg (params_at after (be_target edge)) (be_args edge)) params ->
    exits names edge edge'.
End chains.

(** ** Counters *)

Lemma next_tmp_counter s g prefix s' name : next_tmp_name s g prefix = Some (s', name) -> block_counter s' g = block_counter s g.
Proof.
  unfold next_tmp_name, fetch_tmp, block_counter. intros H.
  destruct (st_functions s !! fg_state g) as [st|] eqn:E; [|done]. cbn in H. injection H as <- _. cbn.
  by rewrite lookup_insert_eq.
Qed.

Section chain_spec.
Context (g : FunctionNameGen) (owners : Owners).

(** New blocks have new labels, counted by the generator. *)
Record grown (s s' : Store) (gen gen' : list (Block InstrResolved)) : Prop := mkGrown {
  grown_blocks : exists new, gen' = gen ++ new /\ NoDup (labels new)
    /\ exists n n', block_counter s g = Some n /\ block_counter s' g = Some n' /\ n <= n'
    /\ forall c, c ∈ new -> n <= bl_index (blk_label c) < n'
}.
Lemma grown_refl s gen n : block_counter s g = Some n -> grown s s gen gen.
Proof.
  intros H. split. exists []. rewrite app_nil_r. split_and!; [done|constructor|]. exists n, n. split_and!; [done|done|lia|].
  by intros c ?%not_elem_of_nil.
Qed.
Lemma grown_trans s1 s2 s3 g1 g2 g3 : grown s1 s2 g1 g2 -> grown s2 s3 g2 g3 -> grown s1 s3 g1 g3.
Proof.
  intros [(l1 & -> & N1 & n & n' & Hn & Hn' & Hle & H1)] [(l2 & -> & N2 & m & m' & Hm & Hm' & Hle' & H2)].
  assert (m = n') as -> by congruence. split. exists (l1 ++ l2). rewrite app_assoc. split; [done|]. split.
  - unfold labels. rewrite map_app. apply NoDup_app. split_and!; [done| |done].
    intros x (c & -> & Hc%H1)%list_elem_of_fmap (c' & E & Hc'%H2)%list_elem_of_fmap. rewrite E in Hc. lia.
  - exists n, m'. split_and!; [done|done|lia|]. intros c [Hc%H1|Hc%H2]%elem_of_app; lia.
Qed.
Lemma grown_one s s' gen l c :
  fresh_label s g = Some (s', l) -> is_Some (block_counter s g) -> (forall n, block_counter s g = Some n -> 0 <= n) ->
  blk_label c = l -> grown s s' gen (gen ++ [c]).
Proof.
  intros Hf [n Hn] H0 Hl. destruct (fresh_label_counter _ _ _ _ _ Hf Hn (H0 _ Hn)) as [E E']. split. exists [c].
  split_and!; [done|apply NoDup_singleton|]. exists n, (n + 1). split_and!; [done|done|lia|].
  intros c' ->%list_elem_of_singleton. rewrite Hl. lia.
Qed.
Lemma grown_incl s s' gen gen' : grown s s' gen gen' -> gen ⊆ gen'.
Proof. intros [(new & -> & _)]. set_solver. Qed.
Definition counted (s : Store) (n0 : Z) : Prop := exists n, block_counter s g = Some n /\ 0 <= n0 <= n.
Lemma counted_grown s s' gen gen' n0 : counted s n0 -> grown s s' gen gen' -> counted s' n0.
Proof.
  intros (n & Hn & H0) [(new & _ & _ & m & m' & Hm & Hm' & Hle & _)]. exists m'. split; [done|].
  assert (m = n) by congruence. lia.
Qed.
Lemma counted_one s s' gen l c n0 :
  counted s n0 -> fresh_label s g = Some (s', l) -> blk_label c = l -> grown s s' gen (gen ++ [c]).
Proof.
  intros (n & Hn & H0) Hf Hl. apply (grown_one s s' gen l); [done|by eexists| |done]. intros m Hm.
  assert (m = n) by congruence. lia.
Qed.

(** What is found in the finished function. *)
Definition covers (after gen : list (Block InstrResolved)) : Prop :=
  forall c, c ∈ gen -> find_block (blk_label c) after = Some c.
Lemma covers_incl after gen gen' : gen ⊆ gen' -> covers after gen' -> covers after gen.
Proof. intros H Hc c Hin. apply Hc. by apply H. Qed.

Definition slot_owners : Prop := forall name owner, owners !! name = Some owner ->
  Forall (fun n => is_slot (rn_location n) = true) (po_values owner).

Lemma drop_blocks_spec source params names s next gen s' next' gen' n0 :
  slot_owners -> counted s n0 -> drop_blocks g owners source params s names next gen = Some (s', next', gen') ->
  grown s s' gen gen'
  /\ forall after t xs, covers after gen' -> be_args next = by_name (params_at after (be_target next)) ->
       leads after (be_target next) t xs ->
       be_args next' = by_name (params_at after (be_target next'))
       /\ leads after (be_target next') t (drops owners (rev names) ++ xs).
Proof.
  intros Hso. revert s next gen. induction names as [|name names IH]; intros s next gen Hc H; cbn in H.
  { destruct Hc as (n & Hn & _). injection H as <- <- <-. split; [by eapply grown_refl|]. done. }
  destruct (owners !! name) as [owner|] eqn:Eo; [|done]. cbn [mbind option_bind] in H.
  destruct (within_handlers source owner); [|done].
  destruct (fresh_label s g) as [[s1 label]|] eqn:Ef; [|done]. cbn [mbind option_bind] in H.
  set (c := drop_block label owner next (drop_params params owner)) in *.
  pose proof (counted_one s s1 gen label c n0 Hc Ef eq_refl) as G1.
  destruct (IH _ _ _ (counted_grown _ _ _ _ _ Hc G1) H) as [G2 IH2]. split; [by eapply grown_trans|].
  intros after t xs Hcov Hargs Hlead. pose proof (Hcov c) as Hfc. specialize (Hfc ltac:(eapply grown_incl; [exact G2|set_solver])).
  cbn [be_target be_args] in IH2.
  destruct (IH2 after t (owner_slots owner ++ xs) Hcov) as [Ha Hl].
  - unfold params_at. change label with (blk_label c). by rewrite Hfc.
  - eapply Leads_Step; [|by eapply Hso|exact Hlead]. change label with (blk_label c) at 1. rewrite Hfc. unfold c, drop_block.
    rewrite <- Hargs. by destruct next.
  - split; [done|]. cbn [rev]. unfold drops in *. rewrite map_app, concat_app. cbn. rewrite Eo. cbn. by rewrite app_nil_r, <- app_assoc.
Qed.

Lemma cleanup_chain_spec source edge target_params names s gen s' edge' gen' n0 :
  slot_owners -> counted s n0 -> names <> [] ->
  cleanup_chain g owners source edge target_params names s gen = Some (s', edge', gen') ->
  grown s s' gen gen' /\ n0 <= bl_index (be_target edge')
  /\ forall after, covers after gen' -> params_at after (be_target edge) = target_params -> exits after owners names edge edge'.
Proof.
  intros Hso Hc Hne H. unfold cleanup_chain in H.
  destruct (carrier_params owners target_params names) as [params|] eqn:Ep; [|done]. cbn [mbind option_bind] in H.
  destruct (drop_blocks _ _ _ _ _ _ _ _) as [[[s1 next] gen1]|] eqn:Ed; [|done]. cbn [mbind option_bind] in H.
  destruct (fresh_label s1 g) as [[s2 label]|] eqn:Ef; [|done]. cbn [mbind option_bind] in H. injection H as <- <- <-.
  destruct (drop_blocks_spec _ _ _ _ _ _ _ _ _ _ Hso Hc Ed) as [G1 Hd].
  pose proof (counted_grown _ _ _ _ _ Hc G1) as Hc1. set (c := carrier_block label next params).
  pose proof (counted_one s1 s2 gen1 label c n0 Hc1 Ef eq_refl) as G2. split_and!; [by eapply grown_trans| |].
  { destruct Hc1 as (n & Hn & H0). destruct (fresh_label_counter _ _ _ _ _ Ef Hn) as [E _]; [lia|]. cbn. lia. }
  intros after Hcov Htp. pose proof (Hcov c ltac:(set_solver)) as Hfc. cbn [blk_label c carrier_block] in Hfc.
  destruct (Hd after (be_target edge) []) as [Ha Hl]; [by eapply covers_incl; [by eapply grown_incl|]|by rewrite <- Htp|constructor|].
  rewrite rev_involutive, app_nil_r in Hl.
  assert (params_at after label = params) as Hpl by (unfold params_at; by rewrite Hfc).
  eapply Exits_Chain; [done| |by rewrite Htp|exact Hpl|by rewrite Htp].
  change (drops owners names) with (map rn_location [] ++ drops owners names). eapply Leads_Step; [|constructor|exact Hl].
  cbn [be_target]. rewrite Hfc. unfold carrier_block. rewrite <- Ha. by destruct next.
Qed.
End chain_spec.

(** ** Blocks *)

Definition stack_of (layout : option StorageLayout) : list string := sl_stack_slots (default layout_default layout).

Lemma fresh_local_spec g s layout label operand s' layout' name :
  fresh_local g s layout label operand = Some (s', layout', name) ->
  block_counter s' g = block_counter s g /\ sl_stack_slots layout' = stack_of layout ++ [rn_id name]
  /\ rn_location name = NL_Local (mkLocalLocation (Z.of_nat (length (stack_of layout)))).
Proof.
  intros H. unfold fresh_local in H. destruct (next_tmp_name s g label) as [[s1 id]|] eqn:En; [|done]. cbn [mbind option_bind] in H.
  fold (stack_of layout) in H. destruct (index_u32 (length (stack_of layout))) as [slot|] eqn:Ei; [|done]. cbn [mbind option_bind] in H.
  apply index_u32_some in Ei as ->. apply next_tmp_counter in En.
  destruct operand.
  - unfold mark_expression_temporary in H. destruct (operand_allocated _ _); [|done]. cbn [mbind option_bind] in H. injection H as <- <- <-.
    split_and!; [done| |done]. by destruct (is_expression_temporary _ _).
  - cbn [mbind option_bind] in H. by injection H as <- <- <-.
Qed.

Section pass_spec.
Context (g : FunctionNameGen) (kind : FunctionKind) (owners : Owners) (stacks : gmap BlockLabel (list string)).
Context (blocks : list (Block InstrResolved)) (n0 : Z) (len0 : nat).
Hypothesis owners_slots : slot_owners owners.
Hypothesis old_labels : forall b, b ∈ blocks -> bl_index (blk_label b) < n0.
Hypothesis old_stacks : forall l, is_Some (stacks !! l) -> bl_index l < n0.

Record state_ok (st : PendingState) : Prop := mkStateOk {
  ok_counted : counted g (ps_store st) n0;
  ok_params l ps : ps_target_params st !! l = Some ps ->
    exists c, (c ∈ blocks \/ c ∈ ps_generated st) /\ blk_label c = l /\ blk_params c = ps;
  ok_escaping l : ps_escaping st = Some l -> n0 <= bl_index l
    /\ exists error i, escaping_block kind l error ∈ ps_generated st /\ (len0 <= i)%nat
      /\ stack_of (ps_layout st) !! i = Some (rn_id error) /\ rn_location error = NL_Local (mkLocalLocation (Z.of_nat i));
  ok_length : (len0 <= length (stack_of (ps_layout st)))%nat
}.
Record later (st st' : PendingState) : Prop := mkLater {
  later_grown : grown g (ps_store st) (ps_store st') (ps_generated st) (ps_generated st');
  later_slots : stack_of (ps_layout st) `prefix_of` stack_of (ps_layout st')
}.
Lemma later_refl st : state_ok st -> later st st.
Proof. intros [(n & Hn & _) _ _ _]. split; [by eapply grown_refl|done]. Qed.
Lemma later_trans st1 st2 st3 : later st1 st2 -> later st2 st3 -> later st1 st3.
Proof. intros [] []. split; [by eapply grown_trans|by etrans]. Qed.

Context (after : list (Block InstrResolved)) (slot_of : string -> option NameLocation) (F : gset NameLocation).

Definition fresh_name (name : ResolvedName) : Prop :=
  slot_of (rn_id name) = Some (rn_location name) /\ rn_location name ∈ F /\ is_slot (rn_location name) = true.
Record finished (st : PendingState) : Prop := mkFinished {
  fin_covers : covers after (ps_generated st);
  fin_params b : b ∈ blocks -> params_at after (blk_label b) = blk_params b;
  fin_slots i name : (len0 <= i)%nat -> stack_of (ps_layout st) !! i = Some name ->
    slot_of name = Some (NL_Local (mkLocalLocation (Z.of_nat i))) /\ NL_Local (mkLocalLocation (Z.of_nat i)) ∈ F
}.
Lemma finished_later st st' : later st st' -> finished st' -> finished st.
Proof.
  intros [Hg Hp] [Hc Hps Hs]. split; [|done|].
  - eapply covers_incl; [by eapply grown_incl|done].
  - intros i name Hi Hn. apply Hs; [done|]. by eapply prefix_lookup_Some.
Qed.
Lemma finished_params st l ps :
  state_ok st -> finished st -> ps_target_params st !! l = Some ps -> params_at after l = ps.
Proof.
  intros Hok Hf Hl. destruct (ok_params _ Hok _ _ Hl) as (c & [Hc|Hc] & <- & <-); [by apply fin_params with st|].
  unfold params_at. by rewrite (fin_covers _ Hf c Hc).
Qed.

(** A block with a new label and a new local. *)
Lemma fresh_block_spec st s layout name s' l c order escaping :
  state_ok st ->
  fresh_local g (ps_store st) (ps_layout st) s order = Some (s', layout, name) -> fresh_label s' g = Some (escaping, l) ->
  blk_label c = l ->
  forall e, (e = ps_escaping st \/ (e = Some l /\ c = escaping_block kind l name)) ->
  forall o,
  let st' := mkPendingState escaping (Some layout) (<[l := blk_params c]> (ps_target_params st)) o e (ps_generated st ++ [c]) in
  state_ok st' /\ later st st' /\ n0 <= bl_index l
  /\ (finished st' -> fresh_name name /\ find_block l after = Some c).
Proof.
  intros Hok Hl Hlab Hc e He o st'. destruct (fresh_local_spec _ _ _ _ _ _ _ _ Hl) as (Hcnt & Hslots & Hloc).
  pose proof (ok_counted _ Hok) as (n & Hn & H0). rewrite <- Hcnt in Hn.
  destruct (fresh_label_counter _ _ _ _ _ Hlab Hn ltac:(lia)) as [Hidx Hn'].
  assert (stack_of (Some layout) = stack_of (ps_layout st) ++ [rn_id name]) as Hst by done.
  assert (later st st') as Hlater.
  { split; cbn; [|rewrite Hst; by apply prefix_app_r]. split. exists [c].
    split_and!; [done|apply NoDup_singleton|]. exists n, (n + 1). rewrite Hcnt in Hn. split_and!; [done|done|lia|].
    intros c' ->%list_elem_of_singleton. rewrite Hc. lia. }
  split_and!; [|exact Hlater|lia|].
  - split; cbn.
    + exists (n + 1). split; [done|lia].
    + intros l' ps [[<- <-]|[_ Hps]]%lookup_insert_Some; [exists c; set_solver|].
      destruct (ok_params _ Hok _ _ Hps) as (c' & Hc' & ? & ?). exists c'. set_solver.
    + intros l' El. destruct He as [->|[-> ->]].
      * destruct (ok_escaping _ Hok _ El) as (? & error & i & ? & ? & Hi & ?). split; [done|].
        exists error, i. split_and!; [set_solver|done| |done]. rewrite Hst. by apply lookup_app_l_Some.
      * injection El as <-. split; [lia|]. exists name, (length (stack_of (ps_layout st))).
        split_and!; [set_solver|apply (ok_length _ Hok)| |done]. rewrite Hst. by apply list_lookup_middle.
    + rewrite Hst, length_app. pose proof (ok_length _ Hok). lia.
  - intros Hf. split; [|rewrite <- Hc; apply (fin_covers _ Hf); cbn; set_solver].
    destruct (fin_slots _ Hf (length (stack_of (ps_layout st))) (rn_id name)) as [H1 H2].
    + apply (ok_length _ Hok).
    + cbn. rewrite Hst. by apply list_lookup_middle.
    + unfold fresh_name. by rewrite Hloc.
Qed.

Inductive returned (b b1 : Block InstrResolved) : Prop :=
| Returned_Same : b1 = b -> returned b b1
| Returned_Stored value result r order :
    kind = FK_Function -> blk_term b = BT_Return value -> n0 <= bl_index r ->
    find_block r after = Some (return_block r result) -> fresh_name result ->
    b1 = mkBlock (blk_label b) (blk_body b ++ [R_Node (Op_Store result (SL_Operand order) SP_Binding) [value]])
           (BT_Jump (edge_new r)) (blk_params b) (blk_exc_edge b) (blk_extra b) ->
    returned b b1.

Lemma pending_return_spec st b st' b1 :
  state_ok st -> pending_return g kind st b = Some (st', b1) ->
  state_ok st' /\ later st st' /\ (finished st' -> returned b b1).
Proof.
  intros Hok H. unfold pending_return in H.
  assert (forall x, Some (st, b) = Some x -> x = (st', b1) -> state_ok st' /\ later st st' /\ (finished st' -> returned b b1)) as Hsame.
  { intros x [= <-] [= -> ->]. split_and!; [done|by apply later_refl|]. intros _. by apply Returned_Same. }
  destruct kind eqn:Ek; try by (eapply Hsame; [reflexivity|by injection H as -> ->]).
  destruct (blk_term b) as [| | | |value|] eqn:Et; try by (eapply Hsame; [reflexivity|by injection H as -> ->]).
  destruct (fresh_local _ _ _ _ _) as [[[s1 layout] result]|] eqn:El; [|done]. cbn [mbind option_bind] in H.
  destruct (next_order (ps_order st)) as [order|]; [|done]. cbn [mbind option_bind] in H.
  destruct (fresh_label s1 g) as [[s2 r]|] eqn:Ef; [|done]. cbn [mbind option_bind] in H. injection H as <- <-.
  destruct (fresh_block_spec st _ _ _ _ _ (return_block r result) _ _ Hok El Ef eq_refl (ps_escaping st) (or_introl eq_refl) order)
    as (Hok' & Hl & Hr & Hfin).
  split_and!; [exact Hok'|exact Hl|]. intros Hf. destruct (Hfin Hf) as [Hn Hb].
  by eapply Returned_Stored.
Qed.

Lemma chain_for_spec st b edge names st' edge' :
  state_ok st -> names <> [] -> chain_for g owners st b edge names = Some (st', edge') ->
  state_ok st' /\ later st st' /\ n0 <= bl_index (be_target edge')
  /\ (finished st' -> exits after owners names edge edge').
Proof.
  intros Hok Hne H. unfold chain_for in H.
  destruct (ps_target_params st !! be_target edge) as [tp|] eqn:Et; [|done]. cbn [mbind option_bind] in H.
  destruct (cleanup_chain _ _ _ _ _ _ _ _) as [[[s1 e1] gen1]|] eqn:Ec; [|done]. cbn [mbind option_bind] in H. injection H as <- <-.
  destruct (cleanup_chain_spec _ _ _ _ _ _ _ _ _ _ _ n0 owners_slots (ok_counted _ Hok) Hne Ec) as (Hg & Hn & Hex).
  assert (later st (mkPendingState s1 (ps_layout st) (ps_target_params st) (ps_order st) (ps_escaping st) gen1)) as Hl.
  { by split. }
  split_and!; [|done|done|].
  - pose proof (grown_incl _ _ _ _ _ Hg) as Hi. split; cbn; [by eapply counted_grown; [apply (ok_counted _ Hok)|]| | |apply (ok_length _ Hok)].
    + intros l ps Hps. destruct (ok_params _ Hok _ _ Hps) as (c & Hc & ? & ?). exists c. set_solver.
    + intros l El. destruct (ok_escaping _ Hok _ El) as (? & error & i & ? & ? & ? & ?). split; [done|]. exists error, i. set_solver.
  - intros Hf. apply Hex; [apply (fin_covers _ Hf)|]. eapply finished_params; [exact Hok|by eapply finished_later|done].
Qed.

(** The targets of a term that is no jump. *)
Definition with_targets (t t' : BlockTerm InstrResolved) (ys : list BlockLabel) : Prop :=
  match t with
  | BT_Jump _ => False
  | BT_If i => exists a b, t' = BT_If (mkTermIf (ti_test i) a b) /\ ys = [a; b]
  | BT_BranchTable b => exists ts d, t' = BT_BranchTable (mkTermBranchTable (tb_index b) ts d) /\ ys = ts ++ [d]
  | _ => t' = t /\ ys = []
  end.
Definition targets_of (t : BlockTerm InstrResolved) : list BlockLabel :=
  match t with
  | BT_Jump edge => [be_target edge]
  | BT_If i => [ti_then_label i; ti_else_label i]
  | BT_BranchTable b => tb_targets b ++ [tb_default_label b]
  | _ => []
  end.
Lemma with_targets_refl t : (forall edge, t <> BT_Jump edge) -> with_targets t t (targets_of t).
Proof. intros H. destruct t as [e|[]|[]| | |]; cbn; eauto. by destruct (H e). Qed.
Lemma with_targets_replace t tc ys from edge :
  with_targets t tc ys ->
  with_targets t (redirect_term tc from edge) (map (fun y => if bool_decide (y = from) then be_target edge else y) ys).
Proof.
  destruct t; cbn; try done; [intros (a & b & -> & ->)|intros (ts & d & -> & ->)|..]; try by intros [-> ->].
  - cbn. eauto.
  - cbn. rewrite map_app. eauto.
Qed.

Section edges.
Context (pending : list string).
Notation names := (leaving stacks pending).

(** Where a target is sent; [todo] are the edges not yet looked at. *)
Definition sent (todo : list BlockEdge) (x y : BlockLabel) : Prop :=
  (y = x /\ (names x = [] \/ x ∈ map be_target todo))
  \/ (names x <> [] /\ n0 <= bl_index y /\ leads after y x (drops owners (names x))).

Lemma redirect_edges_spec t todo st b st' b' ys :
  with_targets t (blk_term b) ys -> (forall x, x ∈ map be_target todo -> bl_index x < n0) ->
  state_ok st -> fold_opt (redirect_edge g owners stacks pending) (st, b) todo = Some (st', b') ->
  state_ok st' /\ later st st'
  /\ exists t' ys', b' = with_term b t' /\ with_targets t t' ys'
     /\ (finished st' -> forall xs, Forall2 (sent todo) xs ys -> Forall2 (sent []) xs ys').
Proof.
  intros Hys Hold. revert st b ys Hys. induction todo as [|edge todo IH]; intros st b ys Hys Hok H; cbn in H.
  { injection H as <- <-. split_and!; [done|by apply later_refl|]. exists (blk_term b), ys. split_and!; [by destruct b|done|done]. }
  assert (forall x, x ∈ map be_target todo -> bl_index x < n0) as Hold' by (intros; apply Hold; by right).
  destruct (decide (names (be_target edge) = [])) as [Hn|Hn].
  - rewrite bool_decide_true in H by done. cbn [mbind option_bind] in H.
    destruct (IH Hold' st b ys Hys Hok H) as (Hok' & Hl & t' & ys' & Hb & Ht & Hf). split_and!; [done|done|].
    exists t', ys'. split_and!; [done|done|]. intros Hfin xs Hs. apply Hf; [done|].
    eapply Forall2_impl; [exact Hs|]. intros x y [[-> [Hx|Hx]]|Hx]; [left; by split; [|left]| |by right].
    left. split; [done|]. apply elem_of_cons in Hx as [->|Hx]; [by left|by right].
  - rewrite bool_decide_false in H by done.
    destruct (chain_for g owners st b edge (names (be_target edge))) as [[st1 edge']|] eqn:Ec; [|done]. cbn [mbind option_bind] in H.
    destruct (chain_for_spec _ _ _ _ _ _ Hok Hn Ec) as (Hok1 & Hl1 & Hn1 & Hex).
    destruct (IH Hold' st1 (with_term b (redirect_term (blk_term b) (be_target edge) edge')) _
      (with_targets_replace _ _ _ (be_target edge) edge' Hys) Hok1 H) as (Hok' & Hl & t' & ys' & Hb & Ht & Hf).
    split_and!; [done|by eapply later_trans|]. exists t', ys'. split_and!; [by rewrite Hb|done|].
    intros Hfin xs Hs. apply Hf; [done|]. specialize (Hex (finished_later _ _ Hl Hfin)).
    apply Forall2_fmap_r. eapply Forall2_impl; [exact Hs|]. intros x y Hxy. cbn.
    destruct Hxy as [[-> Hx]|(Hx & Hy & Hld)].
    + case_bool_decide as E.
      * subst x. right. split_and!; [done|done|]. by destruct Hex.
      * left. split; [done|]. destruct Hx as [Hx|Hx]; [by left|]. right. cbn in Hx. set_solver.
    + rewrite bool_decide_false; [by right|]. intros ->. specialize (Hold (be_target edge) ltac:(by left)). lia.
Qed.

(** The terminator that comes out. *)
Inductive redirected_term (t t' : BlockTerm InstrResolved) : Prop :=
| Term_Jump edge edge' :
    t = BT_Jump edge -> t' = BT_Jump edge' -> exits after owners (names (be_target edge)) edge edge' -> redirected_term t t'
| Term_Other ys : with_targets t t' ys -> Forall2 (sent []) (targets_of t) ys -> redirected_term t t'.

Lemma redirect_term_spec st b st' b' :
  ((exists edge, blk_term b = BT_Jump edge) \/ forall x, x ∈ targets_of (blk_term b) -> bl_index x < n0) ->
  state_ok st -> fold_opt (redirect_edge g owners stacks pending) (st, b) (normal_edges b) = Some (st', b') ->
  state_ok st' /\ later st st'
  /\ exists t', b' = with_term b t' /\ (finished st' -> redirected_term (blk_term b) t').
Proof.
  intros Hold Hok H.
  assert ((exists edge, blk_term b = BT_Jump edge) \/ forall edge, blk_term b <> BT_Jump edge) as [[edge Et]|Hnj].
  { destruct (blk_term b); eauto; by right. }
  - unfold normal_edges in H. rewrite Et in H. cbn in H. case_bool_decide as Hn.
    + cbn in H. injection H as <- <-. split_and!; [done|by apply later_refl|]. exists (blk_term b). split; [by destruct b|].
      intros _. rewrite Et. eapply Term_Jump; [done..|]. by apply Exits_Stay.
    + destruct (chain_for g owners st b edge (names (be_target edge))) as [[st1 edge']|] eqn:Ec; [|done].
      cbn in H. injection H as <- <-. destruct (chain_for_spec _ _ _ _ _ _ Hok Hn Ec) as (Hok1 & Hl1 & Hn1 & Hex).
      split_and!; [done|done|]. rewrite Et. exists (BT_Jump edge'). split; [done|]. intros Hf. eapply Term_Jump; [done..|auto].
  - assert (map be_target (normal_edges b) = targets_of (blk_term b)) as Htg.
    { unfold normal_edges. destruct (blk_term b) as [|[]|[]| | |]; try done.
      cbn. rewrite map_map. cbn. by rewrite map_id. }
    destruct Hold as [[edge E]|Hold]; [by destruct (Hnj edge)|].
    destruct (redirect_edges_spec (blk_term b) (normal_edges b) st b st' b' _ (with_targets_refl _ Hnj)) as (Hok' & Hl & t' & ys' & Hb & Ht & Hf);
      [by rewrite Htg|done|done|].
    split_and!; [done|done|]. exists t'. split; [done|]. intros Hfin. eapply Term_Other; [done|]. apply Hf; [done|].
    apply Forall2_same_length_lookup_2; [done|]. intros i x y Hx Hy. assert (x = y) as <- by congruence.
    left. split; [done|]. right. rewrite Htg. by eapply list_elem_of_lookup_2.
Qed.

(** The exception edge that comes out. *)
Inductive redirected_exc : option BlockEdge -> option BlockEdge -> Prop :=
| Exc_Edge edge edge' :
    exits after owners (names (be_target edge)) edge edge' -> redirected_exc (Some edge) (Some edge')
| Exc_Escape l error edge' :
    n0 <= bl_index l -> find_block l after = Some (escaping_block kind l error) -> fresh_name error ->
    exits after owners (names l) (mkBlockEdge l [BA_CurrentException]) edge' ->
    redirected_exc None (Some edge').

Lemma escaping_edge_spec st st' edge :
  state_ok st -> escaping_edge g kind st = Some (st', edge) ->
  state_ok st' /\ later st st' /\ exists l, edge = mkBlockEdge l [BA_CurrentException] /\ n0 <= bl_index l
  /\ (finished st' -> exists error, find_block l after = Some (escaping_block kind l error) /\ fresh_name error).
Proof.
  intros Hok H. unfold escaping_edge in H. destruct (ps_escaping st) as [l|] eqn:El.
  - cbn in H. injection H as <- <-. split_and!; [done|by apply later_refl|]. exists l.
    destruct (ok_escaping _ Hok _ El) as (Hl & error & i & Hin & Hi & Hs & Hloc). split_and!; [done|done|].
    intros Hf. exists error. split; [by apply (fin_covers _ Hf _ Hin)|].
    destruct (fin_slots _ Hf _ _ Hi Hs) as [H1 H2]. unfold fresh_name. by rewrite Hloc.
  - destruct (fresh_local _ _ _ _ _) as [[[s1 layout] error]|] eqn:Eloc; [|done]. cbn [mbind option_bind] in H.
    destruct (fresh_label s1 g) as [[s2 l]|] eqn:Ef; [|done]. cbn [mbind option_bind] in H. injection H as <- <-.
    destruct (fresh_block_spec st _ _ _ _ _ (escaping_block kind l error) _ _ Hok Eloc Ef eq_refl (Some l)
      (or_intror (conj eq_refl eq_refl)) (ps_order st)) as (Hok' & Hl & Hr & Hfin).
    split_and!; [done|done|]. exists l. split_and!; [done|done|]. intros Hf. destruct (Hfin Hf). by exists error.
Qed.
Lemma new_label_leaves l : n0 <= bl_index l -> names l = rev pending.
Proof.
  intros Hl. unfold leaving. destruct (stacks !! l) as [x|] eqn:E; [specialize (old_stacks l (mk_is_Some _ _ E)); lia|].
  cbn. by destruct pending.
Qed.
Lemma redirect_exception_spec st b st' b' :
  pending <> [] -> state_ok st -> redirect_exception g kind owners stacks pending st b = Some (st', b') ->
  state_ok st' /\ later st st'
  /\ exists exc, b' = mkBlock (blk_label b) (blk_body b) (blk_term b) (blk_params b) exc (blk_extra b)
     /\ (finished st' -> redirected_exc (blk_exc_edge b) exc).
Proof.
  intros Hp Hok H. unfold redirect_exception in H. destruct (blk_exc_edge b) as [edge|] eqn:Ee.
  - cbn [mbind option_bind] in H. case_bool_decide as Hn.
    + injection H as <- <-. split_and!; [done|by apply later_refl|]. exists (blk_exc_edge b). split; [by destruct b|].
      intros _. rewrite Ee. constructor. by apply Exits_Stay.
    + destruct (chain_for _ _ _ _ _ _) as [[st1 edge']|] eqn:Ec; [|done]. cbn [mbind option_bind] in H. injection H as <- <-.
      destruct (chain_for_spec _ _ _ _ _ _ Hok Hn Ec) as (Hok1 & Hl1 & _ & Hex). split_and!; [done|done|].
      exists (Some edge'). split; [done|]. intros Hf. constructor. auto.
  - destruct (escaping_edge g kind st) as [[st1 edge]|] eqn:Eesc; [|done]. cbn [mbind option_bind] in H.
    destruct (escaping_edge_spec _ _ _ Hok Eesc) as (Hok1 & Hl1 & l & -> & Hl & Hfin).
    cbn [be_target] in H. assert (names l <> []) as Hn.
    { rewrite new_label_leaves by done. intros E. apply Hp. rewrite <- (rev_involutive pending), E. done. }
    rewrite bool_decide_false in H by done.
    destruct (chain_for _ _ _ _ _ _) as [[st2 edge']|] eqn:Ec; [|done]. cbn [mbind option_bind] in H. injection H as <- <-.
    destruct (chain_for_spec _ _ _ _ _ _ Hok1 Hn Ec) as (Hok2 & Hl2 & _ & Hex). split_and!; [done|by eapply later_trans|].
    exists (Some edge'). split; [done|]. intros Hf. destruct (Hfin (finished_later _ _ Hl2 Hf)) as (error & ? & ?).
    eapply Exc_Escape; [done..|auto].
Qed.
End edges.

(** A block of the finished function. *)
Inductive unwound (b b' : Block InstrResolved) : Prop :=
| Unwound_Same : pending_stack owners b = [] \/ is_region b = false -> b' = b -> unwound b b'
| Unwound_Left b1 t' exc :
    pending_stack owners b <> [] -> is_region b = true -> returned b b1 ->
    redirected_term (pending_stack owners b) (blk_term b1) t' ->
    redirected_exc (pending_stack owners b) (blk_exc_edge b) exc ->
    b' = mkBlock (blk_label b) (blk_body b1) t' (blk_params b) exc (blk_extra b) ->
    unwound b b'.

Lemma pending_block_spec st b st' b' :
  (forall x, x ∈ targets_of (blk_term b) -> bl_index x < n0) ->
  state_ok st -> pending_block g kind owners stacks st b = Some (st', b') ->
  state_ok st' /\ later st st' /\ (finished st' -> unwound b b').
Proof.
  intros Hold Hok H. unfold pending_block in H.
  destruct (decide (pending_stack owners b = [])) as [Hp|Hp].
  { rewrite bool_decide_true in H by done. injection H as <- <-. split_and!; [done|by apply later_refl|]. intros _. apply Unwound_Same; auto. }
  rewrite bool_decide_false in H by done. cbn [orb] in H. destruct (is_region b) eqn:Hr; cbn [negb] in H.
  2: { injection H as <- <-. split_and!; [done|by apply later_refl|]. intros _. apply Unwound_Same; auto. }
  destruct (pending_return g kind st b) as [[st1 b1]|] eqn:E1; [|done]. cbn [mbind option_bind] in H.
  destruct (pending_return_spec _ _ _ _ Hok E1) as (Hok1 & Hl1 & Hf1).
  destruct (fold_opt _ (st1, b1) (normal_edges b1)) as [[st2 b2]|] eqn:E2; [|done]. cbn [mbind option_bind] in H.
  assert ((b1 = b \/ exists edge, blk_term b1 = BT_Jump edge) /\ blk_label b1 = blk_label b /\ blk_params b1 = blk_params b
    /\ blk_exc_edge b1 = blk_exc_edge b /\ blk_extra b1 = blk_extra b) as (Hb1 & El & Eps & Ee & Ex).
  { clear -E1. unfold pending_return in E1. destruct kind, (blk_term b); try (injection E1 as _ <-; by auto).
    destruct (fresh_local _ _ _ _ _) as [[[? ?] ?]|]; [|done]. cbn in E1. destruct (next_order _); [|done]. cbn in E1.
    destruct (fresh_label _ _) as [[? ?]|]; [|done]. cbn in E1. injection E1 as _ <-. cbn. split_and!; eauto. }
  destruct (redirect_term_spec (pending_stack owners b) st1 b1 st2 b2) as (Hok2 & Hl2 & t' & -> & Hf2); [|done|done|].
  { destruct Hb1 as [->|?]; auto. }
  destruct (redirect_exception_spec (pending_stack owners b) _ _ _ _ Hp Hok2 H) as (Hok3 & Hl3 & exc & -> & Hf3).
  split_and!; [done|by do 2 (eapply later_trans; [done|])|]. intros Hf3'.
  pose proof (finished_later _ _ Hl3 Hf3') as Hf2'. pose proof (finished_later _ _ Hl2 Hf2') as Hf1'.
  cbn in Hf3. rewrite Ee in Hf3. eapply Unwound_Left; [done|done|auto|auto|auto|]. cbn. by rewrite El, Eps, Ex.
Qed.

Lemma pending_blocks_spec st l st' l' :
  (forall b x, b ∈ l -> x ∈ targets_of (blk_term b) -> bl_index x < n0) ->
  state_ok st -> pending_blocks g kind owners stacks st l = Some (st', l') ->
  state_ok st' /\ later st st' /\ (finished st' -> Forall2 unwound l l').
Proof.
  unfold pending_blocks. intros Hold Hok H.
  enough (forall l out st st' l', (forall b x, b ∈ l -> x ∈ targets_of (blk_term b) -> bl_index x < n0) -> state_ok st ->
    fold_opt (fun state b => let '(st, output) := state in
      '(st, b) ← pending_block g kind owners stacks st b; Some (st, output ++ [b])) (st, out) l = Some (st', l') ->
    state_ok st' /\ later st st' /\ exists new, l' = out ++ new /\ (finished st' -> Forall2 unwound l new)) as X.
  { destruct (X l [] st st' l' Hold Hok H) as (? & ? & new & -> & ?). done. }
  clear l l' st st' Hold Hok H. induction l as [|b l IH]; intros out st st' l' Hold Hok H; cbn in H.
  { injection H as <- <-. split_and!; [done|by apply later_refl|]. exists []. by rewrite app_nil_r. }
  destruct (pending_block g kind owners stacks st b) as [[st1 b']|] eqn:E; [|done]. cbn [mbind option_bind] in H.
  destruct (pending_block_spec _ _ _ _ (fun x => Hold b x ltac:(by left)) Hok E) as (Hok1 & Hl1 & Hf1).
  destruct (IH _ _ _ _ (fun b x Hb => Hold b x ltac:(by right)) Hok1 H) as (Hok2 & Hl2 & new & -> & Hf2).
  split_and!; [done|by eapply later_trans|]. exists (b' :: new). split; [by rewrite <- app_assoc|].
  intros Hf. constructor; [|auto]. apply Hf1. by eapply finished_later.
Qed.
End pass_spec.
