(* ===== verification/PendingRefine.v ===== *)
(** * Executions of functions whose pending payloads are unwound

    Every execution of the function that Pending.v writes is one of the function it was given,
    when a payload is not read after its finally block has been left. *)

From stdpp Require Import gmap.
From S2P Require Import Prelude Order Collections Ids IdsProps Cfg CfgProps Names Instr Layout BbShape.
From S2P Require Import Resolved ResolvedSem Roles Flow OperandCleanup LiveAgree OperandCleanupProps Split.
From S2P Require Import Transport TransportProps TransportLifetime TransportLifetimeProps Pending PendingProps.

Local Open Scope Z_scope.

(** ** What a carrier binds *)

Definition extends_params (params params' : list BlockParam) : Prop :=
  exists extra, params' = params ++ extra /\ forall p, p ∈ extra -> bp_name p ∉ map bp_name params.
Lemma extends_params_refl params : extends_params params params.
Proof. exists []. split; [by rewrite app_nil_r|]. by intros p ?%not_elem_of_nil. Qed.
Lemma extends_params_trans p1 p2 p3 : extends_params p1 p2 -> extends_params p2 p3 -> extends_params p1 p3.
Proof.
  intros (e1 & -> & H1) (e2 & -> & H2). exists (e1 ++ e2). split; [by rewrite app_assoc|].
  intros p [Hp|Hp]%elem_of_app; [by apply H1|]. apply H2 in Hp. rewrite map_app in Hp. set_solver.
Qed.
Lemma keep_param_extends params name role : extends_params params (keep_param params name role).
Proof.
  unfold keep_param, ensure_param. destruct (has_param params name) eqn:E.
  - apply extends_params_refl.
  - exists [mkBlockParam name role]. split; [done|]. intros p ->%list_elem_of_singleton. cbn. intros Hin.
    apply not_true_iff_false in E. apply E. unfold has_param. apply existsb_exists.
    apply list_elem_of_fmap in Hin as (q & -> & Hq). exists q. split; [by apply list_elem_of_In|by apply bool_decide_eq_true].
Qed.
Lemma carrier_params_extends owners params names params' :
  carrier_params owners params names = Some params' -> extends_params params params'.
Proof.
  unfold carrier_params. revert params. induction names as [|name names IH]; intros params H; cbn [fold_opt] in H.
  { injection H as <-. apply extends_params_refl. }
  destruct (carrier_param owners params name) as [params1|] eqn:Ec; [|done]. cbn [mbind option_bind] in H.
  unfold carrier_param in Ec. destruct (owners !! name) as [owner|]; [|done]. cbn [mbind option_bind] in Ec. injection Ec as <-.
  apply IH in H. eapply extends_params_trans; [|exact H]. clear.
  eapply extends_params_trans; [apply (keep_param_extends _ name BPR_Value)|]. generalize (keep_param params name BPR_Value) as l.
  induction (po_handlers owner) as [|h hs IH]; intros l; [apply extends_params_refl|]. cbn.
  eapply extends_params_trans; [|apply IH]; apply keep_param_extends.
Qed.

Lemma carrier_arg_at params args i p :
  NoDup (map bp_name params) -> params !! i = Some p ->
  carrier_arg params args p = default (BA_Name (bp_name p)) (args !! i).
Proof.
  intros Hnd Hi. unfold carrier_arg.
  replace (list_find (fun q => bp_name q = bp_name p) params) with (Some (i, p)); [done|]. symmetry.
  apply list_find_Some. split_and!; [done|done|]. intros j q Hj Hlt E.
  enough (i = j) by lia. eapply NoDup_lookup; [exact Hnd| |]; rewrite list_lookup_fmap; [by rewrite Hi|by rewrite Hj; cbn; rewrite E].
Qed.
Lemma carrier_arg_extra params args p : bp_name p ∉ map bp_name params -> carrier_arg params args p = BA_Name (bp_name p).
Proof.
  intros Hp. unfold carrier_arg. replace (list_find (fun q => bp_name q = bp_name p) params) with (@None (nat * BlockParam)); [done|].
  symmetry. apply list_find_None, Forall_forall. intros q Hq E. apply Hp. rewrite <- E. by apply list_elem_of_fmap_2.
Qed.

Section binding.
Context {World Value : Type} `{!ResolvedRuntime World Value}.
Context (slot_of : string -> option NameLocation).
Notation Slots := (gmap NameLocation Value).
Hypothesis slot_inj : forall n m l, slot_of n = Some l -> slot_of m = Some l -> n = m.

Lemma bind_pairs_other cur (σ0 : Slots) pairs τ l :
  (forall p, p ∈ pairs -> slot_of (bp_name p.1) <> Some l) -> fold_left (bind_pair slot_of cur σ0) pairs τ !! l = τ !! l.
Proof.
  revert τ. induction pairs as [|p pairs IH]; intros τ H; [done|]. cbn. rewrite IH by (intros; apply H; by right).
  unfold bind_pair. destruct (slot_of (bp_name p.1)) as [l'|] eqn:E; [|done]. apply lookup_partial_alter_ne.
  intros ->. apply (H p); [by left|done].
Qed.
Lemma bind_pairs_self cur (σ0 : Slots) params τ :
  (forall p l, p ∈ params -> slot_of (bp_name p) = Some l -> τ !! l = σ0 !! l) ->
  fold_left (bind_pair slot_of cur σ0) (map (fun p => (p, BA_Name (bp_name p))) params) τ = τ.
Proof.
  revert τ. induction params as [|p params IH]; intros τ H; [done|]. cbn.
  assert (bind_pair slot_of cur σ0 τ (p, BA_Name (bp_name p)) = τ) as ->.
  { unfold bind_pair. cbn. destruct (slot_of (bp_name p)) as [l|] eqn:E; [|done]. cbn.
    rewrite <- (H p l) by (done || by left). apply partial_alter_self. }
  apply IH. intros q l Hq. apply H. by right.
Qed.
Lemma zip_map_self {A B} (f : A -> B) l : zip l (map f l) = map (fun x => (x, f x)) l.
Proof. induction l as [|x l IH]; [done|]. cbn. by rewrite IH. Qed.

(** The carrier binds the target's parameters as the edge did, and keeps the others. *)
Lemma bind_carrier cur params args params' (σ : Slots) :
  NoDup (map bp_name params) -> length args = length params \/ args = [] -> extends_params params params' ->
  bind_params slot_of cur params' (map (carrier_arg params args) params') σ = bind_params slot_of cur params args σ.
Proof.
  intros Hnd Hargs (extra & -> & Hex). unfold bind_params at 1, edge_pairs.
  rewrite length_map, Nat.sub_diag, drop_0, zip_map_self, map_app, fold_left_app.
  assert (fold_left (bind_pair slot_of cur σ) (map (fun p => (p, carrier_arg params args p)) params) σ
    = bind_params slot_of cur params args σ) as ->.
  { destruct Hargs as [Hlen| ->].
    - unfold bind_params, edge_pairs. rewrite Hlen, Nat.sub_diag, drop_0. f_equal. apply list_eq. intros i.
      rewrite list_lookup_fmap, lookup_zip_with. destruct (params !! i) as [p|] eqn:Ep; [|done]. cbn.
      rewrite (carrier_arg_at params args i p Hnd Ep).
      destruct (lookup_lt_is_Some_2 args i) as [a ->]; [rewrite Hlen; by apply lookup_lt_Some in Ep|done].
    - unfold bind_params, edge_pairs. cbn [length]. rewrite Nat.sub_0_r, drop_all. cbn [zip zip_with fold_left].
      etrans; [|apply (bind_pairs_self cur σ params σ); done]. f_equal. apply list_eq. intros i. rewrite !list_lookup_fmap.
      destruct (params !! i) as [p|] eqn:Ep; [|done]. cbn. by rewrite (carrier_arg_at params [] i p Hnd Ep). }
  rewrite (map_ext_in _ (fun p => (p, BA_Name (bp_name p)))).
  2: { intros p Hp. rewrite carrier_arg_extra; [done|]. apply Hex. by apply list_elem_of_In. }
  apply bind_pairs_self. intros p l Hp Hl. unfold bind_params. apply bind_pairs_other. intros [q a] Hq Hl'. cbn in Hl'.
  apply (Hex p Hp). rewrite (slot_inj _ _ _ Hl Hl'). apply list_elem_of_fmap_2.
  apply list_elem_of_lookup in Hq as [i Hi]. apply lookup_zip_with_Some in Hi as (x & y & [= <- <-] & Hx & _).
  rewrite lookup_drop in Hx. by eapply list_elem_of_lookup_2.
Qed.
End binding.

(** ** Chains *)

(** What is relied on besides [TransportRuntime]: a local that holds a value is loaded silently. *)
Class LocalLoads (World Value : Type) `{!ResolvedRuntime World Value} : Prop := {
  local_load n w v vs w' v' : is_slot (rn_location n) = true ->
    result_of (Op_Load n None) w [Some v] vs w' v' -> w' = w /\ v' = v;
  local_total n w v vs w' e : is_slot (rn_location n) = true -> ~ raises (Op_Load n None) w [Some v] vs w' e
}.

Section chains.
Context {World Value : Type} `{!ResolvedRuntime World Value} `{!TransportRuntime World Value} `{!LocalLoads World Value}.
Context (slot_of : string -> option NameLocation) (after : list (Block InstrResolved)).
Notation Slots := (gmap NameLocation Value).

Lemma resets_quiet names w (σ : Slots) w' σ' o :
  Forall (fun n => is_slot (rn_location n) = true) names -> evs w σ (map reset names) w' σ' o ->
  w' = w /\ is_normal o = true /\ forall x, x ∉ map rn_location names -> σ' !! x = σ !! x.
Proof.
  intros Hs. revert w σ o. induction Hs as [|n names Hn _ IH]; intros w σ o H; cbn in H; [by inversion H; subst|].
  inversion H as [|? ? ? ? w1 σ1 v ? ? vs H1 H2|? ? ? ? ? ? e H1|? ? ? ? w1 σ1 v ? ? e H1 H2]; subst;
    destruct (store_none_ev _ _ _ _ _ _ _ _ Hn H1) as (-> & Hno & Hx); [|done|];
    destruct (IH _ _ _ H2) as (-> & Hno' & Hx'); [|done].
  split_and!; [done|done|]. intros x Hk. cbn in Hk. rewrite Hx' by set_solver. apply Hx. set_solver.
Qed.

(** A step of a chain block. *)
Lemma leads_steps c t xs w (σ : Slots) c' :
  leads after c t xs -> block_step slot_of after (Running c w σ) c' ->
  (c = t /\ xs = []) \/ exists next xs' σ', c' = Running next w σ' /\ leads after next t xs' /\ xs' ⊆ xs
    /\ forall x, x ∉ xs -> σ' !! x = σ !! x.
Proof.
  intros Hl Hs. inversion Hl as [|? next ? params extra names xs' Hb Hn Hrest]; subst; [by left|]. right.
  inversion Hs as [? b ? ? w1 σ1 vs ? Hf He Ht|? b ? ? w1 σ1 e Hf He|? b ? ? w1 σ1 vs w2 σ2 e Hf He Ht]; subst;
    rewrite Hb in Hf; injection Hf as <-; cbn in He; destruct (resets_quiet _ _ _ _ _ _ Hn He) as (-> & Hno & Hx).
  - cbn in Ht. inversion Ht; subst. exists next, xs', σ1. unfold follow. cbn. unfold by_name. rewrite bind_self.
    split_and!; [done|done|set_solver|]. intros x Hk. apply Hx. set_solver.
  - done.
  - inversion Ht as [? i ? ? ? ? ? Hi _| |]; subst. by apply not_elem_of_nil in Hi.
Qed.

Lemma load_local name w (σ : Slots) w' σ' o v :
  is_slot (rn_location name) = true -> σ !! rn_location name = Some v ->
  ev w σ (R_Node (Op_Load name None) []) w' σ' o -> w' = w /\ σ' = σ /\ o = Normal v.
Proof.
  intros Hs Hv H. inversion H; subst; match goal with H : evs _ _ [] _ _ _ |- _ => inversion H; subst end; cbn in *; rewrite Hv in *.
  - match goal with H : result_of _ _ _ _ _ _ |- _ => apply local_load in H as [-> ->]; [|done] end.
    match goal with H : effect _ _ _ _ _ |- _ => by inversion H; subst end.
  - match goal with H : raises _ _ _ _ _ _ |- _ => by apply local_total in H end.
Qed.
End chains.

(** ** Executions *)

Section simulation.
Context {World Value : Type} `{!ResolvedRuntime World Value} `{!TransportRuntime World Value} `{!LocalLoads World Value}.
Context (slot_of : string -> option NameLocation).
Context (blocks : list (Block InstrResolved)) (operands : list Operand) (locations : LiveSet).
Context (live : gmap BlockLabel LiveSet) (after : list (Block InstrResolved)) (kind : FunctionKind).
Notation Slots := (gmap NameLocation Value).
Notation dead s := (locations ∖ s).
Notation live_from := (live_from operands locations live).
Notation after_term := (after_term operands live).

Context `{LR : !LiveReady slot_of blocks operands locations}.
Hypothesis solution : forall b, b ∈ blocks -> input_at live (blk_label b) = block_live operands locations live b.
Hypothesis closed : forall b t, b ∈ blocks -> t ∈ edge_targets b -> t ∈ labels blocks.

(** A target, an edge, a way out of the function, as the new blocks have them. *)
Definition goes (x y : BlockLabel) : Prop :=
  exists xs, leads after y x xs /\ forall l, l ∈ xs -> l ∈ dead (input_at live x).
Definition goes_out (names : list NameLocation) (y x : BlockLabel) (name : ResolvedName) : Prop :=
  leads after y x names /\ (forall l, l ∈ names -> l ∈ locations) /\ rn_location name ∉ names
  /\ rn_location name ∈ locations.
Definition edge_out (edge edge' : BlockEdge) : Prop :=
  goes (be_target edge) (be_target edge')
  /\ forall cur (σ : Slots), bind_params slot_of cur (params_at after (be_target edge')) (be_args edge') σ
       = bind_params slot_of cur (params_at blocks (be_target edge)) (be_args edge) σ.
Definition term_out (t t' : BlockTerm InstrResolved) : Prop :=
  (exists edge edge', t = BT_Jump edge /\ t' = BT_Jump edge' /\ edge_out edge edge')
  \/ exists ys, with_targets t t' ys /\ Forall2 goes (targets_of t) ys.
Inductive exc_out : option BlockEdge -> option BlockEdge -> Prop :=
| ExcOut_None : exc_out None None
| ExcOut_Edge edge edge' : edge_out edge edge' -> exc_out (Some edge) (Some edge')
| ExcOut_Escape l error xs edge' :
    goes_out xs (be_target edge') l error -> find_block l after = Some (escaping_block kind l error) ->
    (forall e (σ : Slots), bind_params slot_of (Some e) (params_at after (be_target edge')) (be_args edge') σ
       = <[rn_location error := e]> σ) ->
    exc_out None (Some edge').
Inductive code_out (b b' : Block InstrResolved) : Prop :=
| CodeOut_Same : blk_body b' = blk_body b -> term_out (blk_term b) (blk_term b') -> code_out b b'
| CodeOut_Return value result order r xs edge' :
    blk_term b = BT_Return value ->
    blk_body b' = blk_body b ++ [R_Node (Op_Store result (SL_Operand order) SP_Binding) [value]] ->
    blk_term b' = BT_Jump edge' ->
    goes_out xs (be_target edge') r result -> find_block r after = Some (return_block r result) ->
    (forall cur (σ : Slots), bind_params slot_of cur (params_at after (be_target edge')) (be_args edge') σ = σ) ->
    code_out b b'.
Hypothesis outcome : forall l b', find_block l after = Some b' -> l ∈ labels blocks ->
  exists b, find_block l blocks = Some b /\ code_out b b' /\ exc_out (blk_exc_edge b) (blk_exc_edge b').

Inductive related : Config (World := World) (Value := Value) -> Config -> Prop :=
| Rel_Chain c t w σ1 σ2 :
    goes t c -> t ∈ labels blocks -> agree_off (dead (input_at live t)) σ1 σ2 ->
    related (Running c w σ1) (Running t w σ2)
| Rel_Return c r result xs v w σ1 σ2 :
    goes_out xs c r result -> find_block r after = Some (return_block r result) ->
    σ1 !! rn_location result = Some v -> agree_off locations σ1 σ2 ->
    related (Running c w σ1) (Done (FE_Returned v) w σ2)
| Rel_Escape c l error xs e w σ1 σ2 :
    goes_out xs c l error -> find_block l after = Some (escaping_block kind l error) ->
    σ1 !! rn_location error = Some e -> agree_off locations σ1 σ2 ->
    related (Running c w σ1) (Done (FE_Escaped e) w σ2)
| Rel_Done exit w σ1 σ2 : agree_off locations σ1 σ2 -> related (Done exit w σ1) (Done exit w σ2).

Lemma goes_refl x : goes x x.
Proof. exists []. split; [constructor|]. by intros l ?%not_elem_of_nil. Qed.

Lemma edge_followed b edge edge' cur w (σ1 σ2 : Slots) :
  b ∈ blocks -> be_target edge ∈ edge_targets b -> edge_out edge edge' ->
  agree_off (dead (operand_edge_live edge live operands)) σ1 σ2 ->
  related (follow slot_of after cur edge' w σ1) (follow slot_of blocks cur edge w σ2).
Proof.
  intros Hb Ht [Hg Hbind] Ha. unfold follow. apply Rel_Chain; [done|by eapply closed|]. rewrite Hbind.
  by eapply edge_agree.
Qed.
Lemma throw_out b b' e w (σ1 σ2 : Slots) :
  b ∈ blocks -> exc_out (blk_exc_edge b) (blk_exc_edge b') ->
  agree_off (dead (exceptional_live operands live b)) σ1 σ2 ->
  related (throw slot_of after b' e w σ1) (throw slot_of blocks b e w σ2).
Proof.
  intros Hb Hx Ha. unfold throw, exceptional_live in *.
  assert (forall edge, blk_exc_edge b = Some edge -> be_target edge ∈ edge_targets b) as Ht.
  { intros edge E. unfold edge_targets. rewrite E. set_solver. }
  inversion Hx as [E E'|edge edge' He E E'|l error xs edge' Hg Hf Hbind E E']; rewrite <- E in Ha, Ht; cbn in Ha.
  - apply Rel_Done. eapply agree_off_mono; [|exact Ha]. set_solver.
  - eapply edge_followed; eauto.
  - unfold follow. rewrite Hbind. eapply Rel_Escape; [done|done|by rewrite lookup_insert_eq|].
    intros x Hx'. rewrite lookup_insert_ne; [apply Ha; set_solver|]. intros <-. apply Hx', Hg.
Qed.

Lemma target_out b x y w (σ1 σ2 : Slots) :
  b ∈ blocks -> x ∈ normal_targets b -> goes x y -> agree_off (dead (after_term b)) σ1 σ2 ->
  related (Running y w σ1) (Running x w σ2).
Proof.
  intros Hb Hx Hg Ha. apply Rel_Chain; [done|apply (closed b); [done|]; unfold edge_targets; set_solver|].
  eapply agree_off_mono; [|exact Ha]. unfold LiveAgree.after_term.
  enough (input_at live x ⊆ ⋃ (map (input_at live) (normal_targets b))) by set_solver.
  intros l Hl. apply elem_of_union_list. exists (input_at live x). split; [by apply list_elem_of_fmap_2|done].
Qed.

(** The terminator returns. *)
Lemma term_step_out b t' w σ1 c (σ2 : Slots) :
  b ∈ blocks -> term_out (blk_term b) t' -> term_step slot_of after t' w σ1 c ->
  agree_off (dead (term_live operands locations live b)) σ1 σ2 ->
  exists c', term_step slot_of blocks (blk_term b) w σ2 c' /\ related c c'.
Proof.
  intros Hb Ho Hs Ha.
  assert (forall i w' σ1' v, resolved_term_instrs (blk_term b) = [i] -> ev w σ1 i w' σ1' (Normal v) ->
    exists σ2', ev w σ2 i w' σ2' (Normal v) /\ agree_off (dead (after_term b)) σ1' σ2') as Hi.
  { intros i w' σ1' v Hi He. destruct (term_instr_agree _ _ _ _ _ _ _ _ Hb Hi He Ha) as (σ3 & E3 & _ & A3). eauto. }
  pose proof (fun x y w τ1 τ2 => target_out b x y w τ1 τ2 Hb) as Hrun. pose proof (term_live_instrs operands locations live b) as El.
  unfold LiveAgree.after_term, normal_targets in El, Hrun, Hi.
  destruct Ho as [(edge & edge' & Et & -> & Hedge)|(ys & Hys & Hgo)].
  - rewrite Et in *. inversion Hs; subst. eexists. split; [constructor|]. eapply edge_followed; [exact Hb| |done|].
    + unfold edge_targets, normal_targets. rewrite Et. set_solver.
    + eapply agree_off_mono; [|exact Ha]. rewrite El. cbn. set_solver.
  - destruct (blk_term b) as [edge|i|i|r|i|i]; [done| | | | |]; cbn in Hys.
    + destruct Hys as (y1 & y2 & -> & ->). cbn in Hgo. inversion Hgo as [|? ? ? ? G1 G2]; subst. inversion G2 as [|? ? ? ? G3 _]; subst.
      inversion Hs; subst. match goal with H : ev _ _ _ _ _ _ |- _ => destruct (Hi _ _ _ _ eq_refl H) as (σ3 & E3 & A3) end.
      eexists. split; [by econstructor|]. case_match; (eapply Hrun; [set_solver|eassumption|eassumption]).
    + destruct Hys as (ts & d & -> & ->). cbn in Hgo. apply Forall2_app_inv in Hgo as [Gt Gd];
        [|apply Forall2_length in Hgo; rewrite !length_app in Hgo; cbn in Hgo; lia].
      inversion Gd as [|? ? ? ? G1 _]; subst. inversion Hs; subst.
      match goal with H : ev _ _ _ _ _ _ |- _ => destruct (Hi _ _ _ _ eq_refl H) as (σ3 & E3 & A3) end.
      eexists. split; [by econstructor|]. cbn. destruct (tb_targets i !! n) as [x|] eqn:En.
      * destruct (Forall2_lookup_l _ _ _ _ _ Gt En) as (y & -> & Gy). cbn. apply Hrun; [|done|done].
        apply list_elem_of_lookup_2 in En. set_solver.
      * destruct (ts !! n) as [y|] eqn:Eny; [|apply Hrun; [set_solver|done|done]].
        destruct (Forall2_lookup_r _ _ _ _ _ Gt Eny) as (x & Ex & _). congruence.
    + destruct Hys as [-> ->]. inversion Hs.
    + destruct Hys as [-> ->]. inversion Hs; subst.
      match goal with H : ev _ _ _ _ _ _ |- _ => destruct (Hi _ _ _ _ eq_refl H) as (σ3 & E3 & A3) end.
      eexists. split; [by econstructor|]. apply Rel_Done. eapply agree_off_mono; [|exact A3]. set_solver.
    + destruct Hys as [-> ->]. inversion Hs; subst.
      match goal with H : ev _ _ _ _ _ _ |- _ => destruct (Hi _ _ _ _ eq_refl H) as (σ3 & E3 & A3) end.
      eexists. split; [by econstructor|]. apply Rel_Done. eapply agree_off_mono; [|exact A3]. set_solver.
Qed.
(** It raises as before. *)
Lemma term_raise_out t t' w (σ1 : Slots) w' σ1' e : term_out t t' -> term_raise t' w σ1 w' σ1' e -> term_raise t w σ1 w' σ1' e.
Proof.
  intros [(edge & edge' & -> & -> & _)|(ys & Hys & _)] H.
  { inversion H as [? i ? ? ? ? ? Hi _| |]; subst. by apply not_elem_of_nil in Hi. }
  destruct t as [|i|i|r|i|i]; cbn in Hys; [done| | |by destruct Hys as [-> _]..].
  - destruct Hys as (y1 & y2 & -> & _). inversion H as [? j ? ? ? ? ? Hi He| |]; subst. by eapply TR_Instr.
  - destruct Hys as (ts & d & -> & _). inversion H as [? j ? ? ? ? ? Hi He| |]; subst. by eapply TR_Instr.
Qed.

(** The stored result of a [return]. *)
Lemma return_store_ev value result order w (σ : Slots) w' σ' o :
  is_slot (rn_location result) = true ->
  evs w σ [R_Node (Op_Store result (SL_Operand order) SP_Binding) [value]] w' σ' o ->
  (exists v σ1 vs, o = Normal vs /\ ev w σ value w' σ1 (Normal v) /\ σ' = <[rn_location result := v]> σ1)
  \/ exists e, o = Raising e /\ ev w σ value w' σ' (Raising e).
Proof.
  intros Hs H.
  assert (forall w1 σ1 o1, ev w σ (R_Node (Op_Store result (SL_Operand order) SP_Binding) [value]) w1 σ1 o1 ->
    (exists v v' σ2, o1 = Normal v' /\ ev w σ value w1 σ2 (Normal v) /\ σ1 = <[rn_location result := v]> σ2)
    \/ exists e, o1 = Raising e /\ ev w σ value w1 σ1 (Raising e)) as Hst.
  { intros w1 σ1 o1 He. inversion He as [|? ? ? ? w2 σ2 vs ? ? v Hc Hr Hf|? ? ? ? w2 σ2 vs ? ? e Hc Hr Hf|? ? ? ? ? ? e Hc]; subst.
    - left. inversion Hc as [|? ? ? ? w3 σ3 v3 ? ? vs3 Hv Hn| |]; subst. inversion Hn; subst.
      apply store_silent in Hr as ->; [|done]. inversion Hf; subst; [|done]. exists v3, v, σ2. unfold set_slot. by rewrite Hs.
    - by apply store_total in Hr.
    - right. exists e. split; [done|]. inversion Hc as [| |? ? ? ? ? ? ? Hv|? ? ? ? w3 σ3 v3 ? ? ? Hv Hn]; subst; [done|]. inversion Hn. }
  inversion H as [|? ? ? ? w1 σ1 v ? ? vs H1 H2|? ? ? ? ? ? e H1|? ? ? ? w1 σ1 v ? ? e H1 H2]; subst.
  - inversion H2; subst. destruct (Hst _ _ _ H1) as [(v1 & v2 & σ2 & _ & Hv & ->)|(e & [=] & _)]. left. by exists v1, σ2, [v].
  - destruct (Hst _ _ _ H1) as [(? & ? & ? & [=] & _)|(e' & [= <-] & Hv)]. right. eauto.
  - inversion H2.
Qed.

Lemma block_found b l (σ1 σ2 : Slots) :
  find_block l blocks = Some b -> agree_off (dead (input_at live l)) σ1 σ2 ->
  b ∈ blocks /\ agree_off (dead (live_from b (blk_body b))) σ1 σ2 /\ forallb (statement_ok locations) (blk_body b) = true.
Proof.
  intros [Hin <-]%find_block_some Ha. split_and!; [done| |].
  - unfold LiveAgree.live_from. fold (block_live operands locations live b). by rewrite <- (solution b Hin).
  - apply forallb_forall. intros i Hi. apply (live_statements b); [done|]. apply elem_of_app. left. by apply list_elem_of_In.
Qed.

(** A step of a block of the original function. *)
Lemma own_step t w σ1 c (σ2 : Slots) :
  t ∈ labels blocks -> agree_off (dead (input_at live t)) σ1 σ2 -> block_step slot_of after (Running t w σ1) c ->
  exists d, block_step slot_of blocks (Running t w σ2) d /\ related c d.
Proof.
  intros Ht Ha Hs.
  inversion Hs as [? b' ? ? w1 σ3 vs ? Hb' Hbody Hterm|? b' ? ? w1 σ3 e Hb' Hbody
    |? b' ? ? w1 σ3 vs w2 σ4 e Hb' Hbody Hterm]; subst;
    destruct (outcome _ _ Hb' Ht) as (b & Hb & Hcode & Hexc); destruct (block_found b t σ1 σ2 Hb Ha) as (Hin & Ha' & Hok);
    destruct Hcode as [Eb Ho|value result order r xs edge' Et Eb Et' Hg Hr Hbind]; rewrite Eb in Hbody.
  - destruct (body_agree b _ _ _ _ _ _ _ Hok Hbody Ha') as (τ & Eτ & Aτ).
    destruct (term_step_out b _ _ _ _ τ Hin Ho Hterm Aτ) as (d & Hd & Rd). exists d. split; [by eapply Step_Term|done].
  - apply evs_app_inv in Hbody as (w2 & σ4 & vs1 & vs2 & H1 & H2).
    destruct (body_agree b _ _ _ _ _ _ _ Hok H1 Ha') as (τ & Eτ & Aτ).
    assert (is_slot (rn_location result) = true) as Hsl by (by apply live_slots, Hg).
    destruct (return_store_ev _ _ _ _ _ _ _ _ Hsl H2) as [(v & σ5 & vs3 & _ & Hv & ->)|(e & [=] & _)].
    destruct (term_instr_agree b value _ _ _ _ _ _ Hin ltac:(by rewrite Et) Hv Aτ) as (τ' & Eτ' & _ & Aτ').
    exists (Done (FE_Returned v) w1 τ'). split; [eapply Step_Term; [done|done|rewrite Et; by constructor]|].
    rewrite Et' in Hterm. inversion Hterm; subst. unfold follow. rewrite Hbind.
    eapply Rel_Return; [exact Hg|done|by rewrite lookup_insert_eq|]. intros x Hx. destruct Hg as (_ & _ & _ & Hloc).
    rewrite lookup_insert_ne by (intros <-; done). apply Aτ'; [done|]. set_solver.
  - destruct (body_agree b _ _ _ _ _ _ _ Hok Hbody Ha') as (τ & Eτ & Aτ).
    eexists. split; [by eapply Step_Body|]. by apply throw_out.
  - apply evs_app_raise_inv in Hbody as [H1|(w2 & σ4 & vs1 & H1 & H2)].
    { destruct (body_agree b _ _ _ _ _ _ _ Hok H1 Ha') as (τ & Eτ & Aτ). eexists. split; [by eapply Step_Body|]. by apply throw_out. }
    destruct (body_agree b _ _ _ _ _ _ _ Hok H1 Ha') as (τ & Eτ & Aτ).
    assert (is_slot (rn_location result) = true) as Hsl by (by apply live_slots, Hg).
    destruct (return_store_ev _ _ _ _ _ _ _ _ Hsl H2) as [(? & ? & ? & [=] & _)|(e' & [= <-] & Hv)].
    destruct (term_instr_agree b value _ _ _ _ _ _ Hin ltac:(by rewrite Et) Hv Aτ) as (τ' & Eτ' & Aτ' & _).
    eexists. split; [eapply Step_Raise; [done|done|]; rewrite Et; eapply TR_Instr; [by left|done]|]. by apply throw_out.
  - destruct (body_agree b _ _ _ _ _ _ _ Hok Hbody Ha') as (τ & Eτ & Aτ).
    apply (term_raise_out _ _ _ _ _ _ _ Ho) in Hterm. destruct (term_raise_agree _ _ _ _ _ _ _ Hin Hterm Aτ) as (τ' & Eτ' & Aτ').
    eexists. split; [by eapply Step_Raise|]. by apply throw_out.
  - rewrite Et' in Hterm. inversion Hterm as [? i ? ? ? ? ? Hi _| |]; subst. by apply not_elem_of_nil in Hi.
Qed.

(** A step on the way out. *)
Lemma out_step xs c x name w (σ1 σ2 : Slots) v d :
  goes_out xs c x name -> σ1 !! rn_location name = Some v -> agree_off locations σ1 σ2 ->
  block_step slot_of after (Running c w σ1) d ->
  (c = x /\ xs = []) \/ exists next xs' σ', d = Running next w σ' /\ goes_out xs' next x name
    /\ σ' !! rn_location name = Some v /\ agree_off locations σ' σ2.
Proof.
  intros (Hl & Hx & Hn & Hin) Hv Ha Hs. destruct (leads_steps slot_of after c x xs w σ1 d Hl Hs) as [?|(next & xs' & σ' & -> & Hl' & Hsub & Hσ)];
    [by left|right].
  exists next, xs', σ'. split_and!; [done| |by rewrite Hσ|].
  - split_and!; [done|intros l Hl0; by apply Hx, Hsub| |done]. intros Hn'. by apply Hn, Hsub.
  - intros y Hy. rewrite Hσ; [by apply Ha|]. intros Hyx. by apply Hy, Hx.
Qed.

Lemma block_step_out c1 c2 d1 :
  related c1 d1 -> block_step slot_of after c1 c2 -> exists d2, runs slot_of blocks d1 d2 /\ related c2 d2.
Proof.
  intros Hrel Hs. destruct Hrel as [c t w σ1 σ2 (xs & Hl & Hd) Ht Ha|c r result xs v w σ1 σ2 Hg Hr Hv Ha
    |c l error xs e w σ1 σ2 Hg Hr Hv Ha|]; [| | |inversion Hs].
  - destruct (leads_steps slot_of after c t xs w σ1 c2 Hl Hs) as [[-> _]|(next & xs' & σ' & -> & Hl' & Hsub & Hσ)].
    + destruct (own_step _ _ _ _ _ Ht Ha Hs) as (d & Hstep & Hr). exists d. split; [by apply rtc_once|done].
    + exists (Running t w σ2). split; [apply rtc_refl|]. apply Rel_Chain; [exists xs'; split; [done|]; intros; by apply Hd, Hsub|done|].
      intros x Hx. rewrite Hσ; [by apply Ha|]. intros Hin. by apply Hx, Hd.
  - exists (Done (FE_Returned v) w σ2). split; [apply rtc_refl|].
    destruct (out_step _ _ _ _ _ _ _ _ _ Hg Hv Ha Hs) as [[-> _]|(next & xs' & σ' & -> & Hg' & Hv' & Ha')]; [|by eapply Rel_Return].
    assert (is_slot (rn_location result) = true) as Hsl by (by apply live_slots, Hg).
    inversion Hs as [? b ? ? w1 σ3 vs ? Hf Hb Ht|? b ? ? w1 σ3 e Hf Hb|? b ? ? w1 σ3 vs w2 σ4 e Hf Hb Ht]; subst;
      rewrite Hr in Hf; injection Hf as <-; inversion Hb; subst; inversion Ht; subst.
    + match goal with H : ev _ _ _ _ _ _ |- _ => destruct (load_local _ _ _ _ _ _ _ Hsl Hv H) as (-> & -> & [= ->]) end. by apply Rel_Done.
    + match goal with H : _ ∈ resolved_term_instrs _ |- _ => apply list_elem_of_singleton in H; subst end.
      match goal with H : ev _ _ _ _ _ _ |- _ => destruct (load_local _ _ _ _ _ _ _ Hsl Hv H) as (_ & _ & [=]) end.
  - exists (Done (FE_Escaped e) w σ2). split; [apply rtc_refl|].
    destruct (out_step _ _ _ _ _ _ _ _ _ Hg Hv Ha Hs) as [[-> _]|(next & xs' & σ' & -> & Hg' & Hv' & Ha')]; [|by eapply Rel_Escape].
    assert (is_slot (rn_location error) = true) as Hsl by (by apply live_slots, Hg).
    inversion Hs as [? b ? ? w1 σ3 vs ? Hf Hb Ht|? b ? ? w1 σ3 e1 Hf Hb|? b ? ? w1 σ3 vs w2 σ4 e1 Hf Hb Ht]; subst;
      rewrite Hr in Hf; injection Hf as <-; inversion Hb; subst; inversion Ht; subst.
    + match goal with H : _ ∈ resolved_term_instrs _ |- _ => apply list_elem_of_singleton in H; subst end.
      match goal with H : ev _ _ _ _ _ _ |- _ => destruct (load_local _ _ _ _ _ _ _ Hsl Hv H) as (_ & _ & [=]) end.
    + match goal with H : tr_exc _ = Some _ |- _ => cbn in H; injection H as <- end.
      match goal with H : ev _ _ _ _ _ _ |- _ => destruct (load_local _ _ _ _ _ _ _ Hsl Hv H) as (-> & -> & [= ->]) end. by apply Rel_Done.
    + match goal with H : tr_exc _ = None |- _ => by cbn in H end.
Qed.
Lemma runs_out c d c0 :
  runs slot_of after c d -> related c c0 -> exists d0, runs slot_of blocks c0 d0 /\ related d d0.
Proof.
  intros Hcd. revert c0. induction Hcd as [c|c c1 d Hstep _ IH]; intros c0 Hr.
  { exists c0. split; [apply rtc_refl|done]. }
  destruct (block_step_out _ _ _ Hr Hstep) as (c2 & H1 & Hr2). destruct (IH _ Hr2) as (d0 & H2 & Hd). exists d0. split; [by etrans|done].
Qed.
End simulation.

(** ** Labels and parameters are kept *)

Definition same_head (b b' : Block InstrResolved) : Prop :=
  blk_label b' = blk_label b /\ blk_params b' = blk_params b /\ blk_extra b' = blk_extra b.
Lemma pending_block_head g kind owners stacks st b st' b' :
  pending_block g kind owners stacks st b = Some (st', b') -> same_head b b'.
Proof.
  intros H. unfold pending_block in H. destruct (_ || _); [by injection H as _ <-|].
  destruct (pending_return g kind st b) as [[st1 b1]|] eqn:E1; [|done]. cbn [mbind option_bind] in H.
  destruct (fold_opt _ (st1, b1) _) as [[st2 b2]|] eqn:E2; [|done]. cbn [mbind option_bind] in H.
  assert (same_head b b1) as H1.
  { unfold pending_return in E1. destruct kind, (blk_term b); try by injection E1 as _ <-.
    destruct (fresh_local _ _ _ _ _) as [[[? ?] ?]|]; [|done]. cbn [mbind option_bind] in E1. destruct (next_order _); [|done].
    cbn [mbind option_bind] in E1. destruct (fresh_label _ _) as [[? ?]|]; [|done]. cbn [mbind option_bind] in E1. by injection E1 as _ <-. }
  assert (same_head b1 b2) as H2.
  { apply (fold_opt_invariant _ (fun state => same_head b1 state.2)) in E2; [done| |done].
    intros [st0 b0] edge [st0' b0'] _ Hh Hr. cbn in *. unfold redirect_edge in Hr. case_bool_decide; [by injection Hr as _ <-|].
    destruct (chain_for _ _ _ _ _ _) as [[? ?]|]; [|done]. cbn [mbind option_bind] in Hr. by injection Hr as _ <-. }
  assert (same_head b2 b') as H3.
  { unfold redirect_exception in H. destruct (match blk_exc_edge b2 with Some _ => _ | None => _ end) as [[st3 edge]|]; [|done].
    cbn [mbind option_bind] in H. case_bool_decide; [by injection H as _ <-|].
    destruct (chain_for _ _ _ _ _ _) as [[? ?]|]; [|done]. cbn [mbind option_bind] in H. by injection H as _ <-. }
  unfold same_head in *. intuition congruence.
Qed.
Lemma pending_blocks_head g kind owners stacks st l st' l' :
  pending_blocks g kind owners stacks st l = Some (st', l') -> Forall2 same_head l l'.
Proof.
  unfold pending_blocks.
  enough (forall out st st' l', fold_opt (fun state b => let '(st, output) := state in
      '(st, b) ← pending_block g kind owners stacks st b; Some (st, output ++ [b])) (st, out) l = Some (st', l') ->
    exists new, l' = out ++ new /\ Forall2 same_head l new) as X.
  { intros H. by destruct (X [] _ _ _ H) as (new & -> & ?). }
  clear st st' l'. induction l as [|b l IH]; intros out st st' l' H; cbn [fold_opt] in H.
  { injection H as _ <-. exists []. rewrite app_nil_r. by split. }
  destruct (pending_block _ _ _ _ st b) as [[st1 b1]|] eqn:E; [|done]. cbn [mbind option_bind] in H.
  destruct (IH _ _ _ _ H) as (new & -> & Hn). exists (b1 :: new). split; [by rewrite <- app_assoc|].
  constructor; [by eapply pending_block_head|done].
Qed.

(** ** The pass *)

Definition target_stacks (owners : Owners) (blocks : list (Block InstrResolved)) : gmap BlockLabel (list string) :=
  collect_map (map (fun b => (blk_label b, pending_stack owners b)) blocks).

(** The payloads that control leaves behind when it goes from a block with the stack [pending] to
    one with the stack [target]: the two stacks differ up to that payload. *)
Definition left_behind (pending target : list string) (name : string) : Prop :=
  exists i, pending !! i = Some name /\ take (S i) pending <> take (S i) target.
Lemma elem_of_leaving stacks pending t name :
  name ∈ leaving stacks pending t <-> left_behind pending (default [] (stacks !! t)) name.
Proof.
  unfold leaving, left_behind. rewrite elem_of_rev. generalize (default [] (stacks !! t)) as target.
  induction pending as [|x pending IH]; intros target.
  { cbn. rewrite elem_of_nil. split; [done|]. by intros (i & ? & _). }
  assert ((forall i, take (S i) (x :: pending) <> take (S i) target) ->
    name ∈ x :: pending <-> exists i, (x :: pending) !! i = Some name /\ take (S i) (x :: pending) <> take (S i) target) as Hall.
  { intros Hd. rewrite list_elem_of_lookup. naive_solver. }
  destruct target as [|y target]; cbn [common_prefix length drop]; [by apply Hall|].
  case_bool_decide as E; cbn [length drop]; [|apply Hall; intros i [=]; done]. subst y. rewrite IH. split.
  - intros (i & Hi & Hd). exists (S i). split; [done|]. cbn. intros [= H]. by apply Hd.
  - intros ([|i] & Hi & Hd); [by destruct Hd|]. exists i. split; [done|]. intros H. apply Hd. cbn in *. by rewrite H.
Qed.

(** What the pass relies on.  [hidden] are the slots that may end up different, [names] how they
    are called; a payload is not live where its finally block is left to, and an edge out of a
    finally block passes all arguments or none. *)
Record pending_ready (slot_of : string -> option NameLocation) (s : Store) (f f' : ResolvedFunction) (owners : Owners)
    (hidden : LiveSet) (names : list Operand) (live : gmap BlockLabel LiveSet) : Prop := mkPendingReady {
  pr_owners : pending_owners f = Some owners;
  pr_distinct : NoDup (labels (rf_blocks f));
  pr_closed b t : b ∈ rf_blocks f -> t ∈ edge_targets b -> t ∈ labels (rf_blocks f);
  pr_counter : exists n, block_counter s (rf_name_gen f) = Some n /\ 0 <= n
    /\ forall b, b ∈ rf_blocks f -> bl_index (blk_label b) < n;
  pr_ready : LiveReady slot_of (rf_blocks f) names hidden;
  pr_names o : o ∈ names -> rn_location (operand_name o) ∈ hidden;
  pr_live : live_inputs (rf_blocks f) names hidden = Some live;
  pr_apart n m l : slot_of n = Some l -> slot_of m = Some l -> n = m;
  pr_params b : b ∈ rf_blocks f -> NoDup (map bp_name (blk_params b));
  pr_args b edge target : b ∈ rf_blocks f -> is_region b = true -> blk_term b = BT_Jump edge \/ blk_exc_edge b = Some edge ->
    find_block (be_target edge) (rf_blocks f) = Some target ->
    length (be_args edge) = length (blk_params target) \/ be_args edge = [];
  pr_payloads name owner x : owners !! name = Some owner -> x ∈ owner_slots owner -> x ∈ hidden;
  pr_dead b t name owner x : b ∈ rf_blocks f -> is_region b = true -> t ∈ edge_targets b ->
    left_behind (pending_stack owners b) (default [] (target_stacks owners (rf_blocks f) !! t)) name ->
    owners !! name = Some owner -> x ∈ owner_slots owner -> x ∉ input_at live t;
  pr_fresh i name : (length (stack_of (rf_storage_layout f)) <= i)%nat ->
    stack_of (rf_storage_layout f') !! i = Some name ->
    slot_of name = Some (NL_Local (mkLocalLocation (Z.of_nat i))) /\ NL_Local (mkLocalLocation (Z.of_nat i)) ∈ hidden
    /\ forall n owner, owners !! n = Some owner -> NL_Local (mkLocalLocation (Z.of_nat i)) ∉ owner_slots owner
}.

Definition payload_slots (owners : Owners) : LiveSet :=
  list_to_set (concat (map (fun entry => owner_slots entry.2) (map_to_list owners))).
Lemma elem_of_payload_slots owners x :
  x ∈ payload_slots owners <-> exists name owner, owners !! name = Some owner /\ x ∈ owner_slots owner.
Proof.
  unfold payload_slots. rewrite elem_of_list_to_set, list_elem_of_In, in_concat. split.
  - intros (l & Hl & Hx). apply in_map_iff in Hl as ([name owner] & <- & Hin). exists name, owner.
    apply list_elem_of_In, elem_of_map_to_list in Hin. by rewrite list_elem_of_In.
  - intros (name & owner & Ho & Hx). exists (owner_slots owner). split; [|by apply list_elem_of_In].
    apply in_map_iff. exists (name, owner). split; [done|]. by apply list_elem_of_In, elem_of_map_to_list.
Qed.
Lemma elem_of_drops owners names x :
  x ∈ drops owners names <-> exists name owner, name ∈ names /\ owners !! name = Some owner /\ x ∈ owner_slots owner.
Proof.
  unfold drops. rewrite list_elem_of_In, in_concat. split.
  - intros (l & Hl & Hx). apply in_map_iff in Hl as (name & <- & Hin). apply list_elem_of_In in Hin, Hx.
    destruct (owners !! name) as [owner|] eqn:E; cbn in Hx; [|by apply not_elem_of_nil in Hx]. by exists name, owner.
  - intros (name & owner & Hn & Ho & Hx). exists (from_option owner_slots [] (owners !! name)). split.
    + apply in_map_iff. exists name. split; [done|by apply list_elem_of_In].
    + rewrite Ho. by apply list_elem_of_In.
Qed.

(** The function as the specification of the blocks has it. *)
Lemma materialize_pending_inv slot_of s f s' f' owners hidden names live :
  pending_ready slot_of s f f' owners hidden names live ->
  materialize_pending_payload_unwinds s f = Some (s', f') ->
  (owners = ∅ /\ f' = f) \/ exists n0 l gen,
    rf_blocks f' = l ++ gen /\ Forall2 same_head (rf_blocks f) l
    /\ (forall b, b ∈ rf_blocks f -> bl_index (blk_label b) < n0)
    /\ NoDup (labels (l ++ gen))
    /\ Forall2 (unwound (rf_kind f) owners (target_stacks owners (rf_blocks f)) n0 (l ++ gen) slot_of
         (hidden ∖ payload_slots owners)) (rf_blocks f) l.
Proof.
  intros Hr H. unfold materialize_pending_payload_unwinds in H. rewrite (pr_owners _ _ _ _ _ _ _ _ Hr) in H. cbn [mbind option_bind] in H.
  case_bool_decide as He; [by injection H as _ <-; left|]. right.
  destruct (next_operand_order f) as [order|]; [|done]. cbn [mbind option_bind] in H.
  destruct (pending_blocks _ _ _ _ _ _) as [[st l]|] eqn:Eb; [|done]. cbn [mbind option_bind] in H. injection H as <- <-.
  destruct (pr_counter _ _ _ _ _ _ _ _ Hr) as (n0 & Hn & Hn0 & Hlt). pose proof (pending_blocks_head _ _ _ _ _ _ _ _ Eb) as Hh.
  exists n0, l, (ps_generated st). fold (target_stacks owners (rf_blocks f)) in Eb.
  assert (labels l = labels (rf_blocks f)) as Hlab.
  { clear -Hh. unfold labels. induction Hh as [|b b' bs bs' [E _] _ IH]; [done|]. cbn. by rewrite E, IH. }
  set (st0 := mkPendingState s (rf_storage_layout f) _ order None []) in Eb.
  set (len0 := length (stack_of (rf_storage_layout f))).
  destruct (pending_blocks_spec (rf_name_gen f) (rf_kind f) owners (target_stacks owners (rf_blocks f)) (rf_blocks f) n0 len0)
    with (after := l ++ ps_generated st) (slot_of := slot_of) (F := hidden ∖ payload_slots owners) (st := st0) (l := rf_blocks f)
      (st' := st) (l' := l) as (Hok & Hl & Hf).
  - intros name owner Ho. apply Forall_forall. intros n Hin. pose proof (pr_ready _ _ _ _ _ _ _ _ Hr) as LR.
    apply (live_slots (slot_of := slot_of) (blocks := rf_blocks f) (operands := names) (locations := hidden)).
    eapply (pr_payloads _ _ _ _ _ _ _ _ Hr); [exact Ho|]. by apply list_elem_of_fmap_2.
  - exact Hlt.
  - intros x Hx. apply collect_map_dom in Hx. rewrite map_map in Hx. cbn in Hx. apply list_elem_of_fmap in Hx as (b & -> & Hb). by apply Hlt.
  - intros b x Hb Hx. pose proof (pr_closed _ _ _ _ _ _ _ _ Hr b x Hb) as Hc. apply list_elem_of_fmap in Hc as (b' & -> & Hb'); [by apply Hlt|].
    unfold edge_targets, normal_targets, targets_of in *. destruct (blk_term b); set_solver.
  - split; cbn; [exists n0; split; [done|lia]| |done|done].
    intros x ps Hx. apply collect_map_elem in Hx. apply list_elem_of_fmap in Hx as (b & [= -> ->] & Hb). exists b. auto.
  - exact Eb.
  - assert (NoDup (labels (l ++ ps_generated st))) as Hnd.
    { destruct (later_grown _ _ _ Hl) as [(new & Eg & Hnd & n & n' & Hn' & _ & _ & Hnew)]. cbn in Eg, Hn'. subst new.
      assert (n = n0) as -> by congruence. unfold labels in *. rewrite map_app, Hlab.
      apply NoDup_app. split_and!; [apply (pr_distinct _ _ _ _ _ _ _ _ Hr)| |done].
      intros x (b & -> & Hb%Hlt)%list_elem_of_fmap (c & E & Hc%Hnew)%list_elem_of_fmap. rewrite <- E in Hc. lia. }
    split_and!; [done|done|exact Hlt|exact Hnd|]. apply Hf. split.
    + intros c Hc. apply find_block_elem; [done|]. set_solver.
    + intros b Hb. apply list_elem_of_lookup in Hb as [i Hi]. destruct (Forall2_lookup_l _ _ _ _ _ Hh Hi) as (b' & Hb' & El & Ep & _).
      unfold params_at. rewrite <- El, (find_block_elem _ b'); [done|done|]. apply elem_of_app. left. by eapply list_elem_of_lookup_2.
    + intros i name Hi Hname. destruct (pr_fresh _ _ _ _ _ _ _ _ Hr i name Hi Hname) as (H1 & H2 & H3). split; [done|].
      apply elem_of_difference. split; [done|]. rewrite elem_of_payload_slots. intros (n & owner & Ho & Hx). by eapply H3.
Qed.

Section ready.
Context {World Value : Type} `{!ResolvedRuntime World Value}.
Context (slot_of : string -> option NameLocation) (s : Store) (f f' : ResolvedFunction) (owners : Owners).
Context (hidden : LiveSet) (names : list Operand) (live : gmap BlockLabel LiveSet).
Hypothesis Hr : pending_ready slot_of s f f' owners hidden names live.
Notation blocks := (rf_blocks f).
Notation after := (rf_blocks f').
Notation stacks := (target_stacks owners blocks).
Notation Slots := (gmap NameLocation Value).
Notation F := (hidden ∖ payload_slots owners).
Hypothesis params_kept : forall t, t ∈ labels blocks -> params_at after t = params_at blocks t.

Lemma leaving_dead b t x :
  b ∈ blocks -> is_region b = true -> t ∈ edge_targets b -> x ∈ drops owners (leaving stacks (pending_stack owners b) t) ->
  x ∈ hidden ∖ input_at live t.
Proof.
  intros Hb Hreg Ht (name & owner & Hn%elem_of_leaving & Ho & Hx)%elem_of_drops. apply elem_of_difference. split.
  - by eapply (pr_payloads _ _ _ _ _ _ _ _ Hr).
  - by eapply (pr_dead _ _ _ _ _ _ _ _ Hr).
Qed.
Lemma exits_out b edge edge' :
  b ∈ blocks -> is_region b = true -> blk_term b = BT_Jump edge \/ blk_exc_edge b = Some edge ->
  exits after owners (leaving stacks (pending_stack owners b) (be_target edge)) edge edge' ->
  edge_out (World := World) (Value := Value) slot_of blocks hidden live after edge edge'.
Proof.
  intros Hb Hreg Hedge Hx.
  assert (be_target edge ∈ edge_targets b) as Ht.
  { unfold edge_targets, normal_targets. destruct Hedge as [-> | ->]; set_solver. }
  pose proof (pr_closed _ _ _ _ _ _ _ _ Hr b _ Hb Ht) as Hin.
  destruct (find_block (be_target edge) blocks) as [target|] eqn:Et; [|by apply find_block_none in Et].
  assert (params_at blocks (be_target edge) = blk_params target) as Ep by (unfold params_at; by rewrite Et).
  destruct (find_block_some _ _ _ Et) as [Hti _].
  destruct Hx as [_ ->|params Hne Hl Hp Hpe Ha].
  - split; [apply goes_refl|]. intros cur σ. by rewrite params_kept.
  - split; [eexists; split; [exact Hl|]; intros x; by apply leaving_dead|]. intros cur σ.
    rewrite Hpe, Ha, params_kept, Ep by done. apply bind_carrier.
    + apply (pr_apart _ _ _ _ _ _ _ _ Hr).
    + by apply (pr_params _ _ _ _ _ _ _ _ Hr).
    + by apply (pr_args _ _ _ _ _ _ _ _ Hr b edge target).
    + rewrite params_kept, Ep in Hp by done. by eapply carrier_params_extends.
Qed.
(** The way out of the function. *)
Lemma exits_leave left x args edge' name role :
  exits after owners left (mkBlockEdge x args) edge' -> left <> [] ->
  params_at after x = [mkBlockParam (rn_id name) role] -> fresh_name slot_of F name ->
  length args = 1%nat \/ args = [] ->
  goes_out hidden after (drops owners left) (be_target edge') x name
  /\ forall cur (σ : Slots), bind_params slot_of cur (params_at after (be_target edge')) (be_args edge') σ
       = bind_params slot_of cur [mkBlockParam (rn_id name) role] args σ.
Proof.
  intros Hx Hne Hpx (Hs & [Hh Hnp]%elem_of_difference & _) Hargs. destruct Hx as [|params _ Hl Hp Hpe Ha]; [done|]. cbn in *. split.
  - split_and!; [done| | |done].
    + intros l (n & owner & _ & Ho & Hx)%elem_of_drops. by eapply (pr_payloads _ _ _ _ _ _ _ _ Hr).
    + intros (n & owner & _ & Ho & Hx)%elem_of_drops. apply Hnp, elem_of_payload_slots. eauto.
  - intros cur σ. rewrite Hpe, Ha, Hpx. apply bind_carrier; [apply (pr_apart _ _ _ _ _ _ _ _ Hr)|apply NoDup_singleton|done|].
    rewrite Hpx in Hp. by eapply carrier_params_extends.
Qed.
Lemma bind_one name role e (σ : Slots) :
  slot_of (rn_id name) = Some (rn_location name) ->
  bind_params slot_of (Some e) [mkBlockParam (rn_id name) role] [BA_CurrentException] σ = <[rn_location name := e]> σ.
Proof. intros Hs. unfold bind_params. cbn. unfold bind_pair. cbn. by rewrite Hs. Qed.

Lemma unwound_out n0 b b' :
  (forall l, is_Some (stacks !! l) -> bl_index l < n0) -> b ∈ blocks ->
  unwound (rf_kind f) owners stacks n0 after slot_of F b b' ->
  code_out (World := World) (Value := Value) slot_of blocks hidden live after b b'
  /\ exc_out (World := World) (Value := Value) slot_of blocks hidden live after (rf_kind f) (blk_exc_edge b) (blk_exc_edge b').
Proof.
  intros Hold Hb [Hsame ->|b1 t' exc Hp Hreg Hret Hterm Hexc ->].
  - assert (forall edge, be_target edge ∈ edge_targets b -> edge_out (World := World) (Value := Value) slot_of blocks hidden live after edge edge) as Hself.
    { intros edge Ht. split; [apply goes_refl|]. intros cur σ. rewrite params_kept; [done|]. by eapply (pr_closed _ _ _ _ _ _ _ _ Hr). }
    split.
    + apply CodeOut_Same; [done|]. assert ((exists edge, blk_term b = BT_Jump edge) \/ forall edge, blk_term b <> BT_Jump edge) as [[edge Et]|Hnj].
      { destruct (blk_term b); eauto; by right. }
      * left. exists edge, edge. split_and!; [done|done|]. apply Hself. unfold edge_targets, normal_targets. rewrite Et. set_solver.
      * right. exists (targets_of (blk_term b)). split; [by apply with_targets_refl|].
        apply Forall2_same_length_lookup_2; [done|]. intros i x y Hx Hy. assert (x = y) as <- by congruence. apply goes_refl.
    + destruct (blk_exc_edge b) as [edge|] eqn:Ee; constructor. apply Hself. unfold edge_targets. rewrite Ee. set_solver.
  - pose proof (fun l => new_label_leaves stacks n0 Hold (pending_stack owners b) l) as Hnew.
    assert (rev (pending_stack owners b) <> []) as Hp' by (intros E; apply Hp; by rewrite <- (rev_involutive (pending_stack owners b)), E).
    split; cbn [blk_exc_edge].
    + destruct Hret as [->|value result r order _ Et Hri Hrb Hfresh ->].
      * apply CodeOut_Same; [done|]. cbn. destruct Hterm as [edge edge' Et -> Hx|ys Hys Hgo].
        -- left. exists edge, edge'. split_and!; [done|done|]. eapply exits_out; eauto.
        -- right. exists ys. split; [done|].
           assert (forall x, x ∈ targets_of (blk_term b) -> x ∈ edge_targets b) as Htg.
           { intros x Hx. unfold edge_targets, normal_targets, targets_of in *. destruct (blk_term b); set_solver. }
           apply Forall2_same_length_lookup_2; [by eapply Forall2_length|]. intros i x y Hx Hy.
           pose proof (Forall2_lookup_lr _ _ _ _ _ _ Hgo Hx Hy) as [[-> _]|(_ & _ & Hl)]; [apply goes_refl|].
           exists (drops owners (leaving stacks (pending_stack owners b) x)). split; [done|]. intros z. apply leaving_dead; [done|done|].
           apply Htg. by eapply list_elem_of_lookup_2.
      * cbn in Hterm. destruct Hterm as [edge edge' [= <-] -> Hx|ys Hys _]; [|done]. cbn in Hx. rewrite Hnew in Hx by done.
        destruct (exits_leave _ _ _ _ result BPR_Value Hx Hp') as [Hg Hbind];
          [unfold params_at; by rewrite Hrb|done|by right|].
        eapply CodeOut_Return; [exact Et|done|done|exact Hg|done|]. intros cur σ. by rewrite Hbind.
    + inversion Hexc as [edge edge' Hx E E'|l error edge' Hli Hlb Hfresh Hx E E'].
      * constructor. eapply exits_out; eauto.
      * rewrite Hnew in Hx by done.
        destruct (exits_leave _ _ _ _ error BPR_Exception Hx Hp') as [Hg Hbind];
          [unfold params_at; by rewrite Hlb|done|by left|].
        eapply ExcOut_Escape; [exact Hg|done|]. intros e σ. rewrite Hbind. by apply bind_one, Hfresh.
Qed.
End ready.

Lemma params_after l gen blocks : Forall2 same_head blocks l -> NoDup (labels (l ++ gen)) ->
  forall t, t ∈ labels blocks -> params_at (l ++ gen) t = params_at blocks t.
Proof.
  intros Hh Hnd t Ht. assert (NoDup (labels blocks)) as Hnb.
  { unfold labels in Hnd. rewrite map_app in Hnd. apply NoDup_app in Hnd as [Hnd _]. unfold labels.
    enough (map blk_label l = map blk_label blocks) as <- by done. clear -Hh.
    induction Hh as [|b b' bs bs' [E _] _ IH]; [done|]. cbn. by rewrite E, IH. }
  apply list_elem_of_fmap in Ht as (b & -> & Hb). unfold params_at. rewrite (find_block_elem blocks b) by done.
  apply list_elem_of_lookup in Hb as [i Hi]. destruct (Forall2_lookup_l _ _ _ _ _ Hh Hi) as (b' & Hb' & El & Ep & _).
  rewrite <- El, (find_block_elem _ b'); [done|done|]. apply elem_of_app. left. by eapply list_elem_of_lookup_2.
Qed.

