(* ===== verification/PendingRelease.v ===== *)
(** * Pending payloads are released

    When control leaves a finally block, it comes to the target of the edge taken, through blocks
    that neither raise nor are observed, and the payloads left hold [None] there. *)

From stdpp Require Import gmap.
From S2P Require Import Prelude Order Collections Ids IdsProps Cfg CfgProps Names Instr Layout BbShape.
From S2P Require Import Resolved ResolvedSem Roles Flow OperandCleanup LiveAgree OperandCleanupProps Split.
From S2P Require Import Transport TransportProps TransportLifetime TransportLifetimeProps Pending PendingProps PendingRefine.

Local Open Scope Z_scope.

(** [None] can always be loaded. *)
Class NoneLoads (World Value : Type) `{!ResolvedRuntime World Value} : Prop := {
  none_returns n w rs : resolved_runtime_name_id n = Some RN_None -> exists w' v, result_of (Op_Load n None) w rs [] w' v
}.

Section eventually.
Context {C : Type} (step : C -> C -> Prop).
(** On every path, after finitely many steps. *)
Inductive eventually (P : C -> Prop) (c : C) : Prop :=
| Eventually_Now : P c -> eventually P c
| Eventually_Step : (exists c', step c c') -> (forall c', step c c' -> eventually P c') -> eventually P c.
Lemma eventually_weaken (P Q : C -> Prop) c : (forall c, P c -> Q c) -> eventually P c -> eventually Q c.
Proof. intros HPQ. induction 1 as [c Hc|c Hs _ IH]; [apply Eventually_Now; auto|by apply Eventually_Step]. Qed.
End eventually.

Section release.
Context {World Value : Type} `{!ResolvedRuntime World Value} `{!TransportRuntime World Value} `{!NoneLoads World Value}.
Context (slot_of : string -> option NameLocation) (after : list (Block InstrResolved)).
Notation Slots := (gmap NameLocation Value).

Definition is_none_value (v : Value) : Prop :=
  exists n w rs w', resolved_runtime_name_id n = Some RN_None /\ result_of (Op_Load n None) w rs [] w' v.
Definition holds_none (σ : Slots) (x : NameLocation) : Prop := exists v, is_none_value v /\ σ !! x = Some v.

Lemma none_load_ev w (σ : Slots) w' σ' o : ev w σ none_load w' σ' o -> w' = w /\ σ' = σ /\ exists v, o = Normal v /\ is_none_value v.
Proof.
  intros He. inversion He; subst; match goal with H : evs _ _ [] _ _ _ |- _ => inversion H; subst end.
  - match goal with H : result_of _ _ _ _ _ _ |- _ => pose proof H as Hr; apply none_silent in H as ->; [|done] end.
    match goal with H : effect _ _ _ _ _ |- _ => inversion H; subst end. split_and!; [done|done|]. eexists. split; [done|]. do 4 eexists. split; [|exact Hr]. done.
  - match goal with H : raises _ _ _ _ _ _ |- _ => by apply none_total in H end.
Qed.
Lemma reset_ev name w (σ : Slots) w' σ' o :
  is_slot (rn_location name) = true -> ev w σ (reset name) w' σ' o ->
  w' = w /\ exists v r, o = Normal r /\ is_none_value v /\ σ' = <[rn_location name := v]> σ.
Proof.
  intros Hs H. inversion H as [|? ? ? ? w1 σ1 vs ? ? r Hc Hr Hf|? ? ? ? w1 σ1 vs ? ? e Hc Hr Hf|? ? ? ? ? ? e Hc]; subst.
  - inversion Hc as [|? ? ? ? w2 σ2 v ? ? vs2 Hv Hn| |]; subst. inversion Hn; subst.
    apply none_load_ev in Hv as (-> & -> & v1 & [= <-] & Hnv). apply store_silent in Hr as ->; [|done].
    inversion Hf; subst; [|done]. split; [done|]. exists v, r. unfold set_slot. by rewrite Hs.
  - by apply store_total in Hr.
  - inversion Hc as [| |? ? ? ? ? ? ? Hv|? ? ? ? w3 σ3 v3 ? ? ? Hv Hn]; subst; [|inversion Hn].
    by apply none_load_ev in Hv as (_ & _ & ? & [=] & _).
Qed.
Lemma resets_release names w (σ : Slots) w' σ' o :
  Forall (fun n => is_slot (rn_location n) = true) names -> evs w σ (map reset names) w' σ' o ->
  w' = w /\ is_normal o = true /\ (forall x, x ∈ map rn_location names -> holds_none σ' x)
  /\ forall x, x ∉ map rn_location names -> σ' !! x = σ !! x.
Proof.
  intros Hs. revert w σ o. induction Hs as [|n names Hn _ IH]; intros w σ o H; cbn in H.
  { inversion H; subst. split_and!; [done|done| |done]. by intros x ?%not_elem_of_nil. }
  inversion H as [|? ? ? ? w1 σ1 v ? ? vs H1 H2|? ? ? ? ? ? e H1|? ? ? ? w1 σ1 v ? ? e H1 H2]; subst;
    destruct (reset_ev _ _ _ _ _ _ Hn H1) as (-> & v1 & r & Hno & Hnv & Hσ); subst; [|done|];
    destruct (IH _ _ _ H2) as (-> & Hno' & Hx & Hx'); [|done].
  split_and!; [done|done| |].
  - intros x Hk. destruct (decide (x ∈ map rn_location names)) as [|Hnx]; [by apply Hx|].
    apply elem_of_cons in Hk as [->|]; [|done]. exists v1. split; [done|]. rewrite Hx' by done. apply lookup_insert_eq.
  - intros x Hk. cbn in Hk. rewrite Hx' by set_solver. apply lookup_insert_ne. set_solver.
Qed.
Lemma resets_run names w (σ : Slots) :
  Forall (fun n => is_slot (rn_location n) = true) names -> exists σ' vs, evs w σ (map reset names) w σ' (Normal vs).
Proof.
  intros Hs. revert σ. induction Hs as [|n names Hn _ IH]; intros σ; [do 2 eexists; constructor|].
  destruct (none_returns (mkResolvedName "NONE" (NL_RuntimeName RN_None)) w (map (σ !!.) [NL_RuntimeName RN_None]) eq_refl) as (w1 & v & Hv).
  pose proof Hv as Hw. apply none_silent in Hw as ->; [|done].
  destruct (store_returns n SL_Frame SP_Binding w [] [v] Hn) as [r Hr].
  destruct (IH (set_slot (rn_location n) v σ)) as (σ' & vs & Hrest). exists σ', (r :: vs). cbn.
  econstructor; [|exact Hrest]. eapply Ev_Node; [|exact Hr|constructor]. econstructor; [|constructor].
  eapply Ev_Node; [constructor|exact Hv|by constructor].
Qed.

Lemma leads_eventually c t xs : leads after c t xs -> forall w (σ : Slots),
  eventually (block_step slot_of after) (fun d => exists σ', d = Running t w σ' /\ (forall x, x ∈ xs -> holds_none σ' x)
    /\ forall x, x ∉ xs -> σ' !! x = σ !! x) (Running c w σ).
Proof.
  induction 1 as [t|c next t params extra names xs Hb Hn _ IH]; intros w σ.
  { apply Eventually_Now. exists σ. split_and!; [done| |done]. by intros x ?%not_elem_of_nil. }
  apply Eventually_Step.
  - destruct (resets_run names w σ Hn) as (σ' & vs & He). eexists. eapply Step_Term; [exact Hb|exact He|constructor].
  - intros d Hs.
    inversion Hs as [? b ? ? w1 σ1 vs ? Hf He Ht|? b ? ? w1 σ1 e Hf He|? b ? ? w1 σ1 vs w2 σ2 e Hf He Ht]; subst;
      rewrite Hb in Hf; injection Hf as <-; cbn in He; destruct (resets_release _ _ _ _ _ _ Hn He) as (-> & Hno & Hx & Hx').
    + inversion Ht; subst. unfold follow. cbn. unfold by_name. rewrite bind_self.
      eapply eventually_weaken; [|apply IH]. intros d (σ' & -> & H1 & H2). exists σ'. split_and!; [done| |].
      * intros x Hin. destruct (decide (x ∈ xs)) as [|Hnx]; [by apply H1|]. apply elem_of_app in Hin as [Hin|]; [|done].
        unfold holds_none. rewrite H2 by done. by apply Hx.
      * intros x Hnx. rewrite H2 by set_solver. apply Hx'. set_solver.
    + done.
    + inversion Ht as [? i ? ? ? ? ? Hi _| |]; subst. by apply not_elem_of_nil in Hi.
Qed.
End release.

(** The blocks the pass adds for a [return] and for an exception that escapes. *)
Definition way_out (kind : FunctionKind) (after : list (Block InstrResolved)) (t : BlockLabel) : Prop :=
  (exists result, find_block t after = Some (return_block t result))
  \/ exists error, find_block t after = Some (escaping_block kind t error).

Lemma exits_leads after owners names edge edge' :
  exits after owners names edge edge' -> leads after (be_target edge') (be_target edge) (drops owners names).
Proof. intros [-> ->|params _ Hl _ _ _]; [constructor|done]. Qed.

Section left.
Context {World Value : Type} `{!ResolvedRuntime World Value}.
Context (slot_of : string -> option NameLocation) (kind : FunctionKind) (owners : Owners).
Context (stacks : gmap BlockLabel (list string)) (n0 : Z) (after : list (Block InstrResolved)) (F : gset NameLocation).
Notation Slots := (gmap NameLocation Value).

(** Where control goes from a finally block. *)
Lemma unwound_leads b b' (w : World) (σ : Slots) y w1 σ1 :
  unwound kind owners stacks n0 after slot_of F b b' -> pending_stack owners b <> [] -> is_region b = true ->
  find_block (blk_label b) after = Some b' -> block_step slot_of after (Running (blk_label b) w σ) (Running y w1 σ1) ->
  exists t, (t ∈ edge_targets b \/ way_out kind after t)
    /\ leads after y t (drops owners (leaving stacks (pending_stack owners b) t)).
Proof.
  intros Hu Hp Hreg Hb' Hs. destruct Hu as [[?|?] _|b1 t' exc _ _ Hret Hterm Hexc Eb']; [done|congruence|].
  assert (forall e w2 (τ : Slots), throw slot_of after b' e w2 τ = Running y w1 σ1 -> exists t, (t ∈ edge_targets b \/ way_out kind after t)
    /\ leads after y t (drops owners (leaving stacks (pending_stack owners b) t))) as Hthrow.
  { intros e w2 τ Ht. rewrite Eb' in Ht. unfold throw in Ht. cbn in Ht.
    inversion Hexc as [edge edge' Hx E E'|l error edge' _ Hlb _ Hx E E']; subst exc; unfold follow in Ht; injection Ht as <- _ _.
    - exists (be_target edge). split; [left; unfold edge_targets; rewrite <- E; set_solver|]. by apply exits_leads.
    - exists l. split; [right; right; eauto|]. by apply exits_leads in Hx. }
  inversion Hs as [? b2 ? ? w2 σ2 vs c Hf He Ht Ec|? b2 ? ? w2 σ2 e Hf He Ec Ed|? b2 ? ? w2 σ2 vs w3 σ3 e Hf He Ht Ec Ed]; subst;
    rewrite Hb' in Hf; injection Hf as <-; [|by eapply Hthrow..]. cbn [blk_term] in Ht.
  destruct Hterm as [edge edge' Et -> Hx|ys Hys Hgo].
  - inversion Ht; subst. exists (be_target edge). split; [|by apply exits_leads].
    destruct Hret as [->|value result r order _ _ _ Hrb _ ->].
    + left. unfold edge_targets, normal_targets. rewrite Et. set_solver.
    + cbn in Et. injection Et as <-. right. left. eauto.
  - assert (b1 = b) as ->.
    { destruct Hret as [->|value result r order _ _ _ _ _ ->]; [done|]. by cbn in Hys. }
    assert (y ∈ ys) as Hy.
    { destruct (blk_term b) as [|i|i|r|i|i]; cbn in Hys; [done| | |destruct Hys as [-> ->]; inversion Ht..].
      - destruct Hys as (a1 & a2 & -> & ->). inversion Ht; subst. cbn. case_match; set_solver.
      - destruct Hys as (ts & d & -> & ->). inversion Ht; subst. cbn. destruct (ts !! n) as [x|] eqn:En; cbn; [|set_solver].
        apply list_elem_of_lookup_2 in En. set_solver. }
    apply list_elem_of_lookup in Hy as [i Hi]. destruct (Forall2_lookup_r _ _ _ _ _ Hgo Hi) as (x & Hx & Hsent). exists x. split.
    + left. apply list_elem_of_lookup_2 in Hx. unfold edge_targets, normal_targets, targets_of in *. destruct (blk_term b); set_solver.
    + destruct Hsent as [[-> [->|?%not_elem_of_nil]]|(_ & _ & Hl)]; [constructor|done|done].
Qed.
End left.


(** ** An example: a finally block with a payload, left by a jump *)

Module DemoPending.
Definition name_pay : ResolvedName := mkResolvedName "pay" (NL_Local (mkLocalLocation 2)).
Definition name_escape : ResolvedName := mkResolvedName "_dp_pending_escaping_exception_0_1_0" (NL_Local (mkLocalLocation 3)).
Definition text : InstrResolved := R_Literal (Lit_String "v").
Definition enter : Block InstrResolved :=
  mkBlock (mkBlockLabel 0) [] (BT_Jump (mkBlockEdge (mkBlockLabel 1) [BA_AbruptKind AK_Return; BA_Name "x"])) [] None
    block_context_default.
Definition final : Block InstrResolved :=
  mkBlock (mkBlockLabel 1) [] (BT_Jump (mkBlockEdge (mkBlockLabel 2) []))
    [mkBlockParam "kind" BPR_AbruptKind; mkBlockParam "pay" BPR_AbruptPayload] None block_context_default.
Definition outside : Block InstrResolved := mkBlock (mkBlockLabel 2) [] (BT_Return text) [] None block_context_default.
Definition names : Store * FunctionNameGen := function_gen_recovered (mkStore ∅ ∅) (from_raw_parts 0 1) 3 0.
Definition demo : ResolvedFunction :=
  mkResolvedFunction (from_raw_parts 0 1) "f" FK_Function names.2
    (Some (mkStorageLayout None [] None [] [] [] ["x"; "kind"; "pay"] [])) [enter; final; outside].
Definition result : Store * ResolvedFunction := default (names.1, demo) (materialize_pending_payload_unwinds names.1 demo).
Definition owners : Owners := {["pay" := mkPendingOwner [name_pay] []]}.
Definition hidden : LiveSet := {[rn_location name_pay; rn_location name_escape]}.
Definition hidden_names : list Operand := [mkOperand name_pay 0; mkOperand name_escape 0].
Definition live : gmap BlockLabel LiveSet := default ∅ (live_inputs (rf_blocks demo) hidden_names hidden).
Definition slot_of (name : string) : option NameLocation :=
  if bool_decide (name = "x") then Some (NL_Local (mkLocalLocation 0))
  else if bool_decide (name = "kind") then Some (NL_Local (mkLocalLocation 1))
  else if bool_decide (name = "pay") then Some (rn_location name_pay)
  else if bool_decide (name = rn_id name_escape) then Some (rn_location name_escape) else None.

(** Locals are loaded as they are, and loads of globals raise. *)
#[global] Instance runtime : ResolvedRuntime unit nat := {|
  literal_value := fun _ => 5%nat;
  result_of := fun op _ reads _ _ v =>
    match op with
    | Op_Load name _ =>
        match rn_location name with
        | NL_RuntimeName _ => v = 0%nat
        | NL_GlobalName => False
        | _ => match reads with [Some u] => v = u | _ => v = 0%nat end
        end
    | _ => v = 1%nat
    end;
  raises := fun op _ _ _ _ v =>
    match op with Op_Load name _ => rn_location name = NL_GlobalName /\ v = 2%nat | _ => False end;
  new_buffer := fun _ _ _ _ v => v = 3%nat;
  truth := fun v b => b = bool_decide (v <> 0%nat);
  branch_index := fun v n => n = v;
  current_exception := fun _ => None;
  none_value := 0%nat;
  kind_value := fun _ => 4%nat
|}.
#[global] Instance transport_runtime : TransportRuntime unit nat.
Proof.
  split; try done.
  - by intros ? [] ? ? [].
  - intros n w rs vs w' e Hn Hx. destruct Hx as [Hl _]. unfold resolved_runtime_name_id in Hn. by rewrite Hl in Hn.
  - by intros ? ? ? [] ? ? [].
  - by intros ? ? ? ? ? ? ? ? ? Hx.
  - intros. by exists 1%nat.
Qed.
#[global] Instance local_loads : LocalLoads unit nat.
Proof.
  split.
  - intros n [] v vs [] v' Hs H. cbn in H. by destruct (rn_location n).
  - intros n w v vs w' e Hs Hx. destruct Hx as [H _]. by rewrite H in Hs.
Qed.
#[global] Instance none_loads : NoneLoads unit nat.
Proof.
  split. intros n w rs Hn. exists tt, 0%nat. cbn. unfold resolved_runtime_name_id in Hn.
  by destruct (rn_location n).
Qed.

Lemma pass : materialize_pending_payload_unwinds names.1 demo = Some result.
Proof. vm_compute. reflexivity. Qed.
Lemma demo_blocks b : b ∈ rf_blocks demo -> b = enter \/ b = final \/ b = outside.
Proof. cbn. set_solver. Qed.
Lemma pending_demo_ready : pending_ready slot_of names.1 demo result.2 owners hidden hidden_names live.
Proof.
  assert (forall n l, slot_of n = Some l -> (n = "x" /\ l = NL_Local (mkLocalLocation 0)) \/ (n = "kind" /\ l = NL_Local (mkLocalLocation 1))
    \/ (n = "pay" /\ l = rn_location name_pay) \/ (n = rn_id name_escape /\ l = rn_location name_escape)) as Hslot.
  { intros n l H. unfold slot_of in H. repeat case_bool_decide; simplify_eq; auto 6. }
  assert (forall name owner, owners !! name = Some owner -> name = "pay" /\ owner = mkPendingOwner [name_pay] []) as Hown.
  { intros name owner H. unfold owners in H. by apply lookup_singleton_Some in H as [<- <-]. }
  split.
  - vm_compute. reflexivity.
  - apply (bool_decide_unpack _). vm_compute. exact I.
  - intros b t [->|[->| ->]]%demo_blocks; cbn; set_solver.
  - exists 3. split_and!; [by vm_compute|lia|]. by intros b [->|[->| ->]]%demo_blocks.
  - split.
    + intros l Hl. unfold hidden in Hl. apply elem_of_union in Hl as [->%elem_of_singleton| ->%elem_of_singleton]; done.
    + intros n l [[-> ->]|[[-> ->]|[[-> ->]|[-> ->]]]]%Hslot Hh; 
        [by apply elem_of_union in Hh as [Hh%elem_of_singleton|Hh%elem_of_singleton]..| |].
      * exists (mkOperand name_pay 0). split_and!; [by left|done|done].
      * exists (mkOperand name_escape 0). split_and!; [by right; left|done|done].
    + intros b i [->|[->| ->]]%demo_blocks Hi; cbn in Hi; by repeat (apply elem_of_cons in Hi as [->|Hi]); try (by apply not_elem_of_nil in Hi).
  - intros o Ho. unfold hidden_names in Ho. repeat (apply elem_of_cons in Ho as [->|Ho]); [set_solver|set_solver|by apply not_elem_of_nil in Ho].
  - vm_compute. reflexivity.
  - intros n m l Hn%Hslot Hm%Hslot.
    destruct Hn as [[-> ->]|[[-> ->]|[[-> ->]|[-> ->]]]], Hm as [[-> E]|[[-> E]|[[-> E]|[-> E]]]]; done.
  - intros b [->|[->| ->]]%demo_blocks; apply (bool_decide_unpack _); vm_compute; exact I.
  - intros b edge target [->|[->| ->]]%demo_blocks _ [[= <-]|[=]] Ht; vm_compute in Ht; injection Ht as <-; by vm_compute; auto.
  - intros name owner x [-> ->]%Hown Hx. cbn in Hx. apply list_elem_of_singleton in Hx as ->. set_solver.
  - intros b t name owner x Hb _ Ht Hn [-> ->]%Hown Hx. cbn in Hx. apply list_elem_of_singleton in Hx as ->.
    apply demo_blocks in Hb as [->|[->| ->]]; cbn in Ht.
    + exfalso. destruct Hn as (i & Hi & _). by vm_compute in Hi.
    + apply list_elem_of_singleton in Ht as ->. apply (bool_decide_unpack _). vm_compute. exact I.
    + by apply not_elem_of_nil in Ht.
  - intros i name Hi Hname. replace (stack_of (rf_storage_layout result.2)) with ["x"; "kind"; "pay"; rn_id name_escape] in Hname by (by vm_compute).
    cbn in Hi. destruct i as [|[|[|[|i]]]]; try lia; [|by destruct i]. cbn in Hname. injection Hname as <-. split_and!; [done|set_solver|].
    intros n owner [_ ->]%Hown. cbn. set_solver.
Qed.

Lemma found_final : find_block (mkBlockLabel 1) (rf_blocks result.2)
  = Some (mkBlock (mkBlockLabel 1) [] (BT_Jump (mkBlockEdge (mkBlockLabel 4) [BA_Name "pay"])) (blk_params final)
            (Some (mkBlockEdge (mkBlockLabel 7) [BA_CurrentException; BA_Name "pay"])) block_context_default).
Proof. by vm_compute. Qed.
Lemma found_carrier : find_block (mkBlockLabel 4) (rf_blocks result.2)
  = Some (carrier_block (mkBlockLabel 4) (mkBlockEdge (mkBlockLabel 3) [BA_Name "pay"]) [mkBlockParam "pay" BPR_Value]).
Proof. by vm_compute. Qed.
Lemma found_drop : find_block (mkBlockLabel 3) (rf_blocks result.2)
  = Some (drop_block (mkBlockLabel 3) (mkPendingOwner [name_pay] []) (mkBlockEdge (mkBlockLabel 2) [])
            [mkBlockParam "pay" BPR_Value]).
Proof. by vm_compute. Qed.
Lemma leave_final (σ : gmap NameLocation nat) : exists σ1,
  block_step slot_of (rf_blocks result.2) (Running (mkBlockLabel 1) tt σ) (Running (mkBlockLabel 4) tt σ1).
Proof. eexists. eapply (Step_Term _ _ _ _ _ _ _ _ []); [exact found_final|constructor|apply TS_Jump]. Qed.
Lemma pending_demo_run : exists σ' : gmap NameLocation nat,
  runs slot_of (rf_blocks result.2) (Running (mkBlockLabel 1) tt ∅) (Done (FE_Returned 5%nat) tt σ').
Proof.
  destruct (leave_final ∅) as [σ1 H1].
  assert (exists σ2, block_step slot_of (rf_blocks result.2) (Running (mkBlockLabel 4) tt σ1) (Running (mkBlockLabel 3) tt σ2)) as [σ2 H2].
  { eexists. eapply (Step_Term _ _ _ _ _ _ _ _ []); [exact found_carrier|constructor|apply TS_Jump]. }
  destruct (resets_run [name_pay] tt σ2) as (σ3 & vs & He); [by repeat constructor|].
  assert (exists σ4, block_step slot_of (rf_blocks result.2) (Running (mkBlockLabel 3) tt σ2) (Running (mkBlockLabel 2) tt σ4)) as [σ4 H3].
  { eexists. eapply Step_Term; [exact found_drop|exact He|apply TS_Jump]. }
  exists σ4. do 3 (eapply rtc_l; [eassumption|]). apply rtc_once.
  eapply (Step_Term _ _ _ outside _ _ _ _ []); [by vm_compute|constructor|]. apply TS_Return. exact (Ev_Literal tt σ4 (Lit_String "v")).
Qed.
End DemoPending.


(** ** Fewer arguments than parameters *)

Module DemoPartial.
Definition final : Block InstrResolved :=
  mkBlock (mkBlockLabel 0) [] (BT_Jump (mkBlockEdge (mkBlockLabel 1) [BA_Name "y"]))
    [mkBlockParam "a" BPR_Value; mkBlockParam "y" BPR_Value; mkBlockParam "kind" BPR_AbruptKind; mkBlockParam "pay" BPR_AbruptPayload] None
    block_context_default.
Definition outside : Block InstrResolved :=
  mkBlock (mkBlockLabel 1) [] (BT_Return (R_Node (Op_Load (mkResolvedName "b" (NL_Local (mkLocalLocation 1))) None) []))
    [mkBlockParam "a" BPR_Value; mkBlockParam "b" BPR_Value] None block_context_default.
Definition demo : ResolvedFunction :=
  mkResolvedFunction (from_raw_parts 0 1) "f" FK_Generator DemoPending.names.2
    (Some (mkStorageLayout None [] None [] [] [] ["a"; "b"; "y"; "kind"; "pay"] [])) [final; outside].
End DemoPartial.

(** The carrier counts arguments from the first parameter, an edge from the last: the block
    that leaves its finally part passes [y] to the parameter [b], which is accepted by the
    validator of edges; after the pass it passes [y] to [a], and [b] keeps its old value. *)
Example partial_arguments_shifted :
  is_ok (validate_blocks (as_blockpy DemoPartial.demo)) = true
  /\ edge_pairs (blk_params DemoPartial.outside) [BA_Name "y"] = [(mkBlockParam "b" BPR_Value, BA_Name "y")]
  /\ exists s' f' carrier params args,
       materialize_pending_payload_unwinds DemoPending.names.1 DemoPartial.demo = Some (s', f')
       /\ blk_term <$> find_block (mkBlockLabel 0) (rf_blocks f') = Some (BT_Jump (mkBlockEdge carrier args))
       /\ params_at (rf_blocks f') carrier = params
       /\ edge_pairs params args = [(mkBlockParam "a" BPR_Value, BA_Name "y"); (mkBlockParam "b" BPR_Value, BA_Name "b");
                                    (mkBlockParam "pay" BPR_Value, BA_Name "pay")].
Proof. split; [by vm_compute|]. split; [done|]. do 5 eexists. split; [vm_compute; reflexivity|]. split_and!; by vm_compute. Qed.
