(* ===== verification/ExceptionPass.v ===== *)
(** * The exception pass

    crates/soac_lowering/src/passes/blockpy_to_bb/exception_pass/mod.rs: the passes on one
    function, one after the other, and on all functions of a module. *)

From stdpp Require Import gmap.
From S2P Require Import Prelude Order Collections Ids IdsProps Cfg CfgProps Names Instr Layout BbShape.
From S2P Require Import Resolved ResolvedSem Roles Flow OperandCleanup LiveAgree OperandCleanupProps Split.
From S2P Require Import Transport TransportProps TransportLifetime TransportLifetimeProps.
From S2P Require Import Pending PendingProps PendingRefine PendingRelease.

Local Open Scope Z_scope.

Section pass.
Context (hash_order : gmap NameLocation Operand -> list Operand).

Definition populate_function (f : ResolvedFunction) : ResolvedFunction :=
  with_resolved_blocks f (populate_exception_edge_args (rf_blocks f)).
Definition record_roles_function (f : ResolvedFunction) : option ResolvedFunction :=
  layout ← record_resolved_block_parameter_roles (rf_blocks f) (rf_storage_layout f);
  Some (with_resolved_layout f layout).

(** [None] is a panic of one of the passes. *)
Definition lower_function_try_jump_exception_flow (s : Store) (f : ResolvedFunction) :
    option (Store * ResolvedFunction) :=
  '(s, f) ← split_exception_blocks_for_expr_checks s f;
  let f := populate_function f in
  '(s, f) ← materialize_pending_payload_unwinds s f;
  '(s, f) ← split_exception_blocks_for_expr_checks s f;
  '(s, f) ← materialize_operand_unwinds hash_order s f;
  f ← record_roles_function f;
  f ← retire_exception_transports f;
  Some (s, f).

(** The callables of a module; the rest of the module is copied. *)
Fixpoint lower_try_jump_exception_flow (s : Store) (callable_defs : list ResolvedFunction) :
    option (Store * list ResolvedFunction) :=
  match callable_defs with
  | [] => Some (s, [])
  | f :: callable_defs =>
      '(s, f) ← lower_function_try_jump_exception_flow s f;
      '(s, callable_defs) ← lower_try_jump_exception_flow s callable_defs;
      Some (s, f :: callable_defs)
  end.
End pass.

(** ** What every pass keeps *)

(** The identity of the function, its entry and its labels. *)
Record keeps (f f' : ResolvedFunction) : Prop := mkKeeps {
  keeps_id : rf_function_id f' = rf_function_id f;
  keeps_qualname : rf_qualname f' = rf_qualname f;
  keeps_kind : rf_kind f' = rf_kind f;
  keeps_names : rf_name_gen f' = rf_name_gen f;
  keeps_entry : head (labels (rf_blocks f')) = head (labels (rf_blocks f));
  keeps_labels l : l ∈ labels (rf_blocks f) -> l ∈ labels (rf_blocks f')
}.
#[global] Instance keeps_preorder : PreOrder keeps.
Proof.
  split; [by intros f; split|]. intros f1 f2 f3 [] []. split; try congruence. auto.
Qed.
Lemma keeps_blocks f blocks layout :
  head (labels blocks) = head (labels (rf_blocks f)) -> (forall l, l ∈ labels (rf_blocks f) -> l ∈ labels blocks) ->
  keeps f (with_resolved_blocks (with_resolved_layout f layout) blocks).
Proof. by intros ? ?; split. Qed.
Lemma keeps_front f l gen layout :
  labels l = labels (rf_blocks f) -> rf_blocks f <> [] -> keeps f (with_resolved_blocks (with_resolved_layout f layout) (l ++ gen)).
Proof.
  intros Hl Hne. apply keeps_blocks; unfold labels in *; rewrite map_app, Hl; [by destruct (rf_blocks f)|set_solver].
Qed.

(** Distinct labels, below the counter of the label generator. *)
Record numbered (s : Store) (f : ResolvedFunction) : Prop := mkNumbered {
  numbered_distinct : NoDup (labels (rf_blocks f));
  numbered_counter : exists n, block_counter s (rf_name_gen f) = Some n /\ 0 <= n
    /\ forall l, l ∈ labels (rf_blocks f) -> bl_index l < n
}.
(** New labels after the old ones. *)
Lemma numbered_more s s' f f' n n' ls :
  numbered s f -> rf_name_gen f' = rf_name_gen f -> labels (rf_blocks f') ≡ₚ labels (rf_blocks f) ++ ls ->
  block_counter s (rf_name_gen f) = Some n -> block_counter s' (rf_name_gen f) = Some n' -> n <= n' -> new_labels n n' ls ->
  numbered s' f'.
Proof.
  intros [Hd (m & Hm & H0 & Hlt)] Eg P Hn Hn' Hle [Hnd Hnew]. assert (m = n) as -> by congruence. split.
  - rewrite P. apply NoDup_app. split_and!; [done| |done]. intros l Hl%Hlt Hl'%Hnew. lia.
  - exists n'. rewrite Eg. split_and!; [done|lia|]. intros l Hl. rewrite P in Hl. apply elem_of_app in Hl as [Hl%Hlt|Hl%Hnew]; lia.
Qed.
Lemma numbered_same s f f' :
  numbered s f -> rf_name_gen f' = rf_name_gen f -> labels (rf_blocks f') = labels (rf_blocks f) -> numbered s f'.
Proof. intros [Hd Hc] Eg El. split; rewrite El; [done|by rewrite Eg]. Qed.

Lemma no_labels n : new_labels n n [].
Proof. split; [constructor|]. by intros l ?%not_elem_of_nil. Qed.
Lemma split_ops_labels g b s cur seg ops s' out n :
  split_ops g b s cur seg ops = Some (s', out) -> ops <> [] -> block_counter s g = Some n -> 0 <= n ->
  exists n' ls, block_counter s' g = Some n' /\ n <= n' /\ labels out = cur :: ls /\ new_labels n n' ls.
Proof.
  revert s cur seg out n. induction ops as [|op ops IH]; intros s cur seg out n H Hne Hc Hn; [done|]. cbn [split_ops] in H.
  destruct ops as [|op2 ops]; [injection H as <- <-; exists n, []; split_and!; [done|lia|done|apply no_labels]|].
  destruct (op_updates_exception_state op); [|by eapply IH].
  destruct (fresh_label s g) as [[s1 next]|] eqn:Ef; [|done]. cbn [mbind option_bind] in H.
  destruct (split_ops g b s1 next [] _) as [[s2 out2]|] eqn:Es; [|done]. cbn [mbind option_bind] in H. injection H as <- <-.
  destruct (fresh_label_counter _ _ _ _ _ Ef Hc Hn) as [El Hc1].
  destruct (IH _ _ _ _ (n + 1) Es) as (n' & ls & C & L & E & N); [done|done|lia|].
  exists n', (next :: ls). split_and!; [done|lia|by cbn; rewrite <- E|]. apply new_labels_cons; [done|done|lia].
Qed.
Lemma split_blocks_labels g s bs s' out n :
  split_blocks g s bs = Some (s', out) -> block_counter s g = Some n -> 0 <= n ->
  exists n' ls, block_counter s' g = Some n' /\ n <= n' /\ labels out ≡ₚ labels bs ++ ls /\ new_labels n n' ls
    /\ head (labels out) = head (labels bs).
Proof.
  revert s out n. induction bs as [|b bs IH]; intros s out n H Hc Hn; cbn [split_blocks] in H.
  { injection H as <- <-. exists n, []. split_and!; [done|lia|done|apply no_labels|done]. }
  destruct (split_block g b s) as [[s1 o1]|] eqn:E1; [|done]. cbn [mbind option_bind] in H.
  destruct (split_blocks g s1 bs) as [[s2 o2]|] eqn:E2; [|done]. cbn [mbind option_bind] in H. injection H as <- <-.
  assert (exists n1 ls1, block_counter s1 g = Some n1 /\ n <= n1 /\ labels o1 = blk_label b :: ls1 /\ new_labels n n1 ls1)
    as (n1 & ls1 & C1 & L1 & El & N1).
  { unfold split_block in E1. destruct (_ || _) eqn:E; [injection E1 as <- <-; exists n, []; split_and!; [done|lia|done|apply no_labels]|].
    apply orb_false_iff in E as [_ E]. bool_inv. by eapply split_ops_labels. }
  destruct (IH _ _ n1 E2 C1) as (n' & ls & C & L & P & N & _); [lia|].
  exists n', (ls1 ++ ls). split_and!; [done|lia| |by eapply new_labels_app|].
  - unfold labels in *. cbn [map]. rewrite map_app, El, P. cbn. constructor. solve_Permutation.
  - unfold labels in *. rewrite map_app, El. done.
Qed.
Lemma split_keeps s f s' f' :
  numbered s f -> split_exception_blocks_for_expr_checks s f = Some (s', f') -> keeps f f' /\ numbered s' f'.
Proof.
  unfold split_exception_blocks_for_expr_checks. intros Hnum H. destruct (split_blocks _ _ _) as [[s1 bs]|] eqn:E; [|done].
  cbn [mbind option_bind] in H. injection H as <- <-. destruct (numbered_counter _ _ Hnum) as (n & Hc & Hn & _).
  destruct (split_blocks_labels _ _ _ _ _ n E Hc Hn) as (n' & ls & C & L & P & N & Hh). split.
  - apply (keeps_blocks f bs (rf_storage_layout f)); [done|]. intros l Hl. rewrite P. set_solver.
  - by eapply (numbered_more s s1 f).
Qed.
Lemma populate_labels (bs : list (Block InstrResolved)) : labels (populate_exception_edge_args bs) = labels bs.
Proof.
  unfold populate_exception_edge_args. generalize (collect_map (zip (map blk_label bs) (seq 0 (length bs)))) as m.
  generalize (seq 0 (length bs)) as idx. intros idx m. revert bs.
  induction idx as [|i idx IH]; intros bs; [done|]. cbn [fold_left]. etransitivity; [apply IH|]. unfold populate_block.
  destruct (bs !! i) as [b|] eqn:Eb; [|done]. destruct (blk_exc_edge b); [|done]. destruct (_ ≫= _); [|done].
  unfold labels. rewrite list_fmap_insert. apply list_insert_id. rewrite list_lookup_fmap, Eb. done.
Qed.
Lemma populate_keeps s f : numbered s f -> keeps f (populate_function f) /\ numbered s (populate_function f).
Proof.
  intros Hnum. pose proof (populate_labels (rf_blocks f)) as Hl. split; [|by eapply numbered_same].
  apply (keeps_blocks f _ (rf_storage_layout f)); by rewrite Hl.
Qed.

(** The pending pass draws a label for every block it generates. *)
Section generated.
Context (g : FunctionNameGen) (kind : FunctionKind) (owners : Owners) (stacks : gmap BlockLabel (list string)).

Definition moved (st st' : PendingState) : Prop := grown g (ps_store st) (ps_store st') (ps_generated st) (ps_generated st').
Definition drawn (st : PendingState) : Prop := counted g (ps_store st) 0.
Lemma moved_refl st : drawn st -> moved st st.
Proof. intros (n & Hn & _). by eapply grown_refl. Qed.
Lemma moved_trans st1 st2 st3 : moved st1 st2 -> moved st2 st3 -> moved st1 st3.
Proof. apply grown_trans. Qed.
Lemma moved_drawn st st' : drawn st -> moved st st' -> drawn st'.
Proof. apply counted_grown. Qed.
Lemma drops_moved source params names s next gen s' next' gen' :
  counted g s 0 -> drop_blocks g owners source params s names next gen = Some (s', next', gen') -> grown g s s' gen gen'.
Proof.
  revert s next gen. induction names as [|name names IH]; intros s next gen Hc H; cbn in H.
  { destruct Hc as (n & Hn & _). injection H as <- <- <-. by eapply grown_refl. }
  destruct (owners !! name) as [owner|]; [|done]. cbn [mbind option_bind] in H. destruct (within_handlers source owner); [|done].
  destruct (fresh_label s g) as [[s1 label]|] eqn:Ef; [|done]. cbn [mbind option_bind] in H.
  pose proof (counted_one g s s1 gen label (drop_block label owner next (drop_params params owner)) 0 Hc Ef eq_refl) as G1.
  eapply grown_trans; [exact G1|]. eapply IH; [by eapply counted_grown|exact H].
Qed.
Lemma chain_moved st b edge names st' edge' : drawn st -> chain_for g owners st b edge names = Some (st', edge') -> moved st st'.
Proof.
  intros Hd H. unfold chain_for in H. destruct (ps_target_params st !! _) as [tp|]; [|done]. cbn [mbind option_bind] in H.
  unfold cleanup_chain in H. destruct (carrier_params owners tp names) as [params|]; [|done]. cbn [mbind option_bind] in H.
  destruct (drop_blocks _ _ _ _ _ _ _ _) as [[[s1 next] gen1]|] eqn:Ed; [|done]. cbn [mbind option_bind] in H.
  destruct (fresh_label s1 g) as [[s2 label]|] eqn:Ef; [|done]. cbn [mbind option_bind] in H. injection H as <- _.
  pose proof (drops_moved _ _ _ _ _ _ _ _ _ Hd Ed) as G1. unfold moved. cbn. eapply grown_trans; [exact G1|].
  eapply counted_one; [by eapply counted_grown|exact Ef|done].
Qed.
Lemma fresh_moved s s1 s2 layout layout' label operand name l gen c :
  counted g s 0 -> fresh_local g s layout label operand = Some (s1, layout', name) -> fresh_label s1 g = Some (s2, l) ->
  blk_label c = l -> grown g s s2 gen (gen ++ [c]).
Proof.
  intros Hd Hl Hf Hc. apply fresh_local_spec in Hl as (E & _ & _). destruct Hd as (n & Hn & H0).
  assert (grown g s1 s2 gen (gen ++ [c])) as [(new & ? & ? & m & m' & Hm & R)].
  { eapply (counted_one g s1 s2 gen l c 0); [|done|done]. exists n. by rewrite E. }
  split. exists new. split_and!; [done|done|]. exists m, m'. split; [by rewrite <- E|exact R].
Qed.
Lemma return_moved st b st' b' : drawn st -> pending_return g kind st b = Some (st', b') -> moved st st'.
Proof.
  intros Hd H. unfold pending_return in H.
  destruct kind, (blk_term b); try (injection H as <- _; by apply moved_refl).
  destruct (fresh_local _ _ _ _ _) as [[[s1 layout] result]|] eqn:El; [|done]. cbn [mbind option_bind] in H.
  destruct (next_order _); [|done]. cbn [mbind option_bind] in H.
  destruct (fresh_label s1 g) as [[s2 r]|] eqn:Ef; [|done]. cbn [mbind option_bind] in H. injection H as <- _.
  by eapply fresh_moved.
Qed.
Lemma redirect_moved pending todo st b st' b' :
  drawn st -> fold_opt (redirect_edge g owners stacks pending) (st, b) todo = Some (st', b') -> moved st st'.
Proof.
  revert st b. induction todo as [|edge todo IH]; intros st b Hd H; cbn in H; [injection H as <- _; by apply moved_refl|].
  case_bool_decide; cbn [mbind option_bind] in H; [by eapply IH|].
  destruct (chain_for _ _ _ _ _ _) as [[st1 edge']|] eqn:Ec; [|done]. cbn [mbind option_bind] in H.
  pose proof (chain_moved _ _ _ _ _ _ Hd Ec) as Hm. eapply moved_trans; [exact Hm|]. eapply IH; [by eapply moved_drawn|exact H].
Qed.
Lemma exception_moved pending st b st' b' :
  drawn st -> redirect_exception g kind owners stacks pending st b = Some (st', b') -> moved st st'.
Proof.
  intros Hd H. unfold redirect_exception in H.
  destruct (match blk_exc_edge b with Some edge => Some (st, edge) | None => escaping_edge g kind st end) as [[st1 edge]|] eqn:E; [|done].
  cbn [mbind option_bind] in H. assert (moved st st1) as Hm.
  { destruct (blk_exc_edge b); [injection E as <- _; by apply moved_refl|]. unfold escaping_edge in E.
    destruct (ps_escaping st); [injection E as <- _; by apply moved_refl|].
    destruct (fresh_local _ _ _ _ _) as [[[s1 layout] error]|] eqn:El; [|done]. cbn [mbind option_bind] in E.
    destruct (fresh_label s1 g) as [[s2 l]|] eqn:Ef; [|done]. cbn [mbind option_bind] in E. injection E as <- _. by eapply fresh_moved. }
  case_bool_decide; [by injection H as <- _|]. destruct (chain_for _ _ _ _ _ _) as [[st2 edge']|] eqn:Ec; [|done].
  cbn [mbind option_bind] in H. injection H as <- _. eapply moved_trans; [exact Hm|]. eapply chain_moved; [by eapply moved_drawn|exact Ec].
Qed.
Lemma pending_block_moved st b st' b' : drawn st -> pending_block g kind owners stacks st b = Some (st', b') -> moved st st'.
Proof.
  intros Hd H. unfold pending_block in H. destruct (_ || _); [injection H as <- _; by apply moved_refl|].
  destruct (pending_return g kind st b) as [[st1 b1]|] eqn:E1; [|done]. cbn [mbind option_bind] in H.
  destruct (fold_opt _ _ _) as [[st2 b2]|] eqn:E2; [|done]. cbn [mbind option_bind] in H.
  pose proof (return_moved _ _ _ _ Hd E1) as M1. pose proof (moved_drawn _ _ Hd M1) as D1.
  pose proof (redirect_moved _ _ _ _ _ _ D1 E2) as M2. pose proof (moved_drawn _ _ D1 M2) as D2.
  do 2 (eapply moved_trans; [eassumption|]). by eapply exception_moved.
Qed.
Lemma pending_blocks_moved st l st' l' : drawn st -> pending_blocks g kind owners stacks st l = Some (st', l') -> moved st st'.
Proof.
  unfold pending_blocks. set (step := fun (state : PendingState * list (Block InstrResolved)) (b : Block InstrResolved) => _).
  enough (forall out, drawn st -> fold_opt step (st, out) l = Some (st', l') -> moved st st') as X by apply X.
  revert st. induction l as [|b l IH]; intros st out Hd H; cbn in H; [injection H as <- _; by apply moved_refl|].
  destruct (pending_block g kind owners stacks st b) as [[st1 b']|] eqn:E; [|done]. cbn [mbind option_bind] in H.
  pose proof (pending_block_moved _ _ _ _ Hd E) as M. eapply moved_trans; [exact M|]. eapply IH; [by eapply moved_drawn|exact H].
Qed.
End generated.

Lemma pending_keeps s f s' f' :
  numbered s f -> materialize_pending_payload_unwinds s f = Some (s', f') -> keeps f f' /\ numbered s' f'.
Proof.
  intros Hnum H. unfold materialize_pending_payload_unwinds in H. destruct (pending_owners f) as [owners|] eqn:Eo; [|done]. cbn [mbind option_bind] in H.
  case_bool_decide as Hne; [by injection H as <- <-|]. destruct (next_operand_order f); [|done]. cbn [mbind option_bind] in H.
  destruct (pending_blocks _ _ _ _ _ _) as [[st l]|] eqn:E; [|done]. cbn [mbind option_bind] in H. injection H as <- <-.
  destruct (numbered_counter _ _ Hnum) as (n & Hn & H0 & _).
  assert (labels l = labels (rf_blocks f)) as Hl.
  { apply pending_blocks_head in E. unfold labels. clear -E. induction E as [|c c' cs cs' [El _] _ IH]; [done|]. cbn. by rewrite El, IH. }
  split; [apply keeps_front; [done|]|].
  - intros Eb. apply Hne. unfold pending_owners in Eo. rewrite Eb in Eo. cbn in Eo.
    destruct (transport_storage_new f) as [[]|]; cbn in Eo; [by injection Eo|done|done].
  - apply pending_blocks_moved in E as [(new & Eg & Hnd & m & n' & Hm & Hn' & Hle & Hnew)]; [|exists n; split; [done|lia]].
    cbn in Eg, Hm. subst new. eapply (numbered_more s _ f _ m n' (labels (ps_generated st))); [done|done| |done|done|done|].
    + cbn. unfold labels in *. by rewrite map_app, Hl.
    + split; [done|]. intros x (c & -> & Hc%Hnew)%list_elem_of_fmap. done.
Qed.
Lemma unwind_blocks_labels operands live acquired params g s bs s' l cs :
  unwind_blocks operands live acquired params g s bs = Some (s', l, cs) -> labels l = labels bs.
Proof.
  revert s s' l cs. induction bs as [|b bs IH]; intros s s' l cs H; cbn [unwind_blocks] in H; [by injection H as _ <- _|].
  destruct (unwind_block _ _ _ _ _ s b) as [[[s1 b1] c1]|] eqn:E1; [|done]. cbn [mbind option_bind] in H.
  destruct (unwind_blocks _ _ _ _ _ s1 bs) as [[[s2 l2] c2]|] eqn:E2; [|done]. cbn [mbind option_bind] in H. injection H as _ <- _.
  apply IH in E2. unfold labels in *. cbn. rewrite E2. f_equal. unfold unwind_block in E1.
  destruct (blk_exc_edge b); [|by injection E1 as _ <- _]. destruct (acquired !! blk_label b); [|done]. cbn [mbind option_bind] in E1.
  destruct (cleanup_body _ _ _); [by injection E1 as _ <- _|]. destruct (params !! _); [|by injection E1 as _ <- _].
  case_bool_decide; [|done]. destruct (fresh_label s g) as [[? ?]|]; [|done]. cbn [mbind option_bind] in E1. by injection E1 as _ <- _.
Qed.
Lemma operand_keeps hash_order s f s' f' :
  numbered s f -> materialize_operand_unwinds hash_order s f = Some (s', f') -> keeps f f' /\ numbered s' f'.
Proof.
  intros Hnum H. unfold materialize_operand_unwinds in H. destruct (collected (rf_blocks f)) as [table|] eqn:Et; [|done]. cbn [mbind option_bind] in H.
  case_bool_decide as Hne; [by injection H as <- <-|]. destruct (rf_storage_layout f); [|done]. cbn [mbind option_bind] in H.
  destruct (mark_operands _ _) as [layout|]; [|done]. cbn [mbind option_bind] in H. destruct (live_inputs _ _ _); [|done]. cbn [mbind option_bind] in H.
  destruct (acquired_prefixes _ _); [|done]. cbn [mbind option_bind] in H.
  destruct (unwind_blocks _ _ _ _ _ _ _) as [[[s1 l] cs]|] eqn:E; [|done]. cbn [mbind option_bind] in H. injection H as <- <-.
  pose proof (unwind_blocks_labels _ _ _ _ _ _ _ _ _ _ E) as Hl. split.
  - apply (keeps_front f l cs (Some layout)); [done|]. intros Eb. apply Hne. rewrite Eb in Et. cbn in Et. by injection Et.
  - destruct (numbered_counter _ _ Hnum) as (n & Hn & H0 & _).
    destruct (unwind_blocks_spec _ _ _ _ _ (numbered_distinct _ _ Hnum) _ _ _ _ _ _ E Hn H0) as (ps & _ & _ & _ & n' & Hn' & Hle & Hnd & Hnew).
    eapply (numbered_more s s1 f _ n n' (labels cs)); [done|done| |done|done|done|].
    + cbn. unfold labels in *. by rewrite map_app, Hl.
    + split; [done|]. intros x (c & -> & Hc%Hnew)%list_elem_of_fmap. done.
Qed.
Lemma roles_keeps s f f' : numbered s f -> record_roles_function f = Some f' -> keeps f f' /\ numbered s f'.
Proof.
  unfold record_roles_function. intros Hnum H. destruct (record_resolved_block_parameter_roles _ _) as [layout|]; [|done].
  cbn [mbind option_bind] in H. injection H as <-. split; [done|by eapply numbered_same].
Qed.

(** ** What the last pass consumes *)

Definition marks_transport (i : InstrResolved) : bool :=
  match i with R_Node (Op_Store _ _ SP_BlockParameterTransport) _ => true | _ => false end.
(** No marked copy and no edge of a suspension is left. *)
Definition consumed_block (b : Block InstrResolved) : Prop :=
  bc_suspension_resume (blk_extra b) = None
  /\ forall i, i ∈ concat (map resolved_pre (resolved_block_instrs b)) -> marks_transport i = false.

Lemma consume_marks i x : x ∈ resolved_pre (consume i) -> marks_transport x = false.
Proof.
  revert x. induction i as [value|op children IH] using InstrResolved_tree_ind; intros x Hx; cbn in Hx.
  { by apply list_elem_of_singleton in Hx as ->. }
  apply elem_of_cons in Hx as [->|Hx]; [destruct op; try done; by destruct purpose|].
  apply list_elem_of_In, in_concat in Hx as (l & Hl & Hx). rewrite map_map in Hl. apply in_map_iff in Hl as (c & <- & Hc).
  rewrite Forall_forall in IH. apply (IH c); by apply list_elem_of_In.
Qed.
Lemma consume_block_consumed b : bc_suspension_resume (blk_extra b) = None -> consumed_block (consume_block b).
Proof.
  intros Hb. split; [done|]. intros i Hi. apply list_elem_of_In, in_concat in Hi as (l & Hl & Hi). apply in_map_iff in Hl as (x & <- & Hx).
  enough (exists y, x = consume y) as [y ->] by (eapply consume_marks; by apply list_elem_of_In).
  unfold resolved_block_instrs in Hx. apply in_app_or in Hx as [Hx|Hx]; cbn in Hx.
  - apply in_map_iff in Hx as (y & <- & _). eauto.
  - destruct (blk_term b) as [|i0|i0|r|i0|i0]; cbn in Hx; try done; try (destruct Hx as [<-|[]]; eauto).
    destruct (tr_exc r); cbn in Hx; [|done]. destruct Hx as [<-|[]]; eauto.
Qed.
Lemma retire_keeps s f f' :
  numbered s f -> retire_exception_transports f = Some f' ->
  keeps f f' /\ numbered s f' /\ forall b, b ∈ rf_blocks f' -> consumed_block b.
Proof.
  intros Hnum H. unfold retire_exception_transports in H. destruct (negb _); [done|].
  destruct (transport_storage_new f) as [[catalog|]|]; [|done|done]. cbn [mbind option_bind] in H.
  assert (forall T : Block InstrResolved -> Block InstrResolved, (forall b, blk_label (T b) = blk_label b /\ bc_suspension_resume (blk_extra (T b)) = None) ->
    f' = with_resolved_blocks f (map (fun b => consume_block (T b)) (rf_blocks f)) ->
    keeps f f' /\ numbered s f' /\ forall b, b ∈ rf_blocks f' -> consumed_block b) as Hmap.
  { intros T HT ->.
    assert (labels (map (fun b => consume_block (T b)) (rf_blocks f)) = labels (rf_blocks f)) as Hl.
    { unfold labels. rewrite map_map. apply map_ext. intros b. by destruct (HT b). }
    split_and!; [apply (keeps_blocks f _ (rf_storage_layout f)); by rewrite Hl|by eapply numbered_same|].
    intros b Hb. cbn in Hb. apply list_elem_of_fmap in Hb as (b0 & -> & _). apply consume_block_consumed, HT. }
  destruct (ts_is_empty catalog).
  { injection H as <-. apply (Hmap without_resume); [done|]. by rewrite map_map. }
  destruct (known_targets _ _); [|done]. destruct (scope_states _ _) as [scopes|]; [|done]. cbn [mbind option_bind] in H.
  destruct (live_points _ _ _ _ _) as [live|]; [|done]. cbn [mbind option_bind] in H. destruct (head _); [|done]. cbn [mbind option_bind] in H.
  destruct (owned_inputs _ _ _ _ _) as [[inputs|]|]; [|done|done]. cbn [mbind option_bind] in H. injection H as <-.
  apply (Hmap (fun b => retire_block catalog live inputs (kill_copies catalog live b))); [|by rewrite !map_map].
  intros c. unfold retire_block. split; [|done]. cbn. destruct (inputs !! _) as [owned|]; [|done].
  destruct (fold_left _ _ _) as [owned' body]. by destruct (retire_at_point _ _ _).
Qed.

(** C17: the passes on a function with distinct labels below the label counter keep its
    identity, its entry and every label; the labels stay distinct and below the counter,
    though four passes draw new ones; and no marked copy of a block parameter and no edge of a
    suspension is left: what the last pass consumes, no later phase sees. *)
Theorem exception_flow_shape hash_order s f s' f' :
  numbered s f -> lower_function_try_jump_exception_flow hash_order s f = Some (s', f') ->
  keeps f f' /\ numbered s' f' /\ forall b, b ∈ rf_blocks f' -> consumed_block b.
Proof.
  unfold lower_function_try_jump_exception_flow. intros H0 H.
  destruct (split_exception_blocks_for_expr_checks s f) as [[s1 f1]|] eqn:E1; [|done]. cbn [mbind option_bind] in H.
  destruct (materialize_pending_payload_unwinds _ _) as [[s2 f2]|] eqn:E2; [|done]. cbn [mbind option_bind] in H.
  destruct (split_exception_blocks_for_expr_checks s2 f2) as [[s3 f3]|] eqn:E3; [|done]. cbn [mbind option_bind] in H.
  destruct (materialize_operand_unwinds _ _ _) as [[s4 f4]|] eqn:E4; [|done]. cbn [mbind option_bind] in H.
  destruct (record_roles_function f4) as [f5|] eqn:E5; [|done]. cbn [mbind option_bind] in H.
  destruct (retire_exception_transports f5) as [f6|] eqn:E6; [|done]. cbn [mbind option_bind] in H. injection H as <- <-.
  apply split_keeps in E1 as [K1 N1]; [|done]. destruct (populate_keeps _ _ N1) as [KP NP].
  apply pending_keeps in E2 as [K2 N2]; [|done]. apply split_keeps in E3 as [K3 N3]; [|done].
  apply operand_keeps in E4 as [K4 N4]; [|done]. apply (roles_keeps s4) in E5 as [K5 N5]; [|done].
  apply (retire_keeps s4) in E6 as (K6 & N6 & C6); [|done]. split; [|done]. by do 6 (etransitivity; [eassumption|]).
Qed.

(** ** A function with a finally block *)

Module DemoPass.
Definition pass : option (Store * ResolvedFunction) :=
  lower_function_try_jump_exception_flow DemoUnwind.hash_order DemoPending.names.1 DemoPending.demo.
Definition result : Store * ResolvedFunction := default (DemoPending.names.1, DemoPending.demo) pass.
Lemma runs : pass = Some result.
Proof. vm_compute. reflexivity. Qed.
(** The three blocks of the function and five generated ones. *)
Lemma result_labels : labels (rf_blocks result.2) = map mkBlockLabel [0; 1; 2; 3; 4; 5; 6; 7].
Proof. vm_compute. reflexivity. Qed.
Lemma demo_numbered : numbered DemoPending.names.1 DemoPending.demo.
Proof.
  split; [apply (bool_decide_unpack _); vm_compute; exact I|]. exists 3. split_and!; [by vm_compute|lia|].
  intros l. cbn. rewrite !elem_of_cons, elem_of_nil. intros [->|[->|[->|[]]]]; cbn; lia.
Qed.
End DemoPass.

Lemma exception_flow_shape_witness :
  numbered DemoPending.names.1 DemoPending.demo
  /\ lower_function_try_jump_exception_flow DemoUnwind.hash_order DemoPending.names.1 DemoPending.demo = Some DemoPass.result
  /\ length (rf_blocks DemoPass.result.2) = 8%nat
  /\ numbered DemoPass.result.1 DemoPass.result.2 /\ forall b, b ∈ rf_blocks DemoPass.result.2 -> consumed_block b.
Proof.
  split; [exact DemoPass.demo_numbered|]. split; [exact DemoPass.runs|]. split; [vm_compute; reflexivity|].
  refine (proj2 (exception_flow_shape DemoUnwind.hash_order DemoPending.names.1 DemoPending.demo _ _ DemoPass.demo_numbered _)).
  rewrite <- surjective_pairing. exact DemoPass.runs.
Defined.
