(* ===== verification/Escape.v ===== *)
(** * Constructor summaries and inline plans

    crates/soac_opt/src/passes/escape_analysis.rs scans every [__init__] for constructors that
    only store fields of [self], and crates/soac_opt/src/passes/inline_plan.rs turns the
    straight-line ones into plans the inliner reads field values from.

    The scan's mutable builder is threaded as a value; the receiver field [function] and
    [module] are the section's arguments. *)

From stdpp Require Import gmap sorting.
From S2P Require Import Prelude Collections Text Ids Cfg Names Instr Layout ModuleCheck.

Local Open Scope Z_scope.

(** ** Summaries *)

Inductive ConstructorFieldValue : Type :=
| CFV_Param (name : string) (index : nat) (location : option LocalLocation)
| CFV_Local (name : string) (location : option LocalLocation)
| CFV_Constant (description : string)
| CFV_Other.
Record ConstructorFieldStore : Type := mkFieldStore {
  field_name : string; field_store_value : ConstructorFieldValue }.
Record ConstructorSummary : Type := mkConstructorSummary {
  con_self_name : string;
  con_self_location : option LocalLocation;
  con_field_stores : list ConstructorFieldStore
}.
(** [NonEscapingConstructorSummary] and [FieldInitializerConstructorSummary] have the same
    three fields. *)
Record FunctionEscapeSummary : Type := mkFunctionEscapeSummary {
  non_escaping : option ConstructorSummary;
  straightline : option ConstructorSummary
}.
Definition EscapeSummaryModule : Type := gmap RuntimeFunctionId FunctionEscapeSummary.

Definition non_escaping_constructor (m : EscapeSummaryModule) (function_id : RuntimeFunctionId) :
    option ConstructorSummary := summary ← m !! function_id; non_escaping summary.
Definition straightline_field_initializer (m : EscapeSummaryModule) (function_id : RuntimeFunctionId) :
    option ConstructorSummary := summary ← m !! function_id; straightline summary.
(** Collecting into a [HashMap]: when two keys coincide one of them stays. *)
Definition remap_summary_ids {A} (remap : RuntimeFunctionId -> RuntimeFunctionId)
    (m : gmap RuntimeFunctionId A) : gmap RuntimeFunctionId A := kmap remap m.

(** ** The scan *)

Inductive ConstructorSummaryMode : Type := NonEscaping | StraightlineFieldInitializer.
Inductive ValueAlias : Type :=
| VA_SelfObject
| VA_Param (name : string) (index : nat) (location : option LocalLocation)
| VA_Local (name : string) (location : option LocalLocation)
| VA_Constant (description : string).

#[global] Instance ConstructorSummaryMode_eq_dec : EqDecision ConstructorSummaryMode.
Proof. solve_decision. Defined.
#[global] Instance ValueAlias_eq_dec : EqDecision ValueAlias.
Proof. solve_decision. Defined.

Record ConstructorBuilder : Type := mkConstructorBuilder {
  cb_self_location : option LocalLocation;
  cb_aliases : gmap LocalLocation ValueAlias;
  cb_field_stores : list ConstructorFieldStore;
  cb_rejected : option string
}.
Definition reject_constructor (reason : string) (b : ConstructorBuilder) : ConstructorBuilder :=
  match cb_rejected b with
  | Some _ => b
  | None => mkConstructorBuilder (cb_self_location b) (cb_aliases b) (cb_field_stores b) (Some reason)
  end.
Definition with_aliases (b : ConstructorBuilder) (aliases : gmap LocalLocation ValueAlias) :
    ConstructorBuilder :=
  mkConstructorBuilder (cb_self_location b) aliases (cb_field_stores b) (cb_rejected b).
Definition with_self_location (b : ConstructorBuilder) (location : LocalLocation) : ConstructorBuilder :=
  mkConstructorBuilder (Some location) (cb_aliases b) (cb_field_stores b) (cb_rejected b).
Definition push_field_store (b : ConstructorBuilder) (store : ConstructorFieldStore) : ConstructorBuilder :=
  mkConstructorBuilder (cb_self_location b) (cb_aliases b) (cb_field_stores b ++ [store]) (cb_rejected b).

(** A [Load] and its name. *)
Definition as_load (i : InstrBlockPy) : option ResolvedName :=
  match i with mkInstr _ (Op_Load name _) _ => Some name | _ => None end.
Definition loads_where (p : ResolvedName -> bool) (i : InstrBlockPy) : bool :=
  instr_any (fun child => is_some_and p (as_load child)) i.
Definition instr_uses_self (self_name : string) (i : InstrBlockPy) : bool :=
  loads_where (fun name => bool_decide (id_str name = self_name)) i.
Definition param_index (params : list Param) (name : string) : option nat :=
  fst <$> list_find (fun param => p_name param = name) params.

Section scan.
Context (module_constants : list ConstantExpr) (params : list Param) (self_name : string)
  (mode : ConstructorSummaryMode).
Implicit Type b : ConstructorBuilder.

Definition alias_at b (name : ResolvedName) : option ValueAlias :=
  location ← local_location name; cb_aliases b !! location.
Definition value_alias_readonly b (i : InstrBlockPy) : option ValueAlias :=
  name ← as_load i;
  match alias_at b name with
  | Some alias => Some alias
  | None =>
      match param_index params (id_str name) with
      | Some index => Some (VA_Param (id_str name) index (local_location name))
      | None =>
          match rn_location name with
          | NL_Local location => Some (VA_Local (id_str name) (Some location))
          | NL_Constant _ => Some (VA_Constant (id_str name))
          | _ => None
          end
      end
  end.
Definition value_alias b (i : InstrBlockPy) : ConstructorBuilder * option ValueAlias :=
  match as_load i with
  | None => (b, None)
  | Some name =>
      if bool_decide (id_str name = self_name) then
        match rn_location name with
        | NL_Local location =>
            match cb_self_location b with
            | Some existing =>
                if bool_decide (existing = location) then (b, Some VA_SelfObject) else (b, None)
            | None => (with_self_location b location, Some VA_SelfObject)
            end
        | _ => (b, None)
        end
      else (b, value_alias_readonly b i)
  end.
Definition is_self_alias b (i : InstrBlockPy) : ConstructorBuilder * bool :=
  let (b, alias) := value_alias b i in (b, bool_decide (alias = Some VA_SelfObject)).

Definition constant_string (i : InstrBlockPy) : option string :=
  name ← as_load i;
  index ← as_constant (rn_location name);
  match module_constants !! Z.to_nat index with
  | Some (Const_Literal (Lit_String value)) => Some value
  | _ => None
  end.
Definition is_runtime_none (i : InstrBlockPy) : bool :=
  match as_load i with
  | None => false
  | Some name =>
      (bool_decide (id_str name = "NONE")
       && match rn_location name with
          | NL_RuntimeName _ | NL_GlobalName | NL_Global _ => true
          | _ => false
          end)
      || is_runtime_symbol name "NONE"
      || is_some_and (fun index =>
           match module_constants !! Z.to_nat index with
           | Some (Const_RuntimeName RN_None) => true
           | _ => false
           end) (as_constant (rn_location name))
  end.
Definition field_value b (i : InstrBlockPy) : ConstructorFieldValue :=
  match value_alias_readonly b i with
  | Some (VA_Param name index location) => CFV_Param name index location
  | Some (VA_Local name location) => CFV_Local name location
  | Some (VA_Constant description) => CFV_Constant description
  | Some VA_SelfObject | None => CFV_Other
  end.

Definition instr_uses_self_alias b (i : InstrBlockPy) : bool :=
  loads_where (fun name => bool_decide (alias_at b name = Some VA_SelfObject)) i.
Definition instr_uses_self_or_alias b (i : InstrBlockPy) : bool :=
  instr_uses_self self_name i || instr_uses_self_alias b i.
Definition reject_straightline (reason : string) b : ConstructorBuilder :=
  if bool_decide (mode = StraightlineFieldInitializer) then reject_constructor reason b else b.

Definition scan_store b (name : ResolvedName) (value : InstrBlockPy) : ConstructorBuilder :=
  match local_location name with
  | None =>
      if instr_uses_self_or_alias b value then reject_constructor "self used in non-local store value" b
      else reject_straightline "straightline field initializer used non-local store" b
  | Some location =>
      let (b, alias) := value_alias b value in
      match alias with
      | Some alias => with_aliases b (<[location := alias]> (cb_aliases b))
      | None =>
          let b := with_aliases b (delete location (cb_aliases b)) in
          if instr_uses_self_or_alias b value
          then reject_constructor "self used in non-aliasable local store value" b
          else reject_straightline "straightline field initializer used unsupported store value" b
      end
  end.
Definition scan_del b (name : ResolvedName) : ConstructorBuilder :=
  let b := match local_location name with
           | Some location => with_aliases b (delete location (cb_aliases b))
           | None => b
           end in
  if bool_decide (id_str name = self_name) then reject_constructor "deleted self" b else b.
Definition scan_other b (i : InstrBlockPy) : ConstructorBuilder :=
  if instr_uses_self self_name i then reject_constructor "direct self use outside field store" b
  else if instr_uses_self_alias b i then reject_constructor "self alias use outside field store" b
  else reject_straightline "straightline field initializer used unsupported instruction" b.
Definition scan_setattr b (attr replacement : InstrBlockPy) : ConstructorBuilder :=
  if instr_uses_self_or_alias b attr || instr_uses_self_or_alias b replacement
  then reject_constructor "self used in SetAttr attr or replacement" b
  else
    match constant_string attr with
    | None => reject_constructor "SetAttr on self used a non-constant field name" b
    | Some field => push_field_store b (mkFieldStore field (field_value b replacement))
    end.
(** The fields of a store and of an attribute store are its children. *)
Definition scan_instr b (i : InstrBlockPy) : ConstructorBuilder :=
  match instr_op i, instr_children i with
  | Op_Store name _ _, [value] => scan_store b name value
  | Op_Del name _, _ => scan_del b name
  | Op_SetAttr, [value; attr; replacement] =>
      let (b, is_self) := is_self_alias b value in
      if is_self then scan_setattr b attr replacement else scan_other b i
  | _, _ => scan_other b i
  end.

Definition scan_term b (t : BlockTerm InstrBlockPy) : ConstructorBuilder :=
  match mode with
  | StraightlineFieldInitializer =>
      match t with
      | BT_Return value =>
          if is_runtime_none value then b
          else reject_constructor "straightline field initializer returned non-None value" b
      | _ => reject_constructor "straightline field initializer used non-return terminator" b
      end
  | NonEscaping =>
      if existsb (instr_uses_self_or_alias b) (term_instrs t) then reject_constructor "self used in terminator" b
      else b
  end.

(** The scan stops at the first rejection. *)
Fixpoint scan_instrs b (body : list InstrBlockPy) : ConstructorBuilder :=
  match body with
  | [] => b
  | i :: body =>
      let b := scan_instr b i in
      if is_some (cb_rejected b) then b else scan_instrs b body
  end.
Definition scan_block b (block : Block InstrBlockPy) : ConstructorBuilder :=
  let b := scan_instrs b (blk_body block) in
  if is_some (cb_rejected b) then b else scan_term b (blk_term block).
Fixpoint scan_blocks b (blocks : list (Block InstrBlockPy)) : ConstructorBuilder :=
  match blocks with
  | [] => b
  | block :: blocks =>
      let b := scan_block b block in
      if is_some (cb_rejected b) then b else scan_blocks b blocks
  end.
Definition scan_function b (blocks : list (Block InstrBlockPy)) : ConstructorBuilder :=
  if bool_decide (mode = StraightlineFieldInitializer) && negb (bool_decide (length blocks = 1%nat))
  then reject_constructor "straightline field initializer must have exactly one block" b
  else scan_blocks b blocks.
Definition finish b : result string ConstructorSummary :=
  match cb_rejected b with
  | Some reason => Err reason
  | None =>
      do? ensure (negb (bool_decide (cb_field_stores b = []))) "constructor has no self field stores";
      Ok (mkConstructorSummary self_name (cb_self_location b) (cb_field_stores b))
  end.
End scan.

Definition builder_new : ConstructorBuilder := mkConstructorBuilder None ∅ [] None.

Definition summarize_constructor_with_mode_result (module_constants : list ConstantExpr)
    (f : FunctionDef) (mode : ConstructorSummaryMode) : result string ConstructorSummary :=
  do? ensure (ends_with ".__init__" (fd_qualname f)) "function qualname is not a constructor __init__";
  let? self_param := ok_or "constructor has no self parameter" (head (fd_params f)) in
  do? ensure (bool_decide (p_name self_param = "self"))
    ("constructor first parameter is " +:+ p_name self_param +:+ ", not self");
  finish (p_name self_param)
    (scan_function module_constants (fd_params f) (p_name self_param) mode builder_new (fd_blocks f)).

Definition summarize_constructor_with_mode (module_constants : list ConstantExpr) (f : FunctionDef)
    (mode : ConstructorSummaryMode) : option ConstructorSummary :=
  match summarize_constructor_with_mode_result module_constants f mode with
  | Ok summary => Some summary
  | Err _ => None
  end.
Definition summarize_non_escaping_constructor (module_constants : list ConstantExpr)
    (f : FunctionDef) : option ConstructorSummary :=
  summarize_constructor_with_mode module_constants f NonEscaping.
Definition summarize_straightline_field_initializer (module_constants : list ConstantExpr)
    (f : FunctionDef) : option ConstructorSummary :=
  summarize_constructor_with_mode module_constants f StraightlineFieldInitializer.
Definition straightline_field_initializer_rejection_reason (module_constants : list ConstantExpr)
    (f : FunctionDef) : option string :=
  match summarize_constructor_with_mode_result module_constants f StraightlineFieldInitializer with
  | Ok _ => None
  | Err reason => Some reason
  end.

Definition summarize_function (module_constants : list ConstantExpr) (f : FunctionDef) :
    FunctionEscapeSummary :=
  mkFunctionEscapeSummary (summarize_non_escaping_constructor module_constants f)
    (summarize_straightline_field_initializer module_constants f).
Definition fd_function_id (f : FunctionDef) : RuntimeFunctionId := bf_function_id (fd_function f).
(** A later function of the same id replaces an earlier one. *)
Definition summarize_module_escapes (m : BlockPyModule) : EscapeSummaryModule :=
  fold_left (fun functions f =>
      <[fd_function_id f := summarize_function (bm_module_constants m) f]> functions)
    (bm_callable_defs m) ∅.

(** ** Inline plans *)

Record StraightlineConstructorInlinePlan : Type := mkInlinePlan {
  plan_self_name : string;
  plan_self_location : option LocalLocation;
  plan_field_stores : list ConstructorFieldStore
}.
Record FunctionInlinePlan : Type := mkFunctionInlinePlan {
  fip_straightline_constructor : option StraightlineConstructorInlinePlan }.
Definition InlinePlanModule : Type := gmap RuntimeFunctionId FunctionInlinePlan.

Definition straightline_constructor (m : InlinePlanModule) (function_id : RuntimeFunctionId) :
    option StraightlineConstructorInlinePlan :=
  plan ← m !! function_id; fip_straightline_constructor plan.
Definition straightline_constructor_plan (summary : ConstructorSummary) :
    StraightlineConstructorInlinePlan :=
  mkInlinePlan (con_self_name summary) (con_self_location summary) (con_field_stores summary).
Definition plan_function (summary : FunctionEscapeSummary) : option FunctionInlinePlan :=
  plan ← straightline_constructor_plan <$> straightline summary;
  Some (mkFunctionInlinePlan (Some plan)).
Definition plan_module_inlining (escape_summary : EscapeSummaryModule) : InlinePlanModule :=
  omap plan_function escape_summary.

(** ** Printing *)

Definition render_field_value (value : ConstructorFieldValue) : string :=
  match value with
  | CFV_Param name index _ => "param#" +:+ decimal (Z.of_nat index) +:+ ":" +:+ name
  | CFV_Local name _ => "local:" +:+ name
  | CFV_Constant description => "const:" +:+ description
  | CFV_Other => "other"
  end.
Definition render_field_stores (stores : list ConstructorFieldStore) : string :=
  String.concat ", " (map (fun store =>
    field_name store +:+ "=" +:+ render_field_value (field_store_value store)) stores).
(** The functions in the order of their packed ids. *)
Definition by_packed_id {A} (x y : RuntimeFunctionId * A) : Prop := rf_packed x.1 <= rf_packed y.1.
#[global] Instance by_packed_id_dec {A} : RelDecision (@by_packed_id A).
Proof. intros x y. unfold by_packed_id. apply _. Defined.
Definition sorted_functions {A} (m : gmap RuntimeFunctionId A) : list (RuntimeFunctionId * A) :=
  merge_sort by_packed_id (map_to_list m).
(** [Display] of [RuntimeFunctionId]. *)
Definition function_id_display (f : RuntimeFunctionId) : string :=
  decimal (high_id (rf_packed f)) +:+ ":" +:+ decimal (low_id (rf_packed f)).

Definition newline : string := String (Ascii.ascii_of_nat 10) EmptyString.

Definition render_constructor (kind self_name : string) (stores : list ConstructorFieldStore) : string :=
  kind +:+ " self=" +:+ self_name +:+ " fields=" +:+ render_field_stores stores +:+ newline.
Definition render_summary (entry : RuntimeFunctionId * FunctionEscapeSummary) : string :=
  let (function_id, summary) := entry in
  match non_escaping summary, straightline summary with
  | None, None => EmptyString
  | constructor, initializer =>
      function_id_display function_id +:+ ":" +:+ newline
      +:+ from_option (fun c =>
            render_constructor "  non_escaping_constructor" (con_self_name c) (con_field_stores c))
            EmptyString constructor
      +:+ from_option (fun c =>
            render_constructor "  straightline_field_initializer" (con_self_name c) (con_field_stores c))
            EmptyString initializer
  end.
Definition or_empty_note (note out : string) : string :=
  if bool_decide (out = EmptyString) then note +:+ newline else out.
Definition escape_fmt_pretty (m : EscapeSummaryModule) : string :=
  or_empty_note "; no constructor escape summaries"
    (String.concat EmptyString (map render_summary (sorted_functions m))).

Definition render_plan (entry : RuntimeFunctionId * FunctionInlinePlan) : string :=
  match fip_straightline_constructor entry.2 with
  | None => EmptyString
  | Some constructor =>
      render_constructor (function_id_display entry.1 +:+ ": straightline_constructor")
        (plan_self_name constructor) (plan_field_stores constructor)
  end.
Definition inline_fmt_pretty (m : InlinePlanModule) : string :=
  or_empty_note "; no inline candidates"
    (String.concat EmptyString (map render_plan (sorted_functions m))).
