(* ===== verification/EscapeProps.v ===== *)
(** * Inline plans of constructors are exact

    The scan of Escape.v against executions that record every attribute store: the field stores
    of a straight-line plan are the stores the constructor performs, in order, with the
    parameters standing for the arguments of the call. *)

From stdpp Require Import gmap.
From S2P Require Import Prelude Collections Text Ids Cfg Names Instr Layout Scope ModuleCheck.
From S2P Require Import ValueFacts FactInference PySemantics FactSoundness Escape.

(** ** Executions with their attribute stores *)

Section run.
Context {Value : Type} `{!PyRuntime Value}.
Notation Locals := (gmap LocalLocation Value).

(** Receiver, attribute name and value of one attribute store. *)
Definition AttrStore : Type := (Value * Value * Value)%type.
Definition attr_store (op : InstrOp) (vs : list Value) : list AttrStore :=
  match op, vs with Op_SetAttr, [o; a; r] => [(o, a, r)] | _, _ => [] end.

Inductive run : Locals -> InstrBlockPy -> Locals -> Value -> list AttrStore -> Prop :=
| R_Node σ σ1 σ2 id op children vs v events :
    run_all σ children σ1 vs events -> perform σ1 op vs σ2 v ->
    run σ (mkInstr id op children) σ2 v (events ++ attr_store op vs)
with run_all : Locals -> list InstrBlockPy -> Locals -> list Value -> list AttrStore -> Prop :=
| R_Nil σ : run_all σ [] σ [] []
| R_Cons σ σ1 σ2 i rest v vs events events' :
    run σ i σ1 v events -> run_all σ1 rest σ2 vs events' ->
    run_all σ (i :: rest) σ2 (v :: vs) (events ++ events').

(** Expressions that write no slot and store no attribute. *)
Definition quiet_op (op : InstrOp) : bool :=
  negb (writes_slot op) && match op with Op_SetAttr => false | _ => true end.
Definition quiet (i : InstrBlockPy) : bool := forallb (fun n => quiet_op (instr_op n)) (instrs_pre i).

Lemma quiet_node id op children :
  quiet (mkInstr id op children) = quiet_op op && forallb quiet children.
Proof.
  unfold quiet. cbn [instrs_pre forallb]. f_equal.
  induction children as [|c children IH]; [done|]. cbn. by rewrite forallb_app, IH.
Qed.

Lemma perform_quiet σ op vs σ' v :
  writes_slot op = false -> perform σ op vs σ' v -> σ' ⊆ σ.
Proof.
  intros Hw Hp. inversion Hp; subst; try done; try apply delete_subseteq.
Qed.

Lemma quiet_run_all children :
  Forall (fun i => forall σ σ' v ev, quiet i = true -> run σ i σ' v ev -> σ' ⊆ σ /\ ev = []) children ->
  forall σ σ' vs ev, forallb quiet children = true -> run_all σ children σ' vs ev -> σ' ⊆ σ /\ ev = [].
Proof.
  induction 1 as [|i children Hi _ IH]; intros σ σ' vs ev Hq Hr; inversion Hr; subst; [done|].
  cbn in Hq. apply andb_true_iff in Hq as [Hq1 Hq2].
  match goal with H : run _ _ _ _ _ |- _ => apply Hi in H as [? ->]; [|done] end.
  match goal with H : run_all _ _ _ _ _ |- _ => apply IH in H as [? ->]; [|done] end.
  split; [by etrans|done].
Qed.

Lemma quiet_run i σ σ' v ev : quiet i = true -> run σ i σ' v ev -> σ' ⊆ σ /\ ev = [].
Proof.
  revert σ σ' v ev. induction i as [id op children IH] using InstrBlockPy_tree_ind.
  intros σ σ' v ev Hq Hr. rewrite quiet_node in Hq. apply andb_true_iff in Hq as [Hop Hq].
  unfold quiet_op in Hop. apply andb_true_iff in Hop as [Hw Hop]. apply negb_true_iff in Hw.
  inversion Hr as [? σ1 ? ? ? ? vs ? events Hall Hp]; subst.
  destruct (quiet_run_all _ IH _ _ _ _ Hq Hall) as [Hsub ->].
  split; [etrans; [by eapply perform_quiet|done]|]. by destruct op.
Qed.

Lemma run_load σ i name σ' v ev :
  as_load i = Some name -> run σ i σ' v ev ->
  σ' = σ /\ ev = [] /\ (forall l, local_location name = Some l -> σ !! l = Some v)
  /\ (forall index, rn_location name = NL_Constant index -> v = constant index).
Proof.
  intros Hl Hr. destruct i as [id op children]. cbn in Hl. destruct op; try done. injection Hl as ->.
  inversion Hr as [? σ1 ? ? ? ? vs ? events Hall Hp]; subst.
  inversion Hp; subst; try done; inversion Hall; subst; (split_and!; [done|done|..]);
    unfold local_location, resolved_runtime_name_id in *; intros;
    repeat match goal with H : rn_location _ = _ |- _ => rewrite H in * end; cbn in *; simplify_eq; done.
Qed.
End run.

(** ** What a summary says of an execution *)

Section exact.
Context {Value : Type} `{!PyRuntime Value}.
Notation Locals := (gmap LocalLocation Value).
Context (module_constants : list ConstantExpr) (params : list Param) (self_name : string).
Context (body : list InstrBlockPy) (args : list Value) (σ0 : Locals).

(** The names the body loads. *)
Definition loaded (name : ResolvedName) : Prop :=
  exists i n, i ∈ body /\ n ∈ instrs_pre i /\ as_load n = Some name.
Lemma loaded_in name : loaded name -> name ∈ omap as_load (concat (map instrs_pre body)).
Proof.
  intros (i & n & Hi & Hn & E). apply list_elem_of_omap. exists n. split; [|done].
  apply list_elem_of_In, in_concat. exists (instrs_pre i).
  split; [by apply in_map, list_elem_of_In|by apply list_elem_of_In].
Qed.

(** Every load spelled like a parameter reads a local slot that starts with its argument. *)
Definition called : Prop :=
  forall name index, loaded name -> param_index params (id_str name) = Some index ->
    exists l, local_location name = Some l /\ σ0 !! l = args !! index.
(** No statement stores to a slot that [self] is loaded from. *)
Definition self_kept : Prop :=
  forall id name lifetime purpose children load l,
    mkInstr id (Op_Store name lifetime purpose) children ∈ body ->
    loaded load -> id_str load = self_name -> local_location load = Some l ->
    local_location name <> Some l.
(** Only statements store to slots or attributes. *)
Definition simple_body : Prop := forall i, i ∈ body -> forallb quiet (instr_children i) = true.

Definition alias_denotes (a : ValueAlias) (v : Value) : Prop :=
  match a with
  | VA_SelfObject => args !! 0%nat = Some v
  | VA_Param _ index _ => args !! index = Some v
  | VA_Local _ location => exists l, location = Some l /\ σ0 !! l = Some v
  | VA_Constant description =>
      exists name index, loaded name /\ id_str name = description
        /\ rn_location name = NL_Constant index /\ v = constant index
  end.
Definition value_denotes (value : ConstructorFieldValue) (v : Value) : Prop :=
  match value with
  | CFV_Param name index location => alias_denotes (VA_Param name index location) v
  | CFV_Local name location => alias_denotes (VA_Local name location) v
  | CFV_Constant description => alias_denotes (VA_Constant description) v
  | CFV_Other => True
  end.
(** The attribute store is the field store, on the constructed object. *)
Definition performs (store : ConstructorFieldStore) (event : AttrStore) : Prop :=
  let '(o, a, r) := event in
  args !! 0%nat = Some o
  /\ (exists index, a = constant index
        /\ module_constants !! Z.to_nat index = Some (Const_Literal (Lit_String (field_name store))))
  /\ value_denotes (field_store_value store) r.

(** The aliases describe the slots, and say nothing of the slots of [self]. *)
Record tracks (b : ConstructorBuilder) (σ : Locals) : Prop := mkTracks {
  tracks_alias l a v : cb_aliases b !! l = Some a -> σ !! l = Some v -> alias_denotes a v;
  tracks_initial l v : cb_aliases b !! l = None -> σ !! l = Some v -> σ0 !! l = Some v;
  tracks_self name l :
    loaded name -> id_str name = self_name -> local_location name = Some l -> cb_aliases b !! l = None
}.

Hypothesis self_first : param_index params self_name = Some 0%nat.
Hypothesis Hcalled : called.
Hypothesis Hself : self_kept.
Hypothesis Hsimple : simple_body.

Lemma tracks_mono b σ σ' : tracks b σ -> σ' ⊆ σ -> tracks b σ'.
Proof.
  intros [Ha Hi Hs] Hsub. split; [| |done]; intros; [eapply Ha|eapply Hi]; try done;
    by eapply lookup_weaken.
Qed.

Lemma tracks_aliases b b' σ : cb_aliases b' = cb_aliases b -> tracks b σ -> tracks b' σ.
Proof. intros E [Ha Hi Hs]. split; rewrite E; done. Qed.

Lemma readonly_denotes b σ i name a v σ' ev :
  tracks b σ -> as_load i = Some name -> loaded name -> value_alias_readonly params b i = Some a ->
  run σ i σ' v ev -> alias_denotes a v.
Proof.
  intros Ht Hi Hl Ha Hr. destruct (run_load _ _ _ _ _ _ Hi Hr) as (-> & -> & Hlocal & Hconst).
  unfold value_alias_readonly, alias_at in Ha. rewrite Hi in Ha. cbn in Ha.
  destruct (local_location name) as [l|] eqn:El; cbn in Ha.
  - specialize (Hlocal _ eq_refl). destruct (cb_aliases b !! l) as [a'|] eqn:Eb.
    { injection Ha as <-. by eapply tracks_alias. }
    assert (σ0 !! l = Some v) as H0 by (by eapply tracks_initial).
    destruct (param_index params (id_str name)) as [index|] eqn:Ep.
    + injection Ha as <-. destruct (Hcalled _ _ Hl Ep) as (l' & El' & E). simplify_eq. cbn. congruence.
    + unfold local_location in El. destruct (rn_location name); try done. cbn in El. simplify_eq. cbn. eauto.
  - destruct (param_index params (id_str name)) as [index|] eqn:Ep.
    { destruct (Hcalled _ _ Hl Ep) as (l' & El' & _). congruence. }
    destruct (rn_location name) eqn:En; try done; unfold local_location in El; rewrite En in El; [done|].
    injection Ha as <-. exists name, index. split_and!; [done|done|done|]. by apply Hconst.
Qed.

Lemma self_denotes b σ i name l v σ' ev :
  tracks b σ -> as_load i = Some name -> loaded name -> id_str name = self_name ->
  local_location name = Some l -> run σ i σ' v ev -> args !! 0%nat = Some v.
Proof.
  intros Ht Hi Hl Hn El Hr. destruct (run_load _ _ _ _ _ _ Hi Hr) as (-> & -> & Hlocal & _).
  specialize (Hlocal _ El). rewrite <- Hn in self_first.
  destruct (Hcalled _ _ Hl self_first) as (l' & El' & <-). simplify_eq.
  eapply tracks_initial; [exact Ht| |done]. by eapply tracks_self.
Qed.

(** An alias is only given to a load; it denotes the loaded object. *)
Lemma value_alias_denotes b σ i b' a v σ' ev :
  tracks b σ -> (forall name, as_load i = Some name -> loaded name) ->
  value_alias params self_name b i = (b', Some a) -> run σ i σ' v ev ->
  σ' = σ /\ ev = [] /\ alias_denotes a v /\ cb_aliases b' = cb_aliases b
  /\ cb_field_stores b' = cb_field_stores b /\ cb_rejected b' = cb_rejected b.
Proof.
  intros Ht Hl Ha Hr. unfold value_alias in Ha. destruct (as_load i) as [name|] eqn:Hi; [|done].
  destruct (run_load _ _ _ _ _ _ Hi Hr) as (-> & -> & _ & _). case_bool_decide as Hn.
  - destruct (rn_location name) as [l| | | | | |] eqn:En; try done.
    assert (local_location name = Some l) as El by (unfold local_location; by rewrite En).
    assert (args !! 0%nat = Some v) by (eapply self_denotes; eauto).
    destruct (cb_self_location b); [case_bool_decide; [|done]|]; by simplify_eq.
  - simplify_eq. split_and!; try done. by eapply readonly_denotes; eauto.
Qed.

Lemma tracks_store b b1 σ i id name lifetime purpose value l a v :
  tracks b σ -> cb_aliases b1 = cb_aliases b -> i = mkInstr id (Op_Store name lifetime purpose) [value] ->
  i ∈ body -> local_location name = Some l -> alias_denotes a v ->
  tracks (with_aliases b1 (<[l := a]> (cb_aliases b1))) (<[l := v]> σ).
Proof.
  intros [Ha Hi Hs] E -> Hin El Hd. split; cbn; rewrite E.
  - intros l' a' v'. destruct (decide (l' = l)) as [->|Hne].
    + rewrite !lookup_insert_eq. intros. by simplify_eq.
    + rewrite !lookup_insert_ne by done. apply Ha.
  - intros l' v'. destruct (decide (l' = l)) as [->|Hne].
    + by rewrite lookup_insert_eq.
    + rewrite !lookup_insert_ne by done. apply Hi.
  - intros load l' Hl Hn El'. rewrite lookup_insert_ne; [by eapply Hs|].
    intros <-. by eapply Hself.
Qed.

Lemma tracks_delete b σ l :
  tracks b σ -> tracks (with_aliases b (delete l (cb_aliases b))) (delete l σ).
Proof.
  intros [Ha Hi Hs]. split; cbn.
  - intros l' a v (Hne & H)%lookup_delete_Some (_ & H')%lookup_delete_Some. by eapply Ha.
  - intros l' v H (Hne & H')%lookup_delete_Some. rewrite lookup_delete_ne in H by done. by eapply Hi.
  - intros name l' Hl Hn El. apply lookup_delete_None. right. by eapply Hs.
Qed.

Lemma elem_of_child c id op children :
  c ∈ children -> c ∈ instrs_pre (mkInstr id op children).
Proof.
  intros Hc. cbn. right. apply list_elem_of_In, in_concat. exists (instrs_pre c). split.
  - by apply in_map, list_elem_of_In.
  - by destruct c; left.
Qed.

Lemma reject_some reason b : is_Some (cb_rejected (reject_constructor reason b)).
Proof. unfold reject_constructor. destruct (cb_rejected b) eqn:E; rewrite ?E; eauto. Qed.

(** Where the straight-line scan accepts a statement, its execution performs the field
    stores the scan adds. *)
Definition step_exact (b b' : ConstructorBuilder) (σ' : Locals) (ev : list AttrStore) : Prop :=
  exists new, cb_field_stores b' = cb_field_stores b ++ new /\ Forall2 performs new ev /\ tracks b' σ'.

Lemma step_exact_quiet b b' σ' :
  cb_field_stores b' = cb_field_stores b -> tracks b' σ' -> step_exact b b' σ' [].
Proof. intros E Ht. exists []. by rewrite app_nil_r. Qed.

Notation scan_instr := (scan_instr module_constants params self_name StraightlineFieldInitializer).

Lemma rejected_absurd (P : Prop) reason b : cb_rejected (reject_constructor reason b) = None -> P.
Proof. intros H. destruct (reject_some reason b) as [x Hx]. congruence. Qed.

Lemma reject_straightline_absurd (P : Prop) reason b :
  cb_rejected (reject_straightline StraightlineFieldInitializer reason b) = None -> P.
Proof. unfold reject_straightline. rewrite bool_decide_true by done. apply rejected_absurd. Qed.

Lemma scan_other_rejects (P : Prop) b i :
  cb_rejected (scan_other self_name StraightlineFieldInitializer b i) = None -> P.
Proof.
  unfold scan_other. repeat case_match; (apply rejected_absurd || apply reject_straightline_absurd).
Qed.

Lemma scan_store_exact b σ i id name lifetime purpose value σ' v ev :
  i = mkInstr id (Op_Store name lifetime purpose) [value] -> i ∈ body ->
  tracks b σ -> run σ i σ' v ev ->
  cb_rejected (scan_store params self_name StraightlineFieldInitializer b name value) = None ->
  step_exact b (scan_store params self_name StraightlineFieldInitializer b name value) σ' ev.
Proof.
  intros Ei Hin Ht Hr. subst i. unfold scan_store.
  destruct (local_location name) as [l|] eqn:El.
  2: { cbn zeta. case_match; [apply rejected_absurd|apply reject_straightline_absurd]. }
  destruct (value_alias params self_name b value) as [b1 [a|]] eqn:Ea.
  2: { cbn zeta. case_match; [apply rejected_absurd|apply reject_straightline_absurd]. }
  intros _. inversion Hr as [? σ1 ? ? ? ? vs ? events Hall Hp]; subst. cbn. rewrite app_nil_r.
  inversion Hp; subst; try done; [|congruence]. simplify_eq.
  inversion Hall as [|? ? ? ? ? w ? ev1 ? Hv Hnil]; subst. inversion Hnil; subst.
  assert (forall n, as_load value = Some n -> loaded n) as Hl.
  { intros n Hn. eexists _, value. split_and!; [exact Hin| |done]. apply elem_of_child. by left. }
  destruct (value_alias_denotes _ _ _ _ _ _ _ _ Ht Hl Ea Hv) as (-> & -> & Hd & E & Es & _).
  apply step_exact_quiet; [done|]. by eapply tracks_store.
Qed.

Lemma constant_string_run σ i field σ' v ev :
  constant_string module_constants i = Some field -> run σ i σ' v ev ->
  σ' = σ /\ ev = [] /\ exists index, v = constant index
    /\ module_constants !! Z.to_nat index = Some (Const_Literal (Lit_String field)).
Proof.
  unfold constant_string. intros Hs Hr. destruct (as_load i) as [name|] eqn:Hi; [|done]. cbn in Hs.
  destruct (as_constant (rn_location name)) as [index|] eqn:Ec; [|done]. cbn in Hs.
  destruct (run_load _ _ _ _ _ _ Hi Hr) as (-> & -> & _ & Hc). split_and!; [done..|].
  exists index. split; [apply Hc; by destruct (rn_location name); simplify_eq/=|].
  by repeat case_match; simplify_eq.
Qed.

Lemma field_value_denotes b σ i v σ' ev :
  tracks b σ -> (forall name, as_load i = Some name -> loaded name) -> run σ i σ' v ev ->
  value_denotes (field_value params b i) v.
Proof.
  intros Ht Hl Hr. unfold field_value. destruct (value_alias_readonly params b i) as [a|] eqn:Ea; [|done].
  destruct (as_load i) as [name|] eqn:Hi.
  - pose proof (readonly_denotes b σ i name a v σ' ev Ht Hi (Hl _ eq_refl) Ea Hr) as Hd.
    by destruct a; cbn.
  - unfold value_alias_readonly in Ea. by rewrite Hi in Ea.
Qed.

Lemma child_loaded i c name :
  i ∈ body -> c ∈ instr_children i -> as_load c = Some name -> loaded name.
Proof.
  intros Hi Hc Hn. exists i, c. split_and!; [done| |done]. destruct i. by apply elem_of_child.
Qed.

Lemma scan_setattr_exact b b1 σ i id value attr replacement σ' v ev :
  i = mkInstr id Op_SetAttr [value; attr; replacement] -> i ∈ body -> tracks b σ ->
  run σ i σ' v ev -> is_self_alias params self_name b value = (b1, true) ->
  cb_rejected (scan_setattr module_constants params self_name b1 attr replacement) = None ->
  step_exact b (scan_setattr module_constants params self_name b1 attr replacement) σ' ev.
Proof.
  intros -> Hin Ht Hr Hself'. unfold scan_setattr, is_self_alias in *.
  destruct (value_alias params self_name b value) as [b2 a] eqn:Ea. injection Hself' as <- Ha.
  apply bool_decide_eq_true in Ha as ->. case_match; [apply rejected_absurd|].
  destruct (constant_string module_constants attr) as [field|] eqn:Ef; [|apply rejected_absurd].
  intros _. pose proof (Hsimple _ Hin) as Hq. cbn in Hq.
  apply andb_true_iff in Hq as [_ [_ [Hq _]%andb_true_iff]%andb_true_iff].
  pose proof (fun c n => child_loaded _ c n Hin) as Hl. cbn [instr_children] in Hl.
  inversion Hr as [? σ1 ? ? ? ? vs ? events Hall Hp]; subst.
  inversion Hall as [|? σa ? ? ? o ? ev1 ? R1 Hall1]; subst.
  inversion Hall1 as [|? σb ? ? ? at' ? ev2 ? R2 Hall2]; subst.
  inversion Hall2 as [|? σc ? ? ? r ? ev3 ? R3 Hall3]; subst. inversion Hall3; subst.
  destruct (value_alias_denotes b σ value b2 VA_SelfObject o σa ev1 Ht) as (-> & -> & Ho & E & Es & _);
    [intros n Hn; apply (Hl value); [by left|done]|done|done|].
  destruct (constant_string_run _ _ _ _ _ _ Ef R2) as (-> & -> & Hattr).
  destruct (quiet_run _ _ _ _ _ Hq R3) as [Hsub ->].
  assert (tracks b2 σ) as Ht2 by (by eapply tracks_aliases).
  eexists [_]. cbn. rewrite Es. split_and!; [done| |].
  - constructor; [|constructor]. split_and!; [done|done|].
    eapply field_value_denotes; [exact Ht2| |exact R3].
    intros n Hn. apply (Hl replacement); [by right; right; left|done].
  - eapply (tracks_aliases b2); [done|]. eapply tracks_mono; [exact Ht2|].
    etrans; [|exact Hsub]. eapply perform_quiet; [|exact Hp]. done.
Qed.

Lemma scan_del_exact b σ id name quietly children σ' v ev :
  tracks b σ -> run σ (mkInstr id (Op_Del name quietly) children) σ' v ev ->
  cb_rejected (scan_del self_name b name) = None ->
  step_exact b (scan_del self_name b name) σ' ev.
Proof.
  intros Ht Hr. unfold scan_del. case_bool_decide; [apply rejected_absurd|]. intros _.
  inversion Hr as [? σ1 ? ? ? ? vs ? events Hall Hp]; subst. rewrite app_nil_r.
  inversion Hp as [| | | | | |? ? ? l El|? ? ? El| | | | | | | |]; subst; try done;
    inversion Hall; subst; rewrite El; apply step_exact_quiet; try done. by apply tracks_delete.
Qed.

Lemma scan_instr_exact b σ i σ' v ev :
  i ∈ body -> tracks b σ -> run σ i σ' v ev -> cb_rejected (scan_instr b i) = None ->
  step_exact b (scan_instr b i) σ' ev.
Proof.
  intros Hin Ht Hr. destruct i as [id op children]. unfold Escape.scan_instr.
  destruct op; try apply scan_other_rejects; cbn [instr_op instr_children].
  - destruct children as [|value [|attr [|replacement [|]]]]; try apply scan_other_rejects.
    destruct (is_self_alias params self_name b value) as [b1 [|]] eqn:E; [|apply scan_other_rejects].
    by eapply scan_setattr_exact.
  - destruct children as [|value [|]]; try apply scan_other_rejects. by eapply scan_store_exact.
  - by eapply scan_del_exact.
Qed.

Lemma scan_instrs_exact rest b σ σ' vs ev :
  rest ⊆ body -> tracks b σ -> run_all σ rest σ' vs ev ->
  cb_rejected (scan_instrs module_constants params self_name StraightlineFieldInitializer b rest) = None ->
  step_exact b (scan_instrs module_constants params self_name StraightlineFieldInitializer b rest) σ' ev.
Proof.
  revert b σ vs ev. induction rest as [|i rest IH]; intros b σ vs ev Hsub Ht Hr.
  { inversion Hr; subst. intros _. by apply step_exact_quiet. }
  inversion Hr as [|? σ1 ? ? ? ? ? ev1 ev2 R1 R2]; subst. cbn [scan_instrs].
  destruct (cb_rejected (scan_instr b i)) eqn:Erej; cbn [is_some]; [congruence|].
  intros Hnone. assert (i ∈ body) as Hin by (apply Hsub; by left).
  assert (rest ⊆ body) as Hsub' by (intros x Hx; apply Hsub; by right).
  destruct (scan_instr_exact _ _ _ _ _ _ Hin Ht R1 Erej) as (new1 & E1 & F1 & T1).
  destruct (IH _ _ _ _ Hsub' T1 R2 Hnone) as (new2 & E2 & F2 & T2).
  exists (new1 ++ new2). split_and!; [by rewrite E2, E1, app_assoc|by apply Forall2_app|done].
Qed.
End exact.

(** ** Plans *)

Lemma summarize_module_lookup m function_id summary :
  summarize_module_escapes m !! function_id = Some summary ->
  exists f, f ∈ bm_callable_defs m /\ fd_function_id f = function_id
    /\ summary = summarize_function (bm_module_constants m) f.
Proof.
  unfold summarize_module_escapes. generalize (bm_module_constants m) as consts. intros consts.
  assert (forall defs (acc : EscapeSummaryModule),
    fold_left (fun functions f => <[fd_function_id f := summarize_function consts f]> functions) defs acc
      !! function_id = Some summary ->
    acc !! function_id = Some summary \/ exists f, f ∈ defs /\ fd_function_id f = function_id
      /\ summary = summarize_function consts f) as Hfold.
  { induction defs as [|f defs IH]; intros acc H; [by left|].
    destruct (IH _ H) as [H'|(f' & ? & ? & ?)]; [|right; exists f'; split_and!; [by right|done|done]].
    apply lookup_insert_Some in H' as [[? <-]|[_ H']]; [|by left].
    right. exists f. split_and!; [by left|done|done]. }
  intros [H|H]%Hfold; [by apply (lookup_empty_Some function_id summary) in H|done].
Qed.

Lemma scan_function_straightline consts params self_name b blocks :
  cb_rejected (scan_function consts params self_name StraightlineFieldInitializer b blocks) = None ->
  exists block, blocks = [block]
    /\ scan_function consts params self_name StraightlineFieldInitializer b blocks
       = scan_block consts params self_name StraightlineFieldInitializer b block.
Proof.
  unfold scan_function. rewrite (bool_decide_true (StraightlineFieldInitializer = _)) by done.
  destruct blocks as [|block [|]]; cbn.
  - by intros H%(rejected_absurd False).
  - rewrite bool_decide_true by done. intros _. exists block. cbn. by destruct (is_some _).
  - rewrite bool_decide_false by done. by intros H%(rejected_absurd False).
Qed.

Lemma scan_block_straightline consts params self_name b block :
  let scanned := scan_block consts params self_name StraightlineFieldInitializer b block in
  cb_rejected scanned = None ->
  exists value, blk_term block = BT_Return value /\ is_runtime_none consts value = true
    /\ scanned = scan_instrs consts params self_name StraightlineFieldInitializer b (blk_body block).
Proof.
  unfold scan_block. cbn zeta. destruct (cb_rejected (scan_instrs _ _ _ _ _ _)) eqn:Er; cbn; [congruence|].
  destruct (blk_term block) as [| | | |value|]; try apply rejected_absurd.
  destruct (is_runtime_none consts value) eqn:En; [|apply rejected_absurd]. eauto.
Qed.

(** An accepted straight-line constructor is one block that returns [None]. *)
Lemma straightline_summary_inv consts f summary :
  summarize_straightline_field_initializer consts f = Some summary ->
  exists block value, fd_blocks f = [block] /\ blk_term block = BT_Return value
    /\ is_runtime_none consts value = true /\ param_index (fd_params f) "self" = Some 0%nat
    /\ con_field_stores summary <> []
    /\ let b := scan_instrs consts (fd_params f) "self" StraightlineFieldInitializer builder_new
                  (blk_body block) in
       cb_rejected b = None /\ cb_field_stores b = con_field_stores summary.
Proof.
  unfold summarize_straightline_field_initializer, summarize_constructor_with_mode,
    summarize_constructor_with_mode_result.
  destruct (ends_with _ _); [|done]. cbn.
  destruct (fd_params f) as [|p params]; [done|]. cbn. case_bool_decide as Hself; [|done]. cbn.
  rewrite Hself. unfold finish. destruct (cb_rejected _) eqn:Er; [done|]. intros Hs.
  pose proof (scan_function_straightline _ _ _ _ _ Er) as (block & Eb & E). rewrite E in *.
  pose proof (scan_block_straightline _ _ _ _ _ Er) as (value & Et & En & E'). rewrite E' in *.
  case_bool_decide; [done|]. cbn in Hs. simplify_eq. exists block, value.
  unfold param_index. cbn. rewrite decide_True by done. by split_and!.
Qed.

Lemma plan_lookup (m : EscapeSummaryModule) function_id :
  plan_module_inlining m !! function_id = m !! function_id ≫= plan_function.
Proof. exact (lookup_omap plan_function (m : gmap _ _) function_id). Qed.

(** C13: an inline plan is exact.  A plan for a constructor belongs to a function of the module
    with one block, which ends by returning [None]; and every execution of that block from the
    slots of a call performs exactly the planned field stores, in order, on the constructed
    object, each storing what the plan says: the argument of the parameter at the planned index,
    the initial value of the planned local, or a constant the body loads under the planned name.
    The statements store to slots and attributes only at the top, and none rebinds [self]. *)
Theorem inline_plan_exact {Value : Type} `{!PyRuntime Value} (m : BlockPyModule)
    (function_id : RuntimeFunctionId) (plan : StraightlineConstructorInlinePlan) :
  straightline_constructor (plan_module_inlining (summarize_module_escapes m)) function_id = Some plan ->
  plan_field_stores plan <> [] /\
  exists f block value,
    f ∈ bm_callable_defs m /\ fd_function_id f = function_id /\ fd_blocks f = [block]
    /\ blk_term block = BT_Return value /\ is_runtime_none (bm_module_constants m) value = true
    /\ forall (args : list Value) σ0 σ vs events,
         called (fd_params f) (blk_body block) args σ0 -> self_kept "self" (blk_body block) ->
         simple_body (blk_body block) -> run_all σ0 (blk_body block) σ vs events ->
         Forall2 (performs (bm_module_constants m) (blk_body block) args σ0)
           (plan_field_stores plan) events.
Proof.
  unfold straightline_constructor. rewrite plan_lookup. intros Hplan.
  destruct (summarize_module_escapes m !! function_id) as [summary|] eqn:Es; [|done].
  apply summarize_module_lookup in Es as (f & Hf & Hid & ->). cbn in Hplan.
  destruct (summarize_straightline_field_initializer (bm_module_constants m) f) as [con|] eqn:Ec; [|done].
  cbn in Hplan. simplify_eq. cbn.
  destruct (straightline_summary_inv _ _ _ Ec) as (block & value & Eb & Et & En & Hp & Hs & Hrej & Estores).
  split; [done|]. exists f, block, value. split_and!; try done.
  intros args σ0 σ vs events Hcalled Hself Hsimple Hrun.
  assert (tracks "self" (blk_body block) args σ0 builder_new σ0) as Ht.
  { split; [intros l a v; cbn; by rewrite lookup_empty|done|done]. }
  destruct (scan_instrs_exact _ _ _ _ _ _ Hp Hcalled Hself Hsimple _ _ _ _ _ _
    (fun x Hx => Hx) Ht Hrun Hrej) as (new & E & F & _).
  rewrite <- Estores, E. cbn. done.
Qed.

(** ** A constructor and its run *)

Module EscapeDemo.
(** Objects are numbers; only loads and stores happen. *)
#[export] Instance runtime : PyRuntime Z := {|
  exact_type_of _ := None; truth_of _ := None; immortal _ := True;
  singleton _ := 0; constant i := 100 + i; runtime_value _ := 0; helper_object _ _ := False;
  binop _ _ _ _ := False; unop _ _ _ := False; call _ _ _ _ _ := False |}%Z.

Definition slot (i : Z) (name : string) : ResolvedName :=
  mkResolvedName name (NL_Local (mkLocalLocation i)).
Definition const (i : Z) : ResolvedName := mkResolvedName "_dp_const" (NL_Constant i).
Definition global (name : string) : ResolvedName := mkResolvedName name NL_GlobalName.
Definition load (name : ResolvedName) : InstrBlockPy := mkInstr None (Op_Load name None) [].
Definition store (name : ResolvedName) (value : InstrBlockPy) : InstrBlockPy :=
  mkInstr None (Op_Store name SL_Frame SP_Binding) [value].
Definition set_attr (o a r : InstrBlockPy) : InstrBlockPy := mkInstr None Op_SetAttr [o; a; r].
Definition none : InstrBlockPy := load (mkResolvedName "NONE" (NL_RuntimeName RN_None)).
Definition block (index : Z) (body : list InstrBlockPy) (term : BlockTerm InstrBlockPy) :=
  mkBlock (mkBlockLabel index) body term [] None block_context_default.
Definition init (blocks : list (Block InstrBlockPy)) : FunctionDef :=
  mkFunctionDef (mkBlockPyFunction GLOBAL "Box.__init__" FK_Function blocks)
    [mkParam "self" PK_Any false; mkParam "x" PK_Any false] None None None None
    (scope_default SK_Function).
Definition module (blocks : list (Block InstrBlockPy)) : BlockPyModule :=
  mkBlockPyModule [] [init blocks] [Const_Literal (Lit_String "a"); Const_Literal (Lit_String "b")].

(** [y = x; self.a = y; self.b = "a"] *)
Definition body : list InstrBlockPy :=
  [store (slot 2 "y") (load (slot 1 "x"));
   set_attr (load (slot 0 "self")) (load (const 0)) (load (slot 2 "y"));
   set_attr (load (slot 0 "self")) (load (const 1)) (load (const 0))].
Definition plan : StraightlineConstructorInlinePlan :=
  mkInlinePlan "self" (Some (mkLocalLocation 0))
    [mkFieldStore "a" (CFV_Param "x" 1 (Some (mkLocalLocation 1)));
     mkFieldStore "b" (CFV_Constant "_dp_const")].
Definition entry (args : list Z) : gmap LocalLocation Z :=
  list_to_map (imap (fun i v => (mkLocalLocation (Z.of_nat i), v)) args).
End EscapeDemo.

Section demo_runs.
Import EscapeDemo.
Implicit Type σ : gmap LocalLocation Z.

Lemma run_slot σ i name v :
  σ !! mkLocalLocation i = Some v -> run σ (load (slot i name)) σ v [].
Proof. intros H. apply (R_Node _ σ _ None (Op_Load (slot i name) None) [] [] v []); [constructor|]. by eapply P_LoadLocal. Qed.
Lemma run_const σ i : run σ (load (const i)) σ (100 + i)%Z [].
Proof.
  apply (R_Node _ σ _ None (Op_Load (const i) None) [] [] _ []); [constructor|]. exact (P_LoadConstant σ (const i) None i eq_refl).
Qed.
Lemma run_store σ σ1 i name value v ev :
  run σ value σ1 v ev -> run σ (store (slot i name) value) (<[mkLocalLocation i := v]> σ1) 0%Z ev.
Proof.
  intros H. rewrite <- (app_nil_r ev). rewrite <- (app_nil_r ev).
  apply (R_Node _ σ1 _ None (Op_Store (slot i name) SL_Frame SP_Binding) [value] [v] 0%Z (ev ++ [])); [econstructor; [exact H|constructor]|]. by apply P_StoreLocal.
Qed.
Lemma run_set_attr σ o a r vo va vr :
  run σ o σ vo [] -> run σ a σ va [] -> run σ r σ vr [] ->
  run σ (set_attr o a r) σ 0%Z [(vo, va, vr)].
Proof.
  intros Ho Ha Hr. apply (R_Node _ σ _ None Op_SetAttr [o; a; r] [vo; va; vr] _ []).
  - apply (R_Cons _ _ _ _ _ _ _ [] [] Ho), (R_Cons _ _ _ _ _ _ _ [] [] Ha), (R_Cons _ _ _ _ _ _ _ [] [] Hr).
    constructor.
  - by apply P_Pure.
Qed.
End demo_runs.

#[local] Existing Instance EscapeDemo.runtime.

(** One goal for each element of a list that is given in full. *)
Ltac each_elem H :=
  first [ apply not_elem_of_nil in H; destruct H
        | apply elem_of_cons in H as [H|H]; [try subst|each_elem H] ].

Lemma inline_plan_exact_witness :
  straightline_constructor (plan_module_inlining (summarize_module_escapes
    (EscapeDemo.module [EscapeDemo.block 0 EscapeDemo.body (BT_Return EscapeDemo.none)]))) GLOBAL
  = Some EscapeDemo.plan
  /\ exists consts,
    Forall2 (performs consts EscapeDemo.body [7; 8]%Z (EscapeDemo.entry [7; 8]%Z))
      (plan_field_stores EscapeDemo.plan) [(7, 100, 8); (7, 101, 100)]%Z.
Proof.
  assert (straightline_constructor (plan_module_inlining (summarize_module_escapes
    (EscapeDemo.module [EscapeDemo.block 0 EscapeDemo.body (BT_Return EscapeDemo.none)]))) GLOBAL
    = Some EscapeDemo.plan) as Hplan by (by vm_compute).
  split; [exact Hplan|].
  destruct (inline_plan_exact (Value := Z) _ _ _ Hplan) as (_ & f & block & value & Hf & _ & Hb & _ & _ & H).
  apply list_elem_of_singleton in Hf as ->. injection Hb as <-. eexists. eapply H; clear H.
  - intros name index Hl%loaded_in. cbn in Hl.
    each_elem Hl; vm_compute; intros E; first [discriminate E|injection E as <-; by eexists].
  - intros id name lifetime purpose children load l Hin Hl%loaded_in. cbn in Hl.
    unfold EscapeDemo.body in Hin. each_elem Hin; [|discriminate Hin..]. injection Hin as -> -> -> -> ->.
    each_elem Hl; vm_compute; intros E1 E2; congruence.
  - intros i Hi. unfold EscapeDemo.body in Hi. by each_elem Hi.
  - eapply (R_Cons _ _ _ _ _ _ _ [] _); [by eapply run_store, run_slot|].
    eapply (R_Cons _ _ _ _ _ _ _ [_] _); [eapply run_set_attr; [by apply run_slot|apply run_const|by apply run_slot]|].
    eapply (R_Cons _ _ _ _ _ _ _ [_] []); [eapply run_set_attr; [by apply run_slot|apply run_const..]|].
    constructor.
Defined.

(** ** What the scan misses *)

(** [self = x; self.a = "b"] is planned as a store on the constructed object, but stores on the
    argument: the hypothesis that [self] is not rebound is needed. *)
Example rebound_self_planned :
  let body := [EscapeDemo.store (EscapeDemo.slot 0 "self") (EscapeDemo.load (EscapeDemo.slot 1 "x"));
               EscapeDemo.set_attr (EscapeDemo.load (EscapeDemo.slot 0 "self"))
                 (EscapeDemo.load (EscapeDemo.const 0)) (EscapeDemo.load (EscapeDemo.const 1))] in
  straightline_constructor (plan_module_inlining (summarize_module_escapes
    (EscapeDemo.module [EscapeDemo.block 0 body (BT_Return EscapeDemo.none)]))) GLOBAL
  = Some (mkInlinePlan "self" (Some (mkLocalLocation 0)) [mkFieldStore "a" (CFV_Constant "_dp_const")])
  /\ exists σ vs, run_all (EscapeDemo.entry [7; 8]%Z) body σ vs [(8, 100, 101)]%Z.
Proof.
  cbn zeta. split; [by vm_compute|]. eexists _, _.
  eapply (R_Cons _ _ _ _ _ _ _ [] _); [by eapply run_store, run_slot|].
  eapply (R_Cons _ _ _ _ _ _ _ [_] []); [eapply run_set_attr; [by apply run_slot|apply run_const..]|].
  constructor.
Qed.

Definition leak (argument : InstrBlockPy) : InstrBlockPy :=
  mkInstr None (Op_Call [CA_Positional] [] None) [EscapeDemo.load (EscapeDemo.global "leak"); argument].
Definition set_field : InstrBlockPy :=
  EscapeDemo.set_attr (EscapeDemo.load (EscapeDemo.slot 0 "self")) (EscapeDemo.load (EscapeDemo.const 0))
    (EscapeDemo.load (EscapeDemo.slot 1 "x")).

(** [y = self; if x: y = "a"] followed by [leak(y); self.a = x] is summarised as not letting
    [self] escape: the aliases are those of the last block scanned, not of the paths. *)
Example branch_alias_missed :
  is_Some (non_escaping_constructor (summarize_module_escapes (EscapeDemo.module
    [EscapeDemo.block 0 [EscapeDemo.store (EscapeDemo.slot 2 "y") (EscapeDemo.load (EscapeDemo.slot 0 "self"))]
       (BT_If (mkTermIf (EscapeDemo.load (EscapeDemo.slot 1 "x")) (mkBlockLabel 1) (mkBlockLabel 2)));
     EscapeDemo.block 1 [EscapeDemo.store (EscapeDemo.slot 2 "y") (EscapeDemo.load (EscapeDemo.const 0))]
       (BT_Jump (mkBlockEdge (mkBlockLabel 2) []));
     EscapeDemo.block 2 [leak (EscapeDemo.load (EscapeDemo.slot 2 "y")); set_field]
       (BT_Return EscapeDemo.none)])) GLOBAL).
Proof. vm_compute. by eexists. Qed.

(** [self] taken out of an operand slot is passed on unnoticed: only loads count as uses. *)
Example taken_self_missed :
  is_Some (non_escaping_constructor (summarize_module_escapes (EscapeDemo.module
    [EscapeDemo.block 0
       [EscapeDemo.store (EscapeDemo.slot 2 "_dp_tmp") (EscapeDemo.load (EscapeDemo.slot 0 "self"));
        leak (mkInstr None (Op_TakeOperand (EscapeDemo.slot 2 "_dp_tmp")) []); set_field]
       (BT_Return EscapeDemo.none)])) GLOBAL).
Proof. vm_compute. by eexists. Qed.
