(* ===== verification/Region.v ===== *)
(** * Extraction of regions

    crates/soac_opt/src/region_v3.rs: the expression of a store, a return or a branch as a list
    of numbered values in evaluation order. *)

From stdpp Require Import gmap.
From S2P Require Import Prelude Ids Cfg Names Instr.

Local Open Scope Z_scope.

(** [u32] additions that wrap in a release build. *)
Definition wrap32 (n : Z) : Z := n mod 2 ^ 32.

Record RegionId : Type := mkRegionId { region_number : Z }.
Record ExtractedValueId : Type := mkExtractedValueId { value_number : Z }.

#[global] Instance RegionId_eq_dec : EqDecision RegionId.
Proof. solve_decision. Defined.
#[global] Instance ExtractedValueId_eq_dec : EqDecision ExtractedValueId.
Proof. solve_decision. Defined.
#[global] Program Instance ExtractedValueId_countable : Countable ExtractedValueId :=
  inj_countable' value_number mkExtractedValueId _.
Next Obligation. by intros []. Qed.

Inductive ExtractedValueKind : Type :=
| EV_LoadName (name : ResolvedName) (cell_binding : option CellLoadBinding)
| EV_Binary (op : BinOpKind) (left right : ExtractedValueId)
| EV_GetAttr (value attr : ExtractedValueId)
| EV_Truthiness (value : ExtractedValueId).
Record ExtractedValue : Type := mkExtractedValue {
  ev_id : ExtractedValueId; ev_source : option InstrId; ev_kind : ExtractedValueKind }.
Record ExtractedStoreContext : Type := mkExtractedStoreContext {
  es_target : ResolvedName; es_continuation : option BlockLabel }.
Inductive ExtractedExit : Type :=
| EE_Branch (source : option InstrId) (condition : ExtractedValueId) (then_label else_label : BlockLabel)
| EE_Return (source : option InstrId) (value : ExtractedValueId).
Record ExtractedRegion : Type := mkExtractedRegion {
  er_id : RegionId;
  er_block : BlockLabel;
  er_block_body_len : nat;
  er_store : option ExtractedStoreContext;
  er_values : list ExtractedValue;
  er_exit : ExtractedExit
}.

Inductive RegionExtractionError : Type :=
| BlockHasBody (block : BlockLabel) (len : nat)
| BlockHasExceptionEdge (block : BlockLabel)
| UnsupportedTerm (block : BlockLabel) (term : string)
| UnsupportedInstr (source : option InstrId) (kind : string).
Record RegionExtractionAttempt : Type := mkAttempt {
  ra_block : BlockLabel; ra_result : result RegionExtractionError ExtractedRegion }.

Definition instr_codegen_kind (instr : InstrBlockPy) : string :=
  match instr_op instr with
  | Op_BinOp _ => "BinOp"
  | Op_UnaryOp _ => "UnaryOp"
  | Op_Tuple => "Tuple"
  | Op_Call _ _ _ => "Call"
  | Op_GetAttr => "GetAttr"
  | Op_SetAttr => "SetAttr"
  | Op_GetItem => "GetItem"
  | Op_SetItem => "SetItem"
  | Op_DelItem => "DelItem"
  | Op_Load _ _ => "Load"
  | Op_Store _ _ _ => "Store"
  | Op_Del _ _ => "Del"
  | Op_TakeOperand _ => "TakeOperand"
  | Op_ComprehensionInsert _ _ => "ComprehensionInsert"
  | Op_BuildCollection _ => "BuildCollection"
  | Op_CallArgumentOp _ _ _ => "CallArgumentOp"
  | Op_PreparedCall _ _ => "PreparedCall"
  | Op_IteratorStep _ => "IteratorStep"
  | Op_MakeCell => "MakeCell"
  | Op_NewAnnotationSet => "NewAnnotationSet"
  | Op_SetupAnnotations => "SetupAnnotations"
  | Op_ConstructTypeParameterScope => "ConstructTypeParameterScope"
  | Op_SubscriptGeneric => "SubscriptGeneric"
  | Op_SetFunctionTypeParameters => "SetFunctionTypeParameters"
  | Op_CreateTypeAlias => "CreateTypeAlias"
  | Op_CreateTypeParameter => "CreateTypeParameter"
  | Op_SetTypeParameterDefault => "SetTypeParameterDefault"
  | Op_CheckAnnotationFormat => "CheckAnnotationFormat"
  | Op_RecordAnnotation _ => "RecordAnnotation"
  | Op_IncrementCounter => "IncrementCounter"
  | Op_CellRef _ => "CellRef"
  | Op_MakeFunctionWithClosure _ _ => "MakeFunctionWithClosure"
  | Op_ConstructClass => "ConstructClass"
  | Op_PrepareClassDecorator => "PrepareClassDecorator"
  | Op_ApplyClassDecorator => "ApplyClassDecorator"
  | Op_DiscardClassDecorator => "DiscardClassDecorator"
  | Op_DiscardClassConstructionCaptures => "DiscardClassConstructionCaptures"
  | Op_CompleteFunctionDefinition => "CompleteFunctionDefinition"
  | Op_ApplyFunctionDescriptor => "ApplyFunctionDescriptor"
  end.
Definition unsupported_instr_error (instr : InstrBlockPy) : RegionExtractionError :=
  UnsupportedInstr (try_semantic_instr_id instr) (instr_codegen_kind instr).

(** ** The builder *)

Record RegionBuilder : Type := mkRegionBuilder { rb_next_value : Z; rb_values : list ExtractedValue }.
Definition region_builder_new : RegionBuilder := mkRegionBuilder 0 [].
Definition builder_push (b : RegionBuilder) (source : option InstrId) (kind : ExtractedValueKind) :
    RegionBuilder * ExtractedValueId :=
  let value := mkExtractedValueId (rb_next_value b) in
  (mkRegionBuilder (wrap32 (rb_next_value b + 1)) (rb_values b ++ [mkExtractedValue value source kind]), value).
Definition linearize_load (b : RegionBuilder) (name : ResolvedName) (cell_binding : option CellLoadBinding)
    (source : option InstrId) : RegionBuilder * ExtractedValueId :=
  builder_push b source (EV_LoadName name cell_binding).
(** Every other operation is refused under its own name. *)
Fixpoint linearize_instr (b : RegionBuilder) (instr : InstrBlockPy) :
    result RegionExtractionError (RegionBuilder * ExtractedValueId) :=
  let source := try_semantic_instr_id instr in
  match instr with
  | mkInstr _ (Op_Load name cell_binding) [] => Ok (linearize_load b name cell_binding source)
  | mkInstr _ (Op_BinOp kind) [lhs; rhs] =>
      let? (b, lhs) := linearize_instr b lhs in
      let? (b, rhs) := linearize_instr b rhs in
      Ok (builder_push b source (EV_Binary kind lhs rhs))
  | mkInstr _ (Op_UnaryOp Truth) [operand] =>
      let? (b, value) := linearize_instr b operand in
      Ok (builder_push b source (EV_Truthiness value))
  | mkInstr _ Op_GetAttr [value; attr] =>
      let? (b, value) := linearize_instr b value in
      let? (b, attr) := linearize_instr b attr in
      Ok (builder_push b source (EV_GetAttr value attr))
  | _ => Err (unsupported_instr_error instr)
  end.
Definition extract_if_term (b : RegionBuilder) (term : TermIf InstrBlockPy) :
    result RegionExtractionError (RegionBuilder * ExtractedExit) :=
  let? (b, test) := linearize_instr b (ti_test term) in
  let '(b, condition) := builder_push b (try_semantic_instr_id (ti_test term)) (EV_Truthiness test) in
  Ok (b, EE_Branch (try_semantic_instr_id (ti_test term)) condition (ti_then_label term) (ti_else_label term)).
Definition value_source (values : list ExtractedValue) (value : ExtractedValueId) : option InstrId :=
  match List.find (fun entry => bool_decide (ev_id entry = value)) values with
  | Some entry => ev_source entry
  | None => None
  end.

(** ** Regions *)

Definition block_jump_continuation (block : Block InstrBlockPy) : option BlockLabel :=
  match blk_term block with
  | BT_Jump edge => if bool_decide (be_args edge = []) then Some (be_target edge) else None
  | _ => None
  end.
Definition extract_block_body_instr_region_v3 (block : Block InstrBlockPy) (instr : InstrBlockPy) (id : RegionId) :
    result RegionExtractionError ExtractedRegion :=
  if bool_decide (is_Some (blk_exc_edge block)) then Err (BlockHasExceptionEdge (blk_label block))
  else
    match instr with
    | mkInstr _ (Op_Store name _ _) [value] =>
        let? (b, value) := linearize_instr region_builder_new value in
        Ok (mkExtractedRegion id (blk_label block) (length (blk_body block))
              (Some (mkExtractedStoreContext name (block_jump_continuation block))) (rb_values b)
              (EE_Return (value_source (rb_values b) value) value))
    | _ => Err (unsupported_instr_error instr)
    end.
Definition extract_block_term_region_v3 (block : Block InstrBlockPy) (id : RegionId) :
    result RegionExtractionError ExtractedRegion :=
  if bool_decide (is_Some (blk_exc_edge block)) then Err (BlockHasExceptionEdge (blk_label block))
  else
    let? (b, exit) :=
      match blk_term block with
      | BT_If term => extract_if_term region_builder_new term
      | BT_Return value =>
          let? (b, value) := linearize_instr region_builder_new value in
          Ok (b, EE_Return (value_source (rb_values b) value) value)
      | BT_Jump _ => Err (UnsupportedTerm (blk_label block) "Jump")
      | BT_BranchTable _ => Err (UnsupportedTerm (blk_label block) "BranchTable")
      | BT_Raise _ => Err (UnsupportedTerm (blk_label block) "Raise")
      | BT_GeneratorReturn _ => Err (UnsupportedTerm (blk_label block) "GeneratorReturn")
      end in
    Ok (mkExtractedRegion id (blk_label block) (length (blk_body block)) None (rb_values b) exit).
Definition extract_block_region_v3 (block : Block InstrBlockPy) (id : RegionId) :
    result RegionExtractionError ExtractedRegion :=
  if bool_decide (blk_body block <> []) then Err (BlockHasBody (blk_label block) (length (blk_body block)))
  else if bool_decide (is_Some (blk_exc_edge block)) then Err (BlockHasExceptionEdge (blk_label block))
  else extract_block_term_region_v3 block id.

(** The new counter and the id it gives. *)
Definition next_primary_region_id (next : Z) : Z * RegionId := (wrap32 (next + 2), mkRegionId next).
Fixpoint extract_body_regions (block : Block InstrBlockPy) (next : Z) (body : list InstrBlockPy) :
    Z * list RegionExtractionAttempt :=
  match body with
  | [] => (next, [])
  | instr :: body =>
      let '(next, id) := next_primary_region_id next in
      let '(next', attempts) := extract_body_regions block next body in
      (next', mkAttempt (blk_label block) (extract_block_body_instr_region_v3 block instr id) :: attempts)
  end.
Fixpoint extract_blocks_regions (next : Z) (blocks : list (Block InstrBlockPy)) : list RegionExtractionAttempt :=
  match blocks with
  | [] => []
  | block :: blocks =>
      let '(next, attempts) := extract_body_regions block next (blk_body block) in
      let '(next, id) := next_primary_region_id next in
      attempts ++ mkAttempt (blk_label block) (extract_block_term_region_v3 block id)
        :: extract_blocks_regions next blocks
  end.
Definition extract_function_regions_v3 (function : BlockPyFunction InstrBlockPy) : list RegionExtractionAttempt :=
  extract_blocks_regions 0 (bf_blocks function).
