(* ===== verification/RegionProps.v ===== *)
(** * What extracted regions compute

    The specification: instructions that evaluate their children in order and then perform
    their operation, which may change the world or raise; and the values of a region, one
    after the other.  Then: a region does what the code it was extracted from does. *)

From stdpp Require Import gmap.
From S2P Require Import Prelude Ids Cfg Names Instr Region.

Local Open Scope Z_scope.

(** ** Executions *)

(** What one operation does on the values of its children: the new world and a result, or an
    exception. *)
Class Operations (World Value : Type) : Type := {
  performs : World -> InstrOp -> list Value -> World -> result Value Value -> Prop;
  holds : Value -> bool
}.

Section executions.
Context {World Value : Type} `{!Operations World Value}.
Implicit Types w : World.

Inductive ev : World -> InstrBlockPy -> World -> result Value Value -> Prop :=
| Ev_Node w id op children w1 vs w2 o :
    evs w children w1 (Ok vs) -> performs w1 op vs w2 o -> ev w (mkInstr id op children) w2 o
| Ev_Child w id op children w1 e : evs w children w1 (Err e) -> ev w (mkInstr id op children) w1 (Err e)
with evs : World -> list InstrBlockPy -> World -> result Value (list Value) -> Prop :=
| Evs_Nil w : evs w [] w (Ok [])
| Evs_Cons w i l w1 v w2 vs : ev w i w1 (Ok v) -> evs w1 l w2 (Ok vs) -> evs w (i :: l) w2 (Ok (v :: vs))
| Evs_Head w i l w1 e : ev w i w1 (Err e) -> evs w (i :: l) w1 (Err e)
| Evs_Tail w i l w1 v w2 e : ev w i w1 (Ok v) -> evs w1 l w2 (Err e) -> evs w (i :: l) w2 (Err e).

Inductive Exit : Type := Goes (label : BlockLabel) | Returns (v : Value) | Raises (e : Value).

(** A branch asks for the truth of its test, which may raise. *)
Inductive term_ev : World -> BlockTerm InstrBlockPy -> World -> Exit -> Prop :=
| Term_Return w i w' v : ev w i w' (Ok v) -> term_ev w (BT_Return i) w' (Returns v)
| Term_ReturnRaises w i w' e : ev w i w' (Err e) -> term_ev w (BT_Return i) w' (Raises e)
| Term_If w t w1 v w2 r :
    ev w (ti_test t) w1 (Ok v) -> performs w1 (Op_UnaryOp Truth) [v] w2 (Ok r) ->
    term_ev w (BT_If t) w2 (Goes (if holds r then ti_then_label t else ti_else_label t))
| Term_TruthRaises w t w1 v w2 e :
    ev w (ti_test t) w1 (Ok v) -> performs w1 (Op_UnaryOp Truth) [v] w2 (Err e) -> term_ev w (BT_If t) w2 (Raises e)
| Term_TestRaises w t w1 e : ev w (ti_test t) w1 (Err e) -> term_ev w (BT_If t) w1 (Raises e).

(** *** Regions *)

Notation Env := (gmap ExtractedValueId Value).
Implicit Types env : Env.

Definition kind_op (kind : ExtractedValueKind) : InstrOp * list ExtractedValueId :=
  match kind with
  | EV_LoadName name cell_binding => (Op_Load name cell_binding, [])
  | EV_Binary op l r => (Op_BinOp op, [l; r])
  | EV_GetAttr value attr => (Op_GetAttr, [value; attr])
  | EV_Truthiness value => (Op_UnaryOp Truth, [value])
  end.
Inductive values_ev : World -> Env -> list ExtractedValue -> World -> result Value Env -> Prop :=
| Values_Nil w env : values_ev w env [] w (Ok env)
| Values_Step w env x l vs w1 v w2 o :
    mapM (env !!.) (kind_op (ev_kind x)).2 = Some vs -> performs w (kind_op (ev_kind x)).1 vs w1 (Ok v) ->
    values_ev w1 (<[ev_id x := v]> env) l w2 o -> values_ev w env (x :: l) w2 o
| Values_Raise w env x l vs w1 e :
    mapM (env !!.) (kind_op (ev_kind x)).2 = Some vs -> performs w (kind_op (ev_kind x)).1 vs w1 (Err e) ->
    values_ev w env (x :: l) w1 (Err e).
Inductive region_ev : World -> ExtractedRegion -> World -> Exit -> Prop :=
| Region_Return w r w' env source value v :
    values_ev w ∅ (er_values r) w' (Ok env) -> er_exit r = EE_Return source value -> env !! value = Some v ->
    region_ev w r w' (Returns v)
| Region_Branch w r w' env source condition t e v :
    values_ev w ∅ (er_values r) w' (Ok env) -> er_exit r = EE_Branch source condition t e -> env !! condition = Some v ->
    region_ev w r w' (Goes (if holds v then t else e))
| Region_Raise w r w' e : values_ev w ∅ (er_values r) w' (Err e) -> region_ev w r w' (Raises e).

Lemma values_app w env l1 l2 w' o :
  values_ev w env (l1 ++ l2) w' o <->
  (exists w1 env1, values_ev w env l1 w1 (Ok env1) /\ values_ev w1 env1 l2 w' o)
  \/ exists e, o = Err e /\ values_ev w env l1 w' (Err e).
Proof.
  revert w env. induction l1 as [|x l1 IH]; intros w env; cbn.
  { split; [intros H; left; exists w, env; split; [constructor|done]|].
    intros [(w1 & env1 & H1 & H2)|(e & _ & H)]; [by inversion H1; subst|inversion H]. }
  split.
  - intros H. inversion H as [|? ? ? ? vs w1 v ? ? Hm Hp Hr|? ? ? ? vs w1 e Hm Hp]; subst.
    + apply IH in Hr as [(w2 & env2 & H1 & H2)|(e & -> & H1)]; [left|right].
      * exists w2, env2. split; [by eapply Values_Step|done].
      * exists e. split; [done|by eapply Values_Step].
    + right. exists e. split; [done|by eapply Values_Raise].
  - intros [(w1 & env1 & H1 & H2)|(e & -> & H1)]; inversion H1; subst.
    + eapply Values_Step; [done..|]. apply IH. left. eauto.
    + eapply Values_Step; [done..|]. apply IH. right. eauto.
    + by eapply Values_Raise.
Qed.
Lemma values_other w env l w' env' k :
  values_ev w env l w' (Ok env') -> (forall x, x ∈ l -> ev_id x <> k) -> env' !! k = env !! k.
Proof.
  intros H. remember (Ok env') as o eqn:Eo. induction H as [w env|w env x l vs w1 v w2 o Hm Hp Hr IH|]; intros Hk; [by injection Eo as ->| |done].
  rewrite IH; [|done|intros y Hy; apply Hk; by right]. apply lookup_insert_ne, Hk. by left.
Qed.
End executions.

(** ** Linearised expressions *)

(** The operations a region may hold. *)
Definition extractable (i : InstrBlockPy) : bool :=
  match i with
  | mkInstr _ (Op_Load _ _) [] | mkInstr _ (Op_BinOp _) [_; _] | mkInstr _ (Op_UnaryOp Truth) [_]
  | mkInstr _ Op_GetAttr [_; _] => true
  | _ => false
  end.
Definition instr_size (i : InstrBlockPy) : Z := Z.of_nat (length (instrs_pre i)).
Definition instrs_size (l : list InstrBlockPy) : Z := Z.of_nat (length (concat (map instrs_pre l))).

Inductive linearized : RegionBuilder -> list InstrBlockPy -> RegionBuilder -> list ExtractedValueId -> Prop :=
| Lin_Nil b : linearized b [] b []
| Lin_Cons b i l b1 id b2 ids :
    linearize_instr b i = Ok (b1, id) -> linearized b1 l b2 ids -> linearized b (i :: l) b2 (id :: ids).

(** Children in order, then the operation of the instruction. *)
Lemma linearize_inv b id op children b' v :
  linearize_instr b (mkInstr id op children) = Ok (b', v) ->
  exists b1 ids kind, linearized b children b1 ids /\ kind_op kind = (op, ids) /\ builder_push b1 id kind = (b', v).
Proof.
  intros H. destruct op as [kind|[]| | | | | | | |name cell| | | | | | | | | | | | | | | | | | | | | | | | | | | | |]; try done.
  - destruct children as [|l [|r [|]]]; try done. cbn in H.
    destruct (linearize_instr b l) as [[b1 v1]|] eqn:E1; [|done]. cbn in H.
    destruct (linearize_instr b1 r) as [[b2 v2]|] eqn:E2; [|done]. cbn in H. injection H as H1 H2.
    exists b2, [v1; v2], (EV_Binary kind v1 v2). split; [repeat econstructor; eassumption|]. by rewrite <- H1, <- H2.
  - destruct children as [|l [|]]; try done. cbn in H.
    destruct (linearize_instr b l) as [[b1 v1]|] eqn:E1; [|done]. cbn in H. injection H as H1 H2.
    exists b1, [v1], (EV_Truthiness v1). split; [repeat econstructor; eassumption|]. by rewrite <- H1, <- H2.
  - destruct children as [|l [|r [|]]]; try done. cbn in H.
    destruct (linearize_instr b l) as [[b1 v1]|] eqn:E1; [|done]. cbn in H.
    destruct (linearize_instr b1 r) as [[b2 v2]|] eqn:E2; [|done]. cbn in H. injection H as H1 H2.
    exists b2, [v1; v2], (EV_GetAttr v1 v2). split; [repeat econstructor; eassumption|]. by rewrite <- H1, <- H2.
  - destruct children; try done. cbn in H. injection H as H1 H2.
    exists b, [], (EV_LoadName name cell). split; [constructor|]. by rewrite <- H1, <- H2.
Qed.

(** New values are numbered upwards. *)
Record built (b b' : RegionBuilder) (new : list ExtractedValue) : Prop := mkBuilt {
  built_values : rb_values b' = rb_values b ++ new;
  built_next : rb_next_value b' = rb_next_value b + Z.of_nat (length new);
  built_ids i x : new !! i = Some x -> ev_id x = mkExtractedValueId (rb_next_value b + Z.of_nat i)
}.
Lemma built_nil b : built b b [].
Proof. split; [by rewrite app_nil_r|cbn; lia|done]. Qed.
Lemma built_app b1 b2 b3 l1 l2 : built b1 b2 l1 -> built b2 b3 l2 -> built b1 b3 (l1 ++ l2).
Proof.
  intros [E1 N1 I1] [E2 N2 I2]. split; [by rewrite E2, E1, app_assoc|rewrite N2, N1, length_app; lia|].
  intros i x Hx. destruct (decide (i < length l1)%nat) as [Hi|Hi].
  - apply I1. by rewrite lookup_app_l in Hx by done.
  - rewrite lookup_app_r in Hx by lia. rewrite (I2 _ _ Hx), N1. f_equal. lia.
Qed.
Lemma built_push b source kind b' v :
  builder_push b source kind = (b', v) -> 0 <= rb_next_value b < 2 ^ 32 - 1 ->
  built b b' [mkExtractedValue v source kind] /\ v = mkExtractedValueId (rb_next_value b).
Proof.
  unfold builder_push, wrap32. intros [= <- <-] Hb. split; [|done]. split; cbn; [done|rewrite Z.mod_small; lia|].
  intros [|i] x Hx; [|done]. injection Hx as <-. cbn. f_equal. lia.
Qed.
Lemma built_below b b' new x k : built b b' new -> x ∈ new -> value_number k < rb_next_value b -> ev_id x <> k.
Proof. intros [_ _ I] Hx Hk <-. apply list_elem_of_lookup in Hx as [i Hi]. rewrite (I _ _ Hi) in Hk. cbn in Hk. lia. Qed.

Section exact.
Context {World Value : Type} `{!Operations World Value}.
Notation Env := (gmap ExtractedValueId Value).

(** The new values compute the instruction, whatever the older values are. *)
Record computes (b b' : RegionBuilder) (new : list ExtractedValue) (id : ExtractedValueId) (i : InstrBlockPy) : Prop := mkComputes {
  comp_built : built b b' new;
  comp_size : Z.of_nat (length new) = instr_size i;
  comp_id : rb_next_value b <= value_number id < rb_next_value b';
  comp_defined (w : World) (env : Env) w' env' : values_ev w env new w' (Ok env') -> is_Some (env' !! id);
  comp_ok (w : World) (env : Env) w' v :
    ev w i w' (Ok v) <-> exists env', values_ev w env new w' (Ok env') /\ env' !! id = Some v;
  comp_err (w : World) (env : Env) w' e : ev w i w' (Err e) <-> values_ev w env new w' (Err e)
}.
Record computes_all (b b' : RegionBuilder) (new : list ExtractedValue) (ids : list ExtractedValueId)
    (l : list InstrBlockPy) : Prop := mkComputesAll {
  all_built : built b b' new;
  all_size : Z.of_nat (length new) = instrs_size l;
  all_ok (w : World) (env : Env) w' vs :
    evs w l w' (Ok vs) <-> exists env', values_ev w env new w' (Ok env') /\ mapM (env' !!.) ids = Some vs;
  all_err (w : World) (env : Env) w' e : evs w l w' (Err e) <-> values_ev w env new w' (Err e)
}.
Lemma computes_cons b b1 b2 new1 new2 id ids i l :
  computes b b1 new1 id i -> computes_all b1 b2 new2 ids l -> computes_all b b2 (new1 ++ new2) (id :: ids) (i :: l).
Proof.
  intros [B1 S1 I1 D1 O1 E1] [B2 S2 O2 E2]. split.
  - by eapply built_app.
  - rewrite length_app. unfold instrs_size, instr_size in *. cbn. rewrite length_app. lia.
  - assert (forall w1 (env1 : Env) w' env', values_ev w1 env1 new2 w' (Ok env') -> env' !! id = env1 !! id) as Hkeep.
    { intros w1 env1 w' env' H. eapply values_other; [done|]. intros x Hx. eapply built_below; [exact B2|done|lia]. }
    intros w env w' vs. split.
    + intros H. inversion H as [|? ? ? w1 v ? vs' Hi Hl| |]; subst. apply (O1 w env) in Hi as (env1 & H1 & Hv).
      apply (O2 w1 env1) in Hl as (env2 & H2 & Hvs). exists env2. split; [apply values_app; left; eauto|].
      cbn. rewrite (Hkeep _ _ _ _ H2), Hv. cbn. by rewrite Hvs.
    + intros (env2 & H & Hvs). apply values_app in H as [(w1 & env1 & H1 & H2)|(e & [=] & _)].
      cbn in Hvs. rewrite (Hkeep _ _ _ _ H2) in Hvs. destruct (env1 !! id) as [v|] eqn:Ev; [|done]. cbn in Hvs.
      destruct (mapM (env2 !!.) ids) as [vs'|] eqn:Evs; [|done]. injection Hvs as <-.
      eapply Evs_Cons; [apply (O1 w env); eauto|apply (O2 w1 env1); eauto].
  - intros w env w' e. split.
    + intros H. apply values_app. inversion H as [| |? ? ? ? ? Hi|? ? ? w1 v ? ? Hi Hl]; subst.
      * right. exists e. split; [done|by apply E1].
      * apply (O1 w env) in Hi as (env1 & H1 & _). left. exists w1, env1. split; [done|by apply E2].
    + intros H. apply values_app in H as [(w1 & env1 & H1 & H2)|(? & [= <-] & H1)]; [|apply Evs_Head; by apply (E1 w env)].
      destruct (D1 _ _ _ _ H1) as [v Hv]. eapply Evs_Tail; [apply (O1 w env); eauto|by apply (E2 w1 env1)].
Qed.
Lemma computes_node b b1 b2 new ids kind id op children v :
  computes_all b b1 new ids children -> kind_op kind = (op, ids) -> builder_push b1 id kind = (b2, v) ->
  0 <= rb_next_value b -> rb_next_value b + instr_size (mkInstr id op children) < 2 ^ 32 ->
  computes b b2 (new ++ [mkExtractedValue v id kind]) v (mkInstr id op children).
Proof.
  intros [B S O E] Hk Hp H0 Hs. assert (instr_size (mkInstr id op children) = 1 + instrs_size children) as Hsize.
  { unfold instr_size, instrs_size. cbn. lia. }
  pose proof (built_next _ _ _ B) as Hn. apply built_push in Hp as [Bp ->]; [|lia].
  set (x := mkExtractedValue _ id kind) in *.
  assert (forall (w : World) (env : Env) w' o, values_ev w env [x] w' o <-> exists vs r, mapM (env !!.) ids = Some vs
    /\ performs w op vs w' r /\ o = match r with Ok v => Ok (<[ev_id x := v]> env) | Err e => Err e end) as Hone.
  { intros w env w' o. split.
    - intros H. inversion H as [|? ? ? ? vs w1 v ? ? Hm Hpf Hr|? ? ? ? vs w1 e Hm Hpf]; subst; cbn in Hm, Hpf; rewrite Hk in Hm, Hpf.
      + inversion Hr; subst. exists vs, (Ok v). done.
      + exists vs, (Err e). done.
    - intros (vs & [v|e] & Hm & Hpf & ->).
      + eapply (Values_Step w env x); [by cbn; rewrite Hk|by cbn; rewrite Hk|constructor].
      + eapply (Values_Raise w env x); by cbn; rewrite Hk. }
  split.
  - by eapply built_app.
  - rewrite length_app, Hsize. cbn. lia.
  - rewrite (built_next _ _ _ Bp). cbn. lia.
  - intros w env w' env' H. apply values_app in H as [(w1 & env1 & _ & H2)|(e & [=] & _)].
    apply Hone in H2 as (vs & [r|r] & _ & _ & [= ->]). cbn. rewrite lookup_insert_eq. by eexists.
  - intros w env w' r. split.
    + intros H. inversion H as [? ? ? ? w1 vs ? ? Hc Hpf|]; subst. apply (O w env) in Hc as (env1 & H1 & Hm).
      exists (<[ev_id x := r]> env1). split; [|by cbn; rewrite lookup_insert_eq].
      apply values_app. left. exists w1, env1. split; [done|]. apply Hone. by exists vs, (Ok r).
    + intros (env' & H & Hr). apply values_app in H as [(w1 & env1 & H1 & H2)|(e & [=] & _)].
      apply Hone in H2 as (vs & [r'|r'] & Hm & Hpf & [= ->]). cbn in Hr. rewrite lookup_insert_eq in Hr. injection Hr as ->.
      eapply Ev_Node; [apply (O w env); eauto|done].
  - intros w env w' e. split.
    + intros H. apply values_app. inversion H as [? ? ? ? w1 vs ? ? Hc Hpf|? ? ? ? ? ? Hc]; subst.
      * apply (O w env) in Hc as (env1 & H1 & Hm). left. exists w1, env1. split; [done|]. apply Hone. by exists vs, (Err e).
      * right. exists e. split; [done|by apply E].
    + intros H. apply values_app in H as [(w1 & env1 & H1 & H2)|(? & [= <-] & H1)]; [|apply Ev_Child; by apply (E w env)].
      apply Hone in H2 as (vs & [r|r] & Hm & Hpf & [= ->]). eapply Ev_Node; [apply (O w env); eauto|done].
Qed.
Lemma computes_none b : computes_all b b [] [] [].
Proof.
  split; [apply built_nil|done| |].
  - intros w env w' vs. split.
    + intros H. inversion H; subst. exists env. split; [constructor|done].
    + intros (env' & H & Hvs). inversion H; subst. injection Hvs as <-. constructor.
  - intros w env w' e. split; intros H; inversion H.
Qed.
Lemma linearize_computes i b b' id :
  linearize_instr b i = Ok (b', id) -> 0 <= rb_next_value b -> rb_next_value b + instr_size i < 2 ^ 32 ->
  exists new, computes b b' new id i.
Proof.
  revert b b' id. induction i as [iid op children IH] using InstrBlockPy_tree_ind. intros b b' id H H0 Hs.
  apply linearize_inv in H as (b1 & ids & kind & Hl & Hk & Hp).
  assert (instr_size (mkInstr iid op children) = 1 + instrs_size children) as Hsize by (unfold instr_size, instrs_size; cbn; lia).
  enough (exists new, computes_all b b1 new ids children) as [new Hc] by (eexists; by eapply computes_node).
  clear Hk Hp kind. assert (rb_next_value b + instrs_size children < 2 ^ 32) as Hs' by lia. clear Hs Hsize.
  induction Hl as [b|b i l b1 v b2 ids Hi Hl IHl]; [exists []; apply computes_none|].
  apply Forall_cons in IH as [IHi IH]. assert (instrs_size (i :: l) = instr_size i + instrs_size l) as Hsz.
  { unfold instrs_size, instr_size. cbn. rewrite length_app. lia. }
  assert (0 <= instrs_size l) by (unfold instrs_size; lia).
  destruct (IHi _ _ _ Hi H0) as [new1 C1]; [lia|]. pose proof (built_next _ _ _ (comp_built _ _ _ _ _ C1)) as Hn.
  pose proof (comp_size _ _ _ _ _ C1). destruct (IHl IH) as [new2 C2]; [lia|lia|]. exists (new1 ++ new2). by eapply computes_cons.
Qed.
End exact.

Lemma linearize_ok i b : is_ok (linearize_instr b i) = forallb extractable (instrs_pre i).
Proof.
  revert b. induction i as [id op children IH] using InstrBlockPy_tree_ind. intros b.
  destruct op as [kind|[]| | | | | | | |name cell| | | | | | | | | | | | | | | | | | | | | | | | | | | | |]; try done;
    destruct children as [|l [|r [|]]]; try done; repeat (apply Forall_cons in IH as [? IH]); cbn [linearize_instr instrs_pre forallb extractable map concat];
    rewrite ?forallb_app, ?app_nil_r; cbn [andb].
  all: repeat match goal with
    | H : forall b, is_ok (linearize_instr b ?i) = _ |- context [linearize_instr ?b ?i] =>
        rewrite <- (H b); destruct (linearize_instr b i) as [[? ?]|]; cbn [rbind is_ok andb]; clear H; try done
    end.
Qed.

(** ** The regions of a function *)

(** What the attempts are made for: the stores of each block and its terminator. *)
Definition sources (f : BlockPyFunction InstrBlockPy) : list (Block InstrBlockPy * option InstrBlockPy) :=
  concat (map (fun b => map (fun i => (b, Some i)) (blk_body b) ++ [(b, None)]) (bf_blocks f)).
Definition stored_value (i : InstrBlockPy) : option (ResolvedName * InstrBlockPy) :=
  match i with mkInstr _ (Op_Store name _ _) [value] => Some (name, value) | _ => None end.
(** The expression a region is made of. *)
Definition source_expression (b : Block InstrBlockPy) (instr : option InstrBlockPy) : option InstrBlockPy :=
  match instr with
  | Some i => snd <$> stored_value i
  | None => match blk_term b with BT_If t => Some (ti_test t) | BT_Return i => Some i | _ => None end
  end.
Definition source_store (b : Block InstrBlockPy) (instr : option InstrBlockPy) : option ExtractedStoreContext :=
  '(name, _) ← instr ≫= stored_value; Some (mkExtractedStoreContext name (block_jump_continuation b)).

Section source.
Context {World Value : Type} `{!Operations World Value}.
(** The store itself is left to the code around the region. *)
Definition source_ev (w : World) (b : Block InstrBlockPy) (instr : option InstrBlockPy) (w' : World) (exit : Exit) : Prop :=
  match instr with
  | None => term_ev w (blk_term b) w' exit
  | Some i => exists value, snd <$> stored_value i = Some value /\ term_ev w (BT_Return value) w' exit
  end.
End source.

Definition extract (b : Block InstrBlockPy) (instr : option InstrBlockPy) (id : RegionId) :
    result RegionExtractionError ExtractedRegion :=
  match instr with
  | Some i => extract_block_body_instr_region_v3 b i id
  | None => extract_block_term_region_v3 b id
  end.
Definition attempt (k : nat) (source : Block InstrBlockPy * option InstrBlockPy) : RegionExtractionAttempt :=
  mkAttempt (blk_label source.1) (extract source.1 source.2 (mkRegionId (wrap32 (2 * Z.of_nat k)))).

Lemma wrap32_add a n : wrap32 (wrap32 a + n) = wrap32 (a + n).
Proof. unfold wrap32. by rewrite Zplus_mod_idemp_l. Qed.
Lemma extract_body_attempts b k body :
  extract_body_regions b (wrap32 (2 * Z.of_nat k)) body
  = (wrap32 (2 * Z.of_nat (k + length body)), imap (fun j i => attempt (k + j) (b, Some i)) body).
Proof.
  revert k. induction body as [|i body IH]; intros k; cbn [extract_body_regions next_primary_region_id length imap].
  { by rewrite Nat.add_0_r. }
  rewrite wrap32_add. replace (2 * Z.of_nat k + 2) with (2 * Z.of_nat (S k)) by lia. rewrite IH.
  f_equal; [do 3 f_equal; lia|]. f_equal; [by rewrite Nat.add_0_r|]. apply imap_ext. intros j x _. cbn. f_equal. lia.
Qed.
Lemma extract_blocks_attempts k bs :
  extract_blocks_regions (wrap32 (2 * Z.of_nat k)) bs
  = imap (fun j s => attempt (k + j) s) (concat (map (fun b => map (fun i => (b, Some i)) (blk_body b) ++ [(b, None)]) bs)).
Proof.
  revert k. induction bs as [|b bs IH]; intros k; [done|]. cbn [extract_blocks_regions map concat]. rewrite extract_body_attempts.
  cbn [next_primary_region_id]. rewrite wrap32_add. replace (2 * Z.of_nat (k + length (blk_body b)) + 2)
    with (2 * Z.of_nat (S (k + length (blk_body b)))) by lia. rewrite IH, <- app_assoc, imap_app, imap_fmap. f_equal.
  rewrite length_map. cbn [app imap]. f_equal; [unfold attempt; cbn; by rewrite Nat.add_0_r|].
  apply imap_ext. intros j s _. cbn. f_equal. lia.
Qed.
Lemma function_attempts f : extract_function_regions_v3 f = imap attempt (sources f).
Proof.
  unfold extract_function_regions_v3. change 0 with (wrap32 (2 * Z.of_nat 0)). rewrite extract_blocks_attempts. done.
Qed.

Section region.
Context {World Value : Type} `{!Operations World Value}.
Context (b : RegionBuilder) (new : list ExtractedValue) (id : ExtractedValueId) (i : InstrBlockPy).
Hypothesis computed : computes (World := World) (Value := Value) region_builder_new b new id i.

Lemma return_region r source (w w' : World) (exit : Exit (Value := Value)) :
  er_values r = new -> er_exit r = EE_Return source id -> region_ev w r w' exit <-> term_ev w (BT_Return i) w' exit.
Proof.
  intros Ev Ee. split.
  - intros H. inversion H as [? ? ? env s x v Hv Hx Hl|? ? ? env s c t e v Hv Hx|? ? ? e Hv]; subst; [|congruence|].
    + rewrite Ee in Hx. injection Hx as <- <-. apply Term_Return. apply (comp_ok _ _ _ _ _ computed w ∅). eauto.
    + apply Term_ReturnRaises. by apply (comp_err _ _ _ _ _ computed w ∅).
  - intros H. inversion H as [? ? ? v Hv|? ? ? e Hv| | |]; subst.
    + apply (comp_ok _ _ _ _ _ computed w ∅) in Hv as (env & Hv & Hl). by eapply Region_Return.
    + apply Region_Raise. by apply (comp_err _ _ _ _ _ computed w ∅).
Qed.
Lemma branch_region r source t e (w w' : World) (exit : Exit (Value := Value)) :
  er_values r = new -> er_exit r = EE_Branch source id t e ->
  region_ev w r w' exit <->
  (exists v, ev w i w' (Ok v) /\ exit = Goes (if holds v then t else e)) \/ exists x, ev w i w' (Err x) /\ exit = Raises x.
Proof.
  intros Ev Ee. split.
  - intros H. inversion H as [? ? ? env s x v Hv Hx|? ? ? env s c t' e' v Hv Hx Hl|? ? ? x Hv]; subst; [congruence| |].
    + rewrite Ee in Hx. injection Hx as <- <- <- <-. left. exists v. split; [|done]. apply (comp_ok _ _ _ _ _ computed w ∅). eauto.
    + right. exists x. split; [|done]. by apply (comp_err _ _ _ _ _ computed w ∅).
  - intros [(v & Hv & ->)|(x & Hv & ->)].
    + apply (comp_ok _ _ _ _ _ computed w ∅) in Hv as (env & Hv & Hl). rewrite <- Ev in Hv. by eapply Region_Branch.
    + apply Region_Raise. rewrite Ev. by apply (comp_err _ _ _ _ _ computed w ∅).
Qed.
End region.

(** A branch is the truth of its test. *)
Lemma branch_truth {World Value} `{!Operations World Value} id t (w w' : World) (exit : Exit (Value := Value)) :
  term_ev w (BT_If t) w' exit <->
  let truth := mkInstr id (Op_UnaryOp Truth) [ti_test t] in
  (exists v, ev w truth w' (Ok v) /\ exit = Goes (if holds v then ti_then_label t else ti_else_label t))
  \/ exists x, ev w truth w' (Err x) /\ exit = Raises x.
Proof.
  cbn. split.
  - intros H. inversion H as [| |? ? w1 v ? r Ht Hp|? ? w1 v ? e Ht Hp|? ? ? e Ht]; subst; [left|right|right]; eexists; (split; [|done]).
    + eapply Ev_Node; [eapply Evs_Cons; [exact Ht|constructor]|done].
    + eapply Ev_Node; [eapply Evs_Cons; [exact Ht|constructor]|done].
    + apply Ev_Child. by apply Evs_Head.
  - intros [(v & H & ->)|(x & H & ->)]; inversion H as [? ? ? ? w1 vs ? ? Hc Hp|? ? ? ? ? ? Hc]; subst.
    + inversion Hc as [|? ? ? w2 u ? us Hi Hn| |]; subst. inversion Hn; subst. by eapply Term_If.
    + inversion Hc as [|? ? ? w2 u ? us Hi Hn| |]; subst. inversion Hn; subst. by eapply Term_TruthRaises.
    + inversion Hc as [| |? ? ? ? ? Hi|? ? ? ? ? ? ? Hi Hn]; subst; [by apply Term_TestRaises|inversion Hn].
Qed.

(** What a region says of the code it stands for. *)
Record stands_for (k : nat) (b : Block InstrBlockPy) (instr : option InstrBlockPy) (r : ExtractedRegion) : Prop := mkStandsFor {
  sf_id : er_id r = mkRegionId (2 * Z.of_nat k);
  sf_block : er_block r = blk_label b;
  sf_store : er_store r = source_store b instr;
  sf_numbered i x : er_values r !! i = Some x -> ev_id x = mkExtractedValueId (Z.of_nat i);
  sf_exact {World Value} (O : Operations World Value) (w w' : World) (exit : Exit (Value := Value)) :
    region_ev w r w' exit <-> source_ev w b instr w' exit
}.

Lemma unit_operations : Operations unit unit.
Proof. exact {| performs := fun _ _ _ _ _ => False; holds := fun _ => true |}. Defined.
Lemma numbered_values b new :
  built region_builder_new b new -> forall i x, rb_values b !! i = Some x -> ev_id x = mkExtractedValueId (Z.of_nat i).
Proof. intros [-> _ I] i x Hx. rewrite (I _ _ Hx). done. Qed.

Lemma extract_stands k b instr r i :
  extract b instr (mkRegionId (2 * Z.of_nat k)) = Ok r -> source_expression b instr = Some i -> instr_size i + 1 < 2 ^ 32 ->
  stands_for k b instr r.
Proof.
  intros H Hs Hsize. destruct instr as [instr|]; cbn in H, Hs.
  - unfold extract_block_body_instr_region_v3 in H. case_bool_decide; [done|].
    destruct instr as [iid op children]. destruct op; try done. destruct children as [|value [|]]; try done. injection Hs as <-.
    destruct (linearize_instr region_builder_new value) as [[b1 id]|] eqn:El; [|done]. cbn in H. injection H as <-.
    assert (forall World Value (O : Operations World Value), exists new, computes (World := World) (Value := Value) region_builder_new b1 new id value) as Hc.
    { intros World Value O. eapply linearize_computes; [exact El|cbn; lia|cbn; lia]. }
    split; cbn; [done|done|done| |].
    + destruct (Hc unit unit unit_operations) as [new C]. eapply numbered_values, C.
    + intros World Value O w w' exit. destruct (Hc World Value O) as [new C]. rewrite return_region; [|exact C|exact (built_values _ _ _ (comp_built _ _ _ _ _ C))|done].
      split; [intros Ht; eexists; split; [done|exact Ht]|by intros (? & [= <-] & Ht)].
  - unfold extract_block_term_region_v3 in H. case_bool_decide; [done|]. destruct (blk_term b) as [|t| | |value|] eqn:Et; try done; injection Hs as <-.
    + unfold extract_if_term in H. destruct (linearize_instr region_builder_new (ti_test t)) as [[b1 id]|] eqn:El; [|done]. cbn [rbind] in H.
      destruct (builder_push b1 _ _) as [b2 cond] eqn:Ep. cbn in H. injection H as <-.
      set (truth := mkInstr (try_semantic_instr_id (ti_test t)) (Op_UnaryOp Truth) [ti_test t]).
      assert (forall World Value (O : Operations World Value), exists new, computes (World := World) (Value := Value) region_builder_new b2 new cond truth) as Hc.
      { intros World Value O. destruct (linearize_computes (World := World) (Value := Value) _ _ _ _ El) as [new C]; [cbn; lia|cbn; lia|]. eexists.
        eapply computes_node; [eapply computes_cons; [exact C|apply computes_none]| |exact Ep|cbn; lia|]; [done|].
        unfold instr_size in *. cbn [instrs_pre length map concat]. rewrite app_nil_r. cbn [rb_next_value region_builder_new]. lia. }
      split; cbn; [done|done|done| |].
      * destruct (Hc unit unit unit_operations) as [new C]. eapply numbered_values, C.
      * intros World Value O w w' exit. destruct (Hc World Value O) as [new C]. rewrite Et, (branch_truth (try_semantic_instr_id (ti_test t))).
        by apply branch_region with b2 new cond (try_semantic_instr_id (ti_test t)); [|exact (built_values _ _ _ (comp_built _ _ _ _ _ C))|].
    + destruct (linearize_instr region_builder_new value) as [[b1 id]|] eqn:El; [|done]. cbn in H. injection H as <-.
      assert (forall World Value (O : Operations World Value), exists new, computes (World := World) (Value := Value) region_builder_new b1 new id value) as Hc.
      { intros World Value O. eapply linearize_computes; [exact El|cbn; lia|cbn; lia]. }
      split; cbn; [done|done|done| |].
      * destruct (Hc unit unit unit_operations) as [new C]. eapply numbered_values, C.
      * intros World Value O w w' exit. destruct (Hc World Value O) as [new C]. rewrite Et.
        rewrite return_region; [done|exact C|exact (built_values _ _ _ (comp_built _ _ _ _ _ C))|done].
Qed.

(** Which code is extracted: without an exception edge, and only loads, binary operators,
    attributes and truth tests. *)
Definition can_extract (b : Block InstrBlockPy) (instr : option InstrBlockPy) : bool :=
  negb (bool_decide (is_Some (blk_exc_edge b)))
  && match source_expression b instr with Some i => forallb extractable (instrs_pre i) | None => false end.
Lemma extract_ok b instr id : is_ok (extract b instr id) = can_extract b instr.
Proof.
  unfold can_extract. destruct instr as [[iid op children]|]; cbn [extract source_expression].
  - unfold extract_block_body_instr_region_v3. case_bool_decide; [done|]. cbn [negb andb].
    destruct op; try done. destruct children as [|value [|]]; try done. cbn. rewrite <- (linearize_ok value region_builder_new).
    by destruct (linearize_instr region_builder_new value) as [[? ?]|].
  - unfold extract_block_term_region_v3. case_bool_decide; [done|]. cbn [negb andb].
    destruct (blk_term b) as [|t| | |value|]; try done; rewrite <- (linearize_ok _ region_builder_new).
    + unfold extract_if_term. by destruct (linearize_instr region_builder_new (ti_test t)) as [[? ?]|].
    + by destruct (linearize_instr region_builder_new value) as [[? ?]|].
Qed.

(** Every number fits in 32 bits. *)
Definition small (f : BlockPyFunction InstrBlockPy) : Prop :=
  2 * Z.of_nat (length (sources f)) < 2 ^ 32
  /\ forall b instr i, (b, instr) ∈ sources f -> source_expression b instr = Some i -> instr_size i + 1 < 2 ^ 32.

(** C14: The regions of a function are its stores and terminators in order: an attempt is made
    for each of them, it succeeds exactly when there is no exception edge and the expression
    has only loads, binary operators, attributes and truth tests, and the region then has the
    number of the attempt doubled, the target of the store, values numbered from 0, and the
    same executions as the code it stands for: the same operations on the same values in the
    same order, the same result, branch or exception. *)
Theorem extracted_regions_exact f :
  small f -> length (extract_function_regions_v3 f) = length (sources f)
  /\ forall k b instr, sources f !! k = Some (b, instr) ->
     exists a, extract_function_regions_v3 f !! k = Some a /\ ra_block a = blk_label b
       /\ is_ok (ra_result a) = can_extract b instr /\ forall r, ra_result a = Ok r -> stands_for k b instr r.
Proof.
  intros [Hn Hs]. rewrite function_attempts. split; [by rewrite length_imap|]. intros k b instr Hk.
  exists (attempt k (b, instr)). rewrite list_lookup_imap, Hk. split_and!; [done|done|apply extract_ok|].
  intros r Hr. cbn in Hr. pose proof (lookup_lt_Some _ _ _ Hk) as Hlt. unfold wrap32 in Hr. rewrite Z.mod_small in Hr by lia.
  assert (can_extract b instr = true) as Hc by (by rewrite <- (extract_ok b instr (mkRegionId (2 * Z.of_nat k))), Hr).
  unfold can_extract in Hc. apply andb_true_iff in Hc as [_ Hc]. destruct (source_expression b instr) as [i|] eqn:E; [|done].
  eapply extract_stands; [exact Hr|exact E|]. eapply Hs; [|exact E]. by eapply list_elem_of_lookup_2.
Qed.

(** ** An example: [t = a.x + b; if t > 0: ...] *)

Module DemoRegion.
Definition local (name : string) (slot : Z) (id : Z) : InstrBlockPy :=
  mkInstr (Some (mkInstrId id)) (Op_Load (mkResolvedName name (NL_Local (mkLocalLocation slot))) None) [].
Definition constant (slot : Z) (id : Z) : InstrBlockPy :=
  mkInstr (Some (mkInstrId id)) (Op_Load (mkResolvedName "c" (NL_Constant slot)) None) [].
Definition store : InstrBlockPy :=
  mkInstr (Some (mkInstrId 5)) (Op_Store (mkResolvedName "t" (NL_Local (mkLocalLocation 2))) SL_Frame SP_Binding)
    [mkInstr (Some (mkInstrId 4)) (Op_BinOp Add)
       [mkInstr (Some (mkInstrId 2)) Op_GetAttr [local "a" 0 0; constant 1 1]; local "b" 1 3]].
Definition block : Block InstrBlockPy :=
  mkBlock (mkBlockLabel 0) [store]
    (BT_If (mkTermIf (mkInstr (Some (mkInstrId 8)) (Op_BinOp Gt) [local "t" 2 6; constant 0 7]) (mkBlockLabel 1) (mkBlockLabel 2)))
    [] None block_context_default.
Definition demo : BlockPyFunction InstrBlockPy :=
  mkBlockPyFunction (mkRuntimeFunctionId 0) "f" FK_Function [block].
Lemma demo_small : small demo.
Proof.
  split; [vm_compute; reflexivity|]. intros b instr i Hb He.
  cbn in Hb. repeat (apply elem_of_cons in Hb as [[= -> ->]|Hb]); [..|by apply not_elem_of_nil in Hb];
    cbn in He; injection He as <-; vm_compute; reflexivity.
Qed.
End DemoRegion.

Lemma extracted_regions_exact_witness :
  exists store_region branch_region,
    map ra_result (extract_function_regions_v3 DemoRegion.demo) = [Ok store_region; Ok branch_region]
    /\ length (er_values store_region) = 5%nat /\ stands_for 1 DemoRegion.block None branch_region.
Proof.
  destruct (extracted_regions_exact DemoRegion.demo DemoRegion.demo_small) as [_ H].
  destruct (H 1%nat DemoRegion.block None eq_refl) as (a & Ha & _ & _ & Hr).
  vm_compute in Ha. injection Ha as <-. eexists _, _. split; [vm_compute; reflexivity|]. split; [reflexivity|].
  apply Hr. reflexivity.
Defined.
