(* ===== verification/Specialize.v ===== *)
(** * Plans for single instructions

    crates/soac_ir_typed/src/plan_v3.rs (the plans of direct calls, item, field and global
    accesses) and the part of crates/soac_opt/src/planner_v3.rs that makes them from requests:
    sorted, each access once. *)

From stdpp Require Import gmap.
From S2P Require Import Prelude Order Collections Ids Cfg Names Instr.

Local Open Scope Z_scope.

(** ** Plans *)

Record Cost : Type := mkCost {
  cost_hot_path : Z; cost_miss_path : Z; cost_deopt : Z; cost_materialization : Z; cost_ownership : Z;
  cost_code_size : Z; cost_compile : Z }.
Inductive CallBodyKind : Type := CBK_DirectCall | CBK_Inline.
Inductive DirectCallCallee : Type :=
| DC_Function
| DC_Method (method_name : string)
| DC_RuntimeProtocolMethod (runtime_name : RuntimeName) (method_name : string).
Inductive DirectCallArgSource : Type := DA_Provided (index : Z) | DA_PackedRest (start : Z) | DA_DefaultSentinel.
Record CallBodyPlan : Type := mkCallBodyPlan {
  cb_kind : CallBodyKind; cb_cost : Cost; cb_inline_target : option SerializedFunctionId; cb_reason : string }.
Record DirectCallSpecializationPlan : Type := mkDirectCallPlan {
  dc_source : InstrId;
  dc_target : SerializedFunctionId;
  dc_callee : DirectCallCallee;
  dc_arg_plan : list DirectCallArgSource;
  dc_body : CallBodyPlan;
  dc_reason : string
}.

Inductive ExactListItemAccessKind : Type := LI_Get | LI_Set.
Inductive ExactListItemShape : Type := ExactListExactInt | ExactTupleExactInt.
Inductive ExactListItemGuardKind : Type := ExactListExactCompactIntInBounds | ExactTupleExactCompactIntInBounds.
Inductive ExactListItemFallbackKind : Type := OriginalItemAccess.
Record ExactListItemSpecializationPlan : Type := mkListItemPlan {
  li_source : InstrId;
  li_access : ExactListItemAccessKind;
  li_shape : ExactListItemShape;
  li_guard : ExactListItemGuardKind;
  li_fallback : ExactListItemFallbackKind;
  li_reason : string
}.

Inductive IndexedFieldAccessKind : Type := FA_Load | FA_Store.
Record IndexedFieldOwnerType : Type := mkOwnerType { ot_module_name : string; ot_qualname : string }.
Inductive IndexedFieldGuardKind : Type := OwnerTypeVersionAndFieldIndex.
Inductive IndexedFieldFallbackKind : Type := OriginalAttrAccess.
Record IndexedFieldSpecializationPlan : Type := mkFieldPlan {
  if_source : InstrId;
  if_access : IndexedFieldAccessKind;
  if_owner_type : IndexedFieldOwnerType;
  if_attr_name : string;
  if_expected_index : Z;
  if_guard : IndexedFieldGuardKind;
  if_fallback : IndexedFieldFallbackKind;
  if_reason : string
}.
Inductive IndexedGlobalAccessKind : Type := GA_Load | GA_Store.
Inductive IndexedGlobalGuardKind : Type := ModuleDictKeyAtIndex.
Inductive IndexedGlobalFallbackKind : Type := OriginalGlobalAccess.
Record IndexedGlobalSpecializationPlan : Type := mkGlobalPlan {
  ig_source : InstrId;
  ig_access : IndexedGlobalAccessKind;
  ig_module_name : string;
  ig_name : string;
  ig_expected_index : Z;
  ig_guard : IndexedGlobalGuardKind;
  ig_fallback : IndexedGlobalFallbackKind;
  ig_reason : string
}.

#[global] Program Instance InstrId_ord : RustOrd InstrId := {| key i := key (instr_index i) |}.
Next Obligation. intros [] []; cbn. by intros [= ->]. Qed.
#[global] Program Instance SerializedFunctionId_ord : RustOrd SerializedFunctionId := {| key i := key (sf_packed i) |}.
Next Obligation. intros [] []; cbn. by intros [= ->]. Qed.
#[global] Program Instance ExactListItemAccessKind_ord : RustOrd ExactListItemAccessKind :=
  {| key k := KInt match k with LI_Get => 0 | LI_Set => 1 end |}.
Next Obligation. by intros [] []. Qed.
#[global] Program Instance ExactListItemShape_ord : RustOrd ExactListItemShape :=
  {| key k := KInt match k with ExactListExactInt => 0 | ExactTupleExactInt => 1 end |}.
Next Obligation. by intros [] []. Qed.
#[global] Program Instance IndexedFieldAccessKind_ord : RustOrd IndexedFieldAccessKind :=
  {| key k := KInt match k with FA_Load => 0 | FA_Store => 1 end |}.
Next Obligation. by intros [] []. Qed.
#[global] Program Instance IndexedGlobalAccessKind_ord : RustOrd IndexedGlobalAccessKind :=
  {| key k := KInt match k with GA_Load => 0 | GA_Store => 1 end |}.
Next Obligation. by intros [] []. Qed.
#[global] Instance IndexedFieldAccessKind_eq_dec : EqDecision IndexedFieldAccessKind.
Proof. solve_decision. Defined.
#[global] Instance IndexedGlobalAccessKind_eq_dec : EqDecision IndexedGlobalAccessKind.
Proof. solve_decision. Defined.

(** ** Requests *)

Record CallBodyAlternativeRequest : Type := mkCallBodyAlternative {
  ca_kind : CallBodyKind; ca_cost : Cost; ca_inline_target : option SerializedFunctionId; ca_reason : string }.
Record DirectCallPlanRequest : Type := mkDirectCallRequest {
  dr_source : InstrId;
  dr_target : SerializedFunctionId;
  dr_callee : DirectCallCallee;
  dr_arg_plan : list DirectCallArgSource;
  dr_body : list CallBodyAlternativeRequest;
  dr_reason : string
}.
Record ExactListItemPlanRequest : Type := mkListItemRequest {
  lr_source : InstrId; lr_access : ExactListItemAccessKind; lr_shape : ExactListItemShape; lr_reason : string }.
Record IndexedFieldPlanRequest : Type := mkFieldRequest {
  fr_source : InstrId;
  fr_access : IndexedFieldAccessKind;
  fr_owner_type : IndexedFieldOwnerType;
  fr_attr_name : string;
  fr_expected_index : Z;
  fr_reason : string
}.
Record IndexedGlobalPlanRequest : Type := mkGlobalRequest {
  gr_source : InstrId;
  gr_access : IndexedGlobalAccessKind;
  gr_module_name : string;
  gr_name : string;
  gr_expected_index : Z;
  gr_reason : string
}.

Definition direct_call_body_cost_v3 : Cost := mkCost 8 2 0 0 1 2 1.
Definition inline_call_body_cost_v3 : Cost := mkCost 2 2 0 0 0 6 4.
Definition direct_alternative : CallBodyAlternativeRequest :=
  mkCallBodyAlternative CBK_DirectCall direct_call_body_cost_v3 None
    "guarded direct call is the baseline validated call-body alternative".
Definition with_inline_candidate (inline_candidate : bool) : list CallBodyAlternativeRequest :=
  direct_alternative ::
  if inline_candidate then
    [mkCallBodyAlternative CBK_Inline inline_call_body_cost_v3 None
       "lowered call shape is eligible for the early inline body alternative"]
  else [].
Definition with_inline_target_candidate (inline_target : option SerializedFunctionId) : list CallBodyAlternativeRequest :=
  direct_alternative ::
  match inline_target with
  | Some inline_target =>
      [mkCallBodyAlternative CBK_Inline inline_call_body_cost_v3 (Some inline_target)
         "runtime-iter body target is eligible for the early inline body alternative"]
  | None => []
  end.

(** [u32::saturating_add]. *)
Definition saturating_add (a b : Z) : Z := Z.min (a + b) (2 ^ 32 - 1).
Definition call_body_cost_key (cost : Cost) : Z * Z * Z * Z :=
  (saturating_add (saturating_add (cost_hot_path cost) (cost_materialization cost)) (cost_ownership cost),
   saturating_add (cost_miss_path cost) (cost_deopt cost), cost_code_size cost, cost_compile cost).
(** [Iterator::min_by_key]: the first of the least. *)
Fixpoint min_by_key {A} (f : A -> Key) (l : list A) : option A :=
  match l with
  | [] => None
  | x :: l =>
      match min_by_key f l with
      | None => Some x
      | Some y => if key_le (f x) (f y) then Some x else Some y
      end
  end.
Definition choose_call_body_plan_v3 (alternatives : list CallBodyAlternativeRequest) : CallBodyPlan :=
  match min_by_key (fun alternative => key (call_body_cost_key (ca_cost alternative))) alternatives with
  | Some alternative =>
      mkCallBodyPlan (ca_kind alternative) (ca_cost alternative) (ca_inline_target alternative) (ca_reason alternative)
  | None =>
      mkCallBodyPlan CBK_DirectCall direct_call_body_cost_v3 None
        "guarded direct call is the default call-body alternative"
  end.

(** ** Planning *)

#[global] Instance Key_eq_dec : EqDecision Key.
Proof.
  intros a b. destruct (key_cmp a b) eqn:E; [left; by apply key_cmp_eq|right..]; intros ->; by rewrite key_cmp_refl in E.
Defined.
(** The loop over sorted requests: [continue] where there is no plan, a plan for the first
    request of each key. *)
Fixpoint plan_once {A P} (request_key : A -> Key) (plan : A -> option P) (seen : list Key) (entries : list A) : list P :=
  match entries with
  | [] => []
  | request :: entries =>
      match plan request with
      | None => plan_once request_key plan seen entries
      | Some p =>
          if bool_decide (request_key request ∈ seen) then plan_once request_key plan seen entries
          else p :: plan_once request_key plan (request_key request :: seen) entries
      end
  end.

Definition direct_call_key (r : DirectCallPlanRequest) : Key := key (dr_source r, dr_target r).
Definition direct_call_plan (r : DirectCallPlanRequest) : option DirectCallSpecializationPlan :=
  Some (mkDirectCallPlan (dr_source r) (dr_target r) (dr_callee r) (dr_arg_plan r)
          (choose_call_body_plan_v3 (dr_body r)) (dr_reason r)).
Definition plan_direct_call_specializations_v3 (requests : list DirectCallPlanRequest) : list DirectCallSpecializationPlan :=
  plan_once direct_call_key direct_call_plan [] (sort_by direct_call_key requests).

Definition list_item_key (r : ExactListItemPlanRequest) : Key := key (lr_source r, lr_access r, lr_shape r).
Definition list_item_plan (r : ExactListItemPlanRequest) : option ExactListItemSpecializationPlan :=
  guard ←
    match lr_shape r, lr_access r with
    | ExactListExactInt, _ => Some ExactListExactCompactIntInBounds
    | ExactTupleExactInt, LI_Get => Some ExactTupleExactCompactIntInBounds
    | ExactTupleExactInt, LI_Set => None
    end;
  Some (mkListItemPlan (lr_source r) (lr_access r) (lr_shape r) guard OriginalItemAccess (lr_reason r)).
Definition plan_exact_list_item_specializations_v3 (requests : list ExactListItemPlanRequest) :
    list ExactListItemSpecializationPlan :=
  plan_once list_item_key list_item_plan [] (sort_by list_item_key requests).

Definition field_key (r : IndexedFieldPlanRequest) : Key :=
  key (fr_source r, fr_access r, ot_module_name (fr_owner_type r), ot_qualname (fr_owner_type r), fr_attr_name r,
       fr_expected_index r).
Definition field_plan (r : IndexedFieldPlanRequest) : option IndexedFieldSpecializationPlan :=
  Some (mkFieldPlan (fr_source r) (fr_access r) (fr_owner_type r) (fr_attr_name r) (fr_expected_index r)
          OwnerTypeVersionAndFieldIndex OriginalAttrAccess (fr_reason r)).
Definition plan_indexed_field_specializations_v3 (requests : list IndexedFieldPlanRequest) :
    list IndexedFieldSpecializationPlan :=
  plan_once field_key field_plan [] (sort_by field_key requests).

Definition global_key (r : IndexedGlobalPlanRequest) : Key :=
  key (gr_source r, gr_access r, gr_module_name r, gr_name r, gr_expected_index r).
Definition global_plan (r : IndexedGlobalPlanRequest) : option IndexedGlobalSpecializationPlan :=
  Some (mkGlobalPlan (gr_source r) (gr_access r) (gr_module_name r) (gr_name r) (gr_expected_index r)
          ModuleDictKeyAtIndex OriginalGlobalAccess (gr_reason r)).
Definition plan_indexed_global_specializations_v3 (requests : list IndexedGlobalPlanRequest) :
    list IndexedGlobalSpecializationPlan :=
  plan_once global_key global_plan [] (sort_by global_key requests).

(** A source with two plans for loads keeps none. *)
Definition unique_load_step (unique_by_source : gmap InstrId (option IndexedFieldSpecializationPlan))
    (plan : IndexedFieldSpecializationPlan) : gmap InstrId (option IndexedFieldSpecializationPlan) :=
  if bool_decide (if_access plan <> FA_Load) then unique_by_source
  else
    match unique_by_source !! if_source plan with
    | Some _ => <[if_source plan := None]> unique_by_source
    | None => <[if_source plan := Some plan]> unique_by_source
    end.
Definition unique_indexed_field_loads_by_source (indexed_fields : list IndexedFieldSpecializationPlan) :
    gmap InstrId IndexedFieldSpecializationPlan :=
  omap id (fold_left unique_load_step indexed_fields ∅).
(** A later plan for a source replaces an earlier one. *)
Definition indexed_global_loads_by_source (indexed_globals : list IndexedGlobalSpecializationPlan) :
    gmap InstrId IndexedGlobalSpecializationPlan :=
  fold_left (fun loads plan => <[ig_source plan := plan]> loads)
    (List.filter (fun plan => bool_decide (ig_access plan = GA_Load)) indexed_globals) ∅.
