(* ===== verification/SpecializeProps.v ===== *)
(** * Plans for single instructions: what is planned

    The plans are the requests, each access once and in order; the body of a call is its
    cheapest alternative; a load of a field has a plan of its own or none. *)

From Stdlib Require Import Sorting.Sorted.
From stdpp Require Import gmap.
From S2P Require Import Prelude Order Collections Ids Cfg Names Instr Specialize.

Local Open Scope Z_scope.

(** ** The first request of each key *)

Section once.
Context {A P : Type} (f : A -> Key) (plan : A -> option P) (g : P -> Key).
Hypothesis plan_key : forall r p, plan r = Some p -> g p = f r.
Hypothesis plan_by_key : forall r r', f r = f r' -> plan r = None -> plan r' = None.
Notation first k l := (List.find (fun x => bool_decide (f x = k)) l).

Lemma first_sort k l : first k (sort_by f l) = first k l.
Proof.
  induction l as [|x l IH]; [done|]. cbn [sort_by List.find]. rewrite <- IH. generalize (sort_by f l) as s. clear IH.
  induction s as [|y s IH]; [done|]. cbn [sort_insert]. destruct (key_le (f x) (f y)) eqn:E; [done|]. cbn [List.find]. rewrite IH.
  destruct (decide (f y = k)) as [Ey|Ey]; [|by rewrite (bool_decide_false (f y = k))].
  rewrite (bool_decide_true (f y = k)) by done. rewrite bool_decide_false; [done|]. intros Ex.
  by rewrite Ex, Ey, key_le_refl in E.
Qed.
Lemma elem_of_once p seen l :
  p ∈ plan_once f plan seen l <-> exists r, first (f r) l = Some r /\ f r ∉ seen /\ plan r = Some p.
Proof.
  revert seen. induction l as [|x l IH]; intros seen; cbn [plan_once List.find].
  { rewrite elem_of_nil. split; [done|]. by intros (r & ? & _). }
  assert ((f x ∈ seen \/ plan x = None) -> (exists r, first (f r) l = Some r /\ f r ∉ seen /\ plan r = Some p)
    <-> exists r, (if bool_decide (f x = f r) then Some x else first (f r) l) = Some r /\ f r ∉ seen /\ plan r = Some p) as Hskip.
  { intros Hx. split; intros (r & Hr & Hs & Hp); exists r; split_and!; try done.
    - rewrite bool_decide_false; [done|]. intros E. destruct Hx as [Hx|Hx]; [by rewrite E in Hx|].
      by rewrite (plan_by_key _ _ E Hx) in Hp.
    - case_bool_decide as E; [|done]. injection Hr as ->. destruct Hx; [done|congruence]. }
  destruct (plan x) as [px|] eqn:Epx; [|rewrite IH; apply Hskip; auto].
  case_bool_decide as Hin; [rewrite IH; apply Hskip; auto|]. rewrite elem_of_cons, IH. split.
  - intros [->|(r & Hr & Hs & Hp)].
    + exists x. rewrite bool_decide_true by done. done.
    + exists r. rewrite bool_decide_false by set_solver. set_solver.
  - intros (r & Hr & Hs & Hp). case_bool_decide as E.
    + injection Hr as ->. left. congruence.
    + right. exists r. split_and!; [done|set_solver|done].
Qed.
Lemma once_strict seen l : SortedBy f l -> StrictBy g (plan_once f plan seen l).
Proof.
  intros Hs. revert seen. induction Hs as [|x l Hs IH Hx]; intros seen; cbn; [constructor|].
  destruct (plan x) as [px|] eqn:Epx; [|apply IH]. case_bool_decide as Hin; [apply IH|]. constructor; [apply IH|].
  apply Forall_forall. intros p Hp. apply elem_of_once in Hp as (r & Hr & Hns & Hp).
  rewrite (plan_key _ _ Epx), (plan_key _ _ Hp). apply List.find_some in Hr as [Hr _].
  rewrite List.Forall_forall in Hx. specialize (Hx r Hr). destruct (key_lt (f x) (f r)) eqn:E; [done|].
  assert (f x = f r) as Ef; [|rewrite Ef in Hns; set_solver]. apply key_le_antisym; [done|].
  destruct (key_le (f r) (f x)) eqn:E'; [done|]. apply key_le_total in E'. congruence.
Qed.

(** The plans of a list of requests. *)
Record planned_once (requests : list A) (plans : list P) : Prop := mkPlannedOnce {
  once_sorted : StrictBy g plans;
  once_exact p : p ∈ plans <-> exists r, first (f r) requests = Some r /\ plan r = Some p
}.
Lemma plan_once_spec requests : planned_once requests (plan_once f plan [] (sort_by f requests)).
Proof.
  split; [apply once_strict, sort_by_sorted|]. intros p. rewrite elem_of_once. setoid_rewrite first_sort.
  split; intros (r & ? & ?); exists r; [naive_solver|]. split_and!; [done|apply not_elem_of_nil|done].
Qed.
End once.

(** ** The cheapest body *)

Lemma min_by_key_spec {A} (f : A -> Key) l x :
  min_by_key f l = Some x -> exists l1 l2, l = l1 ++ x :: l2
    /\ (forall y, y ∈ l1 -> key_lt (f x) (f y) = true) /\ forall y, y ∈ l2 -> key_le (f x) (f y) = true.
Proof.
  revert x. induction l as [|z l IH]; intros x H; [done|]. cbn in H. destruct (min_by_key f l) as [y|] eqn:E.
  - destruct (IH y eq_refl) as (l1 & l2 & -> & H1 & H2). destruct (key_le (f z) (f y)) eqn:Ez; injection H as <-.
    + exists [], (l1 ++ y :: l2). split_and!; [done|by intros ? ?%not_elem_of_nil|].
      intros u [Hu|[->|Hu]%elem_of_cons]%elem_of_app; [|done|].
      * apply key_lt_le. eapply key_le_lt_trans; [done|by apply H1].
      * eapply key_le_trans; [done|by apply H2].
    + exists (z :: l1), l2. split_and!; [done| |done]. intros u [->|Hu]%elem_of_cons; [by apply key_le_total|by apply H1].
  - injection H as <-. destruct l as [|u l]; [|cbn in E; destruct (min_by_key f l); [destruct (key_le _ _)|]; done].
    exists [], []. split_and!; [done|..]; by intros ? ?%not_elem_of_nil.
Qed.

(** ** Unique loads *)

Definition loads_of (s : InstrId) (plans : list IndexedFieldSpecializationPlan) : list IndexedFieldSpecializationPlan :=
  List.filter (fun p => bool_decide (if_access p = FA_Load) && bool_decide (if_source p = s)) plans.
Lemma unique_fold plans s m :
  fold_left unique_load_step plans m !! s =
  match loads_of s plans, m !! s with
  | [], o => o
  | [p], None => Some (Some p)
  | _, _ => Some None
  end.
Proof.
  revert m. induction plans as [|p plans IH]; intros m; [by cbn; destruct (m !! s)|]. cbn [fold_left]. rewrite IH. clear IH.
  unfold loads_of. cbn [List.filter]. fold (loads_of s plans). unfold unique_load_step.
  destruct (decide (if_access p = FA_Load)) as [Ea|Ea].
  2: { rewrite bool_decide_true by done. by rewrite bool_decide_false. }
  rewrite bool_decide_false by (intros H; by apply H). rewrite bool_decide_true by done. cbn [andb].
  destruct (decide (if_source p = s)) as [Es|Es].
  - rewrite bool_decide_true by done. subst s. destruct (m !! if_source p) eqn:Em; rewrite lookup_insert_eq;
      destruct (loads_of (if_source p) plans) as [|? [|]]; done.
  - rewrite bool_decide_false by done. destruct (m !! if_source p); by rewrite lookup_insert_ne.
Qed.
Lemma unique_loads plans s p :
  unique_indexed_field_loads_by_source plans !! s = Some p <-> loads_of s plans = [p].
Proof.
  unfold unique_indexed_field_loads_by_source. rewrite lookup_omap, unique_fold, lookup_empty. cbn.
  destruct (loads_of s plans) as [|q [|]]; cbn; naive_solver.
Qed.

Definition body_key (cost : Cost) : Key := key (call_body_cost_key cost).
Lemma chosen_body alternatives a :
  a ∈ alternatives -> key_le (body_key (cb_cost (choose_call_body_plan_v3 alternatives))) (body_key (ca_cost a)) = true.
Proof.
  intros Ha. unfold choose_call_body_plan_v3. destruct (min_by_key _ alternatives) as [x|] eqn:E.
  - apply min_by_key_spec in E as (l1 & l2 & -> & H1 & H2). cbn.
    apply elem_of_app in Ha as [Ha|[->|Ha]%elem_of_cons]; [apply key_lt_le; by apply H1|apply key_le_refl|by apply H2].
  - destruct alternatives as [|x l]; [by apply not_elem_of_nil in Ha|]. cbn in E. destruct (min_by_key _ l); [destruct (key_le _ _)|]; done.
Qed.

(** C32: What is planned for single instructions: direct calls, item, field and global accesses
    are planned once per key, in increasing order of the keys, from the first request that was
    made for the key, and all requests but the writes to exact tuples get a plan; the body of a
    call is one of least cost, and inlined exactly when an inline target is offered; a load of a
    field keeps its plan exactly when it is the only plan for that instruction. *)
Theorem specialization_plans_exact :
  (forall requests, planned_once direct_call_key direct_call_plan (fun p => key (dc_source p, dc_target p)) requests
     (plan_direct_call_specializations_v3 requests))
  /\ (forall requests, planned_once list_item_key list_item_plan (fun p => key (li_source p, li_access p, li_shape p)) requests
     (plan_exact_list_item_specializations_v3 requests))
  /\ (forall requests, planned_once field_key field_plan
       (fun p => key (if_source p, if_access p, ot_module_name (if_owner_type p), ot_qualname (if_owner_type p),
                      if_attr_name p, if_expected_index p)) requests
     (plan_indexed_field_specializations_v3 requests))
  /\ (forall requests, planned_once global_key global_plan
       (fun p => key (ig_source p, ig_access p, ig_module_name p, ig_name p, ig_expected_index p)) requests
     (plan_indexed_global_specializations_v3 requests))
  /\ (forall alternatives a, a ∈ alternatives ->
       key_le (body_key (cb_cost (choose_call_body_plan_v3 alternatives))) (body_key (ca_cost a)) = true)
  /\ (forall target, cb_kind (choose_call_body_plan_v3 (with_inline_target_candidate target)) = CBK_Inline <-> is_Some target)
  /\ (forall plans s p, unique_indexed_field_loads_by_source plans !! s = Some p <-> loads_of s plans = [p]).
Proof.
  split_and!.
  - intros requests. apply plan_once_spec; [by intros [] p [= <-]|done].
  - intros requests. apply plan_once_spec.
    + intros [s a sh r] p H. unfold list_item_plan in H. cbn in H. destruct sh, a; try done; by injection H as <-.
    + intros r r' E H. unfold list_item_key in E. apply (inj key) in E. injection E as _ Ea Es.
      unfold list_item_plan in *. rewrite <- Ea, <- Es. by destruct (lr_shape r), (lr_access r).
  - intros requests. apply plan_once_spec; [by intros [] p [= <-]|done].
  - intros requests. apply plan_once_spec; [by intros [] p [= <-]|done].
  - apply chosen_body.
  - intros [t|]; cbn; split; [by eexists|done|done|by intros []].
  - intros plans s p. apply unique_loads.
Qed.
