(* ===== verification/RegionMatch.v ===== *)
(** * Regions the planner recognises

    crates/soac_opt/src/operator_specialization.rs (operand types packed into profile words),
    evidence_v3.rs (what a profile and the module constants say of the values of a region) and
    the matching half of planner_v3.rs: which regions have a fast path for small integers or
    strings, and where its operands come from. *)

From stdpp Require Import gmap.
From S2P Require Import Prelude Ids Cfg Names Instr Region Specialize.

Local Open Scope Z_scope.

(** ** Packed operand types *)

Inductive ExactTypeTag : Type := Tag_Int | Tag_Str | Tag_Float.
#[global] Instance ExactTypeTag_eq_dec : EqDecision ExactTypeTag.
Proof. solve_decision. Defined.

Definition tag_packed (t : ExactTypeTag) : Z := match t with Tag_Int => 1 | Tag_Str => 2 | Tag_Float => 3 end.
(** [value as u8]. *)
Definition from_packed (value : Z) : option ExactTypeTag :=
  match Z.land value 255 with 1 => Some Tag_Int | 2 => Some Tag_Str | 3 => Some Tag_Float | _ => None end.
Definition BINARY_LHS_TAG_SHIFT : Z := 0.
Definition BINARY_RHS_TAG_SHIFT : Z := 8.
Definition pack_binary_shape (lhs rhs : ExactTypeTag) : Z :=
  Z.lor (Z.shiftl (tag_packed lhs) BINARY_LHS_TAG_SHIFT) (Z.shiftl (tag_packed rhs) BINARY_RHS_TAG_SHIFT).
Definition unpack_binary_shape (value : Z) : option (ExactTypeTag * ExactTypeTag) :=
  lhs ← from_packed (Z.shiftr value BINARY_LHS_TAG_SHIFT);
  rhs ← from_packed (Z.shiftr value BINARY_RHS_TAG_SHIFT);
  Some (lhs, rhs).

(** ** Evidence *)

Record PlannerFacts : Type := mkPlannerFacts {
  pf_exact_compact_int_values : gset ExtractedValueId;
  pf_exact_str_values : gset ExtractedValueId;
  pf_i64_constants : gmap ExtractedValueId Z
}.
Definition planner_facts_default : PlannerFacts := mkPlannerFacts ∅ ∅ ∅.
Definition mark_exact_compact_int (f : PlannerFacts) (value : ExtractedValueId) : PlannerFacts :=
  mkPlannerFacts ({[value]} ∪ pf_exact_compact_int_values f) (pf_exact_str_values f) (pf_i64_constants f).
Definition mark_exact_str (f : PlannerFacts) (value : ExtractedValueId) : PlannerFacts :=
  mkPlannerFacts (pf_exact_compact_int_values f) ({[value]} ∪ pf_exact_str_values f) (pf_i64_constants f).
Definition set_i64_constant (f : PlannerFacts) (value : ExtractedValueId) (constant : Z) : PlannerFacts :=
  mkPlannerFacts (pf_exact_compact_int_values f) (pf_exact_str_values f) (<[value := constant]> (pf_i64_constants f)).
Definition is_exact_compact_int (f : PlannerFacts) (value : ExtractedValueId) : bool :=
  bool_decide (value ∈ pf_exact_compact_int_values f).
Definition is_exact_str (f : PlannerFacts) (value : ExtractedValueId) : bool :=
  bool_decide (value ∈ pf_exact_str_values f).
Definition i64_constant (f : PlannerFacts) (value : ExtractedValueId) : option Z := pf_i64_constants f !! value.

Record FunctionProfileEvidence : Type := mkEvidence {
  pe_call_target_specializations : gmap InstrId (list RuntimeFunctionId);
  pe_operator_specializations : gmap InstrId (list Z);
  pe_getitem_specializations : gmap InstrId (list Z);
  pe_setitem_specializations : gmap InstrId (list Z);
  pe_hot_field_accesses : gmap InstrId Z;
  pe_branch_prefer_true : gmap InstrId bool
}.
Notation PlannerFactHints := (gmap ExtractedValueId Z).

Definition has_exact_binary_shape (shapes : list Z) (exact_type : ExactTypeTag) : bool :=
  existsb (fun shape => bool_decide (unpack_binary_shape shape = Some (exact_type, exact_type))) shapes.
Definition evidence_step (evidence : FunctionProfileEvidence) (facts : PlannerFacts) (value : ExtractedValue) :
    PlannerFacts :=
  match ev_kind value, ev_source value with
  | EV_Binary _ lhs rhs, Some source =>
      match pe_operator_specializations evidence !! source with
      | None => facts
      | Some shapes =>
          let facts :=
            if has_exact_binary_shape shapes Tag_Int
            then mark_exact_compact_int (mark_exact_compact_int facts lhs) rhs else facts in
          if has_exact_binary_shape shapes Tag_Str then mark_exact_str (mark_exact_str facts lhs) rhs else facts
      end
  | _, _ => facts
  end.
(** The hints are inserted one by one, in an order that does not matter. *)
Definition planner_facts_from_profile_evidence_v3 (region : ExtractedRegion) (evidence : FunctionProfileEvidence)
    (hints : PlannerFactHints) : PlannerFacts :=
  let facts := fold_left (fun facts entry => set_i64_constant facts entry.1 entry.2) (map_to_list hints) planner_facts_default in
  fold_left (evidence_step evidence) (er_values region) facts.

Definition module_i64_constant (module_constants : list ConstantExpr) (index : Z) : option Z :=
  match module_constants !! Z.to_nat index with
  | Some (Const_Literal (Lit_Number (Num_Int decimal))) => as_i64 decimal
  | _ => None
  end.
Definition hint_step (module_constants : list ConstantExpr) (hints : PlannerFactHints) (value : ExtractedValue) :
    PlannerFactHints :=
  match ev_kind value with
  | EV_LoadName name _ =>
      match rn_location name with
      | NL_Constant index =>
          match module_i64_constant module_constants index with
          | Some constant => <[ev_id value := constant]> hints
          | None => hints
          end
      | _ => hints
      end
  | _ => hints
  end.
Definition planner_fact_hints_from_module_constants_v3 (region : ExtractedRegion) (module_constants : list ConstantExpr) :
    PlannerFactHints :=
  fold_left (hint_step module_constants) (er_values region) ∅.

(** ** Where operands come from *)

Inductive PyObjectRegionInputSource : Type :=
| IS_LocalName (name : string)
| IS_CellValue (source : InstrId) (name : ResolvedName) (binding : CellLoadBinding)
| IS_ModuleConstant (index : Z)
| IS_IndexedField (source : InstrId) (receiver : string) (owner_type : IndexedFieldOwnerType) (attr_name : string)
    (expected_index : Z)
| IS_IndexedGlobal (source : InstrId) (module_name name : string) (expected_index : Z).

Notation FieldLoads := (gmap InstrId IndexedFieldSpecializationPlan).
Notation GlobalLoads := (gmap InstrId IndexedGlobalSpecializationPlan).

Definition region_value (region : ExtractedRegion) (value : ExtractedValueId) : option ExtractedValue :=
  List.find (fun entry => bool_decide (ev_id entry = value)) (er_values region).
Definition exit_source (region : ExtractedRegion) : option InstrId :=
  match er_exit region with EE_Branch source _ _ _ | EE_Return source _ => source end.

Definition load_name_pyobject_input_source (value : ExtractedValue) (name : ResolvedName)
    (cell_binding : option CellLoadBinding) (globals : GlobalLoads) : option PyObjectRegionInputSource :=
  match rn_location name with
  | NL_Local _ => Some (IS_LocalName (rn_id name))
  | NL_Cell _ => source ← ev_source value; binding ← cell_binding; Some (IS_CellValue source name binding)
  | NL_Constant index => Some (IS_ModuleConstant index)
  | NL_Global slot =>
      source ← ev_source value;
      plan ← globals !! source;
      if negb (bool_decide (ig_name plan = rn_id name)) || negb (ig_expected_index plan =? global_slot slot) then None
      else Some (IS_IndexedGlobal source (ig_module_name plan) (ig_name plan) (ig_expected_index plan))
  | NL_GlobalName | NL_RuntimeName _ | NL_Preserved _ => None
  end.
Definition local_name_input_source (region : ExtractedRegion) (value : ExtractedValueId) : option string :=
  value ← region_value region value;
  match ev_kind value with
  | EV_LoadName name _ => match rn_location name with NL_Local _ => Some (rn_id name) | _ => None end
  | _ => None
  end.
Definition pyobject_input_source (region : ExtractedRegion) (fields : FieldLoads) (globals : GlobalLoads)
    (allow_indexed_field_inputs : bool) (value : ExtractedValueId) : option PyObjectRegionInputSource :=
  value ← region_value region value;
  match ev_kind value with
  | EV_LoadName name cell_binding => load_name_pyobject_input_source value name cell_binding globals
  | EV_GetAttr receiver _ =>
      if allow_indexed_field_inputs then
        source ← ev_source value;
        plan ← fields !! source;
        receiver ← local_name_input_source region receiver;
        Some (IS_IndexedField source receiver (if_owner_type plan) (if_attr_name plan) (if_expected_index plan))
      else None
  | _ => None
  end.

(** ** Alternatives *)

Record CompareAlternativeSpec : Type := mkCompareSpec {
  cs_generic_id : string; cs_exact_id : string; cs_exact_str_id : string }.
Record BinaryReturnAlternativeSpec : Type := mkBinarySpec { bs_generic_id : string; bs_exact_id : string }.

Definition compare_alternative_spec (op : BinOpKind) : option CompareAlternativeSpec :=
  match op with
  | Eq => Some (mkCompareSpec "binary.eq.py_richcompare" "binary.eq.exact_compact_int.i32bool" "binary.eq.exact_str.i32bool")
  | Ne => Some (mkCompareSpec "binary.ne.py_richcompare" "binary.ne.exact_compact_int.i32bool" "binary.ne.exact_str.i32bool")
  | Lt => Some (mkCompareSpec "binary.lt.py_richcompare" "binary.lt.exact_compact_int.i32bool" "binary.lt.exact_str.i32bool")
  | Le => Some (mkCompareSpec "binary.le.py_richcompare" "binary.le.exact_compact_int.i32bool" "binary.le.exact_str.i32bool")
  | Gt => Some (mkCompareSpec "binary.gt.py_richcompare" "binary.gt.exact_compact_int.i32bool" "binary.gt.exact_str.i32bool")
  | Ge => Some (mkCompareSpec "binary.ge.py_richcompare" "binary.ge.exact_compact_int.i32bool" "binary.ge.exact_str.i32bool")
  | _ => None
  end.
Definition binary_return_alternative_spec (op : BinOpKind) : option BinaryReturnAlternativeSpec :=
  match op with
  | Add => Some (mkBinarySpec "binary.add.py_generic" "binary.add.exact_compact_int.i64")
  | Sub => Some (mkBinarySpec "binary.sub.py_generic" "binary.sub.exact_compact_int.i64")
  | Mul => Some (mkBinarySpec "binary.mul.py_generic" "binary.mul.exact_compact_int.i64")
  | And => Some (mkBinarySpec "binary.and.py_generic" "binary.and.exact_compact_int.i64")
  | Or => Some (mkBinarySpec "binary.or.py_generic" "binary.or.exact_compact_int.i64")
  | Xor => Some (mkBinarySpec "binary.xor.py_generic" "binary.xor.exact_compact_int.i64")
  | _ => None
  end.

(** ** Shapes *)

Record CompactIntBranchShape : Type := mkIntBranchShape {
  ibs_source : option InstrId; ibs_left : PyObjectRegionInputSource; ibs_right : PyObjectRegionInputSource }.
(** The shapes of a comparison in a branch or a return, of integers or of strings. *)
Record CompareShape : Type := mkCompareShape {
  csh_source : option InstrId; csh_left : PyObjectRegionInputSource; csh_right : PyObjectRegionInputSource;
  csh_compare : CompareAlternativeSpec }.
Record CompactIntCompareConstantBranchShape : Type := mkCompareConstantShape {
  cch_source : option InstrId; cch_value : PyObjectRegionInputSource; cch_constant : Z; cch_constant_on_left : bool;
  cch_compare : CompareAlternativeSpec }.
Record CompactIntReturnShape : Type := mkIntReturnShape {
  irs_source : option InstrId; irs_left : PyObjectRegionInputSource; irs_right : PyObjectRegionInputSource;
  irs_operation : BinaryReturnAlternativeSpec }.

(** The comparison a branch tests, with the source of the exit. *)
Definition branch_binary (region : ExtractedRegion) :
    option (option InstrId * BinOpKind * ExtractedValueId * ExtractedValueId) :=
  match er_exit region with
  | EE_Branch source condition _ _ =>
      truth ← region_value region condition;
      match ev_kind truth with
      | EV_Truthiness compare_value =>
          compare ← region_value region compare_value;
          match ev_kind compare with EV_Binary op lhs rhs => Some (source, op, lhs, rhs) | _ => None end
      | _ => None
      end
  | EE_Return _ _ => None
  end.
(** The operation a return gives back. *)
Definition return_binary (region : ExtractedRegion) :
    option (option InstrId * BinOpKind * ExtractedValueId * ExtractedValueId) :=
  match er_exit region with
  | EE_Return source value =>
      binary ← region_value region value;
      match ev_kind binary with EV_Binary op lhs rhs => Some (source, op, lhs, rhs) | _ => None end
  | EE_Branch _ _ _ _ => None
  end.

Section match_region.
Context (region : ExtractedRegion) (facts : PlannerFacts) (fields : FieldLoads) (globals : GlobalLoads).
Notation input := (pyobject_input_source region fields globals).

Definition match_compact_int_add_gt_zero_branch : option CompactIntBranchShape :=
  '(source, op, sum_value, zero_value) ← branch_binary region;
  match op with
  | Gt =>
      zero ← i64_constant facts zero_value;
      if negb (zero =? 0) then None
      else
        sum ← region_value region sum_value;
        match ev_kind sum with
        | EV_Binary Add lhs rhs =>
            if negb (is_exact_compact_int facts lhs) || negb (is_exact_compact_int facts rhs) then None
            else lhs ← input true lhs; rhs ← input true rhs; Some (mkIntBranchShape source lhs rhs)
        | _ => None
        end
  | _ => None
  end.
Definition match_compact_int_binary_return : option CompactIntReturnShape :=
  '(source, op, lhs, rhs) ← return_binary region;
  operation ← binary_return_alternative_spec op;
  if negb (is_exact_compact_int facts lhs) || negb (is_exact_compact_int facts rhs) then None
  else lhs ← input false lhs; rhs ← input false rhs; Some (mkIntReturnShape source lhs rhs operation).
Definition match_compact_int_compare_constant_branch : option CompactIntCompareConstantBranchShape :=
  '(source, op, lhs, rhs) ← branch_binary region;
  compare ← compare_alternative_spec op;
  match is_exact_compact_int facts lhs, i64_constant facts rhs with
  | true, Some constant => value ← input true lhs; Some (mkCompareConstantShape source value constant false compare)
  | _, _ =>
      match is_exact_compact_int facts rhs, i64_constant facts lhs with
      | true, Some constant => value ← input true rhs; Some (mkCompareConstantShape source value constant true compare)
      | _, _ => None
      end
  end.
Definition match_compact_int_compare_branch : option CompareShape :=
  '(source, op, lhs, rhs) ← branch_binary region;
  compare ← compare_alternative_spec op;
  if negb (is_exact_compact_int facts lhs) || negb (is_exact_compact_int facts rhs) then None
  else lhs ← input true lhs; rhs ← input true rhs; Some (mkCompareShape source lhs rhs compare).
Definition match_exact_str_compare_branch : option CompareShape :=
  '(source, op, lhs, rhs) ← branch_binary region;
  compare ← compare_alternative_spec op;
  if negb (is_exact_str facts lhs) || negb (is_exact_str facts rhs) then None
  else lhs ← input true lhs; rhs ← input true rhs; Some (mkCompareShape source lhs rhs compare).
Definition match_compact_int_compare_return : option CompareShape :=
  '(source, op, lhs, rhs) ← return_binary region;
  compare ← compare_alternative_spec op;
  if negb (is_exact_compact_int facts lhs) || negb (is_exact_compact_int facts rhs) then None
  else lhs ← input false lhs; rhs ← input false rhs; Some (mkCompareShape source lhs rhs compare).
Definition match_exact_str_compare_return : option CompareShape :=
  '(source, op, lhs, rhs) ← return_binary region;
  compare ← compare_alternative_spec op;
  if negb (is_exact_str facts lhs) || negb (is_exact_str facts rhs) then None
  else lhs ← input false lhs; rhs ← input false rhs; Some (mkCompareShape source lhs rhs compare).

(** Which of the shapes is planned: the first that matches, in the order the planner tries
    them. *)
Inductive PlannedShape : Type :=
| PS_AddGtZero (s : CompactIntBranchShape)
| PS_CompareConstant (s : CompactIntCompareConstantBranchShape)
| PS_IntCompareBranch (s : CompareShape)
| PS_IntCompareReturn (s : CompareShape)
| PS_StrCompareBranch (s : CompareShape)
| PS_StrCompareReturn (s : CompareShape)
| PS_IntBinaryReturn (s : CompactIntReturnShape).
Definition planned_shape : option PlannedShape :=
  match match_compact_int_add_gt_zero_branch with
  | Some s => Some (PS_AddGtZero s)
  | None =>
  match match_compact_int_compare_constant_branch with
  | Some s => Some (PS_CompareConstant s)
  | None =>
  match match_compact_int_compare_branch with
  | Some s => Some (PS_IntCompareBranch s)
  | None =>
  match match_compact_int_compare_return with
  | Some s => Some (PS_IntCompareReturn s)
  | None =>
  match match_exact_str_compare_branch with
  | Some s => Some (PS_StrCompareBranch s)
  | None =>
  match match_exact_str_compare_return with
  | Some s => Some (PS_StrCompareReturn s)
  | None => PS_IntBinaryReturn <$> match_compact_int_binary_return
  end end end end end end.
End match_region.
