(* ===== verification/RegionMatchProps.v ===== *)
(** * Recognised regions are recognised expressions

    The planner looks at numbered values and at facts about numbers.  Here it is shown to
    decide what can be read off the expression: the operator, where its operands are loaded
    from, and what the profile recorded for that very instruction. *)

From stdpp Require Import gmap.
From S2P Require Import Prelude Ids Cfg Names Instr Region RegionProps Specialize RegionMatch.

Local Open Scope Z_scope.

(** ** Values and the instructions they stand for *)

Notation operands x := (kind_op (ev_kind x)).2.

Inductive denotes (vals : list ExtractedValue) : ExtractedValueId -> InstrBlockPy -> Prop :=
| Denotes v iid kind op vs children :
    vals !! Z.to_nat (value_number v) = Some (mkExtractedValue v iid kind) -> kind_op kind = (op, vs) ->
    Forall2 (denotes vals) vs children -> denotes vals v (mkInstr iid op children).

Definition holds_all (vals new : list ExtractedValue) : Prop :=
  forall x, x ∈ new -> vals !! Z.to_nat (value_number (ev_id x)) = Some x.

(** An instruction that was linearised: its value is the last one, and every other value is an
    operand of one value. *)
Record planted (b b' : RegionBuilder) (new : list ExtractedValue) (v : ExtractedValueId) (i : InstrBlockPy) : Prop := mkPlanted {
  pl_built : built b b' new;
  pl_size : Z.of_nat (length new) = instr_size i;
  pl_root : value_number v = rb_next_value b' - 1;
  pl_ops x u : x ∈ new -> u ∈ operands x -> rb_next_value b <= value_number u < rb_next_value b' - 1;
  pl_once x y u : x ∈ new -> y ∈ new -> u ∈ operands x -> u ∈ operands y -> x = y;
  pl_denotes vals : holds_all vals new -> denotes vals v i
}.
Record planted_all (b b' : RegionBuilder) (new : list ExtractedValue) (vs : list ExtractedValueId) (l : list InstrBlockPy) : Prop :=
  mkPlantedAll {
  pa_built : built b b' new;
  pa_size : Z.of_nat (length new) = instrs_size l;
  pa_roots v : v ∈ vs -> rb_next_value b <= value_number v < rb_next_value b';
  pa_ops x u : x ∈ new -> u ∈ operands x -> rb_next_value b <= value_number u < rb_next_value b' /\ u ∉ vs;
  pa_once x y u : x ∈ new -> y ∈ new -> u ∈ operands x -> u ∈ operands y -> x = y;
  pa_denotes vals : holds_all vals new -> Forall2 (denotes vals) vs l
}.
Lemma instr_size_pos i : 0 < instr_size i.
Proof. destruct i. unfold instr_size. cbn. lia. Qed.
Lemma planted_cons b b1 b2 n1 n2 v vs i l :
  planted b b1 n1 v i -> planted_all b1 b2 n2 vs l -> planted_all b b2 (n1 ++ n2) (v :: vs) (i :: l).
Proof.
  intros [B1 S1 R1 O1 U1 D1] [B2 S2 R2 O2 U2 D2]. pose proof (built_next _ _ _ B1) as N1. pose proof (built_next _ _ _ B2) as N2.
  pose proof (instr_size_pos i) as Hi. split.
  - by eapply built_app.
  - rewrite length_app. unfold instrs_size in *. cbn. rewrite length_app. unfold instr_size in *. lia.
  - intros u [->|Hu%R2]%elem_of_cons; lia.
  - intros x u [Hx|Hx]%elem_of_app Hu.
    + pose proof (O1 _ _ Hx Hu) as H. split; [lia|]. rewrite not_elem_of_cons. split; [intros ->; lia|].
      intros Hin%R2. lia.
    + destruct (O2 _ _ Hx Hu) as [H Hn]. split; [lia|]. rewrite not_elem_of_cons. split; [intros ->; lia|done].
  - intros x y u [Hx|Hx]%elem_of_app [Hy|Hy]%elem_of_app Hux Huy; [by eapply U1| | |by eapply U2].
    + pose proof (O1 _ _ Hx Hux). destruct (O2 _ _ Hy Huy). lia.
    + pose proof (O1 _ _ Hy Huy). destruct (O2 _ _ Hx Hux). lia.
  - intros vals Hv. constructor; [apply D1|apply D2]; intros x Hx; apply Hv; set_solver.
Qed.
Lemma planted_node b b1 b2 new ids kind iid op children v :
  planted_all b b1 new ids children -> kind_op kind = (op, ids) -> builder_push b1 iid kind = (b2, v) ->
  0 <= rb_next_value b -> rb_next_value b + instr_size (mkInstr iid op children) < 2 ^ 32 ->
  planted b b2 (new ++ [mkExtractedValue v iid kind]) v (mkInstr iid op children).
Proof.
  intros [B S R O U D] Hk Hp H0 Hs. assert (instr_size (mkInstr iid op children) = 1 + instrs_size children) as Hsize.
  { unfold instr_size, instrs_size. cbn. lia. }
  pose proof (built_next _ _ _ B) as Hn. apply built_push in Hp as [Bp ->]; [|lia]. pose proof (built_next _ _ _ Bp) as Hn2. cbn in Hn2.
  set (x := mkExtractedValue _ iid kind) in *. assert (operands x = ids) as Hx by (cbn; by rewrite Hk). split.
  - by eapply built_app.
  - rewrite length_app, Hsize. cbn. lia.
  - cbn. lia.
  - intros y u [Hy| ->%list_elem_of_singleton]%elem_of_app Hu; [destruct (O _ _ Hy Hu); lia|]. rewrite Hx in Hu. apply R in Hu. lia.
  - intros y z u [Hy| ->%list_elem_of_singleton]%elem_of_app [Hz| ->%list_elem_of_singleton]%elem_of_app Huy Huz; [by eapply U| | |done].
    + rewrite Hx in Huz. by destruct (O _ _ Hy Huy).
    + rewrite Hx in Huy. by destruct (O _ _ Hz Huz).
  - intros vals Hv. econstructor; [apply (Hv x); set_solver|exact Hk|]. apply D. intros y Hy. apply Hv. set_solver.
Qed.
Lemma planted_none b : planted_all b b [] [] [].
Proof. split; [apply built_nil|done|by intros v ?%not_elem_of_nil|by intros x u ?%not_elem_of_nil|by intros x y u ?%not_elem_of_nil|constructor]. Qed.
Lemma linearize_planted i b b' v :
  linearize_instr b i = Ok (b', v) -> 0 <= rb_next_value b -> rb_next_value b + instr_size i < 2 ^ 32 ->
  exists new, planted b b' new v i.
Proof.
  revert b b' v. induction i as [iid op children IH] using InstrBlockPy_tree_ind. intros b b' v H H0 Hs.
  apply linearize_inv in H as (b1 & ids & kind & Hl & Hk & Hp).
  assert (instr_size (mkInstr iid op children) = 1 + instrs_size children) as Hsize by (unfold instr_size, instrs_size; cbn; lia).
  enough (exists new, planted_all b b1 new ids children) as [new Hc] by (eexists; by eapply planted_node).
  clear Hk Hp kind. assert (rb_next_value b + instrs_size children < 2 ^ 32) as Hs' by lia. clear Hs Hsize.
  induction Hl as [b|b i l b1 u b2 ids Hi Hl IHl]; [exists []; apply planted_none|].
  apply Forall_cons in IH as [IHi IH]. assert (instrs_size (i :: l) = instr_size i + instrs_size l) as Hsz.
  { unfold instrs_size, instr_size. cbn. rewrite length_app. lia. }
  assert (0 <= instrs_size l) by (unfold instrs_size; lia).
  destruct (IHi _ _ _ Hi H0) as [new1 C1]; [lia|]. pose proof (built_next _ _ _ (pl_built _ _ _ _ _ C1)) as Hn.
  pose proof (pl_size _ _ _ _ _ C1). destruct (IHl IH) as [new2 C2]; [lia|lia|]. exists (new1 ++ new2). by eapply planted_cons.
Qed.

(** ** Facts about values *)

(** What the profile recorded at an instruction. *)
Definition profiled (evidence : FunctionProfileEvidence) (source : option InstrId) (tag : ExactTypeTag) : bool :=
  match source ≫= (pe_operator_specializations evidence !!.) with
  | Some shapes => has_exact_binary_shape shapes tag
  | None => false
  end.
Definition binary_operands (x : ExtractedValue) : list ExtractedValueId :=
  match ev_kind x with EV_Binary _ l r => [l; r] | _ => [] end.
Definition value_constant (constants : list ConstantExpr) (x : ExtractedValue) : option Z :=
  match ev_kind x with
  | EV_LoadName name _ => index ← as_constant (rn_location name); module_i64_constant constants index
  | _ => None
  end.

(** The marks that the values leave in a set of the facts. *)
Lemma evidence_marks (values : PlannerFacts -> gset ExtractedValueId) tag evidence l f u :
  (forall f x, u ∈ values (evidence_step evidence f x) <->
     u ∈ values f \/ (u ∈ binary_operands x /\ profiled evidence (ev_source x) tag = true)) ->
  u ∈ values (fold_left (evidence_step evidence) l f) <->
  u ∈ values f \/ exists x, x ∈ l /\ u ∈ binary_operands x /\ profiled evidence (ev_source x) tag = true.
Proof.
  intros Hstep. revert f. induction l as [|x l IH]; intros f; cbn [fold_left].
  { setoid_rewrite elem_of_nil. naive_solver. }
  rewrite IH, Hstep. setoid_rewrite elem_of_cons. naive_solver.
Qed.
Lemma evidence_step_marks evidence f x u :
  (u ∈ pf_exact_compact_int_values (evidence_step evidence f x) <->
     u ∈ pf_exact_compact_int_values f \/ (u ∈ binary_operands x /\ profiled evidence (ev_source x) Tag_Int = true))
  /\ (u ∈ pf_exact_str_values (evidence_step evidence f x) <->
     u ∈ pf_exact_str_values f \/ (u ∈ binary_operands x /\ profiled evidence (ev_source x) Tag_Str = true)).
Proof.
  unfold evidence_step, binary_operands, profiled. destruct (ev_kind x) as [|op l r| |]; try (rewrite elem_of_nil; tauto).
  destruct (ev_source x) as [s|]; cbn [mbind option_bind]; [|intuition congruence].
  destruct (pe_operator_specializations evidence !! s) as [shapes|]; [|intuition congruence].
  rewrite !elem_of_cons, elem_of_nil.
  destruct (has_exact_binary_shape shapes Tag_Int), (has_exact_binary_shape shapes Tag_Str);
    cbn; rewrite ?elem_of_union, ?elem_of_singleton; intuition congruence.
Qed.
Lemma evidence_constants evidence l f : pf_i64_constants (fold_left (evidence_step evidence) l f) = pf_i64_constants f.
Proof.
  revert f. induction l as [|x l IH]; intros f; [done|]. cbn [fold_left]. rewrite IH. unfold evidence_step.
  destruct (ev_kind x), (ev_source x) as [s|]; try done. destruct (pe_operator_specializations evidence !! s); [|done].
  by destruct (has_exact_binary_shape _ Tag_Int), (has_exact_binary_shape _ Tag_Str).
Qed.
Lemma hint_facts hints :
  fold_left (fun facts (entry : ExtractedValueId * Z) => set_i64_constant facts entry.1 entry.2) (map_to_list hints) planner_facts_default
  = mkPlannerFacts ∅ ∅ hints.
Proof.
  assert (forall l m, NoDup l.*1 -> (forall k, k ∈ l.*1 -> m !! k = None) ->
    fold_left (fun facts (entry : ExtractedValueId * Z) => set_i64_constant facts entry.1 entry.2) l (mkPlannerFacts ∅ ∅ m)
    = mkPlannerFacts ∅ ∅ (list_to_map l ∪ m)) as H.
  { intros l. induction l as [|[k c] l IH]; intros m Hn Hm; cbn; [by rewrite map_empty_union|].
    apply NoDup_cons in Hn as [Hk Hn]. unfold set_i64_constant. cbn. rewrite IH; [|done|].
    - f_equal. rewrite <- insert_union_r; [by rewrite insert_union_l|]. by apply not_elem_of_list_to_map.
    - intros k' Hk'. rewrite lookup_insert_ne; [apply Hm; by right|]. by intros ->. }
  unfold planner_facts_default. rewrite H; [|apply NoDup_fst_map_to_list|intros; apply lookup_empty].
  by rewrite map_union_empty, list_to_map_to_list.
Qed.
Lemma hint_lookup constants l h u :
  NoDup (map ev_id l) ->
  fold_left (hint_step constants) l h !! u =
  match List.find (fun x => bool_decide (ev_id x = u)) l ≫= value_constant constants with Some c => Some c | None => h !! u end.
Proof.
  revert h. induction l as [|x l IH]; intros h Hn; [done|]. apply NoDup_cons in Hn as [Hx Hn]. cbn [fold_left List.find]. rewrite (IH _ Hn).
  assert (hint_step constants h x = match value_constant constants x with Some c => <[ev_id x := c]> h | None => h end) as ->.
  { unfold hint_step, value_constant. destruct (ev_kind x); try done. by destruct (rn_location name). }
  case_bool_decide as E.
  - assert (List.find (fun x => bool_decide (ev_id x = u)) l = None) as ->.
    { destruct (List.find _ l) as [y|] eqn:Ef; [|done]. apply List.find_some in Ef as [Hy Ey]. apply bool_decide_eq_true in Ey.
      destruct Hx. rewrite E, <- Ey. apply list_elem_of_fmap_2. by apply list_elem_of_In. }
    cbn. destruct (value_constant constants x); [|done]. subst u. by rewrite lookup_insert_eq.
  - destruct (List.find _ l ≫= _); [done|]. destruct (value_constant constants x); [|done]. by rewrite lookup_insert_ne.
Qed.

Definition region_facts (r : ExtractedRegion) (evidence : FunctionProfileEvidence) (constants : list ConstantExpr) : PlannerFacts :=
  planner_facts_from_profile_evidence_v3 r evidence (planner_fact_hints_from_module_constants_v3 r constants).

(** ** What is read off an expression *)

Section source.
Context (evidence : FunctionProfileEvidence) (constants : list ConstantExpr) (fields : FieldLoads) (globals : GlobalLoads).

Definition local_of (i : InstrBlockPy) : option string :=
  match i with
  | mkInstr _ (Op_Load name _) [] => match rn_location name with NL_Local _ => Some (rn_id name) | _ => None end
  | _ => None
  end.
Definition input_of (allow : bool) (i : InstrBlockPy) : option PyObjectRegionInputSource :=
  match i with
  | mkInstr source (Op_Load name binding) [] =>
      match rn_location name with
      | NL_Local _ => Some (IS_LocalName (rn_id name))
      | NL_Cell _ => source ← source; binding ← binding; Some (IS_CellValue source name binding)
      | NL_Constant index => Some (IS_ModuleConstant index)
      | NL_Global slot =>
          source ← source; plan ← globals !! source;
          if bool_decide (ig_name plan = rn_id name) && (ig_expected_index plan =? global_slot slot)
          then Some (IS_IndexedGlobal source (ig_module_name plan) (ig_name plan) (ig_expected_index plan)) else None
      | _ => None
      end
  | mkInstr source Op_GetAttr [receiver; _] =>
      if allow then
        source ← source; plan ← fields !! source; receiver ← local_of receiver;
        Some (IS_IndexedField source receiver (if_owner_type plan) (if_attr_name plan) (if_expected_index plan))
      else None
  | _ => None
  end.
Definition constant_of (i : InstrBlockPy) : option Z :=
  match i with
  | mkInstr _ (Op_Load name _) [] => index ← as_constant (rn_location name); module_i64_constant constants index
  | _ => None
  end.

Definition source_compare (branch : bool) (tag : ExactTypeTag) (source : option InstrId) (op : BinOpKind) (lhs rhs : InstrBlockPy) :
    option CompareShape :=
  compare ← compare_alternative_spec op;
  if profiled evidence source tag then
    lhs ← input_of branch lhs; rhs ← input_of branch rhs; Some (mkCompareShape source lhs rhs compare)
  else None.
(** [if a + b > 0] where the addition was profiled. *)
Definition source_add_gt_zero (source : option InstrId) (op : BinOpKind) (lhs rhs : InstrBlockPy) : option CompactIntBranchShape :=
  match op, constant_of rhs, lhs with
  | Gt, Some zero, mkInstr sum (Op_BinOp Add) [a; b] =>
      if (zero =? 0) && profiled evidence sum Tag_Int then
        a ← input_of true a; b ← input_of true b; Some (mkIntBranchShape source a b)
      else None
  | _, _, _ => None
  end.
(** A comparison with a constant on either side. *)
Definition source_constant (source : option InstrId) (op : BinOpKind) (lhs rhs : InstrBlockPy) :
    option CompactIntCompareConstantBranchShape :=
  compare ← compare_alternative_spec op;
  if profiled evidence source Tag_Int then
    match constant_of rhs with
    | Some c => value ← input_of true lhs; Some (mkCompareConstantShape source value c false compare)
    | None => c ← constant_of lhs; value ← input_of true rhs; Some (mkCompareConstantShape source value c true compare)
    end
  else None.
Definition source_return (source : option InstrId) (op : BinOpKind) (lhs rhs : InstrBlockPy) : option CompactIntReturnShape :=
  operation ← binary_return_alternative_spec op;
  if profiled evidence source Tag_Int then
    lhs ← input_of false lhs; rhs ← input_of false rhs; Some (mkIntReturnShape source lhs rhs operation)
  else None.

Definition or_else {A} (a b : option A) : option A := match a with Some x => Some x | None => b end.
Definition expression_shape (branch : bool) (i : InstrBlockPy) : option PlannedShape :=
  match i with
  | mkInstr source (Op_BinOp op) [lhs; rhs] =>
      if branch then
        or_else (PS_AddGtZero <$> source_add_gt_zero source op lhs rhs)
          (or_else (PS_CompareConstant <$> source_constant source op lhs rhs)
            (or_else (PS_IntCompareBranch <$> source_compare true Tag_Int source op lhs rhs)
              (PS_StrCompareBranch <$> source_compare true Tag_Str source op lhs rhs)))
      else
        or_else (PS_IntCompareReturn <$> source_compare false Tag_Int source op lhs rhs)
          (or_else (PS_StrCompareReturn <$> source_compare false Tag_Str source op lhs rhs)
            (PS_IntBinaryReturn <$> source_return source op lhs rhs))
  | _ => None
  end.
End source.

(** ** Regions *)

Section recognised.
Context (r : ExtractedRegion) (evidence : FunctionProfileEvidence) (constants : list ConstantExpr).
Context (fields : FieldLoads) (globals : GlobalLoads).
Notation vals := (er_values r).
Notation facts := (region_facts r evidence constants).
Hypothesis numbered : forall i x, vals !! i = Some x -> ev_id x = mkExtractedValueId (Z.of_nat i).
Hypothesis once : forall x y u, x ∈ vals -> y ∈ vals -> u ∈ operands x -> u ∈ operands y -> x = y.

Lemma value_ids_nodup : NoDup (map ev_id vals).
Proof.
  apply NoDup_alt. intros i j u Hi Hj. rewrite list_lookup_fmap in Hi, Hj.
  destruct (vals !! i) as [x|] eqn:Ei; [|done]. destruct (vals !! j) as [y|] eqn:Ej; [|done]. cbn in Hi, Hj.
  injection Hi as <-. injection Hj as Hj. rewrite (numbered _ _ Ei), (numbered _ _ Ej) in Hj. injection Hj. lia.
Qed.
Lemma find_value i x : vals !! i = Some x -> region_value r (ev_id x) = Some x.
Proof.
  intros Hi. unfold region_value. destruct (List.find _ vals) as [y|] eqn:E.
  - apply List.find_some in E as [Hy E]. apply bool_decide_eq_true in E. apply list_elem_of_In, list_elem_of_lookup in Hy as [j Hj].
    rewrite (numbered _ _ Hi), (numbered _ _ Hj) in E. injection E as E. assert (j = i) as -> by lia. congruence.
  - apply list_elem_of_lookup_2, list_elem_of_In in Hi. eapply List.find_none in E; [|exact Hi]. by rewrite bool_decide_true in E.
Qed.
Lemma denotes_value v iid op children :
  denotes vals v (mkInstr iid op children) -> exists kind vs, region_value r v = Some (mkExtractedValue v iid kind)
    /\ mkExtractedValue v iid kind ∈ vals /\ kind_op kind = (op, vs) /\ Forall2 (denotes vals) vs children.
Proof.
  intros H. inversion H as [? ? kind ? vs ? Hl Hk Hc]; subst. exists kind, vs. split_and!; [|by eapply list_elem_of_lookup_2|done|done].
  apply (find_value _ _ Hl).
Qed.
Lemma fact_constant v : i64_constant facts v = region_value r v ≫= value_constant constants.
Proof.
  unfold i64_constant, region_facts, planner_facts_from_profile_evidence_v3. rewrite evidence_constants, hint_facts. cbn.
  unfold planner_fact_hints_from_module_constants_v3. rewrite hint_lookup by apply value_ids_nodup. rewrite lookup_empty.
  fold (region_value r v). by destruct (region_value r v ≫= value_constant constants).
Qed.
Lemma fact_exact x u :
  x ∈ vals -> u ∈ binary_operands x ->
  is_exact_compact_int facts u = profiled evidence (ev_source x) Tag_Int
  /\ is_exact_str facts u = profiled evidence (ev_source x) Tag_Str.
Proof.
  intros Hx Hu. assert (forall y, y ∈ vals -> u ∈ binary_operands y -> y = x) as Huniq.
  { intros y Hy Huy. eapply once; [done|done| |]; unfold binary_operands in *.
    - by destruct (ev_kind y); try (by apply not_elem_of_nil in Huy).
    - by destruct (ev_kind x); try (by apply not_elem_of_nil in Hu). }
  assert (forall (values : PlannerFacts -> gset ExtractedValueId) tag,
    (forall f x, u ∈ values (evidence_step evidence f x) <-> u ∈ values f \/ (u ∈ binary_operands x /\ profiled evidence (ev_source x) tag = true)) ->
    values (mkPlannerFacts ∅ ∅ (planner_fact_hints_from_module_constants_v3 r constants)) = ∅ ->
    bool_decide (u ∈ values facts) = profiled evidence (ev_source x) tag) as H.
  { intros values tag Hstep H0. apply eq_true_iff_eq. rewrite bool_decide_eq_true. unfold region_facts, planner_facts_from_profile_evidence_v3.
    rewrite hint_facts, (evidence_marks values tag) by done. rewrite H0. split.
    - intros [?%elem_of_empty|(y & Hy & Huy & Hp)]; [done|]. by rewrite <- (Huniq _ Hy Huy).
    - intros Hp. right. eauto. }
  split; [apply (H pf_exact_compact_int_values)|apply (H pf_exact_str_values)]; try done; intros f y; apply evidence_step_marks.
Qed.

(** *** Operands *)

Lemma denotes_constant v i : denotes vals v i -> i64_constant facts v = constant_of constants i.
Proof.
  intros H. destruct i as [iid op children]. apply denotes_value in H as (kind & vs & Hv & _ & Hk & Hc).
  rewrite fact_constant, Hv. cbn. unfold value_constant. cbn.
  destruct kind; cbn in Hk; injection Hk as <- <-; [|done..]. by inversion Hc; subst.
Qed.
Lemma denotes_local v i : denotes vals v i -> local_name_input_source r v = local_of i.
Proof.
  intros H. destruct i as [iid op children]. apply denotes_value in H as (kind & vs & Hv & _ & Hk & Hc).
  unfold local_name_input_source. rewrite Hv. cbn. destruct kind; cbn in Hk; injection Hk as <- <-; [|done..]. by inversion Hc; subst.
Qed.
Lemma denotes_input allow v i : denotes vals v i -> pyobject_input_source r fields globals allow v = input_of fields globals allow i.
Proof.
  intros H. destruct i as [iid op children]. apply denotes_value in H as (kind & vs & Hv & _ & Hk & Hc).
  unfold pyobject_input_source. rewrite Hv. cbn [mbind option_bind ev_kind ev_source].
  destruct kind as [name cell| |value attr|]; cbn in Hk; injection Hk as <- <-; [| | |].
  - inversion Hc; subst. unfold load_name_pyobject_input_source. cbn. destruct (rn_location name); try done.
    destruct iid; [|done]. cbn. destruct (globals !! i); [|done]. cbn. by destruct (bool_decide _), (_ =? _).
  - by inversion Hc as [|? ? ? ? ? Hc2]; subst; inversion Hc2 as [|? ? ? ? ? Hc3]; subst; inversion Hc3; subst.
  - inversion Hc as [|? recv ? ? Hr Hc2]; subst. inversion Hc2 as [|? a ? ? _ Hc3]; subst. inversion Hc3; subst. cbn.
    by rewrite (denotes_local _ _ Hr).
  - done.
Qed.

(** *** Matches *)

Lemma denotes_binary v i :
  denotes vals v i ->
  (exists iid op lhs rhs u1 u2, i = mkInstr iid (Op_BinOp op) [lhs; rhs]
     /\ region_value r v = Some (mkExtractedValue v iid (EV_Binary op u1 u2)) /\ denotes vals u1 lhs /\ denotes vals u2 rhs
     /\ (is_exact_compact_int facts u1 = profiled evidence iid Tag_Int /\ is_exact_str facts u1 = profiled evidence iid Tag_Str)
     /\ is_exact_compact_int facts u2 = profiled evidence iid Tag_Int /\ is_exact_str facts u2 = profiled evidence iid Tag_Str)
  \/ (exists x, region_value r v = Some x /\ forall op u1 u2, ev_kind x <> EV_Binary op u1 u2)
     /\ forall iid op lhs rhs, i <> mkInstr iid (Op_BinOp op) [lhs; rhs].
Proof.
  intros H. destruct i as [iid op children]. apply denotes_value in H as (kind & vs & Hv & Hin & Hk & Hc).
  destruct kind as [|bop u1 u2| |]; cbn in Hk; injection Hk as <- <-.
  2: { inversion Hc as [|? lhs ? ? H1 Hc2]; subst. inversion Hc2 as [|? rhs ? ? H2 Hc3]; subst. inversion Hc3; subst. left.
       exists iid, bop, lhs, rhs, u1, u2. split_and!; [done|done|done|done|apply (fact_exact _ _ Hin); cbn; set_solver..]. }
  all: right; (split; [eexists; split; [exact Hv|done]|done]).
Qed.

Notation planned := (planned_shape r facts fields globals).
Notation source_shape := (expression_shape evidence constants fields globals).
Lemma no_branch : branch_binary r = None ->
  match_compact_int_add_gt_zero_branch r facts fields globals = None /\ match_compact_int_compare_constant_branch r facts fields globals = None
  /\ match_compact_int_compare_branch r facts fields globals = None /\ match_exact_str_compare_branch r facts fields globals = None.
Proof.
  intros H. unfold match_compact_int_add_gt_zero_branch, match_compact_int_compare_constant_branch, match_compact_int_compare_branch,
    match_exact_str_compare_branch. by rewrite H.
Qed.
Lemma no_return : return_binary r = None ->
  match_compact_int_compare_return r facts fields globals = None /\ match_exact_str_compare_return r facts fields globals = None
  /\ match_compact_int_binary_return r facts fields globals = None.
Proof.
  intros H. unfold match_compact_int_compare_return, match_exact_str_compare_return, match_compact_int_binary_return. by rewrite H.
Qed.
Lemma both b : negb b || negb b = negb b.
Proof. by destruct b. Qed.
Lemma return_planned source v i :
  er_exit r = EE_Return source v -> denotes vals v i -> source = try_semantic_instr_id i -> planned = source_shape false i.
Proof.
  intros He Hv ->. destruct (no_branch) as (N1 & N2 & N3 & N4); [unfold branch_binary; by rewrite He|].
  unfold planned_shape. rewrite N1, N2, N3, N4.
  apply denotes_binary in Hv as [(iid & op & lhs & rhs & u1 & u2 & -> & Hr & H1 & H2 & [I1 S1] & I2 & S2)|[(x & Hr & Hk) Hi]].
  - assert (return_binary r = Some (iid, op, u1, u2)) as Hb by (unfold return_binary; rewrite He, Hr; done).
    unfold match_compact_int_compare_return, match_exact_str_compare_return, match_compact_int_binary_return. rewrite Hb.
    cbn [mbind option_bind]. rewrite I1, I2, S1, S2, !both, !(denotes_input _ _ _ H1), !(denotes_input _ _ _ H2).
    unfold expression_shape, source_compare, source_return.
    destruct (compare_alternative_spec op), (binary_return_alternative_spec op), (profiled evidence iid Tag_Int), (profiled evidence iid Tag_Str);
      cbn; try done; destruct (input_of fields globals false lhs); cbn; try done; by destruct (input_of fields globals false rhs).
  - destruct no_return as (R1 & R2 & R3).
    { unfold return_binary. rewrite He, Hr. cbn. destruct (ev_kind x); try done. by destruct (Hk op left right). }
    rewrite R1, R2, R3. cbn. destruct i as [iid op children]. destruct op; try done. by destruct children as [|? [|? [|]]]; try destruct (Hi _ _ _ _ eq_refl).
Qed.
Lemma branch_planned source condition t e v i c :
  er_exit r = EE_Branch source condition t e -> region_value r condition = Some c -> ev_kind c = EV_Truthiness v ->
  denotes vals v i -> source = try_semantic_instr_id i -> planned = source_shape true i.
Proof.
  intros He Hc Hk Hv ->. destruct (no_return) as (N1 & N2 & N3); [unfold return_binary; by rewrite He|].
  unfold planned_shape. rewrite N1, N2, N3.
  apply denotes_binary in Hv as [(iid & op & lhs & rhs & u1 & u2 & -> & Hr & H1 & H2 & [I1 S1] & I2 & S2)|[(x & Hr & Hx) Hi]].
  - assert (branch_binary r = Some (iid, op, u1, u2)) as Hb by (unfold branch_binary; rewrite He, Hc; cbn; rewrite Hk, Hr; done).
    assert (match_compact_int_add_gt_zero_branch r facts fields globals = source_add_gt_zero evidence constants fields globals iid op lhs rhs) as ->.
    { unfold match_compact_int_add_gt_zero_branch, source_add_gt_zero. rewrite Hb. cbn [mbind option_bind].
      rewrite (denotes_constant _ _ H2). destruct op; try done. destruct (constant_of constants rhs) as [zero|]; [|done]. cbn [mbind option_bind].
      destruct (zero =? 0); cbn [negb andb]; [|by destruct lhs as [? [] [|? [|? [|]]]]; try done; destruct kind].
      apply denotes_binary in H1 as [(sid & sop & a & b & w1 & w2 & -> & Hs & Ha & Hbb & [J1 _] & J2 & _)|[(y & Hs & Hy) Hl]]; rewrite Hs; cbn [mbind option_bind ev_kind].
      - destruct sop; try done. rewrite J1, J2, both, (denotes_input _ _ _ Ha), (denotes_input _ _ _ Hbb). by destruct (profiled evidence sid Tag_Int).
      - destruct (ev_kind y) as [|yop y1 y2| |] eqn:Ey; try (by destruct (Hy yop y1 y2)); destruct lhs as [? [] [|? [|? [|]]]]; try done;
          destruct kind; try done; by destruct (Hl _ _ _ _ eq_refl). }
    unfold match_compact_int_compare_constant_branch, match_compact_int_compare_branch, match_exact_str_compare_branch. rewrite Hb.
    cbn [mbind option_bind]. rewrite I1, I2, S1, S2, !both, !(denotes_input _ _ _ H1), !(denotes_input _ _ _ H2), (denotes_constant _ _ H1), (denotes_constant _ _ H2).
    unfold expression_shape, source_compare, source_constant. destruct (source_add_gt_zero _ _ _ _ _ _ _ _); [done|].
    destruct (compare_alternative_spec op), (profiled evidence iid Tag_Int), (profiled evidence iid Tag_Str), (constant_of constants rhs), (constant_of constants lhs);
      cbn; try done; destruct (input_of fields globals true lhs); cbn; try done; by destruct (input_of fields globals true rhs).
  - destruct no_branch as (R1 & R2 & R3 & R4).
    { unfold branch_binary. rewrite He, Hc. cbn. rewrite Hk, Hr. cbn. destruct (ev_kind x); try done. by destruct (Hx op left right). }
    rewrite R1, R2, R3, R4. cbn. destruct i as [iid op children]. destruct op; try done. by destruct children as [|? [|? [|]]]; try destruct (Hi _ _ _ _ eq_refl).
Qed.
End recognised.

(** ** Extracted regions *)

Definition branches (b : Block InstrBlockPy) (instr : option InstrBlockPy) : bool :=
  match instr, blk_term b with None, BT_If _ => true | _, _ => false end.

Lemma planted_region b' new v i r :
  planted region_builder_new b' new v i -> er_values r = new ->
  (forall k x, er_values r !! k = Some x -> ev_id x = mkExtractedValueId (Z.of_nat k))
  /\ (forall x y u, x ∈ er_values r -> y ∈ er_values r -> u ∈ operands x -> u ∈ operands y -> x = y)
  /\ denotes (er_values r) v i.
Proof.
  intros [B _ _ _ U D] ->. assert (forall k x, new !! k = Some x -> ev_id x = mkExtractedValueId (Z.of_nat k)) as Hn.
  { intros k x Hx. rewrite (built_ids _ _ _ B _ _ Hx). done. }
  split_and!; [done|done|]. apply D. intros x Hx. apply list_elem_of_lookup in Hx as [k Hk]. rewrite (Hn _ _ Hk). cbn. by rewrite Nat2Z.id.
Qed.
Lemma extract_planned evidence constants fields globals b instr id r i :
  extract b instr id = Ok r -> source_expression b instr = Some i -> instr_size i + 1 < 2 ^ 32 ->
  planned_shape r (region_facts r evidence constants) fields globals
  = expression_shape evidence constants fields globals (branches b instr) i.
Proof.
  intros H Hs Hsize.
  assert (forall b1 v value, linearize_instr region_builder_new value = Ok (b1, v) -> instr_size value + 1 < 2 ^ 32 ->
    er_values r = rb_values b1 -> er_exit r = EE_Return (value_source (rb_values b1) v) v ->
    planned_shape r (region_facts r evidence constants) fields globals = expression_shape evidence constants fields globals false value) as Hret.
  { intros b1 v value El Hz Ev Ee. destruct (linearize_planted _ _ _ _ El) as [new C]; [cbn; lia|cbn; lia|].
    destruct (planted_region b1 new v value r C) as (Hn & Ho & Hd); [by rewrite Ev, (built_values _ _ _ (pl_built _ _ _ _ _ C))|].
    eapply return_planned; [done|done|exact Ee|done|]. rewrite <- Ev. destruct value as [iid op children].
    destruct (denotes_value r Hn _ _ _ _ Hd) as (kind & vs & Hv & _). unfold value_source, region_value in *. by rewrite Hv. }
  destruct instr as [instr|]; cbn in H, Hs.
  - unfold extract_block_body_instr_region_v3 in H. case_bool_decide; [done|].
    destruct instr as [iid op children]. destruct op; try done. destruct children as [|value [|]]; try done. injection Hs as <-.
    destruct (linearize_instr region_builder_new value) as [[b1 v]|] eqn:El; [|done]. cbn in H. injection H as <-. by eapply Hret.
  - unfold branches. unfold extract_block_term_region_v3 in H. case_bool_decide; [done|].
    destruct (blk_term b) as [|t| | |value|] eqn:Et; try done; injection Hs as <-.
    + unfold extract_if_term in H. destruct (linearize_instr region_builder_new (ti_test t)) as [[b1 v]|] eqn:El; [|done]. cbn [rbind] in H.
      destruct (builder_push b1 _ _) as [b2 cond] eqn:Ep. cbn in H. injection H as <-. clear Hret.
      destruct (linearize_planted _ _ _ _ El) as [new C]; [cbn; lia|cbn; lia|].
      set (iid := try_semantic_instr_id (ti_test t)) in *. set (truth := mkInstr iid (Op_UnaryOp Truth) [ti_test t]).
      assert (planted region_builder_new b2 ((new ++ []) ++ [mkExtractedValue cond iid (EV_Truthiness v)]) cond truth) as Ct.
      { eapply planted_node; [eapply planted_cons; [exact C|apply planted_none]| |exact Ep|cbn; lia|]; [done|].
        unfold instr_size in *. cbn [instrs_pre length map concat truth]. rewrite app_nil_r. cbn [rb_next_value region_builder_new]. lia. }
      set (r := mkExtractedRegion _ _ _ _ _ _). destruct (planted_region b2 _ cond truth r Ct) as (Hn & Ho & Hd); [apply (pl_built _ _ _ _ _ Ct)|].
      destruct (denotes_value r Hn _ _ _ _ Hd) as (kind & vs & Hv & _ & Hk & Hc).
      destruct kind; cbn in Hk; try discriminate. injection Hk as <-. inversion Hc as [|? ? ? ? Ht _]; subst.
      eapply branch_planned; [done|done|reflexivity|exact Hv|reflexivity|exact Ht|done].
    + destruct (linearize_instr region_builder_new value) as [[b1 v]|] eqn:El; [|done]. cbn in H. injection H as <-. by eapply Hret.
Qed.

(** C26: The planner recognises expressions: whichever fast path it chooses for a region of a
    function, and whether it chooses one, is read off the expression the region stands for: the
    operator, the locals, cells, constants, planned fields and planned globals its operands are
    loaded from, the integer a constant operand has in the module, and the operand types that
    the profile recorded at the instruction of that operator itself. *)
Theorem planned_shapes_read_off f evidence constants fields globals :
  small f -> forall k b instr a r i,
  sources f !! k = Some (b, instr) -> extract_function_regions_v3 f !! k = Some a -> ra_result a = Ok r ->
  source_expression b instr = Some i ->
  planned_shape r (planner_facts_from_profile_evidence_v3 r evidence (planner_fact_hints_from_module_constants_v3 r constants))
    fields globals
  = expression_shape evidence constants fields globals (branches b instr) i.
Proof.
  intros [_ Hs] k b instr a r i Hk Ha Hr Hi. rewrite function_attempts, list_lookup_imap, Hk in Ha. injection Ha as <-.
  cbn in Hr. eapply extract_planned; [exact Hr|exact Hi|]. eapply Hs; [|exact Hi]. by eapply list_elem_of_lookup_2.
Qed.

Lemma unpack_pack lhs rhs : unpack_binary_shape (pack_binary_shape lhs rhs) = Some (lhs, rhs).
Proof. by destruct lhs, rhs. Qed.

(** ** An example: [if t > 0], where integers were seen at the comparison *)

Module DemoMatch.
Definition evidence : FunctionProfileEvidence :=
  mkEvidence ∅ {[mkInstrId 8 := [pack_binary_shape Tag_Int Tag_Int]]} ∅ ∅ ∅ ∅.
Definition constants : list ConstantExpr := [Const_Literal (Lit_Number (Num_Int "0"))].
End DemoMatch.

Lemma planned_shapes_read_off_witness :
  exists a r, extract_function_regions_v3 DemoRegion.demo !! 1%nat = Some a /\ ra_result a = Ok r
    /\ planned_shape r (planner_facts_from_profile_evidence_v3 r DemoMatch.evidence
         (planner_fact_hints_from_module_constants_v3 r DemoMatch.constants)) ∅ ∅
       = Some (PS_CompareConstant (mkCompareConstantShape (Some (mkInstrId 8)) (IS_LocalName "t") 0 false
           (mkCompareSpec "binary.gt.py_richcompare" "binary.gt.exact_compact_int.i32bool" "binary.gt.exact_str.i32bool"))).
Proof.
  eexists _, _. split; [vm_compute; reflexivity|]. split; [reflexivity|].
  erewrite (planned_shapes_read_off DemoRegion.demo DemoMatch.evidence DemoMatch.constants ∅ ∅ DemoRegion.demo_small 1%nat
    DemoRegion.block None); [..|reflexivity]; [|reflexivity|vm_compute; reflexivity|reflexivity].
  vm_compute. reflexivity.
Defined.
