(* ===== verification/Plan.v ===== *)
(** * Region plans

    crates/soac_ir_typed/src/plan_v3.rs, the plans of regions: typed values, the nodes that
    compute them, what happens when a node fails, the exits, and the validation of a region. *)

From stdpp Require Import gmap.
From S2P Require Import Prelude Ids Cfg Names Instr Region Specialize.

Local Open Scope Z_scope.

(** ** Values *)

#[global] Program Instance RegionId_countable : Countable RegionId := inj_countable' region_number mkRegionId _.
Next Obligation. by intros []. Qed.

Record PlanValueId : Type := mkPlanValueId { plan_value_number : Z }.
Record PlanNodeId : Type := mkPlanNodeId { plan_node_number : Z }.
Record DeoptPointId : Type := mkDeoptPointId { deopt_point_number : Z }.
#[global] Instance PlanValueId_eq_dec : EqDecision PlanValueId.
Proof. solve_decision. Defined.
#[global] Instance PlanNodeId_eq_dec : EqDecision PlanNodeId.
Proof. solve_decision. Defined.
#[global] Instance DeoptPointId_eq_dec : EqDecision DeoptPointId.
Proof. solve_decision. Defined.
#[global] Program Instance PlanValueId_countable : Countable PlanValueId :=
  inj_countable' plan_value_number mkPlanValueId _.
Next Obligation. by intros []. Qed.
#[global] Program Instance PlanNodeId_countable : Countable PlanNodeId :=
  inj_countable' plan_node_number mkPlanNodeId _.
Next Obligation. by intros []. Qed.
#[global] Program Instance DeoptPointId_countable : Countable DeoptPointId :=
  inj_countable' deopt_point_number mkDeoptPointId _.
Next Obligation. by intros []. Qed.

Inductive Rep : Type := PyObjectOwned | PyObjectBorrowed | PyObjectImmortal | I32Bool01 | I64.
#[global] Instance Rep_eq_dec : EqDecision Rep.
Proof. solve_decision. Defined.
#[global] Program Instance Rep_countable : Countable Rep := inj_countable
  (fun r => match r with PyObjectOwned => 0 | PyObjectBorrowed => 1 | PyObjectImmortal => 2 | I32Bool01 => 3 | I64 => 4 end%nat)
  (fun n => [PyObjectOwned; PyObjectBorrowed; PyObjectImmortal; I32Bool01; I64] !! n) _.
Next Obligation. by intros []. Qed.
Definition is_python_object (r : Rep) : bool :=
  match r with PyObjectOwned | PyObjectBorrowed | PyObjectImmortal => true | I32Bool01 | I64 => false end.

Record PlanValue : Type := mkPlanValue { pv_id : PlanValueId; pv_rep : Rep }.
#[global] Instance PlanValue_eq_dec : EqDecision PlanValue.
Proof. solve_decision. Defined.
#[global] Program Instance PlanValue_countable : Countable PlanValue :=
  inj_countable' (fun v => (pv_id v, pv_rep v)) (fun p => mkPlanValue p.1 p.2) _.
Next Obligation. by intros []. Qed.
Definition plan_value_new (id : Z) (rep : Rep) : PlanValue := mkPlanValue (mkPlanValueId id) rep.

(** ** Nodes *)

Inductive PlannedConstant : Type := PC_I64 (value : Z) | PC_Bool (value : bool) | PC_RuntimeName (name : string).

Inductive ConversionKind : Type :=
| FromPythonLongCompactToI64 | ToPythonLongOwned | ToPythonBoolImmortal | TruthinessToI32Bool01.
Inductive ConversionPrecondition : Type :=
| CP_Infallible
| CP_DominatingFacts (reason : string)
| CP_SpecializationGuard (guard : PlanNodeId) (reason : string).
Inductive ConversionOwnership : Type := CO_Preserve | CO_MaterializeOwned | CO_BorrowInput | CO_ConsumeOwned.

Inductive FallbackTarget : Type :=
| FT_Region (region : RegionId) | FT_Node (node : PlanNodeId) | FT_OriginalInstruction (instr : InstrId).
Record PythonExceptionSpec : Type := mkExceptionSpec { px_kind : string; px_reason : string }.
Inductive FailureMode : Type :=
| FM_CannotFail
| FM_Raise (exception : PythonExceptionSpec)
| FM_FallbackToPlan (target : FallbackTarget) (reason : string)
| FM_DeoptTo (target : DeoptPointId) (reason : string).
Inductive FailureReplayKind : Type := SafeToReplay | MustUseLocalFallback.
Record FailureReplayPolicy : Type := mkReplayPolicy { rp_replay : FailureReplayKind; rp_reason : string }.
Definition replay_safe (reason : string) : FailureReplayPolicy := mkReplayPolicy SafeToReplay reason.
Definition replay_local_fallback (reason : string) : FailureReplayPolicy := mkReplayPolicy MustUseLocalFallback reason.

Record ConvertNode : Type := mkConvert {
  cn_input : PlanValue;
  cn_output : PlanValue;
  cn_kind : ConversionKind;
  cn_precondition : ConversionPrecondition;
  cn_failure : FailureMode;
  cn_ownership : ConversionOwnership
}.

Inductive GuardKind : Type := SpecializationCheck.
Record GuardSpec : Type := mkGuardSpec {
  gs_kind : GuardKind; gs_replay : FailureReplayPolicy; gs_description : string }.
Inductive GuardFailure : Type :=
| GF_FallbackToPlan (target : FallbackTarget) (reason : string)
| GF_DeoptTo (target : DeoptPointId) (reason : string).
Record GuardNode : Type := mkGuard {
  gn_inputs : list PlanValue; gn_guard : GuardSpec; gn_failure : GuardFailure }.

Inductive RichCompareOp : Type := RC_Eq | RC_Ne | RC_Lt | RC_Le | RC_Gt | RC_Ge.
Inductive PlannedOp : Type :=
| PyNumberAdd | PyNumberSubtract | PyNumberMultiply | PyNumberBitAnd | PyNumberBitOr | PyNumberBitXor
| PyObjectRichCompare (op : RichCompareOp)
| PyObjectRichCompareBool (op : RichCompareOp)
| PyObjectIsTrue
| CheckedI64Add | CheckedI64Sub | CheckedI64Mul
| I64BitAnd | I64BitOr | I64BitXor
| I64CompareToBool01 (op : RichCompareOp)
| DirectHelper (name : string).
Record OperationNode : Type := mkOperation {
  on_op : PlannedOp;
  on_inputs : list PlanValue;
  on_output : option PlanValue;
  on_failure_replay : FailureReplayPolicy;
  on_failure : FailureMode;
  on_cost : Cost
}.

Inductive MaterializeKind : Type := MK_PythonLong | MK_PythonBool.
Record MaterializeNode : Type := mkMaterialize {
  mn_input : PlanValue; mn_output : PlanValue; mn_kind : MaterializeKind }.

Inductive OwnershipActionKind : Type :=
| OA_Incref | OA_Decref | OA_TransferOwned | OA_BorrowLocal | OA_MaterializeOwned.
Record OwnershipAction : Type := mkOwnershipAction {
  oa_value : PlanValue; oa_kind : OwnershipActionKind; oa_reason : string }.

Inductive PlanNodeKind : Type :=
| PN_Input (output : PlanValue)
| PN_Constant (output : PlanValue) (constant : PlannedConstant)
| PN_Convert (node : ConvertNode)
| PN_Guard (node : GuardNode)
| PN_Operation (node : OperationNode)
| PN_Materialize (node : MaterializeNode)
| PN_Fallback (target : FallbackTarget)
| PN_Deopt (target : DeoptPointId)
| PN_Ownership (action : OwnershipAction).
Record PlanNode : Type := mkPlanNode { pn_id : PlanNodeId; pn_source : option InstrId; pn_kind : PlanNodeKind }.

(** ** Regions *)

Inductive RegionSource : Type :=
| RS_FunctionEntry | RS_Instr (instr_id : InstrId) | RS_Synthetic (reason : string).
Inductive IndexedFieldReceiverSource : Type := FR_LocalName (name : string).
Inductive RegionInputSource : Type :=
| RI_FunctionParam (index : Z) (name : option string)
| RI_CellValue (source : InstrId) (name : ResolvedName) (binding : CellLoadBinding)
| RI_ModuleConstant (index : Z)
| RI_IndexedGlobal (source : InstrId) (module_name name : string) (expected_index : Z)
| RI_IndexedField (source : InstrId) (receiver : IndexedFieldReceiverSource) (owner_type : IndexedFieldOwnerType)
    (attr_name : string) (expected_index : Z)
| RI_CapturedValue (from_region : RegionId) (value : PlanValueId)
| RI_Synthetic (reason : string).
Record RegionInput : Type := mkRegionInput { ri_value : PlanValue; ri_source : RegionInputSource }.
Inductive RegionExitTarget : Type := RT_Region (region : RegionId) | RT_OriginalCfg.
Inductive RegionExitKind : Type :=
| RE_Branch (condition : PlanValue) (then_target else_target : RegionExitTarget)
| RE_Return (value : PlanValue)
| RE_Jump (target : RegionExitTarget).
Record RegionExitPlan : Type := mkRegionExit { rx_source : option InstrId; rx_kind : RegionExitKind }.
Record RegionPlan : Type := mkRegionPlan {
  rg_id : RegionId;
  rg_source : RegionSource;
  rg_inputs : list RegionInput;
  rg_nodes : list PlanNode;
  rg_exits : list RegionExitPlan
}.

(** ** Conversion rules *)

Inductive ConversionPreconditionRule : Type := PR_Infallible | PR_FactsOrGuard.
Inductive ConversionFailureRule : Type := FR_CannotFail | FR_MayRaise | FR_SpecializationMiss.
Record ConversionSignature : Type := mkSignature {
  sg_input : Rep;
  sg_output : Rep;
  sg_precondition : ConversionPreconditionRule;
  sg_failure : ConversionFailureRule;
  sg_ownership : ConversionOwnership
}.
#[global] Instance ConversionOwnership_eq_dec : EqDecision ConversionOwnership.
Proof. solve_decision. Defined.
Definition conversion_signature (kind : ConversionKind) : ConversionSignature :=
  match kind with
  | FromPythonLongCompactToI64 => mkSignature PyObjectBorrowed I64 PR_FactsOrGuard FR_SpecializationMiss CO_BorrowInput
  | ToPythonLongOwned => mkSignature I64 PyObjectOwned PR_Infallible FR_MayRaise CO_MaterializeOwned
  | ToPythonBoolImmortal => mkSignature I32Bool01 PyObjectImmortal PR_Infallible FR_CannotFail CO_Preserve
  | TruthinessToI32Bool01 => mkSignature PyObjectOwned I32Bool01 PR_Infallible FR_MayRaise CO_ConsumeOwned
  end.

(** ** Errors *)

Inductive PlanError : Type :=
| PE_DuplicateNode (region : RegionId) (node : PlanNodeId)
| PE_DuplicateValue (region : RegionId) (value : PlanValueId) (source : string)
| PE_WrongRep (region : RegionId) (value : PlanValueId) (expected available : Rep)
| PE_UndefinedValue (region : RegionId) (value : PlanValueId)
| PE_ConversionInput (region : RegionId) (kind : ConversionKind) (expected got : Rep)
| PE_ConversionOutput (region : RegionId) (kind : ConversionKind) (expected got : Rep)
| PE_ConversionOwnership (region : RegionId) (kind : ConversionKind) (expected got : ConversionOwnership)
| PE_GuardWithoutReason (region : RegionId) (kind : ConversionKind) (guard : PlanNodeId)
| PE_NonDominatingGuard (region : RegionId) (kind : ConversionKind) (guard : PlanNodeId)
| PE_InvalidPrecondition (region : RegionId) (kind : ConversionKind)
| PE_InvalidConversionFailure (region : RegionId) (kind : ConversionKind)
| PE_OverflowNeedsFallback (region : RegionId) (op : PlannedOp)
| PE_ShouldNotFail (region : RegionId) (op : PlannedOp)
| PE_MustRaise (region : RegionId) (op : PlannedOp)
| PE_Materialize (region : RegionId) (kind : MaterializeKind)
| PE_OperationArity (region : RegionId) (name : string) (expected got : nat)
| PE_OperationInput (region : RegionId) (name : string) (index : nat) (got : Rep)
| PE_OperationOutput (region : RegionId) (name : string) (expected got : option Rep)
| PE_EmptyReason (region : RegionId) (what : string)
| PE_UnknownDeoptPoint (region : RegionId) (target : DeoptPointId)
| PE_LocalFallbackToOriginal (region : RegionId)
| PE_DeoptNotReplayable (region : RegionId)
| PE_UnknownFallbackRegion (region target : RegionId)
| PE_UnknownFallbackNode (region : RegionId) (target : PlanNodeId)
| PE_UnknownExitRegion (region target : RegionId)
| PE_BranchNotBool (region : RegionId) (got : Rep)
| PE_ReturnNotObject (region : RegionId) (got : Rep)
| PE_OwnershipReason (region : RegionId) (value : PlanValue)
| PE_EmptyInputName (region : RegionId) (what : string) (value : PlanValue)
| PE_UnresolvedCell (region : RegionId) (value : PlanValue)
| PE_InputRep (region : RegionId) (what : string) (value : PlanValue)
| PE_UnknownCaptureRegion (region : RegionId) (value : PlanValueId) (from_region : RegionId)
| PE_CaptureRep (region : RegionId) (value : PlanValueId) (rep producer : Rep)
| PE_UndefinedCapture (region : RegionId) (value : PlanValueId) (from_region : RegionId).
Notation Errors := (list PlanError).

(** An error when the test fails. *)
Definition expect (test : bool) (error : PlanError) : Errors := if test then [] else [error].
(** A pass over a list that threads a state and gathers errors. *)
Definition gather {E S A : Type} (step : S -> A -> S * list E) (items : list A) (state : S) : S * list E :=
  fold_left (fun acc item => let '(state, errors) := step acc.1 item in (state, acc.2 ++ errors)) items (state, []).
Definition is_empty (s : string) : bool := bool_decide (s = EmptyString).

(** ** Validation of the parts *)

Section validate_parts.
Context (region : RegionId).

Definition define_value (value : PlanValue) (source : string)
    (state : gmap PlanValueId Rep * gset PlanValueId) : (gmap PlanValueId Rep * gset PlanValueId) * Errors :=
  let '(available_values, output_values) := state in
  if bool_decide (pv_id value ∈ output_values) then (state, [PE_DuplicateValue region (pv_id value) source])
  else ((<[pv_id value := pv_rep value]> available_values, {[pv_id value]} ∪ output_values), []).
Definition check_input (value : PlanValue) (available_values : gmap PlanValueId Rep) : Errors :=
  match available_values !! pv_id value with
  | Some rep => expect (bool_decide (rep = pv_rep value)) (PE_WrongRep region (pv_id value) (pv_rep value) rep)
  | None => [PE_UndefinedValue region (pv_id value)]
  end.

Definition validate_conversion_failure (convert : ConvertNode) (rule : ConversionSignature) : Errors :=
  match sg_failure rule, cn_failure convert with
  | FR_CannotFail, FM_CannotFail
  | FR_MayRaise, FM_Raise _
  | FR_SpecializationMiss, (FM_FallbackToPlan _ _ | FM_DeoptTo _ _) => []
  | _, _ => [PE_InvalidConversionFailure region (cn_kind convert)]
  end.
Definition validate_conversion (convert : ConvertNode) (seen_guard_ids : gset PlanNodeId) : Errors :=
  let rule := conversion_signature (cn_kind convert) in
  let kind := cn_kind convert in
  expect (bool_decide (pv_rep (cn_input convert) = sg_input rule))
    (PE_ConversionInput region kind (sg_input rule) (pv_rep (cn_input convert))) ++
  expect (bool_decide (pv_rep (cn_output convert) = sg_output rule))
    (PE_ConversionOutput region kind (sg_output rule) (pv_rep (cn_output convert))) ++
  expect (bool_decide (cn_ownership convert = sg_ownership rule))
    (PE_ConversionOwnership region kind (sg_ownership rule) (cn_ownership convert)) ++
  match sg_precondition rule, cn_precondition convert with
  | PR_Infallible, CP_Infallible => []
  | PR_FactsOrGuard, CP_DominatingFacts reason =>
      expect (negb (is_empty reason)) (PE_InvalidPrecondition region kind)
  | PR_FactsOrGuard, CP_SpecializationGuard guard reason =>
      if is_empty reason then [PE_GuardWithoutReason region kind guard]
      else expect (bool_decide (guard ∈ seen_guard_ids)) (PE_NonDominatingGuard region kind guard)
  | _, _ => [PE_InvalidPrecondition region kind]
  end ++
  validate_conversion_failure convert rule.

Definition validate_operation_failure_semantics (operation : OperationNode) : Errors :=
  let op := on_op operation in
  match op with
  | CheckedI64Add | CheckedI64Sub | CheckedI64Mul =>
      match on_failure operation with FM_FallbackToPlan _ _ => [] | _ => [PE_OverflowNeedsFallback region op] end
  | I64BitAnd | I64BitOr | I64BitXor | I64CompareToBool01 _ | PyObjectRichCompareBool _ =>
      match on_failure operation with FM_CannotFail => [] | _ => [PE_ShouldNotFail region op] end
  | PyNumberAdd | PyNumberSubtract | PyNumberMultiply | PyNumberBitAnd | PyNumberBitOr | PyNumberBitXor
  | PyObjectRichCompare _ | PyObjectIsTrue =>
      match on_failure operation with FM_Raise _ => [] | _ => [PE_MustRaise region op] end
  | DirectHelper _ => []
  end.

(** The representations before and after a materialization. *)
Definition materialize_reps (kind : MaterializeKind) : Rep * Rep :=
  match kind with MK_PythonLong => (I64, PyObjectOwned) | MK_PythonBool => (I32Bool01, PyObjectImmortal) end.
Definition validate_materialize (materialize : MaterializeNode) : Errors :=
  let expected := materialize_reps (mn_kind materialize) in
  expect (bool_decide (pv_rep (mn_input materialize) = expected.1) && bool_decide (pv_rep (mn_output materialize) = expected.2))
    (PE_Materialize region (mn_kind materialize)).

Definition validate_python_operation_inputs (operation : OperationNode) (arity : nat) (name : string) : Errors :=
  if negb (length (on_inputs operation) =? arity)%nat
  then [PE_OperationArity region name arity (length (on_inputs operation))]
  else concat (imap (fun index input =>
                   expect (is_python_object (pv_rep input)) (PE_OperationInput region name index (pv_rep input)))
                 (on_inputs operation)).
Definition validate_exact_inputs (operation : OperationNode) (expected : list Rep) (name : string) : Errors :=
  if negb (length (on_inputs operation) =? length expected)%nat
  then [PE_OperationArity region name (length expected) (length (on_inputs operation))]
  else concat (imap (fun index entry =>
                   expect (bool_decide (pv_rep entry.1 = entry.2)) (PE_OperationInput region name index (pv_rep entry.1)))
                 (zip (on_inputs operation) expected)).
Definition validate_operation_output (operation : OperationNode) (expected : option Rep) (name : string) : Errors :=
  match on_output operation, expected with
  | Some output, Some rep =>
      expect (bool_decide (pv_rep output = rep)) (PE_OperationOutput region name expected (Some (pv_rep output)))
  | None, None => []
  | output, _ => [PE_OperationOutput region name expected (pv_rep <$> output)]
  end.
Definition validate_operation (operation : OperationNode) : Errors :=
  match on_op operation with
  | PyNumberAdd | PyNumberSubtract | PyNumberMultiply | PyNumberBitAnd | PyNumberBitOr | PyNumberBitXor =>
      validate_python_operation_inputs operation 2 "PyNumberBinary" ++
      validate_operation_output operation (Some PyObjectOwned) "PyNumberBinary"
  | PyObjectRichCompare _ =>
      validate_python_operation_inputs operation 2 "PyObjectRichCompare" ++
      validate_operation_output operation (Some PyObjectOwned) "PyObjectRichCompare"
  | PyObjectRichCompareBool _ =>
      validate_python_operation_inputs operation 2 "PyObjectRichCompareBool" ++
      validate_operation_output operation (Some I32Bool01) "PyObjectRichCompareBool"
  | PyObjectIsTrue =>
      validate_python_operation_inputs operation 1 "PyObjectIsTrue" ++
      validate_operation_output operation (Some I32Bool01) "PyObjectIsTrue"
  | CheckedI64Add | CheckedI64Sub | CheckedI64Mul | I64BitAnd | I64BitOr | I64BitXor =>
      validate_exact_inputs operation [I64; I64] "I64Binary" ++ validate_operation_output operation (Some I64) "I64Binary"
  | I64CompareToBool01 _ =>
      validate_exact_inputs operation [I64; I64] "I64CompareToBool01" ++
      validate_operation_output operation (Some I32Bool01) "I64CompareToBool01"
  | DirectHelper _ => []
  end.
End validate_parts.

(** ** Validation of a region *)

(** [available_values] and [output_values]. *)
Notation Defined_values := (gmap PlanValueId Rep * gset PlanValueId)%type.
Record RegionState : Type := mkRegionState {
  rs_values : Defined_values; rs_seen_node_ids : gset PlanNodeId; rs_seen_guard_ids : gset PlanNodeId }.

Section validate_region.
(** Which nodes, regions and deoptimisation points there are. *)
Context (region : RegionId) (node_ids : gset PlanNodeId) (known_region : RegionId -> bool) (known_deopt : DeoptPointId -> bool).

Definition validate_fallback_target (target : FallbackTarget) : Errors :=
  match target with
  | FT_Region target => expect (known_region target) (PE_UnknownFallbackRegion region target)
  | FT_Node target => expect (bool_decide (target ∈ node_ids)) (PE_UnknownFallbackNode region target)
  | FT_OriginalInstruction _ => []
  end.
Definition validate_deopt_replay (replay : FailureReplayPolicy) : Errors :=
  match rp_replay replay with SafeToReplay => [] | MustUseLocalFallback => [PE_DeoptNotReplayable region] end ++
  expect (negb (is_empty (rp_reason replay))) (PE_EmptyReason region "deopt replay").
Definition validate_deopt_point (target : DeoptPointId) : Errors :=
  expect (known_deopt target) (PE_UnknownDeoptPoint region target).
Definition validate_guard_failure (failure : GuardFailure) (replay : FailureReplayPolicy) : Errors :=
  match failure with
  | GF_FallbackToPlan target reason =>
      expect (negb (is_empty reason)) (PE_EmptyReason region "guard fallback") ++ validate_fallback_target target
  | GF_DeoptTo target reason =>
      expect (negb (is_empty reason)) (PE_EmptyReason region "guard deopt") ++
      validate_deopt_replay replay ++ validate_deopt_point target
  end.
Definition validate_failure_mode (failure : FailureMode) (replay : FailureReplayPolicy) : Errors :=
  match failure with
  | FM_CannotFail | FM_Raise _ => []
  | FM_FallbackToPlan target reason =>
      match rp_replay replay, target with
      | MustUseLocalFallback, FT_OriginalInstruction _ => [PE_LocalFallbackToOriginal region]
      | _, _ => []
      end ++
      expect (negb (is_empty reason)) (PE_EmptyReason region "fallback") ++ validate_fallback_target target
  | FM_DeoptTo target reason =>
      expect (negb (is_empty reason)) (PE_EmptyReason region "deopt") ++
      validate_deopt_replay replay ++ validate_deopt_point target
  end.
Definition validate_exit_target (target : RegionExitTarget) : Errors :=
  match target with
  | RT_Region target => expect (known_region target) (PE_UnknownExitRegion region target)
  | RT_OriginalCfg => []
  end.

(** The value a node defines, with the word the message uses for it. *)
Definition defined_by (kind : PlanNodeKind) : option (PlanValue * string) :=
  match kind with
  | PN_Input output => Some (output, "input node"%string)
  | PN_Constant output _ => Some (output, "constant node"%string)
  | PN_Convert convert => Some (cn_output convert, "conversion output"%string)
  | PN_Operation operation => (., "operation output"%string) <$> on_output operation
  | PN_Materialize materialize => Some (mn_output materialize, "materialization output"%string)
  | PN_Guard _ | PN_Fallback _ | PN_Deopt _ | PN_Ownership _ => None
  end.
(** The checks of a node before its output is defined, over the guards up to and including it. *)
Definition check_node (available : gmap PlanValueId Rep) (seen_guard_ids : gset PlanNodeId) (kind : PlanNodeKind) : Errors :=
  match kind with
  | PN_Input _ | PN_Constant _ _ => []
  | PN_Convert convert =>
      check_input region (cn_input convert) available ++
      validate_conversion region convert seen_guard_ids ++
      validate_failure_mode (cn_failure convert) (replay_safe "conversion rule owns failure semantics")
  | PN_Guard guard =>
      concat (map (fun input => check_input region input available) (gn_inputs guard)) ++
      validate_guard_failure (gn_failure guard) (gs_replay (gn_guard guard))
  | PN_Operation operation =>
      concat (map (fun input => check_input region input available) (on_inputs operation)) ++
      validate_operation region operation ++
      validate_operation_failure_semantics region operation ++
      validate_failure_mode (on_failure operation) (on_failure_replay operation)
  | PN_Materialize materialize =>
      check_input region (mn_input materialize) available ++ validate_materialize region materialize
  | PN_Fallback target => validate_fallback_target target
  | PN_Deopt target => validate_deopt_point target
  | PN_Ownership action =>
      check_input region (oa_value action) available ++
      expect (negb (is_empty (oa_reason action))) (PE_OwnershipReason region (oa_value action))
  end.
Definition validate_node (state : RegionState) (node : PlanNode) : RegionState * Errors :=
  let duplicate := expect (bool_decide (pn_id node ∉ rs_seen_node_ids state)) (PE_DuplicateNode region (pn_id node)) in
  let seen_node_ids := {[pn_id node]} ∪ rs_seen_node_ids state in
  let seen_guard_ids :=
    match pn_kind node with
    | PN_Guard _ => {[pn_id node]} ∪ rs_seen_guard_ids state
    | _ => rs_seen_guard_ids state
    end in
  let errors := check_node (rs_values state).1 seen_guard_ids (pn_kind node) in
  match defined_by (pn_kind node) with
  | Some (output, source) =>
      let '(values, redefined) := define_value region output source (rs_values state) in
      (mkRegionState values seen_node_ids seen_guard_ids, duplicate ++ errors ++ redefined)
  | None => (mkRegionState (rs_values state) seen_node_ids seen_guard_ids, duplicate ++ errors)
  end.
Definition validate_exit (available : gmap PlanValueId Rep) (exit : RegionExitPlan) : Errors :=
  match rx_kind exit with
  | RE_Branch condition then_target else_target =>
      check_input region condition available ++
      expect (bool_decide (pv_rep condition = I32Bool01)) (PE_BranchNotBool region (pv_rep condition)) ++
      validate_exit_target then_target ++ validate_exit_target else_target
  | RE_Return value =>
      check_input region value available ++
      match pv_rep value with
      | PyObjectOwned | PyObjectImmortal => []
      | rep => [PE_ReturnNotObject region rep]
      end
  | RE_Jump target => validate_exit_target target
  end.
End validate_region.

Definition validate_region (region : RegionPlan) (known_region : RegionId -> bool) (known_deopt : DeoptPointId -> bool) : Errors :=
  let id := rg_id region in
  let '(values, inputs) :=
    gather (fun values input => define_value id (ri_value input) "region input" values) (rg_inputs region) (∅, ∅) in
  let node_ids := list_to_set (map pn_id (rg_nodes region)) in
  let '(state, nodes) :=
    gather (validate_node id node_ids known_region known_deopt) (rg_nodes region) (mkRegionState values ∅ ∅) in
  inputs ++ nodes ++ concat (map (validate_exit id known_region (rs_values state).1) (rg_exits region)).
Definition validate_region_plan (region : RegionPlan) (region_ids : gset RegionId) (deopt_points : gset DeoptPointId) : Errors :=
  validate_region region (fun id => bool_decide (id ∈ region_ids)) (fun id => bool_decide (id ∈ deopt_points)).

(** ** Inputs *)

Definition cell_location (n : ResolvedName) : option CellLocation :=
  match rn_location n with NL_Cell cell => Some cell | _ => None end.

Definition collect_region_value_reps (regions : list RegionPlan) : gmap (RegionId * PlanValueId) Rep :=
  fold_left (fun values region =>
    let record values value := <[(rg_id region, pv_id value) := pv_rep value]> values in
    fold_left record (omap (fun node => fst <$> defined_by (pn_kind node)) (rg_nodes region))
      (fold_left record (map ri_value (rg_inputs region)) values)) regions ∅.

Definition validate_region_input_source (region : RegionId) (input : RegionInput) (region_ids : gset RegionId)
    (region_values : gmap (RegionId * PlanValueId) Rep) : Errors :=
  let value := ri_value input in
  let named what name := expect (negb (is_empty name)) (PE_EmptyInputName region what value) in
  let object what := expect (is_python_object (pv_rep value)) (PE_InputRep region what value) in
  match ri_source input with
  | RI_FunctionParam _ name => match name with Some name => named "function-param"%string name | None => [] end
  | RI_CellValue _ name binding =>
      expect (is_some (cell_location name) && negb (is_empty (rn_id name)) &&
              negb (is_empty (clb_logical_name binding))) (PE_UnresolvedCell region value) ++
      expect (match pv_rep value with PyObjectBorrowed | PyObjectOwned => true | _ => false end)
        (PE_InputRep region "cell" value)
  | RI_ModuleConstant _ => object "module-constant"%string
  | RI_IndexedGlobal _ module_name name _ =>
      named "indexed-global module"%string module_name ++ named "indexed-global"%string name ++
      object "indexed-global"%string
  | RI_IndexedField _ (FR_LocalName receiver) owner_type attr_name _ =>
      named "indexed-field receiver"%string receiver ++
      named "indexed-field owner module"%string (ot_module_name owner_type) ++
      named "indexed-field owner qualname"%string (ot_qualname owner_type) ++
      named "indexed-field attr"%string attr_name ++ object "indexed-field"%string
  | RI_CapturedValue from_region captured =>
      if bool_decide (from_region ∈ region_ids) then
        match region_values !! (from_region, captured) with
        | Some rep => expect (bool_decide (rep = pv_rep value)) (PE_CaptureRep region captured (pv_rep value) rep)
        | None => [PE_UndefinedCapture region captured from_region]
        end
      else [PE_UnknownCaptureRegion region captured from_region]
  | RI_Synthetic reason => named "synthetic"%string reason
  end.

(** ** The regions of a function *)

Inductive FunctionError : Type := FE_DuplicateRegion (region : RegionId) | FE_Region (error : PlanError).
Definition duplicate_region (region_ids : gset RegionId) (region : RegionPlan) : gset RegionId * list FunctionError :=
  ({[rg_id region]} ∪ region_ids,
   if bool_decide (rg_id region ∈ region_ids) then [FE_DuplicateRegion (rg_id region)] else []).
Definition validate_function_regions (regions : list RegionPlan) (deopt_points : gset DeoptPointId) : list FunctionError :=
  let '(region_ids, duplicates) := gather duplicate_region regions ∅ in
  let region_values := collect_region_value_reps regions in
  duplicates ++
  map FE_Region (concat (map (fun region => validate_region_plan region region_ids deopt_points) regions)) ++
  map FE_Region (concat (map (fun region =>
    concat (map (fun input => validate_region_input_source (rg_id region) input region_ids region_values) (rg_inputs region)))
    regions)).
