(* ===== verification/Emit.v ===== *)
(** * Emission of region plans

    crates/soac_ir_typed/src/emit_v3.rs, the part about regions: the mechanical steps of a plan,
    the step each becomes for the code generator, and the check that the code generator supports
    a region; crates/soac_opt/src/region_emission_v3.rs, the choice of the regions of a source. *)

From stdpp Require Import gmap.
From S2P Require Import Prelude Ids Cfg Names Instr Region Specialize Plan.

Local Open Scope Z_scope.

(** ** Steps *)

(** [MechanicalOperation] has the constructors of [PlannedOp], and the conversion keeps them. *)
Notation MechanicalOperation := PlannedOp.
Inductive MechanicalStepOp : Type :=
| MS_Input (output : PlanValue)
| MS_Constant (output : PlanValue) (constant : PlannedConstant)
| MS_Convert (kind : ConversionKind) (input output : PlanValue) (failure : FailureMode)
| MS_Guard (kind : GuardKind) (inputs : list PlanValue) (failure : GuardFailure)
| MS_Operation (op : MechanicalOperation) (inputs : list PlanValue) (output : option PlanValue) (failure : FailureMode)
| MS_Materialize (kind : MaterializeKind) (input output : PlanValue)
| MS_Fallback (target : FallbackTarget)
| MS_Deopt (target : DeoptPointId)
| MS_Ownership (action : OwnershipAction).
Record MechanicalStep : Type := mkStep { ms_node : PlanNodeId; ms_source : option InstrId; ms_op : MechanicalStepOp }.
Inductive MechanicalExitKind : Type :=
| ME_Branch (condition : PlanValue) (then_target else_target : RegionExitTarget)
| ME_Return (value : PlanValue)
| ME_Jump (target : RegionExitTarget).
Record MechanicalExit : Type := mkExit { mx_source : option InstrId; mx_kind : MechanicalExitKind }.
Record MechanicalRegionEmission : Type := mkEmission {
  me_region : RegionId; me_steps : list MechanicalStep; me_exits : list MechanicalExit }.

Definition emit_node_op (kind : PlanNodeKind) : MechanicalStepOp :=
  match kind with
  | PN_Input output => MS_Input output
  | PN_Constant output constant => MS_Constant output constant
  | PN_Convert convert => MS_Convert (cn_kind convert) (cn_input convert) (cn_output convert) (cn_failure convert)
  | PN_Guard guard => MS_Guard (gs_kind (gn_guard guard)) (gn_inputs guard) (gn_failure guard)
  | PN_Operation operation =>
      MS_Operation (on_op operation) (on_inputs operation) (on_output operation) (on_failure operation)
  | PN_Materialize materialize => MS_Materialize (mn_kind materialize) (mn_input materialize) (mn_output materialize)
  | PN_Fallback target => MS_Fallback target
  | PN_Deopt target => MS_Deopt target
  | PN_Ownership action => MS_Ownership action
  end.
Definition emit_exit_kind (kind : RegionExitKind) : MechanicalExitKind :=
  match kind with
  | RE_Branch condition then_target else_target => ME_Branch condition then_target else_target
  | RE_Return value => ME_Return value
  | RE_Jump target => ME_Jump target
  end.
Definition emit_region (region : RegionPlan) : MechanicalRegionEmission :=
  mkEmission (rg_id region)
    (map (fun node => mkStep (pn_id node) (pn_source node) (emit_node_op (pn_kind node))) (rg_nodes region))
    (map (fun exit => mkExit (rx_source exit) (emit_exit_kind (rx_kind exit))) (rg_exits region)).

(** ** Inputs *)

Inductive MechanicalRegionInputSource : Type :=
| MI_FunctionParam (name : string)
| MI_CellValue (source : InstrId) (name : ResolvedName) (binding : CellLoadBinding)
| MI_ModuleConstant (index : Z)
| MI_IndexedGlobal (source : InstrId) (module_name name : string) (expected_index : Z)
| MI_IndexedField (source : InstrId) (receiver : IndexedFieldReceiverSource) (owner_type : IndexedFieldOwnerType)
    (attr_name : string) (expected_index : Z).
Record MechanicalRegionInput : Type := mkMechanicalInput {
  mi_value : PlanValue; mi_source : MechanicalRegionInputSource }.

(** Why the code generator does not take a region. *)
Inductive EmitError : Type :=
| EM_InputSource (value : PlanValue)
| EM_InputRep (value : PlanValue)
| EM_Constant (node : PlanNodeId)
| EM_GuardKind (node : PlanNodeId)
| EM_GuardWithoutInputs (node : PlanNodeId)
| EM_GuardOutsideHotRegion (node : PlanNodeId)
| EM_GuardFailure (node : PlanNodeId)
| EM_ConversionReps (node : PlanNodeId)
| EM_ConversionFailure (node : PlanNodeId)
| EM_Conversion (node : PlanNodeId) (kind : ConversionKind)
| EM_OperationArity (node : PlanNodeId)
| EM_OperationReps (node : PlanNodeId)
| EM_OperationFailure (node : PlanNodeId)
| EM_Operation (node : PlanNodeId)
| EM_Materialize (node : PlanNodeId)
| EM_Step (node : PlanNodeId)
| EM_BranchExit (region : RegionId)
| EM_ReturnExit (region : RegionId)
| EM_ExitSource (region fallback : RegionId)
| EM_FallbackTarget (region : RegionId)
| EM_FallbackTargets (region : RegionId)
| EM_RaiseBeforeFallback (region : RegionId)
| EM_MissingFallback (region fallback : RegionId)
| EM_MissingPlan (region : RegionId).

Definition borrowed_or_owned (rep : Rep) : bool :=
  match rep with PyObjectBorrowed | PyObjectOwned => true | _ => false end.
Definition mechanical_region_input (input : RegionInput) : result EmitError MechanicalRegionInput :=
  let value := ri_value input in
  let source :=
    match ri_source input with
    | RI_FunctionParam _ (Some name) =>
        if bool_decide (pv_rep value = PyObjectBorrowed) then Ok (MI_FunctionParam name) else Err (EM_InputSource value)
    | RI_CellValue source name binding =>
        if borrowed_or_owned (pv_rep value) && is_some (cell_location name) then Ok (MI_CellValue source name binding)
        else Err (EM_InputSource value)
    | RI_ModuleConstant index =>
        if bool_decide (pv_rep value = PyObjectBorrowed) then Ok (MI_ModuleConstant index) else Err (EM_InputRep value)
    | RI_IndexedGlobal source module_name name expected_index =>
        if borrowed_or_owned (pv_rep value) then Ok (MI_IndexedGlobal source module_name name expected_index)
        else Err (EM_InputSource value)
    | RI_IndexedField source receiver owner_type attr_name expected_index =>
        if borrowed_or_owned (pv_rep value) then Ok (MI_IndexedField source receiver owner_type attr_name expected_index)
        else Err (EM_InputSource value)
    | RI_FunctionParam _ None | RI_CapturedValue _ _ | RI_Synthetic _ => Err (EM_InputSource value)
    end in
  let? source := source in Ok (mkMechanicalInput value source).
Definition mechanical_region_inputs (region : RegionPlan) : result EmitError (list MechanicalRegionInput) :=
  map_result mechanical_region_input (rg_inputs region).

(** ** Steps of the code generator *)

Inductive MechanicalCodegenConversion : Type := CC_FromPythonLongCompactToI64 | CC_TruthinessToI32Bool01.
Inductive NumberOp : Type := NB_Add | NB_Subtract | NB_Multiply | NB_And | NB_Or | NB_Xor.
Inductive CheckedOp : Type := CK_Add | CK_Sub | CK_Mul.
Inductive BitOp : Type := BT_And | BT_Or | BT_Xor.
(** [MechanicalCodegenOperation], with the operations the generator treats alike grouped. *)
Inductive MechanicalCodegenOperation : Type :=
| MO_PyNumber (op : NumberOp)
| MO_PyObjectRichCompare (op : RichCompareOp)
| MO_PyObjectRichCompareBool (op : RichCompareOp)
| MO_CheckedI64 (op : CheckedOp)
| MO_I64Bit (op : BitOp)
| MO_I64CompareToBool01 (op : RichCompareOp).
Inductive MechanicalCodegenStep : Type :=
| MC_Input (output : PlanValue)
| MC_ConstantI64 (output : PlanValue) (value : Z)
| MC_SpecializationGuard (inputs : list PlanValue)
| MC_Convert (kind : MechanicalCodegenConversion) (input output : PlanValue)
| MC_PreseededConvert (output : PlanValue)
| MC_Operation (op : MechanicalCodegenOperation) (lhs rhs output : PlanValue)
| MC_Materialize (kind : MaterializeKind) (input output : PlanValue).

Definition codegen_operation (op : MechanicalOperation) : option MechanicalCodegenOperation :=
  match op with
  | PyNumberAdd => Some (MO_PyNumber NB_Add)
  | PyNumberSubtract => Some (MO_PyNumber NB_Subtract)
  | PyNumberMultiply => Some (MO_PyNumber NB_Multiply)
  | PyNumberBitAnd => Some (MO_PyNumber NB_And)
  | PyNumberBitOr => Some (MO_PyNumber NB_Or)
  | PyNumberBitXor => Some (MO_PyNumber NB_Xor)
  | PyObjectRichCompare op => Some (MO_PyObjectRichCompare op)
  | PyObjectRichCompareBool op => Some (MO_PyObjectRichCompareBool op)
  | CheckedI64Add => Some (MO_CheckedI64 CK_Add)
  | CheckedI64Sub => Some (MO_CheckedI64 CK_Sub)
  | CheckedI64Mul => Some (MO_CheckedI64 CK_Mul)
  | I64BitAnd => Some (MO_I64Bit BT_And)
  | I64BitOr => Some (MO_I64Bit BT_Or)
  | I64BitXor => Some (MO_I64Bit BT_Xor)
  | I64CompareToBool01 op => Some (MO_I64CompareToBool01 op)
  | PyObjectIsTrue | DirectHelper _ => None
  end.

(** A failure that goes to another region of the plan. *)
Definition falls_to_region (failure : FailureMode) : bool :=
  match failure with FM_FallbackToPlan (FT_Region _) _ => true | _ => false end.
Definition is_raise (failure : FailureMode) : bool := match failure with FM_Raise _ => true | _ => false end.
Definition cannot_fail (failure : FailureMode) : bool := match failure with FM_CannotFail => true | _ => false end.

Definition mechanical_codegen_conversion (node : PlanNodeId) (kind : ConversionKind) (input output : PlanValue)
    (failure : FailureMode) (has_local_fallback : bool) : result EmitError MechanicalCodegenConversion :=
  match kind with
  | FromPythonLongCompactToI64 =>
      do? ensure (bool_decide (pv_rep input = PyObjectBorrowed) && bool_decide (pv_rep output = I64)) (EM_ConversionReps node);
      do? ensure (has_local_fallback && falls_to_region failure) (EM_ConversionFailure node);
      Ok CC_FromPythonLongCompactToI64
  | TruthinessToI32Bool01 =>
      do? ensure (bool_decide (pv_rep input = PyObjectOwned) && bool_decide (pv_rep output = I32Bool01)) (EM_ConversionReps node);
      do? ensure (is_raise failure) (EM_ConversionFailure node);
      Ok CC_TruthinessToI32Bool01
  | ToPythonLongOwned | ToPythonBoolImmortal => Err (EM_Conversion node kind)
  end.
(** The representations and the failure the generator asks of an operation. *)
Definition operation_reps (op : MechanicalCodegenOperation) (lhs rhs output : Rep) : bool :=
  match op with
  | MO_PyNumber _ | MO_PyObjectRichCompare _ =>
      is_python_object lhs && is_python_object rhs && bool_decide (output = PyObjectOwned)
  | MO_PyObjectRichCompareBool _ =>
      bool_decide (lhs = PyObjectBorrowed) && bool_decide (rhs = PyObjectBorrowed) && bool_decide (output = I32Bool01)
  | MO_CheckedI64 _ | MO_I64Bit _ => bool_decide (lhs = I64) && bool_decide (rhs = I64) && bool_decide (output = I64)
  | MO_I64CompareToBool01 _ =>
      bool_decide (lhs = I64) && bool_decide (rhs = I64) && bool_decide (output = I32Bool01)
  end.
Definition operation_failure (op : MechanicalCodegenOperation) (failure : FailureMode) (has_local_fallback : bool) : bool :=
  match op with
  | MO_PyNumber _ | MO_PyObjectRichCompare _ => is_raise failure
  | MO_PyObjectRichCompareBool _ => has_local_fallback && cannot_fail failure
  | MO_CheckedI64 _ => has_local_fallback && falls_to_region failure
  | MO_I64Bit _ | MO_I64CompareToBool01 _ => cannot_fail failure
  end.
Definition mechanical_codegen_operation (node : PlanNodeId) (operation : MechanicalOperation) (inputs : list PlanValue)
    (output : option PlanValue) (failure : FailureMode) (has_local_fallback : bool) : result EmitError MechanicalCodegenStep :=
  match inputs, output with
  | [lhs; rhs], Some output =>
      match codegen_operation operation with
      | Some op =>
          do? ensure (operation_reps op (pv_rep lhs) (pv_rep rhs) (pv_rep output)) (EM_OperationReps node);
          do? ensure (operation_failure op failure has_local_fallback) (EM_OperationFailure node);
          Ok (MC_Operation op lhs rhs output)
      | None => Err (EM_Operation node)
      end
  | _, _ => Err (EM_OperationArity node)
  end.
Definition mechanical_codegen_step (step : MechanicalStep) (has_local_fallback : bool)
    (preseeded_scalars preseeded_convert_inputs : gset PlanValue) : result EmitError MechanicalCodegenStep :=
  let node := ms_node step in
  match ms_op step with
  | MS_Input output => Ok (MC_Input output)
  | MS_Constant output constant =>
      match constant with
      | PC_I64 value => if bool_decide (pv_rep output = I64) then Ok (MC_ConstantI64 output value) else Err (EM_Constant node)
      | PC_Bool _ | PC_RuntimeName _ => Err (EM_Constant node)
      end
  | MS_Guard SpecializationCheck inputs failure =>
      do? ensure (negb (length inputs =? 0)%nat) (EM_GuardWithoutInputs node);
      let preseeded_guard :=
        negb (bool_decide (preseeded_convert_inputs = ∅)) &&
        forallb (fun input => bool_decide (input ∈ preseeded_convert_inputs)) inputs in
      do? ensure (has_local_fallback || preseeded_guard) (EM_GuardOutsideHotRegion node);
      match failure with
      | GF_FallbackToPlan (FT_Region _) _ => Ok (MC_SpecializationGuard inputs)
      | _ => Err (EM_GuardFailure node)
      end
  | MS_Convert kind input output failure =>
      if bool_decide (output ∈ preseeded_scalars) then Ok (MC_PreseededConvert output)
      else
        let? kind := mechanical_codegen_conversion node kind input output failure has_local_fallback in
        Ok (MC_Convert kind input output)
  | MS_Operation op inputs output failure => mechanical_codegen_operation node op inputs output failure has_local_fallback
  | MS_Materialize kind input output =>
      do? ensure (bool_decide ((pv_rep input, pv_rep output) = materialize_reps kind)) (EM_Materialize node);
      Ok (MC_Materialize kind input output)
  | MS_Fallback _ | MS_Deopt _ | MS_Ownership _ => Err (EM_Step node)
  end.

(** ** What the code generator supports *)

Definition validate_region_input_supported (input : RegionInput) : result EmitError unit :=
  let value := ri_value input in
  match ri_source input with
  | RI_FunctionParam _ (Some _) =>
      ensure (match pv_rep value with PyObjectBorrowed | I64 => true | _ => false end) (EM_InputRep value)
  | RI_ModuleConstant _ => ensure (bool_decide (pv_rep value = PyObjectBorrowed)) (EM_InputSource value)
  | RI_CellValue _ name _ =>
      ensure (borrowed_or_owned (pv_rep value) && is_some (cell_location name)) (EM_InputSource value)
  | RI_IndexedGlobal _ _ _ _ | RI_IndexedField _ _ _ _ _ =>
      ensure (borrowed_or_owned (pv_rep value)) (EM_InputSource value)
  | RI_FunctionParam _ None | RI_CapturedValue _ _ | RI_Synthetic _ => Err (EM_InputSource value)
  end.
Definition validate_region_inputs_supported_by_current_lowering_v3 (region : RegionPlan) : result EmitError unit :=
  for_each validate_region_input_supported (rg_inputs region).

(** The regions the steps fall back to, and whether a step raises. *)
Definition fallback_target_step (region : RegionId) (acc : gset RegionId * bool) (step : MechanicalStep) :
    result EmitError (gset RegionId * bool) :=
  match ms_op step with
  | MS_Guard _ _ (GF_FallbackToPlan (FT_Region target) _) => Ok ({[target]} ∪ acc.1, acc.2)
  | MS_Guard _ _ _ => Err (EM_GuardFailure (ms_node step))
  | MS_Convert _ _ _ failure | MS_Operation _ _ _ failure =>
      match failure with
      | FM_CannotFail => Ok acc
      | FM_FallbackToPlan (FT_Region target) _ => Ok ({[target]} ∪ acc.1, acc.2)
      | FM_Raise _ => Ok (acc.1, true)
      | FM_FallbackToPlan _ _ | FM_DeoptTo _ _ => Err (EM_FallbackTarget region)
      end
  | _ => Ok acc
  end.
Definition local_fallback_region_targets_v3 (region : MechanicalRegionEmission) : result EmitError (gset RegionId) :=
  let? found := for_fold (fallback_target_step (me_region region)) (∅, false) (me_steps region) in
  do? ensure (negb (negb (bool_decide (found.1 = ∅)) && found.2)) (EM_RaiseBeforeFallback (me_region region));
  Ok found.1.

Definition has_single_original_cfg_branch_exit_v3 (region : MechanicalRegionEmission) : bool :=
  match me_exits region with [mkExit _ (ME_Branch _ RT_OriginalCfg RT_OriginalCfg)] => true | _ => false end.
Definition has_single_return_exit_v3 (region : MechanicalRegionEmission) : bool :=
  match me_exits region with [mkExit _ (ME_Return _)] => true | _ => false end.
Definition require_single_original_cfg_branch_exit_v3 (region : MechanicalRegionEmission) : result EmitError unit :=
  ensure (has_single_original_cfg_branch_exit_v3 region) (EM_BranchExit (me_region region)).
Definition require_single_return_exit_v3 (region : MechanicalRegionEmission) : result EmitError unit :=
  ensure (has_single_return_exit_v3 region) (EM_ReturnExit (me_region region)).
(** The caller has checked that the hot region has an exit. *)
Definition require_matching_fallback_exit_v3 (hot_region fallback_region : MechanicalRegionEmission) (hot_exit : MechanicalExit) :
    result EmitError unit :=
  let same_source :=
    ensure (bool_decide ((mx_source <$> head (me_exits fallback_region)) = Some (mx_source hot_exit)))
      (EM_ExitSource (me_region hot_region) (me_region fallback_region)) in
  match mx_kind hot_exit with
  | ME_Branch _ _ _ => do? require_single_original_cfg_branch_exit_v3 fallback_region; same_source
  | ME_Return _ => do? require_single_return_exit_v3 fallback_region; same_source
  | ME_Jump _ => Ok tt
  end.
Definition validate_region_local_fallback_shape_v3 (region : MechanicalRegionEmission) (exit : MechanicalExit)
    (emitted_regions : gmap RegionId MechanicalRegionEmission) : result EmitError unit :=
  let? targets := local_fallback_region_targets_v3 region in
  match elements targets with
  | [] => Ok tt
  | [fallback_id] =>
      let? fallback_region := ok_or (EM_MissingFallback (me_region region) fallback_id) (emitted_regions !! fallback_id) in
      require_matching_fallback_exit_v3 region fallback_region exit
  | _ => Err (EM_FallbackTargets (me_region region))
  end.
Definition validate_region_mechanical_lowering_shape_v3 (region : MechanicalRegionEmission)
    (emitted_regions : gmap RegionId MechanicalRegionEmission) : result EmitError unit :=
  match me_exits region with
  | [] => Ok tt
  | exit :: _ =>
      match mx_kind exit with
      | ME_Branch _ _ _ =>
          do? require_single_original_cfg_branch_exit_v3 region;
          validate_region_local_fallback_shape_v3 region exit emitted_regions
      | ME_Return _ =>
          do? require_single_return_exit_v3 region; validate_region_local_fallback_shape_v3 region exit emitted_regions
      | ME_Jump _ => Ok tt
      end
  end.

Definition validate_conversion_supported_by_current_lowering_v3 (node : PlanNodeId) (kind : ConversionKind)
    (input output : PlanValue) (failure : FailureMode) (has_local_fallback : bool) : result EmitError unit :=
  match kind with
  | FromPythonLongCompactToI64 =>
      do? ensure (has_local_fallback && falls_to_region failure) (EM_ConversionFailure node);
      ensure (bool_decide (pv_rep input = PyObjectBorrowed) && bool_decide (pv_rep output = I64)) (EM_ConversionReps node)
  | TruthinessToI32Bool01 =>
      do? ensure (bool_decide (pv_rep input = PyObjectOwned) && bool_decide (pv_rep output = I32Bool01)) (EM_ConversionReps node);
      ensure (is_raise failure) (EM_ConversionFailure node)
  | ToPythonLongOwned | ToPythonBoolImmortal => Err (EM_Conversion node kind)
  end.
Definition validate_operation_supported_by_current_lowering_v3 (node : PlanNodeId) (op : MechanicalOperation)
    (inputs : list PlanValue) (output : option PlanValue) (failure : FailureMode) (has_local_fallback : bool) :
    result EmitError unit :=
  match codegen_operation op with
  | Some codegen =>
      match inputs, output with
      | [lhs; rhs], Some output =>
          do? ensure (operation_reps codegen (pv_rep lhs) (pv_rep rhs) (pv_rep output)) (EM_OperationReps node);
          ensure (operation_failure codegen failure has_local_fallback) (EM_OperationFailure node)
      | _, _ => Err (EM_OperationArity node)
      end
  | None => Err (EM_Operation node)
  end.
Definition validate_step_supported (has_local_fallback : bool) (step : MechanicalStep) : result EmitError unit :=
  let node := ms_node step in
  match ms_op step with
  | MS_Input _ => Err (EM_Step node)
  | MS_Constant output (PC_I64 _) => ensure (bool_decide (pv_rep output = I64)) (EM_Constant node)
  | MS_Constant _ _ => Err (EM_Constant node)
  | MS_Guard SpecializationCheck inputs failure =>
      do? ensure (negb (length inputs =? 0)%nat) (EM_GuardWithoutInputs node);
      match failure with GF_FallbackToPlan (FT_Region _) _ => Ok tt | _ => Err (EM_GuardFailure node) end
  | MS_Convert kind input output failure =>
      validate_conversion_supported_by_current_lowering_v3 node kind input output failure has_local_fallback
  | MS_Operation op inputs output failure =>
      validate_operation_supported_by_current_lowering_v3 node op inputs output failure has_local_fallback
  | MS_Materialize kind input output =>
      ensure (bool_decide ((pv_rep input, pv_rep output) = materialize_reps kind)) (EM_Materialize node)
  | MS_Fallback _ | MS_Deopt _ | MS_Ownership _ => Err (EM_Step node)
  end.
Definition validate_region_steps_supported_by_current_lowering_v3 (region : MechanicalRegionEmission) : result EmitError unit :=
  let? local_fallback_targets := local_fallback_region_targets_v3 region in
  for_each (validate_step_supported (negb (bool_decide (local_fallback_targets = ∅)))) (me_steps region).

(** A later region replaces an earlier one with its number. *)
Definition by_number {A} (number : A -> RegionId) (regions : list A) : gmap RegionId A :=
  fold_left (fun map region => <[number region := region]> map) regions ∅.
Definition validate_function_mechanical_lowering_shape_v3 (planned : list RegionPlan) (emitted : list MechanicalRegionEmission) :
    result EmitError unit :=
  let planned_regions := by_number rg_id planned in
  let emitted_regions := by_number me_region emitted in
  for_each (fun region =>
    let? plan := ok_or (EM_MissingPlan (me_region region)) (planned_regions !! me_region region) in
    do? validate_region_inputs_supported_by_current_lowering_v3 plan;
    do? validate_region_mechanical_lowering_shape_v3 region emitted_regions;
    validate_region_steps_supported_by_current_lowering_v3 region) emitted.

(** ** The regions of a source *)

Record ExactIntSelection : Type := mkSelection {
  sel_hot_plan : RegionPlan;
  sel_hot_region : MechanicalRegionEmission;
  sel_fallback_plan : RegionPlan;
  sel_fallback_region : MechanicalRegionEmission
}.
Definition region_has_branch_source (region : MechanicalRegionEmission) (source : InstrId) : bool :=
  existsb (fun exit => bool_decide (mx_source exit = Some source) &&
    match mx_kind exit with ME_Branch _ _ _ => true | _ => false end) (me_exits region).
Definition region_has_return_source (region : MechanicalRegionEmission) (source : InstrId) : bool :=
  existsb (fun exit => bool_decide (mx_source exit = Some source) &&
    match mx_kind exit with ME_Return _ => true | _ => false end) (me_exits region).
Definition step_fallback_region (step : MechanicalStep) : option RegionId :=
  match ms_op step with
  | MS_Guard _ _ (GF_FallbackToPlan (FT_Region region) _) => Some region
  | MS_Convert _ _ _ (FM_FallbackToPlan (FT_Region region) _)
  | MS_Operation _ _ _ (FM_FallbackToPlan (FT_Region region) _) => Some region
  | _ => None
  end.
Definition local_fallback_region (region : MechanicalRegionEmission) : option RegionId :=
  head (omap step_fallback_region (me_steps region)).
(** The hot region is the first with the source; an error when the plan or the fallback is missing. *)
Definition selection_for_source (has_source : MechanicalRegionEmission -> InstrId -> bool) (planned : list RegionPlan)
    (emitted : list MechanicalRegionEmission) (source : InstrId) : result RegionId (option ExactIntSelection) :=
  match List.find (fun region => has_source region source) emitted with
  | None => Ok None
  | Some hot_region =>
      let hot := me_region hot_region in
      let? hot_plan := ok_or hot (List.find (fun region => bool_decide (rg_id region = hot)) planned) in
      let? fallback := ok_or hot (local_fallback_region hot_region) in
      let? fallback_region := ok_or hot (List.find (fun region => bool_decide (me_region region = fallback)) emitted) in
      let? fallback_plan := ok_or fallback (List.find (fun region => bool_decide (rg_id region = fallback)) planned) in
      Ok (Some (mkSelection hot_plan hot_region fallback_plan fallback_region))
  end.
Definition exact_int_branch_selection_for_source := selection_for_source region_has_branch_source.
Definition exact_int_return_selection_for_source := selection_for_source region_has_return_source.
