(* ===== verification/Alternatives.v ===== *)
(** * Alternatives for an operation

    crates/soac_opt/src/alternatives_v3.rs: the catalog of the ways to compute an operator, a
    truth test or a materialization, what each needs and what it does when it fails, its
    instantiation into plan nodes and the validation of a catalog. *)

From stdpp Require Import gmap.
From S2P Require Import Prelude Ids Cfg Names Instr Region Specialize Plan.

Local Open Scope Z_scope.

(** ** Data *)

Definition ALTERNATIVE_CATALOG_V3_VERSION : Z := 1.

(** [AlternativeId]: a string. *)
Definition AlternativeId : Type := string.
Inductive SemanticOpKind : Type :=
| SO_Binary (op : BinOpKind) | SO_Truthiness | SO_Materialize (kind : MaterializeKind).
Definition semantic_arity (op : SemanticOpKind) : nat :=
  match op with SO_Binary _ => 2 | SO_Truthiness | SO_Materialize _ => 1 end.
#[global] Instance MaterializeKind_eq_dec : EqDecision MaterializeKind.
Proof. solve_decision. Defined.
#[global] Instance SemanticOpKind_eq_dec : EqDecision SemanticOpKind.
Proof. solve_decision. Defined.

Inductive RepRequirementSource : Type := RQ_AlreadyAvailable | RQ_Conversion (kind : ConversionKind).
Record RepRequirement : Type := mkRepRequirement { rr_input : Z; rr_rep : Rep; rr_source : RepRequirementSource }.
Inductive ValueFact : Type :=
| Fact_ExactCompactPyLong | Fact_ExactPyUnicode | Fact_I64 | Fact_Bool01 | Fact_PythonObject | Fact_PythonBoolObject.
Inductive FactPredicate : Type := FP_Input (input : Z) (fact : ValueFact).
Inductive AlternativeEmission : Type :=
| AE_Operation (op : PlannedOp)
| AE_Conversion (kind : ConversionKind)
| AE_Materialize (kind : MaterializeKind)
| AE_Identity.
Inductive GuardRequirementKind : Type := GR_ExactCompactPyLong | GR_ExactPyUnicode.
Inductive GuardMiss : Type := GM_LocalFallback (reason : string) | GM_Deopt (reason : string).
Record GuardRequirement : Type := mkGuardRequirement {
  gq_input : Z;
  gq_kind : GuardRequirementKind;
  gq_description : string;
  gq_replay : FailureReplayPolicy;
  gq_miss : GuardMiss
}.
Inductive AlternativeFailure : Type :=
| AF_CannotFail
| AF_Raise (kind reason : string)
| AF_LocalFallback (reason : string)
| AF_Deopt (reason : string).
Record LoweringAlternative : Type := mkAlternative {
  la_id : AlternativeId;
  la_op : SemanticOpKind;
  la_input_reps : list RepRequirement;
  la_output_rep : option Rep;
  la_required_facts : list FactPredicate;
  la_output_facts : list ValueFact;
  la_emission : AlternativeEmission;
  la_guards : list GuardRequirement;
  la_failure_replay : FailureReplayPolicy;
  la_failure : AlternativeFailure;
  la_cost : Cost;
  la_rationale : string
}.
Record AlternativeCatalog : Type := mkCatalog { ac_version : Z; ac_alternatives : list LoweringAlternative }.

Definition by_id (catalog : AlternativeCatalog) (id : AlternativeId) : option LoweringAlternative :=
  List.find (fun alternative => bool_decide (la_id alternative = id)) (ac_alternatives catalog).
Definition alternatives_for (catalog : AlternativeCatalog) (op : SemanticOpKind) : list LoweringAlternative :=
  List.filter (fun alternative => bool_decide (la_op alternative = op)) (ac_alternatives catalog).

(** ** Instantiation *)

Record FailureTargets : Type := mkTargets { tg_fallback : FallbackTarget; tg_deopt : option DeoptPointId }.
Definition targets_local_fallback (fallback : FallbackTarget) : FailureTargets := mkTargets fallback None.
Definition targets_with_deopt (fallback : FallbackTarget) (deopt : DeoptPointId) : FailureTargets :=
  mkTargets fallback (Some deopt).

Definition planned_operation (a : LoweringAlternative) : option PlannedOp :=
  match la_emission a with AE_Operation op => Some op | AE_Conversion _ | AE_Materialize _ | AE_Identity => None end.
Definition guard_miss_instantiate (miss : GuardMiss) (targets : FailureTargets) : result string GuardFailure :=
  match miss with
  | GM_LocalFallback reason => Ok (GF_FallbackToPlan (tg_fallback targets) reason)
  | GM_Deopt reason =>
      match tg_deopt targets with
      | Some target => Ok (GF_DeoptTo target reason)
      | None => Err "deopt guard requires a deopt target"
      end
  end.
Definition guard_instantiate (g : GuardRequirement) (targets : FailureTargets) : result string GuardNode :=
  match guard_miss_instantiate (gq_miss g) targets with
  | Ok failure => Ok (mkGuard [] (mkGuardSpec SpecializationCheck (gq_replay g) (gq_description g)) failure)
  | Err e => Err e
  end.
Definition instantiate_failure (a : LoweringAlternative) (targets : FailureTargets) : result string FailureMode :=
  match la_failure a with
  | AF_CannotFail => Ok FM_CannotFail
  | AF_Raise kind reason => Ok (FM_Raise (mkExceptionSpec kind reason))
  | AF_LocalFallback reason => Ok (FM_FallbackToPlan (tg_fallback targets) reason)
  | AF_Deopt reason =>
      match tg_deopt targets with
      | Some target => Ok (FM_DeoptTo target reason)
      | None => Err "deopt alternative requires a deopt target"
      end
  end.

(** ** Requirements *)

Definition pyobject_input (input : Z) : RepRequirement := mkRepRequirement input PyObjectBorrowed RQ_AlreadyAvailable.
Definition i64_from_compact_long_input (input : Z) : RepRequirement :=
  mkRepRequirement input I64 (RQ_Conversion FromPythonLongCompactToI64).
Definition python_object_inputs : list FactPredicate := [FP_Input 0 Fact_PythonObject; FP_Input 1 Fact_PythonObject].
Definition exact_compact_int_inputs : list FactPredicate :=
  [FP_Input 0 Fact_ExactCompactPyLong; FP_Input 1 Fact_ExactCompactPyLong].
Definition exact_str_inputs : list FactPredicate := [FP_Input 0 Fact_ExactPyUnicode; FP_Input 1 Fact_ExactPyUnicode].
Definition exact_compact_int_guard (input : Z) : GuardRequirement :=
  mkGuardRequirement input GR_ExactCompactPyLong "exact compact PyLong specialization guard"
    (replay_local_fallback "fallback region reuses original Python object operands")
    (GM_LocalFallback "exact compact PyLong guard miss uses generic Python fallback").
Definition exact_compact_int_guards : list GuardRequirement := [exact_compact_int_guard 0; exact_compact_int_guard 1].
Definition exact_str_guard (input : Z) : GuardRequirement :=
  mkGuardRequirement input GR_ExactPyUnicode "exact unicode specialization guard"
    (replay_local_fallback "fallback region reuses original Python object operands")
    (GM_LocalFallback "exact unicode guard miss uses generic Python fallback").
Definition exact_str_guards : list GuardRequirement := [exact_str_guard 0; exact_str_guard 1].

(** ** The alternatives *)

Definition generic_binary_add : LoweringAlternative :=
  mkAlternative "binary.add.py_generic" (SO_Binary Add) [pyobject_input 0; pyobject_input 1] (Some PyObjectOwned)
    [FP_Input 0 Fact_PythonObject; FP_Input 1 Fact_PythonObject] [Fact_PythonObject] (AE_Operation PyNumberAdd) []
    (replay_local_fallback "PyNumber_Add raises or returns locally without replay")
    (AF_Raise "Exception" "PyNumber_Add may raise while implementing Python addition")
    (mkCost 80 0 0 0 4 2 1) "generic Python addition preserves Python dispatch and exception behavior".
Definition exact_compact_int_add : LoweringAlternative :=
  mkAlternative "binary.add.exact_compact_int.i64" (SO_Binary Add)
    [i64_from_compact_long_input 0; i64_from_compact_long_input 1] (Some I64) exact_compact_int_inputs
    [Fact_I64; Fact_ExactCompactPyLong] (AE_Operation CheckedI64Add) exact_compact_int_guards
    (replay_local_fallback "overflow must use local fallback because the add has consumed unboxed operands")
    (AF_LocalFallback "checked i64 add overflow falls back to generic Python addition")
    (mkCost 2 85 0 0 0 6 2) "exact compact PyLong operands can use checked i64 addition before materialization".
Definition generic_binary_subtract : LoweringAlternative :=
  mkAlternative "binary.sub.py_generic" (SO_Binary Sub) [pyobject_input 0; pyobject_input 1] (Some PyObjectOwned)
    python_object_inputs [Fact_PythonObject] (AE_Operation PyNumberSubtract) []
    (replay_local_fallback "PyNumber_Subtract raises or returns locally without replay")
    (AF_Raise "Exception" "PyNumber_Subtract may raise while implementing Python subtraction")
    (mkCost 80 0 0 0 4 2 1) "generic Python subtraction preserves Python dispatch and exception behavior".
Definition exact_compact_int_subtract : LoweringAlternative :=
  mkAlternative "binary.sub.exact_compact_int.i64" (SO_Binary Sub)
    [i64_from_compact_long_input 0; i64_from_compact_long_input 1] (Some I64) exact_compact_int_inputs
    [Fact_I64; Fact_ExactCompactPyLong] (AE_Operation CheckedI64Sub) exact_compact_int_guards
    (replay_local_fallback "overflow must use local fallback because the subtraction has consumed unboxed operands")
    (AF_LocalFallback "checked i64 subtraction overflow falls back to generic Python subtraction")
    (mkCost 2 85 0 0 0 6 2) "exact compact PyLong operands can use checked i64 subtraction before materialization".
Definition generic_binary_multiply : LoweringAlternative :=
  mkAlternative "binary.mul.py_generic" (SO_Binary Mul) [pyobject_input 0; pyobject_input 1] (Some PyObjectOwned)
    python_object_inputs [Fact_PythonObject] (AE_Operation PyNumberMultiply) []
    (replay_local_fallback "PyNumber_Multiply raises or returns locally without replay")
    (AF_Raise "Exception" "PyNumber_Multiply may raise while implementing Python multiplication")
    (mkCost 80 0 0 0 4 2 1) "generic Python multiplication preserves Python dispatch and exception behavior".
Definition exact_compact_int_multiply : LoweringAlternative :=
  mkAlternative "binary.mul.exact_compact_int.i64" (SO_Binary Mul)
    [i64_from_compact_long_input 0; i64_from_compact_long_input 1] (Some I64) exact_compact_int_inputs
    [Fact_I64; Fact_ExactCompactPyLong] (AE_Operation CheckedI64Mul) exact_compact_int_guards
    (replay_local_fallback "overflow must use local fallback because the multiplication has consumed unboxed operands")
    (AF_LocalFallback "checked i64 multiplication overflow falls back to generic Python multiplication")
    (mkCost 3 85 0 0 0 6 2) "exact compact PyLong operands can use checked i64 multiplication before materialization".
(** Panics for an operator that is not bitwise. *)
Definition generic_bitwise (id : string) (binop : BinOpKind) (emission : PlannedOp) (py_number_name : string) :
    option LoweringAlternative :=
  rationale ← match binop with
    | And => Some "generic Python bitwise and preserves Python dispatch and exception behavior"%string
    | Or => Some "generic Python bitwise or preserves Python dispatch and exception behavior"%string
    | Xor => Some "generic Python bitwise xor preserves Python dispatch and exception behavior"%string
    | _ => None
    end;
  Some (mkAlternative id (SO_Binary binop) [pyobject_input 0; pyobject_input 1] (Some PyObjectOwned)
    python_object_inputs [Fact_PythonObject] (AE_Operation emission) []
    (replay_local_fallback (py_number_name +:+ " raises or returns locally without replay"))
    (AF_Raise "Exception" "generic Python bitwise operation may raise while preserving Python dispatch")
    (mkCost 80 0 0 0 4 2 1) rationale).
Definition exact_compact_int_bitwise (id : string) (binop : BinOpKind) (emission : PlannedOp) :
    option LoweringAlternative :=
  rationale ← match binop with
    | And => Some "exact compact PyLong operands can use machine i64 bitwise and before materialization"%string
    | Or => Some "exact compact PyLong operands can use machine i64 bitwise or before materialization"%string
    | Xor => Some "exact compact PyLong operands can use machine i64 bitwise xor before materialization"%string
    | _ => None
    end;
  Some (mkAlternative id (SO_Binary binop) [i64_from_compact_long_input 0; i64_from_compact_long_input 1] (Some I64)
    exact_compact_int_inputs [Fact_I64; Fact_ExactCompactPyLong] (AE_Operation emission) exact_compact_int_guards
    (replay_safe "i64 bitwise operations cannot fail after exact compact-int guards") AF_CannotFail
    (mkCost 1 70 0 0 0 2 1) rationale).
Definition generic_rich_compare (id : string) (binop : BinOpKind) (op : RichCompareOp) : LoweringAlternative :=
  mkAlternative id (SO_Binary binop) [pyobject_input 0; pyobject_input 1] (Some PyObjectOwned)
    [FP_Input 0 Fact_PythonObject; FP_Input 1 Fact_PythonObject] [Fact_PythonObject]
    (AE_Operation (PyObjectRichCompare op)) []
    (replay_local_fallback "PyObject_RichCompare raises or returns locally without replay")
    (AF_Raise "Exception" "PyObject_RichCompare may raise while implementing Python comparison")
    (mkCost 75 0 0 0 4 2 1) "generic rich comparison preserves Python dispatch and comparison exceptions".
Definition exact_compact_int_compare (id : string) (binop : BinOpKind) (op : RichCompareOp) : LoweringAlternative :=
  mkAlternative id (SO_Binary binop) [i64_from_compact_long_input 0; i64_from_compact_long_input 1] (Some I32Bool01)
    exact_compact_int_inputs [Fact_Bool01] (AE_Operation (I64CompareToBool01 op)) exact_compact_int_guards
    (replay_safe "i64 comparison cannot fail after input guards") AF_CannotFail
    (mkCost 1 75 0 0 0 3 1) "exact compact PyLong comparison can produce a normalized branch boolean directly".
Definition exact_str_compare (id : string) (binop : BinOpKind) (op : RichCompareOp) : LoweringAlternative :=
  mkAlternative id (SO_Binary binop) [pyobject_input 0; pyobject_input 1] (Some I32Bool01)
    exact_str_inputs [Fact_Bool01] (AE_Operation (PyObjectRichCompareBool op)) exact_str_guards
    (replay_safe "exact unicode comparison cannot fail after input guards") AF_CannotFail
    (mkCost 8 75 0 0 0 4 1)
    "exact unicode comparison can skip allocating the intermediate Python bool in branch contexts".
Definition python_truthiness : LoweringAlternative :=
  mkAlternative "truthiness.pyobject" SO_Truthiness [mkRepRequirement 0 PyObjectOwned RQ_AlreadyAvailable] (Some I32Bool01)
    [FP_Input 0 Fact_PythonObject] [Fact_Bool01] (AE_Conversion TruthinessToI32Bool01) []
    (replay_local_fallback "PyObject_IsTrue raises locally and cannot be replayed after consuming owned input")
    (AF_Raise "Exception" "PyObject_IsTrue may raise while implementing truthiness")
    (mkCost 28 0 0 0 1 2 1) "truthiness of a Python object is a normal conversion node that handles errors locally".
Definition normalized_truthiness : LoweringAlternative :=
  mkAlternative "truthiness.i32bool.identity" SO_Truthiness [mkRepRequirement 0 I32Bool01 RQ_AlreadyAvailable]
    (Some I32Bool01) [FP_Input 0 Fact_Bool01] [Fact_Bool01] AE_Identity []
    (replay_safe "normalized boolean identity cannot fail") AF_CannotFail
    (mkCost 0 0 0 0 0 0 0) "already-normalized branch booleans do not need a codegen operation".
Definition materialize_python_long : LoweringAlternative :=
  mkAlternative "materialize.i64.python_long" (SO_Materialize MK_PythonLong)
    [mkRepRequirement 0 I64 RQ_AlreadyAvailable] (Some PyObjectOwned) [FP_Input 0 Fact_I64]
    [Fact_PythonObject; Fact_ExactCompactPyLong] (AE_Materialize MK_PythonLong) []
    (replay_local_fallback "PyLong materialization raises locally if allocation fails")
    (AF_Raise "MemoryError" "materializing an i64 as PyLong may allocate")
    (mkCost 18 0 0 18 1 2 1) "materialization is explicit when a Python object result is required".
Definition materialize_python_bool : LoweringAlternative :=
  mkAlternative "materialize.i32bool.python_bool" (SO_Materialize MK_PythonBool)
    [mkRepRequirement 0 I32Bool01 RQ_AlreadyAvailable] (Some PyObjectImmortal) [FP_Input 0 Fact_Bool01]
    [Fact_PythonObject; Fact_PythonBoolObject] (AE_Materialize MK_PythonBool) []
    (replay_safe "bool materialization selects an immortal object") AF_CannotFail
    (mkCost 1 0 0 1 0 1 1) "normalized booleans materialize as Py_True or Py_False without allocation".

Definition default_v3 : option AlternativeCatalog :=
  alternatives ← mapM (fun alternative => alternative)
    [Some generic_binary_add; Some exact_compact_int_add;
     Some generic_binary_subtract; Some exact_compact_int_subtract;
     Some generic_binary_multiply; Some exact_compact_int_multiply;
     generic_bitwise "binary.and.py_generic" And PyNumberBitAnd "PyNumber_And";
     exact_compact_int_bitwise "binary.and.exact_compact_int.i64" And I64BitAnd;
     generic_bitwise "binary.or.py_generic" Or PyNumberBitOr "PyNumber_Or";
     exact_compact_int_bitwise "binary.or.exact_compact_int.i64" Or I64BitOr;
     generic_bitwise "binary.xor.py_generic" Xor PyNumberBitXor "PyNumber_Xor";
     exact_compact_int_bitwise "binary.xor.exact_compact_int.i64" Xor I64BitXor;
     Some (generic_rich_compare "binary.eq.py_richcompare" Eq RC_Eq);
     Some (exact_compact_int_compare "binary.eq.exact_compact_int.i32bool" Eq RC_Eq);
     Some (exact_str_compare "binary.eq.exact_str.i32bool" Eq RC_Eq);
     Some (generic_rich_compare "binary.ne.py_richcompare" Ne RC_Ne);
     Some (exact_compact_int_compare "binary.ne.exact_compact_int.i32bool" Ne RC_Ne);
     Some (exact_str_compare "binary.ne.exact_str.i32bool" Ne RC_Ne);
     Some (generic_rich_compare "binary.lt.py_richcompare" Lt RC_Lt);
     Some (exact_compact_int_compare "binary.lt.exact_compact_int.i32bool" Lt RC_Lt);
     Some (exact_str_compare "binary.lt.exact_str.i32bool" Lt RC_Lt);
     Some (generic_rich_compare "binary.le.py_richcompare" Le RC_Le);
     Some (exact_compact_int_compare "binary.le.exact_compact_int.i32bool" Le RC_Le);
     Some (exact_str_compare "binary.le.exact_str.i32bool" Le RC_Le);
     Some (generic_rich_compare "binary.gt.py_richcompare" Gt RC_Gt);
     Some (exact_compact_int_compare "binary.gt.exact_compact_int.i32bool" Gt RC_Gt);
     Some (exact_str_compare "binary.gt.exact_str.i32bool" Gt RC_Gt);
     Some (generic_rich_compare "binary.ge.py_richcompare" Ge RC_Ge);
     Some (exact_compact_int_compare "binary.ge.exact_compact_int.i32bool" Ge RC_Ge);
     Some (exact_str_compare "binary.ge.exact_str.i32bool" Ge RC_Ge);
     Some python_truthiness; Some normalized_truthiness;
     Some materialize_python_long; Some materialize_python_bool];
  Some (mkCatalog ALTERNATIVE_CATALOG_V3_VERSION alternatives).

(** ** Validation of a catalog *)

Inductive AlternativeError : Type :=
| AX_ZeroVersion
| AX_EmptyId
| AX_DuplicateId (id : AlternativeId)
| AX_InputOutOfRange (id : AlternativeId) (what : string) (input : Z)
| AX_DuplicateInput (id : AlternativeId) (input : Z)
| AX_MissingInput (id : AlternativeId) (input : Z)
| AX_ConversionRequirement (id : AlternativeId) (kind : ConversionKind) (produced required : Rep)
| AX_GuardDescription (id : AlternativeId)
| AX_GuardMissReason (id : AlternativeId)
| AX_ReplayReason (id : AlternativeId)
| AX_DeoptNotReplayable (id : AlternativeId)
| AX_EmissionArity (id : AlternativeId) (expected got : nat)
| AX_EmissionInput (id : AlternativeId) (index : nat) (got : Rep)
| AX_EmissionOutput (id : AlternativeId) (expected got : option Rep)
| AX_IdentityFails (id : AlternativeId)
| AX_RaiseReason (id : AlternativeId)
| AX_FailureReason (id : AlternativeId)
| AX_Rationale (id : AlternativeId).
Definition demand (test : bool) (error : AlternativeError) : list AlternativeError := if test then [] else [error].

Inductive RepClass : Type := Class_Exact (rep : Rep) | Class_PythonObject.
Definition rep_class_matches (class : RepClass) (rep : Rep) : bool :=
  match class with Class_Exact expected => bool_decide (rep = expected) | Class_PythonObject => is_python_object rep end.

Definition validate_replay_policy (id : AlternativeId) (replay : FailureReplayPolicy) (deopt : bool) : list AlternativeError :=
  demand (negb (is_empty (rp_reason replay))) (AX_ReplayReason id) ++
  match deopt, rp_replay replay with true, MustUseLocalFallback => [AX_DeoptNotReplayable id] | _, _ => [] end.

Definition validate_catalog_operation_signature (id : AlternativeId) (a : LoweringAlternative) (inputs : list RepClass)
    (output : option Rep) : list AlternativeError :=
  if negb (length (la_input_reps a) =? length inputs)%nat
  then [AX_EmissionArity id (length inputs) (length (la_input_reps a))]
  else
    concat (imap (fun index entry =>
      demand (rep_class_matches entry.2 (rr_rep entry.1)) (AX_EmissionInput id index (rr_rep entry.1)))
      (zip (la_input_reps a) inputs)) ++
    demand (bool_decide (la_output_rep a = output)) (AX_EmissionOutput id output (la_output_rep a)).
Definition validate_operation_emission (id : AlternativeId) (op : PlannedOp) (a : LoweringAlternative) :
    list AlternativeError :=
  match op with
  | PyNumberAdd | PyNumberSubtract | PyNumberMultiply | PyNumberBitAnd | PyNumberBitOr | PyNumberBitXor
  | PyObjectRichCompare _ =>
      validate_catalog_operation_signature id a [Class_PythonObject; Class_PythonObject] (Some PyObjectOwned)
  | PyObjectRichCompareBool _ =>
      validate_catalog_operation_signature id a [Class_Exact PyObjectBorrowed; Class_Exact PyObjectBorrowed] (Some I32Bool01)
  | PyObjectIsTrue => validate_catalog_operation_signature id a [Class_PythonObject] (Some I32Bool01)
  | CheckedI64Add | CheckedI64Sub | CheckedI64Mul | I64BitAnd | I64BitOr | I64BitXor =>
      validate_catalog_operation_signature id a [Class_Exact I64; Class_Exact I64] (Some I64)
  | I64CompareToBool01 _ => validate_catalog_operation_signature id a [Class_Exact I64; Class_Exact I64] (Some I32Bool01)
  | DirectHelper _ => []
  end.
(** The input and output an emission that is no operation asks for. *)
Definition validate_single_input_emission (id : AlternativeId) (a : LoweringAlternative) (input output : Rep) :
    list AlternativeError :=
  match la_input_reps a with
  | [requirement] => demand (bool_decide (rr_rep requirement = input)) (AX_EmissionInput id 0 (rr_rep requirement))
  | _ => []
  end ++
  demand (bool_decide (la_output_rep a = Some output)) (AX_EmissionOutput id (Some output) (la_output_rep a)).
Definition validate_alternative_emission (a : LoweringAlternative) : list AlternativeError :=
  let id := la_id a in
  match la_emission a with
  | AE_Operation op => validate_operation_emission id op a
  | AE_Conversion kind =>
      validate_single_input_emission id a (sg_input (conversion_signature kind)) (sg_output (conversion_signature kind))
  | AE_Materialize kind =>
      validate_single_input_emission id a (materialize_reps kind).1 (materialize_reps kind).2
  | AE_Identity =>
      match la_input_reps a with
      | [requirement] =>
          demand (bool_decide (la_output_rep a = Some (rr_rep requirement)))
            (AX_EmissionOutput id (Some (rr_rep requirement)) (la_output_rep a))
      | _ => []
      end ++
      match la_failure a with AF_CannotFail => [] | _ => [AX_IdentityFails id] end
  end.

(** One requirement of an alternative, over the inputs already required. *)
Definition validate_requirement (id : AlternativeId) (arity : nat) (inputs : gset Z) (requirement : RepRequirement) :
    gset Z * list AlternativeError :=
  ({[rr_input requirement]} ∪ inputs,
   demand (rr_input requirement <? Z.of_nat arity)%Z (AX_InputOutOfRange id "input requirement" (rr_input requirement)) ++
   demand (bool_decide (rr_input requirement ∉ inputs)) (AX_DuplicateInput id (rr_input requirement)) ++
   match rr_source requirement with
   | RQ_Conversion kind =>
       demand (bool_decide (sg_output (conversion_signature kind) = rr_rep requirement))
         (AX_ConversionRequirement id kind (sg_output (conversion_signature kind)) (rr_rep requirement))
   | RQ_AlreadyAvailable => []
   end).
Definition validate_guard_requirement (id : AlternativeId) (arity : nat) (guard : GuardRequirement) : list AlternativeError :=
  demand (gq_input guard <? Z.of_nat arity)%Z (AX_InputOutOfRange id "guard" (gq_input guard)) ++
  demand (negb (is_empty (gq_description guard))) (AX_GuardDescription id) ++
  validate_replay_policy id (gq_replay guard) (match gq_miss guard with GM_Deopt _ => true | GM_LocalFallback _ => false end) ++
  match gq_miss guard with
  | GM_LocalFallback reason | GM_Deopt reason => demand (negb (is_empty reason)) (AX_GuardMissReason id)
  end.
Definition validate_alternative (ids : gset string) (a : LoweringAlternative) : gset string * list AlternativeError :=
  let id := la_id a in
  let arity := semantic_arity (la_op a) in
  let '(inputs, requirements) := gather (validate_requirement id arity) (la_input_reps a) ∅ in
  ({[id]} ∪ ids,
   demand (negb (is_empty id)) AX_EmptyId ++
   demand (bool_decide (id ∉ ids)) (AX_DuplicateId id) ++
   requirements ++
   concat (map (fun input => demand (bool_decide (Z.of_nat input ∈ inputs)) (AX_MissingInput id (Z.of_nat input))) (seq 0 arity)) ++
   concat (map (fun '(FP_Input input _) => demand (input <? Z.of_nat arity)%Z (AX_InputOutOfRange id "fact predicate" input))
             (la_required_facts a)) ++
   concat (map (validate_guard_requirement id arity) (la_guards a)) ++
   validate_alternative_emission a ++
   validate_replay_policy id (la_failure_replay a) (match la_failure a with AF_Deopt _ => true | _ => false end) ++
   match la_failure a with
   | AF_Raise kind reason => demand (negb (is_empty kind || is_empty reason)) (AX_RaiseReason id)
   | AF_LocalFallback reason | AF_Deopt reason => demand (negb (is_empty reason)) (AX_FailureReason id)
   | AF_CannotFail => []
   end ++
   demand (negb (is_empty (la_rationale a))) (AX_Rationale id)).
Definition validate_alternative_catalog_v3 (catalog : AlternativeCatalog) : result (list AlternativeError) unit :=
  let errors :=
    demand (negb (ac_version catalog =? 0)%Z) AX_ZeroVersion ++
    (gather validate_alternative (ac_alternatives catalog) ∅).2 in
  match errors with [] => Ok tt | _ => Err errors end.
