(* ===== verification/PlanBuild.v ===== *)
(** * Construction of region plans

    crates/soac_opt/src/planner_v3.rs, the half that turns a recognised shape into two regions:
    a hot one over machine integers or exact strings, and the generic one it falls back to. *)

From stdpp Require Import gmap.
From S2P Require Import Prelude Ids Cfg Names Instr Region Specialize RegionMatch Plan Alternatives.

Local Open Scope Z_scope.

(** How a plan is not made: an error for the caller, or a panic. *)
Inductive Interrupt : Type := PlannerError (message : string) | PlannerPanic.

Definition required_alternative (catalog : AlternativeCatalog) (id : string) : result Interrupt LoweringAlternative :=
  ok_or (PlannerError ("missing catalog alternative " +:+ id)) (by_id catalog id).
(** [map_err(|err| err.0)]. *)
Definition planner_error {A} (r : result string A) : result Interrupt A :=
  match r with Ok a => Ok a | Err e => Err (PlannerError e) end.

(** ** Nodes *)

Definition region_pyobject_input (value : PlanValue) (index : Z) (source : PyObjectRegionInputSource) : RegionInput :=
  mkRegionInput value
    match source with
    | IS_LocalName name => RI_FunctionParam index (Some name)
    | IS_CellValue source name binding => RI_CellValue source name binding
    | IS_ModuleConstant index => RI_ModuleConstant index
    | IS_IndexedField source receiver owner_type attr_name expected_index =>
        RI_IndexedField source (FR_LocalName receiver) owner_type attr_name expected_index
    | IS_IndexedGlobal source module_name name expected_index => RI_IndexedGlobal source module_name name expected_index
    end.
Definition fallback_pyobject_input_value (id : Z) (source : PyObjectRegionInputSource) : PlanValue :=
  plan_value_new id
    match source with
    | IS_CellValue _ _ _ | IS_IndexedField _ _ _ _ _ | IS_IndexedGlobal _ _ _ _ => PyObjectOwned
    | IS_LocalName _ | IS_ModuleConstant _ => PyObjectBorrowed
    end.
Definition node (id : Z) (kind : PlanNodeKind) : PlanNode := mkPlanNode (mkPlanNodeId id) None kind.
Definition guard_node (alternative : LoweringAlternative) (guard_index : nat) (id : Z) (input : PlanValue)
    (targets : FailureTargets) : result Interrupt PlanNode :=
  match la_guards alternative !! guard_index with
  | Some requirement =>
      match guard_instantiate requirement targets with
      | Ok guard => Ok (node id (PN_Guard (mkGuard [input] (gn_guard guard) (gn_failure guard))))
      | Err _ => Err PlannerPanic
      end
  | None => Err PlannerPanic
  end.
Definition unbox_node (id : Z) (input output : PlanValue) (guard : Z) (fallback_region : RegionId) : PlanNode :=
  node id (PN_Convert (mkConvert input output FromPythonLongCompactToI64
    (CP_SpecializationGuard (mkPlanNodeId guard) "exact compact PyLong guard dominates conversion")
    (FM_FallbackToPlan (FT_Region fallback_region) "conversion miss uses generic fallback") CO_BorrowInput)).
Definition operation_node (id : Z) (alternative : LoweringAlternative) (inputs : list PlanValue) (output : option PlanValue)
    (targets : FailureTargets) : result Interrupt PlanNode :=
  let? op := ok_or (PlannerError ("alternative " +:+ la_id alternative +:+ " is not an operation"))
               (planned_operation alternative) in
  let? failure := planner_error (instantiate_failure alternative targets) in
  Ok (node id (PN_Operation (mkOperation op inputs output (la_failure_replay alternative) failure (la_cost alternative)))).
Definition constant_node (id : Z) (output : PlanValue) (value : Z) : PlanNode := node id (PN_Constant output (PC_I64 value)).
Definition materialize_node (id : Z) (input output : PlanValue) (kind : MaterializeKind) : PlanNode :=
  node id (PN_Materialize (mkMaterialize input output kind)).
(** The truth of the generic result. *)
Definition truthiness_node (id : Z) (truthiness : LoweringAlternative) (input output : PlanValue) (targets : FailureTargets) :
    result Interrupt PlanNode :=
  let? failure := planner_error (instantiate_failure truthiness targets) in
  Ok (node id (PN_Convert (mkConvert input output TruthinessToI32Bool01 CP_Infallible failure CO_ConsumeOwned))).

Definition branch_exit (source : option InstrId) (condition : PlanValue) : list RegionExitPlan :=
  [mkRegionExit source (RE_Branch condition RT_OriginalCfg RT_OriginalCfg)].
Definition return_exit (source : option InstrId) (value : PlanValue) : list RegionExitPlan :=
  [mkRegionExit source (RE_Return value)].
(** [shape.source.unwrap_or_else(|| InstrId::new(0))]. *)
Definition hot_source (source : option InstrId) : RegionSource := RS_Instr (default (mkInstrId 0) source).

Section regions.
Context (catalog : AlternativeCatalog) (id : RegionId).

(** [region.id.0 + 1], which wraps in a release build. *)
Definition fallback_region_id : RegionId := mkRegionId (wrap32 (region_number id + 1)).
Definition failure_targets : FailureTargets := targets_local_fallback (FT_Region fallback_region_id).

Definition a_obj : PlanValue := plan_value_new 0 PyObjectBorrowed.
Definition b_obj : PlanValue := plan_value_new 1 PyObjectBorrowed.

Definition compact_int_add_gt_zero_branch_regions (shape : CompactIntBranchShape) : result Interrupt (list RegionPlan) :=
  let? add := required_alternative catalog "binary.add.exact_compact_int.i64" in
  let? compare := required_alternative catalog "binary.gt.exact_compact_int.i32bool" in
  let? generic_add := required_alternative catalog "binary.add.py_generic" in
  let? generic_compare := required_alternative catalog "binary.gt.py_richcompare" in
  let? truthiness := required_alternative catalog "truthiness.pyobject" in
  let a_i64 := plan_value_new 2 I64 in
  let b_i64 := plan_value_new 3 I64 in
  let sum_i64 := plan_value_new 4 I64 in
  let zero_i64 := plan_value_new 5 I64 in
  let condition := plan_value_new 6 I32Bool01 in
  let fallback_a_obj := fallback_pyobject_input_value 0 (ibs_left shape) in
  let fallback_b_obj := fallback_pyobject_input_value 1 (ibs_right shape) in
  let? guard_a := guard_node add 0 0 a_obj failure_targets in
  let? guard_b := guard_node add 1 1 b_obj failure_targets in
  let? sum := operation_node 4 add [a_i64; b_i64] (Some sum_i64) failure_targets in
  let? test := operation_node 6 compare [sum_i64; zero_i64] (Some condition) failure_targets in
  let hot_region := mkRegionPlan id (hot_source (ibs_source shape))
    [region_pyobject_input a_obj 0 (ibs_left shape); region_pyobject_input b_obj 1 (ibs_right shape)]
    [guard_a; guard_b; unbox_node 2 a_obj a_i64 0 fallback_region_id; unbox_node 3 b_obj b_i64 1 fallback_region_id;
     sum; constant_node 5 zero_i64 0; test]
    (branch_exit (ibs_source shape) condition) in
  let fallback_sum := plan_value_new 20 PyObjectOwned in
  let fallback_zero_i64 := plan_value_new 21 I64 in
  let fallback_zero_obj := plan_value_new 22 PyObjectOwned in
  let fallback_compare := plan_value_new 23 PyObjectOwned in
  let fallback_condition := plan_value_new 24 I32Bool01 in
  let? generic_sum := operation_node 20 generic_add [fallback_a_obj; fallback_b_obj] (Some fallback_sum) failure_targets in
  let? generic_test :=
    operation_node 23 generic_compare [fallback_sum; fallback_zero_obj] (Some fallback_compare) failure_targets in
  let? truth := truthiness_node 24 truthiness fallback_compare fallback_condition failure_targets in
  let fallback_region := mkRegionPlan fallback_region_id
    (RS_Synthetic "generic fallback for compact-int add/compare branch")
    [region_pyobject_input fallback_a_obj 0 (ibs_left shape); region_pyobject_input fallback_b_obj 1 (ibs_right shape)]
    [generic_sum; constant_node 21 fallback_zero_i64 0;
     materialize_node 22 fallback_zero_i64 fallback_zero_obj MK_PythonLong; generic_test; truth]
    (branch_exit (ibs_source shape) fallback_condition) in
  Ok [hot_region; fallback_region].

Definition compact_int_compare_constant_branch_regions (shape : CompactIntCompareConstantBranchShape) : result Interrupt (list RegionPlan) :=
  let? compare := required_alternative catalog (cs_exact_id (cch_compare shape)) in
  let? generic_compare := required_alternative catalog (cs_generic_id (cch_compare shape)) in
  let? truthiness := required_alternative catalog "truthiness.pyobject" in
  let value_obj := plan_value_new 0 PyObjectBorrowed in
  let value_i64 := plan_value_new 1 I64 in
  let constant_i64 := plan_value_new 2 I64 in
  let condition := plan_value_new 3 I32Bool01 in
  let fallback_value_obj := fallback_pyobject_input_value 0 (cch_value shape) in
  let guard_index := if cch_constant_on_left shape then 1%nat else 0%nat in
  let hot_operands :=
    if cch_constant_on_left shape then [constant_i64; value_i64] else [value_i64; constant_i64] in
  let? guard := guard_node compare guard_index 0 value_obj failure_targets in
  let? test := operation_node 3 compare hot_operands (Some condition) failure_targets in
  let hot_region := mkRegionPlan id (hot_source (cch_source shape))
    [region_pyobject_input value_obj 0 (cch_value shape)]
    [guard; unbox_node 1 value_obj value_i64 0 fallback_region_id; constant_node 2 constant_i64 (cch_constant shape); test]
    (branch_exit (cch_source shape) condition) in
  let fallback_constant_i64 := plan_value_new 20 I64 in
  let fallback_constant_obj := plan_value_new 21 PyObjectOwned in
  let fallback_compare := plan_value_new 22 PyObjectOwned in
  let fallback_condition := plan_value_new 23 I32Bool01 in
  let fallback_operands :=
    if cch_constant_on_left shape then [fallback_constant_obj; fallback_value_obj]
    else [fallback_value_obj; fallback_constant_obj] in
  let? generic_test := operation_node 22 generic_compare fallback_operands (Some fallback_compare) failure_targets in
  let? truth := truthiness_node 23 truthiness fallback_compare fallback_condition failure_targets in
  let fallback_region := mkRegionPlan fallback_region_id
    (RS_Synthetic "generic fallback for compact-int comparison with constant branch")
    [region_pyobject_input fallback_value_obj 0 (cch_value shape)]
    [constant_node 20 fallback_constant_i64 (cch_constant shape);
     materialize_node 21 fallback_constant_i64 fallback_constant_obj MK_PythonLong; generic_test; truth]
    (branch_exit (cch_source shape) fallback_condition) in
  Ok [hot_region; fallback_region].

Definition compact_int_binary_return_regions (shape : CompactIntReturnShape) : result Interrupt (list RegionPlan) :=
  let? operation := required_alternative catalog (bs_exact_id (irs_operation shape)) in
  let? generic_operation := required_alternative catalog (bs_generic_id (irs_operation shape)) in
  let a_i64 := plan_value_new 2 I64 in
  let b_i64 := plan_value_new 3 I64 in
  let result_i64 := plan_value_new 4 I64 in
  let result_obj := plan_value_new 5 PyObjectOwned in
  let fallback_a_obj := fallback_pyobject_input_value 0 (irs_left shape) in
  let fallback_b_obj := fallback_pyobject_input_value 1 (irs_right shape) in
  let? guard_a := guard_node operation 0 0 a_obj failure_targets in
  let? guard_b := guard_node operation 1 1 b_obj failure_targets in
  let? compute := operation_node 4 operation [a_i64; b_i64] (Some result_i64) failure_targets in
  let hot_region := mkRegionPlan id (hot_source (irs_source shape))
    [region_pyobject_input a_obj 0 (irs_left shape); region_pyobject_input b_obj 1 (irs_right shape)]
    [guard_a; guard_b; unbox_node 2 a_obj a_i64 0 fallback_region_id; unbox_node 3 b_obj b_i64 1 fallback_region_id;
     compute; materialize_node 5 result_i64 result_obj MK_PythonLong]
    (return_exit (irs_source shape) result_obj) in
  let fallback_sum := plan_value_new 20 PyObjectOwned in
  let? generic :=
    operation_node 20 generic_operation [fallback_a_obj; fallback_b_obj] (Some fallback_sum) failure_targets in
  let fallback_region := mkRegionPlan fallback_region_id (RS_Synthetic "generic fallback for compact-int binary return")
    [region_pyobject_input fallback_a_obj 0 (irs_left shape); region_pyobject_input fallback_b_obj 1 (irs_right shape)]
    [generic] (return_exit (irs_source shape) fallback_sum) in
  Ok [hot_region; fallback_region].

Definition compact_int_compare_branch_regions (shape : CompareShape) : result Interrupt (list RegionPlan) :=
  let? compare := required_alternative catalog (cs_exact_id (csh_compare shape)) in
  let? generic_compare := required_alternative catalog (cs_generic_id (csh_compare shape)) in
  let? truthiness := required_alternative catalog "truthiness.pyobject" in
  let a_i64 := plan_value_new 2 I64 in
  let b_i64 := plan_value_new 3 I64 in
  let condition := plan_value_new 4 I32Bool01 in
  let fallback_a_obj := fallback_pyobject_input_value 0 (csh_left shape) in
  let fallback_b_obj := fallback_pyobject_input_value 1 (csh_right shape) in
  let? guard_a := guard_node compare 0 0 a_obj failure_targets in
  let? guard_b := guard_node compare 1 1 b_obj failure_targets in
  let? test := operation_node 4 compare [a_i64; b_i64] (Some condition) failure_targets in
  let hot_region := mkRegionPlan id (hot_source (csh_source shape))
    [region_pyobject_input a_obj 0 (csh_left shape); region_pyobject_input b_obj 1 (csh_right shape)]
    [guard_a; guard_b; unbox_node 2 a_obj a_i64 0 fallback_region_id; unbox_node 3 b_obj b_i64 1 fallback_region_id; test]
    (branch_exit (csh_source shape) condition) in
  let fallback_compare := plan_value_new 20 PyObjectOwned in
  let fallback_condition := plan_value_new 21 I32Bool01 in
  let? generic_test :=
    operation_node 20 generic_compare [fallback_a_obj; fallback_b_obj] (Some fallback_compare) failure_targets in
  let? truth := truthiness_node 21 truthiness fallback_compare fallback_condition failure_targets in
  let fallback_region := mkRegionPlan fallback_region_id (RS_Synthetic "generic fallback for compact-int comparison branch")
    [region_pyobject_input fallback_a_obj 0 (csh_left shape); region_pyobject_input fallback_b_obj 1 (csh_right shape)]
    [generic_test; truth] (branch_exit (csh_source shape) fallback_condition) in
  Ok [hot_region; fallback_region].

Definition exact_str_compare_branch_regions (shape : CompareShape) : result Interrupt (list RegionPlan) :=
  let? compare := required_alternative catalog (cs_exact_str_id (csh_compare shape)) in
  let? generic_compare := required_alternative catalog (cs_generic_id (csh_compare shape)) in
  let? truthiness := required_alternative catalog "truthiness.pyobject" in
  let condition := plan_value_new 2 I32Bool01 in
  let fallback_a_obj := fallback_pyobject_input_value 0 (csh_left shape) in
  let fallback_b_obj := fallback_pyobject_input_value 1 (csh_right shape) in
  let? guard_a := guard_node compare 0 0 a_obj failure_targets in
  let? guard_b := guard_node compare 1 1 b_obj failure_targets in
  let? test := operation_node 2 compare [a_obj; b_obj] (Some condition) failure_targets in
  let hot_region := mkRegionPlan id (hot_source (csh_source shape))
    [region_pyobject_input a_obj 0 (csh_left shape); region_pyobject_input b_obj 1 (csh_right shape)]
    [guard_a; guard_b; test] (branch_exit (csh_source shape) condition) in
  let fallback_compare := plan_value_new 20 PyObjectOwned in
  let fallback_condition := plan_value_new 21 I32Bool01 in
  let? generic_test :=
    operation_node 20 generic_compare [fallback_a_obj; fallback_b_obj] (Some fallback_compare) failure_targets in
  let? truth := truthiness_node 21 truthiness fallback_compare fallback_condition failure_targets in
  let fallback_region := mkRegionPlan fallback_region_id (RS_Synthetic "generic fallback for exact-str comparison branch")
    [region_pyobject_input fallback_a_obj 0 (csh_left shape); region_pyobject_input fallback_b_obj 1 (csh_right shape)]
    [generic_test; truth] (branch_exit (csh_source shape) fallback_condition) in
  Ok [hot_region; fallback_region].

Definition compact_int_compare_return_regions (shape : CompareShape) : result Interrupt (list RegionPlan) :=
  let? compare := required_alternative catalog (cs_exact_id (csh_compare shape)) in
  let? generic_compare := required_alternative catalog (cs_generic_id (csh_compare shape)) in
  let a_i64 := plan_value_new 2 I64 in
  let b_i64 := plan_value_new 3 I64 in
  let condition := plan_value_new 4 I32Bool01 in
  let result_obj := plan_value_new 5 PyObjectImmortal in
  let fallback_a_obj := fallback_pyobject_input_value 0 (csh_left shape) in
  let fallback_b_obj := fallback_pyobject_input_value 1 (csh_right shape) in
  let? guard_a := guard_node compare 0 0 a_obj failure_targets in
  let? guard_b := guard_node compare 1 1 b_obj failure_targets in
  let? test := operation_node 4 compare [a_i64; b_i64] (Some condition) failure_targets in
  let hot_region := mkRegionPlan id (hot_source (csh_source shape))
    [region_pyobject_input a_obj 0 (csh_left shape); region_pyobject_input b_obj 1 (csh_right shape)]
    [guard_a; guard_b; unbox_node 2 a_obj a_i64 0 fallback_region_id; unbox_node 3 b_obj b_i64 1 fallback_region_id;
     test; materialize_node 5 condition result_obj MK_PythonBool]
    (return_exit (csh_source shape) result_obj) in
  let fallback_compare := plan_value_new 20 PyObjectOwned in
  let? generic_test :=
    operation_node 20 generic_compare [fallback_a_obj; fallback_b_obj] (Some fallback_compare) failure_targets in
  let fallback_region := mkRegionPlan fallback_region_id (RS_Synthetic "generic fallback for compact-int comparison return")
    [region_pyobject_input fallback_a_obj 0 (csh_left shape); region_pyobject_input fallback_b_obj 1 (csh_right shape)]
    [generic_test] (return_exit (csh_source shape) fallback_compare) in
  Ok [hot_region; fallback_region].

Definition exact_str_compare_return_regions (shape : CompareShape) : result Interrupt (list RegionPlan) :=
  let? compare := required_alternative catalog (cs_exact_str_id (csh_compare shape)) in
  let? generic_compare := required_alternative catalog (cs_generic_id (csh_compare shape)) in
  let condition := plan_value_new 2 I32Bool01 in
  let result_obj := plan_value_new 3 PyObjectImmortal in
  let fallback_a_obj := fallback_pyobject_input_value 0 (csh_left shape) in
  let fallback_b_obj := fallback_pyobject_input_value 1 (csh_right shape) in
  let? guard_a := guard_node compare 0 0 a_obj failure_targets in
  let? guard_b := guard_node compare 1 1 b_obj failure_targets in
  let? test := operation_node 2 compare [a_obj; b_obj] (Some condition) failure_targets in
  let hot_region := mkRegionPlan id (hot_source (csh_source shape))
    [region_pyobject_input a_obj 0 (csh_left shape); region_pyobject_input b_obj 1 (csh_right shape)]
    [guard_a; guard_b; test; materialize_node 3 condition result_obj MK_PythonBool]
    (return_exit (csh_source shape) result_obj) in
  let fallback_compare := plan_value_new 20 PyObjectOwned in
  let? generic_test :=
    operation_node 20 generic_compare [fallback_a_obj; fallback_b_obj] (Some fallback_compare) failure_targets in
  let fallback_region := mkRegionPlan fallback_region_id (RS_Synthetic "generic fallback for exact-str comparison return")
    [region_pyobject_input fallback_a_obj 0 (csh_left shape); region_pyobject_input fallback_b_obj 1 (csh_right shape)]
    [generic_test] (return_exit (csh_source shape) fallback_compare) in
  Ok [hot_region; fallback_region].

End regions.

Section plan.
Context (catalog : AlternativeCatalog) (region : ExtractedRegion) (facts : PlannerFacts)
  (fields : FieldLoads) (globals : GlobalLoads).
Notation Planned := (result Interrupt (option (list RegionPlan))).

Definition plan_compact_int_add_gt_zero_branch : Planned :=
  opt_result (compact_int_add_gt_zero_branch_regions catalog (er_id region)) (match_compact_int_add_gt_zero_branch region facts fields globals).
Definition plan_compact_int_compare_constant_branch : Planned :=
  opt_result (compact_int_compare_constant_branch_regions catalog (er_id region)) (match_compact_int_compare_constant_branch region facts fields globals).
Definition plan_compact_int_binary_return : Planned :=
  opt_result (compact_int_binary_return_regions catalog (er_id region)) (match_compact_int_binary_return region facts fields globals).
Definition plan_compact_int_compare_branch : Planned :=
  opt_result (compact_int_compare_branch_regions catalog (er_id region)) (match_compact_int_compare_branch region facts fields globals).
Definition plan_exact_str_compare_branch : Planned :=
  opt_result (exact_str_compare_branch_regions catalog (er_id region)) (match_exact_str_compare_branch region facts fields globals).
Definition plan_compact_int_compare_return : Planned :=
  opt_result (compact_int_compare_return_regions catalog (er_id region)) (match_compact_int_compare_return region facts fields globals).
Definition plan_exact_str_compare_return : Planned :=
  opt_result (exact_str_compare_return_regions catalog (er_id region)) (match_exact_str_compare_return region facts fields globals).

(** The first of the plans that applies. *)
Definition plan_or_else (plan next : Planned) : Planned :=
  let? planned := plan in match planned with Some regions => Ok (Some regions) | None => next end.
Definition plan_compact_int_branch : Planned :=
  plan_or_else plan_compact_int_add_gt_zero_branch
  (plan_or_else plan_compact_int_compare_constant_branch
  (plan_or_else plan_compact_int_compare_branch
  (plan_or_else plan_compact_int_compare_return
  (plan_or_else plan_exact_str_compare_branch
  (plan_or_else plan_exact_str_compare_return plan_compact_int_binary_return))))).
End plan.

(** ** The regions of a function *)

Record PlanDiagnostic : Type := mkPlanDiagnostic { pd_source : option InstrId; pd_message : string }.
Definition diagnose (region : ExtractedRegion) (why : string) : PlanDiagnostic :=
  mkPlanDiagnostic (exit_source region) ("v3 planner declined region: " +:+ why).
(** One request: its regions are added, or why there are none; a panic ends the pass. *)
Definition plan_region_request (catalog : AlternativeCatalog) (fields : FieldLoads) (globals : GlobalLoads)
    (function : list RegionPlan * list PlanDiagnostic) (request : ExtractedRegion * PlannerFacts) :
    option (list RegionPlan * list PlanDiagnostic) :=
  let '(regions, diagnostics) := function in
  match plan_compact_int_branch catalog request.1 request.2 fields globals with
  | Ok (Some planned) => Some (regions ++ planned, diagnostics)
  | Ok None => Some (regions, diagnostics ++ [diagnose request.1 "unsupported shape"])
  | Err (PlannerError e) => Some (regions, diagnostics ++ [diagnose request.1 e])
  | Err PlannerPanic => None
  end.
Fixpoint plan_region_requests (catalog : AlternativeCatalog) (fields : FieldLoads) (globals : GlobalLoads)
    (requests : list (ExtractedRegion * PlannerFacts)) (function : list RegionPlan * list PlanDiagnostic) :
    option (list RegionPlan * list PlanDiagnostic) :=
  match requests with
  | [] => Some function
  | request :: requests =>
      function ← plan_region_request catalog fields globals function request;
      plan_region_requests catalog fields globals requests function
  end.
