(* ===== verification/PlanBuildProps.v ===== *)
(** * Planned regions are accepted

    Every recognised shape gets its two regions, whatever the shape: the catalog has the
    alternatives, the regions pass the validation of plans, and the code generator supports
    them. *)

From stdpp Require Import gmap.
From S2P Require Import Prelude Ids Cfg Names Instr Region RegionProps Specialize RegionMatch Plan Emit Alternatives PlanBuild.

Local Open Scope Z_scope.

(** ** The plan of a shape *)

Definition shape_regions (catalog : AlternativeCatalog) (id : RegionId) (s : PlannedShape) : result Interrupt (list RegionPlan) :=
  match s with
  | PS_AddGtZero s => compact_int_add_gt_zero_branch_regions catalog id s
  | PS_CompareConstant s => compact_int_compare_constant_branch_regions catalog id s
  | PS_IntCompareBranch s => compact_int_compare_branch_regions catalog id s
  | PS_IntCompareReturn s => compact_int_compare_return_regions catalog id s
  | PS_StrCompareBranch s => exact_str_compare_branch_regions catalog id s
  | PS_StrCompareReturn s => exact_str_compare_return_regions catalog id s
  | PS_IntBinaryReturn s => compact_int_binary_return_regions catalog id s
  end.
Lemma plan_or_else_match {A} (f : A -> result Interrupt (list RegionPlan)) m k :
  plan_or_else (opt_result f m) k = match m with Some x => opt_result f (Some x) | None => k end.
Proof. destruct m; cbn; [by destruct (f a)|done]. Qed.
Lemma plan_of_shape catalog region facts fields globals :
  plan_compact_int_branch catalog region facts fields globals
  = opt_result (shape_regions catalog (er_id region)) (planned_shape region facts fields globals).
Proof.
  unfold plan_compact_int_branch, planned_shape, plan_compact_int_add_gt_zero_branch, plan_compact_int_compare_constant_branch,
    plan_compact_int_compare_branch, plan_compact_int_compare_return, plan_exact_str_compare_branch, plan_exact_str_compare_return,
    plan_compact_int_binary_return.
  rewrite !plan_or_else_match.
  repeat match goal with |- match ?m with Some _ => _ | None => _ end = _ => destruct m; [done|] end.
  by destruct (match_compact_int_binary_return _ _ _ _).
Qed.

(** ** What the code generator asks of a region *)

Definition step_raises (step : MechanicalStep) : bool :=
  match ms_op step with MS_Convert _ _ _ failure | MS_Operation _ _ _ failure => is_raise failure | _ => false end.
Definition failure_supported (step : MechanicalStep) : bool :=
  match ms_op step with
  | MS_Guard _ _ (GF_FallbackToPlan (FT_Region _) _) => true
  | MS_Guard _ _ _ => false
  | MS_Convert _ _ _ failure | MS_Operation _ _ _ failure => cannot_fail failure || is_raise failure || falls_to_region failure
  | _ => true
  end.
Lemma fallback_targets_fold region steps acc :
  forallb failure_supported steps = true ->
  for_fold (fallback_target_step region) acc steps
  = Ok (list_to_set (omap step_fallback_region steps) ∪ acc.1, acc.2 || existsb step_raises steps).
Proof.
  revert acc. induction steps as [|step steps IH]; intros [targets raises] H; cbn in H.
  { cbn. f_equal. f_equal; [set_solver|by rewrite orb_false_r]. }
  apply andb_true_iff in H as [Hs H]. cbn [for_fold].
  assert (fallback_target_step region (targets, raises) step
    = Ok (match step_fallback_region step with Some t => {[t]} | None => ∅ end ∪ targets, raises || step_raises step)) as ->.
  { unfold fallback_target_step, step_fallback_region, step_raises. unfold failure_supported in Hs.
    destruct (ms_op step) as [| |? ? ? failure|? ? failure|? ? ? failure| | | |]; try (destruct failure as [| |[]|]);
      try (destruct failure as [[]|]); cbn in *; try discriminate; f_equal; f_equal;
      rewrite ?orb_false_r, ?orb_true_r; first [done|set_solver]. }
  cbn [rbind]. rewrite (IH _ H). cbn. f_equal. f_equal; [|by rewrite <- orb_assoc].
  destruct (step_fallback_region step); set_solver.
Qed.
(** A region that falls back to [target], or one that does not fall back. *)
Record lowerable (e : MechanicalRegionEmission) (target : option RegionId) : Prop := mkLowerable {
  lw_failures : forallb failure_supported (me_steps e) = true;
  lw_targets : match target with
               | Some t => exists n, omap step_fallback_region (me_steps e) = replicate (S n) t
               | None => omap step_fallback_region (me_steps e) = []
               end;
  lw_raises : is_some target && existsb step_raises (me_steps e) = false;
  lw_steps : for_each (validate_step_supported (is_some target)) (me_steps e) = Ok tt
}.
Lemma lowerable_targets e target :
  lowerable e target ->
  local_fallback_region_targets_v3 e = Ok match target with Some t => {[t]} | None => ∅ end.
Proof.
  intros [Hf Ht Hr _]. unfold local_fallback_region_targets_v3. rewrite (fallback_targets_fold _ _ _ Hf). cbn [rbind fst snd orb].
  assert (list_to_set (omap step_fallback_region (me_steps e)) ∪ ∅ = match target with Some t => {[t]} | None => ∅ end :> gset RegionId) as ->.
  { destruct target as [t|]; [|by rewrite Ht]. destruct Ht as [n ->]. cbn. clear. induction n; set_solver. }
  destruct target as [t|]; cbn in *; [rewrite Hr|]; by rewrite ?andb_false_r, ?bool_decide_true.
Qed.
Lemma lowerable_steps e target :
  lowerable e target -> validate_region_steps_supported_by_current_lowering_v3 e = Ok tt.
Proof.
  intros H. unfold validate_region_steps_supported_by_current_lowering_v3. rewrite (lowerable_targets _ _ H). cbn [rbind].
  destruct target; cbn; [rewrite bool_decide_false by set_solver|rewrite bool_decide_true by done]; apply H.
Qed.

(** ** The two regions of a shape *)

Definition shape_sources (s : PlannedShape) : list PyObjectRegionInputSource :=
  match s with
  | PS_AddGtZero s => [ibs_left s; ibs_right s]
  | PS_CompareConstant s => [cch_value s]
  | PS_IntCompareBranch s | PS_IntCompareReturn s | PS_StrCompareBranch s | PS_StrCompareReturn s => [csh_left s; csh_right s]
  | PS_IntBinaryReturn s => [irs_left s; irs_right s]
  end.
(** The operator a shape was recognised for. *)
Definition shape_of_op (op : BinOpKind) (s : PlannedShape) : Prop :=
  match s with
  | PS_AddGtZero _ => op = Gt
  | PS_CompareConstant s => compare_alternative_spec op = Some (cch_compare s)
  | PS_IntCompareBranch s | PS_IntCompareReturn s | PS_StrCompareBranch s | PS_StrCompareReturn s =>
      compare_alternative_spec op = Some (csh_compare s)
  | PS_IntBinaryReturn s => binary_return_alternative_spec op = Some (irs_operation s)
  end.
Definition hot_input (index : nat) (source : PyObjectRegionInputSource) : RegionInput :=
  region_pyobject_input (plan_value_new (Z.of_nat index) PyObjectBorrowed) (Z.of_nat index) source.
Definition fallback_input (index : nat) (source : PyObjectRegionInputSource) : RegionInput :=
  region_pyobject_input (fallback_pyobject_input_value (Z.of_nat index) source) (Z.of_nat index) source.
Definition exits_match (hot fb : list RegionExitPlan) : Prop :=
  exists source v w, (hot = branch_exit source v /\ fb = branch_exit source w) \/ (hot = return_exit source v /\ fb = return_exit source w).

Record planned_pair (id fallback : RegionId) (s : PlannedShape) (hot fb : RegionPlan) : Prop := mkPlannedPair {
  pp_hot_id : rg_id hot = id;
  pp_fb_id : rg_id fb = fallback;
  pp_hot_inputs : rg_inputs hot = imap hot_input (shape_sources s);
  pp_fb_inputs : rg_inputs fb = imap fallback_input (shape_sources s);
  pp_exits : exits_match (rg_exits hot) (rg_exits fb);
  pp_hot_valid known deopt : known fallback = true -> validate_region hot known deopt = [];
  pp_fb_valid known deopt : validate_region fb known deopt = [];
  pp_hot_lowerable : lowerable (emit_region hot) (Some fallback);
  pp_fb_lowerable : lowerable (emit_region fb) None
}.

Lemma fallback_value_cases id src :
  fallback_pyobject_input_value id src = plan_value_new id PyObjectOwned \/
  fallback_pyobject_input_value id src = plan_value_new id PyObjectBorrowed.
Proof. destruct src; auto. Qed.
Ltac fallback_values :=
  repeat match goal with
  | |- context [fallback_pyobject_input_value ?i ?src] => destruct (fallback_value_cases i src) as [-> | ->]
  end.
Ltac check_lowerable :=
  split; fallback_values; cbn [me_steps emit_region rg_nodes]; 
    first [vm_compute; reflexivity|exists 1%nat; reflexivity|exists 3%nat; reflexivity|exists 4%nat; reflexivity].
Ltac check_pair :=
  match goal with
  | |- exists hot fb, ?l = _ /\ planned_pair ?id _ _ _ _ =>
      let l' := eval lazy -[fallback_pyobject_input_value region_pyobject_input fallback_region_id hot_source] in l in
      change l with l'; generalize (fallback_region_id id); intros fallback
  end;
  eexists _, _; split;
    [reflexivity
    |split;
      [reflexivity|reflexivity|reflexivity|reflexivity
      |eexists _, _, _; first [left; split; reflexivity|right; split; reflexivity]
      |intros known deopt Hknown; vm_compute; rewrite ?Hknown; reflexivity
      |intros known deopt; fallback_values; vm_compute; reflexivity
      |check_lowerable|check_lowerable]].

Definition default_catalog : AlternativeCatalog := default (mkCatalog 0 []) default_v3.
Lemma default_catalog_eq : default_v3 = Some default_catalog.
Proof. vm_compute. reflexivity. Qed.
Lemma shape_planned catalog id s op :
  default_v3 = Some catalog -> shape_of_op op s ->
  exists hot fb, shape_regions catalog id s = Ok [hot; fb] /\ planned_pair id (fallback_region_id id) s hot fb.
Proof.
  rewrite default_catalog_eq. intros [= <-] Hop.
  destruct s as [s|s|s|s|s|s|s]; destruct s; cbn in Hop; [|destruct op; try discriminate Hop; injection Hop as <-..].
  all: try match goal with b : bool |- _ => destruct b end.
  all: check_pair.
Qed.
