(* ===== verification/PlanAccepted.v ===== *)
(** * Plans of a function are accepted

    What the planner makes of the regions of a function: every recognised region gets its two
    regions, their numbers are distinct, and all of them together pass the validation of plans
    and the checks of the code generator. *)

From stdpp Require Import gmap.
From S2P Require Import Prelude Ids Cfg Names Instr Region RegionProps Specialize RegionMatch RegionMatchProps Plan Emit Alternatives PlanBuild PlanBuildProps.

Local Open Scope Z_scope.

(** ** Recognised shapes *)

Definition resolved_source (source : PyObjectRegionInputSource) : Prop :=
  match source with IS_CellValue _ name _ => is_Some (cell_location name) | _ => True end.
Lemma input_resolved region fields globals allow v source :
  pyobject_input_source region fields globals allow v = Some source -> resolved_source source.
Proof.
  unfold pyobject_input_source, load_name_pyobject_input_source. intros H.
  destruct (region_value region v) as [x|]; [|done]. cbn in H. destruct (ev_kind x) as [name cell| | |]; [|done| |done].
  - destruct (rn_location name) eqn:E; simplify_option_eq; try done; [by destruct (negb _); simplify_eq|].
    cbn. unfold cell_location. rewrite E. eauto.
  - destruct allow; by simplify_option_eq.
Qed.

Section recognised.
Context (region : ExtractedRegion) (facts : PlannerFacts) (fields : FieldLoads) (globals : GlobalLoads).
Notation sources_of s := (Forall resolved_source (shape_sources s)).
#[local] Hint Resolve input_resolved : core.

Ltac recognise H :=
  repeat match type of H with
  | (_ ← ?m; _) = Some _ => let E := fresh "E" in destruct m as [?|] eqn:E; [cbn [mbind option_bind] in H|discriminate H]
  | (let (_, _) := ?p in _) = Some _ => destruct p
  | (if ?c then _ else _) = Some _ => destruct c; [discriminate H|]
  | (match ?x with _ => _ end) = Some _ => destruct x; try discriminate H
  end; injection H as <-; repeat constructor; eauto.
Lemma planned_shape_op s :
  planned_shape region facts fields globals = Some s -> (exists op, shape_of_op op s) /\ sources_of s.
Proof.
  assert (forall {A} (m : option A) (f : A -> PlannedShape) k,
    match m with Some x => Some (f x) | None => k end = Some s -> (exists x, m = Some x /\ s = f x) \/ k = Some s) as Hor.
  { intros A [x|] f k H; [left; exists x; split; congruence|by right]. }
  unfold planned_shape. intros H.
  apply Hor in H as [(x & E & ->)|H]; [|apply Hor in H as [(x & E & ->)|H]; [|apply Hor in H as [(x & E & ->)|H];
    [|apply Hor in H as [(x & E & ->)|H]; [|apply Hor in H as [(x & E & ->)|H]; [|apply Hor in H as [(x & E & ->)|H]]]]]].
  7: destruct (match_compact_int_binary_return region facts fields globals) as [x|] eqn:E; [injection H as <-|done].
  all: unfold match_compact_int_add_gt_zero_branch, match_compact_int_compare_constant_branch, match_compact_int_compare_branch,
    match_compact_int_compare_return, match_exact_str_compare_branch, match_exact_str_compare_return, match_compact_int_binary_return in E.
  all: cbn; split; recognise E.
Qed.
End recognised.

(** ** Numbers of regions *)

Definition ok_regions (f : BlockPyFunction InstrBlockPy) : list ExtractedRegion :=
  omap (fun a => match ra_result a with Ok r => Some r | Err _ => None end) (extract_function_regions_v3 f).
Definition primary (id : RegionId) : Prop := exists k : nat, id = mkRegionId (2 * Z.of_nat k) /\ 2 * Z.of_nat k + 1 < 2 ^ 32.

Lemma extract_id b instr id r : extract b instr id = Ok r -> er_id r = id.
Proof.
  intros H. destruct instr as [[iid op children]|]; cbn in H.
  - unfold extract_block_body_instr_region_v3 in H. case_bool_decide; [done|]. destruct op; try done.
    destruct children as [|value [|]]; try done. destruct (linearize_instr region_builder_new value) as [[b1 v]|]; [|done]. by injection H as <-.
  - unfold extract_block_term_region_v3 in H. case_bool_decide; [done|]. destruct (blk_term b) as [|t| | |value|]; try done.
    + unfold extract_if_term in H. destruct (linearize_instr region_builder_new (ti_test t)) as [[b1 v]|]; [|done]. by injection H as <-.
    + destruct (linearize_instr region_builder_new value) as [[b1 v]|]; [|done]. by injection H as <-.
Qed.
Lemma ok_regions_numbered f :
  2 * Z.of_nat (length (sources f)) < 2 ^ 32 -> NoDup (map er_id (ok_regions f)) /\ Forall (fun r => primary (er_id r)) (ok_regions f).
Proof.
  intros Hs. unfold ok_regions. rewrite function_attempts.
  enough (forall l n, 2 * Z.of_nat (n + length l) < 2 ^ 32 ->
    let rs := omap (fun a => match ra_result a with Ok r => Some r | Err _ => None end) (imap (fun j s => attempt (n + j) s) l) in
    NoDup (map er_id rs) /\ Forall (fun r => exists k, (n <= k)%nat /\ er_id r = mkRegionId (2 * Z.of_nat k) /\ 2 * Z.of_nat k + 1 < 2 ^ 32) rs) as H.
  { destruct (H (sources f) 0%nat) as [H1 H2]; [lia|]. split; [exact H1|]. eapply Forall_impl; [exact H2|].
    intros r (k & _ & Hk). exists k. exact Hk. }
  clear. induction l as [|s l IH]; intros n Hn; [by split; constructor|]. cbn [length] in Hn.
  destruct (IH (S n)) as [Hd Hp]; [lia|]. clear IH. cbn zeta in *. cbn [imap omap list_omap]. rewrite Nat.add_0_r.
  rewrite (imap_ext _ (fun j s => attempt (S n + j) s)) by (intros j x _; cbn; f_equal; lia).
  assert (Forall (fun r => exists k, (n <= k)%nat /\ er_id r = mkRegionId (2 * Z.of_nat k) /\ 2 * Z.of_nat k + 1 < 2 ^ 32)
    (omap (fun a => match ra_result a with Ok r => Some r | Err _ => None end) (imap (fun j s => attempt (S n + j) s) l))) as Hp'.
  { eapply Forall_impl; [exact Hp|]. cbn. intros r (k & Hk & Hr). exists k. split; [lia|done]. }
  destruct (ra_result (attempt n s)) as [r|] eqn:E; [|by split].
  cbn in E. apply extract_id in E. unfold wrap32 in E. rewrite Z.mod_small in E by lia. split.
  - cbn. apply NoDup_cons. split; [|done]. intros Hin. apply list_elem_of_fmap in Hin as (r' & Heq & Hr').
    rewrite Forall_forall in Hp. destruct (Hp _ Hr') as (k & Hk & Hid & _). rewrite E in Heq. rewrite Hid in Heq. injection Heq. lia.
  - constructor; [|done]. exists n. split; [lia|]. split; [done|lia].
Qed.

(** The number after that of a primary region is not that of a primary region. *)
Lemma primary_fallback id : primary id -> fallback_region_id id = mkRegionId (region_number id + 1).
Proof. intros (k & -> & Hk). unfold fallback_region_id, wrap32. cbn. by rewrite Z.mod_small by lia. Qed.

(** ** Plans of the requests *)

Lemma gather_cons {E S A} (step : S -> A -> S * list E) x l s :
  gather step (x :: l) s =
  let '(s, errors) := step s x in let '(s, more) := gather step l s in (s, errors ++ more).
Proof.
  unfold gather. cbn. destruct (step s x) as [s1 e1]. cbn.
  assert (forall l s acc, fold_left (fun acc item => let '(state, errors) := step acc.1 item in (state, acc.2 ++ errors)) l (s, acc)
    = let '(s', more) := fold_left (fun acc item => let '(state, errors) := step acc.1 item in (state, acc.2 ++ errors)) l (s, []) in (s', acc ++ more)) as H.
  { clear. induction l as [|x l IH]; intros s acc; cbn; [by rewrite app_nil_r|]. destruct (step s x) as [s' e]. rewrite (IH s' (acc ++ e)), (IH s' e).
    destruct (fold_left _ l (s', [])). by rewrite app_assoc. }
  apply H.
Qed.

Section requests.
Context (catalog : AlternativeCatalog) (fields : FieldLoads) (globals : GlobalLoads).
Hypothesis Hcatalog : default_v3 = Some catalog.
Notation Request := (ExtractedRegion * PlannerFacts)%type.
Notation shape_of request := (planned_shape (fst request) (snd request) fields globals).

Definition planned_of (request : Request) : list RegionPlan :=
  match plan_compact_int_branch catalog request.1 request.2 fields globals with Ok (Some regions) => regions | _ => [] end.
Definition declined_of (request : Request) : list PlanDiagnostic :=
  match shape_of request with Some _ => [] | None => [diagnose request.1 "unsupported shape"] end.

Lemma request_planned request :
  match shape_of request with
  | None => plan_compact_int_branch catalog request.1 request.2 fields globals = Ok None /\ planned_of request = []
  | Some s => exists hot fb, plan_compact_int_branch catalog request.1 request.2 fields globals = Ok (Some [hot; fb])
      /\ planned_of request = [hot; fb] /\ planned_pair (er_id request.1) (fallback_region_id (er_id request.1)) s hot fb
      /\ Forall resolved_source (shape_sources s)
  end.
Proof.
  unfold planned_of. rewrite plan_of_shape. destruct (shape_of request) as [s|] eqn:E; [|done]. cbn [opt_result].
  destruct (planned_shape_op _ _ _ _ _ E) as [[op Hop] Hr]. destruct (shape_planned catalog (er_id request.1) s op Hcatalog Hop) as (hot & fb & -> & Hp).
  exists hot, fb. done.
Qed.
Lemma plan_requests requests regions diagnostics :
  plan_region_requests catalog fields globals requests (regions, diagnostics)
  = Some (regions ++ concat (map planned_of requests), diagnostics ++ concat (map declined_of requests)).
Proof.
  revert regions diagnostics. induction requests as [|request requests IH]; intros; cbn [plan_region_requests map concat].
  { by rewrite !app_nil_r. }
  pose proof (request_planned request) as H. unfold plan_region_request, declined_of.
  destruct (shape_of request); [destruct H as (hot & fb & -> & -> & _)|destruct H as [-> ->]]; cbn [mbind option_bind]; rewrite IH;
    by rewrite <- ?app_assoc.
Qed.
Lemma elem_of_planned requests region :
  region ∈ concat (map planned_of requests) ->
  exists request s hot fb, request ∈ requests /\ shape_of request = Some s /\ region ∈ [hot; fb]
    /\ hot ∈ concat (map planned_of requests) /\ fb ∈ concat (map planned_of requests)
    /\ planned_pair (er_id request.1) (fallback_region_id (er_id request.1)) s hot fb /\ Forall resolved_source (shape_sources s).
Proof.
  intros (request & Hr & Hl)%elem_of_concat_map.
  pose proof (request_planned request) as H. destruct (shape_of request) as [s|] eqn:E; [|destruct H as [_ H]; rewrite H in Hl; by apply not_elem_of_nil in Hl].
  destruct H as (hot & fb & _ & Hp & Hpair & Hs). exists request, s, hot, fb. rewrite <- Hp.
  split_and!; [done|done|done| | |done|done]; apply elem_of_concat_map; exists request; rewrite Hp; set_solver.
Qed.

(** *** Distinct numbers *)

Lemma planned_ids request :
  primary (er_id request.1) ->
  map rg_id (planned_of request) = [] \/
  map rg_id (planned_of request) = [er_id request.1; mkRegionId (region_number (er_id request.1) + 1)].
Proof.
  intros Hp. pose proof (request_planned request) as H. destruct (shape_of request); [|left; by destruct H as [_ ->]].
  right. destruct H as (hot & fb & _ & -> & H & _). cbn. by rewrite (pp_hot_id _ _ _ _ _ H), (pp_fb_id _ _ _ _ _ H), primary_fallback.
Qed.
Lemma planned_ids_of requests id :
  Forall (fun r : Request => primary (er_id r.1)) requests -> id ∈ map rg_id (concat (map planned_of requests)) ->
  exists r, r ∈ requests /\ (id = er_id r.1 \/ id = mkRegionId (region_number (er_id r.1) + 1)).
Proof.
  rewrite Forall_forall. intros Hp Hid. apply list_elem_of_fmap in Hid as (x & -> & Hx). apply elem_of_concat_map in Hx as (r & Hr & Hx).
  exists r. split; [done|]. apply (list_elem_of_fmap_2 rg_id) in Hx. change (rg_id x ∈ map rg_id (planned_of r)) in Hx.
  destruct (planned_ids r (Hp _ Hr)) as [E|E]; rewrite E in Hx; set_solver.
Qed.
Lemma planned_nodup requests :
  NoDup (map (fun r : Request => er_id r.1) requests) -> Forall (fun r : Request => primary (er_id r.1)) requests ->
  NoDup (map rg_id (concat (map planned_of requests))).
Proof.
  induction requests as [|r requests IH]; intros Hn Hp; [constructor|]. apply NoDup_cons in Hn as [Hr Hn]. apply Forall_cons in Hp as [Hp Hps].
  cbn [map concat]. rewrite map_app. destruct Hp as (k & Hk & Hlt).
  destruct (planned_ids r) as [->| ->]; [by exists k|by apply IH|]. apply NoDup_app. split_and!; [| |by apply IH].
  - rewrite Hk. cbn. repeat constructor; [|set_solver]. rewrite list_elem_of_singleton. intros [=]; lia.
  - intros id Hid Hid'. destruct (planned_ids_of _ _ Hps Hid') as (r' & Hr' & Hc). rewrite Forall_forall in Hps. destruct (Hps _ Hr') as (k' & Hk' & _).
    assert (k <> k') as Hne.
    { intros ->. apply Hr. rewrite Hk, <- Hk'. by apply list_elem_of_fmap_2 with (f := fun r : Request => er_id r.1). }
    rewrite Hk, Hk' in *. cbn in *. apply elem_of_cons in Hid as [->| ->%list_elem_of_singleton]; destruct Hc as [[=]|[=]]; lia.
Qed.

(** *** Validation *)

(** Names are not empty. *)
Definition named_source (source : PyObjectRegionInputSource) : Prop :=
  match source with
  | IS_LocalName name => name <> EmptyString
  | IS_CellValue _ name binding => rn_id name <> EmptyString /\ clb_logical_name binding <> EmptyString
  | IS_ModuleConstant _ => True
  | IS_IndexedField _ receiver owner_type attr_name _ =>
      receiver <> EmptyString /\ ot_module_name owner_type <> EmptyString /\ ot_qualname owner_type <> EmptyString
      /\ attr_name <> EmptyString
  | IS_IndexedGlobal _ module_name name _ => module_name <> EmptyString /\ name <> EmptyString
  end.
Lemma input_source_valid region ids values rep index id source :
  named_source source -> resolved_source source -> rep = PyObjectBorrowed \/ rep = PyObjectOwned ->
  validate_region_input_source region (region_pyobject_input (plan_value_new id rep) index source) ids values = [].
Proof.
  intros Hn Hr Hrep. assert (is_python_object rep = true) as Ho by (by destruct Hrep as [->| ->]).
  destruct source; cbn in *; unfold is_empty; rewrite ?Ho;
    repeat match goal with H : _ /\ _ |- _ => destruct H | H : is_Some _ |- _ => destruct H as [? ->] end;
    rewrite ?bool_decide_false by done; try done. by destruct Hrep as [->| ->].
Qed.
Lemma gather_duplicates regions ids :
  NoDup (map rg_id regions) -> (forall r, r ∈ regions -> rg_id r ∉ ids) ->
  gather duplicate_region regions ids = (list_to_set (map rg_id regions) ∪ ids, []).
Proof.
  revert ids. induction regions as [|r regions IH]; intros ids Hn Hd; [cbn; f_equal; set_solver|].
  apply NoDup_cons in Hn as [Hr Hn]. rewrite gather_cons. cbn. rewrite bool_decide_false by (apply Hd; set_solver). rewrite IH; [|done|].
  - cbn. f_equal. set_solver.
  - intros x Hx. assert (rg_id x <> rg_id r) as Hne; [|set_solver]. intros E. apply Hr. rewrite <- E. by apply list_elem_of_fmap_2.
Qed.
Lemma planned_inputs_valid requests region input values :
  (forall request s, request ∈ requests -> shape_of request = Some s -> Forall named_source (shape_sources s)) ->
  region ∈ concat (map planned_of requests) -> input ∈ rg_inputs region ->
  forall ids, validate_region_input_source (rg_id region) input ids values = [].
Proof.
  intros Hnamed Hr Hi ids. destruct (elem_of_planned _ _ Hr) as (request & s & hot & fb & Hin & Hs & Hpair & _ & _ & P & Hres).
  pose proof (Hnamed _ _ Hin Hs) as Hn. rewrite Forall_forall in Hres, Hn.
  assert (exists f, (f = hot_input \/ f = fallback_input) /\ rg_inputs region = imap f (shape_sources s)) as (f & Hf & E).
  { apply elem_of_cons in Hpair as [->|Hpair]; [exists hot_input; split; [by left|apply P]|].
    apply list_elem_of_singleton in Hpair as ->. exists fallback_input. split; [by right|apply P]. }
  rewrite E in Hi. apply list_elem_of_lookup in Hi as [k Hk]. rewrite list_lookup_imap in Hk.
  destruct (shape_sources s !! k) as [source|] eqn:Es; [|done]. injection Hk as <-. apply list_elem_of_lookup_2 in Es.
  destruct Hf as [->| ->]; unfold hot_input, fallback_input.
  - apply input_source_valid; auto.
  - destruct (fallback_value_cases (Z.of_nat k) source) as [->| ->]; apply input_source_valid; auto.
Qed.
Lemma planned_valid requests :
  NoDup (map (fun r : Request => er_id r.1) requests) -> Forall (fun r : Request => primary (er_id r.1)) requests ->
  (forall request s, request ∈ requests -> shape_of request = Some s -> Forall named_source (shape_sources s)) ->
  validate_function_regions (concat (map planned_of requests)) ∅ = [].
Proof.
  intros Hn Hp Hnamed. unfold validate_function_regions.
  rewrite gather_duplicates; [|by apply planned_nodup|intros; by apply not_elem_of_empty]. cbn [app].
  set (regions := concat (map planned_of requests)) in *.
  assert (forall {A} (f : A -> list PlanError) l, (forall x, x ∈ l -> f x = []) -> concat (map f l) = []) as Hc.
  { intros A f l. induction l as [|x l IH]; intros H; [done|]. cbn. rewrite (H x), IH by set_solver. done. }
  rewrite (Hc _ (fun region => validate_region_plan region _ ∅)); [rewrite Hc; [done|]|].
  - intros region Hr. apply Hc. intros input Hi. by apply (planned_inputs_valid requests).
  - intros region Hr. destruct (elem_of_planned _ _ Hr) as (request & s & hot & fb & _ & _ & Hpair & _ & Hfb & P & _).
    apply elem_of_cons in Hpair as [->| ->%list_elem_of_singleton]; unfold validate_region_plan.
    + apply P. apply bool_decide_eq_true. rewrite <- (pp_fb_id _ _ _ _ _ P), elem_of_union, elem_of_list_to_set. left.
      by apply list_elem_of_fmap_2.
    + apply P.
Qed.

(** *** Support by the code generator *)

Lemma by_number_lookup {A} (number : A -> RegionId) l x :
  NoDup (map number l) -> x ∈ l -> by_number number l !! number x = Some x.
Proof.
  intros Hn Hx. unfold by_number. assert (forall m : gmap RegionId A, (x ∈ l \/ (m !! number x = Some x /\ number x ∉ map number l)) ->
    fold_left (fun map region => <[number region := region]> map) l m !! number x = Some x) as H; [|apply H; by left].
  clear Hx. induction l as [|y l IH]; intros m Hm; cbn; [destruct Hm as [[]%not_elem_of_nil|[? _]]; done|].
  apply NoDup_cons in Hn as [Hy Hn]. apply IH; [done|]. destruct Hm as [[->|Hx]%elem_of_cons|[Hm Hx]].
  - right. by rewrite lookup_insert_eq.
  - by left.
  - right. apply not_elem_of_cons in Hx as [Hne Hx]. by rewrite lookup_insert_ne.
Qed.
Lemma inputs_supported region f s :
  f = hot_input \/ f = fallback_input -> rg_inputs region = imap f (shape_sources s) -> Forall resolved_source (shape_sources s) ->
  validate_region_inputs_supported_by_current_lowering_v3 region = Ok tt.
Proof.
  intros Hf E Hr. unfold validate_region_inputs_supported_by_current_lowering_v3. rewrite E. clear E.
  assert (forall index source, resolved_source source -> validate_region_input_supported (f index source) = Ok tt) as H.
  { intros index source Hs. destruct Hf as [->| ->], source; cbn in *; try done; by destruct Hs as [? ->]. }
  clear Hf. revert f H. induction Hr as [|source sources Hs Hr IH]; intros f H; [done|]. cbn [imap for_each]. rewrite (H _ _ Hs). cbn [rbind].
  apply IH. intros index source' Hs'. by apply H.
Qed.
Lemma lowering_shape_hot id t s hot fb emitted :
  planned_pair id t s hot fb -> emitted !! t = Some (emit_region fb) ->
  validate_region_mechanical_lowering_shape_v3 (emit_region hot) emitted = Ok tt.
Proof.
  intros P He. unfold validate_region_mechanical_lowering_shape_v3, validate_region_local_fallback_shape_v3.
  rewrite (lowerable_targets _ _ (pp_hot_lowerable _ _ _ _ _ P)). cbn [rbind]. rewrite elements_singleton, He. cbn [ok_or rbind].
  destruct (pp_exits _ _ _ _ _ P) as (source & v & w & [[Eh Ef]|[Eh Ef]]);
    unfold require_matching_fallback_exit_v3, require_single_original_cfg_branch_exit_v3, require_single_return_exit_v3,
      has_single_original_cfg_branch_exit_v3, has_single_return_exit_v3, emit_region; cbn [me_exits]; rewrite Eh, Ef; cbn;
    by rewrite bool_decide_true.
Qed.
Lemma lowering_shape_fallback id t s hot fb emitted :
  planned_pair id t s hot fb -> validate_region_mechanical_lowering_shape_v3 (emit_region fb) emitted = Ok tt.
Proof.
  intros P. unfold validate_region_mechanical_lowering_shape_v3, validate_region_local_fallback_shape_v3.
  rewrite (lowerable_targets _ _ (pp_fb_lowerable _ _ _ _ _ P)). cbn [rbind]. rewrite elements_empty.
  by destruct (pp_exits _ _ _ _ _ P) as (source & v & w & [[_ Ef]|[_ Ef]]); unfold require_single_original_cfg_branch_exit_v3,
    require_single_return_exit_v3, has_single_original_cfg_branch_exit_v3, has_single_return_exit_v3, emit_region; cbn [me_exits]; rewrite Ef.
Qed.
Lemma for_each_all_ok {E A} (f : A -> result E unit) l : (forall x, x ∈ l -> f x = Ok tt) -> for_each f l = Ok tt.
Proof. induction l as [|x l IH]; intros H; [done|]. cbn. rewrite (H x) by set_solver. cbn. apply IH. set_solver. Qed.
Lemma planned_supported requests :
  NoDup (map (fun r : Request => er_id r.1) requests) -> Forall (fun r : Request => primary (er_id r.1)) requests ->
  let regions := concat (map planned_of requests) in
  validate_function_mechanical_lowering_shape_v3 regions (map emit_region regions) = Ok tt.
Proof.
  intros Hn Hp regions. pose proof (planned_nodup _ Hn Hp) as Hd. fold regions in Hd.
  apply for_each_all_ok. intros e He. apply list_elem_of_fmap in He as (region & -> & Hr). change (me_region (emit_region region)) with (rg_id region).
  rewrite (by_number_lookup rg_id) by done. cbn [ok_or rbind].
  destruct (elem_of_planned _ _ Hr) as (request & s & hot & fb & _ & _ & Hpair & Hhot & Hfb & P & Hres).
  apply elem_of_cons in Hpair as [->| ->%list_elem_of_singleton].
  - rewrite (inputs_supported hot hot_input s) by (auto; apply P). cbn [rbind].
    rewrite (lowering_shape_hot _ _ _ _ _ _ P), (lowerable_steps _ _ (pp_hot_lowerable _ _ _ _ _ P)); [done|].
    rewrite <- (pp_fb_id _ _ _ _ _ P). change (rg_id fb) with (me_region (emit_region fb)). apply by_number_lookup; [by rewrite map_map|].
    by apply list_elem_of_fmap_2.
  - rewrite (inputs_supported fb fallback_input s) by (auto; apply P). cbn [rbind].
    by rewrite (lowering_shape_fallback _ _ _ _ _ _ P), (lowerable_steps _ _ (pp_fb_lowerable _ _ _ _ _ P)).
Qed.
End requests.

(** C27: The plan of a function is made and accepted, whatever the profile says.  For any regions
    of a function with fewer than 2^31 sources, in any order without repetition, with the catalog of the compiler: no region
    makes the planner panic or fail, each is given two regions exactly when its shape is
    recognised and a diagnostic otherwise, no two regions of the plan have one number, the code
    generator supports all of them with their fallbacks, and they pass the validation of plans
    when the names of their inputs are not empty. *)
Theorem planned_regions_accepted f catalog fields globals requests :
  2 * Z.of_nat (length (sources f)) < 2 ^ 32 -> default_v3 = Some catalog -> map fst requests ⊆+ ok_regions f ->
  exists regions diagnostics,
    plan_region_requests catalog fields globals requests ([], []) = Some (regions, diagnostics)
    /\ length regions = (2 * length (filter (fun r => is_Some (planned_shape r.1 r.2 fields globals)) requests))%nat
    /\ diagnostics = concat (map (fun r => if planned_shape r.1 r.2 fields globals then [] else [diagnose r.1 "unsupported shape"]) requests)
    /\ NoDup (map rg_id regions)
    /\ validate_function_mechanical_lowering_shape_v3 regions (map emit_region regions) = Ok tt
    /\ ((forall r s, r ∈ requests -> planned_shape r.1 r.2 fields globals = Some s -> Forall named_source (shape_sources s)) ->
        validate_function_regions regions ∅ = []).
Proof.
  intros Hs Hc Hr. destruct (ok_regions_numbered f Hs) as [Hn Hp].
  assert (NoDup (map (fun r => er_id r.1) requests)) as Hn'.
  { apply submseteq_Permutation in Hr as [k Hk]. apply (Permutation_map er_id) in Hk. rewrite Hk, map_app, map_map in Hn.
    by apply NoDup_app in Hn as [Hn _]. }
  assert (Forall (fun r : ExtractedRegion * PlannerFacts => primary (er_id r.1)) requests) as Hp'.
  { rewrite Forall_forall in Hp. apply Forall_forall. intros r Hin. apply Hp. eapply elem_of_submseteq; [|exact Hr]. by apply list_elem_of_fmap_2. }
  eexists _, _. split; [rewrite (plan_requests catalog fields globals Hc); cbn [app]; reflexivity|]. split_and!.
  - clear -Hc. induction requests as [|r requests IH]; [done|]. cbn [map concat]. rewrite length_app, IH.
    pose proof (request_planned catalog fields globals Hc r) as H. rewrite filter_cons.
    destruct (planned_shape r.1 r.2 fields globals); [destruct H as (? & ? & _ & -> & _)|destruct H as [_ ->]];
      [rewrite decide_True by eauto|rewrite decide_False by (by intros [])]; cbn; lia.
  - done.
  - by apply planned_nodup.
  - by apply planned_supported.
  - by apply planned_valid.
Qed.

(** ** An example: the regions of [t = a.x + b; if t > 0: ...], where only the comparison has a profile *)

Module DemoPlan.
Definition requests : list (ExtractedRegion * PlannerFacts) :=
  map (fun r => (r, region_facts r DemoMatch.evidence DemoMatch.constants)) (ok_regions DemoRegion.demo).
End DemoPlan.

Lemma planned_regions_accepted_witness :
  exists hot fallback diagnostic,
    plan_region_requests default_catalog ∅ ∅ DemoPlan.requests ([], []) = Some ([hot; fallback], [diagnostic])
    /\ rg_id hot = mkRegionId 2 /\ rg_id fallback = mkRegionId 3
    /\ validate_function_regions [hot; fallback] ∅ = []
    /\ validate_function_mechanical_lowering_shape_v3 [hot; fallback] [emit_region hot; emit_region fallback] = Ok tt.
Proof.
  destruct (planned_regions_accepted DemoRegion.demo default_catalog ∅ ∅ DemoPlan.requests) as (regions & diagnostics & Hp & Hl & Hd & _ & Hs & Hv).
  - vm_compute. reflexivity.
  - apply default_catalog_eq.
  - unfold DemoPlan.requests. rewrite map_map, map_id. reflexivity.
  - assert (validate_function_regions regions ∅ = []) as Hv'.
    { apply Hv. intros r s Hr E. apply list_elem_of_lookup in Hr as [[|[|k]] Hr]; vm_compute in Hr; [..|discriminate Hr];
        injection Hr as <-; vm_compute in E; [discriminate E|]. injection E as <-. by repeat constructor. }
    clear Hl Hd Hv. vm_compute in Hp. injection Hp as <- <-. eexists _, _, _. split_and!; [vm_compute; reflexivity|reflexivity..|exact Hv'|exact Hs].
Defined.
