(* ===== verification/RegionRun.v ===== *)
(** * Generated code of region plans

    crates/soac_jit/src/jit/mod.rs, the code generated for a pair of planned regions
    ([opt_v3_region_input_values], [emit_opt_v3_mechanical_*], [emit_opt_v3_exact_int_*]), as what
    that code does: which objects it loads, computes on and releases, when it leaves for the
    fallback region, and when it raises.  An error is one of the generator itself, before any
    code runs.

    The C functions the code calls are parameters. *)

From stdpp Require Import gmap.
From S2P Require Import Prelude Ids Cfg Names Instr Region Specialize Plan Emit.

Local Open Scope Z_scope.

(** ** The runtime *)

(** An exact [str]: its code points, and whether it has the compact ASCII layout. *)
Record UnicodeObject : Type := mkUnicode { un_chars : list Z; un_compact_ascii : bool }.

(** A local at run time: a machine integer or truth value, an object, or a pointer that is
    tested for null when it is read; an unset abrupt kind counts as falling through. *)
Inductive LocalValue (Obj : Type) : Type :=
| LV_I64 (value : Z)
| LV_I32Bool01 (value : bool)
| LV_PyObject (value : Obj)
| LV_Checked (value : option Obj) (abrupt_kind : bool).
Arguments LV_I64 {Obj} value.
Arguments LV_I32Bool01 {Obj} value.
Arguments LV_PyObject {Obj} value.
Arguments LV_Checked {Obj} value abrupt_kind.

(** *** The layout of objects that the code reads *)

(** The size and sign of an exact [int], and its first digit. *)
Record RawPyLong : Type := mkRawLong { lv_tag : Z; ob_digit : Z }.
(** The keys of a dict or of the instances of a type; [None] is a null pointer. *)
Record RawPyDictKeys (Obj : Type) : Type := mkRawKeys { dk_kind : Z; dk_nentries : Z; dk_entry : Z -> option Obj }.
Inductive SlotValue (Obj : Type) : Type := SV_Null | SV_Tombstone | SV_Object (value : Obj).
Record RawIndexedValues (Obj : Type) : Type := mkRawIndexed {
  ix_capacity : Z; ix_prefix_keys : option (RawPyDictKeys Obj); ix_value : Z -> SlotValue Obj }.
Record RawPyDict (Obj : Type) : Type := mkRawDict {
  ma_keys : option (RawPyDictKeys Obj); ma_watcher_tag : Z; ma_values : option (RawIndexedValues Obj) }.
(** An instance: whether its dict has been made, and the values kept in the object itself. *)
Record RawInlineValues (Obj : Type) : Type := mkRawInline {
  il_dict_made : bool; il_valid : Z; il_capacity : Z; il_value : Z -> option Obj }.
(** The class that a cell of the function has come to stand for, if it has. *)
Record LateBoundOwnerCell (Obj : Type) : Type := mkOwnerCell { oc_owner : option Obj; oc_type_version : Z }.
Arguments mkRawKeys {Obj} dk_kind dk_nentries dk_entry.
Arguments dk_kind {Obj} _.
Arguments dk_nentries {Obj} _.
Arguments dk_entry {Obj} _.
Arguments SV_Null {Obj}.
Arguments SV_Tombstone {Obj}.
Arguments SV_Object {Obj} value.
Arguments mkRawIndexed {Obj} ix_capacity ix_prefix_keys ix_value.
Arguments ix_capacity {Obj} _.
Arguments ix_prefix_keys {Obj} _.
Arguments ix_value {Obj} _.
Arguments mkRawDict {Obj} ma_keys ma_watcher_tag ma_values.
Arguments ma_keys {Obj} _.
Arguments ma_watcher_tag {Obj} _.
Arguments ma_values {Obj} _.
Arguments mkRawInline {Obj} il_dict_made il_valid il_capacity il_value.
Arguments il_dict_made {Obj} _.
Arguments il_valid {Obj} _.
Arguments il_capacity {Obj} _.
Arguments il_value {Obj} _.
Arguments mkOwnerCell {Obj} oc_owner oc_type_version.
Arguments oc_owner {Obj} _.
Arguments oc_type_version {Obj} _.

(** *** The guards of an indexed field *)

Inductive TypedAttrOwnerRef : Type := OR_CpythonTypeSymbol (symbol : string) | OR_TypeKey (module_name qualname : string).
#[global] Instance TypedAttrOwnerRef_eq_dec : EqDecision TypedAttrOwnerRef.
Proof. solve_decision. Defined.
Record TypedIndexedFieldGuard : Type := mkFieldGuard {
  tg_expected_index : Z; tg_owner_type_ref : TypedAttrOwnerRef; tg_type_version : Z }.
#[global] Instance TypedIndexedFieldGuard_eq_dec : EqDecision TypedIndexedFieldGuard.
Proof. solve_decision. Defined.
#[global] Instance IndexedFieldOwnerType_eq_dec : EqDecision IndexedFieldOwnerType.
Proof. solve_decision. Defined.
Inductive LateBoundOwnerFieldStorage : Type := LS_SplitDict (expected_index : Z) | LS_ObjectSlot.
Record TypedLateBoundOwnerFieldPlan : Type := mkLateBoundPlan {
  lb_runtime_module : Z;
  lb_owner_type : IndexedFieldOwnerType;
  lb_attr_name : string;
  lb_storage : LateBoundOwnerFieldStorage;
  lb_cell_index : Z
}.

(** What the code reads and calls: its locals and constants, the layout of objects, the C
    functions and the functions of the runtime.  A result is an object or an exception. *)
Class JitRuntime (World Obj : Type) : Type := {
  local_entry : string -> option (LocalValue Obj);
  raise_unbound_local_error : string -> World -> World * Obj;
  module_constant : Z -> Obj;
  unicode_constant : string -> Obj;
  (** reading a cell changes nothing *)
  load_cell : ResolvedName -> CellLoadBinding -> World -> result Obj Obj;
  (** the globals of the module; keys are exact strings, so comparing them runs no code *)
  globals_dict : World -> RawPyDict Obj;
  key_equal : Obj -> Obj -> bool;
  load_global_slow : string -> Z -> World -> World * result Obj Obj;
  (** types and instances; [relocated] is the type a reference is linked to, the inner [None] when
      it is not linked in this process *)
  runtime_module : Z;
  field_guards : InstrId -> option (list TypedIndexedFieldGuard);
  late_bound_field : InstrId -> option TypedLateBoundOwnerFieldPlan;
  relocated : TypedAttrOwnerRef -> option (option Obj);
  object_type : Obj -> World -> Obj;
  tp_version_tag : Obj -> World -> Z;
  ht_cached_keys : Obj -> World -> option (RawPyDictKeys Obj);
  inline_values : Obj -> World -> RawInlineValues Obj;
  owner_cells : World -> option (Z -> LateBoundOwnerCell Obj);
  get_attr : Obj -> string -> World -> World * result Obj Obj;
  (** an exact [int] and an exact [str] *)
  raw_long : Obj -> option RawPyLong;
  exact_unicode : Obj -> option UnicodeObject;
  same_object : Obj -> Obj -> bool;
  unicode_compare : UnicodeObject -> UnicodeObject -> Z;
  py_number : NumberOp -> Obj -> Obj -> World -> World * result Obj Obj;
  py_rich_compare : RichCompareOp -> Obj -> Obj -> World -> World * result Obj Obj;
  py_is_true : Obj -> World -> World * result Obj bool;
  py_long_from_i64 : Z -> World -> World * result Obj Obj;
  py_bool : bool -> Obj
}.

(** ** Machine integers and strings *)

(** [opt_v3_rich_compare_intcc], with [icmp] on signed integers. *)
Definition icmp (op : RichCompareOp) (a b : Z) : bool :=
  match op with
  | RC_Eq => a =? b
  | RC_Ne => negb (a =? b)
  | RC_Lt => a <? b
  | RC_Le => a <=? b
  | RC_Gt => b <? a
  | RC_Ge => b <=? a
  end.
Definition in_i64 (n : Z) : bool := (- 2 ^ 63 <=? n) && (n <? 2 ^ 63).
(** [sadd_overflow], [ssub_overflow] and [smul_overflow]: nothing on overflow. *)
Definition checked_i64 (op : CheckedOp) (a b : Z) : option Z :=
  let r := match op with CK_Add => a + b | CK_Sub => a - b | CK_Mul => a * b end in
  if in_i64 r then Some r else None.
Definition i64_bit (op : BitOp) (a b : Z) : Z :=
  match op with BT_And => Z.land a b | BT_Or => Z.lor a b | BT_Xor => Z.lxor a b end.

(** A byte as [i8]. *)
Definition signed8 (c : Z) : Z := if c <? 128 then c else c - 256.
(** The sign of [memcmp] over the first [n] bytes. *)
Fixpoint memcmp (a b : list Z) (n : nat) : Z :=
  match n, a, b with
  | S n, x :: a, y :: b => if x =? y then memcmp a b n else if x <? y then -1 else 1
  | _, _, _ => 0
  end.
Definition soac_runtime_compare_compact_ascii_unicode (lhs rhs : UnicodeObject) : Z :=
  let lhs_len := length (un_chars lhs) in
  let rhs_len := length (un_chars rhs) in
  let min_len := if (lhs_len <? rhs_len)%nat then lhs_len else rhs_len in
  let compare := if negb (min_len =? 0)%nat then memcmp (un_chars lhs) (un_chars rhs) min_len else 0 in
  if negb (compare =? 0) then compare
  else if (lhs_len =? rhs_len)%nat then 0
  else if (lhs_len <? rhs_len)%nat then -1
  else 1.
Definition exact_unicode_compare_bool (compare : UnicodeObject -> UnicodeObject -> Z) (same : bool) (op : RichCompareOp)
    (lhs rhs : UnicodeObject) : bool :=
  if same then icmp op 0 0
  else if un_compact_ascii lhs && un_compact_ascii rhs then
    match un_chars lhs, un_chars rhs with
    | [lhs_char], [rhs_char] => icmp op (signed8 lhs_char) (signed8 rhs_char)
    | _, _ => icmp op (soac_runtime_compare_compact_ascii_unicode lhs rhs) 0
    end
  else icmp op (compare lhs rhs) 0.

(** ** Guards

    Reads of objects that the code makes inline.  None runs Python code or changes anything. *)

Section guards.
Context {World Obj : Type} `{!JitRuntime World Obj}.

Definition PYLONG_COMPACT_TAG_LIMIT : Z := Z.shiftl 2 3.
Definition PY_LONG_SIGN_MASK : Z := 3.
(** A product of [i64]s. *)
Definition imul64 (a b : Z) : Z := (a * b + 2 ^ 63) mod 2 ^ 64 - 2 ^ 63.
(** [emit_guarded_compact_long_i64] on an object, which is not null. *)
Definition compact_long (o : Obj) : option Z :=
  match raw_long o with
  | Some value =>
      if lv_tag value <? PYLONG_COMPACT_TAG_LIMIT
      then Some (imul64 (1 - Z.land (lv_tag value) PY_LONG_SIGN_MASK) (ob_digit value)) else None
  | None => None
  end.

(** *** Globals: [soac_runtime_probe_global_indexed] and the general load *)

Definition DICT_LOOKUP_ALIASES : Z := Z.shiftl 1 13.
(** The values of the dict, when the index is good for them. *)
Definition dict_guarded_index (dict : RawPyDict Obj) (index : Z) : option (RawIndexedValues Obj * RawPyDictKeys Obj) :=
  match ma_keys dict, ma_values dict with
  | Some keys, Some values =>
      if ((dk_kind keys =? 3) || (dk_kind keys =? 4)) && (Z.land (ma_watcher_tag dict) DICT_LOOKUP_ALIASES =? 0)
         && (0 <=? index) && (index <? ix_capacity values)
      then match ix_prefix_keys values with
           | Some prefix => if index <? dk_nentries prefix then Some (values, prefix) else None
           | None => None
           end
      else None
  | _, _ => None
  end.
Definition indexed_name_matches (prefix : RawPyDictKeys Obj) (index : Z) (key : Obj) : bool :=
  match dk_entry prefix index with
  | Some actual => same_object actual key
      || (is_some (exact_unicode key) && (same_object actual key || key_equal actual key))
  | None => false
  end.
Definition probe_indexed_dict_value (dict : RawPyDict Obj) (key : Obj) (index : Z) : option Obj :=
  match dict_guarded_index dict index with
  | Some (values, prefix) =>
      if indexed_name_matches prefix index key
      then match ix_value values index with SV_Object o => Some o | SV_Null | SV_Tombstone => None end
      else None
  | None => None
  end.
Definition probe_global (name : string) (expected_index : Z) (w : World) : option Obj :=
  probe_indexed_dict_value (globals_dict w) (unicode_constant name) expected_index.
(** [emit_codegen_indexed_global_load], where the code goes on after a failed probe. *)
Definition load_global (name : string) (expected_index : Z) (w : World) : World * result Obj Obj :=
  match probe_global name expected_index w with
  | Some o => (w, Ok o)
  | None => load_global_slow name expected_index w
  end.

(** *** Fields *)

Definition emit_exact_type_version_match (o owner_type : Obj) (type_version : Z) (w : World) : bool :=
  same_object (object_type o w) owner_type && (tp_version_tag (object_type o w) w =? type_version).
Definition late_bound_split_key_guard (owner_type attr : Obj) (expected_index : Z) (w : World) : bool :=
  match ht_cached_keys owner_type w with
  | Some keys => (dk_kind keys =? 2) && (expected_index <? dk_nentries keys)
      && match dk_entry keys expected_index with Some key => same_object key attr | None => false end
  | None => false
  end.
Definition trusted_inline_values_field_probe (o : Obj) (expected_index : Z) (w : World) : option Obj :=
  let values := inline_values o w in
  if negb (il_dict_made values) && negb (il_valid values =? 0) && (expected_index <? il_capacity values)
  then il_value values expected_index else None.
Definition guarded_field (o owner_type attr : Obj) (expected_index : Z) (w : World) : option Obj :=
  if late_bound_split_key_guard owner_type attr expected_index w
  then trusted_inline_values_field_probe o expected_index w else None.
(** The guards one after the other; when the type matches, the rest of that guard decides. *)
Fixpoint probe_specializations (o attr : Obj) (guards : list (TypedIndexedFieldGuard * Obj)) (w : World) : option Obj :=
  match guards with
  | [] => None
  | (guard, owner_type) :: guards =>
      if emit_exact_type_version_match o owner_type (tg_type_version guard) w
      then guarded_field o owner_type attr (tg_expected_index guard) w
      else probe_specializations o attr guards w
  end.
(** [emit_late_bound_owner_guard]: the type of the object, when the cell stands for it. *)
Definition late_bound_owner_guard (o : Obj) (cell_index : Z) (w : World) : option Obj :=
  match owner_cells w with
  | Some cells =>
      match oc_owner (cells cell_index) with
      | Some owner =>
          let actual := object_type o w in
          if same_object actual owner && (tp_version_tag actual w =? oc_type_version (cells cell_index)) then Some actual else None
      | None => None
      end
  | None => None
  end.

Inductive FieldPlan : Type :=
| FP_Specializations (guards : list (TypedIndexedFieldGuard * Obj))
| FP_LateBound (cell_index expected_index : Z).
Definition probe_field (plan : FieldPlan) (o : Obj) (attr_name : string) (w : World) : option Obj :=
  let attr := unicode_constant attr_name in
  match plan with
  | FP_Specializations guards => probe_specializations o attr guards w
  | FP_LateBound cell_index expected_index =>
      match late_bound_owner_guard o cell_index w with
      | Some owner_type => guarded_field o owner_type attr expected_index w
      | None => None
      end
  end.
Definition push_unique_specialization (specializations : list TypedIndexedFieldGuard) (guard : TypedIndexedFieldGuard) :
    list TypedIndexedFieldGuard :=
  if bool_decide (guard ∈ specializations) then specializations else specializations ++ [guard].
End guards.

(** ** What the code does *)

Inductive CodegenError : Type :=
| CE_Emit (error : EmitError)
| CE_MissingValue (value : PlanValue)
| CE_StoredRep (value : PlanValue)
| CE_StoredTwice (value : PlanValue)
| CE_NeedsFallback (value : PlanValue)
| CE_NotBorrowed (value : PlanValue)
| CE_UnavailableLocal (name : string)
| CE_FieldGuards (source : InstrId)
| CE_Exit (region : RegionId)
| CE_Ownership (value : PlanValue).

Section run.
Context {World Obj : Type} `{!JitRuntime World Obj}.

(** A reference the code comes to own, and one it gives up. *)
Inductive RefEvent : Type := Acquired (o : Obj) | Released (o : Obj).
Record Machine : Type := mkMachine { m_world : World; m_refs : list RefEvent }.
(** The code goes on, leaves for the fallback, or raises. *)
Inductive Flow (A : Type) : Type := Next (a : A) | Miss | Raised (e : Obj).
Arguments Next {A} a.
Arguments Miss {A}.
Arguments Raised {A} e.
Definition Run (A : Type) : Type := Machine -> result CodegenError (Machine * Flow A).

#[global] Instance run_ret : MRet Run := fun A a m => Ok (m, Next a).
#[global] Instance run_bind : MBind Run := fun A B k r m =>
  match r m with
  | Ok (m, Next a) => k a m
  | Ok (m, Miss) => Ok (m, Miss)
  | Ok (m, Raised e) => Ok (m, Raised e)
  | Err e => Err e
  end.
Definition fails {A} (error : CodegenError) : Run A := fun m => Err error.
Definition from_result {A} (r : result CodegenError A) : Run A :=
  fun m => match r with Ok a => Ok (m, Next a) | Err e => Err e end.
Definition miss {A} : Run A := fun m => Ok (m, Miss).
Definition log (events : list RefEvent) (m : Machine) : Machine := mkMachine (m_world m) (m_refs m ++ events).
(** A call whose result, if any, is owned: [emit_checked_owned_pyobject_result]. *)
Definition owned_call (f : World -> World * result Obj Obj) : Run Obj := fun m =>
  let '(w, r) := f (m_world m) in
  match r with
  | Ok o => Ok (mkMachine w (m_refs m ++ [Acquired o]), Next o)
  | Err e => Ok (mkMachine w (m_refs m), Raised e)
  end.
Definition release (owners : list Obj) : Run unit := fun m => Ok (log (map Released owners) m, Next tt).
(** [owned_input_cleanup_target] and [owned_input_cleanup_context]: when the code leaves or
    raises, the owners are released on the way. *)
Definition with_cleanup {A} (owners : list Obj) (r : Run A) : Run A := fun m =>
  match r m with
  | Ok (m, Next a) => Ok (m, Next a)
  | Ok (m, flow) => Ok (log (map Released owners) m, flow)
  | Err e => Err e
  end.

(** ** Values *)

Inductive MechanicalValue : Type :=
| MV_PyObject (value : Obj) (owned : bool) | MV_I64 (value : Z) | MV_I32Bool01 (value : bool).
Notation Values := (gmap PlanValue MechanicalValue).

Definition matches_rep (value : MechanicalValue) (rep : Rep) : bool :=
  match value, rep with
  | MV_PyObject _ true, (PyObjectOwned | PyObjectBorrowed | PyObjectImmortal)
  | MV_PyObject _ false, (PyObjectBorrowed | PyObjectImmortal)
  | MV_I64 _, I64
  | MV_I32Bool01 _, I32Bool01 => true
  | _, _ => false
  end.
Definition store_mechanical_value (values : Values) (key : PlanValue) (value : MechanicalValue) : Run Values :=
  if negb (matches_rep value (pv_rep key)) then fails (CE_StoredRep key)
  else match values !! key with Some _ => fails (CE_StoredTwice key) | None => mret (<[key := value]> values) end.
Definition pyobject_value (values : Values) (key : PlanValue) : Run (Obj * bool) :=
  match values !! key with Some (MV_PyObject value owned) => mret (value, owned) | _ => fails (CE_MissingValue key) end.
Definition take_pyobject_value (values : Values) (key : PlanValue) : Run (Values * (Obj * bool)) :=
  '(value, owned) ← pyobject_value values key;
  mret (if owned : bool then delete key values else values, (value, owned)).
Definition i64_value (values : Values) (key : PlanValue) : Run Z :=
  match values !! key with Some (MV_I64 value) => mret value | _ => fails (CE_MissingValue key) end.
Definition i32_bool01_value (values : Values) (key : PlanValue) : Run bool :=
  match values !! key with Some (MV_I32Bool01 value) => mret value | _ => fails (CE_MissingValue key) end.

(** ** Steps *)

(** The owned ones of the two arguments, last first. *)
Definition owned_operands (args : list (Obj * bool)) : list Obj :=
  rev (omap (fun arg => if arg.2 : bool then Some arg.1 else None) args).
(** [emit_checked_owned_pyobject_call_with_cleanup]: the arguments are released whether or not
    the call raises. *)
Definition call_with_cleanup (f : World -> World * result Obj Obj) (args : list (Obj * bool)) : Run Obj := fun m =>
  let '(w, r) := f (m_world m) in
  let released := map Released (owned_operands args) in
  match r with
  | Ok o => Ok (mkMachine w (m_refs m ++ [Acquired o] ++ released), Next o)
  | Err e => Ok (mkMachine w (m_refs m ++ released), Raised e)
  end.
(** [emit_truthy_from_pyobject_value], when nothing is known of the object. *)
Definition truthy_from_pyobject_value (value : Obj) (owned : bool) : Run bool := fun m =>
  let '(w, r) := py_is_true value (m_world m) in
  let m := mkMachine w (m_refs m ++ if owned then [Released value] else []) in
  match r with Ok truth => Ok (m, Next truth) | Err e => Ok (m, Raised e) end.
Definition emit_convert (kind : MechanicalCodegenConversion) (input output : PlanValue) (values : Values)
    (has_local_fallback : bool) : Run Values :=
  match kind with
  | CC_FromPythonLongCompactToI64 =>
      if negb has_local_fallback then fails (CE_NeedsFallback input)
      else
        '(value, owned) ← pyobject_value values input;
        if owned : bool then fails (CE_NotBorrowed input)
        else match compact_long value with
             | Some converted => store_mechanical_value values output (MV_I64 converted)
             | None => miss
             end
  | CC_TruthinessToI32Bool01 =>
      '(values, (value, owned)) ← take_pyobject_value values input;
      truth ← truthy_from_pyobject_value value owned;
      store_mechanical_value values output (MV_I32Bool01 truth)
  end.
Definition emit_operation (op : MechanicalCodegenOperation) (lhs rhs output : PlanValue) (values : Values)
    (has_local_fallback : bool) : Run Values :=
  let python_call f :=
    '(values, lhs) ← take_pyobject_value values lhs;
    '(values, rhs) ← take_pyobject_value values rhs;
    result ← call_with_cleanup (f lhs.1 rhs.1) [lhs; rhs];
    store_mechanical_value values output (MV_PyObject result true) in
  match op with
  | MO_PyNumber op => python_call (py_number op)
  | MO_PyObjectRichCompare op => python_call (py_rich_compare op)
  | MO_PyObjectRichCompareBool op =>
      if negb has_local_fallback then fails (CE_NeedsFallback output)
      else
        lhs_value ← pyobject_value values lhs;
        rhs_value ← pyobject_value values rhs;
        if lhs_value.2 || rhs_value.2 then fails (CE_NotBorrowed output)
        else match exact_unicode lhs_value.1, exact_unicode rhs_value.1 with
             | Some lhs_unicode, Some rhs_unicode =>
                 store_mechanical_value values output (MV_I32Bool01
                   (exact_unicode_compare_bool unicode_compare (same_object lhs_value.1 rhs_value.1) op lhs_unicode rhs_unicode))
             | _, _ => miss
             end
  | MO_CheckedI64 op =>
      if negb has_local_fallback then fails (CE_NeedsFallback output)
      else
        a ← i64_value values lhs;
        b ← i64_value values rhs;
        match checked_i64 op a b with
        | Some r => store_mechanical_value values output (MV_I64 r)
        | None => miss
        end
  | MO_I64Bit op =>
      a ← i64_value values lhs; b ← i64_value values rhs;
      store_mechanical_value values output (MV_I64 (i64_bit op a b))
  | MO_I64CompareToBool01 op =>
      a ← i64_value values lhs; b ← i64_value values rhs;
      store_mechanical_value values output (MV_I32Bool01 (icmp op a b))
  end.
Definition emit_materialize (kind : MaterializeKind) (input output : PlanValue) (values : Values) : Run Values :=
  match kind with
  | MK_PythonLong =>
      value ← i64_value values input;
      result ← owned_call (py_long_from_i64 value);
      store_mechanical_value values output (MV_PyObject result true)
  | MK_PythonBool =>
      value ← i32_bool01_value values input;
      store_mechanical_value values output (MV_PyObject (py_bool value) false)
  end.

Section region_steps.
Context (has_local_fallback : bool) (preseeded_scalars preseeded_convert_inputs skipped_outputs : gset PlanValue).

(** The code of a step that the generator takes. *)
Definition emit_codegen_step (values : Values) (step : MechanicalCodegenStep) : Run Values :=
  match step with
  | MC_Input output =>
      if bool_decide (output ∈ preseeded_convert_inputs) then mret values
      else match values !! output with Some _ => mret values | None => fails (CE_MissingValue output) end
  | MC_ConstantI64 output value => store_mechanical_value values output (MV_I64 value)
  | MC_SpecializationGuard _ => mret values
  | MC_PreseededConvert output =>
      match values !! output with Some _ => mret values | None => fails (CE_MissingValue output) end
  | MC_Convert kind input output => emit_convert kind input output values has_local_fallback
  | MC_Operation op lhs rhs output => emit_operation op lhs rhs output values has_local_fallback
  | MC_Materialize kind input output =>
      if bool_decide (output ∈ skipped_outputs) then mret values else emit_materialize kind input output values
  end.
Definition emit_step (values : Values) (step : MechanicalStep) : Run Values :=
  step ← from_result
    match mechanical_codegen_step step has_local_fallback preseeded_scalars preseeded_convert_inputs with
    | Ok step => Ok step
    | Err e => Err (CE_Emit e)
    end;
  emit_codegen_step values step.
Fixpoint emit_steps (values : Values) (steps : list MechanicalStep) : Run Values :=
  match steps with
  | [] => mret values
  | step :: steps => values ← emit_step values step; emit_steps values steps
  end.
(** The borrowed views of cells are released on every way out, the last first. *)
Definition emit_region_steps (region : MechanicalRegionEmission) (values : Values) (borrowed_input_owners : list Obj) :
    Run Values :=
  let owners := rev borrowed_input_owners in
  values ← with_cleanup owners (emit_steps values (me_steps region));
  release owners;;
  mret values.
End region_steps.

(** ** Inputs *)

Record RegionInputValues : Type := mkInputValues {
  iv_values : Values;
  iv_input_owners : list Obj;
  iv_borrowed_input_owners : list Obj;
  iv_preseeded_scalars : gset PlanValue;
  iv_preseeded_convert_inputs : gset PlanValue
}.
(** [opt_v3_i64_convert_outputs_for_input]. *)
Definition i64_convert_outputs_for_input (region : RegionPlan) (input : PlanValue) : list PlanValue :=
  omap (fun node =>
    match pn_kind node with
    | PN_Convert convert =>
        match cn_kind convert with
        | FromPythonLongCompactToI64 =>
            if bool_decide (cn_input convert = input) && bool_decide (pv_rep (cn_output convert) = I64)
            then Some (cn_output convert) else None
        | _ => None
        end
    | _ => None
    end) (rg_nodes region).
Fixpoint preseed (values : Values) (outputs : list PlanValue) (value : Z) : Run Values :=
  match outputs with
  | [] => mret values
  | output :: outputs => values ← store_mechanical_value values output (MV_I64 value); preseed values outputs value
  end.
(** [LocalEnv::scalar_i64_value_for_name] and [LocalEnv::load_name] of a borrowed object. *)
Definition scalar_i64_value_for_name (name : string) : option Z :=
  match local_entry name with Some (LV_I64 value) => Some value | _ => None end.
(** [emit_checked_local_value_or_unbound]. *)
Definition checked_local_value_or_unbound (name : string) (value : option Obj) (abrupt_kind : bool) : Run Obj :=
  match value with
  | Some o => mret o
  | None =>
      if abrupt_kind then owned_call (py_long_from_i64 0)
      else fun m => let '(w, e) := raise_unbound_local_error name (m_world m) in Ok (mkMachine w (m_refs m), Raised e)
  end.
Definition load_name (name : string) : Run Obj :=
  match local_entry name with
  | Some (LV_I64 value) => owned_call (py_long_from_i64 value)
  | Some (LV_I32Bool01 value) => mret (py_bool value)
  | Some (LV_PyObject value) => mret value
  | Some (LV_Checked value abrupt_kind) => checked_local_value_or_unbound name value abrupt_kind
  | None => fails (CE_UnavailableLocal name)
  end.
Definition receiver_value (receiver : IndexedFieldReceiverSource) : Run Obj :=
  match receiver with FR_LocalName name => load_name name end.
(** [IndexedFieldLoweringPlan::for_access] and the types that can be bound; a late-bound plan must
    be the one for this field. *)
Definition typed_specializations (source : InstrId) (guards : list TypedIndexedFieldGuard) : result CodegenError FieldPlan :=
  match fold_left push_unique_specialization
          (List.filter (fun guard => is_some (relocated (tg_owner_type_ref guard))) guards) [] with
  | [] => Err (CE_FieldGuards source)
  | specializations =>
      Ok (FP_Specializations (omap (fun guard =>
        match relocated (tg_owner_type_ref guard) with
        | Some (Some owner_type) => Some (guard, owner_type)
        | _ => None
        end) specializations))
  end.
Definition indexed_field_plan (source : InstrId) (owner_type : IndexedFieldOwnerType) (attr_name : string) (expected_index : Z) :
    result CodegenError FieldPlan :=
  match field_guards source, late_bound_field source with
  | Some guards, _ => typed_specializations source guards
  | None, Some plan =>
      match lb_storage plan with
      | LS_SplitDict guarded_index =>
          if (lb_runtime_module plan =? runtime_module) && bool_decide (lb_owner_type plan = owner_type)
             && bool_decide (lb_attr_name plan = attr_name) && (guarded_index =? expected_index)
          then Ok (FP_LateBound (lb_cell_index plan) expected_index) else Err (CE_FieldGuards source)
      | LS_ObjectSlot => Err (CE_FieldGuards source)
      end
  | None, None => Err (CE_FieldGuards source)
  end.
(** The value of an input, or nothing when the integers it converts to were stored instead. *)
Inductive LoadedInput : Type := LI_Value (value : MechanicalValue) | LI_Cell (value : Obj) | LI_Preseeded (outputs : list PlanValue) (value : Z).
Definition load_input (region : RegionPlan) (has_local_fallback : bool) (input : MechanicalRegionInput) : Run LoadedInput :=
  let key := mi_value input in
  let probe (found : World -> option Obj) : Run LoadedInput :=
    if negb has_local_fallback then fails (CE_NeedsFallback key)
    else fun m => match found (m_world m) with
                  | Some o => Ok (m, Next (LI_Value (MV_PyObject o false)))
                  | None => Ok (m, Miss)
                  end in
  match mi_source input with
  | MI_CellValue _ name binding =>
      value ← owned_call (fun w => (w, load_cell name binding w));
      mret (if bool_decide (pv_rep key = PyObjectOwned) then LI_Value (MV_PyObject value true) else LI_Cell value)
  | MI_FunctionParam name =>
      match pv_rep key, scalar_i64_value_for_name name with
      | I64, Some value => mret (LI_Value (MV_I64 value))
      | PyObjectBorrowed, Some value =>
          match i64_convert_outputs_for_input region key with
          | [] => o ← owned_call (py_long_from_i64 value); mret (LI_Value (MV_PyObject o true))
          | outputs => mret (LI_Preseeded outputs value)
          end
      | PyObjectBorrowed, None => o ← load_name name; mret (LI_Value (MV_PyObject o false))
      | _, _ => fails (CE_UnavailableLocal name)
      end
  | MI_ModuleConstant index =>
      mret (LI_Value (MV_PyObject (module_constant index) (bool_decide (pv_rep key = PyObjectOwned))))
  | MI_IndexedGlobal _ _ name expected_index =>
      match pv_rep key with
      | PyObjectBorrowed => probe (probe_global name expected_index)
      | PyObjectOwned => o ← owned_call (load_global name expected_index); mret (LI_Value (MV_PyObject o true))
      | _ => fails (CE_StoredRep key)
      end
  | MI_IndexedField source receiver owner_type attr_name expected_index =>
      match pv_rep key with
      | PyObjectBorrowed =>
          if negb has_local_fallback then fails (CE_NeedsFallback key)
          else
            plan ← from_result (indexed_field_plan source owner_type attr_name expected_index);
            receiver ← receiver_value receiver;
            probe (probe_field plan receiver attr_name)
      | PyObjectOwned =>
          receiver ← receiver_value receiver;
          o ← owned_call (get_attr receiver attr_name); mret (LI_Value (MV_PyObject o true))
      | _ => fails (CE_StoredRep key)
      end
  end.
(** One input, with what it owns so far released when it leaves or raises. *)
Definition add_input (region : RegionPlan) (has_local_fallback : bool) (state : RegionInputValues) (input : MechanicalRegionInput) :
    Run RegionInputValues :=
  let '(mkInputValues values input_owners borrowed scalars converts) := state in
  loaded ← with_cleanup (rev input_owners) (load_input region has_local_fallback input);
  match loaded with
  | LI_Preseeded outputs value =>
      values ← preseed values outputs value;
      mret (mkInputValues values input_owners borrowed (list_to_set outputs ∪ scalars) ({[mi_value input]} ∪ converts))
  | LI_Cell value =>
      values ← store_mechanical_value values (mi_value input) (MV_PyObject value false);
      mret (mkInputValues values (input_owners ++ [value]) (borrowed ++ [value]) scalars converts)
  | LI_Value value =>
      values ← store_mechanical_value values (mi_value input) value;
      let owners := match value with MV_PyObject o true => input_owners ++ [o] | _ => input_owners end in
      mret (mkInputValues values owners borrowed scalars converts)
  end.
Fixpoint add_inputs (region : RegionPlan) (has_local_fallback : bool) (state : RegionInputValues)
    (inputs : list MechanicalRegionInput) : Run RegionInputValues :=
  match inputs with
  | [] => mret state
  | input :: inputs =>
      state ← add_input region has_local_fallback state input; add_inputs region has_local_fallback state inputs
  end.
Definition region_input_values (region : RegionPlan) (has_local_fallback : bool) : Run RegionInputValues :=
  inputs ← from_result match mechanical_region_inputs region with Ok inputs => Ok inputs | Err e => Err (CE_Emit e) end;
  add_inputs region has_local_fallback (mkInputValues ∅ [] [] ∅ ∅) inputs.

(** ** A region and its fallback *)

Definition run_region (plan : RegionPlan) (region : MechanicalRegionEmission) (has_local_fallback : bool)
    (skipped_outputs : gset PlanValue) : Run Values :=
  inputs ← region_input_values plan has_local_fallback;
  emit_region_steps has_local_fallback (iv_preseeded_scalars inputs) (iv_preseeded_convert_inputs inputs) skipped_outputs
    region (iv_values inputs) (iv_borrowed_input_owners inputs).
(** [emit_opt_v3_release_owned_values_except]: the objects still owned, but for the value of [keep].
    Each owned value is the result of a call of its own, so it has one key.  The order in which a
    hash map gives them is not fixed. *)
Definition release_owned_values_except (values : Values) (keep : option PlanValue) : Run unit :=
  release (omap (fun entry => match entry.2 with
    | MV_PyObject o true => if bool_decide (keep = Some entry.1) then None else Some o
    | _ => None
    end) (map_to_list values)).
Definition region_exit (region : MechanicalRegionEmission) : Run MechanicalExitKind :=
  match me_exits region with exit :: _ => mret (mx_kind exit) | [] => fails (CE_Exit (me_region region)) end.
Definition region_branch_condition (region : MechanicalRegionEmission) (values : Values) : Run bool :=
  exit ← region_exit region;
  match exit with ME_Branch condition _ _ => i32_bool01_value values condition | _ => fails (CE_Exit (me_region region)) end.
Definition region_return_value (region : MechanicalRegionEmission) : Run PlanValue :=
  exit ← region_exit region;
  match exit with ME_Return value => mret value | _ => fails (CE_Exit (me_region region)) end.
(** [opt_v3_region_return_pyobject]: the object, and whether the caller comes to own it. *)
Definition region_return_pyobject (region : MechanicalRegionEmission) (values : Values) : Run (PlanValue * (Obj * bool)) :=
  value ← region_return_value region;
  '(o, owned) ← pyobject_value values value;
  match pv_rep value, owned with
  | PyObjectOwned, true | PyObjectImmortal, _ => mret (value, (o, owned : bool))
  | _, _ => fails (CE_Ownership value)
  end.
(** The truth value the object for [value] is made of. *)
Definition materialized_bool_input (steps : list MechanicalStep) (value : PlanValue) : option PlanValue :=
  head (omap (fun step =>
    match ms_op step with
    | MS_Materialize MK_PythonBool input output =>
        if bool_decide (output = value) && bool_decide (pv_rep input = I32Bool01) then Some input else None
    | _ => None
    end) steps).
Definition region_return_materialized_i32_bool01 (region : MechanicalRegionEmission) (values : Values) : Run bool :=
  value ← region_return_value region;
  match materialized_bool_input (me_steps region) value with
  | Some input => i32_bool01_value values input
  | None => fails (CE_MissingValue value)
  end.

(** The code of the hot region; when it leaves, that of the fallback. *)
Definition hot_or_fallback {A} (hot fallback : Run A) : Run A := fun m =>
  match hot m with Ok (m, Miss) => fallback m | r => r end.
Definition emit_exact_int_branch_selection (s : ExactIntSelection) : Run bool :=
  let finish region values :=
    condition ← region_branch_condition region values; release_owned_values_except values None;; mret condition in
  hot_or_fallback
    (values ← run_region (sel_hot_plan s) (sel_hot_region s) true ∅; finish (sel_hot_region s) values)
    (values ← run_region (sel_fallback_plan s) (sel_fallback_region s) false ∅; finish (sel_fallback_region s) values).
(** The object with whether this path owns it.  The generator then counts the object as owned when
    one of the paths owns it; giving up an immortal one does nothing. *)
Definition emit_exact_int_return_selection (s : ExactIntSelection) : Run (Obj * bool) :=
  let finish region values :=
    '(key, result) ← region_return_pyobject region values; release_owned_values_except values (Some key);; mret result in
  hot_or_fallback
    (values ← run_region (sel_hot_plan s) (sel_hot_region s) true ∅; finish (sel_hot_region s) values)
    (values ← run_region (sel_fallback_plan s) (sel_fallback_region s) false ∅; finish (sel_fallback_region s) values).
(** The truth of a returned comparison, without the object for it. *)
Definition emit_exact_int_return_i32_bool01_selection (s : ExactIntSelection) : Run bool :=
  hot_or_fallback
    (skipped ← region_return_value (sel_hot_region s);
     values ← run_region (sel_hot_plan s) (sel_hot_region s) true {[skipped]};
     region_return_materialized_i32_bool01 (sel_hot_region s) values)
    (values ← run_region (sel_fallback_plan s) (sel_fallback_region s) false ∅;
     '(_, (o, owned)) ← region_return_pyobject (sel_fallback_region s) values;
     truthy_from_pyobject_value o owned).
End run.

Arguments Acquired {Obj} o.
Arguments Released {Obj} o.
Arguments mkMachine {World Obj} m_world m_refs.
Arguments m_world {World Obj} m.
Arguments m_refs {World Obj} m.
Arguments Next {Obj A} a.
Arguments Miss {Obj A}.
Arguments Raised {Obj A} e.
Arguments MV_PyObject {Obj} value owned.
Arguments MV_I64 {Obj} value.
Arguments MV_I32Bool01 {Obj} value.
Arguments LI_Value {Obj} value.
Arguments LI_Cell {Obj} value.
Arguments LI_Preseeded {Obj} outputs value.
#[global] Arguments compact_long : simpl never.
#[global] Arguments probe_global : simpl never.
#[global] Arguments load_global : simpl never.
#[global] Arguments probe_field : simpl never.
#[global] Arguments indexed_field_plan : simpl never.
#[global] Arguments load_name : simpl never.
#[global] Arguments scalar_i64_value_for_name : simpl never.
