(* ===== verification/RegionCode.v ===== *)
(** * The code of planned regions, step by step

    The steps the code generator makes of the two regions of every shape, written out.  The
    catalog, the reasons and the costs of a plan have no part in them. *)

From stdpp Require Import gmap.
From S2P Require Import Prelude Ids Cfg Names Instr Region RegionProps Specialize RegionMatch Plan Emit Alternatives PlanBuild PlanBuildProps RegionRun.

Local Open Scope Z_scope.

(** ** Steps whatever was loaded as machine integers *)

Definition preseeded (scalars : gset PlanValue) (step : MechanicalCodegenStep) : MechanicalCodegenStep :=
  match step with
  | MC_Convert _ _ output => if bool_decide (output ∈ scalars) then MC_PreseededConvert output else step
  | _ => step
  end.
Definition generates (has_local_fallback : bool) (step : MechanicalStep) (code : MechanicalCodegenStep) : Prop :=
  forall scalars converts, mechanical_codegen_step step has_local_fallback scalars converts = Ok (preseeded scalars code).
Definition convert_outputs (code : list MechanicalCodegenStep) (input : PlanValue) : list PlanValue :=
  omap (fun step => match step with
    | MC_Convert CC_FromPythonLongCompactToI64 i output => if bool_decide (i = input) then Some output else None
    | _ => None
    end) code.

(** ** The code of a shape *)

Notation obj k := (plan_value_new k PyObjectBorrowed).
Notation own k := (plan_value_new k PyObjectOwned).
Notation int k := (plan_value_new k I64).
Notation bit k := (plan_value_new k I32Bool01).
Notation imm k := (plan_value_new k PyObjectImmortal).
Notation unbox i o := (MC_Convert CC_FromPythonLongCompactToI64 i o).
Notation truth i o := (MC_Convert CC_TruthinessToI32Bool01 i o).

Definition compare_of (op : BinOpKind) : RichCompareOp :=
  match op with Ne => RC_Ne | Lt => RC_Lt | Le => RC_Le | Gt => RC_Gt | Ge => RC_Ge | _ => RC_Eq end.
Definition number_of (op : BinOpKind) : NumberOp :=
  match op with Sub => NB_Subtract | Mul => NB_Multiply | And => NB_And | Or => NB_Or | Xor => NB_Xor | _ => NB_Add end.
Definition machine_of (op : BinOpKind) : MechanicalCodegenOperation :=
  match op with
  | Sub => MO_CheckedI64 CK_Sub | Mul => MO_CheckedI64 CK_Mul
  | And => MO_I64Bit BT_And | Or => MO_I64Bit BT_Or | Xor => MO_I64Bit BT_Xor
  | _ => MO_CheckedI64 CK_Add
  end.

Definition hot_code (op : BinOpKind) (s : PlannedShape) : list MechanicalCodegenStep :=
  let guards := [MC_SpecializationGuard [obj 0]; MC_SpecializationGuard [obj 1]] in
  let ints := guards ++ [unbox (obj 0) (int 2); unbox (obj 1) (int 3)] in
  match s with
  | PS_AddGtZero _ =>
      ints ++ [MC_Operation (MO_CheckedI64 CK_Add) (int 2) (int 3) (int 4); MC_ConstantI64 (int 5) 0;
               MC_Operation (MO_I64CompareToBool01 RC_Gt) (int 4) (int 5) (bit 6)]
  | PS_CompareConstant s =>
      let '(lhs, rhs) := if cch_constant_on_left s then (int 2, int 1) else (int 1, int 2) in
      [MC_SpecializationGuard [obj 0]; unbox (obj 0) (int 1); MC_ConstantI64 (int 2) (cch_constant s);
       MC_Operation (MO_I64CompareToBool01 (compare_of op)) lhs rhs (bit 3)]
  | PS_IntCompareBranch _ => ints ++ [MC_Operation (MO_I64CompareToBool01 (compare_of op)) (int 2) (int 3) (bit 4)]
  | PS_IntCompareReturn _ =>
      ints ++ [MC_Operation (MO_I64CompareToBool01 (compare_of op)) (int 2) (int 3) (bit 4);
               MC_Materialize MK_PythonBool (bit 4) (imm 5)]
  | PS_StrCompareBranch _ => guards ++ [MC_Operation (MO_PyObjectRichCompareBool (compare_of op)) (obj 0) (obj 1) (bit 2)]
  | PS_StrCompareReturn _ =>
      guards ++ [MC_Operation (MO_PyObjectRichCompareBool (compare_of op)) (obj 0) (obj 1) (bit 2);
                 MC_Materialize MK_PythonBool (bit 2) (imm 3)]
  | PS_IntBinaryReturn _ =>
      ints ++ [MC_Operation (machine_of op) (int 2) (int 3) (int 4); MC_Materialize MK_PythonLong (int 4) (own 5)]
  end.
Definition fallback_code (op : BinOpKind) (s : PlannedShape) : list MechanicalCodegenStep :=
  let input k source := fallback_pyobject_input_value k source in
  match s with
  | PS_AddGtZero s =>
      [MC_Operation (MO_PyNumber NB_Add) (input 0 (ibs_left s)) (input 1 (ibs_right s)) (own 20); MC_ConstantI64 (int 21) 0;
       MC_Materialize MK_PythonLong (int 21) (own 22);
       MC_Operation (MO_PyObjectRichCompare RC_Gt) (own 20) (own 22) (own 23); truth (own 23) (bit 24)]
  | PS_CompareConstant s =>
      let value := input 0 (cch_value s) in
      let '(lhs, rhs) := if cch_constant_on_left s then (own 21, value) else (value, own 21) in
      [MC_ConstantI64 (int 20) (cch_constant s); MC_Materialize MK_PythonLong (int 20) (own 21);
       MC_Operation (MO_PyObjectRichCompare (compare_of op)) lhs rhs (own 22); truth (own 22) (bit 23)]
  | PS_IntCompareBranch s | PS_StrCompareBranch s =>
      [MC_Operation (MO_PyObjectRichCompare (compare_of op)) (input 0 (csh_left s)) (input 1 (csh_right s)) (own 20);
       truth (own 20) (bit 21)]
  | PS_IntCompareReturn s | PS_StrCompareReturn s =>
      [MC_Operation (MO_PyObjectRichCompare (compare_of op)) (input 0 (csh_left s)) (input 1 (csh_right s)) (own 20)]
  | PS_IntBinaryReturn s =>
      [MC_Operation (MO_PyNumber (number_of op)) (input 0 (irs_left s)) (input 1 (irs_right s)) (own 20)]
  end.
Definition hot_exit (s : PlannedShape) : MechanicalExitKind :=
  let branch v := ME_Branch v RT_OriginalCfg RT_OriginalCfg in
  match s with
  | PS_AddGtZero _ => branch (bit 6)
  | PS_CompareConstant _ => branch (bit 3)
  | PS_IntCompareBranch _ => branch (bit 4)
  | PS_StrCompareBranch _ => branch (bit 2)
  | PS_IntCompareReturn _ => ME_Return (imm 5)
  | PS_StrCompareReturn _ => ME_Return (imm 3)
  | PS_IntBinaryReturn _ => ME_Return (own 5)
  end.
Definition fallback_exit (s : PlannedShape) : MechanicalExitKind :=
  let branch v := ME_Branch v RT_OriginalCfg RT_OriginalCfg in
  match s with
  | PS_AddGtZero _ => branch (bit 24)
  | PS_CompareConstant _ => branch (bit 23)
  | PS_IntCompareBranch _ | PS_StrCompareBranch _ => branch (bit 21)
  | PS_IntCompareReturn _ | PS_StrCompareReturn _ | PS_IntBinaryReturn _ => ME_Return (own 20)
  end.

(** The truth value that an object is made of. *)
Definition materialized_bool (code : list MechanicalCodegenStep) (value : PlanValue) : option PlanValue :=
  head (omap (fun step => match step with
    | MC_Materialize MK_PythonBool input output => if bool_decide (output = value) then Some input else None
    | _ => None
    end) code).
(** A region with this code. *)
Record coded (has_local_fallback : bool) (inputs : list RegionInput) (code : list MechanicalCodegenStep)
    (exit : MechanicalExitKind) (plan : RegionPlan) : Prop := mkCoded {
  cd_inputs : rg_inputs plan = inputs;
  cd_steps : Forall2 (generates has_local_fallback) (me_steps (emit_region plan)) code;
  cd_exit : map mx_kind (me_exits (emit_region plan)) = [exit];
  cd_outputs key : key ∈ [obj 0; obj 1] -> i64_convert_outputs_for_input plan key = convert_outputs code key;
  cd_bool value : exit = ME_Return value -> materialized_bool_input (me_steps (emit_region plan)) value = materialized_bool code value
}.

Lemma generates_unbox node source i o target reason :
  generates true (mkStep node source (MS_Convert FromPythonLongCompactToI64 (obj i) (int o) (FM_FallbackToPlan (FT_Region target) reason)))
    (unbox (obj i) (int o)).
Proof. intros scalars converts. unfold mechanical_codegen_step. cbn [ms_op preseeded]. by destruct (bool_decide _). Qed.
Lemma generates_truth fallback node source i o spec :
  generates fallback (mkStep node source (MS_Convert TruthinessToI32Bool01 (own i) (bit o) (FM_Raise spec))) (truth (own i) (bit o)).
Proof. intros scalars converts. unfold mechanical_codegen_step. cbn [ms_op preseeded]. by destruct (bool_decide _). Qed.
Ltac check_step :=
  lazymatch goal with
  | |- generates _ _ (MC_Convert CC_FromPythonLongCompactToI64 _ _) => exact (generates_unbox _ _ _ _ _ _)
  | |- generates _ _ (MC_Convert _ _ _) => exact (generates_truth _ _ _ _ _ _)
  | _ => intros scalars converts; reflexivity
  end.
Ltac check_coded :=
  split;
    [reflexivity
    |cbn -[fallback_pyobject_input_value emit_region generates]; fallback_values; repeat (apply Forall2_cons; split; [check_step|]); apply Forall2_nil; exact I
    |reflexivity
    |intros key Hkey; repeat (apply elem_of_cons in Hkey as [->|Hkey]; [reflexivity|]); by apply not_elem_of_nil in Hkey
    |intros value Hvalue; first [injection Hvalue as <-; reflexivity|discriminate Hvalue]].
Lemma shape_coded catalog id s op :
  default_v3 = Some catalog -> shape_of_op op s ->
  exists hot fb, shape_regions catalog id s = Ok [hot; fb]
    /\ coded true (imap hot_input (shape_sources s)) (hot_code op s) (hot_exit s) hot
    /\ coded false (imap fallback_input (shape_sources s)) (fallback_code op s) (fallback_exit s) fb.
Proof.
  rewrite default_catalog_eq. intros [= <-] Hop.
  destruct s as [s|s|s|s|s|s|s]; destruct s; cbn in Hop; [|destruct op; try discriminate Hop; injection Hop as <-..].
  all: try match goal with b : bool |- _ => destruct b end.
  all: match goal with
  | |- exists hot fb, ?l = _ /\ _ =>
      let l' := eval lazy -[fallback_pyobject_input_value region_pyobject_input fallback_region_id hot_source] in l in
      change l with l'; generalize (fallback_region_id id); intros fallback
  end.
  all: eexists _, _; split; [reflexivity|].
  all: split.
  all: check_coded.
Qed.
