(* ===== verification/RegionRunProps.v ===== *)
(** * What generated code of region plans computes

    The code of the two regions of a shape, run: what it loads, computes on machine integers or
    on exact strings and asks the interpreter for is what the expression computes, and every
    reference it comes to own is released or given to the caller. *)

From stdpp Require Import gmap.
From S2P Require Import Prelude Ids Cfg Names Instr Region RegionProps Specialize RegionMatch RegionMatchProps Plan Emit Alternatives PlanBuild PlanBuildProps PlanAccepted RegionRun RegionCode.

Local Open Scope Z_scope.

(** ** Running code *)

Section run.
Context {World Obj : Type} `{!JitRuntime World Obj}.
Notation Machine := (Machine (World := World) (Obj := Obj)).
Notation Run := (Run (World := World) (Obj := Obj)).
Notation Flow := (Flow (Obj := Obj)).
Notation Values := (gmap PlanValue (MechanicalValue (Obj := Obj))).
Implicit Types m : Machine.

(** The code is generated, and what it does is in [Q]. *)
Definition wp {A} (r : Run A) (Q : Machine -> Flow A -> Prop) m : Prop :=
  match r m with Ok (m, flow) => Q m flow | Err _ => False end.

Lemma bind_eq {A B} (r r' : Run A) (k k' : A -> Run B) m :
  r m = r' m -> (forall a m, k a m = k' a m) -> mbind k r m = mbind k' r' m.
Proof. intros Hr Hk. unfold mbind, run_bind. rewrite Hr. destruct (r' m) as [[m' [a| |e]]|]; [apply Hk|done..]. Qed.
Lemma cleanup_eq {A} owners (r r' : Run A) m : r m = r' m -> with_cleanup owners r m = with_cleanup owners r' m.
Proof. unfold with_cleanup. by intros ->. Qed.

Section code.
Context (has_local_fallback : bool) (converts skipped : gset PlanValue).
Fixpoint run_code (values : Values) (code : list MechanicalCodegenStep) : Run Values :=
  match code with
  | [] => mret values
  | step :: code => values ← emit_codegen_step has_local_fallback converts skipped values step; run_code values code
  end.
Lemma emit_steps_code scalars steps code values m :
  Forall2 (generates has_local_fallback) steps code ->
  emit_steps has_local_fallback scalars converts skipped values steps m = run_code values (map (preseeded scalars) code) m.
Proof.
  intros H. revert values m. induction H as [|step c steps code Hs H IH]; intros values m; [done|]. cbn. unfold emit_step, mbind, run_bind. cbn.
  rewrite (Hs scalars converts). cbn. destruct (emit_codegen_step _ _ _ _ _ _) as [[m' [a| |e]]|]; [apply IH|done..].
Qed.
End code.

(** *** Inputs *)

Definition mechanical_source (source : PyObjectRegionInputSource) : MechanicalRegionInputSource :=
  match source with
  | IS_LocalName name => MI_FunctionParam name
  | IS_CellValue source name binding => MI_CellValue source name binding
  | IS_ModuleConstant index => MI_ModuleConstant index
  | IS_IndexedField source receiver owner_type attr_name expected_index =>
      MI_IndexedField source (FR_LocalName receiver) owner_type attr_name expected_index
  | IS_IndexedGlobal source module_name name expected_index => MI_IndexedGlobal source module_name name expected_index
  end.
(** A local that the code has as an object, bound or not; not an abrupt kind that was not set. *)
Definition object_local (name : string) : Prop :=
  match local_entry (World := World) (Obj := Obj) name with
  | Some (LV_I32Bool01 _ | LV_PyObject _ | LV_Checked (Some _) _ | LV_Checked None false) => True
  | _ => False
  end.
(** The locals of the source are ones that the code has, and its field has guards. *)
Definition available (source : PyObjectRegionInputSource) : Prop :=
  match source with
  | IS_LocalName name => is_Some (scalar_i64_value_for_name (World := World) (Obj := Obj) name) \/ object_local name
  | IS_IndexedField source receiver owner_type attr_name expected_index =>
      object_local receiver /\ is_ok (indexed_field_plan (World := World) (Obj := Obj) source owner_type attr_name expected_index) = true
  | _ => True
  end.
(** The load of such a local. *)
Definition local_load (name : string) (w : World) : World * result Obj Obj :=
  match local_entry (World := World) name with
  | Some (LV_I32Bool01 b) => (w, Ok (py_bool (World := World) b))
  | Some (LV_PyObject o | LV_Checked (Some o) _) => (w, Ok o)
  | _ => let '(w, e) := raise_unbound_local_error name w in (w, Err e)
  end.
Lemma load_name_object name m :
  object_local name ->
  load_name name m = match local_load name (m_world m) with
                     | (_, Ok o) => Ok (m, Next o)
                     | (w, Err e) => Ok (mkMachine w (m_refs m), Raised e)
                     end.
Proof.
  unfold object_local, load_name, local_load. destruct (local_entry name) as [[z|b|o|[o|] []]|]; try done. intros _. cbn.
  by destruct (raise_unbound_local_error name (m_world m)).
Qed.
Lemma local_load_world name w w' o : local_load name w = (w', Ok o) -> w' = w.
Proof.
  unfold local_load. destruct (local_entry name) as [[z|b|v|[v|] a]|]; try (by intros [= <- _]);
    by destruct (raise_unbound_local_error name w).
Qed.
Lemma object_not_scalar name : object_local name -> scalar_i64_value_for_name (World := World) (Obj := Obj) name = None.
Proof. unfold object_local, scalar_i64_value_for_name. by destruct (local_entry name) as [[]|]. Qed.

(** What is loaded of a source when there is a fallback to leave for. *)
Inductive HotLoad : Type :=
| HL_Object (o : Obj) | HL_Cell (o : Obj) | HL_Scalar (z : Z) | HL_Miss | HL_Raise (w : World) (e : Obj).
Definition from_probe (found : option Obj) : HotLoad := match found with Some o => HL_Object o | None => HL_Miss end.
Definition hot_load (source : PyObjectRegionInputSource) (w : World) : HotLoad :=
  match source with
  | IS_LocalName name =>
      match scalar_i64_value_for_name (World := World) (Obj := Obj) name with
      | Some z => HL_Scalar z
      | None => match local_load name w with (_, Ok o) => HL_Object o | (w, Err e) => HL_Raise w e end
      end
  | IS_CellValue _ name binding => match load_cell name binding w with Ok o => HL_Cell o | Err e => HL_Raise w e end
  | IS_ModuleConstant index => HL_Object (module_constant (World := World) index)
  | IS_IndexedField source receiver owner_type attr_name expected_index =>
      match indexed_field_plan (World := World) source owner_type attr_name expected_index, local_load receiver w with
      | Ok plan, (_, Ok o) => from_probe (probe_field plan o attr_name w)
      | Ok _, (w, Err e) => HL_Raise w e
      | Err _, _ => HL_Miss
      end
  | IS_IndexedGlobal _ _ name expected_index => from_probe (probe_global name expected_index w)
  end.
Definition loaded (found : HotLoad) (outputs : list PlanValue) : Run (LoadedInput (Obj := Obj)) := fun m =>
  match found with
  | HL_Object o => Ok (m, Next (LI_Value (MV_PyObject o false)))
  | HL_Cell o => Ok (mkMachine (m_world m) (m_refs m ++ [Acquired o]), Next (LI_Cell o))
  | HL_Scalar z => Ok (m, Next (LI_Preseeded outputs z))
  | HL_Miss => Ok (m, Miss)
  | HL_Raise w e => Ok (mkMachine w (m_refs m), Raised e)
  end.
(** A local that is a machine integer is asked for as one. *)
Definition scalar_wanted (source : PyObjectRegionInputSource) (outputs : list PlanValue) : Prop :=
  match source with
  | IS_LocalName name => outputs <> [] \/ scalar_i64_value_for_name (World := World) (Obj := Obj) name = None
  | _ => True
  end.
Lemma load_input_hot plan k source outputs m :
  available source -> scalar_wanted source outputs -> i64_convert_outputs_for_input plan (obj k) = outputs ->
  load_input plan true (mkMechanicalInput (obj k) (mechanical_source source)) m = loaded (hot_load source (m_world m)) outputs m.
Proof.
  intros Ha Hs Ho. destruct m as [w refs], source; cbn in *.
  - destruct (scalar_i64_value_for_name name) as [z|] eqn:E.
    + rewrite Ho. destruct outputs; [by destruct Hs|done].
    + destruct Ha as [[]|Ha]; [done|]. unfold mbind, run_bind. rewrite load_name_object by done. cbn.
      by destruct (local_load name w) as [w' [o|e]].
  - unfold mbind, run_bind, owned_call. cbn. by destruct (load_cell name binding w).
  - done.
  - destruct Ha as [Ha Hp]. destruct (indexed_field_plan _ _ _ _) as [plan'|]; [|done]. cbn. unfold mbind, run_bind. cbn.
    rewrite load_name_object by done. cbn. destruct (local_load receiver w) as [w' [o|e]]; [|done]. cbn.
    destruct (probe_field plan' o attr_name w); reflexivity.
  - by destruct (probe_global name expected_index w).
Qed.

(** The representation of an input of a fallback, and whether the code owns it. *)
Definition fallback_kind (source : PyObjectRegionInputSource) : Rep * bool :=
  match source with
  | IS_LocalName name => (PyObjectBorrowed, bool_decide (is_Some (scalar_i64_value_for_name (World := World) (Obj := Obj) name)))
  | IS_ModuleConstant _ => (PyObjectBorrowed, false)
  | IS_CellValue _ _ _ | IS_IndexedField _ _ _ _ _ | IS_IndexedGlobal _ _ _ _ => (PyObjectOwned, true)
  end.
Definition fallback_load (source : PyObjectRegionInputSource) (w : World) : World * result Obj Obj :=
  match source with
  | IS_LocalName name =>
      match scalar_i64_value_for_name (World := World) (Obj := Obj) name with
      | Some z => py_long_from_i64 z w
      | None => local_load name w
      end
  | IS_CellValue _ name binding => (w, load_cell name binding w)
  | IS_ModuleConstant index => (w, Ok (module_constant (World := World) index))
  | IS_IndexedField _ receiver _ attr_name _ =>
      match local_load receiver w with (w, Ok o) => get_attr o attr_name w | (w, Err e) => (w, Err e) end
  | IS_IndexedGlobal _ _ name expected_index => load_global name expected_index w
  end.
Definition fallback_result (source : PyObjectRegionInputSource) m : result CodegenError (Machine * Flow (LoadedInput (Obj := Obj))) :=
  let '(w, r) := fallback_load source (m_world m) in
  match r with
  | Ok o => Ok (mkMachine w (m_refs m ++ if (fallback_kind source).2 then [Acquired o] else []),
                Next (LI_Value (MV_PyObject o (fallback_kind source).2)))
  | Err e => Ok (mkMachine w (m_refs m), Raised e)
  end.
Lemma fallback_value k source : fallback_pyobject_input_value k source = plan_value_new k (fallback_kind source).1.
Proof. by destruct source. Qed.
Lemma fallback_kind_cases source :
  fallback_kind source = (PyObjectOwned, true) \/ fallback_kind source = (PyObjectBorrowed, true) \/ fallback_kind source = (PyObjectBorrowed, false).
Proof. destruct source; cbn; auto. case_bool_decide; auto. Qed.
Lemma load_input_fallback plan k source m :
  available source -> (forall name, source = IS_LocalName name -> i64_convert_outputs_for_input plan (obj k) = []) ->
  load_input plan false (mkMechanicalInput (fallback_pyobject_input_value k source) (mechanical_source source)) m = fallback_result source m.
Proof.
  intros Ha Ho. unfold fallback_result. destruct m as [w refs], source; cbn in *.
  - destruct (scalar_i64_value_for_name name) as [z|] eqn:E.
    + specialize (Ho _ eq_refl). unfold fallback_pyobject_input_value, plan_value_new in *. rewrite Ho, bool_decide_true by eauto. unfold mbind, run_bind, owned_call. cbn. by destruct (py_long_from_i64 z w) as [w' [o|e]].
    + destruct Ha as [[]|Ha]; [done|]. rewrite bool_decide_false by (by intros []). unfold mbind, run_bind.
      rewrite load_name_object by done. cbn. destruct (local_load name w) as [w' [o|e]] eqn:El; [|done].
      apply local_load_world in El as ->. by rewrite app_nil_r.
  - unfold mbind, run_bind, owned_call. cbn. by destruct (load_cell name binding w).
  - by rewrite app_nil_r.
  - destruct Ha as [Ha _]. unfold mbind, run_bind, owned_call. rewrite load_name_object by done. cbn.
    destruct (local_load receiver w) as [w' [o|e]] eqn:El; [|done]. apply local_load_world in El as ->.
    cbn. by destruct (get_attr o attr_name w) as [w' [v|e]].
  - unfold mbind, run_bind, owned_call. cbn. by destruct (load_global name expected_index w) as [w' [v|e]].
Qed.

Lemma map_result_imap {E A B C} (f : B -> result E C) (g : nat -> A -> B) (h : nat -> A -> C) (P : A -> Prop) l :
  Forall P l -> (forall k x, P x -> f (g k x) = Ok (h k x)) -> map_result f (imap g l) = Ok (imap h l).
Proof.
  intros Hl Hf. revert g h Hf. induction Hl as [|x l Hx Hl IH]; intros g h Hf; [done|]. cbn. rewrite (Hf _ _ Hx). cbn.
  by rewrite (IH (g ∘ S) (h ∘ S)) by (intros; by apply Hf).
Qed.
Lemma hot_mechanical_inputs plan sources :
  rg_inputs plan = imap hot_input sources -> Forall resolved_source sources ->
  mechanical_region_inputs plan = Ok (imap (fun k s => mkMechanicalInput (obj (Z.of_nat k)) (mechanical_source s)) sources).
Proof.
  intros Hi Hr. unfold mechanical_region_inputs. rewrite Hi. eapply map_result_imap; [exact Hr|].
  intros k s Hs. unfold mechanical_region_input, hot_input. destruct s; cbn in *; try done. by destruct Hs as [? ->].
Qed.
Lemma fallback_mechanical_inputs plan sources :
  rg_inputs plan = imap fallback_input sources -> Forall resolved_source sources ->
  mechanical_region_inputs plan
  = Ok (imap (fun k s => mkMechanicalInput (fallback_pyobject_input_value (Z.of_nat k) s) (mechanical_source s)) sources).
Proof.
  intros Hi Hr. unfold mechanical_region_inputs. rewrite Hi. eapply map_result_imap; [exact Hr|].
  intros k s Hs. unfold mechanical_region_input, fallback_input. destruct s; cbn in *; try done. by destruct Hs as [? ->].
Qed.

(** *** Regions with code *)

(** Inputs and what they are loaded with. *)
Notation Loads := (list (PlanValue * Run (LoadedInput (Obj := Obj)))).
Definition add_loaded (state : RegionInputValues) (key : PlanValue) (load : Run LoadedInput) : Run RegionInputValues :=
  let '(mkInputValues values input_owners borrowed scalars converts) := state in
  loaded ← with_cleanup (rev input_owners) load;
  match loaded with
  | LI_Preseeded outputs value =>
      values ← preseed values outputs value;
      mret (mkInputValues values input_owners borrowed (list_to_set outputs ∪ scalars) ({[key]} ∪ converts))
  | LI_Cell value =>
      values ← store_mechanical_value values key (MV_PyObject value false);
      mret (mkInputValues values (input_owners ++ [value]) (borrowed ++ [value]) scalars converts)
  | LI_Value value =>
      values ← store_mechanical_value values key value;
      let owners := match value with MV_PyObject o true => input_owners ++ [o] | _ => input_owners end in
      mret (mkInputValues values owners borrowed scalars converts)
  end.
Fixpoint load_all (state : RegionInputValues) (loads : Loads) : Run RegionInputValues :=
  match loads with
  | [] => mret state
  | (key, load) :: loads => state ← add_loaded state key load; load_all state loads
  end.
(** Loads that agree with the inputs where they are reached: [P] is kept by them. *)
Definition loads_inputs (plan : RegionPlan) (fallback : bool) (P : Machine -> Prop) (input : MechanicalRegionInput)
    (entry : PlanValue * Run LoadedInput) : Prop :=
  mi_value input = entry.1 /\ forall m, P m -> load_input plan fallback input m = entry.2 m
    /\ forall m' l, entry.2 m = Ok (m', Next l) -> P m'.
Lemma stored_same (values : Values) key value m m' values' :
  store_mechanical_value values key value m = Ok (m', Next values') -> m' = m.
Proof. unfold store_mechanical_value. destruct (negb _); [done|]. destruct (values !! key); [done|]. by intros [= <-]. Qed.
Lemma preseed_same outputs (values : Values) z m m' values' : preseed values outputs z m = Ok (m', Next values') -> m' = m.
Proof.
  revert values m. induction outputs as [|output outputs IH]; intros values m; cbn; [by intros [= <-]|]. unfold mbind, run_bind.
  destruct (store_mechanical_value values output (MV_I64 z) m) as [[m1 [v| |e]]|] eqn:E; try done. apply stored_same in E as ->. apply IH.
Qed.
Lemma add_loaded_next state key (load : Run LoadedInput) m m' state' :
  add_loaded state key load m = Ok (m', Next state') -> exists l, load m = Ok (m', Next l).
Proof.
  destruct state as [values owners borrowed scalars converts]. unfold add_loaded, mbind, run_bind, with_cleanup.
  destruct (load m) as [[m1 [l| |e]]|]; try done. intros H. exists l. f_equal. f_equal.
  destruct l as [value|value|outputs z].
  - destruct (store_mechanical_value values key value m1) as [[m2 [v| |e]]|] eqn:E; try done. apply stored_same in E as ->. by injection H as <-.
  - destruct (store_mechanical_value values key _ m1) as [[m2 [v| |e]]|] eqn:E; try done. apply stored_same in E as ->. by injection H as <-.
  - destruct (preseed values outputs z m1) as [[m2 [v| |e]]|] eqn:E; try done. apply preseed_same in E as ->. by injection H as <-.
Qed.
Lemma add_inputs_loads plan fallback P inputs loads state m :
  Forall2 (loads_inputs plan fallback P) inputs loads -> P m ->
  add_inputs plan fallback state inputs m = load_all state loads m.
Proof.
  intros H. revert state m. induction H as [|input [key load] inputs loads [Hk Hl] H IH]; intros state m Hm; [done|]. cbn in *. subst key.
  destruct (Hl m Hm) as [Hload Hnext].
  assert (add_input plan fallback state input m = add_loaded state (mi_value input) load m) as E.
  { destruct state. by apply bind_eq; [apply cleanup_eq|]. }
  unfold mbind, run_bind. rewrite E. destruct (add_loaded state (mi_value input) load m) as [[m' [s| |e]]|] eqn:Ea; try done.
  apply add_loaded_next in Ea as [l Hl']. apply IH. by eapply Hnext.
Qed.

Definition run_coded (fallback : bool) (loads : Loads) (code : list MechanicalCodegenStep) (skipped : gset PlanValue) : Run Values :=
  state ← load_all (mkInputValues ∅ [] [] ∅ ∅) loads;
  let owners := rev (iv_borrowed_input_owners state) in
  values ← with_cleanup owners
    (run_code fallback (iv_preseeded_convert_inputs state) skipped (iv_values state) (map (preseeded (iv_preseeded_scalars state)) code));
  release owners;;
  mret values.
Lemma run_region_coded plan fallback P inputs code exit loads skipped m mechanical :
  coded fallback inputs code exit plan -> mechanical_region_inputs plan = Ok mechanical ->
  Forall2 (loads_inputs plan fallback P) mechanical loads -> P m ->
  run_region plan (emit_region plan) fallback skipped m = run_coded fallback loads code skipped m.
Proof.
  intros C Hi Hl Hm. unfold run_region, run_coded, region_input_values, emit_region_steps. rewrite Hi.
  apply bind_eq; [by eapply add_inputs_loads|]. intros state m'.
  apply bind_eq; [|done]. apply cleanup_eq, emit_steps_code, C.
Qed.

Definition hot_loads (w : World) (code : list MechanicalCodegenStep) (sources : list PyObjectRegionInputSource) : Loads :=
  imap (fun k source => (obj (Z.of_nat k), loaded (hot_load source w) (convert_outputs code (obj (Z.of_nat k))))) sources.
Definition fallback_loads (sources : list PyObjectRegionInputSource) : Loads :=
  imap (fun k source => (fallback_pyobject_input_value (Z.of_nat k) source, fallback_result source)) sources.
(** What the code has of the sources of a shape. *)
Record sources_ready (sources : list PyObjectRegionInputSource) : Prop := mkReady {
  sr_resolved : Forall resolved_source sources;
  sr_available : Forall available sources;
  sr_two : (length sources <= 2)%nat
}.
Definition scalars_wanted (code : list MechanicalCodegenStep) (sources : list PyObjectRegionInputSource) : Prop :=
  forall k source, sources !! k = Some source -> scalar_wanted source (convert_outputs code (obj (Z.of_nat k))).
Lemma two_keys k : (k < 2)%nat -> obj (Z.of_nat k) ∈ [obj 0; obj 1].
Proof. destruct k as [|[|]]; [set_solver|set_solver|lia]. Qed.
Lemma hot_region_runs plan code exit sources skipped w refs :
  coded true (imap hot_input sources) code exit plan -> sources_ready sources -> scalars_wanted code sources ->
  run_region plan (emit_region plan) true skipped (mkMachine w refs) = run_coded true (hot_loads w code sources) code skipped (mkMachine w refs).
Proof.
  intros C [Hr Ha Ht] Hs. eapply (run_region_coded _ _ (fun m => m_world m = w)); [exact C|by apply hot_mechanical_inputs; [apply C|]| |done].
  apply Forall2_lookup. intros k. unfold hot_loads. rewrite !list_lookup_imap. destruct (sources !! k) as [s|] eqn:E; [|by constructor].
  constructor. split; [done|]. intros m <-. split.
  - apply load_input_hot; [by eapply Forall_lookup_1|by apply Hs|]. apply (cd_outputs _ _ _ _ _ C), two_keys. apply lookup_lt_Some in E. lia.
  - intros m' l. unfold loaded. cbn. by destruct (hot_load s (m_world m)); intros [= <- <-].
Qed.
Lemma fallback_region_runs plan code exit sources skipped m :
  coded false (imap fallback_input sources) code exit plan -> sources_ready sources ->
  (forall k, convert_outputs code (obj k) = []) ->
  run_region plan (emit_region plan) false skipped m = run_coded false (fallback_loads sources) code skipped m.
Proof.
  intros C [Hr Ha Ht] Hc. eapply (run_region_coded _ _ (fun _ => True)); [exact C|by apply fallback_mechanical_inputs; [apply C|]| |done].
  apply Forall2_lookup. intros k. unfold fallback_loads. rewrite !list_lookup_imap. destruct (sources !! k) as [s|] eqn:E; [|by constructor].
  constructor. split; [done|]. intros m' _. split; [|done].
  apply load_input_fallback; [by eapply Forall_lookup_1|]. intros name ->. rewrite (cd_outputs _ _ _ _ _ C); [apply Hc|].
  apply two_keys. apply lookup_lt_Some in E. lia.
Qed.
End run.

(** ** Rules

    A weakest-precondition calculus for the code: one rule per load, step and way out.  What is
    asked of a run covers falling back and raising too. *)

Section rules.
Context {World Obj : Type} `{!JitRuntime World Obj}.
Notation Machine := (Machine (World := World) (Obj := Obj)).
Notation Run := (Run (World := World) (Obj := Obj)).
Notation Flow := (Flow (Obj := Obj)).
Notation Values := (gmap PlanValue (MechanicalValue (Obj := Obj))).
Notation Loads := (list (PlanValue * Run (LoadedInput (Obj := Obj)))).
Implicit Types (m : Machine) (values : Values).

(** What is asked of the first of two parts. *)
Definition after {A B} (Q : Machine -> Flow B -> Prop) (next : A -> Machine -> Prop) : Machine -> Flow A -> Prop :=
  fun m flow => match flow with Next a => next a m | Miss => Q m Miss | Raised e => Q m (Raised e) end.
(** Owners that are released when the code leaves or raises. *)
Definition releasing {A} (owners : list Obj) (Q : Machine -> Flow A -> Prop) : Machine -> Flow A -> Prop :=
  fun m flow => match flow with Next _ => Q m flow | _ => Q (log (map Released owners) m) flow end.

Lemma wp_bind {A B} (r : Run A) (k : A -> Run B) Q m : wp r (after Q (fun a => wp (k a) Q)) m -> wp (mbind k r) Q m.
Proof. unfold wp, mbind, run_bind, after. destruct (r m) as [[m' [a| |e]]|]; auto. Qed.
Lemma wp_cleanup {A} owners (r : Run A) Q m : wp r (releasing owners Q) m -> wp (with_cleanup owners r) Q m.
Proof. unfold wp, with_cleanup, releasing. destruct (r m) as [[m' [a| |e]]|]; auto. Qed.
Lemma wp_fallback {A} (hot fallback : Run A) Q m :
  wp hot (fun m flow => match flow with Miss => wp fallback Q m | _ => Q m flow end) m -> wp (hot_or_fallback hot fallback) Q m.
Proof. unfold wp, hot_or_fallback. destruct (hot m) as [[m' [a| |e]]|]; auto. Qed.
Lemma wp_mono {A} (r : Run A) (Q Q' : Machine -> Flow A -> Prop) m : (forall m flow, Q m flow -> Q' m flow) -> wp r Q m -> wp r Q' m.
Proof. unfold wp. intros H. destruct (r m) as [[m' flow]|]; auto. Qed.

(** *** Steps *)

Section steps.
Context (fallback : bool) (converts skipped : gset PlanValue) (Q : Machine -> Flow Values -> Prop).
Notation runs values code m := (wp (run_code fallback converts skipped values code) Q m).

Lemma wp_store values key value (k : Values -> Run Values) m :
  matches_rep value (pv_rep key) = true -> values !! key = None -> wp (k (<[key := value]> values)) Q m ->
  wp (values ← store_mechanical_value values key value; k values) Q m.
Proof. intros Hr Hn H. apply wp_bind. unfold store_mechanical_value. by rewrite Hr, Hn. Qed.
Lemma wp_done values m : Q m (Next values) -> runs values [] m.
Proof. done. Qed.
Lemma wp_guard values inputs code m : runs values code m -> runs values (MC_SpecializationGuard inputs :: code) m.
Proof. intros H. cbn. by apply wp_bind. Qed.
Lemma wp_constant values output z code m :
  pv_rep output = I64 -> values !! output = None -> runs (<[output := MV_I64 z]> values) code m ->
  runs values (MC_ConstantI64 output z :: code) m.
Proof. intros Hr Hn H. cbn. apply wp_store; [by rewrite Hr|done|done]. Qed.
Lemma wp_preseeded values output v code m :
  values !! output = Some v -> runs values code m -> runs values (MC_PreseededConvert output :: code) m.
Proof. intros Hv H. cbn. apply wp_bind. by rewrite Hv. Qed.
Lemma wp_unbox values input output o code m :
  fallback = true -> values !! input = Some (MV_PyObject o false) -> pv_rep output = I64 -> values !! output = None ->
  match compact_long (World := World) o with Some z => runs (<[output := MV_I64 z]> values) code m | None => Q m Miss end ->
  runs values (unbox input output :: code) m.
Proof.
  intros Hf Hi Hr Hn H. cbn. rewrite Hf in *. cbn. unfold pyobject_value. rewrite Hi. unfold mbind at 2, run_bind. cbn.
  destruct (compact_long o) as [z|]; [|by apply wp_bind]. apply wp_store; [by rewrite Hr|done|done].
Qed.
Lemma wp_truth values input output o code w refs :
  values !! input = Some (MV_PyObject o true) -> pv_rep output = I32Bool01 -> values !! output = None -> input <> output ->
  match py_is_true o w with
  | (w', Ok b) => runs (<[output := MV_I32Bool01 b]> (delete input values)) code (mkMachine w' (refs ++ [Released o]))
  | (w', Err e) => Q (mkMachine w' (refs ++ [Released o])) (Raised e)
  end ->
  runs values (truth input output :: code) (mkMachine w refs).
Proof.
  intros Hi Hr Hn Hne H. cbn. unfold take_pyobject_value, pyobject_value. rewrite Hi. apply wp_bind. unfold wp, mbind, run_bind, truthy_from_pyobject_value. cbn.
  destruct (py_is_true o w) as [w' [b|e]]; [|done]. cbn. unfold store_mechanical_value. rewrite Hr, lookup_delete_ne, Hn by done. exact H.
Qed.
Lemma wp_checked values op lhs rhs output x y code m :
  fallback = true -> values !! lhs = Some (MV_I64 x) -> values !! rhs = Some (MV_I64 y) -> pv_rep output = I64 -> values !! output = None ->
  match checked_i64 op x y with Some z => runs (<[output := MV_I64 z]> values) code m | None => Q m Miss end ->
  runs values (MC_Operation (MO_CheckedI64 op) lhs rhs output :: code) m.
Proof.
  intros Hf Hl Hrh Hr Hn H. cbn. rewrite Hf in *. cbn. unfold i64_value. rewrite Hl, Hrh. unfold mbind at 2 3, run_bind. cbn.
  destruct (checked_i64 op x y) as [z|]; [|by apply wp_bind]. apply wp_store; [by rewrite Hr|done|done].
Qed.
Lemma wp_bit values op lhs rhs output x y code m :
  values !! lhs = Some (MV_I64 x) -> values !! rhs = Some (MV_I64 y) -> pv_rep output = I64 -> values !! output = None ->
  runs (<[output := MV_I64 (i64_bit op x y)]> values) code m -> runs values (MC_Operation (MO_I64Bit op) lhs rhs output :: code) m.
Proof.
  intros Hl Hrh Hr Hn H. cbn. unfold i64_value. rewrite Hl, Hrh. unfold mbind at 2 3, run_bind. cbn. apply wp_store; [by rewrite Hr|done|done].
Qed.
Lemma wp_icmp values op lhs rhs output x y code m :
  values !! lhs = Some (MV_I64 x) -> values !! rhs = Some (MV_I64 y) -> pv_rep output = I32Bool01 -> values !! output = None ->
  runs (<[output := MV_I32Bool01 (icmp op x y)]> values) code m ->
  runs values (MC_Operation (MO_I64CompareToBool01 op) lhs rhs output :: code) m.
Proof.
  intros Hl Hrh Hr Hn H. cbn. unfold i64_value. rewrite Hl, Hrh. unfold mbind at 2 3, run_bind. cbn. apply wp_store; [by rewrite Hr|done|done].
Qed.
Lemma wp_unicode values op lhs rhs output a b code m :
  fallback = true -> values !! lhs = Some (MV_PyObject a false) -> values !! rhs = Some (MV_PyObject b false) ->
  pv_rep output = I32Bool01 -> values !! output = None ->
  match exact_unicode (World := World) a, exact_unicode (World := World) b with
  | Some u, Some v =>
      runs (<[output := MV_I32Bool01 (exact_unicode_compare_bool (unicode_compare (World := World) (Obj := Obj)) (same_object (World := World) a b) op u v)]> values) code m
  | _, _ => Q m Miss
  end ->
  runs values (MC_Operation (MO_PyObjectRichCompareBool op) lhs rhs output :: code) m.
Proof.
  intros Hf Hl Hrh Hr Hn H. cbn. rewrite Hf in *. cbn. unfold pyobject_value. rewrite Hl, Hrh. unfold mbind at 2 3, run_bind. cbn.
  destruct (exact_unicode a) as [u|]; [|by apply wp_bind]. destruct (exact_unicode b) as [v|]; [|by apply wp_bind].
  apply wp_store; [by rewrite Hr|done|done].
Qed.
(** The arguments of a call that the code owns are given up. *)
Definition without (key : PlanValue) (owned : bool) values : Values := if owned then delete key values else values.
Lemma wp_python values (f : Obj -> Obj -> World -> World * result Obj Obj) op lhs rhs output a a_owned b b_owned code w refs :
  (forall values, emit_operation op lhs rhs output values fallback =
     ('(values, lhs) ← take_pyobject_value values lhs;
      '(values, rhs) ← take_pyobject_value values rhs;
      result ← call_with_cleanup (f lhs.1 rhs.1) [lhs; rhs];
      store_mechanical_value values output (MV_PyObject result true))) ->
  values !! lhs = Some (MV_PyObject a a_owned) -> values !! rhs = Some (MV_PyObject b b_owned) -> lhs <> rhs ->
  pv_rep output = PyObjectOwned -> values !! output = None ->
  let refs' := map Released (owned_operands [(a, a_owned); (b, b_owned)]) in
  match f a b w with
  | (w', Ok o) => runs (<[output := MV_PyObject o true]> (without rhs b_owned (without lhs a_owned values))) code (mkMachine w' (refs ++ [Acquired o] ++ refs'))
  | (w', Err e) => Q (mkMachine w' (refs ++ refs')) (Raised e)
  end ->
  runs values (MC_Operation op lhs rhs output :: code) (mkMachine w refs).
Proof.
  intros Hop Hl Hrh Hne Hr Hn refs' H. cbn. rewrite Hop. apply wp_bind. unfold wp, mbind, run_bind, take_pyobject_value, pyobject_value, mbind, run_bind. rewrite Hl. cbn.
  assert ((without lhs a_owned values) !! rhs = Some (MV_PyObject b b_owned)) as E by (destruct a_owned; cbn; by rewrite ?lookup_delete_ne).
  unfold without in E. rewrite E. cbn. unfold call_with_cleanup. cbn. destruct (f a b w) as [w' [o|e]]; [|done]. cbn. unfold store_mechanical_value.
  assert ((without rhs b_owned (without lhs a_owned values)) !! output = None) as En.
  { destruct a_owned, b_owned; cbn; rewrite ?lookup_delete_None; auto. }
  unfold without in En. rewrite Hr, En. exact H.
Qed.
Lemma wp_materialize_long values input output z code w refs :
  output ∉ skipped -> values !! input = Some (MV_I64 z) -> pv_rep output = PyObjectOwned -> values !! output = None ->
  match py_long_from_i64 z w with
  | (w', Ok o) => runs (<[output := MV_PyObject o true]> values) code (mkMachine w' (refs ++ [Acquired o]))
  | (w', Err e) => Q (mkMachine w' refs) (Raised e)
  end ->
  runs values (MC_Materialize MK_PythonLong input output :: code) (mkMachine w refs).
Proof.
  intros Hs Hi Hr Hn H. cbn. rewrite bool_decide_false by done. apply wp_bind. unfold wp, emit_materialize, mbind, run_bind, i64_value. rewrite Hi. cbn.
  unfold owned_call. cbn. destruct (py_long_from_i64 z w) as [w' [o|e]]; [|done]. unfold store_mechanical_value. rewrite Hr, Hn. exact H.
Qed.
Lemma wp_materialize_bool values input output b code m :
  output ∉ skipped -> values !! input = Some (MV_I32Bool01 b) -> pv_rep output = PyObjectImmortal -> values !! output = None ->
  runs (<[output := MV_PyObject (py_bool (World := World) b) false]> values) code m ->
  runs values (MC_Materialize MK_PythonBool input output :: code) m.
Proof.
  intros Hs Hi Hr Hn H. cbn. rewrite bool_decide_false by done. unfold i32_bool01_value. rewrite Hi. unfold mbind at 2, run_bind. cbn.
  apply wp_store; [by rewrite Hr|done|done].
Qed.
Lemma wp_skipped values kind input output code m :
  output ∈ skipped -> runs values code m -> runs values (MC_Materialize kind input output :: code) m.
Proof. intros Hs H. cbn. rewrite bool_decide_true by done. by apply wp_bind. Qed.
End steps.

(** *** Loads *)

Section loads.
Context (Q : Machine -> Flow (RegionInputValues (Obj := Obj)) -> Prop).
Context (values : Values) (owners borrowed : list Obj) (scalars converts : gset PlanValue).
Notation state := (mkInputValues values owners borrowed scalars converts).

Lemma wp_load_hot key found outputs loads w refs :
  pv_rep key = PyObjectBorrowed -> values !! key = None ->
  match found with
  | HL_Object o =>
      wp (load_all (mkInputValues (<[key := MV_PyObject o false]> values) owners borrowed scalars converts) loads) Q (mkMachine w refs)
  | HL_Cell o =>
      wp (load_all (mkInputValues (<[key := MV_PyObject o false]> values) (owners ++ [o]) (borrowed ++ [o]) scalars converts) loads) Q
        (mkMachine w (refs ++ [Acquired o]))
  | HL_Scalar z => exists output, outputs = [output] /\ pv_rep output = I64 /\ values !! output = None
      /\ wp (load_all (mkInputValues (<[output := MV_I64 z]> values) owners borrowed ({[output]} ∪ scalars) ({[key]} ∪ converts)) loads) Q
           (mkMachine w refs)
  | HL_Miss => Q (mkMachine w (refs ++ map Released (rev owners))) Miss
  | HL_Raise w' e => Q (mkMachine w' (refs ++ map Released (rev owners))) (Raised e)
  end ->
  wp (load_all state ((key, loaded found outputs) :: loads)) Q (mkMachine w refs).
Proof.
  intros Hr Hn H. cbn. apply wp_bind. unfold wp, add_loaded, mbind, run_bind, with_cleanup, loaded.
  destruct found as [o|o|z| |w' e]; [| | |exact H..]; cbn; unfold store_mechanical_value; cbn.
  1, 2: rewrite Hr, Hn; exact H.
  destruct H as (output & -> & Ho & Hno & H). cbn. unfold mbind, run_bind, store_mechanical_value. rewrite Ho, Hno. cbn.
  unfold after. by rewrite (right_id_L ∅ (∪)).
Qed.
Lemma wp_load_fallback k source rep owned loads w refs :
  fallback_kind (World := World) (Obj := Obj) source = (rep, owned) -> rep = PyObjectOwned /\ owned = true \/ rep = PyObjectBorrowed ->
  let key := plan_value_new k rep in values !! key = None ->
  match fallback_load source w with
  | (w', Ok o) =>
      wp (load_all (mkInputValues (<[key := MV_PyObject o owned]> values) (if owned then owners ++ [o] else owners) borrowed scalars converts) loads) Q
        (mkMachine w' (refs ++ if owned then [Acquired o] else []))
  | (w', Err e) => Q (mkMachine w' (refs ++ map Released (rev owners))) (Raised e)
  end ->
  wp (load_all state ((fallback_pyobject_input_value k source, fallback_result source) :: loads)) Q (mkMachine w refs).
Proof.
  intros Hk Hr key Hn H. rewrite fallback_value, Hk. cbn [fst]. fold key. cbn. apply wp_bind. unfold wp, add_loaded, mbind, run_bind, with_cleanup, fallback_result.
  rewrite Hk. cbn. destruct (fallback_load source w) as [w' [o|e]]; [|exact H]. cbn. unfold store_mechanical_value.
  assert (matches_rep (MV_PyObject o owned) (pv_rep key) = true) as ->.
  { subst key. destruct Hr as [[-> ->]| ->]; [done|by destruct owned]. }
  rewrite Hn. by destruct owned.
Qed.
End loads.
Lemma wp_loaded state (Q : Machine -> Flow RegionInputValues -> Prop) m : Q m (Next state) -> wp (load_all state []) Q m.
Proof. done. Qed.

(** *** Regions *)

Lemma wp_coded fallback loads code skipped (Q : Machine -> Flow Values -> Prop) m :
  wp (load_all (mkInputValues ∅ [] [] ∅ ∅) loads)
    (after Q (fun state =>
       wp (run_code fallback (iv_preseeded_convert_inputs state) skipped (iv_values state) (map (preseeded (iv_preseeded_scalars state)) code))
         (fun m => Q (log (map Released (rev (iv_borrowed_input_owners state))) m)))) m ->
  wp (run_coded fallback loads code skipped) Q m.
Proof.
  intros H. unfold run_coded. apply wp_bind. eapply wp_mono; [|exact H]. intros m1 [state| |e]; [|done..]. cbn. intros H1.
  apply wp_bind, wp_cleanup. eapply wp_mono; [|exact H1]. intros m2 [values| |e]; done.
Qed.
(** Nothing is owned when the code is left, but for the value of [keep]. *)
Definition owns_only values (keep : option PlanValue) : Prop :=
  forall key o, values !! key = Some (MV_PyObject o true) -> keep = Some key.
Lemma wp_release_rest values keep (Q : Machine -> Flow unit -> Prop) w refs :
  owns_only values keep -> Q (mkMachine w refs) (Next tt) -> wp (release_owned_values_except values keep) Q (mkMachine w refs).
Proof.
  intros Ho H. unfold release_owned_values_except. set (l := omap _ _).
  assert (l = []) as ->.
  { apply nil_length_inv, Nat.le_0_r. destruct l as [|o l'] eqn:E; [done|]. exfalso. assert (o ∈ l) as Hin by (rewrite E; left).
    subst l. apply list_elem_of_omap in Hin as ([key v] & Hin & Hv). apply elem_of_map_to_list in Hin. destruct v as [v []| |]; try done. cbn in Hv.
    by rewrite bool_decide_true in Hv by (by eapply Ho). }
  unfold wp, release, log. cbn. by rewrite app_nil_r.
Qed.
End rules.

Ltac owns_only :=
  let H := fresh in intros ? ? H; unfold without in H; cbv iota in H;
  repeat (first [apply lookup_insert_Some in H as [[<- H]|[? H]]; [first [reflexivity|discriminate H|congruence]|]
                |apply lookup_delete_Some in H as [? H]]);
  first [by rewrite lookup_empty in H|match goal with Ho : owns_only _ _ |- _ => apply Ho in H; congruence end].
