(* ===== verification/RegionLaws.v ===== *)
(** * What the runtime promises to generated code

    The interface between the generated code of regions and the interpreter: the functions the
    code calls perform the operations of the language, and integers and strings behave as the
    language documents.  Then: comparison of machine integers and of strings, and the operands
    of an expression as the code loads them. *)

From stdpp Require Import gmap.
From S2P Require Import Prelude Ids Cfg Names Instr Region RegionProps Specialize RegionMatch RegionMatchProps Plan Emit Alternatives PlanBuild PlanBuildProps PlanAccepted RegionRun RegionCode RegionRunProps.

Local Open Scope Z_scope.

(** ** Orders *)

(** Strings are compared by their code points. *)
Fixpoint chars_compare (a b : list Z) : comparison :=
  match a, b with
  | [], [] => Datatypes.Eq
  | [], _ :: _ => Datatypes.Lt
  | _ :: _, [] => Datatypes.Gt
  | x :: a, y :: b => match x ?= y with Datatypes.Eq => chars_compare a b | c => c end
  end.
Definition ordered (op : RichCompareOp) (c : comparison) : bool :=
  match op, c with
  | RC_Eq, Datatypes.Eq | RC_Ne, (Datatypes.Lt | Datatypes.Gt) | RC_Lt, Datatypes.Lt | RC_Le, (Datatypes.Lt | Datatypes.Eq)
  | RC_Gt, Datatypes.Gt | RC_Ge, (Datatypes.Gt | Datatypes.Eq) => true
  | _, _ => false
  end.
Definition compare_kind (op : RichCompareOp) : BinOpKind :=
  match op with RC_Eq => Eq | RC_Ne => Ne | RC_Lt => Lt | RC_Le => Le | RC_Gt => Gt | RC_Ge => Ge end.
Definition number_kind (op : NumberOp) : BinOpKind :=
  match op with NB_Add => Add | NB_Subtract => Sub | NB_Multiply => Mul | NB_And => And | NB_Or => Or | NB_Xor => Xor end.
Definition number_value (op : NumberOp) (x y : Z) : Z :=
  match op with
  | NB_Add => x + y | NB_Subtract => x - y | NB_Multiply => x * y
  | NB_And => Z.land x y | NB_Or => Z.lor x y | NB_Xor => Z.lxor x y
  end.

Lemma icmp_ordered op x y : icmp op x y = ordered op (x ?= y).
Proof.
  destruct op; cbn [icmp]; destruct (Z.compare_spec x y) as [->|H|H]; cbn [ordered];
    rewrite ?Z.eqb_refl, ?Z.ltb_irrefl, ?Z.leb_refl; try done;
    first [rewrite (proj2 (Z.eqb_neq x y)) by lia|rewrite (proj2 (Z.ltb_lt _ _)) by lia|rewrite (proj2 (Z.ltb_ge _ _)) by lia
          |rewrite (proj2 (Z.leb_le _ _)) by lia|rewrite (proj2 (Z.leb_gt _ _)) by lia]; done.
Qed.
Lemma compare_refl_chars a : chars_compare a a = Datatypes.Eq.
Proof. induction a as [|x a IH]; [done|]. cbn. by rewrite Z.compare_refl. Qed.
Lemma memcmp_compare a b :
  chars_compare a b = match memcmp a b (Nat.min (length a) (length b)) ?= 0 with
                      | Datatypes.Eq => (length a ?= length b)%nat
                      | c => c
                      end.
Proof.
  revert b. induction a as [|x a IH]; intros [|y b]; [done..|]. cbn.
  destruct (Z.eqb_spec x y) as [->|Hne]; [rewrite Z.compare_refl; apply IH|].
  destruct (Z.ltb_spec x y); [rewrite (proj2 (Z.compare_lt_iff x y)) by done|rewrite (proj2 (Z.compare_gt_iff x y)) by lia]; done.
Qed.
Lemma compact_ascii_compare lhs rhs :
  (soac_runtime_compare_compact_ascii_unicode lhs rhs ?= 0) = chars_compare (un_chars lhs) (un_chars rhs).
Proof.
  rewrite memcmp_compare. unfold soac_runtime_compare_compact_ascii_unicode. set (n := length (un_chars lhs)). set (k := length (un_chars rhs)).
  assert ((if (n <? k)%nat then n else k) = Nat.min n k) as -> by (destruct (Nat.ltb_spec n k); lia).
  assert ((if negb (Nat.min n k =? 0)%nat then memcmp (un_chars lhs) (un_chars rhs) (Nat.min n k) else 0)
    = memcmp (un_chars lhs) (un_chars rhs) (Nat.min n k)) as ->.
  { destruct (Nat.eqb_spec (Nat.min n k) 0) as [->|]; [|done]. cbn. by destruct (un_chars lhs). }
  destruct (Z.eqb_spec (memcmp (un_chars lhs) (un_chars rhs) (Nat.min n k)) 0) as [->|Hne]; cbn [negb].
  - rewrite Z.compare_refl. destruct (Nat.eqb_spec n k) as [->|]; [by rewrite Nat.compare_refl|].
    destruct (Nat.ltb_spec n k); [rewrite (proj2 (Nat.compare_lt_iff n k)) by done|rewrite (proj2 (Nat.compare_gt_iff n k)) by lia]; done.
  - destruct (Z.compare_spec (memcmp (un_chars lhs) (un_chars rhs) (Nat.min n k)) 0); done.
Qed.
Definition ascii (u : UnicodeObject) : Prop := Forall (fun c => 0 <= c < 128) (un_chars u).
Lemma unicode_compare_ordered compare same op lhs rhs :
  (forall u v, (compare u v ?= 0) = chars_compare (un_chars u) (un_chars v)) ->
  (same = true -> lhs = rhs) -> (un_compact_ascii lhs = true -> ascii lhs) -> (un_compact_ascii rhs = true -> ascii rhs) ->
  exact_unicode_compare_bool compare same op lhs rhs = ordered op (chars_compare (un_chars lhs) (un_chars rhs)).
Proof.
  intros Hc Hs Hl Hr. unfold exact_unicode_compare_bool. destruct same.
  { rewrite (Hs eq_refl), compare_refl_chars. by rewrite icmp_ordered. }
  destruct (un_compact_ascii lhs) eqn:El; [destruct (un_compact_ascii rhs) eqn:Er|]; cbn [andb]; [|by rewrite icmp_ordered, Hc..].
  specialize (Hl eq_refl). specialize (Hr eq_refl). unfold ascii in *. pose proof (compact_ascii_compare lhs rhs) as Hca.
  destruct (un_chars lhs) as [|x [|]]; [by rewrite icmp_ordered, Hca| |by rewrite icmp_ordered, Hca].
  destruct (un_chars rhs) as [|y [|]]; [by rewrite icmp_ordered, Hca| |by rewrite icmp_ordered, Hca].
  apply Forall_cons in Hl as [Hx _], Hr as [Hy _]. rewrite icmp_ordered. unfold signed8.
  rewrite !(proj2 (Z.ltb_lt _ _)) by lia. cbn. by destruct (x ?= y).
Qed.
Lemma checked_value op x y z :
  checked_i64 op x y = Some z ->
  z = number_value (match op with CK_Add => NB_Add | CK_Sub => NB_Subtract | CK_Mul => NB_Multiply end) x y.
Proof. unfold checked_i64. destruct op; case_match; intros [= <-]; done. Qed.

(** ** What the guards find *)

Section layout.
Context {World Obj : Type} `{!JitRuntime World Obj}.

(** An unaliased indexed dict has the key in its prefix at the index, with the object as value. *)
Record indexed_entry (dict : RawPyDict Obj) (key : Obj) (index : Z) (o : Obj) : Prop := mkIndexedEntry {
  ie_keys : exists keys, ma_keys dict = Some keys /\ (dk_kind keys = 3 \/ dk_kind keys = 4);
  ie_unaliased : Z.testbit (ma_watcher_tag dict) 13 = false;
  ie_entry : exists values prefix actual, ma_values dict = Some values /\ ix_prefix_keys values = Some prefix
    /\ 0 <= index < ix_capacity values /\ index < dk_nentries prefix /\ dk_entry prefix index = Some actual
    /\ (same_object (World := World) actual key = true \/ key_equal (World := World) actual key = true)
    /\ ix_value values index = SV_Object o
}.
Lemma probe_indexed_entry dict key index o :
  probe_indexed_dict_value (World := World) dict key index = Some o -> indexed_entry dict key index o.
Proof.
  unfold probe_indexed_dict_value, dict_guarded_index, indexed_name_matches. intros H.
  destruct (ma_keys dict) as [keys|] eqn:Ek; [|done]. destruct (ma_values dict) as [values|] eqn:Ev; [|done].
  destruct (((dk_kind keys =? 3) || (dk_kind keys =? 4)) && (Z.land (ma_watcher_tag dict) DICT_LOOKUP_ALIASES =? 0)
    && (0 <=? index) && (index <? ix_capacity values)) eqn:Eg; [|done].
  destruct (ix_prefix_keys values) as [prefix|] eqn:Ep; [|done]. destruct (index <? dk_nentries prefix) eqn:En; [|done].
  destruct (dk_entry prefix index) as [actual|] eqn:Ea; [|done].
  destruct (same_object actual key || _) eqn:Em; [|done]. destruct (ix_value values index) as [| |v] eqn:Ex; try done. injection H as ->.
  rewrite !andb_true_iff, orb_true_iff, !Z.eqb_eq, Z.leb_le, Z.ltb_lt in Eg. destruct Eg as [[[Hk Hw] H0] Hc]. apply Z.ltb_lt in En.
  split; [by exists keys| |].
  - assert (Z.testbit (Z.land (ma_watcher_tag dict) DICT_LOOKUP_ALIASES) 13 = false) as Ht by (by rewrite Hw, Z.testbit_0_l).
    rewrite Z.land_spec in Ht. replace (Z.testbit DICT_LOOKUP_ALIASES 13) with true in Ht by reflexivity. by rewrite andb_true_r in Ht.
  - exists values, prefix, actual. split_and!; try done. apply orb_true_iff in Em as [Em|Em]; [by left|].
    apply andb_true_iff in Em as [_ Em]. by apply orb_true_iff in Em.
Qed.

(** The object keeps the attribute itself: its type's shared keys have the name at the index, its
    dict was never made, and its values there are valid. *)
Record instance_holds (o key : Obj) (index : Z) (w : World) (v : Obj) : Prop := mkInstanceHolds {
  ih_keys : exists keys actual, ht_cached_keys (object_type o w) w = Some keys /\ dk_kind keys = 2
    /\ index < dk_nentries keys /\ dk_entry keys index = Some actual /\ same_object (World := World) actual key = true;
  ih_inline : il_dict_made (inline_values o w) = false;
  ih_valid : il_valid (inline_values o w) <> 0;
  ih_value : index < il_capacity (inline_values o w) /\ il_value (inline_values o w) index = Some v
}.
Lemma guarded_instance o attr index (w : World) v :
  guarded_field o (object_type o w) attr index w = Some v -> instance_holds o attr index w v.
Proof.
  unfold guarded_field, late_bound_split_key_guard, trusted_inline_values_field_probe. intros H.
  destruct (ht_cached_keys (object_type o w) w) as [keys|] eqn:Ek; [|done]. case_match eqn:Eg; [|done]. case_match eqn:Ev; [|done].
  rewrite !andb_true_iff, Z.eqb_eq, Z.ltb_lt in Eg. destruct Eg as [[Hk Hn] He].
  rewrite !andb_true_iff, !negb_true_iff, Z.eqb_neq, Z.ltb_lt in Ev. destruct Ev as [[Hd Hv] Hc].
  destruct (dk_entry keys index) as [actual|] eqn:Ea; [|done]. split; try done. by exists keys, actual.
Qed.
End layout.

(** ** The interface *)

(** [int_object o z] says that [o] is an [int] of value [z]; there is one for every value, and
    which one an operation gives is not fixed.  [attr_key o name] says that [o] is the string
    [name].  [recorded name owner version] says that instances of the type [owner] at that version
    keep [name] themselves, and that the type does not shadow it.  Making an integer may fail. *)
Class RegionLaws (World Obj : Type) `{!JitRuntime World Obj} `{!Operations World Obj} (constants : list ConstantExpr) : Type := {
  int_object : Obj -> Z -> Prop;
  py_long : Z -> Obj;
  attr_key : Obj -> string -> Prop;
  recorded : string -> Obj -> Z -> Prop;
  law_int z : int_object (py_long z) z;
  (** an integer of one digit: the size and sign are in the tag *)
  law_raw_long o value : raw_long (World := World) o = Some value -> 0 <= ob_digit value < 2 ^ 32
    /\ (lv_tag value < 16 -> int_object o ((1 - Z.land (lv_tag value) 3) * ob_digit value));
  (** an integer that could be made is one of the value, and nothing else changed *)
  law_box z w w' o : py_long_from_i64 z w = (w', Ok o) -> w' = w /\ int_object o z;
  (** the general functions perform the operations *)
  law_number op a b w w' r : py_number op a b w = (w', r) -> performs w (Op_BinOp (number_kind op)) [a; b] w' r;
  law_compare op a b w w' r : py_rich_compare op a b w = (w', r) -> performs w (Op_BinOp (compare_kind op)) [a; b] w' r;
  law_truth o w w' r : py_is_true o w = (w', r) -> performs w (Op_UnaryOp Truth) [o] w' (match r with Ok b => Ok (py_bool (World := World) b) | Err e => Err e end);
  law_holds b : holds (py_bool (World := World) b) = b;
  (** booleans, integers and strings *)
  law_bool b w : performs w (Op_UnaryOp Truth) [py_bool (World := World) b] w (Ok (py_bool (World := World) b));
  law_int_number op a b o x y w : int_object a x -> int_object b y -> int_object o (number_value op x y) ->
    performs w (Op_BinOp (number_kind op)) [a; b] w (Ok o);
  law_int_compare op a b x y w : int_object a x -> int_object b y ->
    performs w (Op_BinOp (compare_kind op)) [a; b] w (Ok (py_bool (World := World) (ordered op (x ?= y))));
  law_str_compare op a b u v w : exact_unicode (World := World) a = Some u -> exact_unicode (World := World) b = Some v ->
    performs w (Op_BinOp (compare_kind op)) [a; b] w (Ok (py_bool (World := World) (ordered op (chars_compare (un_chars u) (un_chars v)))));
  law_unicode_compare u v : (unicode_compare (World := World) (Obj := Obj) u v ?= 0) = chars_compare (un_chars u) (un_chars v);
  law_ascii o u : exact_unicode (World := World) o = Some u -> un_compact_ascii u = true -> ascii u;
  law_same a b : same_object (World := World) a b = true -> a = b;
  (** loads of locals: as an object, as a truth value, as an integer, and of one that is not bound *)
  law_local name binding l o w : rn_location name = NL_Local l ->
    local_entry (World := World) (rn_id name) = Some (LV_PyObject o) \/ (exists kind, local_entry (World := World) (rn_id name) = Some (LV_Checked (Some o) kind)) ->
    performs w (Op_Load name binding) [] w (Ok o);
  law_local_bool name binding l b w : rn_location name = NL_Local l ->
    local_entry (World := World) (Obj := Obj) (rn_id name) = Some (LV_I32Bool01 b) -> performs w (Op_Load name binding) [] w (Ok (py_bool (World := World) b));
  law_local_int name binding l z o w : rn_location name = NL_Local l ->
    local_entry (World := World) (Obj := Obj) (rn_id name) = Some (LV_I64 z) -> int_object o z -> performs w (Op_Load name binding) [] w (Ok o);
  law_local_unbound name binding l w w' e : rn_location name = NL_Local l ->
    local_entry (World := World) (Obj := Obj) (rn_id name) = Some (LV_Checked None false) ->
    raise_unbound_local_error (rn_id name) w = (w', e) -> performs w (Op_Load name binding) [] w' (Err e);
  (** other loads; an integer constant is any object of its value *)
  law_cell name binding l w : rn_location name = NL_Cell l -> performs w (Op_Load name (Some binding)) [] w (load_cell name binding w);
  law_load_constant name binding index w : rn_location name = NL_Constant index ->
    performs w (Op_Load name binding) [] w (Ok (module_constant (World := World) index));
  law_load_integer name binding index c o w : rn_location name = NL_Constant index -> module_i64_constant constants index = Some c ->
    int_object o c -> performs w (Op_Load name binding) [] w (Ok o);
  law_global_slow name binding slot w w' r : rn_location name = NL_Global slot ->
    load_global_slow (rn_id name) (global_slot slot) w = (w', r) -> performs w (Op_Load name binding) [] w' r;
  law_indexed_global name binding slot w o : rn_location name = NL_Global slot ->
    indexed_entry (World := World) (globals_dict w) (unicode_constant (World := World) (rn_id name)) (global_slot slot) o ->
    performs w (Op_Load name binding) [] w (Ok o);
  law_attr o key name w w' r : attr_key key name -> get_attr o name w = (w', r) -> performs w Op_GetAttr [o; key] w' r;
  law_instance_attr o key name index w v : attr_key key name ->
    recorded name (object_type o w) (tp_version_tag (object_type o w) w) ->
    instance_holds o (unicode_constant (World := World) name) index w v -> performs w Op_GetAttr [o; key] w (Ok v)
}.

(** ** Operands *)

Section operands.
Context {World Obj : Type} `{!JitRuntime World Obj} `{!Operations World Obj} {constants : list ConstantExpr} `{!RegionLaws World Obj constants}.

Lemma ev_load (w w' : World) id name binding r :
  performs w (Op_Load name binding) [] w' r -> ev (Value := Obj) w (mkInstr id (Op_Load name binding) []) w' r.
Proof. intros H. eapply Ev_Node; [constructor|exact H]. Qed.
Lemma ev_two (w w1 w2 w3 : World) id op i1 i2 v1 v2 r :
  ev (Value := Obj) w i1 w1 (Ok v1) -> ev w1 i2 w2 (Ok v2) -> performs w2 op [v1; v2] w3 r -> ev w (mkInstr id op [i1; i2]) w3 r.
Proof. intros H1 H2 H. eapply Ev_Node; [|exact H]. econstructor; [done|]. econstructor; [done|constructor]. Qed.
Lemma ev_two_left (w w1 : World) id op i1 i2 e : ev (Value := Obj) w i1 w1 (Err e) -> ev w (mkInstr id op [i1; i2]) w1 (Err e).
Proof. intros H. by apply Ev_Child, Evs_Head. Qed.
Lemma ev_two_right (w w1 w2 : World) id op i1 i2 v1 e :
  ev (Value := Obj) w i1 w1 (Ok v1) -> ev w1 i2 w2 (Err e) -> ev w (mkInstr id op [i1; i2]) w2 (Err e).
Proof. intros H1 H2. apply Ev_Child. eapply Evs_Tail; [done|]. by apply Evs_Head. Qed.
Lemma ev_one (w w1 w2 : World) id op i v r :
  ev (Value := Obj) w i w1 (Ok v) -> performs w1 op [v] w2 r -> ev w (mkInstr id op [i]) w2 r.
Proof. intros H1 H. eapply Ev_Node; [|exact H]. econstructor; [done|constructor]. Qed.
Lemma ev_one_raise (w w1 : World) id op i e : ev (Value := Obj) w i w1 (Err e) -> ev w (mkInstr id op [i]) w1 (Err e).
Proof. intros H. by apply Ev_Child, Evs_Head. Qed.

Lemma compact_int o z : compact_long (World := World) o = Some z -> int_object o z.
Proof.
  unfold compact_long. destruct (raw_long o) as [value|] eqn:E; [|done]. apply law_raw_long in E as [Hd Hc].
  replace PYLONG_COMPACT_TAG_LIMIT with 16 by reflexivity. destruct (Z.ltb_spec (lv_tag value) 16) as [Ht|]; [|done].
  intros [= <-]. unfold imul64, PY_LONG_SIGN_MASK. specialize (Hc Ht).
  assert (0 <= Z.land (lv_tag value) 3 <= 3) as Hs.
  { change 3 with (Z.ones 2). rewrite Z.land_ones by lia. pose proof (Z.mod_pos_bound (lv_tag value) (2 ^ 2)) as H.
    assert (0 < 2 ^ 2) as H4 by reflexivity. specialize (H H4). change (2 ^ 2) with 4 in *. change (Z.ones 2) with 3. lia. }
  assert (2 ^ 64 = 18446744073709551616 /\ 2 ^ 63 = 9223372036854775808 /\ 2 ^ 32 = 4294967296) as (E64 & E63 & E32) by done.
  rewrite Z.mod_small by nia. by rewrite Z.add_simpl_r.
Qed.
Lemma int_of_constant c : exists o, int_object o c.
Proof. exists (py_long c). apply law_int. Qed.

(** Making an integer failed. *)
Definition box_fails (w w' : World) (e : Obj) : Prop := exists z, py_long_from_i64 z w = (w', Err e).

(** What is loaded of a source is what an operand evaluates to. *)
Record operand (source : PyObjectRegionInputSource) (i : InstrBlockPy) : Prop := mkOperand {
  opd_hot (w : World) : match hot_load (Obj := Obj) source w with
    | HL_Object o | HL_Cell o => ev w i w (Ok o)
    | HL_Scalar z => forall o, int_object o z -> ev w i w (Ok o)
    | HL_Raise w' e => ev w i w' (Err e)
    | HL_Miss => True
    end;
  opd_fallback (w w' : World) (r : result Obj Obj) : fallback_load source w = (w', r) ->
    ev w i w' r \/ exists e, r = Err e /\ box_fails w w' e
}.

Context (fields : FieldLoads) (globals : GlobalLoads).
(** The guards of a field were recorded for it. *)
Definition guards_recorded (plan : FieldPlan (Obj := Obj)) (name : string) : Prop :=
  match plan with
  | FP_Specializations guards => forall guard owner, (guard, owner) ∈ guards -> recorded name owner (tg_type_version guard)
  | FP_LateBound cell_index _ => forall (w : World) cells owner, owner_cells w = Some cells ->
      oc_owner (cells cell_index) = Some owner -> recorded name owner (oc_type_version (cells cell_index))
  end.
(** A planned field load names its attribute in a constant of the module, and has guards that were
    recorded for that attribute. *)
Definition attributes_named (i : InstrBlockPy) : Prop :=
  match i with
  | mkInstr (Some source) Op_GetAttr [_; mkInstr _ (Op_Load name _) []] =>
      forall plan, fields !! source = Some plan ->
        (exists index, rn_location name = NL_Constant index /\ attr_key (module_constant (World := World) index) (if_attr_name plan))
        /\ forall guards, indexed_field_plan (World := World) source (if_owner_type plan) (if_attr_name plan) (if_expected_index plan) = Ok guards ->
             guards_recorded guards (if_attr_name plan)
  | mkInstr (Some source) Op_GetAttr _ => fields !! source = None
  | _ => True
  end.
Lemma local_loads id name binding l (w : World) w' r :
  rn_location name = NL_Local l -> object_local (World := World) (Obj := Obj) (rn_id name) -> local_load (rn_id name) w = (w', r) ->
  ev w (mkInstr id (Op_Load name binding) []) w' r.
Proof.
  intros El Ho H. apply ev_load. unfold object_local, local_load in *.
  destruct (local_entry (rn_id name)) as [[z|b|o|[o|] []]|] eqn:E; try done.
  1-4: injection H as <- <-; first [by eapply law_local_bool|eapply law_local; eauto].
  destruct (raise_unbound_local_error (rn_id name) w) as [w1 e] eqn:Er. injection H as <- <-. by eapply law_local_unbound.
Qed.
Lemma local_operand id name binding l : rn_location name = NL_Local l -> available (World := World) (Obj := Obj) (IS_LocalName (rn_id name)) ->
  operand (IS_LocalName (rn_id name)) (mkInstr id (Op_Load name binding) []).
Proof.
  intros El Ha. cbn in Ha.
  assert (forall z o (w : World), scalar_i64_value_for_name (World := World) (Obj := Obj) (rn_id name) = Some z -> int_object o z ->
    ev w (mkInstr id (Op_Load name binding) []) w (Ok o)) as Hz.
  { intros z o w Hs Hi. unfold scalar_i64_value_for_name in Hs. destruct (local_entry (rn_id name)) as [[]|] eqn:E; try done.
    injection Hs as ->. by eapply ev_load, law_local_int. }
  split; cbn.
  - intros w. destruct (scalar_i64_value_for_name (rn_id name)) as [z|] eqn:Es; [by eauto|].
    destruct Ha as [[]|Ha]; [done|]. destruct (local_load (rn_id name) w) as [w' [o|e]] eqn:E.
    + pose proof (local_load_world _ _ _ _ E) as ->. by eapply local_loads.
    + by eapply local_loads.
  - intros w w' r. destruct (scalar_i64_value_for_name (rn_id name)) as [z|] eqn:Es.
    { destruct r as [o|e]; [|right; exists e; split; [done|by exists z]]. intros [-> Hi]%law_box. left. by eauto. }
    destruct Ha as [[]|Ha]; [done|]. intros E. left. by eapply local_loads.
Qed.
Lemma specializations_recorded name o attr guards (w : World) v :
  (forall guard owner, (guard, owner) ∈ guards -> recorded name owner (tg_type_version guard)) ->
  probe_specializations o attr guards w = Some v ->
  recorded name (object_type o w) (tp_version_tag (object_type o w) w) /\ exists index, instance_holds o attr index w v.
Proof.
  induction guards as [|[guard owner] guards IH]; intros Hg H; [done|]. cbn in H. unfold emit_exact_type_version_match in H.
  destruct (same_object (object_type o w) owner) eqn:Es; cbn [andb] in H; [|apply IH; [|done]; intros; apply Hg; by right].
  destruct (Z.eqb_spec (tp_version_tag (object_type o w) w) (tg_type_version guard)) as [Ev|]; [|apply IH; [|done]; intros; apply Hg; by right].
  apply law_same in Es as <-. split; [rewrite Ev; eapply Hg; by left|]. eexists. by apply guarded_instance.
Qed.
Lemma probe_recorded plan name o (w : World) v :
  guards_recorded plan name -> probe_field plan o name w = Some v ->
  recorded name (object_type o w) (tp_version_tag (object_type o w) w)
  /\ exists index, instance_holds o (unicode_constant (World := World) name) index w v.
Proof.
  destruct plan as [guards|cell_index index]; cbn; unfold probe_field; [by apply specializations_recorded|]. intros Hg H.
  unfold late_bound_owner_guard in H. destruct (owner_cells w) as [cells|] eqn:Ec; [|done].
  destruct (oc_owner (cells cell_index)) as [owner|] eqn:Eo; [|done].
  destruct (same_object (object_type o w) owner) eqn:Es; cbn [andb] in H; [|done].
  destruct (Z.eqb_spec (tp_version_tag (object_type o w) w) (oc_type_version (cells cell_index))) as [Ev|]; [|done].
  apply law_same in Es as <-. split; [rewrite Ev; by eapply Hg|]. eexists. by apply guarded_instance.
Qed.
Lemma attr_operand id receiver key plan name :
  local_of receiver = Some name -> attributes_named (mkInstr (Some id) Op_GetAttr [receiver; key]) -> fields !! id = Some plan ->
  available (World := World) (Obj := Obj) (IS_IndexedField id name (if_owner_type plan) (if_attr_name plan) (if_expected_index plan)) ->
  operand (IS_IndexedField id name (if_owner_type plan) (if_attr_name plan) (if_expected_index plan)) (mkInstr (Some id) Op_GetAttr [receiver; key]).
Proof.
  intros El Hn Hf [Ho Hp].
  assert (forall (w w' : World) r, local_load name w = (w', r) -> ev w receiver w' r) as Hr.
  { intros w w' r E. destruct receiver as [rid op children]. destruct op; try done. destruct children; [|done]. cbn in El.
    destruct (rn_location name0) eqn:Eloc; try done. injection El as <-. by eapply local_loads. }
  assert (exists k, attr_key k (if_attr_name plan) /\ (forall w : World, ev w key w (Ok k))
    /\ forall guards, indexed_field_plan (World := World) id (if_owner_type plan) (if_attr_name plan) (if_expected_index plan) = Ok guards ->
         guards_recorded guards (if_attr_name plan)) as (k & Hk & Hw & Hg).
  { destruct key as [kid op children]. cbn in Hn. destruct op; try congruence. destruct children; [|congruence].
    destruct (Hn _ Hf) as [(index & Hl & Hk) Hg]. eexists. split_and!; [exact Hk| |exact Hg]. intros w. by eapply ev_load, law_load_constant. }
  split; cbn.
  - intros w. destruct (indexed_field_plan _ _ _ _) as [guards|]; [|done]. specialize (Hg _ eq_refl).
    destruct (local_load name w) as [w' [o|e]] eqn:E; [|apply ev_two_left; by apply Hr].
    pose proof (local_load_world _ _ _ _ E) as ->. apply Hr in E.
    destruct (probe_field guards o (if_attr_name plan) w) as [v|] eqn:Ep; cbn; [|done].
    apply probe_recorded in Ep as (Hrec & index & Hi); [|done]. eapply ev_two; [exact E|apply Hw|]. by eapply law_instance_attr.
  - intros w w' r. destruct (local_load name w) as [w1 [o|e]] eqn:E; apply Hr in E.
    + intros Ea. left. eapply ev_two; [exact E|apply Hw|]. by eapply law_attr.
    + intros [= <- <-]. left. by apply ev_two_left.
Qed.
Lemma input_operand allow i source :
  input_of fields globals allow i = Some source -> attributes_named i -> available (World := World) (Obj := Obj) source -> operand source i.
Proof.
  intros Hi Hn Ha. destruct i as [id op children]. destruct op; try done.
  - destruct children as [|receiver [|key [|]]]; try done. cbn in Hi. destruct allow; [|done]. destruct id as [id|]; [|done]. cbn in Hi.
    destruct (fields !! id) as [plan|] eqn:Ef; [|done]. cbn in Hi. destruct (local_of receiver) as [name|] eqn:El; [|done]. injection Hi as <-.
    by eapply attr_operand.
  - destruct children; [|done]. cbn in Hi. destruct (rn_location name) as [l| | |slot| |cell|index] eqn:El; try done.
    + injection Hi as <-. by eapply local_operand.
    + destruct id as [id|]; [|done]. cbn in Hi. destruct (globals !! id) as [plan|]; [|done]. cbn in Hi.
      destruct (bool_decide_reflect (ig_name plan = rn_id name)) as [En|]; [|done]. cbn [andb] in Hi.
      destruct (Z.eqb_spec (ig_expected_index plan) (global_slot slot)) as [Ei|]; [|done]. injection Hi as <-. rewrite En, Ei. split; cbn.
      * intros w. destruct (probe_global _ _ w) as [o|] eqn:Ep; cbn; [|done].
        by eapply ev_load, law_indexed_global, probe_indexed_entry.
      * intros w w' r E. left. unfold load_global in E. destruct (probe_global _ _ w) as [o|] eqn:Ep.
        -- injection E as <- <-. by eapply ev_load, law_indexed_global, probe_indexed_entry.
        -- by eapply ev_load, law_global_slow.
    + destruct id as [id|]; [|done]. destruct cell_binding as [binding|]; [|done]. injection Hi as <-. split; cbn.
      * intros w. pose proof (law_cell name binding cell w El) as H. by destruct (load_cell name binding w); apply ev_load.
      * intros w w' r [= <- <-]. left. by eapply ev_load, law_cell.
    + injection Hi as <-. split; cbn; [intros w|intros w w' r [= <- <-]; left]; by eapply ev_load, law_load_constant.
Qed.
End operands.
