(* ===== verification/RegionRefine.v ===== *)
(** * Generated code refines the expression

    Every run of the code of a planned region is an execution of the expression the region
    stands for, with the interpreter functions of [RegionLaws], and gives back every reference
    it took; or it raises because an integer object could not be made. *)

From stdpp Require Import gmap.
From S2P Require Import Prelude Ids Cfg Names Instr Region RegionProps Specialize RegionMatch RegionMatchProps Plan Emit Alternatives PlanBuild PlanBuildProps PlanAccepted RegionRun RegionCode RegionRunProps RegionLaws.

Local Open Scope Z_scope.

Section refine.
Context {World Obj : Type} `{!JitRuntime World Obj} `{!Operations World Obj} {constants : list ConstantExpr} `{!RegionLaws World Obj constants}.
Notation Machine := (Machine (World := World) (Obj := Obj)).
Notation Run := (Run (World := World) (Obj := Obj)).
Notation Flow := (Flow (Obj := Obj)).
Notation Values := (gmap PlanValue (MechanicalValue (Obj := Obj))).
Notation Loads := (list (PlanValue * Run (LoadedInput (Obj := Obj)))).
Implicit Types m : Machine.

(** ** References *)

Definition acquired (refs : list (RefEvent (Obj := Obj))) : list Obj := omap (fun e => match e with Acquired o => Some o | _ => None end) refs.
Definition released (refs : list (RefEvent (Obj := Obj))) : list Obj := omap (fun e => match e with Released o => Some o | _ => None end) refs.
(** Every reference that was acquired has been released, but for the ones that are kept. *)
Definition balanced (refs : list RefEvent) (kept : list Obj) : Prop := acquired refs ≡ₚ released refs ++ kept.

Lemma acquired_app l1 l2 : acquired (l1 ++ l2) = acquired l1 ++ acquired l2.
Proof. apply omap_app. Qed.
Lemma released_app l1 l2 : released (l1 ++ l2) = released l1 ++ released l2.
Proof. apply omap_app. Qed.
Lemma balanced_app l1 l2 kept : balanced l1 [] -> balanced l2 kept -> balanced (l1 ++ l2) kept.
Proof. unfold balanced. rewrite acquired_app, released_app, app_nil_r. intros -> ->. by rewrite app_assoc. Qed.
Lemma balanced_extend l1 l2 k1 k2 : balanced l1 k1 -> k1 ++ acquired l2 ≡ₚ released l2 ++ k2 -> balanced (l1 ++ l2) k2.
Proof. unfold balanced. rewrite acquired_app, released_app, <- app_assoc. intros -> <-. by rewrite app_assoc. Qed.
Lemma balanced_around l1 l2 events kept : balanced (l1 ++ l2) [] -> balanced events kept -> balanced (l1 ++ events ++ l2) kept.
Proof.
  intros H1 H2. pose proof (balanced_app _ _ _ H1 H2) as H. unfold balanced in *. rewrite !acquired_app, !released_app in *.
  by rewrite (Permutation_app_comm (acquired events)), (Permutation_app_comm (released events)), !app_assoc in *.
Qed.

(** ** What is asked of the code *)

Notation binary kind i1 i2 := (fun id => mkInstr id (Op_BinOp kind) [i1; i2]).
Definition truth_of (i : InstrBlockPy) : InstrBlockPy := mkInstr None (Op_UnaryOp Truth) [i].
(** A state that evaluating the expression comes to: the first, or the one after a subexpression. *)
Definition reached (i : InstrBlockPy) (w w0 : World) : Prop := w0 = w \/ exists j o, j ∈ instrs_pre i /\ ev w j w0 (Ok o).
(** An integer object could not be made there. *)
Definition out_of_memory (i : InstrBlockPy) (w : World) (m : Machine) (e : Obj) : Prop :=
  exists w0, reached i w w0 /\ box_fails w0 (m_world m) e.
Definition raises_as (whole i : InstrBlockPy) (w : World) (m : Machine) (e : Obj) : Prop :=
  (ev w whole (m_world m) (Err e) /\ balanced (m_refs m) []) \/ out_of_memory i w m e.
Definition tests_as (i : InstrBlockPy) (w : World) (m : Machine) (flow : Flow bool) : Prop :=
  match flow with
  | Next b => (exists r, ev w (truth_of i) (m_world m) (Ok r) /\ holds r = b) /\ balanced (m_refs m) []
  | Raised e => raises_as (truth_of i) i w m e
  | Miss => False
  end.
Definition returns_as (i : InstrBlockPy) (w : World) (m : Machine) (flow : Flow (Obj * bool)) : Prop :=
  match flow with
  | Next (o, owned) => ev w i (m_world m) (Ok o) /\ balanced (m_refs m) (if owned : bool then [o] else [])
  | Raised e => raises_as i i w m e
  | Miss => False
  end.
Lemma instrs_pre_self (i : InstrBlockPy) : i ∈ instrs_pre i.
Proof. destruct i. left. Qed.
Lemma instrs_pre_child id op children (c j : InstrBlockPy) : c ∈ children -> j ∈ instrs_pre c -> j ∈ instrs_pre (mkInstr id op children).
Proof. intros Hc Hj. right. apply list_elem_of_In, in_concat. exists (instrs_pre c). split; [by apply in_map, list_elem_of_In|by apply list_elem_of_In]. Qed.
Lemma reached_child id op children (c : InstrBlockPy) w w0 : c ∈ children -> reached c w w0 -> reached (mkInstr id op children) w w0.
Proof. intros Hc [->|(j & o & Hj & H)]; [by left|]. right. exists j, o. split; [by eapply instrs_pre_child|done]. Qed.
Lemma reached_after id op children (c : InstrBlockPy) w w0 o : c ∈ children -> ev w c w0 (Ok o) -> reached (mkInstr id op children) w w0.
Proof. intros Hc H. eapply reached_child; [exact Hc|]. right. exists c, o. split; [apply instrs_pre_self|done]. Qed.
(** The code left before it did anything. *)
Definition unchanged (w : World) (m : Machine) : Prop := m_world m = w /\ balanced (m_refs m) [].

(** ** Symbolic execution *)

Ltac perm := unfold balanced; cbn;
  repeat (lazymatch goal with
  | |- ?x :: _ ≡ₚ ?x :: _ => apply perm_skip
  | |- ?x :: ?l ≡ₚ ?y :: ?x :: ?r => apply (@Permutation_cons_app _ l [y] r x)
  | |- ?x :: ?l ≡ₚ ?y :: ?z :: ?x :: ?r => apply (@Permutation_cons_app _ l [y; z] r x)
  end; cbn); reflexivity.
Ltac other_key := let H := fresh in intros H; vm_compute in H; discriminate H.
Ltac look := repeat first [rewrite lookup_insert_ne by other_key|rewrite lookup_delete_ne by other_key];
  first [eassumption|apply lookup_insert_eq|apply lookup_delete_eq|apply lookup_empty
        |match goal with H : forall k rep, _ < k -> _ !! plan_value_new k rep = None |- _ => apply H; reflexivity end].
Ltac decide_scalars :=
  repeat match goal with
  | |- context [bool_decide (?x ∈ ?s)] =>
      let b := eval vm_compute in (bool_decide (x ∈ s)) in replace (bool_decide (x ∈ s)) with b by (vm_compute; reflexivity)
  end; cbv iota.
Ltac wp_next :=
  lazymatch goal with
  | |- wp (run_code _ _ _ _ ?code) _ _ =>
      lazymatch code with
      | [] => apply wp_done
      | MC_SpecializationGuard _ :: _ => apply wp_guard
      | MC_ConstantI64 _ _ :: _ => apply wp_constant; [reflexivity|look|]
      | MC_PreseededConvert _ :: _ => eapply wp_preseeded; [look|]
      | MC_Convert CC_FromPythonLongCompactToI64 _ _ :: _ => eapply wp_unbox; [reflexivity|look|reflexivity|look|]
      | MC_Convert _ _ _ :: _ => eapply wp_truth; [look|reflexivity|look|other_key|]
      | MC_Operation (MO_CheckedI64 _) _ _ _ :: _ => eapply wp_checked; [reflexivity|look|look|reflexivity|look|]
      | MC_Operation (MO_I64Bit _) _ _ _ :: _ => eapply wp_bit; [look|look|reflexivity|look|]
      | MC_Operation (MO_I64CompareToBool01 _) _ _ _ :: _ => eapply wp_icmp; [look|look|reflexivity|look|]
      | MC_Operation (MO_PyObjectRichCompareBool _) _ _ _ :: _ => eapply wp_unicode; [reflexivity|look|look|reflexivity|look|]
      | MC_Materialize MK_PythonBool _ _ :: _ => eapply wp_materialize_bool; [set_solver|look|reflexivity|look|]
      end
  end.
Ltac load_scalar := eexists; split; [reflexivity|]; split; [reflexivity|]; split; [look|].
Ltac begin_code :=
  apply wp_loaded; cbn [after iv_values iv_preseeded_convert_inputs iv_preseeded_scalars iv_borrowed_input_owners app map preseeded]; decide_scalars.
(** The operand is an [int] of the value. *)
Definition has_int (i : InstrBlockPy) (w : World) (x : Z) : Prop := exists o, int_object o x /\ ev w i w (Ok o).
(** One of two operands raises. *)
Definition one_raises (i1 i2 : InstrBlockPy) (w w' : World) (e : Obj) : Prop :=
  ev w i1 w' (Err e) \/ exists v, ev w i1 w (Ok v) /\ ev w i2 w' (Err e).
Ltac int_value :=
  match goal with
  | H : forall o, int_object o ?x -> ev _ ?i _ (Ok o) |- has_int ?i _ _ => exists (py_long x); split; [apply law_int|apply H, law_int]
  | E : compact_long ?o = Some ?x, H : ev _ ?i _ (Ok ?o) |- has_int ?i _ _ => exists o; split; [by apply compact_int|exact H]
  end.
Ltac second_raises :=
  right; match goal with
  | H : forall o, int_object o ?x -> ev _ ?i _ (Ok o) |- exists v, ev _ ?i _ (Ok v) /\ _ => exists (py_long x); split; [apply H, law_int|done]
  | H : ev _ ?i _ (Ok ?o) |- exists v, ev _ ?i _ (Ok v) /\ _ => exists o; done
  end.

Notation ints := [MC_SpecializationGuard [obj 0]; MC_SpecializationGuard [obj 1]; unbox (obj 0) (int 2); unbox (obj 1) (int 3)].
(** The machine integers of the operands, whatever they were loaded from. *)
Record has_ints (values : Values) (x y : Z) : Prop := mkHasInts {
  hi_left : values !! int 2 = Some (MV_I64 x);
  hi_right : values !! int 3 = Some (MV_I64 y);
  hi_fresh k rep : 3 < k -> values !! plan_value_new k rep = None;
  hi_owned : owns_only values None
}.
Ltac has_ints := split; [look|look|intros k rep Hk; repeat (rewrite lookup_insert_ne by (unfold plan_value_new; intros [=]; lia)); apply lookup_empty|owns_only].
Lemma hot_ints l r i1 i2 rest skipped (Q : Machine -> Flow Values -> Prop) w :
  operand l i1 -> operand r i2 -> (forall scalars, map (preseeded scalars) rest = rest) ->
  (forall m, unchanged w m -> Q m Miss) ->
  (forall m e, balanced (m_refs m) [] -> one_raises i1 i2 w (m_world m) e -> Q m (Raised e)) ->
  (forall x y values converts before close, has_int i1 w x -> has_int i2 w y -> has_ints values x y ->
     balanced (before ++ close) [] -> wp (run_code true converts skipped values rest) (fun m => Q (log close m)) (mkMachine w before)) ->
  wp (run_coded true [(obj 0, loaded (hot_load l w) [int 2]); (obj 1, loaded (hot_load r w) [int 3])] (ints ++ rest) skipped) Q (mkMachine w []).
Proof.
  intros H1 H2 Hrest Qm Qr Qn. pose proof (opd_hot _ _ H1 w) as E1. pose proof (opd_hot _ _ H2 w) as E2.
  apply wp_coded, wp_load_hot; [done|done|]. destruct (hot_load l w).
  4: { apply Qm. split; [done|perm]. }
  4: { apply Qr; [perm|by left]. }
  all: try load_scalar.
  all: apply wp_load_hot; [done|look|]; destruct (hot_load r w).
  all: try match goal with |- after _ _ _ Miss => apply Qm; split; [done|perm] end.
  all: try match goal with |- after _ _ _ (Raised _) => apply Qr; [perm|second_raises] end.
  all: try load_scalar.
  all: begin_code; rewrite ?map_app, ?Hrest; cbn [app map preseeded].
  all: repeat (wp_next || match goal with |- match compact_long ?o with _ => _ end => destruct (compact_long o) eqn:?; [|apply Qm; split; [done|perm]] end).
  all: eapply (Qn _ _ _ _ _ (map Released (rev _))); [int_value|int_value|has_ints|perm].
Qed.

(** One operand, for a comparison with a constant. *)
Lemma hot_int l i rest skipped (Q : Machine -> Flow Values -> Prop) w :
  operand l i -> (forall scalars, map (preseeded scalars) rest = rest) ->
  (forall m, unchanged w m -> Q m Miss) -> (forall m e, balanced (m_refs m) [] -> ev w i (m_world m) (Err e) -> Q m (Raised e)) ->
  (forall x values converts before close, has_int i w x -> values !! int 1 = Some (MV_I64 x) ->
     (forall k rep, 1 < k -> values !! plan_value_new k rep = None) -> owns_only values None ->
     balanced (before ++ close) [] -> wp (run_code true converts skipped values rest) (fun m => Q (log close m)) (mkMachine w before)) ->
  wp (run_coded true [(obj 0, loaded (hot_load l w) [int 1])] ([MC_SpecializationGuard [obj 0]; unbox (obj 0) (int 1)] ++ rest) skipped) Q (mkMachine w []).
Proof.
  intros H1 Hrest Qm Qr Qn. pose proof (opd_hot _ _ H1 w) as E1.
  apply wp_coded, wp_load_hot; [done|done|]. destruct (hot_load l w).
  4: { apply Qm. split; [done|perm]. }
  4: { apply Qr; [perm|done]. }
  all: try load_scalar.
  all: begin_code; rewrite ?map_app, ?Hrest; cbn [app map preseeded].
  all: repeat (wp_next || match goal with |- match compact_long ?o with _ => _ end => destruct (compact_long o) eqn:?; [|apply Qm; split; [done|perm]] end).
  all: eapply (Qn _ _ _ _ (map Released (rev _))); [int_value|look| |owns_only|perm].
  all: intros k rep Hk; repeat (rewrite lookup_insert_ne by (unfold plan_value_new; intros [=]; lia)); apply lookup_empty.
Qed.
(** Two operands as objects, for a comparison of strings. *)
Definition not_scalar (source : PyObjectRegionInputSource) : Prop :=
  match source with IS_LocalName name => scalar_i64_value_for_name (World := World) (Obj := Obj) name = None | _ => True end.
Lemma hot_load_object source w z : not_scalar source -> hot_load (World := World) (Obj := Obj) source w <> HL_Scalar z.
Proof.
  intros Hn. destruct source; cbn in *; [rewrite Hn|..]; try done.
  - by destruct (local_load name w) as [? []].
  - by destruct (load_cell name binding w).
  - destruct (indexed_field_plan _ _ _ _); [|done]. destruct (local_load receiver w) as [? []]; [|done]. by destruct (probe_field _ _ _ _).
  - by destruct (probe_global _ _ _).
Qed.
Lemma hot_objects l r i1 i2 rest skipped (Q : Machine -> Flow Values -> Prop) w outputs1 outputs2 :
  operand l i1 -> operand r i2 -> not_scalar l -> not_scalar r -> (forall scalars, map (preseeded scalars) rest = rest) ->
  (forall m, unchanged w m -> Q m Miss) ->
  (forall m e, balanced (m_refs m) [] -> one_raises i1 i2 w (m_world m) e -> Q m (Raised e)) ->
  (forall a b converts before close, ev w i1 w (Ok a) -> ev w i2 w (Ok b) -> balanced (before ++ close) [] ->
     wp (run_code true converts skipped (<[obj 1 := MV_PyObject b false]> (<[obj 0 := MV_PyObject a false]> ∅)) rest)
       (fun m => Q (log close m)) (mkMachine w before)) ->
  wp (run_coded true [(obj 0, loaded (hot_load l w) outputs1); (obj 1, loaded (hot_load r w) outputs2)]
       ([MC_SpecializationGuard [obj 0]; MC_SpecializationGuard [obj 1]] ++ rest) skipped) Q (mkMachine w []).
Proof.
  intros H1 H2 N1 N2 Hrest Qm Qr Qn. pose proof (opd_hot _ _ H1 w) as E1. pose proof (opd_hot _ _ H2 w) as E2.
  apply wp_coded, wp_load_hot; [done|done|]. destruct (hot_load l w) eqn:L1.
  3: by apply hot_load_object in L1.
  3: { apply Qm. split; [done|perm]. }
  3: { apply Qr; [perm|by left]. }
  all: apply wp_load_hot; [done|look|]; destruct (hot_load r w) eqn:L2; try by apply hot_load_object in L2.
  all: try match goal with |- after _ _ _ Miss => apply Qm; split; [done|perm] end.
  all: try match goal with |- after _ _ _ (Raised _) => apply Qr; [perm|second_raises] end.
  all: begin_code; rewrite ?map_app, ?Hrest; cbn [app map preseeded]; repeat wp_next.
  all: eapply (Qn _ _ _ _ (map Released (rev _))); [eassumption|eassumption|perm].
Qed.

(** *** The general path *)

Lemma preseeded_none code : map (preseeded ∅) code = code.
Proof.
  induction code as [|step code IH]; [done|]. cbn. rewrite IH. f_equal. by destruct step.
Qed.
(** Nothing but [o] is owned, at [key]; the keys above [bound] are free. *)
Record holds_result (values : Values) (key : PlanValue) (o : Obj) (bound : Z) : Prop := mkHoldsResult {
  hr_value : values !! key = Some (MV_PyObject o true);
  hr_fresh k rep : bound < k -> values !! plan_value_new k rep = None;
  hr_owned : owns_only values (Some key)
}.
Ltac above := unfold without; intros ? ? ?;
  repeat first [rewrite lookup_insert_ne by (unfold plan_value_new; intros [=]; lia)|rewrite lookup_delete_ne by (unfold plan_value_new; intros [=]; lia)];
  first [apply lookup_empty|eauto].
Ltac more_refs := cbn [rev app map owned_operands omap list_omap]; rewrite ?app_nil_r, <- ?app_assoc; first [assumption|apply balanced_app; [assumption|perm]].
Ltac fallback_value H F :=
  apply (opd_fallback _ _ H) in F; destruct F as [F|(? & [=] & F)]; subst;
  [|match goal with Qb : forall w0 w' refs' e, reached _ _ w0 -> _ |- _ =>
       refine (Qb _ _ _ _ _ F); first [by left|eapply reached_after; [|eassumption]; set_solver] end ..].
Lemma fallback_call l r i1 i2 id kind op f rest (Q : Machine -> Flow Values -> Prop) w refs :
  operand l i1 -> operand r i2 -> (forall a b w w' r, f a b w = (w', r) -> performs w (Op_BinOp kind) [a; b] w' r) ->
  (forall lhs rhs output values, emit_operation op lhs rhs output values false =
     ('(values, lhs) ← take_pyobject_value values lhs;
      '(values, rhs) ← take_pyobject_value values rhs;
      result ← call_with_cleanup (f lhs.1 rhs.1) [lhs; rhs];
      store_mechanical_value values output (MV_PyObject result true))) ->
  balanced refs [] -> (forall w0 w' refs' e, reached (mkInstr id (Op_BinOp kind) [i1; i2]) w w0 -> box_fails w0 w' e -> Q (mkMachine w' refs') (Raised e)) ->
  (forall w' refs' e, ev w (mkInstr id (Op_BinOp kind) [i1; i2]) w' (Err e) -> balanced refs' [] -> Q (mkMachine w' refs') (Raised e)) ->
  (forall w' refs' o values, ev w (mkInstr id (Op_BinOp kind) [i1; i2]) w' (Ok o) -> balanced refs' [o] -> holds_result values (own 20) o 20 ->
     wp (run_code false ∅ ∅ values rest) (fun m => Q (log [] m)) (mkMachine w' refs')) ->
  wp (run_coded false [(fallback_pyobject_input_value 0 l, fallback_result l); (fallback_pyobject_input_value 1 r, fallback_result r)]
       (MC_Operation op (fallback_pyobject_input_value 0 l) (fallback_pyobject_input_value 1 r) (own 20) :: rest) ∅) Q (mkMachine w refs).
Proof.
  intros H1 H2 Hf Hop Hb Qb Qr Qn. apply wp_coded.
  destruct (fallback_load l w) as [w1 [a|e]] eqn:F1; (destruct (fallback_kind_cases (World := World) (Obj := Obj) l) as [K1|[K1|K1]];
    (eapply wp_load_fallback; [exact K1|auto|look|]; rewrite F1)); fallback_value H1 F1.
  4-6: apply Qr; [by eapply ev_two_left|more_refs].
  all: destruct (fallback_load r w1) as [w2 [b|e]] eqn:F2; (destruct (fallback_kind_cases (World := World) (Obj := Obj) r) as [K2|[K2|K2]];
    (eapply wp_load_fallback; [exact K2|auto|look|]; rewrite F2)); fallback_value H2 F2.
  all: try (apply Qr; [by eapply ev_two_right|more_refs]).
  all: apply wp_loaded; cbn [after iv_values iv_preseeded_convert_inputs iv_preseeded_scalars iv_borrowed_input_owners].
  all: rewrite preseeded_none, !(fallback_value (World := World) (Obj := Obj)), K1, K2; cbn [fst].
  all: eapply wp_python; [intros; apply Hop|look|look|other_key|reflexivity|look|].
  all: destruct (f a b w2) as [w3 [o|e]] eqn:Ff; apply Hf in Ff.
  all: try (apply Qr; [by eapply ev_two|more_refs]).
  all: eapply Qn; [by eapply ev_two|more_refs|split; [look|above|owns_only]].
Qed.
(** A constant operand is any integer object of its value. *)
Definition constant_operand (ci : InstrBlockPy) (c : Z) : Prop := forall (w : World) o, int_object o c -> ev w ci w (Ok o).
(** What is compared with a constant, on either side. *)
Definition with_constant (left : bool) {A} (value constant : A) : A * A := if left then (constant, value) else (value, constant).
Lemma fallback_constant l i ci c left id op rest (Q : Machine -> Flow Values -> Prop) w refs :
  operand l i -> constant_operand ci c -> balanced refs [] ->
  let '(lhs, rhs) := with_constant left i ci in
  let compare := mkInstr id (Op_BinOp (compare_kind op)) [lhs; rhs] in
  let '(lhs, rhs) := with_constant left (fallback_pyobject_input_value 0 l) (own 21) in
  (forall w0 w' refs' e, reached compare w w0 -> box_fails w0 w' e -> Q (mkMachine w' refs') (Raised e)) ->
  (forall w' refs' e, ev w compare w' (Err e) -> balanced refs' [] -> Q (mkMachine w' refs') (Raised e)) ->
  (forall w' refs' o values, ev w compare w' (Ok o) -> balanced refs' [o] -> holds_result values (own 22) o 22 ->
     wp (run_code false ∅ ∅ values rest) (fun m => Q (log [] m)) (mkMachine w' refs')) ->
  wp (run_coded false [(fallback_pyobject_input_value 0 l, fallback_result l)]
       (MC_ConstantI64 (int 20) c :: MC_Materialize MK_PythonLong (int 20) (own 21) ::
        MC_Operation (MO_PyObjectRichCompare op) lhs rhs (own 22) :: rest) ∅) Q (mkMachine w refs).
Proof.
  intros H1 Hc Hb. destruct left; cbn [with_constant]; intros Qb Qr Qn; apply wp_coded.
  all: destruct (fallback_load l w) as [w1 [a|e]] eqn:F1; (destruct (fallback_kind_cases (World := World) (Obj := Obj) l) as [K1|[K1|K1]];
    (eapply wp_load_fallback; [exact K1|auto|look|]; rewrite F1)); fallback_value H1 F1.
  all: try (apply Qr; [first [by eapply ev_two_left|eapply ev_two_right; [apply Hc, law_int|done]]|more_refs]).
  all: apply wp_loaded; cbn [after iv_values iv_preseeded_convert_inputs iv_preseeded_scalars iv_borrowed_input_owners].
  all: rewrite preseeded_none, !(fallback_value (World := World) (Obj := Obj)), K1; cbn [fst].
  all: wp_next; eapply wp_materialize_long; [set_solver|look|reflexivity|look|]; destruct (py_long_from_i64 c w1) as [w2 [k|e]] eqn:Eb;
    [apply law_box in Eb as [-> Hk]|eapply Qb; [eapply reached_after; [|exact F1]; set_solver|by exists c]].
  all: eapply wp_python; [intros; reflexivity|look|look|other_key|reflexivity|look|].
  all: match goal with |- context [py_rich_compare ?x ?a ?b ?w] => destruct (py_rich_compare x a b w) as [w3 [o|e]] eqn:Ff; apply law_compare in Ff end.
  all: pose proof (Hc w k Hk) as Hk0; pose proof (Hc w1 k Hk) as Hk1.
  all: try (apply Qr; [by eapply ev_two|more_refs]).
  all: eapply Qn; [by eapply ev_two|more_refs|split; [look|above|owns_only]].
Qed.

(** *** Ways out *)

Definition finish_branch (exit : MechanicalExitKind) (region : RegionId) (values : Values) : Run bool :=
  condition ← match exit with ME_Branch condition _ _ => i32_bool01_value values condition | _ => fails (CE_Exit region) end;
  release_owned_values_except values None;;
  mret condition.
Definition finish_return (exit : MechanicalExitKind) (region : RegionId) (values : Values) : Run (Obj * bool) :=
  '(key, result) ← match exit with
    | ME_Return value =>
        '(o, owned) ← pyobject_value values value;
        match pv_rep value, owned with
        | PyObjectOwned, true | PyObjectImmortal, _ => mret (value, (o, owned : bool))
        | _, _ => fails (CE_Ownership value)
        end
    | _ => fails (CE_Exit region)
    end;
  release_owned_values_except values (Some key);;
  mret result.
Lemma wp_finish_branch values c t e region b (Q : Machine -> Flow bool -> Prop) m :
  values !! c = Some (MV_I32Bool01 b) -> owns_only values None -> Q m (Next b) -> wp (finish_branch (ME_Branch c t e) region values) Q m.
Proof.
  intros Hc Ho H. destruct m. unfold finish_branch, i32_bool01_value. rewrite Hc. apply wp_bind. cbn. apply wp_bind. by apply wp_release_rest.
Qed.
Lemma wp_finish_return values key region o owned (Q : Machine -> Flow (Obj * bool) -> Prop) m :
  values !! key = Some (MV_PyObject o owned) -> pv_rep key = PyObjectOwned /\ owned = true \/ pv_rep key = PyObjectImmortal ->
  owns_only values (Some key) -> Q m (Next (o, owned)) -> wp (finish_return (ME_Return key) region values) Q m.
Proof.
  intros Hk Hr Ho H. destruct m. unfold finish_return, pyobject_value. rewrite Hk. apply wp_bind. cbn.
  assert (forall m (Q : Machine -> Flow (PlanValue * (Obj * bool)) -> Prop), Q m (Next (key, (o, owned))) ->
    wp (match pv_rep key, owned with PyObjectOwned, true | PyObjectImmortal, _ => mret (key, (o, owned)) | _, _ => fails (CE_Ownership key) end) Q m) as Hw.
  { intros m' Q' HQ. by destruct Hr as [[-> ->]| ->]. }
  unfold mbind at 1, run_bind. cbn. apply Hw. cbn. apply wp_bind. by apply wp_release_rest.
Qed.

(** What is asked of the code with a fallback. *)
Definition or_miss {A} (w : World) (P : Machine -> Flow A -> Prop) (m : Machine) (flow : Flow A) : Prop :=
  match flow with Miss => unchanged w m | _ => P m flow end.
(** The truth of a result the code owns. *)
Lemma general_truth i w w1 refs o values k n bound t e region :
  ev w i w1 (Ok o) -> balanced refs [o] -> holds_result values (own k) o bound -> bound < n -> k <> n ->
  wp (run_code false ∅ ∅ values [truth (own k) (bit n)])
    (fun m => after (tests_as i w) (fun values => wp (finish_branch (ME_Branch (bit n) t e) region values) (tests_as i w)) (log [] m)) (mkMachine w1 refs).
Proof.
  intros Hi Hb [Hv Hf Ho] Hn Hk. eapply wp_truth; [exact Hv|reflexivity|by apply Hf|unfold plan_value_new; congruence|].
  destruct (py_is_true o w1) as [w2 [b|x]] eqn:E; apply law_truth in E.
  - apply wp_done. eapply (wp_finish_branch _ _ t e region); [apply lookup_insert_eq| |].
    + intros key o' H. apply lookup_insert_Some in H as [[_ [=]]|[_ H]]. apply lookup_delete_Some in H as [Hne H]. apply Ho in H. congruence.
    + cbn. split; [exists (py_bool (World := World) b); split; [by eapply ev_one|exact (law_holds (constants := constants) b)]|]. rewrite !app_nil_r. eapply balanced_extend; [exact Hb|perm].
  - cbn. left. split; [by eapply ev_one|]. cbn. rewrite !app_nil_r. eapply balanced_extend; [exact Hb|perm].
Qed.
Lemma general_return i w w1 refs o values k bound region :
  ev w i w1 (Ok o) -> balanced refs [o] -> holds_result values (own k) o bound ->
  wp (run_code false ∅ ∅ values [])
    (fun m => after (returns_as i w) (fun values => wp (finish_return (ME_Return (own k)) region values) (returns_as i w)) (log [] m)) (mkMachine w1 refs).
Proof.
  intros Hi Hb [Hv Hf Ho]. apply wp_done. eapply (wp_finish_return _ _ region); [exact Hv|by left|done|]. cbn. by rewrite app_nil_r.
Qed.

(** ** Shapes *)

Lemma compare_kind_of op spec : compare_alternative_spec op = Some spec -> compare_kind (compare_of op) = op.
Proof. by destruct op. Qed.
Lemma number_kind_of op spec : binary_return_alternative_spec op = Some spec -> number_kind (number_of op) = op.
Proof. by destruct op. Qed.

(** The expression of a shape, over operands that the code can load. *)
Definition expresses (op : BinOpKind) (s : PlannedShape) (i : InstrBlockPy) : Prop :=
  let binary l r := exists id i1 i2, i = mkInstr id (Op_BinOp op) [i1; i2] /\ operand l i1 /\ operand r i2 in
  match s with
  | PS_AddGtZero s => exists id id' i1 i2 ci,
      i = mkInstr id (Op_BinOp Gt) [mkInstr id' (Op_BinOp Add) [i1; i2]; ci]
      /\ operand (ibs_left s) i1 /\ operand (ibs_right s) i2 /\ constant_operand ci 0
  | PS_CompareConstant s => exists id i1 ci,
      i = (let '(lhs, rhs) := with_constant (cch_constant_on_left s) i1 ci in mkInstr id (Op_BinOp op) [lhs; rhs])
      /\ operand (cch_value s) i1 /\ constant_operand ci (cch_constant s)
  | PS_IntCompareBranch s | PS_IntCompareReturn s | PS_StrCompareBranch s | PS_StrCompareReturn s => binary (csh_left s) (csh_right s)
  | PS_IntBinaryReturn s => binary (irs_left s) (irs_right s)
  end.
Definition strings_ready (s : PlannedShape) : Prop :=
  match s with PS_StrCompareBranch s | PS_StrCompareReturn s => not_scalar (csh_left s) /\ not_scalar (csh_right s) | _ => True end.
Definition branch_shape (s : PlannedShape) : bool :=
  match s with PS_AddGtZero _ | PS_CompareConstant _ | PS_IntCompareBranch _ | PS_StrCompareBranch _ => true | _ => false end.

Lemma int_compared op id i1 i2 x y w :
  has_int i1 w x -> has_int i2 w y ->
  ev w (mkInstr id (Op_BinOp (compare_kind op)) [i1; i2]) w (Ok (py_bool (World := World) (icmp op x y))).
Proof.
  intros (a & Ha & H1) (b & Hb & H2). eapply ev_two; [exact H1|exact H2|]. rewrite icmp_ordered. by apply law_int_compare.
Qed.
Lemma constant_int ci c w : constant_operand ci c -> has_int ci w c.
Proof. intros H. exists (py_long c). split; [apply law_int|apply H, law_int]. Qed.
Lemma int_number op id i1 i2 x y w o :
  has_int i1 w x -> has_int i2 w y -> int_object o (number_value op x y) ->
  ev w (mkInstr id (Op_BinOp (number_kind op)) [i1; i2]) w (Ok o).
Proof. intros (a & Ha & H1) (b & Hb & H2) Ho. eapply ev_two; [exact H1|exact H2|]. by eapply law_int_number. Qed.
Lemma int_sum id i1 i2 x y w : has_int i1 w x -> has_int i2 w y -> has_int (mkInstr id (Op_BinOp Add) [i1; i2]) w (x + y).
Proof. intros H1 H2. exists (py_long (x + y)). split; [apply law_int|]. eapply (int_number NB_Add); [exact H1|exact H2|apply law_int]. Qed.
Lemma bool_tested i b w m : ev w i w (Ok (py_bool (World := World) b)) -> m_world m = w -> balanced (m_refs m) [] -> tests_as i w m (Next b).
Proof.
  intros H Hw Hb. cbn. rewrite Hw. split; [|done]. exists (py_bool (World := World) b). split; [|exact (law_holds (constants := constants) b)].
  eapply ev_one; [exact H|]. apply law_bool.
Qed.
Lemma test_raises id op i1 i2 w m e :
  balanced (m_refs m) [] -> one_raises i1 i2 w (m_world m) e -> tests_as (mkInstr id op [i1; i2]) w m (Raised e).
Proof.
  intros Hb H. left. split; [|done]. apply ev_one_raise. destruct H as [H|(v & H1 & H2)]; [by apply ev_two_left|by eapply ev_two_right].
Qed.
Lemma return_raises id op i1 i2 w m e :
  balanced (m_refs m) [] -> one_raises i1 i2 w (m_world m) e -> returns_as (mkInstr id op [i1; i2]) w m (Raised e).
Proof.
  intros Hb H. left. split; [|done]. destruct H as [H|(v & H1 & H2)]; [by apply ev_two_left|by eapply ev_two_right].
Qed.
Lemma str_compared op id i1 i2 a b u v w :
  ev w i1 w (Ok a) -> ev w i2 w (Ok b) -> exact_unicode (World := World) a = Some u -> exact_unicode (World := World) b = Some v ->
  ev w (mkInstr id (Op_BinOp (compare_kind op)) [i1; i2]) w
    (Ok (py_bool (World := World) (exact_unicode_compare_bool (unicode_compare (World := World) (Obj := Obj)) (same_object (World := World) a b) op u v))).
Proof.
  intros H1 H2 Hu Hv. eapply ev_two; [exact H1|exact H2|]. rewrite unicode_compare_ordered; [by apply law_str_compare|..].
  - intros u' v'. exact (law_unicode_compare (constants := constants) u' v').
  - intros Hs. apply law_same in Hs as ->. congruence.
  - by apply (law_ascii a).
  - by apply (law_ascii b).
Qed.

(** *** The guarded path *)

Notation hot_run s op skipped w := (run_coded true (hot_loads w (hot_code op s) (shape_sources s)) (hot_code op s) skipped).
Ltac missed := apply (conj eq_refl); assumption.

Lemma hot_branch op s i w region :
  shape_of_op op s -> branch_shape s = true -> expresses op s i -> strings_ready s ->
  wp (values ← hot_run s op ∅ w; finish_branch (hot_exit s) region values) (or_miss w (tests_as i w)) (mkMachine w []).
Proof.
  intros Hop Hs Hi Hstr. apply wp_bind. destruct s as [s|s|s|s|s|s|s]; try done; cbn in Hop, Hi.
  - destruct Hi as (id & id' & i1 & i2 & ci & -> & H1 & H2 & Hc).
    eapply (hot_ints _ _ i1 i2 [MC_Operation (MO_CheckedI64 CK_Add) (int 2) (int 3) (int 4); MC_ConstantI64 (int 5) 0;
      MC_Operation (MO_I64CompareToBool01 RC_Gt) (int 4) (int 5) (bit 6)]); [done|done|done|done| |].
    + intros m e Hm He. apply test_raises; [done|]. left. destruct He as [He|(v & He1 & He2)]; [by apply ev_two_left|by eapply ev_two_right].
    + intros x y values converts before close E1 E2 [Hx Hy Hfresh Howned] Hb. wp_next.
      destruct (checked_i64 CK_Add x y) as [z|] eqn:Ez; [|missed]. apply checked_value in Ez as ->. repeat wp_next.
      eapply (wp_finish_branch _ _ RT_OriginalCfg RT_OriginalCfg region); [look|owns_only|].
      apply bool_tested; [|done|done]. apply (int_compared RC_Gt); [by apply int_sum|by apply constant_int].
  - destruct Hi as (id & i1 & ci & Ei & H1 & Hc). destruct s as [src value c left compare]. cbn in Hop, H1, Hc.
    rewrite <- (compare_kind_of _ _ Hop) in Ei. subst i. destruct left; cbn [cch_constant_on_left with_constant].
    + eapply (hot_int _ i1 [MC_ConstantI64 (int 2) c; MC_Operation (MO_I64CompareToBool01 (compare_of op)) (int 2) (int 1) (bit 3)]); [done|done|done| |].
      * intros m e Hm He. apply test_raises; [done|]. right. eexists. split; [apply Hc, law_int|done].
      * intros x values converts before close E1 Hx Hfresh Howned Hb. repeat wp_next.
        eapply (wp_finish_branch _ _ RT_OriginalCfg RT_OriginalCfg region); [look|owns_only|]. apply bool_tested; [apply int_compared; auto using constant_int|done|done].
    + eapply (hot_int _ i1 [MC_ConstantI64 (int 2) c; MC_Operation (MO_I64CompareToBool01 (compare_of op)) (int 1) (int 2) (bit 3)]); [done|done|done| |].
      * intros m e Hm He. apply test_raises; [done|]. by left.
      * intros x values converts before close E1 Hx Hfresh Howned Hb. repeat wp_next.
        eapply (wp_finish_branch _ _ RT_OriginalCfg RT_OriginalCfg region); [look|owns_only|]. apply bool_tested; [apply int_compared; auto using constant_int|done|done].
  - destruct Hi as (id & i1 & i2 & Ei & H1 & H2). rewrite <- (compare_kind_of _ _ Hop) in Ei. subst i.
    eapply (hot_ints _ _ i1 i2 [MC_Operation (MO_I64CompareToBool01 (compare_of op)) (int 2) (int 3) (bit 4)]); [done|done|done|done| |].
    + intros m e Hm He. by apply test_raises.
    + intros x y values converts before close E1 E2 [Hx Hy Hfresh Howned] Hb. repeat wp_next.
      eapply (wp_finish_branch _ _ RT_OriginalCfg RT_OriginalCfg region); [look|owns_only|]. apply bool_tested; [apply int_compared; auto using constant_int|done|done].
  - destruct Hi as (id & i1 & i2 & Ei & H1 & H2). rewrite <- (compare_kind_of _ _ Hop) in Ei. subst i. destruct Hstr as [N1 N2].
    eapply (hot_objects _ _ i1 i2 [MC_Operation (MO_PyObjectRichCompareBool (compare_of op)) (obj 0) (obj 1) (bit 2)]); [done|done|done|done|done|done| |].
    + intros m e Hm He. by apply test_raises.
    + intros a b converts before close E1 E2 Hb. wp_next.
      destruct (exact_unicode a) as [u|] eqn:Ea; [|missed]. destruct (exact_unicode b) as [v|] eqn:Eb; [|missed]. wp_next.
      eapply (wp_finish_branch _ _ RT_OriginalCfg RT_OriginalCfg region); [look|owns_only|]. apply bool_tested; [by apply str_compared|done|done].
Qed.
Lemma machine_hot op spec values converts skipped code (Q : Machine -> Flow Values -> Prop) m x y :
  binary_return_alternative_spec op = Some spec -> has_ints values x y -> Q m Miss ->
  wp (run_code true converts skipped (<[int 4 := MV_I64 (number_value (number_of op) x y)]> values) code) Q m ->
  wp (run_code true converts skipped values (MC_Operation (machine_of op) (int 2) (int 3) (int 4) :: code)) Q m.
Proof.
  intros Hop [Hx Hy Hfresh Howned] Hm Hn. destruct op; try done; cbn [machine_of]; wp_next; try done.
  all: match goal with |- match ?r with _ => _ end => destruct r eqn:Ez; [|done] end.
  all: apply checked_value in Ez as ->; exact Hn.
Qed.
Lemma hot_return op s i w region :
  shape_of_op op s -> branch_shape s = false -> expresses op s i -> strings_ready s ->
  wp (values ← hot_run s op ∅ w; finish_return (hot_exit s) region values) (or_miss w (returns_as i w)) (mkMachine w []).
Proof.
  intros Hop Hs Hi Hstr. apply wp_bind. destruct s as [s|s|s|s|s|s|s]; try done; cbn in Hop, Hi; destruct Hi as (id & i1 & i2 & Ei & H1 & H2).
  - rewrite <- (compare_kind_of _ _ Hop) in Ei. subst i.
    eapply (hot_ints _ _ i1 i2 [MC_Operation (MO_I64CompareToBool01 (compare_of op)) (int 2) (int 3) (bit 4); MC_Materialize MK_PythonBool (bit 4) (imm 5)]);
      [done|done|done|done|intros m e Hm He; by apply return_raises|].
    intros x y values converts before close E1 E2 [Hx Hy Hfresh Howned] Hb. repeat wp_next.
    eapply (wp_finish_return _ _ region); [look|by right|owns_only|]. split; [by apply int_compared|done].
  - rewrite <- (compare_kind_of _ _ Hop) in Ei. subst i. destruct Hstr as [N1 N2].
    eapply (hot_objects _ _ i1 i2 [MC_Operation (MO_PyObjectRichCompareBool (compare_of op)) (obj 0) (obj 1) (bit 2); MC_Materialize MK_PythonBool (bit 2) (imm 3)]);
      [done|done|done|done|done|done|intros m e Hm He; by apply return_raises|].
    intros a b converts before close E1 E2 Hb. wp_next.
    destruct (exact_unicode a) as [u|] eqn:Ea; [|missed]. destruct (exact_unicode b) as [v|] eqn:Eb; [|missed]. repeat wp_next.
    eapply (wp_finish_return _ _ region); [look|by right|owns_only|]. split; [by apply str_compared|done].
  - rewrite <- (number_kind_of _ _ Hop) in Ei. subst i.
    eapply (hot_ints _ _ i1 i2 [MC_Operation (machine_of op) (int 2) (int 3) (int 4); MC_Materialize MK_PythonLong (int 4) (own 5)]);
      [done|done|by destruct op|done|intros m e Hm He; by apply return_raises|].
    intros x y values converts before close E1 E2 Hints Hb. eapply machine_hot; [exact Hop|exact Hints|missed|]. destruct Hints as [Hx Hy Hfresh Howned].
    eapply wp_materialize_long; [set_solver|look|reflexivity|look|].
    destruct (py_long_from_i64 _ w) as [w' [o|e]] eqn:Eb; [|right; exists w; split; [by left|by eexists]]. apply law_box in Eb as [-> Ho]. wp_next.
    eapply (wp_finish_return _ _ region); [look|by left|owns_only|]. split; [by eapply int_number|].
    cbn. rewrite <- app_assoc. apply balanced_around; [done|perm].
Qed.
(** The truth of a comparison, without the object. *)
Definition compare_return (s : PlannedShape) : bool := match s with PS_IntCompareReturn _ | PS_StrCompareReturn _ => true | _ => false end.
Definition finish_truth (exit : MechanicalExitKind) (region : RegionId) (code : list MechanicalCodegenStep) (values : Values) : Run bool :=
  value ← match exit with ME_Return value => mret value | _ => fails (CE_Exit region) end;
  match materialized_bool code value with Some input => i32_bool01_value values input | None => fails (CE_MissingValue value) end.
Lemma wp_finish_truth values key input code region b (Q : Machine -> Flow bool -> Prop) m :
  materialized_bool code key = Some input -> values !! input = Some (MV_I32Bool01 b) -> Q m (Next b) ->
  wp (finish_truth (ME_Return key) region code values) Q m.
Proof. intros Hc Hv H. unfold finish_truth, wp, mbind, run_bind. cbn. rewrite Hc. unfold i32_bool01_value. by rewrite Hv. Qed.
Lemma hot_truth op s i w region value :
  shape_of_op op s -> compare_return s = true -> hot_exit s = ME_Return value -> expresses op s i -> strings_ready s ->
  wp (values ← hot_run s op {[value]} w; finish_truth (hot_exit s) region (hot_code op s) values) (or_miss w (tests_as i w)) (mkMachine w []).
Proof.
  intros Hop Hs Hv Hi Hstr. apply wp_bind. destruct s as [s|s|s|s|s|s|s]; try done; cbn in Hop, Hi, Hv; injection Hv as <-; destruct Hi as (id & i1 & i2 & Ei & H1 & H2);
    rewrite <- (compare_kind_of _ _ Hop) in Ei; subst i.
  - eapply (hot_ints _ _ i1 i2 [MC_Operation (MO_I64CompareToBool01 (compare_of op)) (int 2) (int 3) (bit 4); MC_Materialize MK_PythonBool (bit 4) (imm 5)]);
      [done|done|done|done|intros m e Hm He; by apply test_raises|].
    intros x y values converts before close E1 E2 [Hx Hy Hfresh Howned] Hb. wp_next. apply wp_skipped; [set_solver|]. wp_next.
    eapply (wp_finish_truth _ _ _ _ region); [reflexivity|look|]. apply bool_tested; [apply int_compared; auto using constant_int|done|done].
  - destruct Hstr as [N1 N2].
    eapply (hot_objects _ _ i1 i2 [MC_Operation (MO_PyObjectRichCompareBool (compare_of op)) (obj 0) (obj 1) (bit 2); MC_Materialize MK_PythonBool (bit 2) (imm 3)]);
      [done|done|done|done|done|done|intros m e Hm He; by apply test_raises|].
    intros a b converts before close E1 E2 Hb. wp_next.
    destruct (exact_unicode a) as [u|] eqn:Ea; [|missed]. destruct (exact_unicode b) as [v|] eqn:Eb; [|missed]. apply wp_skipped; [set_solver|]. wp_next.
    eapply (wp_finish_truth _ _ _ _ region); [reflexivity|look|]. apply bool_tested; [by apply str_compared|done|done].
Qed.

(** *** The general path *)

Notation general_run s op := (run_coded false (fallback_loads (shape_sources s)) (fallback_code op s) ∅).
Ltac exhausted := intros w0 w' refs' e Hw0 Hf'; right; exists w0; split; [exact Hw0|exact Hf'].
Ltac raised := intros w' refs' e He Hb'; left; split; [first [by apply ev_one_raise|exact He]|rewrite ?app_nil_r; exact Hb'].

(** The sum compared with zero, once there is a sum. *)
Lemma general_gt_zero id sum ci w w1 refs o values region :
  ev w sum w1 (Ok o) -> constant_operand ci 0 -> balanced refs [o] -> holds_result values (own 20) o 20 ->
  let i := mkInstr id (Op_BinOp Gt) [sum; ci] in
  wp (run_code false ∅ ∅ values
       [MC_ConstantI64 (int 21) 0; MC_Materialize MK_PythonLong (int 21) (own 22);
        MC_Operation (MO_PyObjectRichCompare RC_Gt) (own 20) (own 22) (own 23); truth (own 23) (bit 24)])
    (fun m => after (tests_as i w) (fun values => wp (finish_branch (ME_Branch (bit 24) RT_OriginalCfg RT_OriginalCfg) region values) (tests_as i w)) (log [] m))
    (mkMachine w1 refs).
Proof.
  intros Hs Hc Hb [Hv Hf Ho] i. wp_next. eapply wp_materialize_long; [set_solver|look|reflexivity|look|].
  destruct (py_long_from_i64 0 w1) as [w2 [zero|e]] eqn:Eb.
  2: { right. exists w1. split; [|by exists 0]. eapply reached_after; [|exact Hs]. left. }
  apply law_box in Eb as [-> Hz]. apply (Hc w1) in Hz. eapply wp_python; [intros; reflexivity|look|look|other_key|reflexivity|look|]. cbn [rev app map owned_operands omap list_omap].
  destruct (py_rich_compare RC_Gt o zero w1) as [w2 [r|e]] eqn:Er; apply law_compare in Er.
  - eapply general_truth with (bound := 23); [eapply ev_two; [exact Hs|exact Hz|exact Er]| | |lia|lia].
    + rewrite <- app_assoc. eapply balanced_extend; [exact Hb|perm].
    + split; [look| |owns_only]. intros k rep Hk. unfold without.
      repeat first [rewrite lookup_insert_ne by (unfold plan_value_new; intros [=]; lia)|rewrite lookup_delete_ne by (unfold plan_value_new; intros [=]; lia)]. apply Hf. lia.
  - left. split; [apply ev_one_raise; eapply ev_two; [exact Hs|exact Hz|exact Er]|]. cbn.
    rewrite ?app_nil_r, <- ?app_assoc. eapply balanced_extend; [exact Hb|perm].
Qed.
Lemma general_branch op s i w region refs :
  shape_of_op op s -> branch_shape s = true -> expresses op s i -> balanced refs [] ->
  wp (values ← general_run s op; finish_branch (fallback_exit s) region values) (tests_as i w) (mkMachine w refs).
Proof.
  intros Hop Hs Hi Hb. apply wp_bind. destruct s as [s|s|s|s|s|s|s]; try done; cbn in Hop, Hi.
  - destruct Hi as (id & id' & i1 & i2 & ci & -> & H1 & H2 & Hc).
    eapply (fallback_call _ _ i1 i2 id' (number_kind NB_Add)); [done|done|intros *; apply law_number|done|done| | |].
    + intros w0 w' refs' e Hw0 Hf'. right. exists w0. split; [|done]. eapply reached_child; [left|exact Hw0].
    + intros w' refs' e He Hb'. left. split; [by apply ev_one_raise, ev_two_left|done].
    + intros w' refs' o values He Hb' Hv. by eapply general_gt_zero.
  - destruct Hi as (id & i1 & ci & Ei & H1 & Hc). destruct s as [src value c left compare]. cbn in Hop, H1, Hc.
    rewrite <- (compare_kind_of _ _ Hop) in Ei. subst i. destruct left; cbn [cch_constant_on_left with_constant].
    + eapply (fallback_constant value i1 ci c true id); [done|done|done|exhausted|raised|].
      intros w' refs' o values He Hb' Hv. by eapply general_truth.
    + eapply (fallback_constant value i1 ci c false id); [done|done|done|exhausted|raised|].
      intros w' refs' o values He Hb' Hv. by eapply general_truth.
  - destruct Hi as (id & i1 & i2 & Ei & H1 & H2). rewrite <- (compare_kind_of _ _ Hop) in Ei. subst i.
    eapply (fallback_call _ _ i1 i2 id); [done|done|intros *; apply law_compare|done|done|exhausted|raised|].
    intros w' refs' o values He Hb' Hv. by eapply general_truth.
  - destruct Hi as (id & i1 & i2 & Ei & H1 & H2). rewrite <- (compare_kind_of _ _ Hop) in Ei. subst i.
    eapply (fallback_call _ _ i1 i2 id); [done|done|intros *; apply law_compare|done|done|exhausted|raised|].
    intros w' refs' o values He Hb' Hv. by eapply general_truth.
Qed.
Lemma general_call op s i w (Q : Machine -> Flow Values -> Prop) refs :
  shape_of_op op s -> branch_shape s = false -> expresses op s i -> balanced refs [] -> (forall w0 w' refs' e, reached i w w0 -> box_fails w0 w' e -> Q (mkMachine w' refs') (Raised e)) ->
  (forall w' refs' e, ev w i w' (Err e) -> balanced refs' [] -> Q (mkMachine w' refs') (Raised e)) ->
  (forall w' refs' o values, ev w i w' (Ok o) -> balanced refs' [o] -> holds_result values (own 20) o 20 ->
     wp (run_code false ∅ ∅ values []) (fun m => Q (log [] m)) (mkMachine w' refs')) ->
  wp (general_run s op) Q (mkMachine w refs).
Proof.
  intros Hop Hs Hi Hb Qb Qr Qn. destruct s as [s|s|s|s|s|s|s]; try done; cbn in Hop, Hi; destruct Hi as (id & i1 & i2 & Ei & H1 & H2).
  1, 2: rewrite <- (compare_kind_of _ _ Hop) in Ei; subst i; eapply (fallback_call _ _ i1 i2 id); [done|done|intros *; apply law_compare|done|done|done|done|done].
  rewrite <- (number_kind_of _ _ Hop) in Ei. subst i. by eapply (fallback_call _ _ i1 i2 id); [done|done|intros *; apply law_number|done..].
Qed.
(** What is asked for when the object of a comparison is only tested. *)
Definition finish_object (exit : MechanicalExitKind) (region : RegionId) (values : Values) : Run bool :=
  '(_, (o, owned)) ← match exit with
    | ME_Return value =>
        '(o, owned) ← pyobject_value values value;
        match pv_rep value, owned with
        | PyObjectOwned, true | PyObjectImmortal, _ => mret (value, (o, owned : bool))
        | _, _ => fails (CE_Ownership value)
        end
    | _ => fails (CE_Exit region)
    end;
  truthy_from_pyobject_value o owned.
Lemma general_return_shape op s i w region refs :
  shape_of_op op s -> branch_shape s = false -> expresses op s i -> balanced refs [] ->
  wp (values ← general_run s op; finish_return (fallback_exit s) region values) (returns_as i w) (mkMachine w refs).
Proof.
  intros Hop Hs Hi Hb. apply wp_bind. eapply general_call; [exact Hop|exact Hs|exact Hi|done|exhausted|raised|].
  intros w' refs' o values He Hb' Hv. by destruct s; try done; eapply general_return.
Qed.
Lemma general_truth_shape op s i w region refs :
  shape_of_op op s -> branch_shape s = false -> expresses op s i -> balanced refs [] ->
  wp (values ← general_run s op; finish_object (fallback_exit s) region values) (tests_as i w) (mkMachine w refs).
Proof.
  intros Hop Hs Hi Hb. apply wp_bind. eapply general_call; [exact Hop|exact Hs|exact Hi|done|exhausted|raised|].
  intros w' refs' o values He Hb' [Hv Hf Ho]. apply wp_done.
  assert (fallback_exit s = ME_Return (own 20)) as -> by (by destruct s).
  unfold after, finish_object, wp, mbind, run_bind, pyobject_value, mbind, run_bind. cbn. rewrite Hv. cbn. unfold truthy_from_pyobject_value. cbn. rewrite app_nil_r.
  destruct (py_is_true o w') as [w2 [b|x]] eqn:E; apply law_truth in E; cbn.
  - split; [exists (py_bool (World := World) b); split; [by eapply ev_one|exact (law_holds (constants := constants) b)]|]. eapply balanced_extend; [exact Hb'|perm].
  - left. split; [by eapply ev_one|]. eapply balanced_extend; [exact Hb'|perm].
Qed.

(** ** A region and its fallback *)

Lemma shape_scalars_wanted op s : strings_ready s -> scalars_wanted (World := World) (Obj := Obj) (hot_code op s) (shape_sources s).
Proof.
  intros strings k source Hk. destruct s as [x|x|x|x|x|x|x]; destruct k as [|[|]]; try discriminate Hk; injection Hk as <-.
  all: try destruct strings as [N1 N2]; unfold scalar_wanted, not_scalar in *.
  all: match goal with |- match ?source with _ => _ end => destruct source; [|done..] end.
  all: first [by right|left; cbn; try destruct (cch_constant_on_left _); vm_compute; discriminate].
Qed.
Lemma fallback_converts op s k : convert_outputs (fallback_code op s) (obj k) = [].
Proof. destruct s; try done. cbn. by destruct (cch_constant_on_left _). Qed.

Section selection.
Context (op : BinOpKind) (s : PlannedShape) (hot fb : RegionPlan) (i : InstrBlockPy) (w : World).
Hypothesis known_op : shape_of_op op s.
Hypothesis hot_coded : coded true (imap hot_input (shape_sources s)) (hot_code op s) (hot_exit s) hot.
Hypothesis fb_coded : coded false (imap fallback_input (shape_sources s)) (fallback_code op s) (fallback_exit s) fb.
Hypothesis ready : sources_ready (World := World) (Obj := Obj) (shape_sources s).
Hypothesis expressed : expresses op s i.
Hypothesis strings : strings_ready s.
Notation selection := (mkSelection hot (emit_region hot) fb (emit_region fb)).

Lemma coded_exit {fallback inputs code exit plan} :
  coded fallback inputs code exit plan -> region_exit (World := World) (Obj := Obj) (emit_region plan) = mret exit.
Proof. intros [_ _ E _ _]. unfold region_exit. destruct (me_exits (emit_region plan)) as [|x [|]]; try done. by injection E as ->. Qed.
Lemma wp_equal {A} (r r' : Run A) Q m : r m = r' m -> wp r' Q m -> wp r Q m.
Proof. unfold wp. by intros ->. Qed.

Lemma hot_starts {A} skipped (k k' : Values -> Run A) Q refs :
  (forall values m, k values m = k' values m) ->
  wp (values ← hot_run s op skipped w; k' values) Q (mkMachine w refs) ->
  wp (values ← run_region hot (emit_region hot) true skipped; k values) Q (mkMachine w refs).
Proof.
  intros Hk. apply wp_equal, bind_eq; [|done]. eapply hot_region_runs; [exact hot_coded|exact ready|by apply shape_scalars_wanted].
Qed.
Lemma general_starts {A} (k k' : Values -> Run A) Q m :
  (forall values m, k values m = k' values m) ->
  wp (values ← general_run s op; k' values) Q m -> wp (values ← run_region fb (emit_region fb) false ∅; k values) Q m.
Proof.
  intros Hk. apply wp_equal, bind_eq; [|done]. eapply fallback_region_runs; [exact fb_coded|exact ready|apply fallback_converts].
Qed.
(** The code leaves the guarded path only before it did anything. *)
Lemma wp_select {A} (a b : Run A) (P : Machine -> Flow A -> Prop) :
  wp a (or_miss w P) (mkMachine w []) -> (forall refs, balanced refs [] -> wp b P (mkMachine w refs)) ->
  wp (hot_or_fallback a b) P (mkMachine w []).
Proof.
  intros Ha Hb. apply wp_fallback. eapply wp_mono; [|exact Ha]. intros [w' refs] [x| |e]; cbn; [done| |done].
  intros [E Hr]. cbn in E, Hr. subst w'. by apply Hb.
Qed.

Lemma branch_code : branch_shape s = true -> wp (emit_exact_int_branch_selection selection) (tests_as i w) (mkMachine w []).
Proof.
  intros Hs. unfold emit_exact_int_branch_selection. cbn [sel_hot_plan sel_hot_region sel_fallback_plan sel_fallback_region]. apply wp_select.
  - eapply hot_starts; [|by apply (hot_branch op s i w (rg_id hot))]. intros values m. unfold region_branch_condition, finish_branch. by rewrite (coded_exit hot_coded).
  - intros refs Hr. eapply general_starts; [|by apply (general_branch op s i w (rg_id fb))]. intros values m. unfold region_branch_condition, finish_branch. by rewrite (coded_exit fb_coded).
Qed.
Lemma return_code : branch_shape s = false -> wp (emit_exact_int_return_selection selection) (returns_as i w) (mkMachine w []).
Proof.
  intros Hs. unfold emit_exact_int_return_selection. cbn [sel_hot_plan sel_hot_region sel_fallback_plan sel_fallback_region].
  assert (forall exit, exit = hot_exit s \/ exit = fallback_exit s -> exists v, exit = ME_Return v) as He.
  { intros exit [->| ->]; destruct s; try done; eauto. }
  apply wp_select.
  - eapply hot_starts; [|by apply (hot_return op s i w (rg_id hot))]. intros values m. unfold region_return_pyobject, region_return_value, finish_return.
    rewrite (coded_exit hot_coded). by destruct (He (hot_exit s)) as [v ->]; [left|].
  - intros refs Hr. eapply general_starts; [|by apply (general_return_shape op s i w (rg_id fb))].
    intros values m. unfold region_return_pyobject, region_return_value, finish_return.
    rewrite (coded_exit fb_coded). by destruct (He (fallback_exit s)) as [v ->]; [right|].
Qed.
Lemma truth_code : compare_return s = true -> wp (emit_exact_int_return_i32_bool01_selection selection) (tests_as i w) (mkMachine w []).
Proof.
  intros Hs. assert (branch_shape s = false) as Hs' by (by destruct s).
  assert (exists v, hot_exit s = ME_Return v) as [v Ev] by (destruct s; try done; eauto).
  assert (exists v, fallback_exit s = ME_Return v) as [v' Ev'] by (destruct s; try done; eauto).
  unfold emit_exact_int_return_i32_bool01_selection. cbn [sel_hot_plan sel_hot_region sel_fallback_plan sel_fallback_region]. apply wp_select.
  - apply wp_bind. unfold region_return_value. rewrite (coded_exit hot_coded), Ev. cbn.
    eapply hot_starts; [|by apply (hot_truth op s i w (rg_id hot) v)]. intros values m. unfold region_return_materialized_i32_bool01, region_return_value, finish_truth.
    rewrite (coded_exit hot_coded), Ev. unfold mbind, run_bind, mret, run_ret. by rewrite (cd_bool _ _ _ _ _ hot_coded _ Ev).
  - intros refs Hr. eapply general_starts; [|by apply (general_truth_shape op s i w (rg_id fb))].
    intros values m. unfold region_return_pyobject, region_return_value, finish_object. by rewrite (coded_exit fb_coded), Ev'.
Qed.
End selection.

(** ** Expressions *)

Section expression.
Context (evidence : FunctionProfileEvidence) (fields : FieldLoads) (globals : GlobalLoads).
Notation named := (Forall (attributes_named fields)).
Notation availables := (Forall (available (World := World) (Obj := Obj))).

Lemma constant_operand_of i c : constant_of constants i = Some c -> constant_operand i c.
Proof.
  intros H w o Ho. destruct i as [id op children]. destruct op; try done. destruct children; [|done]. cbn in H.
  destruct (rn_location name) eqn:E; try done. cbn in H. by eapply ev_load, law_load_integer.
Qed.
Lemma named_two id op i1 i2 : named (instrs_pre (mkInstr id op [i1; i2])) -> named (instrs_pre i1) /\ named (instrs_pre i2).
Proof. cbn. rewrite Forall_cons, app_nil_r. by intros [_ [H1 H2]%Forall_app]. Qed.
Lemma named_operand allow i source :
  input_of fields globals allow i = Some source -> named (instrs_pre i) -> available (World := World) (Obj := Obj) source -> operand source i.
Proof. intros Hi Hn. eapply input_operand; [exact Hi|]. destruct i. by apply Forall_cons in Hn as [Hn _]. Qed.

Lemma compare_expressed branch tag id op i1 i2 s :
  source_compare evidence fields globals branch tag id op i1 i2 = Some s -> named (instrs_pre i1) -> named (instrs_pre i2) ->
  availables [csh_left s; csh_right s] ->
  compare_alternative_spec op = Some (csh_compare s) /\ operand (csh_left s) i1 /\ operand (csh_right s) i2.
Proof.
  unfold source_compare. intros H N1 N2 Ha. destruct (profiled evidence id _); [|by simplify_option_eq]. simplify_option_eq. apply Forall_cons in Ha as [A1 Ha]. apply Forall_cons in Ha as [A2 _].
  cbn in *. split_and!; [done|by eapply named_operand..].
Qed.
Lemma return_expressed id op i1 i2 s :
  source_return evidence fields globals id op i1 i2 = Some s -> named (instrs_pre i1) -> named (instrs_pre i2) ->
  availables [irs_left s; irs_right s] ->
  binary_return_alternative_spec op = Some (irs_operation s) /\ operand (irs_left s) i1 /\ operand (irs_right s) i2.
Proof.
  unfold source_return. intros H N1 N2 Ha. destruct (profiled evidence id _); [|by simplify_option_eq]. simplify_option_eq. apply Forall_cons in Ha as [A1 Ha]. apply Forall_cons in Ha as [A2 _].
  cbn in *. split_and!; [done|by eapply named_operand..].
Qed.
Lemma constant_expressed id op i1 i2 s :
  source_constant evidence constants fields globals id op i1 i2 = Some s -> named (instrs_pre i1) -> named (instrs_pre i2) ->
  available (World := World) (Obj := Obj) (cch_value s) ->
  shape_of_op op (PS_CompareConstant s) /\ expresses op (PS_CompareConstant s) (mkInstr id (Op_BinOp op) [i1; i2]).
Proof.
  unfold source_constant. intros H N1 N2 Ha. destruct (compare_alternative_spec op) as [spec|] eqn:E; [|done]. cbn in H. destruct (profiled evidence id Tag_Int); [|done].
  destruct (constant_of constants i2) as [c|] eqn:E2; simplify_option_eq; cbn in *; (split; [done|]).
  - exists id, i1, i2. split_and!; [done|by eapply named_operand|by apply constant_operand_of].
  - exists id, i2, i1. split_and!; [done|by eapply named_operand|by apply constant_operand_of].
Qed.
Lemma add_expressed id op i1 i2 s :
  source_add_gt_zero evidence constants fields globals id op i1 i2 = Some s -> named (instrs_pre i1) -> availables [ibs_left s; ibs_right s] ->
  op = Gt /\ expresses op (PS_AddGtZero s) (mkInstr id (Op_BinOp op) [i1; i2]).
Proof.
  unfold source_add_gt_zero. intros H N Ha. destruct op; try done. destruct (constant_of constants i2) as [z|] eqn:Ez; [|done].
  destruct i1 as [id' sum children]. destruct sum; try done. destruct kind; try done. destruct children as [|j1 [|j2 [|]]]; try done.
  destruct (Z.eqb_spec z 0) as [->|]; [|done]. cbn [andb] in H. case_match; [|done]. simplify_option_eq.
  apply Forall_cons in Ha as [A1 Ha]. apply Forall_cons in Ha as [A2 _]. apply named_two in N as [N1 N2].
  split; [done|]. exists id, id', j1, j2, i2. cbn in *. split_and!; [done|by eapply named_operand..|by apply constant_operand_of].
Qed.
Lemma or_else_some {A} (a b : option A) x : or_else a b = Some x -> a = Some x \/ b = Some x.
Proof. destruct a; auto. Qed.
(** The expression a shape was read off is the one it stands for. *)
Lemma shape_expressed branch i s :
  expression_shape evidence constants fields globals branch i = Some s -> named (instrs_pre i) -> availables (shape_sources s) ->
  branch_shape s = branch /\ exists op, shape_of_op op s /\ expresses op s i.
Proof.
  intros H N Ha. destruct i as [id op children]. destruct op; try done. destruct children as [|i1 [|i2 [|]]]; try done.
  apply named_two in N as [N1 N2]. cbn in H. destruct branch; repeat (apply or_else_some in H as [H|H]).
  all: apply fmap_Some in H as (x & H & ->); (split; [done|]); exists kind; cbn [shape_of_op shape_sources] in *.
  - by eapply add_expressed.
  - apply Forall_cons in Ha as [Ha _]. by eapply constant_expressed.
  - destruct (compare_expressed _ _ _ _ _ _ _ H N1 N2 Ha) as (? & ? & ?). split; [done|]. by exists id, i1, i2.
  - destruct (compare_expressed _ _ _ _ _ _ _ H N1 N2 Ha) as (? & ? & ?). split; [done|]. by exists id, i1, i2.
  - destruct (compare_expressed _ _ _ _ _ _ _ H N1 N2 Ha) as (? & ? & ?). split; [done|]. by exists id, i1, i2.
  - destruct (compare_expressed _ _ _ _ _ _ _ H N1 N2 Ha) as (? & ? & ?). split; [done|]. by exists id, i1, i2.
  - destruct (return_expressed _ _ _ _ _ H N1 N2 Ha) as (? & ? & ?). split; [done|]. by exists id, i1, i2.
Qed.
End expression.

(** ** Regions of a function *)

(** The way out of a region, and what the code around it comes to own. *)
Definition flow_exit {A} (next : A -> Exit * list Obj) (flow : Flow A) : option (Exit (Value := Obj) * list Obj) :=
  match flow with Next a => Some (next a) | Raised e => Some (Raises e, []) | Miss => None end.
(** The code of a terminator [if], of a return and of the value of a store. *)
Definition run_source (b : Block InstrBlockPy) (instr : option InstrBlockPy) (s : ExactIntSelection) (m : Machine) :
    result CodegenError (Machine * option (Exit (Value := Obj) * list Obj)) :=
  match instr, blk_term b with
  | None, BT_If t =>
      match emit_exact_int_branch_selection s m with
      | Ok (m, flow) => Ok (m, flow_exit (fun truth : bool => (Goes (if truth then ti_then_label t else ti_else_label t), [])) flow)
      | Err e => Err e
      end
  | _, _ =>
      match emit_exact_int_return_selection s m with
      | Ok (m, flow) => Ok (m, flow_exit (fun '(o, owned) => (Returns o, if owned : bool then [o] else [])) flow)
      | Err e => Err e
      end
  end.
(** What the generator has of a region: its locals, as objects where strings are compared, the
    guards of its fields and the names of its attributes. *)
Record code_ready (fields : FieldLoads) (i : InstrBlockPy) (s : PlannedShape) : Prop := mkCodeReady {
  cr_available : Forall (available (World := World) (Obj := Obj)) (shape_sources s);
  cr_strings : strings_ready s;
  cr_attributes : Forall (attributes_named fields) (instrs_pre i)
}.

Lemma return_exits i b instr s w :
  branches b instr = false -> source_expression b instr = Some i -> wp (emit_exact_int_return_selection s) (returns_as i w) (mkMachine w []) ->
  exists m exit kept, run_source b instr s (mkMachine w []) = Ok (m, Some (exit, kept))
    /\ ((source_ev w b instr (m_world m) exit /\ balanced (m_refs m) kept) \/ exists e, exit = Raises e /\ out_of_memory i w m e).
Proof.
  intros Hb Hi H. unfold wp in H. destruct (emit_exact_int_return_selection s (mkMachine w [])) as [[m flow]|] eqn:E; [|done].
  assert (run_source b instr s (mkMachine w []) = Ok (m, flow_exit (fun '(o, owned) => (Returns o, if owned : bool then [o] else [])) flow)) as ->.
  { unfold run_source. destruct instr; [by rewrite E|]. cbn in Hb. destruct (blk_term b); first [done|by rewrite E]. }
  assert (forall exit, term_ev w (BT_Return i) (m_world m) exit -> source_ev w b instr (m_world m) exit) as Hs.
  { intros exit Ht. destruct instr as [j|]; cbn in *; [by exists i|]. destruct (blk_term b); try done. by injection Hi as ->. }
  destruct flow as [[o owned]| |e]; [destruct H as [H Hr]|done|destruct H as [[H Hr]|H]]; eexists _, _, _; (split; [reflexivity|]).
  - left. split; [by apply Hs, Term_Return|done].
  - left. split; [by apply Hs, Term_ReturnRaises|done].
  - right. by exists e.
Qed.
Lemma branch_exits i b instr s w :
  branches b instr = true -> source_expression b instr = Some i -> wp (emit_exact_int_branch_selection s) (tests_as i w) (mkMachine w []) ->
  exists m exit kept, run_source b instr s (mkMachine w []) = Ok (m, Some (exit, kept))
    /\ ((source_ev w b instr (m_world m) exit /\ balanced (m_refs m) kept) \/ exists e, exit = Raises e /\ out_of_memory i w m e).
Proof.
  intros Hb Hi H. destruct instr; [done|]. cbn in Hb, Hi. unfold run_source, source_ev. destruct (blk_term b) as [|t| | | |]; try done. injection Hi as <-.
  unfold wp in H. destruct (emit_exact_int_branch_selection s (mkMachine w [])) as [[m flow]|] eqn:E; [|done].
  destruct flow as [truth| |e]; [destruct H as [(r & H & <-) Hr]|done|destruct H as [[H Hr]|H]]; eexists _, _, _; (split; [reflexivity|]).
  - left. split; [apply (branch_truth None)|done]. left. by exists r.
  - left. split; [apply (branch_truth None)|done]. right. by exists e.
  - right. by exists e.
Qed.

Section function.
Context (f : BlockPyFunction InstrBlockPy) (evidence : FunctionProfileEvidence) (catalog : AlternativeCatalog) (fields : FieldLoads) (globals : GlobalLoads).
Hypothesis small_f : small f.
Hypothesis catalog_v3 : default_v3 = Some catalog.
Notation facts r := (planner_facts_from_profile_evidence_v3 r evidence (planner_fact_hints_from_module_constants_v3 r constants)).

(** The plan of a region, from the expression it is made of to the code. *)
Lemma region_coded k b instr a r i s :
  sources f !! k = Some (b, instr) -> extract_function_regions_v3 f !! k = Some a -> ra_result a = Ok r ->
  source_expression b instr = Some i -> planned_shape r (facts r) fields globals = Some s -> code_ready fields i s ->
  branch_shape s = branches b instr
  /\ exists op hot fb, plan_compact_int_branch catalog r (facts r) fields globals = Ok (Some [hot; fb])
       /\ shape_of_op op s /\ expresses op s i /\ sources_ready (World := World) (Obj := Obj) (shape_sources s)
       /\ coded true (imap hot_input (shape_sources s)) (hot_code op s) (hot_exit s) hot
       /\ coded false (imap fallback_input (shape_sources s)) (fallback_code op s) (fallback_exit s) fb.
Proof.
  intros Hk Ha Hr Hi Hs [Hav Hstr Hn]. destruct small_f as [_ Hsmall]. rewrite function_attempts, list_lookup_imap, Hk in Ha. injection Ha as <-. cbn in Hr.
  assert (expression_shape evidence constants fields globals (branches b instr) i = Some s) as He.
  { rewrite <- Hs. symmetry. eapply extract_planned; [exact Hr|exact Hi|]. eapply Hsmall; [|exact Hi]. by eapply list_elem_of_lookup_2. }
  destruct (shape_expressed _ _ _ _ _ _ He Hn Hav) as (Hb & op & Hop & Hex). split; [done|].
  destruct (shape_coded catalog (er_id r) s op catalog_v3 Hop) as (hot & fb & Hreg & Hhot & Hfb). exists op, hot, fb. split_and!; [|done..| |done|done].
  - rewrite plan_of_shape, Hs. cbn. by rewrite Hreg.
  - destruct (planned_shape_op _ _ _ _ _ Hs) as [_ Hres]. split; [done|done|]. destruct s; cbn; lia.
Qed.
End function.

(** ** A failed allocation *)

(** The general path has loaded its operand when it makes an object of the constant. *)
Lemma box_raises catalog id op s hot fb w w1 w2 o e :
  default_v3 = Some catalog -> compare_alternative_spec op = Some (cch_compare s) ->
  compact_int_compare_constant_branch_regions catalog id s = Ok [hot; fb] ->
  sources_ready (World := World) (Obj := Obj) [cch_value s] ->
  hot_load (World := World) (Obj := Obj) (cch_value s) w = HL_Miss -> fallback_kind (World := World) (Obj := Obj) (cch_value s) = (PyObjectOwned, true) ->
  fallback_load (cch_value s) w = (w1, Ok o) -> py_long_from_i64 (cch_constant s) w1 = (w2, Err e) ->
  wp (emit_exact_int_branch_selection (mkSelection hot (emit_region hot) fb (emit_region fb)))
    (fun m flow => m = mkMachine w2 [Acquired o] /\ flow = Raised e) (mkMachine w []).
Proof.
  intros Hcat Hop Hplan Hready Hmiss Hkind Hload Hbox.
  destruct (shape_coded catalog id (PS_CompareConstant s) op Hcat Hop) as (hot' & fb' & Hreg & Hhot & Hfb).
  cbn [shape_regions] in Hreg. rewrite Hplan in Hreg. injection Hreg as <- <-.
  apply wp_fallback. cbn [sel_hot_plan sel_hot_region sel_fallback_plan sel_fallback_region].
  eapply (hot_starts op (PS_CompareConstant s)); [done|done|done|reflexivity|].
  apply wp_bind, wp_coded. cbn [shape_sources hot_loads imap]. rewrite Hmiss. eapply wp_load_hot; [reflexivity|look|].
  eapply (general_starts op (PS_CompareConstant s)); [done|done|reflexivity|]. apply wp_bind, wp_coded. eapply wp_load_fallback; [exact Hkind|auto|look|].
  rewrite Hload. apply wp_loaded. cbn [after iv_values iv_preseeded_convert_inputs iv_preseeded_scalars iv_borrowed_input_owners]. rewrite preseeded_none.
  unfold fallback_code. destruct (cch_constant_on_left s); wp_next; eapply wp_materialize_long; [set_solver|look|reflexivity|look|by rewrite Hbox|set_solver|look|reflexivity|look|by rewrite Hbox].
Qed.
End refine.

(** C4: Generated code does what the source says.  For a store, a return or a branch of a function
    that the planner recognises, two regions are planned, the code made of them is generated
    without an error, and every run of it from any state is an execution of the source, with the
    operations in the same order in the same states, and leaves by the return, the branch or the
    exception the source does, [UnboundLocalError] for a local that is not bound included; then
    every reference the code took is released once, but for the one to the object that it hands
    over.  The one other way out is that an integer object cannot be made, in a state that the
    execution comes to: the code raises the exception of that allocation, and no claim is made
    of the references then.  So a guard that fails, an integer that is too large, a sum that
    overflows and a global or a field that is not where it was leave for the general path with
    nothing done.

    Asked of the runtime is [RegionLaws]: its functions perform the operations of the language
    and objects have the layout the guards read.  Asked of the code is [code_ready]: it has the
    locals that the region loads (as objects, bound or not, or as machine integers; not as
    integers where strings are compared or a field is read; not an abrupt kind that was not set),
    fields have guards that were recorded for them, and attribute names are constants of the
    module. *)
Theorem planned_code_refines {World Obj : Type} `{!JitRuntime World Obj} `{!Operations World Obj} {constants : list ConstantExpr}
    `{!RegionLaws World Obj constants} f evidence catalog fields globals :
  small f -> default_v3 = Some catalog -> forall k b instr a r i s,
  sources f !! k = Some (b, instr) -> extract_function_regions_v3 f !! k = Some a -> ra_result a = Ok r ->
  source_expression b instr = Some i ->
  let facts := planner_facts_from_profile_evidence_v3 r evidence (planner_fact_hints_from_module_constants_v3 r constants) in
  planned_shape r facts fields globals = Some s -> code_ready (World := World) (Obj := Obj) fields i s ->
  exists hot fallback, plan_compact_int_branch catalog r facts fields globals = Ok (Some [hot; fallback])
    /\ forall w : World, exists (m : Machine (Obj := Obj)) exit kept,
         run_source b instr (mkSelection hot (emit_region hot) fallback (emit_region fallback)) (mkMachine w []) = Ok (m, Some (exit, kept))
         /\ ((source_ev w b instr (m_world m) exit /\ balanced (m_refs m) kept) \/ exists e, exit = Raises e /\ out_of_memory i w m e).
Proof.
  intros Hsmall Hcat k b instr a r i s Hk Ha Hr Hi facts Hs Hready.
  destruct (region_coded f evidence catalog fields globals Hsmall Hcat k b instr a r i s Hk Ha Hr Hi Hs Hready)
    as (Hb & op & hot & fb & Hplan & Hop & Hex & Hsrc & Hhot & Hfb).
  exists hot, fb. split; [done|]. intros w. destruct (branches b instr) eqn:E.
  - eapply branch_exits; [done|done|]. by eapply branch_code; [..|apply Hready|].
  - eapply return_exits; [done|done|]. by eapply return_code; [..|apply Hready|].
Qed.

(** C28: A comparison whose result is only tested is never made an object of.  Under the conditions
    on the runtime and on the code of the theorem before ([RegionLaws], [code_ready]), the code for
    the truth of a recognised comparison, from any state, computes the truth value of the value of
    the expression or raises what its evaluation or its truth test raises, an unbound local
    included, and then keeps no reference, though the guarded path leaves out the boolean object;
    or an integer object cannot be made in a state that the evaluation comes to, and the code
    raises the exception of that allocation. *)
Theorem tested_code_refines {World Obj : Type} `{!JitRuntime World Obj} `{!Operations World Obj} {constants : list ConstantExpr}
    `{!RegionLaws World Obj constants} f evidence catalog fields globals :
  small f -> default_v3 = Some catalog -> forall k b instr a r i s,
  sources f !! k = Some (b, instr) -> extract_function_regions_v3 f !! k = Some a -> ra_result a = Ok r ->
  source_expression b instr = Some i ->
  let facts := planner_facts_from_profile_evidence_v3 r evidence (planner_fact_hints_from_module_constants_v3 r constants) in
  planned_shape r facts fields globals = Some s -> compare_return s = true -> code_ready (World := World) (Obj := Obj) fields i s ->
  exists hot fallback, plan_compact_int_branch catalog r facts fields globals = Ok (Some [hot; fallback])
    /\ forall w : World, exists (m : Machine (Obj := Obj)) flow,
         emit_exact_int_return_i32_bool01_selection (mkSelection hot (emit_region hot) fallback (emit_region fallback)) (mkMachine w []) = Ok (m, flow)
         /\ tests_as i w m flow.
Proof.
  intros Hsmall Hcat k b instr a r i s Hk Ha Hr Hi facts Hs Hret Hready.
  destruct (region_coded f evidence catalog fields globals Hsmall Hcat k b instr a r i s Hk Ha Hr Hi Hs Hready)
    as (Hb & op & hot & fb & Hplan & Hop & Hex & Hsrc & Hhot & Hfb).
  exists hot, fb. split; [done|]. intros w.
  assert (wp (emit_exact_int_return_i32_bool01_selection (mkSelection hot (emit_region hot) fb (emit_region fb))) (tests_as i w) (mkMachine w [])) as H
    by (by eapply truth_code; [..|apply Hready|]).
  unfold wp in H. destruct (emit_exact_int_return_i32_bool01_selection _ _) as [[m flow]|]; [|done]. by exists m, flow.
Qed.

(** C34: An allocation failure on the general path loses a reference.  When a global that the guarded
    path does not find is compared with a constant, and the object for the constant cannot be
    made, the code raises while it still owns the reference to the global that it loaded. *)
Theorem boxing_failure_leaks {World Obj : Type} `{!JitRuntime World Obj} catalog id op source global module name index c left spec hot fallback
    (w w1 w2 : World) (o e : Obj) :
  default_v3 = Some catalog -> compare_alternative_spec op = Some spec ->
  compact_int_compare_constant_branch_regions catalog id (mkCompareConstantShape source (IS_IndexedGlobal global module name index) c left spec)
    = Ok [hot; fallback] ->
  probe_global name index w = None -> load_global name index w = (w1, Ok o) -> py_long_from_i64 c w1 = (w2, Err e) ->
  emit_exact_int_branch_selection (mkSelection hot (emit_region hot) fallback (emit_region fallback)) (mkMachine w [])
    = Ok (mkMachine w2 [Acquired o], Raised e)
  /\ ~ balanced [Acquired o] [].
Proof.
  intros Hcat Hop Hplan Hprobe Hload Hbox. split; [|intros H; by apply Permutation_length in H].
  assert (wp (emit_exact_int_branch_selection (mkSelection hot (emit_region hot) fallback (emit_region fallback)))
    (fun m flow => m = mkMachine w2 [Acquired o] /\ flow = Raised e) (mkMachine w [])) as H.
  { eapply (box_raises catalog id op (mkCompareConstantShape source (IS_IndexedGlobal global module name index) c left spec)); [exact Hcat|exact Hop|exact Hplan|split; [by repeat constructor..|cbn; lia]| |reflexivity|exact Hload|exact Hbox].
    cbn. by rewrite Hprobe. }
  unfold wp in H. destruct (emit_exact_int_branch_selection _ _) as [[m flow]|]; [|done]. by destruct H as [-> ->].
Qed.

(** ** Examples

    A runtime with integers, strings and booleans, where locals are [t], [a] and [b]. *)

Module DemoCode.
Inductive Object : Type := O_Int (z : Z) | O_Str (s : string) | O_Bool (b : bool) | O_TypeError | O_NameError.
#[global] Instance Object_eq_dec : EqDecision Object.
Proof. solve_decision. Defined.
(** [u] is a local that is not bound. *)
Definition local_value (name : string) : option (LocalValue Object) :=
  if bool_decide (name = "t") then Some (LV_PyObject (O_Int (2 ^ 40)))
  else if bool_decide (name = "a") then Some (LV_Checked (Some (O_Int 3)) false)
  else if bool_decide (name = "b") then Some (LV_I64 4)
  else if bool_decide (name = "u") then Some (LV_Checked None false)
  else None.
Definition name_value (name : string) : result Object Object :=
  match local_value name with
  | Some (LV_PyObject o | LV_Checked (Some o) _) => Ok o
  | Some (LV_I64 z) => Ok (O_Int z)
  | Some (LV_I32Bool01 b) => Ok (O_Bool b)
  | _ => Err O_NameError
  end.
(** The module has a global [x], in slot 0. *)
Definition names : RawPyDictKeys Object := mkRawKeys 3 1 (fun index => if index =? 0 then Some (O_Str "x") else None).
Definition globals : RawPyDict Object :=
  mkRawDict (Some names) 0 (Some (mkRawIndexed 1 (Some names) (fun index => if index =? 0 then SV_Object (O_Int 5) else SV_Null))).
Definition global_value (name : string) : result Object Object := if bool_decide (name = "x") then Ok (O_Int 5) else Err O_NameError.
(** Integers of up to one digit have the size in the tag. *)
Definition long_layout (z : Z) : RawPyLong :=
  if Z.abs z <? 2 ^ 30 then mkRawLong (if z =? 0 then 1 else if z <? 0 then 10 else 8) (Z.abs z) else mkRawLong 16 0.
Definition codes (s : string) : list Z := map (fun c => Z.of_nat (Ascii.nat_of_ascii c)) (String.list_ascii_of_string s).
Definition constant_value (index : Z) : Object :=
  match module_i64_constant DemoMatch.constants index with Some z => O_Int z | None => O_TypeError end.
Definition number (op : NumberOp) (a b : Object) : result Object Object :=
  match a, b with O_Int x, O_Int y => Ok (O_Int (number_value op x y)) | _, _ => Err O_TypeError end.
Definition compare (op : RichCompareOp) (a b : Object) : result Object Object :=
  match a, b with
  | O_Int x, O_Int y => Ok (O_Bool (ordered op (x ?= y)))
  | O_Str u, O_Str v => Ok (O_Bool (ordered op (chars_compare (codes u) (codes v))))
  | _, _ => Err O_TypeError
  end.
Definition is_true (o : Object) : result Object bool :=
  match o with
  | O_Int z => Ok (negb (z =? 0))
  | O_Str s => Ok (negb (String.length s =? 0)%nat)
  | O_Bool b => Ok b
  | O_TypeError | O_NameError => Err O_TypeError
  end.
Definition ascii_only (chars : list Z) : bool := forallb (fun c => (0 <=? c) && (c <? 128)) chars.
#[global] Instance runtime : JitRuntime unit Object := {
  local_entry := local_value;
  raise_unbound_local_error _ _ := (tt, O_NameError);
  module_constant := constant_value;
  unicode_constant := O_Str;
  load_cell _ _ _ := Err O_NameError;
  globals_dict _ := globals;
  key_equal _ _ := false;
  load_global_slow name _ _ := (tt, global_value name);
  runtime_module := 0;
  field_guards _ := None;
  late_bound_field _ := None;
  relocated _ := None;
  object_type _ _ := O_TypeError;
  tp_version_tag _ _ := 0;
  ht_cached_keys _ _ := None;
  inline_values _ _ := mkRawInline true 0 0 (fun _ => None);
  owner_cells _ := None;
  get_attr _ _ _ := (tt, Err O_TypeError);
  raw_long o := match o with O_Int z => Some (long_layout z) | _ => None end;
  exact_unicode o := match o with O_Str s => Some (mkUnicode (codes s) (ascii_only (codes s))) | _ => None end;
  same_object a b := bool_decide (a = b);
  unicode_compare u v := match chars_compare (un_chars u) (un_chars v) with Datatypes.Lt => -1 | Datatypes.Eq => 0 | Datatypes.Gt => 1 end;
  py_number op a b _ := (tt, number op a b);
  py_rich_compare op a b _ := (tt, compare op a b);
  py_is_true o _ := (tt, is_true o);
  py_long_from_i64 z _ := (tt, Ok (O_Int z));
  py_bool := O_Bool
}.
Definition perform (op : InstrOp) (args : list Object) : result Object Object :=
  match op, args with
  | Op_BinOp ((Add | Sub | Mul | And | Or | Xor) as kind), [a; b] => number (number_of kind) a b
  | Op_BinOp ((Eq | Ne | Lt | Le | Gt | Ge) as kind), [a; b] => compare (compare_of kind) a b
  | Op_UnaryOp Truth, [o] => match is_true o with Ok b => Ok (O_Bool b) | Err e => Err e end
  | Op_Load name _, [] =>
      match rn_location name with
      | NL_Local _ => name_value (rn_id name)
      | NL_Global _ => global_value (rn_id name)
      | NL_Constant index => Ok (constant_value index)
      | _ => Err O_NameError
      end
  | _, _ => Err O_TypeError
  end.
#[global] Instance operations : Operations unit Object := {
  performs _ op args _ r := r = perform op args;
  holds o := match o with O_Bool b => b | _ => false end
}.
#[global] Instance laws : RegionLaws unit Object DemoMatch.constants.
Proof.
  refine {| int_object o z := o = O_Int z; py_long := O_Int; attr_key key name := key = O_Str name; recorded _ _ _ := False |}; cbn; try done.
  - intros o value H. destruct o; try done. injection H as <-. unfold long_layout. destruct (Z.ltb_spec (Z.abs z) (2 ^ 30)) as [Hz|]; [|by cbn].
    change (2 ^ 30) with 1073741824 in Hz. cbn. split; [lia|]. intros _. f_equal. cbn [lv_tag ob_digit].
    destruct (Z.eqb_spec z 0) as [->|]; [done|]. destruct (Z.ltb_spec z 0); [change (Z.land 10 3) with 2|change (Z.land 8 3) with 0]; lia.
  - by intros z [] [] o [= <-].
  - intros op a b w w' r [= _ <-]. by destruct op.
  - intros op a b w w' r [= _ <-]. by destruct op.
  - intros o w w' r [= _ <-]. by destruct (is_true o).
  - intros op a b o x y w -> -> ->. by destruct op.
  - intros op a b x y w -> ->. by destruct op.
  - intros op a b u v w Hu Hv. destruct a, b; try done. injection Hu as <-. injection Hv as <-. by destruct op.
  - intros u v. by destruct (chars_compare _ _).
  - intros o u H. destruct o; try done. injection H as <-. cbn. unfold ascii_only, ascii. cbn. rewrite forallb_forall. intros Hc.
    apply Forall_forall. intros c Hin%list_elem_of_In. apply Hc, andb_true_iff in Hin as [H1%Z.leb_le H2%Z.ltb_lt]. lia.
  - intros a b H. by apply bool_decide_eq_true in H.
  - intros name binding l o w -> [E|[kind E]]; unfold name_value; by rewrite E.
  - intros name binding l b w -> E. unfold name_value. by rewrite E.
  - intros name binding l z o w -> E ->. unfold name_value. by rewrite E.
  - intros name binding l w w' e -> E [= _ <-]. unfold name_value. by rewrite E.
  - intros name binding l w ->. done.
  - intros name binding index w ->. done.
  - intros name binding index c o w -> E ->. unfold constant_value. by rewrite E.
  - intros name binding slot w w' r -> [= _ <-]. done.
  - intros name binding slot w o -> [_ _ (values & prefix & actual & [= <-] & [= <-] & Hi & _ & Ha & Hn & Hv)]. cbn in *.
    destruct (Z.eqb_spec (global_slot slot) 0); [|done]. injection Ha as <-. injection Hv as <-. destruct Hn as [Hn%bool_decide_eq_true|]; [|done].
    injection Hn as <-. done.
  - intros o key name w w' r -> [= _ <-]. done.
Defined.
(** [return a < b], where integers were seen at the comparison. *)
Definition less : BlockPyFunction InstrBlockPy :=
  mkBlockPyFunction (mkRuntimeFunctionId 0) "g" FK_Function
    [mkBlock (mkBlockLabel 0) []
       (BT_Return (mkInstr (Some (mkInstrId 8)) (Op_BinOp Lt) [DemoRegion.local "a" 0 6; DemoRegion.local "b" 1 7])) [] None block_context_default].
Lemma less_small : small less.
Proof.
  split; [vm_compute; reflexivity|]. intros b instr i Hb He.
  cbn in Hb. repeat (apply elem_of_cons in Hb as [[= -> ->]|Hb]); [..|by apply not_elem_of_nil in Hb];
    cbn in He; injection He as <-; vm_compute; reflexivity.
Qed.
End DemoCode.

(** [if t > 0] with a [t] of two digits: the guarded path leaves and the general path branches. *)
Lemma planned_code_refines_witness :
  exists hot fallback (m : Machine (Obj := DemoCode.Object)),
    run_source DemoRegion.block None (mkSelection hot (emit_region hot) fallback (emit_region fallback)) (mkMachine tt [])
      = Ok (m, Some (Goes (mkBlockLabel 1), []))
    /\ source_ev tt DemoRegion.block None (m_world m) (Goes (mkBlockLabel 1)) /\ length (m_refs m) = 4%nat.
Proof.
  destruct (planned_code_refines (World := unit) (Obj := DemoCode.Object) DemoRegion.demo DemoMatch.evidence default_catalog ∅ ∅
    DemoRegion.demo_small default_catalog_eq 1%nat DemoRegion.block None _ _ _
    (PS_CompareConstant (mkCompareConstantShape (Some (mkInstrId 8)) (IS_LocalName "t") 0 false
       (mkCompareSpec "binary.gt.py_richcompare" "binary.gt.exact_compact_int.i32bool" "binary.gt.exact_str.i32bool")))
    eq_refl eq_refl eq_refl eq_refl) as (hot & fallback & Hp & H).
  - vm_compute. reflexivity.
  - split; [repeat (apply Forall_cons; split; [by right|]); by apply Forall_nil|done|repeat constructor].
  - destruct (H tt) as (m & exit & kept & Hr & Hs). vm_compute in Hp. injection Hp as <- <-. eexists _, _, m.
    assert (Hr' := Hr). vm_compute in Hr'. injection Hr' as <- <- <-. destruct Hs as [[Hs _]|(e & [=] & _)].
    split; [exact Hr|]. split; [exact Hs|reflexivity].
Defined.

(** [a < b] for [3] and [4]. *)
Lemma tested_code_refines_witness :
  exists hot fallback (m : Machine (Obj := DemoCode.Object)),
    emit_exact_int_return_i32_bool01_selection (mkSelection hot (emit_region hot) fallback (emit_region fallback)) (mkMachine tt []) = Ok (m, Next true)
    /\ balanced (m_refs m) [].
Proof.
  destruct (tested_code_refines (World := unit) (Obj := DemoCode.Object) DemoCode.less DemoMatch.evidence default_catalog ∅ ∅
    DemoCode.less_small default_catalog_eq 0%nat _ None _ _ _
    (PS_IntCompareReturn (mkCompareShape (Some (mkInstrId 8)) (IS_LocalName "a") (IS_LocalName "b")
       (mkCompareSpec "binary.lt.py_richcompare" "binary.lt.exact_compact_int.i32bool" "binary.lt.exact_str.i32bool")))
    eq_refl eq_refl eq_refl eq_refl) as (hot & fallback & Hp & H).
  - vm_compute. reflexivity.
  - reflexivity.
  - split; [apply Forall_cons; split; [by right|]; apply Forall_cons; split; [left; by eexists|by apply Forall_nil]|done|repeat constructor].
  - destruct (H tt) as (m & flow & Hr & Ht). vm_compute in Hp. injection Hp as <- <-. eexists _, _, m.
    assert (Hr' := Hr). vm_compute in Hr'. injection Hr' as <- <-. split; [exact Hr|apply Ht].
Defined.

(** The same runtime without memory for an integer, where the globals have no index. *)
Definition exhausted : JitRuntime unit DemoCode.Object :=
  let r := DemoCode.runtime in {|
  local_entry := local_entry (JitRuntime := r);
  raise_unbound_local_error := raise_unbound_local_error (JitRuntime := r);
  module_constant := module_constant (JitRuntime := r);
  unicode_constant := unicode_constant (JitRuntime := r);
  load_cell := load_cell (JitRuntime := r);
  globals_dict _ := mkRawDict None 0 None;
  key_equal := key_equal (JitRuntime := r);
  load_global_slow _ _ _ := (tt, Ok (DemoCode.O_Int 5));
  runtime_module := runtime_module (JitRuntime := r);
  field_guards := field_guards (JitRuntime := r);
  late_bound_field := late_bound_field (JitRuntime := r);
  relocated := relocated (JitRuntime := r);
  object_type := object_type (JitRuntime := r);
  tp_version_tag := tp_version_tag (JitRuntime := r);
  ht_cached_keys := ht_cached_keys (JitRuntime := r);
  inline_values := inline_values (JitRuntime := r);
  owner_cells := owner_cells (JitRuntime := r);
  get_attr := get_attr (JitRuntime := r);
  raw_long := raw_long (JitRuntime := r);
  exact_unicode := exact_unicode (JitRuntime := r);
  same_object := same_object (JitRuntime := r);
  unicode_compare := unicode_compare (JitRuntime := r);
  py_number := py_number (JitRuntime := r);
  py_rich_compare := py_rich_compare (JitRuntime := r);
  py_is_true := py_is_true (JitRuntime := r);
  py_long_from_i64 _ _ := (tt, Err DemoCode.O_TypeError);
  py_bool := py_bool (JitRuntime := r)
|}.
Lemma boxing_failure_leaks_witness :
  exists hot fallback,
    emit_exact_int_branch_selection (JitRuntime0 := exhausted) (mkSelection hot (emit_region hot) fallback (emit_region fallback)) (mkMachine tt [])
      = Ok (mkMachine tt [Acquired (DemoCode.O_Int 5)], Raised DemoCode.O_TypeError)
    /\ ~ balanced [Acquired (DemoCode.O_Int 5)] [].
Proof.
  eexists _, _.
  apply (boxing_failure_leaks (JitRuntime0 := exhausted) default_catalog (mkRegionId 2) Gt None (mkInstrId 1) "m" "x" 0 7 false
    (mkCompareSpec "binary.gt.py_richcompare" "binary.gt.exact_compact_int.i32bool" "binary.gt.exact_str.i32bool") _ _ tt tt tt).
  - apply default_catalog_eq.
  - reflexivity.
  - vm_compute. reflexivity.
  - reflexivity.
  - reflexivity.
  - reflexivity.
Defined.
